(* ===== verification/_CoqProject ===== *)
-Q . S2P
Prelude.v
KString.v
Bytes.v
Ring.v
KState.v
Riscv.v
Spinlock.v
Kalloc.v
Vm.v
VmTree.v
VmMap.v
VmSpace.v
VmFree.v
VmCopy.v
Sched.v
SleepWake.v
Uart.v
Console.v
Sleeplock.v
Bio.v
Log.v
LogSafe.v
Fs.v
FsPath.v
FsBlock.v
FsInode.v
FsFile.v
FsTrunc.v
FsDir.v
Mkfs.v
MkfsFiles.v
MkfsImage.v
MkfsBoot.v
Pipe.v
PipeFifo.v
File.v
Proc.v
ProcMem.v
ProcFork.v
ProcWait.v
Virtio.v
VirtioSafe.v
VirtioInit.v
Exec.v
Syscall.v
SysFile.v
Trap.v
Main.v
Balance.v
ExecSafe.v
BalanceSys.v
Asm.v
UserTrap.v
Devices.v
Ulib.v
Grep.v
Umalloc.v
UmallocRun.v
Sh.v
ShParse.v
ShPrint.v
ShRun.v
Uprintf.v
Uprogs.v
Bigarray.v
Init.v
