(* ===== verification/Prelude.v ===== *)
(** * A verification development for the xv6 (RISC-V) system of this repository

    The program is a small Unix for RISC-V: the kernel under src/kernel, the
    programs under src/user, and mkfs, which makes the disk image the kernel
    boots from.  This development is a shallow embedding of it: every C
    function is a function of Rocq with the branches, loops, panics and early
    returns of the source, every assembly routine is the list of its
    instructions, and the theorems are about these definitions.

    ** How C becomes Rocq

    - Integers are [Z], kept in the range of their C type by [u8], [u16],
      [u32], [u64] and [s32], written wherever the source may wrap around.
    - Memory is a map from addresses to bytes ([mem]).  Whatever lives in
      pages of [kalloc] lives in it: the free list, page tables, trapframes,
      user memory.  Static tables ([proc], [ftable], [itable], the block
      cache) are lists of records, a pointer into one is an index.
    - Kernel code is in a state and error monad ([M]).  Its outcomes: [Ok],
      with a result; [Panic], with the message; [Sleeps], the process has been
      switched out in [sleep] and goes on later with the definition that is
      named after the loop it is in; [Fault], the C program has no defined
      behaviour; [NoFuel].
    - A spin lock is an element of the set of locks that the CPU holds;
      [acquire] and [release] panic as the source does.  [Spinlock.v] shows
      that real locks on several CPUs implement this.  A definition such as
      [pipewrite] is one run of the function under its locks; interleaving
      matters, and is modelled, in [Spinlock.v], [SleepWake.v] and [Virtio.v],
      and in the rounds of the functions that sleep.
    - A user program is in a monad of its own: memory, the input that [read]
      delivers in pieces of any size, and what has been written ([Ulib.v]); or,
      where it makes other system calls, a tree of its calls ([ShRun.v]) or a
      machine over their answers ([Init.v]).

    ** Fuel

    Loops over a list or a counter recurse on it.  The few loops with no such
    measure take fuel; the fuel is enough because [free_chain] follows at
    most the [NUM] descriptors, [freewalk] goes down at most three levels,
    [skipelem] and [namex] consume the path, and the copy loops advance by at
    least a byte in every round; the theorems about them conclude [Ok], so
    none of them is true because fuel has run out.  For user programs the
    bounds are in the statements: [parsecmd] needs four rounds for a byte of
    the line and five more, [malloc] twice the 16-byte units of the heap and
    three more (two turns around the free list), [read] loops one round for a
    byte of the input, [vprintf] two for a character of the format and one for
    each character of a string.

    ** The files

    Foundations:
    - [Prelude.v]: notations, tactics, hints, machine integers, the monad.
    - [KString.v]: kernel/string.c.  [Bytes.v]: byte arrays and little-endian
      fields.  [Ring.v]: the ring buffers of pipes, console, UART and disk.
    - [KState.v]: the structures of proc.h, file.h, fs.h, buf.h, and the
      global state.  [Riscv.v]: the macros of riscv.h.

    Locks and scheduling:
    - [Spinlock.v] (spinlock.c): mutual exclusion in every interleaving of any
      number of CPUs, the nesting of disabled interrupts, and the refinement
      of lock sets.
    - [Sched.v], [SleepWake.v] (proc.c: sleep, wakeup, yield, the scheduler):
      a process that sleeps is runnable again after [wakeup]; no wakeup is
      lost in any interleaving.
    - [Sleeplock.v] (sleeplock.c).

    Memory:
    - [Kalloc.v] (kalloc.c): after boot and any history of calls no page is
      handed out twice.
    - [Vm.v] (vm.c), with [VmTree.v] ([walk]), [VmMap.v] ([mappages],
      [uvmunmap]), [VmSpace.v], [VmFree.v] (address spaces, [uvmalloc],
      [uvmcopy], [uvmfree]: contents, isolation and an account of every
      page), [VmCopy.v] ([copyout], [copyin], [copyinstr]: safe for every
      user pointer).

    Devices:
    - [Uart.v] (uart.c, printf.c), [Console.v] (console.c): formatting of
      every [int], and line editing as two queues.
    - [Virtio.v], [VirtioSafe.v] (virtio_disk.c): with every device that keeps
      to the virtio contract the driver does not panic, forgets nobody, and
      implements an atomic transfer of one block.  [VirtioInit.v]: the
      initialisation goes through the steps of the virtio protocol in order
      and ends in a device with both rings, or panics.
    - [Devices.v] (plic.c, the registers of uart.c): after initialisation a
      hart is given the interrupts of disk and UART, each once until it
      completes it.

    Files:
    - [Bio.v] (bio.c): the cache and its LRU list; blocks read are the blocks
      last written.
    - [Log.v], [LogSafe.v] (log.c): crash safety.  A crash after any number of
      the disk writes of a commit is repaired to all or nothing, also when
      recovery itself crashes.
    - [Fs.v] (fs.c), with [FsPath.v] (path names, inode layout), [FsBlock.v]
      (bitmap), [FsInode.v] (inode table), [FsFile.v] (files as arrays of
      bytes), [FsTrunc.v] (the last [iput] frees every block of a file),
      [FsDir.v] (directories as maps from names to inodes).
    - [Mkfs.v], [MkfsFiles.v], [MkfsImage.v], [MkfsBoot.v] (mkfs/mkfs.c): the
      image has every file with its contents, no block twice and the bitmap
      right; and the kernel that boots from it finds and reads each file.
    - [Pipe.v], [PipeFifo.v] (pipe.c): pipes are bounded queues of bytes.
    - [File.v] (file.c).

    Processes and system calls:
    - [Proc.v] (proc.c: creation and exit, with [forkn] and [waitall] of this
      repository), [ProcMem.v], [ProcFork.v], [ProcWait.v]: what a process
      owns, [fork], [wait], and the lock that [forkn] leaks.
    - [Exec.v] (exec.c), [Syscall.v] (syscall.c, sysproc.c), [SysFile.v]
      (sysfile.c), [Trap.v] (trap.c), [Main.v] (main.c).
    - [ExecSafe.v]: a failed [exec] leaves the process as it was.
    - [Balance.v], [BalanceSys.v]: a program logic for locks, inode locks,
      buffers and log operations; no system call leaks any of them, and a
      killed process does not return to user space.
    - [Asm.v] (trampoline.S, swtch.S, kernelvec.S, entry.S, start.c): [swtch]
      and back restores a thread, a trap in the kernel is invisible to the code
      it interrupts, timer interrupts come at their interval.  [UserTrap.v]
      puts the trampoline and [usertrap] together: a system call as the user
      program sees it.

    User programs:
    - [Ulib.v] (ulib.c), [Uprintf.v] (printf.c: numbers stay inside of their
      buffer; what a format prints).
    - [Umalloc.v], [UmallocRun.v] (umalloc.c): every answer of [malloc] is
      memory nobody else has, free blocks join, and no sequence of calls and
      stores of a program into its blocks leads to a heap in which the next
      call gets stuck.
    - [Sh.v], [ShParse.v], [ShPrint.v], [ShRun.v] (sh.c): the parser decides
      the grammar of the shell and reads printed commands back; [main] starts
      the programs that the command lines mean, with the right files.
    - [Grep.v] (grep.c: the matcher and the lines that are printed),
      [Uprogs.v] (wc.c, cat.c, echo.c), [Bigarray.v] (bigarray.c), [Init.v]
      (init.c: a shell that exits is started again).

    ** What is assumed

    Hypotheses of theorems only: the layout of the kernel image ([Layout]),
    what devices answer (arguments of the handlers; the contract [dev_may] of
    the disk), the translation of addresses ([Asm.v]; [sv39] in [UserTrap.v] is
    the one of the paging hardware), for user programs the answers of system
    calls ([sbrk] of [Umalloc.v], the pieces [read] delivers), and invariants
    that the theorems themselves maintain.

    ** Not modelled

    The TLB and the order of memory accesses of several CPUs below the locks;
    the inline assembly of riscv.h beyond the control registers of [Asm.v];
    the system call stubs of usys.S, which are generated, and initcode.S;
    ramdisk.c, which is not part of the build.  Of the user programs: the
    tests (usertests.c, grind.c, forktest.c, stressfs.c), the programs that
    only pass their arguments to a system call (kill.c, ln.c, mkdir.c, rm.c,
    zombie.c, helloworld.c, goodbye.c, memsize_test.c), ls.c, and the main
    functions of grep.c, wc.c and cat.c, which open the files. *)

From stdpp Require Export base tactics numbers list gmap strings sorting.
From Stdlib Require Export ZArith Lia.

#[global] Open Scope Z_scope.

(** ** Machine integers

    A C integer is a [Z]; the functions below reduce it to its width. *)

Definition u8 (x : Z) : Z := x mod 2 ^ 8.
Definition u16 (x : Z) : Z := x mod 2 ^ 16.
Definition u32 (x : Z) : Z := x mod 2 ^ 32.
Definition u64 (x : Z) : Z := x mod 2 ^ 64.

(** Conversion to a signed [int]: two's complement on 32 bits. *)
Definition s32 (x : Z) : Z := (x + 2 ^ 31) mod 2 ^ 32 - 2 ^ 31.

Lemma u8_range x : 0 <= u8 x < 256.
Proof. unfold u8. apply Z.mod_pos_bound. lia. Qed.

Lemma u32_range x : 0 <= u32 x < 2 ^ 32.
Proof. unfold u32. apply Z.mod_pos_bound. lia. Qed.

Lemma u64_range x : 0 <= u64 x < 2 ^ 64.
Proof. unfold u64. apply Z.mod_pos_bound. lia. Qed.

Lemma s32_range x : - 2 ^ 31 <= s32 x < 2 ^ 31.
Proof. unfold s32. pose proof (Z.mod_pos_bound (x + 2 ^ 31) (2 ^ 32)). lia. Qed.

Lemma u8_small x : 0 <= x < 256 -> u8 x = x.
Proof. intros. apply Z.mod_small. lia. Qed.

Lemma u32_small x : 0 <= x < 2 ^ 32 -> u32 x = x.
Proof. intros. apply Z.mod_small. lia. Qed.

Lemma u64_small x : 0 <= x < 2 ^ 64 -> u64 x = x.
Proof. intros. apply Z.mod_small. lia. Qed.

Lemma s32_small x : - 2 ^ 31 <= x < 2 ^ 31 -> s32 x = x.
Proof. intros. unfold s32. rewrite Z.mod_small; lia. Qed.

Lemma u8_idemp x : u8 (u8 x) = u8 x.
Proof. apply u8_small, u8_range. Qed.

(** Hints that put the range of a reduced integer in the context. *)
Ltac mrange :=
  repeat match goal with
  | |- context [u8 ?x] =>
      lazymatch goal with H : 0 <= u8 x < 256 |- _ => fail | _ => pose proof (u8_range x) end
  | |- context [u32 ?x] =>
      lazymatch goal with H : 0 <= u32 x < 2 ^ 32 |- _ => fail | _ => pose proof (u32_range x) end
  | |- context [u64 ?x] =>
      lazymatch goal with H : 0 <= u64 x < 2 ^ 64 |- _ => fail | _ => pose proof (u64_range x) end
  end.

(** [lia] after replacing quotients and remainders by their equations. *)
Ltac mlia := Z.div_mod_to_equations; lia.

(** ** Byte-addressed memory

    A finite map from addresses to bytes; an address that was never written
    reads as 0.  Values are reduced to a byte both when stored and when read,
    so that every read is in range without an invariant on the map. *)

Abbreviation mem := (gmap Z Z).

Definition rd (m : mem) (a : Z) : Z := u8 (default 0 (m !! a)).
Definition wr (m : mem) (a v : Z) : mem := <[a := u8 v]> m.

Create HintDb mem.
Create Rewrite HintDb mem.

Lemma rd_range m a : 0 <= rd m a < 256.
Proof. apply u8_range. Qed.

Lemma rd_wr_same m a v : rd (wr m a v) a = u8 v.
Proof. unfold rd, wr. rewrite lookup_insert_eq. simpl. apply u8_idemp. Qed.

Lemma rd_wr_other m a b v : a <> b -> rd (wr m a v) b = rd m b.
Proof. intros. unfold rd, wr. by rewrite lookup_insert_ne. Qed.

Lemma rd_wr m a b v : rd (wr m a v) b = if decide (a = b) then u8 v else rd m b.
Proof.
  destruct (decide (a = b)) as [->|]; [apply rd_wr_same | by apply rd_wr_other].
Qed.

#[export] Hint Rewrite rd_wr_same : mem.
#[export] Hint Resolve rd_range u8_range : mem.

(** Memories that agree on a set of addresses. *)
Definition mem_agree (P : Z -> Prop) (m m' : mem) : Prop :=
  forall a, P a -> rd m' a = rd m a.

(** Equality of memories as functions from addresses to bytes. *)
Definition mem_eq (m m' : mem) : Prop := forall a, rd m' a = rd m a.

#[global] Instance mem_eq_equiv : Equivalence mem_eq.
Proof.
  split.
  - intros m a. reflexivity.
  - intros m m' H a. symmetry. apply H.
  - intros m1 m2 m3 H1 H2 a. rewrite H2. apply H1.
Qed.

#[global] Instance rd_proper : Proper (mem_eq ==> eq ==> eq) rd.
Proof. intros m m' H a a' <-. symmetry. apply H. Qed.

#[global] Instance wr_proper : Proper (mem_eq ==> eq ==> eq ==> mem_eq) wr.
Proof. intros m m' H a a' <- v v' <- b. rewrite !rd_wr. case_decide; auto. Qed.

(** The [n] bytes of [m] that start at [a]. *)
Fixpoint bytes_at (m : mem) (a : Z) (n : nat) : list Z :=
  match n with
  | O => []
  | S n => rd m a :: bytes_at m (a + 1) n
  end.

Lemma length_bytes_at m a n : length (bytes_at m a n) = n.
Proof. revert a. induction n; simpl; auto. Qed.

Lemma bytes_at_lookup m a n i :
  (i < n)%nat -> bytes_at m a n !! i = Some (rd m (a + Z.of_nat i)).
Proof.
  revert a i. induction n as [|n IH]; intros a i Hi; [lia|].
  destruct i as [|i]; simpl.
  - by rewrite Z.add_0_r.
  - rewrite IH by lia. do 2 f_equal. lia.
Qed.

Lemma bytes_at_agree m m' a n :
  (forall b, a <= b < a + Z.of_nat n -> rd m' b = rd m b) ->
  bytes_at m' a n = bytes_at m a n.
Proof.
  revert a. induction n as [|n IH]; intros a H; simpl; [done|].
  f_equal; [apply H; lia|]. apply IH. intros b Hb. apply H. lia.
Qed.

(** ** Effects: state, panic, sleep

    Kernel code runs in a state monad.  A run ends in
    - [Ok a s]: it returned [a];
    - [Panic msg]: it called [panic(msg)], which never returns;
    - [Sleeps s]: it gave up the CPU inside [sleep()], in state [s];
    - [Fault why]: the C program has no defined behaviour (a null
      dereference, an index out of range);
    - [NoFuel]: the bound of a loop that is not structural ran out. *)

Inductive outcome (S A : Type) : Type :=
| Ok (a : A) (s : S)
| Panic (msg : string)
| Sleeps (s : S)
| Fault (why : string)
| NoFuel.
Arguments Ok {S A} a s.
Arguments Panic {S A} msg.
Arguments Sleeps {S A} s.
Arguments Fault {S A} why.
Arguments NoFuel {S A}.

Definition M (S A : Type) : Type := S -> outcome S A.

Section Monad.
Context {S : Type}.

Definition ret {A} (a : A) : M S A := fun s => Ok a s.

Definition bind {A B} (m : M S A) (f : A -> M S B) : M S B := fun s =>
  match m s with
  | Ok a s' => f a s'
  | Panic msg => Panic msg
  | Sleeps s' => Sleeps s'
  | Fault why => Fault why
  | NoFuel => NoFuel
  end.

Definition panic {A} (msg : string) : M S A := fun _ => Panic msg.
Definition fault {A} (why : string) : M S A := fun _ => Fault why.
Definition nofuel {A} : M S A := fun _ => NoFuel.
Definition gets {A} (f : S -> A) : M S A := fun s => Ok (f s) s.
Definition modify (f : S -> S) : M S unit := fun s => Ok tt (f s).

(** A [for] loop over the values [l] of its variable, with its other
    locals in an accumulator: the body goes on with a new accumulator
    ([inl]) or leaves the function with a result ([inr]). *)
Fixpoint for_each {A B R} (l : list A) (acc : B)
    (body : A -> B -> M S (B + R)) : M S (B + R) :=
  match l with
  | [] => ret (inl acc)
  | x :: l =>
      bind (body x acc) (fun r =>
        match r with
        | inl acc => for_each l acc body
        | inr r => ret (inr r)
        end)
  end.

Lemma bind_ok {A B} (m : M S A) (f : A -> M S B) s a s' :
  m s = Ok a s' -> bind m f s = f a s'.
Proof. intros H. unfold bind. by rewrite H. Qed.

Lemma bind_ok_inv {A B} (m : M S A) (f : A -> M S B) s b s'' :
  bind m f s = Ok b s'' -> exists a s', m s = Ok a s' /\ f a s' = Ok b s''.
Proof. unfold bind. destruct (m s) eqn:E; try discriminate. eauto. Qed.

Lemma bind_ret {A B} (a : A) (f : A -> M S B) s : bind (ret a) f s = f a s.
Proof. reflexivity. Qed.

Lemma bind_gets {A B} (f : S -> A) (k : A -> M S B) s : bind (gets f) k s = k (f s) s.
Proof. reflexivity. Qed.

Lemma bind_modify {B} (f : S -> S) (k : unit -> M S B) s : bind (modify f) k s = k tt (f s).
Proof. reflexivity. Qed.

Lemma bind_assoc {A B C} (m : M S A) (f : A -> M S B) (g : B -> M S C) s :
  bind (bind m f) g s = bind m (fun x => bind (f x) g) s.
Proof. unfold bind. by destruct (m s). Qed.

Lemma bind_ret_tt (m : M S unit) s : bind m (fun _ => ret tt) s = m s.
Proof. unfold bind, ret. by destruct (m s) as [[]| | | |]. Qed.

(** Total correctness: the run returns (no panic, sleep or fault) and the
    result satisfies [Q]. *)
Definition wp {A} (m : M S A) (Q : A -> S -> Prop) (s : S) : Prop :=
  exists a s', m s = Ok a s' /\ Q a s'.

Lemma wp_ret {A} (a : A) (Q : A -> S -> Prop) s : Q a s -> wp (ret a) Q s.
Proof. intros. exists a, s. split; [reflexivity|done]. Qed.

Lemma wp_bind {A B} (m : M S A) (f : A -> M S B) (Q : B -> S -> Prop) s :
  wp m (fun a => wp (f a) Q) s -> wp (bind m f) Q s.
Proof.
  intros (a & s' & Hm & b & s'' & Hf & HQ). exists b, s''. split; [|done].
  by rewrite (bind_ok _ _ _ _ _ Hm).
Qed.

Lemma wp_mono {A} (m : M S A) (Q Q' : A -> S -> Prop) s :
  wp m Q s -> (forall a s', Q a s' -> Q' a s') -> wp m Q' s.
Proof. intros (a & s' & Hm & HQ) H. exists a, s'. eauto. Qed.

Lemma wp_gets {A} (f : S -> A) (Q : A -> S -> Prop) s : Q (f s) s -> wp (gets f) Q s.
Proof. intros. exists (f s), s. split; [reflexivity|done]. Qed.

Lemma wp_modify (f : S -> S) (Q : unit -> S -> Prop) s : Q tt (f s) -> wp (modify f) Q s.
Proof. intros. exists tt, (f s). split; [reflexivity|done]. Qed.

(** The result of a loop that never leaves early. *)
Lemma wp_for_each {A B R} (l : list A) (body : A -> B -> M S (B + R))
    (I : list A -> B -> S -> Prop) (acc : B) (s : S) :
  I l acc s ->
  (forall x l' acc s, I (x :: l') acc s ->
     wp (body x acc) (fun r s' => exists acc', r = inl acc' /\ I l' acc' s') s) ->
  wp (for_each l acc body) (fun r s' => exists acc', r = inl acc' /\ I [] acc' s') s.
Proof.
  intros HI Hbody. revert acc s HI.
  induction l as [|x l IH]; intros acc s HI; simpl.
  - apply wp_ret. eauto.
  - apply wp_bind. eapply wp_mono; [apply Hbody; done|].
    intros r s' (acc' & -> & HI'). by apply IH.
Qed.
End Monad.

Declare Scope kernel_scope.
Delimit Scope kernel_scope with kernel.
Notation "'let!' x := m 'in' k" := (bind m (fun x => k))
  (at level 10, x pattern, m at level 99, k at level 200,
   format "'[v' 'let!'  x  :=  m  'in' '/' k ']'") : kernel_scope.
Notation "m ;;; k" := (bind m (fun _ => k))
  (at level 199, right associativity, format "'[v' m ;;; '/' k ']'") : kernel_scope.
#[global] Open Scope kernel_scope.

(** [run_inv H] turns [H : bind m f s = Ok b s''] into the runs of its
    parts. *)
Ltac run_inv H :=
  let a := fresh "a" in let s := fresh "s" in let H1 := fresh "Hr" in
  apply bind_ok_inv in H as (a & s & H1 & H).

(** Decide a boolean test of the code and put its meaning in the context. *)
Ltac case_test :=
  match goal with
  | |- context [?a =? ?b] => destruct (Z.eqb_spec a b)
  | |- context [?a <? ?b] => destruct (Z.ltb_spec a b)
  | |- context [?a <=? ?b] => destruct (Z.leb_spec a b)
  end.

(** ** Little-endian words in memory *)

Fixpoint le_load (n : nat) (m : mem) (a : Z) : Z :=
  match n with
  | O => 0
  | S n => rd m a + 2 ^ 8 * le_load n m (a + 1)
  end.

Fixpoint le_store (n : nat) (m : mem) (a v : Z) : mem :=
  match n with
  | O => m
  | S n => le_store n (wr m a v) (a + 1) (v / 2 ^ 8)
  end.

Definition load64 (m : mem) (a : Z) : Z := le_load 8 m a.
Definition store64 (m : mem) (a v : Z) : mem := le_store 8 m a v.
Definition load32 (m : mem) (a : Z) : Z := le_load 4 m a.
Definition store32 (m : mem) (a v : Z) : mem := le_store 4 m a v.

Section LittleEndian.
Implicit Types m : mem.

Lemma le_load_agree n m m' a :
  (forall b, a <= b < a + Z.of_nat n -> rd m' b = rd m b) ->
  le_load n m' a = le_load n m a.
Proof.
  revert a. induction n as [|n IH]; intros a H; simpl; [done|].
  rewrite H by lia. rewrite IH; [done|]. intros. apply H. lia.
Qed.

Lemma rd_le_store_other n m a v b :
  ~ a <= b < a + Z.of_nat n -> rd (le_store n m a v) b = rd m b.
Proof.
  revert m a v. induction n as [|n IH]; intros m a v H; simpl; [done|].
  rewrite IH by lia. apply rd_wr_other. lia.
Qed.

Lemma le_load_store_same n m a v :
  le_load n (le_store n m a v) a = v mod 2 ^ (8 * Z.of_nat n).
Proof.
  revert m a v. induction n as [|n IH]; intros m a v.
  - simpl. by rewrite Z.mod_1_r.
  - cbn [le_load le_store]. rewrite IH.
    rewrite rd_le_store_other, rd_wr_same by lia. unfold u8.
    replace (8 * Z.of_nat (S n)) with (8 + 8 * Z.of_nat n) by lia.
    rewrite Z.pow_add_r, Z.rem_mul_r by lia. done.
Qed.

Lemma le_load_store_other n n' m a v b :
  b + Z.of_nat n' <= a \/ a + Z.of_nat n <= b ->
  le_load n' (le_store n m a v) b = le_load n' m b.
Proof. intros H. apply le_load_agree. intros. apply rd_le_store_other. lia. Qed.

Lemma le_load_range n m a : 0 <= le_load n m a < 2 ^ (8 * Z.of_nat n).
Proof.
  revert a. induction n as [|n IH]; intros a; [simpl; lia|].
  cbn [le_load]. pose proof (rd_range m a). specialize (IH (a + 1)).
  replace (8 * Z.of_nat (S n)) with (8 + 8 * Z.of_nat n) by lia.
  rewrite Z.pow_add_r by lia. lia.
Qed.

Lemma le_load_zero n m a :
  (forall b, a <= b < a + Z.of_nat n -> rd m b = 0) -> le_load n m a = 0.
Proof.
  revert a. induction n as [|n IH]; intros a H; simpl; [done|].
  rewrite H by lia. rewrite IH; [done|]. intros. apply H. lia.
Qed.

Lemma load64_store64_same m a v : load64 (store64 m a v) a = u64 v.
Proof. apply le_load_store_same. Qed.

Lemma load64_store64_other m a v b :
  b + 8 <= a \/ a + 8 <= b -> load64 (store64 m a v) b = load64 m b.
Proof. intros. apply le_load_store_other. simpl. lia. Qed.

Lemma rd_store64_other m a v b : ~ a <= b < a + 8 -> rd (store64 m a v) b = rd m b.
Proof. intros. apply rd_le_store_other. simpl. lia. Qed.

Lemma load64_range m a : 0 <= load64 m a < 2 ^ 64.
Proof. apply (le_load_range 8). Qed.

Lemma le_load_shift n : forall m m' a a',
  (forall i, 0 <= i < Z.of_nat n -> rd m' (a' + i) = rd m (a + i)) -> le_load n m' a' = le_load n m a.
Proof.
  induction n as [|n IH]; intros m m' a a' H; cbn [le_load]; [done|].
  pose proof (H 0 ltac:(lia)) as H0. rewrite !Z.add_0_r in H0. rewrite H0. f_equal. f_equal. apply IH.
  intros i Hi. rewrite <- !Z.add_assoc. apply H. lia.
Qed.

Lemma load64_shift m m' a a' :
  (forall i, 0 <= i < 8 -> rd m' (a' + i) = rd m (a + i)) -> load64 m' a' = load64 m a.
Proof. apply (le_load_shift 8). Qed.

Lemma load64_agree m m' a :
  (forall b, a <= b < a + 8 -> rd m' b = rd m b) -> load64 m' a = load64 m a.
Proof. intros. apply le_load_agree. simpl. intros. apply H. lia. Qed.
End LittleEndian.

#[global] Opaque load64 store64 load32 store32.
