(* ===== verification/KString.v ===== *)
(** * kernel/string.c: the kernel's memory and string routines

    Each C function is a function on the byte memory of [Prelude.v]; a
    pointer is an address, a [char] a byte (RISC-V [char] is unsigned), and
    a loop recurses on the number of iterations its counter allows.  The
    theorems give the effect of each routine on every address, including
    overlapping copies for [memmove]. *)

From S2P Require Import Prelude.

(** ** The routines *)

(** [for(i = 0; i < n; i++) cdst[i] = c;] *)
Fixpoint memset_loop (k : nat) (i : Z) (m : mem) (dst c : Z) : mem :=
  match k with
  | O => m
  | S k => memset_loop k (i + 1) (wr m (dst + i) c) dst c
  end.

Definition memset (m : mem) (dst c n : Z) : mem :=
  memset_loop (Z.to_nat (u32 n)) 0 m dst c.

(** [while(n-- > 0){ if( *s1 != *s2) return *s1 - *s2; s1++, s2++; }] *)
Fixpoint memcmp_loop (k : nat) (m : mem) (s1 s2 : Z) : Z :=
  match k with
  | O => 0
  | S k =>
      if negb (rd m s1 =? rd m s2) then rd m s1 - rd m s2
      else memcmp_loop k m (s1 + 1) (s2 + 1)
  end.

Definition memcmp (m : mem) (v1 v2 n : Z) : Z :=
  memcmp_loop (Z.to_nat (u32 n)) m v1 v2.

(** [while(n-- > 0) *--d = *--s;] *)
Fixpoint copy_backward (k : nat) (m : mem) (d s : Z) : mem :=
  match k with
  | O => m
  | S k => copy_backward k (wr m (d - 1) (rd m (s - 1))) (d - 1) (s - 1)
  end.

(** [while(n-- > 0) *d++ = *s++;] *)
Fixpoint copy_forward (k : nat) (m : mem) (d s : Z) : mem :=
  match k with
  | O => m
  | S k => copy_forward k (wr m d (rd m s)) (d + 1) (s + 1)
  end.

Definition memmove (m : mem) (dst src n : Z) : mem :=
  let n := u32 n in
  if n =? 0 then m
  else if (src <? dst) && (dst <? src + n)
  then copy_backward (Z.to_nat n) m (dst + n) (src + n)
  else copy_forward (Z.to_nat n) m dst src.

Definition memcpy (m : mem) (dst src n : Z) : mem := memmove m dst src n.

(** [while(n > 0 && *p && *p == *q) n--, p++, q++;] and the final
    comparison. *)
Fixpoint strncmp_loop (k : nat) (m : mem) (p q : Z) : Z :=
  match k with
  | O => 0
  | S k' =>
      if negb (rd m p =? 0) && (rd m p =? rd m q)
      then strncmp_loop k' m (p + 1) (q + 1)
      else rd m p - rd m q
  end.

Definition strncmp (m : mem) (p q n : Z) : Z :=
  strncmp_loop (Z.to_nat (u32 n)) m p q.

(** [while(n-- > 0) *s++ = 0;] *)
Fixpoint zero_fill (k : nat) (m : mem) (s : Z) : mem :=
  match k with
  | O => m
  | S k => zero_fill k (wr m s 0) (s + 1)
  end.

(** [while(n-- > 0 && ( *s++ = *t++) != 0) ;] followed by the zero fill of
    what is left of [n]. *)
Fixpoint strncpy_loop (k : nat) (m : mem) (s t : Z) : mem :=
  match k with
  | O => m
  | S k =>
      let c := rd m t in
      let m := wr m s c in
      if negb (c =? 0) then strncpy_loop k m (s + 1) (t + 1)
      else zero_fill k m (s + 1)
  end.

Definition strncpy (m : mem) (s t n : Z) : mem := strncpy_loop (Z.to_nat n) m s t.

(** [while(--n > 0 && ( *s++ = *t++) != 0) ; *s = 0;] -- [k] is the value
    of [n] after the decrement. *)
Fixpoint safestrcpy_loop (k : nat) (m : mem) (s t : Z) : mem :=
  match k with
  | O => wr m s 0
  | S k =>
      let c := rd m t in
      let m := wr m s c in
      if negb (c =? 0) then safestrcpy_loop k m (s + 1) (t + 1)
      else wr m (s + 1) 0
  end.

Definition safestrcpy (m : mem) (s t n : Z) : mem :=
  if n <=? 0 then m else safestrcpy_loop (Z.to_nat (n - 1)) m s t.

(** [for(n = 0; s[n]; n++) ;] -- [None] when no NUL is met within the
    fuel. *)
Fixpoint strlen_loop (fuel : nat) (m : mem) (s n : Z) : option Z :=
  match fuel with
  | O => None
  | S fuel => if rd m (s + n) =? 0 then Some n else strlen_loop fuel m s (n + 1)
  end.

Definition strlen (fuel : nat) (m : mem) (s : Z) : option Z := strlen_loop fuel m s 0.

(** The characters of the string at [a], up to its NUL or [n] of them. *)
Fixpoint cstrn (n : nat) (m : mem) (a : Z) : list Z :=
  match n with
  | O => []
  | S n => if rd m a =? 0 then [] else rd m a :: cstrn n m (a + 1)
  end.

(** ** Effect of the memory routines *)

Section Memory.
Implicit Types m : mem.

Lemma rd_memset_loop k i m dst c a :
  rd (memset_loop k i m dst c) a =
  if decide (dst + i <= a < dst + i + Z.of_nat k) then u8 c else rd m a.
Proof.
  revert i m. induction k as [|k IH]; intros i m; simpl memset_loop.
  - case_decide; [lia|done].
  - rewrite IH, rd_wr. repeat case_decide; try lia; done.
Qed.

(** Copying downwards from the end reads every source byte before it is
    overwritten when the destination lies above the source. *)
Lemma rd_copy_backward k m d s a :
  s <= d ->
  rd (copy_backward k m d s) a =
  if decide (d - Z.of_nat k <= a < d) then rd m (s + (a - d)) else rd m a.
Proof.
  revert m d s. induction k as [|k IH]; intros m d s Hsd; simpl copy_backward.
  - case_decide; [lia|done].
  - rewrite IH by lia. rewrite !rd_wr.
    repeat case_decide; try lia; try done.
    + f_equal. lia.
    + subst a. rewrite u8_small by apply rd_range. f_equal. lia.
Qed.

Lemma rd_copy_forward k m d s a :
  d <= s \/ s + Z.of_nat k <= d ->
  rd (copy_forward k m d s) a =
  if decide (d <= a < d + Z.of_nat k) then rd m (s + (a - d)) else rd m a.
Proof.
  revert m d s. induction k as [|k IH]; intros m d s Hsd; simpl copy_forward.
  - case_decide; [lia|done].
  - rewrite IH by lia. rewrite !rd_wr.
    repeat case_decide; try lia; try done.
    + f_equal. lia.
    + subst a. rewrite u8_small by apply rd_range. f_equal. lia.
Qed.

Lemma rd_memset m dst c n a :
  0 <= n < 2 ^ 32 ->
  rd (memset m dst c n) a = if decide (dst <= a < dst + n) then u8 c else rd m a.
Proof.
  intros Hn. unfold memset. rewrite rd_memset_loop, u32_small by done.
  rewrite Z2Nat.id by lia. repeat case_decide; try lia; done.
Qed.

(** Overlap or not, every destination byte is the source byte as it was
    before the call and nothing else changes. *)
Lemma rd_memmove m dst src n a :
  0 <= n < 2 ^ 32 ->
  rd (memmove m dst src n) a =
  if decide (dst <= a < dst + n) then rd m (src + (a - dst)) else rd m a.
Proof.
  intros Hn. unfold memmove. rewrite u32_small by done.
  destruct (Z.eqb_spec n 0) as [->|Hn0]; [case_decide; [lia|done]|].
  destruct (Z.ltb_spec src dst), (Z.ltb_spec dst (src + n)); simpl;
    first [rewrite rd_copy_backward by lia | rewrite rd_copy_forward by lia];
    rewrite Z2Nat.id by lia; repeat case_decide; try lia; try done; f_equal; lia.
Qed.

Lemma bytes_at_memmove m dst src n :
  0 <= n < 2 ^ 32 ->
  bytes_at (memmove m dst src n) dst (Z.to_nat n) = bytes_at m src (Z.to_nat n).
Proof.
  intros Hn. apply list_eq. intros i.
  destruct (decide (i < Z.to_nat n)%nat) as [Hi|Hi].
  - rewrite !bytes_at_lookup, rd_memmove by done.
    rewrite decide_True by lia. do 2 f_equal. lia.
  - rewrite !lookup_ge_None_2; rewrite ?length_bytes_at; lia || done.
Qed.

Lemma memcmp_loop_zero k m s1 s2 :
  memcmp_loop k m s1 s2 = 0 <-> bytes_at m s1 k = bytes_at m s2 k.
Proof.
  revert s1 s2. induction k as [|k IH]; intros s1 s2; simpl; [done|].
  destruct (Z.eqb_spec (rd m s1) (rd m s2)) as [He|He]; simpl.
  - rewrite IH, He. split; [by intros ->|intros [=]; done].
  - split; [lia|intros [=]; done].
Qed.
End Memory.

(** ** C strings *)

Section Strings.
Implicit Types m : mem.

Lemma cstrn_length n m a : (length (cstrn n m a) <= n)%nat.
Proof.
  revert a. induction n as [|n IH]; intros a; simpl; [lia|].
  case_match; simpl; [lia|]. specialize (IH (a + 1)). lia.
Qed.

Lemma cstrn_nonzero n m a : Forall (fun c => 0 < c < 256) (cstrn n m a).
Proof.
  revert a. induction n as [|n IH]; intros a; simpl; [constructor|].
  destruct (Z.eqb_spec (rd m a) 0); constructor; auto.
  pose proof (rd_range m a). lia.
Qed.

Lemma cstrn_agree n m m' a :
  (forall b, a <= b < a + Z.of_nat n -> rd m' b = rd m b) ->
  cstrn n m' a = cstrn n m a.
Proof.
  revert a. induction n as [|n IH]; intros a H; simpl; [done|].
  rewrite H by lia. case_match; [done|]. f_equal. apply IH. intros. apply H. lia.
Qed.

Lemma strncmp_loop_zero k m p q :
  strncmp_loop k m p q = 0 <-> cstrn k m p = cstrn k m q.
Proof.
  revert p q. induction k as [|k IH]; intros p q; simpl; [done|].
  destruct (Z.eqb_spec (rd m p) 0) as [Hp|Hp]; simpl;
    [destruct (Z.eqb_spec (rd m q) 0);
       [split; [done|lia] | split; [lia|done]]|].
  destruct (Z.eqb_spec (rd m p) (rd m q)) as [He|He].
  - rewrite IH, <- He. destruct (Z.eqb_spec (rd m p) 0); [done|].
    split; [by intros ->|by intros [=]].
  - split; [lia|]. destruct (Z.eqb_spec (rd m q) 0); congruence.
Qed.

Lemma rd_zero_fill k m s a :
  rd (zero_fill k m s) a =
  if decide (s <= a < s + Z.of_nat k) then 0 else rd m a.
Proof.
  revert m s. induction k as [|k IH]; intros m s; simpl zero_fill.
  - case_decide; [lia|done].
  - rewrite IH, rd_wr. repeat case_decide; try lia; done.
Qed.

(** The byte [strncpy] leaves at offset [i] of its destination: the
    string's character, or 0 from its end on. *)
Lemma rd_strncpy_loop k m s t a :
  s + Z.of_nat k <= t \/ t + Z.of_nat k <= s ->
  rd (strncpy_loop k m s t) a =
  if decide (s <= a < s + Z.of_nat k)
  then default 0 (cstrn k m t !! Z.to_nat (a - s)) else rd m a.
Proof.
  revert m s t. induction k as [|k IH]; intros m s t Hd; simpl strncpy_loop; simpl cstrn.
  - case_decide; [lia|done].
  - destruct (Z.eqb_spec (rd m t) 0) as [H0|H0]; simpl.
    + rewrite rd_zero_fill, rd_wr, H0. change (u8 0) with 0.
      repeat case_decide; try lia; done.
    + rewrite IH, rd_wr by lia.
      rewrite (cstrn_agree _ m) by (intros; apply rd_wr_other; lia).
      destruct (decide (s = a)) as [->|].
      * rewrite decide_False, decide_True by lia.
        rewrite Z.sub_diag. simpl. apply u8_small, rd_range.
      * destruct (decide (s <= a < s + Z.of_nat (S k))).
        -- rewrite decide_True by lia.
           replace (Z.to_nat (a - s)) with (S (Z.to_nat (a - (s + 1)))) by lia. done.
        -- rewrite decide_False by lia. done.
Qed.

Lemma safestrcpy_loop_spec k m s t :
  s + Z.of_nat k < t \/ t + Z.of_nat k <= s ->
  cstrn (S k) (safestrcpy_loop k m s t) s = cstrn k m t /\
  (exists i, 0 <= i <= Z.of_nat k /\ rd (safestrcpy_loop k m s t) (s + i) = 0) /\
  (forall a, ~ s <= a <= s + Z.of_nat k -> rd (safestrcpy_loop k m s t) a = rd m a).
Proof.
  revert m s t. induction k as [|k IH]; intros m s t Hd.
  - simpl. rewrite rd_wr_same. change (u8 0) with 0. split_and!; [done| |].
    + exists 0. rewrite Z.add_0_r, rd_wr_same. split; [lia|done].
    + intros a Ha. apply rd_wr_other. lia.
  - cbn [safestrcpy_loop]. destruct (Z.eqb_spec (rd m t) 0) as [H0|H0]; simpl negb; cbn iota.
    + rewrite H0. split_and!.
      * cbn [cstrn]. rewrite rd_wr_other, rd_wr_same, H0 by lia. done.
      * exists 0. rewrite Z.add_0_r, rd_wr_other, rd_wr_same by lia. split; [lia|done].
      * intros a Ha. rewrite !rd_wr_other by lia. done.
    + destruct (IH (wr m s (rd m t)) (s + 1) (t + 1)) as (Hs & (i & Hi & Hz) & Hf); [lia|].
      split_and!.
      * set (m' := safestrcpy_loop _ _ _ _) in *.
        change (cstrn (S (S k)) m' s) with
          (if rd m' s =? 0 then [] else rd m' s :: cstrn (S k) m' (s + 1)).
        change (cstrn (S k) m t) with
          (if rd m t =? 0 then [] else rd m t :: cstrn k m (t + 1)).
        rewrite Hs, Hf, rd_wr_same, u8_small by (apply rd_range || lia).
        destruct (Z.eqb_spec (rd m t) 0); [done|]. f_equal.
        apply cstrn_agree. intros. apply rd_wr_other. lia.
      * exists (i + 1). split; [lia|]. rewrite <- Hz. f_equal. lia.
      * intros a Ha. rewrite Hf, rd_wr_other by lia. done.
Qed.

Lemma strlen_loop_spec fuel m s n :
  0 <= n ->
  (exists i, n <= i < n + Z.of_nat fuel /\ rd m (s + i) = 0) ->
  strlen_loop fuel m s n = Some (n + Z.of_nat (length (cstrn fuel m (s + n)))).
Proof.
  revert n. induction fuel as [|k IH]; intros n Hn (i & Hi & Hz); [lia|].
  cbn [strlen_loop cstrn]. destruct (Z.eqb_spec (rd m (s + n)) 0) as [H0|H0].
  - simpl. f_equal. lia.
  - rewrite IH.
    + replace (s + (n + 1)) with (s + n + 1) by lia. simpl length. f_equal. lia.
    + lia.
    + exists i. split; [|done]. destruct (decide (i = n)); [by subst|]. lia.
Qed.
End Strings.

#[global] Opaque memset memmove.
