(* ===== verification/Bytes.v ===== *)
(** * Byte arrays

    Disk blocks and on-disk structures are arrays of bytes: lists of fixed
    length.  Little-endian integers inside of them, copies of ranges, and the
    laws the file system uses. *)

From S2P Require Import Prelude.

(** The [n]-byte little-endian integer at offset [o], and its update. *)
Fixpoint get_le (n : nat) (l : list Z) (o : nat) : Z :=
  match n with
  | O => 0
  | S n => nth o l 0 + 256 * get_le n l (S o)
  end.

Fixpoint put_le (n : nat) (l : list Z) (o : nat) (v : Z) : list Z :=
  match n with
  | O => l
  | S n => put_le n (<[o := u8 v]> l) (S o) (v / 256)
  end.

Definition get16 (l : list Z) (o : nat) : Z := get_le 2 l o.
Definition get32 (l : list Z) (o : nat) : Z := get_le 4 l o.
Definition put16 (l : list Z) (o : nat) (v : Z) : list Z := put_le 2 l o v.
Definition put32 (l : list Z) (o : nat) (v : Z) : list Z := put_le 4 l o v.

(** The [n] bytes at offset [o], and their replacement by [bs]. *)
Definition get_bytes (l : list Z) (o n : nat) : list Z := take n (drop o l).
Definition put_bytes (l : list Z) (o : nat) (bs : list Z) : list Z :=
  take o l ++ bs ++ drop (o + length bs) l.

(** The C string at the start of an array. *)
Fixpoint cstr (l : list Z) : list Z :=
  match l with
  | [] => []
  | c :: l => if c =? 0 then [] else c :: cstr l
  end.

(** Arrays of bytes. *)
Definition byte_list (l : list Z) : Prop := Forall (fun b => 0 <= b < 256) l.

(** ** Lengths *)

Lemma length_put_le n l o v : length (put_le n l o v) = length l.
Proof. revert l o v. induction n as [|n IH]; intros; simpl; [done|]. by rewrite IH, length_insert. Qed.

Lemma length_get_bytes l o n : (o + n <= length l)%nat -> length (get_bytes l o n) = n.
Proof. intros H. unfold get_bytes. rewrite length_take, length_drop. lia. Qed.

Lemma length_put_bytes l o bs : (o + length bs <= length l)%nat -> length (put_bytes l o bs) = length l.
Proof. intros H. unfold put_bytes. rewrite !length_app, length_take, length_drop. lia. Qed.

(** ** Integers *)

Lemma nth_insert_eq (l : list Z) i v d : (i < length l)%nat -> nth i (<[i := v]> l) d = v.
Proof. intros H. apply nth_lookup_Some. by rewrite list_lookup_insert_eq. Qed.

Lemma nth_insert_ne (l : list Z) i j v d : i <> j -> nth j (<[i := v]> l) d = nth j l d.
Proof. intros H. by rewrite !nth_lookup, list_lookup_insert_ne. Qed.

Lemma nth_put_le n l o v j d :
  (j < o \/ o + n <= j)%nat -> nth j (put_le n l o v) d = nth j l d.
Proof.
  revert l o v. induction n as [|n IH]; intros l o v H; simpl; [done|].
  rewrite IH by lia. apply nth_insert_ne. lia.
Qed.

Lemma get_le_ext n l l' o :
  (forall j, (o <= j < o + n)%nat -> nth j l 0 = nth j l' 0) -> get_le n l o = get_le n l' o.
Proof.
  revert o. induction n as [|n IH]; intros o H; simpl; [done|]. rewrite H by lia. f_equal.
  f_equal. apply IH. intros j Hj. apply H. lia.
Qed.

Lemma get_put_le_other n m l o o' v :
  (o + n <= o' \/ o' + m <= o)%nat -> get_le n (put_le m l o' v) o = get_le n l o.
Proof. intros H. apply get_le_ext. intros j Hj. apply nth_put_le. lia. Qed.

Lemma get_put_le_same n l o v :
  (o + n <= length l)%nat -> get_le n (put_le n l o v) o = v mod 256 ^ Z.of_nat n.
Proof.
  revert l o v. induction n as [|n IH]; intros l o v H; cbn [get_le put_le].
  - by rewrite Z.mod_1_r.
  - rewrite nth_put_le by lia. rewrite nth_insert_eq by lia. rewrite IH by (rewrite length_insert; lia).
    rewrite Nat2Z.inj_succ, Z.pow_succ_r by lia. unfold u8. change (2 ^ 8) with 256.
    rewrite Z.rem_mul_r by lia. done.
Qed.

Lemma get_le_range n l o : byte_list l -> 0 <= get_le n l o < 256 ^ Z.of_nat n.
Proof.
  intros Hb. revert o. induction n as [|n IH]; intros o; cbn [get_le]; [simpl; lia|].
  rewrite Nat2Z.inj_succ, Z.pow_succ_r by lia. specialize (IH (S o)).
  assert (0 <= nth o l 0 < 256); [|lia].
  rewrite nth_lookup. destruct (l !! o) as [b|] eqn:E; simpl; [|lia].
  unfold byte_list in Hb. rewrite Forall_lookup in Hb. by apply (Hb o).
Qed.

Lemma byte_list_insert l i v : byte_list l -> 0 <= v < 256 -> byte_list (<[i := v]> l).
Proof. intros H Hv. by apply Forall_insert. Qed.

Lemma byte_list_put_le n l o v : byte_list l -> byte_list (put_le n l o v).
Proof.
  revert l o v. induction n as [|n IH]; intros l o v H; simpl; [done|].
  apply IH, byte_list_insert; [done|apply u8_range].
Qed.

(** ** Ranges *)

Lemma get_put_bytes_same l o bs : (o + length bs <= length l)%nat -> get_bytes (put_bytes l o bs) o (length bs) = bs.
Proof.
  intros H. unfold get_bytes, put_bytes. rewrite drop_app_le by (rewrite length_take; lia).
  rewrite drop_ge by (rewrite length_take; lia). simpl. by rewrite take_app_length.
Qed.

Lemma lookup_put_bytes l o bs i :
  (o + length bs <= length l)%nat ->
  put_bytes l o bs !! i =
  if decide (o <= i < o + length bs)%nat then bs !! (i - o)%nat else l !! i.
Proof.
  intros H. unfold put_bytes. destruct (decide (i < o)%nat).
  - rewrite decide_False by lia. rewrite lookup_app_l by (rewrite length_take; lia). by rewrite lookup_take_lt.
  - rewrite lookup_app_r by (rewrite length_take; lia). rewrite length_take, Nat.min_l by lia.
    destruct (decide (i < o + length bs)%nat).
    + rewrite decide_True by lia. by rewrite lookup_app_l by lia.
    + rewrite decide_False by lia. rewrite lookup_app_r by lia. rewrite lookup_drop. f_equal. lia.
Qed.

Lemma lookup_get_bytes l o n i :
  (i < n)%nat -> get_bytes l o n !! i = l !! (o + i)%nat.
Proof. intros H. unfold get_bytes. by rewrite lookup_take_lt, lookup_drop. Qed.

Lemma get_put_bytes_other l o bs o' n :
  (o + length bs <= length l)%nat -> (o' + n <= o \/ o + length bs <= o')%nat ->
  get_bytes (put_bytes l o bs) o' n = get_bytes l o' n.
Proof.
  intros H Hd. apply list_eq. intros i. destruct (decide (i < n)%nat).
  - rewrite !lookup_get_bytes by done. rewrite lookup_put_bytes, decide_False by lia. done.
  - rewrite !lookup_ge_None_2; [done| |]; unfold get_bytes; rewrite length_take; lia.
Qed.

Lemma byte_list_put_bytes l o bs : byte_list l -> byte_list bs -> byte_list (put_bytes l o bs).
Proof.
  intros H Hb. unfold put_bytes, byte_list. rewrite !Forall_app.
  split; [by apply Forall_take|]. split; [done|by apply Forall_drop].
Qed.

Lemma byte_list_get_bytes l o n : byte_list l -> byte_list (get_bytes l o n).
Proof. intros H. by apply Forall_take, Forall_drop. Qed.

Lemma byte_list_app a b : byte_list (a ++ b) <-> byte_list a /\ byte_list b.
Proof. apply Forall_app. Qed.

Lemma byte_list_replicate n : byte_list (replicate n 0).
Proof. apply Forall_replicate. lia. Qed.

(** Zeroes. *)
Lemma nth_zeroes n k : nth k (replicate n 0) 0 = 0.
Proof. rewrite nth_lookup. destruct (replicate n 0 !! k) eqn:E; [|done]. by apply lookup_replicate in E as [-> _]. Qed.

Lemma get_le_zeroes k n o : get_le k (replicate n 0) o = 0.
Proof. revert o. induction k as [|k IH]; intros o; cbn [get_le]; [done|]. by rewrite nth_zeroes, IH. Qed.

(** ** Bytes stored in memory *)

(** Bytes [l] stored at [a]: a [memmove] from a kernel buffer. *)
Fixpoint wr_bytes (m : mem) (a : Z) (l : list Z) : mem :=
  match l with
  | [] => m
  | b :: l => wr_bytes (wr m a b) (a + 1) l
  end.

Lemma rd_wr_bytes m a l b :
  rd (wr_bytes m a l) b =
  match l !! Z.to_nat (b - a) with
  | Some v => if decide (a <= b) then u8 v else rd m b
  | None => rd m b
  end.
Proof.
  revert m a. induction l as [|v l IH]; intros m a; cbn [wr_bytes]; [done|].
  rewrite IH. destruct (decide (b < a + 1)).
  - replace (Z.to_nat (b - (a + 1))) with 0%nat by lia.
    replace (Z.to_nat (b - a)) with 0%nat by lia. cbn [lookup list_lookup].
    assert (Hx : forall o : option Z, match o with Some v0 => if decide (a + 1 <= b) then u8 v0 else
       rd (wr m a v) b | None => rd (wr m a v) b end = rd (wr m a v) b)
      by (intros [x|]; [by rewrite decide_False by lia|done]).
    rewrite Hx, rd_wr. repeat case_decide; try lia; done.
  - replace (Z.to_nat (b - a)) with (S (Z.to_nat (b - (a + 1)))) by lia. cbn [lookup list_lookup].
    rewrite rd_wr_other by lia. destruct (l !! _); [|done]. by rewrite !decide_True by lia.
Qed.

Lemma bytes_at_wr m a l n i :
  (forall j, (j < n)%nat -> rd (wr_bytes m a l) (i + Z.of_nat j) = rd m (i + Z.of_nat j)) -> bytes_at (wr_bytes m a l) i n = bytes_at m i n.
Proof. intros H. apply list_eq. intros j. destruct (decide (j < n)%nat) as [Hj|Hj].
  - rewrite !bytes_at_lookup by done. f_equal. by apply H.
  - rewrite !lookup_ge_None_2 by (rewrite length_bytes_at; lia). done.
Qed.

Lemma bytes_at_wr_same m a l : byte_list l -> bytes_at (wr_bytes m a l) a (length l) = l.
Proof.
  intros Hb. apply list_eq. intros j. destruct (decide (j < length l)%nat) as [Hj|Hj].
  - rewrite bytes_at_lookup by done. destruct (lookup_lt_is_Some_2 l j Hj) as [x Hx]. rewrite Hx, rd_wr_bytes.
    replace (Z.to_nat (a + Z.of_nat j - a)) with j by lia. rewrite Hx, decide_True by lia. f_equal. apply u8_small.
    unfold byte_list in Hb. rewrite Forall_lookup in Hb. by apply (Hb j).
  - rewrite !lookup_ge_None_2; [done|lia|rewrite length_bytes_at; lia].
Qed.
