(* ===== verification/Ring.v ===== *)
(** * Ring buffers with wrapping indices

    The UART's transmit buffer, pipes and the console's input buffer share
    one layout: an array of [N] bytes and two counters that only grow, modulo
    [M]; the array index is the counter modulo [N].  [ring_list] is the queue
    such a buffer holds. *)

From S2P Require Import Prelude.

Section Ring.
Variables (N M : Z).
Hypothesis (HN : 0 < N) (HNM : N < M) (Hdiv : (N | M)).

(** The number of elements between the counters [r] and [w]. *)
Definition ring_len (r w : Z) : Z := (w - r) mod M.

(** The elements, oldest first. *)
Definition ring_list (buf : list Z) (r w : Z) : list Z :=
  (fun i => nth (Z.to_nat ((r + i) mod N)) buf 0) <$> seqZ 0 (ring_len r w).

Record ring_ok (buf : list Z) (r w : Z) : Prop := {
  ring_size : length buf = Z.to_nat N;
  ring_r : 0 <= r < M;
  ring_w : 0 <= w < M;
  ring_fits : ring_len r w <= N
}.

Lemma ring_len_range r w : 0 <= ring_len r w < M.
Proof. apply Z.mod_pos_bound. lia. Qed.

Lemma ring_mod_mod x : (x mod M) mod N = x mod N.
Proof. by apply Z.mod_mod_divide. Qed.

Lemma ring_length buf r w : length (ring_list buf r w) = Z.to_nat (ring_len r w).
Proof. unfold ring_list. by rewrite length_fmap, length_seqZ. Qed.

Lemma ring_empty r w : 0 <= r < M -> 0 <= w < M -> (w = r <-> ring_len r w = 0).
Proof.
  intros Hr Hw. unfold ring_len. split; [intros ->; rewrite Z.sub_diag; apply Z.mod_0_l; lia|].
  intros H. destruct (Z.mod_divide (w - r) M) as [Hd _]; [lia|]. destruct (Hd H) as [k Hk].
  destruct (Z.lt_trichotomy k 0) as [?|[->|?]]; nia.
Qed.

Lemma ring_full r w : 0 <= r < M -> 0 <= w < M -> (w = (r + N) mod M <-> ring_len r w = N).
Proof.
  intros Hr Hw. unfold ring_len. split.
  - intros ->. rewrite Zminus_mod_idemp_l. replace (r + N - r) with N by lia. apply Z.mod_small. lia.
  - intros H. rewrite <- H. rewrite Zplus_mod_idemp_r. replace (r + (w - r)) with w by lia.
    symmetry. by apply Z.mod_small.
Qed.

Lemma ring_len_push r w : ring_len r w < N -> ring_len r ((w + 1) mod M) = ring_len r w + 1.
Proof.
  intros H. pose proof (ring_len_range r w). unfold ring_len in *. rewrite Zminus_mod_idemp_l.
  replace (w + 1 - r) with ((w - r) + 1) by lia. rewrite <- Zplus_mod_idemp_l. apply Z.mod_small. lia.
Qed.

Lemma ring_len_pop r w : 0 < ring_len r w -> ring_len ((r + 1) mod M) w = ring_len r w - 1.
Proof.
  intros H. pose proof (ring_len_range r w). unfold ring_len in *. rewrite Zminus_mod_idemp_r.
  replace (w - (r + 1)) with ((w - r) - 1) by lia. rewrite <- Zminus_mod_idemp_l. apply Z.mod_small. lia.
Qed.

(** The slot of the next element is not in use. *)
Lemma ring_slot r w i :
  0 <= i < ring_len r w -> ring_len r w < N -> (r + i) mod N <> w mod N.
Proof.
  intros Hi Hl E. assert (Ew : w mod N = (r + ring_len r w) mod N).
  { unfold ring_len. rewrite <- (ring_mod_mod (r + _)), Zplus_mod_idemp_r, ring_mod_mod. f_equal. lia. }
  rewrite Ew in E. assert (Hd : (N | ring_len r w - i)).
  { apply Z.mod_divide; [lia|]. replace (ring_len r w - i) with ((r + ring_len r w) - (r + i)) by lia.
    by rewrite Zminus_mod, E, Z.sub_diag, Z.mod_0_l by lia. }
  apply Z.divide_pos_le in Hd; lia.
Qed.

(** A store to the slot of the next element is not seen before the counter
    moves. *)
Lemma ring_write buf r w c :
  ring_len r w < N -> ring_list (<[Z.to_nat (w mod N) := c]> buf) r w = ring_list buf r w.
Proof.
  intros Hl. assert (Hm : forall x, 0 <= x mod N < N) by (intros; apply Z.mod_pos_bound; lia).
  unfold ring_list. apply list_fmap_ext. intros j x Hx. apply lookup_seqZ in Hx as [-> Hx].
  rewrite !nth_lookup, list_lookup_insert_ne; [done|].
  pose proof (ring_slot r w (0 + Z.of_nat j) ltac:(lia) Hl) as Hne.
  pose proof (Hm w). pose proof (Hm (r + (0 + Z.of_nat j))). lia.
Qed.

Lemma ring_push buf r w c :
  ring_ok buf r w -> ring_len r w < N ->
  let buf' := <[Z.to_nat (w mod N) := c]> buf in
  ring_ok buf' r ((w + 1) mod M) /\ ring_list buf' r ((w + 1) mod M) = ring_list buf r w ++ [c].
Proof.
  intros [Hs Hr Hw Hf] Hl buf'. assert (Hm : forall x, 0 <= x mod N < N) by (intros; apply Z.mod_pos_bound; lia).
  split.
  - split; [unfold buf'; by rewrite length_insert|done|apply Z.mod_pos_bound; lia|]. rewrite ring_len_push; lia.
  - pose proof (ring_len_range r w) as Hlr. unfold ring_list. rewrite ring_len_push by done.
    rewrite seqZ_app by lia. rewrite fmap_app. f_equal.
    + exact (ring_write buf r w c Hl).
    + rewrite seqZ_cons by lia. simpl. rewrite Z.add_0_l. unfold buf'. rewrite nth_lookup.
      replace ((r + ring_len r w) mod N) with (w mod N).
      * rewrite list_lookup_insert_eq; [done|]. pose proof (Hm w). lia.
      * unfold ring_len. rewrite <- (ring_mod_mod (r + _)), Zplus_mod_idemp_r, ring_mod_mod. f_equal. lia.
Qed.

(** The counter moves over a slot written before. *)
Lemma ring_extend buf r w :
  ring_ok buf r w -> ring_len r w < N ->
  ring_ok buf r ((w + 1) mod M) /\ ring_list buf r ((w + 1) mod M) = ring_list buf r w ++ [nth (Z.to_nat (w mod N)) buf 0].
Proof.
  intros O Hl. pose proof (ring_push buf r w (nth (Z.to_nat (w mod N)) buf 0) O Hl) as H. cbn zeta in H.
  rewrite list_insert_id in H; [exact H|]. rewrite nth_lookup.
  destruct (lookup_lt_is_Some_2 buf (Z.to_nat (w mod N))) as [x Hx]; [|by rewrite Hx].
  rewrite (ring_size _ _ _ O). pose proof (Z.mod_pos_bound w N HN). lia.
Qed.

Lemma ring_pop buf r w :
  ring_ok buf r w -> 0 < ring_len r w ->
  ring_ok buf ((r + 1) mod M) w /\
  ring_list buf r w = nth (Z.to_nat (r mod N)) buf 0 :: ring_list buf ((r + 1) mod M) w.
Proof.
  intros [Hs Hr Hw Hf] Hl. split.
  - split; [done|apply Z.mod_pos_bound; lia|done|]. rewrite ring_len_pop; lia.
  - unfold ring_list. rewrite ring_len_pop by done. rewrite seqZ_cons by lia. simpl. f_equal.
    + by rewrite Z.add_0_r.
    + change (Z.succ 0) with (0 + 1). rewrite (Z.add_comm 0 1), <- (Z.add_0_r 1) at 1.
      rewrite <- fmap_add_seqZ, <- list_fmap_compose. replace (Z.pred (ring_len r w)) with (ring_len r w - 1) by lia.
      apply list_fmap_ext. intros j x _. simpl. do 2 f_equal.
      rewrite <- (ring_mod_mod ((r + 1) mod M + x)), Zplus_mod_idemp_l, ring_mod_mod. f_equal. lia.
Qed.

(** A third counter between the two. *)
Lemma ring_len_split r w e :
  ring_len r w <= ring_len r e -> ring_len r e = ring_len r w + ring_len w e.
Proof.
  intros H. pose proof (ring_len_range r w). pose proof (ring_len_range r e). unfold ring_len in *.
  assert (E : (e - w) mod M = (e - r) mod M - (w - r) mod M); [|lia].
  rewrite <- (Z.mod_small ((e - r) mod M - (w - r) mod M) M) by lia.
  rewrite <- Zminus_mod. f_equal. lia.
Qed.

Lemma ring_split buf r w e :
  ring_len r w <= ring_len r e -> ring_list buf r e = ring_list buf r w ++ ring_list buf w e.
Proof.
  intros H. pose proof (ring_len_range r w). pose proof (ring_len_range w e). unfold ring_list.
  rewrite (ring_len_split r w e H), seqZ_app, fmap_app by lia. f_equal.
  rewrite (Z.add_comm 0 (ring_len r w)), <- fmap_add_seqZ, <- list_fmap_compose.
  apply list_fmap_ext. intros j x _. simpl. do 2 f_equal.
  unfold ring_len. rewrite <- (ring_mod_mod (r + _)). rewrite Z.add_assoc, <- (Zplus_mod_idemp_l (r + _)).
  rewrite Zplus_mod_idemp_r. replace (r + (w - r)) with w by lia. by rewrite Zplus_mod_idemp_l, ring_mod_mod.
Qed.

(** The newest element is taken back. *)
Lemma ring_len_unpush r w : 0 < ring_len r w -> ring_len r ((w - 1) mod M) = ring_len r w - 1.
Proof.
  intros H. pose proof (ring_len_range r w). unfold ring_len in *. rewrite Zminus_mod_idemp_l.
  replace (w - 1 - r) with ((w - r) - 1) by lia. rewrite <- Zminus_mod_idemp_l. apply Z.mod_small. lia.
Qed.

Lemma ring_unpush buf r w :
  0 < ring_len r w ->
  ring_list buf r w = ring_list buf r ((w - 1) mod M) ++ [nth (Z.to_nat ((w - 1) mod N)) buf 0].
Proof.
  intros H. pose proof (ring_len_range r w). unfold ring_list. rewrite ring_len_unpush by done.
  replace (ring_len r w) with ((ring_len r w - 1) + 1) at 1 by lia. rewrite seqZ_app, fmap_app by lia. f_equal.
  rewrite seqZ_cons by lia. simpl. do 3 f_equal.
  unfold ring_len. rewrite <- (ring_mod_mod (r + _)). rewrite Z.add_0_l.
  replace (r + ((w - r) mod M - 1)) with (r - 1 + (w - r) mod M) by lia. rewrite Zplus_mod_idemp_r, ring_mod_mod.
  f_equal. lia.
Qed.

End Ring.
