(* ===== verification/KState.v ===== *)
(** * The kernel's data: constants, structures and the global state

    The structures of kernel/proc.h, file.h, fs.h, buf.h, pipe.c, log.c,
    console.c and uart.c as records with the source's fields, and the state
    of the whole kernel as one record of its globals.  A pointer into a
    static table ([proc[]], [ftable.file[]], [itable.inode[]],
    [bcache.buf[]]) is an index, a null pointer [None]; a pointer to a page
    handed out by [kalloc] is its address.  [set_f v r] is the record [r]
    with field [f] set to [v]. *)

From S2P Require Import Prelude.

(** ** Constants of param.h, memlayout.h, riscv.h and fs.h *)

Definition NPROC : nat := 64.
Definition NCPU : nat := 8.
Definition NOFILE : nat := 16.
Definition NFILE : nat := 100.
Definition NINODE : nat := 50.
Definition NDEV : Z := 10.
Definition ROOTDEV : Z := 1.
Definition MAXARG : nat := 32.
Definition MAXOPBLOCKS : Z := 10.
Definition LOGSIZE : Z := MAXOPBLOCKS * 3.
Definition NBUF : nat := Z.to_nat (MAXOPBLOCKS * 3).
Definition FSSIZE : Z := 2000.
Definition MAXPATH : Z := 128.

Definition PGSIZE : Z := 4096.
Definition PGSHIFT : Z := 12.

Definition UART0 : Z := 0x10000000.
Definition VIRTIO0 : Z := 0x10001000.
Definition PLIC : Z := 0x0c000000.
Definition KERNBASE : Z := 0x80000000.
Definition PHYSTOP : Z := KERNBASE + 128 * 1024 * 1024.
Definition MAXVA : Z := Z.shiftl 1 (9 + 9 + 9 + 12 - 1).
Definition TRAMPOLINE : Z := MAXVA - PGSIZE.
Definition KSTACK (p : Z) : Z := TRAMPOLINE - (p + 1) * 2 * PGSIZE.
Definition TRAPFRAME : Z := TRAMPOLINE - PGSIZE.

Definition BSIZE : Z := 1024.
Definition NDIRECT : Z := 12.
Definition NINDIRECT : Z := BSIZE / 4.
Definition MAXFILE : Z := NDIRECT + NINDIRECT.
Definition PIPESIZE : Z := 512.
Definition INPUT_BUF_SIZE : Z := 128.
Definition UART_TX_BUF_SIZE : Z := 32.

(** Addresses that the linker chooses (kernel.ld): the first address after
    the kernel image, the end of its text, the trampoline page, and the
    entry points stored in contexts and trapframes. *)
Class Layout : Type := {
  l_end : Z;
  l_etext : Z;
  l_trampoline : Z;
  l_forkret : Z;
  l_usertrap : Z
}.

(** What kernel.ld and memlayout.h promise about them. *)
Class LayoutOk (L : Layout) : Prop := {
  l_end_ram : KERNBASE < l_end < PHYSTOP;
  l_etext_ram : KERNBASE < l_etext < l_end;
  l_etext_aligned : l_etext mod PGSIZE = 0;
  l_trampoline_ram : KERNBASE <= l_trampoline < l_etext;
  l_trampoline_aligned : l_trampoline mod PGSIZE = 0
}.

(** The addresses of the kernel image in this repository (kernel.sym). *)
Definition kernel_sym : Layout := {|
  l_end := 0x80022580; l_etext := 0x80008000; l_trampoline := 0x80007000;
  l_forkret := 0x800019e4; l_usertrap := 0x80002ca2
|}.

Lemma kernel_sym_ok : LayoutOk kernel_sym.
Proof. split; vm_compute; intuition discriminate. Qed.

(** A kernel image that leaves [n] pages of RAM, for evaluating examples. *)
Definition small_layout (n : Z) : Layout := {|
  l_end := PHYSTOP - n * PGSIZE; l_etext := 0x80008000; l_trampoline := 0x80007000;
  l_forkret := 0x800019e4; l_usertrap := 0x80002ca2
|}.

Lemma small_layout_ok n : 0 < n < 1024 -> LayoutOk (small_layout n).
Proof.
  intros Hn. split; simpl; unfold PHYSTOP, KERNBASE, PGSIZE; try lia; reflexivity.
Qed.

(** ** Locks and sleep channels *)

(** A sleep lock sits in an inode table entry or in a cache buffer. *)
Inductive sleeplock_id : Type := sl_inode (i : nat) | sl_buf (i : nat).

(** The spin locks of the kernel. *)
Inductive lock : Type :=
| kmem_lock | pid_lock | wait_lock | tickslock | ftable_lock | itable_lock
| log_lock | bcache_lock | cons_lock | uart_tx_lock | vdisk_lock | pr_lock
| proc_lock (i : nat)
| pipe_lock (pi : Z)
| sleeplk (sl : sleeplock_id).

(** The addresses the kernel sleeps on. *)
Inductive chan : Type :=
| ch_proc (i : nat)
| ch_ticks
| ch_log
| ch_cons_r
| ch_uart_tx_r
| ch_disk_free
| ch_nread (pi : Z)
| ch_nwrite (pi : Z)
| ch_sleeplock (sl : sleeplock_id).

#[global] Instance sleeplock_id_eq_dec : EqDecision sleeplock_id.
Proof. solve_decision. Defined.
#[global] Instance lock_eq_dec : EqDecision lock.
Proof. solve_decision. Defined.
#[global] Instance chan_eq_dec : EqDecision chan.
Proof. solve_decision. Defined.

(** ** Structures *)

Inductive procstate : Type := UNUSED | USED | SLEEPING | RUNNABLE | RUNNING | ZOMBIE.

#[global] Instance procstate_eq_dec : EqDecision procstate.
Proof. solve_decision. Defined.

(** Saved registers for kernel context switches. *)
#[projections(primitive)]
Record context : Type := mkContext {
  ctx_ra : Z ;
  ctx_sp : Z ;
  ctx_s : list Z
}.

(** Per-process state. *)
#[projections(primitive)]
Record proc : Type := mkProc {
  p_state : procstate ;
  p_chan : option chan ;
  p_killed : Z ;
  p_xstate : Z ;
  p_pid : Z ;
  p_parent : option nat ;
  p_kstack : Z ;
  p_sz : Z ;
  p_pagetable : Z ;
  p_trapframe : Z ;
  p_context : context ;
  p_ofile : list (option nat) ;
  p_cwd : option nat ;
  p_name : list Z ;
  p_exit_msg : list Z
}.

Inductive ftype : Type := FD_NONE | FD_PIPE | FD_INODE | FD_DEVICE.

#[global] Instance ftype_eq_dec : EqDecision ftype.
Proof. solve_decision. Defined.

(** The fields of a sleep lock (its inner spin lock is [sleeplk]). *)
#[projections(primitive)]
Record sleeplock : Type := mkSleeplock {
  sl_locked : bool ;
  sl_pid : Z
}.

(** An open file. *)
#[projections(primitive)]
Record file : Type := mkFile {
  f_type : ftype ;
  f_ref : Z ;
  f_readable : bool ;
  f_writable : bool ;
  f_pipe : Z ;
  f_ip : option nat ;
  f_off : Z ;
  f_major : Z
}.

(** A pipe. *)
#[projections(primitive)]
Record pipe : Type := mkPipe {
  pi_data : list Z ;
  pi_nread : Z ;
  pi_nwrite : Z ;
  pi_readopen : bool ;
  pi_writeopen : bool
}.

(** In-memory copy of an inode. *)
#[projections(primitive)]
Record inode : Type := mkInode {
  i_dev : Z ;
  i_inum : Z ;
  i_ref : Z ;
  i_lock : sleeplock ;
  i_valid : bool ;
  i_type : Z ;
  i_major : Z ;
  i_minor : Z ;
  i_nlink : Z ;
  i_size : Z ;
  i_addrs : list Z
}.

(** A buffer of the block cache; its links in the LRU list are [k_lru]. *)
#[projections(primitive)]
Record buf : Type := mkBuf {
  b_valid : bool ;
  b_dev : Z ;
  b_blockno : Z ;
  b_lock : sleeplock ;
  b_refcnt : Z ;
  b_data : list Z
}.

(** The superblock. *)
#[projections(primitive)]
Record superblock : Type := mkSuperblock {
  sb_magic : Z ;
  sb_size : Z ;
  sb_nblocks : Z ;
  sb_ninodes : Z ;
  sb_nlog : Z ;
  sb_logstart : Z ;
  sb_inodestart : Z ;
  sb_bmapstart : Z
}.

(** The log: its place on disk, the running operations, and the header of the current transaction. *)
#[projections(primitive)]
Record logstate : Type := mkLog {
  log_start : Z ;
  log_size : Z ;
  log_outstanding : Z ;
  log_committing : bool ;
  log_dev : Z ;
  lh_n : Z ;
  lh_block : list Z
}.

(** Console input buffer with its read, write and edit indices. *)
#[projections(primitive)]
Record console : Type := mkConsole {
  cons_buf : list Z ;
  cons_r : Z ;
  cons_w : Z ;
  cons_e : Z
}.

(** UART output ring and the bytes already given to the device. *)
#[projections(primitive)]
Record uart : Type := mkUart {
  uart_tx_buf : list Z ;
  uart_tx_w : Z ;
  uart_tx_r : Z ;
  uart_out : list Z
}.

(** The globals of the kernel, as one CPU sees them.  [k_held] are the spin
    locks this CPU holds, most recent first; [k_cur] is [mycpu()->proc].
    The buffer cache is its buffers and the order of its LRU list, most
    recent first; [k_disk] is the disk and [k_dwrites] the writes it was
    sent, most recent last. *)
#[projections(primitive)]
Record kstate : Type := mkKstate {
  k_mem : mem ;
  k_freelist : Z ;
  k_held : list lock ;
  k_procs : list proc ;
  k_cur : option nat ;
  k_nextpid : Z ;
  k_initproc : option nat ;
  k_ticks : Z ;
  k_files : list file ;
  k_pipes : gmap Z pipe ;
  k_inodes : list inode ;
  k_bufs : list buf ;
  k_lru : list nat ;
  k_sb : superblock ;
  k_log : logstate ;
  k_disk : gmap Z (list Z) ;
  k_dwrites : list (Z * list Z) ;
  k_cons : console ;
  k_uart : uart
}.

(** ** Field updates *)

Definition set_ctx_ra (v : Z) (c : context) : context :=
  mkContext v (ctx_sp c) (ctx_s c).
Definition set_ctx_sp (v : Z) (c : context) : context :=
  mkContext (ctx_ra c) v (ctx_s c).
Definition set_ctx_s (v : list Z) (c : context) : context :=
  mkContext (ctx_ra c) (ctx_sp c) v.

Definition set_p_state (v : procstate) (p : proc) : proc :=
  mkProc v (p_chan p) (p_killed p) (p_xstate p) (p_pid p) (p_parent p) (p_kstack p) (p_sz p)
    (p_pagetable p) (p_trapframe p) (p_context p) (p_ofile p) (p_cwd p) (p_name p)
    (p_exit_msg p).
Definition set_p_chan (v : option chan) (p : proc) : proc :=
  mkProc (p_state p) v (p_killed p) (p_xstate p) (p_pid p) (p_parent p) (p_kstack p) (p_sz
    p) (p_pagetable p) (p_trapframe p) (p_context p) (p_ofile p) (p_cwd p) (p_name p)
    (p_exit_msg p).
Definition set_p_killed (v : Z) (p : proc) : proc :=
  mkProc (p_state p) (p_chan p) v (p_xstate p) (p_pid p) (p_parent p) (p_kstack p) (p_sz p)
    (p_pagetable p) (p_trapframe p) (p_context p) (p_ofile p) (p_cwd p) (p_name p)
    (p_exit_msg p).
Definition set_p_xstate (v : Z) (p : proc) : proc :=
  mkProc (p_state p) (p_chan p) (p_killed p) v (p_pid p) (p_parent p) (p_kstack p) (p_sz p)
    (p_pagetable p) (p_trapframe p) (p_context p) (p_ofile p) (p_cwd p) (p_name p)
    (p_exit_msg p).
Definition set_p_pid (v : Z) (p : proc) : proc :=
  mkProc (p_state p) (p_chan p) (p_killed p) (p_xstate p) v (p_parent p) (p_kstack p) (p_sz
    p) (p_pagetable p) (p_trapframe p) (p_context p) (p_ofile p) (p_cwd p) (p_name p)
    (p_exit_msg p).
Definition set_p_parent (v : option nat) (p : proc) : proc :=
  mkProc (p_state p) (p_chan p) (p_killed p) (p_xstate p) (p_pid p) v (p_kstack p) (p_sz p)
    (p_pagetable p) (p_trapframe p) (p_context p) (p_ofile p) (p_cwd p) (p_name p)
    (p_exit_msg p).
Definition set_p_kstack (v : Z) (p : proc) : proc :=
  mkProc (p_state p) (p_chan p) (p_killed p) (p_xstate p) (p_pid p) (p_parent p) v (p_sz p)
    (p_pagetable p) (p_trapframe p) (p_context p) (p_ofile p) (p_cwd p) (p_name p)
    (p_exit_msg p).
Definition set_p_sz (v : Z) (p : proc) : proc :=
  mkProc (p_state p) (p_chan p) (p_killed p) (p_xstate p) (p_pid p) (p_parent p) (p_kstack
    p) v (p_pagetable p) (p_trapframe p) (p_context p) (p_ofile p) (p_cwd p) (p_name p)
    (p_exit_msg p).
Definition set_p_pagetable (v : Z) (p : proc) : proc :=
  mkProc (p_state p) (p_chan p) (p_killed p) (p_xstate p) (p_pid p) (p_parent p) (p_kstack
    p) (p_sz p) v (p_trapframe p) (p_context p) (p_ofile p) (p_cwd p) (p_name p) (p_exit_msg
    p).
Definition set_p_trapframe (v : Z) (p : proc) : proc :=
  mkProc (p_state p) (p_chan p) (p_killed p) (p_xstate p) (p_pid p) (p_parent p) (p_kstack
    p) (p_sz p) (p_pagetable p) v (p_context p) (p_ofile p) (p_cwd p) (p_name p) (p_exit_msg
    p).
Definition set_p_context (v : context) (p : proc) : proc :=
  mkProc (p_state p) (p_chan p) (p_killed p) (p_xstate p) (p_pid p) (p_parent p) (p_kstack
    p) (p_sz p) (p_pagetable p) (p_trapframe p) v (p_ofile p) (p_cwd p) (p_name p)
    (p_exit_msg p).
Definition set_p_ofile (v : list (option nat)) (p : proc) : proc :=
  mkProc (p_state p) (p_chan p) (p_killed p) (p_xstate p) (p_pid p) (p_parent p) (p_kstack
    p) (p_sz p) (p_pagetable p) (p_trapframe p) (p_context p) v (p_cwd p) (p_name p)
    (p_exit_msg p).
Definition set_p_cwd (v : option nat) (p : proc) : proc :=
  mkProc (p_state p) (p_chan p) (p_killed p) (p_xstate p) (p_pid p) (p_parent p) (p_kstack
    p) (p_sz p) (p_pagetable p) (p_trapframe p) (p_context p) (p_ofile p) v (p_name p)
    (p_exit_msg p).
Definition set_p_name (v : list Z) (p : proc) : proc :=
  mkProc (p_state p) (p_chan p) (p_killed p) (p_xstate p) (p_pid p) (p_parent p) (p_kstack
    p) (p_sz p) (p_pagetable p) (p_trapframe p) (p_context p) (p_ofile p) (p_cwd p) v
    (p_exit_msg p).
Definition set_p_exit_msg (v : list Z) (p : proc) : proc :=
  mkProc (p_state p) (p_chan p) (p_killed p) (p_xstate p) (p_pid p) (p_parent p) (p_kstack
    p) (p_sz p) (p_pagetable p) (p_trapframe p) (p_context p) (p_ofile p) (p_cwd p) (p_name
    p) v.

Definition set_sl_locked (v : bool) (l : sleeplock) : sleeplock :=
  mkSleeplock v (sl_pid l).
Definition set_sl_pid (v : Z) (l : sleeplock) : sleeplock :=
  mkSleeplock (sl_locked l) v.

Definition set_f_type (v : ftype) (f : file) : file :=
  mkFile v (f_ref f) (f_readable f) (f_writable f) (f_pipe f) (f_ip f) (f_off f) (f_major f).
Definition set_f_ref (v : Z) (f : file) : file :=
  mkFile (f_type f) v (f_readable f) (f_writable f) (f_pipe f) (f_ip f) (f_off f) (f_major
    f).
Definition set_f_readable (v : bool) (f : file) : file :=
  mkFile (f_type f) (f_ref f) v (f_writable f) (f_pipe f) (f_ip f) (f_off f) (f_major f).
Definition set_f_writable (v : bool) (f : file) : file :=
  mkFile (f_type f) (f_ref f) (f_readable f) v (f_pipe f) (f_ip f) (f_off f) (f_major f).
Definition set_f_pipe (v : Z) (f : file) : file :=
  mkFile (f_type f) (f_ref f) (f_readable f) (f_writable f) v (f_ip f) (f_off f) (f_major f).
Definition set_f_ip (v : option nat) (f : file) : file :=
  mkFile (f_type f) (f_ref f) (f_readable f) (f_writable f) (f_pipe f) v (f_off f) (f_major
    f).
Definition set_f_off (v : Z) (f : file) : file :=
  mkFile (f_type f) (f_ref f) (f_readable f) (f_writable f) (f_pipe f) (f_ip f) v (f_major
    f).
Definition set_f_major (v : Z) (f : file) : file :=
  mkFile (f_type f) (f_ref f) (f_readable f) (f_writable f) (f_pipe f) (f_ip f) (f_off f) v.

Definition set_pi_data (v : list Z) (pi : pipe) : pipe :=
  mkPipe v (pi_nread pi) (pi_nwrite pi) (pi_readopen pi) (pi_writeopen pi).
Definition set_pi_nread (v : Z) (pi : pipe) : pipe :=
  mkPipe (pi_data pi) v (pi_nwrite pi) (pi_readopen pi) (pi_writeopen pi).
Definition set_pi_nwrite (v : Z) (pi : pipe) : pipe :=
  mkPipe (pi_data pi) (pi_nread pi) v (pi_readopen pi) (pi_writeopen pi).
Definition set_pi_readopen (v : bool) (pi : pipe) : pipe :=
  mkPipe (pi_data pi) (pi_nread pi) (pi_nwrite pi) v (pi_writeopen pi).
Definition set_pi_writeopen (v : bool) (pi : pipe) : pipe :=
  mkPipe (pi_data pi) (pi_nread pi) (pi_nwrite pi) (pi_readopen pi) v.

Definition set_i_dev (v : Z) (ip : inode) : inode :=
  mkInode v (i_inum ip) (i_ref ip) (i_lock ip) (i_valid ip) (i_type ip) (i_major ip)
    (i_minor ip) (i_nlink ip) (i_size ip) (i_addrs ip).
Definition set_i_inum (v : Z) (ip : inode) : inode :=
  mkInode (i_dev ip) v (i_ref ip) (i_lock ip) (i_valid ip) (i_type ip) (i_major ip) (i_minor
    ip) (i_nlink ip) (i_size ip) (i_addrs ip).
Definition set_i_ref (v : Z) (ip : inode) : inode :=
  mkInode (i_dev ip) (i_inum ip) v (i_lock ip) (i_valid ip) (i_type ip) (i_major ip)
    (i_minor ip) (i_nlink ip) (i_size ip) (i_addrs ip).
Definition set_i_lock (v : sleeplock) (ip : inode) : inode :=
  mkInode (i_dev ip) (i_inum ip) (i_ref ip) v (i_valid ip) (i_type ip) (i_major ip) (i_minor
    ip) (i_nlink ip) (i_size ip) (i_addrs ip).
Definition set_i_valid (v : bool) (ip : inode) : inode :=
  mkInode (i_dev ip) (i_inum ip) (i_ref ip) (i_lock ip) v (i_type ip) (i_major ip) (i_minor
    ip) (i_nlink ip) (i_size ip) (i_addrs ip).
Definition set_i_type (v : Z) (ip : inode) : inode :=
  mkInode (i_dev ip) (i_inum ip) (i_ref ip) (i_lock ip) (i_valid ip) v (i_major ip) (i_minor
    ip) (i_nlink ip) (i_size ip) (i_addrs ip).
Definition set_i_major (v : Z) (ip : inode) : inode :=
  mkInode (i_dev ip) (i_inum ip) (i_ref ip) (i_lock ip) (i_valid ip) (i_type ip) v (i_minor
    ip) (i_nlink ip) (i_size ip) (i_addrs ip).
Definition set_i_minor (v : Z) (ip : inode) : inode :=
  mkInode (i_dev ip) (i_inum ip) (i_ref ip) (i_lock ip) (i_valid ip) (i_type ip) (i_major
    ip) v (i_nlink ip) (i_size ip) (i_addrs ip).
Definition set_i_nlink (v : Z) (ip : inode) : inode :=
  mkInode (i_dev ip) (i_inum ip) (i_ref ip) (i_lock ip) (i_valid ip) (i_type ip) (i_major
    ip) (i_minor ip) v (i_size ip) (i_addrs ip).
Definition set_i_size (v : Z) (ip : inode) : inode :=
  mkInode (i_dev ip) (i_inum ip) (i_ref ip) (i_lock ip) (i_valid ip) (i_type ip) (i_major
    ip) (i_minor ip) (i_nlink ip) v (i_addrs ip).
Definition set_i_addrs (v : list Z) (ip : inode) : inode :=
  mkInode (i_dev ip) (i_inum ip) (i_ref ip) (i_lock ip) (i_valid ip) (i_type ip) (i_major
    ip) (i_minor ip) (i_nlink ip) (i_size ip) v.

Definition set_b_valid (v : bool) (b : buf) : buf :=
  mkBuf v (b_dev b) (b_blockno b) (b_lock b) (b_refcnt b) (b_data b).
Definition set_b_dev (v : Z) (b : buf) : buf :=
  mkBuf (b_valid b) v (b_blockno b) (b_lock b) (b_refcnt b) (b_data b).
Definition set_b_blockno (v : Z) (b : buf) : buf :=
  mkBuf (b_valid b) (b_dev b) v (b_lock b) (b_refcnt b) (b_data b).
Definition set_b_lock (v : sleeplock) (b : buf) : buf :=
  mkBuf (b_valid b) (b_dev b) (b_blockno b) v (b_refcnt b) (b_data b).
Definition set_b_refcnt (v : Z) (b : buf) : buf :=
  mkBuf (b_valid b) (b_dev b) (b_blockno b) (b_lock b) v (b_data b).
Definition set_b_data (v : list Z) (b : buf) : buf :=
  mkBuf (b_valid b) (b_dev b) (b_blockno b) (b_lock b) (b_refcnt b) v.

Definition set_log_start (v : Z) (l : logstate) : logstate :=
  mkLog v (log_size l) (log_outstanding l) (log_committing l) (log_dev l) (lh_n l) (lh_block
    l).
Definition set_log_size (v : Z) (l : logstate) : logstate :=
  mkLog (log_start l) v (log_outstanding l) (log_committing l) (log_dev l) (lh_n l)
    (lh_block l).
Definition set_log_outstanding (v : Z) (l : logstate) : logstate :=
  mkLog (log_start l) (log_size l) v (log_committing l) (log_dev l) (lh_n l) (lh_block l).
Definition set_log_committing (v : bool) (l : logstate) : logstate :=
  mkLog (log_start l) (log_size l) (log_outstanding l) v (log_dev l) (lh_n l) (lh_block l).
Definition set_log_dev (v : Z) (l : logstate) : logstate :=
  mkLog (log_start l) (log_size l) (log_outstanding l) (log_committing l) v (lh_n l)
    (lh_block l).
Definition set_lh_n (v : Z) (l : logstate) : logstate :=
  mkLog (log_start l) (log_size l) (log_outstanding l) (log_committing l) (log_dev l) v
    (lh_block l).
Definition set_lh_block (v : list Z) (l : logstate) : logstate :=
  mkLog (log_start l) (log_size l) (log_outstanding l) (log_committing l) (log_dev l) (lh_n
    l) v.

Definition set_cons_buf (v : list Z) (c : console) : console :=
  mkConsole v (cons_r c) (cons_w c) (cons_e c).
Definition set_cons_r (v : Z) (c : console) : console :=
  mkConsole (cons_buf c) v (cons_w c) (cons_e c).
Definition set_cons_w (v : Z) (c : console) : console :=
  mkConsole (cons_buf c) (cons_r c) v (cons_e c).
Definition set_cons_e (v : Z) (c : console) : console :=
  mkConsole (cons_buf c) (cons_r c) (cons_w c) v.

Definition set_uart_tx_buf (v : list Z) (u : uart) : uart :=
  mkUart v (uart_tx_w u) (uart_tx_r u) (uart_out u).
Definition set_uart_tx_w (v : Z) (u : uart) : uart :=
  mkUart (uart_tx_buf u) v (uart_tx_r u) (uart_out u).
Definition set_uart_tx_r (v : Z) (u : uart) : uart :=
  mkUart (uart_tx_buf u) (uart_tx_w u) v (uart_out u).
Definition set_uart_out (v : list Z) (u : uart) : uart :=
  mkUart (uart_tx_buf u) (uart_tx_w u) (uart_tx_r u) v.

Definition set_k_mem (v : mem) (s : kstate) : kstate :=
  mkKstate v (k_freelist s) (k_held s) (k_procs s) (k_cur s) (k_nextpid s) (k_initproc s)
    (k_ticks s) (k_files s) (k_pipes s) (k_inodes s) (k_bufs s) (k_lru s) (k_sb s) (k_log s)
    (k_disk s) (k_dwrites s) (k_cons s) (k_uart s).
Definition set_k_freelist (v : Z) (s : kstate) : kstate :=
  mkKstate (k_mem s) v (k_held s) (k_procs s) (k_cur s) (k_nextpid s) (k_initproc s)
    (k_ticks s) (k_files s) (k_pipes s) (k_inodes s) (k_bufs s) (k_lru s) (k_sb s) (k_log s)
    (k_disk s) (k_dwrites s) (k_cons s) (k_uart s).
Definition set_k_held (v : list lock) (s : kstate) : kstate :=
  mkKstate (k_mem s) (k_freelist s) v (k_procs s) (k_cur s) (k_nextpid s) (k_initproc s)
    (k_ticks s) (k_files s) (k_pipes s) (k_inodes s) (k_bufs s) (k_lru s) (k_sb s) (k_log s)
    (k_disk s) (k_dwrites s) (k_cons s) (k_uart s).
Definition set_k_procs (v : list proc) (s : kstate) : kstate :=
  mkKstate (k_mem s) (k_freelist s) (k_held s) v (k_cur s) (k_nextpid s) (k_initproc s)
    (k_ticks s) (k_files s) (k_pipes s) (k_inodes s) (k_bufs s) (k_lru s) (k_sb s) (k_log s)
    (k_disk s) (k_dwrites s) (k_cons s) (k_uart s).
Definition set_k_cur (v : option nat) (s : kstate) : kstate :=
  mkKstate (k_mem s) (k_freelist s) (k_held s) (k_procs s) v (k_nextpid s) (k_initproc s)
    (k_ticks s) (k_files s) (k_pipes s) (k_inodes s) (k_bufs s) (k_lru s) (k_sb s) (k_log s)
    (k_disk s) (k_dwrites s) (k_cons s) (k_uart s).
Definition set_k_nextpid (v : Z) (s : kstate) : kstate :=
  mkKstate (k_mem s) (k_freelist s) (k_held s) (k_procs s) (k_cur s) v (k_initproc s)
    (k_ticks s) (k_files s) (k_pipes s) (k_inodes s) (k_bufs s) (k_lru s) (k_sb s) (k_log s)
    (k_disk s) (k_dwrites s) (k_cons s) (k_uart s).
Definition set_k_initproc (v : option nat) (s : kstate) : kstate :=
  mkKstate (k_mem s) (k_freelist s) (k_held s) (k_procs s) (k_cur s) (k_nextpid s) v
    (k_ticks s) (k_files s) (k_pipes s) (k_inodes s) (k_bufs s) (k_lru s) (k_sb s) (k_log s)
    (k_disk s) (k_dwrites s) (k_cons s) (k_uart s).
Definition set_k_ticks (v : Z) (s : kstate) : kstate :=
  mkKstate (k_mem s) (k_freelist s) (k_held s) (k_procs s) (k_cur s) (k_nextpid s)
    (k_initproc s) v (k_files s) (k_pipes s) (k_inodes s) (k_bufs s) (k_lru s) (k_sb s)
    (k_log s) (k_disk s) (k_dwrites s) (k_cons s) (k_uart s).
Definition set_k_files (v : list file) (s : kstate) : kstate :=
  mkKstate (k_mem s) (k_freelist s) (k_held s) (k_procs s) (k_cur s) (k_nextpid s)
    (k_initproc s) (k_ticks s) v (k_pipes s) (k_inodes s) (k_bufs s) (k_lru s) (k_sb s)
    (k_log s) (k_disk s) (k_dwrites s) (k_cons s) (k_uart s).
Definition set_k_pipes (v : gmap Z pipe) (s : kstate) : kstate :=
  mkKstate (k_mem s) (k_freelist s) (k_held s) (k_procs s) (k_cur s) (k_nextpid s)
    (k_initproc s) (k_ticks s) (k_files s) v (k_inodes s) (k_bufs s) (k_lru s) (k_sb s)
    (k_log s) (k_disk s) (k_dwrites s) (k_cons s) (k_uart s).
Definition set_k_inodes (v : list inode) (s : kstate) : kstate :=
  mkKstate (k_mem s) (k_freelist s) (k_held s) (k_procs s) (k_cur s) (k_nextpid s)
    (k_initproc s) (k_ticks s) (k_files s) (k_pipes s) v (k_bufs s) (k_lru s) (k_sb s)
    (k_log s) (k_disk s) (k_dwrites s) (k_cons s) (k_uart s).
Definition set_k_bufs (v : list buf) (s : kstate) : kstate :=
  mkKstate (k_mem s) (k_freelist s) (k_held s) (k_procs s) (k_cur s) (k_nextpid s)
    (k_initproc s) (k_ticks s) (k_files s) (k_pipes s) (k_inodes s) v (k_lru s) (k_sb s)
    (k_log s) (k_disk s) (k_dwrites s) (k_cons s) (k_uart s).
Definition set_k_lru (v : list nat) (s : kstate) : kstate :=
  mkKstate (k_mem s) (k_freelist s) (k_held s) (k_procs s) (k_cur s) (k_nextpid s)
    (k_initproc s) (k_ticks s) (k_files s) (k_pipes s) (k_inodes s) (k_bufs s) v (k_sb s)
    (k_log s) (k_disk s) (k_dwrites s) (k_cons s) (k_uart s).
Definition set_k_sb (v : superblock) (s : kstate) : kstate :=
  mkKstate (k_mem s) (k_freelist s) (k_held s) (k_procs s) (k_cur s) (k_nextpid s)
    (k_initproc s) (k_ticks s) (k_files s) (k_pipes s) (k_inodes s) (k_bufs s) (k_lru s) v
    (k_log s) (k_disk s) (k_dwrites s) (k_cons s) (k_uart s).
Definition set_k_log (v : logstate) (s : kstate) : kstate :=
  mkKstate (k_mem s) (k_freelist s) (k_held s) (k_procs s) (k_cur s) (k_nextpid s)
    (k_initproc s) (k_ticks s) (k_files s) (k_pipes s) (k_inodes s) (k_bufs s) (k_lru s)
    (k_sb s) v (k_disk s) (k_dwrites s) (k_cons s) (k_uart s).
Definition set_k_disk (v : gmap Z (list Z)) (s : kstate) : kstate :=
  mkKstate (k_mem s) (k_freelist s) (k_held s) (k_procs s) (k_cur s) (k_nextpid s)
    (k_initproc s) (k_ticks s) (k_files s) (k_pipes s) (k_inodes s) (k_bufs s) (k_lru s)
    (k_sb s) (k_log s) v (k_dwrites s) (k_cons s) (k_uart s).
Definition set_k_dwrites (v : list (Z * list Z)) (s : kstate) : kstate :=
  mkKstate (k_mem s) (k_freelist s) (k_held s) (k_procs s) (k_cur s) (k_nextpid s)
    (k_initproc s) (k_ticks s) (k_files s) (k_pipes s) (k_inodes s) (k_bufs s) (k_lru s)
    (k_sb s) (k_log s) (k_disk s) v (k_cons s) (k_uart s).
Definition set_k_cons (v : console) (s : kstate) : kstate :=
  mkKstate (k_mem s) (k_freelist s) (k_held s) (k_procs s) (k_cur s) (k_nextpid s)
    (k_initproc s) (k_ticks s) (k_files s) (k_pipes s) (k_inodes s) (k_bufs s) (k_lru s)
    (k_sb s) (k_log s) (k_disk s) (k_dwrites s) v (k_uart s).
Definition set_k_uart (v : uart) (s : kstate) : kstate :=
  mkKstate (k_mem s) (k_freelist s) (k_held s) (k_procs s) (k_cur s) (k_nextpid s)
    (k_initproc s) (k_ticks s) (k_files s) (k_pipes s) (k_inodes s) (k_bufs s) (k_lru s)
    (k_sb s) (k_log s) (k_disk s) (k_dwrites s) (k_cons s) v.


(** ** The zero-initialised globals (the kernel's .bss), before [main] *)

Definition context_zero : context := mkContext 0 0 (replicate 12 0).
Definition proc_zero : proc :=
  mkProc UNUSED None 0 0 0 None 0 0 0 0 context_zero (replicate NOFILE None) None
    (replicate 16 0) (replicate 32 0).
Definition sleeplock_zero : sleeplock := mkSleeplock false 0.
Definition file_zero : file := mkFile FD_NONE 0 false false 0 None 0 0.
Definition inode_zero : inode := mkInode 0 0 0 sleeplock_zero false 0 0 0 0 0 (replicate 13 0).
Definition buf_zero : buf := mkBuf false 0 0 sleeplock_zero 0 (replicate 1024 0).
Definition superblock_zero : superblock := mkSuperblock 0 0 0 0 0 0 0 0.
Definition log_zero : logstate := mkLog 0 0 0 false 0 0 (replicate 30 0).
Definition console_zero : console := mkConsole (replicate 128 0) 0 0 0.
Definition uart_zero : uart := mkUart (replicate 32 0) 0 0 [].

Definition kstate_zero : kstate :=
  mkKstate ∅ 0 [] (replicate NPROC proc_zero) None 1 None 0 (replicate NFILE file_zero) ∅
    (replicate NINODE inode_zero) (replicate NBUF buf_zero) [] superblock_zero log_zero ∅ []
    console_zero uart_zero.

(** ** Access to the process table *)

(** [proc[i]] *)
Definition get_proc (s : kstate) (i : nat) : proc := default proc_zero (k_procs s !! i).

(** [proc[i] = f(proc[i])] *)
Definition upd_proc (i : nat) (f : proc -> proc) (s : kstate) : kstate :=
  set_k_procs (alter f i (k_procs s)) s.

Lemma get_upd_same s i f :
  (i < length (k_procs s))%nat -> get_proc (upd_proc i f s) i = f (get_proc s i).
Proof.
  intros H. unfold get_proc, upd_proc. simpl.
  rewrite list_lookup_alter_eq. destruct (lookup_lt_is_Some_2 _ _ H) as [p ->]. done.
Qed.

Lemma get_upd_other s i j f : i <> j -> get_proc (upd_proc i f s) j = get_proc s j.
Proof. intros H. unfold get_proc, upd_proc. simpl. by rewrite list_lookup_alter_ne. Qed.

Lemma length_upd_proc s i f : length (k_procs (upd_proc i f s)) = length (k_procs s).
Proof. unfold upd_proc. simpl. apply length_alter. Qed.

Lemma set_k_mem_mem m m' s : set_k_mem m (set_k_mem m' s) = set_k_mem m s.
Proof. reflexivity. Qed.

Lemma set_k_procs_procs v w s : set_k_procs v (set_k_procs w s) = set_k_procs v s.
Proof. reflexivity. Qed.

(** Equality of two states that differ by field updates only. *)
Ltac kstate_eq s := simpl; destruct s; simpl in *; reflexivity.
