(* ===== verification/Riscv.v ===== *)
(** * kernel/riscv.h: page rounding, page-table entries and Sv39 indices

    The macros of riscv.h as functions on [Z] with the source's bit
    operations, and their arithmetic meaning. *)

From S2P Require Import Prelude KState.

Definition PGROUNDUP (sz : Z) : Z := Z.land (u64 (sz + PGSIZE - 1)) (Z.lnot (PGSIZE - 1)).
Definition PGROUNDDOWN (a : Z) : Z := Z.land a (Z.lnot (PGSIZE - 1)).

Definition PTE_V : Z := Z.shiftl 1 0.
Definition PTE_R : Z := Z.shiftl 1 1.
Definition PTE_W : Z := Z.shiftl 1 2.
Definition PTE_X : Z := Z.shiftl 1 3.
Definition PTE_U : Z := Z.shiftl 1 4.

Definition PA2PTE (pa : Z) : Z := Z.shiftl (Z.shiftr pa 12) 10.
Definition PTE2PA (pte : Z) : Z := u64 (Z.shiftl (Z.shiftr pte 10) 12).
Definition PTE_FLAGS (pte : Z) : Z := Z.land pte 0x3FF.

Definition PXMASK : Z := 0x1FF.
Definition PXSHIFT (level : Z) : Z := PGSHIFT + 9 * level.
Definition PX (level va : Z) : Z := Z.land (Z.shiftr va (PXSHIFT level)) PXMASK.

(** [MAKE_SATP]: the supervisor address-translation register for a root
    page table, in Sv39 mode. *)
Definition SATP_SV39 : Z := Z.shiftl 8 60.
Definition MAKE_SATP (pagetable : Z) : Z := Z.lor SATP_SV39 (Z.shiftr pagetable 12).

(** A bit test of the code: [pte & flag] as a condition. *)
Definition has_flag (pte flag : Z) : bool := negb (Z.land pte flag =? 0).

(** ** Arithmetic *)

Lemma MAXVA_eq : MAXVA = 2 ^ 38.
Proof. reflexivity. Qed.

Lemma pgrounddown_eq a : PGROUNDDOWN a = a - a mod PGSIZE.
Proof.
  unfold PGROUNDDOWN, PGSIZE. change (4096 - 1) with (Z.ones 12).
  rewrite <- Z.ldiff_land, Z.ldiff_ones_r by lia.
  rewrite Z.shiftr_div_pow2, Z.shiftl_mul_pow2 by lia.
  change (2 ^ 12) with 4096. pose proof (Z.div_mod a 4096). lia.
Qed.

Lemma pgroundup_eq a :
  0 <= a < 2 ^ 64 - PGSIZE -> PGROUNDUP a = (a + 4095) - (a + 4095) mod PGSIZE.
Proof.
  intros H. unfold PGROUNDUP, PGSIZE in *. rewrite u64_small by lia.
  change (Z.land ?x _) with (PGROUNDDOWN x). rewrite pgrounddown_eq. unfold PGSIZE.
  replace (a + 4096 - 1) with (a + 4095) by lia. done.
Qed.

Lemma pgrounddown_aligned a : PGROUNDDOWN a mod PGSIZE = 0.
Proof.
  rewrite pgrounddown_eq, Zminus_mod, Z.mod_mod, Z.sub_diag by done. done.
Qed.

Lemma pgroundup_aligned a : PGROUNDUP a mod PGSIZE = 0.
Proof. apply pgrounddown_aligned. Qed.

Lemma px_eq l va : 0 <= l -> PX l va = (va / 2 ^ (12 + 9 * l)) mod 512.
Proof.
  intros Hl. unfold PX, PXMASK, PXSHIFT, PGSHIFT. change 511 with (Z.ones 9).
  rewrite Z.land_ones, Z.shiftr_div_pow2 by lia. done.
Qed.

Lemma px_range l va : 0 <= l -> 0 <= PX l va < 512.
Proof. intros. rewrite px_eq by done. apply Z.mod_pos_bound. lia. Qed.

(** The page number of a virtual address below 2^39 is made of its three
    indices. *)
Lemma px_page_number va :
  0 <= va < 2 ^ 39 ->
  va / PGSIZE = PX 2 va * 2 ^ 18 + PX 1 va * 2 ^ 9 + PX 0 va.
Proof.
  intros H. rewrite !px_eq by lia. change (2 ^ (12 + 9 * 2)) with (4096 * 262144).
  change (2 ^ (12 + 9 * 1)) with (4096 * 512). change (2 ^ (12 + 9 * 0)) with 4096.
  rewrite <- !Z.div_div by lia. unfold PGSIZE.
  set (q := va / 4096). assert (0 <= q < 2 ^ 27).
  { unfold q. split; [apply Z.div_pos; lia|apply Z.div_lt_upper_bound; lia]. }
  change 262144 with (512 * 512). rewrite <- Z.div_div by lia.
  pose proof (Z.div_mod q 512). pose proof (Z.div_mod (q / 512) 512).
  assert (q / 512 / 512 < 512) by (do 2 (apply Z.div_lt_upper_bound; [lia|]); lia).
  assert (0 <= q / 512 / 512) by (do 2 (apply Z.div_pos; [|lia]); lia).
  rewrite (Z.mod_small (q / 512 / 512)) by lia. lia.
Qed.

Lemma px_inj va va' :
  0 <= va < 2 ^ 39 -> 0 <= va' < 2 ^ 39 ->
  PX 2 va = PX 2 va' -> PX 1 va = PX 1 va' -> PX 0 va = PX 0 va' ->
  va / PGSIZE = va' / PGSIZE.
Proof. intros H H' H2 H1 H0. rewrite !px_page_number by done. congruence. Qed.

Lemma px_same_page l va va' : 0 <= l -> va / PGSIZE = va' / PGSIZE -> PX l va = PX l va'.
Proof.
  intros Hl H. rewrite !px_eq by done. rewrite Z.pow_add_r by lia.
  change (2 ^ 12) with 4096. unfold PGSIZE in H.
  rewrite <- !Z.div_div by lia. by rewrite H.
Qed.

(** Flag bits and page address do not overlap. *)
Lemma land_mul_1024 q perm : 0 <= perm < 1024 -> Z.land (q * 1024) perm = 0.
Proof.
  intros H. apply Z.bits_inj_0. intros n. rewrite Z.land_spec.
  destruct (decide (n < 10)).
  - change 1024 with (2 ^ 10). rewrite Z.mul_pow2_bits_low by lia. done.
  - rewrite <- (Z.mod_small perm 1024) by done. change 1024 with (2 ^ 10).
    rewrite Z.mod_pow2_bits_high by lia. apply andb_false_r.
Qed.

Lemma lor_pa2pte pa perm :
  0 <= perm < 1024 -> Z.lor (PA2PTE pa) perm = pa / 4096 * 1024 + perm.
Proof.
  intros H. unfold PA2PTE. rewrite Z.shiftr_div_pow2, Z.shiftl_mul_pow2 by lia.
  change (2 ^ 12) with 4096. change (2 ^ 10) with 1024.
  rewrite <- Z.lxor_lor by (by apply land_mul_1024).
  symmetry. apply Z.add_nocarry_lxor. by apply land_mul_1024.
Qed.

Lemma pte2pa_eq pte : 0 <= pte < 2 ^ 54 -> PTE2PA pte = pte / 1024 * 4096.
Proof.
  intros H. unfold PTE2PA. rewrite Z.shiftr_div_pow2, Z.shiftl_mul_pow2 by lia.
  change (2 ^ 12) with 4096. change (2 ^ 10) with 1024. apply u64_small.
  assert (0 <= pte / 1024 < 2 ^ 44); [|lia].
  split; [apply Z.div_pos; lia|apply Z.div_lt_upper_bound; lia].
Qed.

Lemma pte_flags_eq pte : PTE_FLAGS pte = pte mod 1024.
Proof. unfold PTE_FLAGS. change 0x3FF with (Z.ones 10). by rewrite Z.land_ones. Qed.

Lemma land_flags pte flag : 0 <= flag < 1024 -> Z.land (PTE_FLAGS pte) flag = Z.land pte flag.
Proof.
  intros H. unfold PTE_FLAGS. rewrite <- Z.land_assoc. f_equal.
  change 0x3FF with (Z.ones 10). rewrite Z.land_comm, Z.land_ones by lia.
  apply Z.mod_small. lia.
Qed.

Lemma has_flag_flags pte flag : 0 <= flag < 1024 -> has_flag pte flag = has_flag (PTE_FLAGS pte) flag.
Proof. intros H. unfold has_flag. by rewrite land_flags. Qed.

Lemma lor_small_bound a b : 0 <= a < 1024 -> 0 <= b < 1024 -> 0 <= Z.lor a b < 1024.
Proof.
  intros Ha Hb. split; [apply Z.lor_nonneg; lia|].
  destruct (decide (Z.lor a b = 0)) as [->|Hne]; [lia|].
  change 1024 with (2 ^ 10). apply Z.log2_lt_pow2.
  - pose proof (proj2 (Z.lor_nonneg a b)). lia.
  - rewrite Z.log2_lor by lia.
    assert (forall x, 0 <= x < 1024 -> Z.log2 x < 10).
    { intros x Hx. destruct (decide (x = 0)) as [->|]; [simpl; lia|].
      apply Z.log2_lt_pow2; [lia|]. change (2 ^ 10) with 1024. lia. }
    pose proof (H a Ha). pose proof (H b Hb). lia.
Qed.

(** An entry made of an aligned physical address and ten flag bits gives
    both back. *)
Lemma pte_make pa perm :
  pa mod PGSIZE = 0 -> 0 <= pa < 2 ^ 56 -> 0 <= perm < 1024 ->
  let e := Z.lor (PA2PTE pa) perm in
  0 <= e < 2 ^ 54 /\ PTE2PA e = pa /\ PTE_FLAGS e = perm.
Proof.
  intros Ha Hpa Hp e. unfold e. rewrite lor_pa2pte by done. unfold PGSIZE in Ha.
  pose proof (Z.div_mod pa 4096).
  assert (0 <= pa / 4096 < 2 ^ 44).
  { split; [apply Z.div_pos; lia|apply Z.div_lt_upper_bound; lia]. }
  split; [lia|]. split.
  - rewrite pte2pa_eq by lia. rewrite Z.div_add_l, (Z.div_small perm 1024) by lia. lia.
  - rewrite pte_flags_eq. rewrite Z.add_comm, Z.mod_add by lia. apply Z.mod_small. lia.
Qed.

Lemma pte_v_set perm : 0 <= perm < 1024 -> has_flag (Z.lor perm PTE_V) PTE_V = true.
Proof.
  intros H. unfold has_flag. rewrite Z.land_lor_distr_l.
  change (Z.land PTE_V PTE_V) with 1. apply negb_true_iff, Z.eqb_neq.
  intros E. apply Z.lor_eq_0_iff in E as [_ E]. discriminate.
Qed.

(** Distinct pages do not overlap. *)
Lemma page_disjoint p q a :
  p mod PGSIZE = 0 -> q mod PGSIZE = 0 -> p <> q ->
  p <= a < p + PGSIZE -> ~ q <= a < q + PGSIZE.
Proof.
  unfold PGSIZE. intros Hp Hq Hne Ha Hb. apply Hne.
  pose proof (Z.div_mod p 4096). pose proof (Z.div_mod q 4096). lia.
Qed.
