(* ===== verification/Spinlock.v ===== *)
(** * kernel/spinlock.c: spin locks on several CPUs

    First the code itself, on the hardware state of all harts: [push_off]
    and [pop_off] nest the disabling of interrupts, [holding], [acquire] and
    [release] work on the [locked] and [cpu] fields.  [acquire] and [release]
    are not atomic: the atomic swap, the store of [lk->cpu] and the atomic
    release are separate steps that harts interleave, and [step] is that
    interleaving.  The theorems are about every reachable state.

    Then the view the rest of the kernel is written in: the set of locks this
    CPU holds ([k_held]), with [acquire] and [release] as operations that
    panic exactly when the code's check on [holding] fails. *)

From stdpp Require Import functions.
From S2P Require Import Prelude KState.

(** ** The code, one CPU at a time *)

(** [struct spinlock] *)
Record spinlock : Type := mkSpin { locked : bool; lcpu : option nat }.

(** Where a hart is in [acquire]/[release]: [Run] outside of them, [Spin]
    in the swap loop, [Got] between the swap and [lk->cpu = mycpu()], [Unl]
    between [lk->cpu = 0] and the atomic release. *)
Inductive hpc : Type :=
| Run
| Spin (l : lock)
| Got (l : lock)
| Unl (l : lock)
| Dead (msg : string).

(** A hart: its interrupt-enable bit, [struct cpu]'s [noff] and [intena],
    its position, and the locks it has acquired and not released. *)
Record hart : Type := mkHart {
  h_ie : bool; noff : Z; intena : bool; h_pc : hpc; h_owns : list lock
}.

Record smp : Type := mkSmp { harts : nat -> hart; spins : lock -> spinlock }.

Definition set_hart (c : nat) (h : hart) (s : smp) : smp := mkSmp (<[c := h]> (harts s)) (spins s).
Definition set_spin (l : lock) (k : spinlock) (s : smp) : smp := mkSmp (harts s) (<[l := k]> (spins s)).
Definition goto (pc : hpc) (h : hart) : hart := mkHart (h_ie h) (noff h) (intena h) pc (h_owns h).
Definition own (ls : list lock) (h : hart) : hart := mkHart (h_ie h) (noff h) (intena h) (h_pc h) ls.

Definition initlock (l : lock) (s : smp) : smp := set_spin l (mkSpin false None) s.

(** [holding(lk)] on CPU [c]. *)
Definition holding (c : nat) (l : lock) (s : smp) : bool :=
  locked (spins s l) && bool_decide (lcpu (spins s l) = Some c).

Definition push_off (h : hart) : hart :=
  let old := h_ie h in
  let h := mkHart false (noff h) (intena h) (h_pc h) (h_owns h) in
  let h := if noff h =? 0 then mkHart (h_ie h) (noff h) old (h_pc h) (h_owns h) else h in
  mkHart (h_ie h) (noff h + 1) (intena h) (h_pc h) (h_owns h).

Definition pop_off (h : hart) : hart :=
  if h_ie h then goto (Dead "pop_off - interruptible") h
  else if noff h <? 1 then goto (Dead "pop_off") h
  else
    let n := noff h - 1 in
    mkHart (if (n =? 0) && intena h then true else h_ie h) n (intena h) (h_pc h) (h_owns h).

Arguments push_off : simpl never.
Arguments pop_off : simpl never.

(** [acquire(lk)] up to its swap loop. *)
Definition acquire_begin (c : nat) (l : lock) (s : smp) : smp :=
  let h := push_off (harts s c) in
  if holding c l s then set_hart c (goto (Dead "acquire") h) s
  else set_hart c (goto (Spin l) h) s.

(** One atomic swap of the loop: it ends the loop when it read 0. *)
Definition acquire_swap (c : nat) (l : lock) (s : smp) : smp :=
  if locked (spins s l) then s
  else set_hart c (goto (Got l) (harts s c)) (set_spin l (mkSpin true (lcpu (spins s l))) s).

(** [lk->cpu = mycpu()] and return. *)
Definition acquire_end (c : nat) (l : lock) (s : smp) : smp :=
  set_hart c (own (l :: h_owns (harts s c)) (goto Run (harts s c)))
    (set_spin l (mkSpin (locked (spins s l)) (Some c)) s).

(** [release(lk)] up to [lk->cpu = 0]. *)
Definition release_begin (c : nat) (l : lock) (s : smp) : smp :=
  if holding c l s
  then set_hart c (own (remove lock_eq_dec l (h_owns (harts s c))) (goto (Unl l) (harts s c)))
         (set_spin l (mkSpin (locked (spins s l)) None) s)
  else set_hart c (goto (Dead "release") (harts s c)) s.

(** The atomic release of the lock word, then [pop_off()]. *)
Definition release_end (c : nat) (l : lock) (s : smp) : smp :=
  set_hart c (pop_off (goto Run (harts s c)))
    (set_spin l (mkSpin false (lcpu (spins s l))) s).

(** Harts run these pieces in any order the code allows; a hart calls
    [acquire] or [release] on any lock whenever it is outside of them. *)
Inductive step : smp -> smp -> Prop :=
| step_acquire c l s : h_pc (harts s c) = Run -> step s (acquire_begin c l s)
| step_swap c l s : h_pc (harts s c) = Spin l -> step s (acquire_swap c l s)
| step_got c l s : h_pc (harts s c) = Got l -> step s (acquire_end c l s)
| step_release c l s : h_pc (harts s c) = Run -> step s (release_begin c l s)
| step_unlock c l s : h_pc (harts s c) = Unl l -> step s (release_end c l s).

(** All locks free, no hart in a critical section, interrupts as they are. *)
Definition boot (s : smp) : Prop :=
  (forall c, noff (harts s c) = 0 /\ h_pc (harts s c) = Run /\ h_owns (harts s c) = []) /\
  (forall l, spins s l = mkSpin false None).

Definition reachable (s : smp) : Prop := exists s0, boot s0 /\ rtc step s0 s.

(** ** The view of the other components: the locks this CPU holds *)

Definition K (A : Type) : Type := M kstate A.

Definition acquire (l : lock) : K unit := fun s =>
  if decide (l ∈ k_held s) then Panic "acquire"
  else Ok tt (set_k_held (l :: k_held s) s).

Definition release (l : lock) : K unit := fun s =>
  if decide (l ∈ k_held s) then Ok tt (set_k_held (remove lock_eq_dec l (k_held s)) s)
  else Panic "release".

Lemma acquire_ok l s : l ∉ k_held s -> acquire l s = Ok tt (set_k_held (l :: k_held s) s).
Proof. intros H. unfold acquire. by rewrite decide_False. Qed.

Lemma release_ok l h s :
  k_held s = l :: h -> l ∉ h -> release l s = Ok tt (set_k_held h s).
Proof.
  intros Hs Hl. unfold release. rewrite Hs, decide_True by (by left). simpl.
  destruct (lock_eq_dec l l); [|done]. rewrite notin_remove; [done|].
  by rewrite <- list_elem_of_In.
Qed.

(** ** Invariant of the interleaving *)

(** Hart [c] has taken the lock word of [l] and not given it back. *)
Definition has (s : smp) (c : nat) (l : lock) : Prop :=
  l ∈ h_owns (harts s c) \/ h_pc (harts s c) = Got l \/ h_pc (harts s c) = Unl l.

(** The nesting depth a hart's position accounts for. *)
Definition pc_depth (pc : hpc) : Z :=
  match pc with Run | Dead _ => 0 | Spin _ | Got _ | Unl _ => 1 end.

Definition alive (h : hart) : Prop := match h_pc h with Dead _ => False | _ => True end.

Record inv (s : smp) : Prop := {
  inv_locked l c : has s c l -> locked (spins s l) = true;
  inv_mutex l c c' : has s c l -> has s c' l -> c = c';
  inv_cpu l c : lcpu (spins s l) = Some c <-> l ∈ h_owns (harts s c);
  inv_pc l c : h_pc (harts s c) = Got l \/ h_pc (harts s c) = Unl l -> l ∉ h_owns (harts s c);
  inv_nodup c : NoDup (h_owns (harts s c));
  inv_noff c : alive (harts s c) ->
    noff (harts s c) = Z.of_nat (length (h_owns (harts s c))) + pc_depth (h_pc (harts s c));
  inv_ie c : alive (harts s c) -> 0 < noff (harts s c) -> h_ie (harts s c) = false
}.

Section Invariant.
Implicit Types (s : smp) (h : hart) (c : nat) (l : lock).

Lemma boot_inv s : boot s -> inv s.
Proof.
  intros [Hh Hl].
  assert (Hn : forall c l, ~ has s c l).
  { intros c l. destruct (Hh c) as (_ & Hpc & Ho). unfold has. rewrite Hpc, Ho.
    rewrite elem_of_nil. intuition discriminate. }
  split.
  - intros l c H. by apply Hn in H.
  - intros l c c' H. by apply Hn in H.
  - intros l c. rewrite Hl. destruct (Hh c) as (_ & _ & ->). simpl.
    rewrite elem_of_nil. intuition discriminate.
  - intros l c _. destruct (Hh c) as (_ & _ & ->). apply not_elem_of_nil.
  - intros c. destruct (Hh c) as (_ & _ & ->). constructor.
  - intros c _. destruct (Hh c) as (-> & -> & ->). reflexivity.
  - intros c _. destruct (Hh c) as (-> & _ & _). lia.
Qed.

Lemma holding_owns s c l : inv s -> holding c l s = true <-> l ∈ h_owns (harts s c).
Proof.
  intros I. unfold holding. rewrite andb_true_iff, bool_decide_eq_true, (inv_cpu _ I).
  split; [by intros [_ H]|]. intros H. split; [|done].
  apply (inv_locked _ I l c). by left.
Qed.

(** A free lock belongs to nobody. *)
Lemma free_lock s l c : inv s -> locked (spins s l) = false -> ~ has s c l.
Proof. intros I Hf Hh. pose proof (inv_locked _ I _ _ Hh). congruence. Qed.

Lemma alive_goto h pc : (forall msg, pc <> Dead msg) -> alive (goto pc h).
Proof. unfold alive, goto. simpl. destruct pc; try done. intros H. by destruct (H msg). Qed.

Lemma elem_of_remove (l k : lock) (ls : list lock) :
  k ∈ remove lock_eq_dec l ls <-> k ∈ ls /\ k <> l.
Proof.
  rewrite !list_elem_of_In. split.
  - apply in_remove.
  - intros [H1 H2]. by apply in_in_remove.
Qed.

Lemma NoDup_remove (l : lock) (ls : list lock) : NoDup ls -> NoDup (remove lock_eq_dec l ls).
Proof.
  induction 1 as [|x ls Hx Hnd IH]; simpl; [constructor|].
  destruct (lock_eq_dec l x); [done|]. constructor; [|done].
  rewrite elem_of_remove. tauto.
Qed.

Lemma length_remove (l : lock) (ls : list lock) :
  NoDup ls -> l ∈ ls -> S (length (remove lock_eq_dec l ls)) = length ls.
Proof.
  induction 1 as [|x ls Hx Hnd IH]; intros Hl; simpl; [by apply elem_of_nil in Hl|].
  destruct (lock_eq_dec l x) as [->|Hne].
  - f_equal. f_equal. apply notin_remove. by rewrite <- list_elem_of_In.
  - simpl. f_equal. apply IH. apply elem_of_cons in Hl. by destruct Hl.
Qed.

Lemma noff_push h : noff (push_off h) = noff h + 1.
Proof. unfold push_off. by destruct (noff h =? 0) eqn:E; simpl; rewrite E. Qed.

Lemma owns_push h : h_owns (push_off h) = h_owns h.
Proof. unfold push_off. by destruct (noff h =? 0) eqn:E; simpl; rewrite E. Qed.

Lemma ie_push h : h_ie (push_off h) = false.
Proof. unfold push_off. by destruct (noff h =? 0) eqn:E; simpl; rewrite E. Qed.

Lemma pop_off_ok h :
  h_ie h = false -> 1 <= noff h ->
  pop_off h = mkHart ((noff h - 1 =? 0) && intena h) (noff h - 1) (intena h) (h_pc h) (h_owns h).
Proof.
  intros Hie Hn. unfold pop_off. rewrite Hie.
  destruct (Z.ltb_spec (noff h) 1); [lia|]. by destruct (_ && _).
Qed.
End Invariant.

Section Preservation.
Implicit Types (s : smp) (h : hart) (c : nat) (l : lock).

Lemma harts_set c h s c' :
  harts (set_hart c h s) c' = if decide (c = c') then h else harts s c'.
Proof.
  unfold set_hart. simpl. case_decide as Hd; [subst; by rewrite fn_lookup_insert|].
  by rewrite fn_lookup_insert_ne.
Qed.

Lemma harts_set_spin l k s c : harts (set_spin l k s) c = harts s c.
Proof. done. Qed.

Lemma spins_set_hart c h s l : spins (set_hart c h s) l = spins s l.
Proof. done. Qed.

Lemma spins_set l k s l' :
  spins (set_spin l k s) l' = if decide (l = l') then k else spins s l'.
Proof.
  unfold set_spin. simpl. case_decide as Hd; [subst; by rewrite fn_lookup_insert|].
  by rewrite fn_lookup_insert_ne.
Qed.

(** A step of hart [c] that touches no lock word and keeps what it has. *)
Lemma inv_hart_only s c h :
  inv s ->
  h_owns h = h_owns (harts s c) ->
  (forall l, h_pc h = Got l \/ h_pc h = Unl l ->
     h_pc (harts s c) = Got l \/ h_pc (harts s c) = Unl l) ->
  (alive h -> noff h = Z.of_nat (length (h_owns h)) + pc_depth (h_pc h)) ->
  (alive h -> 0 < noff h -> h_ie h = false) ->
  inv (set_hart c h s).
Proof.
  intros I Ho Hpc Hn Hi.
  assert (Hhas : forall c' l, has (set_hart c h s) c' l -> has s c' l).
  { intros c' l. unfold has. rewrite harts_set. case_decide as Hd; [subst c'|done].
    rewrite Ho. intros [|H]; [by left|right; by apply Hpc]. }
  split.
  - intros l c' H. rewrite spins_set_hart. eapply inv_locked; eauto.
  - intros l c1 c2 H1 H2. eapply inv_mutex; eauto.
  - intros l c'. rewrite spins_set_hart, harts_set, (inv_cpu _ I).
    case_decide as Hd; [subst; by rewrite Ho|done].
  - intros l c'. rewrite harts_set. case_decide as Hd; [subst c'|apply (inv_pc _ I)].
    rewrite Ho. intros H. apply (inv_pc _ I). by apply Hpc.
  - intros c'. rewrite harts_set. case_decide as Hd; [rewrite Ho|]; apply (inv_nodup _ I).
  - intros c'. rewrite harts_set. case_decide as Hd; [done|apply (inv_noff _ I)].
  - intros c'. rewrite harts_set. case_decide as Hd; [done|apply (inv_ie _ I)].
Qed.

Lemma inv_acquire_begin s c l :
  inv s -> h_pc (harts s c) = Run -> inv (acquire_begin c l s).
Proof.
  intros I Hpc. unfold acquire_begin.
  assert (Ha : alive (harts s c)) by (unfold alive; by rewrite Hpc).
  pose proof (inv_noff _ I c Ha) as Hn. rewrite Hpc in Hn. simpl in Hn.
  destruct (holding c l s); apply inv_hart_only;
    simpl; try destruct (noff (harts s c) =? 0); simpl; try done;
    try (intros l' [H|H]; discriminate H); lia.
Qed.

Lemma inv_acquire_swap s c l :
  inv s -> h_pc (harts s c) = Spin l -> inv (acquire_swap c l s).
Proof.
  intros I Hpc. unfold acquire_swap. destruct (locked (spins s l)) eqn:Hl; [done|].
  assert (Hfree : forall c', ~ has s c' l) by (intros; by apply free_lock).
  assert (Ha : alive (harts s c)) by (unfold alive; by rewrite Hpc).
  set (s' := set_hart _ _ _).
  assert (Hhas : forall c' l', has s' c' l' <-> has s c' l' \/ (c' = c /\ l' = l)).
  { intros c' l'. unfold has, s'. rewrite harts_set, harts_set_spin.
    case_decide as Hc; [subst c'; simpl; rewrite Hpc|]; intuition congruence. }
  split.
  - intros l' c'. rewrite Hhas. unfold s'. rewrite spins_set_hart, spins_set.
    case_decide as Hd; [done|]. intros [H|[_ ->]]; [by eapply inv_locked|done].
  - intros l' c1 c2. rewrite !Hhas. intros [H1|[-> ->]] [H2|[-> Hl2]]; try done.
    + by eapply inv_mutex.
    + subst. by apply Hfree in H1.
    + by apply Hfree in H2.
  - intros l' c'. unfold s'. rewrite spins_set_hart, harts_set, harts_set_spin, spins_set.
    case_decide as Hl2; case_decide as Hc; subst; simpl; apply (inv_cpu _ I).
  - intros l' c'. unfold s'. rewrite harts_set, harts_set_spin. case_decide as Hd; [|apply (inv_pc _ I)].
    simpl. intros [[= <-]|[=]] Ho. apply (Hfree c). by left.
  - intros c'. unfold s'. rewrite harts_set, harts_set_spin. case_decide; simpl; apply (inv_nodup _ I).
  - intros c'. unfold s'. rewrite harts_set, harts_set_spin. case_decide as Hd; [|apply (inv_noff _ I)].
    intros _. simpl. pose proof (inv_noff _ I c Ha) as Hn. rewrite Hpc in Hn. exact Hn.
  - intros c'. unfold s'. rewrite harts_set, harts_set_spin. case_decide as Hd; [|apply (inv_ie _ I)].
    intros _. simpl. by apply (inv_ie _ I).
Qed.

Lemma inv_acquire_end s c l :
  inv s -> h_pc (harts s c) = Got l -> inv (acquire_end c l s).
Proof.
  intros I Hpc.
  assert (Ha : alive (harts s c)) by (unfold alive; by rewrite Hpc).
  assert (Hno : l ∉ h_owns (harts s c)) by (apply (inv_pc _ I); auto).
  assert (Hc0 : has s c l) by (unfold has; auto).
  assert (Hhas : forall c' l', has (acquire_end c l s) c' l' <-> has s c' l').
  { intros c' l'. unfold has, acquire_end. rewrite harts_set, harts_set_spin.
    case_decide as Hd; [subst c'; simpl; rewrite Hpc, elem_of_cons|]; intuition congruence. }
  split.
  - intros l' c'. rewrite Hhas. unfold acquire_end. rewrite spins_set_hart, spins_set.
    intros H. case_decide as Hd; [subst; simpl|]; by eapply inv_locked.
  - intros l' c1 c2. rewrite !Hhas. by apply inv_mutex.
  - intros l' c'. unfold acquire_end. rewrite spins_set_hart, harts_set, harts_set_spin, spins_set.
    case_decide as Hl; case_decide as Hc; subst; simpl; rewrite ?elem_of_cons.
    + intuition congruence.
    + split; [congruence|]. intros H. destruct Hc. apply (inv_mutex _ I l'); [done|by left].
    + rewrite (inv_cpu _ I). intuition congruence.
    + apply (inv_cpu _ I).
  - intros l' c'. unfold acquire_end. rewrite harts_set, harts_set_spin.
    case_decide as Hd; [|apply (inv_pc _ I)]. simpl. intros [[=]|[=]].
  - intros c'. unfold acquire_end. rewrite harts_set, harts_set_spin.
    case_decide; simpl; [constructor; [done|]|]; apply (inv_nodup _ I).
  - intros c'. unfold acquire_end. rewrite harts_set, harts_set_spin.
    case_decide as Hd; [|apply (inv_noff _ I)]. intros _. simpl.
    pose proof (inv_noff _ I c Ha) as Hn. rewrite Hpc in Hn. simpl in Hn. lia.
  - intros c'. unfold acquire_end. rewrite harts_set, harts_set_spin.
    case_decide as Hd; [|apply (inv_ie _ I)]. intros _. simpl. by apply (inv_ie _ I).
Qed.

Lemma inv_release_begin s c l :
  inv s -> h_pc (harts s c) = Run -> inv (release_begin c l s).
Proof.
  intros I Hpc. unfold release_begin.
  assert (Ha : alive (harts s c)) by (unfold alive; by rewrite Hpc).
  destruct (holding c l s) eqn:Hh.
  2: { apply inv_hart_only; simpl; try done. intros l' [H|H]; discriminate H. }
  apply holding_owns in Hh; [|done].
  assert (Hc0 : has s c l) by (by left).
  set (s' := set_hart _ _ _).
  assert (Hhas : forall c' l', has s' c' l' -> has s c' l').
  { intros c' l'. unfold has, s'. rewrite harts_set, harts_set_spin.
    case_decide as Hd; [subst c'; simpl; rewrite elem_of_remove|]; intuition congruence. }
  split.
  - intros l' c' H. apply Hhas in H. unfold s'. rewrite spins_set_hart, spins_set.
    case_decide as Hd; [subst; simpl|]; by eapply inv_locked.
  - intros l' c1 c2 H1 H2. apply Hhas in H1, H2. by eapply inv_mutex.
  - intros l' c'. unfold s'. rewrite spins_set_hart, harts_set, harts_set_spin, spins_set.
    case_decide as Hl; case_decide as Hc; subst; simpl; rewrite ?elem_of_remove.
    + intuition congruence.
    + split; [done|]. intros H. destruct Hc. apply (inv_mutex _ I l'); [done|by left].
    + rewrite (inv_cpu _ I). intuition congruence.
    + apply (inv_cpu _ I).
  - intros l' c'. unfold s'. rewrite harts_set, harts_set_spin.
    case_decide as Hd; [|apply (inv_pc _ I)]. simpl. rewrite elem_of_remove. intuition congruence.
  - intros c'. unfold s'. rewrite harts_set, harts_set_spin.
    case_decide; simpl; [apply NoDup_remove|]; apply (inv_nodup _ I).
  - intros c'. unfold s'. rewrite harts_set, harts_set_spin.
    case_decide as Hd; [|apply (inv_noff _ I)]. intros _. simpl.
    pose proof (inv_noff _ I c Ha) as Hn. rewrite Hpc in Hn. simpl in Hn.
    pose proof (length_remove l _ (inv_nodup _ I c) Hh). lia.
  - intros c'. unfold s'. rewrite harts_set, harts_set_spin.
    case_decide as Hd; [|apply (inv_ie _ I)]. intros _. simpl. by apply (inv_ie _ I).
Qed.

Lemma pop_off_unl s c l :
  inv s -> h_pc (harts s c) = Unl l ->
  pop_off (goto Run (harts s c)) =
  mkHart ((noff (harts s c) - 1 =? 0) && intena (harts s c)) (noff (harts s c) - 1)
    (intena (harts s c)) Run (h_owns (harts s c)).
Proof.
  intros I Hpc.
  assert (Ha : alive (harts s c)) by (unfold alive; by rewrite Hpc).
  pose proof (inv_noff _ I c Ha) as Hn. rewrite Hpc in Hn. simpl in Hn.
  rewrite pop_off_ok; [done| |simpl; lia]. simpl. apply (inv_ie _ I); [done|lia].
Qed.

Lemma inv_release_end s c l :
  inv s -> h_pc (harts s c) = Unl l -> inv (release_end c l s).
Proof.
  intros I Hpc. unfold release_end. rewrite (pop_off_unl _ _ _ I Hpc).
  assert (Ha : alive (harts s c)) by (unfold alive; by rewrite Hpc).
  assert (Hno : l ∉ h_owns (harts s c)) by (apply (inv_pc _ I); auto).
  assert (Hc0 : has s c l) by (unfold has; auto).
  pose proof (inv_noff _ I c Ha) as Hn. rewrite Hpc in Hn. simpl in Hn.
  set (s' := set_hart _ _ _).
  assert (Hhas : forall c' l', has s' c' l' -> has s c' l' /\ l' <> l).
  { intros c' l'. unfold has, s'. rewrite harts_set, harts_set_spin.
    case_decide as Hc; [subst c'; simpl; intuition congruence|].
    intros H. split; [done|]. intros ->. destruct Hc. by apply (inv_mutex _ I l). }
  split.
  - intros l' c' H. apply Hhas in H as [H Hne]. unfold s'. rewrite spins_set_hart, spins_set.
    rewrite decide_False by done. by eapply inv_locked.
  - intros l' c1 c2 H1 H2. apply Hhas in H1 as [H1 _], H2 as [H2 _]. by eapply inv_mutex.
  - intros l' c'. unfold s'. rewrite spins_set_hart, harts_set, harts_set_spin, spins_set.
    case_decide as Hl; case_decide as Hc; subst; simpl; apply (inv_cpu _ I).
  - intros l' c'. unfold s'. rewrite harts_set, harts_set_spin.
    case_decide as Hd; [|apply (inv_pc _ I)]. simpl. intros [[=]|[=]].
  - intros c'. unfold s'. rewrite harts_set, harts_set_spin.
    case_decide; simpl; apply (inv_nodup _ I).
  - intros c'. unfold s'. rewrite harts_set, harts_set_spin.
    case_decide as Hd; [|apply (inv_noff _ I)]. intros _. simpl. lia.
  - intros c'. unfold s'. rewrite harts_set, harts_set_spin.
    case_decide as Hd; [|apply (inv_ie _ I)]. intros _. simpl. intros Hp.
    destruct (Z.eqb_spec (noff (harts s c) - 1) 0); [lia|done].
Qed.

Lemma inv_step s s' : step s s' -> inv s -> inv s'.
Proof.
  intros [] I; auto using inv_acquire_begin, inv_acquire_swap, inv_acquire_end,
    inv_release_begin, inv_release_end.
Qed.

Lemma reachable_inv s : reachable s -> inv s.
Proof.
  intros (s0 & Hb & Hr). apply boot_inv in Hb. induction Hr; eauto using inv_step.
Qed.
End Preservation.

(** ** What the locks guarantee *)

(** [C11] Mutual exclusion: in every interleaving of any number of harts, at
    most one hart is between the return of [acquire(lk)] and its call of
    [release(lk)], and [holding(lk)] is true on exactly that hart. *)
Theorem spinlock_mutual_exclusion (s : smp) (l : lock) (c c' : nat) :
  reachable s ->
  (l ∈ h_owns (harts s c) -> l ∈ h_owns (harts s c') -> c = c') /\
  (holding c l s = true <-> l ∈ h_owns (harts s c)).
Proof.
  intros I%reachable_inv. split; [|by apply holding_owns].
  intros H H'. apply (inv_mutex _ I l); by left.
Qed.

(** Nesting of interrupt disabling: a hart that holds or is acquiring a
    lock runs with interrupts off, [noff] counts the locks it holds, and
    releasing the last one restores the interrupt state saved by the first
    [push_off]; neither [release] nor [pop_off] panics on the owner. *)
Theorem release_restores_interrupts (s : smp) (l : lock) (c : nat) :
  reachable s -> h_pc (harts s c) = Run -> l ∈ h_owns (harts s c) ->
  noff (harts s c) = Z.of_nat (length (h_owns (harts s c))) /\
  h_ie (harts s c) = false /\
  let h' := harts (release_end c l (release_begin c l s)) c in
  h_pc h' = Run /\
  h_owns h' = remove lock_eq_dec l (h_owns (harts s c)) /\
  h_ie h' = bool_decide (h_owns h' = []) && intena (harts s c).
Proof.
  intros I%reachable_inv Hpc Ho.
  assert (Ha : alive (harts s c)) by (unfold alive; by rewrite Hpc).
  pose proof (inv_noff _ I c Ha) as Hn. rewrite Hpc in Hn. simpl in Hn.
  pose proof (length_remove l _ (inv_nodup _ I c) Ho) as Hlen.
  split; [lia|]. split; [apply (inv_ie _ I); [done|lia]|].
  pose proof (inv_release_begin s c l I Hpc) as I1.
  assert (Hb : harts (release_begin c l s) c =
    own (remove lock_eq_dec l (h_owns (harts s c))) (goto (Unl l) (harts s c))).
  { unfold release_begin. apply holding_owns in Ho; [|done]. rewrite Ho.
    by rewrite harts_set, decide_True. }
  unfold release_end. rewrite harts_set, decide_True by done.
  rewrite (pop_off_unl _ _ l I1) by (by rewrite Hb). rewrite Hb. simpl.
  split; [done|]. split; [done|]. f_equal.
  destruct (remove lock_eq_dec l (h_owns (harts s c))) as [|x r] eqn:E; simpl in Hlen.
  - rewrite bool_decide_eq_true_2 by done. apply Z.eqb_eq. lia.
  - rewrite bool_decide_eq_false_2 by done. apply Z.eqb_neq. lia.
Qed.

(** The lock set [k_held] that the other components use is a faithful
    view of the code: on every reachable state [acquire] panics in the view
    exactly when the code does, and otherwise, once the lock word is free,
    the code's three steps return with the set the view computes; the same
    for [release] on any lock. *)
Theorem lockset_refines_spinlock (s : smp) (ks : kstate) (l : lock) (c : nat) :
  reachable s -> h_pc (harts s c) = Run -> k_held ks = h_owns (harts s c) ->
  match acquire l ks with
  | Ok _ ks' =>
      locked (spins s l) = false ->
      let h' := harts (acquire_end c l (acquire_swap c l (acquire_begin c l s))) c in
      h_pc h' = Run /\ k_held ks' = h_owns h'
  | Panic msg => h_pc (harts (acquire_begin c l s) c) = Dead msg
  | _ => False
  end /\
  match release l ks with
  | Ok _ ks' =>
      let h' := harts (release_end c l (release_begin c l s)) c in
      h_pc h' = Run /\ k_held ks' = h_owns h'
  | Panic msg => h_pc (harts (release_begin c l s) c) = Dead msg
  | _ => False
  end.
Proof.
  intros Hr Hpc Hk. pose proof (reachable_inv _ Hr) as I. split.
  - unfold acquire. rewrite Hk. pose proof (holding_owns s c l I) as Hh.
    case_decide as Hd; cbv beta iota zeta.
    + apply Hh in Hd. unfold acquire_begin. rewrite Hd. by rewrite harts_set, decide_True.
    + intros Hf. destruct (holding c l s) eqn:E; [by destruct Hd; apply Hh|].
      unfold acquire_end, acquire_swap, acquire_begin. rewrite E, spins_set_hart, Hf.
      simpl. rewrite !fn_lookup_insert. simpl. by destruct (noff (harts s c) =? 0).
  - unfold release. rewrite Hk. case_decide as Hd; cbv beta iota zeta.
    + pose proof (inv_release_begin s c l I Hpc) as I1.
      assert (Hb : harts (release_begin c l s) c =
        own (remove lock_eq_dec l (h_owns (harts s c))) (goto (Unl l) (harts s c))).
      { unfold release_begin. apply (holding_owns s c l I) in Hd. rewrite Hd.
        by rewrite harts_set, decide_True. }
      unfold release_end. rewrite harts_set, decide_True by done.
      rewrite (pop_off_unl _ _ l I1) by (by rewrite Hb). by rewrite Hb.
    + unfold release_begin. destruct (holding c l s) eqn:E.
      * by destruct Hd; apply (holding_owns s c l I).
      * by rewrite harts_set, decide_True.
Qed.

(** ** Witnesses *)

Definition smp_boot : smp :=
  mkSmp (fun _ => mkHart true 0 false Run []) (fun _ => mkSpin false None).

(** Hart 1 has acquired [wait_lock]. *)
Definition smp_held : smp :=
  acquire_end 1 wait_lock (acquire_swap 1 wait_lock (acquire_begin 1 wait_lock smp_boot)).

Lemma smp_held_reachable : reachable smp_held.
Proof.
  exists smp_boot. split; [by repeat split|].
  eapply rtc_l; [apply (step_acquire 1 wait_lock); reflexivity|].
  eapply rtc_l; [apply (step_swap 1 wait_lock); reflexivity|].
  eapply rtc_l; [apply (step_got 1 wait_lock); reflexivity|]. apply rtc_refl.
Qed.

Lemma spinlock_mutual_exclusion_witness :
  holding 1 wait_lock smp_held = true /\ wait_lock ∈ h_owns (harts smp_held 1).
Proof.
  split; [reflexivity|].
  apply (proj2 (spinlock_mutual_exclusion smp_held wait_lock 1 1 smp_held_reachable)).
  reflexivity.
Defined.

Lemma release_restores_interrupts_witness :
  h_ie (harts smp_held 1) = false /\
  h_ie (harts (release_end 1 wait_lock (release_begin 1 wait_lock smp_held)) 1) = true.
Proof.
  split; [reflexivity|].
  destruct (release_restores_interrupts smp_held wait_lock 1 smp_held_reachable)
    as (_ & _ & _ & Ho & ->); [reflexivity|vm_compute; constructor|]. vm_compute. reflexivity.
Defined.

(** The same situation as the other components see it. *)
Definition lockset_held : kstate := set_k_held [wait_lock] kstate_zero.

Lemma lockset_refines_spinlock_witness :
  h_owns (harts (release_end 1 wait_lock (release_begin 1 wait_lock smp_held)) 1) = [].
Proof.
  pose proof (lockset_refines_spinlock smp_held lockset_held wait_lock 1
                smp_held_reachable eq_refl eq_refl) as [_ [_ H]].
  exact (eq_sym H).
Defined.
