(* ===== verification/Kalloc.v ===== *)
(** * kernel/kalloc.c: the physical page allocator

    The free list is threaded through the free pages themselves: the first
    eight bytes of a free page are [struct run]'s [next].  [free_list] relates
    that list in memory to a list of page addresses; the theorems say that
    [kfree] and [kalloc] push and pop it, that [kinit] frees exactly the
    pages between the end of the kernel and [PHYSTOP], and that no sequence
    of calls ever hands out a page twice. *)

From S2P Require Import Prelude KString KState Riscv Spinlock.

Section Kalloc.
Context {L : Layout}.

(** ** The allocator *)

Definition kfree (pa : Z) : K unit :=
  if negb (pa mod PGSIZE =? 0) || (pa <? l_end) || (PHYSTOP <=? pa) then panic "kfree"
  else
    modify (fun s => set_k_mem (memset (k_mem s) pa 1 PGSIZE) s) ;;;
    acquire kmem_lock ;;;
    modify (fun s => set_k_mem (store64 (k_mem s) pa (k_freelist s)) s) ;;;
    modify (set_k_freelist pa) ;;;
    release kmem_lock.

Definition kalloc : K Z :=
  acquire kmem_lock ;;;
  let! r := gets k_freelist in
  (if r =? 0 then ret tt else modify (fun s => set_k_freelist (load64 (k_mem s) r) s)) ;;;
  release kmem_lock ;;;
  (if r =? 0 then ret tt
   else modify (fun s => set_k_mem (memset (k_mem s) r 5 PGSIZE) s)) ;;;
  ret r.

(** [for(; p + PGSIZE <= pa_end; p += PGSIZE) kfree(p);] *)
Fixpoint freerange_loop (fuel : nat) (p pa_end : Z) : K unit :=
  match fuel with
  | O => nofuel
  | S fuel =>
      if p + PGSIZE <=? pa_end then kfree p ;;; freerange_loop fuel (p + PGSIZE) pa_end
      else ret tt
  end.

(** The fuel is one more than the number of pages below [pa_end]. *)
Definition freerange (pa_start pa_end : Z) : K unit :=
  freerange_loop (S (Z.to_nat (pa_end / PGSIZE))) (PGROUNDUP pa_start) pa_end.

Definition kinit : K unit := freerange l_end PHYSTOP.

(** ** The free list *)

Fixpoint free_list (m : mem) (head : Z) (l : list Z) : Prop :=
  match l with
  | [] => head = 0
  | p :: l => head = p /\ free_list m (load64 m p) l
  end.

(** A page the allocator manages. *)
Definition page_ok (p : Z) : Prop := p mod PGSIZE = 0 /\ l_end <= p < PHYSTOP.

Record kmem_inv (s : kstate) (l : list Z) : Prop := {
  kmem_list : free_list (k_mem s) (k_freelist s) l;
  kmem_nodup : NoDup l;
  kmem_pages : Forall page_ok l
}.

(** ** Pushing and popping *)

Lemma page_ok_pos {LO : LayoutOk L} p : page_ok p -> 0 < p < 2 ^ 32.
Proof.
  pose proof l_end_ram. unfold page_ok, PHYSTOP, KERNBASE in *. lia.
Qed.

Lemma free_list_agree m m' head l :
  (forall p a, p ∈ l -> p <= a < p + 8 -> rd m' a = rd m a) ->
  free_list m head l -> free_list m' head l.
Proof.
  revert head. induction l as [|p l IH]; intros head H; simpl; [done|].
  intros [-> Hl]. split; [done|]. rewrite (load64_agree m m').
  - apply IH; [|done]. intros q a Hq. apply H. by right.
  - intros b. apply H. by left.
Qed.

Lemma rd_memset_page m p c a :
  rd (memset m p c PGSIZE) a = if decide (p <= a < p + PGSIZE) then u8 c else rd m a.
Proof. apply rd_memset. unfold PGSIZE. lia. Qed.

Lemma kalloc_none s :
  kmem_inv s [] -> kmem_lock ∉ k_held s -> kalloc s = Ok 0 s.
Proof.
  intros [Hl _ _] Hk. simpl in Hl. unfold kalloc.
  rewrite (bind_ok _ _ _ _ _ (acquire_ok _ _ Hk)). unfold gets, bind at 1. simpl.
  rewrite Hl. simpl.
  unfold bind, ret. rewrite (release_ok _ (k_held s)) by done.
  kstate_eq s.
Qed.

Lemma kalloc_some {LO : LayoutOk L} s p l :
  kmem_inv s (p :: l) -> kmem_lock ∉ k_held s ->
  kalloc s = Ok p (set_k_mem (memset (k_mem s) p 5 PGSIZE)
                     (set_k_freelist (load64 (k_mem s) p) s)).
Proof.
  intros [[Hh Hl] _ Hp] Hk. apply Forall_cons in Hp as [Hp%page_ok_pos _].
  unfold kalloc. rewrite (bind_ok _ _ _ _ _ (acquire_ok _ _ Hk)).
  unfold gets, bind, modify, ret. simpl. rewrite Hh.
  destruct (Z.eqb_spec p 0); [lia|].
  rewrite (release_ok _ (k_held s)) by done. kstate_eq s.
Qed.

Lemma kfree_ok p s :
  page_ok p -> kmem_lock ∉ k_held s ->
  kfree p s = Ok tt (set_k_freelist p
    (set_k_mem (store64 (memset (k_mem s) p 1 PGSIZE) p (k_freelist s)) s)).
Proof.
  intros [Ha Hr] Hk. unfold kfree.
  destruct (Z.eqb_spec (p mod PGSIZE) 0); [|done].
  destruct (Z.ltb_spec p l_end); [lia|]. destruct (Z.leb_spec PHYSTOP p); [lia|]. simpl.
  unfold bind, modify. rewrite acquire_ok by done. simpl.
  rewrite (release_ok _ (k_held s)) by done. kstate_eq s.
Qed.

(** What [kalloc] does: the head of the list is handed out, filled with
    junk, and the rest stays; every other byte of memory is kept. *)
Lemma kalloc_inv_pop {LO : LayoutOk L} s p l :
  kmem_inv s (p :: l) ->
  kmem_inv (set_k_mem (memset (k_mem s) p 5 PGSIZE)
              (set_k_freelist (load64 (k_mem s) p) s)) l.
Proof.
  intros [[Hh Hl] Hnd Hp]. apply NoDup_cons in Hnd as [Hn Hnd].
  apply Forall_cons in Hp as [Hp Hps].
  split; simpl; [|done|done].
  eapply free_list_agree; [|exact Hl]. intros q a Hq Ha.
  rewrite rd_memset_page, decide_False; [done|].
  rewrite Forall_forall in Hps. apply (page_disjoint q p).
  - by apply Hps.
  - apply Hp.
  - intros ->. done.
  - unfold PGSIZE. lia.
Qed.

Lemma free_list_head_range {LO : LayoutOk L} m head l :
  free_list m head l -> Forall page_ok l -> 0 <= head < 2 ^ 64.
Proof.
  destruct l as [|p l]; simpl; [lia|]. intros [-> _] [Hp%page_ok_pos _]%Forall_cons. lia.
Qed.

Lemma kfree_inv_push {LO : LayoutOk L} s p l :
  kmem_inv s l -> page_ok p -> p ∉ l ->
  kmem_inv (set_k_freelist p
    (set_k_mem (store64 (memset (k_mem s) p 1 PGSIZE) p (k_freelist s)) s)) (p :: l).
Proof.
  intros [Hl Hnd Hps] Hp Hn. split; simpl.
  - split; [done|]. rewrite load64_store64_same, u64_small by eauto using free_list_head_range.
    eapply free_list_agree; [|exact Hl]. intros q a Hq Ha.
    assert (Hd : ~ p <= a < p + PGSIZE).
    { rewrite Forall_forall in Hps. apply (page_disjoint q p).
      - by apply Hps.
      - apply Hp.
      - intros ->. done.
      - unfold PGSIZE. lia. }
    rewrite rd_store64_other, rd_memset_page, decide_False; unfold PGSIZE in *; lia || done.
  - by constructor.
  - by constructor.
Qed.

(** ** The pages the allocator starts with *)

(** The page addresses [p], [p + PGSIZE], ... that fit below [pa_end]. *)
Fixpoint pages_from (n : nat) (p : Z) : list Z :=
  match n with
  | O => []
  | S n => p :: pages_from n (p + PGSIZE)
  end.

(** Their number for [kinit]. *)
Definition npages : nat := Z.to_nat ((PHYSTOP - PGROUNDUP l_end) / PGSIZE).

Definition all_pages : list Z := pages_from npages (PGROUNDUP l_end).

Lemma elem_of_pages_from n p q :
  q ∈ pages_from n p <-> exists i : nat, (i < n)%nat /\ q = p + Z.of_nat i * PGSIZE.
Proof.
  revert p. induction n as [|n IH]; intros p; simpl.
  - rewrite elem_of_nil. split; [done|]. intros (i & Hi & _). lia.
  - rewrite elem_of_cons, IH. split.
    + intros [->|(i & Hi & ->)]; [exists 0%nat; lia|exists (S i); lia].
    + intros ([|i] & Hi & ->); [left; lia|right; exists i; lia].
Qed.

Lemma NoDup_pages_from n p : NoDup (pages_from n p).
Proof.
  revert p. induction n as [|n IH]; intros p; simpl; constructor; [|done].
  rewrite elem_of_pages_from. intros (i & _ & H). unfold PGSIZE in H. lia.
Qed.

Lemma page_bounds_end {LO : LayoutOk L} :
  0 <= PGROUNDUP l_end <= PHYSTOP /\ l_end <= PGROUNDUP l_end /\
  PGROUNDUP l_end mod PGSIZE = 0 /\ PHYSTOP mod PGSIZE = 0.
Proof.
  pose proof l_end_ram as H. unfold PHYSTOP, KERNBASE in *.
  pose proof (pgroundup_aligned l_end) as Ha.
  assert (He := pgroundup_eq l_end). rewrite He by (unfold PGSIZE; lia). rewrite He in Ha by (unfold PGSIZE; lia).
  unfold PGSIZE in *. split_and!; try done; mlia.
Qed.

Lemma all_pages_ok {LO : LayoutOk L} : Forall page_ok all_pages.
Proof.
  destruct page_bounds_end as (H1 & H2 & H3 & H4).
  apply Forall_forall. intros q Hq. apply elem_of_pages_from in Hq as (i & Hi & ->).
  unfold npages in Hi. unfold page_ok, PGSIZE in *.
  pose proof (Z.div_mod (PHYSTOP - PGROUNDUP l_end) 4096).
  pose proof (Z.mod_pos_bound (PHYSTOP - PGROUNDUP l_end) 4096). split.
  - by rewrite Z.mod_add.
  - lia.
Qed.

Lemma freerange_loop_ok {LO : LayoutOk L} n p fuel s l :
  (n < fuel)%nat ->
  kmem_inv s l -> kmem_lock ∉ k_held s ->
  Forall page_ok (pages_from n p) -> NoDup (rev (pages_from n p) ++ l) ->
  PHYSTOP < p + Z.of_nat (S n) * PGSIZE -> p + Z.of_nat n * PGSIZE <= PHYSTOP ->
  exists s', freerange_loop fuel p PHYSTOP s = Ok tt s' /\
    kmem_inv s' (rev (pages_from n p) ++ l) /\ k_held s' = k_held s.
Proof.
  revert p fuel s l. induction n as [|n IH]; intros p [|fuel] s l Hf I Hk Hok Hnd Hhi Hlo;
    [lia| |lia|]; cbn [freerange_loop].
  - destruct (Z.leb_spec (p + PGSIZE) PHYSTOP); [unfold PGSIZE in *; lia|].
    exists s. by split.
  - destruct (Z.leb_spec (p + PGSIZE) PHYSTOP); [|unfold PGSIZE in *; lia].
    cbn [pages_from] in *. apply Forall_cons in Hok as [Hp Hok].
    cbn [rev] in *. rewrite <- app_assoc in *. cbn [app] in *.
    rewrite (bind_ok _ _ _ _ _ (kfree_ok p s Hp Hk)).
    set (s1 := set_k_freelist _ _).
    assert (I1 : kmem_inv s1 (p :: l)).
    { apply kfree_inv_push; [done|done|].
      apply NoDup_app in Hnd as (_ & _ & Hnd). by apply NoDup_cons in Hnd as [? _]. }
    destruct (IH (p + PGSIZE) fuel s1 (p :: l)) as (s' & Hs & I' & Hh); try done; try lia.
    exists s'. split; [done|]. split; [done|]. rewrite Hh. done.
Qed.

(** A boot state: nothing allocated, the lock free. *)
Lemma kinit_ok {LO : LayoutOk L} s :
  k_freelist s = 0 -> kmem_lock ∉ k_held s ->
  exists s', kinit s = Ok tt s' /\ kmem_inv s' (rev all_pages) /\ k_held s' = k_held s.
Proof.
  intros Hf Hk. destruct page_bounds_end as (H1 & H2 & H3 & H4).
  pose proof (Z.div_mod (PHYSTOP - PGROUNDUP l_end) PGSIZE) as Hd.
  pose proof (Z.mod_pos_bound (PHYSTOP - PGROUNDUP l_end) PGSIZE) as Hm.
  assert (Hq : 0 <= (PHYSTOP - PGROUNDUP l_end) / PGSIZE <= PHYSTOP / PGSIZE).
  { unfold PGSIZE in *. split; [apply Z.div_pos; lia|apply Z.div_le_mono; lia]. }
  destruct (freerange_loop_ok npages (PGROUNDUP l_end) (S (Z.to_nat (PHYSTOP / PGSIZE))) s [])
    as (s' & Hs & I & Hh).
  - unfold npages. lia.
  - by split; [| constructor|].
  - done.
  - apply all_pages_ok.
  - rewrite app_nil_r. apply NoDup_ListNoDup, NoDup_rev, NoDup_ListNoDup, NoDup_pages_from.
  - unfold npages. unfold PGSIZE in *. lia.
  - unfold npages. unfold PGSIZE in *. lia.
  - exists s'. rewrite app_nil_r in I. by split.
Qed.

(** ** Clients of the allocator *)

(** What the rest of the kernel does with it: [own] are the pages it has
    obtained and not given back; it frees only those, and writes only
    inside those. *)
Inductive alloc_step : kstate * list Z -> kstate * list Z -> Prop :=
| alloc_page s own p s' :
    kalloc s = Ok p s' -> p <> 0 -> alloc_step (s, own) (s', p :: own)
| alloc_empty s own s' :
    kalloc s = Ok 0 s' -> alloc_step (s, own) (s', own)
| alloc_free s own p s' :
    p ∈ own -> kfree p s = Ok tt s' -> alloc_step (s, own) (s', remove Z.eq_dec p own)
| alloc_write s own m :
    (forall a, (forall p, p ∈ own -> ~ p <= a < p + PGSIZE) -> rd m a = rd (k_mem s) a) ->
    alloc_step (s, own) (set_k_mem m s, own).

(** States after boot and any number of such steps. *)
Definition alloc_reach (st : kstate * list Z) : Prop :=
  exists s0 s1, k_freelist s0 = 0 /\ (kmem_lock ∉ k_held s0) /\
    kinit s0 = Ok tt s1 /\ rtc alloc_step (s1, []) st.

(** Owned and free pages together are all pages, without overlap. *)
Definition alloc_inv (st : kstate * list Z) : Prop :=
  exists free, kmem_inv (fst st) free /\ (snd st ++ free) ≡ₚ all_pages /\
    kmem_lock ∉ k_held (fst st).

Lemma alloc_inv_nodup own free : (own ++ free) ≡ₚ all_pages -> NoDup (own ++ free).
Proof. intros H. rewrite H. apply NoDup_pages_from. Qed.

Lemma alloc_inv_pages {LO : LayoutOk L} own free :
  (own ++ free) ≡ₚ all_pages -> Forall page_ok own /\ Forall page_ok free.
Proof. intros H. rewrite <- Forall_app, H. apply all_pages_ok. Qed.

Lemma remove_Permutation (p : Z) (l : list Z) :
  NoDup l -> p ∈ l -> l ≡ₚ p :: remove Z.eq_dec p l.
Proof.
  induction 1 as [|x l Hx Hnd IH]; intros Hp; simpl; [by apply elem_of_nil in Hp|].
  destruct (Z.eq_dec p x) as [->|Hne].
  - rewrite notin_remove; [done|]. by rewrite <- list_elem_of_In.
  - apply elem_of_cons in Hp as [|Hp]; [done|]. rewrite (IH Hp) at 1. apply Permutation_swap.
Qed.

Lemma alloc_step_inv {LO : LayoutOk L} st st' :
  alloc_step st st' -> alloc_inv st -> alloc_inv st'.
Proof.
  intros [s own p s' Hk Hp|s own s' Hk|s own p s' Hp Hk|s own m Hm] (free & I & HP & Hl);
    cbn [fst snd] in *.
  - destruct free as [|q free].
    { rewrite (kalloc_none _ I Hl) in Hk. simplify_eq. }
    rewrite (kalloc_some _ _ _ I Hl) in Hk. simplify_eq.
    exists free. split; [by apply kalloc_inv_pop|]. split; [|done]. simpl.
    rewrite <- HP. apply Permutation_middle.
  - destruct free as [|q free].
    + rewrite (kalloc_none _ I Hl) in Hk. simplify_eq. by exists [].
    + rewrite (kalloc_some _ _ _ I Hl) in Hk. simplify_eq.
      exfalso. pose proof (kmem_pages _ _ I) as [Hq%page_ok_pos _]%Forall_cons. lia.
  - pose proof (alloc_inv_nodup _ _ HP) as (Hno & Hd & _)%NoDup_app.
    pose proof (alloc_inv_pages _ _ HP) as [Hpo _]. rewrite Forall_forall in Hpo.
    rewrite kfree_ok in Hk by auto. simplify_eq. exists (p :: free). split.
    + apply kfree_inv_push; [done|by apply Hpo|by apply Hd].
    + split; [|done]. simpl. rewrite <- Permutation_middle.
      change (p :: ?a ++ ?b) with ((p :: a) ++ b). by rewrite <- remove_Permutation.
  - exists free. split; [|done]. destruct I as [Hf Hnd Hps]. split; [|done|done]. simpl.
    eapply free_list_agree; [|exact Hf]. intros q a Hq Ha. apply Hm. intros p Hp.
    pose proof (alloc_inv_nodup _ _ HP) as (_ & Hd & _)%NoDup_app.
    pose proof (alloc_inv_pages _ _ HP) as [Hpo Hpf]. rewrite Forall_forall in Hpo, Hpf.
    apply (page_disjoint q p).
    + by apply Hpf.
    + by apply Hpo.
    + intros ->. by apply (Hd p).
    + unfold PGSIZE. lia.
Qed.

Lemma alloc_reach_inv {LO : LayoutOk L} st : alloc_reach st -> alloc_inv st.
Proof.
  intros (s0 & s1 & Hf & Hl & Hk & Hr).
  destruct (kinit_ok s0 Hf Hl) as (s1' & Hk' & I & Hh). rewrite Hk in Hk'. simplify_eq.
  assert (alloc_inv (s1', [])) as I0.
  { exists (rev all_pages). split; [done|]. split; [|simpl; by rewrite Hh].
    simpl. symmetry. apply Permutation_rev. }
  clear Hk. induction Hr; eauto using alloc_step_inv.
Qed.

(** ** The allocator's contract *)

(** [C30] Exclusive pages: after boot and any sequence of allocations, frees
    of owned pages and writes inside owned pages, the owned pages are
    distinct, page-aligned and inside the RAM above the kernel; owned and
    free pages are together exactly the pages between the end of the kernel
    and PHYSTOP; [kalloc] returns a page that nobody owns, or 0 only when
    every page is owned; and [kfree] of an owned page never panics. *)
Theorem kalloc_exclusive {LO : LayoutOk L} (s : kstate) (own : list Z) :
  alloc_reach (s, own) ->
  NoDup own /\ Forall page_ok own /\
  exists free, (own ++ free) ≡ₚ all_pages /\
    (exists p s', kalloc s = Ok p s' /\
       ((p = 0 /\ free = []) \/ (p ∈ free /\ (p ∉ own) /\ page_ok p))) /\
    (forall p, p ∈ own -> exists s', kfree p s = Ok tt s').
Proof.
  intros (free & I & HP & Hl)%alloc_reach_inv. cbn [fst snd] in *.
  pose proof (alloc_inv_nodup _ _ HP) as (Hno & Hd & _)%NoDup_app.
  pose proof (alloc_inv_pages _ _ HP) as [Hpo Hpf].
  split; [done|]. split; [done|]. exists free. split; [done|]. split.
  - destruct free as [|q free].
    + exists 0, s. split; [by apply kalloc_none|by left].
    + eexists q, _. split; [by eapply kalloc_some|]. right.
      apply Forall_cons in Hpf as [Hq _]. split_and!; [by left| |done].
      intros Ho. apply (Hd _ Ho). by left.
  - intros p Hp. rewrite Forall_forall in Hpo. eexists. apply kfree_ok; auto.
Qed.

(** Round trip: a page that is freed is the next one allocated, junk
    filled, and the free list is back to what it was; all bytes outside the
    page are kept. *)
Theorem kfree_kalloc_roundtrip {LO : LayoutOk L} (s : kstate) (l : list Z) (p : Z) :
  kmem_inv s l -> page_ok p -> p ∉ l -> kmem_lock ∉ k_held s ->
  exists s', bind (kfree p) (fun _ => kalloc) s = Ok p s' /\ kmem_inv s' l /\
    k_freelist s' = k_freelist s /\
    (forall a, rd (k_mem s') a =
       if decide (p <= a < p + PGSIZE) then 5 else rd (k_mem s) a).
Proof.
  intros I Hp Hn Hl.
  pose proof (kfree_inv_push _ _ _ I Hp Hn) as I1.
  eexists. split_and!.
  - rewrite (bind_ok _ _ _ _ _ (kfree_ok p s Hp Hl)). by eapply kalloc_some.
  - by apply (kalloc_inv_pop _ _ _ I1).
  - cbn [k_freelist set_k_mem set_k_freelist k_mem]. rewrite load64_store64_same. apply u64_small.
    eauto using free_list_head_range, kmem_list, kmem_pages.
  - intros a. cbn [k_freelist set_k_mem set_k_freelist k_mem]. rewrite rd_memset_page.
    case_decide as Hd; [done|]. rewrite rd_store64_other, rd_memset_page, decide_False by (unfold PGSIZE in *; lia).
    done.
Qed.
End Kalloc.

(** ** Witnesses *)

(** Three pages of RAM, one of them allocated. *)
Definition small3 : Layout := small_layout 3.

Lemma kalloc_exclusive_witness :
  exists s own, alloc_reach (L := small3) (s, own) /\ own = [PHYSTOP - PGSIZE] /\
    exists free, (own ++ free) ≡ₚ all_pages (L := small3).
Proof.
  pose proof (small_layout_ok 3 ltac:(lia) : LayoutOk small3) as LO.
  destruct (kinit_ok (L := small3) kstate_zero) as (s1 & Hk & I & Hh);
    [reflexivity|apply not_elem_of_nil|].
  change (rev all_pages) with [PHYSTOP - PGSIZE; PHYSTOP - 2 * PGSIZE; PHYSTOP - 3 * PGSIZE] in I.
  assert (Hl : kmem_lock ∉ k_held s1) by (rewrite Hh; apply not_elem_of_nil).
  assert (R : alloc_reach (L := small3) (set_k_mem (memset (k_mem s1) (PHYSTOP - PGSIZE) 5 PGSIZE)
      (set_k_freelist (load64 (k_mem s1) (PHYSTOP - PGSIZE)) s1), [PHYSTOP - PGSIZE])).
  { exists kstate_zero, s1. split_and!; [reflexivity|apply not_elem_of_nil|exact Hk|].
    apply rtc_once. constructor; [by eapply (kalloc_some (LO := LO))|discriminate]. }
  eexists _, _. split; [exact R|]. split; [reflexivity|].
  destruct (kalloc_exclusive _ _ R) as (_ & _ & free & HP & _). exists free. exact HP.
Defined.

Lemma kfree_kalloc_roundtrip_witness :
  exists s', bind (kfree (L := small3) (PHYSTOP - PGSIZE)) (fun _ => kalloc) kstate_zero
             = Ok (PHYSTOP - PGSIZE) s'.
Proof.
  pose proof (small_layout_ok 3 ltac:(lia) : LayoutOk small3) as LO.
  destruct (kfree_kalloc_roundtrip (L := small3) kstate_zero [] (PHYSTOP - PGSIZE))
    as (s' & H & _).
  - split; [reflexivity|constructor|constructor].
  - split; [reflexivity|]. vm_compute. intuition discriminate.
  - apply not_elem_of_nil.
  - apply not_elem_of_nil.
  - exists s'. exact H.
Defined.
