(* ===== verification/Vm.v ===== *)
(** * kernel/vm.c: page tables and user memory

    The Sv39 page-table code on the physical memory [k_mem].  A page table
    is the address of its root page; a page-table entry is eight bytes of
    memory, a pointer to one its address (0 is null).  A kernel buffer given
    to [copyout] or filled by [copyin] is a list of bytes.  This file holds
    the definitions; [VmTree.v], [VmMap.v] and [VmCopy.v] hold the theorems. *)

From S2P Require Import Prelude KString Bytes KState Riscv Spinlock Kalloc.

Section Vm.
Context {L : Layout}.

(** Reads and writes of kernel memory. *)
Definition read64 (a : Z) : K Z := gets (fun s => load64 (k_mem s) a).
Definition write64 (a v : Z) : K unit := modify (fun s => set_k_mem (store64 (k_mem s) a v) s).
Definition fill_page (a c : Z) : K unit :=
  modify (fun s => set_k_mem (memset (k_mem s) a c PGSIZE) s).

(** ** Walking and mapping *)

(** The loop of [walk] from level [level] on; [pagetable[PX(level, va)]]
    is the entry at [pagetable + 8 * PX(level, va)]. *)
Fixpoint walk_loop (level : nat) (pagetable va : Z) (alloc : bool) : K Z :=
  match level with
  | O => ret (pagetable + 8 * PX 0 va)
  | S l =>
      let pte := pagetable + 8 * PX (Z.of_nat (S l)) va in
      let! v := read64 pte in
      if has_flag v PTE_V then walk_loop l (PTE2PA v) va alloc
      else if negb alloc then ret 0
      else
        let! new := kalloc in
        if new =? 0 then ret 0
        else
          fill_page new 0 ;;;
          write64 pte (Z.lor (PA2PTE new) PTE_V) ;;;
          walk_loop l new va alloc
  end.

Definition walk (pagetable va : Z) (alloc : bool) : K Z :=
  if MAXVA <=? va then panic "walk" else walk_loop 2 pagetable va alloc.

Definition walkaddr (pagetable va : Z) : K Z :=
  if MAXVA <=? va then ret 0
  else
    let! pte := walk pagetable va false in
    if pte =? 0 then ret 0
    else
      let! v := read64 pte in
      if negb (has_flag v PTE_V) then ret 0
      else if negb (has_flag v PTE_U) then ret 0
      else ret (PTE2PA v).

Fixpoint mappages_loop (fuel : nat) (pagetable a last pa perm : Z) : K Z :=
  match fuel with
  | O => nofuel
  | S fuel =>
      let! pte := walk pagetable a true in
      if pte =? 0 then ret (-1)
      else
        let! v := read64 pte in
        if has_flag v PTE_V then panic "mappages: remap"
        else
          write64 pte (Z.lor (Z.lor (PA2PTE pa) perm) PTE_V) ;;;
          if a =? last then ret 0
          else mappages_loop fuel pagetable (u64 (a + PGSIZE)) last (u64 (pa + PGSIZE)) perm
  end.

(** The fuel covers the pages from [a] to [last]. *)
Definition mappages (pagetable va size pa perm : Z) : K Z :=
  if size =? 0 then panic "mappages: size"
  else
    let a := PGROUNDDOWN va in
    let last := PGROUNDDOWN (u64 (va + size - 1)) in
    mappages_loop (S (Z.to_nat ((last - a) / PGSIZE))) pagetable a last pa perm.

Definition kvmmap (kpgtbl va pa sz perm : Z) : K unit :=
  let! r := mappages kpgtbl va sz pa perm in
  if negb (r =? 0) then panic "kvmmap" else ret tt.

Fixpoint uvmunmap_loop (fuel : nat) (pagetable a bound : Z) (do_free : bool) : K unit :=
  match fuel with
  | O => nofuel
  | S fuel =>
      if a <? bound then
        let! pte := walk pagetable a false in
        if pte =? 0 then panic "uvmunmap: walk"
        else
          let! v := read64 pte in
          if negb (has_flag v PTE_V) then panic "uvmunmap: not mapped"
          else if PTE_FLAGS v =? PTE_V then panic "uvmunmap: not a leaf"
          else
            (if do_free then kfree (PTE2PA v) else ret tt) ;;;
            write64 pte 0 ;;;
            uvmunmap_loop fuel pagetable (u64 (a + PGSIZE)) bound do_free
      else ret tt
  end.

Definition uvmunmap (pagetable va npages : Z) (do_free : bool) : K unit :=
  if negb (va mod PGSIZE =? 0) then panic "uvmunmap: not aligned"
  else uvmunmap_loop (S (Z.to_nat npages)) pagetable va (u64 (va + u64 (npages * PGSIZE))) do_free.

Definition uvmcreate : K Z :=
  let! pagetable := kalloc in
  if pagetable =? 0 then ret 0
  else fill_page pagetable 0 ;;; ret pagetable.

Definition uvmfirst (pagetable : Z) (src : list Z) : K unit :=
  if PGSIZE <=? Z.of_nat (length src) then panic "uvmfirst: more than a page"
  else
    let! mem := kalloc in
    if mem =? 0 then fault "null page"
    else
      fill_page mem 0 ;;;
      mappages pagetable 0 PGSIZE mem (Z.lor (Z.lor (Z.lor PTE_W PTE_R) PTE_X) PTE_U) ;;;
      modify (fun s => set_k_mem (wr_bytes (k_mem s) mem src) s).

(** ** Growing, shrinking, copying and freeing a user address space *)

Definition uvmdealloc (pagetable oldsz newsz : Z) : K Z :=
  if oldsz <=? newsz then ret oldsz
  else
    (if PGROUNDUP newsz <? PGROUNDUP oldsz then
       let npages := s32 ((PGROUNDUP oldsz - PGROUNDUP newsz) / PGSIZE) in
       uvmunmap pagetable (PGROUNDUP newsz) (u64 npages) true
     else ret tt) ;;;
    ret newsz.

Fixpoint uvmalloc_loop (fuel : nat) (pagetable a oldsz newsz xperm : Z) : K Z :=
  match fuel with
  | O => nofuel
  | S fuel =>
      if a <? newsz then
        let! mem := kalloc in
        if mem =? 0 then uvmdealloc pagetable a oldsz ;;; ret 0
        else
          fill_page mem 0 ;;;
          let! r := mappages pagetable a PGSIZE mem (Z.lor (Z.lor PTE_R PTE_U) xperm) in
          if negb (r =? 0) then
            kfree mem ;;;
            uvmdealloc pagetable a oldsz ;;;
            ret 0
          else uvmalloc_loop fuel pagetable (u64 (a + PGSIZE)) oldsz newsz xperm
      else ret newsz
  end.

Definition uvmalloc (pagetable oldsz newsz xperm : Z) : K Z :=
  if newsz <? oldsz then ret oldsz
  else
    let oldsz := PGROUNDUP oldsz in
    uvmalloc_loop (S (Z.to_nat (newsz / PGSIZE + 1))) pagetable oldsz oldsz newsz xperm.

(** The loop of [freewalk] over the entries [ix]; [rec] is the recursive
    call. *)
Fixpoint freewalk_loop (rec : Z -> K unit) (ix : list Z) (pagetable : Z) : K unit :=
  match ix with
  | [] => kfree pagetable
  | i :: ix =>
      let! pte := read64 (pagetable + 8 * i) in
      if has_flag pte PTE_V && negb (has_flag pte (Z.lor (Z.lor PTE_R PTE_W) PTE_X)) then
        rec (PTE2PA pte) ;;;
        write64 (pagetable + 8 * i) 0 ;;;
        freewalk_loop rec ix pagetable
      else if has_flag pte PTE_V then panic "freewalk: leaf"
      else freewalk_loop rec ix pagetable
  end.

(** [depth] bounds the recursion. *)
Fixpoint freewalk (depth : nat) (pagetable : Z) : K unit :=
  match depth with
  | O => nofuel
  | S depth => freewalk_loop (freewalk depth) (seqZ 0 512) pagetable
  end.

(** A Sv39 table has three levels. *)
Definition uvmfree (pagetable sz : Z) : K unit :=
  (if 0 <? sz then uvmunmap pagetable 0 (PGROUNDUP sz / PGSIZE) true else ret tt) ;;;
  freewalk 3 pagetable.

Fixpoint uvmcopy_loop (fuel : nat) (old new i sz : Z) : K Z :=
  let err := uvmunmap new 0 (i / PGSIZE) true ;;; ret (-1) in
  match fuel with
  | O => nofuel
  | S fuel =>
      if i <? sz then
        let! pte := walk old i false in
        if pte =? 0 then panic "uvmcopy: pte should exist"
        else
          let! v := read64 pte in
          if negb (has_flag v PTE_V) then panic "uvmcopy: page not present"
          else
            let pa := PTE2PA v in
            let flags := PTE_FLAGS v in
            let! mem := kalloc in
            if mem =? 0 then err
            else
              modify (fun s => set_k_mem (memmove (k_mem s) mem pa PGSIZE) s) ;;;
              let! r := mappages new i PGSIZE mem flags in
              if negb (r =? 0) then kfree mem ;;; err
              else uvmcopy_loop fuel old new (u64 (i + PGSIZE)) sz
      else ret 0
  end.

Definition uvmcopy (old new sz : Z) : K Z :=
  uvmcopy_loop (S (Z.to_nat (sz / PGSIZE + 1))) old new 0 sz.

Definition uvmclear (pagetable va : Z) : K unit :=
  let! pte := walk pagetable va false in
  if pte =? 0 then panic "uvmclear"
  else
    let! v := read64 pte in
    write64 pte (Z.land v (Z.lnot PTE_U)).

(** ** Copying between kernel and user space *)

(** [copyout]'s loop; every iteration copies at least one byte, so the
    length of [src] is enough fuel. *)
Fixpoint copyout_loop (fuel : nat) (pagetable dstva : Z) (src : list Z) : K Z :=
  match src with
  | [] => ret 0
  | _ =>
      match fuel with
      | O => nofuel
      | S fuel =>
          let va0 := PGROUNDDOWN dstva in
          let! pa0 := walkaddr pagetable va0 in
          if pa0 =? 0 then ret (-1)
          else
            let n := PGSIZE - (dstva - va0) in
            let n := if Z.of_nat (length src) <? n then Z.of_nat (length src) else n in
            modify (fun s =>
              set_k_mem (wr_bytes (k_mem s) (pa0 + (dstva - va0)) (take (Z.to_nat n) src)) s) ;;;
            copyout_loop fuel pagetable (va0 + PGSIZE) (drop (Z.to_nat n) src)
      end
  end.

Definition copyout (pagetable dstva : Z) (src : list Z) : K Z :=
  copyout_loop (length src) pagetable dstva src.

(** [copyin] returns the status and the bytes stored at [dst]. *)
Fixpoint copyin_loop (fuel : nat) (pagetable srcva len : Z) : K (Z * list Z) :=
  if len <=? 0 then ret (0, [])
  else
    match fuel with
    | O => nofuel
    | S fuel =>
        let va0 := PGROUNDDOWN srcva in
        let! pa0 := walkaddr pagetable va0 in
        if pa0 =? 0 then ret (-1, [])
        else
          let n := PGSIZE - (srcva - va0) in
          let n := if len <? n then len else n in
          let! bs := gets (fun s => bytes_at (k_mem s) (pa0 + (srcva - va0)) (Z.to_nat n)) in
          let! (r, rest) := copyin_loop fuel pagetable (va0 + PGSIZE) (len - n) in
          ret (r, bs ++ rest)
    end.

Definition copyin (pagetable srcva len : Z) : K (Z * list Z) :=
  copyin_loop (Z.to_nat len) pagetable srcva len.

(** The inner loop of [copyinstr] on the [n] bytes at [p]: the bytes stored
    at [dst] and whether a NUL was met. *)
Fixpoint copyinstr_page (n : nat) (m : mem) (p : Z) : bool * list Z :=
  match n with
  | O => (false, [])
  | S n =>
      if rd m p =? 0 then (true, [0])
      else let '(got, bs) := copyinstr_page n m (p + 1) in (got, rd m p :: bs)
  end.

(** [copyinstr] returns the status and the bytes stored at [dst]. *)
Fixpoint copyinstr_loop (fuel : nat) (pagetable srcva max : Z) : K (Z * list Z) :=
  if max <=? 0 then ret (-1, [])
  else
    match fuel with
    | O => nofuel
    | S fuel =>
        let va0 := PGROUNDDOWN srcva in
        let! pa0 := walkaddr pagetable va0 in
        if pa0 =? 0 then ret (-1, [])
        else
          let n := PGSIZE - (srcva - va0) in
          let n := if max <? n then max else n in
          let! r := gets (fun s => copyinstr_page (Z.to_nat n) (k_mem s) (pa0 + (srcva - va0))) in
          let '(got_null, bs) := r in
          if got_null then ret (0, bs)
          else
            let! (r, rest) := copyinstr_loop fuel pagetable (va0 + PGSIZE) (max - n) in
            ret (r, bs ++ rest)
    end.

Definition copyinstr (pagetable srcva max : Z) : K (Z * list Z) :=
  copyinstr_loop (Z.to_nat max) pagetable srcva max.

(** ** The kernel's own page table *)

Fixpoint proc_mapstacks_loop (ix : list nat) (kpgtbl : Z) : K unit :=
  match ix with
  | [] => ret tt
  | i :: ix =>
      let! pa := kalloc in
      if pa =? 0 then panic "kalloc"
      else
        kvmmap kpgtbl (KSTACK (Z.of_nat i)) pa PGSIZE (Z.lor PTE_R PTE_W) ;;;
        proc_mapstacks_loop ix kpgtbl
  end.

Definition proc_mapstacks (kpgtbl : Z) : K unit := proc_mapstacks_loop (seq 0 NPROC) kpgtbl.

Definition kvmmake : K Z :=
  let! kpgtbl := kalloc in
  if kpgtbl =? 0 then fault "null page"
  else
    fill_page kpgtbl 0 ;;;
    kvmmap kpgtbl UART0 UART0 PGSIZE (Z.lor PTE_R PTE_W) ;;;
    kvmmap kpgtbl VIRTIO0 VIRTIO0 PGSIZE (Z.lor PTE_R PTE_W) ;;;
    kvmmap kpgtbl PLIC PLIC 0x400000 (Z.lor PTE_R PTE_W) ;;;
    kvmmap kpgtbl KERNBASE KERNBASE (l_etext - KERNBASE) (Z.lor PTE_R PTE_X) ;;;
    kvmmap kpgtbl l_etext l_etext (PHYSTOP - l_etext) (Z.lor PTE_R PTE_W) ;;;
    kvmmap kpgtbl TRAMPOLINE l_trampoline PGSIZE (Z.lor PTE_R PTE_X) ;;;
    proc_mapstacks kpgtbl ;;;
    ret kpgtbl.

(** ** Equations of the primitive steps *)

Lemma bind_read64 {B} a (k : Z -> K B) s : (let! v := read64 a in k v) s = k (load64 (k_mem s) a) s.
Proof. reflexivity. Qed.

Lemma bind_write64 {B} a v (k : K B) s :
  (write64 a v ;;; k) s = k (set_k_mem (store64 (k_mem s) a v) s).
Proof. reflexivity. Qed.

Lemma bind_fill_page {B} a c (k : K B) s :
  (fill_page a c ;;; k) s = k (set_k_mem (memset (k_mem s) a c PGSIZE) s).
Proof. reflexivity. Qed.

End Vm.
