(* ===== verification/VmTree.v ===== *)
(** * Page-table trees and [walk]

    The pages of a page table form a tree: [tree] lists them, [leaf_addr] is
    the address of the level-0 entry of a virtual address, [pte_of] its
    value.  The main lemma, [walk_loop_spec], says that [walk] finds or makes
    the level-0 entry: pages it allocates move from the free list into the
    tree, nothing outside of the tree and those pages changes, and no
    translation changes. *)

From S2P Require Import Prelude KString Bytes KState Riscv Spinlock Kalloc Vm.

(** ** The tree of a page table *)

Definition indices : list Z := seqZ 0 512.

(** [pagetable[i]] *)
Definition entry (m : mem) (pt i : Z) : Z := load64 m (pt + 8 * i).

Fixpoint tree (lvl : nat) (m : mem) (pt : Z) : list Z :=
  match lvl with
  | O => [pt]
  | S l =>
      pt :: flat_map (fun i =>
        if has_flag (entry m pt i) PTE_V then tree l m (PTE2PA (entry m pt i)) else []) indices
  end.

(** The pages below the [i]th entry. *)
Definition kid (l : nat) (m : mem) (pt i : Z) : list Z :=
  if has_flag (entry m pt i) PTE_V then tree l m (PTE2PA (entry m pt i)) else [].

Fixpoint leaf_addr (lvl : nat) (m : mem) (pt va : Z) : option Z :=
  match lvl with
  | O => Some (pt + 8 * PX 0 va)
  | S l =>
      let e := entry m pt (PX (Z.of_nat (S l)) va) in
      if has_flag e PTE_V then leaf_addr l m (PTE2PA e) va else None
  end.

(** The level-0 entry for [va], 0 when there is none. *)
Definition pte_of (lvl : nat) (m : mem) (pt va : Z) : Z :=
  match leaf_addr lvl m pt va with
  | Some a => load64 m a
  | None => 0
  end.

(** Every valid entry above level 0 is a pointer to a table: no leaf flag. *)
Fixpoint inner (lvl : nat) (m : mem) (pt : Z) : Prop :=
  match lvl with
  | O => True
  | S l => forall i, 0 <= i < 512 -> has_flag (entry m pt i) PTE_V = true ->
      PTE_FLAGS (entry m pt i) = PTE_V /\ inner l m (PTE2PA (entry m pt i))
  end.

(** [m'] differs from [m] only inside the pages [ps]. *)
Definition mem_only (ps : list Z) (m m' : mem) : Prop :=
  forall a, (forall p, p ∈ ps -> ~ p <= a < p + PGSIZE) -> rd m' a = rd m a.

(** A step of the memory system: only memory and free list change. *)
Definition vm_frame (s s' : kstate) : Prop :=
  s' = set_k_mem (k_mem s') (set_k_freelist (k_freelist s') s).

#[global] Opaque indices.

Section Tree.
Context {L : Layout}.

(** ** Generic facts *)

Lemma vm_frame_refl s : vm_frame s s.
Proof. reflexivity. Qed.

Lemma vm_frame_trans s1 s2 s3 : vm_frame s1 s2 -> vm_frame s2 s3 -> vm_frame s1 s3.
Proof. unfold vm_frame. intros -> ->. reflexivity. Qed.

Lemma vm_frame_mem s m : vm_frame s (set_k_mem m s).
Proof. reflexivity. Qed.

Lemma vm_frame_held s s' : vm_frame s s' -> k_held s' = k_held s.
Proof. intros ->. reflexivity. Qed.

Lemma elem_of_indices i : i ∈ indices <-> 0 <= i < 512.
Proof. Transparent indices. unfold indices. rewrite elem_of_seqZ. lia. Qed.

Lemma indices_eq : seqZ 0 512 = indices.
Proof. reflexivity. Qed.

Lemma NoDup_indices : NoDup indices.
Proof. unfold indices. apply NoDup_seqZ. Qed.
#[local] Opaque indices.

Lemma indices_split i :
  0 <= i < 512 -> exists l1 l2, indices = l1 ++ i :: l2 /\ (i ∉ l1) /\ (i ∉ l2).
Proof.
  intros Hi. apply elem_of_indices in Hi.
  apply list_elem_of_split in Hi as (l1 & l2 & E). exists l1, l2. split; [done|].
  pose proof NoDup_indices as Hn. rewrite E in Hn.
  apply NoDup_app in Hn as (_ & Hd & Hn). apply NoDup_cons in Hn as [H2 _].
  split; [|done]. intros H. apply (Hd _ H). by left.
Qed.

Lemma tree_S l m pt : tree (S l) m pt = pt :: flat_map (kid l m pt) indices.
Proof. reflexivity. Qed.

Lemma elem_of_flat_map {A B} (f : A -> list B) (l : list A) y :
  y ∈ flat_map f l <-> exists x, x ∈ l /\ y ∈ f x.
Proof.
  rewrite list_elem_of_In, in_flat_map. setoid_rewrite list_elem_of_In. done.
Qed.

Lemma flat_map_ext_in {A B} (f g : A -> list B) (l : list A) :
  (forall x, x ∈ l -> f x = g x) -> flat_map f l = flat_map g l.
Proof.
  induction l as [|x l IH]; intros H; simpl; [done|].
  rewrite H by (by left). f_equal. apply IH. intros y Hy. apply H. by right.
Qed.

Lemma tree_root lvl m pt : pt ∈ tree lvl m pt.
Proof. destruct lvl; simpl; left. Qed.

Lemma kid_sub l m pt i p : 0 <= i < 512 -> p ∈ kid l m pt i -> p ∈ tree (S l) m pt.
Proof.
  intros Hi Hp. rewrite tree_S. right. apply elem_of_flat_map. exists i.
  by rewrite elem_of_indices.
Qed.

Lemma mem_only_mono ps qs m m' : (forall p, p ∈ ps -> p ∈ qs) -> mem_only ps m m' -> mem_only qs m m'.
Proof. intros H Hm a Ha. apply Hm. auto. Qed.

Lemma mem_only_trans ps m1 m2 m3 : mem_only ps m1 m2 -> mem_only ps m2 m3 -> mem_only ps m1 m3.
Proof. intros H1 H2 a Ha. rewrite H2 by done. by apply H1. Qed.

(** Entries of a page that a change does not touch. *)
Lemma entry_in_page pt i a : 0 <= i < 512 -> pt + 8 * i <= a < pt + 8 * i + 8 -> pt <= a < pt + PGSIZE.
Proof. unfold PGSIZE. lia. Qed.

Lemma mem_only_page ps m m' p a :
  mem_only ps m m' -> (p ∉ ps) -> Forall page_ok ps -> page_ok p ->
  p <= a < p + PGSIZE -> rd m' a = rd m a.
Proof.
  intros Hm Hp Hps Hpo Ha. apply Hm. intros q Hq.
  rewrite Forall_forall in Hps. apply (page_disjoint p q).
  - apply Hpo.
  - by apply Hps.
  - intros ->. done.
  - done.
Qed.

(** ** The tree depends on its own pages only *)

Lemma entry_agree m m' pt i :
  (forall a, pt <= a < pt + PGSIZE -> rd m' a = rd m a) -> 0 <= i < 512 ->
  entry m' pt i = entry m pt i.
Proof.
  intros H Hi. apply load64_agree. intros b Hb. apply H. by eapply entry_in_page.
Qed.

Lemma tree_agree lvl m m' pt :
  (forall p a, p ∈ tree lvl m pt -> p <= a < p + PGSIZE -> rd m' a = rd m a) ->
  tree lvl m' pt = tree lvl m pt /\
  (forall va, leaf_addr lvl m' pt va = leaf_addr lvl m pt va) /\
  (forall va, pte_of lvl m' pt va = pte_of lvl m pt va).
Proof.
  revert pt. induction lvl as [|l IH]; intros pt H.
  - split; [done|]. split; [done|]. intros va. unfold pte_of. simpl.
    apply entry_agree; [|apply px_range; lia]. intros a. apply H. simpl. by left.
  - assert (He : forall i, 0 <= i < 512 -> entry m' pt i = entry m pt i).
    { intros i Hi. apply entry_agree; [|done]. intros a. apply H. apply tree_root. }
    assert (Hk : forall i, 0 <= i < 512 -> has_flag (entry m pt i) PTE_V = true ->
        tree l m' (PTE2PA (entry m pt i)) = tree l m (PTE2PA (entry m pt i)) /\
        (forall va, leaf_addr l m' (PTE2PA (entry m pt i)) va = leaf_addr l m (PTE2PA (entry m pt i)) va) /\
        (forall va, pte_of l m' (PTE2PA (entry m pt i)) va = pte_of l m (PTE2PA (entry m pt i)) va)).
    { intros i Hi Hv. apply IH. intros p a Hp. apply H. apply (kid_sub l m pt i); [done|].
      unfold kid. by rewrite Hv. }
    split; [|split].
    + rewrite !tree_S. f_equal. apply flat_map_ext_in. intros i Hi%elem_of_indices.
      unfold kid. rewrite He by done. destruct (has_flag _ _) eqn:Hv; [|done]. by apply Hk.
    + intros va. cbn [leaf_addr].
      assert (Hi : 0 <= PX (Z.of_nat (S l)) va < 512) by (apply px_range; lia).
      rewrite He by done. destruct (has_flag _ _) eqn:Hv; [|done]. by apply Hk.
    + intros va. unfold pte_of. cbn [leaf_addr].
      assert (Hi : 0 <= PX (Z.of_nat (S l)) va < 512) by (apply px_range; lia).
      rewrite He by done. destruct (has_flag _ _) eqn:Hv; [|done].
      destruct (Hk _ Hi Hv) as (_ & _ & Hp). apply (Hp va).
Qed.

Lemma inner_agree lvl m m' pt :
  (forall p a, p ∈ tree lvl m pt -> p <= a < p + PGSIZE -> rd m' a = rd m a) ->
  inner lvl m pt -> inner lvl m' pt.
Proof.
  revert pt. induction lvl as [|l IH]; intros pt H Hin; [done|]. intros i Hi.
  rewrite (entry_agree m m') by (done || intros a; apply H, tree_root). intros Hv.
  destruct (Hin i Hi Hv) as [Hf Hk]. split; [done|]. apply IH; [|done].
  intros p a Hp. apply H. apply (kid_sub l m pt i); [done|]. unfold kid. by rewrite Hv.
Qed.

Lemma leaf_addr_in lvl m pt va a :
  leaf_addr lvl m pt va = Some a -> exists p, p ∈ tree lvl m pt /\ a = p + 8 * PX 0 va.
Proof.
  revert pt. induction lvl as [|l IH]; intros pt; cbn [leaf_addr].
  - intros [= <-]. exists pt. split; [simpl; left|done].
  - destruct (has_flag _ _) eqn:Hv; [|done]. intros (p & Hp & ->)%IH.
    exists p. split; [|done]. apply (kid_sub l m pt (PX (Z.of_nat (S l)) va)).
    + apply px_range. lia.
    + unfold kid. by rewrite Hv.
Qed.

(** ** Changing what is below one entry *)

Lemma kid_agree l m m' pt i :
  entry m' pt i = entry m pt i ->
  (forall p a, p ∈ kid l m pt i -> p <= a < p + PGSIZE -> rd m' a = rd m a) ->
  kid l m' pt i = kid l m pt i.
Proof.
  unfold kid. intros He H. rewrite He. destruct (has_flag _ _); [|done]. by apply tree_agree.
Qed.

Lemma tree_update_kid l m m' pt i used :
  0 <= i < 512 ->
  (forall j, 0 <= j < 512 -> j <> i -> entry m' pt j = entry m pt j) ->
  (forall j p a, 0 <= j < 512 -> j <> i -> p ∈ kid l m pt j ->
     p <= a < p + PGSIZE -> rd m' a = rd m a) ->
  kid l m' pt i ≡ₚ kid l m pt i ++ used ->
  tree (S l) m' pt ≡ₚ tree (S l) m pt ++ used.
Proof.
  intros Hi He Ha Hk. rewrite !tree_S.
  destruct (indices_split i Hi) as (l1 & l2 & E & H1 & H2).
  assert (Hin : forall j, j ∈ l1 \/ j ∈ l2 -> 0 <= j < 512 /\ j <> i).
  { intros j Hj. split.
    - apply elem_of_indices. rewrite E, elem_of_app, elem_of_cons. tauto.
    - intros ->. tauto. }
  rewrite E, !flat_map_app. simpl.
  assert (Hsame : forall j, j ∈ l1 \/ j ∈ l2 -> kid l m' pt j = kid l m pt j).
  { intros j Hj. apply Hin in Hj as [Hj Hne]. apply kid_agree; [by apply He|].
    intros p a Hp. by apply (Ha j). }
  rewrite (flat_map_ext_in (kid l m' pt) (kid l m pt) l1) by auto.
  rewrite (flat_map_ext_in (kid l m' pt) (kid l m pt) l2) by auto.
  rewrite Hk. rewrite <- !app_assoc. do 2 f_equiv. f_equiv. apply Permutation_app_comm.
Qed.

Lemma inner_update_kid l m m' pt i :
  (forall j, 0 <= j < 512 -> j <> i -> entry m' pt j = entry m pt j) ->
  (forall j p a, 0 <= j < 512 -> j <> i -> p ∈ kid l m pt j ->
     p <= a < p + PGSIZE -> rd m' a = rd m a) ->
  (has_flag (entry m' pt i) PTE_V = true ->
     PTE_FLAGS (entry m' pt i) = PTE_V /\ inner l m' (PTE2PA (entry m' pt i))) ->
  inner (S l) m pt -> inner (S l) m' pt.
Proof.
  intros He Ha Hk Hin j Hj. destruct (decide (j = i)) as [->|Hne]; [exact Hk|].
  rewrite He by done. intros Hv. destruct (Hin j Hj Hv) as [Hf Hc]. split; [done|].
  eapply inner_agree; [|exact Hc]. intros p a Hp. apply (Ha j); [done|done|].
  unfold kid. by rewrite Hv.
Qed.

(** How distinctness of the pages of a tree splits over its entries. *)
Lemma tree_nodup_kids l m pt free :
  NoDup (tree (S l) m pt ++ free) ->
  (pt ∉ free) /\
  (forall i, 0 <= i < 512 -> (pt ∉ kid l m pt i) /\ NoDup (kid l m pt i ++ free)) /\
  (forall i j p, 0 <= i < 512 -> 0 <= j < 512 -> i <> j ->
     p ∈ kid l m pt j -> (p ∉ kid l m pt i) /\ (p ∉ free)).
Proof.
  rewrite tree_S. simpl. intros Hn. apply NoDup_cons in Hn as [Hpt Hn].
  rewrite elem_of_app in Hpt.
  assert (Hsub : forall i p, 0 <= i < 512 -> p ∈ kid l m pt i -> p ∈ flat_map (kid l m pt) indices).
  { intros i p Hi Hp. apply elem_of_flat_map. exists i. by rewrite elem_of_indices. }
  apply NoDup_app in Hn as (Hnf & Hd & Hfr).
  split; [tauto|]. split.
  - intros i Hi. split; [intros H; apply Hpt; left; eauto|].
    destruct (indices_split i Hi) as (l1 & l2 & E & _ & _).
    rewrite E, flat_map_app in Hnf. simpl in Hnf.
    apply NoDup_app in Hnf as (_ & _ & Hnf). apply NoDup_app in Hnf as (Hnf & _ & _).
    apply NoDup_app. split; [done|]. split; [|done]. intros p Hp. apply Hd. eauto.
  - intros i j p Hi Hj Hne Hp. split; [|apply Hd; eauto].
    intros Hpi. destruct (indices_split i Hi) as (l1 & l2 & E & Hi1 & Hi2).
    rewrite E, flat_map_app in Hnf. simpl in Hnf.
    apply NoDup_app in Hnf as (_ & Hd1 & Hnf). apply NoDup_app in Hnf as (_ & Hd2 & _).
    assert (Hj' : j ∈ l1 \/ j ∈ l2).
    { apply elem_of_indices in Hj. rewrite E, elem_of_app, elem_of_cons in Hj.
      destruct Hj as [?|[->|?]]; [by left|done|by right]. }
    destruct Hj' as [Hj'|Hj'].
    + apply (Hd1 p); [apply elem_of_flat_map; eauto|]. apply elem_of_app. by left.
    + apply (Hd2 p); [done|]. apply elem_of_flat_map; eauto.
Qed.

Lemma pte_of_S l m pt va :
  pte_of (S l) m pt va =
  if has_flag (entry m pt (PX (Z.of_nat (S l)) va)) PTE_V
  then pte_of l m (PTE2PA (entry m pt (PX (Z.of_nat (S l)) va))) va else 0.
Proof. unfold pte_of. cbn [leaf_addr]. by destruct (has_flag _ _). Qed.

(** ** A fresh, zeroed table page *)

Lemma has_flag_0 f : has_flag 0 f = false.
Proof. unfold has_flag. by rewrite Z.land_0_l. Qed.

Lemma flat_map_nil {A B} (f : A -> list B) (l : list A) :
  (forall x, x ∈ l -> f x = []) -> flat_map f l = [].
Proof.
  induction l as [|x l IH]; intros H; simpl; [done|].
  rewrite H by (by left). apply IH. intros y Hy. apply H. by right.
Qed.

Lemma zero_page_tree lvl m pt :
  (forall a, pt <= a < pt + PGSIZE -> rd m a = 0) ->
  tree lvl m pt = [pt] /\ inner lvl m pt /\ (forall va, pte_of lvl m pt va = 0).
Proof.
  intros H.
  assert (He : forall i, 0 <= i < 512 -> entry m pt i = 0).
  { intros i Hi. apply (le_load_zero 8). intros b Hb. apply H. simpl in Hb.
    eapply entry_in_page; [exact Hi|lia]. }
  destruct lvl as [|l].
  - split; [done|]. split; [done|]. intros va. unfold pte_of. simpl. apply He. apply px_range. lia.
  - split; [|split].
    + rewrite tree_S. f_equal. apply flat_map_nil. intros i Hi%elem_of_indices.
      unfold kid. rewrite He, has_flag_0; done.
    + intros i Hi. by rewrite He, has_flag_0.
    + intros va. rewrite pte_of_S, He, has_flag_0; [done|apply px_range; lia].
Qed.

(** ** [walk] without allocation *)

Lemma walk_noalloc lvl pt va s :
  walk_loop lvl pt va false s = Ok (default 0 (leaf_addr lvl (k_mem s) pt va)) s.
Proof.
  revert pt. induction lvl as [|l IH]; intros pt; cbn [walk_loop leaf_addr]; [done|].
  unfold read64, gets, bind. fold (entry (k_mem s) pt (PX (Z.of_nat (S l)) va)).
  destruct (has_flag _ _); [apply IH|done].
Qed.

(** ** [walk] with allocation *)

(** The table at [pt] grew by the pages [used]: nothing outside of it and
    them changed, and every address translates as before. *)
Record grow (lvl : nat) (pt : Z) (s s' : kstate) (used : list Z) : Prop := {
  gr_frame : vm_frame s s';
  gr_tree : tree lvl (k_mem s') pt ≡ₚ tree lvl (k_mem s) pt ++ used;
  gr_mem : mem_only (tree lvl (k_mem s) pt ++ used) (k_mem s) (k_mem s');
  gr_pte : forall va', pte_of lvl (k_mem s') pt va' = pte_of lvl (k_mem s) pt va';
  gr_mono : forall va' a, leaf_addr lvl (k_mem s) pt va' = Some a ->
    leaf_addr lvl (k_mem s') pt va' = Some a;
  gr_inner : inner lvl (k_mem s) pt -> inner lvl (k_mem s') pt
}.

Lemma grow_refl lvl pt s : grow lvl pt s s [].
Proof. split; try done. by rewrite app_nil_r. Qed.

Lemma grow_trans lvl pt s1 s2 s3 u1 u2 :
  grow lvl pt s1 s2 u1 -> grow lvl pt s2 s3 u2 -> grow lvl pt s1 s3 (u1 ++ u2).
Proof.
  intros [F1 T1 M1 P1 N1 Q1] [F2 T2 M2 P2 N2 Q2]. split.
  - by eapply vm_frame_trans.
  - rewrite T2, T1. by rewrite app_assoc.
  - apply mem_only_trans with (k_mem s2).
    + eapply mem_only_mono; [|exact M1]. intros p. rewrite !elem_of_app. tauto.
    + eapply mem_only_mono; [|exact M2]. intros p. rewrite elem_of_app, T1, !elem_of_app. tauto.
  - intros va'. by rewrite P2, P1.
  - auto.
  - auto.
Qed.

(** Descending through a valid entry. *)
Lemma grow_kid l pt va s s' used free' :
  let i := PX (Z.of_nat (S l)) va in
  let c := PTE2PA (entry (k_mem s) pt i) in
  NoDup (tree (S l) (k_mem s) pt ++ used ++ free') ->
  Forall page_ok (tree (S l) (k_mem s) pt) -> Forall page_ok used ->
  has_flag (entry (k_mem s) pt i) PTE_V = true ->
  grow l c s s' used ->
  grow (S l) pt s s' used /\
  leaf_addr (S l) (k_mem s') pt va = leaf_addr l (k_mem s') c va.
Proof.
  intros i c Hnd Hok Hou Hv W.
  assert (Hi : 0 <= i < 512) by (apply px_range; lia).
  assert (Hkid : kid l (k_mem s) pt i = tree l (k_mem s) c) by (unfold kid; by rewrite Hv).
  destruct (tree_nodup_kids _ _ _ _ Hnd) as (Hpt & Hkids & Hdis).
  assert (Hps : Forall page_ok (tree l (k_mem s) c ++ used)).
  { apply Forall_app. split; [|done]. rewrite <- Hkid. apply Forall_forall. intros p Hp.
    rewrite Forall_forall in Hok. apply Hok. by apply (kid_sub l (k_mem s) pt i). }
  assert (Hptok : page_ok pt) by (rewrite Forall_forall in Hok; apply Hok, tree_root).
  (* the page of [pt] and the other kids are not touched *)
  assert (Hpage : forall a, pt <= a < pt + PGSIZE -> rd (k_mem s') a = rd (k_mem s) a).
  { intros a Ha. eapply mem_only_page; [apply (gr_mem _ _ _ _ _ W)| |done|done|done].
    rewrite elem_of_app, <- Hkid. intros [H|H]; [by apply (Hkids i Hi)|].
    apply Hpt, elem_of_app. by left. }
  assert (He : forall j, 0 <= j < 512 -> entry (k_mem s') pt j = entry (k_mem s) pt j).
  { intros j Hj. by apply entry_agree. }
  assert (Hoth : forall j p a, 0 <= j < 512 -> j <> i -> p ∈ kid l (k_mem s) pt j ->
      p <= a < p + PGSIZE -> rd (k_mem s') a = rd (k_mem s) a).
  { intros j p a Hj Hne Hp Ha.
    eapply mem_only_page; [apply (gr_mem _ _ _ _ _ W)| |done| |done].
    - destruct (Hdis i j p Hi Hj) as [H1 H2]; [done|done|].
      rewrite elem_of_app, <- Hkid. intros [H|H]; [done|].
      apply H2, elem_of_app. by left.
    - rewrite Forall_forall in Hok. apply Hok. by apply (kid_sub l (k_mem s) pt j). }
  assert (Hleaf : forall va', PX (Z.of_nat (S l)) va' = i ->
      leaf_addr (S l) (k_mem s') pt va' = leaf_addr l (k_mem s') c va' /\
      leaf_addr (S l) (k_mem s) pt va' = leaf_addr l (k_mem s) c va').
  { intros va' E. cbn [leaf_addr]. rewrite E, He, Hv by done. done. }
  split; [|by apply Hleaf].
  split.
  - apply W.
  - apply (tree_update_kid l _ _ pt i used Hi); [intros; by apply He|done|].
    unfold kid at 1. rewrite He, Hv by done. rewrite Hkid. apply W.
  - eapply mem_only_mono; [|apply W]. intros p. rewrite !elem_of_app, <- Hkid.
    intros [H|H]; [left; by apply (kid_sub l (k_mem s) pt i)|by right].
  - intros va'. rewrite !pte_of_S.
    assert (Hj : 0 <= PX (Z.of_nat (S l)) va' < 512) by (apply px_range; lia).
    rewrite He by done.
    destruct (decide (PX (Z.of_nat (S l)) va' = i)) as [E|Hne].
    + rewrite E, Hv. apply W.
    + destruct (has_flag (entry (k_mem s) pt (PX (Z.of_nat (S l)) va')) PTE_V) eqn:Hvj; [|done].
      apply tree_agree. intros p a Hp. apply (Hoth (PX (Z.of_nat (S l)) va')); [done|done|].
      unfold kid. by rewrite Hvj.
  - intros va' a. destruct (decide (PX (Z.of_nat (S l)) va' = i)) as [E|Hne].
    + destruct (Hleaf va' E) as [-> ->]. apply W.
    + assert (Hj : 0 <= PX (Z.of_nat (S l)) va' < 512) by (apply px_range; lia).
      cbn [leaf_addr]. rewrite He by done.
      destruct (has_flag (entry (k_mem s) pt (PX (Z.of_nat (S l)) va')) PTE_V) eqn:Hvj; [|done].
      intros <-. apply tree_agree. intros p b Hp. apply (Hoth (PX (Z.of_nat (S l)) va')); [done|done|].
      unfold kid. by rewrite Hvj.
  - intros Hin. apply (inner_update_kid l (k_mem s) _ pt i); [intros; by apply He|done| |done].
    rewrite He by done. intros _. destruct (Hin i Hi Hv) as [Hf Hc]. split; [done|]. by apply W.
Qed.

(** Hanging a fresh zeroed page below an invalid entry. *)
Lemma grow_fresh {LO : LayoutOk L} l pt i s s1 new free :
  0 <= i < 512 ->
  NoDup (tree (S l) (k_mem s) pt ++ new :: free) ->
  Forall page_ok (tree (S l) (k_mem s) pt) -> page_ok new ->
  has_flag (entry (k_mem s) pt i) PTE_V = false ->
  vm_frame s s1 ->
  (forall a, new <= a < new + PGSIZE -> rd (k_mem s1) a = 0) ->
  (forall a, ~ new <= a < new + PGSIZE -> ~ pt + 8 * i <= a < pt + 8 * i + 8 ->
     rd (k_mem s1) a = rd (k_mem s) a) ->
  entry (k_mem s1) pt i = Z.lor (PA2PTE new) PTE_V ->
  grow (S l) pt s s1 [new] /\
  has_flag (entry (k_mem s1) pt i) PTE_V = true /\
  PTE2PA (entry (k_mem s1) pt i) = new /\ tree l (k_mem s1) new = [new].
Proof.
  intros Hi Hnd Hok Hnew Hinv Hf Hz Hm He.
  destruct (tree_nodup_kids _ _ _ _ Hnd) as (Hpt & Hkids & Hdis).
  assert (Hptok : page_ok pt) by (rewrite Forall_forall in Hok; apply Hok, tree_root).
  assert (Hne : new <> pt) by (intros ->; apply Hpt; left).
  destruct (pte_make new PTE_V) as (Hr & Hpa & Hfl);
    [apply Hnew|apply page_ok_pos in Hnew; lia|by vm_compute|].
  assert (Hv1 : has_flag (entry (k_mem s1) pt i) PTE_V = true).
  { rewrite He, has_flag_flags, Hfl by (by vm_compute). done. }
  assert (Hoe : forall j, 0 <= j < 512 -> j <> i -> entry (k_mem s1) pt j = entry (k_mem s) pt j).
  { intros j Hj Hji. apply load64_agree. intros b Hb. apply Hm; [|lia].
    apply (page_disjoint pt new); [apply Hptok|apply Hnew|done|]. by apply (entry_in_page pt j). }
  assert (Hoth : forall j p a, 0 <= j < 512 -> p ∈ kid l (k_mem s) pt j ->
      p <= a < p + PGSIZE -> rd (k_mem s1) a = rd (k_mem s) a).
  { intros j p a Hj Hp Ha.
    assert (Hpo : page_ok p).
    { rewrite Forall_forall in Hok. apply Hok. by apply (kid_sub l (k_mem s) pt j). }
    destruct (Hkids j Hj) as [Hpk Hnk]. apply Hm.
    - apply (page_disjoint p new); [apply Hpo|apply Hnew| |done]. intros ->.
      apply NoDup_app in Hnk as (_ & Hd & _). apply (Hd _ Hp). left.
    - intros Hb. apply (entry_in_page pt i) in Hb; [|done]. revert Hb.
      apply (page_disjoint p pt); [apply Hpo|apply Hptok| |done]. by intros ->. }
  destruct (zero_page_tree l (k_mem s1) new Hz) as (Htn & Hin & Hpn).
  assert (Hki : kid l (k_mem s) pt i = []) by (unfold kid; by rewrite Hinv).
  split; [|by rewrite He at 2]. split.
  - done.
  - apply (tree_update_kid l _ _ pt i [new] Hi Hoe); [intros j p a Hj _; by apply Hoth|].
    rewrite Hki. unfold kid. rewrite Hv1, He, Hpa, Htn. done.
  - intros a Ha. apply Hm.
    + apply Ha. rewrite elem_of_app. right. left.
    + intros Hb. apply (entry_in_page pt i) in Hb; [|done]. revert Hb. apply Ha.
      rewrite elem_of_app. left. apply tree_root.
  - intros va'. rewrite !pte_of_S.
    assert (Hj : 0 <= PX (Z.of_nat (S l)) va' < 512) by (apply px_range; lia).
    destruct (decide (PX (Z.of_nat (S l)) va' = i)) as [E|Hne'].
    + rewrite E, Hv1, Hinv, He, Hpa. apply Hpn.
    + rewrite Hoe by done.
      destruct (has_flag (entry (k_mem s) pt (PX (Z.of_nat (S l)) va')) PTE_V) eqn:Hvj; [|done].
      apply tree_agree. intros p a Hp. apply (Hoth (PX (Z.of_nat (S l)) va')); [done|].
      unfold kid. by rewrite Hvj.
  - intros va' a. cbn [leaf_addr].
    assert (Hj : 0 <= PX (Z.of_nat (S l)) va' < 512) by (apply px_range; lia).
    destruct (decide (PX (Z.of_nat (S l)) va' = i)) as [E|Hne']; [by rewrite E, Hinv|].
    rewrite Hoe by done.
    destruct (has_flag (entry (k_mem s) pt (PX (Z.of_nat (S l)) va')) PTE_V) eqn:Hvj; [|done].
    intros <-. apply tree_agree. intros p b Hp. apply (Hoth (PX (Z.of_nat (S l)) va')); [done|].
    unfold kid. by rewrite Hvj.
  - apply (inner_update_kid l (k_mem s) _ pt i); [done|intros j p a Hj _; by apply Hoth|].
    intros _. by rewrite He, Hfl, Hpa.
Qed.

(** Memory and free list after [kalloc], the zero fill and the store of the
    new entry. *)
Lemma walk_alloc_state {LO : LayoutOk L} pt i new s free :
  kmem_inv s (new :: free) -> page_ok pt -> pt <> new -> 0 <= i < 512 -> (pt ∉ free) ->
  let m1 := store64 (memset (memset (k_mem s) new 5 PGSIZE) new 0 PGSIZE) (pt + 8 * i)
              (Z.lor (PA2PTE new) PTE_V) in
  let s1 := set_k_mem m1 (set_k_freelist (load64 (k_mem s) new) s) in
  kmem_inv s1 free /\
  (forall a, new <= a < new + PGSIZE -> rd m1 a = 0) /\
  (forall a, ~ new <= a < new + PGSIZE -> ~ pt + 8 * i <= a < pt + 8 * i + 8 ->
     rd m1 a = rd (k_mem s) a) /\
  entry m1 pt i = Z.lor (PA2PTE new) PTE_V.
Proof.
  intros I Hpt Hne Hi Hnf m1 s1.
  pose proof (kmem_pages _ _ I) as [Hnew Hfree]%Forall_cons.
  pose proof (kmem_nodup _ _ I) as [Hn _]%NoDup_cons.
  assert (Hin : forall a, pt + 8 * i <= a < pt + 8 * i + 8 -> ~ new <= a < new + PGSIZE).
  { intros a Ha. apply (page_disjoint pt new); [apply Hpt|apply Hnew|done|].
    by apply (entry_in_page pt i). }
  split_and!.
  - pose proof (kalloc_inv_pop _ _ _ I) as [Hl Hd Hp]. split; [|done|done]. simpl in *.
    eapply free_list_agree; [|exact Hl]. intros q a Hq Ha. rewrite Forall_forall in Hfree.
    unfold m1. rewrite rd_store64_other, rd_memset_page, decide_False; [done| |].
    + apply (page_disjoint q new); [by apply Hfree|apply Hnew|by intros ->|unfold PGSIZE; lia].
    + intros Hb. apply (entry_in_page pt i) in Hb; [|done]. revert Hb.
      apply (page_disjoint q pt); [by apply Hfree|apply Hpt|by intros ->|unfold PGSIZE; lia].
  - intros a Ha. unfold m1. rewrite rd_store64_other, rd_memset_page, decide_True; [done|done|].
    intros Hb. by apply (Hin a).
  - intros a Ha Hb. unfold m1. rewrite rd_store64_other by done.
    by rewrite !rd_memset_page, !decide_False.
  - unfold entry, m1. rewrite load64_store64_same. apply u64_small.
    destruct (pte_make new PTE_V) as (Hr & _);
      [apply Hnew|apply page_ok_pos in Hnew; lia|by vm_compute|]. lia.
Qed.

(** One level of [walk]: through a valid entry, and through a fresh page. *)
Lemma walk_loop_valid l pt va al s :
  let e := entry (k_mem s) pt (PX (Z.of_nat (S l)) va) in
  has_flag e PTE_V = true ->
  walk_loop (S l) pt va al s = walk_loop l (PTE2PA e) va al s.
Proof.
  intros e Hv. unfold e in *. cbn [walk_loop].
  rewrite bind_read64. fold (entry (k_mem s) pt (PX (Z.of_nat (S l)) va)). by rewrite Hv.
Qed.

Lemma walk_loop_fresh {LO : LayoutOk L} l pt va s new free :
  let i := PX (Z.of_nat (S l)) va in
  kmem_inv s (new :: free) -> (kmem_lock ∉ k_held s) ->
  has_flag (entry (k_mem s) pt i) PTE_V = false ->
  walk_loop (S l) pt va true s =
  walk_loop l new va true
    (set_k_mem (store64 (memset (memset (k_mem s) new 5 PGSIZE) new 0 PGSIZE) (pt + 8 * i)
                 (Z.lor (PA2PTE new) PTE_V))
      (set_k_freelist (load64 (k_mem s) new) s)).
Proof.
  intros i I Hl Hv. unfold i in *. cbn [walk_loop].
  rewrite bind_read64. fold (entry (k_mem s) pt (PX (Z.of_nat (S l)) va)).
  rewrite Hv. cbn [negb].
  rewrite (bind_ok _ _ _ _ _ (kalloc_some _ _ _ I Hl)).
  pose proof (kmem_pages _ _ I) as [Hnew _]%Forall_cons.
  destruct (Z.eqb_spec new 0); [apply page_ok_pos in Hnew; lia|].
  rewrite bind_fill_page, bind_write64. cbn [k_mem set_k_mem]. by rewrite !set_k_mem_mem.
Qed.

Lemma walk_loop_full {LO : LayoutOk L} l pt va s :
  kmem_inv s [] -> (kmem_lock ∉ k_held s) ->
  has_flag (entry (k_mem s) pt (PX (Z.of_nat (S l)) va)) PTE_V = false ->
  walk_loop (S l) pt va true s = Ok 0 s.
Proof.
  intros I Hl Hv. cbn [walk_loop].
  rewrite bind_read64. fold (entry (k_mem s) pt (PX (Z.of_nat (S l)) va)).
  rewrite Hv. cbn [negb]. by rewrite (bind_ok _ _ _ _ _ (kalloc_none _ I Hl)).
Qed.

Lemma walk_loop_spec {LO : LayoutOk L} lvl pt va s free :
  kmem_inv s free -> (kmem_lock ∉ k_held s) ->
  NoDup (tree lvl (k_mem s) pt ++ free) -> Forall page_ok (tree lvl (k_mem s) pt) ->
  exists s' used free', free = used ++ free' /\
    walk_loop lvl pt va true s = Ok (default 0 (leaf_addr lvl (k_mem s') pt va)) s' /\
    kmem_inv s' free' /\ grow lvl pt s s' used /\ (length used <= lvl)%nat /\
    (leaf_addr lvl (k_mem s') pt va = None -> free' = [] /\ (length used < lvl)%nat).
Proof.
  revert pt s free. induction lvl as [|l IH]; intros pt s free I Hl Hnd Hok.
  { exists s, [], free. split; [done|]. split; [done|]. split; [done|].
    split; [apply grow_refl|]. by split. }
  set (i := PX (Z.of_nat (S l)) va). assert (Hi : 0 <= i < 512) by (apply px_range; lia).
  destruct (tree_nodup_kids _ _ _ _ Hnd) as (Hpt & Hkids & _).
  assert (Hptok : page_ok pt) by (rewrite Forall_forall in Hok; apply Hok, tree_root).
  destruct (has_flag (entry (k_mem s) pt i) PTE_V) eqn:Hv.
  - (* the entry is valid *)
    set (c := PTE2PA (entry (k_mem s) pt i)).
    assert (Hkid : kid l (k_mem s) pt i = tree l (k_mem s) c) by (unfold kid; by rewrite Hv).
    destruct (IH c s free) as (s' & used & free' & -> & Hw & I' & G & Hlen & Hfail); [done|done| | |].
    { rewrite <- Hkid. by apply Hkids. }
    { rewrite <- Hkid. apply Forall_forall. intros p Hp. rewrite Forall_forall in Hok.
      apply Hok. by apply (kid_sub l (k_mem s) pt i). }
    pose proof (kmem_pages _ _ I) as [Hu _]%Forall_app.
    destruct (grow_kid l pt va s s' used free' Hnd Hok Hu Hv G) as [G' Hla]. fold i c in Hla.
    exists s', used, free'. rewrite Hla, walk_loop_valid by exact Hv. split; [done|]. split; [done|]. split; [done|].
    split; [done|]. split; [lia|]. intros Hn. destruct (Hfail Hn). split; [done|lia].
  - destruct free as [|new free].
    + (* no page left *)
      assert (Hn : leaf_addr (S l) (k_mem s) pt va = None) by (cbn [leaf_addr]; fold i; by rewrite Hv).
      exists s, [], []. rewrite Hn. rewrite walk_loop_full by done.
      split; [done|]. split; [done|]. split; [done|]. split; [apply grow_refl|].
      simpl. split; [lia|]. split; [done|lia].
    + (* a fresh page is linked in *)
      rewrite (walk_loop_fresh l pt va s new free I Hl Hv). fold i.
      pose proof (kmem_pages _ _ I) as [Hnew Hfr]%Forall_cons.
      rewrite not_elem_of_cons in Hpt. destruct Hpt as [Hpn Hpf].
      destruct (walk_alloc_state pt i new s free I Hptok Hpn Hi Hpf) as (I1 & Hz & Hm & He).
      set (s1 := set_k_mem _ _) in *. fold s1.
      destruct (grow_fresh l pt i s s1 new free Hi Hnd Hok Hnew Hv) as (G1 & Hv1 & Hpa & Ht);
        [reflexivity|done|done|done|].
      assert (Hnd1 : NoDup (tree (S l) (k_mem s1) pt ++ free)).
      { rewrite (gr_tree _ _ _ _ _ G1), <- app_assoc. exact Hnd. }
      assert (Hok1 : Forall page_ok (tree (S l) (k_mem s1) pt)).
      { rewrite (gr_tree _ _ _ _ _ G1). apply Forall_app. split; [done|]. by constructor. }
      destruct (IH new s1 free) as (s' & used & free' & -> & Hw & I' & G & Hlen & Hfail); [done|done| | |].
      { rewrite Ht. simpl. apply (kmem_nodup _ _ I). }
      { rewrite Ht. by constructor. }
      apply Forall_app in Hfr as [Hu _].
      pose proof (grow_kid l pt va s1 s' used free') as GK. fold i in GK. cbv zeta in GK.
      rewrite Hpa in GK.
      destruct (GK Hnd1 Hok1 Hu Hv1 G) as [G' Hla].
      exists s', (new :: used), free'. rewrite Hla.
      split; [reflexivity|]. split; [exact Hw|]. split; [exact I'|].
      split; [change (new :: used) with ([new] ++ used); by eapply grow_trans|].
      simpl. split; [lia|]. intros Hn. destruct (Hfail Hn). split; [done|lia].
Qed.
End Tree.
