(* ===== verification/VmMap.v ===== *)
(** * Mapping and unmapping pages

    [mappages], [uvmunmap], [uvmdealloc], [uvmalloc], [uvmcopy] and
    [uvmfree] as updates of the translation [pte_of], with an account of
    every physical page: what they take from the free list ends up in the
    table or in the mapped pages, and what fails is rolled back. *)

From S2P Require Import Prelude KString Bytes KState Riscv Spinlock Kalloc Vm VmTree.

(** Two addresses share the indices of levels 0 to [lvl]. *)
Definition same_path (lvl : nat) (va va' : Z) : Prop :=
  forall k, (k <= lvl)%nat -> PX (Z.of_nat k) va = PX (Z.of_nat k) va'.

(** The state [s'] is [s] after an update of the table at [pt]: the pages
    [used] joined its tree, only the pages [touched] changed, and the
    translation of page number [n] became [upd n] where that is set. *)
Record tab_step (pt : Z) (s s' : kstate) (used touched : list Z) (upd : Z -> option Z) : Prop := {
  ts_frame : vm_frame s s';
  ts_tree : tree 2 (k_mem s') pt ≡ₚ tree 2 (k_mem s) pt ++ used;
  ts_mem : mem_only touched (k_mem s) (k_mem s');
  ts_pte39 : forall va, 0 <= va < 2 ^ 39 ->
    pte_of 2 (k_mem s') pt va = default (pte_of 2 (k_mem s) pt va) (upd (va / PGSIZE));
  ts_inner : inner 2 (k_mem s) pt -> inner 2 (k_mem s') pt
}.

(** The update of [k] pages from page number [n] on. *)
Definition upd_range (n : Z) (k : nat) (f : Z -> Z) : Z -> option Z :=
  fun x => if (n <=? x) && (x <? n + Z.of_nat k) then Some (f (x - n)) else None.

Section Map.
Context {L : Layout}.

Lemma ts_pte pt s s' used touched upd va :
  tab_step pt s s' used touched upd -> 0 <= va < MAXVA ->
  pte_of 2 (k_mem s') pt va = default (pte_of 2 (k_mem s) pt va) (upd (va / PGSIZE)).
Proof. rewrite MAXVA_eq. intros T H. apply (ts_pte39 _ _ _ _ _ _ T). lia. Qed.

Lemma same_path_page va va' :
  0 <= va < 2 ^ 39 -> 0 <= va' < 2 ^ 39 ->
  same_path 2 va va' <-> va / PGSIZE = va' / PGSIZE.
Proof.
  intros Hva Hva'. split.
  - intros H. apply px_inj; [lia|lia|..].
    + apply (H 2%nat). lia.
    + apply (H 1%nat). lia.
    + apply (H 0%nat). lia.
  - intros H k _. apply px_same_page; [lia|done].
Qed.

Lemma upd_range_in n k f x : n <= x < n + Z.of_nat k -> upd_range n k f x = Some (f (x - n)).
Proof.
  intros H. unfold upd_range.
  destruct (Z.leb_spec n x); [|lia]. by destruct (Z.ltb_spec x (n + Z.of_nat k)); [|lia].
Qed.

Lemma upd_range_out n k f x : ~ n <= x < n + Z.of_nat k -> upd_range n k f x = None.
Proof.
  intros H. unfold upd_range.
  destruct (Z.leb_spec n x), (Z.ltb_spec x (n + Z.of_nat k)); try done. lia.
Qed.

(** ** Storing a level-0 entry *)

Lemma leaf_store_0 m pt va v :
  let m' := store64 m (pt + 8 * PX 0 va) v in
  forall va', (same_path 0 va va' -> pte_of 0 m' pt va' = u64 v) /\
    (~ same_path 0 va va' -> pte_of 0 m' pt va' = pte_of 0 m pt va').
Proof.
  intros m' va'. unfold pte_of. cbn [leaf_addr].
  assert (Hr : 0 <= PX 0 va < 512) by (apply px_range; lia).
  assert (Hr' : 0 <= PX 0 va' < 512) by (apply px_range; lia).
  split.
  - intros H. assert (E : PX 0 va = PX 0 va') by exact (H 0%nat (le_n 0)).
    rewrite <- E. apply load64_store64_same.
  - intros H. apply load64_store64_other. assert (PX 0 va <> PX 0 va'); [|lia].
    intros E. apply H. intros k Hk. replace k with 0%nat by lia. done.
Qed.

Lemma leaf_store lvl m pt va a v :
  NoDup (tree lvl m pt) -> Forall page_ok (tree lvl m pt) ->
  leaf_addr lvl m pt va = Some a ->
  let m' := store64 m a v in
  tree lvl m' pt = tree lvl m pt /\ (inner lvl m pt -> inner lvl m' pt) /\
  forall va', leaf_addr lvl m' pt va' = leaf_addr lvl m pt va' /\
    (same_path lvl va va' -> pte_of lvl m' pt va' = u64 v) /\
    (~ same_path lvl va va' -> pte_of lvl m' pt va' = pte_of lvl m pt va').
Proof.
  revert pt. induction lvl as [|l IH]; intros pt Hnd Hok Ha m'.
  { injection Ha as <-. split; [done|]. split; [done|]. intros va'. split; [done|]. apply leaf_store_0. }
  set (i := PX (Z.of_nat (S l)) va). assert (Hi : 0 <= i < 512) by (apply px_range; lia).
  cbn [leaf_addr] in Ha. fold i in Ha.
  destruct (has_flag (entry m pt i) PTE_V) eqn:Hv; [|done].
  set (c := PTE2PA (entry m pt i)) in *.
  assert (Hkid : kid l m pt i = tree l m c) by (unfold kid; by rewrite Hv).
  rewrite <- (app_nil_r (tree (S l) m pt)) in Hnd.
  destruct (tree_nodup_kids _ _ _ _ Hnd) as (_ & Hkids & Hdis).
  rewrite Forall_forall in Hok.
  assert (Hsub : forall j p, 0 <= j < 512 -> p ∈ kid l m pt j -> page_ok p).
  { intros j p Hj Hp. apply Hok. by apply (kid_sub l m pt j). }
  destruct (leaf_addr_in _ _ _ _ _ Ha) as (q & Hq & Eq). rewrite <- Hkid in Hq.
  assert (Hout : forall p b, page_ok p -> p <> q -> p <= b < p + PGSIZE -> rd m' b = rd m b).
  { intros p b Hp Hne Hb. apply rd_store64_other. intros Hc.
    apply (page_disjoint p q b); [apply Hp|by apply (Hsub i)|done|done|].
    rewrite Eq in Hc. eapply entry_in_page; [|exact Hc]. apply px_range. lia. }
  assert (He : forall j, 0 <= j < 512 -> entry m' pt j = entry m pt j).
  { intros j Hj. apply entry_agree; [|done]. intros b. apply Hout; [apply Hok, tree_root|].
    intros ->. by apply (Hkids i). }
  assert (Hoth : forall j p b, 0 <= j < 512 -> j <> i -> p ∈ kid l m pt j ->
      p <= b < p + PGSIZE -> rd m' b = rd m b).
  { intros j p b Hj Hne Hp. apply Hout; [by apply (Hsub j)|]. intros ->.
    destruct (Hdis i j q) as [Hc _]; [done|done|congruence|done|]. by apply Hc. }
  destruct (IH c) as (Ht & Hin & Hp); [|apply Forall_forall|done|].
  { rewrite <- Hkid. destruct (Hkids i Hi) as [_ H]. by rewrite app_nil_r in H. }
  { rewrite <- Hkid. intros p. by apply Hsub. }
  fold m' in Ht, Hp.
  assert (Hkeq : forall j, 0 <= j < 512 -> kid l m' pt j = kid l m pt j).
  { intros j Hj. destruct (decide (j = i)) as [->|Hne].
    - rewrite Hkid. unfold kid. rewrite He, Hv by done. apply Ht.
    - apply kid_agree; [by apply He|]. intros p b Hpk. by apply (Hoth j). }
  split.
  { rewrite !tree_S. f_equal. apply flat_map_ext_in. intros j Hj%elem_of_indices. by apply Hkeq. }
  split.
  { intros Hi0. apply (inner_update_kid l m _ pt i); [intros; by apply He|done| |done].
    rewrite He by done. intros _. destruct (Hi0 i Hi Hv) as [Hf Hc]. split; [done|]. by apply Hin. }
  intros va'. rewrite !pte_of_S. cbn [leaf_addr].
  set (j := PX (Z.of_nat (S l)) va'). assert (Hj : 0 <= j < 512) by (apply px_range; lia).
  rewrite He by done. destruct (decide (j = i)) as [E|Hne].
  - rewrite E, Hv. destruct (Hp va') as (H1 & H2 & H3). split; [done|]. split.
    + intros Hs. apply H2. intros k Hk. apply Hs. lia.
    + intros Hs. apply H3. intros Hc. apply Hs. intros k Hk.
      destruct (decide (k = S l)) as [->|]; [by symmetry|]. apply Hc. lia.
  - assert (Hns : ~ same_path (S l) va va').
    { intros Hs. apply Hne. symmetry. apply (Hs (S l)). lia. }
    destruct (has_flag (entry m pt j) PTE_V) eqn:Hvj.
    + destruct (tree_agree l m m' (PTE2PA (entry m pt j))) as (_ & H1 & H2).
      { intros p b Hpk. apply (Hoth j); [done|done|]. unfold kid. by rewrite Hvj. }
      split; [apply H1|]. split; [done|]. intros _. apply H2.
    + split; [done|]. split; [done|]. done.
Qed.

(** ** Table updates *)

Lemma tab_step_refl pt s : tab_step pt s s [] [] (fun _ => None).
Proof. split; [done|by rewrite app_nil_r|done|done|done]. Qed.

Lemma tab_step_trans pt s1 s2 s3 u1 u2 t1 t2 f1 f2 :
  tab_step pt s1 s2 u1 t1 f1 -> tab_step pt s2 s3 u2 t2 f2 ->
  tab_step pt s1 s3 (u1 ++ u2) (t1 ++ t2)
    (fun n => match f2 n with Some e => Some e | None => f1 n end).
Proof.
  intros [F1 T1 M1 P1 Q1] [F2 T2 M2 P2 Q2]. split.
  - by eapply vm_frame_trans.
  - by rewrite T2, T1, app_assoc.
  - apply mem_only_trans with (k_mem s2).
    + eapply mem_only_mono; [|exact M1]. intros p. rewrite elem_of_app. tauto.
    + eapply mem_only_mono; [|exact M2]. intros p. rewrite elem_of_app. tauto.
  - intros va Hva. rewrite P2, P1 by done. by destruct (f2 _).
  - auto.
Qed.

Lemma tab_step_mono pt s s' u t t' f f' :
  tab_step pt s s' u t f -> (forall p, p ∈ t -> p ∈ t') -> (forall n, f n = f' n) ->
  tab_step pt s s' u t' f'.
Proof.
  intros [F T M P Q] Ht Hf. split; [done|done|by eapply mem_only_mono| |done].
  intros va Hva. by rewrite <- Hf, P.
Qed.

Lemma grow_tab pt s s' used :
  grow 2 pt s s' used ->
  tab_step pt s s' used (tree 2 (k_mem s) pt ++ used) (fun _ => None).
Proof. intros [F T M P _ Q]. split; [done|done|done| |done]. intros va _. apply P. Qed.

Lemma store_tab pt va a v s :
  NoDup (tree 2 (k_mem s) pt) -> Forall page_ok (tree 2 (k_mem s) pt) ->
  leaf_addr 2 (k_mem s) pt va = Some a -> 0 <= va < MAXVA -> 0 <= v < 2 ^ 64 ->
  tab_step pt s (set_k_mem (store64 (k_mem s) a v) s) [] (tree 2 (k_mem s) pt)
    (upd_range (va / PGSIZE) 1 (fun _ => v)).
Proof.
  intros Hnd Hok Ha Hva Hv.
  destruct (leaf_store 2 _ _ _ _ v Hnd Hok Ha) as (Ht & Hin & Hp).
  split; [apply vm_frame_mem| | | |done].
  - by rewrite app_nil_r, <- Ht at 1.
  - intros b Hb. apply rd_store64_other. intros Hc.
    destruct (leaf_addr_in _ _ _ _ _ Ha) as (q & Hq & ->). apply (Hb q Hq).
    eapply entry_in_page; [|exact Hc]. apply px_range. lia.
  - intros va' Hva'. destruct (Hp va') as (_ & H1 & H2).
    rewrite same_path_page in H1, H2 by (rewrite ?MAXVA_eq in *; lia). cbn [k_mem set_k_mem].
    destruct (decide (va / PGSIZE = va' / PGSIZE)) as [E|Hne].
    + rewrite upd_range_in by lia. rewrite H1 by done. by apply u64_small.
    + rewrite upd_range_out by lia. by apply H2.
Qed.

(** ** The free list across a table update *)

Lemma kmem_inv_agree s s' free touched :
  kmem_inv s free -> k_freelist s' = k_freelist s ->
  mem_only touched (k_mem s) (k_mem s') -> Forall page_ok touched ->
  (forall p, p ∈ touched -> p ∉ free) -> kmem_inv s' free.
Proof.
  intros [Hl Hnd Hp] Hf Hm Ht Hd. split; [|done|done]. rewrite Hf.
  eapply free_list_agree; [|exact Hl]. intros p a Hpf Ha.
  rewrite Forall_forall in Hp.
  eapply mem_only_page; [exact Hm| |done|by apply Hp|unfold PGSIZE; lia].
  intros H. by apply (Hd p).
Qed.

(** What the operations on a table assume of it. *)
Record table (pt : Z) (s : kstate) (free : list Z) : Prop := {
  tb_kmem : kmem_inv s free;
  tb_lock : kmem_lock ∉ k_held s;
  tb_nodup : NoDup (tree 2 (k_mem s) pt ++ free);
  tb_pages : Forall page_ok (tree 2 (k_mem s) pt);
  tb_inner : inner 2 (k_mem s) pt
}.

Lemma table_free_pages pt s free : table pt s free -> Forall page_ok free.
Proof. intros T. apply (kmem_pages _ _ (tb_kmem _ _ _ T)). Qed.

(** [walk] on a table, with allocation. *)
Lemma table_walk {LO : LayoutOk L} pt va s free :
  table pt s free -> 0 <= va < MAXVA ->
  exists s' used free', free = used ++ free' /\ table pt s' free' /\
    tab_step pt s s' used (tree 2 (k_mem s) pt ++ used) (fun _ => None) /\ (length used <= 2)%nat /\
    ((walk pt va true s = Ok 0 s' /\ free' = [] /\ (length used <= 1)%nat) \/
     (exists a, a <> 0 /\ walk pt va true s = Ok a s' /\ leaf_addr 2 (k_mem s') pt va = Some a /\
        load64 (k_mem s') a = pte_of 2 (k_mem s) pt va)).
Proof.
  intros [I Hl Hnd Hok Hin] Hva.
  destruct (walk_loop_spec 2 pt va s free I Hl Hnd Hok) as (s' & used & free' & -> & Hw & I' & G & Hlen & Hf).
  exists s', used, free'. split; [done|].
  assert (T' : table pt s' free').
  { split; [done| | | |by apply (gr_inner _ _ _ _ _ G)].
    - by rewrite (vm_frame_held _ _ (gr_frame _ _ _ _ _ G)).
    - by rewrite (gr_tree _ _ _ _ _ G), <- app_assoc.
    - rewrite (gr_tree _ _ _ _ _ G). apply Forall_app. split; [done|].
      pose proof (kmem_pages _ _ I) as Hp. by apply Forall_app in Hp as [? _]. }
  split; [done|]. split; [by apply grow_tab|]. split; [done|].
  unfold walk. destruct (Z.leb_spec MAXVA va); [lia|].
  pose proof (gr_pte _ _ _ _ _ G va) as Hpte. unfold pte_of at 1 in Hpte.
  destruct (leaf_addr 2 (k_mem s') pt va) as [a|] eqn:Ha; [right|left].
  - exists a. split; [|done]. destruct (leaf_addr_in _ _ _ _ _ Ha) as (p & Hp & ->).
    pose proof (tb_pages _ _ _ T') as Hok'. rewrite Forall_forall in Hok'.
    apply Hok' in Hp. apply page_ok_pos in Hp. pose proof (px_range 0 va). lia.
  - split; [done|]. destruct (Hf eq_refl). split; [done|lia].
Qed.

(** Storing an entry of a table. *)
Lemma table_store pt va a v s free :
  table pt s free -> leaf_addr 2 (k_mem s) pt va = Some a -> 0 <= va < MAXVA -> 0 <= v < 2 ^ 64 ->
  table pt (set_k_mem (store64 (k_mem s) a v) s) free /\
  tab_step pt s (set_k_mem (store64 (k_mem s) a v) s) [] (tree 2 (k_mem s) pt)
    (upd_range (va / PGSIZE) 1 (fun _ => v)).
Proof.
  intros [I Hl Hnd Hok Hin] Ha Hva Hv.
  assert (S : tab_step pt s (set_k_mem (store64 (k_mem s) a v) s) [] (tree 2 (k_mem s) pt)
    (upd_range (va / PGSIZE) 1 (fun _ => v))).
  { apply store_tab; [|done|done|done|done]. by apply NoDup_app in Hnd as [? _]. }
  split; [|done]. destruct (leaf_store 2 _ _ _ _ v (proj1 (proj1 (NoDup_app _ _) Hnd)) Hok Ha) as [Ht _].
  split; [|done|by cbn [k_mem set_k_mem]; rewrite Ht|by cbn [k_mem set_k_mem]; rewrite Ht|by apply S].
  eapply kmem_inv_agree; [exact I|done|apply S|done|].
  apply NoDup_app in Hnd as (_ & H & _). exact H.
Qed.

(** ** [mappages] *)

(** The entry [mappages] writes. *)
Definition pte_val (pa perm : Z) : Z := Z.lor (Z.lor (PA2PTE pa) perm) PTE_V.

Lemma pte_val_ok pa perm :
  pa mod PGSIZE = 0 -> 0 <= pa < 2 ^ 56 -> 0 <= perm < 1024 ->
  0 <= pte_val pa perm < 2 ^ 54 /\ PTE2PA (pte_val pa perm) = pa /\
  PTE_FLAGS (pte_val pa perm) = Z.lor perm PTE_V /\ has_flag (pte_val pa perm) PTE_V = true.
Proof.
  intros Ha Hpa Hp. unfold pte_val. rewrite <- Z.lor_assoc.
  assert (Hq : 0 <= Z.lor perm PTE_V < 1024) by (apply lor_small_bound; [done|by vm_compute]).
  destruct (pte_make pa (Z.lor perm PTE_V) Ha Hpa Hq) as (H1 & H2 & H3).
  split; [done|]. split; [done|]. split; [done|].
  rewrite has_flag_flags, H3 by (by vm_compute). by apply pte_v_set.
Qed.

(** One iteration of the loop. *)
Lemma mappages_step {LO : LayoutOk L} pt va s free e :
  table pt s free -> 0 <= va < MAXVA -> 0 <= e < 2 ^ 64 ->
  has_flag (pte_of 2 (k_mem s) pt va) PTE_V = false ->
  exists s' used free', free = used ++ free' /\ table pt s' free' /\ (length used <= 2)%nat /\
    ((free' = [] /\ (length used <= 1)%nat /\
      tab_step pt s s' used (tree 2 (k_mem s) pt ++ used) (fun _ => None) /\
      forall B (k err rem : K B),
      (let! pte := walk pt va true in
       if pte =? 0 then err
       else let! v := read64 pte in
            if has_flag v PTE_V then rem else write64 pte e ;;; k) s = err s') \/
     (tab_step pt s s' used (tree 2 (k_mem s) pt ++ used) (upd_range (va / PGSIZE) 1 (fun _ => e)) /\
      forall B (k err rem : K B),
      (let! pte := walk pt va true in
       if pte =? 0 then err
       else let! v := read64 pte in
            if has_flag v PTE_V then rem else write64 pte e ;;; k) s = k s')).
Proof.
  intros T Hva He Hv.
  destruct (table_walk pt va s free T Hva) as (s1 & used & free' & -> & T1 & S1 & Hlen & [(Hw & -> & Hl1)|Ha]).
  - exists s1, used, []. split; [done|]. split; [done|]. split; [done|]. left.
    split; [done|]. split; [done|]. split; [done|].
    intros B k err rem. by rewrite (bind_ok _ _ _ _ _ Hw).
  - destruct Ha as (a & Hne & Hw & Hla & Hload).
    destruct (table_store pt va a e s1 free' T1 Hla Hva He) as [T2 S2].
    exists (set_k_mem (store64 (k_mem s1) a e) s1), used, free'.
    split; [done|]. split; [done|]. split; [done|]. right. split.
    + pose proof (tab_step_trans _ _ _ _ _ _ _ _ _ _ S1 S2) as S3. rewrite app_nil_r in S3.
      eapply tab_step_mono; [exact S3| |].
      * intros p. rewrite elem_of_app, (ts_tree _ _ _ _ _ _ S1). tauto.
      * intros n. cbv beta. by destruct (upd_range _ _ _ _).
    + intros B k err rem. rewrite (bind_ok _ _ _ _ _ Hw). destruct (Z.eqb_spec a 0); [done|].
      by rewrite bind_read64, Hload, Hv, bind_write64.
Qed.

Lemma mappages_loop_S n pt a last pa perm :
  mappages_loop (S n) pt a last pa perm =
  (let! pte := walk pt a true in
   if pte =? 0 then ret (-1)
   else let! v := read64 pte in
        if has_flag v PTE_V then panic "mappages: remap"
        else write64 pte (pte_val pa perm) ;;;
          if a =? last then ret 0
          else mappages_loop n pt (u64 (a + PGSIZE)) last (u64 (pa + PGSIZE)) perm).
Proof. reflexivity. Qed.

Lemma mappages_loop_spec {LO : LayoutOk L} n pt a pa perm s free :
  table pt s free -> a mod PGSIZE = 0 -> 0 <= a -> a + Z.of_nat n * PGSIZE < MAXVA ->
  pa mod PGSIZE = 0 -> 0 <= pa -> pa + Z.of_nat n * PGSIZE < 2 ^ 56 -> 0 <= perm < 1024 ->
  (forall i, (i <= n)%nat ->
     has_flag (pte_of 2 (k_mem s) pt (a + Z.of_nat i * PGSIZE)) PTE_V = false) ->
  exists s' used free' k, free = used ++ free' /\ table pt s' free' /\
    tab_step pt s s' used (tree 2 (k_mem s) pt ++ used)
      (upd_range (a / PGSIZE) k (fun i => pte_val (pa + i * PGSIZE) perm)) /\
    (length used <= 2 * (S n))%nat /\
    ((k = S n /\ mappages_loop (S n) pt a (a + Z.of_nat n * PGSIZE) pa perm s = Ok 0 s') \/
     ((k <= n)%nat /\ free' = [] /\ (length used < 2 * (S n))%nat /\
        mappages_loop (S n) pt a (a + Z.of_nat n * PGSIZE) pa perm s = Ok (-1) s')).
Proof.
  revert a pa s free. induction n as [|n IH]; intros a pa s free T Hal Ha0 Ham Hpal Hpa0 Hpam Hperm Hv.
  all: destruct (pte_val_ok pa perm) as (He & _); [done|unfold PGSIZE in *; lia|done|].
  all: assert (Hva : 0 <= a < MAXVA) by (unfold PGSIZE in *; lia).
  all: pose proof (Hv 0%nat (Nat.le_0_l _)) as Hv0; rewrite Z.mul_0_l, Z.add_0_r in Hv0.
  - replace (a + Z.of_nat 0 * PGSIZE) with a by lia. rewrite mappages_loop_S.
    rewrite Z.eqb_refl.
    destruct (mappages_step pt a s free (pte_val pa perm) T Hva ltac:(lia) Hv0)
      as (s' & used & free' & -> & T' & Hlen & [(-> & Hl1 & S1 & E)|(S1 & E)]).
    + exists s', used, [], 0%nat. split; [done|]. split; [done|].
      split; [|split; [lia|right; split; [done|]; split; [done|]; split; [lia|by rewrite E]]].
      eapply tab_step_mono; [exact S1|done|]. intros x. by rewrite upd_range_out by lia.
    + exists s', used, free', 1%nat. split; [done|]. split; [done|]. split; [|split; [lia|left; split; [done|by rewrite E]]].
      eapply tab_step_mono; [exact S1|done|]. intros x. unfold upd_range.
      destruct (Z.leb_spec (a / PGSIZE) x), (Z.ltb_spec x (a / PGSIZE + Z.of_nat 1)); simpl; try done.
      replace (x - a / PGSIZE) with 0 by lia. by rewrite Z.mul_0_l, Z.add_0_r.
  - rewrite mappages_loop_S.
    destruct (Z.eqb_spec a (a + Z.of_nat (S n) * PGSIZE)); [unfold PGSIZE in *; lia|].
    rewrite (u64_small (a + PGSIZE)) by (rewrite MAXVA_eq in *; unfold PGSIZE in *; lia).
    rewrite (u64_small (pa + PGSIZE)) by (unfold PGSIZE in *; lia).
    destruct (mappages_step pt a s free (pte_val pa perm) T Hva ltac:(lia) Hv0)
      as (s1 & u1 & f1 & -> & T1 & Hlen & Hs).
    destruct Hs as [(-> & Hl1 & S1 & E)|(S1 & E)]; rewrite E.
    + exists s1, u1, [], 0%nat. split; [done|]. split; [done|]. split; [|split; [lia|right; split; [lia|split; [done|split; [lia|done]]]]].
      eapply tab_step_mono; [exact S1|done|]. intros x. by rewrite upd_range_out by lia.
    + destruct (IH (a + PGSIZE) (pa + PGSIZE) s1 f1) as (s2 & u2 & f2 & k & -> & T2 & S2 & Hlen2 & Hr);
        [done| | | | | | |done| |].
      1-6: unfold PGSIZE in *; mlia.
      { intros i Hi. rewrite (ts_pte _ _ _ _ _ _ _ S1) by (unfold PGSIZE in *; lia).
        rewrite upd_range_out by (unfold PGSIZE in *; mlia).
        replace (a + PGSIZE + Z.of_nat i * PGSIZE) with (a + Z.of_nat (S i) * PGSIZE) by lia.
        apply Hv. lia. }
      replace (a + PGSIZE + Z.of_nat n * PGSIZE) with (a + Z.of_nat (S n) * PGSIZE) in Hr by lia.
      exists s2, (u1 ++ u2), f2, (S k). rewrite app_assoc. split; [done|]. split; [done|].
      split; [|rewrite length_app; split; [lia|]; destruct Hr as [[-> Hr]|(Hk & Hf & Hl2 & Hr)];
        [left; auto|right; split; [lia|split; [done|split; [lia|done]]]]].
      eapply tab_step_mono; [exact (tab_step_trans _ _ _ _ _ _ _ _ _ _ S1 S2)| |].
      * intros p. rewrite !elem_of_app, (ts_tree _ _ _ _ _ _ S1), elem_of_app. tauto.
      * intros x. assert (Ed : (a + PGSIZE) / PGSIZE = a / PGSIZE + 1) by (unfold PGSIZE; mlia).
        rewrite Ed.
        destruct (decide (a / PGSIZE + 1 <= x < a / PGSIZE + 1 + Z.of_nat k)).
        { rewrite !upd_range_in by lia. do 2 f_equal. lia. }
        rewrite (upd_range_out (a / PGSIZE + 1)) by lia.
        destruct (decide (x = a / PGSIZE)) as [->|].
        { rewrite !upd_range_in by lia. do 2 f_equal. lia. }
        by rewrite !upd_range_out by lia.
Qed.

(** ** [uvmunmap] *)

(** An entry [uvmunmap] accepts. *)
Definition leaf_pte (e : Z) : Prop := has_flag e PTE_V = true /\ PTE_FLAGS e <> PTE_V.

(** The physical pages mapped at the [n] pages from [a] on. *)
Fixpoint frames (m : mem) (pt a : Z) (n : nat) : list Z :=
  match n with
  | O => []
  | S n => PTE2PA (pte_of 2 m pt a) :: frames m pt (a + PGSIZE) n
  end.

Lemma frames_agree m m' pt a n :
  (forall i, (i < n)%nat ->
     pte_of 2 m' pt (a + Z.of_nat i * PGSIZE) = pte_of 2 m pt (a + Z.of_nat i * PGSIZE)) ->
  frames m' pt a n = frames m pt a n.
Proof.
  revert a. induction n as [|n IH]; intros a H; simpl; [done|]. f_equal.
  - specialize (H 0%nat ltac:(lia)). rewrite Z.mul_0_l, Z.add_0_r in H. by rewrite H.
  - apply IH. intros i Hi. specialize (H (S i) ltac:(lia)).
    by replace (a + PGSIZE + Z.of_nat i * PGSIZE) with (a + Z.of_nat (S i) * PGSIZE) by lia.
Qed.

Lemma frames_app m pt a n k :
  frames m pt a (n + k) = frames m pt a n ++ frames m pt (a + Z.of_nat n * PGSIZE) k.
Proof.
  revert a. induction n as [|n IH]; intros a; simpl.
  - by rewrite Z.mul_0_l, Z.add_0_r.
  - rewrite IH. do 3 f_equal. lia.
Qed.

Lemma length_frames m pt a n : length (frames m pt a n) = n.
Proof. revert a. induction n; intros a; simpl; auto. Qed.

(** Freeing a page that is not part of the table. *)
Lemma table_kfree {LO : LayoutOk L} pt s free p :
  table pt s free -> page_ok p -> (p ∉ tree 2 (k_mem s) pt) -> (p ∉ free) ->
  exists s', kfree p s = Ok tt s' /\ table pt s' (p :: free) /\
    tab_step pt s s' [] [p] (fun _ => None) /\
    (forall va, leaf_addr 2 (k_mem s') pt va = leaf_addr 2 (k_mem s) pt va) /\
    tree 2 (k_mem s') pt = tree 2 (k_mem s) pt.
Proof.
  intros [I Hl Hnd Hok Hin] Hp Ht Hf.
  eexists. split; [by apply kfree_ok|].
  set (s' := set_k_freelist _ _).
  assert (Hm : mem_only [p] (k_mem s) (k_mem s')).
  { intros a Ha. specialize (Ha p ltac:(left)). cbn [k_mem s' set_k_freelist set_k_mem].
    rewrite rd_store64_other by (unfold PGSIZE in *; lia). by rewrite rd_memset_page, decide_False. }
  assert (I' : kmem_inv s' (p :: free)) by (by apply kfree_inv_push).
  assert (F : vm_frame s s') by reflexivity. clearbody s'.
  assert (Hag : forall q a, q ∈ tree 2 (k_mem s) pt -> q <= a < q + PGSIZE ->
     rd (k_mem s') a = rd (k_mem s) a).
  { intros q a Hq Ha. rewrite Forall_forall in Hok.
    eapply mem_only_page; [exact Hm| |by constructor|by apply Hok|done].
    rewrite list_elem_of_singleton. by intros ->. }
  destruct (tree_agree 2 (k_mem s) (k_mem s') pt Hag) as (Et & El & Ep).
  pose proof (inner_agree 2 (k_mem s) (k_mem s') pt Hag) as Hin'.
  split; [split|].
  - done.
  - by rewrite (vm_frame_held _ _ F).
  - rewrite Et. rewrite <- Permutation_middle. constructor; [|done]. rewrite elem_of_app. tauto.
  - by rewrite Et.
  - by apply Hin'.
  - split; [|done]. split; [done|by rewrite Et, app_nil_r|done| |done]. intros va _. apply Ep.
Qed.

(** A mapped address has a level-0 entry. *)
Lemma pte_leaf_addr {LO : LayoutOk L} m pt va :
  Forall page_ok (tree 2 m pt) -> has_flag (pte_of 2 m pt va) PTE_V = true ->
  exists la, la <> 0 /\ leaf_addr 2 m pt va = Some la /\ load64 m la = pte_of 2 m pt va.
Proof.
  intros Hok Hv. unfold pte_of in *.
  destruct (leaf_addr 2 m pt va) as [la|] eqn:Hla; [|by rewrite has_flag_0 in Hv].
  exists la. split; [|done]. destruct (leaf_addr_in _ _ _ _ _ Hla) as (q & Hq & ->).
  rewrite Forall_forall in Hok. apply Hok, page_ok_pos in Hq. pose proof (px_range 0 va). lia.
Qed.

(** One iteration of the loop. *)
Lemma uvmunmap_step {LO : LayoutOk L} pt a s free (do_free : bool) :
  table pt s free -> 0 <= a < MAXVA -> leaf_pte (pte_of 2 (k_mem s) pt a) ->
  let p := PTE2PA (pte_of 2 (k_mem s) pt a) in
  (do_free = true -> page_ok p /\ (p ∉ tree 2 (k_mem s) pt) /\ (p ∉ free)) ->
  exists s', table pt s' (if do_free then p :: free else free) /\
    tree 2 (k_mem s') pt = tree 2 (k_mem s) pt /\
    tab_step pt s s' [] (tree 2 (k_mem s) pt ++ if do_free then [p] else [])
      (upd_range (a / PGSIZE) 1 (fun _ => 0)) /\
    forall n bound, a < bound -> uvmunmap_loop (S n) pt a bound do_free s =
      uvmunmap_loop n pt (u64 (a + PGSIZE)) bound do_free s'.
Proof.
  intros T Ha Hp p Hfree.
  destruct (pte_leaf_addr (k_mem s) pt a (tb_pages _ _ _ T) (proj1 Hp)) as (la & Hne & Hla & Hv).
  unfold p in *. rewrite <- Hv in Hp, Hfree |- *. set (v := load64 (k_mem s) la) in *.
  assert (Hk : exists s1, (if do_free then kfree (PTE2PA v) else ret tt) s = Ok tt s1 /\
     table pt s1 (if do_free then PTE2PA v :: free else free) /\
     tree 2 (k_mem s1) pt = tree 2 (k_mem s) pt /\ leaf_addr 2 (k_mem s1) pt a = Some la /\
     tab_step pt s s1 [] (if do_free then [PTE2PA v] else []) (fun _ => None)).
  { destruct do_free.
    - destruct (Hfree eq_refl) as (H1 & H2 & H3).
      destruct (table_kfree pt s free (PTE2PA v) T H1 H2 H3) as (s1 & E & T1 & S1 & Hl & Ht).
      exists s1. rewrite Hl. done.
    - exists s. split; [done|]. split; [done|]. split; [done|]. split; [done|]. apply tab_step_refl. }
  destruct Hk as (s1 & E1 & T1 & Et & Hla1 & S1).
  destruct (table_store pt a la 0 s1 _ T1 Hla1 Ha ltac:(lia)) as [T2 S2].
  eexists. split; [exact T2|]. split; [|split].
  - destruct (leaf_store 2 (k_mem s1) pt a la 0) as [H _]; [|apply T1|done|cbn [k_mem set_k_mem]; congruence].
    pose proof (tb_nodup _ _ _ T1) as Hn. by apply NoDup_app in Hn as [? _].
  - rewrite Et in S2. eapply tab_step_mono; [exact (tab_step_trans _ _ _ _ _ _ _ _ _ _ S1 S2)| |].
    + intros q. rewrite !elem_of_app. tauto.
    + intros x. cbv beta. by destruct (upd_range _ _ _ _).
  - intros n bound Hb. cbn [uvmunmap_loop]. destruct (Z.ltb_spec a bound); [|lia].
    unfold walk. destruct (Z.leb_spec MAXVA a); [lia|].
    rewrite (bind_ok _ _ _ _ _ (walk_noalloc 2 pt a s)), Hla. unfold default, id.
    destruct (Z.eqb_spec la 0); [done|]. rewrite bind_read64. fold v.
    destruct Hp as [-> Hfl]. cbn [negb]. destruct (Z.eqb_spec (PTE_FLAGS v) PTE_V); [done|].
    rewrite (bind_ok _ _ _ _ _ E1). by rewrite bind_write64.
Qed.

Lemma uvmunmap_loop_spec {LO : LayoutOk L} n pt a s free (do_free : bool) :
  table pt s free -> 0 <= a -> a + Z.of_nat n * PGSIZE <= MAXVA ->
  (forall i, (i < n)%nat -> leaf_pte (pte_of 2 (k_mem s) pt (a + Z.of_nat i * PGSIZE))) ->
  let ds := frames (k_mem s) pt a n in
  (do_free = true -> Forall page_ok ds /\ NoDup (tree 2 (k_mem s) pt ++ ds ++ free)) ->
  exists s', uvmunmap_loop (S n) pt a (a + Z.of_nat n * PGSIZE) do_free s = Ok tt s' /\
    table pt s' ((if do_free then reverse ds else []) ++ free) /\
    tab_step pt s s' [] (tree 2 (k_mem s) pt ++ if do_free then ds else [])
      (upd_range (a / PGSIZE) n (fun _ => 0)).
Proof.
  revert a s free. induction n as [|n IH]; intros a s free T Ha Hb Hl ds Hds.
  { exists s. split; [|split].
    - cbn [uvmunmap_loop]. by destruct (Z.ltb_spec a (a + Z.of_nat 0 * PGSIZE)); [lia|].
    - by destruct do_free.
    - eapply tab_step_mono; [apply tab_step_refl| |].
      + intros p Hp. by apply not_elem_of_nil in Hp.
      + intros x. by rewrite upd_range_out by lia. }
  assert (Hva : 0 <= a < MAXVA) by (unfold PGSIZE in *; lia).
  set (p := PTE2PA (pte_of 2 (k_mem s) pt a)).
  destruct (uvmunmap_step pt a s free do_free T Hva) as (s1 & T1 & Et & S1 & E).
  { specialize (Hl 0%nat ltac:(lia)). by rewrite Z.mul_0_l, Z.add_0_r in Hl. }
  { intros Hd. destruct (Hds Hd) as [Hp Hn]. cbn [frames ds] in Hp, Hn. fold p in Hp, Hn |- *.
    apply Forall_cons in Hp as [Hp _]. split; [done|].
    apply NoDup_app in Hn as (_ & H1 & H2). split; [intros H; apply (H1 p H); by left|].
    apply NoDup_cons in H2 as [H2 _]. rewrite elem_of_app in H2. tauto. }
  fold p in T1, S1.
  assert (Hpte : forall i, (i < n)%nat ->
    pte_of 2 (k_mem s1) pt (a + PGSIZE + Z.of_nat i * PGSIZE) =
    pte_of 2 (k_mem s) pt (a + PGSIZE + Z.of_nat i * PGSIZE)).
  { intros i Hi. rewrite (ts_pte _ _ _ _ _ _ _ S1) by (unfold PGSIZE in *; lia).
    by rewrite upd_range_out by (unfold PGSIZE in *; mlia). }
  assert (Hfr : frames (k_mem s1) pt (a + PGSIZE) n = frames (k_mem s) pt (a + PGSIZE) n)
    by (apply frames_agree; exact Hpte).
  destruct (IH (a + PGSIZE) s1 (if do_free then p :: free else free)) as (s2 & E2 & T2 & S2).
  { done. } { unfold PGSIZE; lia. } { unfold PGSIZE in *; lia. }
  { intros i Hi. rewrite Hpte by done. specialize (Hl (S i) ltac:(lia)).
    by replace (a + PGSIZE + Z.of_nat i * PGSIZE) with (a + Z.of_nat (S i) * PGSIZE) by lia. }
  { intros Hd. rewrite Hfr, Et. destruct (Hds Hd) as [Hp Hn]. cbn [frames ds] in Hp, Hn.
    fold p in Hp, Hn. apply Forall_cons in Hp as [_ Hp]. split; [done|]. rewrite Hd.
    rewrite <- Permutation_middle. exact Hn. }
  rewrite Hfr in T2, S2. rewrite Et in S2.
  exists s2. split; [|split].
  - rewrite E by (unfold PGSIZE in *; lia). rewrite u64_small by (rewrite MAXVA_eq in *; unfold PGSIZE in *; lia).
    replace (a + Z.of_nat (S n) * PGSIZE) with (a + PGSIZE + Z.of_nat n * PGSIZE) by lia. exact E2.
  - unfold ds. cbn [frames]. fold p. destruct do_free; [|done].
    rewrite reverse_cons, <- app_assoc. exact T2.
  - unfold ds. cbn [frames]. fold p.
    eapply tab_step_mono; [exact (tab_step_trans _ _ _ _ _ _ _ _ _ _ S1 S2)| |].
    + intros q. destruct do_free; rewrite !elem_of_app, ?elem_of_cons; rewrite ?elem_of_nil; tauto.
    + intros x. cbv beta. replace ((a + PGSIZE) / PGSIZE) with (a / PGSIZE + 1) by (unfold PGSIZE; mlia).
      destruct (decide (a / PGSIZE + 1 <= x < a / PGSIZE + 1 + Z.of_nat n)).
      { by rewrite !upd_range_in by lia. }
      rewrite (upd_range_out (a / PGSIZE + 1)) by lia.
      destruct (decide (x = a / PGSIZE)) as [->|]; [by rewrite !upd_range_in by lia|].
      by rewrite !upd_range_out by lia.
Qed.

End Map.
