(* ===== verification/VmSpace.v ===== *)
(** * User address spaces

    [aspace pt n s free]: the table at [pt] maps exactly the [n] pages from
    address 0 on (below the trapframe), to distinct physical pages that are
    in neither the table nor the free list.  [uvmalloc], [uvmdealloc],
    [uvmcopy] and [uvmfree] preserve it and account for every page. *)

From S2P Require Import Prelude KString Bytes KState Riscv Spinlock Kalloc Vm VmTree VmMap.

Section Space.
Context {L : Layout}.

Record aspace (pt : Z) (n : nat) (s : kstate) (free : list Z) : Prop := {
  as_table : table pt s free;
  as_bound : Z.of_nat n * PGSIZE <= TRAPFRAME;
  as_leaf : forall i, (i < n)%nat -> leaf_pte (pte_of 2 (k_mem s) pt (Z.of_nat i * PGSIZE));
  as_unmapped : forall va, Z.of_nat n * PGSIZE <= va < TRAPFRAME ->
    has_flag (pte_of 2 (k_mem s) pt va) PTE_V = false;
  as_pages : Forall page_ok (frames (k_mem s) pt 0 n);
  as_nodup : NoDup (tree 2 (k_mem s) pt ++ frames (k_mem s) pt 0 n ++ free);
  as_high : forall va, MAXVA <= va < 2 ^ 39 -> has_flag (pte_of 2 (k_mem s) pt va) PTE_V = false
}.

(** The pages of an address space and of the free list. *)
Definition owned (pt : Z) (n : nat) (s : kstate) (free : list Z) : list Z :=
  tree 2 (k_mem s) pt ++ frames (k_mem s) pt 0 n ++ free.

(** From an address space of [n] pages to one of [n'] pages: the first [k]
    pages keep translation and contents, no page is lost or made up, and
    nothing else changes. *)
Record as_step (k : nat) (pt : Z) (n : nat) (s : kstate) (free : list Z)
    (n' : nat) (s' : kstate) (free' : list Z) : Prop := {
  st_space : aspace pt n' s' free';
  st_frame : vm_frame s s';
  st_owned : owned pt n' s' free' ≡ₚ owned pt n s free;
  st_mem : mem_only (owned pt n s free) (k_mem s) (k_mem s');
  st_pte : forall i, (i < k)%nat ->
    pte_of 2 (k_mem s') pt (Z.of_nat i * PGSIZE) = pte_of 2 (k_mem s) pt (Z.of_nat i * PGSIZE);
  st_data : forall p a, p ∈ frames (k_mem s) pt 0 k -> p <= a < p + PGSIZE ->
    rd (k_mem s') a = rd (k_mem s) a;
  st_top : forall va, TRAPFRAME <= va < MAXVA ->
    pte_of 2 (k_mem s') pt va = pte_of 2 (k_mem s) pt va
}.

(** ** Generic facts *)

Lemma TRAPFRAME_eq : TRAPFRAME = 2 ^ 38 - 2 * PGSIZE.
Proof. reflexivity. Qed.

Lemma as_step_refl k pt n s free : aspace pt n s free -> as_step k pt n s free n s free.
Proof. intros A. split; try done. Qed.

Lemma frames_kept k pt s s' :
  (forall i, (i < k)%nat ->
     pte_of 2 (k_mem s') pt (Z.of_nat i * PGSIZE) = pte_of 2 (k_mem s) pt (Z.of_nat i * PGSIZE)) ->
  frames (k_mem s') pt 0 k = frames (k_mem s) pt 0 k.
Proof. intros H. apply frames_agree. intros i Hi. rewrite Z.add_0_l. by apply H. Qed.

Lemma as_step_trans k pt n1 s1 f1 n2 s2 f2 n3 s3 f3 :
  as_step k pt n1 s1 f1 n2 s2 f2 -> as_step k pt n2 s2 f2 n3 s3 f3 ->
  as_step k pt n1 s1 f1 n3 s3 f3.
Proof.
  intros [A1 F1 O1 M1 P1 D1 U1] [A2 F2 O2 M2 P2 D2 U2]. split.
  - done.
  - by eapply vm_frame_trans.
  - by rewrite O2.
  - eapply mem_only_trans; [exact M1|]. eapply mem_only_mono; [|exact M2].
    intros p. by rewrite O1.
  - intros i Hi. by rewrite P2, P1.
  - intros p a Hp Ha. rewrite (D2 p) by (rewrite ?(frames_kept k pt s1 s2); done). by apply (D1 p).
  - intros va Hva. by rewrite U2, U1.
Qed.

Lemma as_step_weaken k k' pt n s f n' s' f' :
  (k' <= k)%nat -> as_step k pt n s f n' s' f' -> as_step k' pt n s f n' s' f'.
Proof.
  intros Hk [A F O M P D U]. split; try done.
  - intros i Hi. apply P. lia.
  - intros p a Hp. apply D. replace k with (k' + (k - k'))%nat by lia.
    rewrite frames_app, elem_of_app. by left.
Qed.

Lemma aspace_frame_not_tree pt n s free p :
  aspace pt n s free -> p ∈ frames (k_mem s) pt 0 n -> (p ∉ tree 2 (k_mem s) pt) /\ (p ∉ free).
Proof.
  intros A Hp. pose proof (as_nodup _ _ _ _ A) as H.
  apply NoDup_app in H as (_ & H1 & H2). apply NoDup_app in H2 as (_ & H2 & _).
  split; [|by apply H2]. intros Ht. apply (H1 p Ht). apply elem_of_app. by left.
Qed.

(** Changes outside of the table leave it alone. *)
Lemma aspace_agree pt n s s' free ps :
  aspace pt n s free -> k_freelist s' = k_freelist s -> k_held s' = k_held s ->
  mem_only ps (k_mem s) (k_mem s') -> Forall page_ok ps ->
  (forall p, p ∈ ps -> (p ∉ tree 2 (k_mem s) pt) /\ (p ∉ free)) ->
  aspace pt n s' free /\ tree 2 (k_mem s') pt = tree 2 (k_mem s) pt /\
  (forall va, pte_of 2 (k_mem s') pt va = pte_of 2 (k_mem s) pt va) /\
  frames (k_mem s') pt 0 n = frames (k_mem s) pt 0 n.
Proof.
  intros [[I Hl Hnd Hok Hin] Hb Hlf Hu Hp Hn Hhi] Ef Eh Hm Hps Hd.
  assert (Hag : forall p a, p ∈ tree 2 (k_mem s) pt -> p <= a < p + PGSIZE ->
    rd (k_mem s') a = rd (k_mem s) a).
  { intros p a Hpt Ha. rewrite Forall_forall in Hok.
    eapply mem_only_page; [exact Hm| |done|by apply Hok|done].
    intros H. by destruct (Hd p H). }
  destruct (tree_agree 2 (k_mem s) (k_mem s') pt Hag) as (Et & _ & Ep).
  pose proof (inner_agree 2 (k_mem s) (k_mem s') pt Hag Hin) as Hin'.
  assert (Efr : frames (k_mem s') pt 0 n = frames (k_mem s) pt 0 n) by (apply frames_agree; auto).
  split; [|done]. split; rewrite ?Et, ?Efr; try done.
  - split; rewrite ?Et, ?Eh; try done. eapply kmem_inv_agree; [exact I|done|exact Hm|done|].
    intros p Hpp. by apply Hd.
  - intros i Hi. rewrite Ep. by apply Hlf.
  - intros va Hva. rewrite Ep. by apply Hu.
  - intros va Hva. rewrite Ep. by apply Hhi.
Qed.

(** ** Adding a page at the top *)

Lemma mappages_one pt va pa perm s :
  0 <= va < MAXVA -> va mod PGSIZE = 0 ->
  mappages pt va PGSIZE pa perm s = mappages_loop 1 pt va va pa perm s.
Proof.
  intros Hva Hal. unfold mappages. rewrite MAXVA_eq in Hva. unfold PGSIZE in *.
  cbn [Z.eqb]. rewrite !pgrounddown_eq. unfold PGSIZE.
  rewrite u64_small by lia. rewrite Hal, Z.sub_0_r.
  replace ((va + 4096 - 1) mod 4096) with 4095 by mlia.
  replace (va + 4096 - 1 - 4095) with va by lia. by rewrite Z.sub_diag.
Qed.

Lemma add_page {LO : LayoutOk L} pt n s free new perm :
  aspace pt n s free -> page_ok new ->
  (new ∉ owned pt n s free) -> Z.of_nat (S n) * PGSIZE <= TRAPFRAME ->
  0 <= perm < 1024 -> Z.lor perm PTE_V <> PTE_V ->
  exists s' free' used, free = used ++ free' /\ (length used <= 2)%nat /\ vm_frame s s' /\
    mem_only (tree 2 (k_mem s) pt ++ free) (k_mem s) (k_mem s') /\
    tree 2 (k_mem s') pt ≡ₚ tree 2 (k_mem s) pt ++ used /\
    (forall i, (i < n)%nat ->
       pte_of 2 (k_mem s') pt (Z.of_nat i * PGSIZE) = pte_of 2 (k_mem s) pt (Z.of_nat i * PGSIZE)) /\
    (forall va, TRAPFRAME <= va < MAXVA ->
       pte_of 2 (k_mem s') pt va = pte_of 2 (k_mem s) pt va) /\
    ((mappages pt (Z.of_nat n * PGSIZE) PGSIZE new perm s = Ok 0 s' /\ aspace pt (S n) s' free' /\
        pte_of 2 (k_mem s') pt (Z.of_nat n * PGSIZE) = pte_val new perm) \/
     (mappages pt (Z.of_nat n * PGSIZE) PGSIZE new perm s = Ok (-1) s' /\ (length free <= 1)%nat /\
        aspace pt n s' free')).
Proof.
  intros A Hnew Hno Hb Hperm Hpv. rewrite TRAPFRAME_eq in Hb.
  assert (Hva : 0 <= Z.of_nat n * PGSIZE < MAXVA) by (rewrite MAXVA_eq; unfold PGSIZE in *; lia).
  assert (Hal : (Z.of_nat n * PGSIZE) mod PGSIZE = 0) by (unfold PGSIZE; mlia).
  pose proof (page_ok_pos _ Hnew) as Hnp.
  destruct (pte_val_ok new perm) as (_ & Hpa & Hfl & Hv); [apply Hnew|lia|done|].
  rewrite mappages_one by done.
  destruct (mappages_loop_spec 0 pt (Z.of_nat n * PGSIZE) new perm s free)
    as (s' & used & free' & k & -> & T' & S' & Hlen & Hr).
  { apply A. } { done. } { lia. } { lia. } { apply Hnew. } { lia. } { lia. } { done. }
  { intros i Hi. replace (Z.of_nat n * PGSIZE + Z.of_nat i * PGSIZE) with (Z.of_nat n * PGSIZE)
      by (assert (i = 0%nat) as -> by lia; lia).
    apply (as_unmapped _ _ _ _ A). rewrite TRAPFRAME_eq. unfold PGSIZE in *. lia. }
  replace (Z.of_nat n * PGSIZE + Z.of_nat 0 * PGSIZE) with (Z.of_nat n * PGSIZE) in Hr by lia.
  assert (Hpn : Z.of_nat n * PGSIZE / PGSIZE = Z.of_nat n) by (unfold PGSIZE; apply Z.div_mul; lia).
  rewrite Hpn in S'.
  assert (Hkept : forall i, (i < n)%nat ->
    pte_of 2 (k_mem s') pt (Z.of_nat i * PGSIZE) = pte_of 2 (k_mem s) pt (Z.of_nat i * PGSIZE)).
  { intros i Hi. rewrite (ts_pte _ _ _ _ _ _ _ S') by (unfold PGSIZE in *; lia).
    rewrite upd_range_out; [done|]. unfold PGSIZE. rewrite Z.div_mul by lia. lia. }
  pose proof (frames_kept n pt s s' Hkept) as Hfr.
  assert (Hperm' : NoDup (tree 2 (k_mem s') pt ++ frames (k_mem s') pt 0 n ++ free')).
  { rewrite (ts_tree _ _ _ _ _ _ S'), Hfr. pose proof (as_nodup _ _ _ _ A) as Hn.
    rewrite <- app_assoc, (app_assoc used), (Permutation_app_comm used), <- app_assoc. exact Hn. }
  exists s', free', used. split; [done|]. split; [lia|]. split; [apply S'|]. split; [|split; [apply S'|split; [done|split]]].
  { eapply mem_only_mono; [|apply S']. intros p. rewrite !elem_of_app. tauto. }
  { intros va Hva'. rewrite (ts_pte _ _ _ _ _ _ _ S') by (rewrite TRAPFRAME_eq in Hva'; unfold PGSIZE in *; lia).
    rewrite upd_range_out; [done|]. rewrite TRAPFRAME_eq in Hva'. unfold PGSIZE in *. mlia. }
  assert (Hunm : forall va m, Z.of_nat (n + k) * PGSIZE <= va < TRAPFRAME ->
     m = k_mem s' -> has_flag (pte_of 2 m pt va) PTE_V = false).
  { intros va m Hr' ->. rewrite TRAPFRAME_eq in Hr'.
    rewrite (ts_pte _ _ _ _ _ _ _ S') by (rewrite MAXVA_eq; unfold PGSIZE in *; lia).
    rewrite upd_range_out by (unfold PGSIZE in *; mlia). cbn [default].
    apply (as_unmapped _ _ _ _ A). rewrite TRAPFRAME_eq. unfold PGSIZE in *. lia. }
  assert (Hhigh : forall va, MAXVA <= va < 2 ^ 39 -> has_flag (pte_of 2 (k_mem s') pt va) PTE_V = false).
  { intros va Hva'. rewrite (ts_pte39 _ _ _ _ _ _ S') by (rewrite MAXVA_eq in *; lia).
    rewrite upd_range_out; [by apply (as_high _ _ _ _ A)|].
    rewrite MAXVA_eq in *. unfold PGSIZE in *. mlia. }
  destruct Hr as [[-> Hr]|(Hk & -> & Hl1 & Hr)].
  - left. assert (Hpte : pte_of 2 (k_mem s') pt (Z.of_nat n * PGSIZE) = pte_val new perm).
    { rewrite (ts_pte _ _ _ _ _ _ _ S') by done. rewrite upd_range_in by lia. cbn [default].
      rewrite Hpn, Z.sub_diag, Z.mul_0_l, Z.add_0_r. done. }
    split; [done|]. split; [|done].
    assert (Hfr1 : frames (k_mem s') pt 0 (S n) = frames (k_mem s) pt 0 n ++ [new]).
    { rewrite <- Nat.add_1_r, frames_app, Hfr. cbn [frames]. by rewrite Z.add_0_l, Hpte, Hpa. }
    split; [done|rewrite TRAPFRAME_eq; lia| | | | |done].
    + intros i Hi. destruct (decide (i = n)) as [->|].
      * rewrite Hpte. split; [done|]. by rewrite Hfl.
      * rewrite Hkept by lia. apply (as_leaf _ _ _ _ A). lia.
    + intros va Hr'. apply Hunm; [|done]. by rewrite Nat.add_1_r.
    + rewrite Hfr1. apply Forall_app. split; [apply A|by constructor].
    + rewrite Hfr1, <- app_assoc. rewrite Hfr in Hperm'.
      change ([new] ++ free') with (new :: free').
      rewrite (app_assoc (tree _ _ _)), <- Permutation_middle.
      constructor; [|by rewrite <- app_assoc].
      intros Hin. apply Hno. unfold owned. revert Hin.
      rewrite !elem_of_app, (ts_tree _ _ _ _ _ _ S'), elem_of_app. tauto.
  - right. split; [done|]. rewrite app_nil_r. split; [lia|]. assert (k = 0%nat) as -> by lia.
    split; [done|apply A| | | | |done].
    + intros i Hi. rewrite Hkept by done. by apply (as_leaf _ _ _ _ A).
    + intros va Hr'. apply Hunm; [|done]. by rewrite Nat.add_0_r.
    + rewrite Hfr. apply A.
    + done.
Qed.

Lemma aspace_pop pt n s new free :
  aspace pt n s (new :: free) ->
  aspace pt n (set_k_freelist (load64 (k_mem s) new) s) free.
Proof.
  intros [[[[Hh Hfl] Hnd Hps] Hl Hn Hok Hin] Hb Hlf Hu Hp Hno Hhi].
  apply NoDup_cons in Hnd as [_ Hnd]. apply Forall_cons in Hps as [_ Hps].
  split; [|done|done|done|done| |done].
  - split; [by split|done| |done|done]. cbn [k_mem set_k_freelist].
    rewrite <- Permutation_middle in Hn. by apply NoDup_cons in Hn as [_ ?].
  - cbn [k_mem set_k_freelist].
    rewrite (app_assoc (tree _ _ _)), <- Permutation_middle, <- app_assoc in Hno.
    by apply NoDup_cons in Hno as [_ ?].
Qed.

Lemma owned_cons pt n s new free : owned pt n s (new :: free) ≡ₚ new :: owned pt n s free.
Proof. unfold owned. rewrite <- Permutation_middle. symmetry. apply Permutation_middle. Qed.

Lemma aspace_new pt n s new free :
  aspace pt n s (new :: free) -> page_ok new /\ (new ∉ owned pt n s free).
Proof.
  intros A. pose proof (as_nodup _ _ _ _ A) as H.
  change (NoDup (owned pt n s (new :: free))) in H. rewrite owned_cons in H.
  apply NoDup_cons in H as [H _]. split; [|done].
  pose proof (table_free_pages _ _ _ (as_table _ _ _ _ A)) as Hp. by apply Forall_cons in Hp as [? _].
Qed.

(** Freeing a page that belongs to nobody. *)
Lemma space_kfree {LO : LayoutOk L} pt n s free p :
  aspace pt n s free -> page_ok p -> (p ∉ owned pt n s free) ->
  exists s', kfree p s = Ok tt s' /\ aspace pt n s' (p :: free) /\ vm_frame s s' /\
    mem_only [p] (k_mem s) (k_mem s') /\ owned pt n s' (p :: free) ≡ₚ p :: owned pt n s free /\
    (forall va, 0 <= va < MAXVA -> pte_of 2 (k_mem s') pt va = pte_of 2 (k_mem s) pt va).
Proof.
  intros A Hp Hno. pose proof (as_bound _ _ _ _ A) as Hb. rewrite TRAPFRAME_eq in Hb.
  destruct (table_kfree pt s free p) as (s' & Ek & T' & S' & _ & Et); [apply A|done| | |].
  { revert Hno. unfold owned. rewrite !elem_of_app. tauto. }
  { revert Hno. unfold owned. rewrite !elem_of_app. tauto. }
  assert (Hpte : forall va, 0 <= va < MAXVA -> pte_of 2 (k_mem s') pt va = pte_of 2 (k_mem s) pt va)
    by (intros va; exact (ts_pte _ _ _ _ _ _ va S')).
  assert (Hkept : forall i, (i < n)%nat ->
    pte_of 2 (k_mem s') pt (Z.of_nat i * PGSIZE) = pte_of 2 (k_mem s) pt (Z.of_nat i * PGSIZE)).
  { intros i Hi. apply Hpte. rewrite MAXVA_eq. unfold PGSIZE in *. lia. }
  pose proof (frames_kept n pt s s' Hkept) as Ef.
  assert (Eo : owned pt n s' (p :: free) ≡ₚ p :: owned pt n s free).
  { rewrite owned_cons. unfold owned. by rewrite Et, Ef. }
  exists s'. split; [done|]. split; [|split; [apply S'|split; [apply S'|done]]].
  split; [done|apply A| | |rewrite Ef; apply A| |].
  - intros i Hi. rewrite Hkept by done. by apply (as_leaf _ _ _ _ A).
  - intros va Hva. rewrite Hpte by (rewrite TRAPFRAME_eq in Hva; rewrite MAXVA_eq; unfold PGSIZE in *; lia).
    by apply (as_unmapped _ _ _ _ A).
  - change (NoDup (owned pt n s' (p :: free))). rewrite Eo.
    constructor; [done|apply (as_nodup _ _ _ _ A)].
  - intros va Hva. rewrite (ts_pte39 _ _ _ _ _ _ S') by (rewrite MAXVA_eq in *; lia).
    by apply (as_high _ _ _ _ A).
Qed.

(** A page taken from the free list, filled, and mapped at the top; when
    the mapping fails the page is given back. *)
Lemma add_fresh {LO : LayoutOk L} pt n s new free m1 perm :
  let s1 := set_k_mem m1 (set_k_freelist (load64 (k_mem s) new) s) in
  aspace pt n s (new :: free) -> mem_only [new] (k_mem s) m1 ->
  Z.of_nat (S n) * PGSIZE <= TRAPFRAME -> 0 <= perm < 1024 -> Z.lor perm PTE_V <> PTE_V ->
  exists s',
    (mappages pt (Z.of_nat n * PGSIZE) PGSIZE new perm s1 = Ok 0 s' /\
     pte_of 2 (k_mem s') pt (Z.of_nat n * PGSIZE) = pte_val new perm /\
     (forall a, new <= a < new + PGSIZE -> rd (k_mem s') a = rd m1 a) /\
     exists free', as_step n pt n s (new :: free) (S n) s' free' /\ (length free <= 2 + length free')%nat) \/
    (mappages pt (Z.of_nat n * PGSIZE) PGSIZE new perm s1 = Ok (-1) s' /\
     (length free <= 1)%nat /\
     exists s'' free', kfree new s' = Ok tt s'' /\ as_step n pt n s (new :: free) n s'' free').
Proof.
  intros s1 A Hm Hb Hperm Hpv.
  destruct (aspace_new _ _ _ _ _ A) as [Hnew Hno].
  assert (Hd : (new ∉ tree 2 (k_mem s) pt) /\ (new ∉ free)).
  { revert Hno. unfold owned. rewrite !elem_of_app. tauto. }
  destruct (aspace_agree pt n _ s1 free [new] (aspace_pop _ _ _ _ _ A))
    as (A1 & Et & Ep & Ef); [done|done|exact Hm|by constructor| |].
  { intros p ->%list_elem_of_singleton. exact Hd. }
  cbn [k_mem set_k_freelist] in Et, Ep, Ef.
  assert (Fs1 : vm_frame s s1) by reflexivity.
  assert (Hm1 : k_mem s1 = m1) by done. rewrite <- Hm1 in Hm |- *. clearbody s1. clear m1 Hm1.
  assert (Eo : owned pt n s1 free = owned pt n s free) by (unfold owned; by rewrite Et, Ef).
  destruct (add_page pt n s1 free new perm A1) as (s' & free' & used & -> & Hlen & F & M & T & P & U & Hr);
    [done|by rewrite Eo|done|done|done|].
  pose proof (frames_kept n pt s1 s' P) as Efr.
  assert (Hnt : new ∉ tree 2 (k_mem s') pt ++ frames (k_mem s') pt 0 n ++ free').
  { rewrite T, Efr, Et, Ef. revert Hno. unfold owned. rewrite !elem_of_app. tauto. }
  assert (Hown : new :: owned pt n s' free' ≡ₚ owned pt n s (new :: used ++ free')).
  { rewrite owned_cons. f_equiv. unfold owned. rewrite T, Efr, Et, Ef.
    rewrite <- !app_assoc. f_equiv. rewrite !app_assoc. f_equiv. apply Permutation_app_comm. }
  assert (Hmem : mem_only (owned pt n s (new :: used ++ free')) (k_mem s) (k_mem s')).
  { eapply mem_only_trans; eapply mem_only_mono; [|exact Hm| |exact M].
    - intros p ->%list_elem_of_singleton. rewrite owned_cons. left.
    - intros p. rewrite Et, owned_cons. unfold owned. rewrite elem_of_cons, !elem_of_app. tauto. }
  assert (Hpg : forall p a, page_ok p -> (p ∉ tree 2 (k_mem s) pt) -> (p ∉ used ++ free') ->
     p <= a < p + PGSIZE -> rd (k_mem s') a = rd (k_mem s1) a).
  { intros p a Hp H1 H2 Ha. eapply mem_only_page; [exact M| | |done|done].
    - rewrite Et, elem_of_app. tauto.
    - apply Forall_app. split; [apply A1|]. apply (table_free_pages _ _ _ (as_table _ _ _ _ A1)). }
  assert (Hdata : forall p a, p ∈ frames (k_mem s) pt 0 n -> p <= a < p + PGSIZE ->
     rd (k_mem s') a = rd (k_mem s) a).
  { intros p a Hp Ha. destruct (aspace_frame_not_tree _ _ _ _ _ A Hp) as [H1 H2].
    rewrite not_elem_of_cons in H2. destruct H2 as [H2 H3].
    assert (Hpo : page_ok p) by (pose proof (as_pages _ _ _ _ A) as Hq; rewrite Forall_forall in Hq; auto).
    rewrite (Hpg p) by done. eapply mem_only_page; [exact Hm| |by constructor|done|done].
    by rewrite list_elem_of_singleton. }
  assert (Hpte : forall i, (i < n)%nat ->
    pte_of 2 (k_mem s') pt (Z.of_nat i * PGSIZE) = pte_of 2 (k_mem s) pt (Z.of_nat i * PGSIZE)).
  { intros i Hi. by rewrite P, Ep. }
  exists s'. destruct Hr as [(E & A' & Hpe)|(E & Hl1 & A')]; [left|right].
  - split; [done|]. split; [done|]. split; [by intros a; apply (Hpg new); [..|tauto|tauto]|].
    exists free'. split; [|rewrite length_app; lia]. split; [done|by eapply vm_frame_trans| |done|done|done|intros va Hva; by rewrite U, Ep].
    rewrite <- Hown. unfold owned. replace (S n) with (n + 1)%nat by lia. rewrite frames_app. cbn [frames].
    rewrite Z.add_0_l, Hpe. destruct (pte_val_ok new perm) as (_ & -> & _);
      [apply Hnew|pose proof (page_ok_pos _ Hnew); lia|done|].
    rewrite <- app_assoc. cbn [app]. rewrite (app_assoc (tree _ _ _)), <- Permutation_middle.
    by rewrite <- app_assoc.
  - split; [done|]. split; [done|].
    destruct (space_kfree pt n s' free' new A' Hnew Hnt) as (s'' & Ek & A'' & F'' & M'' & Eo'' & Hp2).
    exists s'', (new :: free'). split; [done|]. split.
    + done.
    + eapply vm_frame_trans; [exact Fs1|]. by eapply vm_frame_trans.
    + by rewrite Eo''.
    + eapply mem_only_trans; [exact Hmem|]. eapply mem_only_mono; [|exact M''].
      intros p ->%list_elem_of_singleton. rewrite owned_cons. left.
    + intros i Hi. rewrite Hp2, Hpte; [done|done|].
      rewrite TRAPFRAME_eq in Hb. rewrite MAXVA_eq. unfold PGSIZE in *. lia.
    + intros p a Hp Ha. destruct (aspace_frame_not_tree _ _ _ _ _ A Hp) as [_ H2].
      rewrite not_elem_of_cons in H2. rewrite <- (Hdata p a Hp Ha).
      eapply mem_only_page; [exact M''| |by constructor| |exact Ha].
      * rewrite list_elem_of_singleton. tauto.
      * pose proof (as_pages _ _ _ _ A) as Hq. rewrite Forall_forall in Hq. by apply Hq.
    + intros va Hva. rewrite Hp2, U, Ep; [done|done|]. rewrite TRAPFRAME_eq in Hva. unfold PGSIZE in *. lia.
Qed.

(** ** Removing pages at the top *)

(** The number of pages of an address space of [sz] bytes. *)
Definition pages_of (sz : Z) : nat := Z.to_nat (PGROUNDUP sz / PGSIZE).

Lemma pgroundup_pages sz :
  0 <= sz <= TRAPFRAME ->
  PGROUNDUP sz = Z.of_nat (pages_of sz) * PGSIZE /\ sz <= PGROUNDUP sz < sz + PGSIZE /\
  PGROUNDUP sz <= TRAPFRAME.
Proof.
  rewrite TRAPFRAME_eq. unfold pages_of. intros H.
  rewrite pgroundup_eq by (unfold PGSIZE in *; lia).
  unfold PGSIZE in *. rewrite Z2Nat.id by (apply Z.div_pos; mlia). mlia.
Qed.

Lemma shrink {LO : LayoutOk L} pt n n' s free :
  aspace pt n s free -> (n' <= n)%nat ->
  exists s', uvmunmap pt (Z.of_nat n' * PGSIZE) (Z.of_nat (n - n')) true s = Ok tt s' /\
    as_step n' pt n s free n' s'
      (reverse (frames (k_mem s) pt (Z.of_nat n' * PGSIZE) (n - n')) ++ free).
Proof.
  intros A Hn. pose proof (as_bound _ _ _ _ A) as Hb. rewrite TRAPFRAME_eq in Hb.
  set (ds := frames (k_mem s) pt (Z.of_nat n' * PGSIZE) (n - n')).
  assert (Hfr : frames (k_mem s) pt 0 n = frames (k_mem s) pt 0 n' ++ ds).
  { replace n with (n' + (n - n'))%nat at 1 by lia. by rewrite frames_app, Z.add_0_l. }
  pose proof (as_pages _ _ _ _ A) as Hpg. rewrite Hfr in Hpg. apply Forall_app in Hpg as [Hpg1 Hpg2].
  pose proof (as_nodup _ _ _ _ A) as Hnd. rewrite Hfr, <- app_assoc in Hnd.
  destruct (uvmunmap_loop_spec (n - n') pt (Z.of_nat n' * PGSIZE) s free true)
    as (s' & E & T' & S'); [apply A|unfold PGSIZE in *; lia|rewrite MAXVA_eq; unfold PGSIZE in *; lia| | |].
  { intros i Hi. replace (Z.of_nat n' * PGSIZE + Z.of_nat i * PGSIZE)
      with (Z.of_nat (n' + i) * PGSIZE) by lia. apply (as_leaf _ _ _ _ A). lia. }
  { intros _. fold ds. split; [done|]. apply NoDup_app in Hnd as (H1 & H2 & H3).
    apply NoDup_app in H3 as (_ & _ & H3). apply NoDup_app. split; [done|]. split; [|done].
    intros p Hp Hd. apply (H2 p Hp). rewrite elem_of_app. by right. }
  fold ds in T', S'.
  replace (Z.of_nat n' * PGSIZE + Z.of_nat (n - n') * PGSIZE) with (Z.of_nat n * PGSIZE) in E
    by (unfold PGSIZE; lia).
  assert (Hdiv : Z.of_nat n' * PGSIZE / PGSIZE = Z.of_nat n') by (unfold PGSIZE; apply Z.div_mul; lia).
  rewrite Hdiv in S'.
  assert (Hkept : forall i, (i < n')%nat ->
    pte_of 2 (k_mem s') pt (Z.of_nat i * PGSIZE) = pte_of 2 (k_mem s) pt (Z.of_nat i * PGSIZE)).
  { intros i Hi. rewrite (ts_pte _ _ _ _ _ _ _ S') by (rewrite MAXVA_eq; unfold PGSIZE in *; lia).
    rewrite upd_range_out; [done|]. unfold PGSIZE. rewrite Z.div_mul by lia. lia. }
  pose proof (frames_kept n' pt s s' Hkept) as Ef.
  pose proof (ts_tree _ _ _ _ _ _ S') as Et. rewrite app_nil_r in Et.
  assert (Eo : owned pt n' s' (reverse ds ++ free) ≡ₚ owned pt n s free).
  { unfold owned. rewrite Et, Ef, Hfr, <- app_assoc. do 2 f_equiv. by rewrite reverse_Permutation. }
  exists s'. split.
  { unfold uvmunmap. replace ((Z.of_nat n' * PGSIZE) mod PGSIZE) with 0 by (unfold PGSIZE; mlia).
    cbn [Z.eqb negb]. rewrite Nat2Z.id.
    rewrite (u64_small (Z.of_nat (n - n') * PGSIZE)) by (unfold PGSIZE in *; lia).
    rewrite u64_small by (unfold PGSIZE in *; lia).
    replace (Z.of_nat n' * PGSIZE + Z.of_nat (n - n') * PGSIZE) with (Z.of_nat n * PGSIZE)
      by (unfold PGSIZE; lia).
    exact E. }
  split.
  - split; [done|rewrite TRAPFRAME_eq; unfold PGSIZE in *; lia| | |by rewrite Ef| |].
    + intros i Hi. rewrite Hkept by done. apply (as_leaf _ _ _ _ A). lia.
    + intros va Hva. rewrite TRAPFRAME_eq in Hva.
      rewrite (ts_pte _ _ _ _ _ _ _ S') by (rewrite MAXVA_eq; unfold PGSIZE in *; lia).
      destruct (decide (va < Z.of_nat n * PGSIZE)).
      * rewrite upd_range_in by (unfold PGSIZE in *; mlia). apply has_flag_0.
      * rewrite upd_range_out by (unfold PGSIZE in *; mlia).
        apply (as_unmapped _ _ _ _ A). rewrite TRAPFRAME_eq. lia.
    + change (NoDup (owned pt n' s' (reverse ds ++ free))). rewrite Eo. apply A.
    + intros va Hva. rewrite (ts_pte39 _ _ _ _ _ _ S') by (rewrite MAXVA_eq in *; lia).
      rewrite upd_range_out; [by apply (as_high _ _ _ _ A)|].
      rewrite MAXVA_eq in *. unfold PGSIZE in *. mlia.
  - apply S'.
  - exact Eo.
  - eapply mem_only_mono; [|apply S']. intros p. unfold owned. rewrite Hfr, !elem_of_app. tauto.
  - done.
  - intros p a Hp Ha.
    apply NoDup_app in Hnd as (_ & H1 & H2). apply NoDup_app in H2 as (_ & H2 & _).
    eapply mem_only_page; [apply S'| | | |exact Ha].
    + intros [H|H]%elem_of_app.
      * apply (H1 p H). rewrite elem_of_app. by left.
      * apply (H2 p Hp). rewrite elem_of_app. by left.
    + apply Forall_app. split; [apply A|done].
    + rewrite Forall_forall in Hpg1. by apply Hpg1.
  - intros va Hva. rewrite TRAPFRAME_eq in Hva.
    rewrite (ts_pte _ _ _ _ _ _ _ S') by (unfold PGSIZE in *; lia).
    rewrite upd_range_out; [done|]. unfold PGSIZE in *. mlia.
Qed.

Lemma uvmdealloc_pages {LO : LayoutOk L} pt oldsz newsz s free :
  0 <= newsz <= oldsz -> oldsz <= TRAPFRAME -> aspace pt (pages_of oldsz) s free ->
  exists s' free', uvmdealloc pt oldsz newsz s = Ok newsz s' /\
    as_step (pages_of newsz) pt (pages_of oldsz) s free (pages_of newsz) s' free'.
Proof.
  intros Hsz Hb A. unfold uvmdealloc.
  destruct (pgroundup_pages oldsz) as (Eo & Ho & Hob); [lia|].
  destruct (pgroundup_pages newsz) as (En & Hn & _); [lia|].
  rewrite TRAPFRAME_eq in Hob.
  destruct (Z.leb_spec oldsz newsz).
  { assert (oldsz = newsz) as -> by lia. exists s, free. split; [done|]. by apply as_step_refl. }
  rewrite Eo, En. set (n := pages_of oldsz) in *. set (k := pages_of newsz) in *.
  assert (Hk : (k <= n)%nat) by (unfold PGSIZE in *; lia).
  destruct (Z.ltb_spec (Z.of_nat k * PGSIZE) (Z.of_nat n * PGSIZE)).
  - destruct (shrink pt n k s free A Hk) as (s' & E & S').
    eexists s', _. split; [|exact S'].
    replace ((Z.of_nat n * PGSIZE - Z.of_nat k * PGSIZE) / PGSIZE) with (Z.of_nat (n - k))
      by (unfold PGSIZE; rewrite <- Z.mul_sub_distr_r, Z.div_mul; lia).
    rewrite s32_small by (unfold PGSIZE in *; lia). rewrite u64_small by (unfold PGSIZE in *; lia).
    by rewrite (bind_ok _ _ _ _ _ E).
  - assert (n = k) as -> by (unfold PGSIZE in *; lia). exists s, free. split; [done|].
    by apply as_step_refl.
Qed.

(** ** [uvmalloc] *)

Definition page_at (m : mem) (pt : Z) (i : nat) : Z := PTE2PA (pte_of 2 m pt (Z.of_nat i * PGSIZE)).

Lemma page_at_frames m pt i k : (i < k)%nat -> page_at m pt i ∈ frames m pt 0 k.
Proof.
  intros H. replace k with (i + S (k - i - 1))%nat by lia. rewrite frames_app, elem_of_app. right.
  cbn [frames]. rewrite Z.add_0_l. left.
Qed.

(** Page [i] reads as zeroes and has the entry flags [flags]. *)
Definition zero_page (m : mem) (pt : Z) (i : nat) (flags : Z) : Prop :=
  PTE_FLAGS (pte_of 2 m pt (Z.of_nat i * PGSIZE)) = flags /\
  forall a, page_at m pt i <= a < page_at m pt i + PGSIZE -> rd m a = 0.

Lemma zero_page_step k pt n s f n' s' f' i flags :
  as_step k pt n s f n' s' f' -> (i < k)%nat ->
  zero_page (k_mem s) pt i flags -> zero_page (k_mem s') pt i flags.
Proof.
  intros S Hi [Hf Hz]. unfold zero_page, page_at in *. rewrite (st_pte _ _ _ _ _ _ _ _ S) by done.
  split; [done|]. intros a Ha. rewrite (st_data _ _ _ _ _ _ _ _ S (page_at (k_mem s) pt i)).
  - by apply Hz.
  - by apply page_at_frames.
  - done.
Qed.

Lemma pages_of_mul n : Z.of_nat n * PGSIZE <= TRAPFRAME -> pages_of (Z.of_nat n * PGSIZE) = n.
Proof.
  intros H. destruct (pgroundup_pages (Z.of_nat n * PGSIZE)) as (E & H1 & _); [unfold PGSIZE in *; lia|].
  unfold PGSIZE in *. lia.
Qed.

Lemma mem_only_zeroed m new c :
  mem_only [new] m (memset (memset m new c PGSIZE) new 0 PGSIZE).
Proof.
  intros a Ha. specialize (Ha new ltac:(left)). by rewrite !rd_memset_page, !decide_False.
Qed.

Lemma perm_ok xperm : xperm = 0 \/ xperm = PTE_X \/ xperm = PTE_W \/ xperm = Z.lor PTE_X PTE_W ->
  0 <= Z.lor (Z.lor PTE_R PTE_U) xperm < 1024 /\
  Z.lor (Z.lor (Z.lor PTE_R PTE_U) xperm) PTE_V <> PTE_V.
Proof. intros [->|[->|[->| ->]]]; by vm_compute. Qed.

Lemma uvmalloc_loop_pages {LO : LayoutOk L} j n0 n pt newsz xperm s free fuel :
  aspace pt n s free -> (n0 <= n)%nat -> (j < fuel)%nat ->
  0 <= newsz <= TRAPFRAME -> pages_of newsz = (n + j)%nat ->
  0 <= Z.lor (Z.lor PTE_R PTE_U) xperm < 1024 ->
  Z.lor (Z.lor (Z.lor PTE_R PTE_U) xperm) PTE_V <> PTE_V ->
  exists s' free',
    (uvmalloc_loop fuel pt (Z.of_nat n * PGSIZE) (Z.of_nat n0 * PGSIZE) newsz xperm s = Ok newsz s' /\
     as_step n pt n s free (n + j) s' free' /\ (length free <= 3 * j + length free')%nat /\
     forall i, (n <= i < n + j)%nat ->
       zero_page (k_mem s') pt i (Z.lor (Z.lor (Z.lor PTE_R PTE_U) xperm) PTE_V)) \/
    (uvmalloc_loop fuel pt (Z.of_nat n * PGSIZE) (Z.of_nat n0 * PGSIZE) newsz xperm s = Ok 0 s' /\
     (length free < 3 * j)%nat /\ as_step n0 pt n s free n0 s' free').
Proof.
  set (flags := Z.lor (Z.lor PTE_R PTE_U) xperm). intros A Hn0 Hfuel Hb Hpg Hfl Hfv.
  destruct (pgroundup_pages newsz) as (En & Hn & Hnb); [done|]. rewrite Hpg in En.
  revert n s free fuel A Hn0 Hfuel Hpg En.
  induction j as [|j IH]; intros n s free fuel A Hn0 Hfuel Hpg En;
    (destruct fuel as [|fuel]; [lia|]); cbn [uvmalloc_loop]; fold flags.
  { rewrite Nat.add_0_r in *. destruct (Z.ltb_spec (Z.of_nat n * PGSIZE) newsz); [lia|].
    exists s, free. left. split; [done|]. split; [by apply as_step_refl|]. split; lia. }
  destruct (Z.ltb_spec (Z.of_nat n * PGSIZE) newsz); [|unfold PGSIZE in *; lia].
  assert (Hback : forall s1 f1, aspace pt n s1 f1 -> exists s' f',
    (uvmdealloc pt (Z.of_nat n * PGSIZE) (Z.of_nat n0 * PGSIZE) ;;; ret 0) s1 = Ok 0 s' /\
    as_step n0 pt n s1 f1 n0 s' f').
  { intros s1 f1 A1. pose proof (as_bound _ _ _ _ A) as Hbn.
    assert (Hb0 : Z.of_nat n0 * PGSIZE <= TRAPFRAME) by (unfold PGSIZE in *; lia).
    destruct (uvmdealloc_pages pt (Z.of_nat n * PGSIZE) (Z.of_nat n0 * PGSIZE) s1 f1)
      as (s' & f' & E & S'); [unfold PGSIZE in *; lia|done|by rewrite pages_of_mul|].
    rewrite !pages_of_mul in S' by done. exists s', f'. split; [|done].
    by rewrite (bind_ok _ _ _ _ _ E). }
  destruct free as [|new free].
  { rewrite (bind_ok _ _ _ _ _ (kalloc_none _ (tb_kmem _ _ _ (as_table _ _ _ _ A))
      (tb_lock _ _ _ (as_table _ _ _ _ A)))). cbn [Z.eqb].
    destruct (Hback s [] A) as (s' & f' & E & S'). exists s', f'. right. split; [done|].
    split; [simpl; lia|done]. }
  rewrite (bind_ok _ _ _ _ _ (kalloc_some _ _ _ (tb_kmem _ _ _ (as_table _ _ _ _ A))
      (tb_lock _ _ _ (as_table _ _ _ _ A)))).
  destruct (aspace_new _ _ _ _ _ A) as [Hnew _]. pose proof (page_ok_pos _ Hnew).
  destruct (Z.eqb_spec new 0); [lia|].
  rewrite bind_fill_page. cbn [k_mem set_k_mem]. rewrite set_k_mem_mem.
  destruct (add_fresh pt n s new free _ flags A (mem_only_zeroed (k_mem s) new 5))
    as (s1 & [(E & Hpte & Hc & f1 & S1 & Hl1)|(E & Hl1 & s2 & f2 & Ek & S2)]);
    [unfold PGSIZE in *; lia|done|done| |]; rewrite (bind_ok _ _ _ _ _ E); cbn [Z.eqb negb].
  - rewrite u64_small by (rewrite TRAPFRAME_eq in *; unfold PGSIZE in *; lia).
    replace (Z.of_nat n * PGSIZE + PGSIZE) with (Z.of_nat (S n) * PGSIZE) by lia.
    destruct (pte_val_ok new flags) as (_ & Hpa & Hfs & _); [apply Hnew|lia|done|].
    destruct (IH (S n) s1 f1 fuel) as (s' & f' & Hr); [apply S1|lia|lia|lia|lia|].
    replace (S n + j)%nat with (n + S j)%nat in Hr by lia.
    exists s', f'. destruct Hr as [(Er & S' & Hl2 & Hz)|(Er & Hl2 & S')]; [left|right]; (split; [exact Er|]).
    + split; [eapply as_step_trans; [exact S1|]; eapply as_step_weaken; [|exact S']; lia|].
      split; [simpl; lia|]. intros i Hi. destruct (decide (i = n)) as [->|]; [|apply Hz; lia].
      eapply zero_page_step; [exact S'|lia|]. unfold zero_page, page_at. rewrite Hpte, Hpa, Hfs.
      split; [done|]. intros a Ha. rewrite Hc by done. by rewrite rd_memset_page, decide_True.
    + split; [simpl; lia|]. eapply as_step_trans; [|exact S'].
      eapply as_step_weaken; [exact Hn0|exact S1].
  - rewrite (bind_ok _ _ _ _ _ Ek). destruct (Hback s2 f2) as (s' & f' & Er & S'); [apply S2|].
    exists s', f'. right. split; [exact Er|]. split; [simpl; lia|]. eapply as_step_trans; [|exact S'].
    eapply as_step_weaken; [exact Hn0|exact S2].
Qed.

(** ** [uvmcopy] *)

(** Pages [0..k) of the table [new] in [m'] are copies of those of the
    table [old] in [m], with the same flags. *)
Definition copied (m : mem) (old : Z) (m' : mem) (new : Z) (k : nat) : Prop :=
  forall i, (i < k)%nat ->
    PTE_FLAGS (pte_of 2 m' new (Z.of_nat i * PGSIZE)) = PTE_FLAGS (pte_of 2 m old (Z.of_nat i * PGSIZE)) /\
    forall off, 0 <= off < PGSIZE -> rd m' (page_at m' new i + off) = rd m (page_at m old i + off).

(** The address space at [old] shares no page with the table [new] and the
    free list. *)
Record apart (old : Z) (n : nat) (new : Z) (s : kstate) (free : list Z) : Prop := {
  ap_leaf : forall i, (i < n)%nat -> leaf_pte (pte_of 2 (k_mem s) old (Z.of_nat i * PGSIZE));
  ap_pages : Forall page_ok (tree 2 (k_mem s) old ++ frames (k_mem s) old 0 n);
  ap_disj : forall p, p ∈ tree 2 (k_mem s) old ++ frames (k_mem s) old 0 n ->
    p ∉ owned new 0 s free
}.

(** It is then not touched by what happens to [new]. *)
Lemma apart_kept old n new s free k j s' f' :
  apart old n new s free -> aspace new 0 s free -> as_step k new 0 s free j s' f' ->
  (forall va, pte_of 2 (k_mem s') old va = pte_of 2 (k_mem s) old va) /\
  tree 2 (k_mem s') old = tree 2 (k_mem s) old /\
  (forall p a, p ∈ tree 2 (k_mem s) old ++ frames (k_mem s) old 0 n -> p <= a < p + PGSIZE ->
     rd (k_mem s') a = rd (k_mem s) a).
Proof.
  intros [Hl Hp Hd] A S.
  assert (Hpg : forall p a, p ∈ tree 2 (k_mem s) old ++ frames (k_mem s) old 0 n ->
    p <= a < p + PGSIZE -> rd (k_mem s') a = rd (k_mem s) a).
  { intros p a Hin Ha. rewrite Forall_forall in Hp.
    eapply mem_only_page; [apply (st_mem _ _ _ _ _ _ _ _ S)| | |by apply Hp|done]; [by apply Hd|].
    unfold owned. cbn [frames app]. apply Forall_app.
    split; [apply A|apply (table_free_pages _ _ _ (as_table _ _ _ _ A))]. }
  destruct (tree_agree 2 (k_mem s) (k_mem s') old) as (Et & _ & Ep); [|done].
  intros p a Hpt. apply Hpg. apply elem_of_app. by left.
Qed.

Lemma copied_step k pt n s f n' s' f' m old :
  as_step k pt n s f n' s' f' -> copied m old (k_mem s) pt k -> copied m old (k_mem s') pt k.
Proof.
  intros S H i Hi. destruct (H i Hi) as [H1 H2]. unfold page_at in *.
  rewrite (st_pte _ _ _ _ _ _ _ _ S) by done. split; [done|]. intros off Hoff.
  rewrite <- H2 by done. apply (st_data _ _ _ _ _ _ _ _ S (page_at (k_mem s) pt i)).
  - by apply page_at_frames.
  - unfold page_at. lia.
Qed.

Lemma mem_only_copy m new src c :
  mem_only [new] m (memmove (memset m new c PGSIZE) new src PGSIZE).
Proof.
  intros a Ha. specialize (Ha new ltac:(left)).
  rewrite rd_memmove, decide_False by (done || unfold PGSIZE; lia).
  by rewrite rd_memset_page, decide_False.
Qed.

Lemma leaf_flags e :
  leaf_pte e -> 0 <= PTE_FLAGS e < 1024 /\ Z.lor (PTE_FLAGS e) PTE_V = PTE_FLAGS e /\
  Z.lor (PTE_FLAGS e) PTE_V <> PTE_V.
Proof.
  intros [Hv Hf].
  assert (Hr : 0 <= PTE_FLAGS e < 1024) by (rewrite pte_flags_eq; apply Z.mod_pos_bound; lia).
  assert (Hor : Z.lor (PTE_FLAGS e) PTE_V = PTE_FLAGS e).
  { rewrite has_flag_flags in Hv by (by vm_compute). unfold has_flag in Hv.
    change PTE_V with (2 ^ 0) in *. apply Z.bits_inj'. intros i Hi.
    rewrite Z.lor_spec, Z.pow2_bits_eqb by lia. destruct (Z.eqb_spec 0 i) as [<-|]; [|by rewrite orb_false_r].
    rewrite orb_true_r. symmetry.
    apply negb_true_iff, Z.eqb_neq in Hv.
    destruct (Z.testbit (PTE_FLAGS e) 0) eqn:Hb; [done|]. exfalso. apply Hv.
    apply Z.bits_inj'. intros i Hi'. rewrite Z.land_spec, Z.bits_0, Z.pow2_bits_eqb by lia.
    destruct (Z.eqb_spec 0 i) as [<-|]; [by rewrite Hb|apply andb_false_r]. }
  by rewrite Hor.
Qed.

Lemma uvmcopy_loop_pages {LO : LayoutOk L} j i n old new sz s0 f0 s free fuel :
  apart old n new s0 f0 -> aspace new 0 s0 f0 -> (n = i + j)%nat ->
  0 <= sz -> sz <= Z.of_nat n * PGSIZE < sz + PGSIZE -> Z.of_nat n * PGSIZE <= TRAPFRAME -> (j < fuel)%nat ->
  as_step 0 new 0 s0 f0 i s free -> copied (k_mem s0) old (k_mem s) new i ->
  exists s' free',
    (uvmcopy_loop fuel old new (Z.of_nat i * PGSIZE) sz s = Ok 0 s' /\
     as_step 0 new 0 s0 f0 n s' free' /\ copied (k_mem s0) old (k_mem s') new n) \/
    (uvmcopy_loop fuel old new (Z.of_nat i * PGSIZE) sz s = Ok (-1) s' /\
     (length free < 3 * j)%nat /\ as_step 0 new 0 s0 f0 0 s' free').
Proof.
  intros P A0 Hn Hsz Hr Hb. revert i s free fuel Hn.
  induction j as [|j IH]; intros i s free fuel Hn Hfuel St C;
    (destruct fuel as [|fuel]; [lia|]); cbn [uvmcopy_loop].
  { destruct (Z.ltb_spec (Z.of_nat i * PGSIZE) sz); [unfold PGSIZE in *; lia|].
    exists s, free. left. assert (n = i) as -> by lia. done. }
  destruct (Z.ltb_spec (Z.of_nat i * PGSIZE) sz); [|unfold PGSIZE in *; lia].
  assert (A : aspace new i s free) by apply St.
  destruct (apart_kept _ _ _ _ _ _ _ _ _ P A0 St) as (Hpte & Et & Hdat).
  assert (Hleaf : leaf_pte (pte_of 2 (k_mem s) old (Z.of_nat i * PGSIZE))).
  { rewrite Hpte. apply (ap_leaf _ _ _ _ _ P). lia. }
  destruct (leaf_flags _ Hleaf) as (Hfr & Hfo & Hfv).
  assert (Hva : 0 <= Z.of_nat i * PGSIZE < MAXVA).
  { rewrite TRAPFRAME_eq in Hb. rewrite MAXVA_eq. unfold PGSIZE in *. lia. }
  assert (Hback : forall s1 f1, aspace new i s1 f1 -> exists s' f',
    (uvmunmap new 0 (Z.of_nat i * PGSIZE / PGSIZE) true ;;; ret (-1)) s1 = Ok (-1) s' /\
    as_step 0 new i s1 f1 0 s' f').
  { intros s1 f1 A1. destruct (shrink new i 0 s1 f1 A1) as (s' & E & S'); [lia|].
    eexists s', _. split; [|exact S']. rewrite Z.div_mul by (by vm_compute).
    rewrite Nat.sub_0_r in E. by rewrite (bind_ok _ _ _ _ _ E). }
  unfold walk. destruct (Z.leb_spec MAXVA (Z.of_nat i * PGSIZE)); [lia|].
  rewrite (bind_ok _ _ _ _ _ (walk_noalloc 2 old _ s)).
  destruct (pte_leaf_addr (k_mem s) old (Z.of_nat i * PGSIZE)) as (la & Hne & -> & Hla).
  { rewrite Et. pose proof (ap_pages _ _ _ _ _ P) as Hp. by apply Forall_app in Hp as [? _]. }
  { apply Hleaf. }
  unfold default, id. destruct (Z.eqb_spec la 0); [done|]. rewrite bind_read64, Hla.
  rewrite (proj1 Hleaf). cbn [negb]. rewrite Hpte in *.
  set (e := pte_of 2 (k_mem s0) old (Z.of_nat i * PGSIZE)) in *.
  destruct free as [|fresh free].
  { rewrite (bind_ok _ _ _ _ _ (kalloc_none _ (tb_kmem _ _ _ (as_table _ _ _ _ A))
      (tb_lock _ _ _ (as_table _ _ _ _ A)))). cbn [Z.eqb].
    destruct (Hback s [] A) as (s' & f' & E & S'). exists s', f'. right.
    split; [exact E|]. split; [simpl; lia|by eapply as_step_trans]. }
  rewrite (bind_ok _ _ _ _ _ (kalloc_some _ _ _ (tb_kmem _ _ _ (as_table _ _ _ _ A))
      (tb_lock _ _ _ (as_table _ _ _ _ A)))).
  destruct (aspace_new _ _ _ _ _ A) as [Hnew Hno]. pose proof (page_ok_pos _ Hnew).
  destruct (Z.eqb_spec fresh 0); [lia|].
  rewrite bind_modify. cbn [k_mem set_k_mem]. rewrite set_k_mem_mem.
  destruct (add_fresh new i s fresh free _ (PTE_FLAGS e) A (mem_only_copy (k_mem s) fresh (PTE2PA e) 5))
    as (s1 & [(E & Hpt & Hc & f1 & S1 & Hl1)|(E & Hl1 & s2 & f2 & Ek & S2)]);
    [unfold PGSIZE in *; lia|done|done| |]; rewrite (bind_ok _ _ _ _ _ E); cbn [Z.eqb negb].
  - rewrite u64_small by (rewrite TRAPFRAME_eq in *; unfold PGSIZE in *; lia).
    replace (Z.of_nat i * PGSIZE + PGSIZE) with (Z.of_nat (S i) * PGSIZE) by lia.
    enough (HI : exists s' free',
      (uvmcopy_loop fuel old new (Z.of_nat (S i) * PGSIZE) sz s1 = Ok 0 s' /\
       as_step 0 new 0 s0 f0 n s' free' /\ copied (k_mem s0) old (k_mem s') new n) \/
      (uvmcopy_loop fuel old new (Z.of_nat (S i) * PGSIZE) sz s1 = Ok (-1) s' /\
       (length f1 < 3 * j)%nat /\ as_step 0 new 0 s0 f0 0 s' free')).
    { destruct HI as (s' & f' & [HI|(HI & Hl2 & HS)]); exists s', f'; [by left|right].
      split; [exact HI|]. split; [simpl; lia|exact HS]. }
    apply (IH _ _ f1); [lia|lia| |].
    { eapply as_step_trans; [exact St|]. eapply as_step_weaken; [|exact S1]. lia. }
    intros x Hx. destruct (decide (x = i)) as [->|].
    2: { apply (copied_step _ _ _ _ _ _ _ _ _ _ S1 C). lia. }
    destruct (pte_val_ok fresh (PTE_FLAGS e)) as (_ & Hpa & Hfs & _); [apply Hnew|lia|done|].
    unfold page_at. rewrite Hpt, Hpa, Hfs, Hfo. fold e. split; [done|]. intros off Hoff.
    rewrite Hc by lia. rewrite rd_memmove by (unfold PGSIZE; lia). rewrite decide_True by lia.
    assert (Hin : PTE2PA e ∈ tree 2 (k_mem s0) old ++ frames (k_mem s0) old 0 n).
    { apply elem_of_app. right. change (PTE2PA e) with (page_at (k_mem s0) old i).
      apply page_at_frames. lia. }
    replace (PTE2PA e + (fresh + off - fresh)) with (PTE2PA e + off) by lia.
    rewrite rd_memset_page, decide_False; [apply (Hdat (PTE2PA e)); [done|lia]|].
    pose proof (ap_pages _ _ _ _ _ P) as Hp. rewrite Forall_forall in Hp.
    apply (page_disjoint (PTE2PA e) fresh); [by apply Hp|apply Hnew| |lia].
    intros Eq. apply (ap_disj _ _ _ _ _ P _ Hin). rewrite <- (st_owned _ _ _ _ _ _ _ _ St).
    rewrite Eq, owned_cons. left.
  - rewrite (bind_ok _ _ _ _ _ Ek). destruct (Hback s2 f2) as (s' & f' & Er & S'); [apply S2|].
    exists s', f'. right. split; [exact Er|]. split; [simpl; lia|]. eapply as_step_trans; [exact St|].
    eapply as_step_trans; [|exact S']. eapply as_step_weaken; [|exact S2]. lia.
Qed.

End Space.
