(* ===== verification/VmFree.v ===== *)
(** * Creating and freeing an address space

    [uvmcreate] makes an empty address space and [uvmfree] gives back every
    page of one: mapped pages and page-table pages.  The contracts of
    [uvmalloc], [uvmcopy] and [uvmfree] are stated here, on the invariant
    [aspace]. *)

From S2P Require Import Prelude KString Bytes KState Riscv Spinlock Kalloc Vm VmTree VmMap VmSpace.

(** No level-0 entry is valid. *)
Fixpoint empty (lvl : nat) (m : mem) (pt : Z) : Prop :=
  match lvl with
  | O => forall i, 0 <= i < 512 -> has_flag (entry m pt i) PTE_V = false
  | S l => forall i, 0 <= i < 512 -> has_flag (entry m pt i) PTE_V = true ->
      empty l m (PTE2PA (entry m pt i))
  end.

Section Free.
Context {L : Layout}.

Lemma empty_agree lvl m m' pt :
  (forall p a, p ∈ tree lvl m pt -> p <= a < p + PGSIZE -> rd m' a = rd m a) ->
  empty lvl m pt -> empty lvl m' pt.
Proof.
  revert pt. induction lvl as [|l IH]; intros pt H He i Hi;
    rewrite (entry_agree m m') by (done || intros a; apply H, tree_root); [by apply He|].
  intros Hv. apply IH; [|by apply He]. intros p a Hp. apply H.
  apply (kid_sub l m pt i); [done|]. unfold kid. by rewrite Hv.
Qed.

(** An address with given indices. *)
Lemma va_of_indices i2 i1 i0 :
  0 <= i2 < 512 -> 0 <= i1 < 512 -> 0 <= i0 < 512 ->
  let va := (i2 * 2 ^ 18 + i1 * 2 ^ 9 + i0) * PGSIZE in
  0 <= va < 2 ^ 39 /\ PX 2 va = i2 /\ PX 1 va = i1 /\ PX 0 va = i0.
Proof.
  intros H2 H1 H0 va. unfold va, PGSIZE. rewrite !px_eq by lia.
  change (2 ^ (12 + 9 * 2)) with (4096 * 262144). change (2 ^ (12 + 9 * 1)) with (4096 * 512).
  change (2 ^ (12 + 9 * 0)) with 4096. rewrite <- !Z.div_div by lia. rewrite !Z.div_mul by lia.
  change (2 ^ 18) with 262144. change (2 ^ 9) with 512.
  assert (E1 : (i2 * 262144 + i1 * 512 + i0) / 262144 = i2) by mlia.
  assert (E2 : (i2 * 262144 + i1 * 512 + i0) / 512 = i2 * 512 + i1) by mlia.
  rewrite E1, E2. repeat split; mlia.
Qed.

Lemma empty_of_pte m pt :
  (forall va, 0 <= va < 2 ^ 39 -> has_flag (pte_of 2 m pt va) PTE_V = false) -> empty 2 m pt.
Proof.
  intros H i2 H2 V2 i1 H1 V1 i0 H0.
  destruct (va_of_indices i2 i1 i0 H2 H1 H0) as (Hva & E2 & E1 & E0).
  specialize (H _ Hva). unfold pte_of in H. cbn [leaf_addr] in H.
  change (Z.of_nat 2) with 2 in H. change (Z.of_nat 1) with 1 in H.
  rewrite E2, V2, E1, V1, E0 in H. exact H.
Qed.

(** ** [freewalk] *)

(** Freeing a page outside of the free list. *)
Lemma kfree_step {LO : LayoutOk L} p s free :
  kmem_inv s free -> (kmem_lock ∉ k_held s) -> page_ok p -> (p ∉ free) ->
  exists s', kfree p s = Ok tt s' /\ kmem_inv s' (p :: free) /\ vm_frame s s' /\
    mem_only [p] (k_mem s) (k_mem s').
Proof.
  intros I Hl Hp Hn. eexists. split; [by apply kfree_ok|].
  split; [by apply kfree_inv_push|]. split; [reflexivity|].
  intros a Ha. specialize (Ha p ltac:(left)). cbn [k_mem set_k_freelist set_k_mem].
  rewrite rd_store64_other by (unfold PGSIZE in *; lia). by rewrite rd_memset_page, decide_False.
Qed.

(** What one call of [freewalk] does to the table at [pt]. *)
Definition frees (f : Z -> K unit) (l : nat) : Prop :=
  forall pt s free,
    kmem_inv s free -> (kmem_lock ∉ k_held s) -> NoDup (tree l (k_mem s) pt ++ free) ->
    Forall page_ok (tree l (k_mem s) pt) -> inner l (k_mem s) pt -> empty l (k_mem s) pt ->
    exists s' freed, f pt s = Ok tt s' /\ kmem_inv s' (freed ++ free) /\
      freed ≡ₚ tree l (k_mem s) pt /\ vm_frame s s' /\
      mem_only (tree l (k_mem s) pt) (k_mem s) (k_mem s').

Lemma has_rwx_flags e :
  PTE_FLAGS e = PTE_V -> has_flag e (Z.lor (Z.lor PTE_R PTE_W) PTE_X) = false.
Proof. intros H. rewrite has_flag_flags, H by (by vm_compute). reflexivity. Qed.

Lemma freewalk_loop_spec {LO : LayoutOk L} rec l ix pt s free :
  frees rec l -> kmem_inv s free -> (kmem_lock ∉ k_held s) ->
  NoDup ix -> (forall i, i ∈ ix -> 0 <= i < 512) ->
  NoDup ((pt :: flat_map (kid l (k_mem s) pt) ix) ++ free) ->
  Forall page_ok (pt :: flat_map (kid l (k_mem s) pt) ix) ->
  (forall i, i ∈ ix -> has_flag (entry (k_mem s) pt i) PTE_V = true ->
     PTE_FLAGS (entry (k_mem s) pt i) = PTE_V /\
     inner l (k_mem s) (PTE2PA (entry (k_mem s) pt i)) /\
     empty l (k_mem s) (PTE2PA (entry (k_mem s) pt i))) ->
  exists s' freed, freewalk_loop rec ix pt s = Ok tt s' /\ kmem_inv s' (freed ++ free) /\
    freed ≡ₚ pt :: flat_map (kid l (k_mem s) pt) ix /\ vm_frame s s' /\
    mem_only (pt :: flat_map (kid l (k_mem s) pt) ix) (k_mem s) (k_mem s').
Proof.
  intros Hrec. revert s free. induction ix as [|i ix IH]; intros s free I Hl Hix Hr Hnd Hok Hin.
  { cbn [freewalk_loop flat_map] in *. apply Forall_cons in Hok as [Hp _].
    apply NoDup_app in Hnd as (_ & Hd & _). specialize (Hd pt ltac:(left)).
    destruct (kfree_step pt s free I Hl Hp Hd) as (s' & E & I' & F & M). by exists s', [pt]. }
  apply NoDup_cons in Hix as [Hi Hix].
  assert (Hri : 0 <= i < 512) by (apply Hr; left).
  assert (Hrx : forall j, j ∈ ix -> 0 <= j < 512 /\ j <> i).
  { intros j Hj. split; [apply Hr; by right|]. by intros ->. }
  cbn [flat_map] in Hnd, Hok |- *. cbn [freewalk_loop]. rewrite bind_read64.
  change (load64 (k_mem s) (pt + 8 * i)) with (entry (k_mem s) pt i).
  destruct (has_flag (entry (k_mem s) pt i) PTE_V) eqn:Hv; cbn [andb].
  2: { assert (Hk : kid l (k_mem s) pt i = []) by (unfold kid; by rewrite Hv).
       rewrite Hk in *. apply IH; try done; [intros j Hj; by apply Hrx|].
       intros j Hj. apply Hin. by right. }
  destruct (Hin i ltac:(left) Hv) as (Hf & Hinn & Hemp). rewrite (has_rwx_flags _ Hf). cbn [negb].
  set (c := PTE2PA (entry (k_mem s) pt i)) in *.
  assert (Hk : kid l (k_mem s) pt i = tree l (k_mem s) c) by (unfold kid; by rewrite Hv).
  rewrite Hk in *. set (T := tree l (k_mem s) c) in *.
  set (R := flat_map (kid l (k_mem s) pt) ix) in *.
  apply Forall_cons in Hok as [Hpt Hok]. apply Forall_app in Hok as [HokT HokR].
  cbn [app] in Hnd. apply NoDup_cons in Hnd as [Hptn Hnd]. rewrite <- app_assoc in Hnd.
  rewrite !elem_of_app in Hptn.
  apply NoDup_app in Hnd as (HnT & HdT & HnR). pose proof HnR as (_ & HdR & Hnf)%NoDup_app.
  destruct (Hrec c s free I Hl) as (s1 & f1 & E1 & I1 & P1 & F1 & M1); [| done | done | done |].
  { apply NoDup_app. split; [done|]. split; [|done]. intros p Hp Hq.
    apply (HdT p Hp). rewrite elem_of_app. by right. }
  fold T in P1, M1. rewrite (bind_ok _ _ _ _ _ E1), bind_write64.
  set (s2 := set_k_mem (store64 (k_mem s1) (pt + 8 * i) 0) s1).
  assert (M2 : mem_only (pt :: T) (k_mem s) (k_mem s2)).
  { eapply mem_only_trans; [eapply mem_only_mono; [|exact M1]; intros p; rewrite elem_of_cons; tauto|].
    intros a Ha. apply rd_store64_other. intros Hb. apply (Ha pt ltac:(left)). by apply (entry_in_page pt i). }
  assert (F2 : vm_frame s s2) by (eapply vm_frame_trans; [exact F1|apply vm_frame_mem]).
  assert (I2 : kmem_inv s2 (f1 ++ free)).
  { apply (kmem_inv_agree s1 s2 (f1 ++ free) [pt]); [done|done| |by constructor|].
    - intros a Ha. apply rd_store64_other. intros Hb. apply (Ha pt ltac:(left)).
      by apply (entry_in_page pt i).
    - intros p ->%list_elem_of_singleton. rewrite elem_of_app, P1. tauto. }
  assert (Hent : forall j, j ∈ ix -> entry (k_mem s2) pt j = entry (k_mem s) pt j).
  { intros j Hj. destruct (Hrx j Hj) as [Hj1 Hj2]. unfold entry, s2. cbn [k_mem set_k_mem].
    rewrite load64_store64_other by lia. apply (entry_agree _ _ pt j); [|done].
    intros a Ha. apply (mem_only_page T (k_mem s) (k_mem s1) pt a M1); [tauto|done|done|done]. }
  assert (Hpg : forall j p a, j ∈ ix -> p ∈ kid l (k_mem s) pt j -> p <= a < p + PGSIZE ->
     rd (k_mem s2) a = rd (k_mem s) a).
  { intros j p a Hj Hp Ha. assert (HpR : p ∈ R) by (apply elem_of_flat_map; eauto).
    eapply mem_only_page; [exact M2| |by constructor| |exact Ha].
    - rewrite elem_of_cons. intros [->|HpT]; [tauto|]. apply (HdT p HpT). rewrite elem_of_app. by left.
    - rewrite Forall_forall in HokR. by apply HokR. }
  assert (Hkid : forall j, j ∈ ix -> kid l (k_mem s2) pt j = kid l (k_mem s) pt j).
  { intros j Hj. apply kid_agree; [by apply Hent|]. intros p a. by apply Hpg. }
  assert (HR : flat_map (kid l (k_mem s2) pt) ix = R) by (by apply flat_map_ext_in).
  destruct (IH s2 (f1 ++ free)) as (s3 & f3 & E3 & I3 & P3 & F3 & M3); rewrite ?HR in *.
  { done. } { by rewrite (vm_frame_held _ _ F2). } { done. } { intros j Hj. by apply Hrx. }
  { constructor; [rewrite !elem_of_app, P1; tauto|]. fold (app R (f1 ++ free)).
    rewrite P1. rewrite (Permutation_app_comm R), <- app_assoc, (Permutation_app_comm free).
    apply NoDup_app. auto. }
  { by constructor. }
  { intros j Hj. rewrite Hent by done. intros Hvj.
    destruct (Hin j ltac:(by right) Hvj) as (Hfj & Hij & Hej). split; [done|].
    assert (Hag : forall p a, p ∈ tree l (k_mem s) (PTE2PA (entry (k_mem s) pt j)) ->
      p <= a < p + PGSIZE -> rd (k_mem s2) a = rd (k_mem s) a).
    { intros p a Hp. apply (Hpg j); [done|]. unfold kid. by rewrite Hvj. }
    split; [by eapply inner_agree|by eapply empty_agree]. }
  exists s3, (f3 ++ f1). split; [exact E3|]. rewrite <- app_assoc. split; [done|]. split; [|split].
  - rewrite P3, P1. cbn [app]. f_equiv. apply Permutation_app_comm.
  - by eapply vm_frame_trans.
  - eapply mem_only_trans; eapply mem_only_mono; [|exact M2| |exact M3];
      intros p; rewrite !elem_of_cons, ?elem_of_app; tauto.
Qed.

Lemma freewalk_loop_empty rec ix pt s :
  (forall i, i ∈ ix -> has_flag (entry (k_mem s) pt i) PTE_V = false) ->
  freewalk_loop rec ix pt s = kfree pt s.
Proof.
  induction ix as [|i ix IH]; intros H; [done|]. cbn [freewalk_loop]. rewrite bind_read64.
  change (load64 (k_mem s) (pt + 8 * i)) with (entry (k_mem s) pt i).
  rewrite H by left. cbn [andb]. apply IH. intros j Hj. apply H. by right.
Qed.

Lemma freewalk_S d pt : freewalk (S d) pt = freewalk_loop (freewalk d) indices pt.
Proof. rewrite <- indices_eq. reflexivity. Qed.

Lemma freewalk_frees {LO : LayoutOk L} l : frees (freewalk (S l)) l.
Proof.
  induction l as [|l IH]; intros pt s free I Hl Hnd Hok Hin He.
  - cbn [tree] in *. apply Forall_cons in Hok as [Hp _]. apply NoDup_cons in Hnd as [Hn _].
    destruct (kfree_step pt s free I Hl Hp Hn) as (s' & E & I' & F & M).
    exists s', [pt]. split; [|done]. rewrite freewalk_S, freewalk_loop_empty; [done|]. intros i Hi%elem_of_indices. by apply He.
  - rewrite tree_S in *. rewrite freewalk_S.
    apply freewalk_loop_spec; try done; [apply NoDup_indices| |].
    + intros i. by rewrite elem_of_indices.
    + intros i Hi%elem_of_indices Hv. destruct (Hin i Hi Hv). split; [done|]. split; [done|]. by apply He.
Qed.

(** ** An empty address space *)

Lemma uvmcreate_space {LO : LayoutOk L} s new free :
  kmem_inv s (new :: free) -> (kmem_lock ∉ k_held s) ->
  exists s', uvmcreate s = Ok new s' /\ aspace new 0 s' free /\ vm_frame s s' /\
    mem_only [new] (k_mem s) (k_mem s') /\ tree 2 (k_mem s') new = [new] /\
    (forall va, pte_of 2 (k_mem s') new va = 0).
Proof.
  intros I Hl. pose proof (kmem_pages _ _ I) as [Hnew _]%Forall_cons.
  pose proof (kmem_nodup _ _ I) as Hnd. pose proof (page_ok_pos _ Hnew).
  pose proof (mem_only_zeroed (k_mem s) new 5) as M.
  set (m1 := memset (memset (k_mem s) new 5 PGSIZE) new 0 PGSIZE) in *.
  assert (Hz : forall a, new <= a < new + PGSIZE -> rd m1 a = 0).
  { intros a Ha. unfold m1. by rewrite rd_memset_page, decide_True. }
  destruct (zero_page_tree 2 m1 new Hz) as (Et & Hin & Ep).
  set (s0 := set_k_freelist (load64 (k_mem s) new) s).
  assert (I0 : kmem_inv s0 free).
  { destruct I as [[_ Hfl] [_ Hn]%NoDup_cons [_ Hp]%Forall_cons]. by split. }
  exists (set_k_mem m1 s0). split; [|split; [|split; [reflexivity|split; [exact M|split; [exact Et|exact Ep]]]]].
  { unfold uvmcreate. rewrite (bind_ok _ _ _ _ _ (kalloc_some _ _ _ I Hl)).
    destruct (Z.eqb_spec new 0); [lia|]. rewrite bind_fill_page. cbn [k_mem set_k_mem].
    by rewrite set_k_mem_mem. }
  assert (I1 : kmem_inv (set_k_mem m1 s0) free).
  { apply (kmem_inv_agree s0 _ free [new]); [done|done|exact M|by constructor|].
    intros p ->%list_elem_of_singleton. by apply NoDup_cons in Hnd as [? _]. }
  split; cbn [k_mem set_k_mem frames app]; rewrite ?Et.
  - split; cbn [k_mem set_k_mem]; rewrite ?Et; [done|done|done|by constructor|done].
  - by vm_compute.
  - lia.
  - intros va _. rewrite Ep. apply has_flag_0.
  - constructor.
  - done.
  - intros va _. rewrite Ep. apply has_flag_0.
Qed.

(** A new table next to an address space. *)
Lemma uvmcreate_apart {LO : LayoutOk L} old n s new free :
  aspace old n s (new :: free) ->
  exists s', uvmcreate s = Ok new s' /\ aspace new 0 s' free /\ aspace old n s' free /\
    apart old n new s' free /\ mem_only [new] (k_mem s) (k_mem s').
Proof.
  intros A. destruct (aspace_new _ _ _ _ _ A) as [Hnew Hno].
  destruct (uvmcreate_space s new free) as (s' & E & An & F & M & Etn & Ep); [apply A|apply A|].
  assert (Hs : k_freelist s' = load64 (k_mem s) new).
  { revert E. unfold uvmcreate.
    rewrite (bind_ok _ _ _ _ _ (kalloc_some _ _ _ (tb_kmem _ _ _ (as_table _ _ _ _ A))
      (tb_lock _ _ _ (as_table _ _ _ _ A)))).
    destruct (new =? 0); [intros [= _ <-]; reflexivity|]. rewrite bind_fill_page.
    intros [= <-]. reflexivity. }
  destruct (aspace_agree old n _ s' free [new] (aspace_pop _ _ _ _ _ A))
    as (Ao & Et & Epo & Ef); [done|by rewrite (vm_frame_held _ _ F)|exact M|by constructor| |].
  { intros p ->%list_elem_of_singleton. cbn [k_mem set_k_freelist].
    revert Hno. unfold owned. rewrite !elem_of_app. tauto. }
  cbn [k_mem set_k_freelist] in Et, Epo, Ef.
  exists s'. split; [done|]. split; [done|]. split; [done|]. split; [|done]. split.
  - apply (as_leaf _ _ _ _ Ao).
  - apply Forall_app. split; apply Ao.
  - intros p Hp. pose proof (as_nodup _ _ _ _ Ao) as Hn. rewrite app_assoc in Hn.
    apply NoDup_app in Hn as (_ & Hd & _). unfold owned.
    rewrite Etn. cbn [frames app]. rewrite elem_of_cons. intros [->|H]; [|by apply (Hd p)].
    rewrite Et, Ef in Hp. apply Hno. unfold owned. rewrite !elem_of_app in *. tauto.
Qed.

(** ** The contracts *)

(** [uvmalloc] grows an address space from [oldsz] to [newsz] bytes or
    changes nothing.  On success every new page is mapped with the requested
    permission and reads as zeroes, at most three pages being taken for each;
    on failure (only when fewer than three
    free pages per new page are left) it returns 0 and the address space has
    its old pages.  Either way old pages keep translation and contents, and
    the pages of table, mapping and free list are together the same as
    before: none is lost, none is used twice, and no other memory changes. *)
Theorem uvmalloc_spec {LO : LayoutOk L} (pt oldsz newsz xperm : Z) (s : kstate) (free : list Z) :
  aspace pt (pages_of oldsz) s free -> 0 <= oldsz <= newsz -> newsz <= TRAPFRAME ->
  xperm = 0 \/ xperm = PTE_X \/ xperm = PTE_W \/ xperm = Z.lor PTE_X PTE_W ->
  exists s' free',
    (uvmalloc pt oldsz newsz xperm s = Ok newsz s' /\
     as_step (pages_of oldsz) pt (pages_of oldsz) s free (pages_of newsz) s' free' /\
     (length free <= 3 * (pages_of newsz - pages_of oldsz) + length free')%nat /\
     forall i, (pages_of oldsz <= i < pages_of newsz)%nat ->
       zero_page (k_mem s') pt i (Z.lor (Z.lor (Z.lor PTE_R PTE_U) xperm) PTE_V)) \/
    (uvmalloc pt oldsz newsz xperm s = Ok 0 s' /\
     (length free < 3 * (pages_of newsz - pages_of oldsz))%nat /\
     as_step (pages_of oldsz) pt (pages_of oldsz) s free (pages_of oldsz) s' free').
Proof.
  intros A Hsz Hb Hx. destruct (perm_ok _ Hx) as [Hf Hv].
  destruct (pgroundup_pages oldsz) as (Eo & Ho & _); [lia|].
  destruct (pgroundup_pages newsz) as (En & Hn & _); [lia|].
  unfold uvmalloc. destruct (Z.ltb_spec newsz oldsz); [lia|]. rewrite Eo.
  set (n := pages_of oldsz) in *. set (n' := pages_of newsz) in *.
  assert (Hle : (n <= n')%nat) by (unfold PGSIZE in *; lia).
  destruct (uvmalloc_loop_pages (n' - n) n n pt newsz xperm s free
    (S (Z.to_nat (newsz / PGSIZE + 1)))) as (s' & f' & Hr); try done.
  { assert (newsz / PGSIZE + 1 >= Z.of_nat (n' - n)); [|lia]. unfold PGSIZE in *. mlia. }
  { lia. }
  { fold n'. lia. }
  exists s', f'. by replace (n + (n' - n))%nat with n' in Hr by lia.
Qed.

Lemma uvmcopy_pages {LO : LayoutOk L} (old new sz : Z) (s : kstate) (free : list Z) :
  apart old (pages_of sz) new s free -> aspace new 0 s free -> 0 <= sz <= TRAPFRAME ->
  exists s' free',
    ((uvmcopy old new sz s = Ok 0 s' /\
      as_step 0 new 0 s free (pages_of sz) s' free' /\
      copied (k_mem s) old (k_mem s') new (pages_of sz)) \/
     (uvmcopy old new sz s = Ok (-1) s' /\
      (length free < 3 * pages_of sz)%nat /\ as_step 0 new 0 s free 0 s' free')) /\
    (forall va, pte_of 2 (k_mem s') old va = pte_of 2 (k_mem s) old va) /\
    (forall p a, p ∈ frames (k_mem s) old 0 (pages_of sz) -> p <= a < p + PGSIZE ->
       rd (k_mem s') a = rd (k_mem s) a).
Proof.
  intros P A Hsz. destruct (pgroundup_pages sz) as (E & Hr & Hb); [done|].
  rewrite E in Hr, Hb. set (n := pages_of sz) in *.
  destruct (uvmcopy_loop_pages n 0 n old new sz s free s free (S (Z.to_nat (sz / PGSIZE + 1))))
    as (s' & f' & Hc); try done; try lia.
  { assert (sz / PGSIZE + 1 >= Z.of_nat n); [|lia]. unfold PGSIZE in *. mlia. }
  { intros i Hi. lia. }
  exists s', f'. split; [exact Hc|].
  assert (Hs : exists j, as_step 0 new 0 s free j s' f').
  { destruct Hc as [(_ & ? & _)|(_ & _ & ?)]; eauto. }
  destruct Hs as [j Hs]. destruct (apart_kept _ _ _ _ _ _ _ _ _ P A Hs) as (H1 & _ & H2).
  split; [done|]. intros p a Hp. apply H2. apply elem_of_app. by right.
Qed.


Lemma uvmfree_pages {LO : LayoutOk L} (pt sz : Z) (s : kstate) (free : list Z) :
  aspace pt (pages_of sz) s free -> 0 <= sz <= TRAPFRAME ->
  (forall va, TRAPFRAME <= va < MAXVA -> has_flag (pte_of 2 (k_mem s) pt va) PTE_V = false) ->
  exists s' free', uvmfree pt sz s = Ok tt s' /\ kmem_inv s' free' /\
    free' ≡ₚ owned pt (pages_of sz) s free /\ vm_frame s s' /\
    mem_only (owned pt (pages_of sz) s free) (k_mem s) (k_mem s').
Proof.
  intros A Hsz Htop. destruct (pgroundup_pages sz) as (E & Hr & Hb); [done|].
  destruct (shrink pt (pages_of sz) 0 s free A (Nat.le_0_l _)) as (s1 & E1 & S1).
  rewrite Nat.sub_0_r in E1. set (f1 := reverse _ ++ free) in *.
  assert (H1 : exists s1 f1, (if 0 <? sz then uvmunmap pt 0 (PGROUNDUP sz / PGSIZE) true else ret tt) s
     = Ok tt s1 /\ as_step 0 pt (pages_of sz) s free 0 s1 f1).
  { destruct (Z.ltb_spec 0 sz).
    - exists s1, f1. split; [|done]. rewrite E, Z.div_mul by (by vm_compute). exact E1.
    - exists s, free. split; [done|]. assert (sz = 0) as -> by lia. by apply as_step_refl. }
  clear s1 E1 f1 S1. destruct H1 as (s1 & f1 & E1 & S1). unfold uvmfree.
  rewrite (bind_ok _ _ _ _ _ E1). pose proof (st_space _ _ _ _ _ _ _ _ S1) as A1.
  pose proof (as_table _ _ _ _ A1) as [I1 Hl1 Hn1 Hok1 Hin1].
  destruct (freewalk_frees 2 pt s1 f1 I1 Hl1 Hn1 Hok1 Hin1) as (s2 & fr & E2 & I2 & P2 & F2 & M2).
  { apply empty_of_pte. intros va Hva. destruct (decide (va < TRAPFRAME)).
    - apply (as_unmapped _ _ _ _ A1). simpl. lia.
    - destruct (decide (va < MAXVA)); [|apply (as_high _ _ _ _ A1); lia].
      rewrite (st_top _ _ _ _ _ _ _ _ S1) by lia. apply Htop. lia. }
  assert (Ho : (fr ++ f1) ≡ₚ owned pt (pages_of sz) s free).
  { rewrite P2. apply (st_owned _ _ _ _ _ _ _ _ S1). }
  exists s2, (fr ++ f1). split; [exact E2|]. split; [done|]. split; [done|]. split.
  - eapply vm_frame_trans; [apply S1|done].
  - eapply mem_only_trans; [apply S1|]. eapply mem_only_mono; [|exact M2].
    intros p Hp. rewrite <- Ho, elem_of_app, P2. by left.
Qed.

(** [C34] [uvmfree] of an address space whose trampoline and trapframe are
    unmapped never panics and gives back every page: afterwards the free list
    consists of the old free pages, the mapped pages and the page-table
    pages, each exactly once, and no other memory has changed. *)
Theorem uvmfree_spec {LO : LayoutOk L} (pt sz : Z) (s : kstate) (free : list Z) :
  aspace pt (pages_of sz) s free -> 0 <= sz <= TRAPFRAME ->
  (forall va, TRAPFRAME <= va < MAXVA -> has_flag (pte_of 2 (k_mem s) pt va) PTE_V = false) ->
  exists s' free', uvmfree pt sz s = Ok tt s' /\ kmem_inv s' free' /\
    free' ≡ₚ owned pt (pages_of sz) s free /\ vm_frame s s' /\
    mem_only (owned pt (pages_of sz) s free) (k_mem s) (k_mem s').
Proof. apply uvmfree_pages. Qed.

End Free.

(** ** Witnesses *)

(** Twelve pages of RAM. *)
Definition ram12 : Layout := small_layout 12.

Lemma ram12_ok : LayoutOk ram12.
Proof. apply small_layout_ok. lia. Qed.

(** After boot: an empty table and eleven free pages. *)
Lemma ram12_create :
  exists s pt free, aspace (L := ram12) pt 0 s free /\ length free = 11%nat /\
    tree 2 (k_mem s) pt = [pt] /\
    (forall va, pte_of 2 (k_mem s) pt va = 0).
Proof.
  pose proof ram12_ok as LO.
  destruct (kinit_ok (L := ram12) kstate_zero) as (s1 & Hk & I & Hh);
    [reflexivity|apply not_elem_of_nil|].
  assert (Hlen : length (rev (all_pages (L := ram12))) = 12%nat) by reflexivity.
  destruct (rev (all_pages (L := ram12))) as [|p free]; [done|]. injection Hlen as Hlen.
  destruct (uvmcreate_space s1 p free I) as (s2 & _ & A & _ & _ & Et & Ep).
  { rewrite Hh. apply not_elem_of_nil. }
  exists s2, p, free. auto.
Qed.

Lemma uvmalloc_spec_witness :
  exists s pt s', uvmalloc (L := ram12) pt 0 4096 PTE_W s = Ok 4096 s'.
Proof.
  pose proof ram12_ok as LO. destruct ram12_create as (s & pt & free & A & Hf & _ & _).
  destruct (uvmalloc_spec pt 0 4096 PTE_W s free A) as (s' & f' & [(E & _)|(_ & Hl & _)]).
  - lia.
  - by vm_compute.
  - by right; right; left.
  - by exists s, pt, s'.
  - exfalso. change (pages_of 4096) with 1%nat in Hl. lia.
Defined.


Lemma uvmfree_spec_witness :
  exists s pt s' free', uvmfree (L := ram12) pt 4096 s = Ok tt s' /\ kmem_inv (L := ram12) s' free' /\
    length free' = 12%nat.
Proof.
  pose proof ram12_ok as LO. destruct ram12_create as (s0 & pt & f0 & A0 & Hf0 & Et & Ep).
  destruct (uvmalloc_loop_pages (L := ram12) 1 0 0 pt 4096 PTE_W s0 f0 3)
    as (s1 & f1 & [(_ & S1 & _ & _)|(_ & Hl & _)]);
    [done|lia|lia|by vm_compute|by vm_compute|by vm_compute|by vm_compute| |lia].
  destruct (uvmfree_spec (L := ram12) pt 4096 s1 f1) as (s' & f' & E & I & P & _).
  - apply S1.
  - by vm_compute.
  - intros va Hva. rewrite (st_top _ _ _ _ _ _ _ _ S1), Ep by done. reflexivity.
  - exists s1, pt, s', f'. split; [done|]. split; [done|].
    change (pages_of 4096) with (0 + 1)%nat in P.
    rewrite P, (st_owned _ _ _ _ _ _ _ _ S1). unfold owned.
    by rewrite !length_app, Hf0, Et.
Defined.
