(* ===== verification/VmCopy.v ===== *)
(** * Copying between kernel and user memory

    [walkaddr], [copyout], [copyin] and [copyinstr] against the view of an
    address space as an array of bytes ([uread]).  Whatever pointer a user
    program passes, these functions do not panic, and they reach only bytes
    of pages that are mapped with PTE_U. *)

From S2P Require Import Prelude KString Bytes KState Riscv Spinlock Kalloc Vm VmTree VmMap VmSpace VmFree.

(** What [walkaddr] returns: the physical page of a user page, else 0. *)
Definition upage (m : mem) (pt va : Z) : Z :=
  if MAXVA <=? va then 0
  else if has_flag (pte_of 2 m pt va) PTE_V && has_flag (pte_of 2 m pt va) PTE_U
       then PTE2PA (pte_of 2 m pt va) else 0.

(** The physical address of a user address, and the byte there. *)
Definition upa (m : mem) (pt va : Z) : Z := PTE2PA (pte_of 2 m pt (PGROUNDDOWN va)) + va mod PGSIZE.
Definition uread (m : mem) (pt va : Z) : Z := rd m (upa m pt va).

(** A user program may access the byte at [va]. *)
Definition uok (m : mem) (pt va : Z) : Prop := upage m pt (PGROUNDDOWN va) <> 0.

Section Copy.
Context {L : Layout}.

(** The address space of a process: trampoline and trapframe are mapped
    without PTE_U. *)
Record uspace (pt : Z) (n : nat) (s : kstate) (free : list Z) : Prop := {
  us_space : aspace pt n s free;
  us_top : forall va, TRAPFRAME <= va < MAXVA -> has_flag (pte_of 2 (k_mem s) pt va) PTE_U = false
}.

(** ** [walkaddr] *)

Lemma walkaddr_eq {LO : LayoutOk L} pt va s :
  Forall page_ok (tree 2 (k_mem s) pt) -> walkaddr pt va s = Ok (upage (k_mem s) pt va) s.
Proof.
  intros Hok. unfold walkaddr, upage. destruct (Z.leb_spec MAXVA va); [done|].
  unfold walk. destruct (Z.leb_spec MAXVA va); [lia|].
  rewrite (bind_ok _ _ _ _ _ (walk_noalloc 2 pt va s)).
  destruct (has_flag (pte_of 2 (k_mem s) pt va) PTE_V) eqn:Hv; cbn [andb].
  - destruct (pte_leaf_addr (k_mem s) pt va Hok Hv) as (la & Hne & -> & Hla).
    unfold default, id. destruct (Z.eqb_spec la 0); [done|]. rewrite bind_read64, Hla, Hv. cbn [negb].
    by destruct (has_flag _ PTE_U).
  - unfold pte_of in Hv. destruct (leaf_addr 2 (k_mem s) pt va) as [la|]; [|done].
    unfold default, id. destruct (Z.eqb_spec la 0); [done|]. rewrite bind_read64, Hv. done.
Qed.

Lemma page_at_eq m pt va :
  0 <= va -> PTE2PA (pte_of 2 m pt (PGROUNDDOWN va)) = page_at m pt (Z.to_nat (va / PGSIZE)).
Proof.
  intros H. unfold page_at. do 2 f_equal. rewrite pgrounddown_eq. unfold PGSIZE. 
  rewrite Z2Nat.id by (apply Z.div_pos; lia). mlia.
Qed.

Lemma uok_page pt n s free va :
  uspace pt n s free -> 0 <= va -> uok (k_mem s) pt va ->
  0 <= va < Z.of_nat n * PGSIZE /\
  upage (k_mem s) pt (PGROUNDDOWN va) = page_at (k_mem s) pt (Z.to_nat (va / PGSIZE)) /\
  page_at (k_mem s) pt (Z.to_nat (va / PGSIZE)) ∈ frames (k_mem s) pt 0 n.
Proof.
  intros U Hva Hok. unfold uok, upage in *.
  destruct (Z.leb_spec MAXVA (PGROUNDDOWN va)); [done|].
  destruct (has_flag (pte_of 2 (k_mem s) pt (PGROUNDDOWN va)) PTE_V) eqn:Hv; [|done].
  destruct (has_flag (pte_of 2 (k_mem s) pt (PGROUNDDOWN va)) PTE_U) eqn:Hu; [|done].
  assert (Hr : PGROUNDDOWN va = va / PGSIZE * PGSIZE) by (rewrite pgrounddown_eq; unfold PGSIZE; mlia).
  assert (Hlt : PGROUNDDOWN va < Z.of_nat n * PGSIZE).
  { destruct (decide (PGROUNDDOWN va < TRAPFRAME)).
    - destruct (decide (PGROUNDDOWN va < Z.of_nat n * PGSIZE)); [done|].
      rewrite (as_unmapped _ _ _ _ (us_space _ _ _ _ U)) in Hv by lia. done.
    - rewrite (us_top _ _ _ _ U) in Hu by lia. done. }
  split; [unfold PGSIZE in *; mlia|]. cbn [andb]. split; [by apply page_at_eq|].
  apply page_at_frames. unfold PGSIZE in *. mlia.
Qed.

Lemma uspace_frame_ok pt n s free p :
  uspace pt n s free -> p ∈ frames (k_mem s) pt 0 n -> page_ok p.
Proof.
  intros U Hp. pose proof (as_pages _ _ _ _ (us_space _ _ _ _ U)) as H. rewrite Forall_forall in H. auto.
Qed.

Lemma frames_lookup m pt n i : (i < n)%nat -> frames m pt 0 n !! i = Some (page_at m pt i).
Proof.
  intros H. replace n with (i + S (n - i - 1))%nat by lia.
  rewrite frames_app, lookup_app_r by (by rewrite length_frames).
  rewrite length_frames, Nat.sub_diag. cbn [frames]. by rewrite Z.add_0_l.
Qed.

(** Distinct user addresses are distinct bytes. *)
Lemma upa_inj pt n s free va va' :
  uspace pt n s free -> 0 <= va < Z.of_nat n * PGSIZE -> 0 <= va' < Z.of_nat n * PGSIZE ->
  upa (k_mem s) pt va = upa (k_mem s) pt va' -> va = va'.
Proof.
  intros U Hva Hva' E. unfold upa in E. rewrite !page_at_eq in E by lia.
  set (i := Z.to_nat (va / PGSIZE)) in *. set (j := Z.to_nat (va' / PGSIZE)) in *.
  assert (Hi : (i < n)%nat) by (unfold i, PGSIZE in *; mlia).
  assert (Hj : (j < n)%nat) by (unfold j, PGSIZE in *; mlia).
  pose proof (uspace_frame_ok _ _ _ _ _ U (page_at_frames (k_mem s) pt i n Hi)) as [Ai _].
  pose proof (uspace_frame_ok _ _ _ _ _ U (page_at_frames (k_mem s) pt j n Hj)) as [Aj _].
  assert (Ep : page_at (k_mem s) pt i = page_at (k_mem s) pt j) by (unfold PGSIZE in *; mlia).
  assert (Eij : i = j).
  { pose proof (as_nodup _ _ _ _ (us_space _ _ _ _ U)) as Hn.
    apply NoDup_app in Hn as (_ & _ & Hn). apply NoDup_app in Hn as (Hn & _ & _).
    eapply (NoDup_lookup _ _ _ _ Hn); [by apply frames_lookup|]. rewrite Ep. by apply frames_lookup. }
  unfold i, j, PGSIZE in *. mlia.
Qed.

(** ** [copyout] *)

(** Bytes [va, va + k) of the address space were set to [src], and nothing
    else changed. *)
Record uwrite (pt : Z) (n : nat) (s : kstate) (free : list Z) (va : Z) (src : list Z) (k : nat)
    (s' : kstate) : Prop := {
  uw_state : s' = set_k_mem (k_mem s') s;
  uw_space : uspace pt n s' free;
  uw_pte : forall x, pte_of 2 (k_mem s') pt x = pte_of 2 (k_mem s) pt x;
  uw_ok : forall i, (i < k)%nat -> uok (k_mem s) pt (va + Z.of_nat i);
  uw_bytes : forall i b, (i < k)%nat -> src !! i = Some b -> uread (k_mem s') pt (va + Z.of_nat i) = u8 b;
  uw_rest : forall a, (forall i, (i < k)%nat -> a <> upa (k_mem s) pt (va + Z.of_nat i)) ->
    rd (k_mem s') a = rd (k_mem s) a
}.

Lemma upa_agree m m' pt va :
  (forall x, pte_of 2 m' pt x = pte_of 2 m pt x) -> upa m' pt va = upa m pt va.
Proof. intros H. unfold upa. by rewrite H. Qed.

Lemma uok_agree m m' pt va :
  (forall x, pte_of 2 m' pt x = pte_of 2 m pt x) -> uok m' pt va <-> uok m pt va.
Proof. intros H. unfold uok, upage. by rewrite !H. Qed.

Lemma uwrite_refl pt n s free va src : uspace pt n s free -> uwrite pt n s free va src 0 s.
Proof. intros U. split; try done; intros; lia. Qed.

Lemma uwrite_trans pt n s free va src k s1 k2 s2 :
  uspace pt n s free -> 0 <= va -> (k <= length src)%nat ->
  uwrite pt n s free va (take k src) k s1 ->
  uwrite pt n s1 free (va + Z.of_nat k) (drop k src) k2 s2 ->
  uwrite pt n s free va src (k + k2) s2.
Proof.
  intros U Hva Hk [E1 U1 P1 O1 B1 R1] [E2 U2 P2 O2 B2 R2]. 
  assert (Hok : forall i, (i < k + k2)%nat -> uok (k_mem s) pt (va + Z.of_nat i)).
  { intros i Hi. destruct (decide (i < k)%nat); [by apply O1|].
    specialize (O2 (i - k)%nat ltac:(lia)). rewrite (uok_agree (k_mem s)) in O2 by done.
    by replace (va + Z.of_nat k + Z.of_nat (i - k)) with (va + Z.of_nat i) in O2 by lia. }
  split.
  - rewrite E2, E1. reflexivity.
  - done.
  - intros x. by rewrite P2, P1.
  - done.
  - intros i b Hi Hb. destruct (decide (i < k)%nat) as [Hik|Hik].
    + unfold uread. rewrite (upa_agree (k_mem s1)) by done. rewrite R2.
      * apply B1; [done|]. by rewrite lookup_take_lt.
      * intros j Hj Heq. rewrite !(upa_agree (k_mem s) (k_mem s1)) in Heq by done.
        apply (upa_inj _ _ _ _ _ _ U) in Heq; [lia| |].
        -- apply (uok_page _ _ _ _ _ U); [lia|]. apply Hok. lia.
        -- apply (uok_page _ _ _ _ _ U); [lia|].
           replace (va + Z.of_nat k + Z.of_nat j) with (va + Z.of_nat (k + j)) by lia. apply Hok. lia.
    + replace (va + Z.of_nat i) with (va + Z.of_nat k + Z.of_nat (i - k)) by lia.
      apply B2; [lia|]. rewrite lookup_drop. by replace (k + (i - k))%nat with i by lia.
  - intros a Ha. rewrite R2, R1; [done| |].
    + intros i Hi. apply Ha. lia.
    + intros i Hi. rewrite (upa_agree (k_mem s)) by done.
      replace (va + Z.of_nat k + Z.of_nat i) with (va + Z.of_nat (k + i)) by lia. apply Ha. lia.
Qed.

(** One page. *)
Lemma uwrite_page pt n s free va l :
  uspace pt n s free -> 0 <= va -> uok (k_mem s) pt va ->
  Z.of_nat (length l) <= PGSIZE - va mod PGSIZE ->
  uwrite pt n s free va l (length l)
    (set_k_mem (wr_bytes (k_mem s) (upage (k_mem s) pt (PGROUNDDOWN va) + (va - PGROUNDDOWN va)) l) s).
Proof.
  intros U Hva Hok Hlen. destruct (uok_page _ _ _ _ _ U Hva Hok) as (Hr & Hp & Hin).
  rewrite Hp. set (p := page_at (k_mem s) pt (Z.to_nat (va / PGSIZE))) in *.
  replace (va - PGROUNDDOWN va) with (va mod PGSIZE) by (rewrite pgrounddown_eq; lia).
  set (m' := wr_bytes (k_mem s) (p + va mod PGSIZE) l).
  assert (Hm : 0 <= va mod PGSIZE < PGSIZE) by (apply Z.mod_pos_bound; by vm_compute).
  assert (Hsame : forall i, (i < length l)%nat -> PGROUNDDOWN (va + Z.of_nat i) = PGROUNDDOWN va /\
     (va + Z.of_nat i) mod PGSIZE = va mod PGSIZE + Z.of_nat i).
  { intros i Hi. rewrite !pgrounddown_eq. unfold PGSIZE in *. mlia. }
  assert (Hupa : forall i, (i < length l)%nat -> upa (k_mem s) pt (va + Z.of_nat i) = p + va mod PGSIZE + Z.of_nat i).
  { intros i Hi. unfold upa. destruct (Hsame i Hi) as [-> ->]. rewrite page_at_eq by done. fold p. lia. }
  assert (Hm' : mem_only [p] (k_mem s) m').
  { intros a Ha. specialize (Ha p ltac:(left)). unfold m'. rewrite rd_wr_bytes.
    destruct (l !! Z.to_nat (a - (p + va mod PGSIZE))) eqn:El; [|done].
    apply lookup_lt_Some in El. case_decide; [|done]. exfalso. apply Ha. lia. }
  pose proof (uspace_frame_ok _ _ _ _ _ U Hin) as Hpo.
  destruct (aspace_agree pt n s (set_k_mem m' s) free [p] (us_space _ _ _ _ U))
    as (A' & _ & Ep & _); [done|done|exact Hm'|by constructor| |].
  { intros q ->%list_elem_of_singleton. apply (aspace_frame_not_tree _ _ _ _ _ (us_space _ _ _ _ U) Hin). }
  cbn [k_mem set_k_mem] in Ep. split; cbn [k_mem set_k_mem].
  - done.
  - split; [done|]. intros x Hx. cbn [k_mem set_k_mem]. rewrite Ep. by apply (us_top _ _ _ _ U).
  - done.
  - intros i Hi. unfold uok. destruct (Hsame i Hi) as [-> _]. done.
  - intros i b Hi Hb. unfold uread. rewrite (upa_agree (k_mem s)), Hupa by done.
    unfold m'. rewrite rd_wr_bytes.
    replace (Z.to_nat (p + va mod PGSIZE + Z.of_nat i - (p + va mod PGSIZE))) with i by lia.
    rewrite Hb, decide_True by lia. done.
  - intros a Ha. unfold m'. rewrite rd_wr_bytes.
    destruct (l !! Z.to_nat (a - (p + va mod PGSIZE))) eqn:El; [|done].
    apply lookup_lt_Some in El. case_decide; [|done]. exfalso.
    apply (Ha (Z.to_nat (a - (p + va mod PGSIZE))) El). rewrite Hupa by done. lia.
Qed.

Lemma copyout_loop_spec {LO : LayoutOk L} fuel pt n s free va src :
  uspace pt n s free -> 0 <= va -> (length src <= fuel)%nat ->
  exists k s', uwrite pt n s free va src k s' /\
    ((k = length src /\ copyout_loop fuel pt va src s = Ok 0 s') \/
     ((k < length src)%nat /\ ~ uok (k_mem s) pt (va + Z.of_nat k) /\
        copyout_loop fuel pt va src s = Ok (-1) s')).
Proof.
  revert s va src. induction fuel as [|fuel IH]; intros s va src U Hva Hf.
  { destruct src; [|simpl in Hf; lia]. exists 0%nat, s. split; [by apply uwrite_refl|by left]. }
  destruct src as [|b src]; [exists 0%nat, s; split; [by apply uwrite_refl|by left]|].
  set (l := b :: src) in *. change (copyout_loop (S fuel) pt va l) with
    (let! pa0 := walkaddr pt (PGROUNDDOWN va) in
     if pa0 =? 0 then ret (-1)
     else let k := if Z.of_nat (length l) <? PGSIZE - (va - PGROUNDDOWN va)
                   then Z.of_nat (length l) else PGSIZE - (va - PGROUNDDOWN va) in
       modify (fun s => set_k_mem (wr_bytes (k_mem s) (pa0 + (va - PGROUNDDOWN va)) (take (Z.to_nat k) l)) s) ;;;
       copyout_loop fuel pt (PGROUNDDOWN va + PGSIZE) (drop (Z.to_nat k) l)).
  rewrite (bind_ok _ _ _ _ _ (walkaddr_eq pt (PGROUNDDOWN va) s (tb_pages _ _ _ (as_table _ _ _ _ (us_space _ _ _ _ U))))).
  destruct (Z.eqb_spec (upage (k_mem s) pt (PGROUNDDOWN va)) 0) as [E|Hne].
  { exists 0%nat, s. split; [by apply uwrite_refl|]. right. rewrite Z.add_0_r.
    split; [simpl; lia|]. split; [|done]. unfold uok. intros Hn. by apply Hn. }
  assert (Hm : 0 <= va mod PGSIZE < PGSIZE) by (apply Z.mod_pos_bound; by vm_compute).
  assert (Eoff : va - PGROUNDDOWN va = va mod PGSIZE) by (rewrite pgrounddown_eq; lia).
  cbv zeta. set (k := if _ <? _ then _ else _). assert (Hlen : (1 <= length l)%nat) by (simpl; lia).
  assert (Hk : 0 < k <= Z.of_nat (length l) /\ k <= PGSIZE - va mod PGSIZE /\
    (k = Z.of_nat (length l) \/ PGROUNDDOWN va + PGSIZE = va + k)).
  { unfold k. rewrite Eoff. destruct (Z.ltb_spec (Z.of_nat (length l)) (PGSIZE - va mod PGSIZE)); lia. }
  destruct Hk as (Hk1 & Hk2 & Hk3). rewrite bind_modify.
  assert (Hlt : length (take (Z.to_nat k) l) = Z.to_nat k) by (rewrite length_take; lia).
  pose proof (uwrite_page pt n s free va (take (Z.to_nat k) l) U Hva Hne) as W1.
  rewrite Hlt in W1. specialize (W1 ltac:(lia)).
  set (s1 := set_k_mem _ s) in *.
  destruct (decide (k = Z.of_nat (length l))) as [Ek|Hkne].
  - exists (length l), s1. split; [|left; split; [done|]].
    + rewrite Ek, Nat2Z.id, firstn_all in W1. exact W1.
    + rewrite drop_ge by lia. destruct fuel; done.
  - destruct Hk3 as [?|Hk3]; [lia|]. rewrite Hk3.
    destruct (IH s1 (va + k) (drop (Z.to_nat k) l)) as (k2 & s2 & W2 & Hr).
    { apply W1. } { lia. } { rewrite length_drop. lia. }
    exists (Z.to_nat k + k2)%nat, s2.
    replace (va + k) with (va + Z.of_nat (Z.to_nat k)) in W2 by lia.
    split; [eapply uwrite_trans; [done|done| |exact W1|exact W2]; lia|].
    rewrite length_drop in Hr.
    destruct Hr as [[Hk4 Hr]|(Hk4 & Hno & Hr)]; [left|right].
    + split; [lia|done].
    + split; [lia|]. split; [|done]. rewrite (uok_agree (k_mem s)) in Hno by apply W1.
      by replace (va + Z.of_nat (Z.to_nat k + k2)) with (va + k + Z.of_nat k2) by lia.
Qed.

(** ** [copyin] and [copyinstr] *)

(** The [n] bytes at [va]. *)
Definition ubytes (m : mem) (pt va : Z) (n : nat) : list Z :=
  (fun i => uread m pt (va + Z.of_nat i)) <$> seq 0 n.

Lemma length_ubytes m pt va n : length (ubytes m pt va n) = n.
Proof. unfold ubytes. by rewrite length_fmap, length_seq. Qed.

Lemma ubytes_lookup m pt va n i :
  (i < n)%nat -> ubytes m pt va n !! i = Some (uread m pt (va + Z.of_nat i)).
Proof. intros H. unfold ubytes. by rewrite list_lookup_fmap, lookup_seq_lt by done. Qed.

Lemma ubytes_app m pt va a b :
  ubytes m pt va (a + b) = ubytes m pt va a ++ ubytes m pt (va + Z.of_nat a) b.
Proof.
  apply list_eq_same_length with (a + b)%nat; rewrite ?length_app, ?length_ubytes; [done|done|].
  intros i x y Hi. destruct (decide (i < a)%nat).
  - rewrite lookup_app_l by (by rewrite length_ubytes). rewrite !ubytes_lookup by lia. congruence.
  - rewrite lookup_app_r by (rewrite length_ubytes; lia). rewrite length_ubytes, !ubytes_lookup by lia.
    replace (va + Z.of_nat a + Z.of_nat (i - a)) with (va + Z.of_nat i) by lia. congruence.
Qed.

(** The bytes of one page. *)
Lemma ubytes_page pt n s free va k :
  uspace pt n s free -> 0 <= va -> uok (k_mem s) pt va -> Z.of_nat k <= PGSIZE - va mod PGSIZE ->
  bytes_at (k_mem s) (upage (k_mem s) pt (PGROUNDDOWN va) + (va - PGROUNDDOWN va)) k =
  ubytes (k_mem s) pt va k /\ forall i, (i < k)%nat -> uok (k_mem s) pt (va + Z.of_nat i).
Proof.
  intros U Hva Hok Hk. destruct (uok_page _ _ _ _ _ U Hva Hok) as (_ & Hp & _).
  assert (Hm : 0 <= va mod PGSIZE < PGSIZE) by (apply Z.mod_pos_bound; by vm_compute).
  assert (Hsame : forall i, (i < k)%nat -> PGROUNDDOWN (va + Z.of_nat i) = PGROUNDDOWN va /\
     (va + Z.of_nat i) mod PGSIZE = va mod PGSIZE + Z.of_nat i).
  { intros i Hi. rewrite !pgrounddown_eq. unfold PGSIZE in *. mlia. }
  split.
  - apply list_eq_same_length with k; rewrite ?length_bytes_at, ?length_ubytes; [done|done|].
    intros i x y Hi. rewrite bytes_at_lookup, ubytes_lookup by done. intros [= <-] [= <-].
    unfold uread, upa. destruct (Hsame i Hi) as [-> ->]. rewrite Hp, page_at_eq by done.
    f_equal. rewrite pgrounddown_eq. lia.
  - intros i Hi. unfold uok. destruct (Hsame i Hi) as [-> _]. exact Hok.
Qed.

Lemma copyin_loop_spec {LO : LayoutOk L} fuel pt n s free va len :
  uspace pt n s free -> 0 <= va -> 0 <= len <= Z.of_nat fuel ->
  exists k r, copyin_loop fuel pt va len s = Ok (r, ubytes (k_mem s) pt va k) s /\
    (forall i, (i < k)%nat -> uok (k_mem s) pt (va + Z.of_nat i)) /\
    ((r = 0 /\ Z.of_nat k = len) \/
     (r = -1 /\ Z.of_nat k < len /\ ~ uok (k_mem s) pt (va + Z.of_nat k))).
Proof.
  revert va len. induction fuel as [|fuel IH]; intros va len U Hva Hf.
  { exists 0%nat, 0. assert (len = 0) as -> by lia. split; [done|]. split; [lia|by left]. }
  destruct (decide (len = 0)) as [->|Hl].
  { exists 0%nat, 0. split; [done|]. split; [lia|by left]. }
  cbn [copyin_loop]. destruct (Z.leb_spec len 0); [lia|].
  rewrite (bind_ok _ _ _ _ _ (walkaddr_eq pt (PGROUNDDOWN va) s (tb_pages _ _ _ (as_table _ _ _ _ (us_space _ _ _ _ U))))).
  destruct (Z.eqb_spec (upage (k_mem s) pt (PGROUNDDOWN va)) 0) as [E|Hne].
  { exists 0%nat, (-1). split; [done|]. split; [lia|]. right. rewrite Z.add_0_r.
    split; [done|]. split; [lia|]. unfold uok. intros Hn. by apply Hn. }
  assert (Hm : 0 <= va mod PGSIZE < PGSIZE) by (apply Z.mod_pos_bound; by vm_compute).
  assert (Eoff : va - PGROUNDDOWN va = va mod PGSIZE) by (rewrite pgrounddown_eq; lia).
  cbv zeta. set (k := if _ <? _ then _ else _).
  assert (Hk : 0 < k <= len /\ k <= PGSIZE - va mod PGSIZE /\
    (k = len \/ PGROUNDDOWN va + PGSIZE = va + k)).
  { unfold k. rewrite Eoff. destruct (Z.ltb_spec len (PGSIZE - va mod PGSIZE)); lia. }
  destruct Hk as (Hk1 & Hk2 & Hk3). rewrite bind_gets.
  destruct (ubytes_page pt n s free va (Z.to_nat k) U Hva Hne) as [-> Hok]; [lia|].
  destruct (decide (k = len)) as [Ek|Hkne].
  - rewrite Ek, Z.sub_diag.
    assert (E0 : copyin_loop fuel pt (PGROUNDDOWN va + PGSIZE) 0 s = Ok (0, []) s) by (by destruct fuel).
    rewrite (bind_ok _ _ _ _ _ E0). rewrite <- Ek. exists (Z.to_nat k), 0. rewrite app_nil_r.
    split; [done|]. split; [done|]. left. lia.
  - destruct Hk3 as [?|Hk3]; [lia|]. rewrite Hk3.
    destruct (IH (va + k) (len - k) U) as (k2 & r & E2 & Hok2 & Hr); [lia|lia|].
    rewrite (bind_ok _ _ _ _ _ E2). exists (Z.to_nat k + k2)%nat, r. rewrite ubytes_app.
    replace (va + Z.of_nat (Z.to_nat k)) with (va + k) by lia. split; [done|]. split.
    + intros i Hi. destruct (decide (i < Z.to_nat k)%nat); [by apply Hok|].
      specialize (Hok2 (i - Z.to_nat k)%nat ltac:(lia)).
      by replace (va + k + Z.of_nat (i - Z.to_nat k)) with (va + Z.of_nat i) in Hok2 by lia.
    + destruct Hr as [(-> & Hr)|(-> & Hr & Hno)]; [left; lia|right].
      split; [done|]. split; [lia|].
      by replace (va + Z.of_nat (Z.to_nat k + k2)) with (va + k + Z.of_nat k2) by lia.
Qed.

Lemma copyinstr_page_spec k m p :
  let '(got, bs) := copyinstr_page k m p in
  bs = bytes_at m p (length bs) /\ (length bs <= k)%nat /\
  (if got then exists l, bs = l ++ [0] /\ Forall (fun b => b <> 0) l
   else length bs = k /\ Forall (fun b => b <> 0) bs).
Proof.
  revert p. induction k as [|k IH]; intros p; cbn [copyinstr_page]; [by repeat split|].
  destruct (Z.eqb_spec (rd m p) 0) as [E|Hne].
  - split; [cbn; by rewrite E|]. split; [simpl; lia|]. by exists [].
  - specialize (IH (p + 1)). destruct (copyinstr_page k m (p + 1)) as [got bs].
    destruct IH as (Eb & Hl & Hg). split; [cbn; by rewrite <- Eb|]. split; [simpl; lia|].
    destruct got.
    + destruct Hg as (l & -> & Hl'). exists (rd m p :: l). split; [done|by constructor].
    + destruct Hg as [Hg1 Hg2]. split; [simpl; lia|by constructor].
Qed.

(** What [copyinstr] leaves at [dst] when it stops after [k] bytes. *)
Definition instr_result (m : mem) (pt va max r : Z) (k : nat) : Prop :=
  (r = 0 /\ Z.of_nat k <= max /\ (exists l, ubytes m pt va k = l ++ [0] /\ Forall (fun b => b <> 0) l)) \/
  (r = -1 /\ Forall (fun b => b <> 0) (ubytes m pt va k) /\
     (Z.of_nat k = max \/ (Z.of_nat k < max /\ ~ uok m pt (va + Z.of_nat k)))).

Lemma copyinstr_loop_spec {LO : LayoutOk L} fuel pt n s free va max :
  uspace pt n s free -> 0 <= va -> 0 <= max <= Z.of_nat fuel ->
  exists k r, copyinstr_loop fuel pt va max s = Ok (r, ubytes (k_mem s) pt va k) s /\
    (forall i, (i < k)%nat -> uok (k_mem s) pt (va + Z.of_nat i)) /\
    instr_result (k_mem s) pt va max r k.
Proof.
  revert va max. induction fuel as [|fuel IH]; intros va max U Hva Hf.
  { exists 0%nat, (-1). assert (max = 0) as -> by lia. split; [done|]. split; [lia|].
    right. split; [done|]. split; [constructor|by left]. }
  destruct (decide (max = 0)) as [->|Hl].
  { exists 0%nat, (-1). split; [done|]. split; [lia|].
    right. split; [done|]. split; [constructor|by left]. }
  cbn [copyinstr_loop]. destruct (Z.leb_spec max 0); [lia|].
  rewrite (bind_ok _ _ _ _ _ (walkaddr_eq pt (PGROUNDDOWN va) s (tb_pages _ _ _ (as_table _ _ _ _ (us_space _ _ _ _ U))))).
  destruct (Z.eqb_spec (upage (k_mem s) pt (PGROUNDDOWN va)) 0) as [E|Hne].
  { exists 0%nat, (-1). split; [done|]. split; [lia|]. right. split; [done|]. split; [constructor|].
    right. rewrite Z.add_0_r. split; [lia|]. unfold uok. intros Hn. by apply Hn. }
  assert (Hm : 0 <= va mod PGSIZE < PGSIZE) by (apply Z.mod_pos_bound; by vm_compute).
  assert (Eoff : va - PGROUNDDOWN va = va mod PGSIZE) by (rewrite pgrounddown_eq; lia).
  cbv zeta. set (k := if _ <? _ then _ else _).
  assert (Hk : 0 < k <= max /\ k <= PGSIZE - va mod PGSIZE /\
    (k = max \/ PGROUNDDOWN va + PGSIZE = va + k)).
  { unfold k. rewrite Eoff. destruct (Z.ltb_spec max (PGSIZE - va mod PGSIZE)); lia. }
  destruct Hk as (Hk1 & Hk2 & Hk3). rewrite bind_gets.
  set (pa := upage (k_mem s) pt (PGROUNDDOWN va) + (va - PGROUNDDOWN va)).
  pose proof (copyinstr_page_spec (Z.to_nat k) (k_mem s) pa) as Hp.
  destruct (copyinstr_page (Z.to_nat k) (k_mem s) pa) as [got bs]. destruct Hp as (Eb & Hbl & Hg).
  destruct (ubytes_page pt n s free va (length bs) U Hva Hne) as [Hub Hok]; [lia|].
  fold pa in Hub. rewrite Hub in Eb.
  destruct got.
  { exists (length bs), 0. rewrite <- Eb. split; [done|]. split; [done|]. left.
    split; [done|]. split; [lia|]. by rewrite <- Eb. }
  destruct Hg as [Hbk Hnz].
  destruct (decide (k = max)) as [Ek|Hkne].
  - replace (max - k) with 0 by lia.
    assert (E0 : copyinstr_loop fuel pt (PGROUNDDOWN va + PGSIZE) 0 s = Ok (-1, []) s) by (by destruct fuel).
    rewrite (bind_ok _ _ _ _ _ E0). exists (length bs), (-1). rewrite app_nil_r, <- Eb.
    split; [done|]. split; [done|]. right. rewrite <- Eb. split; [done|]. split; [done|]. left. lia.
  - destruct Hk3 as [?|Hk3]; [lia|]. rewrite Hk3.
    destruct (IH (va + k) (max - k) U) as (k2 & r & E2 & Hok2 & Hr); [lia|lia|].
    rewrite (bind_ok _ _ _ _ _ E2). exists (length bs + k2)%nat, r.
    assert (Hap : ubytes (k_mem s) pt va (length bs + k2) = bs ++ ubytes (k_mem s) pt (va + k) k2).
    { rewrite ubytes_app, <- Eb. do 2 f_equal. lia. }
    rewrite Hap. split; [done|]. split.
    + intros i Hi. destruct (decide (i < length bs)%nat); [by apply Hok|].
      specialize (Hok2 (i - length bs)%nat ltac:(lia)).
      by replace (va + k + Z.of_nat (i - length bs)) with (va + Z.of_nat i) in Hok2 by lia.
    + unfold instr_result. rewrite Hap.
      destruct Hr as [(-> & Hr & l & -> & Hl')|(-> & Hnz2 & Hr)]; [left|right].
      * split; [done|]. split; [lia|]. exists (bs ++ l). rewrite app_assoc. split; [done|].
        by apply Forall_app.
      * split; [done|]. split; [by apply Forall_app|].
        destruct Hr as [Hr|[Hr Hno]]; [left; lia|right]. split; [lia|].
        by replace (va + Z.of_nat (length bs + k2)) with (va + k + Z.of_nat k2) by lia.
Qed.

(** ** The contracts *)

(** [C10] [copyout] is memory safe for every user pointer: it never panics;
    it writes a prefix of [src] to consecutive user addresses that are all
    mapped with PTE_U and changes no other byte of memory; it returns 0
    exactly when all of [src] was written, and -1 when the next address is
    not accessible to the user. *)
Theorem copyout_spec {LO : LayoutOk L} (pt : Z) (n : nat) (s : kstate) (free : list Z)
    (dstva : Z) (src : list Z) :
  uspace pt n s free -> 0 <= dstva ->
  exists k s', uwrite pt n s free dstva src k s' /\
    ((k = length src /\ copyout pt dstva src s = Ok 0 s') \/
     ((k < length src)%nat /\ ~ uok (k_mem s) pt (dstva + Z.of_nat k) /\
        copyout pt dstva src s = Ok (-1) s')).
Proof. intros U H. by apply copyout_loop_spec. Qed.

(** [copyin] of what [copyout] stored gives it back: after a copyout
    that returned 0, copying in the same range returns 0 and the same bytes,
    without any change of state. *)
Theorem copyout_copyin {LO : LayoutOk L} (pt : Z) (n : nat) (s s' : kstate) (free : list Z)
    (va : Z) (src : list Z) :
  uspace pt n s free -> 0 <= va -> Forall (fun b => 0 <= b < 256) src ->
  copyout pt va src s = Ok 0 s' ->
  copyin pt va (Z.of_nat (length src)) s' = Ok (0, src) s'.
Proof.
  intros U Hva Hb E.
  destruct (copyout_loop_spec (length src) pt n s free va src U Hva) as (k & s1 & W & Hr); [lia|].
  unfold copyout in E. destruct Hr as [[-> E']|(_ & _ & E')]; rewrite E' in E; [|discriminate].
  injection E as ->. unfold copyin. rewrite Nat2Z.id.
  destruct (copyin_loop_spec (length src) pt n s' free va (Z.of_nat (length src)))
    as (k & r & -> & _ & Hr); [apply W|done|lia|].
  destruct Hr as [(-> & Hk)|(-> & Hk & Hno)].
  - assert (k = length src) as -> by lia. do 2 f_equal.
    apply list_eq_same_length with (length src); rewrite ?length_ubytes; [done|done|].
    intros i x y Hi. rewrite ubytes_lookup by done. intros [= <-] Hy.
    rewrite (uw_bytes _ _ _ _ _ _ _ _ W i y Hi Hy). apply u8_small.
    rewrite Forall_lookup in Hb. by apply (Hb i).
  - exfalso. apply Hno. rewrite (uok_agree (k_mem s)) by apply W. apply (uw_ok _ _ _ _ _ _ _ _ W). lia.
Qed.

(** [copyinstr] is safe and NUL-correct for every user pointer: it never
    panics and changes nothing; the bytes it stores are consecutive bytes of
    accessible user memory; it returns 0 exactly with a NUL-terminated string
    of at most [max] bytes (NUL included, none before the end); otherwise it
    returns -1, having met no NUL in [max] bytes or before an inaccessible
    address. *)
Theorem copyinstr_spec {LO : LayoutOk L} (pt : Z) (n : nat) (s : kstate) (free : list Z) (srcva max : Z) :
  uspace pt n s free -> 0 <= srcva -> 0 <= max ->
  exists k r, copyinstr pt srcva max s = Ok (r, ubytes (k_mem s) pt srcva k) s /\
    (forall i, (i < k)%nat -> uok (k_mem s) pt (srcva + Z.of_nat i)) /\
    instr_result (k_mem s) pt srcva max r k.
Proof. intros U Hva Hmax. apply (copyinstr_loop_spec _ pt n s free); [done|done|lia]. Qed.

End Copy.

(** ** Witnesses *)

(** A process of one page. *)
Lemma ram12_user :
  exists s pt free, uspace (L := ram12) pt 1 s free /\
    zero_page (k_mem s) pt 0 (Z.lor (Z.lor (Z.lor PTE_R PTE_U) PTE_W) PTE_V).
Proof.
  pose proof ram12_ok as LO. destruct ram12_create as (s0 & pt & f0 & A0 & Hf0 & _ & Ep).
  destruct (uvmalloc_loop_pages (L := ram12) 1 0 0 pt 4096 PTE_W s0 f0 3)
    as (s1 & f1 & [(_ & S1 & _ & Hz)|(_ & Hl & _)]);
    [done|lia|lia|by vm_compute|by vm_compute|by vm_compute|by vm_compute| |lia].
  exists s1, pt, f1. split; [|apply Hz; lia]. split; [apply S1|].
  intros va Hva. rewrite (st_top _ _ _ _ _ _ _ _ S1), Ep by done. reflexivity.
Qed.

(** The bytes of a writable first page are accessible. *)
Lemma first_page_uok {L : Layout} {LO : LayoutOk L} s pt n free va :
  uspace pt n s free -> (1 <= n)%nat ->
  PTE_FLAGS (pte_of 2 (k_mem s) pt 0) = Z.lor (Z.lor (Z.lor PTE_R PTE_U) PTE_W) PTE_V ->
  0 <= va < PGSIZE -> uok (k_mem s) pt va.
Proof.
  intros U Hn Hf Hva.
  assert (E : PGROUNDDOWN va = 0) by (rewrite pgrounddown_eq, Z.mod_small by done; lia).
  set (e := pte_of 2 (k_mem s) pt 0) in *.
  assert (Hv : has_flag e PTE_V = true) by (rewrite has_flag_flags, Hf by (by vm_compute); reflexivity).
  assert (Hu : has_flag e PTE_U = true) by (rewrite has_flag_flags, Hf by (by vm_compute); reflexivity).
  pose proof (uspace_frame_ok _ _ _ _ _ U (page_at_frames (k_mem s) pt 0 n ltac:(lia))) as H%page_ok_pos.
  change (0 < PTE2PA e < 2 ^ 32) in H. unfold uok, upage. rewrite E. fold e. rewrite Hv, Hu.
  destruct (Z.leb_spec MAXVA 0) as [Hc|_]; [rewrite MAXVA_eq in Hc; lia|].
  cbn [andb]. lia.
Qed.

Lemma copyout_spec_witness :
  exists s pt s', copyout pt 10 [104; 105] s = Ok 0 s'.
Proof.
  pose proof ram12_ok as LO. destruct ram12_user as (s & pt & free & U & Hz).
  destruct (copyout_spec (L := ram12) pt 1 s free 10 [104; 105]) as (k & s' & _ & [[_ E]|(Hk & Hno & _)]).
  - exact U.
  - lia.
  - by exists s, pt, s'.
  - exfalso. apply Hno. apply (first_page_uok (L := ram12) s pt 1 free); [done|lia|apply Hz|]. simpl in Hk. unfold PGSIZE. lia.
Defined.

Lemma copyout_copyin_witness :
  exists s pt s', copyin pt 10 2 s' = Ok (0, [104; 105]) s' /\
    copyout pt 10 [104; 105] s = Ok 0 s'.
Proof.
  pose proof ram12_ok as LO. destruct ram12_user as (s & pt & free & U & Hz).
  destruct (copyout_loop_spec (L := ram12) 2 pt 1 s free 10 [104; 105])
    as (k & s' & _ & [[_ E]|(Hk & Hno & _)]); [exact U|lia|simpl; lia| |].
  - exists s, pt, s'. split; [|exact E].
    apply (copyout_copyin (L := ram12) pt 1 s s' free 10 [104; 105]); [exact U|lia| |exact E].
    repeat constructor; lia.
  - exfalso. apply Hno. apply (first_page_uok (L := ram12) s pt 1 free); [done|lia|apply Hz|]. simpl in Hk. unfold PGSIZE. lia.
Defined.

Lemma copyinstr_spec_witness :
  exists s pt k r, copyinstr pt 10 128 s = Ok (r, ubytes (k_mem s) pt 10 k) s.
Proof.
  pose proof ram12_ok as LO. destruct ram12_user as (s & pt & free & U & Hz).
  destruct (copyinstr_spec (L := ram12) pt 1 s free 10 128) as (k & r & E & _); [exact U|lia|lia|].
  by exists s, pt, k, r.
Defined.
