(* ===== verification/Sched.v ===== *)
(** * Process table, sleep and wakeup (kernel/proc.c, first part)

    The parts of proc.c that only look at the process table: [myproc],
    [allocpid], [sched], [sleep], [wakeup], [yield], the scheduler loop,
    [kill], [setkilled], [killed] and the copies to either address space.
    Processes are the indices of [k_procs].

    [sleep] ends the run in [Sleeps] after the switch to the scheduler;
    [sleep_wake] is the code that runs when the process is chosen again. *)

From S2P Require Import Prelude KString KState Riscv Spinlock Kalloc Vm.

(** ** The current process *)

Definition myproc : K (option nat) := gets (fun s => k_cur s).

(** [myproc()], dereferenced by the caller. *)
Definition myproc_ : K nat :=
  let! p := myproc in
  match p with
  | Some i => ret i
  | None => fault "myproc is null"
  end.

(** [proc[i].field = v] *)
Definition proc_set (i : nat) (f : proc -> proc) : K unit := modify (upd_proc i f).

Definition procinit : K unit :=
  modify (fun s => set_k_procs
    (imap (fun i p => set_p_kstack (KSTACK (Z.of_nat i)) (set_p_state UNUSED p)) (k_procs s)) s).

Definition allocpid : K Z :=
  acquire pid_lock ;;;
  let! pid := gets (fun s => k_nextpid s) in
  modify (fun s => set_k_nextpid (s32 (k_nextpid s + 1)) s) ;;;
  release pid_lock ;;;
  ret pid.

(** ** Giving up the CPU *)

(** Holding only the process lock means a nesting depth of one. *)
Definition sched : K unit :=
  let! i := myproc_ in
  let! held := gets (fun s => k_held s) in
  let! st := gets (fun s => p_state (get_proc s i)) in
  if negb (bool_decide (proc_lock i ∈ held)) then panic "sched p->lock"
  else if negb (length held =? 1)%nat then panic "sched locks"
  else if bool_decide (st = RUNNING) then panic "sched running"
  else fun s => Sleeps s.

Definition yield : K unit :=
  let! i := myproc_ in
  acquire (proc_lock i) ;;;
  proc_set i (set_p_state RUNNABLE) ;;;
  sched ;;;
  release (proc_lock i).

Definition sleep (ch : chan) (lk : lock) : K unit :=
  let! i := myproc_ in
  acquire (proc_lock i) ;;;
  release lk ;;;
  proc_set i (set_p_chan (Some ch)) ;;;
  proc_set i (set_p_state SLEEPING) ;;;
  sched.

(** The rest of [sleep], after [sched] has returned. *)
Definition sleep_wake (lk : lock) : K unit :=
  let! i := myproc_ in
  proc_set i (set_p_chan None) ;;;
  release (proc_lock i) ;;;
  acquire lk.

Fixpoint wakeup_loop (ix : list nat) (ch : chan) : K unit :=
  match ix with
  | [] => ret tt
  | i :: ix =>
      let! me := myproc in
      (if bool_decide (me = Some i) then ret tt
       else
         acquire (proc_lock i) ;;;
         let! p := gets (fun s => get_proc s i) in
         (if bool_decide (p_state p = SLEEPING) && bool_decide (p_chan p = Some ch)
          then proc_set i (set_p_state RUNNABLE) else ret tt) ;;;
         release (proc_lock i)) ;;;
      wakeup_loop ix ch
  end.

Definition wakeup (ch : chan) : K unit := wakeup_loop (seq 0 NPROC) ch.

(** ** The scheduler *)

(** One round over the table, up to the switch to the first runnable
    process; the round goes on after it. *)
Fixpoint scheduler_scan (ix : list nat) : K (option nat) :=
  match ix with
  | [] => ret None
  | i :: ix =>
      acquire (proc_lock i) ;;;
      let! st := gets (fun s => p_state (get_proc s i)) in
      if bool_decide (st = RUNNABLE) then
        proc_set i (set_p_state RUNNING) ;;;
        modify (set_k_cur (Some i)) ;;;
        ret (Some i)
      else
        release (proc_lock i) ;;;
        scheduler_scan ix
  end.

(** The process [i] has switched back. *)
Definition scheduler_back (i : nat) : K unit :=
  modify (set_k_cur None) ;;;
  release (proc_lock i).

(** ** Killing *)

Fixpoint kill_loop (ix : list nat) (pid : Z) : K Z :=
  match ix with
  | [] => ret (-1)
  | i :: ix =>
      acquire (proc_lock i) ;;;
      let! p := gets (fun s => get_proc s i) in
      if p_pid p =? pid then
        proc_set i (set_p_killed 1) ;;;
        (if bool_decide (p_state p = SLEEPING) then proc_set i (set_p_state RUNNABLE) else ret tt) ;;;
        release (proc_lock i) ;;;
        ret 0
      else
        release (proc_lock i) ;;;
        kill_loop ix pid
  end.

Definition kill (pid : Z) : K Z := kill_loop (seq 0 NPROC) pid.

Definition setkilled (i : nat) : K unit :=
  acquire (proc_lock i) ;;;
  proc_set i (set_p_killed 1) ;;;
  release (proc_lock i).

Definition killed (i : nat) : K Z :=
  acquire (proc_lock i) ;;;
  let! k := gets (fun s => p_killed (get_proc s i)) in
  release (proc_lock i) ;;;
  ret k.

(** ** Copies to either address space *)

(** Where a copy goes: a user address, or a buffer of the kernel that the
    caller holds as a list of bytes. *)
Inductive dest : Type := user_dst (va : Z) | kernel_dst.
Inductive source : Type := user_src (va : Z) | kernel_src (bs : list Z).

(** The bytes [src]; with [kernel_dst] the caller appends them to its
    buffer. *)
Definition either_copyout (dst : dest) (src : list Z) : K Z :=
  match dst with
  | user_dst va =>
      let! i := myproc_ in
      let! pt := gets (fun s => p_pagetable (get_proc s i)) in
      copyout pt va src
  | kernel_dst => ret 0
  end.

(** The status and the [len] bytes. *)
Definition either_copyin (src : source) (len : Z) : K (Z * list Z) :=
  match src with
  | user_src va =>
      let! i := myproc_ in
      let! pt := gets (fun s => p_pagetable (get_proc s i)) in
      copyin pt va len
  | kernel_src bs => ret (0, take (Z.to_nat len) bs)
  end.

(** ** Critical sections *)

Lemma bind_acquire {B} l (k : K B) s :
  (l ∉ k_held s) -> (acquire l ;;; k) s = k (set_k_held (l :: k_held s) s).
Proof. intros H. by rewrite (bind_ok _ _ _ _ _ (acquire_ok l s H)). Qed.

Lemma bind_release {B} l h (k : K B) s :
  k_held s = l :: h -> (l ∉ h) -> (release l ;;; k) s = k (set_k_held h s).
Proof. intros H Hn. by rewrite (bind_ok _ _ _ _ _ (release_ok l h s H Hn)). Qed.

Lemma set_k_held_id s : set_k_held (k_held s) s = s.
Proof. reflexivity. Qed.

(** ** [wakeup] *)

(** What [wakeup] does to process [i]. *)
Definition wake (ch : chan) (p : proc) : proc :=
  if bool_decide (p_state p = SLEEPING) && bool_decide (p_chan p = Some ch)
  then set_p_state RUNNABLE p else p.

Definition wake1 (ch : chan) (s : kstate) (i : nat) : kstate :=
  if bool_decide (k_cur s = Some i) then s else upd_proc i (wake ch) s.

(** No process lock is held but possibly that of the current process. *)
Definition no_proc_lock (s : kstate) : Prop :=
  forall i, k_cur s <> Some i -> proc_lock i ∉ k_held s.

Lemma upd_proc_id s i f : f (get_proc s i) = get_proc s i -> upd_proc i f s = s.
Proof.
  intros H. unfold upd_proc. replace (alter f i (k_procs s)) with (k_procs s); [reflexivity|].
  apply list_eq. intros j. destruct (decide (i = j)) as [<-|Hne].
  - rewrite list_lookup_alter_eq. unfold get_proc in H.
    destruct (k_procs s !! i) as [p|]; [|done]. simpl in *. by rewrite H.
  - by rewrite list_lookup_alter_ne.
Qed.

Lemma wakeup_loop_eq ix ch s :
  no_proc_lock s -> wakeup_loop ix ch s = Ok tt (foldl (wake1 ch) s ix).
Proof.
  revert s. induction ix as [|i ix IH]; intros s Hl; [done|].
  cbn [wakeup_loop foldl]. unfold myproc. rewrite bind_gets. unfold wake1 at 2.
  destruct (bool_decide_reflect (k_cur s = Some i)) as [E|Hne].
  { rewrite bind_ret. by apply IH. }
  assert (Hn : proc_lock i ∉ k_held s) by (by apply Hl).
  assert (E : (acquire (proc_lock i) ;;;
     let! p := gets (fun s => get_proc s i) in
     (if bool_decide (p_state p = SLEEPING) && bool_decide (p_chan p = Some ch)
      then proc_set i (set_p_state RUNNABLE) else ret tt) ;;;
     release (proc_lock i)) s = Ok tt (upd_proc i (wake ch) s)).
  { rewrite bind_acquire, bind_gets by done.
    set (s1 := set_k_held _ s). assert (G : get_proc s1 i = get_proc s i) by done. rewrite G.
    destruct (_ && _) eqn:Eb.
    - unfold proc_set. rewrite bind_modify. rewrite (release_ok _ (k_held s)) by done.
      f_equal. change (set_k_held (k_held s) (upd_proc i (set_p_state RUNNABLE) s1))
        with (upd_proc i (set_p_state RUNNABLE) s).
      unfold upd_proc. f_equal. apply list_eq. intros j.
      destruct (decide (i = j)) as [<-|Hij]; [|by rewrite !list_lookup_alter_ne].
      rewrite !list_lookup_alter_eq. unfold get_proc in Eb.
      destruct (k_procs s !! i) as [p|]; [|done]. simpl in *. unfold wake. by rewrite Eb.
    - rewrite bind_ret, (release_ok _ (k_held s)) by done. f_equal.
      change (set_k_held (k_held s) s1) with s. symmetry. apply upd_proc_id. unfold wake. by rewrite Eb. }
  rewrite (bind_ok _ _ _ _ _ E). apply IH. exact Hl.
Qed.

Lemma wake1_frame ch s i :
  wake1 ch s i = set_k_procs (k_procs (wake1 ch s i)) s.
Proof. unfold wake1. by case_bool_decide. Qed.

Lemma foldl_wake1_frame ch ix s :
  foldl (wake1 ch) s ix = set_k_procs (k_procs (foldl (wake1 ch) s ix)) s.
Proof.
  revert s. induction ix as [|i ix IH]; intros s; [done|]. cbn [foldl].
  rewrite IH at 1. rewrite wake1_frame at 2. done.
Qed.

(** The processes after [wakeup]. *)
Lemma foldl_wake1_lookup ch ix s j :
  NoDup ix ->
  k_procs (foldl (wake1 ch) s ix) !! j =
  if bool_decide (j ∈ ix) && negb (bool_decide (k_cur s = Some j))
  then wake ch <$> k_procs s !! j else k_procs s !! j.
Proof.
  revert s. induction ix as [|i ix IH]; intros s Hnd; [done|].
  apply NoDup_cons in Hnd as [Hi Hnd]. cbn [foldl]. rewrite IH by done.
  assert (Hc : k_cur (wake1 ch s i) = k_cur s) by (by rewrite wake1_frame). rewrite Hc.
  unfold wake1. destruct (decide (i = j)) as [<-|Hne].
  - rewrite (bool_decide_eq_false_2 (i ∈ ix)) by done. rewrite (bool_decide_eq_true_2 (i ∈ i :: ix)) by left.
    cbn [andb]. destruct (bool_decide_reflect (k_cur s = Some i)); cbn [negb]; [done|]. unfold upd_proc. cbn [k_procs set_k_procs].
    by rewrite list_lookup_alter_eq.
  - replace (bool_decide (j ∈ i :: ix)) with (bool_decide (j ∈ ix))
      by (apply bool_decide_ext; rewrite elem_of_cons; split; [tauto|by intros [->|?]]).
    destruct (bool_decide_reflect (k_cur s = Some i)); [done|]. unfold upd_proc. cbn [k_procs set_k_procs].
    by rewrite list_lookup_alter_ne.
Qed.

(** The state after a wakeup. *)
Definition wake_all (ch : chan) (s : kstate) : kstate :=
  set_k_procs (imap (fun i p => if bool_decide (k_cur s = Some i) then p else wake ch p) (k_procs s)) s.

(** All of it: exactly the processes asleep on [ch] (the caller apart)
    become runnable. *)
Lemma wakeup_eq ch s :
  length (k_procs s) = NPROC -> no_proc_lock s ->
  wakeup ch s = Ok tt (wake_all ch s).
Proof.
  intros Hlen Hl. unfold wakeup, wake_all. rewrite wakeup_loop_eq by done. f_equal.
  rewrite foldl_wake1_frame. f_equal. apply list_eq. intros j.
  rewrite foldl_wake1_lookup, list_lookup_imap by apply NoDup_seq.
  destruct (k_procs s !! j) as [p|] eqn:E; simpl; [|by destruct (_ && _)].
  apply lookup_lt_Some in E. rewrite Hlen in E.
  rewrite (bool_decide_eq_true_2 (j ∈ seq 0 NPROC)) by (apply elem_of_seq; lia). cbn [andb].
  by case_bool_decide.
Qed.

(** ** [sleep], and back *)

(** What [sleep] leaves behind: the process marked asleep, its own lock the
    only one held. *)
Definition asleep (ch : chan) (i : nat) (s : kstate) : kstate :=
  set_k_held [proc_lock i]
    (upd_proc i (fun p => set_p_state SLEEPING (set_p_chan (Some ch) p)) s).

Lemma upd_proc_upd_proc i f g s : upd_proc i f (upd_proc i g s) = upd_proc i (fun p => f (g p)) s.
Proof.
  unfold upd_proc. cbn [k_procs set_k_procs]. rewrite set_k_procs_procs. f_equal.
  apply list_eq. intros j.
  destruct (decide (i = j)) as [<-|Hne]; [|by rewrite !list_lookup_alter_ne].
  rewrite !list_lookup_alter_eq. by destruct (k_procs s !! i).
Qed.

Lemma bind_myproc_ {B} (k : nat -> K B) i s : k_cur s = Some i -> (let! p := myproc_ in k p) s = k i s.
Proof.
  intros H. assert (E : myproc_ s = Ok i s) by (unfold myproc_, myproc; rewrite bind_gets, H; reflexivity).
  by rewrite (bind_ok _ _ _ _ _ E).
Qed.

Lemma bind_proc_set {B} i f (k : K B) s : (proc_set i f ;;; k) s = k (upd_proc i f s).
Proof. reflexivity. Qed.

Lemma get_proc_held h s i : get_proc (set_k_held h s) i = get_proc s i.
Proof. reflexivity. Qed.

Lemma sched_ok i s :
  k_cur s = Some i -> k_held s = [proc_lock i] -> p_state (get_proc s i) <> RUNNING ->
  sched s = Sleeps s.
Proof.
  intros Hc Hh Hs. unfold sched. rewrite (bind_myproc_ _ i) by done. rewrite !bind_gets.
  rewrite Hh. rewrite bool_decide_eq_true_2 by left. cbn [negb length Nat.eqb].
  by rewrite bool_decide_eq_false_2.
Qed.

Lemma sleep_eq ch lk i s :
  k_cur s = Some i -> k_held s = [lk] -> lk <> proc_lock i -> (i < length (k_procs s))%nat ->
  sleep ch lk s = Sleeps (asleep ch i s).
Proof.
  intros Hc Hh Hne Hi. unfold sleep. rewrite (bind_myproc_ _ i) by done.
  rewrite bind_acquire by (rewrite Hh, list_elem_of_singleton; congruence). rewrite Hh.
  assert (Hr : release lk (set_k_held [proc_lock i; lk] s) = Ok tt (set_k_held [proc_lock i] s)).
  { unfold release. cbn [k_held set_k_held]. rewrite decide_True by (right; left). cbn [remove].
    destruct (lock_eq_dec lk (proc_lock i)); [done|]. by destruct (lock_eq_dec lk lk). }
  rewrite (bind_ok _ _ _ _ _ Hr), bind_proc_set, bind_proc_set, upd_proc_upd_proc.
  change (upd_proc i ?f (set_k_held ?h s)) with (set_k_held h (upd_proc i f s)).
  apply (sched_ok i); [done|done|].
  unfold asleep. rewrite get_proc_held. by rewrite get_upd_same.
Qed.


(** ** The scheduler *)

Lemma scheduler_scan_pick i ix s :
  (proc_lock i ∉ k_held s) -> p_state (get_proc s i) = RUNNABLE ->
  scheduler_scan (i :: ix) s =
  Ok (Some i) (set_k_cur (Some i) (set_k_held (proc_lock i :: k_held s) (upd_proc i (set_p_state RUNNING) s))).
Proof.
  intros Hl Hs. cbn [scheduler_scan]. rewrite bind_acquire, bind_gets, get_proc_held by done.
  by rewrite bool_decide_eq_true_2.
Qed.

Lemma scheduler_scan_skip i ix s :
  (proc_lock i ∉ k_held s) -> p_state (get_proc s i) <> RUNNABLE ->
  scheduler_scan (i :: ix) s = scheduler_scan ix s.
Proof.
  intros Hl Hs. cbn [scheduler_scan]. rewrite bind_acquire, bind_gets, get_proc_held by done.
  rewrite bool_decide_eq_false_2 by done.
  by rewrite (bind_release _ (k_held s)) by done.
Qed.

Lemma scheduler_scan_spec ix s :
  (forall i, i ∈ ix -> proc_lock i ∉ k_held s) ->
  (scheduler_scan ix s = Ok None s /\ forall i, i ∈ ix -> p_state (get_proc s i) <> RUNNABLE) \/
  (exists i ix1 ix2, ix = ix1 ++ i :: ix2 /\ p_state (get_proc s i) = RUNNABLE /\
     (forall j, j ∈ ix1 -> p_state (get_proc s j) <> RUNNABLE) /\
     scheduler_scan ix s = Ok (Some i)
       (set_k_cur (Some i) (set_k_held (proc_lock i :: k_held s) (upd_proc i (set_p_state RUNNING) s)))).
Proof.
  induction ix as [|i ix IH]; intros Hl.
  { left. split; [done|]. intros i Hi. by apply not_elem_of_nil in Hi. }
  destruct (decide (p_state (get_proc s i) = RUNNABLE)) as [Hs|Hs].
  - right. exists i, [], ix. split; [done|]. split; [done|]. split.
    + intros j Hj. by apply not_elem_of_nil in Hj.
    + apply scheduler_scan_pick; [apply Hl; left|done].
  - rewrite scheduler_scan_skip by (done || apply Hl; left).
    destruct IH as [[E H]|(j & ix1 & ix2 & -> & H1 & H2 & E)]; [intros j Hj; apply Hl; by right|left|right].
    + split; [done|]. intros j [->|Hj]%elem_of_cons; auto.
    + exists j, (i :: ix1), ix2. split; [done|]. split; [done|]. split; [|done].
      intros x [->|Hx]%elem_of_cons; auto.
Qed.

(** ** [kill] *)

(** What [kill] does to its victim. *)
Definition kill1 (p : proc) : proc :=
  let p := set_p_killed 1 p in
  if bool_decide (p_state p = SLEEPING) then set_p_state RUNNABLE p else p.

Lemma kill_loop_spec ix pid s :
  (forall i, i ∈ ix -> (i < length (k_procs s))%nat /\ proc_lock i ∉ k_held s) ->
  (kill_loop ix pid s = Ok (-1) s /\ forall i, i ∈ ix -> p_pid (get_proc s i) <> pid) \/
  (exists i ix1 ix2, ix = ix1 ++ i :: ix2 /\ p_pid (get_proc s i) = pid /\
     (forall j, j ∈ ix1 -> p_pid (get_proc s j) <> pid) /\
     kill_loop ix pid s = Ok 0 (upd_proc i kill1 s)).
Proof.
  induction ix as [|i ix IH]; intros Hl.
  { left. split; [done|]. intros i Hi. by apply not_elem_of_nil in Hi. }
  destruct (Hl i ltac:(left)) as [Hi Hli].
  cbn [kill_loop]. rewrite bind_acquire, bind_gets, get_proc_held by done.
  destruct (Z.eqb_spec (p_pid (get_proc s i)) pid) as [E|Hne].
  - right. exists i, [], ix. split; [done|]. split; [done|]. split.
    { intros j Hj. by apply not_elem_of_nil in Hj. }
    rewrite bind_proc_set.
    assert (Hu : forall f, (forall p, p = get_proc s i -> f (set_p_killed 1 p) = kill1 p) ->
      upd_proc i f (upd_proc i (set_p_killed 1) s) = upd_proc i kill1 s).
    { intros f Hf. rewrite upd_proc_upd_proc. unfold upd_proc. f_equal. apply list_eq. intros j.
      destruct (decide (i = j)) as [<-|]; [|by rewrite !list_lookup_alter_ne].
      rewrite !list_lookup_alter_eq. unfold get_proc in Hf.
      destruct (k_procs s !! i) as [p|]; [|done]. simpl in *. by rewrite Hf. }
    change (upd_proc i (set_p_killed 1) (set_k_held ?h s)) with (set_k_held h (upd_proc i (set_p_killed 1) s)).
    case_bool_decide as Hs.
    + rewrite bind_proc_set. rewrite (bind_release _ (k_held s)) by done.
      unfold ret. f_equal. rewrite <- (Hu (set_p_state RUNNABLE)); [reflexivity|].
      intros p ->. unfold kill1. cbn zeta. by rewrite bool_decide_eq_true_2.
    + rewrite bind_ret. rewrite (bind_release _ (k_held s)) by done.
      unfold ret. f_equal. rewrite <- (Hu id); [|intros p ->; unfold kill1; cbn zeta; by rewrite bool_decide_eq_false_2].
      by rewrite (upd_proc_id _ i id).
  - rewrite (bind_release _ (k_held s)) by done.
    destruct IH as [[E H]|(j & ix1 & ix2 & -> & H1 & H2 & E)]; [intros j Hj; apply Hl; by right|left|right].
    + split; [done|]. intros j [->|Hj]%elem_of_cons; auto.
    + exists j, (i :: ix1), ix2. split; [done|]. split; [done|]. split; [|done].
      intros x [->|Hx]%elem_of_cons; auto.
Qed.

(** ** The contracts *)

(** [wakeup] makes runnable exactly the processes that sleep on the
    channel (the caller apart) and changes nothing else; afterwards none of
    them sleeps on it.  Called without any process lock, as its comment asks,
    it never panics. *)
Theorem wakeup_spec (ch : chan) (s : kstate) :
  length (k_procs s) = NPROC -> no_proc_lock s ->
  exists s', wakeup ch s = Ok tt s' /\ s' = set_k_procs (k_procs s') s /\
    length (k_procs s') = NPROC /\
    forall i p, k_procs s !! i = Some p ->
      k_procs s' !! i = Some (if decide (p_state p = SLEEPING /\ p_chan p = Some ch /\ k_cur s <> Some i)
                              then set_p_state RUNNABLE p else p).
Proof.
  intros Hlen Hl. eexists. split; [by apply wakeup_eq|]. split; [done|].
  unfold wake_all. cbn [k_procs set_k_procs]. split; [by rewrite length_imap|].
  intros i p Hp. rewrite list_lookup_imap, Hp. cbn [fmap option_fmap option_map]. f_equal.
  unfold wake. repeat case_bool_decide; repeat case_decide; simpl; try done; intuition congruence.
Qed.

(** [sleep] and back: a process that holds only [lk] and calls
    [sleep(ch, lk)] is switched out marked asleep on [ch] with [lk] released;
    once another process has called [wakeup(ch)] and the scheduler reaches
    it, [sleep] returns with [lk] (and no other lock) held again, the process
    running, off its channel, and otherwise as it was. *)
Theorem sleep_wakeup_cycle (ch : chan) (lk : lock) (i j : nat) (ix : list nat) (s : kstate) :
  k_cur s = Some i -> k_held s = [lk] -> (forall x, lk <> proc_lock x) ->
  (i < NPROC)%nat -> i <> j -> length (k_procs s) = NPROC ->
  exists s1 s2 s3 s4 s5,
    sleep ch lk s = Sleeps s1 /\ p_state (get_proc s1 i) = SLEEPING /\
    scheduler_back i s1 = Ok tt s2 /\ k_held s2 = [] /\
    wakeup ch (set_k_cur (Some j) s2) = Ok tt s3 /\
    scheduler_scan (i :: ix) (set_k_cur None s3) = Ok (Some i) s4 /\
    sleep_wake lk s4 = Ok tt s5 /\ k_held s5 = [lk] /\ k_cur s5 = Some i /\
    get_proc s5 i = set_p_state RUNNING (set_p_chan None (get_proc s i)).
Proof.
  intros Hc Hh Hlk Hi Hij Hlen. set (s1 := asleep ch i s).
  assert (Hi1 : (i < length (k_procs s))%nat) by lia.
  assert (G1 : get_proc s1 i = set_p_state SLEEPING (set_p_chan (Some ch) (get_proc s i))).
  { unfold s1, asleep. rewrite get_proc_held. by rewrite get_upd_same. }
  assert (Hlen1 : length (k_procs s1) = NPROC).
  { unfold s1, asleep. cbn [k_procs set_k_held]. by rewrite length_upd_proc. }
  assert (E1 : sleep ch lk s = Sleeps s1) by (by apply sleep_eq).
  assert (Hh1 : k_held s1 = [proc_lock i]) by done. clearbody s1.
  set (s2 := set_k_held [] (set_k_cur None s1)).
  assert (E2 : scheduler_back i s1 = Ok tt s2).
  { unfold scheduler_back. rewrite bind_modify.
    by rewrite (release_ok _ []) by (by rewrite <- ?Hh1 || apply not_elem_of_nil). }
  set (s2j := set_k_cur (Some j) s2).
  assert (E3 := wakeup_eq ch s2j Hlen1 ltac:(intros x _; apply not_elem_of_nil)).
  set (s3 := wake_all ch s2j) in E3.
  assert (G3 : get_proc s3 i = set_p_state RUNNABLE (set_p_chan (Some ch) (get_proc s i))).
  { unfold get_proc, s3, wake_all. cbn [k_procs set_k_procs]. rewrite list_lookup_imap.
    unfold get_proc at 1 in G1. change (k_procs s2j) with (k_procs s1).
    destruct (lookup_lt_is_Some_2 (k_procs s1) i) as [p Hp]; [lia|].
    rewrite Hp in G1 |- *. simpl in G1. subst p. cbn [fmap option_fmap option_map default].
    rewrite bool_decide_eq_false_2 by (cbn; congruence). unfold wake.
    rewrite !bool_decide_eq_true_2 by reflexivity. reflexivity. }
  assert (Hlen3 : length (k_procs s3) = NPROC).
  { unfold s3, wake_all. cbn [k_procs set_k_procs]. by rewrite length_imap. }
  assert (Hh3 : k_held s3 = []) by done. clearbody s3.
  set (s4 := set_k_cur (Some i) (set_k_held [proc_lock i] (upd_proc i (set_p_state RUNNING) s3))).
  assert (E4 : scheduler_scan (i :: ix) (set_k_cur None s3) = Ok (Some i) s4).
  { rewrite scheduler_scan_pick.
    - change (k_held (set_k_cur None s3)) with (k_held s3). by rewrite Hh3.
    - change (k_held (set_k_cur None s3)) with (k_held s3). rewrite Hh3. apply not_elem_of_nil.
    - change (get_proc (set_k_cur None s3) i) with (get_proc s3 i). by rewrite G3. }
  assert (G4 : get_proc s4 i = set_p_state RUNNING (get_proc s3 i)).
  { change (get_proc s4 i) with (get_proc (upd_proc i (set_p_state RUNNING) s3) i).
    rewrite get_upd_same; [done|lia]. }
  set (s5 := set_k_held [lk] (upd_proc i (set_p_chan None) s4)).
  exists s1, s2, s3, s4, s5. rewrite G1.
  do 6 (split; [done|]). split; [|split; [done|split; [done|]]].
  - unfold sleep_wake. rewrite (bind_myproc_ _ i) by done. rewrite bind_proc_set.
    rewrite (bind_release _ []) by (done || apply not_elem_of_nil).
    rewrite acquire_ok by apply not_elem_of_nil. reflexivity.
  - unfold s5. rewrite get_proc_held, get_upd_same, G4, G3; [reflexivity|].
    unfold s4. cbn [k_procs set_k_cur set_k_held]. rewrite length_upd_proc. lia.
Qed.

(** [kill] marks the first process with the given pid as killed, making
    it runnable if it sleeps, and returns 0; it returns -1 without any change
    exactly when no entry of the table has that pid. *)
Theorem kill_spec (pid : Z) (s : kstate) :
  length (k_procs s) = NPROC -> (forall i, proc_lock i ∉ k_held s) ->
  (kill pid s = Ok (-1) s /\ forall i, (i < NPROC)%nat -> p_pid (get_proc s i) <> pid) \/
  (exists i, (i < NPROC)%nat /\ p_pid (get_proc s i) = pid /\
     (forall j, (j < i)%nat -> p_pid (get_proc s j) <> pid) /\
     exists s', kill pid s = Ok 0 s' /\ s' = set_k_procs (k_procs s') s /\
       p_killed (get_proc s' i) = 1 /\ p_state (get_proc s' i) <> SLEEPING /\
       (forall j, j <> i -> get_proc s' j = get_proc s j)).
Proof.
  intros Hlen Hl. unfold kill. destruct (kill_loop_spec (seq 0 NPROC) pid s) as [[E H]|(i & ix1 & ix2 & E & Hp & Hb & Er)].
  { intros i Hi%elem_of_seq. split; [lia|apply Hl]. }
  - left. split; [done|]. intros i Hi. apply H. apply elem_of_seq. lia.
  - right. exists i. assert (Hi : (i < NPROC)%nat).
    { assert (i ∈ seq 0 NPROC) as H%elem_of_seq; [|lia]. rewrite E, elem_of_app, elem_of_cons. tauto. }
    split; [done|]. split; [done|]. split.
    + intros j Hj. apply Hb. assert (Hjin : j ∈ seq 0 NPROC) by (apply elem_of_seq; lia).
      assert (Hix1 : i = length ix1).
      { assert (Hk : seq 0 NPROC !! length ix1 = Some i) by (rewrite E, lookup_app_r, Nat.sub_diag by lia; done).
        apply lookup_seq in Hk. lia. }
      assert (Hj1 : seq 0 NPROC !! j = Some j) by (by rewrite lookup_seq_lt by lia).
      rewrite E, lookup_app_l in Hj1 by lia. by eapply list_elem_of_lookup_2.
    + exists (upd_proc i kill1 s). split; [done|]. split; [done|].
      rewrite get_upd_same by lia. split; [|split].
      * unfold kill1. cbn zeta. by case_bool_decide.
      * unfold kill1. cbn zeta. by case_bool_decide.
      * intros j Hj. by rewrite get_upd_other.
Qed.

(** ** Witnesses *)

(** Process 1 runs, process 0 sleeps on the clock. *)
Definition two_procs : kstate :=
  set_k_cur (Some 1%nat)
    (upd_proc 0 (fun p => set_p_pid 7 (set_p_chan (Some ch_ticks) (set_p_state SLEEPING p))) kstate_zero).

Lemma wakeup_spec_witness :
  exists s', wakeup ch_ticks two_procs = Ok tt s' /\ p_state (get_proc s' 0) = RUNNABLE.
Proof.
  destruct (wakeup_spec ch_ticks two_procs) as (s' & E & _ & _ & H).
  - reflexivity.
  - intros i _. apply not_elem_of_nil.
  - exists s'. split; [exact E|]. unfold get_proc. rewrite (H 0%nat _ eq_refl). reflexivity.
Defined.

Lemma sleep_wakeup_cycle_witness :
  exists s1, sleep ch_ticks tickslock (set_k_held [tickslock] two_procs) = Sleeps s1.
Proof.
  destruct (sleep_wakeup_cycle ch_ticks tickslock 1 2 [] (set_k_held [tickslock] two_procs))
    as (s1 & _ & _ & _ & _ & E & _).
  - reflexivity.
  - reflexivity.
  - intros x. discriminate.
  - unfold NPROC. lia.
  - lia.
  - reflexivity.
  - by exists s1.
Defined.

Lemma kill_spec_witness :
  exists s', kill 7 two_procs = Ok 0 s'.
Proof.
  destruct (kill_spec 7 two_procs) as [[_ H]|(i & _ & _ & _ & s' & E & _)].
  - reflexivity.
  - intros i. apply not_elem_of_nil.
  - exfalso. apply (H 0%nat); [unfold NPROC; lia|reflexivity].
  - by exists s'.
Defined.
