(* ===== verification/SleepWake.v ===== *)
(** * No lost wakeups

    [sleep] and [wakeup] of kernel/proc.c, with their callers, on any number
    of CPUs: every step is one atomic action, ordered only by the locks.
    A consumer takes the lock [lk], and while its condition does not hold
    calls [sleep(ch, lk)]; a producer takes [lk], makes the condition true,
    calls [wakeup(ch)] and releases [lk].  This is how the pipe, the console,
    the disk driver, the log, sleep locks, [wait] and [sys_sleep] use the two
    functions.  A process may also be woken by [kill] for no reason. *)

From S2P Require Import Prelude KState.

(** Where a process is in the protocol. *)
Inductive wpc : Type :=
| Away                  (* not in the protocol *)
| Test                  (* consumer, holds [lk]: the [while] test *)
| SleepEnter            (* in [sleep], holds [lk]: [acquire(&p->lock)] *)
| SleepRelease          (* holds [lk] and [p->lock]: [release(lk)] *)
| SleepMark             (* holds [p->lock]: [p->chan = chan; p->state = SLEEPING] *)
| SleepSwitch           (* holds [p->lock]: [sched()] *)
| Off                   (* switched out, the scheduler has released [p->lock] *)
| SleepTidy             (* switched in, holds [p->lock]: [p->chan = 0; release(&p->lock)] *)
| SleepReacquire        (* [acquire(lk)] *)
| Produce               (* producer, holds [lk]: make the condition true *)
| Scan (i : nat)        (* in [wakeup], holds [lk]: next process is [i] *)
| ScanIn (i : nat)      (* holds [lk] and the lock of process [i] *)
| Leave.                (* holds [lk]: [release(lk)] *)

Record world : Type := mkWorld {
  w_lk : option nat ;            (* owner of [lk] *)
  w_plock : nat -> option nat ;  (* owner of each [p->lock] *)
  w_cond : bool ;                (* the condition, protected by [lk] *)
  w_state : nat -> procstate ;
  w_chan : nat -> bool ;         (* [p->chan == ch] *)
  w_pc : nat -> wpc
}.

Definition put {A} (f : nat -> A) (i : nat) (v : A) : nat -> A :=
  fun j => if decide (i = j) then v else f j.

(** One action of process [p]; there are [n] processes. *)
Inductive wstep (n p : nat) (w : world) : world -> Prop :=
| st_consume_begin :
    w_pc w p = Away -> w_lk w = None ->
    wstep n p w (mkWorld (Some p) (w_plock w) (w_cond w) (w_state w) (w_chan w) (put (w_pc w) p Test))
| st_test_true :
    w_pc w p = Test -> w_cond w = true ->
    wstep n p w (mkWorld None (w_plock w) false (w_state w) (w_chan w) (put (w_pc w) p Away))
| st_test_false :
    w_pc w p = Test -> w_cond w = false ->
    wstep n p w (mkWorld (w_lk w) (w_plock w) (w_cond w) (w_state w) (w_chan w)
      (put (w_pc w) p SleepEnter))
| st_sleep_acquire :
    w_pc w p = SleepEnter -> w_plock w p = None ->
    wstep n p w (mkWorld (w_lk w) (put (w_plock w) p (Some p)) (w_cond w) (w_state w) (w_chan w)
      (put (w_pc w) p SleepRelease))
| st_sleep_release :
    w_pc w p = SleepRelease ->
    wstep n p w (mkWorld None (w_plock w) (w_cond w) (w_state w) (w_chan w) (put (w_pc w) p SleepMark))
| st_sleep_mark :
    w_pc w p = SleepMark ->
    wstep n p w (mkWorld (w_lk w) (w_plock w) (w_cond w) (put (w_state w) p SLEEPING)
      (put (w_chan w) p true) (put (w_pc w) p SleepSwitch))
| st_sleep_switch :
    w_pc w p = SleepSwitch ->
    wstep n p w (mkWorld (w_lk w) (put (w_plock w) p None) (w_cond w) (w_state w) (w_chan w)
      (put (w_pc w) p Off))
| st_scheduled :
    w_pc w p = Off -> w_state w p = RUNNABLE -> w_plock w p = None ->
    wstep n p w (mkWorld (w_lk w) (put (w_plock w) p (Some p)) (w_cond w) (put (w_state w) p RUNNING)
      (w_chan w) (put (w_pc w) p SleepTidy))
| st_sleep_tidy :
    w_pc w p = SleepTidy ->
    wstep n p w (mkWorld (w_lk w) (put (w_plock w) p None) (w_cond w) (w_state w)
      (put (w_chan w) p false) (put (w_pc w) p SleepReacquire))
| st_sleep_reacquire :
    w_pc w p = SleepReacquire -> w_lk w = None ->
    wstep n p w (mkWorld (Some p) (w_plock w) (w_cond w) (w_state w) (w_chan w) (put (w_pc w) p Test))
| st_produce_begin :
    w_pc w p = Away -> w_lk w = None ->
    wstep n p w (mkWorld (Some p) (w_plock w) (w_cond w) (w_state w) (w_chan w) (put (w_pc w) p Produce))
| st_produce :
    w_pc w p = Produce ->
    wstep n p w (mkWorld (w_lk w) (w_plock w) true (w_state w) (w_chan w) (put (w_pc w) p (Scan 0)))
| st_scan_self :
    w_pc w p = Scan p -> (p < n)%nat ->
    wstep n p w (mkWorld (w_lk w) (w_plock w) (w_cond w) (w_state w) (w_chan w) (put (w_pc w) p (Scan (S p))))
| st_scan_acquire i :
    w_pc w p = Scan i -> (i < n)%nat -> i <> p -> w_plock w i = None ->
    wstep n p w (mkWorld (w_lk w) (put (w_plock w) i (Some p)) (w_cond w) (w_state w) (w_chan w)
      (put (w_pc w) p (ScanIn i)))
| st_scan_wake i :
    w_pc w p = ScanIn i ->
    wstep n p w (mkWorld (w_lk w) (put (w_plock w) i None) (w_cond w)
      (if bool_decide (w_state w i = SLEEPING) && w_chan w i
       then put (w_state w) i RUNNABLE else w_state w)
      (w_chan w) (put (w_pc w) p (Scan (S i))))
| st_scan_end :
    w_pc w p = Scan n ->
    wstep n p w (mkWorld (w_lk w) (w_plock w) (w_cond w) (w_state w) (w_chan w) (put (w_pc w) p Leave))
| st_leave :
    w_pc w p = Leave ->
    wstep n p w (mkWorld None (w_plock w) (w_cond w) (w_state w) (w_chan w) (put (w_pc w) p Away))
| st_kill i :
    w_plock w i = None -> w_state w i = SLEEPING ->
    wstep n p w (mkWorld (w_lk w) (w_plock w) (w_cond w) (put (w_state w) i RUNNABLE) (w_chan w) (w_pc w)).

(** Boot: everybody runs, outside of the protocol. *)
Definition world0 : world :=
  mkWorld None (fun _ => None) false (fun _ => RUNNING) (fun _ => false) (fun _ => Away).

Definition wstep_any (n : nat) (w w' : world) : Prop := exists p, (p < n)%nat /\ wstep n p w w'.

Definition wreach (n : nat) (w : world) : Prop := rtc (wstep_any n) world0 w.

(** ** Invariant *)

Definition has_lk (pc : wpc) : bool :=
  match pc with
  | Test | SleepEnter | SleepRelease | Produce | Scan _ | ScanIn _ | Leave => true
  | _ => false
  end.

Definition has_plock (p i : nat) (pc : wpc) : bool :=
  match pc with
  | SleepRelease | SleepMark | SleepSwitch | SleepTidy => bool_decide (p = i)
  | ScanIn j => bool_decide (i = j)
  | _ => false
  end.

(** [p] is going to sleep or asleep, and needs a wakeup. *)
Definition waiting (w : world) (p : nat) : Prop :=
  w_pc w p = SleepMark \/ w_pc w p = SleepSwitch \/ (w_pc w p = Off /\ w_state w p = SLEEPING).

(** A waker that has not yet passed [p]. *)
Definition wakes (pc : wpc) (p : nat) : Prop :=
  match pc with
  | Scan i => (i <= p)%nat
  | ScanIn i => (i <= p)%nat
  | _ => False
  end.

Record winv (n : nat) (w : world) : Prop := {
  wi_lk : forall p, has_lk (w_pc w p) = true <-> w_lk w = Some p;
  wi_plock : forall p i, has_plock p i (w_pc w p) = true <-> w_plock w i = Some p;
  wi_sleeping : forall p, w_state w p = SLEEPING -> w_pc w p = SleepSwitch \/ w_pc w p = Off;
  wi_chan : forall p, w_pc w p = SleepSwitch -> w_state w p = SLEEPING /\ w_chan w p = true;
  wi_chan_off : forall p, w_pc w p = Off -> w_chan w p = true;
  wi_false : forall p, w_pc w p = SleepEnter \/ w_pc w p = SleepRelease -> w_cond w = false;
  wi_wake : w_cond w = true -> forall p, waiting w p -> exists q, wakes (w_pc w q) p;
  wi_self : forall p, w_pc w p = ScanIn p -> False;
  wi_out : forall p, (n <= p)%nat -> w_pc w p = Away
}.

(** ** Preservation *)

Lemma put_same {A} (f : nat -> A) i v : put f i v i = v.
Proof. unfold put. by rewrite decide_True. Qed.

Lemma put_other {A} (f : nat -> A) i j v : i <> j -> put f i v j = f j.
Proof. intros H. unfold put. by rewrite decide_False. Qed.

(** Case analysis on whether a process is the one that moved. *)
Ltac put_cases :=
  repeat match goal with
  | H : context [put _ ?i _ ?j] |- _ =>
      destruct (decide (i = j)); [subst; rewrite ?put_same in * | rewrite ?put_other in * by done]
  | |- context [put _ ?i _ ?j] =>
      destruct (decide (i = j)); [subst; rewrite ?put_same in * | rewrite ?put_other in * by done]
  end.

Lemma winv_world0 n : winv n world0.
Proof.
  split; simpl; done.
Qed.

Lemma wi_lk_step n p w w' :
  winv n w -> wstep n p w w' -> forall q, has_lk (w_pc w' q) = true <-> w_lk w' = Some q.
Proof.
  intros I St q. pose proof (wi_lk _ _ I q) as Hq. pose proof (wi_lk _ _ I p) as Hp.
  destruct St; simpl; put_cases; repeat match goal with H : w_pc _ _ = _ |- _ => rewrite H in * end;
    simpl in *; try tauto; naive_solver.
Qed.

Lemma wi_plock_step n p w w' :
  winv n w -> wstep n p w w' -> forall q i, has_plock q i (w_pc w' q) = true <-> w_plock w' i = Some q.
Proof.
  intros I St q i. pose proof (wi_plock _ _ I q i) as Hq. pose proof (wi_plock _ _ I p i) as Hp.
  destruct St; simpl; put_cases; repeat match goal with H : w_pc _ _ = _ |- _ => rewrite H in * end;
    simpl in *; rewrite ?bool_decide_eq_true in *; try tauto; naive_solver.
Qed.

(** Who may change the state of [q]: only the owner of its lock. *)
Lemma wi_sleeping_step n p w w' :
  winv n w -> wstep n p w w' ->
  forall q, w_state w' q = SLEEPING -> w_pc w' q = SleepSwitch \/ w_pc w' q = Off.
Proof.
  intros I St q. pose proof (wi_sleeping _ _ I q) as Hq. pose proof (wi_plock _ _ I q q) as Hl.
  destruct St; simpl; intros Hs; try (destruct (_ && _)); put_cases;
    repeat match goal with H : w_pc _ _ = _ |- _ => rewrite H in * end;
    simpl in *; rewrite ?bool_decide_eq_true in *; try tauto; try congruence; intuition congruence.
Qed.

Lemma wi_chan_step n p w w' :
  winv n w -> wstep n p w w' ->
  forall q, w_pc w' q = SleepSwitch -> w_state w' q = SLEEPING /\ w_chan w' q = true.
Proof.
  intros I St q. pose proof (wi_chan _ _ I q) as Hq.
  pose proof (wi_plock _ _ I q q) as Hl. 
  destruct St as [| | | | | | | | | | | | | |i Hi| | |i Hi Hi2]; simpl; intros Hs; 
    try (assert (i = q \/ i <> q) as [->|] by lia);
    try (pose proof (wi_plock _ _ I p q) as Hlp);
    try (destruct (_ && _)); put_cases;
    repeat match goal with H : w_pc _ _ = _ |- _ => rewrite H in * end;
    simpl in *; rewrite ?bool_decide_eq_true in *; try tauto; try congruence; intuition congruence.
Qed.

Lemma wi_chan_off_step n p w w' :
  winv n w -> wstep n p w w' -> forall q, w_pc w' q = Off -> w_chan w' q = true.
Proof.
  intros I St q. pose proof (wi_chan_off _ _ I q) as Hq. pose proof (wi_chan _ _ I q) as Hc.
  destruct St; simpl; intros Hs; put_cases;
    repeat match goal with H : w_pc _ _ = _ |- _ => rewrite H in * end;
    simpl in *; try tauto; try congruence; intuition congruence.
Qed.

(** The condition changes only under [lk]. *)
Lemma wi_false_step n p w w' :
  winv n w -> wstep n p w w' ->
  forall q, w_pc w' q = SleepEnter \/ w_pc w' q = SleepRelease -> w_cond w' = false.
Proof.
  intros I St q. pose proof (wi_false _ _ I q) as Hq.
  pose proof (wi_lk _ _ I q) as Hl. pose proof (wi_lk _ _ I p) as Hlp.
  destruct St; simpl; intros Hs; put_cases; destruct Hs as [Hs|Hs];
    repeat match goal with H : w_pc _ _ = _ |- _ => rewrite H in * end;
    simpl in *; try tauto; try congruence; intuition congruence.
Qed.

Lemma wi_self_step n p w w' :
  winv n w -> wstep n p w w' -> forall q, w_pc w' q = ScanIn q -> False.
Proof.
  intros I St q. pose proof (wi_self _ _ I q) as Hq.
  destruct St; simpl; intros Hs; put_cases; try tauto; try congruence.
Qed.

Lemma wi_out_step n p w w' :
  (p < n)%nat -> winv n w -> wstep n p w w' -> forall q, (n <= q)%nat -> w_pc w' q = Away.
Proof.
  intros Hp I St q Hq. pose proof (wi_out _ _ I q Hq) as Ho.
  destruct St; simpl; put_cases; try done; lia.
Qed.

(** A step of [p] that neither ends a scan nor puts anybody to sleep. *)
Lemma wake_kept n w pcs lk' pl' st' ch' p v :
  winv n w -> pcs = put (w_pc w) p v ->
  (forall q, wakes (w_pc w p) q -> wakes v q \/ ~ waiting (mkWorld lk' pl' (w_cond w) st' ch' pcs) q) ->
  (forall q, waiting (mkWorld lk' pl' (w_cond w) st' ch' pcs) q -> waiting w q) ->
  w_cond w = true -> forall q, waiting (mkWorld lk' pl' (w_cond w) st' ch' pcs) q ->
  exists r, wakes (pcs r) q.
Proof.
  intros I -> Hv Hw Hc q Hq. destruct (wi_wake _ _ I Hc q (Hw q Hq)) as [r Hr].
  exists r. destruct (decide (p = r)) as [<-|Hne]; [|by rewrite put_other].
  rewrite put_same. destruct (Hv q Hr); [done|contradiction].
Qed.

Ltac waiting_cases Hq :=
  unfold waiting in *; simpl in *; put_cases; intuition (congruence || eauto).

Lemma wi_wake_step n p w w' :
  (p < n)%nat -> winv n w -> wstep n p w w' ->
  w_cond w' = true -> forall q, waiting w' q -> exists r, wakes (w_pc w' r) q.
Proof.
  intros Hpn I St. destruct St as [Hpc|Hpc|Hpc|Hpc|Hpc|Hpc|Hpc|Hpc|Hpc|Hpc|Hpc|Hpc|Hpc|i Hpc|i Hpc|Hpc|Hpc|i Hl Hs];
    cbn [w_cond w_pc].
  1,3,4,6,7,8,9,10,11,17: eapply wake_kept; [done|done|rewrite Hpc; done|
    intros q Hq; waiting_cases Hq].
  - done.
  - intros Hc. rewrite (wi_false _ _ I p) in Hc by (by right). done.
  - intros _ q Hq. exists p. rewrite put_same. simpl. lia.
  - eapply wake_kept; [done|done| |intros q Hq; waiting_cases Hq].
    rewrite Hpc. simpl. intros q Hq. destruct (decide (q = p)) as [->|]; [right|left; lia].
    unfold waiting. simpl. rewrite put_same. intuition congruence.
  - eapply wake_kept; [done|done| |intros q Hq; waiting_cases Hq]. rewrite Hpc. simpl. auto.
  - eapply wake_kept; [done|done| |].
    + rewrite Hpc. simpl. intros q Hq. destruct (decide (q = i)) as [->|]; [right|left; lia].
      assert (Hip : i <> p) by (intros ->; by apply (wi_self _ _ I p)).
      assert (Ho : w_plock w i = Some p).
      { apply (wi_plock _ _ I p i). rewrite Hpc. simpl. by apply bool_decide_eq_true. }
      assert (Hno : forall pc, w_pc w i = pc -> has_plock i i pc = true -> False).
      { intros pc <- H. apply (wi_plock _ _ I) in H. congruence. }
      unfold waiting. simpl. rewrite put_other by done. intros [H|[H|[H1 H2]]].
      * apply (Hno _ H). simpl. by apply bool_decide_eq_true.
      * apply (Hno _ H). simpl. by apply bool_decide_eq_true.
      * rewrite (wi_chan_off _ _ I i H1) in H2.
        destruct (bool_decide_reflect (w_state w i = SLEEPING)); simpl in H2; [|done].
        by rewrite put_same in H2.
    + intros q. unfold waiting. simpl. destruct (_ && _); put_cases; intuition congruence.
  - eapply wake_kept; [done|done| |intros q Hq; waiting_cases Hq].
    rewrite Hpc. simpl. intros q Hq. right.
    pose proof (wi_out _ _ I q Hq) as Ho. unfold waiting. simpl.
    put_cases; intuition congruence.
  - intros Hc q Hq. apply (wi_wake _ _ I Hc). waiting_cases Hq.
Qed.

Lemma winv_step n p w w' : (p < n)%nat -> winv n w -> wstep n p w w' -> winv n w'.
Proof.
  intros Hp I St. split.
  - by eapply wi_lk_step.
  - by eapply wi_plock_step.
  - by eapply wi_sleeping_step.
  - by eapply wi_chan_step.
  - by eapply wi_chan_off_step.
  - by eapply wi_false_step.
  - by eapply wi_wake_step.
  - by eapply wi_self_step.
  - by eapply wi_out_step.
Qed.

Lemma wreach_inv n w : wreach n w -> winv n w.
Proof.
  unfold wreach. generalize (winv_world0 n). generalize world0. intros w0 I R. revert I.
  induction R as [|w0 w1 w2 (p & Hp & St) _ IH]; intros I; [done|]. apply IH. by eapply winv_step.
Qed.

(** [C17] No lost wakeups: in every interleaving of consumers that sleep on a
    channel with a lock and producers that make the condition true and wake
    the channel under the same lock, a process that is asleep (or past the
    point of no return) while the condition holds is always ahead of a
    producer that holds the lock and has not yet scanned it.  So once the
    producer has released the lock, nobody is asleep with the condition
    true. *)
Theorem no_lost_wakeup (n : nat) (w : world) (p : nat) :
  wreach n w -> w_cond w = true -> waiting w p ->
  exists q, w_lk w = Some q /\ wakes (w_pc w q) p.
Proof.
  intros R Hc Hw. apply wreach_inv in R as I. destruct (wi_wake _ _ I Hc p Hw) as [q Hq].
  exists q. split; [|done]. apply (wi_lk _ _ I). by destruct (w_pc w q).
Qed.

(** [sleep] gives up the lock for good: a process that is switched out
    holds neither the caller's lock nor its own, and at most one process
    holds each lock in every interleaving. *)
Theorem sleep_holds_no_lock (n : nat) (w : world) (p q i : nat) :
  wreach n w ->
  (w_pc w p = Off -> w_lk w <> Some p /\ w_plock w i <> Some p) /\
  (has_lk (w_pc w p) = true -> has_lk (w_pc w q) = true -> p = q) /\
  (has_plock p i (w_pc w p) = true -> has_plock q i (w_pc w q) = true -> p = q).
Proof.
  intros R. apply wreach_inv in R as I. split_and!.
  - intros E. rewrite <- (wi_lk _ _ I p), <- (wi_plock _ _ I p i), E. done.
  - rewrite (wi_lk _ _ I p), (wi_lk _ _ I q). congruence.
  - rewrite (wi_plock _ _ I p i), (wi_plock _ _ I q i). congruence.
Qed.

(** ** Witnesses *)

Ltac wgo p rule :=
  eapply rtc_l; [exists p; split; [lia|by apply rule]|];
  cbn [w_lk w_plock w_cond w_state w_chan w_pc world0].

(** Process 0 has gone to sleep; process 1 has made the condition true and
    starts its scan. *)
Lemma sleeper_and_waker :
  exists w, wreach 2 w /\ w_cond w = true /\ w_pc w 0 = Off /\ w_state w 0 = SLEEPING.
Proof.
  eexists. split.
  - unfold wreach.
    wgo 0%nat st_consume_begin.
    wgo 0%nat st_test_false.
    wgo 0%nat st_sleep_acquire.
    wgo 0%nat st_sleep_release.
    wgo 0%nat st_sleep_mark.
    wgo 0%nat st_sleep_switch.
    wgo 1%nat st_produce_begin.
    wgo 1%nat st_produce.
    apply rtc_refl.
  - by repeat split.
Qed.

Lemma no_lost_wakeup_witness :
  exists w q, w_cond w = true /\ waiting w 0 /\ w_lk w = Some q /\ wakes (w_pc w q) 0.
Proof.
  destruct sleeper_and_waker as (w & R & Hc & Hp & Hs).
  assert (Hw : waiting w 0) by (right; right; done).
  destruct (no_lost_wakeup 2 w 0 R Hc Hw) as (q & Hq & Hk). by exists w, q.
Defined.

Lemma sleep_holds_no_lock_witness :
  exists w, w_pc w 0 = Off /\ w_lk w <> Some 0%nat.
Proof.
  destruct sleeper_and_waker as (w & R & Hc & Hp & Hs).
  destruct (sleep_holds_no_lock 2 w 0 0 0 R) as (H & _). exists w. split; [done|]. by apply H.
Defined.
