(* ===== verification/Uart.v ===== *)
(** * kernel/uart.c and kernel/printf.c: output

    [uart_out] is what the device was given on [THR].  The device's status
    register is not part of the program: the successive values of its idle
    bit that one call of [uartstart] reads are the argument [lsr].  Spinning
    until the device is idle ([uartputc_sync]) is not visible.

    [printf] takes its format as bytes and its variable arguments as a list;
    taking an argument of the wrong type, or one that is not there, has no
    defined behaviour. *)

From S2P Require Import Prelude KString Bytes Ring KState Riscv Spinlock Kalloc Vm Sched.

(** ** The transmit ring *)

Definition thr_write (c : Z) : K unit :=
  modify (fun s => set_k_uart (set_uart_out (uart_out (k_uart s) ++ [u8 c]) (k_uart s)) s).

(** [while(1)] of [uartstart]; each turn reads the status once. *)
Fixpoint uartstart (lsr : list bool) : K unit :=
  let! u := gets (fun s => k_uart s) in
  if uart_tx_w u =? uart_tx_r u then ret tt
  else
    match lsr with
    | [] | false :: _ => ret tt
    | true :: lsr =>
        let c := nth (Z.to_nat (uart_tx_r u mod UART_TX_BUF_SIZE)) (uart_tx_buf u) 0 in
        modify (fun s => set_k_uart (set_uart_tx_r (u64 (uart_tx_r u + 1)) u) s) ;;;
        wakeup ch_uart_tx_r ;;;
        thr_write c ;;;
        uartstart lsr
    end.

(** [uartputc] from the [while] on, with the lock held; it continues here
    after a sleep. *)
Definition uartputc_loop (lsr : list bool) (c : Z) : K unit :=
  let! u := gets (fun s => k_uart s) in
  if uart_tx_w u =? u64 (uart_tx_r u + UART_TX_BUF_SIZE) then sleep ch_uart_tx_r uart_tx_lock
  else
    modify (fun s => set_k_uart (set_uart_tx_w (u64 (uart_tx_w u + 1))
      (set_uart_tx_buf (<[Z.to_nat (uart_tx_w u mod UART_TX_BUF_SIZE) := u8 c]> (uart_tx_buf u)) u)) s) ;;;
    uartstart lsr ;;;
    release uart_tx_lock.

Definition uartputc (lsr : list bool) (c : Z) : K unit :=
  acquire uart_tx_lock ;;;
  uartputc_loop lsr c.

Definition uartputc_sync (c : Z) : K unit := thr_write c.

(** ** [printf] *)

Definition BACKSPACE : Z := 0x100.

Definition consputc (c : Z) : K unit :=
  if c =? BACKSPACE then uartputc_sync 8 ;;; uartputc_sync 32 ;;; uartputc_sync 8
  else uartputc_sync c.

Fixpoint consputs (cs : list Z) : K unit :=
  match cs with
  | [] => ret tt
  | c :: cs => consputc c ;;; consputs cs
  end.

(** The bytes of a literal. *)
Definition str (t : string) : list Z := (fun a => Z.of_nat (Ascii.nat_of_ascii a)) <$> String.list_ascii_of_string t.

Definition digits : list Z := str "0123456789abcdef".

(** The [do while] of [printint]: the digits of [x], least significant
    first; a 32-bit number has at most 32 of them. *)
Fixpoint printint_digits (fuel : nat) (x base : Z) : list Z :=
  match fuel with
  | O => []
  | S fuel =>
      nth (Z.to_nat (x mod base)) digits 0 ::
      (if x / base =? 0 then [] else printint_digits fuel (x / base) base)
  end.

(** The characters in [buf], in the order they are printed. *)
Definition printint_buf (xx base : Z) (sign : bool) : list Z :=
  let neg := sign && (xx <? 0) in
  let x := if neg then u32 (- xx) else u32 xx in
  let buf := printint_digits 32 x base in
  rev (if neg then buf ++ [45] else buf).

Definition printint (xx base : Z) (sign : bool) : K unit := consputs (printint_buf xx base sign).

Fixpoint printptr_loop (n : nat) (x : Z) : list Z :=
  match n with
  | O => []
  | S n => nth (Z.to_nat (Z.shiftr x 60)) digits 0 :: printptr_loop n (u64 (Z.shiftl x 4))
  end.

Definition printptr (x : Z) : K unit :=
  consputc 48 ;;; consputc 120 ;;; consputs (printptr_loop 16 x).

(** Variable arguments: an [int], a [uint64], a string (or a null one). *)
Inductive parg : Type := Aint (x : Z) | Aptr (x : Z) | Astr (s : option (list Z)).

(** [printf] from the [for] on; [fmt] is what is left of the format. *)
Fixpoint printf_loop (fmt : list Z) (ap : list parg) : K unit :=
  match fmt with
  | [] => ret tt
  | 37 :: rest =>
      match rest with
      | [] => ret tt
      | c :: fmt =>
          if c =? 100 then
            match ap with
            | Aint x :: ap => printint x 10 true ;;; printf_loop fmt ap
            | _ => fault "va_arg"
            end
          else if c =? 120 then
            match ap with
            | Aint x :: ap => printint x 16 true ;;; printf_loop fmt ap
            | _ => fault "va_arg"
            end
          else if c =? 112 then
            match ap with
            | Aptr x :: ap => printptr x ;;; printf_loop fmt ap
            | _ => fault "va_arg"
            end
          else if c =? 115 then
            match ap with
            | Astr s :: ap => consputs (default (str "(null)") s) ;;; printf_loop fmt ap
            | _ => fault "va_arg"
            end
          else if c =? 37 then consputc 37 ;;; printf_loop fmt ap
          else consputc 37 ;;; consputc c ;;; printf_loop fmt ap
      end
  | c :: fmt => consputc c ;;; printf_loop fmt ap
  end.

(** After [printfinit], with [pr.locking] set. *)
Definition printf (fmt : string) (ap : list parg) : K unit :=
  acquire pr_lock ;;;
  printf_loop (str fmt) ap ;;;
  release pr_lock.

(** ** The queue of characters *)

(** What is still in the ring. *)
Definition pending (u : uart) : list Z :=
  ring_list UART_TX_BUF_SIZE (2 ^ 64) (uart_tx_buf u) (uart_tx_r u) (uart_tx_w u).

Record uart_ok (u : uart) : Prop := {
  uo_ring : ring_ok UART_TX_BUF_SIZE (2 ^ 64) (uart_tx_buf u) (uart_tx_r u) (uart_tx_w u);
  uo_bytes : byte_list (uart_tx_buf u)
}.

Lemma uart_consts : 0 < UART_TX_BUF_SIZE /\ UART_TX_BUF_SIZE < 2 ^ 64 /\ (UART_TX_BUF_SIZE | 2 ^ 64).
Proof. unfold UART_TX_BUF_SIZE. split; [lia|]. split; [lia|]. by exists (2 ^ 59). Qed.

Lemma byte_list_nth l i : byte_list l -> 0 <= nth i l 0 < 256.
Proof.
  intros H. rewrite nth_lookup. destruct (l !! i) as [b|] eqn:E; simpl; [|lia].
  unfold byte_list in H. rewrite Forall_lookup in H. by apply (H i).
Qed.

(** [uartstart] only moves characters from the ring to the device. *)
Lemma uartstart_ok lsr : forall s,
  uart_ok (k_uart s) -> length (k_procs s) = NPROC -> no_proc_lock s ->
  exists s', uartstart lsr s = Ok tt s' /\ uart_ok (k_uart s') /\
    uart_out (k_uart s') ++ pending (k_uart s') = uart_out (k_uart s) ++ pending (k_uart s) /\
    k_held s' = k_held s /\ k_cur s' = k_cur s /\ length (k_procs s') = NPROC.
Proof.
  destruct uart_consts as (HN & HM & HD).
  induction lsr as [|idle lsr IH]; intros s [R B] Hp Hl; cbn [uartstart]; rewrite bind_gets.
  - destruct (_ =? _); exists s; done.
  - destruct (Z.eqb_spec (uart_tx_w (k_uart s)) (uart_tx_r (k_uart s))) as [E|E]; [by exists s|].
    destruct idle; [|by exists s]. rewrite bind_modify.
    set (u := k_uart s) in *. set (c := nth _ _ 0). set (s1 := set_k_uart _ s).
    assert (Ew : wakeup ch_uart_tx_r s1 = Ok tt (wake_all ch_uart_tx_r s1)).
    { by apply wakeup_eq. }
    rewrite (bind_ok _ _ _ _ _ Ew). unfold thr_write. rewrite bind_modify.
    destruct (ring_pop UART_TX_BUF_SIZE (2 ^ 64) HN HM HD (uart_tx_buf u) (uart_tx_r u) (uart_tx_w u) R) as [R' EL].
    { pose proof (ring_len_range UART_TX_BUF_SIZE (2 ^ 64) HN HM (uart_tx_r u) (uart_tx_w u)) as Hr.
      destruct (Z.eq_dec (ring_len (2 ^ 64) (uart_tx_r u) (uart_tx_w u)) 0) as [E0|]; [|lia].
      exfalso. apply E. apply (ring_empty UART_TX_BUF_SIZE (2 ^ 64) HN HM); [apply R|apply R|done]. }
    set (s2 := set_k_uart _ (wake_all ch_uart_tx_r s1)).
    destruct (IH s2) as (s' & E' & U' & Q' & H1 & H2 & H3).
    { split; [exact R'|exact B]. }
    { unfold s2, wake_all. cbn [k_procs set_k_uart set_k_procs]. by rewrite length_imap. }
    { exact Hl. }
    exists s'. split; [exact E'|]. split; [done|]. split; [|done]. rewrite Q'.
    unfold pending at 2. rewrite EL. unfold s2, wake_all, s1, pending.
    cbn [k_uart set_k_uart set_k_procs uart_out set_uart_out set_uart_tx_r uart_tx_buf uart_tx_r uart_tx_w].
    rewrite <- app_assoc. simpl. f_equal. f_equal. unfold c. apply u8_small. by apply byte_list_nth.
Qed.

(** ** Numbers *)

(** The number a string of digits stands for. *)
Definition undigit (c : Z) : Z := if c <=? 57 then c - 48 else c - 87.
Definition parse_digits (base : Z) (l : list Z) : Z := foldl (fun n c => n * base + undigit c) 0 l.
Definition parse_int (base : Z) (l : list Z) : Z :=
  match l with
  | 45 :: l => - parse_digits base l
  | l => parse_digits base l
  end.

Lemma undigit_digit d : 0 <= d < 16 -> undigit (nth (Z.to_nat d) digits 0) = d /\ nth (Z.to_nat d) digits 0 <> 45.
Proof.
  intros Hd. rewrite <- (Z2Nat.id d) at 2 by lia.
  assert (Hn : (Z.to_nat d < 16)%nat) by lia. revert Hn. generalize (Z.to_nat d). intros n Hn.
  do 16 (destruct n as [|n]; [split; [reflexivity|discriminate]|]). lia.
Qed.

Lemma parse_digits_snoc base l c : parse_digits base (l ++ [c]) = parse_digits base l * base + undigit c.
Proof. unfold parse_digits. by rewrite foldl_snoc. Qed.

Lemma printint_digits_parse base fuel : 2 <= base <= 16 -> forall x,
  0 <= x < base ^ Z.of_nat fuel ->
  parse_digits base (rev (printint_digits fuel x base)) = x /\
  Forall (fun c => c <> 45) (printint_digits fuel x base).
Proof.
  intros Hb. induction fuel as [|fuel IH]; intros x Hx; [simpl in *; split; [unfold parse_digits; simpl; lia|constructor]|].
  cbn [printint_digits rev]. pose proof (Z.mod_pos_bound x base ltac:(lia)) as Hm.
  destruct (undigit_digit (x mod base) ltac:(lia)) as [Hd Hne].
  rewrite Nat2Z.inj_succ, Z.pow_succ_r in Hx by lia.
  assert (Hq : 0 <= x / base < base ^ Z.of_nat fuel).
  { split; [apply Z.div_pos; lia|]. apply Z.div_lt_upper_bound; lia. }
  rewrite parse_digits_snoc, Hd. destruct (Z.eqb_spec (x / base) 0) as [E|E].
  - split; [|by constructor]. simpl. rewrite (Z.div_mod x base) at 2 by lia. rewrite E. unfold parse_digits. simpl. lia.
  - destruct (IH (x / base) Hq) as [-> Hf]. split; [|by constructor].
    rewrite (Z.div_mod x base) at 3 by lia. lia.
Qed.

Lemma printint_digits_length base fuel : 2 <= base -> forall x k,
  0 <= x < base ^ Z.of_nat (S k) -> (length (printint_digits fuel x base) <= S k)%nat.
Proof.
  intros Hb. induction fuel as [|fuel IH]; intros x k Hx; [simpl; lia|]. cbn [printint_digits length].
  destruct (Z.eqb_spec (x / base) 0) as [E|E]; [simpl; lia|]. destruct k as [|k].
  - exfalso. apply E. apply Z.div_small. simpl in Hx. lia.
  - specialize (IH (x / base) k). rewrite Nat2Z.inj_succ, Z.pow_succ_r in Hx by lia.
    assert (0 <= x / base < base ^ Z.of_nat (S k)); [|lia].
    split; [apply Z.div_pos; lia|]. apply Z.div_lt_upper_bound; lia.
Qed.

Lemma parse_int_unsigned base l : (forall l', l <> 45 :: l') -> parse_int base l = parse_digits base l.
Proof.
  intros H. destruct l as [|c l]; [done|]. destruct c as [|p|p]; try done.
  do 6 (destruct p as [p|p|]; try done). by destruct (H l).
Qed.

(** What [printf] prints. *)
Lemma consputs_out cs : forall s, Forall (fun c => 0 <= c < 256) cs ->
  consputs cs s = Ok tt (set_k_uart (set_uart_out (uart_out (k_uart s) ++ cs) (k_uart s)) s).
Proof.
  induction cs as [|c cs IH]; intros s H; cbn [consputs].
  - rewrite app_nil_r. done.
  - apply Forall_cons in H as [Hc H]. unfold consputc, BACKSPACE. rewrite (proj2 (Z.eqb_neq c 256)) by lia.
    unfold uartputc_sync, thr_write. rewrite bind_modify, IH by done. rewrite u8_small by done.
    cbn [k_uart set_k_uart uart_out set_uart_out]. rewrite <- app_assoc. done.
Qed.

(** ** Theorems *)

(** The transmit ring is a FIFO: [uartputc] appends its character to the
    queue of characters the device has been given or will be given, whatever
    the device answers; it sleeps, with the queue unchanged, exactly when the
    32 slots are full.  The counters may wrap at 2^64. *)
Theorem uartputc_fifo lsr c s i :
  uart_ok (k_uart s) -> k_held s = [] -> k_cur s = Some i -> (i < NPROC)%nat -> length (k_procs s) = NPROC ->
  if decide (length (pending (k_uart s)) = 32%nat) then
    uartputc lsr c s = Sleeps (asleep ch_uart_tx_r i (set_k_held [uart_tx_lock] s))
  else exists s', uartputc lsr c s = Ok tt s' /\ uart_ok (k_uart s') /\ k_held s' = [] /\
    uart_out (k_uart s') ++ pending (k_uart s') = uart_out (k_uart s) ++ pending (k_uart s) ++ [u8 c].
Proof.
  intros [R B] Hh Hc Hi Hp. destruct uart_consts as (HN & HM & HD). set (u := k_uart s) in *.
  pose proof (ring_len_range UART_TX_BUF_SIZE (2 ^ 64) HN HM (uart_tx_r u) (uart_tx_w u)) as Hr.
  pose proof (ring_full UART_TX_BUF_SIZE (2 ^ 64) HN HM _ _ (ring_r _ _ _ _ _ R) (ring_w _ _ _ _ _ R)) as Hfull.
  pose proof (ring_fits _ _ _ _ _ R) as Hfit.
  assert (Hlen : length (pending u) = Z.to_nat (ring_len (2 ^ 64) (uart_tx_r u) (uart_tx_w u)))
    by apply ring_length.
  rewrite Hlen. unfold uartputc. rewrite bind_acquire by (rewrite Hh; apply not_elem_of_nil).
  unfold uartputc_loop. rewrite Hh, bind_gets. cbn [k_uart set_k_held]. fold u.
  unfold u64. unfold UART_TX_BUF_SIZE in *. case_decide as Hd.
  - rewrite (proj2 (Z.eqb_eq _ _)) by (apply Hfull; lia). apply sleep_eq; try done. cbn. lia.
  - rewrite (proj2 (Z.eqb_neq _ _)) by (rewrite Hfull; lia). rewrite bind_modify. set (s1 := set_k_uart _ _).
    destruct (ring_push 32 (2 ^ 64) HN HM HD (uart_tx_buf u) (uart_tx_r u) (uart_tx_w u) (u8 c) R) as [R' E'];
      [lia|].
    destruct (uartstart_ok lsr s1) as (s2 & E2 & U2 & Q2 & H2 & _).
    { split; [exact R'|]. apply byte_list_insert; [exact B|apply u8_range]. }
    { exact Hp. }
    { intros x _. cbn [k_held s1 set_k_uart set_k_held]. by rewrite list_elem_of_singleton. }
    rewrite (bind_ok _ _ _ _ _ E2). rewrite (release_ok _ []) by (done || apply not_elem_of_nil).
    eexists. split; [reflexivity|]. split; [exact U2|]. split; [done|].
    change (k_uart (set_k_held [] s2)) with (k_uart s2). rewrite Q2.
    unfold pending at 1. unfold s1.
    cbn [k_uart set_k_uart uart_out set_uart_tx_w set_uart_tx_buf uart_tx_buf uart_tx_r uart_tx_w].
    unfold u64. f_equal. exact E'.
Qed.

(** [printint] is right for every [int], [INT_MIN] included: the
    characters it prints read back as the number, in base 10 and 16, and fit
    its 16-byte buffer. *)
Theorem printint_roundtrip xx base :
  - 2 ^ 31 <= xx < 2 ^ 31 -> base = 10 \/ base = 16 ->
  parse_int base (printint_buf xx base true) = xx /\ (length (printint_buf xx base true) <= 16)%nat.
Proof.
  intros Hx Hb. assert (Hb' : 2 <= base <= 16) by lia. unfold printint_buf. cbn [andb].
  set (x := if xx <? 0 then u32 (- xx) else u32 xx).
  assert (Ex : x = Z.abs xx).
  { unfold x. destruct (Z.ltb_spec xx 0); rewrite u32_small by lia; lia. }
  assert (Hp : 0 <= x < base ^ Z.of_nat 32).
  { assert (2 ^ 32 <= base ^ Z.of_nat 32) by (apply Z.pow_le_mono_l; lia). lia. }
  destruct (printint_digits_parse base 32 Hb' x Hp) as [P F].
  assert (L : (length (printint_digits 32 x base) <= 15)%nat).
  { apply (printint_digits_length base 32 ltac:(lia) x 14).
    assert (10 ^ Z.of_nat 15 <= base ^ Z.of_nat 15) by (apply Z.pow_le_mono_l; lia). lia. }
  revert P F L. generalize (printint_digits 32 x base). intros l P F L.
  destruct (Z.ltb_spec xx 0) as [Hn|Hn].
  - rewrite rev_app_distr. simpl. rewrite P, length_rev. split; lia.
  - rewrite length_rev. split; [|lia]. rewrite parse_int_unsigned; [lia|].
    intros l' E. rewrite Forall_forall in F. apply (F 45); [|done]. rewrite list_elem_of_In, in_rev, E. by left.
Qed.

(** ** Witnesses *)

Lemma uart_zero_ok : uart_ok uart_zero.
Proof.
  split; [|apply byte_list_replicate].
  split; unfold UART_TX_BUF_SIZE, ring_len; cbn [uart_tx_r uart_tx_w uart_zero]; try lia; try done.
Qed.

Lemma uartputc_fifo_witness :
  exists s', uartputc [false] 65 (set_k_cur (Some 0%nat) kstate_zero) = Ok tt s' /\
    uart_out (k_uart s') ++ pending (k_uart s') = [65].
Proof.
  pose proof (uartputc_fifo [false] 65 (set_k_cur (Some 0%nat) kstate_zero) 0) as H.
  rewrite decide_False in H by (vm_compute; discriminate).
  destruct H as (s' & E & _ & _ & Q).
  - apply uart_zero_ok.
  - reflexivity.
  - reflexivity.
  - unfold NPROC. lia.
  - apply length_replicate.
  - exists s'. split; [exact E|]. rewrite Q. reflexivity.
Defined.

Lemma printint_roundtrip_witness :
  printint_buf (-2147483648) 10 true = str "-2147483648" /\
  parse_int 10 (printint_buf (-2147483648) 10 true) = -2147483648.
Proof.
  split; [vm_compute; reflexivity|]. apply printint_roundtrip; [lia|by left].
Defined.
