(* ===== verification/Console.v ===== *)
(** * kernel/console.c: the console, and uart.c's interrupt handler

    The input buffer is [k_cons] with its read, write and edit indices.
    [consoleread] and [consolewrite] are called by [fileread] and
    [filewrite] through [devsw]; a [consoleread] that finds no input sleeps
    and continues with [consoleread_loop].  The bytes waiting in the UART are
    the argument [rx] of [uartintr].

    [consoleintr_refines] relates the three indices to the two queues of a
    line editor: the characters already committed, and the line being
    typed. *)

From S2P Require Import Prelude KString Bytes Ring KState Riscv Spinlock Kalloc Vm Sched Uart.

(** ** Definitions *)

(** The run ends here; the process continues at its loop. *)
Definition sleep_on {A} (ch : chan) (lk : lock) : K A := sleep ch lk ;;; nofuel.

(** [dst + k] *)
Definition dest_add (d : dest) (k : Z) : dest :=
  match d with
  | user_dst va => user_dst (u64 (va + k))
  | kernel_dst => kernel_dst
  end.

(** [src + k] *)
Definition source_add (src : source) (k : Z) : source :=
  match src with
  | user_src va => user_src (u64 (va + k))
  | kernel_src bs => kernel_src (drop (Z.to_nat k) bs)
  end.

(** The names in [procdump]. *)
Definition state_name (st : procstate) : string :=
  match st with
  | UNUSED => "unused" | USED => "used" | SLEEPING => "sleep "
  | RUNNABLE => "runble" | RUNNING => "run   " | ZOMBIE => "zombie"
  end.

(** The newline character. *)
Definition nl : string := String (Ascii.ascii_of_nat 10) EmptyString.

Fixpoint procdump_loop (ps : list proc) : K unit :=
  match ps with
  | [] => ret tt
  | p :: ps =>
      (if bool_decide (p_state p = UNUSED) then ret tt
       else
         printf "%d %s %s" [Aint (p_pid p); Astr (Some (str (state_name (p_state p)))); Astr (Some (cstr (p_name p)))] ;;;
         printf nl []) ;;;
      procdump_loop ps
  end.

Definition procdump : K unit :=
  printf nl [] ;;;
  let! ps := gets (fun s => k_procs s) in
  procdump_loop ps.

(** [lsr i] is what the UART's status register answers for byte [i]. *)
Fixpoint consolewrite_loop (k : nat) (i : Z) (src : source) (lsr : Z -> list bool) : K Z :=
  match k with
  | O => ret i
  | S k =>
      let! r := either_copyin (source_add src i) 1 in
      if fst r =? -1 then ret i
      else
        uartputc (lsr i) (nth 0 (snd r) 0) ;;;
        consolewrite_loop k (i + 1) src lsr
  end.

Definition consolewrite (src : source) (n : Z) (lsr : Z -> list bool) : K Z :=
  consolewrite_loop (Z.to_nat n) 0 src lsr.

Definition cons_set (f : console -> console) : K unit := modify (fun s => set_k_cons (f (k_cons s)) s).

(** [consoleread] from the [while] on, with the lock held and [n] = [k]
    characters to go; the bytes that went to a kernel buffer are returned. *)
Fixpoint consoleread_loop (k : nat) (dst : dest) (target : Z) (acc : list Z) : K (Z * list Z) :=
  match k with
  | O => release cons_lock ;;; ret (target, acc)
  | S k' =>
      let n := Z.of_nat k in
      let! c := gets (fun s => k_cons s) in
      if cons_r c =? cons_w c then
        let! me := myproc_ in
        let! kd := killed me in
        if negb (kd =? 0) then release cons_lock ;;; ret (-1, acc)
        else sleep_on ch_cons_r cons_lock
      else
        let ch := nth (Z.to_nat (cons_r c mod INPUT_BUF_SIZE)) (cons_buf c) 0 in
        cons_set (set_cons_r (u32 (cons_r c + 1))) ;;;
        if ch =? 4 then
          (if n <? target then cons_set (set_cons_r (cons_r c)) else ret tt) ;;;
          release cons_lock ;;;
          ret (target - n, acc)
        else
          let! r := either_copyout dst [ch] in
          if r =? -1 then release cons_lock ;;; ret (target - n, acc)
          else if ch =? 10 then release cons_lock ;;; ret (target - (n - 1), acc ++ [ch])
          else consoleread_loop k' (dest_add dst 1) target (acc ++ [ch])
  end.

Definition consoleread (dst : dest) (n : Z) : K (Z * list Z) :=
  acquire cons_lock ;;;
  consoleread_loop (Z.to_nat n) dst (Z.max n 0) [].

(** The loop of control-U; [k] is at least the length of the line. *)
Fixpoint kill_line (k : nat) : K unit :=
  match k with
  | O => ret tt
  | S k =>
      let! c := gets (fun s => k_cons s) in
      if (cons_e c =? cons_w c) || (nth (Z.to_nat (u32 (cons_e c - 1) mod INPUT_BUF_SIZE)) (cons_buf c) 0 =? 10)
      then ret tt
      else
        cons_set (set_cons_e (u32 (cons_e c - 1))) ;;;
        consputc BACKSPACE ;;;
        kill_line k
  end.

Definition consoleintr (c : Z) : K unit :=
  acquire cons_lock ;;;
  (if c =? 16 then procdump
   else if c =? 21 then
     let! cs := gets (fun s => k_cons s) in
     kill_line (Z.to_nat (u32 (cons_e cs - cons_w cs)))
   else if (c =? 8) || (c =? 127) then
     let! cs := gets (fun s => k_cons s) in
     if cons_e cs =? cons_w cs then ret tt
     else
       cons_set (set_cons_e (u32 (cons_e cs - 1))) ;;;
       consputc BACKSPACE
   else
     let! cs := gets (fun s => k_cons s) in
     if negb (c =? 0) && (u32 (cons_e cs - cons_r cs) <? INPUT_BUF_SIZE) then
       let c := if c =? 13 then 10 else c in
       consputc c ;;;
       cons_set (fun cs => set_cons_e (u32 (cons_e cs + 1))
         (set_cons_buf (<[Z.to_nat (cons_e cs mod INPUT_BUF_SIZE) := c]> (cons_buf cs)) cs)) ;;;
       let! cs := gets (fun s => k_cons s) in
       if (c =? 10) || (c =? 4) || (u32 (cons_e cs - cons_r cs) =? INPUT_BUF_SIZE) then
         cons_set (set_cons_w (cons_e cs)) ;;;
         wakeup ch_cons_r
       else ret tt
     else ret tt) ;;;
  release cons_lock.

(** [uartintr]: the loop over the received bytes, then the transmit side. *)
Fixpoint uartintr_rx (rx : list Z) : K unit :=
  match rx with
  | [] => ret tt
  | c :: rx => consoleintr c ;;; uartintr_rx rx
  end.

Definition uartintr (rx : list Z) (lsr : list bool) : K unit :=
  uartintr_rx rx ;;;
  acquire uart_tx_lock ;;;
  uartstart lsr ;;;
  release uart_tx_lock.

(** ** The line editor *)

(** The characters [consoleread] may take, and the line being typed. *)
Definition committed (c : console) : list Z := ring_list INPUT_BUF_SIZE (2 ^ 32) (cons_buf c) (cons_r c) (cons_w c).
Definition editing (c : console) : list Z := ring_list INPUT_BUF_SIZE (2 ^ 32) (cons_buf c) (cons_w c) (cons_e c).

Record cons_ok (c : console) : Prop := {
  co_ring : ring_ok INPUT_BUF_SIZE (2 ^ 32) (cons_buf c) (cons_r c) (cons_e c);
  co_w : 0 <= cons_w c < 2 ^ 32;
  co_order : ring_len (2 ^ 32) (cons_r c) (cons_w c) <= ring_len (2 ^ 32) (cons_r c) (cons_e c);
  co_line : 10 ∉ editing c
}.

(** One character typed, on the two queues. *)
Definition type_char (st : list Z * list Z) (c : Z) : list Z * list Z :=
  let (com, ed) := st in
  if c =? 16 then st
  else if c =? 21 then (com, [])
  else if (c =? 8) || (c =? 127) then (com, take (length ed - 1) ed)
  else if negb (c =? 0) && (Z.of_nat (length com + length ed) <? 128) then
    let c := if c =? 13 then 10 else c in
    if (c =? 10) || (c =? 4) || (Z.of_nat (length com + length ed) =? 127)
    then (com ++ ed ++ [c], []) else (com, ed ++ [c])
  else st.

(** ** Printing changes the UART only *)

Definition prints (m : K unit) : Prop := forall s, exists u, m s = Ok tt (set_k_uart u s).

Lemma prints_ret : prints (ret tt).
Proof. intros s. by exists (k_uart s). Qed.

Lemma prints_seq m k : prints m -> prints k -> prints (m ;;; k).
Proof.
  intros Hm Hk s. destruct (Hm s) as [u E]. destruct (Hk (set_k_uart u s)) as [u' E'].
  exists u'. rewrite (bind_ok _ _ _ _ _ E), E'. done.
Qed.

Lemma prints_thr c : prints (thr_write c).
Proof. intros s. by eexists. Qed.

Lemma prints_consputc c : prints (consputc c).
Proof.
  unfold consputc, uartputc_sync. destruct (c =? BACKSPACE); [|apply prints_thr].
  repeat (apply prints_seq; [apply prints_thr|]). apply prints_thr.
Qed.

Lemma prints_consputs cs : prints (consputs cs).
Proof. induction cs as [|c cs IH]; [apply prints_ret|]. by apply prints_seq; [apply prints_consputc|]. Qed.

(** The two formats of [procdump]. *)
Lemma prints_newline : prints (printf_loop (str nl) []).
Proof.
  change (printf_loop (str nl) []) with (consputc 10 ;;; ret tt). apply prints_seq; [apply prints_consputc|apply prints_ret].
Qed.

Lemma prints_process x a b :
  prints (printf_loop (str "%d %s %s") [Aint x; Astr (Some a); Astr (Some b)]).
Proof.
  change (printf_loop (str "%d %s %s") [Aint x; Astr (Some a); Astr (Some b)]) with
    (printint x 10 true ;;; consputc 32 ;;; consputs a ;;; consputc 32 ;;; consputs b ;;; ret tt).
  repeat (apply prints_seq; [first [apply prints_consputs|apply prints_consputc]|]). apply prints_ret.
Qed.

Lemma printf_prints fmt ap s :
  prints (printf_loop (str fmt) ap) -> (pr_lock ∉ k_held s) -> exists u, printf fmt ap s = Ok tt (set_k_uart u s).
Proof.
  intros Hp Hh. unfold printf. rewrite bind_acquire by done.
  destruct (Hp (set_k_held (pr_lock :: k_held s) s)) as [u E]. rewrite (bind_ok _ _ _ _ _ E).
  exists u. by rewrite (release_ok _ (k_held s)).
Qed.

Lemma procdump_prints s : (pr_lock ∉ k_held s) -> exists u, procdump s = Ok tt (set_k_uart u s).
Proof.
  intros Hh. unfold procdump. destruct (printf_prints nl [] s prints_newline Hh) as [u E].
  rewrite (bind_ok _ _ _ _ _ E), bind_gets. change (k_procs (set_k_uart u s)) with (k_procs s).
  generalize (k_procs s). intros ps. clear E. revert u. induction ps as [|p ps IH]; intros u.
  - by exists u.
  - cbn [procdump_loop]. case_bool_decide; [rewrite bind_ret; apply IH|]. rewrite bind_assoc.
    destruct (printf_prints "%d %s %s" [Aint (p_pid p); Astr (Some (str (state_name (p_state p)))); Astr (Some (cstr (p_name p)))]
      (set_k_uart u s) (prints_process _ _ _) Hh) as [u1 E1]. rewrite (bind_ok _ _ _ _ _ E1).
    destruct (printf_prints nl [] (set_k_uart u1 s) prints_newline Hh) as [u2 E2].
    change (set_k_uart u1 (set_k_uart u s)) with (set_k_uart u1 s). rewrite (bind_ok _ _ _ _ _ E2). apply IH.
Qed.

(** ** The queues *)

Lemma cons_consts : 0 < INPUT_BUF_SIZE /\ INPUT_BUF_SIZE < 2 ^ 32 /\ (INPUT_BUF_SIZE | 2 ^ 32).
Proof. unfold INPUT_BUF_SIZE. split; [lia|]. split; [lia|]. by exists (2 ^ 25). Qed.

Lemma cons_lengths c :
  cons_ok c ->
  Z.of_nat (length (committed c) + length (editing c)) = ring_len (2 ^ 32) (cons_r c) (cons_e c) /\
  ring_len (2 ^ 32) (cons_r c) (cons_w c) = Z.of_nat (length (committed c)) /\
  ring_len (2 ^ 32) (cons_w c) (cons_e c) = Z.of_nat (length (editing c)).
Proof.
  intros O. destruct cons_consts as (HN & HM & _). unfold committed, editing. rewrite !(ring_length INPUT_BUF_SIZE).
  pose proof (ring_len_range INPUT_BUF_SIZE (2 ^ 32) HN HM (cons_r c) (cons_w c)).
  pose proof (ring_len_range INPUT_BUF_SIZE (2 ^ 32) HN HM (cons_w c) (cons_e c)).
  pose proof (ring_len_split INPUT_BUF_SIZE (2 ^ 32) HN HM _ _ _ (co_order _ O)). lia.
Qed.

Lemma cons_whole c :
  cons_ok c -> ring_list INPUT_BUF_SIZE (2 ^ 32) (cons_buf c) (cons_r c) (cons_e c) = committed c ++ editing c.
Proof. intros O. destruct cons_consts as (HN & HM & HD). by apply ring_split, O. Qed.

(** Taking back the last character of the line. *)
Lemma cons_erase c :
  cons_ok c -> cons_e c <> cons_w c ->
  let c' := set_cons_e (u32 (cons_e c - 1)) c in
  cons_ok c' /\ committed c' = committed c /\
  editing c = editing c' ++ [nth (Z.to_nat (u32 (cons_e c - 1) mod INPUT_BUF_SIZE)) (cons_buf c) 0].
Proof.
  intros O Hne c'. destruct cons_consts as (HN & HM & HD). destruct O as [R Hw Ho Hl].
  assert (He := ring_w _ _ _ _ _ R).
  assert (Hp : 0 < ring_len (2 ^ 32) (cons_w c) (cons_e c)).
  { pose proof (ring_len_range INPUT_BUF_SIZE (2 ^ 32) HN HM (cons_w c) (cons_e c)).
    destruct (Z.eq_dec (ring_len (2 ^ 32) (cons_w c) (cons_e c)) 0) as [E|]; [|lia].
    apply (ring_empty INPUT_BUF_SIZE (2 ^ 32) HN HM) in E; [done|done|done]. }
  assert (Hs := ring_len_split INPUT_BUF_SIZE (2 ^ 32) HN HM _ _ _ Ho).
  pose proof (ring_len_range INPUT_BUF_SIZE (2 ^ 32) HN HM (cons_r c) (cons_w c)) as Hrw.
  assert (Hre : ring_len (2 ^ 32) (cons_r c) (u32 (cons_e c - 1)) = ring_len (2 ^ 32) (cons_r c) (cons_e c) - 1).
  { apply (ring_len_unpush INPUT_BUF_SIZE (2 ^ 32) HN HM). lia. }
  assert (Hed : editing c = editing c' ++ [nth (Z.to_nat (u32 (cons_e c - 1) mod INPUT_BUF_SIZE)) (cons_buf c) 0]).
  { unfold editing, u32. rewrite (ring_mod_mod INPUT_BUF_SIZE (2 ^ 32) HD).
    by apply (ring_unpush INPUT_BUF_SIZE (2 ^ 32) HN HM HD). }
  split; [|done]. split.
  - destruct R as [R1 R2 R3 R4]. split; [done|done|apply u32_range|]. cbn [cons_r cons_e c' set_cons_e]. lia.
  - done.
  - cbn [cons_r cons_e cons_w c' set_cons_e]. lia.
  - intros Hin. apply Hl. rewrite Hed. apply elem_of_app. by left.
Qed.

(** Adding a character. *)
Lemma cons_append c ch :
  cons_ok c -> ring_len (2 ^ 32) (cons_r c) (cons_e c) < 128 ->
  let c' := set_cons_e (u32 (cons_e c + 1)) (set_cons_buf (<[Z.to_nat (cons_e c mod INPUT_BUF_SIZE) := ch]> (cons_buf c)) c) in
  ring_ok INPUT_BUF_SIZE (2 ^ 32) (cons_buf c') (cons_r c') (cons_e c') /\
  ring_len (2 ^ 32) (cons_r c') (cons_e c') = ring_len (2 ^ 32) (cons_r c) (cons_e c) + 1 /\
  ring_len (2 ^ 32) (cons_r c') (cons_w c') <= ring_len (2 ^ 32) (cons_r c') (cons_e c') /\
  committed c' = committed c /\ editing c' = editing c ++ [ch].
Proof.
  intros O Hl c'. destruct cons_consts as (HN & HM & HD). pose proof (cons_whole c O) as Hwh.
  destruct O as [R Hw Ho _]. unfold INPUT_BUF_SIZE in HN, HM, HD.
  destruct (ring_push 128 (2 ^ 32) HN HM HD _ _ _ ch R Hl) as [R' E'].
  assert (Hre : ring_len (2 ^ 32) (cons_r c) (u32 (cons_e c + 1)) = ring_len (2 ^ 32) (cons_r c) (cons_e c) + 1).
  { by apply (ring_len_push 128 (2 ^ 32) HN HM). }
  assert (Ho' : ring_len (2 ^ 32) (cons_r c') (cons_w c') <= ring_len (2 ^ 32) (cons_r c') (cons_e c')).
  { cbn [cons_r cons_e cons_w c' set_cons_e set_cons_buf]. lia. }
  split; [done|]. split; [done|]. split; [done|].
  assert (Hsp := ring_split 128 (2 ^ 32) HN HM HD (cons_buf c') _ _ _ Ho').
  change (ring_list 128 (2 ^ 32) (cons_buf c') (cons_r c') (cons_e c') = committed c' ++ editing c') in Hsp.
  change (ring_list 128 (2 ^ 32) (cons_buf c') (cons_r c') (cons_e c') =
    ring_list INPUT_BUF_SIZE (2 ^ 32) (cons_buf c) (cons_r c) (cons_e c) ++ [ch]) in E'.
  rewrite E', Hwh, <- app_assoc in Hsp. apply app_inj_1 in Hsp as [H1 H2].
  - split; symmetry; done.
  - unfold committed. by rewrite !ring_length.
Qed.

Lemma cons_ok_ring_nil c : cons_ok c -> cons_e c = cons_w c -> editing c = [].
Proof. intros O E. unfold editing, ring_list, ring_len. rewrite E, Z.sub_diag. done. Qed.

Lemma bind_consputc c s :
  exists u, forall B (k : K B), (consputc c ;;; k) s = k (set_k_uart u s).
Proof. destruct (prints_consputc c s) as [u E]. exists u. intros B k. by rewrite (bind_ok _ _ _ _ _ E). Qed.

Lemma kill_line_ok k : forall s,
  cons_ok (k_cons s) -> (length (editing (k_cons s)) <= k)%nat ->
  exists u c', kill_line k s = Ok tt (set_k_uart u (set_k_cons c' s)) /\ cons_ok c' /\
    committed c' = committed (k_cons s) /\ editing c' = [].
Proof.
  induction k as [|k IH]; intros s O Hl.
  { exists (k_uart s), (k_cons s). split; [done|]. split; [done|]. split; [done|]. apply nil_length_inv. lia. }
  cbn [kill_line]. rewrite bind_gets. set (c := k_cons s) in *.
  destruct (Z.eqb_spec (cons_e c) (cons_w c)) as [E|E]; cbn [orb].
  { exists (k_uart s), c. split; [done|]. split; [done|]. split; [done|]. by apply cons_ok_ring_nil. }
  destruct (cons_erase c O E) as (O' & Hc & He). set (c1 := set_cons_e _ c) in *.
  destruct (Z.eqb_spec (nth (Z.to_nat (u32 (cons_e c - 1) mod INPUT_BUF_SIZE)) (cons_buf c) 0) 10) as [E10|E10].
  { exfalso. apply (co_line _ O). rewrite He, E10. apply elem_of_app. right. left. }
  unfold cons_set. rewrite bind_modify. fold c. change (set_cons_e _ c) with c1.
  destruct (bind_consputc BACKSPACE (set_k_cons c1 s)) as [u Eu]. rewrite Eu.
  destruct (IH (set_k_uart u (set_k_cons c1 s))) as (u' & c' & E' & O'' & Hc' & He').
  { exact O'. }
  { change (length (editing c1) <= k)%nat. rewrite He, length_app in Hl. simpl in Hl. lia. }
  exists u', c'. split; [exact E'|]. split; [done|]. split; [|done]. rewrite Hc'. exact Hc.
Qed.

(** A character is appended to the line, and may end it. *)
Lemma type_step_ok s ch :
  cons_ok (k_cons s) -> length (k_procs s) = NPROC -> no_proc_lock s ->
  ring_len (2 ^ 32) (cons_r (k_cons s)) (cons_e (k_cons s)) < 128 ->
  let com := committed (k_cons s) in let ed := editing (k_cons s) in
  exists s', (cons_set (fun cs => set_cons_e (u32 (cons_e cs + 1))
         (set_cons_buf (<[Z.to_nat (cons_e cs mod INPUT_BUF_SIZE) := ch]> (cons_buf cs)) cs)) ;;;
       let! cs := gets (fun s => k_cons s) in
       if (ch =? 10) || (ch =? 4) || (u32 (cons_e cs - cons_r cs) =? INPUT_BUF_SIZE) then
         cons_set (set_cons_w (cons_e cs)) ;;;
         wakeup ch_cons_r
       else ret tt) s = Ok tt s' /\ cons_ok (k_cons s') /\ k_held s' = k_held s /\
    (committed (k_cons s'), editing (k_cons s')) =
      if (ch =? 10) || (ch =? 4) || (Z.of_nat (length com + length ed) =? 127)
      then (com ++ ed ++ [ch], []) else (com, ed ++ [ch]).
Proof.
  intros O Hp Hl Hlen com ed. unfold cons_set at 1. rewrite bind_modify.
  destruct (cons_lengths _ O) as (Hle & _). fold com ed in Hle.
  destruct (cons_append (k_cons s) ch O Hlen) as (R1 & L1 & O1 & C1 & E1).
  set (c1 := set_cons_e _ _) in *. set (s1 := set_k_cons _ s). change (k_cons s1) with c1.
  rewrite bind_gets. change (k_cons s1) with c1.
  change (u32 (cons_e c1 - cons_r c1)) with (ring_len (2 ^ 32) (cons_r c1) (cons_e c1)). rewrite L1.
  replace (ring_len (2 ^ 32) (cons_r (k_cons s)) (cons_e (k_cons s)) + 1 =? INPUT_BUF_SIZE)
    with (Z.of_nat (length com + length ed) =? 127)
    by (rewrite Hle; unfold INPUT_BUF_SIZE; repeat case_test; lia).
  destruct ((ch =? 10) || (ch =? 4) || _) eqn:Et.
  - unfold cons_set. rewrite bind_modify. change (k_cons s1) with c1.
    set (c2 := set_cons_w (cons_e c1) c1). set (s2 := set_k_cons c2 s1).
    rewrite (wakeup_eq ch_cons_r s2) by done. exists (wake_all ch_cons_r s2). split; [done|].
    change (k_cons (wake_all ch_cons_r s2)) with c2.
    assert (H1 : committed c2 = com ++ ed ++ [ch]).
    { unfold com, ed. rewrite <- C1, <- E1. apply ring_split; [apply cons_consts..|exact O1]. }
    assert (H2 : editing c2 = []).
    { unfold editing, ring_list, ring_len. cbn [cons_w cons_e c2 set_cons_w]. by rewrite Z.sub_diag. }
    split; [|split; [done|by rewrite H1, H2]].
    split; [exact R1|apply R1|cbn [cons_r cons_w cons_e c2 set_cons_w]; lia|]. rewrite H2. apply not_elem_of_nil.
  - exists s1. split; [done|]. change (k_cons s1) with c1. rewrite C1, E1. split; [|done].
    split; [exact R1|apply O|exact O1|]. rewrite E1, elem_of_app, list_elem_of_singleton.
    intros [H|H]; [by apply (co_line _ O)|]. subst ch. discriminate.
Qed.

(** ** Theorems *)

(** [C35] The input interrupt refines the line editor: for every character,
    control characters included, [consoleintr] returns, and the committed
    input and the line being typed change as [type_char] says; the three
    indices stay in order and within one buffer length, although they wrap
    at 2^32. *)
Theorem consoleintr_refines c s :
  cons_ok (k_cons s) -> length (k_procs s) = NPROC -> k_held s = [] ->
  exists s', consoleintr c s = Ok tt s' /\ cons_ok (k_cons s') /\ k_held s' = [] /\
    (committed (k_cons s'), editing (k_cons s')) = type_char (committed (k_cons s), editing (k_cons s)) c.
Proof.
  intros O Hp Hh. unfold consoleintr. rewrite bind_acquire by (rewrite Hh; apply not_elem_of_nil). rewrite Hh.
  set (s0 := set_k_held [cons_lock] s). set (m := if c =? 16 then _ else _).
  assert (Hm : exists s1, m s0 = Ok tt s1 /\ cons_ok (k_cons s1) /\ k_held s1 = [cons_lock] /\
    (committed (k_cons s1), editing (k_cons s1)) = type_char (committed (k_cons s), editing (k_cons s)) c).
  2: { destruct Hm as (s1 & E1 & O1 & H1 & T1). rewrite (bind_ok _ _ _ _ _ E1).
       exists (set_k_held [] s1). split; [|done]. apply release_ok; [done|apply not_elem_of_nil]. }
  unfold m, type_char. clear m. destruct (c =? 16).
  { destruct (procdump_prints s0) as [u E]; [by cbn; rewrite list_elem_of_singleton|].
    exists (set_k_uart u s0). by split. }
  destruct (c =? 21).
  { rewrite bind_gets. change (k_cons s0) with (k_cons s). destruct (cons_lengths _ O) as (_ & _ & He).
    destruct (kill_line_ok (Z.to_nat (u32 (cons_e (k_cons s) - cons_w (k_cons s)))) s0 O) as (u & c' & E & O' & Hc & Hed).
    { change (k_cons s0) with (k_cons s).
      change (u32 (cons_e (k_cons s) - cons_w (k_cons s))) with (ring_len (2 ^ 32) (cons_w (k_cons s)) (cons_e (k_cons s))).
      lia. }
    eexists. split; [exact E|]. split; [done|]. split; [done|]. cbn [k_cons set_k_uart set_k_cons].
    by rewrite Hc, Hed. }
  destruct ((c =? 8) || (c =? 127)).
  { rewrite bind_gets. change (k_cons s0) with (k_cons s).
    destruct (Z.eqb_spec (cons_e (k_cons s)) (cons_w (k_cons s))) as [E|E].
    - exists s0. split; [done|]. split; [done|]. split; [done|]. change (k_cons s0) with (k_cons s).
      by rewrite (cons_ok_ring_nil _ O E).
    - destruct (cons_erase _ O E) as (O' & Hc & He). unfold cons_set. rewrite bind_modify.
      change (k_cons s0) with (k_cons s).
      destruct (prints_consputc BACKSPACE (set_k_cons (set_cons_e (u32 (cons_e (k_cons s) - 1)) (k_cons s)) s0)) as [u Eu].
      eexists. split; [exact Eu|]. split; [exact O'|]. split; [done|]. cbn [k_cons set_k_uart set_k_cons].
      rewrite Hc, He, length_app, Nat.add_sub, take_app_length. done. }
  rewrite bind_gets. change (k_cons s0) with (k_cons s). destruct (cons_lengths _ O) as (Hle & _). rewrite Hle.
  change (u32 (cons_e (k_cons s) - cons_r (k_cons s))) with (ring_len (2 ^ 32) (cons_r (k_cons s)) (cons_e (k_cons s))).
  unfold INPUT_BUF_SIZE at 1. destruct (negb (c =? 0) && _) eqn:Et; [|by exists s0].
  apply andb_prop in Et as [_ Et]. apply Z.ltb_lt in Et. set (ch := if c =? 13 then 10 else c).
  destruct (bind_consputc ch s0) as [u Eu]. rewrite Eu.
  destruct (type_step_ok (set_k_uart u s0) ch) as (s1 & E1 & O1 & H1 & T1); [done|done| |done|].
  { intros i _. change (k_held (set_k_uart u s0)) with [cons_lock]. by rewrite list_elem_of_singleton. }
  rewrite <- Hle. exists s1. split; [exact E1|]. split; [done|]. split; [done|exact T1].
Qed.

(** ** Witnesses *)

Lemma cons_zero_ok : cons_ok console_zero.
Proof.
  split; [split|..]; unfold INPUT_BUF_SIZE, ring_len; cbn [cons_r cons_w cons_e console_zero]; try lia; try done.
  apply not_elem_of_nil.
Qed.

Lemma consoleintr_refines_witness :
  exists s', consoleintr 97 kstate_zero = Ok tt s' /\ editing (k_cons s') = [97].
Proof.
  destruct (consoleintr_refines 97 kstate_zero) as (s' & E & _ & _ & T).
  - apply cons_zero_ok.
  - apply length_replicate.
  - reflexivity.
  - exists s'. split; [exact E|]. assert (Hs : (committed (k_cons s'), editing (k_cons s')).2 = [97]) by (by rewrite T).
    exact Hs.
Defined.
