(* ===== verification/Sleeplock.v ===== *)
(** * kernel/sleeplock.c: sleep locks

    A sleep lock is the [lock] field of a buffer or of an inode; its inner
    spin lock is [sleeplk id].  A process that finds it taken sleeps. *)

From S2P Require Import Prelude KString KState Riscv Spinlock Kalloc Vm Sched.

Definition get_inode (s : kstate) (i : nat) : inode := default inode_zero (k_inodes s !! i).
Definition upd_inode (i : nat) (f : inode -> inode) (s : kstate) : kstate :=
  set_k_inodes (alter f i (k_inodes s)) s.
Definition get_buf (s : kstate) (i : nat) : buf := default buf_zero (k_bufs s !! i).
Definition upd_buf (i : nat) (f : buf -> buf) (s : kstate) : kstate :=
  set_k_bufs (alter f i (k_bufs s)) s.

(** The sleep lock named [id]. *)
Definition get_sl (s : kstate) (id : sleeplock_id) : sleeplock :=
  match id with
  | sl_inode i => i_lock (get_inode s i)
  | sl_buf i => b_lock (get_buf s i)
  end.

Definition upd_sl (id : sleeplock_id) (v : sleeplock) (s : kstate) : kstate :=
  match id with
  | sl_inode i => upd_inode i (set_i_lock v) s
  | sl_buf i => upd_buf i (set_b_lock v) s
  end.

Definition initsleeplock (id : sleeplock_id) : K unit := modify (upd_sl id (mkSleeplock false 0)).

(** [acquiresleep] from the [while] test on, with the spin lock held: this is
    also where it continues after a sleep. *)
Definition acquiresleep_loop (id : sleeplock_id) : K unit :=
  let! lk := gets (fun s => get_sl s id) in
  if sl_locked lk then sleep (ch_sleeplock id) (sleeplk id)
  else
    let! i := myproc_ in
    modify (fun s => upd_sl id (mkSleeplock true (p_pid (get_proc s i))) s) ;;;
    release (sleeplk id).

Definition acquiresleep (id : sleeplock_id) : K unit :=
  acquire (sleeplk id) ;;;
  acquiresleep_loop id.

Definition releasesleep (id : sleeplock_id) : K unit :=
  acquire (sleeplk id) ;;;
  modify (upd_sl id (mkSleeplock false 0)) ;;;
  wakeup (ch_sleeplock id) ;;;
  release (sleeplk id).

Definition holdingsleep (id : sleeplock_id) : K bool :=
  acquire (sleeplk id) ;;;
  let! i := myproc_ in
  let! r := gets (fun s => sl_locked (get_sl s id) && (sl_pid (get_sl s id) =? p_pid (get_proc s i))) in
  release (sleeplk id) ;;;
  ret r.

(** ** Laws of the accessors *)

Lemma get_upd_buf_same s i f :
  (i < length (k_bufs s))%nat -> get_buf (upd_buf i f s) i = f (get_buf s i).
Proof.
  intros H. unfold get_buf, upd_buf. cbn [k_bufs set_k_bufs]. rewrite list_lookup_alter_eq.
  by destruct (lookup_lt_is_Some_2 _ _ H) as [b ->].
Qed.

Lemma get_upd_buf_other s i j f : i <> j -> get_buf (upd_buf i f s) j = get_buf s j.
Proof.
  intros H. unfold get_buf, upd_buf. cbn [k_bufs set_k_bufs]. by rewrite list_lookup_alter_ne.
Qed.

Lemma length_upd_buf s i f : length (k_bufs (upd_buf i f s)) = length (k_bufs s).
Proof. apply length_alter. Qed.

Lemma get_upd_inode_same s i f :
  (i < length (k_inodes s))%nat -> get_inode (upd_inode i f s) i = f (get_inode s i).
Proof.
  intros H. unfold get_inode, upd_inode. cbn [k_inodes set_k_inodes]. rewrite list_lookup_alter_eq.
  by destruct (lookup_lt_is_Some_2 _ _ H) as [b ->].
Qed.

Lemma get_upd_inode_other s i j f : i <> j -> get_inode (upd_inode i f s) j = get_inode s j.
Proof.
  intros H. unfold get_inode, upd_inode. cbn [k_inodes set_k_inodes]. by rewrite list_lookup_alter_ne.
Qed.

Lemma length_upd_inode s i f : length (k_inodes (upd_inode i f s)) = length (k_inodes s).
Proof. apply length_alter. Qed.

(** ** Functional behaviour *)

Lemma upd_sl_held id v h s : upd_sl id v (set_k_held h s) = set_k_held h (upd_sl id v s).
Proof. by destruct id. Qed.

Lemma get_sl_held id h s : get_sl (set_k_held h s) id = get_sl s id.
Proof. by destruct id. Qed.

(** A free lock is taken by the current process. *)
Lemma acquiresleep_free id i s :
  k_cur s = Some i -> (sleeplk id ∉ k_held s) -> sl_locked (get_sl s id) = false ->
  acquiresleep id s = Ok tt (upd_sl id (mkSleeplock true (p_pid (get_proc s i))) s).
Proof.
  intros Hc Hh Hl. unfold acquiresleep. rewrite bind_acquire by done.
  unfold acquiresleep_loop. rewrite bind_gets, get_sl_held, Hl. rewrite (bind_myproc_ _ i) by done.
  rewrite bind_modify, get_proc_held, upd_sl_held.
  assert (Hk : k_held (upd_sl id (mkSleeplock true (p_pid (get_proc s i))) s) = k_held s) by (by destruct id).
  rewrite (release_ok _ (k_held s)); [|done|done]. f_equal. by destruct id.
Qed.

(** A taken one puts the caller to sleep on it (it may hold no other lock). *)
Lemma acquiresleep_taken id i s :
  k_cur s = Some i -> k_held s = [] -> (i < length (k_procs s))%nat ->
  sl_locked (get_sl s id) = true ->
  acquiresleep id s = Sleeps (asleep (ch_sleeplock id) i (set_k_held [sleeplk id] s)).
Proof.
  intros Hc Hh Hi Hl. unfold acquiresleep. rewrite bind_acquire by (rewrite Hh; apply not_elem_of_nil).
  unfold acquiresleep_loop. rewrite bind_gets, get_sl_held, Hl, Hh. by apply sleep_eq.
Qed.

Lemma holdingsleep_eq id i s :
  k_cur s = Some i -> (sleeplk id ∉ k_held s) ->
  holdingsleep id s = Ok (sl_locked (get_sl s id) && (sl_pid (get_sl s id) =? p_pid (get_proc s i))) s.
Proof.
  intros Hc Hh. unfold holdingsleep. rewrite bind_acquire by done. rewrite (bind_myproc_ _ i) by done.
  rewrite bind_gets, get_sl_held, get_proc_held. by rewrite (bind_release _ (k_held s)).
Qed.

(** Everybody who waits for it is made runnable. *)
Lemma releasesleep_eq id s :
  length (k_procs s) = NPROC -> no_proc_lock s -> (sleeplk id ∉ k_held s) ->
  releasesleep id s = Ok tt (wake_all (ch_sleeplock id) (upd_sl id (mkSleeplock false 0) s)).
Proof.
  intros Hlen Hl Hh. unfold releasesleep. rewrite bind_acquire, bind_modify, upd_sl_held by done.
  set (s1 := upd_sl id (mkSleeplock false 0) s).
  assert (Hk : k_held s1 = k_held s) by (by unfold s1; destruct id).
  assert (Hc : k_cur s1 = k_cur s) by (by unfold s1; destruct id).
  assert (Hp : k_procs s1 = k_procs s) by (by unfold s1; destruct id).
  assert (E : wakeup (ch_sleeplock id) (set_k_held (sleeplk id :: k_held s) s1) =
    Ok tt (set_k_held (sleeplk id :: k_held s) (wake_all (ch_sleeplock id) s1))).
  { rewrite wakeup_eq; [done|by cbn [k_procs set_k_held]; rewrite Hp|].
    intros i Hi. cbn [k_held set_k_held]. rewrite not_elem_of_cons. split; [done|]. apply Hl.
    cbn [k_cur set_k_held] in Hi. congruence. }
  rewrite (bind_ok _ _ _ _ _ E). rewrite (release_ok _ (k_held s)) by done. f_equal.
  unfold wake_all. by rewrite <- Hk.
Qed.
