(* ===== verification/Bio.v ===== *)
(** * kernel/bio.c: the block cache

    The buffers are [k_bufs]; the doubly linked LRU list through their
    [prev] and [next] fields is the list of indices [k_lru], most recently
    used first.  [virtio_disk_rw] transfers the block at once ([Virtio.v]
    models the driver); every write is also appended to [k_dwrites], so that
    a crash is a prefix of that trace.

    The second half is the cache's contract: [blk s b] is the content of
    block [b] as the file system sees it, and [cache s pins held] the
    invariant, with the blocks pinned by the log and the blocks the running
    process has locked. *)

From S2P Require Import Prelude KString Bytes KState Riscv Spinlock Kalloc Vm Sched Sleeplock.

(** ** The disk *)

Definition disk_blk (s : kstate) (b : Z) : list Z :=
  default (replicate (Z.to_nat BSIZE) 0) (k_disk s !! b).

(** [virtio_disk_rw(b, write)] on buffer [i]. *)
Definition virtio_disk_rw (i : nat) (write : bool) : K unit :=
  let! b := gets (fun s => get_buf s i) in
  if write then
    modify (fun s => set_k_dwrites (k_dwrites s ++ [(b_blockno b, b_data b)])
      (set_k_disk (<[b_blockno b := b_data b]> (k_disk s)) s))
  else
    modify (fun s => upd_buf i (set_b_data (disk_blk s (b_blockno b))) s).

(** ** The cache *)

Fixpoint binit_loop (ix : list nat) : K unit :=
  match ix with
  | [] => ret tt
  | i :: ix =>
      initsleeplock (sl_buf i) ;;;
      modify (fun s => set_k_lru (i :: k_lru s) s) ;;;
      binit_loop ix
  end.

Definition binit : K unit :=
  modify (set_k_lru []) ;;;
  binit_loop (seq 0 NBUF).

(** The first loop of [bget], from the head of the list on. *)
Fixpoint bget_cached (s : kstate) (l : list nat) (dev blockno : Z) : option nat :=
  match l with
  | [] => None
  | i :: l =>
      if (b_dev (get_buf s i) =? dev) && (b_blockno (get_buf s i) =? blockno) then Some i
      else bget_cached s l dev blockno
  end.

(** The second loop, over the list in the other direction. *)
Fixpoint bget_unused (s : kstate) (l : list nat) : option nat :=
  match l with
  | [] => None
  | i :: l => if b_refcnt (get_buf s i) =? 0 then Some i else bget_unused s l
  end.

Definition bget (dev blockno : Z) : K nat :=
  acquire bcache_lock ;;;
  let! hit := gets (fun s => bget_cached s (k_lru s) dev blockno) in
  match hit with
  | Some i =>
      modify (fun s => upd_buf i (fun b => set_b_refcnt (u32 (b_refcnt b + 1)) b) s) ;;;
      release bcache_lock ;;;
      acquiresleep (sl_buf i) ;;;
      ret i
  | None =>
      let! free := gets (fun s => bget_unused s (rev (k_lru s))) in
      match free with
      | Some i =>
          modify (upd_buf i (fun b =>
            set_b_refcnt 1 (set_b_valid false (set_b_blockno blockno (set_b_dev dev b))))) ;;;
          release bcache_lock ;;;
          acquiresleep (sl_buf i) ;;;
          ret i
      | None => panic "bget: no buffers"
      end
  end.

Definition bread (dev blockno : Z) : K nat :=
  let! i := bget dev blockno in
  let! b := gets (fun s => get_buf s i) in
  if negb (b_valid b) then
    virtio_disk_rw i false ;;;
    modify (upd_buf i (set_b_valid true)) ;;;
    ret i
  else ret i.

Definition bwrite (i : nat) : K unit :=
  let! h := holdingsleep (sl_buf i) in
  if negb h then panic "bwrite" else virtio_disk_rw i true.

Definition brelse (i : nat) : K unit :=
  let! h := holdingsleep (sl_buf i) in
  if negb h then panic "brelse"
  else
    releasesleep (sl_buf i) ;;;
    acquire bcache_lock ;;;
    modify (upd_buf i (fun b => set_b_refcnt (u32 (b_refcnt b - 1)) b)) ;;;
    modify (fun s =>
      if b_refcnt (get_buf s i) =? 0 then set_k_lru (i :: remove Nat.eq_dec i (k_lru s)) s else s) ;;;
    release bcache_lock.

Definition bpin (i : nat) : K unit :=
  acquire bcache_lock ;;;
  modify (upd_buf i (fun b => set_b_refcnt (u32 (b_refcnt b + 1)) b)) ;;;
  release bcache_lock.

Definition bunpin (i : nat) : K unit :=
  acquire bcache_lock ;;;
  modify (upd_buf i (fun b => set_b_refcnt (u32 (b_refcnt b - 1)) b)) ;;;
  release bcache_lock.

(** Reads and changes of the bytes of a locked buffer. *)
Definition bdata (i : nat) : K (list Z) := gets (fun s => b_data (get_buf s i)).
Definition set_bdata (i : nat) (d : list Z) : K unit := modify (upd_buf i (set_b_data d)).

(** ** The contract *)

(** Buffer [i] is the buffer of block [b]. *)
Definition is_buf (s : kstate) (i : nat) (b : Z) : Prop :=
  (i < NBUF)%nat /\ b_dev (get_buf s i) = ROOTDEV /\ b_blockno (get_buf s i) = b.

(** Block [b] as the file system sees it. *)
Fixpoint blk_in (s : kstate) (l : list nat) (b : Z) : list Z :=
  match l with
  | [] => disk_blk s b
  | i :: l =>
      if (b_dev (get_buf s i) =? ROOTDEV) && (b_blockno (get_buf s i) =? b) && b_valid (get_buf s i)
      then b_data (get_buf s i) else blk_in s l b
  end.

Definition blk (s : kstate) (b : Z) : list Z := blk_in s (seq 0 NBUF) b.

(** How often [b] is in [l], for references. *)
Definition refs (l : list Z) (b : Z) : Z := if bool_decide (b ∈ l) then 1 else 0.

Record cache (s : kstate) (pins held : list Z) : Prop := {
  ca_len : length (k_bufs s) = NBUF;
  ca_lru : k_lru s ≡ₚ seq 0 NBUF;
  ca_cur : exists me, k_cur s = Some me /\ (me < NPROC)%nat;
  ca_procs : length (k_procs s) = NPROC;
  ca_spin : k_held s = [];
  ca_dev : forall i, (i < NBUF)%nat -> b_dev (get_buf s i) = 0 \/ b_dev (get_buf s i) = ROOTDEV;
  ca_idle : forall i, (i < NBUF)%nat -> b_dev (get_buf s i) = 0 ->
    b_refcnt (get_buf s i) = 0 /\ sl_locked (b_lock (get_buf s i)) = false;
  ca_uniq : forall i j b, is_buf s i b -> is_buf s j b -> i = j;
  ca_ref : forall i b, is_buf s i b -> b_refcnt (get_buf s i) = refs pins b + refs held b;
  ca_free : forall i b, is_buf s i b -> (b ∉ held) -> sl_locked (b_lock (get_buf s i)) = false;
  ca_mine : forall i b me, is_buf s i b -> b ∈ held -> k_cur s = Some me ->
    b_lock (get_buf s i) = mkSleeplock true (p_pid (get_proc s me));
  ca_present : forall b, b ∈ pins \/ b ∈ held -> exists i, is_buf s i b /\ b_valid (get_buf s i) = true;
  ca_clean : forall i b, is_buf s i b -> b_valid (get_buf s i) = true -> (b ∉ pins) -> (b ∉ held) ->
    b_data (get_buf s i) = disk_blk s b
}.

(** Processes may have been woken up. *)
Definition woke (p p' : proc) : Prop :=
  p' = p \/ (p_state p = SLEEPING /\ p' = set_p_state RUNNABLE p).

#[global] Instance woke_preorder : PreOrder woke.
Proof.
  split; [by left|]. intros p p' p'' [->|[Hs ->]] [->|[Hs' ->]]; unfold woke; auto.
Qed.

Definition woken (s s' : kstate) : Prop :=
  Forall2 woke (k_procs s) (k_procs s') /\
  forall me, k_cur s = Some me -> get_proc s' me = get_proc s me.

(** What cache operations may change. *)
Definition bio_frame (s s' : kstate) : Prop :=
  s' = set_k_bufs (k_bufs s') (set_k_lru (k_lru s') (set_k_disk (k_disk s')
         (set_k_dwrites (k_dwrites s') (set_k_procs (k_procs s') s)))) /\ woken s s'.

(** ** Lookups *)

Lemma bget_cached_ext s s' l dev b :
  (forall i, get_buf s' i = get_buf s i) -> bget_cached s' l dev b = bget_cached s l dev b.
Proof. intros H. induction l as [|i l IH]; cbn [bget_cached]; [done|]. by rewrite H, IH. Qed.

Lemma bget_unused_ext s s' l :
  (forall i, get_buf s' i = get_buf s i) -> bget_unused s' l = bget_unused s l.
Proof. intros H. induction l as [|i l IH]; cbn [bget_unused]; [done|]. by rewrite H, IH. Qed.

Lemma blk_ext s s' b :
  (forall i, get_buf s' i = get_buf s i) -> disk_blk s' b = disk_blk s b -> blk s' b = blk s b.
Proof.
  intros H Hd. unfold blk. induction (seq 0 NBUF) as [|i l IH]; cbn [blk_in]; [done|]. by rewrite H, IH.
Qed.

Lemma bget_cached_some s l dev b i :
  bget_cached s l dev b = Some i -> i ∈ l /\ b_dev (get_buf s i) = dev /\ b_blockno (get_buf s i) = b.
Proof.
  induction l as [|j l IH]; cbn [bget_cached]; [done|].
  destruct (Z.eqb_spec (b_dev (get_buf s j)) dev), (Z.eqb_spec (b_blockno (get_buf s j)) b); simpl;
    try (intros H; destruct (IH H) as (? & ? & ?); split; [by right|done]).
  intros [= <-]. split; [left|done].
Qed.

Lemma bget_cached_none s l dev b i :
  bget_cached s l dev b = None -> i ∈ l -> ~ (b_dev (get_buf s i) = dev /\ b_blockno (get_buf s i) = b).
Proof.
  induction l as [|j l IH]; cbn [bget_cached]; [intros _ H; by apply not_elem_of_nil in H|].
  destruct (Z.eqb_spec (b_dev (get_buf s j)) dev), (Z.eqb_spec (b_blockno (get_buf s j)) b); simpl;
    intros H; try done; (intros [->|Hi]%elem_of_cons; [intuition congruence|by apply IH]).
Qed.

Lemma bget_unused_some s l i : bget_unused s l = Some i -> i ∈ l /\ b_refcnt (get_buf s i) = 0.
Proof.
  induction l as [|j l IH]; cbn [bget_unused]; [done|].
  destruct (Z.eqb_spec (b_refcnt (get_buf s j)) 0).
  - intros [= <-]. split; [left|done].
  - intros H. destruct (IH H). split; [by right|done].
Qed.

Lemma bget_unused_none s l i : bget_unused s l = None -> i ∈ l -> b_refcnt (get_buf s i) <> 0.
Proof.
  induction l as [|j l IH]; cbn [bget_unused]; [intros _ H; by apply not_elem_of_nil in H|].
  destruct (Z.eqb_spec (b_refcnt (get_buf s j)) 0); [done|].
  intros H [->|Hi]%elem_of_cons; [done|]. by apply IH.
Qed.

Lemma blk_in_some s l b i :
  i ∈ l -> (forall j, j ∈ l -> b_dev (get_buf s j) = ROOTDEV -> b_blockno (get_buf s j) = b -> j = i) ->
  b_dev (get_buf s i) = ROOTDEV -> b_blockno (get_buf s i) = b -> b_valid (get_buf s i) = true ->
  blk_in s l b = b_data (get_buf s i).
Proof.
  intros Hi Hu Hd Hb Hv. induction l as [|j l IH]; [by apply not_elem_of_nil in Hi|].
  cbn [blk_in]. destruct (Z.eqb_spec (b_dev (get_buf s j)) ROOTDEV) as [Ed|Ed],
    (Z.eqb_spec (b_blockno (get_buf s j)) b) as [Eb|Eb]; cbn [andb].
  - rewrite (Hu j ltac:(left) Ed Eb). by rewrite Hv.
  - apply IH; [|intros k Hk; apply Hu; by right]. apply elem_of_cons in Hi as [->|]; [congruence|done].
  - apply IH; [|intros k Hk; apply Hu; by right]. apply elem_of_cons in Hi as [->|]; [congruence|done].
  - apply IH; [|intros k Hk; apply Hu; by right]. apply elem_of_cons in Hi as [->|]; [congruence|done].
Qed.

Lemma blk_in_none s l b :
  (forall j, j ∈ l -> b_dev (get_buf s j) = ROOTDEV -> b_blockno (get_buf s j) = b ->
     b_valid (get_buf s j) = false) ->
  blk_in s l b = disk_blk s b.
Proof.
  induction l as [|j l IH]; intros H; cbn [blk_in]; [done|].
  destruct (Z.eqb_spec (b_dev (get_buf s j)) ROOTDEV), (Z.eqb_spec (b_blockno (get_buf s j)) b);
    cbn [andb]; try (apply IH; intros k Hk; apply H; by right).
  rewrite (H j ltac:(left)) by done. apply IH. intros k Hk. apply H. by right.
Qed.

Section Cache.
Variables (s : kstate) (pins held : list Z).
Hypothesis (C : cache s pins held).

Lemma blk_cached i b : is_buf s i b -> b_valid (get_buf s i) = true -> blk s b = b_data (get_buf s i).
Proof.
  intros (Hi & Hd & Hb) Hv. apply (blk_in_some s (seq 0 NBUF) b i); [apply elem_of_seq; lia| |done..].
  intros j Hj Hdj Hbj. apply elem_of_seq in Hj.
  apply (ca_uniq _ _ _ C j i b); unfold is_buf; split_and!; try done; lia.
Qed.

Lemma blk_uncached b : (forall i, is_buf s i b -> b_valid (get_buf s i) = false) -> blk s b = disk_blk s b.
Proof.
  intros H. apply blk_in_none. intros j Hj Hd Hb. apply H. apply elem_of_seq in Hj.
  split_and!; try done. lia.
Qed.

Lemma in_lru i : i ∈ k_lru s <-> (i < NBUF)%nat.
Proof. rewrite (ca_lru _ _ _ C), elem_of_seq. lia. Qed.

(** There is an unused buffer while fewer than [NBUF] blocks are in use. *)
Lemma unused_exists :
  (length pins + length held < NBUF)%nat -> exists i, (i < NBUF)%nat /\ b_refcnt (get_buf s i) = 0.
Proof.
  intros Hlt. destruct (bget_unused s (seq 0 NBUF)) as [i|] eqn:E.
  { apply bget_unused_some in E as [Hi Hr]. exists i. apply elem_of_seq in Hi. split; [lia|done]. }
  exfalso.
  assert (Hall : forall i, (i < NBUF)%nat -> b_refcnt (get_buf s i) <> 0).
  { intros i Hi. apply (bget_unused_none _ _ _ E). apply elem_of_seq. lia. }
  assert (Hbuf : forall i, (i < NBUF)%nat -> is_buf s i (b_blockno (get_buf s i))).
  { intros i Hi. split; [done|]. split; [|done]. destruct (ca_dev _ _ _ C i Hi) as [H|]; [|done].
    destruct (ca_idle _ _ _ C i Hi H) as [Hz _]. by apply Hall in Hi. }
  set (f := fun i => b_blockno (get_buf s i)).
  assert (Hnd : NoDup (f <$> seq 0 NBUF)).
  { apply NoDup_fmap_2_strong; [|apply NoDup_seq]. intros i j Hi Hj Eij.
    apply elem_of_seq in Hi, Hj. apply (ca_uniq _ _ _ C i j (f i)); [apply Hbuf; lia|].
    rewrite Eij. apply Hbuf. lia. }
  assert (Hsub : f <$> seq 0 NBUF ⊆ pins ++ held).
  { intros b (i & -> & Hi)%list_elem_of_fmap. apply elem_of_seq in Hi.
    pose proof (ca_ref _ _ _ C i (f i) (Hbuf i ltac:(lia))) as Hr.
    pose proof (Hall i ltac:(lia)) as Hn. rewrite elem_of_app. unfold refs in Hr.
    destruct (bool_decide_reflect (f i ∈ pins)); [by left|].
    destruct (bool_decide_reflect (f i ∈ held)); [by right|]. lia. }
  pose proof (NoDup_submseteq _ _ Hnd Hsub) as Hs. apply submseteq_length in Hs.
  rewrite length_fmap, length_seq, length_app in Hs. lia.
Qed.

End Cache.

(** ** Updates of one buffer *)

Lemma refs_same l l' b : (b ∈ l <-> b ∈ l') -> refs l b = refs l' b.
Proof. intros H. unfold refs. by rewrite (bool_decide_ext _ _ H). Qed.

(** The general update: buffer [i] becomes the buffer [g (get_buf s i)] of
    block [b]; pins and locks of other blocks stay. *)
Lemma cache_upd s pins held pins' held' i b g me :
  cache s pins held -> (i < NBUF)%nat -> k_cur s = Some me ->
  let nb := g (get_buf s i) in
  b_dev nb = ROOTDEV -> b_blockno nb = b ->
  (forall j, is_buf s j b -> j = i) ->
  (forall b', b' <> b -> b' ∈ pins' <-> b' ∈ pins) ->
  (forall b', b' <> b -> b' ∈ held' <-> b' ∈ held) ->
  b_refcnt nb = refs pins' b + refs held' b ->
  b_lock nb = (if bool_decide (b ∈ held') then mkSleeplock true (p_pid (get_proc s me)) else b_lock nb) ->
  (b ∉ held' -> sl_locked (b_lock nb) = false) ->
  (b ∈ pins' \/ b ∈ held' -> b_valid nb = true) ->
  (b_valid nb = true -> (b ∉ pins') -> (b ∉ held') -> b_data nb = disk_blk s b) ->
  (forall b0, is_buf s i b0 -> b0 <> b -> (b0 ∉ pins) /\ (b0 ∉ held)) ->
  cache (upd_buf i g s) pins' held'.
Proof.
  intros C Hi Hme nb Hd Hb Hone Hpins Hheld Href Hlk Hunl Hval Hcl Hold.
  set (s' := upd_buf i g s).
  assert (Gi : get_buf s' i = nb).
  { unfold s'. rewrite get_upd_buf_same; [done|]. by rewrite (ca_len _ _ _ C). }
  assert (Gj : forall j, i <> j -> get_buf s' j = get_buf s j) by (intros j; apply get_upd_buf_other).
  assert (Hib : is_buf s' i b) by (unfold is_buf; by rewrite Gi).
  assert (Hj : forall j b', i <> j -> is_buf s' j b' <-> is_buf s j b').
  { intros j b' Hne. unfold is_buf. by rewrite Gj. }
  assert (Hibb : forall b', is_buf s' i b' -> b' = b).
  { intros b' (_ & _ & <-). by rewrite Gi. }
  assert (Hjb : forall j b', i <> j -> is_buf s' j b' -> b' <> b).
  { intros j b' Hne Hjb ->. apply Hne. symmetry. apply Hone. by apply Hj. }
  split.
  - unfold s'. rewrite length_upd_buf. apply C.
  - apply C.
  - apply C.
  - apply C.
  - apply C.
  - intros j Hjn. destruct (decide (i = j)) as [<-|]; [rewrite Gi; by right|]. rewrite Gj by done. by apply C.
  - intros j Hjn. destruct (decide (i = j)) as [<-|].
    + rewrite Gi, Hd. discriminate.
    + rewrite Gj by done. by apply C.
  - intros j k b' H1 H2. destruct (decide (i = j)) as [<-|Hij], (decide (i = k)) as [<-|Hik]; [done| | |].
    + exfalso. apply (Hjb k b' Hik H2). by apply Hibb.
    + exfalso. apply (Hjb j b' Hij H1). by apply Hibb.
    + apply (ca_uniq _ _ _ C j k b'); by apply Hj.
  - intros j b' H1. destruct (decide (i = j)) as [<-|Hij].
    + apply Hibb in H1 as ->. by rewrite Gi.
    + rewrite Gj by done. pose proof (Hjb j b' Hij H1) as Hne. apply Hj in H1; [|done].
      rewrite (ca_ref _ _ _ C j b' H1). f_equal; apply refs_same; symmetry; auto.
  - intros j b' H1 H2. destruct (decide (i = j)) as [<-|Hij].
    + apply Hibb in H1 as ->. rewrite Gi. by apply Hunl.
    + rewrite Gj by done. pose proof (Hjb j b' Hij H1) as Hne. apply Hj in H1; [|done].
      apply (ca_free _ _ _ C j b' H1). by rewrite <- Hheld.
  - intros j b' me' H1 H2 Hm. destruct (decide (i = j)) as [<-|Hij].
    + apply Hibb in H1 as ->. rewrite Gi, Hlk, bool_decide_eq_true_2 by done.
      change (k_cur s') with (k_cur s) in Hm. change (get_proc s' me') with (get_proc s me'). congruence.
    + rewrite Gj by done. pose proof (Hjb j b' Hij H1) as Hne. apply Hj in H1; [|done].
      apply (ca_mine _ _ _ C j b' me' H1); [by rewrite <- Hheld|done].
  - intros b' Hb'. destruct (decide (b' = b)) as [->|Hne].
    + exists i. split; [done|]. rewrite Gi. by apply Hval.
    + rewrite Hpins, Hheld in Hb' by done. destruct (ca_present _ _ _ C b' Hb') as (j & Hjb' & Hv).
      assert (i <> j).
      { intros <-. destruct (Hold b' Hjb' Hne). tauto. }
      exists j. split; [by apply Hj|]. by rewrite Gj.
  - intros j b' H1 Hv H2 H3. change (disk_blk s' b') with (disk_blk s b').
    destruct (decide (i = j)) as [<-|Hij].
    + apply Hibb in H1 as ->. rewrite Gi in Hv |- *. by apply Hcl.
    + rewrite Gj in Hv |- * by done. pose proof (Hjb j b' Hij H1) as Hne. apply Hj in H1; [|done].
      apply (ca_clean _ _ _ C j b' H1 Hv); [by rewrite <- Hpins|by rewrite <- Hheld].
Qed.

(** The view after such an update. *)
Lemma blk_upd s pins held i b g pins' held' :
  cache s pins held -> cache (upd_buf i g s) pins' held' -> (i < NBUF)%nat ->
  b_dev (g (get_buf s i)) = ROOTDEV -> b_blockno (g (get_buf s i)) = b ->
  b_valid (g (get_buf s i)) = true ->
  (forall b0, is_buf s i b0 -> b0 <> b -> b_valid (get_buf s i) = true -> b_data (get_buf s i) = disk_blk s b0) ->
  blk (upd_buf i g s) b = b_data (g (get_buf s i)) /\
  forall b', b' <> b -> blk (upd_buf i g s) b' = blk s b'.
Proof.
  intros C C' Hi Hd Hb Hv Hold. set (s' := upd_buf i g s) in *.
  assert (Gi : get_buf s' i = g (get_buf s i)).
  { unfold s'. rewrite get_upd_buf_same; [done|]. by rewrite (ca_len _ _ _ C). }
  assert (Gj : forall j, i <> j -> get_buf s' j = get_buf s j) by (intros j; apply get_upd_buf_other).
  split.
  - rewrite <- Gi. apply (blk_cached s' pins' held' C' i b); [|by rewrite Gi].
    unfold is_buf. by rewrite Gi.
  - intros b' Hne.
    destruct (bget_cached s (seq 0 NBUF) ROOTDEV b') as [j|] eqn:E.
    + apply bget_cached_some in E as (Hj & Hdj & Hbj). apply elem_of_seq in Hj.
      assert (Hjb : is_buf s j b') by (split_and!; [lia|done|done]).
      destruct (decide (i = j)) as [<-|Hij].
      * (* the buffer lost [b'] *)
        rewrite (blk_uncached s' b').
        2: { intros k (Hk & Hdk & Hbk). destruct (decide (i = k)) as [<-|Hik]; [rewrite Gi in Hbk; congruence|].
             rewrite Gj in Hdk, Hbk by done. exfalso. apply Hik.
             apply (ca_uniq _ _ _ C i k b'); [done|]. by split_and!. }
        destruct (b_valid (get_buf s i)) eqn:Hvi.
        -- rewrite (blk_cached s pins held C i b' Hjb Hvi). symmetry. by apply Hold.
        -- rewrite (blk_uncached s b'); [done|]. intros k Hk.
           by rewrite (ca_uniq _ _ _ C k i b' Hk Hjb).
      * assert (Hjb' : is_buf s' j b') by (unfold is_buf; rewrite Gj by done; exact Hjb).
        destruct (b_valid (get_buf s j)) eqn:Hvj.
        -- rewrite (blk_cached s pins held C j b' Hjb Hvj).
           rewrite (blk_cached s' pins' held' C' j b' Hjb') by (by rewrite Gj). by rewrite Gj.
        -- rewrite (blk_uncached s b'), (blk_uncached s' b'); [done| |].
           ++ intros k Hk. rewrite (ca_uniq _ _ _ C' k j b' Hk Hjb'). by rewrite Gj.
           ++ intros k Hk. by rewrite (ca_uniq _ _ _ C k j b' Hk Hjb).
    + assert (Hno : forall k, ~ is_buf s k b').
      { intros k (Hk & Hdk & Hbk). apply (bget_cached_none _ _ _ _ k E); [apply elem_of_seq; lia|done]. }
      rewrite (blk_uncached s b') by (intros k Hk; by apply Hno in Hk).
      rewrite (blk_uncached s' b'); [done|]. intros k Hk. exfalso.
      destruct (decide (i = k)) as [<-|Hik].
      * destruct Hk as (_ & _ & Hbk). rewrite Gi in Hbk. congruence.
      * apply (Hno k). unfold is_buf in *. by rewrite Gj in Hk.
Qed.

(** ** [bread] *)

Lemma upd_buf_upd_buf i f g s : upd_buf i f (upd_buf i g s) = upd_buf i (fun b => f (g b)) s.
Proof.
  unfold upd_buf. cbn [k_bufs set_k_bufs].
  change (set_k_bufs ?v (set_k_bufs ?w s)) with (set_k_bufs v s). f_equal. apply list_eq. intros j.
  destruct (decide (i = j)) as [<-|]; [|by rewrite !list_lookup_alter_ne].
  rewrite !list_lookup_alter_eq. by destruct (k_bufs s !! i).
Qed.

Lemma upd_buf_ext i f g s : f (get_buf s i) = g (get_buf s i) -> upd_buf i f s = upd_buf i g s.
Proof.
  intros H. unfold upd_buf. f_equal. apply list_eq. intros j.
  destruct (decide (i = j)) as [<-|]; [|by rewrite !list_lookup_alter_ne].
  rewrite !list_lookup_alter_eq. unfold get_buf in H. destruct (k_bufs s !! i); [|done].
  simpl in *. by rewrite H.
Qed.

Lemma get_buf_held h s i : get_buf (set_k_held h s) i = get_buf s i.
Proof. reflexivity. Qed.

(** The buffer [bread] returns. *)
Definition locked_buf (pid : Z) (b ref : Z) (data : list Z) : buf :=
  mkBuf true ROOTDEV b (mkSleeplock true pid) ref data.

Lemma refs_range l b : 0 <= refs l b <= 1.
Proof. unfold refs. case_bool_decide; lia. Qed.

Lemma refs_not l b : (b ∉ l) -> refs l b = 0.
Proof. intros H. unfold refs. by rewrite bool_decide_eq_false_2. Qed.

Lemma refs_in l b : b ∈ l -> refs l b = 1.
Proof. intros H. unfold refs. by rewrite bool_decide_eq_true_2. Qed.

(** After [bget] has chosen buffer [i], whose record is then [nb]. *)
Lemma bread_finish s i nb me :
  k_held s = [] -> k_cur s = Some me -> (i < length (k_bufs s))%nat ->
  sl_locked (b_lock nb) = false ->
  (let! j := (acquiresleep (sl_buf i) ;;; ret i) in
   let! b := gets (fun s => get_buf s j) in
   if negb (b_valid b) then
     virtio_disk_rw j false ;;; modify (upd_buf j (set_b_valid true)) ;;; ret j
   else ret j) (upd_buf i (fun _ => nb) s) =
  Ok i (upd_buf i (fun _ => mkBuf true (b_dev nb) (b_blockno nb)
    (mkSleeplock true (p_pid (get_proc s me))) (b_refcnt nb)
    (if b_valid nb then b_data nb else disk_blk s (b_blockno nb))) s).
Proof.
  intros Hh Hc Hi Hl.
  assert (G : get_buf (upd_buf i (fun _ => nb) s) i = nb) by (by rewrite get_upd_buf_same).
  assert (E : acquiresleep (sl_buf i) (upd_buf i (fun _ => nb) s) =
    Ok tt (upd_buf i (fun _ => set_b_lock (mkSleeplock true (p_pid (get_proc s me))) nb) s)).
  { rewrite (acquiresleep_free _ me); [|done|by cbn [k_held upd_buf set_k_bufs]; rewrite Hh; apply not_elem_of_nil|].
    - cbn [upd_sl]. by rewrite upd_buf_upd_buf.
    - cbn [get_sl]. by rewrite G. }
  rewrite bind_assoc, (bind_ok _ _ _ _ _ E), bind_ret, bind_gets, get_upd_buf_same by done.
  change (b_valid (set_b_lock _ nb)) with (b_valid nb). destruct (b_valid nb) eqn:Hv; cbn [negb].
  - unfold ret. f_equal. apply upd_buf_ext. unfold set_b_lock. by rewrite Hv.
  - unfold virtio_disk_rw. rewrite bind_assoc, bind_gets, get_upd_buf_same by done.
    rewrite !bind_modify, !upd_buf_upd_buf. reflexivity.
Qed.

Lemma bread_eq s pins held b me :
  cache s pins held -> (b ∉ held) -> k_cur s = Some me ->
  (b ∈ pins \/ length pins + length held < NBUF)%nat ->
  exists i, (i < NBUF)%nat /\
    bread ROOTDEV b s =
      Ok i (upd_buf i (fun _ => locked_buf (p_pid (get_proc s me)) b (refs pins b + 1) (blk s b)) s) /\
    (forall j, is_buf s j b -> j = i) /\
    (forall b0, is_buf s i b0 -> b0 <> b -> (b0 ∉ pins) /\ (b0 ∉ held)).
Proof.
  intros C Hb Hme Hlt. pose proof (ca_spin _ _ _ C) as Hh.
  assert (Hnb : bcache_lock ∉ k_held s) by (rewrite Hh; apply not_elem_of_nil).
  unfold bread, bget. rewrite bind_assoc, bind_acquire, bind_assoc, bind_gets by done.
  set (s1 := set_k_held _ s).
  rewrite (bget_cached_ext s s1) by done. change (k_lru s1) with (k_lru s).
  destruct (bget_cached s (k_lru s) ROOTDEV b) as [i|] eqn:E.
  - apply bget_cached_some in E as (Hi & Hd & Hbn). rewrite (in_lru s pins held C) in Hi.
    assert (Hib : is_buf s i b) by done. exists i. split; [done|].
    rewrite bind_assoc, bind_modify, bind_assoc.
    rewrite (bind_release _ []) by (cbn [k_held upd_buf set_k_bufs s1 set_k_held]; rewrite ?Hh; done || apply not_elem_of_nil).
    set (nb := set_b_refcnt (u32 (b_refcnt (get_buf s i) + 1)) (get_buf s i)).
    replace (set_k_held [] (upd_buf i _ s1)) with (upd_buf i (fun _ => nb) s).
    2: { rewrite (upd_buf_ext i (fun _ => nb) (fun b => set_b_refcnt (u32 (b_refcnt b + 1)) b)) by done.
         unfold s1. rewrite <- Hh. reflexivity. }
    rewrite (bread_finish s i nb me Hh Hme); [|rewrite (ca_len _ _ _ C); lia|by apply (ca_free _ _ _ C i b)].
    split; [|split; [intros j Hj; by apply (ca_uniq _ _ _ C j i b)|]].
    + f_equal. apply upd_buf_ext. cbv beta. unfold locked_buf. cbn [b_dev b_blockno b_refcnt b_valid b_data nb set_b_refcnt].
      pose proof (ca_ref _ _ _ C i b Hib) as Hr. rewrite (refs_not held b Hb) in Hr.
      pose proof (refs_range pins b). rewrite Hr, u32_small by lia. rewrite Hd, Hbn.
      replace (refs pins b + 0 + 1) with (refs pins b + 1) by lia. f_equal.
      destruct (b_valid (get_buf s i)) eqn:Hv.
      * symmetry. by apply (blk_cached s pins held C).
      * symmetry. apply (blk_uncached s). intros j Hj. by rewrite (ca_uniq _ _ _ C j i b Hj Hib).
    + intros b0 (_ & _ & H0) Hne. congruence.
  - assert (Hno : forall j, ~ is_buf s j b).
    { intros j (Hj & Hd & Hbn). apply (bget_cached_none _ _ _ _ j E); [|done].
      by rewrite (in_lru s pins held C). }
    rewrite bind_assoc, bind_gets.
    rewrite (bget_unused_ext s s1) by done. change (k_lru s1) with (k_lru s).
    destruct (bget_unused s (rev (k_lru s))) as [i|] eqn:Eu.
    2: { exfalso. destruct Hlt as [Hin|Hlt].
         { destruct (ca_present _ _ _ C b (or_introl Hin)) as (j & Hj & _). by apply Hno in Hj. }
         destruct (unused_exists s pins held C Hlt) as (i & Hi & Hr).
         apply (bget_unused_none _ _ i Eu); [|done]. rewrite list_elem_of_In, <- in_rev, <- list_elem_of_In.
         by rewrite (in_lru s pins held C). }
    apply bget_unused_some in Eu as [Hi Hr0].
    rewrite list_elem_of_In, <- in_rev, <- list_elem_of_In, (in_lru s pins held C) in Hi.
    exists i. split; [done|]. rewrite bind_assoc, bind_modify, bind_assoc.
    rewrite (bind_release _ []) by (cbn [k_held upd_buf set_k_bufs s1 set_k_held]; rewrite ?Hh; done || apply not_elem_of_nil).
    set (nb := set_b_refcnt 1 (set_b_valid false (set_b_blockno b (set_b_dev ROOTDEV (get_buf s i))))).
    replace (set_k_held [] (upd_buf i _ s1)) with (upd_buf i (fun _ => nb) s).
    2: { rewrite (upd_buf_ext i (fun _ => nb) (fun bf => set_b_refcnt 1 (set_b_valid false
           (set_b_blockno b (set_b_dev ROOTDEV bf))))) by done. unfold s1. rewrite <- Hh. reflexivity. }
    assert (Hul : sl_locked (b_lock (get_buf s i)) = false /\
      forall b0, is_buf s i b0 -> (b0 ∉ pins) /\ (b0 ∉ held)).
    { assert (Hpin : forall b0, is_buf s i b0 -> (b0 ∉ pins) /\ (b0 ∉ held)).
      { intros b0 H0. pose proof (ca_ref _ _ _ C i b0 H0) as Hr. rewrite Hr0 in Hr.
        pose proof (refs_range pins b0). pose proof (refs_range held b0).
        split; intros Hin; apply refs_in in Hin; lia. }
      split; [|done]. destruct (ca_dev _ _ _ C i Hi) as [H0|H1].
      - by apply (ca_idle _ _ _ C i Hi).
      - apply (ca_free _ _ _ C i (b_blockno (get_buf s i))); [by split|]. by apply Hpin. }
    destruct Hul as [Hul Hpin].
    rewrite (bread_finish s i nb me Hh Hme); [|rewrite (ca_len _ _ _ C); lia|done].
    split; [|split; [intros j Hj; by apply Hno in Hj|intros b0 H0 _; by apply Hpin]].
    f_equal. apply upd_buf_ext. cbv beta. unfold locked_buf. cbn [b_dev b_blockno b_refcnt b_valid b_data nb set_b_refcnt set_b_valid set_b_blockno set_b_dev].
    rewrite refs_not.
    2: { intros Hin. destruct (ca_present _ _ _ C b (or_introl Hin)) as (j & Hj & _). by apply Hno in Hj. }
    f_equal. symmetry. apply (blk_uncached s). intros j Hj. by apply Hno in Hj.
Qed.

#[global] Opaque blk.

(** ** Quiet steps: no block changes, neither in the view nor on disk *)

Record quiet (s s' : kstate) : Prop := {
  qu_frame : bio_frame s s';
  qu_disk : k_disk s' = k_disk s;
  qu_writes : k_dwrites s' = k_dwrites s;
  qu_blk : forall b, blk s' b = blk s b
}.

Lemma woken_refl s : woken s s.
Proof. split; [reflexivity|done]. Qed.

Lemma woken_trans s1 s2 s3 : k_cur s2 = k_cur s1 -> woken s1 s2 -> woken s2 s3 -> woken s1 s3.
Proof.
  intros Hc [H1 H1'] [H2 H2']. split.
  - by transitivity (k_procs s2).
  - intros me Hme. rewrite H2' by congruence. auto.
Qed.

Lemma bio_frame_refl s : bio_frame s s.
Proof. split; [done|apply woken_refl]. Qed.

Lemma bio_frame_cur s s' : bio_frame s s' -> k_cur s' = k_cur s.
Proof. intros [-> _]. done. Qed.

Lemma bio_frame_trans s1 s2 s3 : bio_frame s1 s2 -> bio_frame s2 s3 -> bio_frame s1 s3.
Proof.
  intros F1 F2. pose proof (bio_frame_cur _ _ F1) as Hc. destruct F1 as [E1 W1], F2 as [E2 W2].
  split; [|by eapply woken_trans]. rewrite E2, E1. reflexivity.
Qed.

Lemma quiet_refl s : quiet s s.
Proof. split; [apply bio_frame_refl|done|done|done]. Qed.

Lemma quiet_trans s1 s2 s3 : quiet s1 s2 -> quiet s2 s3 -> quiet s1 s3.
Proof.
  intros [F1 D1 W1 B1] [F2 D2 W2 B2]. split; [by eapply bio_frame_trans|congruence|congruence|].
  intros b. by rewrite B2.
Qed.

#[global] Instance quiet_preorder : PreOrder quiet.
Proof. split; [intros s; apply quiet_refl|intros s1 s2 s3; apply quiet_trans]. Qed.

Lemma bio_frame_upd_buf i f s : bio_frame s (upd_buf i f s).
Proof. split; [done|]. apply (woken_refl s). Qed.

(** ** [bread] and [brelse] *)

Lemma cache_me s pins held : cache s pins held -> exists me, k_cur s = Some me /\ (me < NPROC)%nat.
Proof. apply ca_cur. Qed.

(** The buffers of the blocks [held] stay the same. *)
Definition keeps (held : list Z) (s s' : kstate) : Prop :=
  forall i b, is_buf s i b -> b ∈ held -> is_buf s' i b.

Lemma keeps_upd held i f s :
  (i < length (k_bufs s))%nat ->
  (b_dev (f (get_buf s i)) = b_dev (get_buf s i)) -> b_blockno (f (get_buf s i)) = b_blockno (get_buf s i) ->
  keeps held s (upd_buf i f s).
Proof.
  intros Hi H1 H2 j b (Hj & Hd & Hb) _. unfold is_buf. destruct (decide (i = j)) as [<-|].
  - rewrite get_upd_buf_same by done. by rewrite H1, H2.
  - by rewrite get_upd_buf_other.
Qed.

Lemma bread_spec s pins held b :
  cache s pins held -> (b ∉ held) -> (b ∈ pins \/ length pins + length held < NBUF)%nat ->
  exists i s', bread ROOTDEV b s = Ok i s' /\ cache s' pins (b :: held) /\
    is_buf s' i b /\ b_data (get_buf s' i) = blk s b /\ quiet s s' /\ keeps held s s'.
Proof.
  intros C Hb Hlt. destruct (ca_cur _ _ _ C) as (me & Hme & _).
  destruct (bread_eq s pins held b me C Hb Hme Hlt) as (i & Hi & E & Huniq & Hold).
  assert (Hlen : (i < length (k_bufs s))%nat) by (rewrite (ca_len _ _ _ C); done).
  eexists i, _. split; [exact E|].
  set (nb := locked_buf (p_pid (get_proc s me)) b (refs pins b + 1) (blk s b)).
  set (s' := upd_buf i (fun _ => nb) s).
  assert (C' : cache s' pins (b :: held)).
  { apply (cache_upd s pins held pins (b :: held) i b (fun _ => nb) me); try done.
    - intros b' Hne. rewrite elem_of_cons. intuition.
    - cbn [b_refcnt nb locked_buf]. f_equal. symmetry. apply refs_in. left.
    - by rewrite bool_decide_eq_true_2 by left.
    - intros H. exfalso. apply H. left.
    - intros _ _ H. exfalso. apply H. left. }
  assert (G : get_buf s' i = nb) by (unfold s'; by rewrite get_upd_buf_same).
  split; [done|]. split; [unfold is_buf; by rewrite G|]. split; [by rewrite G|].
  destruct (blk_upd s pins held i b (fun _ => nb) pins (b :: held) C C' Hi) as [B1 B2];
    [reflexivity|reflexivity|reflexivity| |].
  { intros b0 H0 Hne Hv. destruct (Hold b0 H0 Hne). by apply (ca_clean _ _ _ C i b0). }
  split.
  2: { intros j b0 H0 Hin. assert (i <> j).
       { intros <-. destruct (Hold b0 H0); [congruence|done]. }
       unfold is_buf, s'. by rewrite get_upd_buf_other. }
  split; [apply bio_frame_upd_buf|done|done|].
  intros b'. change (blk s' b' = blk s b').
  destruct (decide (b' = b)) as [->|Hne]; [exact B1|by apply B2].
Qed.

Lemma cache_procs s pins held ps :
  cache s pins held -> length ps = length (k_procs s) ->
  (forall me, k_cur s = Some me -> get_proc (set_k_procs ps s) me = get_proc s me) ->
  cache (set_k_procs ps s) pins held.
Proof.
  intros [] Hlen Hme. split; try done.
  - cbn [k_procs set_k_procs]. congruence.
  - intros i b me H1 H2 H3. rewrite Hme by done. eauto.
Qed.

Lemma cache_lru s pins held l :
  cache s pins held -> l ≡ₚ seq 0 NBUF -> cache (set_k_lru l s) pins held.
Proof. intros [] Hl. by split. Qed.

Lemma wake_all_woken ch s : woken s (wake_all ch s).
Proof.
  split.
  - unfold wake_all. cbn [k_procs set_k_procs]. apply Forall2_same_length_lookup. split; [by rewrite length_imap|].
    intros i p p' H1. rewrite list_lookup_imap, H1. simpl. intros [= <-].
    case_bool_decide; [by left|]. unfold wake, woke. repeat case_bool_decide; simpl; auto.
  - intros me Hme. unfold get_proc, wake_all. cbn [k_procs set_k_procs]. rewrite list_lookup_imap.
    destruct (k_procs s !! me); [|done]. simpl. by rewrite bool_decide_eq_true_2.
Qed.

Lemma lru_move i l : l ≡ₚ seq 0 NBUF -> (i < NBUF)%nat -> i :: remove Nat.eq_dec i l ≡ₚ seq 0 NBUF.
Proof.
  intros Hl Hi. assert (Hin : i ∈ l) by (rewrite Hl, elem_of_seq; lia).
  assert (Hnd : NoDup l) by (rewrite Hl; apply NoDup_seq).
  rewrite <- Hl. clear Hl Hi. induction l as [|j l IH]; [by apply not_elem_of_nil in Hin|].
  apply NoDup_cons in Hnd as [Hj Hnd]. simpl. destruct (Nat.eq_dec i j) as [<-|Hne].
  - rewrite notin_remove; [done|]. by rewrite <- list_elem_of_In.
  - apply elem_of_cons in Hin as [->|Hin]; [done|]. by rewrite Permutation_swap, IH.
Qed.

(** A buffer is given back once its content is on disk or pinned. *)
Lemma brelse_spec s pins held b i :
  cache s pins (b :: held) -> (b ∉ held) -> is_buf s i b ->
  (b ∈ pins \/ b_data (get_buf s i) = disk_blk s b) ->
  exists s', brelse i s = Ok tt s' /\ cache s' pins held /\ quiet s s' /\ keeps held s s'.
Proof.
  intros C Hb Hib Hcl. destruct (ca_cur _ _ _ C) as (me & Hme & Hmn).
  pose proof (ca_spin _ _ _ C) as Hh. destruct Hib as (Hi & Hd & Hbn).
  assert (Hib : is_buf s i b) by done.
  assert (Hlen : (i < length (k_bufs s))%nat) by (rewrite (ca_len _ _ _ C); done).
  pose proof (ca_mine _ _ _ C i b me Hib ltac:(left) Hme) as Hlk.
  pose proof (ca_ref _ _ _ C i b Hib) as Hr. rewrite (refs_in (b :: held) b) in Hr by left.
  pose proof (refs_range pins b) as Hrr.
  destruct (ca_present _ _ _ C b) as (i' & Hi' & Hval); [right; left|].
  rewrite (ca_uniq _ _ _ C i' i b Hi' Hib) in Hval.
  (* the buffer unlocked, with one reference less *)
  set (g := fun bf => set_b_refcnt (u32 (b_refcnt bf - 1)) (set_b_lock (mkSleeplock false 0) bf)).
  set (s1 := upd_buf i g s).
  assert (C1 : cache s1 pins held).
  { apply (cache_upd s pins (b :: held) pins held i b g me); try done.
    - intros j Hj. by apply (ca_uniq _ _ _ C j i b).
    - intros b' Hne. rewrite elem_of_cons. intuition.
    - cbn [b_refcnt g set_b_refcnt set_b_lock]. rewrite Hr, u32_small by lia.
      rewrite (refs_not held b) by done. lia.
    - by rewrite bool_decide_eq_false_2.
    - intros _ Hp _. destruct Hcl as [?|Hcl]; [done|exact Hcl].
    - intros b0 (_ & _ & H0) Hne. congruence. }
  destruct (blk_upd s pins (b :: held) i b g pins held C C1 Hi) as [B1 B2];
    [exact Hd|exact Hbn|exact Hval| |].
  { intros b0 (_ & _ & H0) Hne. congruence. }
  assert (Bs : blk s b = b_data (get_buf s i)) by (by apply (blk_cached s pins (b :: held) C i b)).
  set (s2 := wake_all (ch_sleeplock (sl_buf i)) s1).
  assert (C2 : cache s2 pins held).
  { apply cache_procs; [done|by rewrite length_imap|]. intros me' Hm'.
    by apply (wake_all_woken (ch_sleeplock (sl_buf i)) s1). }
  assert (Q2 : quiet s s2).
  { split; [|done|done|].
    - eapply bio_frame_trans; [apply bio_frame_upd_buf|]. split; [done|apply wake_all_woken].
    - intros b'. rewrite (blk_ext s1 s2) by done.
      destruct (decide (b' = b)) as [->|]; [rewrite Bs; exact B1|by apply B2]. }
  set (s3 := if refs pins b =? 0 then set_k_lru (i :: remove Nat.eq_dec i (k_lru s2)) s2 else s2).
  exists s3. split; [|split; [|split]].
  4: { assert (K1 : keeps held s s1) by (apply keeps_upd; done).
       unfold s3. destruct (refs pins b =? 0); exact K1. }
  - unfold brelse. rewrite (bind_ok _ _ _ _ _ (holdingsleep_eq (sl_buf i) me s Hme
      ltac:(rewrite Hh; apply not_elem_of_nil))). cbn [get_sl]. rewrite Hlk. cbn [sl_locked sl_pid].
    rewrite Z.eqb_refl. cbn [andb negb].
    assert (Er : releasesleep (sl_buf i) s =
      Ok tt (wake_all (ch_sleeplock (sl_buf i)) (upd_buf i (set_b_lock (mkSleeplock false 0)) s))).
    { apply releasesleep_eq; [apply C|intros j _; rewrite Hh; apply not_elem_of_nil|rewrite Hh; apply not_elem_of_nil]. }
    rewrite (bind_ok _ _ _ _ _ Er). set (s0 := wake_all _ _).
    assert (Hh0 : k_held s0 = []) by done.
    rewrite bind_acquire by (rewrite Hh0; apply not_elem_of_nil). rewrite Hh0, !bind_modify.
    assert (Eu : upd_buf i (fun b => set_b_refcnt (u32 (b_refcnt b - 1)) b) (set_k_held [bcache_lock] s0) =
      set_k_held [bcache_lock] s2).
    { unfold s0, s2.
      replace s1 with (upd_buf i (fun b => set_b_refcnt (u32 (b_refcnt b - 1)) b)
        (upd_buf i (set_b_lock (mkSleeplock false 0)) s)) by apply upd_buf_upd_buf. reflexivity. }
    rewrite Eu, get_buf_held. change (get_buf s2 i) with (get_buf s1 i).
    unfold s1 at 1. rewrite get_upd_buf_same by done. cbn [b_refcnt g set_b_refcnt set_b_lock].
    rewrite Hr, u32_small by lia. replace (refs pins b + 1 - 1) with (refs pins b) by lia.
    assert (E2 : set_k_held [] s2 = s2) by (rewrite <- Hh; reflexivity).
    unfold s3. destruct (refs pins b =? 0); rewrite (release_ok _ []) by (reflexivity || apply not_elem_of_nil).
    + transitivity (Ok tt (set_k_lru (i :: remove Nat.eq_dec i (k_lru s2)) (set_k_held [] s2)));
        [reflexivity|by rewrite E2].
    + transitivity (Ok tt (set_k_held [] s2)); [reflexivity|by rewrite E2].
  - unfold s3. destruct (refs pins b =? 0); [|done]. apply cache_lru; [done|].
    apply lru_move; [apply C2|done].
  - unfold s3. destruct (refs pins b =? 0); [|done]. transitivity s2; [done|].
    split; [split; [done|split; [reflexivity|done]]|done|done|]. intros b'. by apply blk_ext.
Qed.

(** ** Steps on a locked buffer *)

(** A locked block is valid, and its buffer holds the view. *)
Lemma cache_locked s pins held i b :
  cache s pins held -> is_buf s i b -> b ∈ held ->
  b_valid (get_buf s i) = true /\ blk s b = b_data (get_buf s i).
Proof.
  intros C Hi Hb. destruct (ca_present _ _ _ C b) as (j & Hj & Hv); [by right|].
  rewrite (ca_uniq _ _ _ C j i b Hj Hi) in Hv. split; [done|]. by apply (blk_cached s pins held C).
Qed.

(** A change of the data of a locked buffer changes the view of its block
    only. *)
Lemma set_bdata_spec s pins held i b d :
  cache s pins held -> is_buf s i b -> b ∈ held ->
  let s' := upd_buf i (set_b_data d) s in
  cache s' pins held /\ is_buf s' i b /\ b_data (get_buf s' i) = d /\
  blk s' b = d /\ forall b', b' <> b -> blk s' b' = blk s b'.
Proof.
  intros C Hib Hb s'. destruct Hib as (Hi & Hd & Hbn). assert (Hib : is_buf s i b) by done.
  destruct (ca_cur _ _ _ C) as (me & Hme & _).
  destruct (cache_locked s pins held i b C Hib Hb) as [Hv _].
  assert (C' : cache s' pins held).
  { apply (cache_upd s pins held pins held i b (set_b_data d) me); try done.
    - intros j Hj. by apply (ca_uniq _ _ _ C j i b).
    - by apply (ca_ref _ _ _ C).
    - rewrite bool_decide_eq_true_2 by done. by apply (ca_mine _ _ _ C i b me).
    - intros b0 (_ & _ & H0) Hne. congruence. }
  assert (G : get_buf s' i = set_b_data d (get_buf s i)).
  { unfold s'. rewrite get_upd_buf_same; [done|]. by rewrite (ca_len _ _ _ C). }
  destruct (blk_upd s pins held i b (set_b_data d) pins held C C' Hi) as [B1 B2]; try done.
  { intros b0 (_ & _ & H0) Hne. congruence. }
  split; [done|]. split; [unfold is_buf; rewrite G; done|]. by rewrite G.
Qed.

(** The view when only the disk changes. *)
Lemma blk_disk s s' pins held b :
  cache s pins held -> (forall i, get_buf s' i = get_buf s i) ->
  b ∈ pins \/ b ∈ held \/ disk_blk s' b = disk_blk s b -> blk s' b = blk s b.
Proof.
  intros C Hg Hb0.
  assert (Hb : (b ∈ pins \/ b ∈ held) \/ disk_blk s' b = disk_blk s b) by tauto.
  destruct Hb as [Hb|Hb]; [|by apply blk_ext].
  destruct (ca_present _ _ _ C b Hb) as (i & Hi & Hv).
  rewrite (blk_cached s pins held C i b Hi Hv). destruct Hi as (Hi & Hd & Hbn).
  Transparent blk. unfold blk. rewrite (blk_in_some s' (seq 0 NBUF) b i).
  - by rewrite Hg.
  - apply elem_of_seq. lia.
  - intros j Hj. rewrite Hg. intros Hdj Hbj. apply elem_of_seq in Hj.
    apply (ca_uniq _ _ _ C j i b); split_and!; try done; lia.
  - by rewrite Hg.
  - by rewrite Hg.
  - by rewrite Hg.
Qed.
#[global] Opaque blk.

(** One write to the disk. *)
Definition disk_write (b : Z) (d : list Z) (s : kstate) : kstate :=
  set_k_dwrites (k_dwrites s ++ [(b, d)]) (set_k_disk (<[b := d]> (k_disk s)) s).

Lemma disk_write_same b d s : disk_blk (disk_write b d s) b = d.
Proof. unfold disk_blk, disk_write. cbn [k_disk set_k_dwrites set_k_disk]. by rewrite lookup_insert_eq. Qed.

Lemma disk_write_other b d s b' : b <> b' -> disk_blk (disk_write b d s) b' = disk_blk s b'.
Proof.
  intros H. unfold disk_blk, disk_write. cbn [k_disk set_k_dwrites set_k_disk]. by rewrite lookup_insert_ne.
Qed.

(** [bwrite] puts a locked buffer on disk and changes nothing else. *)
Lemma bwrite_spec s pins held i b :
  cache s pins held -> is_buf s i b -> b ∈ held ->
  let s' := disk_write b (b_data (get_buf s i)) s in
  bwrite i s = Ok tt s' /\ cache s' pins held /\ forall b', blk s' b' = blk s b'.
Proof.
  intros C Hib Hb s'. destruct (ca_cur _ _ _ C) as (me & Hme & _).
  pose proof (ca_spin _ _ _ C) as Hh. split; [|split].
  - unfold bwrite. rewrite (bind_ok _ _ _ _ _ (holdingsleep_eq (sl_buf i) me s Hme
      ltac:(rewrite Hh; apply not_elem_of_nil))). cbn [get_sl].
    rewrite (ca_mine _ _ _ C i b me Hib Hb Hme). cbn [sl_locked sl_pid]. rewrite Z.eqb_refl. cbn [andb negb].
    destruct Hib as (_ & _ & <-). reflexivity.
  - destruct C. split; try done. intros j b' H1 H2 H3 H4. destruct (decide (b' = b)) as [->|Hne]; [done|].
    unfold s'. rewrite disk_write_other by done. by apply ca_clean0.
  - intros b'. apply (blk_disk s s' pins held); [done|done|]. destruct (decide (b' = b)) as [->|]; [auto|].
    right; right. by apply disk_write_other.
Qed.

(** ** Pinning *)

Lemma bind_pin_eq d s i :
  (bcache_lock ∉ k_held s) ->
  (acquire bcache_lock ;;;
   modify (upd_buf i (fun b => set_b_refcnt (u32 (b_refcnt b + d)) b)) ;;;
   release bcache_lock) s = Ok tt (upd_buf i (fun b => set_b_refcnt (u32 (b_refcnt b + d)) b) s).
Proof.
  intros Hh. rewrite bind_acquire by done. rewrite bind_modify. by rewrite (release_ok _ (k_held s)).
Qed.

(** The reference count of a locked buffer follows the set of pins. *)
Lemma cache_pin s pins pins' held i b d :
  cache s pins held -> is_buf s i b -> b ∈ held ->
  (forall b', b' <> b -> b' ∈ pins' <-> b' ∈ pins) -> refs pins' b = refs pins b + d ->
  let s' := upd_buf i (fun b => set_b_refcnt (u32 (b_refcnt b + d)) b) s in
  cache s' pins' held /\ is_buf s' i b /\ b_data (get_buf s' i) = b_data (get_buf s i) /\ quiet s s' /\ keeps held s s'.
Proof.
  intros C Hib Hb Hp Hr s'. destruct Hib as (Hi & Hd & Hbn). assert (Hib : is_buf s i b) by done.
  destruct (ca_cur _ _ _ C) as (me & Hme & _).
  destruct (cache_locked s pins held i b C Hib Hb) as [Hv Hbl].
  set (g := fun b => set_b_refcnt (u32 (b_refcnt b + d)) b) in *.
  assert (C' : cache s' pins' held).
  { apply (cache_upd s pins held pins' held i b g me); try done.
    - intros j Hj. by apply (ca_uniq _ _ _ C j i b).
    - cbn [b_refcnt g set_b_refcnt]. rewrite (ca_ref _ _ _ C i b Hib), Hr.
      pose proof (refs_range pins b). pose proof (refs_range pins' b). pose proof (refs_range held b).
      rewrite u32_small by lia. lia.
    - rewrite bool_decide_eq_true_2 by done. by apply (ca_mine _ _ _ C i b me).
    - intros b0 (_ & _ & H0) Hne. congruence. }
  assert (G : get_buf s' i = g (get_buf s i)).
  { unfold s'. rewrite get_upd_buf_same; [done|]. by rewrite (ca_len _ _ _ C). }
  destruct (blk_upd s pins held i b g pins' held C C' Hi) as [B1 B2]; try done.
  { intros b0 (_ & _ & H0) Hne. congruence. }
  split; [done|]. split; [unfold is_buf; rewrite G; done|]. split; [by rewrite G|].
  split; [|apply keeps_upd; [by rewrite (ca_len _ _ _ C)|done|done]].
  split; [apply bio_frame_upd_buf|done|done|]. intros b'.
  destruct (decide (b' = b)) as [->|]; [rewrite Hbl; exact B1|by apply B2].
Qed.

Lemma bpin_spec s pins held i b :
  cache s pins held -> is_buf s i b -> b ∈ held -> (b ∉ pins) ->
  exists s', bpin i s = Ok tt s' /\ cache s' (b :: pins) held /\ is_buf s' i b /\ quiet s s'.
Proof.
  intros C Hi Hb Hp. eexists. split; [apply (bind_pin_eq 1); rewrite (ca_spin _ _ _ C); apply not_elem_of_nil|].
  destruct (cache_pin s pins (b :: pins) held i b 1 C Hi Hb) as (C' & H' & _ & Q' & _); [| |done].
  - intros b' Hne. rewrite elem_of_cons. intuition.
  - rewrite (refs_not pins), (refs_in (b :: pins)) by (done || left). done.
Qed.

Lemma bunpin_spec s pins held i b :
  cache s (b :: pins) held -> is_buf s i b -> b ∈ held -> (b ∉ pins) ->
  exists s', bunpin i s = Ok tt s' /\ cache s' pins held /\ is_buf s' i b /\
    b_data (get_buf s' i) = b_data (get_buf s i) /\ quiet s s' /\ keeps held s s'.
Proof.
  intros C Hi Hb Hp. eexists. split; [apply (bind_pin_eq (-1)); rewrite (ca_spin _ _ _ C); apply not_elem_of_nil|].
  apply (cache_pin s (b :: pins) pins held i b (-1) C Hi Hb).
  - intros b' Hne. rewrite elem_of_cons. intuition.
  - rewrite (refs_not pins), (refs_in (b :: pins)) by (done || left). done.
Qed.

(** ** Stability *)

(** A block that is neither pinned nor locked is seen as it is on disk. *)
Lemma cache_clean s pins held b : cache s pins held -> (b ∉ pins) -> (b ∉ held) -> blk s b = disk_blk s b.
Proof.
  intros C Hb Hh. destruct (bget_cached s (seq 0 NBUF) ROOTDEV b) as [i|] eqn:E.
  - apply bget_cached_some in E as (Hj & Hd & Hbn). apply elem_of_seq in Hj.
    assert (Hi : is_buf s i b) by (split_and!; [lia|done|done]).
    destruct (b_valid (get_buf s i)) eqn:Hv.
    + rewrite (blk_cached s pins held C i b Hi Hv). by apply (ca_clean _ _ _ C i b).
    + apply blk_uncached. intros j Hj'. by rewrite (ca_uniq _ _ _ C j i b Hj' Hi).
  - apply blk_uncached. intros j (Hj & Hd & Hbn). exfalso.
    apply (bget_cached_none _ _ _ _ j E); [apply elem_of_seq; lia|done].
Qed.

Lemma blk_clean s pins b : cache s pins [] -> (b ∉ pins) -> blk s b = disk_blk s b.
Proof. intros C Hb. by apply (cache_clean s pins []); [..|apply not_elem_of_nil]. Qed.

(** A locked buffer holds its block. *)
Lemma held_data s pins held i b : cache s pins held -> is_buf s i b -> b ∈ held -> b_data (get_buf s i) = blk s b.
Proof.
  intros C Hi Hb. destruct (ca_present _ _ _ C b) as (j & Hj & Hv); [by right|].
  rewrite <- (ca_uniq _ _ _ C i j b Hi Hj) in Hv. symmetry. by apply (blk_cached s pins held C).
Qed.

(** Pinned and locked blocks are sets. *)
Lemma cache_sets s pins pins' held held' :
  cache s pins held -> (forall b, b ∈ pins' <-> b ∈ pins) -> (forall b, b ∈ held' <-> b ∈ held) ->
  cache s pins' held'.
Proof.
  intros C Hp Hh. split; try apply C.
  - intros i x Hx. rewrite (refs_same pins' pins), (refs_same held' held) by done. by apply C.
  - intros i x Hx. rewrite Hh. by apply C.
  - intros i x me Hx. rewrite Hh. by apply C.
  - intros x. rewrite Hp, Hh. apply C.
  - intros i x Hx Hv. rewrite Hp, Hh. by apply C.
Qed.

(** The cache does not depend on the rest of the state. *)
Lemma cache_frame s s' pins held :
  cache s pins held -> k_bufs s' = k_bufs s -> k_lru s' = k_lru s -> k_cur s' = k_cur s ->
  k_held s' = k_held s -> k_procs s' = k_procs s -> k_disk s' = k_disk s -> cache s' pins held.
Proof.
  intros [] Hb Hl Hc Hh Hp Hd.
  assert (Hg : forall i, get_buf s' i = get_buf s i) by (intros; unfold get_buf; by rewrite Hb).
  assert (Hi : forall i b, is_buf s' i b <-> is_buf s i b) by (intros; unfold is_buf; by rewrite Hg).
  split; rewrite ?Hb, ?Hl, ?Hc, ?Hh, ?Hp; try done.
  - intros. rewrite !Hg. eauto.
  - intros i. rewrite !Hg. eauto.
  - intros i j b. rewrite !Hi. eauto.
  - intros i b. rewrite !Hi, !Hg. eauto.
  - intros i b. rewrite !Hi, !Hg. eauto.
  - intros i b me. rewrite !Hi, !Hg. unfold get_proc. rewrite Hp. eauto.
  - intros b H. destruct (ca_present0 b H) as (i & H1 & H2). exists i. by rewrite !Hi, !Hg.
  - intros i b. rewrite !Hi, !Hg. unfold disk_blk. rewrite Hd. eauto.
Qed.

Lemma blk_frame s s' b : k_bufs s' = k_bufs s -> k_disk s' = k_disk s -> blk s' b = blk s b.
Proof.
  intros Hb Hd. apply blk_ext.
  - intros i. unfold get_buf. by rewrite Hb.
  - unfold disk_blk. by rewrite Hd.
Qed.

(** ** Disk writes *)

(** Blocks after the writes [ws]. *)
Definition upds (ws : list (Z * list Z)) (f : Z -> list Z) : Z -> list Z :=
  foldl (fun f w => fun b => if bool_decide (b = w.1) then w.2 else f b) f ws.

(** [s'] is [s] after the disk writes [ws], each of them also in the cache. *)
Record wrote (s : kstate) (ws : list (Z * list Z)) (s' : kstate) : Prop := {
  wr_frame : bio_frame s s';
  wr_trace : k_dwrites s' = k_dwrites s ++ ws;
  wr_disk : forall b, disk_blk s' b = upds ws (disk_blk s) b;
  wr_blk : forall b, blk s' b = upds ws (blk s) b
}.

Lemma upds_app ws ws' f : upds (ws ++ ws') f = upds ws' (upds ws f).
Proof. unfold upds. apply foldl_app. Qed.

Lemma upds_ext ws f g b : (forall b, f b = g b) -> upds ws f b = upds ws g b.
Proof.
  revert f g. induction ws as [|w ws IH]; intros f g H; cbn [upds foldl]; [apply H|].
  apply IH. intros b'. simpl. by rewrite H.
Qed.

Lemma upds_cons w ws f : upds (w :: ws) f = upds ws (upds [w] f).
Proof. reflexivity. Qed.

Lemma upds_one b d f : upds [(b, d)] f b = d.
Proof. simpl. by rewrite bool_decide_eq_true_2. Qed.

Lemma upds_not ws f b : (b ∉ ws.*1) -> upds ws f b = f b.
Proof.
  revert f. induction ws as [|w ws IH]; intros f H; [done|]. rewrite upds_cons, IH.
  - simpl. rewrite bool_decide_eq_false_2; [done|]. intros ->. apply H. left.
  - intros Hin. apply H. by right.
Qed.

Lemma upds_in ws f b d : NoDup ws.*1 -> (b, d) ∈ ws -> upds ws f b = d.
Proof.
  revert f. induction ws as [|w ws IH]; intros f Hnd Hin; [by apply not_elem_of_nil in Hin|].
  rewrite upds_cons. apply NoDup_cons in Hnd as [Hw Hnd]. apply elem_of_cons in Hin as [<-|Hin].
  - rewrite upds_not by done. apply upds_one.
  - by apply IH.
Qed.

Lemma wrote_quiet s s' : quiet s s' -> wrote s [] s'.
Proof.
  intros Q. split; [apply Q|rewrite app_nil_r; apply Q| |apply Q].
  intros b. unfold disk_blk. by rewrite (qu_disk _ _ Q).
Qed.

Lemma wrote_trans s1 s2 s3 ws ws' : wrote s1 ws s2 -> wrote s2 ws' s3 -> wrote s1 (ws ++ ws') s3.
Proof.
  intros [F1 T1 D1 B1] [F2 T2 D2 B2]. split.
  - by eapply bio_frame_trans.
  - by rewrite T2, T1, app_assoc.
  - intros b. rewrite D2, upds_app. by apply upds_ext.
  - intros b. rewrite B2, upds_app. by apply upds_ext.
Qed.

Lemma wrote_quiet_l s1 s2 s3 ws : quiet s1 s2 -> wrote s2 ws s3 -> wrote s1 ws s3.
Proof. intros H1 H2. apply (wrote_trans s1 s2 s3 [] ws); [by apply wrote_quiet|done]. Qed.

Lemma wrote_quiet_r s1 s2 s3 ws : wrote s1 ws s2 -> quiet s2 s3 -> wrote s1 ws s3.
Proof. intros H1 H2. rewrite <- (app_nil_r ws). apply (wrote_trans s1 s2 s3); [done|by apply wrote_quiet]. Qed.

(** A locked buffer is filled and written. *)
Lemma put_block s pins held i b d :
  cache s pins held -> is_buf s i b -> b ∈ held ->
  exists s', (forall B (k : K B), (set_bdata i d ;;; bwrite i ;;; k) s = k s') /\ cache s' pins held /\
    wrote s [(b, d)] s' /\ keeps held s s' /\ b_data (get_buf s' i) = d.
Proof.
  intros C Hi Hb. destruct (set_bdata_spec s pins held i b d C Hi Hb) as (C1 & H1 & G1 & B1 & B2).
  set (s1 := upd_buf i (set_b_data d) s) in *.
  destruct (bwrite_spec s1 pins held i b C1 H1 Hb) as (E2 & C2 & B3). rewrite G1 in *.
  set (s2 := disk_write b d s1) in *. exists s2. split_and!.
  - intros B k. unfold set_bdata. rewrite bind_modify. fold s1. by rewrite (bind_ok _ _ _ _ _ E2).
  - done.
  - split.
    + split; [done|]. apply (woken_refl s).
    + done.
    + intros b'. cbn [upds foldl fst snd]. case_bool_decide as E.
      * rewrite E. apply disk_write_same.
      * unfold s2. by rewrite disk_write_other.
    + intros b'. rewrite B3. cbn [upds foldl fst snd]. case_bool_decide as E; [by rewrite E|by apply B2].
  - assert (K1 : keeps held s s1); [|exact K1]. apply keeps_upd; [|done|done].
    rewrite (ca_len _ _ _ C). apply Hi.
  - exact G1.
Qed.

(** A buffer just written may be given back. *)
Lemma brelse_written s0 s pins held i b d :
  cache s pins (b :: held) -> (b ∉ held) -> is_buf s i b -> wrote s0 [(b, d)] s ->
  exists s', (forall B (k : K B), (brelse i ;;; k) s = k s') /\ cache s' pins held /\ quiet s s' /\ keeps held s s'.
Proof.
  intros C Hb Hi W. destruct (cache_locked s pins (b :: held) i b C Hi ltac:(left)) as [_ Hd].
  destruct (brelse_spec s pins held b i C Hb Hi) as (s' & E & C' & Q & Kp).
  - right. rewrite <- Hd, (wr_blk _ _ _ W), (wr_disk _ _ _ W). by rewrite !upds_one.
  - exists s'. split; [intros B k; by rewrite (bind_ok _ _ _ _ _ E)|done].
Qed.

Lemma brelse_pinned s pins held i b :
  cache s pins (b :: held) -> (b ∉ held) -> is_buf s i b -> b ∈ pins ->
  exists s', (forall B (k : K B), (brelse i ;;; k) s = k s') /\ cache s' pins held /\ quiet s s' /\ keeps held s s'.
Proof.
  intros C Hb Hi Hp. destruct (brelse_spec s pins held b i C Hb Hi) as (s' & E & C' & Q & Kp); [by left|].
  exists s'. split; [intros B k; by rewrite (bind_ok _ _ _ _ _ E)|done].
Qed.

Lemma bind_bread s pins held b :
  cache s pins held -> (b ∉ held) -> (b ∈ pins \/ length pins + length held < NBUF)%nat ->
  exists i s', (forall B (k : nat -> K B), (let! x := bread ROOTDEV b in k x) s = k i s') /\ cache s' pins (b :: held) /\
    is_buf s' i b /\ b_data (get_buf s' i) = blk s b /\ quiet s s' /\ keeps held s s'.
Proof.
  intros C Hb Hl. destruct (bread_spec s pins held b C Hb Hl) as (i & s' & E & H).
  exists i, s'. split; [intros B k; by rewrite (bind_ok _ _ _ _ _ E)|done].
Qed.

Lemma cache_swap s pins a b held : cache s pins (a :: b :: held) -> cache s pins (b :: a :: held).
Proof.
  intros C. apply (cache_sets s pins pins (a :: b :: held)); [done|done|].
  intros x. rewrite !elem_of_cons. tauto.
Qed.

(** A block that is read, changed, written and released is on disk and is
    what the next [bread] returns; no other block changes, on disk or as the
    file system sees it, although a buffer may have been evicted. *)
Theorem bwrite_bread_roundtrip s pins b d :
  cache s pins [] -> (length pins < NBUF)%nat ->
  exists s' j s'', (let! i := bread ROOTDEV b in set_bdata i d ;;; bwrite i ;;; brelse i) s = Ok tt s' /\
    disk_blk s' b = d /\
    (forall b', b' <> b -> disk_blk s' b' = disk_blk s b' /\ blk s' b' = blk s b') /\
    bread ROOTDEV b s' = Ok j s'' /\ b_data (get_buf s'' j) = d.
Proof.
  intros C Hn. destruct (bind_bread s pins [] b C) as (i & s1 & E1 & C1 & I1 & _ & Q1 & _);
    [apply not_elem_of_nil|right; simpl; lia|].
  destruct (put_block s1 pins [b] i b d C1 I1) as (s2 & E2 & C2 & W2 & K2 & _); [left|].
  destruct (brelse_written s1 s2 pins [] i b d C2) as (s3 & E3 & C3 & Q3 & _);
    [apply not_elem_of_nil|apply K2; [done|left]|done|].
  assert (W : wrote s [(b, d)] s3) 
    by exact (wrote_quiet_r _ _ _ _ (wrote_quiet_l _ _ _ _ Q1 W2) Q3).
  destruct (bread_spec s3 pins [] b C3) as (j & s4 & E4 & _ & _ & D4 & _);
    [apply not_elem_of_nil|right; simpl; lia|].
  exists s3, j, s4. split_and!; [|by rewrite (wr_disk _ _ _ W), upds_one| |done|].
  - rewrite E1, E2. specialize (E3 unit (ret tt)). rewrite bind_ret_tt in E3. exact E3.
  - intros b' Hne. rewrite (wr_disk _ _ _ W), (wr_blk _ _ _ W).
    by rewrite !upds_not by (simpl; by rewrite list_elem_of_singleton).
  - by rewrite D4, (wr_blk _ _ _ W), upds_one.
Qed.

(** Process 0 runs with an empty cache and an empty disk. *)
Definition boot_state : kstate := set_k_cur (Some 0%nat) (set_k_lru (seq 0 NBUF) kstate_zero).

Lemma boot_get_buf i : get_buf boot_state i = buf_zero.
Proof.
  unfold get_buf. destruct (k_bufs boot_state !! i) eqn:E; [|done].
  unfold boot_state in E. cbn [k_bufs set_k_cur set_k_lru kstate_zero] in E. by apply lookup_replicate_1 in E as [-> _].
Qed.

Lemma boot_no_buf i b : ~ is_buf boot_state i b.
Proof. intros (_ & H & _). by rewrite boot_get_buf in H. Qed.

Lemma boot_cache : cache boot_state [] [].
Proof.
  split.
  - apply length_replicate.
  - done.
  - exists 0%nat. split; [done|]. unfold NPROC. lia.
  - apply length_replicate.
  - done.
  - intros i _. left. by rewrite boot_get_buf.
  - intros i _ _. by rewrite boot_get_buf.
  - intros i j b H. by apply boot_no_buf in H.
  - intros i b H. by apply boot_no_buf in H.
  - intros i b H. by apply boot_no_buf in H.
  - intros i b me H. by apply boot_no_buf in H.
  - intros b [H|H]; by apply not_elem_of_nil in H.
  - intros i b H. by apply boot_no_buf in H.
Qed.

Lemma bwrite_bread_roundtrip_witness :
  exists s', (let! i := bread ROOTDEV 50 in set_bdata i (replicate 1024 7) ;;; bwrite i ;;; brelse i) boot_state
    = Ok tt s' /\ disk_blk s' 50 = replicate 1024 7.
Proof.
  destruct (bwrite_bread_roundtrip boot_state [] 50 (replicate 1024 7) boot_cache) as (s' & _ & _ & E & D & _).
  - unfold NBUF, MAXOPBLOCKS. simpl. lia.
  - exists s'. split; [exact E|exact D].
Defined.
