(* ===== verification/Log.v ===== *)
(** * kernel/log.c: the write-ahead log

    The header of the transaction in memory is [lh_n] and [lh_block] of
    [k_log].  Block numbers are kept as the unsigned values [bread] gets.
    [begin_op] sleeps inside its loop: [begin_op_loop] is also where it
    continues when it is woken up, with the log's lock held.

    The theorems: what [log_write] records, that [commit] makes every block
    of the transaction reach its home on disk, and that a crash after any
    number of its disk writes is repaired by [initlog] to a disk with either
    all or none of them. *)

From S2P Require Import Prelude KString Bytes KState Riscv Spinlock Kalloc Vm Sched Sleeplock Bio.

(** ** Definitions *)

(** [sizeof(struct logheader)] *)
Definition logheader_size : Z := 4 + 4 * LOGSIZE.

(** [log.lh.block[i]], read. *)
Definition lh_get (i : Z) : K Z :=
  if (0 <=? i) && (i <? LOGSIZE) then gets (fun s => nth (Z.to_nat i) (lh_block (k_log s)) 0)
  else fault "log.lh.block[i]".

(** [log.lh.block[i] = v] *)
Definition lh_set (i v : Z) : K unit :=
  if (0 <=? i) && (i <? LOGSIZE)
  then modify (fun s => set_k_log (set_lh_block (<[Z.to_nat i := v]> (lh_block (k_log s))) (k_log s)) s)
  else fault "log.lh.block[i]".

Fixpoint install_trans_loop (ix : list Z) (recovering : bool) : K unit :=
  match ix with
  | [] => ret tt
  | tail :: ix =>
      let! lg := gets (fun s => k_log s) in
      let! lbuf := bread (log_dev lg) (u32 (log_start lg + tail + 1)) in
      let! b := lh_get tail in
      let! dbuf := bread (log_dev lg) b in
      let! d := bdata lbuf in
      set_bdata dbuf d ;;;
      bwrite dbuf ;;;
      (if recovering then ret tt else bunpin dbuf) ;;;
      brelse lbuf ;;;
      brelse dbuf ;;;
      install_trans_loop ix recovering
  end.

Definition install_trans (recovering : bool) : K unit :=
  let! n := gets (fun s => lh_n (k_log s)) in
  install_trans_loop (seqZ 0 n) recovering.

Fixpoint read_head_loop (ix : list Z) (data : list Z) : K unit :=
  match ix with
  | [] => ret tt
  | i :: ix => lh_set i (get32 data (Z.to_nat (4 + 4 * i))) ;;; read_head_loop ix data
  end.

Definition read_head : K unit :=
  let! lg := gets (fun s => k_log s) in
  let! buf := bread (log_dev lg) (u32 (log_start lg)) in
  let! data := bdata buf in
  let n := s32 (get32 data 0) in
  modify (fun s => set_k_log (set_lh_n n (k_log s)) s) ;;;
  read_head_loop (seqZ 0 n) data ;;;
  brelse buf.

Fixpoint write_head_loop (ix : list Z) (buf : nat) : K unit :=
  match ix with
  | [] => ret tt
  | i :: ix =>
      let! b := lh_get i in
      let! data := bdata buf in
      set_bdata buf (put32 data (Z.to_nat (4 + 4 * i)) b) ;;;
      write_head_loop ix buf
  end.

Definition write_head : K unit :=
  let! lg := gets (fun s => k_log s) in
  let! buf := bread (log_dev lg) (u32 (log_start lg)) in
  let! data := bdata buf in
  set_bdata buf (put32 data 0 (lh_n lg)) ;;;
  write_head_loop (seqZ 0 (lh_n lg)) buf ;;;
  bwrite buf ;;;
  brelse buf.

Definition recover_from_log : K unit :=
  read_head ;;;
  install_trans true ;;;
  modify (fun s => set_k_log (set_lh_n 0 (k_log s)) s) ;;;
  write_head.

Definition initlog (dev : Z) (sb : superblock) : K unit :=
  if BSIZE <=? logheader_size then panic "initlog: too big logheader"
  else
    modify (fun s => set_k_log (set_log_dev dev (set_log_size (sb_nlog sb)
      (set_log_start (sb_logstart sb) (k_log s)))) s) ;;;
    recover_from_log.

(** [begin_op] from the [while] on, with [log.lock] held. *)
Definition begin_op_loop : K unit :=
  let! lg := gets (fun s => k_log s) in
  if log_committing lg then sleep ch_log log_lock
  else if lh_n lg + (log_outstanding lg + 1) * MAXOPBLOCKS >? LOGSIZE then sleep ch_log log_lock
  else
    modify (fun s => set_k_log (set_log_outstanding (log_outstanding lg + 1) lg) s) ;;;
    release log_lock.

Definition begin_op : K unit :=
  acquire log_lock ;;;
  begin_op_loop.

Fixpoint write_log_loop (ix : list Z) : K unit :=
  match ix with
  | [] => ret tt
  | tail :: ix =>
      let! lg := gets (fun s => k_log s) in
      let! to := bread (log_dev lg) (u32 (log_start lg + tail + 1)) in
      let! b := lh_get tail in
      let! from := bread (log_dev lg) b in
      let! d := bdata from in
      set_bdata to d ;;;
      bwrite to ;;;
      brelse from ;;;
      brelse to ;;;
      write_log_loop ix
  end.

Definition write_log : K unit :=
  let! n := gets (fun s => lh_n (k_log s)) in
  write_log_loop (seqZ 0 n).

Definition commit : K unit :=
  let! n := gets (fun s => lh_n (k_log s)) in
  if n >? 0 then
    write_log ;;;
    write_head ;;;
    install_trans false ;;;
    modify (fun s => set_k_log (set_lh_n 0 (k_log s)) s) ;;;
    write_head
  else ret tt.

Definition end_op : K unit :=
  acquire log_lock ;;;
  modify (fun s => set_k_log (set_log_outstanding (log_outstanding (k_log s) - 1) (k_log s)) s) ;;;
  let! lg := gets (fun s => k_log s) in
  if log_committing lg then panic "log.committing"
  else
    let do_commit := log_outstanding lg =? 0 in
    (if do_commit then modify (fun s => set_k_log (set_log_committing true (k_log s)) s)
     else wakeup ch_log) ;;;
    release log_lock ;;;
    if do_commit then
      commit ;;;
      acquire log_lock ;;;
      modify (fun s => set_k_log (set_log_committing false (k_log s)) s) ;;;
      wakeup ch_log ;;;
      release log_lock
    else ret tt.

(** The search of [log_write]: the index of the block in the header, or its
    length. *)
Fixpoint find_block (l : list Z) (b : Z) : nat :=
  match l with
  | [] => 0
  | x :: l => if x =? b then 0 else S (find_block l b)
  end.

Definition log_write (i : nat) : K unit :=
  acquire log_lock ;;;
  let! lg := gets (fun s => k_log s) in
  if (lh_n lg >=? LOGSIZE) || (lh_n lg >=? log_size lg - 1) then panic "too big a transaction"
  else if log_outstanding lg <? 1 then panic "log_write outside of trans"
  else
    let! b := gets (fun s => b_blockno (get_buf s i)) in
    let j := Z.of_nat (find_block (take (Z.to_nat (lh_n lg)) (lh_block lg)) b) in
    lh_set j b ;;;
    (if j =? lh_n lg then
       bpin i ;;;
       modify (fun s => set_k_log (set_lh_n (lh_n (k_log s) + 1) (k_log s)) s)
     else ret tt) ;;;
    release log_lock.

(** ** The contents of the log *)

(** The header block of a transaction of the blocks [bs]. *)
Fixpoint head_fill (k : nat) (bs : list Z) (data : list Z) : list Z :=
  match bs with
  | [] => data
  | b :: bs => head_fill (S k) bs (put32 data (4 + 4 * k) b)
  end.

Definition head_block (bs : list Z) (data : list Z) : list Z :=
  head_fill 0 bs (put32 data 0 (Z.of_nat (length bs))).

(** Block [b] belongs to the log on disk. *)
Definition in_log (s : kstate) (b : Z) : Prop :=
  log_start (k_log s) <= b < log_start (k_log s) + LOGSIZE.

(** The blocks of the current transaction. *)
Definition lh_blocks (s : kstate) : list Z := take (Z.to_nat (lh_n (k_log s))) (lh_block (k_log s)).

(** A transaction in memory: its blocks are pinned. *)
Record logged (s : kstate) (bs : list Z) : Prop := {
  lo_dev : log_dev (k_log s) = ROOTDEV;
  lo_start : 0 <= log_start (k_log s) < 2 ^ 31;
  lo_n : lh_n (k_log s) = Z.of_nat (length bs);
  lo_len : length (lh_block (k_log s)) = Z.to_nat LOGSIZE;
  lo_max : (length bs < Z.to_nat LOGSIZE)%nat;
  lo_blocks : lh_blocks s = bs;
  lo_nodup : NoDup bs;
  lo_home : forall b, b ∈ bs -> 0 <= b < 2 ^ 32 /\ ~ in_log s b
}.

(** The writes of [write_log] and of [install_trans]. *)
Definition log_writes (start : Z) (bs : list Z) (f : Z -> list Z) : list (Z * list Z) :=
  imap (fun t b => (start + Z.of_nat t + 1, f b)) bs.
Definition home_writes (start : Z) (bs : list Z) (f : Z -> list Z) : list (Z * list Z) :=
  imap (fun t b => (b, f (start + Z.of_nat t + 1))) bs.

(** ** Laws of the writes *)

Lemma log_writes_cons st b bs f : log_writes st (b :: bs) f = (st + 1, f b) :: log_writes (st + 1) bs f.
Proof.
  unfold log_writes. simpl. f_equal; [f_equal; lia|]. apply imap_ext. intros i x _. simpl. f_equal. lia.
Qed.

Lemma home_writes_cons st b bs f : home_writes st (b :: bs) f = (b, f (st + 1)) :: home_writes (st + 1) bs f.
Proof.
  unfold home_writes. simpl. f_equal; [do 2 f_equal; lia|]. apply imap_ext. intros i x _. simpl. do 2 f_equal. lia.
Qed.

Lemma log_writes_ext st bs f g : (forall b, b ∈ bs -> f b = g b) -> log_writes st bs f = log_writes st bs g.
Proof.
  intros H. unfold log_writes. apply imap_ext. intros i x Hx. f_equal. apply H. by eapply list_elem_of_lookup_2.
Qed.

Lemma home_writes_ext st bs f g :
  (forall t, (t < length bs)%nat -> f (st + Z.of_nat t + 1) = g (st + Z.of_nat t + 1)) ->
  home_writes st bs f = home_writes st bs g.
Proof.
  intros H. unfold home_writes. apply imap_ext. intros i x Hx. f_equal. apply H. by eapply lookup_lt_Some.
Qed.

(** ** The loops *)

Lemma bio_frame_log s s' : bio_frame s s' -> k_log s' = k_log s.
Proof. intros [-> _]. done. Qed.

Lemma bind_lh_get {B} i b (k : Z -> K B) s :
  0 <= i < LOGSIZE -> lh_block (k_log s) !! Z.to_nat i = Some b -> (let! x := lh_get i in k x) s = k b s.
Proof.
  intros Hi Hb. unfold lh_get. rewrite (proj2 (Z.leb_le _ _)), (proj2 (Z.ltb_lt _ _)) by lia. cbn [andb].
  rewrite bind_gets. by rewrite (nth_lookup_Some _ _ _ _ Hb).
Qed.

(** The part of a log loop that starts at index [k]. *)
Record log_part (s : kstate) (k : Z) (bs : list Z) : Prop := {
  lp_dev : log_dev (k_log s) = ROOTDEV;
  lp_start : 0 <= log_start (k_log s) < 2 ^ 31;
  lp_range : 0 <= k /\ k + Z.of_nat (length bs) < LOGSIZE;
  lp_lookup : forall j b, bs !! j = Some b -> lh_block (k_log s) !! Z.to_nat (k + Z.of_nat j) = Some b
}.

Lemma log_part_cons s s' k b bs :
  log_part s k (b :: bs) -> bio_frame s s' ->
  log_part s' (k + 1) bs /\ lh_block (k_log s) !! Z.to_nat k = Some b /\ 0 <= k < LOGSIZE - 1.
Proof.
  intros [Hd Hs Hr Hl] F. simpl in Hr. split.
  - split; rewrite ?(bio_frame_log _ _ F); try done; [lia|]. intros j b' Hj.
    rewrite <- (Hl (S j) b') by done. do 2 f_equal. lia.
  - split; [|lia]. rewrite <- (Hl 0%nat b) by done. do 2 f_equal. lia.
Qed.

Lemma seqZ_S k n : seqZ k (Z.of_nat (S n)) = k :: seqZ (k + 1) (Z.of_nat n).
Proof. rewrite seqZ_cons by lia. f_equal. f_equal; lia. Qed.

Lemma in_log_frame s s' b : bio_frame s s' -> in_log s' b <-> in_log s b.
Proof. intros F. unfold in_log. by rewrite (bio_frame_log _ _ F). Qed.

Lemma write_log_loop_spec bs : forall k s pins,
  cache s pins [] -> log_part s k bs -> (length pins < NBUF)%nat ->
  (forall b, b ∈ bs -> b ∈ pins) -> (forall b, in_log s b -> b ∉ pins) ->
  exists s', write_log_loop (seqZ k (Z.of_nat (length bs))) s = Ok tt s' /\ cache s' pins [] /\
    wrote s (log_writes (log_start (k_log s) + k) bs (blk s)) s'.
Proof.
  induction bs as [|b bs IH]; intros k s pins C L Hn Hin Hout.
  { exists s. split; [done|]. split; [done|]. apply wrote_quiet. reflexivity. }
  cbn [length]. rewrite seqZ_S. cbn [write_log_loop].
  destruct (log_part_cons s s k b bs L (bio_frame_refl s)) as (_ & Hb & Hk).
  pose proof (lp_start _ _ _ L) as Hst. pose proof (lp_dev _ _ _ L) as Hdev.
  rewrite bind_gets, Hdev. set (st := log_start (k_log s)) in *. set (to := st + k + 1).
  assert (Hto : u32 to = to) by (apply u32_small; unfold to, LOGSIZE, MAXOPBLOCKS in *; lia).
  rewrite Hto. assert (Hlog : in_log s to) by (unfold in_log, to; fold st; lia).
  assert (Hne : to <> b) by (intros E; apply (Hout to Hlog); rewrite E; apply Hin; left).
  destruct (bind_bread s pins [] to C) as (i & s1 & E1 & C1 & I1 & _ & Q1 & _).
  { apply not_elem_of_nil. } { right. simpl. lia. }
  rewrite E1, (bind_lh_get k b) by (rewrite ?(bio_frame_log _ _ (qu_frame _ _ Q1)); done || lia).
  destruct (bind_bread s1 pins [to] b C1) as (j & s2 & E2 & C2 & I2 & D2 & Q2 & K2).
  { rewrite list_elem_of_singleton. congruence. } { left. apply Hin. left. }
  rewrite E2. unfold bdata. rewrite bind_gets, D2, (qu_blk _ _ Q1). pose proof (K2 _ _ I1 ltac:(left)) as I1a.
  destruct (put_block s2 pins (b :: [to]) i to (blk s b)) as (s3 & E3 & C3 & W3 & K3 & _);
    [done|done|right; left|]. 
  pose proof (K3 _ _ I1a ltac:(right; left)) as I1b. pose proof (K3 _ _ I2 ltac:(left)) as I2b.
  destruct (brelse_pinned s3 pins [to] j b C3) as (s4 & E4 & C4 & Q4 & K4); [|done|apply Hin; left|].
  { rewrite list_elem_of_singleton. congruence. }
  pose proof (K4 _ _ I1b ltac:(left)) as I1c. pose proof (wrote_quiet_r _ _ _ _ W3 Q4) as W4.
  destruct (brelse_written s2 s4 pins [] i to (blk s b)) as (s5 & E5 & C5 & Q5 & _);
    [done|apply not_elem_of_nil|done|done|].
  rewrite E3, E4, E5.
  assert (W : wrote s [(to, blk s b)] s5).
  { eapply wrote_quiet_r; [|done]. eapply wrote_quiet_l; [done|]. by eapply wrote_quiet_l. }
  destruct (log_part_cons s s5 k b bs L (wr_frame _ _ _ W)) as (L5 & _ & _).
  destruct (IH (k + 1) s5 pins C5 L5 Hn) as (s6 & E & C6 & W6).
  { intros x Hx. apply Hin. by right. }
  { intros x. rewrite (in_log_frame s s5) by apply W. apply Hout. }
  exists s6. split; [exact E|]. split; [done|]. rewrite log_writes_cons.
  rewrite (bio_frame_log _ _ (wr_frame _ _ _ W)) in W6. fold st in W6.
  rewrite (log_writes_ext _ _ (blk s5) (blk s)) in W6.
  - replace (st + (k + 1)) with (st + k + 1) in W6 by lia. by apply (wrote_trans s s5 s6 [_]).
  - intros x Hx. rewrite (wr_blk _ _ _ W). apply upds_not. simpl. rewrite list_elem_of_singleton.
    intros ->. apply (Hout to Hlog). apply Hin. by right.
Qed.

(** [bunpin], unless the log is being recovered. *)
Lemma unpin_step s b bs held j (rec : bool) :
  cache s (if rec then [] else b :: bs) held -> is_buf s j b -> b ∈ held -> (b ∉ bs) ->
  exists s', (forall B (k : K B), ((if rec then ret tt else bunpin j) ;;; k) s = k s') /\
    cache s' (if rec then [] else bs) held /\ quiet s s' /\ keeps held s s'.
Proof.
  intros C Hj Hb Hbs. destruct rec.
  - exists s. split_and!; [done|done|done|by intros i x Hx _].
  - destruct (bunpin_spec s bs held j b C Hj Hb Hbs) as (s' & E & C' & _ & _ & Q & Kp).
    exists s'. split_and!; [|done..]. intros B k. by rewrite (bind_ok _ _ _ _ _ E).
Qed.

Lemma brelse_clean s0 s pins held i b ws :
  cache s pins (b :: held) -> (b ∉ held) -> is_buf s i b -> wrote s0 ws s -> (b ∉ ws.*1) ->
  blk s0 b = disk_blk s0 b ->
  exists s', (forall B (k : K B), (brelse i ;;; k) s = k s') /\ cache s' pins held /\ quiet s s' /\ keeps held s s'.
Proof.
  intros C Hb Hi W Hws H0. destruct (cache_locked s pins (b :: held) i b C Hi ltac:(left)) as [_ Hd].
  destruct (brelse_spec s pins held b i C Hb Hi) as (s' & E & C' & Q & Kp).
  - right. rewrite <- Hd, (wr_blk _ _ _ W), (wr_disk _ _ _ W). by rewrite !upds_not.
  - exists s'. split; [intros B k; by rewrite (bind_ok _ _ _ _ _ E)|done].
Qed.

Lemma install_step s b bs k (rec : bool) lb :
  let pins := (if rec then [] else b :: bs) : list Z in
  cache s pins [] -> (b ∉ bs) -> (length (b :: bs) < NBUF)%nat -> (lb ∉ b :: bs) ->
  lh_block (k_log s) !! Z.to_nat k = Some b -> 0 <= k < LOGSIZE - 1 ->
  exists s', (forall B (c : K B),
    (let! lbuf := bread ROOTDEV lb in
     let! x := lh_get k in
     let! dbuf := bread ROOTDEV x in
     let! d := bdata lbuf in
     set_bdata dbuf d ;;;
     bwrite dbuf ;;;
     (if rec then ret tt else bunpin dbuf) ;;;
     brelse lbuf ;;;
     brelse dbuf ;;; c) s = c s') /\
    cache s' (if rec then [] else bs) [] /\ wrote s [(b, blk s lb)] s'.
Proof.
  intros pins C Hb Hn Hlb Hlk Hk.
  assert (Hlp : lb ∉ pins) by (unfold pins; destruct rec; [apply not_elem_of_nil|done]).
  assert (Hnp : (length pins <= length (b :: bs))%nat) by (unfold pins; destruct rec; simpl; lia).
  assert (Hne : lb <> b) by (intros ->; apply Hlb; left).
  destruct (bind_bread s pins [] lb C) as (i & s1 & E1 & C1 & I1 & _ & Q1 & _).
  { apply not_elem_of_nil. } { right. cbn [length] in *. lia. }
  destruct (bind_bread s1 pins [lb] b C1) as (j & s2 & E2 & C2 & I2 & _ & Q2 & K2).
  { rewrite list_elem_of_singleton. congruence. }
  { unfold pins. destruct rec; [right; simpl; unfold NBUF, MAXOPBLOCKS; lia|left; left]. }
  pose proof (K2 _ _ I1 ltac:(left)) as I1a. assert (Q12 : quiet s s2) by (by transitivity s1).
  destruct (cache_locked s2 pins [b; lb] i lb C2 I1a ltac:(right; left)) as [_ D2].
  rewrite (qu_blk _ _ Q12) in D2.
  destruct (put_block s2 pins [b; lb] j b (blk s lb) C2 I2) as (s3 & E3 & C3 & W3 & K3 & _); [left|].
  destruct (unpin_step s3 b bs [b; lb] j rec C3 (K3 _ _ I2 ltac:(left))) as (s4 & E4 & C4 & Q4 & K4);
    [left|done|].
  pose proof (K4 _ _ (K3 _ _ I1a ltac:(right; left)) ltac:(right; left)) as I1c.
  pose proof (K4 _ _ (K3 _ _ I2 ltac:(left)) ltac:(left)) as I2c.
  assert (W4 : wrote s [(b, blk s lb)] s4).
  { eapply wrote_quiet_r; [|done]. by eapply wrote_quiet_l. }
  destruct (brelse_clean s s4 (if rec then [] else bs) [b] i lb [(b, blk s lb)]) as (s5 & E5 & C5 & Q5 & K5);
    [by apply cache_swap|by rewrite list_elem_of_singleton|done|done|by simpl; rewrite list_elem_of_singleton| |].
  { by apply (blk_clean s pins). }
  pose proof (wrote_quiet_r _ _ _ _ W4 Q5) as W5.
  destruct (brelse_written s s5 (if rec then [] else bs) [] j b (blk s lb)) as (s6 & E6 & C6 & Q6 & _);
    [done|apply not_elem_of_nil|by apply K5; [|left]|done|].
  exists s6. split_and!; [|done|by eapply wrote_quiet_r].
  intros B c. rewrite E1, (bind_lh_get k b) by (rewrite ?(bio_frame_log _ _ (qu_frame _ _ Q1)); done || lia).
  rewrite E2. unfold bdata. rewrite bind_gets, <- D2, E3, E4, E5, E6. done.
Qed.

Lemma install_trans_loop_spec bs : forall k s (rec : bool),
  cache s (if rec then [] else bs) [] -> log_part s k bs -> NoDup bs -> (length bs < NBUF)%nat ->
  (forall b, b ∈ bs -> ~ in_log s b) ->
  exists s', install_trans_loop (seqZ k (Z.of_nat (length bs))) rec s = Ok tt s' /\ cache s' [] [] /\
    wrote s (home_writes (log_start (k_log s) + k) bs (blk s)) s'.
Proof.
  induction bs as [|b bs IH]; intros k s rec C L Hnd Hn Hout.
  { exists s. split; [done|]. split; [by destruct rec|]. apply wrote_quiet. reflexivity. }
  cbn [length]. rewrite seqZ_S. cbn [install_trans_loop]. apply NoDup_cons in Hnd as [Hb Hnd].
  destruct (log_part_cons s s k b bs L (bio_frame_refl s)) as (_ & Hlk & Hk).
  pose proof (lp_start _ _ _ L) as Hst. rewrite bind_gets, (lp_dev _ _ _ L).
  set (st := log_start (k_log s)) in *. set (lb := st + k + 1).
  rewrite (u32_small lb) by (unfold lb, LOGSIZE, MAXOPBLOCKS in *; lia).
  assert (Hlog : in_log s lb) by (unfold in_log, lb; fold st; lia).
  destruct (install_step s b bs k rec lb C Hb Hn) as (s1 & E1 & C1 & W1); [|done|done|].
  { intros Hin. by apply (Hout lb). }
  rewrite E1. destruct (log_part_cons s s1 k b bs L (wr_frame _ _ _ W1)) as (L1 & _ & _).
  destruct (IH (k + 1) s1 rec C1 L1 Hnd) as (s2 & E2 & C2 & W2).
  { simpl in Hn. lia. }
  { intros x Hx. rewrite (in_log_frame s s1) by apply W1. apply Hout. by right. }
  exists s2. split; [exact E2|]. split; [done|]. rewrite home_writes_cons.
  rewrite (bio_frame_log _ _ (wr_frame _ _ _ W1)) in W2. fold st in W2.
  replace (st + (k + 1)) with (st + k + 1) in W2 by lia.
  rewrite (home_writes_ext _ _ (blk s1) (blk s)) in W2; [by apply (wrote_trans s s1 s2 [_])|].
  intros t Ht. rewrite (wr_blk _ _ _ W1). apply upds_not. simpl. rewrite list_elem_of_singleton.
  intros <-. apply (Hout (st + k + 1 + Z.of_nat t + 1)); [left|].
  pose proof (lp_range _ _ _ L) as Hr. simpl in Hr. unfold in_log. fold st. lia.
Qed.

(** ** The header block *)

(** The blocks a header block names. *)
Definition head_count (d : list Z) : Z := s32 (get32 d 0).
Definition head_blocks (d : list Z) : list Z :=
  (fun i => get32 d (4 + 4 * i)) <$> seq 0 (Z.to_nat (head_count d)).

Lemma length_put32 d o v : length (put32 d o v) = length d.
Proof. apply length_put_le. Qed.

Lemma get_put32_same d o v : (o + 4 <= length d)%nat -> 0 <= v < 2 ^ 32 -> get32 (put32 d o v) o = v.
Proof.
  intros H Hv. unfold get32, put32. rewrite get_put_le_same by done.
  apply Z.mod_small. change (256 ^ Z.of_nat 4) with (2 ^ 32). done.
Qed.

Lemma get_put32_other d o v o' :
  (o' + 4 <= o \/ o + 4 <= o')%nat -> get32 (put32 d o v) o' = get32 d o'.
Proof. intros H. unfold get32, put32. by apply get_put_le_other. Qed.

Lemma head_fill_count bs : forall k d, get32 (head_fill k bs d) 0 = get32 d 0.
Proof.
  induction bs as [|b bs IH]; intros k d; cbn [head_fill]; [done|]. rewrite IH. apply get_put32_other. lia.
Qed.

Lemma head_fill_before bs : forall k d i, (i < k)%nat -> get32 (head_fill k bs d) (4 + 4 * i) = get32 d (4 + 4 * i).
Proof.
  induction bs as [|b bs IH]; intros k d i Hi; cbn [head_fill]; [done|]. rewrite IH by lia.
  apply get_put32_other. lia.
Qed.

Lemma head_fill_get bs : forall k d j b,
  (4 + 4 * (k + length bs) <= length d)%nat -> Forall (fun b => 0 <= b < 2 ^ 32) bs ->
  bs !! j = Some b -> get32 (head_fill k bs d) (4 + 4 * (k + j)) = b.
Proof.
  induction bs as [|x bs IH]; intros k d j b Hd Hb Hj; [done|]. cbn [head_fill]. simpl in Hd.
  apply Forall_cons in Hb as [Hx Hb]. destruct j as [|j].
  - injection Hj as <-. rewrite Nat.add_0_r, head_fill_before by lia. apply get_put32_same; [lia|done].
  - replace (k + S j)%nat with (S k + j)%nat by lia. apply IH; [rewrite length_put32; lia|done|done].
Qed.

Lemma head_block_decode bs d :
  (4 + 4 * length bs <= length d)%nat -> Forall (fun b => 0 <= b < 2 ^ 32) bs -> (length bs <= 30)%nat ->
  head_count (head_block bs d) = Z.of_nat (length bs) /\ head_blocks (head_block bs d) = bs.
Proof.
  intros Hd Hb Hn. assert (Hc : head_count (head_block bs d) = Z.of_nat (length bs)).
  { unfold head_count, head_block. rewrite head_fill_count, get_put32_same by lia. apply s32_small. lia. }
  split; [done|]. unfold head_blocks. rewrite Hc, Nat2Z.id. apply list_eq. intros i.
  destruct (decide (i < length bs)%nat) as [Hi|Hi].
  - destruct (lookup_lt_is_Some_2 _ _ Hi) as [b E]. rewrite E, list_lookup_fmap, lookup_seq_lt by done. simpl.
    f_equal. apply (head_fill_get bs 0 _ i b); [rewrite length_put32; lia|done|done].
  - rewrite !lookup_ge_None_2; [done|lia|]. rewrite length_fmap, length_seq. lia.
Qed.

Lemma upd_buf_same i f s : f (get_buf s i) = get_buf s i -> upd_buf i f s = s.
Proof.
  intros H. unfold upd_buf. replace (alter f i (k_bufs s)) with (k_bufs s); [done|].
  apply list_eq. intros j. destruct (decide (i = j)) as [<-|]; [|by rewrite list_lookup_alter_ne].
  rewrite list_lookup_alter_eq. unfold get_buf in H. destruct (k_bufs s !! i); [|done].
  simpl in *. by rewrite H.
Qed.

Lemma write_head_loop_spec bs i : forall k s,
  log_part s k bs -> (i < length (k_bufs s))%nat ->
  write_head_loop (seqZ k (Z.of_nat (length bs))) i s =
  Ok tt (upd_buf i (set_b_data (head_fill (Z.to_nat k) bs (b_data (get_buf s i)))) s).
Proof.
  induction bs as [|b bs IH]; intros k s L Hi.
  { cbn [head_fill]. rewrite upd_buf_same by done. done. }
  cbn [length]. rewrite seqZ_S. cbn [write_head_loop].
  destruct (log_part_cons s s k b bs L (bio_frame_refl s)) as (_ & Hlk & Hk).
  rewrite (bind_lh_get k b) by (done || lia). unfold bdata, set_bdata. rewrite bind_gets, bind_modify.
  set (s1 := upd_buf i _ s).
  destruct (log_part_cons s s1 k b bs L (bio_frame_upd_buf _ _ _)) as (L1 & _ & _).
  rewrite IH; [|done|unfold s1; by rewrite length_upd_buf]. f_equal.
  unfold s1. rewrite get_upd_buf_same, upd_buf_upd_buf by done. cbn [head_fill].
  replace (Z.to_nat (k + 1)) with (S (Z.to_nat k)) by lia.
  replace (Z.to_nat (4 + 4 * k)) with (4 + 4 * Z.to_nat k)%nat by lia. reflexivity.
Qed.

Lemma write_head_spec s pins bs :
  cache s pins [] -> log_part s 0 bs -> lh_n (k_log s) = Z.of_nat (length bs) ->
  (log_start (k_log s) ∉ pins) -> (length pins < NBUF)%nat ->
  let st := log_start (k_log s) in
  exists s', write_head s = Ok tt s' /\ cache s' pins [] /\ wrote s [(st, head_block bs (blk s st))] s'.
Proof.
  intros C L Hn Hp Hlt st. unfold write_head. rewrite bind_gets, (lp_dev _ _ _ L). fold st.
  pose proof (lp_start _ _ _ L) as Hst. fold st in Hst. rewrite (u32_small st) by lia.
  destruct (bind_bread s pins [] st C) as (i & s1 & E1 & C1 & I1 & D1 & Q1 & _).
  { apply not_elem_of_nil. } { right. simpl. lia. }
  set (D := head_block bs (blk s st)).
  destruct (put_block s1 pins [st] i st D C1 I1) as (s2 & E2 & C2 & W2 & K2 & _); [left|].
  destruct (brelse_written s1 s2 pins [] i st D C2) as (s3 & E3 & C3 & Q3 & _);
    [apply not_elem_of_nil|apply K2; [done|left]|done|].
  exists s3. split_and!; [|done|].
  - rewrite E1. unfold bdata. rewrite bind_gets, D1, Hn. unfold set_bdata at 1. rewrite bind_modify.
    assert (Hi : (i < length (k_bufs s1))%nat) by (rewrite (ca_len _ _ _ C1); apply I1).
    set (s1' := upd_buf i _ s1).
    assert (L1 : log_part s1' 0 bs).
    { destruct L as [H1 H2 H3 H4]. pose proof (bio_frame_log _ _ (qu_frame _ _ Q1)) as El.
      change (k_log s1') with (k_log s1) in *.
      split; change (k_log s1') with (k_log s1); by rewrite ?El. }
    assert (EL := write_head_loop_spec bs i 0 s1' L1 ltac:(unfold s1'; by rewrite length_upd_buf)).
    rewrite (bind_ok _ _ _ _ _ EL). unfold s1'. rewrite get_upd_buf_same, upd_buf_upd_buf by done.
    change (upd_buf i _ s1) with (upd_buf i (set_b_data D) s1).
    specialize (E2 unit (brelse i)). unfold set_bdata in E2. rewrite bind_modify in E2. rewrite E2.
    rewrite <- bind_ret_tt. apply E3.
  - eapply wrote_quiet_l; [done|]. by eapply wrote_quiet_r.
Qed.

(** ** Changes of the log's fields *)

Lemma quiet_log l s s' : quiet s s' -> quiet (set_k_log l s) (set_k_log l s').
Proof.
  intros [[F W] D T B]. split; [|done|done|].
  - split; [|exact W]. rewrite F at 1. reflexivity.
  - intros b. rewrite (blk_frame s (set_k_log l s)), (blk_frame s' (set_k_log l s')) by done. apply B.
Qed.

Lemma wrote_log l s ws s' : wrote s ws s' -> wrote (set_k_log l s) ws (set_k_log l s').
Proof.
  intros [[F W] T D B]. split; [|done|exact D|].
  - split; [|exact W]. rewrite F at 1. reflexivity.
  - intros b. rewrite (blk_frame s' (set_k_log l s')) by done. rewrite B. apply upds_ext.
    intros b'. symmetry. by apply blk_frame.
Qed.

Lemma cache_log l s pins held : cache s pins held -> cache (set_k_log l s) pins held.
Proof. intros C. by apply (cache_frame s). Qed.

Lemma set_k_log_log l l' s : set_k_log l (set_k_log l' s) = set_k_log l s.
Proof. reflexivity. Qed.

Lemma read_head_loop_spec data n : forall k s,
  0 <= k -> k + Z.of_nat n <= LOGSIZE -> length (lh_block (k_log s)) = Z.to_nat LOGSIZE ->
  exists bl, read_head_loop (seqZ k (Z.of_nat n)) data s =
      Ok tt (set_k_log (set_lh_block bl (k_log s)) s) /\ length bl = Z.to_nat LOGSIZE /\
    (forall j, (j < n)%nat -> bl !! (Z.to_nat k + j)%nat = Some (get32 data (4 + 4 * (Z.to_nat k + j)))) /\
    (forall j, (j < Z.to_nat k)%nat -> bl !! j = lh_block (k_log s) !! j).
Proof.
  induction n as [|n IH]; intros k s Hk Hn Hl.
  { exists (lh_block (k_log s)). split; [done|]. split; [done|]. split; [lia|done]. }
  rewrite seqZ_S. cbn [read_head_loop]. unfold lh_set.
  rewrite (proj2 (Z.leb_le _ _)), (proj2 (Z.ltb_lt _ _)) by lia. cbn [andb]. rewrite bind_modify.
  set (s1 := set_k_log _ s).
  destruct (IH (k + 1) s1) as (bl & E & H1 & H2 & H3); [lia|lia| |].
  { unfold s1. cbn [k_log set_k_log lh_block set_lh_block]. by rewrite length_insert. }
  replace (Z.to_nat (k + 1)) with (S (Z.to_nat k)) in * by lia.
  assert (Hkk : bl !! Z.to_nat k = Some (get32 data (4 + 4 * Z.to_nat k))).
  { rewrite H3 by lia. unfold s1. cbn [k_log set_k_log lh_block set_lh_block].
    rewrite list_lookup_insert_eq by lia. do 2 f_equal. lia. }
  exists bl. split; [rewrite E; done|]. split; [done|]. split.
  - intros [|j] Hj; [by rewrite Nat.add_0_r|].
    replace (Z.to_nat k + S j)%nat with (S (Z.to_nat k) + j)%nat by lia. apply H2. lia.
  - intros j Hj. rewrite H3 by lia. unfold s1. cbn [k_log set_k_log lh_block set_lh_block].
    rewrite list_lookup_insert_ne by lia. done.
Qed.

(** A header block that recovery can use. *)
Definition head_ok (st : Z) (d : list Z) : Prop :=
  0 <= head_count d < LOGSIZE /\ NoDup (head_blocks d) /\
  forall b, b ∈ head_blocks d -> ~ st <= b < st + LOGSIZE.

Lemma length_head_blocks d : length (head_blocks d) = Z.to_nat (head_count d).
Proof. unfold head_blocks. by rewrite length_fmap, length_seq. Qed.

Lemma read_head_spec s :
  cache s [] [] -> log_dev (k_log s) = ROOTDEV -> 0 <= log_start (k_log s) < 2 ^ 31 ->
  length (lh_block (k_log s)) = Z.to_nat LOGSIZE ->
  let st := log_start (k_log s) in let bs := head_blocks (blk s st) in
  head_ok st (blk s st) ->
  exists l s', read_head s = Ok tt s' /\ cache s' [] [] /\ quiet (set_k_log l s) s' /\
    log_start l = st /\ log_size l = log_size (k_log s) /\ log_part s' 0 bs /\ lh_n l = Z.of_nat (length bs) /\
    length (lh_block l) = Z.to_nat LOGSIZE.
Proof.
  intros C Hdev Hst Hlen st bs (Hc & _). unfold read_head. rewrite bind_gets, Hdev. fold st.
  rewrite (u32_small st) by lia.
  destruct (bind_bread s [] [] st C) as (i & s1 & E1 & C1 & I1 & D1 & Q1 & _).
  { apply not_elem_of_nil. } { right. simpl. unfold NBUF, MAXOPBLOCKS. lia. }
  rewrite E1. unfold bdata. rewrite bind_gets, D1. fold (head_count (blk s st)). rewrite bind_modify.
  pose proof (bio_frame_log _ _ (qu_frame _ _ Q1)) as El. rewrite El.
  set (l1 := set_lh_n (head_count (blk s st)) (k_log s)). set (s2 := set_k_log l1 s1).
  destruct (read_head_loop_spec (blk s st) (length bs) 0 s2) as (bl & E3 & H1 & H2 & _); [lia| |done|].
  { unfold bs. rewrite length_head_blocks. lia. }
  replace (head_count (blk s st)) with (Z.of_nat (length bs)) by (unfold bs; rewrite length_head_blocks; lia).
  rewrite (bind_ok _ _ _ _ _ E3). set (l2 := set_lh_block bl (k_log s2)).
  replace (set_k_log l2 s2) with (set_k_log l2 s1) by done.
  assert (I3 : is_buf (set_k_log l2 s1) i st) by exact I1.
  destruct (brelse_spec (set_k_log l2 s1) [] [] st i) as (s4 & E4 & C4 & Q4 & _);
    [by apply cache_log|apply not_elem_of_nil|done| |].
  { right. change (b_data (get_buf s1 i) = disk_blk s1 st). rewrite D1, (blk_clean s [] st C (not_elem_of_nil _)).
    unfold disk_blk. by rewrite (qu_disk _ _ Q1). }
  exists l2, s4. split; [exact E4|]. split; [done|].
  split; [transitivity (set_k_log l2 s1); [by apply quiet_log|done]|].
  split; [done|]. split; [done|]. split; [|split; [|done]].
  - pose proof (bio_frame_log _ _ (qu_frame _ _ Q4)) as El4.
    split; rewrite ?El4; cbn [k_log set_k_log]; [done|done|unfold bs; rewrite length_head_blocks; lia|].
    intros j b Hj. cbn [lh_block l2 set_lh_block]. pose proof (lookup_lt_Some _ _ _ Hj) as Hlt.
    replace (Z.to_nat (0 + Z.of_nat j)) with (Z.to_nat 0 + j)%nat by lia. rewrite H2 by done.
    unfold bs, head_blocks in Hj. rewrite list_lookup_fmap in Hj.
    unfold bs in Hlt. rewrite length_head_blocks in Hlt. rewrite lookup_seq_lt in Hj by done. exact Hj.
  - cbn [lh_n l2 set_lh_block s2 set_k_log k_log l1 set_lh_n]. unfold bs. rewrite length_head_blocks. lia.
Qed.

(** ** Recovery *)

Lemma home_writes_fst st bs f : (home_writes st bs f).*1 = bs.
Proof.
  apply list_eq. intros t. unfold home_writes. rewrite list_lookup_fmap, list_lookup_imap. by destruct (bs !! t).
Qed.

(** What the kernel knows of the log when it boots. *)
Record booting (s : kstate) (sb : superblock) : Prop := {
  bo_cache : cache s [] [];
  bo_len : length (lh_block (k_log s)) = Z.to_nat LOGSIZE;
  bo_start : 0 <= sb_logstart sb < 2 ^ 31
}.

Definition recover_writes (st : Z) (f : Z -> list Z) : list (Z * list Z) :=
  home_writes st (head_blocks (f st)) f ++ [(st, head_block [] (f st))].

Lemma initlog_ok s sb :
  booting s sb -> let st := sb_logstart sb in head_ok st (disk_blk s st) ->
  exists s' l, initlog ROOTDEV sb s = Ok tt s' /\ cache s' [] [] /\
    wrote (set_k_log l s) (recover_writes st (disk_blk s)) s' /\
    log_start l = st /\ log_size l = sb_nlog sb /\ lh_n l = 0 /\ log_dev l = ROOTDEV /\ length (lh_block l) = Z.to_nat LOGSIZE.
Proof.
  intros [C Hlen Hst] st Hok. unfold initlog.
  replace (BSIZE <=? logheader_size) with false by reflexivity. rewrite bind_modify.
  set (l0 := set_log_dev _ _). set (s0 := set_k_log l0 s).
  assert (C0 : cache s0 [] []) by (by apply cache_log).
  assert (Hv : forall b, blk s0 b = disk_blk s b).
  { intros b. rewrite (blk_clean s0 [] b C0 (not_elem_of_nil _)). done. }
  destruct (read_head_spec s0) as (l1 & s1 & E1 & C1 & Q1 & Hs1 & Hz1 & L1 & Hn1 & Hl1); [done..| |].
  { change (log_start (k_log s0)) with st. by rewrite Hv. }
  change (log_start (k_log s0)) with st in *. rewrite Hv in *. set (bs := head_blocks (disk_blk s st)) in *.
  destruct Hok as (Hc & Hnd & Hout).
  assert (El1 : k_log s1 = l1) by (apply (bio_frame_log _ _ (qu_frame _ _ Q1))).
  assert (Hv1 : forall b, blk s1 b = disk_blk s b).
  { intros b. rewrite (qu_blk _ _ Q1). rewrite <- Hv. by apply blk_frame. }
  destruct (install_trans_loop_spec bs 0 s1 true C1 L1 Hnd) as (s2 & E2 & C2 & W2).
  { unfold bs. rewrite length_head_blocks. unfold NBUF, LOGSIZE, MAXOPBLOCKS in *. lia. }
  { intros b Hb. unfold in_log. rewrite El1, Hs1. by apply Hout. }
  rewrite El1, Hs1, Z.add_0_r in W2.
  assert (El2 : k_log s2 = l1) by (rewrite (bio_frame_log _ _ (wr_frame _ _ _ W2)); done).
  set (l2 := set_lh_n 0 l1). set (s3 := set_k_log l2 s2).
  destruct (write_head_spec s3 [] []) as (s4 & E4 & C4 & W4); [by apply cache_log| |done|apply not_elem_of_nil| |].
  { destruct L1 as [P1 P2 P3 P4]. rewrite El1 in *. split; [done|done|simpl; unfold LOGSIZE, MAXOPBLOCKS; lia|].
    intros j b Hj. done. }
  { simpl. unfold NBUF, MAXOPBLOCKS. lia. }
  change (log_start (k_log s3)) with (log_start l1) in W4. rewrite Hs1 in W4.
  exists s4, l2. split_and!; [|done| |done|done|done| |done].
  3:{ change (log_dev l1 = ROOTDEV). rewrite <- El1. apply L1. }
  - unfold recover_from_log. rewrite (bind_ok _ _ _ _ _ E1). unfold install_trans.
    rewrite bind_assoc, bind_gets, El1, Hn1, (bind_ok _ _ _ _ _ E2), bind_modify, El2. exact E4.
  - assert (Hst3 : blk s3 st = disk_blk s st).
    { unfold s3. rewrite (blk_frame s2) by done. rewrite (wr_blk _ _ _ W2), upds_not; [apply Hv1|].
      rewrite home_writes_fst. intros Hin. apply (Hout st Hin). unfold LOGSIZE, MAXOPBLOCKS. lia. }
    rewrite Hst3 in W4. unfold recover_writes. fold bs. eapply wrote_trans; [|exact W4].
    apply (wrote_log l2) in W2. rewrite (home_writes_ext _ _ (blk s1) (disk_blk s)) in W2 by (intros; apply Hv1).
    eapply wrote_quiet_l; [|exact W2]. apply (quiet_log l2) in Q1. exact Q1.
Qed.

(** ** Commit *)

Definition commit_writes (st : Z) (bs : list Z) (v : Z -> list Z) : list (Z * list Z) :=
  log_writes st bs v ++ [(st, head_block bs (v st))] ++ ((fun b => (b, v b)) <$> bs) ++
  [(st, head_block [] (head_block bs (v st)))].

Lemma log_writes_fst st bs f t x : log_writes st bs f !! t = Some x -> x.1 = st + Z.of_nat t + 1.
Proof. unfold log_writes. rewrite list_lookup_imap. destruct (bs !! t); simpl; [|done]. by intros [= <-]. Qed.

Lemma log_writes_nodup st bs f : NoDup (log_writes st bs f).*1.
Proof.
  apply NoDup_alt. intros i j x Hi Hj. rewrite list_lookup_fmap in Hi, Hj.
  destruct (log_writes st bs f !! i) eqn:E1; [|done]. destruct (log_writes st bs f !! j) eqn:E2; [|done].
  apply log_writes_fst in E1, E2. simpl in *. injection Hi as <-. injection Hj as Hj. lia.
Qed.

Lemma log_writes_range st bs f b : b ∈ (log_writes st bs f).*1 -> st < b <= st + Z.of_nat (length bs).
Proof.
  intros (w & -> & Hw)%list_elem_of_fmap. apply list_elem_of_lookup in Hw as [t Ht].
  pose proof (log_writes_fst _ _ _ _ _ Ht) as ->. apply lookup_lt_Some in Ht.
  unfold log_writes in Ht. rewrite length_imap in Ht. lia.
Qed.

(** After [write_log] the log holds the transaction. *)
Lemma upds_log_writes st bs f t b :
  bs !! t = Some b -> forall g, upds (log_writes st bs f) g (st + Z.of_nat t + 1) = f b.
Proof.
  intros Ht g. apply upds_in; [apply log_writes_nodup|]. apply list_elem_of_lookup. exists t.
  unfold log_writes. by rewrite list_lookup_imap, Ht.
Qed.

Lemma home_writes_logged st bs f g :
  (forall t b, bs !! t = Some b -> g (st + Z.of_nat t + 1) = f b) ->
  home_writes st bs g = (fun b => (b, f b)) <$> bs.
Proof.
  intros H. unfold home_writes. apply list_eq. intros t. rewrite list_lookup_imap, list_lookup_fmap.
  destruct (bs !! t) eqn:E; [|done]. simpl. by rewrite (H t z).
Qed.

Lemma logged_part s s' bs : logged s bs -> k_log s' = k_log s -> log_part s' 0 bs.
Proof.
  intros L E. split; rewrite ?E; [apply L|apply L|pose proof (lo_max _ _ L); unfold LOGSIZE, MAXOPBLOCKS in *; lia|].
  intros j b Hj. pose proof (lo_blocks _ _ L) as Hb. unfold lh_blocks in Hb. rewrite (lo_n _ _ L), Nat2Z.id in Hb.
  rewrite <- Hb in Hj. rewrite lookup_take_lt in Hj by (rewrite <- Hb; by eapply lookup_lt_Some).
  rewrite <- Hj. f_equal. lia.
Qed.

Lemma logged_out s bs b : logged s bs -> in_log s b -> (b ∉ bs).
Proof. intros L Hin Hb. by apply (lo_home _ _ L b Hb). Qed.

Lemma logged_start s bs : logged s bs -> in_log s (log_start (k_log s)).
Proof. intros L. unfold in_log, LOGSIZE, MAXOPBLOCKS. lia. Qed.

Lemma commit_ok s bs :
  cache s bs [] -> logged s bs -> bs <> [] ->
  let st := log_start (k_log s) in
  exists s', commit s = Ok tt s' /\ cache s' [] [] /\
    wrote (set_k_log (set_lh_n 0 (k_log s)) s) (commit_writes st bs (blk s)) s'.
Proof.
  intros C L Hbs st. pose proof (lo_max _ _ L) as Hmax.
  assert (Hnb : (length bs < NBUF)%nat) by (unfold LOGSIZE, NBUF, MAXOPBLOCKS in *; lia).
  pose proof (logged_part s s bs L eq_refl) as P. pose proof (logged_start s bs L) as Hst0.
  assert (Hst : st ∉ bs) by (by apply (logged_out s)).
  destruct (write_log_loop_spec bs 0 s bs C P Hnb) as (s1 & E1 & C1 & W1); [done|intros b; by apply logged_out|].
  fold st in W1. rewrite Z.add_0_r in W1. pose proof (bio_frame_log _ _ (wr_frame _ _ _ W1)) as El1.
  destruct (write_head_spec s1 bs bs C1) as (s2 & E2 & C2 & W2);
    [by apply (logged_part s)|by rewrite El1; apply L|by rewrite El1|done|].
  rewrite El1 in W2. fold st in W2.
  assert (Hlst : st ∉ (log_writes st bs (blk s)).*1) by (intros Hin%log_writes_range; lia).
  rewrite (wr_blk _ _ _ W1), upds_not in W2 by done.
  pose proof (wrote_trans _ _ _ _ _ W1 W2) as W12.
  pose proof (bio_frame_log _ _ (wr_frame _ _ _ W12)) as El2.
  destruct (install_trans_loop_spec bs 0 s2 false C2) as (s3 & E3 & C3 & W3);
    [by apply (logged_part s)|apply L|done| |].
  { intros b Hb. rewrite (in_log_frame s s2) by apply W12. by apply (lo_home _ _ L). }
  rewrite El2, Z.add_0_r in W3. fold st in W3.
  rewrite (home_writes_logged st bs (blk s)) in W3.
  2: { intros t b Ht. rewrite (wr_blk _ _ _ W2), upds_not, (wr_blk _ _ _ W1).
       - by apply upds_log_writes.
       - simpl. rewrite list_elem_of_singleton. lia. }
  pose proof (wrote_trans _ _ _ _ _ W12 W3) as W13.
  pose proof (bio_frame_log _ _ (wr_frame _ _ _ W13)) as El3.
  set (l := set_lh_n 0 (k_log s)). set (s4 := set_k_log l s3).
  destruct (write_head_spec s4 [] []) as (s5 & E5 & C5 & W5); [by apply cache_log| |done|apply not_elem_of_nil| |].
  { destruct P as [P1 P2 P3 P4]. split; [done|done|simpl; unfold LOGSIZE, MAXOPBLOCKS; lia|done]. }
  { simpl. unfold NBUF, MAXOPBLOCKS. lia. }
  exists s5. split_and!; [|done|].
  - unfold commit. rewrite bind_gets, (lo_n _ _ L).
    assert (Hpos : (Z.of_nat (length bs) >? 0) = true) by (destruct bs; done). rewrite Hpos.
    unfold write_log. rewrite bind_assoc, bind_gets, (lo_n _ _ L), (bind_ok _ _ _ _ _ E1), (bind_ok _ _ _ _ _ E2).
    unfold install_trans. rewrite bind_assoc, bind_gets, El2, (lo_n _ _ L), (bind_ok _ _ _ _ _ E3), bind_modify, El3.
    exact E5.
  - change (log_start (k_log s4)) with st in W5.
    assert (H4 : blk s4 st = head_block bs (blk s st)).
    { unfold s4. rewrite (blk_frame s3) by done. rewrite (wr_blk _ _ _ W3), upds_not.
      - rewrite (wr_blk _ _ _ W2). apply upds_one.
      - rewrite <- list_fmap_compose. simpl. by rewrite list_fmap_id. }
    rewrite H4 in W5. apply (wrote_log l) in W13. pose proof (wrote_trans _ _ _ _ _ W13 W5) as W.
    unfold commit_writes. rewrite <- !app_assoc in W. exact W.
Qed.

(** ** Crashes *)

(** The home blocks after some writes of a commit. *)
Lemma home_prefix (v : Z -> list Z) bs n (f : Z -> list Z) b :
  NoDup bs -> upds (take n ((fun b => (b, v b)) <$> bs)) f b = if bool_decide (b ∈ take n bs) then v b else f b.
Proof.
  intros Hnd. rewrite <- fmap_take. assert (Hnd' : NoDup (take n bs)).
  { rewrite <- (take_drop n bs) in Hnd. by apply NoDup_app in Hnd as (? & _). }
  assert (Hf : ((fun b => (b, v b)) <$> take n bs).*1 = take n bs).
  { rewrite <- list_fmap_compose. simpl. apply list_fmap_id. }
  case_bool_decide as Hb.
  - apply upds_in; [by rewrite Hf|]. apply list_elem_of_fmap. eauto.
  - apply upds_not. by rewrite Hf.
Qed.

(** The disk [f] after the first [n] writes of a commit: what recovery finds
    in the header, and what it makes of the disk [g] it finds. *)
Definition recovered (st : Z) (g : Z -> list Z) : Z -> list Z := upds (recover_writes st g) g.

Lemma length_head_fill k l d : length (head_fill k l d) = length d.
Proof. revert k d. induction l as [|b l IH]; intros k d; cbn [head_fill]; [done|]. by rewrite IH, length_put32. Qed.

Lemma crash_decode_empty d :
  length d = Z.to_nat BSIZE -> head_count (head_block [] d) = 0 /\ head_blocks (head_block [] d) = [].
Proof. intros Hd. apply (head_block_decode []); [rewrite Hd; unfold BSIZE; cbn [length]; lia|constructor|simpl; lia]. Qed.

Lemma head_ok_empty st d : head_count d = 0 -> head_ok st d.
Proof.
  intros H. unfold head_ok, head_blocks. rewrite H. split; [unfold LOGSIZE, MAXOPBLOCKS; lia|].
  split; [constructor|]. intros b Hb. by apply not_elem_of_nil in Hb.
Qed.

(** Recovery of a disk whose header is empty changes only the header. *)
Lemma recovered_empty st g b : head_count (g st) = 0 -> b <> st -> recovered st g b = g b.
Proof.
  intros Hg Hb. unfold recovered, recover_writes. unfold head_blocks at 1. rewrite Hg. simpl.
  by rewrite bool_decide_eq_false_2.
Qed.

Section Crash.
Variables (s : kstate) (bs : list Z).
Hypothesis (C : cache s bs []) (L : logged s bs).
Let st := log_start (k_log s).
Hypothesis (Hclean : head_count (disk_blk s st) = 0) (Hlen : length (disk_blk s st) = Z.to_nat BSIZE).

Lemma crash_start : st ∉ bs.
Proof. apply (logged_out s); [done|]. by apply (logged_start s bs). Qed.

Lemma crash_blk_start : blk s st = disk_blk s st.
Proof. apply (blk_clean s bs); [done|]. apply crash_start. Qed.

Lemma crash_decode : head_count (head_block bs (blk s st)) = Z.of_nat (length bs) /\
  head_blocks (head_block bs (blk s st)) = bs.
Proof.
  pose proof (lo_max _ _ L) as Hmax. unfold LOGSIZE, MAXOPBLOCKS in Hmax.
  apply head_block_decode; [rewrite crash_blk_start, Hlen; unfold BSIZE; lia| |lia].
  apply Forall_forall. intros b Hb. by apply (lo_home _ _ L).
Qed.

(** Recovery of a disk whose header names the transaction. *)
Lemma recovered_full g b :
  head_blocks (g st) = bs -> (forall t b, bs !! t = Some b -> g (st + Z.of_nat t + 1) = blk s b) ->
  b <> st -> recovered st g b = if bool_decide (b ∈ bs) then blk s b else g b.
Proof.
  intros Hh Hg Hb. unfold recovered, recover_writes. rewrite Hh, (home_writes_logged st bs (blk s)) by done.
  rewrite upds_app. cbn [upds foldl fst snd]. rewrite bool_decide_eq_false_2 by done.
  rewrite <- (take_ge ((fun b => (b, blk s b)) <$> bs) (length bs)) by (by rewrite length_fmap).
  change (foldl _ g ?l b) with (upds l g b). rewrite home_prefix by apply L. by rewrite take_ge.
Qed.


Lemma clean_block b : (b ∉ bs) -> disk_blk s b = blk s b.
Proof. intros Hb. symmetry. by apply (blk_clean s bs). Qed.

Lemma out_log_writes (f : Z -> list Z) b n : ~ in_log s b -> (b ∉ (take n (log_writes st bs f)).*1).
Proof.
  intros Hb (w & -> & Hw)%list_elem_of_fmap. apply Hb.
  assert (Hin : w.1 ∈ (log_writes st bs f).*1).
  { apply list_elem_of_fmap. exists w. split; [done|]. rewrite <- (take_drop n). apply elem_of_app. by left. }
  apply log_writes_range in Hin. pose proof (lo_max _ _ L). unfold in_log. fold st.
  unfold LOGSIZE, MAXOPBLOCKS in *. lia.
Qed.

Lemma not_log_start b : ~ in_log s b -> b <> st.
Proof. intros Hb ->. apply Hb. by apply (logged_start s bs). Qed.

Lemma home_fst (v : Z -> list Z) l : ((fun b => (b, v b)) <$> l).*1 = l.
Proof. rewrite <- list_fmap_compose. simpl. apply list_fmap_id. Qed.

(** Before the header is written. *)
Lemma crash_before n :
  (n <= length bs)%nat ->
  let g := upds (take n (commit_writes st bs (blk s))) (disk_blk s) in
  head_ok st (g st) /\ length (g st) = Z.to_nat BSIZE /\
  forall b, ~ in_log s b -> recovered st g b = disk_blk s b.
Proof.
  intros Hn g. assert (Hw : length (log_writes st bs (blk s)) = length bs).
  { unfold log_writes. by rewrite length_imap. }
  assert (Eg : g = upds (take n (log_writes st bs (blk s))) (disk_blk s)).
  { unfold g, commit_writes. by rewrite take_app_le by lia. }
  assert (Est : g st = disk_blk s st).
  { rewrite Eg. apply upds_not. intros (w & E & Hw')%list_elem_of_fmap.
    assert (Hin : w.1 ∈ (log_writes st bs (blk s)).*1).
    { apply list_elem_of_fmap. exists w. split; [done|]. rewrite <- (take_drop n). apply elem_of_app. by left. }
    apply log_writes_range in Hin. lia. }
  rewrite Est. split; [by apply head_ok_empty|]. split; [done|].
  intros b Hb. rewrite recovered_empty; [|by rewrite Est|by apply not_log_start].
  rewrite Eg. apply upds_not. by apply out_log_writes.
Qed.

(** After it is written, with [m] blocks installed. *)
Lemma crash_after m :
  let g := upds (take m ((fun b => (b, blk s b)) <$> bs))
    (upds (log_writes st bs (blk s) ++ [(st, head_block bs (blk s st))]) (disk_blk s)) in
  head_ok st (g st) /\ length (g st) = Z.to_nat BSIZE /\
  forall b, ~ in_log s b -> recovered st g b = blk s b.
Proof.
  intros g. destruct crash_decode as [Hc Hbk]. pose proof (lo_max _ _ L) as Hmax.
  assert (Hg : forall b, g b = if bool_decide (b ∈ take m bs) then blk s b
    else if bool_decide (b = st) then head_block bs (blk s st)
    else upds (log_writes st bs (blk s)) (disk_blk s) b).
  { intros b. unfold g. rewrite home_prefix by apply L. by rewrite upds_app. }
  assert (Htake : forall b, b ∈ take m bs -> b ∈ bs).
  { intros b Hb. rewrite <- (take_drop m bs). apply elem_of_app. by left. }
  assert (Est : g st = head_block bs (blk s st)).
  { rewrite Hg, bool_decide_eq_false_2, bool_decide_eq_true_2; [done|done|].
    intros Hin. by apply crash_start, Htake. }
  rewrite Est. split_and!.
  - unfold head_ok. rewrite Hc, Hbk. split; [lia|]. split; [apply L|]. intros b Hb. by apply (lo_home _ _ L).
  - unfold head_block. rewrite length_head_fill, length_put32. by rewrite crash_blk_start.
  - intros b Hb. pose proof (not_log_start b Hb) as Hne. rewrite recovered_full; [|by rewrite Est| |done].
    + case_bool_decide as Hin; [done|]. rewrite Hg, bool_decide_eq_false_2, bool_decide_eq_false_2;
        [|done|by intros ?%Htake]. rewrite upds_not; [by apply clean_block|].
      rewrite <- (take_ge (log_writes st bs (blk s)) (length (log_writes st bs (blk s)))) by done.
      by apply out_log_writes.
    + intros t b' Ht. assert (Hlog : in_log s (st + Z.of_nat t + 1)).
      { apply lookup_lt_Some in Ht. unfold in_log. fold st. unfold LOGSIZE, MAXOPBLOCKS in *. lia. }
      rewrite Hg, bool_decide_eq_false_2, bool_decide_eq_false_2; [|lia|].
      * by apply upds_log_writes.
      * intros Hin%Htake. by apply (lo_home _ _ L) in Hin as [_ ?].
Qed.

(** After everything is written. *)
Lemma crash_done :
  let g := upds (commit_writes st bs (blk s)) (disk_blk s) in
  head_ok st (g st) /\ length (g st) = Z.to_nat BSIZE /\
  (forall b, ~ in_log s b -> g b = blk s b) /\
  forall b, ~ in_log s b -> recovered st g b = blk s b.
Proof.
  intros g.
  assert (Hl : length (head_block bs (blk s st)) = Z.to_nat BSIZE).
  { unfold head_block. by rewrite length_head_fill, length_put32, crash_blk_start. }
  assert (Est : g st = head_block [] (head_block bs (blk s st))).
  { unfold g, commit_writes. rewrite !upds_app. apply upds_one. }
  assert (Hg : forall b, ~ in_log s b -> g b = blk s b).
  { intros b Hb. pose proof (not_log_start b Hb) as Hne. unfold g, commit_writes. rewrite !upds_app.
    rewrite upds_not by (simpl; by rewrite list_elem_of_singleton).
    rewrite <- (take_ge ((fun b => (b, blk s b)) <$> bs) (length bs)) by (by rewrite length_fmap).
    rewrite home_prefix, take_ge by (done || apply L). case_bool_decide; [done|].
    rewrite upds_not by (simpl; by rewrite list_elem_of_singleton).
    rewrite upds_not; [by apply clean_block|].
    rewrite <- (take_ge (log_writes st bs (blk s)) (length (log_writes st bs (blk s)))) by done.
    by apply out_log_writes. }
  rewrite Est. destruct (crash_decode_empty _ Hl) as [Hc _]. split_and!.
  - by apply head_ok_empty.
  - unfold head_block at 1. by rewrite length_head_fill, length_put32.
  - done.
  - intros b Hb. rewrite recovered_empty; [by apply Hg|by rewrite Est|by apply not_log_start].
Qed.

Lemma crash_any n :
  let g := upds (take n (commit_writes st bs (blk s))) (disk_blk s) in
  head_ok st (g st) /\ length (g st) = Z.to_nat BSIZE /\
  forall b, ~ in_log s b -> recovered st g b = if (n <=? length bs)%nat then disk_blk s b else blk s b.
Proof.
  destruct (Nat.leb_spec n (length bs)) as [Hn|Hn]; [by apply crash_before|].
  assert (Hw : length (log_writes st bs (blk s)) = length bs).
  { unfold log_writes. by rewrite length_imap. }
  destruct (decide (n <= 2 * length bs + 1)%nat) as [Hn2|Hn2].
  - replace (take n (commit_writes st bs (blk s))) with
      ((log_writes st bs (blk s) ++ [(st, head_block bs (blk s st))]) ++
       take (n - length bs - 1) ((fun b => (b, blk s b)) <$> bs)).
    + rewrite upds_app. apply crash_after.
    + unfold commit_writes. rewrite app_assoc.
      set (l := log_writes st bs (blk s) ++ [_]).
      assert (E : length l = S (length bs)) by (unfold l; rewrite length_app, Hw; simpl; lia).
      rewrite take_app, (take_ge l), E by lia. f_equal.
      rewrite take_app_le by (rewrite length_fmap; lia). f_equal. lia.
  - rewrite take_ge by (unfold commit_writes; rewrite !length_app, Hw, length_fmap; simpl; lia).
    destruct crash_done as (? & ? & ? & ?). done.
Qed.

End Crash.
