(* ===== verification/LogSafe.v ===== *)
(** * Correctness of the log

    What a transaction sees ([log_write_tx], [end_op_spec]) and what a
    crash leaves ([commit_crash_safe], [recovery_idempotent]); built on the
    step lemmas of [Log.v]. *)

From S2P Require Import Prelude KString Bytes KState Riscv Spinlock Kalloc Vm Sched Sleeplock Bio Log.

(** ** [log_write] *)

Lemma find_block_in l b : (find_block l b < length l)%nat <-> b ∈ l.
Proof.
  induction l as [|x l IH]; simpl.
  - split; [lia|]. intros H. by apply not_elem_of_nil in H.
  - rewrite elem_of_cons. destruct (Z.eqb_spec x b) as [->|Hne]; [split; [by left|lia]|].
    rewrite <- IH. split; [intros H; right; lia|intros [->|H]; [done|lia]].
Qed.

Lemma find_block_le l b : (find_block l b <= length l)%nat.
Proof. induction l as [|x l IH]; simpl; [lia|]. destruct (x =? b); lia. Qed.

Lemma find_block_lookup l b : b ∈ l -> l !! find_block l b = Some b.
Proof.
  induction l as [|x l IH]; [intros H; by apply not_elem_of_nil in H|]. simpl.
  destruct (Z.eqb_spec x b) as [->|Hne]; [done|]. intros [->|H]%elem_of_cons; [done|]. by apply IH.
Qed.

(** The transaction with block [b] in it. *)
Definition absorb (bs : list Z) (b : Z) : list Z := if bool_decide (b ∈ bs) then bs else bs ++ [b].

Lemma elem_of_absorb bs b x : x ∈ absorb bs b <-> x ∈ bs \/ x = b.
Proof.
  unfold absorb. case_bool_decide as H; [|by rewrite elem_of_app, list_elem_of_singleton].
  split; [by left|by intros [?| ->]].
Qed.

(** The log's fields after [log_write]. *)
Definition logged_fields (l : logstate) (bs : list Z) (b : Z) : logstate :=
  set_lh_n (Z.of_nat (length (absorb bs b)))
    (set_lh_block (<[find_block bs b := b]> (lh_block l)) l).

Lemma log_write_eq s bs held i b :
  cache s bs held -> logged s bs -> is_buf s i b -> b ∈ held ->
  1 <= log_outstanding (k_log s) -> Z.of_nat (length bs) < log_size (k_log s) - 1 ->
  log_write i s = Ok tt (set_k_log (logged_fields (k_log s) bs b)
    (if bool_decide (b ∈ bs) then s
     else upd_buf i (fun b => set_b_refcnt (u32 (b_refcnt b + 1)) b) s)).
Proof.
  intros C L Hi Hb Ho Hz. pose proof (ca_spin _ _ _ C) as Hh. pose proof (lo_n _ _ L) as Hn.
  pose proof (lo_max _ _ L) as Hmax. pose proof (lo_blocks _ _ L) as Hbl. unfold lh_blocks in Hbl.
  unfold log_write. rewrite bind_acquire by (rewrite Hh; apply not_elem_of_nil). rewrite Hh, bind_gets.
  cbn [k_log set_k_held].
  rewrite Hn.
  replace (Z.of_nat (length bs) >=? LOGSIZE) with false by (symmetry; rewrite Z.geb_leb; apply Z.leb_gt; lia).
  replace (Z.of_nat (length bs) >=? log_size (k_log s) - 1) with false
    by (symmetry; rewrite Z.geb_leb; apply Z.leb_gt; lia).
  cbn [orb]. rewrite (proj2 (Z.ltb_ge _ _)) by lia. rewrite bind_gets. rewrite Hn in Hbl. rewrite Hbl.
  change (get_buf (set_k_held [log_lock] s) i) with (get_buf s i). destruct Hi as (Hi & Hd & ->).
  pose proof (find_block_le bs b) as Hf.
  unfold lh_set at 1. rewrite (proj2 (Z.leb_le _ _)), (proj2 (Z.ltb_lt _ _)) by lia. cbn [andb].
  rewrite bind_modify, Nat2Z.id. unfold logged_fields, absorb. pose proof (find_block_in bs b) as Hin.
  destruct (bool_decide_reflect (b ∈ bs)) as [Hbb|Hbb].
  - rewrite (proj2 (Z.eqb_neq _ _)) by (apply Hin in Hbb; lia). rewrite bind_ret.
    rewrite (release_ok _ []) by (reflexivity || apply not_elem_of_nil). f_equal.
    rewrite <- Hh, <- Hn. reflexivity.
  - rewrite (proj2 (Z.eqb_eq _ _)) by (destruct (decide (find_block bs b < length bs)%nat); [tauto|lia]).
    rewrite bind_assoc. unfold bpin.
    erewrite bind_ok by (apply (bind_pin_eq 1); cbn [k_held set_k_log set_k_held]; rewrite not_elem_of_cons;
      split; [done|apply not_elem_of_nil]).
    rewrite bind_modify. rewrite (release_ok _ []) by (reflexivity || apply not_elem_of_nil). f_equal.
    rewrite length_app. cbn [length]. rewrite <- Hh.
    replace (Z.of_nat (length bs + 1)) with (lh_n (k_log s) + 1) by lia. reflexivity.
Qed.

Lemma logged_absorb s s' bs b :
  logged s bs -> k_log s' = logged_fields (k_log s) bs b -> 0 <= b < 2 ^ 32 -> ~ in_log s b ->
  (length (absorb bs b) < Z.to_nat LOGSIZE)%nat -> logged s' (absorb bs b).
Proof.
  intros L E Hb Hlog Hmax.
  assert (El : forall x, in_log s' x <-> in_log s x) by (intros x; unfold in_log; by rewrite E).
  split; rewrite ?E; try apply L; try done.
  - cbn [lh_block logged_fields set_lh_n set_lh_block]. rewrite length_insert. apply L.
  - unfold lh_blocks. rewrite E. cbn [lh_block lh_n logged_fields set_lh_n set_lh_block]. rewrite Nat2Z.id.
    pose proof (lo_blocks _ _ L) as Hbl. unfold lh_blocks in Hbl. rewrite (lo_n _ _ L), Nat2Z.id in Hbl.
    pose proof (lo_len _ _ L) as Hlen. unfold absorb in *. destruct (bool_decide_reflect (b ∈ bs)) as [Hin|Hin].
    + rewrite list_insert_id; [done|]. rewrite <- (lookup_take_lt _ (length bs)) by (by apply find_block_in).
      rewrite Hbl. by apply find_block_lookup.
    + assert (Hf : find_block bs b = length bs).
      { pose proof (find_block_le bs b). pose proof (find_block_in bs b).
        destruct (decide (find_block bs b < length bs)%nat); [tauto|lia]. }
      rewrite length_app in *. cbn [length] in *. rewrite Hf.
      rewrite Nat.add_1_r, (take_S_r _ _ b) by (rewrite list_lookup_insert_eq by lia; done).
      rewrite take_insert_ge by lia. by rewrite Hbl.
  - unfold absorb. case_bool_decide as Hin; [apply L|]. apply NoDup_app. split; [apply L|].
    split; [|apply NoDup_singleton]. intros x Hx. rewrite list_elem_of_singleton. by intros ->.
  - intros x. rewrite elem_of_absorb, El. intros [Hx| ->]; [by apply (lo_home _ _ L)|done].
Qed.

(** ** [begin_op] and [end_op] *)

Lemma begin_op_eq s i :
  k_held s = [] -> k_cur s = Some i -> (i < length (k_procs s))%nat ->
  let lg := k_log s in
  begin_op s =
  if log_committing lg || (lh_n lg + (log_outstanding lg + 1) * MAXOPBLOCKS >? LOGSIZE)
  then Sleeps (asleep ch_log i (set_k_held [log_lock] s))
  else Ok tt (set_k_log (set_log_outstanding (log_outstanding lg + 1) lg) s).
Proof.
  intros Hh Hc Hi lg. unfold begin_op. rewrite bind_acquire by (rewrite Hh; apply not_elem_of_nil).
  unfold begin_op_loop. rewrite bind_gets, Hh. cbn [k_log set_k_held]. fold lg.
  destruct (log_committing lg); cbn [orb]; [by apply sleep_eq|].
  destruct (_ >? _); [by apply sleep_eq|]. rewrite bind_modify.
  rewrite (release_ok _ []) by (reflexivity || apply not_elem_of_nil). f_equal. rewrite <- Hh. reflexivity.
Qed.

Lemma wake_all_frame ch s : bio_frame s (wake_all ch s).
Proof. split; [done|apply wake_all_woken]. Qed.

Lemma cache_wake_all ch s pins held : cache s pins held -> cache (wake_all ch s) pins held.
Proof.
  intros C. apply cache_procs; [done|by rewrite length_imap|]. intros me Hme. by apply (wake_all_woken ch s).
Qed.

(** [acquire; l := f l; wakeup; release] *)
Lemma wake_log_eq s f :
  cache s [] [] \/ (k_held s = [] /\ length (k_procs s) = NPROC) ->
  (acquire log_lock ;;; modify (fun s => set_k_log (f (k_log s)) s) ;;; wakeup ch_log ;;; release log_lock) s =
  Ok tt (wake_all ch_log (set_k_log (f (k_log s)) s)).
Proof.
  intros H. assert (Hs : k_held s = [] /\ length (k_procs s) = NPROC) by (destruct H as [[]|]; done).
  destruct Hs as [Hh Hp]. rewrite bind_acquire by (rewrite Hh; apply not_elem_of_nil).
  rewrite bind_modify, Hh. cbn [k_log set_k_held]. set (s1 := set_k_log _ _).
  assert (E : wakeup ch_log s1 = Ok tt (wake_all ch_log s1)).
  { apply wakeup_eq; [done|]. intros i _. change (k_held s1) with [log_lock]. by rewrite list_elem_of_singleton. }
  rewrite (bind_ok _ _ _ _ _ E). rewrite (release_ok _ []) by (reflexivity || apply not_elem_of_nil).
  f_equal. unfold s1, wake_all. rewrite <- Hh. reflexivity.
Qed.

(** ** Transactions *)

(** A transaction of the blocks [bs] is open: they are pinned in the cache,
    the log on disk is empty, and the running process has the buffers [held]
    locked. *)
Record tx (s : kstate) (bs held : list Z) : Prop := {
  tx_cache : cache s bs held;
  tx_log : logged s bs;
  tx_size : log_size (k_log s) <= LOGSIZE;
  tx_clean : head_count (disk_blk s (log_start (k_log s))) = 0;
  tx_head : length (disk_blk s (log_start (k_log s))) = Z.to_nat BSIZE
}.

Lemma logged_frame s s' bs :
  logged s bs -> log_dev (k_log s') = log_dev (k_log s) -> log_start (k_log s') = log_start (k_log s) ->
  lh_n (k_log s') = lh_n (k_log s) -> lh_block (k_log s') = lh_block (k_log s) -> logged s' bs.
Proof.
  intros [] H1 H2 H3 H4.
  assert (Hi : forall b, in_log s' b <-> in_log s b) by (intros b; unfold in_log; by rewrite H2).
  split; rewrite ?H1, ?H2, ?H3, ?H4; try done.
  - unfold lh_blocks. by rewrite H3, H4.
  - intros b Hb. rewrite Hi. auto.
Qed.

(** The log is empty. *)
Lemma logged_nil s s' bs :
  logged s bs -> log_dev (k_log s') = log_dev (k_log s) -> log_start (k_log s') = log_start (k_log s) ->
  lh_n (k_log s') = 0 -> length (lh_block (k_log s')) = length (lh_block (k_log s)) -> logged s' [].
Proof.
  intros L H1 H2 H3 H4. split; rewrite ?H1, ?H2, ?H3, ?H4; try apply L.
  - done.
  - unfold LOGSIZE, MAXOPBLOCKS. simpl. lia.
  - unfold lh_blocks. by rewrite H3.
  - constructor.
  - intros b Hb. by apply not_elem_of_nil in Hb.
Qed.

Lemma commit_tx s bs :
  tx s bs [] ->
  exists s', commit s = Ok tt s' /\ tx s' [] [] /\
    wrote (set_k_log (set_lh_n 0 (k_log s)) s)
      (if bool_decide (bs = []) then [] else commit_writes (log_start (k_log s)) bs (blk s)) s' /\
    (forall b, ~ in_log s b -> disk_blk s' b = blk s b /\ blk s' b = blk s b) /\
    k_log s' = set_lh_n 0 (k_log s).
Proof.
  intros [C L Hz Hcl Hhd]. destruct (bool_decide_reflect (bs = [])) as [->|Hne].
  - exists s. assert (El : set_lh_n 0 (k_log s) = k_log s) by (rewrite <- (lo_n _ _ L : lh_n (k_log s) = 0); done).
    rewrite El. split; [unfold commit; rewrite bind_gets, (lo_n _ _ L); done|].
    split; [done|]. split; [apply wrote_quiet; reflexivity|]. split; [|done].
    intros b Hb. split; [|done]. symmetry. apply (blk_clean s []); [done|]. apply not_elem_of_nil.
  - destruct (commit_ok s bs C L Hne) as (s' & E & C' & W). exists s'.
    pose proof (bio_frame_log _ _ (wr_frame _ _ _ W)) as El. cbn [k_log set_k_log] in El.
    destruct (crash_done s bs C L Hhd) as (Hok & Hl & Hg & _).
    assert (HD : forall b, disk_blk s' b = upds (commit_writes (log_start (k_log s)) bs (blk s)) (disk_blk s) b)
      by apply (wr_disk _ _ _ W).
    split; [done|]. split.
    { split; rewrite ?El; try done.
      - apply (logged_nil s s' bs L); by rewrite El.
      - change (log_start (set_lh_n 0 (k_log s))) with (log_start (k_log s)). rewrite HD.
        unfold commit_writes. rewrite !upds_app, upds_one. refine (proj1 (crash_decode_empty _ _)).
        unfold head_block. rewrite length_head_fill, length_put32. by rewrite (blk_clean s bs);
          [|done|apply (logged_out s); [done|by apply (logged_start s bs)]].
      - change (log_start (set_lh_n 0 (k_log s))) with (log_start (k_log s)). by rewrite HD. }
    split; [exact W|]. split; [|done]. intros b Hb. rewrite HD, (Hg b Hb). split; [done|].
    rewrite (blk_clean s' [] b C' (not_elem_of_nil _)), HD. by apply Hg.
Qed.

(** The end of the last operation. *)
Lemma end_op_last s bs :
  tx s bs [] -> log_outstanding (k_log s) = 1 -> log_committing (k_log s) = false ->
  exists s', end_op s = Ok tt s' /\ tx s' [] [] /\
    (forall b, ~ in_log s b -> disk_blk s' b = blk s b /\ blk s' b = blk s b) /\
    k_log s' = set_lh_n 0 (set_log_outstanding 0 (k_log s)).
Proof.
  intros [C L Hz Hcl Hhd] Ho Hc. pose proof (ca_spin _ _ _ C) as Hh.
  set (l1 := set_log_committing true (set_log_outstanding 0 (k_log s))). set (s1 := set_k_log l1 s).
  assert (T1 : tx s1 bs []).
  { split; [by apply cache_log|by apply (logged_frame s)|done|done|done]. }
  destruct (commit_tx s1 bs T1) as (s2 & E2 & T2 & _ & V2 & El2).
  assert (E3 := wake_log_eq s2 (fun l => set_log_committing false l) (or_introl (tx_cache _ _ _ T2))).
  set (s3 := wake_all ch_log _) in E3. exists s3. split_and!.
  - unfold end_op. rewrite bind_acquire by (rewrite Hh; apply not_elem_of_nil). rewrite Hh, bind_modify, bind_gets.
    cbn [k_log set_k_log set_k_held]. change (log_committing (set_log_outstanding ?v ?l)) with (log_committing l).
    rewrite Hc. change (log_outstanding (set_log_outstanding ?v ?l)) with v. rewrite Ho.
    replace (1 - 1 =? 0) with true by done. rewrite bind_modify. cbn [k_log set_k_log set_k_held].
    rewrite (bind_release _ []) by (reflexivity || apply not_elem_of_nil).
    set (s1' := set_k_held [] _). replace s1' with s1.
    2: { unfold s1', s1, l1. rewrite <- Hh. reflexivity. }
    rewrite (bind_ok _ _ _ _ _ E2). exact E3.
  - assert (C3 : cache s3 [] []) by (apply cache_wake_all, cache_log, T2).
    destruct T2 as [C2 L2 Hz2 Hcl2 Hhd2]. split; [done| |exact Hz2|exact Hcl2|exact Hhd2].
    apply (logged_nil s2 s3 []); [done|..]; unfold s3, wake_all; cbn [k_log set_k_log set_k_procs]; by rewrite ?El2.
  - intros b Hb. destruct (V2 b Hb) as [H1 H2]. assert (Hv : blk s1 b = blk s b) by (by apply blk_frame). rewrite Hv in H1, H2.
    split; [exact H1|]. rewrite <- H2. by apply blk_frame.
  - unfold s3, wake_all. cbn [k_log set_k_log set_k_procs]. rewrite El2. unfold s1, l1. cbn [k_log set_k_log].
    rewrite <- Hc. reflexivity.
Qed.

(** ** Recovery *)

(** The disk a recovery is interrupted at. *)
Lemma recover_prefix st (f : Z -> list Z) n :
  head_ok st (f st) -> length (f st) = Z.to_nat BSIZE ->
  let g := upds (take n (recover_writes st f)) f in
  head_ok st (g st) /\ forall b, b <> st -> recovered st g b = recovered st f b.
Proof.
  intros (Hc & Hnd & Hout) Hlen g. set (bs := head_blocks (f st)) in *.
  assert (Hh : home_writes st bs f = (fun b => (b, upds (home_writes st bs f) f b)) <$> bs).
  { apply list_eq. intros t. unfold home_writes at 1. rewrite list_lookup_imap, list_lookup_fmap.
    destruct (bs !! t) as [b|] eqn:E; [|done]. simpl. do 2 f_equal. symmetry. apply upds_in.
    - by rewrite home_writes_fst.
    - apply list_elem_of_lookup. exists t. unfold home_writes. by rewrite list_lookup_imap, E. }
  assert (Hl : length (home_writes st bs f) = length bs) by (unfold home_writes; by rewrite length_imap).
  assert (Hst : st ∉ bs) by (intros Hin; apply (Hout st Hin); unfold LOGSIZE, MAXOPBLOCKS; lia).
  destruct (decide (n <= length bs)%nat) as [Hn|Hn].
  - assert (Hg : forall b, g b = if bool_decide (b ∈ take n bs) then upds (home_writes st bs f) f b else f b).
    { intros b. unfold g, recover_writes. fold bs. rewrite take_app_le by lia. rewrite Hh at 1.
      by rewrite home_prefix. }
    assert (Htake : forall b, b ∈ take n bs -> b ∈ bs).
    { intros b Hb. rewrite <- (take_drop n bs). apply elem_of_app. by left. }
    assert (Est : g st = f st) by (rewrite Hg, bool_decide_eq_false_2; [done|by intros ?%Htake]).
    rewrite Est. split; [done|]. intros b Hb. unfold recovered, recover_writes. rewrite Est. fold bs.
    rewrite (home_writes_ext st bs g f).
    2: { intros t Ht. rewrite Hg, bool_decide_eq_false_2; [done|]. intros Hin%Htake. apply (Hout _ Hin).
         unfold bs in Ht. rewrite length_head_blocks in Ht. unfold LOGSIZE, MAXOPBLOCKS in *. lia. }
    rewrite !upds_app. rewrite !(upds_not [_]) by (simpl; by rewrite list_elem_of_singleton).
    destruct (decide (b ∈ bs)) as [Hin|Hin].
    + apply list_elem_of_lookup in Hin as [t Ht].
      rewrite !(upds_in _ _ b (f (st + Z.of_nat t + 1))); try done; try (by rewrite home_writes_fst);
        apply list_elem_of_lookup; exists t; unfold home_writes; by rewrite list_lookup_imap, Ht.
    + rewrite !upds_not by (by rewrite home_writes_fst). rewrite Hg, bool_decide_eq_false_2; [done|].
      by intros ?%Htake.
  - assert (Hg : g = recovered st f).
    { unfold g, recovered. rewrite take_ge; [done|]. unfold recover_writes. fold bs. rewrite length_app, Hl. simpl. lia. }
    destruct (crash_decode_empty (f st) Hlen) as [He _].
    assert (Est : g st = head_block [] (f st)).
    { rewrite Hg. unfold recovered, recover_writes. rewrite upds_app. apply upds_one. }
    rewrite Est. split; [by apply head_ok_empty|]. intros b Hb. rewrite recovered_empty; [by rewrite Hg| |done].
    by rewrite Est.
Qed.

Lemma recovered_ext st f g b : (forall b, f b = g b) -> recovered st f b = recovered st g b.
Proof.
  intros H. unfold recovered, recover_writes. rewrite (H st).
  rewrite (home_writes_ext st _ f g) by (intros; apply H). by apply upds_ext.
Qed.

(** [initlog] leaves the recovered disk, with an empty log. *)
Lemma initlog_recovers s sb :
  booting s sb -> let st := sb_logstart sb in
  head_ok st (disk_blk s st) -> length (disk_blk s st) = Z.to_nat BSIZE ->
  exists s', initlog ROOTDEV sb s = Ok tt s' /\ cache s' [] [] /\
    k_dwrites s' = k_dwrites s ++ recover_writes st (disk_blk s) /\
    (forall b, disk_blk s' b = recovered st (disk_blk s) b) /\
    (forall b, blk s' b = disk_blk s' b) /\
    lh_n (k_log s') = 0 /\ head_count (disk_blk s' st) = 0.
Proof.
  intros B st Hok Hlen. destruct (initlog_ok s sb B Hok) as (s' & l & E & C & W & Hs & _ & Hn & _).
  assert (HD : forall b, disk_blk s' b = recovered st (disk_blk s) b) by (intros b; apply (wr_disk _ _ _ W)).
  exists s'. split_and!; [done|done|apply (wr_trace _ _ _ W)|done| | |].
  - intros b. apply (blk_clean s' []); [done|]. apply not_elem_of_nil.
  - rewrite (bio_frame_log _ _ (wr_frame _ _ _ W)). done.
  - rewrite HD. unfold recovered, recover_writes. rewrite upds_app, upds_one. by apply crash_decode_empty.
Qed.

(** ** Theorems *)

(** What stays of the log's fields inside of a transaction. *)
Definition log_same (l l' : logstate) : Prop :=
  log_start l' = log_start l /\ log_size l' = log_size l /\ log_outstanding l' = log_outstanding l /\
  log_committing l' = log_committing l /\ log_dev l' = log_dev l.

(** [log_write] adds a locked buffer's block to the open transaction: a
    block that is already in it is absorbed, a new one is pinned in the cache
    and appended to the header; no block changes, in the cache or on disk,
    and the transaction stays well formed. *)
Lemma log_write_tx s bs held i b :
  tx s bs held -> is_buf s i b -> b ∈ held -> 0 <= b < 2 ^ 32 -> ~ in_log s b ->
  1 <= log_outstanding (k_log s) -> Z.of_nat (length bs) < log_size (k_log s) - 1 ->
  exists s', log_write i s = Ok tt s' /\ tx s' (absorb bs b) held /\ is_buf s' i b /\
    quiet (set_k_log (k_log s') s) s' /\ log_same (k_log s) (k_log s') /\ keeps held s s'.
Proof.
  intros [C L Hz Hcl Hhd] Hi Hb Hr Hlog Ho Hn.
  eexists. split; [by apply (log_write_eq s bs held i b)|].
  set (s1 := if bool_decide (b ∈ bs) then s else _). set (s' := set_k_log _ s1).
  assert (H1 : cache s1 (absorb bs b) held /\ is_buf s1 i b /\ quiet s s1 /\ keeps held s s1).
  { unfold s1, absorb. destruct (bool_decide_reflect (b ∈ bs)) as [Hin|Hin].
    { split; [done|]. split; [done|]. split; [apply quiet_refl|]. by intros j b' H _. }
    destruct (cache_pin s bs (bs ++ [b]) held i b 1 C Hi Hb) as (C' & H' & _ & Q' & K'); [| |done].
    - intros b' Hne. rewrite elem_of_app, list_elem_of_singleton. tauto.
    - rewrite (refs_not bs), (refs_in (bs ++ [b])); [done| |done]. apply elem_of_app. right. left. }
  destruct H1 as (C1 & I1 & Q1 & K1).
  assert (Hd : k_disk s' = k_disk s) by apply (qu_disk _ _ Q1).
  split; [|split; [exact I1|split; [|split; [done|exact K1]]]].
  - split; [by apply cache_log| |done| |].
    + apply (logged_absorb s s' bs b); [done|done|done|done|].
      unfold absorb. case_bool_decide; [apply L|]. rewrite length_app. simpl. lia.
    + unfold disk_blk. rewrite Hd. exact Hcl.
    + unfold disk_blk. rewrite Hd. exact Hhd.
  - by apply quiet_log.
Qed.

(** The end of the last operation commits: every block outside of the log
    is on disk as the file system sees it, and the log is empty again, in
    memory and on disk. *)
Theorem end_op_spec s bs :
  tx s bs [] -> log_outstanding (k_log s) = 1 -> log_committing (k_log s) = false ->
  exists s', end_op s = Ok tt s' /\ tx s' [] [] /\
    (forall b, ~ in_log s b -> disk_blk s' b = blk s b /\ blk s' b = blk s b) /\
    k_log s' = set_lh_n 0 (set_log_outstanding 0 (k_log s)).
Proof. apply end_op_last. Qed.

(** [C1] Crash safety: [commit] returns; if the machine stops after any number
    [n] of its disk writes, [initlog] at the next boot returns too, and the
    disk outside of the log is then the one before the transaction, if the
    header was not written yet, and the one after it otherwise. *)
Theorem commit_crash_safe s bs sb :
  tx s bs [] -> bs <> [] -> sb_logstart sb = log_start (k_log s) ->
  exists s' ws, commit s = Ok tt s' /\ k_dwrites s' = k_dwrites s ++ ws /\
    forall n r, booting r sb -> (forall b, disk_blk r b = upds (take n ws) (disk_blk s) b) ->
      exists r', initlog ROOTDEV sb r = Ok tt r' /\ head_count (disk_blk r' (sb_logstart sb)) = 0 /\
        forall b, ~ in_log s b ->
          disk_blk r' b = (if (n <=? length bs)%nat then disk_blk s b else blk s b) /\ blk r' b = disk_blk r' b.
Proof.
  intros [C L Hz Hcl Hhd] Hne Hsb. destruct (commit_ok s bs C L Hne) as (s' & E & _ & W).
  exists s', (commit_writes (log_start (k_log s)) bs (blk s)).
  split; [done|]. split; [apply (wr_trace _ _ _ W)|]. intros n r B HD.
  destruct (crash_any s bs C L Hcl Hhd n) as (Hok & Hl & Hg). rewrite <- Hsb in *. rewrite <- HD in Hok, Hl.
  destruct (initlog_recovers r sb B Hok Hl) as (r' & Er & _ & _ & Hr & Hv & _ & Hc).
  exists r'. split_and!; [done|done|]. intros b Hb. split; [|done].
  rewrite Hr, <- (Hg b Hb). by apply recovered_ext.
Qed.


(** [C39] The reservation of [begin_op] is one block too large for the log that
    mkfs makes ([nlog = LOGSIZE]): a third operation is admitted to an empty
    log, for up to 30 blocks in all, but [log_write] panics at 29, even when
    the block is already in the log. *)
Theorem log_reservation_exceeds_size s i :
  k_held s = [] -> k_cur s = Some i -> (i < length (k_procs s))%nat ->
  log_size (k_log s) = LOGSIZE -> log_committing (k_log s) = false -> log_outstanding (k_log s) = 2 ->
  (lh_n (k_log s) = 0 -> exists s', begin_op s = Ok tt s' /\ log_outstanding (k_log s') = 3) /\
  (lh_n (k_log s) = 29 -> forall j, log_write j s = Panic "too big a transaction").
Proof.
  intros Hh Hc Hi Hz Hcm Ho. split.
  - intros Hn. rewrite (begin_op_eq s i Hh Hc Hi), Hcm, Hn, Ho. eexists. split; [reflexivity|done].
  - intros Hn j. unfold log_write. rewrite bind_acquire by (rewrite Hh; apply not_elem_of_nil).
    rewrite bind_gets. cbn [k_log set_k_held]. rewrite Hn, Hz. reflexivity.
Qed.

(** ** Witnesses *)

Definition boot_sb : superblock := mkSuperblock 0x10203040 2000 1954 200 30 2 32 45.

(** A transaction with block 100. *)
Definition open_tx : kstate :=
  set_k_log (mkLog 2 30 1 false 1 1 (100 :: replicate 29 0))
    (upd_buf 0 (fun _ => mkBuf true ROOTDEV 100 sleeplock_zero 1 (replicate 1024 7)) boot_state).

Lemma boot_booting : booting boot_state boot_sb.
Proof. split; [apply boot_cache|done|done]. Qed.

Lemma open_cache : cache open_tx [100] [].
Proof.
  apply cache_log. apply (cache_upd boot_state [] [] [100] [] 0 100 _ 0 boot_cache); try done.
  - unfold NBUF, MAXOPBLOCKS. lia.
  - intros j H. by apply boot_no_buf in H.
  - intros b Hb. rewrite list_elem_of_singleton. split; [done|]. intros H. by apply not_elem_of_nil in H.
  - intros _ H. exfalso. apply H. left.
  - intros b H. by apply boot_no_buf in H.
Qed.

Lemma open_logged : logged open_tx [100].
Proof.
  split; try done.
  - unfold LOGSIZE, MAXOPBLOCKS. simpl. lia.
  - apply NoDup_singleton.
  - intros b ->%list_elem_of_singleton. split; [lia|]. unfold in_log, LOGSIZE, MAXOPBLOCKS. simpl. lia.
Qed.

Lemma open_is_tx : tx open_tx [100] [].
Proof. split; [apply open_cache|apply open_logged|done|done|done]. Qed.

Lemma end_op_spec_witness :
  exists s', end_op open_tx = Ok tt s' /\ disk_blk s' 100 = replicate 1024 7 /\ lh_n (k_log s') = 0.
Proof.
  destruct (end_op_spec open_tx [100] open_is_tx) as (s' & E & _ & V & L).
  - reflexivity.
  - reflexivity.
  - exists s'. split; [exact E|]. split; [|by rewrite L].
    destruct (V 100) as [-> _]; [unfold in_log, LOGSIZE, MAXOPBLOCKS; simpl; lia|].
    apply (blk_cached open_tx [100] [] open_cache 0 100); [|reflexivity].
    split; [unfold NBUF, MAXOPBLOCKS; lia|]. split; reflexivity.
Defined.

Lemma commit_crash_safe_witness :
  exists s' r', commit open_tx = Ok tt s' /\ initlog ROOTDEV boot_sb boot_state = Ok tt r' /\
    disk_blk r' 100 = replicate 1024 0.
Proof.
  destruct (commit_crash_safe open_tx [100] boot_sb open_is_tx) as (s' & ws & E & _ & H).
  - done.
  - done.
  - destruct (H 0%nat boot_state boot_booting) as (r' & Er & _ & V); [done|].
    exists s', r'. split; [exact E|]. split; [exact Er|].
    destruct (V 100) as [-> _]; [unfold in_log, LOGSIZE, MAXOPBLOCKS; simpl; lia|done].
Defined.


(** The log of [boot_sb] with two operations under way and 29 blocks in it. *)
Definition full_log : kstate :=
  set_k_log (mkLog 2 30 2 false 1 29 (replicate 30 100)) boot_state.

Lemma log_reservation_exceeds_size_witness : log_write 0 full_log = Panic "too big a transaction".
Proof.
  destruct (log_reservation_exceeds_size full_log 0) as [_ H];
    [done|done|apply Nat.ltb_lt; reflexivity|done|done|done|].
  apply H. done.
Defined.
