(* ===== verification/Fs.v ===== *)
(** * kernel/fs.c: blocks, inodes, directories and path names

    An inode pointer is the index of its entry in the table [k_inodes].  The
    contents of a buffer, a [struct dinode] or a [struct dirent] are bytes
    with the C layout.  Path names and path elements are C strings, given as
    their bytes without the final NUL.  Copies to a kernel buffer return the
    bytes.  [short] fields are kept sign-extended. *)

From S2P Require Import Prelude KString Bytes KState Riscv Spinlock Kalloc Vm Sched Uart Console Sleeplock Bio Log.

(** ** Constants and layout (fs.h, stat.h) *)

Definition ROOTINO : Z := 1.
Definition FSMAGIC : Z := 0x10203040.
Definition DIRSIZ : nat := 14.
Definition T_DIR : Z := 1.
Definition T_FILE : Z := 2.
Definition T_DEVICE : Z := 3.

Definition s16 (x : Z) : Z := (x + 2 ^ 15) mod 2 ^ 16 - 2 ^ 15.

(** [sizeof(struct dinode)], inodes per block, bitmap bits per block *)
Definition dinode_size : Z := 64.
Definition IPB : Z := BSIZE / dinode_size.
Definition IBLOCK (i : Z) (sb : superblock) : Z := u32 (i / IPB + sb_inodestart sb).
Definition BPB : Z := BSIZE * 8.
Definition BBLOCK (b : Z) (sb : superblock) : Z := u32 (b / BPB + sb_bmapstart sb).

(** The disk inode at byte [o] of a block, as the fields of an inode. *)
Definition dinode_get (d : list Z) (o : nat) (ip : inode) : inode :=
  mkInode (i_dev ip) (i_inum ip) (i_ref ip) (i_lock ip) (i_valid ip)
    (s16 (get16 d o)) (s16 (get16 d (o + 2))) (s16 (get16 d (o + 4))) (s16 (get16 d (o + 6)))
    (get32 d (o + 8)) ((fun k => get32 d (o + 12 + 4 * k)) <$> seq 0 13).

(** [memmove(dip->addrs, ip->addrs, ...)] *)
Fixpoint put_addrs (d : list Z) (o : nat) (addrs : list Z) : list Z :=
  match addrs with
  | [] => d
  | a :: addrs => put_addrs (put32 d o a) (o + 4) addrs
  end.

Definition dinode_put (d : list Z) (o : nat) (ip : inode) : list Z :=
  let d := put16 d o (i_type ip) in
  let d := put16 d (o + 2) (i_major ip) in
  let d := put16 d (o + 4) (i_minor ip) in
  let d := put16 d (o + 6) (i_nlink ip) in
  let d := put32 d (o + 8) (i_size ip) in
  put_addrs d (o + 12) (i_addrs ip).

(** Byte offset of inode [inum] in its block. *)
Definition dinode_off (inum : Z) : nat := Z.to_nat (inum mod IPB * dinode_size).

Definition dirent_size : Z := 16.
Definition de_inum (de : list Z) : Z := get16 de 0.
Definition de_name (de : list Z) : list Z := get_bytes de 2 DIRSIZ.

(** ** The superblock *)

Definition superblock_get (d : list Z) : superblock :=
  mkSuperblock (get32 d 0) (get32 d 4) (get32 d 8) (get32 d 12) (get32 d 16) (get32 d 20) (get32 d 24) (get32 d 28).

Definition readsb (dev : Z) : K unit :=
  let! bp := bread dev 1 in
  let! d := bdata bp in
  modify (set_k_sb (superblock_get d)) ;;;
  brelse bp.

Definition fsinit (dev : Z) : K unit :=
  readsb dev ;;;
  let! sb := gets (fun s => k_sb s) in
  if negb (sb_magic sb =? FSMAGIC) then panic "invalid file system"
  else initlog dev sb.

(** ** Blocks *)

Definition bzero (dev bno : Z) : K unit :=
  let! bp := bread dev bno in
  set_bdata bp (replicate (Z.to_nat BSIZE) 0) ;;;
  log_write bp ;;;
  brelse bp.

(** [1 << (bi % 8)] *)
Definition bit_mask (bi : Z) : Z := Z.shiftl 1 (bi mod 8).

(** The inner loop of [balloc]: the first free bit of a bitmap block. *)
Fixpoint balloc_scan (ix : list Z) (d : list Z) (b size : Z) : option Z :=
  match ix with
  | [] => None
  | bi :: ix =>
      if negb (b + bi <? size) then None
      else if Z.land (nth (Z.to_nat (bi / 8)) d 0) (bit_mask bi) =? 0 then Some bi
      else balloc_scan ix d b size
  end.

(** The outer loop, over the first block number [b] of each bitmap block. *)
Fixpoint balloc_loop (bs : list Z) (dev : Z) : K Z :=
  match bs with
  | [] => printf ("balloc: out of blocks" +:+ nl) [] ;;; ret 0
  | b :: bs =>
      let! sb := gets (fun s => k_sb s) in
      let! bp := bread dev (BBLOCK b sb) in
      let! d := bdata bp in
      match balloc_scan (seqZ 0 BPB) d b (sb_size sb) with
      | Some bi =>
          let k := Z.to_nat (bi / 8) in
          set_bdata bp (<[k := Z.lor (nth k d 0) (bit_mask bi)]> d) ;;;
          log_write bp ;;;
          brelse bp ;;;
          bzero dev (b + bi) ;;;
          ret (b + bi)
      | None => brelse bp ;;; balloc_loop bs dev
      end
  end.

Definition balloc (dev : Z) : K Z :=
  let! sb := gets (fun s => k_sb s) in
  balloc_loop ((fun k => k * BPB) <$> seqZ 0 ((sb_size sb + BPB - 1) / BPB)) dev.

Definition bfree (dev b : Z) : K unit :=
  let! sb := gets (fun s => k_sb s) in
  let! bp := bread dev (BBLOCK b sb) in
  let! d := bdata bp in
  let bi := b mod BPB in
  let k := Z.to_nat (bi / 8) in
  if Z.land (nth k d 0) (bit_mask bi) =? 0 then panic "freeing free block"
  else
    set_bdata bp (<[k := Z.land (nth k d 0) (Z.lnot (bit_mask bi))]> d) ;;;
    log_write bp ;;;
    brelse bp.

(** ** Inodes *)

Definition inode_set (i : nat) (f : inode -> inode) : K unit := modify (upd_inode i f).
Definition inode_get (i : nat) : K inode := gets (fun s => get_inode s i).

Fixpoint iinit_loop (ix : list nat) : K unit :=
  match ix with
  | [] => ret tt
  | i :: ix => initsleeplock (sl_inode i) ;;; iinit_loop ix
  end.

Definition iinit : K unit := iinit_loop (seq 0 NINODE).

(** The loop of [iget]: a hit, or the first empty slot. *)
Fixpoint iget_scan (s : kstate) (ix : list nat) (dev inum : Z) (empty : option nat) : option nat * option nat :=
  match ix with
  | [] => (None, empty)
  | i :: ix =>
      let ip := get_inode s i in
      if (0 <? i_ref ip) && (i_dev ip =? dev) && (i_inum ip =? inum) then (Some i, empty)
      else
        let empty := match empty with
                     | None => if i_ref ip =? 0 then Some i else None
                     | Some e => Some e
                     end in
        iget_scan s ix dev inum empty
  end.

Definition iget (dev inum : Z) : K nat :=
  acquire itable_lock ;;;
  let! r := gets (fun s => iget_scan s (seq 0 NINODE) dev inum None) in
  match r with
  | (Some i, _) =>
      inode_set i (fun ip => set_i_ref (s32 (i_ref ip + 1)) ip) ;;;
      release itable_lock ;;;
      ret i
  | (None, Some i) =>
      inode_set i (fun ip => set_i_valid false (set_i_ref 1 (set_i_inum inum (set_i_dev dev ip)))) ;;;
      release itable_lock ;;;
      ret i
  | (None, None) => panic "iget: no inodes"
  end.

Fixpoint ialloc_loop (ix : list Z) (dev type : Z) : K (option nat) :=
  match ix with
  | [] => printf ("ialloc: no inodes" +:+ nl) [] ;;; ret None
  | inum :: ix =>
      let! sb := gets (fun s => k_sb s) in
      let! bp := bread dev (IBLOCK inum sb) in
      let! d := bdata bp in
      let o := dinode_off inum in
      if get16 d o =? 0 then
        set_bdata bp (put16 (put_bytes d o (replicate (Z.to_nat dinode_size) 0)) o type) ;;;
        log_write bp ;;;
        brelse bp ;;;
        let! i := iget dev inum in
        ret (Some i)
      else
        brelse bp ;;;
        ialloc_loop ix dev type
  end.

Definition ialloc (dev type : Z) : K (option nat) :=
  let! sb := gets (fun s => k_sb s) in
  ialloc_loop (seqZ 1 (sb_ninodes sb - 1)) dev type.

Definition iupdate (i : nat) : K unit :=
  let! ip := inode_get i in
  let! sb := gets (fun s => k_sb s) in
  let! bp := bread (i_dev ip) (IBLOCK (i_inum ip) sb) in
  let! d := bdata bp in
  set_bdata bp (dinode_put d (dinode_off (i_inum ip)) ip) ;;;
  log_write bp ;;;
  brelse bp.

Definition idup (i : nat) : K nat :=
  acquire itable_lock ;;;
  inode_set i (fun ip => set_i_ref (s32 (i_ref ip + 1)) ip) ;;;
  release itable_lock ;;;
  ret i.

Definition ilock (i : nat) : K unit :=
  let! ip := inode_get i in
  if i_ref ip <? 1 then panic "ilock"
  else
    acquiresleep (sl_inode i) ;;;
    let! ip := inode_get i in
    if i_valid ip then ret tt
    else
      let! sb := gets (fun s => k_sb s) in
      let! bp := bread (i_dev ip) (IBLOCK (i_inum ip) sb) in
      let! d := bdata bp in
      inode_set i (dinode_get d (dinode_off (i_inum ip))) ;;;
      brelse bp ;;;
      inode_set i (set_i_valid true) ;;;
      let! ip := inode_get i in
      if i_type ip =? 0 then panic "ilock: no type" else ret tt.

Definition iunlock (i : nat) : K unit :=
  let! h := holdingsleep (sl_inode i) in
  let! ip := inode_get i in
  if negb h || (i_ref ip <? 1) then panic "iunlock"
  else releasesleep (sl_inode i).

(** ** Inode contents *)

Definition set_addr (i : nat) (k : nat) (a : Z) : K unit :=
  inode_set i (fun ip => set_i_addrs (<[k := a]> (i_addrs ip)) ip).

Definition bmap (i : nat) (bn : Z) : K Z :=
  let! ip := inode_get i in
  if bn <? NDIRECT then
    let addr := nth (Z.to_nat bn) (i_addrs ip) 0 in
    if addr =? 0 then
      let! addr := balloc (i_dev ip) in
      if addr =? 0 then ret 0
      else set_addr i (Z.to_nat bn) addr ;;; ret addr
    else ret addr
  else
    let bn := bn - NDIRECT in
    if bn <? NINDIRECT then
      let! addr :=
        (let addr := nth (Z.to_nat NDIRECT) (i_addrs ip) 0 in
         if addr =? 0 then
           let! addr := balloc (i_dev ip) in
           if addr =? 0 then ret 0
           else set_addr i (Z.to_nat NDIRECT) addr ;;; ret addr
         else ret addr) in
      if addr =? 0 then ret 0
      else
        let! bp := bread (i_dev ip) addr in
        let! d := bdata bp in
        let addr := get32 d (Z.to_nat (4 * bn)) in
        let! addr :=
          (if addr =? 0 then
             let! addr := balloc (i_dev ip) in
             (if addr =? 0 then ret tt
              else set_bdata bp (put32 d (Z.to_nat (4 * bn)) addr) ;;; log_write bp) ;;;
             ret addr
           else ret addr) in
        brelse bp ;;;
        ret addr
    else panic "bmap: out of range".

Fixpoint itrunc_direct (ix : list nat) (i : nat) : K unit :=
  match ix with
  | [] => ret tt
  | k :: ix =>
      let! ip := inode_get i in
      let a := nth k (i_addrs ip) 0 in
      (if a =? 0 then ret tt else bfree (i_dev ip) a ;;; set_addr i k 0) ;;;
      itrunc_direct ix i
  end.

Fixpoint itrunc_indirect (ix : list nat) (dev : Z) (d : list Z) : K unit :=
  match ix with
  | [] => ret tt
  | j :: ix =>
      let a := get32 d (4 * j) in
      (if a =? 0 then ret tt else bfree dev a) ;;;
      itrunc_indirect ix dev d
  end.

Definition itrunc (i : nat) : K unit :=
  itrunc_direct (seq 0 (Z.to_nat NDIRECT)) i ;;;
  let! ip := inode_get i in
  let a := nth (Z.to_nat NDIRECT) (i_addrs ip) 0 in
  (if a =? 0 then ret tt
   else
     let! bp := bread (i_dev ip) a in
     let! d := bdata bp in
     itrunc_indirect (seq 0 (Z.to_nat NINDIRECT)) (i_dev ip) d ;;;
     brelse bp ;;;
     bfree (i_dev ip) a ;;;
     set_addr i (Z.to_nat NDIRECT) 0) ;;;
  inode_set i (set_i_size 0) ;;;
  iupdate i.

Definition iput (i : nat) : K unit :=
  acquire itable_lock ;;;
  let! ip := inode_get i in
  (if (i_ref ip =? 1) && i_valid ip && (i_nlink ip =? 0) then
     acquiresleep (sl_inode i) ;;;
     release itable_lock ;;;
     itrunc i ;;;
     inode_set i (set_i_type 0) ;;;
     iupdate i ;;;
     inode_set i (set_i_valid false) ;;;
     releasesleep (sl_inode i) ;;;
     acquire itable_lock
   else ret tt) ;;;
  inode_set i (fun ip => set_i_ref (s32 (i_ref ip - 1)) ip) ;;;
  release itable_lock.

Definition iunlockput (i : nat) : K unit := iunlock i ;;; iput i.

(** [struct stat], 24 bytes with its padding. *)
Definition stati (ip : inode) : list Z :=
  let st := replicate 24 0 in
  let st := put32 st 0 (i_dev ip) in
  let st := put32 st 4 (i_inum ip) in
  let st := put16 st 8 (i_type ip) in
  let st := put16 st 10 (i_nlink ip) in
  put_le 8 st 16 (i_size ip).

(** The loop of [readi]: [tot] bytes are done; the result is the value of
    [tot] at the end and the bytes copied to a kernel buffer.  Every
    iteration but the first and the last copies a whole block. *)
Fixpoint readi_loop (fuel : nat) (i : nat) (dst : dest) (off n tot : Z) (acc : list Z) : K (Z * list Z) :=
  if tot <? n then
    match fuel with
    | O => nofuel
    | S fuel =>
        let! addr := bmap i (off / BSIZE) in
        if addr =? 0 then ret (tot, acc)
        else
          let! ip := inode_get i in
          let! bp := bread (i_dev ip) addr in
          let! d := bdata bp in
          let m := Z.min (n - tot) (BSIZE - off mod BSIZE) in
          let bs := get_bytes d (Z.to_nat (off mod BSIZE)) (Z.to_nat m) in
          let! r := either_copyout dst bs in
          brelse bp ;;;
          if r =? -1 then ret (-1, acc)
          else readi_loop fuel i (dest_add dst m) (u32 (off + m)) n (tot + m) (acc ++ bs)
    end
  else ret (tot, acc).

Definition readi (i : nat) (dst : dest) (off n : Z) : K (Z * list Z) :=
  let! ip := inode_get i in
  if (i_size ip <? off) || (u32 (off + n) <? off) then ret (0, [])
  else
    let n := if i_size ip <? u32 (off + n) then u32 (i_size ip - off) else n in
    readi_loop (Z.to_nat (n / BSIZE) + 2) i dst off n 0 [].

(** The loop of [writei]: the values of [tot] and [off] at its end.  Bytes
    that a failing copy has already stored stay in the buffer. *)
Fixpoint writei_loop (fuel : nat) (i : nat) (src : source) (off n tot : Z) : K (Z * Z) :=
  if tot <? n then
    match fuel with
    | O => nofuel
    | S fuel =>
        let! addr := bmap i (off / BSIZE) in
        if addr =? 0 then ret (tot, off)
        else
          let! ip := inode_get i in
          let! bp := bread (i_dev ip) addr in
          let m := Z.min (n - tot) (BSIZE - off mod BSIZE) in
          let! (r, bs) := either_copyin src m in
          let! d := bdata bp in
          set_bdata bp (put_bytes d (Z.to_nat (off mod BSIZE)) bs) ;;;
          if r =? -1 then brelse bp ;;; ret (tot, off)
          else
            log_write bp ;;;
            brelse bp ;;;
            writei_loop fuel i (source_add src m) (u32 (off + m)) n (tot + m)
    end
  else ret (tot, off).

Definition writei (i : nat) (src : source) (off n : Z) : K Z :=
  let! ip := inode_get i in
  if (i_size ip <? off) || (u32 (off + n) <? off) then ret (-1)
  else if MAXFILE * BSIZE <? u32 (off + n) then ret (-1)
  else
    let! (tot, off) := writei_loop (Z.to_nat (n / BSIZE) + 2) i src off n 0 in
    let! ip := inode_get i in
    (if i_size ip <? off then inode_set i (set_i_size off) else ret tt) ;;;
    iupdate i ;;;
    ret tot.

(** ** Directories *)

(** [strncmp] on two C strings; past the end of a list is its NUL. *)
Fixpoint str_ncmp (n : nat) (p q : list Z) : Z :=
  match n with
  | O => 0
  | S n =>
      let a := nth 0 p 0 in let b := nth 0 q 0 in
      if negb (a =? 0) && (a =? b) then str_ncmp n (tail p) (tail q) else a - b
  end.

(** [strncpy] of a C string to an array of [n] bytes. *)
Fixpoint str_ncpy (n : nat) (t : list Z) : list Z :=
  match n with
  | O => []
  | S n =>
      match t with
      | [] => replicate (S n) 0
      | c :: t => if c =? 0 then replicate (S n) 0 else c :: str_ncpy n t
      end
  end.

Definition namecmp (s t : list Z) : Z := str_ncmp DIRSIZ s t.

(** The offsets of the entries of a directory of [size] bytes. *)
Definition dir_offsets (size : Z) : list Z := (fun k => k * dirent_size) <$> seqZ 0 ((size + 15) / 16).

Fixpoint dirlookup_loop (offs : list Z) (dp : nat) (name : list Z) : K (option (nat * Z)) :=
  match offs with
  | [] => ret None
  | off :: offs =>
      let! (r, de) := readi dp kernel_dst off dirent_size in
      if negb (r =? dirent_size) then panic "dirlookup read"
      else if de_inum de =? 0 then dirlookup_loop offs dp name
      else if namecmp name (de_name de) =? 0 then
        let! ip := inode_get dp in
        let! i := iget (i_dev ip) (de_inum de) in
        ret (Some (i, off))
      else dirlookup_loop offs dp name
  end.

(** The inode, and the offset of its entry. *)
Definition dirlookup (dp : nat) (name : list Z) : K (option (nat * Z)) :=
  let! ip := inode_get dp in
  if negb (i_type ip =? T_DIR) then panic "dirlookup not DIR"
  else dirlookup_loop (dir_offsets (i_size ip)) dp name.

Fixpoint dirlink_scan (offs : list Z) (dp : nat) (end_off : Z) : K Z :=
  match offs with
  | [] => ret end_off
  | off :: offs =>
      let! (r, de) := readi dp kernel_dst off dirent_size in
      if negb (r =? dirent_size) then panic "dirlink read"
      else if de_inum de =? 0 then ret off
      else dirlink_scan offs dp end_off
  end.

Definition dirlink (dp : nat) (name : list Z) (inum : Z) : K Z :=
  let! r := dirlookup dp name in
  match r with
  | Some (i, _) => iput i ;;; ret (-1)
  | None =>
      let! ip := inode_get dp in
      let offs := dir_offsets (i_size ip) in
      let! off := dirlink_scan offs dp (Z.of_nat (length offs) * dirent_size) in
      let de := put16 (replicate 2 0) 0 inum ++ str_ncpy DIRSIZ name in
      let! r := writei dp (kernel_src de) off dirent_size in
      ret (if r =? dirent_size then 0 else -1)
  end.

(** ** Paths *)

Fixpoint skip_slashes (path : list Z) : list Z :=
  match path with
  | c :: rest => if c =? 47 then skip_slashes rest else path
  | [] => []
  end.

(** The bytes up to the next slash or the end, and what follows. *)
Fixpoint split_elem (path : list Z) : list Z * list Z :=
  match path with
  | c :: rest => if c =? 47 then ([], path) else let (e, r) := split_elem rest in (c :: e, r)
  | [] => ([], [])
  end.

(** The element copied to [name], and the rest of the path. *)
Definition skipelem (path : list Z) : option (list Z * list Z) :=
  match skip_slashes path with
  | [] => None
  | path =>
      let (s, path) := split_elem path in
      Some (if (DIRSIZ <=? length s)%nat then take DIRSIZ s else s, skip_slashes path)
  end.

(** The [while] of [namex]; each element shortens the path.  The result is
    the inode and the last element copied to [name]. *)
Fixpoint namex_loop (fuel : nat) (i : nat) (path : list Z) (parent : bool) (name : list Z)
    : K (option (nat * list Z)) :=
  match skipelem path with
  | None =>
      if parent then iput i ;;; ret None else ret (Some (i, name))
  | Some (name, path) =>
      match fuel with
      | O => nofuel
      | S fuel =>
          ilock i ;;;
          let! ip := inode_get i in
          if negb (i_type ip =? T_DIR) then iunlockput i ;;; ret None
          else if parent && bool_decide (path = []) then iunlock i ;;; ret (Some (i, name))
          else
            let! next := dirlookup i name in
            match next with
            | None => iunlockput i ;;; ret None
            | Some (next, _) => iunlockput i ;;; namex_loop fuel next path parent name
            end
      end
  end.

Definition namex (path : list Z) (parent : bool) : K (option (nat * list Z)) :=
  let! i := (if nth 0 path 0 =? 47 then iget ROOTDEV ROOTINO
             else
               let! me := myproc_ in
               let! cwd := gets (fun s => p_cwd (get_proc s me)) in
               match cwd with
               | Some i => idup i
               | None => fault "cwd is null"
               end) in
  namex_loop (length path) i path parent [].

Definition namei (path : list Z) : K (option nat) :=
  let! r := namex path false in
  ret (fst <$> r).

Definition nameiparent (path : list Z) : K (option (nat * list Z)) := namex path true.
