(* ===== verification/FsPath.v ===== *)
(** * Path names and disk inodes

    The pure parts of kernel/fs.c against reference definitions: [skipelem]
    against splitting a path at its slashes, and the layout of [struct
    dinode] as an encoding of the fields of an inode. *)

From S2P Require Import Prelude KString Bytes KState Riscv Spinlock Kalloc Vm Sched Uart Console Sleeplock Bio Log Fs.

(** ** Path elements *)

(** A path cut at every slash; elements may be empty. *)
Fixpoint split_slash (path : list Z) : list (list Z) :=
  match path with
  | [] => [[]]
  | c :: rest =>
      if c =? 47 then [] :: split_slash rest
      else match split_slash rest with
           | e :: es => (c :: e) :: es
           | [] => [[c]]
           end
  end.

(** The names along a path: its non-empty elements, cut to 14 bytes. *)
Definition path_names (path : list Z) : list (list Z) :=
  take DIRSIZ <$> filter (fun e => e <> []) (split_slash path).

Lemma skip_slashes_names path : path_names (skip_slashes path) = path_names path.
Proof.
  induction path as [|c path IH]; [done|]. cbn [skip_slashes]. destruct (Z.eqb_spec c 47) as [->|]; [|done].
  rewrite IH. done.
Qed.

Lemma skip_slashes_head path : match skip_slashes path with [] => True | c :: _ => c <> 47 end.
Proof. induction path as [|c path IH]; [done|]. cbn [skip_slashes]. by destruct (Z.eqb_spec c 47). Qed.

Lemma skip_slashes_length path : (length (skip_slashes path) <= length path)%nat.
Proof. induction path as [|c path IH]; cbn [skip_slashes]; [done|]. destruct (c =? 47); cbn [length]; lia. Qed.

(** The element and the rest, and the path they come from. *)
Lemma split_elem_spec path e r :
  split_elem path = (e, r) ->
  path = e ++ r /\ Forall (fun c => c <> 47) e /\ match r with [] => True | c :: _ => c = 47 end.
Proof.
  revert e r. induction path as [|c path IH]; intros e r; cbn [split_elem]; [intros [= <- <-]; done|].
  destruct (Z.eqb_spec c 47) as [->|Hc]; [intros [= <- <-]; done|].
  destruct (split_elem path) as [e' r'] eqn:E. intros [= <- <-]. destruct (IH e' r' eq_refl) as (-> & He & Hr).
  split; [done|]. split; [by constructor|done].
Qed.

Lemma split_slash_app e r :
  Forall (fun c => c <> 47) e ->
  split_slash (e ++ r) = match split_slash r with x :: xs => (e ++ x) :: xs | [] => [e] end.
Proof.
  induction e as [|c e IH]; intros He; cbn [app split_slash].
  - destruct r as [|c r]; cbn; [done|]. destruct (c =? 47); [done|]. by destruct (split_slash r).
  - apply Forall_cons in He as [Hc He]. destruct (Z.eqb_spec c 47); [done|]. rewrite IH by done.
    by destruct (split_slash r).
Qed.

Lemma path_names_elem e r :
  Forall (fun c => c <> 47) e -> e <> [] -> match r with [] => True | c :: _ => c = 47 end ->
  path_names (e ++ r) = take DIRSIZ e :: path_names r.
Proof.
  intros He Hne Hr. unfold path_names. rewrite split_slash_app by done.
  destruct r as [|c r]; [|subst c; change (split_slash (47 :: r)) with ([] :: split_slash r)].
  - change (split_slash []) with [@nil Z]. cbv beta iota. by rewrite app_nil_r, filter_cons_True.
  - cbv beta iota. rewrite app_nil_r, filter_cons_True by done. rewrite filter_cons_False by tauto. done.
Qed.

Lemma path_names_nil path : match path with [] => True | c :: _ => c <> 47 end -> path_names path = [] <-> path = [].
Proof.
  intros H. split; [|by intros ->]. destruct path as [|c path]; [done|]. unfold path_names. cbn [split_slash].
  destruct (Z.eqb_spec c 47); [done|]. destruct (split_slash path); rewrite filter_cons_True by done; done.
Qed.

(** [skipelem] takes the first name off a path: it returns 0 exactly when
    the path has no names; otherwise the name it stores is the first one (cut to 14
    bytes), the path it returns has the others, is shorter, and is empty
    exactly when there are no others.  Slashes at either end and repeated
    slashes do not matter. *)
Theorem skipelem_names (path : list Z) :
  match skipelem path with
  | None => path_names path = []
  | Some (name, rest) =>
      path_names path = name :: path_names rest /\ name <> [] /\
      (length rest < length path)%nat /\ (rest = [] <-> path_names rest = [])
  end.
Proof.
  unfold skipelem. pose proof (skip_slashes_head path) as Hh. pose proof (skip_slashes_length path) as Hl.
  rewrite <- (skip_slashes_names path). destruct (skip_slashes path) as [|c p]; [done|].
  destruct (split_elem (c :: p)) as [e r] eqn:E. destruct (split_elem_spec _ _ _ E) as (Ep & He & Hr).
  assert (Hne : e <> []) by (intros ->; cbn in Ep; subst r; done).
  rewrite Ep, path_names_elem by done.
  replace (if (DIRSIZ <=? length e)%nat then take DIRSIZ e else e) with (take DIRSIZ e).
  2:{ destruct (Nat.leb_spec DIRSIZ (length e)); [done|]. apply take_ge. lia. }
  rewrite skip_slashes_names. split; [done|]. split; [by destruct e|]. split.
  - apply (f_equal length) in Ep. rewrite length_app in Ep. pose proof (skip_slashes_length r).
    destruct e; [done|]. cbn [length] in *. lia.
  - rewrite <- (skip_slashes_names r). symmetry. apply path_names_nil, skip_slashes_head.
Qed.

(** ** Disk inodes *)

(** The fields of an inode that go to disk are in the range of their types. *)
Record inode_fits (ip : inode) : Prop := {
  if_type : - 2 ^ 15 <= i_type ip < 2 ^ 15;
  if_major : - 2 ^ 15 <= i_major ip < 2 ^ 15;
  if_minor : - 2 ^ 15 <= i_minor ip < 2 ^ 15;
  if_nlink : - 2 ^ 15 <= i_nlink ip < 2 ^ 15;
  if_size : 0 <= i_size ip < 2 ^ 32;
  if_addrs : length (i_addrs ip) = 13%nat;
  if_addr : Forall (fun a => 0 <= a < 2 ^ 32) (i_addrs ip)
}.

(** The fields of [ip] that are on disk, with the others of [ip']. *)
Definition with_fields (ip ip' : inode) : inode :=
  mkInode (i_dev ip') (i_inum ip') (i_ref ip') (i_lock ip') (i_valid ip')
    (i_type ip) (i_major ip) (i_minor ip) (i_nlink ip) (i_size ip) (i_addrs ip).

Lemma s16_mod x : - 2 ^ 15 <= x < 2 ^ 15 -> s16 (x mod 256 ^ Z.of_nat 2) = x.
Proof.
  intros H. unfold s16. change (256 ^ Z.of_nat 2) with (2 ^ 16). rewrite Zplus_mod_idemp_l.
  rewrite Z.mod_small by lia. lia.
Qed.

Lemma length_put_addrs d o addrs : length (put_addrs d o addrs) = length d.
Proof.
  revert d o. induction addrs as [|a addrs IH]; intros d o; cbn [put_addrs]; [done|].
  rewrite IH. apply length_put_le.
Qed.

Lemma get_put_addrs_other n d o addrs o' :
  (o' + n <= o \/ o + 4 * length addrs <= o')%nat -> get_le n (put_addrs d o addrs) o' = get_le n d o'.
Proof.
  revert d o. induction addrs as [|a addrs IH]; intros d o H; cbn [put_addrs]; [done|].
  cbn [length] in H. rewrite IH by lia. apply get_put_le_other. lia.
Qed.

Lemma get_put_addrs d o addrs k a :
  (o + 4 * length addrs <= length d)%nat -> addrs !! k = Some a -> 0 <= a < 2 ^ 32 ->
  get32 (put_addrs d o addrs) (o + 4 * k) = a.
Proof.
  revert d o k. induction addrs as [|b addrs IH]; intros d o k H Hk Ha; [done|]. cbn [length] in H.
  cbn [put_addrs]. destruct k as [|k].
  - injection Hk as ->. rewrite Nat.mul_0_r, Nat.add_0_r. unfold get32. rewrite get_put_addrs_other by lia.
    unfold put32. rewrite get_put_le_same by lia. by apply Z.mod_small.
  - replace (o + 4 * S k)%nat with (o + 4 + 4 * k)%nat by lia. apply IH; [|done|done].
    unfold put32. rewrite length_put_le. lia.
Qed.

Lemma length_dinode_put d o ip : length (dinode_put d o ip) = length d.
Proof. unfold dinode_put. rewrite length_put_addrs. unfold put32, put16. by rewrite !length_put_le. Qed.

Lemma byte_list_put_addrs d o addrs : byte_list d -> byte_list (put_addrs d o addrs).
Proof.
  revert d o. induction addrs as [|a addrs IH]; intros d o H; cbn [put_addrs]; [done|].
  by apply IH, byte_list_put_le.
Qed.

Lemma byte_list_dinode_put d o ip : byte_list d -> byte_list (dinode_put d o ip).
Proof. intros H. by repeat first [apply byte_list_put_addrs|apply byte_list_put_le]. Qed.

(** A field of the inode, before the block addresses. *)
Ltac get_field :=
  unfold get16, get32, put16, put32;
  repeat first [rewrite get_put_addrs_other by lia | rewrite get_put_le_other by lia];
  try (rewrite get_put_le_same by (rewrite ?length_put_le; lia)).

Lemma dinode_get_put d o ip ip' :
  (o + 64 <= length d)%nat -> inode_fits ip -> dinode_get (dinode_put d o ip) o ip' = with_fields ip ip'.
Proof.
  intros Hd [H1 H2 H3 H4 H5 H6 H7]. unfold dinode_get, with_fields, dinode_put.
  f_equal.
  - get_field. by apply s16_mod.
  - get_field. by apply s16_mod.
  - get_field. by apply s16_mod.
  - get_field. by apply s16_mod.
  - get_field. by apply Z.mod_small.
  - apply list_eq_same_length with 13%nat; [done|done|]. intros k x y Hk Hx Hy.
    rewrite list_lookup_fmap, lookup_seq_lt in Hx by done. injection Hx as <-.
    rewrite Forall_lookup in H7. apply get_put_addrs; [|done|by eapply H7].
    unfold put32, put16. rewrite !length_put_le. lia.
Qed.

Lemma dinode_get_put_other d o o' ip ip' :
  (o' + 64 <= o \/ o + 64 <= o')%nat -> length (i_addrs ip) = 13%nat ->
  dinode_get (dinode_put d o ip) o' ip' = dinode_get d o' ip'.
Proof.
  intros Hd Ha. unfold dinode_get, dinode_put. f_equal; try (get_field; done).
  apply list_fmap_ext. intros k x Hx. apply lookup_seq in Hx as [-> Hx]. get_field. done.
Qed.
