(* ===== verification/FsBlock.v ===== *)
(** * Block allocation inside a transaction

    Reading and changing blocks through the cache and the log ([tstep]), and
    on top of that the free bitmap: what [balloc], [bzero] and [bfree] of
    kernel/fs.c do to the blocks the file system sees. *)

From S2P Require Import Prelude KString Bytes KState Riscv Spinlock Kalloc Vm Sched Uart Console Sleeplock.
From S2P Require Import Bio Log LogSafe Fs.

(** ** Steps of a transaction *)

(** Inside of a transaction the blocks were changed by [ws], all of them
    logged; nothing went to disk, and of the rest of the kernel only the
    console output and woken processes differ. *)
Record tstep (s : kstate) (bs : list Z) (ws : list (Z * list Z)) (s' : kstate) (bs' : list Z) : Prop := {
  ts_frame : bio_frame (set_k_log (k_log s') (set_k_uart (k_uart s') s)) s';
  ts_log : log_same (k_log s) (k_log s');
  ts_disk : k_disk s' = k_disk s;
  ts_blk : forall b, blk s' b = upds ws (blk s) b;
  ts_bs : bs' = foldl absorb bs ws.*1
}.

Lemma absorb_length bs b : length (absorb bs b) = (length bs + if bool_decide (b ∈ bs) then 0 else 1)%nat.
Proof. unfold absorb. case_bool_decide; [lia|]. rewrite length_app. simpl. lia. Qed.

Lemma elem_of_absorbs l : forall bs b, b ∈ foldl absorb bs l <-> b ∈ bs \/ b ∈ l.
Proof.
  induction l as [|x l IH]; intros bs b; cbn [foldl]; [rewrite elem_of_nil; tauto|].
  rewrite IH, elem_of_absorb, elem_of_cons. tauto.
Qed.

Lemma absorbs_length l : forall bs, (length bs <= length (foldl absorb bs l) <= length bs + length l)%nat.
Proof.
  induction l as [|x l IH]; intros bs; cbn [foldl length]; [lia|]. specialize (IH (absorb bs x)).
  rewrite absorb_length in IH. case_bool_decide; lia.
Qed.

Lemma ts_elem s bs ws s' bs' : tstep s bs ws s' bs' -> forall b, b ∈ bs' <-> b ∈ bs \/ b ∈ ws.*1.
Proof. intros [_ _ _ _ ->] b. apply elem_of_absorbs. Qed.

Lemma ts_len s bs ws s' bs' : tstep s bs ws s' bs' -> (length bs <= length bs' <= length bs + length ws)%nat.
Proof. intros [_ _ _ _ ->]. pose proof (absorbs_length ws.*1 bs). rewrite length_fmap in *. lia. Qed.

Lemma log_same_trans l1 l2 l3 : log_same l1 l2 -> log_same l2 l3 -> log_same l1 l3.
Proof. unfold log_same. intros (-> & -> & -> & -> & ->). tauto. Qed.

Lemma bio_frame_step s1 s2 s3 :
  bio_frame (set_k_log (k_log s2) (set_k_uart (k_uart s2) s1)) s2 ->
  bio_frame (set_k_log (k_log s3) (set_k_uart (k_uart s3) s2)) s3 ->
  bio_frame (set_k_log (k_log s3) (set_k_uart (k_uart s3) s1)) s3.
Proof.
  intros [F1 W1] [F2 W2]. split.
  - rewrite F2, F1 at 1. reflexivity.
  - eapply (woken_trans _ (set_k_log (k_log s3) (set_k_uart (k_uart s3) s2))); [|exact W1|exact W2].
    cbn. rewrite F1. reflexivity.
Qed.

Lemma tstep_refl s bs : tstep s bs [] s bs.
Proof. by split. Qed.

Lemma tstep_trans s1 bs1 ws s2 bs2 ws' s3 bs3 :
  tstep s1 bs1 ws s2 bs2 -> tstep s2 bs2 ws' s3 bs3 -> tstep s1 bs1 (ws ++ ws') s3 bs3.
Proof.
  intros [F1 L1 D1 B1 S1] [F2 L2 D2 B2 S2]. split.
  - by apply (bio_frame_step s1 s2).
  - by eapply log_same_trans.
  - congruence.
  - intros b. rewrite upds_app, B2. by apply upds_ext.
  - by rewrite S2, S1, fmap_app, foldl_app.
Qed.

(** Steps that change no block, before and after. *)
Lemma tstep_nil_l s1 bs1 s2 bs2 ws s3 bs3 :
  tstep s1 bs1 [] s2 bs2 -> tstep s2 bs2 ws s3 bs3 -> tstep s1 bs1 ws s3 bs3.
Proof. apply (tstep_trans s1 bs1 [] s2 bs2 ws s3 bs3). Qed.

Lemma tstep_nil_r s1 bs1 ws s2 bs2 s3 bs3 :
  tstep s1 bs1 ws s2 bs2 -> tstep s2 bs2 [] s3 bs3 -> tstep s1 bs1 ws s3 bs3.
Proof. intros H1 H2. rewrite <- (app_nil_r ws). by eapply tstep_trans. Qed.

Lemma keeps_trans held s1 s2 s3 : keeps held s1 s2 -> keeps held s2 s3 -> keeps held s1 s3.
Proof. intros H1 H2 i b Hi Hb. apply H2; [|done]. by apply H1. Qed.

Lemma keeps_tail b held s s' : keeps (b :: held) s s' -> keeps held s s'.
Proof. intros H i b' Hi Hb. apply H; [done|by right]. Qed.

Lemma tstep_sb s bs ws s' bs' : tstep s bs ws s' bs' -> k_sb s' = k_sb s.
Proof. intros [[F _] _ _ _ _]. by rewrite F. Qed.

Lemma tstep_inodes s bs ws s' bs' : tstep s bs ws s' bs' -> k_inodes s' = k_inodes s.
Proof. intros [[F _] _ _ _ _]. by rewrite F. Qed.

Lemma tstep_in_log s bs ws s' bs' b : tstep s bs ws s' bs' -> in_log s' b <-> in_log s b.
Proof. intros [_ (E & _) _ _ _]. unfold in_log. by rewrite E. Qed.

(** Writing takes room in the log, and reading a buffer. *)
Record room (s : kstate) (bs held : list Z) (n : nat) : Prop := {
  ro_open : 1 <= log_outstanding (k_log s);
  ro_log : Z.of_nat (length bs + n) < log_size (k_log s);
  ro_bufs : (length bs + n + length held < NBUF)%nat
}.

Lemma tstep_room s bs ws s' bs' held n :
  tstep s bs ws s' bs' -> room s bs held (n + length ws) -> room s' bs' held n.
Proof.
  intros T [R1 R2 R3]. pose proof (ts_len _ _ _ _ _ T) as N. destruct (ts_log _ _ _ _ _ T) as (_ & E1 & E2 & _).
  split; rewrite ?E1, ?E2; lia.
Qed.

Lemma room_le s bs held held' n m :
  room s bs held n -> (m <= n)%nat -> (m + length held' <= n + length held)%nat -> room s bs held' m.
Proof. intros [R1 R2 R3] H H'. split; [done|lia|lia]. Qed.

(** ** Reading a block *)

Lemma quiet_tx s bs held held' s' :
  quiet s s' -> tx s bs held -> cache s' bs held' -> tx s' bs held'.
Proof.
  intros Q [C L Hz Hcl Hhd] C'. pose proof (bio_frame_log _ _ (qu_frame _ _ Q)) as El.
  split; [done|by apply (logged_frame s); rewrite ?El| | |]; rewrite ?El; unfold disk_blk; rewrite ?(qu_disk _ _ Q); done.
Qed.

Lemma tstep_quiet s bs s' : quiet s s' -> tstep s bs [] s' bs.
Proof.
  intros Q. pose proof (qu_frame _ _ Q) as F. pose proof (bio_frame_log _ _ F) as El.
  split; [|by rewrite El|apply Q|apply Q|done].
  rewrite El. replace (k_uart s') with (k_uart s) by (by rewrite (proj1 F)). exact F.
Qed.

Lemma tx_bread s bs held b :
  tx s bs held -> (b ∉ held) -> (length bs + length held < NBUF)%nat ->
  exists i s', (forall B (k : nat -> K B), (let! x := bread ROOTDEV b in k x) s = k i s') /\
    tx s' bs (b :: held) /\ is_buf s' i b /\ b_data (get_buf s' i) = blk s b /\
    tstep s bs [] s' bs /\ keeps held s s' /\ (b ∈ bs \/ blk s' b = disk_blk s' b).
Proof.
  intros T Hb R. destruct (bind_bread s bs held b (tx_cache _ _ _ T) Hb) as (i & s' & E & C & I & D & Q & Kp).
  { right. lia. }
  exists i, s'. split; [exact E|]. split; [by eapply quiet_tx|]. split; [done|]. split; [done|].
  split; [by apply tstep_quiet|]. split; [done|]. destruct (decide (b ∈ bs)) as [|Hn]; [by left|right].
  rewrite (qu_blk _ _ Q). unfold disk_blk. rewrite (qu_disk _ _ Q).
  by apply (cache_clean s bs held); [apply T|..].
Qed.

(** Releasing a buffer that is logged or was not changed. *)
Lemma tx_brelse s bs held b i :
  tx s bs (b :: held) -> (b ∉ held) -> is_buf s i b -> (b ∈ bs \/ blk s b = disk_blk s b) ->
  exists s', brelse i s = Ok tt s' /\ tx s' bs held /\ tstep s bs [] s' bs /\ keeps held s s'.
Proof.
  intros T Hb I H. destruct (brelse_spec s bs held b i (tx_cache _ _ _ T) Hb I) as (s' & E & C & Q & Kp).
  { rewrite (held_data s bs (b :: held) i b); [done|apply T|done|left]. }
  exists s'. split; [exact E|]. split; [by eapply quiet_tx|]. split; [by apply tstep_quiet|done].
Qed.

(** Reading only. *)
Lemma tx_peek s bs held b :
  tx s bs held -> (b ∉ held) -> (length bs + length held < NBUF)%nat ->
  exists s', (forall B (k : list Z -> K B),
      (let! x := bread ROOTDEV b in let! d := bdata x in brelse x ;;; k d) s = k (blk s b) s') /\
    tx s' bs held /\ tstep s bs [] s' bs /\ keeps held s s'.
Proof.
  intros T Hb R. destruct (tx_bread s bs held b T Hb R) as (i & s1 & E1 & T1 & I1 & D1 & S1 & K1 & H1).
  destruct (tx_brelse s1 bs held b i T1 Hb I1 H1) as (s2 & E2 & T2 & S2 & K2).
  exists s2. split; [|split; [done|split; [by eapply tstep_nil_l|by eapply keeps_trans]]].
  intros B k. rewrite E1. unfold bdata. rewrite bind_gets, D1. by rewrite (bind_ok _ _ _ _ _ E2).
Qed.

(** ** Changing a block *)

(** A block that may be logged. *)
Definition home (s : kstate) (b : Z) : Prop := 0 <= b < 2 ^ 32 /\ ~ in_log s b.

(** [set_bdata; log_write] *)
Lemma tx_set_data s bs held i b d :
  tx s bs held -> is_buf s i b -> b ∈ held -> home s b -> room s bs [] 1 ->
  exists s', (forall B (k : K B), (set_bdata i d ;;; log_write i ;;; k) s = k s') /\
    tx s' (absorb bs b) held /\ is_buf s' i b /\ tstep s bs [(b, d)] s' (absorb bs b) /\ keeps held s s'.
Proof.
  intros T I Hb [Hr Hl] R.
  destruct (set_bdata_spec s bs held i b d (tx_cache _ _ _ T) I Hb) as (C1 & I1 & D1 & B1 & O1). cbv zeta in *.
  set (s1 := upd_buf i (set_b_data d) s) in *.
  assert (T1 : tx s1 bs held) by (destruct T; split; [done|by apply (logged_frame s)|done..]).
  destruct (log_write_tx s1 bs held i b T1 I1 Hb Hr Hl) as (s2 & E2 & T2 & I2 & Q2 & S2 & K2).
  { apply R. } { destruct R as [_ R _]. change (k_log s1) with (k_log s). lia. }
  exists s2. split; [intros B k; unfold set_bdata; rewrite bind_modify; by rewrite (bind_ok _ _ _ _ _ E2)|].
  split; [done|]. split; [done|]. pose proof (qu_frame _ _ Q2) as [F2 W2]. split.
  - split; [|exact S2|apply (qu_disk _ _ Q2)| |done].
    + split; [|exact W2]. rewrite F2. reflexivity.
    + intros b'. rewrite (qu_blk _ _ Q2), (blk_frame s1) by done. destruct (decide (b' = b)) as [->|Hne].
      * by rewrite upds_one.
      * rewrite O1, upds_not by (done || simpl; by rewrite list_elem_of_singleton). done.
  - eapply keeps_trans; [|exact K2]. apply keeps_upd; [|done|done].
    rewrite (ca_len _ _ _ (tx_cache _ _ _ T)). apply I.
Qed.

(** [set_bdata; log_write; brelse] *)
Lemma tx_put s bs held i b d :
  tx s bs (b :: held) -> is_buf s i b -> (b ∉ held) -> home s b -> room s bs [] 1 ->
  exists s', (forall B (k : K B), (set_bdata i d ;;; log_write i ;;; brelse i ;;; k) s = k s') /\
    (set_bdata i d ;;; log_write i ;;; brelse i) s = Ok tt s' /\
    tx s' (absorb bs b) held /\ tstep s bs [(b, d)] s' (absorb bs b) /\ keeps held s s'.
Proof.
  intros T I Hb Hh R. destruct (tx_set_data s bs (b :: held) i b d T I ltac:(left) Hh R) as (s1 & E1 & T1 & I1 & S1 & K1).
  destruct (tx_brelse s1 (absorb bs b) held b i T1 Hb I1) as (s2 & E2 & T2 & S2 & K2).
  { left. apply elem_of_absorb. by right. }
  exists s2. split; [intros B k; rewrite E1; by rewrite (bind_ok _ _ _ _ _ E2)|]. split; [by rewrite E1|].
  split; [done|]. split; [by eapply tstep_nil_r|]. eapply keeps_trans; [by eapply keeps_tail|done].
Qed.

(** ** The bitmap *)

(** Bit [bi] of a bitmap block. *)
Definition bit (d : list Z) (bi : Z) : bool := Z.testbit (nth (Z.to_nat (bi / 8)) d 0) (bi mod 8).

(** Block [b] is marked in use. *)
Definition used (s : kstate) (b : Z) : bool := bit (blk s (BBLOCK b (k_sb s))) (b mod BPB).

(** The first block after the bitmap. *)
Definition data_start (sb : superblock) : Z := sb_bmapstart sb + sb_size sb / BPB + 1.

(** The order of the regions on disk, as mkfs lays them out. *)
Record fs_layout (s : kstate) : Prop := {
  fl_size : 0 < sb_size (k_sb s) < 2 ^ 31;
  fl_log : 0 <= log_start (k_log s) /\ log_start (k_log s) + LOGSIZE <= sb_inodestart (k_sb s);
  fl_inodes : 0 <= sb_ninodes (k_sb s) /\ sb_inodestart (k_sb s) + sb_ninodes (k_sb s) / IPB < sb_bmapstart (k_sb s);
  fl_data : data_start (k_sb s) <= sb_size (k_sb s)
}.

(** The bitmap is well formed and marks the metadata as in use. *)
Record bitmap_ok (s : kstate) : Prop := {
  bm_layout : fs_layout s;
  bm_block : forall b, 0 <= b < sb_size (k_sb s) ->
    length (blk s (BBLOCK b (k_sb s))) = Z.to_nat BSIZE /\ byte_list (blk s (BBLOCK b (k_sb s)));
  bm_meta : forall b, 0 <= b < data_start (k_sb s) -> used s b = true
}.

Lemma land_mask x bi : 0 <= bi -> (Z.land x (bit_mask bi) =? 0) = negb (Z.testbit x (bi mod 8)).
Proof.
  intros H. unfold bit_mask. set (n := bi mod 8). assert (Hn : 0 <= n < 8) by (apply Z.mod_pos_bound; lia).
  rewrite Z.shiftl_1_l. destruct (Z.testbit x n) eqn:E; cbn [negb].
  - apply Z.eqb_neq. intros H0. apply (f_equal (fun y => Z.testbit y n)) in H0.
    rewrite Z.land_spec, E, Z.pow2_bits_true, Z.bits_0 in H0 by lia. done.
  - apply Z.eqb_eq. apply Z.bits_inj'. intros k Hk. rewrite Z.land_spec, Z.bits_0.
    destruct (decide (k = n)) as [->|]; [by rewrite E|]. rewrite Z.pow2_bits_false by lia. apply andb_false_r.
Qed.

Lemma byte_ones x : 0 <= x < 256 <-> Z.land x (Z.ones 8) = x.
Proof.
  rewrite Z.land_ones by lia. change (2 ^ 8) with 256. split; [apply Z.mod_small|].
  intros <-. apply Z.mod_pos_bound. lia.
Qed.

Lemma byte_lor x bi : 0 <= x < 256 -> 0 <= Z.lor x (bit_mask bi) < 256.
Proof.
  intros H%byte_ones. apply byte_ones. rewrite Z.land_lor_distr_l, H. f_equal. apply byte_ones.
  unfold bit_mask. assert (Hn : 0 <= bi mod 8 < 8) by (apply Z.mod_pos_bound; lia). rewrite Z.shiftl_1_l.
  split; [apply Z.pow_nonneg; lia|]. change 256 with (2 ^ 8). apply Z.pow_lt_mono_r; lia.
Qed.

Lemma byte_ldiff x bi : 0 <= x < 256 -> 0 <= Z.land x (Z.lnot (bit_mask bi)) < 256.
Proof.
  intros H%byte_ones. apply byte_ones.
  by rewrite <- Z.land_assoc, (Z.land_comm _ (Z.ones 8)), Z.land_assoc, H.
Qed.

(** Setting and clearing a bit. *)
Lemma bit_update d f bi j :
  length d = Z.to_nat BSIZE -> 0 <= bi < BPB -> 0 <= j < BPB ->
  (forall x k, 0 <= k < 8 -> k <> bi mod 8 -> Z.testbit (f x) k = Z.testbit x k) ->
  let k := Z.to_nat (bi / 8) in
  bit (<[k := f (nth k d 0)]> d) j = if decide (j = bi) then Z.testbit (f (nth k d 0)) (bi mod 8) else bit d j.
Proof.
  intros Hd Hb Hj Hf k. unfold bit. assert (Hk : (k < length d)%nat) by (rewrite Hd; unfold k, BPB, BSIZE in *; mlia).
  destruct (decide (j = bi)) as [->|Hne].
  - fold k. by rewrite nth_insert_eq.
  - destruct (decide (Z.to_nat (j / 8) = k)) as [E|E].
    + rewrite E, nth_insert_eq by done. apply Hf; [apply Z.mod_pos_bound; lia|]. unfold k in E. mlia.
    + by rewrite nth_insert_ne.
Qed.

Lemma testbit_lor_mask x bi k :
  0 <= bi -> 0 <= k < 8 -> Z.testbit (Z.lor x (bit_mask bi)) k = Z.testbit x k || (k =? bi mod 8).
Proof.
  intros Hb Hk. unfold bit_mask. assert (Hn : 0 <= bi mod 8 < 8) by (apply Z.mod_pos_bound; lia).
  rewrite Z.shiftl_1_l, Z.lor_spec, Z.pow2_bits_eqb by lia. by rewrite (Z.eqb_sym k).
Qed.

Lemma testbit_ldiff_mask x bi k :
  0 <= bi -> 0 <= k < 8 -> Z.testbit (Z.land x (Z.lnot (bit_mask bi))) k = Z.testbit x k && negb (k =? bi mod 8).
Proof.
  intros Hb Hk. unfold bit_mask. assert (Hn : 0 <= bi mod 8 < 8) by (apply Z.mod_pos_bound; lia).
  rewrite Z.shiftl_1_l, Z.land_spec, Z.lnot_spec, Z.pow2_bits_eqb by lia. by rewrite (Z.eqb_sym k).
Qed.

Lemma bit_set d bi j :
  length d = Z.to_nat BSIZE -> 0 <= bi < BPB -> 0 <= j < BPB ->
  let k := Z.to_nat (bi / 8) in
  bit (<[k := Z.lor (nth k d 0) (bit_mask bi)]> d) j = (j =? bi) || bit d j.
Proof.
  intros Hd Hb Hj k. unfold k. rewrite (bit_update d (fun x => Z.lor x (bit_mask bi)) bi j Hd Hb Hj).
  2:{ intros x n Hn Hne. rewrite testbit_lor_mask by lia. by rewrite (proj2 (Z.eqb_neq _ _) Hne), orb_false_r. }
  case_decide as E; [|by rewrite (proj2 (Z.eqb_neq _ _) E)]. subst j. rewrite Z.eqb_refl.
  rewrite testbit_lor_mask, Z.eqb_refl by (try lia; apply Z.mod_pos_bound; lia). apply orb_true_r.
Qed.

Lemma bit_clear d bi j :
  length d = Z.to_nat BSIZE -> 0 <= bi < BPB -> 0 <= j < BPB ->
  let k := Z.to_nat (bi / 8) in
  bit (<[k := Z.land (nth k d 0) (Z.lnot (bit_mask bi))]> d) j = negb (j =? bi) && bit d j.
Proof.
  intros Hd Hb Hj k. unfold k. rewrite (bit_update d (fun x => Z.land x (Z.lnot (bit_mask bi))) bi j Hd Hb Hj).
  2:{ intros x n Hn Hne. rewrite testbit_ldiff_mask by lia. by rewrite (proj2 (Z.eqb_neq _ _) Hne), andb_true_r. }
  case_decide as E; [|by rewrite (proj2 (Z.eqb_neq _ _) E)]. subst j. rewrite Z.eqb_refl.
  rewrite testbit_ldiff_mask, Z.eqb_refl by (try lia; apply Z.mod_pos_bound; lia). apply andb_false_r.
Qed.

Lemma BBLOCK_eq s b :
  fs_layout s -> 0 <= b < sb_size (k_sb s) ->
  BBLOCK b (k_sb s) = b / BPB + sb_bmapstart (k_sb s) /\
  sb_bmapstart (k_sb s) <= BBLOCK b (k_sb s) < data_start (k_sb s).
Proof.
  intros [Hs [Hl0 Hl] [Hi0 Hi] Hd] Hb. unfold data_start in *.
  assert (H1 : 0 <= b / BPB <= sb_size (k_sb s) / BPB).
  { split; [apply Z.div_pos; unfold BPB, BSIZE; lia|]. apply Z.div_le_mono; [by vm_compute|lia]. }
  assert (H2 : 0 <= sb_ninodes (k_sb s) / IPB) by (apply Z.div_pos; [done|by vm_compute]).
  assert (E : BBLOCK b (k_sb s) = b / BPB + sb_bmapstart (k_sb s)).
  { unfold BBLOCK. apply u32_small. unfold LOGSIZE, MAXOPBLOCKS in *. lia. }
  split; [done|]. rewrite E. lia.
Qed.

Lemma home_bitmap s b : fs_layout s -> 0 <= b < sb_size (k_sb s) -> home s (BBLOCK b (k_sb s)).
Proof.
  intros L Hb. destruct (BBLOCK_eq s b L Hb) as [_ H]. destruct L as [Hs [Hl0 Hl] [Hi0 Hi] Hd].
  assert (H2 : 0 <= sb_ninodes (k_sb s) / IPB) by (apply Z.div_pos; [done|by vm_compute]).
  unfold home, in_log. unfold LOGSIZE, MAXOPBLOCKS in *. lia.
Qed.

Lemma home_data s b : fs_layout s -> data_start (k_sb s) <= b < sb_size (k_sb s) -> home s b.
Proof.
  intros L Hb. destruct L as [Hs [Hl0 Hl] [Hi0 Hi] Hd].
  assert (H2 : 0 <= sb_ninodes (k_sb s) / IPB) by (apply Z.div_pos; [done|by vm_compute]).
  assert (H1 : 0 <= sb_size (k_sb s) / BPB) by (apply Z.div_pos; [lia|by vm_compute]).
  unfold home, in_log, data_start in *. unfold LOGSIZE, MAXOPBLOCKS in *. lia.
Qed.

Lemma data_start_pos s : fs_layout s -> 0 < data_start (k_sb s).
Proof.
  intros [Hs [Hl0 Hl] [Hi0 Hi] Hd].
  assert (H2 : 0 <= sb_ninodes (k_sb s) / IPB) by (apply Z.div_pos; [done|by vm_compute]).
  assert (H1 : 0 <= sb_size (k_sb s) / BPB) by (apply Z.div_pos; [lia|by vm_compute]).
  unfold data_start. unfold LOGSIZE, MAXOPBLOCKS in *. lia.
Qed.

Lemma fs_layout_frame s s' :
  fs_layout s -> k_sb s' = k_sb s -> log_start (k_log s') = log_start (k_log s) -> fs_layout s'.
Proof. intros [] E1 E2. split; rewrite ?E1, ?E2; done. Qed.

Lemma fs_layout_step s bs ws s' bs' : tstep s bs ws s' bs' -> fs_layout s -> fs_layout s'.
Proof.
  intros T L. apply (fs_layout_frame s); [done|by eapply tstep_sb|]. by destruct (ts_log _ _ _ _ _ T) as (-> & _).
Qed.

(** One bit is changed, and no other bitmap block. *)
Lemma bitmap_step s s' r d (g : bool) :
  bitmap_ok s -> fs_layout s' -> k_sb s' = k_sb s -> data_start (k_sb s) <= r < sb_size (k_sb s) ->
  (forall b, b < data_start (k_sb s) -> blk s' b = if decide (b = BBLOCK r (k_sb s)) then d else blk s b) ->
  length d = Z.to_nat BSIZE -> byte_list d ->
  (forall j, 0 <= j < BPB ->
     bit d j = if decide (j = r mod BPB) then g else bit (blk s (BBLOCK r (k_sb s))) j) ->
  bitmap_ok s' /\ forall x, 0 <= x < sb_size (k_sb s) -> used s' x = if decide (x = r) then g else used s x.
Proof.
  intros [L Hblk Hm] L' Esb Hr Hb Hd Hby Hbit. pose proof (data_start_pos s L) as Hds.
  assert (Hx : forall x, 0 <= x < sb_size (k_sb s) ->
    blk s' (BBLOCK x (k_sb s)) = if decide (x / BPB = r / BPB) then d else blk s (BBLOCK x (k_sb s))).
  { intros x Hx. destruct (BBLOCK_eq s x L Hx) as [Ex Hx']. rewrite Hb by lia.
    destruct (BBLOCK_eq s r L ltac:(lia)) as [Er _]. rewrite Ex, Er. by repeat case_decide; try lia. }
  assert (Hu : forall x, 0 <= x < sb_size (k_sb s) -> used s' x = if decide (x = r) then g else used s x).
  { intros x Hxr. unfold used. rewrite Esb, Hx by done.
    assert (0 <= x mod BPB < BPB) by (apply Z.mod_pos_bound; by vm_compute).
    destruct (decide (x / BPB = r / BPB)) as [E|E].
    - rewrite Hbit by done. assert (Eb : BBLOCK x (k_sb s) = BBLOCK r (k_sb s)) by (unfold BBLOCK; by rewrite E).
      rewrite Eb. pose proof (Z.div_mod x BPB ltac:(by vm_compute)) as H1.
      pose proof (Z.div_mod r BPB ltac:(by vm_compute)) as H2. rewrite E in H1.
      repeat case_decide; try done; exfalso; lia.
    - rewrite decide_False by (intros ->; done). done. }
  split; [|done]. split; [done| |].
  - intros b H. rewrite Esb in *. rewrite Hx by done. case_decide; [done|]. by apply Hblk.
  - intros b H. rewrite Esb in *. rewrite Hu by (destruct L; lia). rewrite decide_False by lia. by apply Hm.
Qed.

(** ** [balloc] *)

Lemma balloc_scan_spec ix : forall (d : list Z) b size, Forall (fun bi => 0 <= bi) ix ->
  match balloc_scan ix d b size with
  | Some bi => exists k, ix !! k = Some bi /\ b + bi < size /\ bit d bi = false /\
      forall j x, (j < k)%nat -> ix !! j = Some x -> bit d x = true
  | None => forall j x, ix !! j = Some x -> (forall j' y, (j' <= j)%nat -> ix !! j' = Some y -> b + y < size) -> bit d x = true
  end.
Proof.
  induction ix as [|bi ix IH]; intros d b size Hp; cbn [balloc_scan]; [done|]. apply Forall_cons in Hp as [Hbi Hp].
  destruct (Z.ltb_spec (b + bi) size) as [Hlt|Hge]; cbn [negb].
  2:{ intros j x Hj Hall. specialize (Hall 0%nat bi ltac:(lia) eq_refl). lia. }
  rewrite land_mask by done. fold (bit d bi). destruct (bit d bi) eqn:Eb; cbn [negb].
  - specialize (IH d b size Hp). destruct (balloc_scan ix d b size) as [x|].
    + destruct IH as (k & Hk & Hx & Hb & Hall). exists (S k). split; [done|]. split; [done|]. split; [done|].
      intros [|j] y Hj Hy; [by injection Hy as <-|]. apply (Hall j y); [lia|done].
    + intros [|j] y Hy Hall; [by injection Hy as <-|]. apply (IH j y Hy). intros j' z Hj' Hz. by apply (Hall (S j') z); [lia|].
  - exists 0%nat. split; [done|]. split; [done|]. split; [done|]. intros j x Hj. lia.
Qed.

Lemma balloc_scan_all d b size :
  match balloc_scan (seqZ 0 BPB) d b size with
  | Some bi => 0 <= bi < BPB /\ b + bi < size /\ bit d bi = false /\ forall x, 0 <= x < bi -> bit d x = true
  | None => forall x, 0 <= x < BPB -> b + x < size -> bit d x = true
  end.
Proof.
  assert (Hp : Forall (fun bi => 0 <= bi) (seqZ 0 BPB)).
  { apply Forall_forall. intros x Hx. apply elem_of_seqZ in Hx. lia. }
  pose proof (balloc_scan_spec (seqZ 0 BPB) d b size Hp) as H.
  assert (Hl : forall x, 0 <= x < BPB -> seqZ 0 BPB !! Z.to_nat x = Some x) by (intros x Hx; apply lookup_seqZ; lia).
  destruct (balloc_scan (seqZ 0 BPB) d b size) as [bi|].
  - destruct H as (k & Hk & Hs & Hb & Hall). apply lookup_seqZ in Hk as [Ek Hk]. split; [lia|]. split; [done|].
    split; [done|]. intros x Hx. apply (Hall (Z.to_nat x) x); [lia|]. apply Hl. lia.
  - intros x Hx Hs. apply (H (Z.to_nat x) x); [by apply Hl|].
    intros j' y Hj' Hy. apply lookup_seqZ in Hy. lia.
Qed.

(** A message without arguments. *)
Lemma printf_loop_plain l s : Forall (fun c => c <> 37) l -> exists u, printf_loop l [] s = Ok tt (set_k_uart u s).
Proof.
  revert s. induction l as [|c l IH]; intros s H; [by exists (k_uart s)|]. apply Forall_cons in H as [Hc H].
  assert (E : printf_loop (c :: l) [] = (consputc c ;;; printf_loop l [])).
  { cbn [printf_loop]. destruct c as [|p|p]; try done. do 6 (destruct p as [p|p|]; try done). }
  rewrite E. destruct (bind_consputc c s) as [u Eu]. rewrite Eu. destruct (IH (set_k_uart u s) H) as [u' ->].
  by exists u'.
Qed.

Lemma printf_plain f s :
  k_held s = [] -> Forall (fun c => c <> 37) (str f) -> exists u, printf f [] s = Ok tt (set_k_uart u s).
Proof.
  intros Hh Hf. unfold printf. rewrite bind_acquire by (rewrite Hh; apply not_elem_of_nil). rewrite Hh.
  destruct (printf_loop_plain (str f) (set_k_held [pr_lock] s) Hf) as [u Eu]. rewrite (bind_ok _ _ _ _ _ Eu).
  rewrite (release_ok _ []) by (reflexivity || apply not_elem_of_nil). exists u. rewrite <- Hh. reflexivity.
Qed.

Lemma tx_uart u s bs held : tx s bs held -> tx (set_k_uart u s) bs held.
Proof. intros []. split; [by apply (cache_frame s)|by apply (logged_frame s)|done|done|done]. Qed.

Lemma tstep_uart u s bs : tstep s bs [] (set_k_uart u s) bs.
Proof. by split. Qed.

(** The block [r] was allocated. *)
Definition alloc_writes (s : kstate) (r : Z) : list (Z * list Z) :=
  let d := blk s (BBLOCK r (k_sb s)) in
  let k := Z.to_nat (r mod BPB / 8) in
  [(BBLOCK r (k_sb s), <[k := Z.lor (nth k d 0) (bit_mask (r mod BPB))]> d); (r, replicate (Z.to_nat BSIZE) 0)].

(** What [balloc] returns and does. *)
Definition balloc_result (s : kstate) (bs held : list Z) (r : Z) (s' : kstate) (bs' : list Z) : Prop :=
  tx s' bs' held /\ keeps held s s' /\
  ((r = 0 /\ (forall b, 0 <= b < sb_size (k_sb s) -> used s b = true) /\ tstep s bs [] s' bs') \/
   (data_start (k_sb s) <= r < sb_size (k_sb s) /\ used s r = false /\
    (forall b, 0 <= b < r -> used s b = true) /\ tstep s bs (alloc_writes s r) s' bs')).

Lemma bzero_tx s bs held b :
  tx s bs held -> (b ∉ held) -> home s b -> room s bs held 1 ->
  exists s', bzero ROOTDEV b s = Ok tt s' /\
    tx s' (absorb bs b) held /\ tstep s bs [(b, replicate (Z.to_nat BSIZE) 0)] s' (absorb bs b) /\ keeps held s s'.
Proof.
  intros T Hb Hh R.
  destruct (tx_bread s bs held b T Hb) as (i & s1 & E1 & T1 & I1 & D1 & S1 & K1 & _).
  { destruct R. lia. }
  destruct (tx_put s1 bs held i b (replicate (Z.to_nat BSIZE) 0) T1 I1 Hb) as (s2 & _ & E2 & T2 & S2 & K2).
  { destruct Hh as [H1 H2]. split; [done|]. by rewrite (tstep_in_log _ _ _ _ _ _ S1). }
  { eapply room_le; [eapply (tstep_room s bs [] s1 bs held 1); [done|exact R]|lia|simpl; lia]. }
  exists s2. split; [|split; [done|split; [by eapply tstep_nil_l|by eapply keeps_trans]]].
  unfold bzero. by rewrite E1.
Qed.

(** Locked buffers of data blocks are not in the way of the bitmap. *)
Definition data_held (s : kstate) (held : list Z) : Prop :=
  forall b, b ∈ held -> data_start (k_sb s) <= b < sb_size (k_sb s) /\ used s b = true.

Lemma bitmap_ok_frame s s' :
  bitmap_ok s -> fs_layout s' -> k_sb s' = k_sb s -> (forall b, blk s' b = blk s b) ->
  bitmap_ok s' /\ forall b, used s' b = used s b.
Proof.
  intros [L Hb Hm] L' E1 E2. assert (Hu : forall b, used s' b = used s b) by (intros b; unfold used; by rewrite E1, E2).
  split; [|done]. split; [done| |].
  - intros b. rewrite E1, E2. apply Hb.
  - intros b. rewrite E1, Hu. apply Hm.
Qed.

Lemma bitmap_ok_quiet s bs s' bs' :
  tstep s bs [] s' bs' -> bitmap_ok s -> bitmap_ok s' /\ forall b, used s' b = used s b.
Proof.
  intros T B. apply bitmap_ok_frame; [done| |by eapply tstep_sb|apply T].
  eapply fs_layout_step; [exact T|apply B].
Qed.

(** A free bit is found in the bitmap block for the blocks from [b] on. *)
Lemma balloc_found s bs held i s1 bi b :
  let sb := k_sb s in
  let d := blk s (BBLOCK b sb) in
  bitmap_ok s -> data_held s held -> room s bs held 2 -> b mod BPB = 0 -> 0 <= b -> 0 <= bi < BPB ->
  b + bi < sb_size sb -> bit d bi = false -> (forall x, 0 <= x < b -> used s x = true) ->
  (forall x, 0 <= x < bi -> bit d x = true) ->
  tx s1 bs (BBLOCK b sb :: held) -> is_buf s1 i (BBLOCK b sb) -> (BBLOCK b sb ∉ held) ->
  tstep s bs [] s1 bs -> keeps held s s1 ->
  exists s' bs', (set_bdata i (<[Z.to_nat (bi / 8) := Z.lor (nth (Z.to_nat (bi / 8)) d 0) (bit_mask bi)]> d) ;;;
     log_write i ;;; brelse i ;;; bzero ROOTDEV (b + bi) ;;; ret (b + bi)) s1 = Ok (b + bi) s' /\
    balloc_result s bs held (b + bi) s' bs'.
Proof.
  intros sb d B Hdh R Hb0 Hb Hbi Hs Hfree Hlow Hbit T1 I1 Hn S1 K1.
  assert (Emod : (b + bi) mod BPB = bi /\ (b + bi) / BPB = b / BPB) by (unfold BPB, BSIZE in *; mlia).
  destruct Emod as [Emod Ediv].
  assert (Ebb : BBLOCK (b + bi) sb = BBLOCK b sb) by (unfold BBLOCK; by rewrite Ediv).
  assert (Hunused : used s (b + bi) = false) by (unfold used; fold sb; by rewrite Ebb, Emod).
  assert (Hr : data_start sb <= b + bi < sb_size sb).
  { split; [|done]. destruct (decide (data_start sb <= b + bi)); [done|].
    rewrite (bm_meta _ B) in Hunused by (fold sb; lia). done. }
  assert (Hlo1 : home s1 (BBLOCK b sb)).
  { destruct (home_bitmap s b (bm_layout _ B)) as [H1 H2]; [fold sb; lia|]. split; [done|].
    by rewrite (tstep_in_log _ _ _ _ _ _ S1). }
  destruct (tx_put s1 bs held i (BBLOCK b sb) (<[Z.to_nat (bi / 8) := Z.lor (nth (Z.to_nat (bi / 8)) d 0) (bit_mask bi)]> d)
    T1 I1 Hn Hlo1) as (s2 & E2 & _ & T2 & S2 & K2).
  { eapply room_le; [eapply (tstep_room s bs [] s1 bs held 2); [done|exact R]|lia|simpl; lia]. }
  assert (S02 := tstep_nil_l _ _ _ _ _ _ _ S1 S2).
  destruct (bzero_tx s2 (absorb bs (BBLOCK b sb)) held (b + bi) T2) as (s3 & E3 & T3 & S3 & K3).
  { intros Hin. destruct (Hdh _ Hin) as [_ H]. by rewrite Hunused in H. }
  { destruct (home_data s (b + bi) (bm_layout _ B) Hr) as [H1 H2]. split; [done|].
    by rewrite (tstep_in_log _ _ _ _ _ _ S02). }
  { eapply (tstep_room s bs _ s2 _ held 1); [exact S02|exact R]. }
  exists s3, (absorb (absorb bs (BBLOCK b sb)) (b + bi)). split.
  { rewrite E2. by rewrite (bind_ok _ _ _ _ _ E3). }
  split; [done|]. split; [by eapply keeps_trans; [|eapply keeps_trans]|]. right. split; [exact Hr|].
  split; [done|]. split.
  - intros x Hx. destruct (decide (x < b)); [apply Hlow; lia|]. unfold used. fold sb.
    assert (Ex : x mod BPB = x - b /\ x / BPB = b / BPB) by (unfold BPB, BSIZE in *; mlia). destruct Ex as [-> Ex].
    replace (BBLOCK x sb) with (BBLOCK b sb) by (unfold BBLOCK; by rewrite Ex). apply Hbit. lia.
  - unfold alloc_writes. fold sb. rewrite Ebb, Emod. exact (tstep_trans _ _ _ _ _ _ _ _ S02 S3).
Qed.

Lemma balloc_loop_spec n : forall k s bs held,
  tx s bs held -> bitmap_ok s -> data_held s held -> room s bs held 2 -> 0 <= k ->
  (n = 0%nat \/ (k + Z.of_nat n - 1) * BPB < sb_size (k_sb s)) -> sb_size (k_sb s) <= (k + Z.of_nat n) * BPB ->
  (forall x, 0 <= x < k * BPB -> x < sb_size (k_sb s) -> used s x = true) ->
  exists r s' bs', balloc_loop ((fun k => k * BPB) <$> seqZ k (Z.of_nat n)) ROOTDEV s = Ok r s' /\
    balloc_result s bs held r s' bs'.
Proof.
  induction n as [|n IH]; intros k s bs held T B Hdh R Hk Hn Hsz Hlow.
  { change ((fun k0 : Z => k0 * BPB) <$> seqZ k (Z.of_nat 0)) with (@nil Z). cbn [balloc_loop].
    destruct (printf_plain ("balloc: out of blocks" +:+ nl) s) as [u Eu].
    { apply (ca_spin _ _ _ (tx_cache _ _ _ T)). }
    { vm_compute. repeat constructor; done. }
    rewrite (bind_ok _ _ _ _ _ Eu). exists 0, (set_k_uart u s), bs. split; [done|].
    split; [by apply tx_uart|]. split; [by intros i b H _|]. left. split; [done|]. split; [|apply tstep_uart].
    intros b Hb. apply Hlow; lia. }
  destruct Hn as [?|Hn]; [done|]. rewrite seqZ_S. cbn [fmap list_fmap]. cbn [balloc_loop]. rewrite bind_gets.
  set (sb := k_sb s) in *. assert (Hkb : 0 <= k * BPB < sb_size sb) by (unfold BPB, BSIZE in *; lia).
  destruct (BBLOCK_eq s (k * BPB) (bm_layout _ B) Hkb) as [_ Hbb]. fold sb in Hbb.
  assert (Hnh : BBLOCK (k * BPB) sb ∉ held) by (intros H; destruct (Hdh _ H) as [? _]; unfold sb in *; lia).
  destruct (tx_bread s bs held (BBLOCK (k * BPB) sb) T Hnh) as (i & s1 & E1 & T1 & I1 & D1 & S1 & K1 & H1).
  { destruct R. lia. }
  rewrite E1. unfold bdata. rewrite bind_gets, D1.
  pose proof (balloc_scan_all (blk s (BBLOCK (k * BPB) sb)) (k * BPB) (sb_size sb)) as Hscan.
  destruct (balloc_scan _ _ _ _) as [bi|].
  - destruct Hscan as (Hbi & Hs & Hfree & Hbit). exists (k * BPB + bi).
    apply (balloc_found s bs held i s1 bi (k * BPB)); try done; [by rewrite Z.mod_mul|lia|].
    intros x Hx. apply Hlow; lia.
  - destruct (tx_brelse s1 bs held _ i T1 Hnh I1 H1) as (s2 & E2 & T2 & S2 & K2).
    rewrite (bind_ok _ _ _ _ _ E2). assert (S02 := tstep_nil_l _ _ _ _ _ _ _ S1 S2).
    destruct (bitmap_ok_quiet _ _ _ _ S02 B) as [B2 U2]. pose proof (tstep_sb _ _ _ _ _ S02) as Esb.
    destruct (IH (k + 1) s2 bs held T2 B2) as (r & s' & bs' & E & Hres).
    + intros b Hin. rewrite Esb, U2. by apply Hdh.
    + eapply (tstep_room s bs [] s2 bs held 2); [done|exact R].
    + lia.
    + rewrite Esb. right. fold sb. lia.
    + rewrite Esb. fold sb. lia.
    + rewrite Esb. fold sb. intros x Hx Hxs. rewrite U2. destruct (decide (x < k * BPB)); [apply Hlow; lia|].
      unfold used. fold sb. assert (Ex : x mod BPB = x - k * BPB /\ x / BPB = k * BPB / BPB) by (unfold BPB, BSIZE in *; mlia).
      destruct Ex as [-> Ex]. replace (BBLOCK x sb) with (BBLOCK (k * BPB) sb) by (unfold BBLOCK; by rewrite Ex).
      apply Hscan; lia.
    + exists r, s', bs'. split; [exact E|]. destruct Hres as (Tr & Kr & Hr).
      split; [done|]. split; [by eapply keeps_trans; [|eapply keeps_trans]|].
      destruct Hr as [(-> & Hall & S)|(Hr & Hu & Hall & S)]; [left|right]; rewrite Esb in *.
      * split; [done|]. split; [intros b Hb; rewrite <- U2; by apply Hall|]. by eapply tstep_nil_l.
      * split; [done|]. rewrite U2 in Hu. split; [done|]. split; [intros b Hb; rewrite <- U2; by apply Hall|].
        replace (alloc_writes s r) with (alloc_writes s2 r); [by eapply tstep_nil_l|].
        unfold alloc_writes. by rewrite Esb, !(ts_blk _ _ _ _ _ S02).
Qed.

Lemma balloc_tx s bs held :
  tx s bs held -> bitmap_ok s -> data_held s held -> room s bs held 2 ->
  exists r s' bs', balloc ROOTDEV s = Ok r s' /\ balloc_result s bs held r s' bs'.
Proof.
  intros T B Hdh R. unfold balloc. rewrite bind_gets. set (size := sb_size (k_sb s)).
  assert (Hsz : 0 < size < 2 ^ 31) by apply B. 
  replace ((size + BPB - 1) / BPB) with (Z.of_nat (Z.to_nat ((size + BPB - 1) / BPB))).
  2:{ apply Z2Nat.id. apply Z.div_pos; unfold BPB, BSIZE; lia. }
  apply balloc_loop_spec; try done; fold size.
  - right. unfold BPB, BSIZE in *. mlia.
  - unfold BPB, BSIZE in *. mlia.
  - unfold BPB, BSIZE. lia.
Qed.

(** The bitmap after [balloc]. *)
Lemma alloc_bitmap s bs r s' bs' :
  bitmap_ok s -> data_start (k_sb s) <= r < sb_size (k_sb s) -> tstep s bs (alloc_writes s r) s' bs' ->
  bitmap_ok s' /\ (forall x, 0 <= x < sb_size (k_sb s) -> used s' x = (x =? r) || used s x) /\
  blk s' r = replicate (Z.to_nat BSIZE) 0 /\
  (forall b, b <> r -> b <> BBLOCK r (k_sb s) -> blk s' b = blk s b).
Proof.
  intros B Hr S. pose proof (data_start_pos s (bm_layout _ B)) as Hds.
  destruct (BBLOCK_eq s r (bm_layout _ B)) as [_ Hbb]; [lia|].
  destruct (bm_block _ B r) as [Hlen Hby]; [lia|].
  set (d := blk s (BBLOCK r (k_sb s))) in *. set (bi := r mod BPB).
  assert (Hbi : 0 <= bi < BPB) by (apply Z.mod_pos_bound; by vm_compute).
  assert (Hoth : forall b, b <> r -> b <> BBLOCK r (k_sb s) -> blk s' b = blk s b).
  { intros b H1 H2. rewrite (ts_blk _ _ _ _ _ S). apply upds_not. cbn.
    rewrite !elem_of_cons, elem_of_nil. tauto. }
  destruct (bitmap_step s s' r (<[Z.to_nat (bi / 8) := Z.lor (nth (Z.to_nat (bi / 8)) d 0) (bit_mask bi)]> d) true)
    as [B' U']; try done.
  - eapply fs_layout_step; [exact S|apply B].
  - by eapply tstep_sb.
  - intros b Hb. case_decide as E; [|apply Hoth; [lia|done]]. subst b.
    rewrite (ts_blk _ _ _ _ _ S). unfold alloc_writes. rewrite upds_cons.
    rewrite upds_not by (cbn; rewrite elem_of_cons, elem_of_nil; lia). by rewrite upds_one.
  - by rewrite length_insert.
  - apply byte_list_insert; [done|]. apply byte_lor. unfold byte_list in Hby. rewrite nth_lookup.
    destruct (d !! _) as [x|] eqn:E; [|cbn; lia]. rewrite Forall_lookup in Hby. by apply (Hby _ _ E).
  - intros j Hj. rewrite bit_set by done. fold bi. case_decide as E; [by rewrite (proj2 (Z.eqb_eq _ _) E)|].
    by rewrite (proj2 (Z.eqb_neq _ _) E).
  - split; [done|]. split; [|split; [|done]].
    + intros x Hx. rewrite U' by done. case_decide as E; [by rewrite (proj2 (Z.eqb_eq _ _) E)|].
      by rewrite (proj2 (Z.eqb_neq _ _) E).
    + rewrite (ts_blk _ _ _ _ _ S). unfold alloc_writes. by rewrite upds_cons, upds_one.
Qed.

(** ** [bfree] *)

(** The block [b] was freed. *)
Definition free_writes (s : kstate) (b : Z) : list (Z * list Z) :=
  let d := blk s (BBLOCK b (k_sb s)) in
  let k := Z.to_nat (b mod BPB / 8) in
  [(BBLOCK b (k_sb s), <[k := Z.land (nth k d 0) (Z.lnot (bit_mask (b mod BPB)))]> d)].

Lemma bfree_tx s bs held b :
  tx s bs held -> bitmap_ok s -> data_held s held -> room s bs held 1 ->
  data_start (k_sb s) <= b < sb_size (k_sb s) -> used s b = true ->
  exists s' bs', bfree ROOTDEV b s = Ok tt s' /\ tx s' bs' held /\ keeps held s s' /\
    tstep s bs (free_writes s b) s' bs'.
Proof.
  intros T B Hdh R Hb Hu. unfold bfree. rewrite bind_gets. set (sb := k_sb s) in *.
  pose proof (data_start_pos s (bm_layout _ B)) as Hds. fold sb in Hds.
  destruct (BBLOCK_eq s b (bm_layout _ B)) as [_ Hbb]; [fold sb; lia|]. fold sb in Hbb.
  assert (Hnh : BBLOCK b sb ∉ held) by (intros H; destruct (Hdh _ H) as [? _]; unfold sb in *; lia).
  destruct (tx_bread s bs held (BBLOCK b sb) T Hnh) as (i & s1 & E1 & T1 & I1 & D1 & S1 & K1 & H1).
  { destruct R. lia. }
  rewrite E1. unfold bdata. rewrite bind_gets, D1, land_mask by (apply Z.mod_pos_bound; by vm_compute).
  fold (bit (blk s (BBLOCK b sb)) (b mod BPB)). fold sb in Hu. unfold used in Hu. fold sb in Hu. rewrite Hu. cbn [negb].
  destruct (tx_put s1 bs held i (BBLOCK b sb) (free_writes s b !!! 0%nat).2 T1 I1 Hnh) as (s2 & _ & E2 & T2 & S2 & K2).
  { destruct (home_bitmap s b (bm_layout _ B)) as [Hh1 Hh2]; [fold sb; lia|]. split; [done|].
    by rewrite (tstep_in_log _ _ _ _ _ _ S1). }
  { eapply room_le; [eapply (tstep_room s bs [] s1 bs held 1); [done|exact R]|lia|simpl; lia]. }
  exists s2, (absorb bs (BBLOCK b sb)). split; [exact E2|]. split; [done|]. split; [by eapply keeps_trans|].
  exact (tstep_nil_l _ _ _ _ _ _ _ S1 S2).
Qed.

Lemma free_bitmap s bs b s' bs' :
  bitmap_ok s -> data_start (k_sb s) <= b < sb_size (k_sb s) -> tstep s bs (free_writes s b) s' bs' ->
  bitmap_ok s' /\ (forall x, 0 <= x < sb_size (k_sb s) -> used s' x = negb (x =? b) && used s x) /\
  (forall x, x <> BBLOCK b (k_sb s) -> blk s' x = blk s x).
Proof.
  intros B Hr S. pose proof (data_start_pos s (bm_layout _ B)) as Hds.
  destruct (BBLOCK_eq s b (bm_layout _ B)) as [_ Hbb]; [lia|].
  destruct (bm_block _ B b) as [Hlen Hby]; [lia|].
  set (d := blk s (BBLOCK b (k_sb s))) in *. set (bi := b mod BPB).
  assert (Hbi : 0 <= bi < BPB) by (apply Z.mod_pos_bound; by vm_compute).
  assert (Hoth : forall x, x <> BBLOCK b (k_sb s) -> blk s' x = blk s x).
  { intros x H1. rewrite (ts_blk _ _ _ _ _ S). apply upds_not. cbn. rewrite elem_of_cons, elem_of_nil. tauto. }
  destruct (bitmap_step s s' b (<[Z.to_nat (bi / 8) := Z.land (nth (Z.to_nat (bi / 8)) d 0) (Z.lnot (bit_mask bi))]> d) false)
    as [B' U']; try done.
  - eapply fs_layout_step; [exact S|apply B].
  - by eapply tstep_sb.
  - intros x Hx. case_decide as E; [|by apply Hoth]. subst x.
    rewrite (ts_blk _ _ _ _ _ S). unfold free_writes. by rewrite upds_one.
  - by rewrite length_insert.
  - apply byte_list_insert; [done|]. apply byte_ldiff. unfold byte_list in Hby. rewrite nth_lookup.
    destruct (d !! _) as [x|] eqn:E; [|cbn; lia]. rewrite Forall_lookup in Hby. by apply (Hby _ _ E).
  - intros j Hj. rewrite bit_clear by done. fold bi. case_decide as E; [by rewrite (proj2 (Z.eqb_eq _ _) E)|].
    by rewrite (proj2 (Z.eqb_neq _ _) E).
  - split; [done|]. split; [|done]. intros x Hx. rewrite U' by done.
    case_decide as E; [by rewrite (proj2 (Z.eqb_eq _ _) E)|]. by rewrite (proj2 (Z.eqb_neq _ _) E).
Qed.

(** ** Theorems *)

(** [balloc] in a transaction allocates the first free block or finds the
    disk full: it returns a data block that was not in use, now marked in
    use and full of zeroes, or 0 exactly when every block is in use.  The
    bits of the other blocks are kept, no other block changes, and nothing
    is written to disk before the commit. *)
Theorem balloc_spec (s : kstate) (bs : list Z) :
  tx s bs [] -> bitmap_ok s -> room s bs [] 2 ->
  exists r s' bs', balloc ROOTDEV s = Ok r s' /\ tx s' bs' [] /\ bitmap_ok s' /\ k_disk s' = k_disk s /\
    ((r = 0 /\ (forall b, 0 <= b < sb_size (k_sb s) -> used s b = true) /\ forall b, blk s' b = blk s b) \/
     (data_start (k_sb s) <= r < sb_size (k_sb s) /\ used s r = false /\ (forall b, 0 <= b < r -> used s b = true) /\
      (forall b, 0 <= b < sb_size (k_sb s) -> used s' b = (b =? r) || used s b) /\
      blk s' r = replicate (Z.to_nat BSIZE) 0 /\
      forall b, b <> r -> b <> BBLOCK r (k_sb s) -> blk s' b = blk s b)).
Proof.
  intros T B R. destruct (balloc_tx s bs [] T B) as (r & s' & bs' & E & T' & _ & Hr);
    [by intros b ?%not_elem_of_nil|done|].
  exists r, s', bs'. split; [done|]. split; [done|].
  destruct Hr as [(-> & Hall & S)|(Hr & Hu & Hall & S)].
  - split; [by eapply bitmap_ok_quiet|]. split; [apply S|]. left. split; [done|]. split; [done|]. apply S.
  - destruct (alloc_bitmap s bs r s' bs' B Hr S) as (B' & U' & Hz & Ho).
    split; [done|]. split; [apply S|]. right. by split_and!; try apply Hr.
Qed.

(** [bfree] in a transaction clears the bit of a block in use and nothing
    else, and panics on a free block; the block it frees can be allocated
    again. *)
Theorem bfree_spec (s : kstate) (bs : list Z) (b : Z) :
  tx s bs [] -> bitmap_ok s -> room s bs [] 1 -> data_start (k_sb s) <= b < sb_size (k_sb s) ->
  if used s b then
    exists s' bs', bfree ROOTDEV b s = Ok tt s' /\ tx s' bs' [] /\ bitmap_ok s' /\ k_disk s' = k_disk s /\
      (forall x, 0 <= x < sb_size (k_sb s) -> used s' x = negb (x =? b) && used s x) /\
      forall x, x <> BBLOCK b (k_sb s) -> blk s' x = blk s x
  else bfree ROOTDEV b s = Panic "freeing free block".
Proof.
  intros T B R Hb. destruct (used s b) eqn:Hu.
  - destruct (bfree_tx s bs [] b T B) as (s' & bs' & E & T' & _ & S); [by intros x ?%not_elem_of_nil|done..|].
    destruct (free_bitmap s bs b s' bs' B Hb S) as (B' & U' & Ho).
    exists s', bs'. split; [done|]. split; [done|]. split; [done|]. split; [apply S|]. done.
  - unfold bfree. rewrite bind_gets.
    destruct (tx_bread s bs [] (BBLOCK b (k_sb s)) T (not_elem_of_nil _)) as (i & s1 & E1 & _ & _ & D1 & _).
    { destruct R. cbn in *. lia. }
    rewrite E1. unfold bdata. rewrite bind_gets, D1, land_mask by (apply Z.mod_pos_bound; by vm_compute).
    fold (bit (blk s (BBLOCK b (k_sb s))) (b mod BPB)). unfold used in Hu. by rewrite Hu.
Qed.

(** ** Witnesses *)

(** The bitmap mkfs makes: blocks 0 to 45 are metadata. *)
Definition boot_bitmap : list Z := [255; 255; 255; 255; 255; 127] ++ replicate 1018 0.

Definition hello_block : list Z := [104; 101; 108; 108; 111] ++ replicate 1019 0.

Definition boot_disk : gmap Z (list Z) := {[45 := boot_bitmap; 46 := hello_block]}.

(** A file system with an open transaction and one data block in use. *)
Definition fs_state : kstate :=
  set_k_log (mkLog 2 30 1 false 1 0 (replicate 30 0)) (set_k_sb boot_sb (set_k_disk boot_disk boot_state)).

Lemma fs_cache : cache fs_state [] [].
Proof.
  apply (cache_log _ (set_k_sb boot_sb (set_k_disk boot_disk boot_state))).
  destruct boot_cache. split; try done. intros i b H. by apply boot_no_buf in H.
Qed.

Lemma fs_tx : tx fs_state [] [].
Proof.
  split; [apply fs_cache| |by vm_compute|done|done].
  split; try done; [unfold LOGSIZE, MAXOPBLOCKS; simpl; lia|constructor|by intros b ?%not_elem_of_nil].
Qed.

Lemma fs_blk b : blk fs_state b = if decide (b = 45) then boot_bitmap else if decide (b = 46) then hello_block else replicate 1024 0.
Proof.
  rewrite (blk_clean fs_state [] b fs_cache) by apply not_elem_of_nil. unfold disk_blk.
  change (k_disk fs_state) with boot_disk. unfold boot_disk.
  case_decide as E; [subst b; by rewrite lookup_insert_eq|]. rewrite lookup_insert_ne by done.
  case_decide as E'; [subst b; by rewrite lookup_singleton_eq|]. rewrite lookup_singleton_ne by done. done.
Qed.

Lemma fs_bitmap : bitmap_ok fs_state.
Proof.
  assert (Hb : forall b, 0 <= b < 2000 -> BBLOCK b (k_sb fs_state) = 45).
  { intros b Hb. unfold BBLOCK. change (sb_bmapstart (k_sb fs_state)) with 45. unfold BPB, BSIZE. rewrite u32_small; mlia. }
  split.
  - split; by vm_compute.
  - intros b Hbs. rewrite Hb by exact Hbs. rewrite fs_blk, decide_True by done. split; [done|].
    apply Forall_app. split; [repeat constructor; lia|apply byte_list_replicate].
  - intros b Hbs. assert (Hr : 0 <= b < 46) by (change (data_start (k_sb fs_state)) with 46 in Hbs; lia). unfold used. rewrite Hb by lia. rewrite fs_blk, decide_True by done.
    unfold BPB, BSIZE. rewrite (Z.mod_small b) by lia. unfold bit, boot_bitmap.
    assert (Hq : (Z.to_nat (b / 8) < 6)%nat) by mlia. rewrite app_nth1 by (simpl; lia).
    assert (H : forallb (fun b => Z.testbit (nth (Z.to_nat (b / 8)) [255; 255; 255; 255; 255; 127] 0) (b mod 8)) (seqZ 0 46) = true)
      by reflexivity.
    rewrite forallb_forall in H. apply H. apply list_elem_of_In, elem_of_seqZ. lia.
Qed.

Lemma fs_room n : (n < 29)%nat -> room fs_state [] [] n.
Proof. intros H. split; [by vm_compute|cbn; lia|unfold NBUF, MAXOPBLOCKS; cbn; lia]. Qed.

Lemma balloc_spec_witness : exists s', balloc ROOTDEV fs_state = Ok 47 s' /\ blk s' 47 = replicate (Z.to_nat BSIZE) 0.
Proof.
  destruct (balloc_spec fs_state [] fs_tx fs_bitmap (fs_room 2 ltac:(lia))) as (r & s' & bs' & E & _ & _ & _ & H).
  assert (H46 : used fs_state 46 = true) by (unfold used; rewrite fs_blk; reflexivity).
  assert (H47 : used fs_state 47 = false) by (unfold used; rewrite fs_blk; reflexivity).
  destruct H as [(_ & Hall & _)|(Hr & Hu & Hall & _ & Hz & _)].
  - rewrite Hall in H47; [done|]. split; by vm_compute.
  - assert (r = 47) as ->; [|exists s'; split; [exact E|exact Hz]]. change (data_start (k_sb fs_state)) with 46 in Hr.
    destruct (decide (r = 46)) as [->|]; [rewrite H46 in Hu; discriminate Hu|].
    destruct (decide (r = 47)); [done|]. rewrite Hall in H47 by lia. done.
Defined.

Lemma bfree_spec_witness : bfree ROOTDEV 100 fs_state = Panic "freeing free block".
Proof.
  pose proof (bfree_spec fs_state [] 100 fs_tx fs_bitmap (fs_room 1 ltac:(lia))) as H.
  assert (Hu : used fs_state 100 = false) by (unfold used; rewrite fs_blk; reflexivity).
  rewrite Hu in H. apply H. split; by vm_compute.
Defined.
