(* ===== verification/FsInode.v ===== *)
(** * The inode table and inodes on disk

    [iget] keeps one table entry per inode; [iupdate] and [ilock] move the
    fields between the entry and the inode's block. *)

From S2P Require Import Prelude KString Bytes KState Riscv Spinlock Kalloc Vm Sched Uart Console Sleeplock.
From S2P Require Import Bio Log LogSafe Fs FsPath FsBlock.

(** ** The table *)

(** Entry [i] is in use for inode [inum]. *)
Definition live (s : kstate) (i : nat) (dev inum : Z) : Prop :=
  0 < i_ref (get_inode s i) /\ i_dev (get_inode s i) = dev /\ i_inum (get_inode s i) = inum.

Record itable_ok (s : kstate) : Prop := {
  it_len : length (k_inodes s) = NINODE;
  it_ref : forall i, (i < NINODE)%nat -> 0 <= i_ref (get_inode s i) < 2 ^ 31 - 1;
  it_uniq : forall i j dev inum, (i < NINODE)%nat -> (j < NINODE)%nat ->
    live s i dev inum -> live s j dev inum -> i = j
}.

Lemma iget_scan_spec s dev inum ix : forall e,
  match iget_scan s ix dev inum e with
  | (Some i, _) => i ∈ ix /\ live s i dev inum
  | (None, e') => (forall i, i ∈ ix -> ~ live s i dev inum) /\
      match e' with
      | Some i => e = Some i \/ (e = None /\ i ∈ ix /\ i_ref (get_inode s i) = 0)
      | None => e = None /\ forall i, i ∈ ix -> i_ref (get_inode s i) <> 0
      end
  end.
Proof.
  induction ix as [|i ix IH]; intros e; cbn [iget_scan].
  { split; [by intros i ?%not_elem_of_nil|]. destruct e; [by left|]. split; [done|by intros i ?%not_elem_of_nil]. }
  destruct (Z.ltb_spec 0 (i_ref (get_inode s i))) as [Hr|Hr],
    (Z.eqb_spec (i_dev (get_inode s i)) dev) as [Hd|Hd], (Z.eqb_spec (i_inum (get_inode s i)) inum) as [Hn|Hn]; cbn [andb].
  { split; [left|done]. }
  all: assert (Hl : ~ live s i dev inum) by (unfold live; lia || tauto).
  all: specialize (IH (match e with Some e0 => Some e0 | None => if i_ref (get_inode s i) =? 0 then Some i else None end)).
  all: destruct (iget_scan s ix dev inum _) as [[j|] e']; [destruct IH as [H1 H2]; split; [by right|done]|].
  all: destruct IH as [H1 H2]; split; [intros j [->|Hj]%elem_of_cons; [done|by apply H1]|].
  all: destruct e' as [k|]; [destruct H2 as [H2|(H2 & H3 & H4)]|destruct H2 as [H2 H3]];
    (destruct e; [|destruct (Z.eqb_spec (i_ref (get_inode s i)) 0)]); try done.
  all: try (by left).
  all: try (injection H2 as <-; right; split; [done|]; split; [left|done]).
  all: try (right; split; [done|]; split; [by right|done]).
  all: split; [done|]; intros j [->|Hj]%elem_of_cons; [done|by apply H3].
Qed.

Lemma iget_scan_ext s s' dev inum ix : forall e,
  k_inodes s' = k_inodes s -> iget_scan s' ix dev inum e = iget_scan s ix dev inum e.
Proof.
  induction ix as [|i ix IH]; intros e E; cbn [iget_scan]; [done|].
  unfold get_inode. rewrite E. by rewrite !IH.
Qed.

(** A table with one entry changed. *)
Lemma itable_upd s i f :
  itable_ok s -> (i < NINODE)%nat ->
  0 <= i_ref (f (get_inode s i)) < 2 ^ 31 - 1 ->
  (forall j, (j < NINODE)%nat -> j <> i -> 0 < i_ref (f (get_inode s i)) ->
     ~ live s j (i_dev (f (get_inode s i))) (i_inum (f (get_inode s i)))) ->
  itable_ok (upd_inode i f s).
Proof.
  intros [Hl Hr Hu] Hi Hf Hn. assert (Hi' : (i < length (k_inodes s))%nat) by lia.
  split; [by rewrite length_upd_inode|..].
  - intros j Hj. destruct (decide (i = j)) as [<-|Hne]; [by rewrite get_upd_inode_same|].
    rewrite get_upd_inode_other by done. by apply Hr.
  - intros j k dev inum Hj Hk. unfold live.
    destruct (decide (i = j)) as [<-|Hij], (decide (i = k)) as [<-|Hik]; try done;
      rewrite ?get_upd_inode_same, ?get_upd_inode_other by done.
    + intros (H1 & <- & <-) H2. by elim (Hn k Hk (not_eq_sym Hik) H1).
    + intros H2 (H1 & <- & <-). by elim (Hn j Hj (not_eq_sym Hij) H1).
    + apply Hu; done.
Qed.

Lemma set_inodes_held h i f s : upd_inode i f (set_k_held h s) = set_k_held h (upd_inode i f s).
Proof. reflexivity. Qed.

Lemma iget_ok s dev inum :
  itable_ok s -> itable_lock ∉ k_held s ->
  (exists i, (i < NINODE)%nat /\ live s i dev inum /\
     iget dev inum s = Ok i (upd_inode i (fun ip => set_i_ref (i_ref ip + 1) ip) s) /\
     (i_ref (get_inode s i) + 1 < 2 ^ 31 - 1 -> itable_ok (upd_inode i (fun ip => set_i_ref (i_ref ip + 1) ip) s))) \/
  ((forall i, (i < NINODE)%nat -> ~ live s i dev inum) /\
   ((exists i, (i < NINODE)%nat /\ i_ref (get_inode s i) = 0 /\
       let s' := upd_inode i (fun ip => set_i_valid false (set_i_ref 1 (set_i_inum inum (set_i_dev dev ip)))) s in
       iget dev inum s = Ok i s' /\ itable_ok s') \/
    ((forall i, (i < NINODE)%nat -> i_ref (get_inode s i) <> 0) /\ iget dev inum s = Panic "iget: no inodes"))).
Proof.
  intros T Hh. pose proof (iget_scan_spec s dev inum (seq 0 NINODE) None) as H.
  assert (Hix : forall i, i ∈ seq 0 NINODE <-> (i < NINODE)%nat) by (intros i; rewrite elem_of_seq; lia).
  unfold iget. rewrite bind_acquire by done. rewrite bind_gets.
  rewrite (iget_scan_ext s) by done.
  destruct (iget_scan s (seq 0 NINODE) dev inum None) as [[i|] e'].
  - destruct H as [Hi Hl]. apply Hix in Hi. left. exists i. split; [done|]. split; [done|]. split.
    + unfold inode_set. rewrite bind_modify, set_inodes_held, (bind_release _ (k_held s)) by done.
      assert (E : alter (fun ip => set_i_ref (s32 (i_ref ip + 1)) ip) i (k_inodes s) =
        alter (fun ip => set_i_ref (i_ref ip + 1) ip) i (k_inodes s)).
      { apply list_eq. intros j. destruct (decide (i = j)) as [<-|Hne]; [|by rewrite !list_lookup_alter_ne].
        rewrite !list_lookup_alter_eq. destruct (k_inodes s !! i) as [ip|] eqn:E; [|done]. cbn. do 2 f_equal.
        apply s32_small. pose proof (it_ref _ T i Hi) as Hr. unfold get_inode in Hr. rewrite E in Hr. cbn in Hr. lia. }
      unfold upd_inode. rewrite E. reflexivity.
    + intros Hb. apply itable_upd; [done|done|cbn; pose proof (it_ref _ T i Hi); lia|]. cbn.
      intros j Hj Hne _ Hlj. apply Hne. eapply (it_uniq _ T); [done|done|exact Hlj|]. destruct Hl as (H1 & H2 & H3). done.
  - destruct H as [Hn He]. right. split; [intros i Hi; apply Hn; by apply Hix|].
    destruct e' as [i|].
    + destruct He as [?|(_ & Hi & Hr)]; [done|]. apply Hix in Hi. left. exists i. split; [done|]. split; [done|]. split.
      * unfold inode_set. rewrite bind_modify, set_inodes_held, (bind_release _ (k_held s)) by done. reflexivity.
      * apply itable_upd; [done|done|cbn; lia|]. cbn. intros j Hj _ _. apply Hn. by apply Hix.
    + destruct He as [_ He]. right. split; [intros i Hi; apply He; by apply Hix|done].
Qed.

(** [iget] finds the entry of an inode or makes one: if the inode is in the
    table its entry gets one more reference; otherwise a free entry is taken
    for it, not valid and with one reference; it panics exactly when there is
    neither.  No other entry changes, and no inode ever has two entries. *)
Theorem iget_spec (s : kstate) (dev inum : Z) :
  itable_ok s -> itable_lock ∉ k_held s ->
  (exists i, (i < NINODE)%nat /\ live s i dev inum /\
     iget dev inum s = Ok i (upd_inode i (fun ip => set_i_ref (i_ref ip + 1) ip) s) /\
     (i_ref (get_inode s i) + 1 < 2 ^ 31 - 1 -> itable_ok (upd_inode i (fun ip => set_i_ref (i_ref ip + 1) ip) s))) \/
  ((forall i, (i < NINODE)%nat -> ~ live s i dev inum) /\
   ((exists i, (i < NINODE)%nat /\ i_ref (get_inode s i) = 0 /\
       let s' := upd_inode i (fun ip => set_i_valid false (set_i_ref 1 (set_i_inum inum (set_i_dev dev ip)))) s in
       iget dev inum s = Ok i s' /\ itable_ok s') \/
    ((forall i, (i < NINODE)%nat -> i_ref (get_inode s i) <> 0) /\ iget dev inum s = Panic "iget: no inodes"))).
Proof. apply iget_ok. Qed.

(** ** Inodes on disk *)

(** An inode whose fields can be stored. *)
Record idisk (s : kstate) (ip : inode) : Prop := {
  id_dev : i_dev ip = ROOTDEV;
  id_inum : 0 <= i_inum ip < sb_ninodes (k_sb s);
  id_fits : inode_fits ip
}.

(** The disk inode [inum] as the file system sees it, with the other fields
    of [ip]. *)
Definition dinode_of (s : kstate) (inum : Z) (ip : inode) : inode :=
  dinode_get (blk s (IBLOCK inum (k_sb s))) (dinode_off inum) ip.

Lemma IBLOCK_eq s inum :
  fs_layout s -> 0 <= inum < sb_ninodes (k_sb s) ->
  IBLOCK inum (k_sb s) = inum / IPB + sb_inodestart (k_sb s) /\
  sb_inodestart (k_sb s) <= IBLOCK inum (k_sb s) < sb_bmapstart (k_sb s).
Proof.
  intros [Hs [Hl0 Hl] [Hi0 Hi] Hd] Hn. unfold data_start in Hd.
  assert (H1 : 0 <= inum / IPB <= sb_ninodes (k_sb s) / IPB).
  { split; [apply Z.div_pos; [lia|by vm_compute]|]. apply Z.div_le_mono; [by vm_compute|lia]. }
  assert (H2 : 0 <= sb_size (k_sb s) / BPB) by (apply Z.div_pos; [lia|by vm_compute]).
  assert (E : IBLOCK inum (k_sb s) = inum / IPB + sb_inodestart (k_sb s)).
  { unfold IBLOCK. apply u32_small. unfold LOGSIZE, MAXOPBLOCKS in *. lia. }
  split; [done|]. rewrite E. lia.
Qed.

Lemma IBLOCK_data s inum :
  fs_layout s -> 0 <= inum < sb_ninodes (k_sb s) ->
  home s (IBLOCK inum (k_sb s)) /\ IBLOCK inum (k_sb s) < data_start (k_sb s) /\
  forall b, 0 <= b < sb_size (k_sb s) -> IBLOCK inum (k_sb s) <> BBLOCK b (k_sb s).
Proof.
  intros L Hn. destruct (IBLOCK_eq s inum L Hn) as [_ H]. split_and!.
  - destruct L as [Hs [Hl0 Hl] [Hi0 Hi] Hd]. unfold data_start in Hd.
    assert (H2 : 0 <= sb_size (k_sb s) / BPB) by (apply Z.div_pos; [lia|by vm_compute]).
    unfold home, in_log. unfold LOGSIZE, MAXOPBLOCKS in *. lia.
  - destruct L as [Hs _ _ _]. unfold data_start.
    assert (H2 : 0 <= sb_size (k_sb s) / BPB) by (apply Z.div_pos; [lia|by vm_compute]). lia.
  - intros b Hb. destruct (BBLOCK_eq s b L Hb) as [_ H']. lia.
Qed.

Lemma dinode_off_range inum : (dinode_off inum + 64 <= Z.to_nat BSIZE)%nat.
Proof. unfold dinode_off, dinode_size, IPB, BSIZE. change (1024 / dinode_size) with 16. mlia. Qed.

(** Two inodes in one block do not overlap. *)
Lemma dinode_off_apart inum inum' :
  0 <= inum -> 0 <= inum' -> inum <> inum' -> inum / IPB = inum' / IPB ->
  (dinode_off inum' + 64 <= dinode_off inum \/ dinode_off inum + 64 <= dinode_off inum')%nat.
Proof. intros H H' Hne E. unfold dinode_off, dinode_size. change IPB with 16 in *. mlia. Qed.

Lemma tx_inodes v s bs held : tx s bs held -> tx (set_k_inodes v s) bs held.
Proof. intros []. split; [by apply (cache_frame s)|by apply (logged_frame s)|done|done|done]. Qed.

(** [iupdate] inside of a transaction. *)
Lemma iupdate_tx s bs held i :
  let ip := get_inode s i in
  let b := IBLOCK (i_inum ip) (k_sb s) in
  tx s bs held -> fs_layout s -> idisk s ip -> (b ∉ held) -> room s bs held 1 ->
  exists s', iupdate i s = Ok tt s' /\ tx s' (absorb bs b) held /\ keeps held s s' /\
    tstep s bs [(b, dinode_put (blk s b) (dinode_off (i_inum ip)) ip)] s' (absorb bs b).
Proof.
  intros ip b T L D Hb R. unfold iupdate, inode_get. rewrite !bind_gets. fold ip. fold b. rewrite (id_dev _ _ D).
  destruct (tx_bread s bs held b T Hb) as (j & s1 & E1 & T1 & I1 & D1 & S1 & K1 & _).
  { destruct R. lia. }
  rewrite E1. unfold bdata. rewrite bind_gets, D1.
  destruct (tx_put s1 bs held j b (dinode_put (blk s b) (dinode_off (i_inum ip)) ip) T1 I1 Hb) as (s2 & _ & E2 & T2 & S2 & K2).
  { destruct (IBLOCK_data s (i_inum ip) L (id_inum _ _ D)) as [[H1 H2] _]. split; [done|].
    by rewrite (tstep_in_log _ _ _ _ _ _ S1). }
  { eapply room_le; [eapply (tstep_room s bs [] s1 bs held 1); [done|exact R]|lia|simpl; lia]. }
  exists s2. split; [exact E2|]. split; [done|]. split; [by eapply keeps_trans|]. by eapply tstep_nil_l.
Qed.

(** The disk inodes after [iupdate]. *)
Lemma iupdate_dinodes s bs s' bs' ip :
  fs_layout s -> idisk s ip -> length (blk s (IBLOCK (i_inum ip) (k_sb s))) = Z.to_nat BSIZE ->
  tstep s bs [(IBLOCK (i_inum ip) (k_sb s),
    dinode_put (blk s (IBLOCK (i_inum ip) (k_sb s))) (dinode_off (i_inum ip)) ip)] s' bs' ->
  forall inum ip', 0 <= inum < sb_ninodes (k_sb s) ->
    dinode_of s' inum ip' = if decide (inum = i_inum ip) then with_fields ip ip' else dinode_of s inum ip'.
Proof.
  intros L [Hd Hn Hf] Hlen S inum ip' Hin. unfold dinode_of. rewrite (tstep_sb _ _ _ _ _ S), (ts_blk _ _ _ _ _ S).
  case_decide as E.
  - subst inum. rewrite upds_one. apply dinode_get_put; [|done]. rewrite Hlen. apply dinode_off_range.
  - destruct (IBLOCK_eq s inum L Hin) as [E1 _]. destruct (IBLOCK_eq s (i_inum ip) L Hn) as [E2 _].
    destruct (decide (inum / IPB = i_inum ip / IPB)) as [Eq|Hne].
    + replace (IBLOCK inum (k_sb s)) with (IBLOCK (i_inum ip) (k_sb s)) by (rewrite E1, E2; lia).
      rewrite upds_one. apply dinode_get_put_other; [|apply Hf]. apply dinode_off_apart; [lia|lia|lia|done].
    + rewrite upds_not; [done|]. simpl. rewrite list_elem_of_singleton. lia.
Qed.

(** [ilock] of a free entry that has not been read yet. *)
Lemma ilock_load s bs j me :
  tx s bs [] -> (length bs < NBUF)%nat -> length (k_inodes s) = NINODE -> (j < NINODE)%nat -> k_cur s = Some me ->
  let ip := get_inode s j in
  1 <= i_ref ip -> sl_locked (i_lock ip) = false -> i_valid ip = false -> i_dev ip = ROOTDEV ->
  i_type (dinode_of s (i_inum ip) ip) <> 0 ->
  exists s', ilock j s = Ok tt s' /\ tx s' bs [] /\ (forall b, blk s' b = blk s b) /\ k_sb s' = k_sb s /\
    log_start (k_log s') = log_start (k_log s) /\ k_inodes s' = alter (fun ip => set_i_valid true (dinode_of s (i_inum ip)
      (set_i_lock (mkSleeplock true (p_pid (get_proc s me))) ip))) j (k_inodes s).
Proof.
  intros T R Hl Hj Hme ip Hr Hlk Hv Hd Hty. unfold ilock, inode_get. rewrite bind_gets. fold ip.
  rewrite (proj2 (Z.ltb_ge _ _)) by lia.
  assert (Ea := acquiresleep_free (sl_inode j) me s Hme ltac:(rewrite (ca_spin _ _ _ (tx_cache _ _ _ T)); apply not_elem_of_nil) Hlk).
  rewrite (bind_ok _ _ _ _ _ Ea). cbn [upd_sl]. set (lk := mkSleeplock true _). set (s1 := upd_inode j (set_i_lock lk) s).
  assert (G1 : get_inode s1 j = set_i_lock lk ip) by (unfold s1; rewrite get_upd_inode_same by lia; done).
  rewrite bind_gets, G1. change (i_valid (set_i_lock lk ip)) with (i_valid ip). rewrite Hv, bind_gets.
  change (i_dev (set_i_lock lk ip)) with (i_dev ip). change (i_inum (set_i_lock lk ip)) with (i_inum ip).
  change (k_sb s1) with (k_sb s). rewrite Hd. set (b := IBLOCK (i_inum ip) (k_sb s)).
  destruct (tx_bread s1 bs [] b (tx_inodes _ _ _ _ T) (not_elem_of_nil _)) as (i & s2 & E2 & T2 & I2 & D2 & S2 & K2 & H2).
  { cbn. lia. }
  rewrite E2. unfold bdata, inode_set. rewrite bind_gets, D2, bind_modify.
  change (blk s1 b) with (blk s b). set (g := dinode_get (blk s b) (dinode_off (i_inum ip))).
  set (s3 := upd_inode j g s2).
  destruct (tx_brelse s3 bs [] b i (tx_inodes _ _ _ _ T2) (not_elem_of_nil _) I2 H2) as (s4 & E4 & T4 & S4 & K4).
  rewrite (bind_ok _ _ _ _ _ E4), bind_modify. set (s5 := upd_inode j (set_i_valid true) s4).
  assert (Ei : k_inodes s5 = alter (fun ip => set_i_valid true (dinode_of s (i_inum ip) (set_i_lock lk ip))) j (k_inodes s)).
  { unfold s5, upd_inode. cbn [k_inodes set_k_inodes]. rewrite (tstep_inodes _ _ _ _ _ S4). unfold s3, upd_inode.
    cbn [k_inodes set_k_inodes]. rewrite (tstep_inodes _ _ _ _ _ S2). unfold s1, upd_inode. cbn [k_inodes set_k_inodes].
    apply list_eq. intros k. destruct (decide (j = k)) as [<-|Hne]; [|by rewrite !list_lookup_alter_ne].
    rewrite !list_lookup_alter_eq. unfold ip, get_inode in g. unfold g, b, ip, get_inode.
    destruct (k_inodes s !! j) as [x|] eqn:Ex; [|done]. reflexivity. }
  assert (G5 : i_type (get_inode s5 j) = i_type (dinode_of s (i_inum ip) ip)).
  { unfold get_inode at 1. rewrite Ei, list_lookup_alter_eq. unfold ip, get_inode.
    destruct (lookup_lt_is_Some_2 (k_inodes s) j) as [x ->]; [lia|]. reflexivity. }
  rewrite bind_gets, G5, (proj2 (Z.eqb_neq _ _) Hty).
  exists s5. split; [done|]. split; [by apply tx_inodes|]. split; [|split; [|split; [|exact Ei]]].
  - intros x. transitivity (blk s2 x); [exact (ts_blk _ _ _ _ _ S4 x)|exact (ts_blk _ _ _ _ _ S2 x)].
  - change (k_sb s5) with (k_sb s4). rewrite (tstep_sb _ _ _ _ _ S4). change (k_sb s3) with (k_sb s2).
    by rewrite (tstep_sb _ _ _ _ _ S2).
  - transitivity (log_start (k_log s2)); [apply (ts_log _ _ _ _ _ S4)|apply (ts_log _ _ _ _ _ S2)].
Qed.

(** Round trip through the disk format: [iupdate] stores the fields of an
    entry in the inode's block and leaves the other inodes as they are, also
    those in the same block; in any later state in which the block is still
    the same (after a commit, after eviction from the cache, after a reboot),
    [ilock] of an entry for the inode that has not been read yet gets the
    same fields. *)
Theorem iupdate_ilock_roundtrip (s : kstate) (bs : list Z) (i : nat) :
  let ip := get_inode s i in
  let b := IBLOCK (i_inum ip) (k_sb s) in
  tx s bs [] -> fs_layout s -> room s bs [] 1 -> idisk s ip -> i_type ip <> 0 ->
  length (blk s b) = Z.to_nat BSIZE ->
  exists s' bs', iupdate i s = Ok tt s' /\ tx s' bs' [] /\ b ∈ bs' /\
    (forall inum ip', 0 <= inum < sb_ninodes (k_sb s) -> inum <> i_inum ip ->
       dinode_of s' inum ip' = dinode_of s inum ip') /\
    forall t ts j me, tx t ts [] -> (length ts < NBUF)%nat -> k_sb t = k_sb s -> blk t b = blk s' b ->
      length (k_inodes t) = NINODE -> (j < NINODE)%nat -> k_cur t = Some me ->
      i_inum (get_inode t j) = i_inum ip -> i_dev (get_inode t j) = ROOTDEV -> 1 <= i_ref (get_inode t j) ->
      sl_locked (i_lock (get_inode t j)) = false -> i_valid (get_inode t j) = false ->
      exists t', ilock j t = Ok tt t' /\ tx t' ts [] /\
        get_inode t' j = set_i_valid true (with_fields ip
          (set_i_lock (mkSleeplock true (p_pid (get_proc t me))) (get_inode t j))).
Proof.
  intros ip b T L R D Hty Hlen.
  destruct (iupdate_tx s bs [] i T L D (not_elem_of_nil _) R) as (s' & E & T' & _ & S). fold ip b in T', S.
  pose proof (iupdate_dinodes s bs s' (absorb bs b) ip L D Hlen S) as Hdi.
  exists s', (absorb bs b). split; [done|]. split; [done|]. split; [apply elem_of_absorb; by right|]. split.
  { intros inum ip' Hin Hne. by rewrite Hdi, decide_False. }
  intros t ts j me Tt Rt Esb Eb Hl Hj Hme Ej Hdj Hrj Hlj Hvj.
  assert (Hdt : forall ip', dinode_of t (i_inum ip) ip' = with_fields ip ip').
  { intros ip'. rewrite <- (decide_True (P := i_inum ip = i_inum ip) (with_fields ip ip') (dinode_of s (i_inum ip) ip') eq_refl).
    rewrite <- Hdi by apply D. unfold dinode_of. rewrite Esb, (tstep_sb _ _ _ _ _ S). fold b. by rewrite Eb. }
  destruct (ilock_load t ts j me Tt Rt Hl Hj Hme Hrj Hlj Hvj Hdj) as (t' & E2 & T2 & _ & _ & _ & I2).
  { rewrite Ej, Hdt. exact Hty. }
  exists t'. split; [done|]. split; [done|].
  unfold get_inode at 1. rewrite I2, list_lookup_alter_eq. unfold get_inode in Ej |- * at 1.
  destruct (k_inodes t !! j) as [x|] eqn:Ex; [|apply lookup_ge_None in Ex; lia]. cbn in Ej |- *.
  f_equal. by rewrite Ej, Hdt.
Qed.

(** ** Witnesses *)

(** A file system with inode 7 in entry 0 and an unread entry 1 for it. *)
Definition inode_state : kstate :=
  upd_inode 0 (fun _ => mkInode ROOTDEV 7 1 sleeplock_zero true T_FILE 0 0 1 5 (replicate 13 0)) fs_state.

Lemma fs_no_inode i : get_inode fs_state i = inode_zero.
Proof.
  unfold get_inode. change (k_inodes fs_state) with (replicate NINODE inode_zero).
  destruct (replicate NINODE inode_zero !! i) as [x|] eqn:E; [|done]. by apply lookup_replicate in E as [-> _].
Qed.

Lemma fs_itable ip : 0 <= i_ref ip < 2 ^ 31 - 1 -> itable_ok (upd_inode 0 (fun _ => ip) fs_state).
Proof.
  intros Hr. apply itable_upd; [|unfold NINODE; lia|exact Hr|].
  - split; [done|intros i _; rewrite fs_no_inode; cbn; lia|]. intros i j dev inum _ _ [H _]. rewrite fs_no_inode in H. cbn in H. lia.
  - intros j _ _ _ [H _]. rewrite fs_no_inode in H. cbn in H. lia.
Qed.

Lemma iget_spec_witness :
  iget ROOTDEV 7 inode_state = Ok 0%nat (upd_inode 0 (fun ip => set_i_ref (i_ref ip + 1) ip) inode_state).
Proof.
  assert (G' : forall i, i <> 0%nat -> get_inode inode_state i = inode_zero).
  { intros i Hi. unfold inode_state. rewrite get_upd_inode_other by done. apply fs_no_inode. }
  assert (T : itable_ok inode_state) by (apply fs_itable; cbn; lia).
  destruct (iget_spec inode_state ROOTDEV 7 T) as [(i & Hi & Hl & E & _)|(Hn & _)].
  - apply not_elem_of_nil.
  - destruct (decide (i = 0%nat)) as [->|Hne]; [exact E|]. destruct Hl as [Hl _]. rewrite (G' i Hne) in Hl. done.
  - exfalso. apply (Hn 0%nat); [unfold NINODE; lia|]. by vm_compute.
Defined.

Lemma iupdate_ilock_roundtrip_witness :
  exists s' bs', iupdate 0 inode_state = Ok tt s' /\ tx s' bs' [] /\ 32 ∈ bs'.
Proof.
  destruct (iupdate_ilock_roundtrip inode_state [] 0) as (s' & bs' & E & T & Hb & _).
  - apply tx_inodes, fs_tx.
  - apply (fs_layout_frame fs_state); [apply fs_bitmap|done|done].
  - pose proof (fs_room 1 ltac:(lia)) as []. by split.
  - assert (G : get_inode inode_state 0 = mkInode ROOTDEV 7 1 sleeplock_zero true T_FILE 0 0 1 5 (replicate 13 0)) by reflexivity.
    rewrite G. split; [reflexivity|cbn; lia|]. split; cbn; try (unfold T_FILE; lia). repeat constructor; lia.
  - discriminate.
  - change (blk inode_state) with (blk fs_state). rewrite fs_blk. done.
  - exists s', bs'. split; [exact E|]. split; [exact T|exact Hb].
Defined.
