(* ===== verification/FsFile.v ===== *)
(** * The contents of a file

    [bmap], [readi] and [writei] of kernel/fs.c against the view of a file
    as an array of bytes ([fbyte]): [readi] returns its bytes, [writei]
    changes exactly the bytes written, and neither touches the blocks of
    another file. *)

From S2P Require Import Prelude KString Bytes KState Riscv Spinlock Kalloc Vm Sched Uart Console Sleeplock.
From S2P Require Import Bio Log LogSafe Fs FsPath FsBlock FsInode.

(** ** Files *)

(** The indirect block of an inode, and the address of its block [bn]; 0 if
    there is none. *)
Definition indirect (ip : inode) : Z := nth (Z.to_nat NDIRECT) (i_addrs ip) 0.

Definition faddr (s : kstate) (ip : inode) (bn : Z) : Z :=
  if bn <? NDIRECT then nth (Z.to_nat bn) (i_addrs ip) 0
  else if indirect ip =? 0 then 0
  else get32 (blk s (indirect ip)) (Z.to_nat (4 * (bn - NDIRECT))).

(** The byte at offset [x]; a hole reads as 0. *)
Definition fbyte (s : kstate) (ip : inode) (x : Z) : Z :=
  if faddr s ip (x / BSIZE) =? 0 then 0
  else nth (Z.to_nat (x mod BSIZE)) (blk s (faddr s ip (x / BSIZE))) 0.

(** A data block in use, well formed. *)
Definition data_ok (s : kstate) (b : Z) : Prop :=
  data_start (k_sb s) <= b < sb_size (k_sb s) /\ used s b = true /\
  length (blk s b) = Z.to_nat BSIZE /\ byte_list (blk s b).

(** An inode in the table and its blocks. *)
Record file_ok (s : kstate) (i : nat) : Prop := {
  fo_entry : (i < length (k_inodes s))%nat;
  fo_disk : idisk s (get_inode s i);
  fo_bitmap : bitmap_ok s;
  fo_one : sb_size (k_sb s) <= BPB;
  fo_ind : indirect (get_inode s i) <> 0 -> data_ok s (indirect (get_inode s i));
  fo_addr : forall bn, 0 <= bn < MAXFILE -> faddr s (get_inode s i) bn <> 0 ->
    data_ok s (faddr s (get_inode s i) bn) /\ faddr s (get_inode s i) bn <> indirect (get_inode s i);
  fo_inj : forall bn bn', 0 <= bn < MAXFILE -> 0 <= bn' < MAXFILE ->
    faddr s (get_inode s i) bn <> 0 -> faddr s (get_inode s i) bn = faddr s (get_inode s i) bn' -> bn = bn'
}.

(** Every block below the size is there. *)
Definition mapped (s : kstate) (i : nat) : Prop :=
  forall bn, 0 <= bn < MAXFILE -> bn * BSIZE < i_size (get_inode s i) -> faddr s (get_inode s i) bn <> 0.

Lemma faddr_ext s s' ip ip' bn :
  i_addrs ip' = i_addrs ip -> (indirect ip <> 0 -> blk s' (indirect ip) = blk s (indirect ip)) ->
  faddr s' ip' bn = faddr s ip bn.
Proof.
  intros E H. unfold faddr, indirect in *. rewrite E. destruct (bn <? NDIRECT); [done|].
  destruct (Z.eqb_spec (nth (Z.to_nat NDIRECT) (i_addrs ip) 0) 0); [done|]. by rewrite H.
Qed.

(** A file in a state with the same blocks and a table entry with the same
    fields. *)
Lemma file_ok_frame s s' i :
  file_ok s i -> bitmap_ok s' -> k_sb s' = k_sb s -> (forall b, blk s' b = blk s b) ->
  (i < length (k_inodes s'))%nat -> idisk s' (get_inode s' i) -> i_addrs (get_inode s' i) = i_addrs (get_inode s i) ->
  file_ok s' i /\ forall bn, faddr s' (get_inode s' i) bn = faddr s (get_inode s i) bn.
Proof.
  intros F B Esb Eb Hi D Ea.
  assert (Hf : forall bn, faddr s' (get_inode s' i) bn = faddr s (get_inode s i) bn) by (intros bn; by apply faddr_ext).
  assert (Hind : indirect (get_inode s' i) = indirect (get_inode s i)) by (unfold indirect; by rewrite Ea).
  assert (Hd : forall b, data_ok s b -> data_ok s' b).
  { intros b (H1 & H2 & H3 & H4). unfold data_ok, used. rewrite Esb, !Eb. done. }
  split; [|done]. split; try done; rewrite ?Esb, ?Hind; try apply F.
  - intros H. apply Hd. by apply F.
  - intros bn Hbn. rewrite Hf. intros H. destruct (fo_addr _ _ F bn Hbn H) as [H1 H2]. split; [by apply Hd|done].
  - intros bn bn' Hbn Hbn'. rewrite !Hf. by apply F.
Qed.

(** With one bitmap block, this is it. *)
Lemma BBLOCK_one s b :
  fs_layout s -> sb_size (k_sb s) <= BPB -> 0 <= b < sb_size (k_sb s) -> BBLOCK b (k_sb s) = sb_bmapstart (k_sb s).
Proof.
  intros L H Hb. destruct (BBLOCK_eq s b L Hb) as [-> _]. rewrite Z.div_small by lia. lia.
Qed.

Lemma data_not_meta s b :
  fs_layout s -> sb_size (k_sb s) <= BPB -> data_start (k_sb s) <= b -> b <> sb_bmapstart (k_sb s) /\ b <> 0.
Proof.
  intros L H Hb. pose proof (data_start_pos s L). destruct L as [Hs [Hl0 Hl] [Hi0 Hi] Hd]. unfold data_start in *.
  assert (H1 : 0 <= sb_size (k_sb s) / BPB) by (apply Z.div_pos; [lia|by vm_compute]). lia.
Qed.

(** ** [bmap] on a block that is there *)

Lemma bmap_hit s bs i bn :
  tx s bs [] -> (length bs < NBUF)%nat -> file_ok s i -> 0 <= bn < MAXFILE -> faddr s (get_inode s i) bn <> 0 ->
  exists s', bmap i bn s = Ok (faddr s (get_inode s i) bn) s' /\ tx s' bs [] /\ tstep s bs [] s' bs.
Proof.
  intros T Hn F Hbn Ha. unfold bmap, inode_get. rewrite bind_gets. unfold faddr in *. unfold indirect in *.
  destruct (Z.ltb_spec bn NDIRECT) as [Hlt|Hge].
  - rewrite (proj2 (Z.eqb_neq _ _) Ha). exists s. split; [done|]. split; [done|apply tstep_refl].
  - rewrite (proj2 (Z.ltb_lt _ _)) by (unfold MAXFILE in Hbn; lia).
    set (ind := nth (Z.to_nat NDIRECT) (i_addrs (get_inode s i)) 0) in *.
    destruct (Z.eqb_spec ind 0) as [|Hind]; [done|]. rewrite bind_ret. rewrite (proj2 (Z.eqb_neq _ _) Hind).
    rewrite (id_dev _ _ (fo_disk _ _ F)).
    destruct (tx_bread s bs [] ind T (not_elem_of_nil _)) as (j & s1 & E1 & T1 & I1 & D1 & S1 & _ & H1); [cbn; lia|].
    rewrite E1. unfold bdata. rewrite bind_gets, D1, (proj2 (Z.eqb_neq _ _) Ha), bind_ret.
    destruct (tx_brelse s1 bs [] ind j T1 (not_elem_of_nil _) I1 H1) as (s2 & E2 & T2 & S2 & _).
    rewrite (bind_ok _ _ _ _ _ E2). exists s2. split; [done|]. split; [done|]. by eapply tstep_nil_l.
Qed.

(** ** [readi] *)

Lemma file_ok_quiet s bs s' bs' i :
  tstep s bs [] s' bs' -> file_ok s i ->
  file_ok s' i /\ get_inode s' i = get_inode s i /\
  (forall bn, faddr s' (get_inode s' i) bn = faddr s (get_inode s i) bn) /\
  forall x, fbyte s' (get_inode s' i) x = fbyte s (get_inode s i) x.
Proof.
  intros S F. assert (Ei : get_inode s' i = get_inode s i) by (unfold get_inode; by rewrite (tstep_inodes _ _ _ _ _ S)).
  pose proof (tstep_sb _ _ _ _ _ S) as Esb.
  destruct (file_ok_frame s s' i F) as [F' Hf].
  - by eapply bitmap_ok_quiet; [|apply F].
  - done.
  - apply S.
  - rewrite (tstep_inodes _ _ _ _ _ S). apply F.
  - rewrite Ei. destruct (fo_disk _ _ F). split; rewrite ?Esb; done.
  - by rewrite Ei.
  - split; [done|]. split; [done|]. split; [done|]. intros x. unfold fbyte. rewrite Hf. by rewrite (ts_blk _ _ _ _ _ S).
Qed.

(** The bytes of one block. *)
Lemma fbytes_block s ip off m :
  let a := faddr s ip (off / BSIZE) in
  a <> 0 -> length (blk s a) = Z.to_nat BSIZE -> 0 <= off -> 0 <= m <= BSIZE - off mod BSIZE ->
  get_bytes (blk s a) (Z.to_nat (off mod BSIZE)) (Z.to_nat m) = fbyte s ip <$> seqZ off m.
Proof.
  intros a Ha Hlen Hoff Hm. assert (Hr : 0 <= off mod BSIZE < BSIZE) by (apply Z.mod_pos_bound; by vm_compute).
  apply list_eq_same_length with (Z.to_nat m).
  - by rewrite length_fmap, length_seqZ.
  - rewrite length_get_bytes; [done|]. rewrite Hlen. lia.
  - intros k x y Hk Hx Hy. rewrite lookup_get_bytes in Hx by done.
    apply list_lookup_fmap_Some in Hy as (z & -> & Hz). apply lookup_seqZ in Hz as [-> Hz].
    assert (Ed : (off + Z.of_nat k) / BSIZE = off / BSIZE /\ (off + Z.of_nat k) mod BSIZE = off mod BSIZE + Z.of_nat k)
      by (unfold BSIZE in *; mlia).
    unfold fbyte. destruct Ed as [-> ->]. fold a. rewrite (proj2 (Z.eqb_neq _ _) Ha). symmetry.
    apply nth_lookup_Some. rewrite <- Hx. f_equal. lia.
Qed.

Lemma MAXFILE_bytes : MAXFILE * BSIZE = 274432.
Proof. reflexivity. Qed.

(** Loop iterations for [r] more bytes at [off]. *)
Definition blocks (off r : Z) : Z := (off mod BSIZE + r + BSIZE - 1) / BSIZE.

Lemma blocks_next off r :
  let m := Z.min r (BSIZE - off mod BSIZE) in
  0 <= off -> 0 < r -> 0 < m <= r /\ (m < r -> (off + m) mod BSIZE = 0) /\
  (r - m <= 0 \/ blocks (off + m) (r - m) <= blocks off r - 1) /\ 1 <= blocks off r.
Proof. intros m Ho Hr. unfold m, blocks. unfold BSIZE in *. mlia. Qed.

Lemma readi_loop_spec fuel : forall i off n tot acc s bs,
  tx s bs [] -> (length bs < NBUF)%nat -> file_ok s i -> 0 <= tot -> 0 <= off -> off + (n - tot) <= MAXFILE * BSIZE ->
  (forall bn, 0 <= bn < MAXFILE -> off / BSIZE <= bn -> bn * BSIZE < off + (n - tot) -> faddr s (get_inode s i) bn <> 0) ->
  (n <= tot \/ blocks off (n - tot) <= Z.of_nat fuel) -> tot <= n ->
  exists s', readi_loop fuel i kernel_dst off n tot acc s =
      Ok (n, acc ++ (fbyte s (get_inode s i) <$> seqZ off (n - tot))) s' /\ tx s' bs [] /\ tstep s bs [] s' bs.
Proof.
  induction fuel as [|fuel IH]; intros i off n tot acc s bs T Hn F Ht Ho Hmax Hmap Hfuel Hle.
  { assert (tot = n) as ->.
    { destruct Hfuel as [?|Hf]; [lia|]. destruct (decide (tot = n)); [done|].
      destruct (blocks_next off (n - tot)) as (_ & _ & _ & H); lia. }
    exists s. cbn [readi_loop]. rewrite Z.ltb_irrefl, Z.sub_diag, app_nil_r. split; [done|]. split; [done|apply tstep_refl]. }
  cbn [readi_loop]. destruct (Z.ltb_spec tot n) as [Hlt|Hge].
  2:{ assert (tot = n) as -> by lia. exists s. rewrite Z.sub_diag, app_nil_r. split; [done|]. split; [done|apply tstep_refl]. }
  destruct (blocks_next off (n - tot) Ho ltac:(lia)) as (Hm & Hal & Hbl & Hb1).
  assert (Hbn : 0 <= off / BSIZE < MAXFILE /\ off / BSIZE * BSIZE <= off) by (unfold BSIZE, MAXFILE, NDIRECT, NINDIRECT in *; mlia).
  destruct Hbn as [Hbn Hbo]. assert (Ha := Hmap (off / BSIZE) Hbn ltac:(lia) ltac:(lia)).
  destruct (bmap_hit s bs i (off / BSIZE) T Hn F Hbn Ha) as (s1 & E1 & T1 & S1).
  rewrite (bind_ok _ _ _ _ _ E1). set (a := faddr s (get_inode s i) (off / BSIZE)) in *. rewrite (proj2 (Z.eqb_neq _ _) Ha).
  destruct (file_ok_quiet _ _ _ _ i S1 F) as (F1 & Ei1 & Hf1 & Hy1).
  unfold inode_get. rewrite bind_gets, Ei1, (id_dev _ _ (fo_disk _ _ F)).
  destruct (tx_bread s1 bs [] a T1 (not_elem_of_nil _)) as (j & s2 & E2 & T2 & I2 & D2 & S2 & _ & H2); [cbn; lia|].
  rewrite E2. unfold bdata. rewrite bind_gets, D2. rewrite (ts_blk _ _ _ _ _ S1). cbn [upds foldl either_copyout].
  rewrite bind_ret.
  destruct (tx_brelse s2 bs [] a j T2 (not_elem_of_nil _) I2 H2) as (s3 & E3 & T3 & S3 & _).
  rewrite (bind_ok _ _ _ _ _ E3). cbn [Z.eqb dest_add].
  assert (S03 : tstep s bs [] s3 bs) by (eapply tstep_nil_l; [exact S1|]; by eapply tstep_nil_l).
  destruct (file_ok_quiet _ _ _ _ i S03 F) as (F3 & Ei3 & Hf3 & Hy3).
  set (m := Z.min (n - tot) (BSIZE - off mod BSIZE)) in *.
  rewrite (u32_small (off + m)) by (rewrite MAXFILE_bytes in Hmax; lia).
  assert (Hget : get_bytes (blk s a) (Z.to_nat (off mod BSIZE)) (Z.to_nat m) = fbyte s (get_inode s i) <$> seqZ off m).
  { apply fbytes_block; [done|apply (fo_addr _ _ F _ Hbn Ha)|done|lia]. }
  rewrite Hget.
  destruct (IH i (off + m) n (tot + m) (acc ++ (fbyte s (get_inode s i) <$> seqZ off m)) s3 bs T3 Hn F3) as (s' & E' & T' & S');
    [lia|lia|lia| |replace (n - (tot + m)) with (n - tot - m) by lia; destruct Hbl; [left|right]; lia|lia|].
  { intros bn Hb Hge Hlt2. rewrite Hf3. apply Hmap; [done| |lia].
    etrans; [|exact Hge]. apply Z.div_le_mono; [by vm_compute|lia]. }
  exists s'. rewrite E'. split; [|split; [done|by eapply tstep_nil_l]].
  do 2 f_equal. rewrite <- app_assoc. f_equal. replace (n - tot) with (m + (n - (tot + m))) by lia.
  rewrite seqZ_app, fmap_app by lia. f_equal. apply list_fmap_ext. intros k x _. apply Hy3.
Qed.

Lemma readi_ok s bs i off n :
  tx s bs [] -> (length bs < NBUF)%nat -> file_ok s i -> mapped s i ->
  i_size (get_inode s i) <= MAXFILE * BSIZE -> 0 <= off < 2 ^ 32 -> 0 <= n < 2 ^ 32 ->
  let size := i_size (get_inode s i) in
  let n' := if (size <? off) || (2 ^ 32 <=? off + n) then 0 else Z.min n (size - off) in
  exists s', readi i kernel_dst off n s = Ok (n', fbyte s (get_inode s i) <$> seqZ off n') s' /\
    tx s' bs [] /\ tstep s bs [] s' bs.
Proof.
  intros T Hn F M Hmax Hoff Hnn size n'. unfold readi, inode_get. rewrite bind_gets. fold size.
  assert (Hs : 0 <= size < 2 ^ 32) by apply F.
  assert (Hw : (u32 (off + n) <? off) = (2 ^ 32 <=? off + n)).
  { unfold u32. destruct (Z.leb_spec (2 ^ 32) (off + n)).
    - apply Z.ltb_lt. replace (off + n) with (off + n - 2 ^ 32 + 1 * 2 ^ 32) by lia. rewrite Z.mod_add, Z.mod_small; lia.
    - apply Z.ltb_ge. rewrite Z.mod_small; lia. }
  rewrite Hw. unfold n'. destruct ((size <? off) || (2 ^ 32 <=? off + n)) eqn:Ec.
  { exists s. split; [done|]. split; [done|apply tstep_refl]. }
  apply orb_false_iff in Ec as [H1%Z.ltb_ge H2%Z.leb_gt]. rewrite (u32_small (off + n)) by lia.
  replace (if size <? off + n then u32 (size - off) else n) with (Z.min n (size - off)).
  2:{ destruct (Z.ltb_spec size (off + n)); [rewrite u32_small; lia|lia]. }
  set (k := Z.min n (size - off)).
  destruct (readi_loop_spec (Z.to_nat (k / BSIZE) + 2) i off k 0 [] s bs T Hn F) as (s' & E & T' & S);
    [lia|lia|unfold size in *; lia| | |lia|].
  - intros bn Hbn _ Hlt. apply M; [done|]. fold size. lia.
  - right. unfold blocks. rewrite Z.sub_0_r. assert (0 <= k) by lia. unfold BSIZE in *. mlia.
  - rewrite Z.sub_0_r in E. exists s'. split; [exact E|]. by split.
Qed.


(** ** Steps on a file *)

(** Of the kernel, only the buffers, the log, the inode table, the console
    output and woken processes differ. *)
Definition fframe (s s' : kstate) : Prop :=
  bio_frame (set_k_inodes (k_inodes s') (set_k_log (k_log s') (set_k_uart (k_uart s') s))) s'.

(** A step on file [i]: blocks in use keep their contents unless they are
    the bitmap or satisfy [P]; no other inode changes. *)
Record fstep (P : Z -> Prop) (s : kstate) (i : nat) (s' : kstate) : Prop := {
  fp_frame : fframe s s';
  fp_log : log_same (k_log s) (k_log s');
  fp_disk : k_disk s' = k_disk s;
  fp_len : length (k_inodes s') = length (k_inodes s);
  fp_other : forall j, j <> i -> get_inode s' j = get_inode s j;
  fp_used : forall b, 0 <= b < sb_size (k_sb s) -> used s b = true -> used s' b = true;
  fp_blk : forall b, 0 <= b < sb_size (k_sb s) -> used s b = true -> b <> sb_bmapstart (k_sb s) -> ~ P b ->
    blk s' b = blk s b
}.

Lemma fframe_trans s1 s2 s3 : fframe s1 s2 -> fframe s2 s3 -> fframe s1 s3.
Proof.
  intros [F1 W1] [F2 W2]. split.
  - rewrite F2, F1 at 1. reflexivity.
  - eapply (woken_trans _ (set_k_inodes (k_inodes s3) (set_k_log (k_log s3) (set_k_uart (k_uart s3) s2)))); [|exact W1|exact W2].
    cbn. rewrite F1. reflexivity.
Qed.

Lemma fframe_sb s s' : fframe s s' -> k_sb s' = k_sb s.
Proof. intros [F _]. by rewrite F. Qed.

Lemma fframe_tstep s bs ws s' bs' : tstep s bs ws s' bs' -> fframe s s'.
Proof.
  intros S. unfold fframe. rewrite (tstep_inodes _ _ _ _ _ S). apply (ts_frame _ _ _ _ _ S).
Qed.

Lemma fframe_inodes s v : fframe s (set_k_inodes v s).
Proof. exact (bio_frame_refl (set_k_inodes v s)). Qed.

Lemma fstep_trans (P P' : Z -> Prop) s1 i s2 s3 :
  fstep P s1 i s2 -> fstep P' s2 i s3 -> (forall b, P' b -> P b \/ used s1 b = false) -> fstep P s1 i s3.
Proof.
  intros [F1 L1 D1 N1 O1 U1 B1] [F2 L2 D2 N2 O2 U2 B2] HP. pose proof (fframe_sb _ _ F1) as Esb. rewrite Esb in *.
  split.
  - by eapply fframe_trans.
  - by eapply log_same_trans.
  - congruence.
  - congruence.
  - intros j Hj. by rewrite O2, O1.
  - auto.
  - intros b Hb Hu Hm Hp. rewrite B2; [by apply B1|done|by apply U1|done|].
    intros H'. destruct (HP b H') as [?|H]; [done|]. by rewrite Hu in H.
Qed.

Lemma fstep_weaken (P P' : Z -> Prop) s i s' : fstep P s i s' -> (forall b, P b -> P' b) -> fstep P' s i s'.
Proof. intros [] H. split; try done. intros b Hb Hu Hm Hp. apply fp_blk0; auto. Qed.

Lemma fstep_quiet P s bs s' bs' i : tstep s bs [] s' bs' -> fstep P s i s'.
Proof.
  intros S. pose proof (tstep_inodes _ _ _ _ _ S) as Ei.
  split; [by eapply fframe_tstep|apply S|apply S|by rewrite Ei| | |].
  - intros j _. unfold get_inode. by rewrite Ei.
  - intros b Hb Hu. unfold used in *. by rewrite (tstep_sb _ _ _ _ _ S), (ts_blk _ _ _ _ _ S).
  - intros b _ _ _ _. apply (ts_blk _ _ _ _ _ S).
Qed.

(** The logged blocks, counted so that the bitmap and the indirect block
    count once for all steps on a file. *)
Definition weight (s : kstate) (i : nat) (bs : list Z) : nat :=
  length bs + (if bool_decide (sb_bmapstart (k_sb s) ∈ bs) then 0 else 1) +
  (if bool_decide (indirect (get_inode s i) <> 0 /\ indirect (get_inode s i) ∈ bs) then 0 else 1).

(** ** New blocks *)

(** What a state has in common that was reached by allocating block [r]. *)
Record allocated (s : kstate) (r : Z) (s' : kstate) : Prop := {
  al_range : data_start (k_sb s) <= r < sb_size (k_sb s);
  al_free : used s r = false;
  al_bitmap : bitmap_ok s';
  al_sb : k_sb s' = k_sb s;
  al_used : forall b, 0 <= b < sb_size (k_sb s) -> used s' b = (b =? r) || used s b;
  al_zero : blk s' r = replicate (Z.to_nat BSIZE) 0
}.

Lemma allocated_data s r s' b :
  allocated s r s' -> data_ok s b -> blk s' b = blk s b -> data_ok s' b.
Proof.
  intros [Hr Hf B Esb U Z] (H1 & H2 & H3 & H4) E. pose proof (data_start_pos s') as Hp. rewrite Esb in Hp.
  assert (0 <= b) by (specialize (Hp (bm_layout _ B)); lia).
  unfold data_ok. rewrite Esb, E, U by lia. rewrite H2. by rewrite orb_true_r.
Qed.

Lemma allocated_new s r s' : allocated s r s' -> data_ok s' r.
Proof.
  intros [Hr Hf B Esb U Z]. pose proof (data_start_pos s') as Hp. rewrite Esb in Hp.
  assert (0 <= r) by (specialize (Hp (bm_layout _ B)); lia).
  unfold data_ok. rewrite Esb, Z, U, Z.eqb_refl by lia. split; [done|]. split; [done|]. split; [done|apply byte_list_replicate].
Qed.

(** The new block becomes block [bn] of the file. *)
Lemma attach_block s i r s' bn :
  file_ok s i -> allocated s r s' -> 0 <= bn < MAXFILE -> (i < length (k_inodes s'))%nat -> idisk s' (get_inode s' i) ->
  indirect (get_inode s' i) = indirect (get_inode s i) ->
  (forall b, data_ok s b -> b <> indirect (get_inode s i) -> blk s' b = blk s b) ->
  (indirect (get_inode s i) <> 0 -> data_ok s' (indirect (get_inode s i))) ->
  faddr s (get_inode s i) bn = 0 ->
  (forall bn', 0 <= bn' < MAXFILE ->
     faddr s' (get_inode s' i) bn' = if decide (bn' = bn) then r else faddr s (get_inode s i) bn') ->
  file_ok s' i /\ forall x, 0 <= x < MAXFILE * BSIZE -> fbyte s' (get_inode s' i) x = fbyte s (get_inode s i) x.
Proof.
  intros F A Hbn Hi D Hind Hblk Hinddata H0 Hf.
  destruct (data_not_meta s r (bm_layout _ (fo_bitmap _ _ F)) (fo_one _ _ F) (proj1 (al_range _ _ _ A))) as [Hrm Hr0].
  assert (Hfree : forall b, data_ok s b -> b <> r) by (intros b (_ & H & _) ->; by rewrite (al_free _ _ _ A) in H).
  split.
  - split; rewrite ?(al_sb _ _ _ A), ?Hind; [done|done|apply A|apply F|done| |].
    + intros bn' Hbn'. rewrite Hf by done. case_decide as E; intros Hne.
      * split; [by apply (allocated_new s)|]. intros E'. destruct (decide (indirect (get_inode s i) = 0)); [congruence|].
        by apply (Hfree (indirect (get_inode s i))); [apply (fo_ind _ _ F)|].
      * destruct (fo_addr _ _ F bn' Hbn' Hne) as [H1 H2]. split; [|done].
        apply (allocated_data s r); [done|done|]. by apply Hblk.
    + intros b1 b2 Hb1 Hb2. rewrite !Hf by done. repeat case_decide; subst; try done.
      * intros _ E. exfalso. destruct (decide (faddr s (get_inode s i) b2 = 0)); [congruence|].
        apply (Hfree (faddr s (get_inode s i) b2)); [by apply (fo_addr _ _ F b2)|done].
      * intros Hne E. exfalso. apply (Hfree (faddr s (get_inode s i) b1)); [by apply (fo_addr _ _ F b1)|done].
      * by apply (fo_inj _ _ F).
  - intros x Hx. assert (Hxb : 0 <= x / BSIZE < MAXFILE) by (unfold MAXFILE, NDIRECT, NINDIRECT, BSIZE in *; mlia).
    unfold fbyte. rewrite Hf by done. case_decide as E.
    + rewrite E, H0, (proj2 (Z.eqb_neq _ _) Hr0), (al_zero _ _ _ A). cbn [Z.eqb]. apply nth_zeroes.
    + destruct (Z.eqb_spec (faddr s (get_inode s i) (x / BSIZE)) 0) as [|Hne]; [done|].
      destruct (fo_addr _ _ F _ Hxb Hne) as [H1 H2]. by rewrite Hblk.
Qed.

(** [balloc] for a file. *)
Lemma balloc_file s bs held i :
  tx s bs held -> file_ok s i -> data_held s held -> room s bs held 2 ->
  exists r s' bs', balloc ROOTDEV s = Ok r s' /\ tx s' bs' held /\ keeps held s s' /\
    ((r = 0 /\ bs' = bs /\ (forall b, 0 <= b < sb_size (k_sb s) -> used s b = true) /\ tstep s bs [] s' bs) \/
     (r <> 0 /\ bs' = absorb (absorb bs (sb_bmapstart (k_sb s))) r /\ allocated s r s' /\
      (forall b, b <> r -> b <> sb_bmapstart (k_sb s) -> blk s' b = blk s b) /\
      tstep s bs (alloc_writes s r) s' bs')).
Proof.
  intros T F Hdh R. destruct (balloc_tx s bs held T (fo_bitmap _ _ F) Hdh R) as (r & s' & bs' & E & T' & Kp & Hr).
  exists r, s', bs'. split; [done|]. split; [done|]. split; [done|]. pose proof (bm_layout _ (fo_bitmap _ _ F)) as L.
  destruct Hr as [(-> & Hall & S)|(Hr & Hu & _ & S)].
  - left. assert (bs' = bs) as -> by apply S. done.
  - right. destruct (data_not_meta s r L (fo_one _ _ F) (proj1 Hr)) as [_ Hr0].
    assert (Eb : BBLOCK r (k_sb s) = sb_bmapstart (k_sb s)).
    { apply BBLOCK_one; [done|apply F|]. pose proof (data_start_pos s L). lia. }
    destruct (alloc_bitmap s bs r s' bs' (fo_bitmap _ _ F) Hr S) as (B' & U' & Hz & Ho). rewrite Eb in Ho.
    split; [done|]. split; [|split; [|split; [done|done]]].
    + rewrite (ts_bs _ _ _ _ _ S). unfold alloc_writes. rewrite Eb. done.
    + split; try done. by eapply tstep_sb.
Qed.

Lemma bitmap_ok_inodes v s : bitmap_ok s -> bitmap_ok (set_k_inodes v s).
Proof. intros [L B M]. split; [by apply (fs_layout_frame s)|exact B|exact M]. Qed.

Lemma allocated_inodes s r s' v : allocated s r s' -> allocated s r (set_k_inodes v s').
Proof. intros [H1 H2 H3 H4 H5 H6]. split; [done|done|by apply bitmap_ok_inodes|done|exact H5|exact H6]. Qed.

Definition take_slot (i k : nat) : K Z :=
  let! addr := balloc ROOTDEV in
  if addr =? 0 then ret 0 else set_addr i k addr ;;; ret addr.

(** A new block in slot [k] of the inode's addresses. *)
Lemma slot_tx s bs i k :
  tx s bs [] -> file_ok s i -> room s bs [] 2 ->
  exists r s' bs', take_slot i k s = Ok r s' /\ tx s' bs' [] /\
    ((r = 0 /\ bs' = bs /\ (forall b, 0 <= b < sb_size (k_sb s) -> used s b = true) /\ tstep s bs [] s' bs) \/
     (r <> 0 /\ bs' = absorb (absorb bs (sb_bmapstart (k_sb s))) r /\ allocated s r s' /\
      (forall b, b <> r -> b <> sb_bmapstart (k_sb s) -> blk s' b = blk s b) /\
      fstep (fun _ => False) s i s' /\
      get_inode s' i = set_i_addrs (<[k := r]> (i_addrs (get_inode s i))) (get_inode s i))).
Proof.
  intros T F R. destruct (balloc_file s bs [] i T F) as (r & s1 & bs1 & E & T1 & _ & Hr); [by intros b ?%not_elem_of_nil|done|].
  unfold take_slot. rewrite (bind_ok _ _ _ _ _ E).
  destruct Hr as [(-> & -> & Hall & S)|(Hr & Hbs & A & Ho & S)].
  - exists 0, s1, bs. cbn. split; [done|]. split; [done|]. by left.
  - rewrite (proj2 (Z.eqb_neq _ _) Hr). unfold set_addr, inode_set. rewrite bind_modify.
    set (g := fun ip => set_i_addrs (<[k := r]> (i_addrs ip)) ip). exists r, (upd_inode i g s1), bs1.
    split; [done|]. split; [by apply tx_inodes|]. right. split; [done|]. split; [done|].
    pose proof (tstep_inodes _ _ _ _ _ S) as Ei.
    assert (A' : allocated s r (upd_inode i g s1)) by (by apply allocated_inodes).
    split; [done|]. split; [done|]. split.
    + split; [|apply S|apply S| | | |].
      * eapply fframe_trans; [by eapply fframe_tstep|]. apply fframe_inodes.
      * by rewrite length_upd_inode, Ei.
      * intros j Hj. rewrite get_upd_inode_other by done. unfold get_inode. by rewrite Ei.
      * intros b Hb Hu. rewrite (al_used _ _ _ A') by done. by rewrite Hu, orb_true_r.
      * intros b Hb Hu Hm _. change (blk s1 b = blk s b). apply Ho; [|done]. intros ->. by rewrite (al_free _ _ _ A) in Hu.
    + rewrite get_upd_inode_same by (rewrite Ei; apply F). unfold get_inode. by rewrite Ei.
Qed.

Lemma idisk_addrs s s' ip k r :
  idisk s ip -> k_sb s' = k_sb s -> 0 <= r < 2 ^ 32 -> idisk s' (set_i_addrs (<[k := r]> (i_addrs ip)) ip).
Proof.
  intros [D1 D2 [H1 H2 H3 H4 H5 H6 H7]] E Hr. split; rewrite ?E; try done. split; try done; cbn.
  - by rewrite length_insert.
  - by apply Forall_insert.
Qed.

Lemma allocated_u32 s r s' : fs_layout s -> allocated s r s' -> 0 < r < 2 ^ 32.
Proof.
  intros L A. pose proof (data_start_pos s L). pose proof (fl_size _ L). pose proof (al_range _ _ _ A). lia.
Qed.

(** Slot [bn] of the direct blocks. *)
Lemma direct_attach s i r s' bn :
  file_ok s i -> allocated s r s' -> 0 <= bn < NDIRECT -> nth (Z.to_nat bn) (i_addrs (get_inode s i)) 0 = 0 ->
  (forall b, b <> r -> b <> sb_bmapstart (k_sb s) -> blk s' b = blk s b) -> length (k_inodes s') = length (k_inodes s) ->
  get_inode s' i = set_i_addrs (<[Z.to_nat bn := r]> (i_addrs (get_inode s i))) (get_inode s i) ->
  (file_ok s' i /\ forall x, 0 <= x < MAXFILE * BSIZE -> fbyte s' (get_inode s' i) x = fbyte s (get_inode s i) x) /\
  indirect (get_inode s' i) = indirect (get_inode s i) /\
  forall bn', 0 <= bn' < MAXFILE ->
     faddr s' (get_inode s' i) bn' = if decide (bn' = bn) then r else faddr s (get_inode s i) bn'.
Proof.
  intros F A Hbn H0 Hblk Hlen Hip. pose proof (bm_layout _ (fo_bitmap _ _ F)) as L.
  assert (Hl13 : length (i_addrs (get_inode s i)) = 13%nat) by apply F.
  assert (Hind : indirect (get_inode s' i) = indirect (get_inode s i)).
  { rewrite Hip. unfold indirect. cbn. rewrite nth_insert_ne; [done|]. unfold NDIRECT in *. lia. }
  assert (Hd : forall b, data_ok s b -> blk s' b = blk s b).
  { intros b (H1 & H2 & _). apply Hblk; [intros ->; by rewrite (al_free _ _ _ A) in H2|].
    apply (data_not_meta s b L (fo_one _ _ F) (proj1 H1)). }
  assert (Hf : forall bn', 0 <= bn' < MAXFILE ->
     faddr s' (get_inode s' i) bn' = if decide (bn' = bn) then r else faddr s (get_inode s i) bn').
  { intros bn' Hb'. unfold faddr. rewrite Hind. destruct (Z.ltb_spec bn' NDIRECT).
    - rewrite Hip. cbn. case_decide as E.
      + subst bn'. rewrite nth_insert_eq; [done|]. unfold NDIRECT in *. lia.
      + rewrite nth_insert_ne; [done|]. lia.
    - rewrite decide_False by lia. destruct (Z.eqb_spec (indirect (get_inode s i)) 0) as [|Hne]; [done|].
      rewrite Hd; [done|]. by apply (fo_ind _ _ F). }
  split; [|done]. apply (attach_block s i r s' bn); try done.
  - unfold MAXFILE, NINDIRECT, BSIZE. change (1024 / 4) with 256. lia.
  - rewrite Hlen. apply F.
  - rewrite Hip. apply (idisk_addrs s); [apply F|apply A|]. pose proof (allocated_u32 s r s' L A). lia.
  - intros b H1 _. by apply Hd.
  - intros Hne. apply (allocated_data s r); [done|by apply (fo_ind _ _ F)|]. by apply Hd, (fo_ind _ _ F).
  - unfold faddr. by rewrite (proj2 (Z.ltb_lt _ _)) by lia.
Qed.

(** The slot of the indirect block. *)
Lemma indirect_attach s i r s' :
  file_ok s i -> allocated s r s' -> indirect (get_inode s i) = 0 ->
  (forall b, b <> r -> b <> sb_bmapstart (k_sb s) -> blk s' b = blk s b) -> length (k_inodes s') = length (k_inodes s) ->
  get_inode s' i = set_i_addrs (<[Z.to_nat NDIRECT := r]> (i_addrs (get_inode s i))) (get_inode s i) ->
  file_ok s' i /\ indirect (get_inode s' i) = r /\
  (forall bn, 0 <= bn < MAXFILE -> faddr s' (get_inode s' i) bn = faddr s (get_inode s i) bn) /\
  (forall x, 0 <= x < MAXFILE * BSIZE -> fbyte s' (get_inode s' i) x = fbyte s (get_inode s i) x).
Proof.
  intros F A H0 Hblk Hlen Hip. pose proof (bm_layout _ (fo_bitmap _ _ F)) as L.
  pose proof (allocated_u32 s r s' L A) as Hr32.
  assert (Hl13 : length (i_addrs (get_inode s i)) = 13%nat) by apply F.
  assert (Hind : indirect (get_inode s' i) = r).
  { rewrite Hip. unfold indirect. cbn. rewrite nth_insert_eq; [done|]. unfold NDIRECT. lia. }
  assert (Hfree : forall b, data_ok s b -> b <> r) by (intros b (_ & H & _) ->; by rewrite (al_free _ _ _ A) in H).
  assert (Hd : forall b, data_ok s b -> blk s' b = blk s b).
  { intros b Hb. apply Hblk; [by apply Hfree|]. apply (data_not_meta s b L (fo_one _ _ F) (proj1 (proj1 Hb))). }
  assert (Hf : forall bn, 0 <= bn < MAXFILE -> faddr s' (get_inode s' i) bn = faddr s (get_inode s i) bn).
  { intros bn Hbn. unfold faddr. rewrite Hind, H0. destruct (Z.ltb_spec bn NDIRECT).
    - rewrite Hip. cbn. rewrite nth_insert_ne; [done|]. unfold NDIRECT in *. lia.
    - rewrite (proj2 (Z.eqb_neq _ _)) by lia. rewrite (al_zero _ _ _ A). apply get_le_zeroes. }
  split; [|split; [done|split; [done|]]].
  - split; rewrite ?(al_sb _ _ _ A), ?Hind; [| |apply A|apply F| | |].
    + rewrite Hlen. apply F.
    + rewrite Hip. apply (idisk_addrs s); [apply F|apply A|lia].
    + intros _. by apply (allocated_new s).
    + intros bn Hbn. rewrite Hf by done. intros Hne. destruct (fo_addr _ _ F bn Hbn Hne) as [H1 H2].
      split; [apply (allocated_data s r); [done|done|by apply Hd]|by apply Hfree].
    + intros bn bn' Hbn Hbn'. rewrite !Hf by done. by apply (fo_inj _ _ F).
  - intros x Hx. assert (Hxb : 0 <= x / BSIZE < MAXFILE) by (unfold MAXFILE, NDIRECT, NINDIRECT, BSIZE in *; mlia).
    unfold fbyte. rewrite Hf by done. destruct (Z.eqb_spec (faddr s (get_inode s i) (x / BSIZE)) 0) as [|Hne]; [done|].
    rewrite Hd; [done|]. by apply (fo_addr _ _ F).
Qed.

(** A data block is written: the bitmap is as before. *)
Lemma bitmap_ok_data s s' b0 :
  bitmap_ok s -> fs_layout s' -> k_sb s' = k_sb s -> data_start (k_sb s) <= b0 ->
  (forall b, b <> b0 -> blk s' b = blk s b) ->
  bitmap_ok s' /\ forall b, 0 <= b < sb_size (k_sb s) -> used s' b = used s b.
Proof.
  intros [L Hb Hm] L' E Hd Hblk.
  assert (Hx : forall b, 0 <= b < sb_size (k_sb s) -> blk s' (BBLOCK b (k_sb s)) = blk s (BBLOCK b (k_sb s))).
  { intros b Hbr. destruct (BBLOCK_eq s b L Hbr) as [_ H]. apply Hblk. lia. }
  assert (Hu : forall b, 0 <= b < sb_size (k_sb s) -> used s' b = used s b)
    by (intros b H; unfold used; by rewrite E, Hx).
  split; [|done]. split; [done| |].
  - intros b H. rewrite E in *. rewrite Hx by done. by apply Hb.
  - intros b H. rewrite E in *. rewrite Hu; [by apply Hm|]. pose proof (fl_data _ L). lia.
Qed.

(** An entry of the indirect block. *)
Definition take_entry (i : nat) (ind e : Z) : K Z :=
  let! bp := bread ROOTDEV ind in
  let! d := bdata bp in
  let addr := get32 d (Z.to_nat (4 * e)) in
  let! addr :=
    (if addr =? 0 then
       let! addr := balloc ROOTDEV in
       (if addr =? 0 then ret tt
        else set_bdata bp (put32 d (Z.to_nat (4 * e)) addr) ;;; log_write bp) ;;;
       ret addr
     else ret addr) in
  brelse bp ;;;
  ret addr.

Lemma entry_tx s bs i e :
  let ind := indirect (get_inode s i) in
  tx s bs [] -> file_ok s i -> room s bs [] 4 -> ind <> 0 -> get32 (blk s ind) (Z.to_nat (4 * e)) = 0 ->
  exists r s' bs', take_entry i ind e s = Ok r s' /\ tx s' bs' [] /\
    ((r = 0 /\ bs' = bs /\ (forall b, 0 <= b < sb_size (k_sb s) -> used s b = true) /\ tstep s bs [] s' bs) \/
     (r <> 0 /\ bs' = absorb (absorb (absorb bs (sb_bmapstart (k_sb s))) r) ind /\ allocated s r s' /\
      (forall b, b <> r -> b <> sb_bmapstart (k_sb s) -> b <> ind -> blk s' b = blk s b) /\
      blk s' ind = put32 (blk s ind) (Z.to_nat (4 * e)) r /\
      fstep (fun b => b = ind) s i s' /\ k_inodes s' = k_inodes s)).
Proof.
  intros ind T F R Hind H0. pose proof (bm_layout _ (fo_bitmap _ _ F)) as L.
  pose proof (fo_ind _ _ F Hind : data_ok s ind) as Dind.
  destruct (tx_bread s bs [] ind T (not_elem_of_nil _)) as (j & s1 & E1 & T1 & I1 & D1 & S1 & _ & H1).
  { destruct R. cbn in *. lia. }
  unfold take_entry. rewrite E1. unfold bdata. rewrite bind_gets, D1, H0. cbn [Z.eqb].
  destruct (file_ok_quiet _ _ _ _ i S1 F) as (F1 & Ei1 & _).
  pose proof (tstep_sb _ _ _ _ _ S1) as Esb1.
  assert (U1 : forall b, used s1 b = used s b) by (by eapply bitmap_ok_quiet; [exact S1|apply F]).
  destruct (balloc_file s1 bs [ind] i T1 F1) as (r & s2 & bs2 & E2 & T2 & K2 & Hr).
  { intros b ->%list_elem_of_singleton. rewrite Esb1, U1. split; apply Dind. }
  { destruct R as [R1 R2 R3]. destruct (ts_log _ _ _ _ _ S1) as (_ & El & Eo & _).
    split; rewrite ?El, ?Eo; cbn in *; lia. }
  rewrite bind_assoc, (bind_ok _ _ _ _ _ E2). rewrite Esb1 in Hr.
  assert (I2 : is_buf s2 j ind) by (apply K2; [done|left]).
  destruct Hr as [(-> & -> & Hall & S2)|(Hr & Hbs & A & Ho & S2)].
  - cbn [Z.eqb]. rewrite bind_assoc, bind_ret, bind_ret.
    destruct (tx_brelse s2 bs [] ind j T2 (not_elem_of_nil _) I2) as (s3 & E3 & T3 & S3 & _).
    { destruct H1 as [|H1]; [by left|right]. unfold disk_blk in *. rewrite (ts_blk _ _ _ _ _ S2), (ts_disk _ _ _ _ _ S2). done. }
    rewrite (bind_ok _ _ _ _ _ E3). exists 0, s3, bs. split; [done|]. split; [done|]. left. split; [done|]. split; [done|].
    split; [intros b Hb; rewrite <- U1; by apply Hall|]. eapply tstep_nil_l; [exact S1|]. by eapply tstep_nil_l.
  - rewrite (proj2 (Z.eqb_neq _ _) Hr). pose proof (bm_layout _ (fo_bitmap _ _ F1)) as L1.
    assert (Hindr : ind <> r) by (intros ->; destruct Dind as (_ & H & _); by rewrite <- U1, (al_free _ _ _ A) in H).
    assert (Hindm : ind <> sb_bmapstart (k_sb s)) by apply (data_not_meta s ind L (fo_one _ _ F) (proj1 (proj1 Dind))).
    set (d := put32 (blk s ind) (Z.to_nat (4 * e)) r).
    destruct (tx_set_data s2 bs2 [ind] j ind d T2 I2 ltac:(left)) as (s3 & E3 & T3 & I3 & S3 & _).
    { destruct (home_data s ind L (proj1 Dind)) as [Hh1 Hh2]. split; [done|].
      by rewrite (tstep_in_log _ _ _ _ _ _ S2), (tstep_in_log _ _ _ _ _ _ S1). }
    { destruct R as [R1 R2 R3]. destruct (ts_log _ _ _ _ _ S1) as (_ & El & Eo & _).
      destruct (ts_log _ _ _ _ _ S2) as (_ & El2 & Eo2 & _). pose proof (ts_len _ _ _ _ _ S2) as Hl. cbn in Hl.
      split; rewrite ?El2, ?Eo2, ?El, ?Eo; cbn in *; lia. }
    rewrite bind_assoc.
    assert (E3' : (set_bdata j d ;;; log_write j) s2 = Ok tt s3).
    { transitivity ((set_bdata j d ;;; log_write j ;;; ret tt) s2); [|apply E3].
      unfold set_bdata. rewrite !bind_modify. symmetry. apply bind_ret_tt. }
    rewrite (bind_ok _ _ _ _ _ E3'), bind_ret.
    destruct (tx_brelse s3 (absorb bs2 ind) [] ind j T3 (not_elem_of_nil _) I3) as (s4 & E4 & T4 & S4 & _).
    { left. apply elem_of_absorb. by right. }
    rewrite (bind_ok _ _ _ _ _ E4). exists r, s4, (absorb bs2 ind). split; [done|]. split; [done|]. right.
    assert (S24 : tstep s2 bs2 [(ind, d)] s4 (absorb bs2 ind)) by (by eapply tstep_nil_r).
    pose proof (tstep_sb _ _ _ _ _ S24) as Esb4.
    assert (Hb24 : forall b, b <> ind -> blk s4 b = blk s2 b).
    { intros b Hb. rewrite (ts_blk _ _ _ _ _ S24). apply upds_not. cbn. by rewrite list_elem_of_singleton. }
    assert (Hb : forall b, b <> r -> b <> sb_bmapstart (k_sb s) -> b <> ind -> blk s4 b = blk s b).
    { intros b B1 B2 B3. rewrite Hb24, Ho by done. apply (ts_blk _ _ _ _ _ S1). }
    destruct (bitmap_ok_data s2 s4 ind (al_bitmap _ _ _ A)) as [B4 U4]; [|done| |done|].
    { eapply fs_layout_step; [exact S24|]. apply A. }
    { rewrite (al_sb _ _ _ A), Esb1. apply Dind. }
    assert (A4 : allocated s r s4).
    { split; [rewrite <- Esb1; apply A|rewrite <- U1; apply A|done|by rewrite Esb4, (al_sb _ _ _ A)| |].
      - intros b Hbr. rewrite U4 by (rewrite (al_sb _ _ _ A), Esb1; done).
        rewrite (al_used _ _ _ A), U1 by (by rewrite Esb1). done.
      - rewrite Hb24 by done. apply A. }
    split; [done|]. split; [by rewrite Hbs|]. split; [done|]. split; [done|].
    assert (Ein : k_inodes s4 = k_inodes s).
    { rewrite (tstep_inodes _ _ _ _ _ S24), (tstep_inodes _ _ _ _ _ S2). apply (tstep_inodes _ _ _ _ _ S1). }
    split; [rewrite (ts_blk _ _ _ _ _ S24); apply upds_one|]. split; [|done].
    assert (S04 := tstep_trans _ _ _ _ _ _ _ _ (tstep_nil_l _ _ _ _ _ _ _ S1 S2) S24).
    split; [by eapply fframe_tstep|apply S04|apply S04|by rewrite Ein| | |].
    + intros k _. unfold get_inode. by rewrite Ein.
    + intros b Hbr Hu. rewrite (al_used _ _ _ A4) by done. by rewrite Hu, orb_true_r.
    + intros b Hbr Hu Hm Hp. apply Hb; [|done|done]. intros ->. by rewrite (al_free _ _ _ A4) in Hu.
Qed.

Lemma entry_attach s i r s' bn :
  let ind := indirect (get_inode s i) in
  file_ok s i -> allocated s r s' -> NDIRECT <= bn < MAXFILE -> ind <> 0 -> faddr s (get_inode s i) bn = 0 ->
  (forall b, b <> r -> b <> sb_bmapstart (k_sb s) -> b <> ind -> blk s' b = blk s b) ->
  blk s' ind = put32 (blk s ind) (Z.to_nat (4 * (bn - NDIRECT))) r -> k_inodes s' = k_inodes s ->
  (file_ok s' i /\ forall x, 0 <= x < MAXFILE * BSIZE -> fbyte s' (get_inode s' i) x = fbyte s (get_inode s i) x) /\
  forall bn', 0 <= bn' < MAXFILE ->
     faddr s' (get_inode s' i) bn' = if decide (bn' = bn) then r else faddr s (get_inode s i) bn'.
Proof.
  intros ind F A Hbn Hind H0 Hblk Hput Ein. pose proof (bm_layout _ (fo_bitmap _ _ F)) as L.
  pose proof (allocated_u32 s r s' L A) as Hr32. pose proof (fo_ind _ _ F Hind : data_ok s ind) as Dind.
  assert (Eip : get_inode s' i = get_inode s i) by (unfold get_inode; by rewrite Ein).
  assert (Hfree : forall b, data_ok s b -> b <> r) by (intros b (_ & H & _) ->; by rewrite (al_free _ _ _ A) in H).
  assert (Hl : length (blk s ind) = 1024%nat) by apply Dind.
  assert (Hm : NDIRECT + 256 = MAXFILE) by reflexivity.
  assert (Hf : forall bn', 0 <= bn' < MAXFILE ->
     faddr s' (get_inode s' i) bn' = if decide (bn' = bn) then r else faddr s (get_inode s i) bn').
  { intros bn' Hb'. rewrite Eip. unfold faddr. fold ind. rewrite (proj2 (Z.eqb_neq _ _) Hind), Hput.
    destruct (Z.ltb_spec bn' NDIRECT); [by rewrite decide_False by lia|]. unfold get32, put32. case_decide as E.
    - subst bn'. rewrite get_put_le_same by lia. apply Z.mod_small. change (256 ^ Z.of_nat 4) with (2 ^ 32). lia.
    - apply get_put_le_other. lia. }
  split; [|done]. apply (attach_block s i r s' bn); try done.
  - unfold NDIRECT in *. lia.
  - rewrite Ein. apply F.
  - rewrite Eip. destruct (fo_disk _ _ F). split; rewrite ?(al_sb _ _ _ A); done.
  - by rewrite Eip.
  - intros b Hb Hne. apply Hblk; [by apply Hfree| |done]. apply (data_not_meta s b L (fo_one _ _ F) (proj1 (proj1 Hb))).
  - intros _. fold ind. destruct Dind as (D1 & D2 & D3 & D4). pose proof (data_start_pos s L).
    unfold data_ok. rewrite (al_sb _ _ _ A), Hput, (al_used _ _ _ A), D2, orb_true_r by lia.
    split; [done|]. split; [done|]. unfold put32. rewrite length_put_le. split; [done|by apply byte_list_put_le].
Qed.

(** ** [bmap] *)

(** The outcome of [bmap]: block [bn] of the file is block [r] of the disk,
    or the disk is full and [r] is 0. *)
Record bmapped (s : kstate) (bs : list Z) (i : nat) (bn r : Z) (s' : kstate) (bs' : list Z) : Prop := {
  bp_tx : tx s' bs' [];
  bp_ok : file_ok s' i;
  bp_step : fstep (fun b => b = indirect (get_inode s i)) s i s';
  bp_ip : exists a, get_inode s' i = set_i_addrs a (get_inode s i);
  bp_addr : faddr s' (get_inode s' i) bn = r;
  bp_rest : forall bn', 0 <= bn' < MAXFILE -> bn' <> bn -> faddr s' (get_inode s' i) bn' = faddr s (get_inode s i) bn';
  bp_old : faddr s (get_inode s i) bn <> 0 -> r = faddr s (get_inode s i) bn;
  bp_new : faddr s (get_inode s i) bn = 0 -> r = 0 \/ used s r = false;
  bp_bytes : forall x, 0 <= x < MAXFILE * BSIZE -> fbyte s' (get_inode s' i) x = fbyte s (get_inode s i) x;
  bp_full : r = 0 -> forall b, 0 <= b < sb_size (k_sb s) -> used s' b = true;
  bp_ind : indirect (get_inode s' i) = indirect (get_inode s i) \/
           (indirect (get_inode s i) = 0 /\ used s (indirect (get_inode s' i)) = false);
  bp_weight : if decide (r = 0) then (weight s' i bs' <= weight s i bs)%nat
              else (weight s' i (absorb bs' r) <= weight s i bs + 1)%nat
}.

Lemma in_absorb x bs b : bool_decide (x ∈ absorb bs b) = bool_decide (x = b) || bool_decide (x ∈ bs).
Proof.
  apply eq_bool_prop_intro. rewrite orb_True, !bool_decide_spec, elem_of_absorb. tauto.
Qed.

Lemma in_absorb_nz x bs b :
  bool_decide (x <> 0 /\ x ∈ absorb bs b) = bool_decide (x <> 0) && (bool_decide (x = b) || bool_decide (x ∈ bs)).
Proof. by rewrite bool_decide_and, in_absorb. Qed.

Lemma bmapped_full s bs i bn s' :
  file_ok s i -> faddr s (get_inode s i) bn = 0 -> tx s' bs [] -> (forall b, 0 <= b < sb_size (k_sb s) -> used s b = true) ->
  tstep s bs [] s' bs -> bmapped s bs i bn 0 s' bs.
Proof.
  intros F H0 T Hall S. destruct (file_ok_quiet _ _ _ _ i S F) as (F' & Ei & Hf & Hy).
  refine (Build_bmapped _ _ _ _ _ _ _ T F' (fstep_quiet _ _ _ _ _ _ S) _ _ _ _ _ _ _ _ _).
  - exists (i_addrs (get_inode s i)). by rewrite Ei.
  - by rewrite Hf.
  - intros bn' _ _. apply Hf.
  - done.
  - by left.
  - intros x _. apply Hy.
  - intros _ b Hb. unfold used. rewrite (tstep_sb _ _ _ _ _ S), (ts_blk _ _ _ _ _ S). by apply Hall.
  - left. by rewrite Ei.
  - rewrite decide_True by done. unfold weight. by rewrite Ei, (tstep_sb _ _ _ _ _ S).
Qed.

Lemma bmap_hit_tx s bs i bn :
  tx s bs [] -> (length bs < NBUF)%nat -> file_ok s i -> 0 <= bn < MAXFILE -> faddr s (get_inode s i) bn <> 0 ->
  exists s', bmap i bn s = Ok (faddr s (get_inode s i) bn) s' /\ bmapped s bs i bn (faddr s (get_inode s i) bn) s' bs.
Proof.
  intros T Hn F Hbn Ha. destruct (bmap_hit s bs i bn T Hn F Hbn Ha) as (s' & E & T' & S).
  exists s'. split; [done|]. destruct (file_ok_quiet _ _ _ _ i S F) as (F' & Ei & Hf & Hy).
  refine (Build_bmapped _ _ _ _ _ _ _ T' F' (fstep_quiet _ _ _ _ _ _ S) _ _ _ _ _ _ _ _ _).
  - exists (i_addrs (get_inode s i)). by rewrite Ei.
  - apply Hf.
  - intros bn' _ _. apply Hf.
  - done.
  - done.
  - intros x _. apply Hy.
  - done.
  - left. by rewrite Ei.
  - rewrite decide_False by done. destruct (fo_addr _ _ F bn Hbn Ha) as [Hd Hne].
    assert (faddr s (get_inode s i) bn <> sb_bmapstart (k_sb s))
      by apply (data_not_meta s _ (bm_layout _ (fo_bitmap _ _ F)) (fo_one _ _ F) (proj1 (proj1 Hd))).
    unfold weight. rewrite Ei, (tstep_sb _ _ _ _ _ S), absorb_length, (in_absorb (sb_bmapstart _)), in_absorb_nz, bool_decide_and.
    rewrite !(bool_decide_eq_false_2 (_ = faddr _ _ _)) by congruence. cbn [orb]. repeat case_bool_decide; cbn [andb]; lia.
Qed.

Lemma bmap_direct_tx s bs i bn :
  tx s bs [] -> file_ok s i -> room s bs [] 2 -> 0 <= bn < NDIRECT -> faddr s (get_inode s i) bn = 0 ->
  exists r s' bs', take_slot i (Z.to_nat bn) s = Ok r s' /\ bmapped s bs i bn r s' bs'.
Proof.
  intros T F R Hbn H0. destruct (slot_tx s bs i (Z.to_nat bn) T F R) as (r & s' & bs' & E & T' & Hr).
  exists r, s', bs'. split; [done|]. destruct Hr as [(-> & -> & Hall & S)|(Hr & -> & A & Ho & S & Hip)].
  { by apply bmapped_full. }
  assert (H0' : nth (Z.to_nat bn) (i_addrs (get_inode s i)) 0 = 0).
  { unfold faddr in H0. by rewrite (proj2 (Z.ltb_lt _ _)) in H0 by lia. }
  destruct (direct_attach s i r s' bn F A Hbn H0' Ho (fp_len _ _ _ _ S) Hip) as ([F' Hy] & Hind & Hf).
  assert (HM : NDIRECT + 256 = MAXFILE) by reflexivity.
  destruct (data_not_meta s r (bm_layout _ (fo_bitmap _ _ F)) (fo_one _ _ F) (proj1 (al_range _ _ _ A))) as [Hrm _].
  refine (Build_bmapped _ _ _ _ _ _ _ T' F' _ _ _ _ _ _ Hy _ _ _).
  - by eapply fstep_weaken.
  - by eexists.
  - rewrite Hf, decide_True by lia. done.
  - intros bn' Hb Hne. by rewrite Hf, decide_False.
  - done.
  - intros _. right. apply A.
  - done.
  - by left.
  - rewrite decide_False by done. unfold weight. rewrite Hind, (al_sb _ _ _ A).
    assert (Hi : indirect (get_inode s i) <> 0 -> indirect (get_inode s i) <> r /\ indirect (get_inode s i) <> sb_bmapstart (k_sb s)).
    { intros Hn. destruct (fo_ind _ _ F Hn) as (D1 & D2 & _). split; [intros E'; by rewrite E', (al_free _ _ _ A) in D2|].
      apply (data_not_meta s _ (bm_layout _ (fo_bitmap _ _ F)) (fo_one _ _ F) (proj1 D1)). }
    rewrite !absorb_length, !in_absorb, !in_absorb_nz, !in_absorb, bool_decide_and.
    rewrite (bool_decide_eq_false_2 (r = sb_bmapstart (k_sb s))), (bool_decide_eq_true_2 (r = r)),
      (bool_decide_eq_true_2 (sb_bmapstart (k_sb s) = sb_bmapstart (k_sb s))) by done.
    rewrite ?orb_true_r. cbn [orb]. repeat case_bool_decide; cbn [orb andb]; try lia; tauto.
Qed.

Lemma bmap_entry_tx s bs i bn :
  let ind := indirect (get_inode s i) in
  tx s bs [] -> file_ok s i -> room s bs [] 4 -> NDIRECT <= bn < MAXFILE -> ind <> 0 -> faddr s (get_inode s i) bn = 0 ->
  exists r s' bs', take_entry i ind (bn - NDIRECT) s = Ok r s' /\ bmapped s bs i bn r s' bs'.
Proof.
  intros ind T F R Hbn Hind H0. pose proof (bm_layout _ (fo_bitmap _ _ F)) as L.
  assert (H0' : get32 (blk s ind) (Z.to_nat (4 * (bn - NDIRECT))) = 0).
  { unfold faddr in H0. fold ind in H0. by rewrite (proj2 (Z.ltb_ge _ _)), (proj2 (Z.eqb_neq _ _) Hind) in H0 by lia. }
  destruct (entry_tx s bs i (bn - NDIRECT) T F R Hind H0') as (r & s' & bs' & E & T' & Hr).
  exists r, s', bs'. split; [done|]. destruct Hr as [(-> & -> & Hall & S)|(Hr & -> & A & Ho & Hput & S & Ein)].
  { by apply bmapped_full. }
  destruct (entry_attach s i r s' bn F A Hbn Hind H0 Ho Hput Ein) as ([F' Hy] & Hf).
  assert (Eip : get_inode s' i = get_inode s i) by (unfold get_inode; by rewrite Ein).
  destruct (data_not_meta s r L (fo_one _ _ F) (proj1 (al_range _ _ _ A))) as [Hrm _].
  pose proof (fo_ind _ _ F Hind : data_ok s ind) as (D1 & D2 & _).
  assert (Hir : ind <> r) by (intros E'; by rewrite E', (al_free _ _ _ A) in D2).
  assert (Him : ind <> sb_bmapstart (k_sb s)) by apply (data_not_meta s _ L (fo_one _ _ F) (proj1 D1)).
  assert (HM : 0 <= NDIRECT) by done.
  refine (Build_bmapped _ _ _ _ _ _ _ T' F' S _ _ _ _ _ Hy _ _ _).
  - exists (i_addrs (get_inode s i)). by rewrite Eip.
  - rewrite Hf, decide_True by lia. done.
  - intros bn' Hb Hne. by rewrite Hf, decide_False.
  - done.
  - intros _. right. apply A.
  - done.
  - left. by rewrite Eip.
  - rewrite decide_False by done. unfold weight. rewrite Eip, (al_sb _ _ _ A). fold ind.
    rewrite !absorb_length, !in_absorb, !in_absorb_nz, !in_absorb, bool_decide_and.
    rewrite (bool_decide_eq_false_2 (r = sb_bmapstart (k_sb s))), (bool_decide_eq_true_2 (r = r)),
      (bool_decide_eq_true_2 (sb_bmapstart (k_sb s) = sb_bmapstart (k_sb s))), (bool_decide_eq_false_2 (r = ind)),
      (bool_decide_eq_true_2 (ind = ind)), (bool_decide_eq_true_2 (ind <> 0)) by congruence.
    rewrite ?orb_true_r. cbn [orb andb]. repeat case_bool_decide; cbn [orb andb]; try lia; congruence.
Qed.

(** An indirect block is allocated first. *)
Lemma bmapped_indirect s bs i bn r1 s1 bs1 r s' bs' :
  file_ok s i -> indirect (get_inode s i) = 0 -> NDIRECT <= bn < MAXFILE ->
  bs1 = absorb (absorb bs (sb_bmapstart (k_sb s))) r1 -> allocated s r1 s1 ->
  fstep (fun _ => False) s i s1 -> file_ok s1 i -> indirect (get_inode s1 i) = r1 ->
  (exists a, get_inode s1 i = set_i_addrs a (get_inode s i)) ->
  (forall bn, 0 <= bn < MAXFILE -> faddr s1 (get_inode s1 i) bn = faddr s (get_inode s i) bn) ->
  (forall x, 0 <= x < MAXFILE * BSIZE -> fbyte s1 (get_inode s1 i) x = fbyte s (get_inode s i) x) ->
  bmapped s1 bs1 i bn r s' bs' -> bmapped s bs i bn r s' bs'.
Proof.
  intros F H0 Hbn Hbs1 A1 S1 F1 Hi1 [a Hip1] Hf1 Hy1 [T' F' S' [a' Hip'] Ha Hrest Hold Hnew Hy Hfull Hind Hw].
  pose proof (al_sb _ _ _ A1) as Esb. pose proof (bm_layout _ (fo_bitmap _ _ F)) as L.
  assert (Hr1 : r1 <> 0) by (pose proof (allocated_u32 s r1 s1 L A1); lia).
  assert (Hind' : indirect (get_inode s' i) = r1) by (destruct Hind as [->|[? _]]; congruence).
  assert (HM : 0 <= NDIRECT) by done.
  refine (Build_bmapped _ _ _ _ _ _ _ T' F' _ _ Ha _ _ _ _ _ _ _).
  - apply (fstep_trans _ (fun b => b = indirect (get_inode s1 i)) s i s1); [by eapply fstep_weaken|done|].
    intros b ->. right. rewrite Hi1. apply A1.
  - exists a'. rewrite Hip', Hip1. done.
  - intros bn' Hb Hne. by rewrite Hrest, Hf1.
  - rewrite <- Hf1 by lia. done.
  - rewrite <- Hf1 by lia. intros H. destruct (Hnew H) as [?|Hu]; [by left|right].
    destruct (used s r) eqn:E; [|done].
    destruct (decide (0 <= r < sb_size (k_sb s))) as [Hrr|Hrr].
    { rewrite (al_used _ _ _ A1), E, orb_true_r in Hu by done. done. }
    exfalso. rewrite <- Ha in Hrr. destruct (decide (r = 0)) as [->|Hr0].
    { rewrite Ha in Hrr. pose proof (fl_size _ L). lia. }
    destruct (fo_addr _ _ F' bn) as [(D1 & _) _]; [lia|congruence|]. rewrite (fframe_sb _ _ (fp_frame _ _ _ _ S')), Esb in D1.
    pose proof (data_start_pos s L). lia.
  - intros x Hx. by rewrite Hy, Hy1.
  - intros H b Hb. apply Hfull; [done|by rewrite Esb].
  - right. split; [done|]. rewrite Hind'. apply A1.
  - assert (W1 : (weight s1 i bs1 <= weight s i bs)%nat).
    { destruct (data_not_meta s r1 L (fo_one _ _ F) (proj1 (al_range _ _ _ A1))) as [Hrm _].
      unfold weight. rewrite Hi1, Esb, H0, Hbs1. rewrite !absorb_length, !in_absorb, !in_absorb_nz, !in_absorb.
      rewrite (bool_decide_eq_false_2 (r1 = sb_bmapstart (k_sb s))), (bool_decide_eq_true_2 (r1 = r1)),
        (bool_decide_eq_true_2 (sb_bmapstart (k_sb s) = sb_bmapstart (k_sb s))), (bool_decide_eq_true_2 (r1 <> 0)) by congruence.
      rewrite ?orb_true_r. cbn [orb andb]. repeat case_bool_decide; cbn [orb andb]; try lia; tauto. }
    case_decide; lia.
Qed.

(** [bmap] maps block [bn] of a file: it returns the block that is there, or
    a new one full of zeroes, or 0 when the disk is full. *)
Lemma bmap_tx s bs i bn :
  tx s bs [] -> file_ok s i -> room s bs [] 6 -> 0 <= bn < MAXFILE ->
  exists r s' bs', bmap i bn s = Ok r s' /\ bmapped s bs i bn r s' bs'.
Proof.
  intros T F R Hbn. destruct (decide (faddr s (get_inode s i) bn = 0)) as [H0|Ha].
  2:{ destruct (bmap_hit_tx s bs i bn T) as (s' & E & B); [destruct R; lia|done|done|done|]. eauto. }
  unfold bmap, inode_get. rewrite bind_gets, (id_dev _ _ (fo_disk _ _ F)).
  destruct (Z.ltb_spec bn NDIRECT) as [Hlt|Hge].
  { assert (H0' := H0). unfold faddr in H0'. rewrite (proj2 (Z.ltb_lt _ _) Hlt) in H0'. rewrite H0'. cbn [Z.eqb].
    apply (bmap_direct_tx s bs i bn T F); [by eapply room_le; [exact R|lia|cbn; lia]|lia|done]. }
  rewrite (proj2 (Z.ltb_lt (bn - NDIRECT) NINDIRECT)) by (unfold MAXFILE in Hbn; lia).
  fold (indirect (get_inode s i)). destruct (Z.eqb_spec (indirect (get_inode s i)) 0) as [Hi0|Hi].
  - destruct (slot_tx s bs i (Z.to_nat NDIRECT) T F) as (r1 & s1 & bs1 & E1 & T1 & Hr);
      [by eapply room_le; [exact R|lia|cbn; lia]|].
    fold (take_slot i (Z.to_nat NDIRECT)). rewrite (bind_ok _ _ _ _ _ E1).
    destruct Hr as [(-> & -> & Hall & S)|(Hr & Hbs & A & Ho & S & Hip)].
    { exists 0, s1, bs. split; [done|]. by apply bmapped_full. }
    rewrite (proj2 (Z.eqb_neq _ _) Hr).
    destruct (indirect_attach s i r1 s1 F A Hi0 Ho (fp_len _ _ _ _ S) Hip) as (F1 & Hi1 & Hf1 & Hy1).
    assert (R1 : room s1 bs1 [] 4).
    { destruct R as [R1 R2 R3]. destruct (fp_log _ _ _ _ S) as (_ & El & Eo & _). rewrite Hbs.
      split; rewrite ?El, ?Eo; rewrite ?absorb_length; repeat case_bool_decide; cbn in *; lia. }
    destruct (bmap_entry_tx s1 bs1 i bn T1 F1 R1) as (r & s' & bs' & E & B); [lia|congruence|by rewrite Hf1|].
    exists r, s', bs'. rewrite Hi1 in E. split; [exact E|]. eapply bmapped_indirect; try done; [lia|by eexists].
  - rewrite bind_ret, (proj2 (Z.eqb_neq _ _) Hi).
    apply (bmap_entry_tx s bs i bn T F); [by eapply room_le; [exact R|lia|cbn; lia]|lia|done|done].
Qed.

(** ** Writing a block of a file *)

(** The blocks of file [i]. *)
Definition owns (s : kstate) (i : nat) (b : Z) : Prop :=
  b = indirect (get_inode s i) \/ exists bn, 0 <= bn < MAXFILE /\ faddr s (get_inode s i) bn = b.

Lemma write_block s bs s' bs' i bn d :
  let a := faddr s (get_inode s i) bn in
  file_ok s i -> 0 <= bn < MAXFILE -> a <> 0 -> tstep s bs [(a, d)] s' bs' -> length d = Z.to_nat BSIZE -> byte_list d ->
  file_ok s' i /\ get_inode s' i = get_inode s i /\
  (forall bn', faddr s' (get_inode s' i) bn' = faddr s (get_inode s i) bn') /\
  (forall x, 0 <= x < MAXFILE * BSIZE -> fbyte s' (get_inode s' i) x =
     if decide (x / BSIZE = bn) then nth (Z.to_nat (x mod BSIZE)) d 0 else fbyte s (get_inode s i) x) /\
  fstep (fun b => b = a) s i s'.
Proof.
  intros a F Hbn Ha S Hd Hby. pose proof (bm_layout _ (fo_bitmap _ _ F)) as L.
  destruct (fo_addr _ _ F bn Hbn Ha) as [Da Hai]. fold a in Da, Hai.
  pose proof (tstep_sb _ _ _ _ _ S) as Esb. pose proof (tstep_inodes _ _ _ _ _ S) as Ein.
  assert (Ei : get_inode s' i = get_inode s i) by (unfold get_inode; by rewrite Ein).
  assert (Hb : forall b, b <> a -> blk s' b = blk s b).
  { intros b H. rewrite (ts_blk _ _ _ _ _ S). apply upds_not. cbn. by rewrite list_elem_of_singleton. }
  assert (Eba : blk s' a = d) by (rewrite (ts_blk _ _ _ _ _ S); apply upds_one).
  destruct (bitmap_ok_data s s' a (fo_bitmap _ _ F)) as [B' U'];
    [by eapply fs_layout_step|done|apply Da|done|].
  assert (Hf : forall bn', faddr s' (get_inode s' i) bn' = faddr s (get_inode s i) bn').
  { intros bn'. apply faddr_ext; [by rewrite Ei|]. intros _. by apply Hb. }
  assert (Hdat : forall b, data_ok s b -> data_ok s' b).
  { intros b (D1 & D2 & D3 & D4). pose proof (data_start_pos s L). unfold data_ok. rewrite Esb, U' by lia.
    destruct (decide (b = a)) as [->|Hne]; [rewrite Eba; exact (conj D1 (conj D2 (conj Hd Hby)))|].
    rewrite (Hb b Hne). exact (conj D1 (conj D2 (conj D3 D4))). }
  split; [|split; [exact Ei|split; [exact Hf|split]]].
  - split; rewrite ?Esb; rewrite ?Ei; [rewrite Ein; apply F| |exact B'|apply F| | |].
    + destruct (fo_disk _ _ F). split; by rewrite ?Esb.
    + intros H. by apply Hdat, (fo_ind _ _ F).
    + intros bn' Hbn'. rewrite <- Ei, Hf. intros H. destruct (fo_addr _ _ F bn' Hbn' H) as [H1 H2]. rewrite Ei. split; [by apply Hdat|done].
    + intros b1 b2 H1 H2. rewrite <- Ei, !Hf. by apply (fo_inj _ _ F).
  - intros x Hx. assert (Hxb : 0 <= x / BSIZE < MAXFILE) by (unfold MAXFILE, NDIRECT, NINDIRECT, BSIZE in *; mlia).
    unfold fbyte. rewrite Hf. case_decide as E; [subst bn; fold a; by rewrite (proj2 (Z.eqb_neq _ _) Ha), Eba|].
    destruct (Z.eqb_spec (faddr s (get_inode s i) (x / BSIZE)) 0) as [|Hne]; [done|].
    rewrite Hb; [done|]. intros E'. apply E. by apply (fo_inj _ _ F).
  - split; [by eapply fframe_tstep|apply S|apply S|by rewrite Ein| | |].
    + intros j _. unfold get_inode. by rewrite Ein.
    + intros b Hbr Hu. by rewrite U'.
    + intros b _ _ _ Hp. by apply Hb.
Qed.

(** ** Sources *)

(** The bytes [data] can be copied in from [src], in any pieces and in any
    state that a step on a file leads to. *)
Definition source_ok (s : kstate) (src : source) (data : list Z) : Prop :=
  source_add src 0 = src /\ byte_list data /\
  forall t k m, fframe s t -> 0 <= k -> 0 <= m -> k + m <= Z.of_nat (length data) ->
    either_copyin (source_add src k) m t = Ok (0, take (Z.to_nat m) (drop (Z.to_nat k) data)) t.

Lemma source_add_add src a b : 0 <= a -> 0 <= b -> source_add (source_add src a) b = source_add src (a + b).
Proof.
  intros Ha Hb. destruct src as [va|l]; cbn; f_equal.
  - unfold u64. rewrite Zplus_mod_idemp_l. f_equal. lia.
  - rewrite drop_drop. f_equal. lia.
Qed.

Lemma source_ok_step s s' src data m :
  source_ok s src data -> fframe s s' -> 0 <= m <= Z.of_nat (length data) ->
  source_ok s' (source_add src m) (drop (Z.to_nat m) data).
Proof.
  intros (H0 & Hby & H) F Hm. split; [rewrite source_add_add by lia; by rewrite Z.add_0_r|].
  split; [by apply Forall_drop|]. intros t k j Ht Hk Hj Hkj. rewrite length_drop in Hkj.
  rewrite source_add_add, H by (by eapply fframe_trans) || lia. rewrite drop_drop. do 4 f_equal. lia.
Qed.

Lemma source_ok_copyin s s' src data m :
  source_ok s src data -> fframe s s' -> 0 <= m <= Z.of_nat (length data) ->
  either_copyin src m s' = Ok (0, take (Z.to_nat m) data) s'.
Proof. intros (H0 & _ & H) F Hm. rewrite <- H0. rewrite H by (done || lia). done. Qed.

Lemma kernel_source_ok s data : byte_list data -> source_ok s (kernel_src data) data.
Proof. intros H. split; [done|]. split; [done|]. intros t k m _ _ _ _. reflexivity. Qed.

(** ** [writei] *)

(** After writing [w] bytes of [data] at [off]. *)
Record written (s : kstate) (bs : list Z) (i : nat) (off : Z) (data : list Z) (w : Z) (s' : kstate) (bs' : list Z) : Prop := {
  wn_tx : tx s' bs' [];
  wn_ok : file_ok s' i;
  wn_step : fstep (owns s i) s i s';
  wn_ip : exists a, get_inode s' i = set_i_addrs a (get_inode s i);
  wn_bytes : forall x, 0 <= x < MAXFILE * BSIZE -> fbyte s' (get_inode s' i) x =
    if decide (off <= x < off + w) then nth (Z.to_nat (x - off)) data 0 else fbyte s (get_inode s i) x;
  wn_kept : forall bn, 0 <= bn < MAXFILE -> faddr s (get_inode s i) bn <> 0 -> faddr s' (get_inode s' i) bn <> 0;
  wn_mapped : forall x, off <= x < off + w -> faddr s' (get_inode s' i) (x / BSIZE) <> 0;
  wn_owns : forall b, owns s' i b -> owns s i b \/ (0 <= b < sb_size (k_sb s) /\ used s b = false);
  wn_weight : Z.of_nat (weight s' i bs') <= Z.of_nat (weight s i bs) + (if decide (w = 0) then 0 else blocks off w)
}.

Lemma written_nil s bs i off data : tx s bs [] -> file_ok s i -> written s bs i off data 0 s bs.
Proof.
  intros T F. refine (Build_written _ _ _ _ _ _ _ _ T F _ _ _ _ _ _ _).
  - eapply fstep_quiet. apply (tstep_refl s bs).
  - exists (i_addrs (get_inode s i)). done.
  - intros x Hx. by rewrite decide_False by lia.
  - done.
  - lia.
  - by left.
  - rewrite decide_True by done. lia.
Qed.

Lemma owns_range s i b : file_ok s i -> owns s i b -> b = 0 \/ data_start (k_sb s) <= b < sb_size (k_sb s).
Proof.
  intros F Hb. destruct (decide (b = 0)) as [|Hn]; [by left|right].
  destruct Hb as [->|(bn & Hbn & <-)]; [apply (fo_ind _ _ F Hn)|apply (fo_addr _ _ F bn Hbn Hn)].
Qed.

Lemma bmapped_owns s bs i bn r s' bs' b :
  file_ok s i -> 0 <= bn < MAXFILE -> bmapped s bs i bn r s' bs' -> owns s' i b ->
  owns s i b \/ (0 <= b < sb_size (k_sb s) /\ used s b = false).
Proof.
  intros F Hbn M Hb. pose proof (owns_range _ _ _ (bp_ok _ _ _ _ _ _ _ M) Hb) as Hr.
  rewrite (fframe_sb _ _ (fp_frame _ _ _ _ (bp_step _ _ _ _ _ _ _ M))) in Hr.
  pose proof (data_start_pos s (bm_layout _ (fo_bitmap _ _ F))) as Hp.
  destruct (decide (b = 0)) as [->|Hn].
  - left. destruct Hb as [H|(bn' & Hb & H)].
    + left. destruct (bp_ind _ _ _ _ _ _ _ M) as [E|[E _]]; [congruence|by rewrite E].
    + right. exists bn'. split; [done|]. destruct (decide (bn' = bn)) as [->|Hne].
      * rewrite (bp_addr _ _ _ _ _ _ _ M) in H. destruct (decide (faddr s (get_inode s i) bn = 0)) as [|H0]; [done|].
        rewrite (bp_old _ _ _ _ _ _ _ M H0) in H. done.
      * by rewrite <- (bp_rest _ _ _ _ _ _ _ M).
  - destruct Hb as [->|(bn' & Hb & <-)].
    + destruct (bp_ind _ _ _ _ _ _ _ M) as [E|[_ E]]; [left; by left|right; split; [lia|done]].
    + destruct (decide (bn' = bn)) as [->|Hne].
      2:{ left. right. exists bn'. by rewrite (bp_rest _ _ _ _ _ _ _ M). }
      rewrite (bp_addr _ _ _ _ _ _ _ M) in *. destruct (decide (faddr s (get_inode s i) bn = 0)) as [H0|H0].
      * destruct (bp_new _ _ _ _ _ _ _ M H0) as [|E]; [done|]. right. split; [lia|done].
      * left. right. exists bn. split; [done|]. by rewrite (bp_old _ _ _ _ _ _ _ M H0).
Qed.

(** The state after [bmap], when nothing more is written. *)
Lemma written_bmapped s bs i off data bn s' bs' :
  file_ok s i -> 0 <= bn < MAXFILE -> bmapped s bs i bn 0 s' bs' -> written s bs i off data 0 s' bs'.
Proof.
  intros F Hbn M. pose proof (fun b => bmapped_owns _ _ _ _ _ _ _ b F Hbn M) as HO.
  destruct M as [T' F' S' Hip Ha Hrest Hold Hnew Hy Hfull Hind Hw].
  refine (Build_written _ _ _ _ _ _ _ _ T' F' _ Hip _ _ _ HO _).
  - eapply fstep_weaken; [exact S'|]. intros b ->. by left.
  - intros x Hx. rewrite decide_False by lia. by apply Hy.
  - intros bn' Hb H. destruct (decide (bn' = bn)) as [->|Hne]; [|by rewrite Hrest]. by rewrite (Hold H) in H.
  - lia.
  - rewrite decide_True by done. rewrite decide_True in Hw by done. lia.
Qed.

Lemma written_trans s bs i off data m w s1 bs1 s' bs' :
  0 <= off -> 0 < m -> 0 <= w -> (w = 0 \/ (off + m) mod BSIZE = 0) -> off + m <= MAXFILE * BSIZE ->
  written s bs i off data m s1 bs1 -> written s1 bs1 i (off + m) (drop (Z.to_nat m) data) w s' bs' ->
  written s bs i off data (m + w) s' bs'.
Proof.
  intros Ho Hm Hw Hal Hmax [T1 F1 S1 [a1 I1] B1 K1 M1 O1 W1] [T2 F2 S2 [a2 I2] B2 K2 M2 O2 W2].
  pose proof (fframe_sb _ _ (fp_frame _ _ _ _ S1)) as Esb.
  assert (HO : forall b, owns s' i b -> owns s i b \/ (0 <= b < sb_size (k_sb s) /\ used s b = false)).
  { intros b Hb. destruct (O2 b Hb) as [H|[Hr H]]; [by apply O1|]. rewrite Esb in Hr.
    right. split; [done|]. destruct (used s b) eqn:Hu; [|done]. by rewrite (fp_used _ _ _ _ S1 b Hr Hu) in H. }
  refine (Build_written _ _ _ _ _ _ _ _ T2 F2 _ _ _ _ _ HO _).
  - eapply fstep_trans; [exact S1|exact S2|]. intros b Hb.
    destruct (O1 b Hb) as [H|[_ H]]; [by left|by right].
  - exists a2. rewrite I2, I1. done.
  - intros x Hx. rewrite B2, B1 by done. rewrite !nth_lookup, lookup_drop.
    repeat case_decide; try lia; try done. do 2 f_equal. lia.
  - intros bn Hb H. by apply K2, K1.
  - intros x Hx. destruct (decide (x < off + m)) as [Hlt|Hge]; [|apply M2; lia].
    apply K2; [|apply M1; lia]. unfold MAXFILE, NDIRECT, NINDIRECT, BSIZE in *. mlia.
  - rewrite decide_False in W1 by lia. rewrite decide_False by lia.
    case_decide; [subst w; by rewrite Z.add_0_r; lia|]. destruct Hal as [|Hal]; [lia|].
    assert (blocks off (m + w) = blocks off m + blocks (off + m) w); [|lia].
    unfold blocks, BSIZE in *. mlia.
Qed.

(** The state after [bmap] and the write of one block. *)
Lemma written_put s bs i off data m r s1 bs1 s2 d :
  let bn := off / BSIZE in
  file_ok s i -> 0 <= off -> 0 <= bn < MAXFILE -> r <> 0 -> 0 < m <= Z.of_nat (length data) -> byte_list data ->
  off mod BSIZE + m <= BSIZE -> bmapped s bs i bn r s1 bs1 ->
  d = put_bytes (blk s1 r) (Z.to_nat (off mod BSIZE)) (take (Z.to_nat m) data) ->
  tx s2 (absorb bs1 r) [] -> tstep s1 bs1 [(r, d)] s2 (absorb bs1 r) ->
  written s bs i off data m s2 (absorb bs1 r).
Proof.
  intros bn F Ho Hbn Hr Hm Hby Hmax M Hd T2 S2.
  pose proof (fun b => bmapped_owns _ _ _ _ _ _ _ b F Hbn M) as HO.
  destruct M as [T1 F1 S1 [a Hip] Ha Hrest Hold Hnew Hy Hfull Hind Hw].
  assert (Hr1 : faddr s1 (get_inode s1 i) bn <> 0) by (by rewrite Ha).
  destruct (fo_addr _ _ F1 bn Hbn Hr1) as [(Dr & _ & Dl & Db) _]. rewrite Ha in Dr, Dl, Db.
  assert (Htk : length (take (Z.to_nat m) data) = Z.to_nat m) by (rewrite length_take; lia).
  assert (Hfit : (Z.to_nat (off mod BSIZE) + length (take (Z.to_nat m) data) <= length (blk s1 r))%nat).
  { rewrite Htk, Dl. unfold BSIZE in *. mlia. }
  destruct (write_block s1 bs1 s2 (absorb bs1 r) i bn d F1 Hbn Hr1) as (F2 & Ei2 & Hf2 & Hy2 & S12).
  { by rewrite Ha. }
  { by rewrite Hd, length_put_bytes. }
  { rewrite Hd. apply byte_list_put_bytes; [done|by apply Forall_take]. }
  rewrite Ha in S12.
  assert (Hx : forall x, off <= x < off + m -> x / BSIZE = bn) by (intros; unfold bn, BSIZE in *; mlia).
  refine (Build_written _ _ _ _ _ _ _ _ T2 F2 _ _ _ _ _ _ _).
  - eapply fstep_trans; [eapply fstep_weaken; [exact S1|]|exact S12|]; intros b ->; [by left|].
    destruct (HO r) as [H|[_ H]]; [right; by exists bn|by left|by right].
  - exists a. by rewrite Ei2.
  - intros x Hxr. rewrite Hy2, Hy by done. destruct (decide (x / BSIZE = bn)) as [E|E].
    2:{ rewrite decide_False; [done|]. intros H. by apply E, Hx. }
    rewrite Hd, !nth_lookup, lookup_put_bytes by done. rewrite Htk.
    assert (Hiff : (Z.to_nat (off mod BSIZE) <= Z.to_nat (x mod BSIZE) < Z.to_nat (off mod BSIZE) + Z.to_nat m)%nat <-> off <= x < off + m)
      by (unfold bn, BSIZE in *; mlia).
    destruct (decide (off <= x < off + m)) as [H1|H1]; [rewrite decide_True by (by apply Hiff)|rewrite decide_False by (by rewrite Hiff)].
    + rewrite lookup_take_lt by lia. do 2 f_equal. unfold bn, BSIZE in *. mlia.
    + rewrite <- nth_lookup, <- Hy by done. unfold fbyte. by rewrite E, Ha, (proj2 (Z.eqb_neq _ _) Hr).
  - intros bn' Hb H. rewrite Hf2. destruct (decide (bn' = bn)) as [->|Hne]; [done|by rewrite Hrest].
  - intros x Hxr. by rewrite Hf2, Hx.
  - intros b Hb. apply HO. destruct Hb as [->|(bn' & Hb' & <-)]; [left; by rewrite Ei2|right; exists bn'; by rewrite Hf2].
  - rewrite decide_False by lia. rewrite decide_False in Hw by done.
    assert (weight s2 i (absorb bs1 r) = weight s1 i (absorb bs1 r)) as ->.
    { unfold weight. by rewrite Ei2, (tstep_sb _ _ _ _ _ S2). }
    assert (1 <= blocks off m); [|lia]. unfold blocks, BSIZE in *. mlia.
Qed.

Lemma weight_length s i bs : (length bs <= weight s i bs)%nat.
Proof. unfold weight. lia. Qed.

(** One round of the loop: a block is mapped, filled and logged. *)
Lemma written_step s bs i src data off m r s1 bs1 :
  file_ok s i -> source_ok s src data -> 0 <= off -> 0 <= off / BSIZE < MAXFILE -> r <> 0 ->
  0 < m <= Z.of_nat (length data) -> off mod BSIZE + m <= BSIZE -> 1 <= log_outstanding (k_log s) ->
  Z.of_nat (weight s i bs) + 2 < log_size (k_log s) -> bmapped s bs i (off / BSIZE) r s1 bs1 ->
  exists s2, (forall B (q : nat -> K B) (k : K B),
    (let! ip := inode_get i in
     let! bp := bread (i_dev ip) r in
     let! (c, bytes) := either_copyin src m in
     let! d := bdata bp in
     set_bdata bp (put_bytes d (Z.to_nat (off mod BSIZE)) bytes) ;;;
     if c =? -1 then q bp else log_write bp ;;; brelse bp ;;; k) s1 = k s2) /\
    written s bs i off data m s2 (absorb bs1 r).
Proof.
  intros F Hsrc Ho Hbn Hr Hm Hmm Hout Hroom M. pose proof (bp_ok _ _ _ _ _ _ _ M) as F1. pose proof (bp_tx _ _ _ _ _ _ _ M) as T1.
  pose proof (bp_step _ _ _ _ _ _ _ M) as S1. destruct (fp_log _ _ _ _ S1) as (_ & El & Eo & _).
  pose proof (bp_weight _ _ _ _ _ _ _ M) as HW. rewrite decide_False in HW by done.
  pose proof (weight_length s1 i (absorb bs1 r)) as HW1. pose proof (absorbs_length [r] bs1) as HW2. cbn in HW2.
  pose proof (tx_size _ _ _ T1) as Hls.
  assert (R1 : room s1 bs1 [] 1) by (split; [lia|lia|unfold NBUF, LOGSIZE, MAXOPBLOCKS in *; cbn; lia]).
  assert (Dr : data_start (k_sb s1) <= r < sb_size (k_sb s1)).
  { pose proof (bp_addr _ _ _ _ _ _ _ M) as Ha. rewrite <- Ha. apply (fo_addr _ _ F1 _ Hbn). by rewrite Ha. }
  destruct (tx_bread s1 bs1 [] r T1 (not_elem_of_nil _)) as (j & s2 & E2 & T2 & I2 & D2 & S2 & _ & _).
  { destruct R1. cbn in *. lia. }
  assert (L2 : fs_layout s2) by (eapply fs_layout_step; [exact S2|apply (fo_bitmap _ _ F1)]).
  destruct (tx_put s2 bs1 [] j r (put_bytes (blk s1 r) (Z.to_nat (off mod BSIZE)) (take (Z.to_nat m) data)) T2 I2 (not_elem_of_nil _))
    as (s3 & E3 & _ & T3 & S3 & _).
  { apply home_data; [done|]. by rewrite (tstep_sb _ _ _ _ _ S2). }
  { eapply tstep_room; [exact S2|exact R1]. }
  exists s3. split.
  - intros B q k. unfold inode_get. rewrite bind_gets, (id_dev _ _ (fo_disk _ _ F1)), E2.
    rewrite (bind_ok _ _ _ _ _ (source_ok_copyin s s2 src data m Hsrc ltac:(eapply fframe_trans; [apply S1|by eapply fframe_tstep]) ltac:(lia))).
    unfold bdata. rewrite bind_gets, D2. change (0 =? -1) with false. cbv iota beta. apply E3.
  - eapply written_put; [exact F|done|exact Hbn|done|done|apply Hsrc|done|exact M|reflexivity|done|].
    by eapply tstep_nil_l.
Qed.

Lemma writei_loop_spec fuel : forall i src data off n tot s bs,
  tx s bs [] -> file_ok s i -> source_ok s src data -> Z.of_nat (length data) = n - tot -> 0 <= tot <= n -> 0 <= off ->
  off + (n - tot) <= MAXFILE * BSIZE -> 1 <= log_outstanding (k_log s) ->
  (n = tot \/ blocks off (n - tot) <= Z.of_nat fuel /\ Z.of_nat (weight s i bs) + blocks off (n - tot) + 6 < log_size (k_log s)) ->
  exists w s' bs', writei_loop fuel i src off n tot s = Ok (tot + w, off + w) s' /\ 0 <= w <= n - tot /\
    written s bs i off data w s' bs' /\
    (w = n - tot \/ forall b, 0 <= b < sb_size (k_sb s) -> used s' b = true).
Proof.
  induction fuel as [|fuel IH]; intros i src data off n tot s bs T F Hsrc Hlen Ht Ho Hmax Hout Hroom.
  { assert (tot = n) as ->.
    { destruct Hroom as [?|Hf]; [lia|]. destruct (decide (tot = n)); [done|].
      destruct (blocks_next off (n - tot)) as (_ & _ & _ & H); lia. }
    exists 0, s, bs. cbn [writei_loop]. rewrite Z.ltb_irrefl, !Z.add_0_r. split; [done|].
    split; [lia|]. split; [by apply written_nil|left; lia]. }
  cbn [writei_loop]. destruct (Z.ltb_spec tot n) as [Hlt|Hge].
  2:{ exists 0, s, bs. rewrite !Z.add_0_r. split; [done|]. split; [lia|]. split; [by apply written_nil|left; lia]. }
  destruct Hroom as [|[Hfuel Hroom]]; [lia|]. destruct (blocks_next off (n - tot) Ho ltac:(lia)) as (Hm & Hal & Hbl & Hb1).
  set (m := Z.min (n - tot) (BSIZE - off mod BSIZE)) in *.
  assert (Hbn : 0 <= off / BSIZE < MAXFILE) by (unfold BSIZE, MAXFILE, NDIRECT, NINDIRECT in *; mlia).
  pose proof (weight_length s i bs) as Hwl. pose proof (tx_size _ _ _ T) as Hls.
  destruct (bmap_tx s bs i (off / BSIZE) T F) as (r & s1 & bs1 & E1 & M).
  { split; [done|lia|unfold NBUF, LOGSIZE, MAXOPBLOCKS in *; cbn; lia]. }
  { exact Hbn. }
  rewrite (bind_ok _ _ _ _ _ E1). destruct (Z.eqb_spec r 0) as [->|Hr].
  { exists 0, s1, bs1. rewrite !Z.add_0_r. split; [done|]. split; [lia|].
    split; [by eapply written_bmapped|right]. exact (bp_full _ _ _ _ _ _ _ M eq_refl). }
  destruct (written_step s bs i src data off m r s1 bs1 F Hsrc Ho Hbn Hr ltac:(lia) ltac:(lia) Hout ltac:(lia) M) as (s2 & E2 & W2).
  rewrite E2. rewrite (u32_small (off + m)) by (rewrite MAXFILE_bytes in Hmax; lia).
  pose proof (wn_weight _ _ _ _ _ _ _ _ W2) as HW2. rewrite decide_False in HW2 by lia.
  assert (Hbm : blocks off m = 1) by (unfold blocks, BSIZE in *; mlia).
  pose proof (fp_log _ _ _ _ (wn_step _ _ _ _ _ _ _ _ W2)) as HL.
  pose proof (fp_frame _ _ _ _ (wn_step _ _ _ _ _ _ _ _ W2)) as HF.
  destruct (IH i (source_add src m) (drop (Z.to_nat m) data) (off + m) n (tot + m) s2 (absorb bs1 r)) as (w & s' & bs' & E' & Hw & W' & Hfull).
  - apply W2.
  - apply W2.
  - eapply source_ok_step; [exact Hsrc|exact HF|lia].
  - rewrite length_drop. lia.
  - lia.
  - lia.
  - lia.
  - destruct HL as (_ & _ & -> & _). done.
  - destruct HL as (_ & -> & _). replace (n - (tot + m)) with (n - tot - m) by lia. destruct Hbl; [left|right]; lia.
  - exists (m + w), s', bs'. rewrite E'. split; [do 2 f_equal; lia|]. split; [lia|].
    split; [eapply written_trans; [..|exact W2|exact W']; lia|].
    destruct Hfull as [->|H]; [left; lia|right]. by rewrite (fframe_sb _ _ HF) in H.
Qed.

(** A file in a state in which no data block and no bit of the map differs. *)
Lemma file_ok_meta s s' i :
  file_ok s i -> bitmap_ok s' -> k_sb s' = k_sb s -> (forall b, data_start (k_sb s) <= b -> blk s' b = blk s b) ->
  (forall b, 0 <= b < sb_size (k_sb s) -> used s' b = used s b) ->
  (i < length (k_inodes s'))%nat -> idisk s' (get_inode s' i) -> i_addrs (get_inode s' i) = i_addrs (get_inode s i) ->
  file_ok s' i /\ (forall bn, faddr s' (get_inode s' i) bn = faddr s (get_inode s i) bn) /\
  forall x, 0 <= x < MAXFILE * BSIZE -> fbyte s' (get_inode s' i) x = fbyte s (get_inode s i) x.
Proof.
  intros F B Esb Eb Eu Hi D Ea.
  assert (Hf : forall bn, faddr s' (get_inode s' i) bn = faddr s (get_inode s i) bn).
  { intros bn. apply faddr_ext; [done|]. intros H. apply Eb. apply (fo_ind _ _ F H). }
  assert (Hind : indirect (get_inode s' i) = indirect (get_inode s i)) by (unfold indirect; by rewrite Ea).
  assert (Hd : forall b, data_ok s b -> data_ok s' b).
  { intros b (H1 & H2 & H3 & H4). pose proof (data_start_pos s (bm_layout _ (fo_bitmap _ _ F))).
    unfold data_ok. rewrite Esb, Eu, Eb by lia. done. }
  split; [|split; [done|]].
  - split; try done; rewrite ?Esb, ?Hind; try apply F.
    + intros H. apply Hd. by apply F.
    + intros bn Hbn. rewrite Hf. intros H. destruct (fo_addr _ _ F bn Hbn H) as [H1 H2]. split; [by apply Hd|done].
    + intros bn bn' Hbn Hbn'. rewrite !Hf. by apply F.
  - intros x Hx. assert (Hxb : 0 <= x / BSIZE < MAXFILE) by (unfold MAXFILE, NDIRECT, NINDIRECT, BSIZE in *; mlia).
    unfold fbyte. rewrite Hf. destruct (Z.eqb_spec (faddr s (get_inode s i) (x / BSIZE)) 0) as [|H]; [done|].
    rewrite Eb; [done|]. apply (fo_addr _ _ F _ Hxb H).
Qed.

(** The step that sets the size, if the file has grown. *)
Lemma resize_tx s bs i z :
  tx s bs [] -> file_ok s i -> 0 <= z < 2 ^ 32 ->
  exists s', (forall B (k : K B), (let! ip := inode_get i in
      (if i_size ip <? z then inode_set i (set_i_size z) else ret tt) ;;; k) s = k s') /\
    tx s' bs [] /\ file_ok s' i /\ fstep (fun _ => False) s i s' /\ (forall b, blk s' b = blk s b) /\
    get_inode s' i = set_i_size (Z.max (i_size (get_inode s i)) z) (get_inode s i).
Proof.
  intros T F Hz. destruct (decide (i_size (get_inode s i) < z)) as [Hlt|Hge].
  - assert (Ei : get_inode (upd_inode i (set_i_size z) s) i = set_i_size (Z.max (i_size (get_inode s i)) z) (get_inode s i)).
    { rewrite get_upd_inode_same by apply F. by rewrite Z.max_r by lia. }
    exists (upd_inode i (set_i_size z) s). split; [|split; [by apply tx_inodes|]].
    { intros B k. unfold inode_get. rewrite bind_gets, (proj2 (Z.ltb_lt _ _) Hlt). apply bind_modify. }
    split; [|split; [|split; [done|exact Ei]]].
    + eapply file_ok_meta; [exact F|by apply bitmap_ok_inodes, F|done|done|done| | |by rewrite Ei].
      * unfold upd_inode. cbn. rewrite length_alter. apply F.
      * rewrite Ei. destruct (fo_disk _ _ F) as [D1 D2 []]. split; [done|done|]. split; try done. cbn. lia.
    + split; [apply fframe_inodes|done|done|unfold upd_inode; cbn; apply length_alter| |done|done].
      intros j Hj. by rewrite get_upd_inode_other.
  - exists s. split; [|split; [done|split; [done|split; [apply (fstep_quiet _ s bs s bs), tstep_refl|split; [done|]]]]].
    + intros B k. unfold inode_get. by rewrite bind_gets, (proj2 (Z.ltb_ge _ _)), bind_ret by lia.
    + rewrite Z.max_l by lia. reflexivity.
Qed.

(** [iupdate] on a file. *)
Lemma iupdate_file s bs i :
  let b := IBLOCK (i_inum (get_inode s i)) (k_sb s) in
  tx s bs [] -> file_ok s i -> room s bs [] 1 -> length (blk s b) = Z.to_nat BSIZE ->
  exists s' bs', iupdate i s = Ok tt s' /\ tx s' bs' [] /\ file_ok s' i /\ fstep (fun x => x = b) s i s' /\
    get_inode s' i = get_inode s i /\ (length bs' <= length bs + 1)%nat /\
    (forall bn, faddr s' (get_inode s i) bn = faddr s (get_inode s i) bn) /\
    (forall x, 0 <= x < MAXFILE * BSIZE -> fbyte s' (get_inode s i) x = fbyte s (get_inode s i) x) /\
    (forall x, 0 <= x < sb_size (k_sb s) -> used s' x = used s x) /\
    forall inum ip', 0 <= inum < sb_ninodes (k_sb s) -> dinode_of s' inum ip' =
      if decide (inum = i_inum (get_inode s i)) then with_fields (get_inode s i) ip' else dinode_of s inum ip'.
Proof.
  intros b T F R Hl. pose proof (bm_layout _ (fo_bitmap _ _ F)) as L. pose proof (fo_disk _ _ F) as D.
  destruct (IBLOCK_data s _ L (id_inum _ _ D)) as (_ & Hlt & Hne). fold b in Hlt, Hne.
  destruct (iupdate_tx s bs [] i T L D (not_elem_of_nil _) R) as (s' & E & T' & _ & S). fold b in T', S.
  pose proof (tstep_sb _ _ _ _ _ S) as Esb. pose proof (tstep_inodes _ _ _ _ _ S) as Ein.
  assert (Ei : get_inode s' i = get_inode s i) by (unfold get_inode; by rewrite Ein).
  assert (Hb : forall x, x <> b -> blk s' x = blk s x).
  { intros x H. rewrite (ts_blk _ _ _ _ _ S). apply upds_not. cbn. by rewrite list_elem_of_singleton. }
  assert (U : forall x, 0 <= x < sb_size (k_sb s) -> used s' x = used s x).
  { intros x Hx. unfold used. rewrite Esb, Hb; [done|]. by apply not_eq_sym, Hne. }
  assert (B' : bitmap_ok s').
  { destruct (fo_bitmap _ _ F) as [_ M1 M2]. split; rewrite ?Esb; [by eapply fs_layout_step| |].
    - intros x Hx. rewrite Hb by (by apply not_eq_sym, Hne). by apply M1.
    - intros x Hx. rewrite U; [by apply M2|]. destruct L as [_ _ _ Hd]. lia. }
  destruct (file_ok_meta s s' i F B' Esb) as (F' & Hf & Hy); [intros x Hx; apply Hb; lia|exact U|rewrite Ein; apply F| |by rewrite Ei|].
  { rewrite Ei. destruct D. split; by rewrite ?Esb. }
  rewrite Ei in Hf, Hy. exists s', (absorb bs b). split; [exact E|]. split; [exact T'|]. split; [exact F'|].
  split; [|split; [exact Ei|split; [apply (absorbs_length [b] bs)|split; [exact Hf|split; [exact Hy|split; [exact U|]]]]]].
  - split; [by eapply fframe_tstep|apply S|apply S|by rewrite Ein| | |].
    + intros j _. unfold get_inode. by rewrite Ein.
    + intros x Hx Hu. by rewrite U.
    + intros x _ _ _ Hp. by apply Hb.
  - by eapply iupdate_dinodes.
Qed.

(** What [writei] leaves when it has written [w] bytes of [data] at [off]. *)
Record file_wrote (s : kstate) (i : nat) (off : Z) (data : list Z) (w : Z) (s' : kstate) : Prop := {
  fw_ok : file_ok s' i;
  fw_mapped : mapped s' i;
  fw_size : i_size (get_inode s' i) = Z.max (i_size (get_inode s i)) (off + w);
  fw_bytes : forall x, 0 <= x < MAXFILE * BSIZE -> fbyte s' (get_inode s' i) x =
    if decide (off <= x < off + w) then nth (Z.to_nat (x - off)) data 0 else fbyte s (get_inode s i) x;
  fw_full : w = Z.of_nat (length data) \/ forall b, 0 <= b < sb_size (k_sb s) -> used s' b = true;
  fw_disk : forall ip', dinode_of s' (i_inum (get_inode s i)) ip' = with_fields (get_inode s' i) ip';
  fw_dinodes : forall inum ip', 0 <= inum < sb_ninodes (k_sb s) -> inum <> i_inum (get_inode s i) ->
    dinode_of s' inum ip' = dinode_of s inum ip';
  fw_step : fstep (fun b => owns s i b \/ b = IBLOCK (i_inum (get_inode s i)) (k_sb s)) s i s';
  fw_fields : exists a n, get_inode s' i = set_i_size n (set_i_addrs a (get_inode s i))
}.

(** The blocks of inodes are no blocks of the file. *)
Lemma inode_block s i inum (b := IBLOCK inum (k_sb s)) :
  file_ok s i -> 0 <= inum < sb_ninodes (k_sb s) ->
  0 < b < data_start (k_sb s) /\ b <> sb_bmapstart (k_sb s) /\ used s b = true /\ ~ owns s i b.
Proof.
  intros F Hi. pose proof (bm_layout _ (fo_bitmap _ _ F)) as L.
  destruct (IBLOCK_data s _ L Hi) as (_ & Hlt & _). fold b in Hlt.
  destruct (IBLOCK_eq s _ L Hi) as [_ Hr]. fold b in Hr.
  pose proof (fl_log _ L). assert (0 < b) by (unfold LOGSIZE, MAXOPBLOCKS in *; lia).
  split; [lia|]. split; [lia|]. split; [apply (bm_meta _ (fo_bitmap _ _ F)); lia|].
  intros H'. destruct (owns_range _ _ _ F H'); lia.
Qed.

Lemma written_inode_block s bs i off data w s' bs' inum :
  file_ok s i -> written s bs i off data w s' bs' -> 0 <= inum < sb_ninodes (k_sb s) ->
  blk s' (IBLOCK inum (k_sb s)) = blk s (IBLOCK inum (k_sb s)).
Proof.
  intros F W Hi. destruct (inode_block s i inum F Hi) as (H1 & H2 & H3 & H4).
  pose proof (fl_data _ (bm_layout _ (fo_bitmap _ _ F))).
  apply (fp_blk _ _ _ _ (wn_step _ _ _ _ _ _ _ _ W)); [lia|done|done|done].
Qed.

Lemma written_file s bs i off data w s1 bs1 s2 s3 :
  let b := IBLOCK (i_inum (get_inode s i)) (k_sb s) in
  file_ok s i -> mapped s i -> 0 <= off <= i_size (get_inode s i) -> 0 <= w ->
  written s bs i off data w s1 bs1 -> (w = Z.of_nat (length data) \/ forall b, 0 <= b < sb_size (k_sb s) -> used s1 b = true) ->
  fstep (fun _ => False) s1 i s2 -> (forall b, blk s2 b = blk s1 b) ->
  get_inode s2 i = set_i_size (Z.max (i_size (get_inode s1 i)) (off + w)) (get_inode s1 i) ->
  file_ok s3 i -> fstep (fun x => x = b) s2 i s3 -> get_inode s3 i = get_inode s2 i ->
  (forall bn, faddr s3 (get_inode s2 i) bn = faddr s2 (get_inode s2 i) bn) ->
  (forall x, 0 <= x < MAXFILE * BSIZE -> fbyte s3 (get_inode s2 i) x = fbyte s2 (get_inode s2 i) x) ->
  (forall x, 0 <= x < sb_size (k_sb s) -> used s3 x = used s2 x) ->
  (forall inum ip', 0 <= inum < sb_ninodes (k_sb s) -> dinode_of s3 inum ip' =
      if decide (inum = i_inum (get_inode s i)) then with_fields (get_inode s2 i) ip' else dinode_of s2 inum ip') ->
  file_wrote s i off data w s3.
Proof.
  intros b F M Hoff Hw W Hfull S2 B2 I2 F3 S3 I3 A3 Y3 U3 D3.
  pose proof (fun inum => written_inode_block _ _ _ _ _ _ _ _ inum F W) as D1. destruct W as [T1 F1 S1 [a I1] Y1 K1 M1 O1 _].
  assert (Hsz : i_size (get_inode s1 i) = i_size (get_inode s i)) by (by rewrite I1).
  assert (A2 : forall bn, faddr s2 (get_inode s2 i) bn = faddr s1 (get_inode s1 i) bn).
  { intros bn. apply faddr_ext; [by rewrite I2|]. intros _. apply B2. }
  assert (E2 : k_sb s2 = k_sb s1) by apply (fframe_sb _ _ (fp_frame _ _ _ _ S2)).
  assert (E1 : k_sb s1 = k_sb s) by apply (fframe_sb _ _ (fp_frame _ _ _ _ S1)).
  refine (Build_file_wrote _ _ _ _ _ _ F3 _ _ _ _ _ _ _ _).
  - intros bn Hbn. rewrite I3, A3, A2, I2. cbn. rewrite Hsz. intros Hlt.
    destruct (decide (bn * BSIZE < i_size (get_inode s i))) as [H|H]; [by apply K1, M|].
    rewrite <- (Z.div_mul bn BSIZE) by done. apply M1. unfold BSIZE in *. lia.
  - rewrite I3, I2. cbn. by rewrite Hsz.
  - intros x Hx. rewrite I3, Y3, <- Y1 by done. unfold fbyte. by rewrite A2, B2.
  - destruct Hfull as [H|H]; [by left|right]. intros x Hx. rewrite U3 by done. unfold used. rewrite E2, B2. by apply H.
  - intros ip'. rewrite D3 by apply (fo_disk _ _ F). by rewrite decide_True, I3.
  - intros inum ip' Hi Hne. rewrite D3, decide_False by done. unfold dinode_of. by rewrite E2, B2, E1, D1.
  - eapply fstep_trans; [eapply fstep_trans; [eapply fstep_weaken; [exact S1|by left]|exact S2|done]|exact S3|].
    intros x ->. left. by right.
  - exists a. eexists. rewrite I3, I2, I1. reflexivity.
Qed.

Lemma writei_ok s bs i src data off :
  let n := Z.of_nat (length data) in
  let size := i_size (get_inode s i) in
  tx s bs [] -> file_ok s i -> mapped s i -> source_ok s src data -> 0 <= off <= size -> off + n <= MAXFILE * BSIZE ->
  length (blk s (IBLOCK (i_inum (get_inode s i)) (k_sb s))) = Z.to_nat BSIZE ->
  1 <= log_outstanding (k_log s) -> Z.of_nat (weight s i bs) + blocks off n + 6 < log_size (k_log s) ->
  exists w s' bs', writei i src off n s = Ok w s' /\ 0 <= w <= n /\ file_wrote s i off data w s' /\
    tx s' bs' [] /\ Z.of_nat (length bs') <= Z.of_nat (weight s i bs) + blocks off n + 1.
Proof.
  intros n size T F M Hsrc Hoff Hmax Hlen Hout Hroom. pose proof MAXFILE_bytes as HMB.
  unfold writei. unfold inode_get at 1. rewrite bind_gets. fold size. rewrite (u32_small (off + n)) by lia.
  rewrite (proj2 (Z.ltb_ge size off)), (proj2 (Z.ltb_ge (off + n) off)), (proj2 (Z.ltb_ge (MAXFILE * BSIZE) _)) by lia. cbn [orb].
  destruct (writei_loop_spec (Z.to_nat (n / BSIZE) + 2) i src data off n 0 s bs T F Hsrc) as (w & s1 & bs1 & E1 & Hw & W & Hfull);
    [lia|lia|lia|lia|done| |].
  { right. rewrite Z.sub_0_r. split; [|done]. unfold blocks. assert (0 <= n) by lia. unfold BSIZE in *. mlia. }
  rewrite (bind_ok _ _ _ _ _ E1). cbn [fst snd].
  pose proof (wn_step _ _ _ _ _ _ _ _ W) as S1. destruct (wn_ip _ _ _ _ _ _ _ _ W) as [a I1].
  destruct (resize_tx s1 bs1 i (off + w) (wn_tx _ _ _ _ _ _ _ _ W) (wn_ok _ _ _ _ _ _ _ _ W) ltac:(lia))
    as (s2 & E2 & T2 & F2 & S2 & B2 & I2). rewrite E2.
  pose proof (fframe_sb _ _ (fp_frame _ _ _ _ S1)) as Esb1. pose proof (fframe_sb _ _ (fp_frame _ _ _ _ S2)) as Esb2.
  assert (In : i_inum (get_inode s2 i) = i_inum (get_inode s i)) by (by rewrite I2, I1).
  pose proof (wn_weight _ _ _ _ _ _ _ _ W) as HW. pose proof (weight_length s1 i bs1) as HL.
  assert (Hbl : (if decide (w = 0) then 0 else blocks off w) <= blocks off n).
  { case_decide; unfold blocks, BSIZE in *; mlia. }
  destruct (fp_log _ _ _ _ S1) as (_ & El1 & Eo1 & _). destruct (fp_log _ _ _ _ S2) as (_ & El2 & Eo2 & _).
  destruct (iupdate_file s2 bs1 i T2 F2) as (s3 & bs3 & E3 & T3 & F3 & S3 & I3 & L3 & A3 & Y3 & U3 & D3).
  { pose proof (tx_size _ _ _ T). split; [lia|lia|unfold NBUF, LOGSIZE, MAXOPBLOCKS in *; cbn; lia]. }
  { rewrite In, Esb2, Esb1, B2. rewrite (written_inode_block _ _ _ _ _ _ _ _ _ F W); [done|apply (fo_disk _ _ F)]. }
  rewrite (bind_ok _ _ _ _ _ E3). rewrite In, Esb2, Esb1 in *.
  exists w, s3, bs3. split; [done|]. split; [lia|]. split; [|split; [exact T3|lia]].
  eapply written_file; [exact F|exact M|exact Hoff|lia|exact W| |exact S2|exact B2|exact I2|exact F3|exact S3|exact I3|exact A3|exact Y3|exact U3|exact D3].
  destruct Hfull as [Hf|Hf]; [left; lia|by right].
Qed.


(** ** Witnesses *)

(** A file of [sz] bytes in block 46. *)
Definition file_state (ty inum sz : Z) : kstate :=
  upd_inode 0 (fun _ => mkInode ROOTDEV inum 1 sleeplock_zero true ty 0 0 1 sz (46 :: replicate 12 0)) fs_state.

Definition hello_state : kstate := file_state T_FILE 7 5.

Section OneBlock.
Context (ty inum sz : Z) (Hty : 0 <= ty <= 3) (Hinum : 0 <= inum < 200) (Hsz : 0 <= sz <= 1024).

Lemma one_inode : get_inode (file_state ty inum sz) 0 = mkInode ROOTDEV inum 1 sleeplock_zero true ty 0 0 1 sz (46 :: replicate 12 0).
Proof using Type. reflexivity. Qed.

Lemma one_faddr bn : 0 <= bn -> faddr (file_state ty inum sz) (get_inode (file_state ty inum sz) 0) bn = if decide (bn = 0) then 46 else 0.
Proof using Type.
  intros Hb. rewrite one_inode. unfold faddr. destruct (Z.ltb_spec bn NDIRECT) as [H|H].
  - cbn [i_addrs]. case_decide; [by subst bn|]. destruct (Z.to_nat bn) as [|k] eqn:E; [lia|]. cbn [nth].
    destruct (nth_in_or_default k (replicate 12 0) 0) as [Hi|Hi]; [|done].
    apply list_elem_of_In, elem_of_replicate in Hi as [Hi _]. done.
  - rewrite decide_False by (unfold NDIRECT in H; lia). done.
Qed.

Lemma one_ok : file_ok (file_state ty inum sz) 0.
Proof using Hty Hinum Hsz.
  assert (D : data_ok (file_state ty inum sz) 46).
  { split; [by vm_compute|]. change (blk (file_state ty inum sz)) with (blk fs_state).
    split; [unfold used; change (blk (file_state ty inum sz)) with (blk fs_state); rewrite fs_blk; reflexivity|].
    rewrite fs_blk. split; [done|]. apply Forall_app. split; [repeat constructor; lia|apply byte_list_replicate]. }
  split.
  - unfold file_state, upd_inode. cbn. lia.
  - rewrite one_inode. split; [done|exact Hinum|]. split; cbn; try lia. repeat constructor; lia.
  - apply bitmap_ok_inodes, fs_bitmap.
  - by vm_compute.
  - rewrite one_inode. done.
  - intros bn Hbn. rewrite one_faddr by lia. case_decide; [|done]. intros _. split; [done|]. rewrite one_inode. done.
  - intros bn bn' H1 H2. rewrite !one_faddr by lia. repeat case_decide; lia.
Qed.

Lemma one_mapped : mapped (file_state ty inum sz) 0.
Proof using Hsz.
  intros bn Hbn. rewrite one_faddr by lia. rewrite one_inode. cbn [i_size]. intros H.
  rewrite decide_True; [done|]. unfold BSIZE in H. lia.
Qed.

Lemma one_byte x : 0 <= x < 1024 -> fbyte (file_state ty inum sz) (get_inode (file_state ty inum sz) 0) x = nth (Z.to_nat x) hello_block 0.
Proof using Type.
  intros Hx. unfold fbyte, BSIZE. rewrite Z.div_small, Z.mod_small by lia. rewrite one_faddr by lia.
  rewrite decide_True by done. change (blk (file_state ty inum sz)) with (blk fs_state). by rewrite fs_blk.
Qed.
End OneBlock.


