(* ===== verification/FsTrunc.v ===== *)
(** * Truncating a file

    [itrunc] frees the blocks of a file, and [iput] the inode with the last
    reference: of the bitmap exactly the bits of the file's blocks change,
    and no other block. *)

From S2P Require Import Prelude KString Bytes KState Riscv Spinlock Kalloc Vm Sched Uart Console Sleeplock.
From S2P Require Import Bio Log LogSafe Fs FsPath FsBlock FsInode FsFile.

(** ** Freeing blocks *)

(** The state after the blocks of [l] were freed. *)
Record freed (held : list Z) (s : kstate) (bs l : list Z) (s' : kstate) (bs' : list Z) : Prop := {
  fd_tx : tx s' bs' held;
  fd_keeps : keeps held s s';
  fd_bs : bs' = bs \/ bs' = absorb bs (sb_bmapstart (k_sb s));
  fd_bitmap : bitmap_ok s';
  fd_blk : forall x, x <> sb_bmapstart (k_sb s) -> blk s' x = blk s x;
  fd_used : forall x, 0 <= x < sb_size (k_sb s) -> used s' x = negb (bool_decide (x ∈ l)) && used s x;
  fd_frame : fframe s s';
  fd_log : log_same (k_log s) (k_log s');
  fd_disk : k_disk s' = k_disk s
}.

Lemma absorb_idem bs b : absorb (absorb bs b) b = absorb bs b.
Proof. unfold absorb at 1. rewrite bool_decide_eq_true_2; [done|]. apply elem_of_absorb. by right. Qed.

Lemma freed_nil held s bs : tx s bs held -> bitmap_ok s -> freed held s bs [] s bs.
Proof.
  intros T B. split; [done|by intros i b|by left|done|done| |exact (fframe_inodes s (k_inodes s))|done|done].
  intros x _. rewrite bool_decide_eq_false_2 by apply not_elem_of_nil. done.
Qed.

Lemma freed_trans held s bs l s1 bs1 l' s2 bs2 :
  freed held s bs l s1 bs1 -> freed held s1 bs1 l' s2 bs2 -> freed held s bs (l ++ l') s2 bs2.
Proof.
  intros [T1 K1 N1 M1 B1 U1 F1 L1 D1] [T2 K2 N2 M2 B2 U2 F2 L2 D2]. pose proof (fframe_sb _ _ F1) as E. rewrite E in *. split.
  - done.
  - by eapply keeps_trans.
  - destruct N1 as [->| ->], N2 as [->| ->]; rewrite ?absorb_idem; tauto.
  - done.
  - intros x Hx. by rewrite B2, B1.
  - intros x Hx. rewrite U2, U1 by done. rewrite (bool_decide_ext (x ∈ l ++ l') (x ∈ l \/ x ∈ l')) by apply elem_of_app.
    rewrite bool_decide_or, negb_orb, andb_assoc. f_equal. apply andb_comm.
  - by eapply fframe_trans.
  - by eapply log_same_trans.
  - congruence.
Qed.

(** What stays true while blocks are freed. *)
Record can_free (held : list Z) (s : kstate) (bs : list Z) : Prop := {
  cf_tx : tx s bs held;
  cf_bitmap : bitmap_ok s;
  cf_one : sb_size (k_sb s) <= BPB;
  cf_held : data_held s held;
  cf_room : room s (absorb bs (sb_bmapstart (k_sb s))) held 1
}.

Lemma freed_again held s bs l s' bs' : can_free held s bs -> freed held s bs l s' bs' -> (forall b, b ∈ held -> b ∉ l) -> can_free held s' bs'.
Proof.
  intros [T B O H R] Fd Hd. pose proof (fframe_sb _ _ (fd_frame _ _ _ _ _ _ Fd)) as E. destruct (fd_log _ _ _ _ _ _ Fd) as (_ & E1 & E2 & _).
  pose proof (data_start_pos s (bm_layout _ B)) as Hp.
  split; [apply Fd|apply Fd|by rewrite E| |].
  - intros b Hb. rewrite E. destruct (H b Hb) as [H1 H2]. split; [done|]. rewrite (fd_used _ _ _ _ _ _ Fd) by lia.
    rewrite bool_decide_eq_false_2 by (by apply Hd). done.
  - rewrite E. destruct R as [R1 R2 R3]. destruct (fd_bs _ _ _ _ _ _ Fd) as [->| ->]; rewrite ?absorb_idem; split; rewrite ?E1, ?E2; done.
Qed.

Lemma bfree_freed held s bs b : can_free held s bs -> data_start (k_sb s) <= b < sb_size (k_sb s) -> used s b = true ->
  exists s' bs', bfree ROOTDEV b s = Ok tt s' /\ freed held s bs [b] s' bs' /\ k_inodes s' = k_inodes s.
Proof.
  intros [T B O H R] Hb Hu. assert (R1 : room s bs held 1).
  { destruct R as [R1 R2 R3]. pose proof (absorb_length bs (sb_bmapstart (k_sb s))). split; [done|lia|lia]. }
  destruct (bfree_tx s bs held b T B H R1 Hb Hu) as (s' & bs' & E & T' & K & S). destruct (free_bitmap s bs b s' bs' B Hb S) as (B' & U & Ho).
  pose proof (data_start_pos s (bm_layout _ B)) as Hp. rewrite BBLOCK_one in Ho by (by try apply B; lia).
  exists s', bs'. split; [done|]. split; [|by eapply tstep_inodes]. split; [done|done| |done|done| |by eapply fframe_tstep|apply S|apply S].
  - right. rewrite (ts_bs _ _ _ _ _ S). unfold free_writes. cbn [fmap list_fmap foldl fst]. by rewrite BBLOCK_one by (by try apply B; lia).
  - intros x Hx. rewrite U by done. f_equal. f_equal. apply eq_true_iff_eq. rewrite bool_decide_eq_true, list_elem_of_singleton. apply Z.eqb_eq.
Qed.

(** A list of different data blocks in use. *)
Definition data_blocks (s : kstate) (l : list Z) : Prop :=
  NoDup l /\ Forall (fun b => data_start (k_sb s) <= b < sb_size (k_sb s) /\ used s b = true) l.

Lemma data_blocks_tail held s bs b l s' bs' : bitmap_ok s -> data_blocks s (b :: l) -> freed held s bs [b] s' bs' -> data_blocks s' l.
Proof.
  intros B [N A] Fd. apply NoDup_cons in N as [Hn N]. apply Forall_cons in A as [_ A]. pose proof (fframe_sb _ _ (fd_frame _ _ _ _ _ _ Fd)) as E.
  split; [done|]. apply Forall_forall. intros x Hx. rewrite Forall_forall in A. destruct (A x Hx) as [H1 H2].
  pose proof (data_start_pos s (bm_layout _ B)). rewrite E, (fd_used _ _ _ _ _ _ Fd), H2 by lia. split; [done|].
  rewrite bool_decide_eq_false_2; [done|]. rewrite list_elem_of_singleton. by intros ->.
Qed.

(** The entries of an indirect block. *)
Definition nonzero (l : list Z) : list Z := filter (fun a => a <> 0) l.

Lemma itrunc_indirect_tx held d ix : forall s bs, can_free held s bs -> data_blocks s (nonzero ((fun j => get32 d (4 * j)) <$> ix)) ->
  (forall b, b ∈ held -> b ∉ nonzero ((fun j => get32 d (4 * j)) <$> ix)) ->
  exists s' bs', itrunc_indirect ix ROOTDEV d s = Ok tt s' /\ freed held s bs (nonzero ((fun j => get32 d (4 * j)) <$> ix)) s' bs' /\
    k_inodes s' = k_inodes s.
Proof.
  induction ix as [|j ix IH]; intros s bs C D Hd; cbn [itrunc_indirect fmap list_fmap] in *.
  { exists s, bs. split; [done|]. split; [|done]. apply freed_nil; apply C. }
  unfold nonzero in *. rewrite filter_cons in *. destruct (Z.eqb_spec (get32 d (4 * j)) 0) as [E|E].
  - rewrite decide_False in * by (intros H; by apply H). rewrite bind_ret. by apply IH.
  - rewrite decide_True in * by done. pose proof (Forall_inv (proj2 D)) as [H1 H2].
    destruct (bfree_freed held s bs _ C H1 H2) as (s1 & bs1 & E1 & F1 & I1). rewrite (bind_ok _ _ _ _ _ E1).
    pose proof (data_blocks_tail _ _ _ _ _ _ _ (cf_bitmap _ _ _ C) D F1) as D1.
    destruct (IH s1 bs1) as (s2 & bs2 & E2 & F2 & I2); [|done| |].
    + eapply freed_again; [done..|]. intros b Hb. rewrite list_elem_of_singleton. intros ->. apply (Hd _ Hb). by left.
    + intros b Hb Hin. apply (Hd b Hb). by right.
    + exists s2, bs2. split; [done|]. split; [exact (freed_trans _ _ _ _ _ _ _ _ _ F1 F2)|congruence].
Qed.

Lemma freed_inodes held s bs l s' bs' v : freed held s bs l s' bs' -> freed held s bs l (set_k_inodes v s') bs'.
Proof.
  intros [T K N M B U F L D]. split; [by apply tx_inodes|exact K|done|by apply bitmap_ok_inodes|exact B|exact U| |exact L|exact D].
  eapply fframe_trans; [exact F|]. apply fframe_inodes.
Qed.

(** The direct blocks: their addresses become 0 one after the other. *)
Definition zeroed (A : list Z) (ix : list nat) : list Z := foldl (fun A k => <[k := 0]> A) A ix.

Lemma zeroed_same A k ix : (k ∉ ix) -> nth k (zeroed A ix) 0 = nth k A 0.
Proof.
  revert A. induction ix as [|j ix IH]; intros A H; [done|]. cbn [zeroed foldl]. rewrite not_elem_of_cons in H. destruct H as [H1 H2].
  fold (zeroed (<[j := 0]> A) ix). rewrite IH by done. rewrite !nth_lookup. by rewrite list_lookup_insert_ne.
Qed.

Lemma itrunc_direct_tx i ix : forall s bs,
  can_free [] s bs -> (i < length (k_inodes s))%nat -> i_dev (get_inode s i) = ROOTDEV -> NoDup ix ->
  data_blocks s (nonzero ((fun k => nth k (i_addrs (get_inode s i)) 0) <$> ix)) ->
  exists s' bs', itrunc_direct ix i s = Ok tt s' /\
    freed [] s bs (nonzero ((fun k => nth k (i_addrs (get_inode s i)) 0) <$> ix)) s' bs' /\
    get_inode s' i = set_i_addrs (zeroed (i_addrs (get_inode s i)) ix) (get_inode s i) /\
    (forall j, j <> i -> get_inode s' j = get_inode s j) /\ length (k_inodes s') = length (k_inodes s).
Proof.
  induction ix as [|k ix IH]; intros s bs C Hi Hd N D; cbn [itrunc_direct fmap list_fmap] in *.
  { exists s, bs. split; [done|]. split; [apply freed_nil; apply C|]. split; [by destruct (get_inode s i)|done]. }
  apply NoDup_cons in N as [Hk N]. unfold inode_get. rewrite bind_gets. set (A := i_addrs (get_inode s i)) in *. unfold nonzero in D |- *. rewrite filter_cons in D |- *.
  destruct (Z.eqb_spec (nth k A 0) 0) as [E|E].
  - rewrite decide_False in D |- * by (intros H; by apply H). rewrite bind_ret. destruct (IH s bs C Hi Hd N D) as (s' & bs' & E' & F' & G' & O' & L').
    exists s', bs'. split; [done|]. split; [done|]. split; [|done]. rewrite G'. f_equal. fold A. cbn [zeroed foldl]. f_equal.
    apply list_eq. intros j. destruct (decide (j = k)) as [->|Hj]; [|by rewrite list_lookup_insert_ne]. rewrite nth_lookup in E.
    destruct (A !! k) as [a|] eqn:Ea; [|symmetry; apply lookup_ge_None; rewrite length_insert; by apply lookup_ge_None].
    cbn in E. subst a. rewrite list_lookup_insert_eq; [done|]. by eapply lookup_lt_Some.
  - rewrite decide_True in D |- * by done. pose proof (Forall_inv (proj2 D)) as [H1 H2]. rewrite Hd.
    destruct (bfree_freed [] s bs _ C H1 H2) as (s1 & bs1 & E1 & F1 & I1). rewrite bind_assoc, (bind_ok _ _ _ _ _ E1). unfold set_addr, inode_set. rewrite bind_modify.
    set (g := fun ip => set_i_addrs (<[k := 0]> (i_addrs ip)) ip). set (s2 := upd_inode i g s1).
    assert (F2 : freed [] s bs [nth k A 0] s2 bs1) by by apply freed_inodes.
    assert (Gi : get_inode s1 i = get_inode s i) by (unfold get_inode; by rewrite I1).
    assert (G2 : get_inode s2 i = set_i_addrs (<[k := 0]> A) (get_inode s i)) by (unfold s2; rewrite get_upd_inode_same by (rewrite I1; done); unfold g; by rewrite Gi).
    pose proof (data_blocks_tail _ _ _ _ _ _ _ (cf_bitmap _ _ _ C) D F2) as D2.
    assert (Ex : (fun j => nth j (i_addrs (get_inode s2 i)) 0) <$> ix = (fun j => nth j A 0) <$> ix).
    { apply list_fmap_ext. intros m j Hj. rewrite G2. cbn [i_addrs set_i_addrs]. rewrite !nth_lookup, list_lookup_insert_ne; [done|].
      intros ->. apply Hk. by eapply list_elem_of_lookup_2. }
    destruct (IH s2 bs1) as (s3 & bs3 & E3 & F3 & G3 & O3 & L3).
    { eapply freed_again; [done..|]. by intros b Hb%not_elem_of_nil. } { unfold s2. by rewrite length_upd_inode, I1. } { by rewrite G2. } { done. } { by rewrite Ex. }
    rewrite Ex in F3. exists s3, bs3. split; [exact E3|]. split; [exact (freed_trans _ _ _ _ _ _ _ _ _ F2 F3)|]. split; [by rewrite G3, G2|]. split.
    + intros j Hj. rewrite O3 by done. unfold s2. rewrite get_upd_inode_other by done. unfold get_inode. by rewrite I1.
    + rewrite L3. unfold s2. by rewrite length_upd_inode, I1.
Qed.

(** ** The blocks of a file, in the order in which they are freed *)

Definition direct_blocks (ip : inode) : list Z := nonzero ((fun k => nth k (i_addrs ip) 0) <$> seq 0 12).
Definition entry_blocks (s : kstate) (ip : inode) : list Z :=
  if indirect ip =? 0 then [] else nonzero ((fun j => get32 (blk s (indirect ip)) (4 * j)) <$> seq 0 256).
Definition file_blocks (s : kstate) (ip : inode) : list Z := direct_blocks ip ++ entry_blocks s ip ++ nonzero [indirect ip].

Lemma in_nonzero {A} (f : A -> Z) l b : b ∈ nonzero (f <$> l) <-> b <> 0 /\ exists x, x ∈ l /\ f x = b.
Proof.
  unfold nonzero. rewrite list_elem_of_filter, list_elem_of_fmap. split; (intros [H1 (x & H2 & H3)]; split; [done|]; exists x; split; congruence).
Qed.

Lemma in_direct s ip b : b ∈ direct_blocks ip <-> b <> 0 /\ exists bn, 0 <= bn < NDIRECT /\ faddr s ip bn = b.
Proof.
  unfold direct_blocks. rewrite in_nonzero. f_equiv. change NDIRECT with 12. split.
  - intros (k & Hk%elem_of_seq & <-). exists (Z.of_nat k). split; [lia|]. unfold faddr. change NDIRECT with 12. rewrite (proj2 (Z.ltb_lt _ _)) by lia. by rewrite Nat2Z.id.
  - intros (bn & Hb & <-). exists (Z.to_nat bn). split; [apply elem_of_seq; lia|]. unfold faddr. change NDIRECT with 12. by rewrite (proj2 (Z.ltb_lt _ _)) by lia.
Qed.

Lemma in_entries s ip b : b ∈ entry_blocks s ip <-> b <> 0 /\ exists bn, NDIRECT <= bn < MAXFILE /\ faddr s ip bn = b.
Proof.
  unfold entry_blocks. change NDIRECT with 12. change MAXFILE with 268. destruct (Z.eqb_spec (indirect ip) 0) as [E|E].
  - rewrite elem_of_nil. split; [done|]. intros [Hb (bn & Hn & <-)]. apply Hb. unfold faddr. change NDIRECT with 12.
    rewrite (proj2 (Z.ltb_ge _ _)) by lia. by rewrite (proj2 (Z.eqb_eq _ _) E).
  - assert (Ef : forall bn, 12 <= bn -> faddr s ip bn = get32 (blk s (indirect ip)) (4 * Z.to_nat (bn - 12))).
    { intros bn Hn. unfold faddr. change NDIRECT with 12. rewrite (proj2 (Z.ltb_ge _ _)) by lia. rewrite (proj2 (Z.eqb_neq _ _) E). f_equal. lia. }
    rewrite in_nonzero. f_equiv. split.
    + intros (k & Hk%elem_of_seq & <-). exists (Z.of_nat k + 12). split; [lia|]. rewrite Ef by lia. do 2 f_equal. lia.
    + intros (bn & Hb & <-). exists (Z.to_nat (bn - 12)). split; [apply elem_of_seq; lia|]. by rewrite Ef by lia.
Qed.

Lemma in_file_blocks s i b : b ∈ file_blocks s (get_inode s i) <-> b <> 0 /\ owns s i b.
Proof.
  unfold file_blocks, owns. rewrite !elem_of_app, in_direct, in_entries. change NDIRECT with 12. change MAXFILE with 268.
  unfold nonzero. rewrite list_elem_of_filter, list_elem_of_singleton. split.
  - intros [(Hb & bn & Hn & E)|[(Hb & bn & Hn & E)|[Hb E]]]; (split; [done|]); [right; exists bn; split; [lia|done]..|by left].
  - intros [Hb [E|(bn & Hn & E)]]; [by right; right|]. destruct (decide (bn < 12)); [left|right; left]; (split; [done|]); exists bn; split; done || lia.
Qed.

Lemma nodup_nonzero {A} (f : A -> Z) l : NoDup l -> (forall x y, x ∈ l -> y ∈ l -> f x <> 0 -> f x = f y -> x = y) -> NoDup (nonzero (f <$> l)).
Proof.
  induction 1 as [|x l Hx Hl IH]; intros Hf; [constructor|]. assert (IH' : NoDup (nonzero (f <$> l))) by (apply IH; intros y z Hy Hz; apply Hf; by right).
  cbn [fmap list_fmap]. unfold nonzero. rewrite filter_cons. case_decide as E; [|exact IH']. apply NoDup_cons. split; [|exact IH'].
  fold (nonzero (f <$> l)). rewrite in_nonzero. intros [_ (y & Hy & Ey)]. apply Hx. rewrite (Hf x y); [done|by left|by right|done|done].
Qed.

Section File.
Context (s : kstate) (i : nat) (F : file_ok s i).

Let ip := get_inode s i.

Lemma file_blocks_nodup : NoDup (file_blocks s ip).
Proof using F.
  pose proof (fo_inj _ _ F) as Inj. fold ip in Inj. change MAXFILE with 268 in Inj. unfold file_blocks. apply NoDup_app. split_and!.
  - apply nodup_nonzero; [apply NoDup_seq|]. intros x y Hx%elem_of_seq Hy%elem_of_seq Hne E.
    assert (Hf : forall k, (k < 12)%nat -> faddr s ip (Z.of_nat k) = nth k (i_addrs ip) 0).
    { intros k Hk. unfold faddr. change NDIRECT with 12. rewrite (proj2 (Z.ltb_lt _ _)) by lia. by rewrite Nat2Z.id. }
    apply Nat2Z.inj, Inj; rewrite ?Hf by lia; done || lia.
  - intros b [Hb (bn & Hn & E)]%(in_direct s) H. change NDIRECT with 12 in Hn. apply elem_of_app in H as [[_ (bn' & Hn' & E')]%in_entries|H].
    + change NDIRECT with 12 in Hn'. change MAXFILE with 268 in Hn'. assert (bn = bn') by (apply Inj; [lia|lia|congruence|congruence]). lia.
    + unfold nonzero in H. apply list_elem_of_filter in H as [_ H%list_elem_of_singleton]. destruct (fo_addr _ _ F bn) as [_ H2]; [change MAXFILE with 268; lia|fold ip; congruence|].
      apply H2. fold ip. congruence.
  - apply NoDup_app. split_and!.
    + unfold entry_blocks. destruct (Z.eqb_spec (indirect ip) 0) as [E|E]; [constructor|]. apply nodup_nonzero; [apply NoDup_seq|].
      intros x y Hx%elem_of_seq Hy%elem_of_seq Hne Exy.
      assert (Hf : forall k, faddr s ip (Z.of_nat k + 12) = get32 (blk s (indirect ip)) (4 * k)).
      { intros k. unfold faddr. change NDIRECT with 12. rewrite (proj2 (Z.ltb_ge _ _)) by lia. rewrite (proj2 (Z.eqb_neq _ _) E). f_equal. lia. }
      assert (Z.of_nat x + 12 = Z.of_nat y + 12) by (apply Inj; rewrite ?Hf; done || lia). lia.
    + intros b [Hb (bn & Hn & E)]%in_entries H. unfold nonzero in H. apply list_elem_of_filter in H as [_ H%list_elem_of_singleton].
      change NDIRECT with 12 in Hn. destruct (fo_addr _ _ F bn) as [_ H2]; [lia|fold ip; congruence|]. apply H2. fold ip. congruence.
    + unfold nonzero. rewrite filter_cons. case_decide; [apply NoDup_singleton|constructor].
Qed.

Lemma file_blocks_data : data_blocks s (file_blocks s ip).
Proof using F.
  split; [exact file_blocks_nodup|]. apply Forall_forall. intros b [Hb Ho]%in_file_blocks. destruct Ho as [E|(bn & Hn & E)].
  - destruct (fo_ind _ _ F) as (H1 & H2 & _); [congruence|]. rewrite <- E in H1, H2. done.
  - destruct (fo_addr _ _ F bn Hn) as [(H1 & H2 & _) _]; [congruence|]. rewrite E in H1, H2. done.
Qed.
End File.

Lemma data_blocks_app s l l' : data_blocks s (l ++ l') -> data_blocks s l /\ data_blocks s l' /\ forall b, b ∈ l -> b ∉ l'.
Proof. intros [(N1 & N2 & N3)%NoDup_app [A1 A2]%Forall_app]. done. Qed.

Lemma data_blocks_freed held s bs l l' s' bs' : bitmap_ok s -> data_blocks s l' -> (forall b, b ∈ l -> b ∉ l') -> freed held s bs l s' bs' -> data_blocks s' l'.
Proof.
  intros B [N A] Hd Fd. pose proof (fframe_sb _ _ (fd_frame _ _ _ _ _ _ Fd)) as E. pose proof (data_start_pos s (bm_layout _ B)).
  split; [done|]. apply Forall_forall. intros x Hx. rewrite Forall_forall in A. destruct (A x Hx) as [H1 H2].
  rewrite E, (fd_used _ _ _ _ _ _ Fd), H2 by lia. split; [done|]. rewrite bool_decide_eq_false_2; [done|]. intros Hin. by apply (Hd x).
Qed.

(** ** [itrunc] *)

(** Freeing between a read and a release of other blocks. *)
Lemma freed_around held s bs l s1 s2 bs2 s3 : tstep s bs [] s1 bs -> freed held s1 bs l s2 bs2 -> tstep s2 bs2 [] s3 bs2 -> tx s3 bs2 [] ->
  freed [] s bs l s3 bs2.
Proof.
  intros S1 [T K N M B U F L D] S2 T3. pose proof (tstep_sb _ _ _ _ _ S1) as E. rewrite E in *.
  destruct (bitmap_ok_quiet _ _ _ _ S2 M) as [M3 U3].
  assert (U1 : forall x, used s1 x = used s x) by (intros x; unfold used; by rewrite E, (ts_blk _ _ _ _ _ S1)). split.
  - done.
  - by intros j b _ H%not_elem_of_nil.
  - done.
  - done.
  - intros x Hx. rewrite (ts_blk _ _ _ _ _ S2). cbn. rewrite B by done. apply (ts_blk _ _ _ _ _ S1).
  - intros x Hx. by rewrite U3, U, U1.
  - eapply fframe_trans; [by eapply fframe_tstep|]. eapply fframe_trans; [exact F|]. by eapply fframe_tstep.
  - eapply log_same_trans; [apply (ts_log _ _ _ _ _ S1)|]. eapply log_same_trans; [exact L|]. apply (ts_log _ _ _ _ _ S2).
  - by rewrite (ts_disk _ _ _ _ _ S2), D, (ts_disk _ _ _ _ _ S1).
Qed.

(** The indirect block is read, its entries are freed, and then itself. *)
Lemma itrunc_entries_tx s bs ind (l := nonzero ((fun j => get32 (blk s ind) (4 * j)) <$> seq 0 256)) :
  can_free [] s bs -> room s (absorb bs (sb_bmapstart (k_sb s))) [] 2 -> data_blocks s (l ++ [ind]) ->
  exists s' bs', (forall B (k : K B), (let! bp := bread ROOTDEV ind in let! d := bdata bp in
      itrunc_indirect (seq 0 (Z.to_nat NINDIRECT)) ROOTDEV d ;;; brelse bp ;;; bfree ROOTDEV ind ;;; k) s = k s') /\
    freed [] s bs (l ++ [ind]) s' bs' /\ k_inodes s' = k_inodes s.
Proof.
  intros C R D. destruct (data_blocks_app _ _ _ D) as (Dl & Di & Hdis). destruct C as [T B O _ _].
  pose proof (Forall_inv (proj2 Di)) as [Hr Hu]. destruct (data_not_meta s ind (bm_layout _ B) O ltac:(lia)) as [Hm _].
  destruct (tx_bread s bs [] ind T (not_elem_of_nil _)) as (bi & s1 & E1 & T1 & I1 & D1 & S1 & _ & H1).
  { destruct R as [_ _ R3]. pose proof (absorb_length bs (sb_bmapstart (k_sb s))). cbn [length] in *. lia. }
  pose proof (tstep_sb _ _ _ _ _ S1) as Esb. destruct (bitmap_ok_quiet _ _ _ _ S1 B) as [B1 U1].
  assert (C1 : can_free [ind] s1 bs).
  { split; [done|done|by rewrite Esb| |]. { intros b ->%list_elem_of_singleton. by rewrite Esb, U1. }
    rewrite Esb. destruct R as [R1 R2 R3]. destruct (ts_log _ _ _ _ _ S1) as (_ & L1 & L2 & _). split; rewrite ?L1, ?L2; cbn [length] in *; lia. }
  assert (Hd1 : forall l, data_blocks s l -> data_blocks s1 l).
  { intros l0 [N A]. split; [done|]. rewrite Esb. eapply Forall_impl; [exact A|]. intros x. by rewrite U1. }
  destruct (itrunc_indirect_tx [ind] (blk s ind) (seq 0 256) s1 bs C1) as (s2 & bs2 & E2 & F2 & I2); [by apply Hd1|intros b Hb Hin; by apply (Hdis b Hin)|].
  fold l in F2. assert (Hb2 : is_buf s2 bi ind) by (apply (fd_keeps _ _ _ _ _ _ F2); [done|by left]).
  assert (Hcl : ind ∈ bs2 \/ blk s2 ind = disk_blk s2 ind).
  { destruct H1 as [H1|H1]; [left; destruct (fd_bs _ _ _ _ _ _ F2) as [->| ->]; [done|apply elem_of_absorb; by left]|right].
    rewrite (fd_blk _ _ _ _ _ _ F2) by (by rewrite Esb). unfold disk_blk. rewrite (fd_disk _ _ _ _ _ _ F2). exact H1. }
  destruct (tx_brelse s2 bs2 [] ind bi (fd_tx _ _ _ _ _ _ F2) (not_elem_of_nil _) Hb2 Hcl) as (s3 & E3 & T3 & S3 & _).
  pose proof (freed_around _ _ _ _ _ _ _ _ S1 F2 S3 T3) as F3.
  assert (C0 : can_free [] s bs) by (split; [done|done|done|by intros b Hb%not_elem_of_nil|destruct R as [R1 R2 R3]; split; [done|lia|lia]]).
  pose proof (data_blocks_freed _ _ _ _ _ _ _ B Di Hdis F3) as D3. pose proof (Forall_inv (proj2 D3)) as [Hr3 Hu3].
  assert (C3 : can_free [] s3 bs2) by (eapply freed_again; [exact C0|exact F3|by intros b Hb%not_elem_of_nil]).
  destruct (bfree_freed [] s3 bs2 ind C3 Hr3 Hu3) as (s4 & bs4 & E4 & F4 & I4).
  exists s4, bs4. split; [|split; [exact (freed_trans _ _ _ _ _ _ _ _ _ F3 F4)|]].
  - intros B0 k. rewrite E1. unfold bdata. rewrite bind_gets, D1. change (Z.to_nat NINDIRECT) with 256%nat.
    by rewrite (bind_ok _ _ _ _ _ E2), (bind_ok _ _ _ _ _ E3), (bind_ok _ _ _ _ _ E4).
  - by rewrite I4, (tstep_inodes _ _ _ _ _ S3), I2, (tstep_inodes _ _ _ _ _ S1).
Qed.

Lemma zeroed_all A : length A = 13%nat -> <[12%nat := 0]> (zeroed A (seq 0 12)) = replicate 13 0.
Proof. intros H. do 14 (destruct A as [|? A]; [try discriminate H|]); reflexivity || discriminate H. Qed.

Lemma zeroed_done A : length A = 13%nat -> nth 12 A 0 = 0 -> zeroed A (seq 0 12) = replicate 13 0.
Proof. intros H H0. do 14 (destruct A as [|? A]; [try discriminate H|]); [cbn in *; by subst|discriminate H]. Qed.

Lemma itrunc_frees s bs i :
  tx s bs [] -> file_ok s i -> room s bs [] 3 ->
  exists s' bs', (itrunc i s = (inode_set i (set_i_size 0) ;;; iupdate i) s') /\ freed [] s bs (file_blocks s (get_inode s i)) s' bs' /\
    get_inode s' i = set_i_addrs (replicate 13 0) (get_inode s i) /\
    (forall j, j <> i -> get_inode s' j = get_inode s j) /\ length (k_inodes s') = length (k_inodes s).
Proof.
  intros T F R. pose proof (fo_bitmap _ _ F) as B. set (ip := get_inode s i). pose proof (fo_disk _ _ F) as [Hdev _ Hfit]. fold ip in Hdev, Hfit.
  pose proof (fo_entry _ _ F) as Hi. pose proof (absorb_length bs (sb_bmapstart (k_sb s))) as Hab.
  assert (R2 : room s (absorb bs (sb_bmapstart (k_sb s))) [] 2) by (destruct R as [Q1 Q2 Q3]; split; [done|case_bool_decide; lia|case_bool_decide; lia]).
  assert (C : can_free [] s bs).
  { split; [done|done|apply F|by intros b Hb%not_elem_of_nil|]. eapply room_le; [exact R2|lia|lia]. }
  pose proof (file_blocks_data s i F) as D. fold ip in D. unfold file_blocks in D |- *. destruct (data_blocks_app _ _ _ D) as (Dd & De & Hdis).
  destruct (itrunc_direct_tx i (seq 0 12) s bs C Hi Hdev (NoDup_seq _ _) Dd) as (s1 & bs1 & E1 & F1 & G1 & O1 & L1). fold ip in F1, G1.
  assert (C1 : can_free [] s1 bs1) by (eapply freed_again; [exact C|exact F1|by intros b Hb%not_elem_of_nil]).
  pose proof (data_blocks_freed _ _ _ _ _ _ _ B De Hdis F1) as De1. pose proof (fframe_sb _ _ (fd_frame _ _ _ _ _ _ F1)) as Esb.
  assert (A12 : nth 12 (i_addrs (get_inode s1 i)) 0 = indirect ip).
  { rewrite G1. cbn [i_addrs set_i_addrs]. apply zeroed_same. rewrite elem_of_seq. lia. }
  assert (D1 : i_dev (get_inode s1 i) = ROOTDEV) by (rewrite G1; exact Hdev).
  unfold itrunc. change (Z.to_nat NDIRECT) with 12%nat. rewrite (bind_ok _ _ _ _ _ E1). unfold inode_get. rewrite bind_gets, A12, D1.
  destruct (Z.eqb_spec (indirect ip) 0) as [Ei|Ei].
  - rewrite bind_ret. exists s1, bs1. split; [done|]. unfold entry_blocks, nonzero. rewrite (proj2 (Z.eqb_eq _ _) Ei). rewrite filter_cons, decide_False by (intros H; by apply H).
    cbn [app filter list_filter]. rewrite app_nil_r. split; [done|]. split; [|done]. rewrite G1. f_equal.
    apply zeroed_done; [apply Hfit|exact Ei].
  - assert (Eb : blk s1 (indirect ip) = blk s (indirect ip)).
    { apply (fd_blk _ _ _ _ _ _ F1). apply (data_not_meta s); [apply B|apply F|]. by destruct (fo_ind _ _ F Ei) as [[H _] _]. }
    assert (Ee : entry_blocks s ip ++ nonzero [indirect ip] = nonzero ((fun j => get32 (blk s1 (indirect ip)) (4 * j)) <$> seq 0 256) ++ [indirect ip]).
    { unfold entry_blocks. rewrite (proj2 (Z.eqb_neq _ _) Ei), Eb. f_equal. unfold nonzero. by rewrite filter_cons, decide_True. }
    rewrite Ee in De1 |- *. destruct (itrunc_entries_tx s1 bs1 (indirect ip) C1) as (s2 & bs2 & E2 & F2 & I2); [|exact De1|].
    { rewrite Esb. destruct (fd_log _ _ _ _ _ _ F1) as (_ & Q1 & Q2 & _). destruct R2 as [P1 P2 P3].
      destruct (fd_bs _ _ _ _ _ _ F1) as [->| ->]; rewrite ?absorb_idem; split; rewrite ?Q1, ?Q2; done. }
    set (g := fun ip => set_i_addrs (<[12%nat := 0]> (i_addrs ip)) ip). exists (upd_inode i g s2), bs2. split.
    { rewrite (bind_ok _ _ s1 tt (upd_inode i g s2)); [reflexivity|]. exact (E2 unit (set_addr i 12 0)). }
    split; [apply freed_inodes; exact (freed_trans _ _ _ _ _ _ _ _ _ F1 F2)|].
    assert (Gi : forall j, get_inode s2 j = get_inode s1 j) by (intros j; unfold get_inode; by rewrite I2).
    split; [rewrite get_upd_inode_same by (rewrite I2, L1; done); unfold g; rewrite Gi, G1; cbn [i_addrs set_i_addrs]; rewrite zeroed_all by apply Hfit; reflexivity|].
    split; [intros j Hj; rewrite get_upd_inode_other by done; rewrite Gi; by apply O1|]. by rewrite length_upd_inode, I2.
Qed.

(** A file without blocks. *)
Lemma empty_file_ok s i : (i < length (k_inodes s))%nat -> idisk s (get_inode s i) -> bitmap_ok s -> sb_size (k_sb s) <= BPB ->
  i_addrs (get_inode s i) = replicate 13 0 -> file_ok s i.
Proof.
  intros Hi D B O E. assert (Hind : indirect (get_inode s i) = 0) by (unfold indirect; by rewrite E).
  assert (Hf : forall bn, faddr s (get_inode s i) bn = 0).
  { intros bn. unfold faddr. rewrite Hind. case_match; [|done]. rewrite E. apply nth_zeroes. }
  split; try done; intros bn *; rewrite ?Hf; done.
Qed.

(** What [itrunc] leaves. *)
Record truncated (s : kstate) (i : nat) (s' : kstate) : Prop := {
  tr_ok : file_ok s' i;
  tr_inode : get_inode s' i = set_i_size 0 (set_i_addrs (replicate 13 0) (get_inode s i));
  tr_used : forall b, 0 <= b < sb_size (k_sb s) -> used s' b = true <-> used s b = true /\ ~ (b <> 0 /\ owns s i b);
  tr_blk : forall b, b <> sb_bmapstart (k_sb s) -> b <> IBLOCK (i_inum (get_inode s i)) (k_sb s) -> blk s' b = blk s b;
  tr_dinode : forall ip', dinode_of s' (i_inum (get_inode s i)) ip' = with_fields (get_inode s' i) ip';
  tr_dinodes : forall inum ip', 0 <= inum < sb_ninodes (k_sb s) -> inum <> i_inum (get_inode s i) -> dinode_of s' inum ip' = dinode_of s inum ip';
  tr_iblock : length (blk s' (IBLOCK (i_inum (get_inode s i)) (k_sb s))) = Z.to_nat BSIZE;
  tr_others : forall j, j <> i -> get_inode s' j = get_inode s j;
  tr_len : length (k_inodes s') = length (k_inodes s);
  tr_frame : fframe s s';
  tr_disk : k_disk s' = k_disk s
}.

(** The bitmap after a change of an inode block. *)
Lemma iblock_bitmap s bs s' bs' inum d (ib := IBLOCK inum (k_sb s)) :
  bitmap_ok s -> 0 <= inum < sb_ninodes (k_sb s) -> tstep s bs [(ib, d)] s' bs' ->
  bitmap_ok s' /\ (forall x, 0 <= x < sb_size (k_sb s) -> used s' x = used s x) /\ forall x, x <> ib -> blk s' x = blk s x.
Proof.
  intros B Hn S. pose proof B as [L M1 M2]. destruct (IBLOCK_data s inum L Hn) as (_ & _ & Hne). fold ib in Hne.
  pose proof (tstep_sb _ _ _ _ _ S) as Esb.
  assert (Hb : forall x, x <> ib -> blk s' x = blk s x).
  { intros x H. rewrite (ts_blk _ _ _ _ _ S). apply upds_not. cbn. by rewrite list_elem_of_singleton. }
  assert (U : forall x, 0 <= x < sb_size (k_sb s) -> used s' x = used s x).
  { intros x Hx. unfold used. rewrite Esb, Hb; [done|]. by apply not_eq_sym, Hne. }
  split; [|done]. split; rewrite ?Esb; [by eapply fs_layout_step| |].
  - intros x Hx. rewrite Hb by (by apply not_eq_sym, Hne). by apply M1.
  - intros x Hx. rewrite U; [by apply M2|]. destruct L as [_ _ _ Hd]. lia.
Qed.

(** The inode is written last. *)
Lemma truncated_step s bs i s2 bs2 s3 bs3 :
  file_ok s i -> freed [] s bs (file_blocks s (get_inode s i)) s2 bs2 ->
  get_inode s2 i = set_i_size 0 (set_i_addrs (replicate 13 0) (get_inode s i)) ->
  tstep s2 bs2 [(IBLOCK (i_inum (get_inode s2 i)) (k_sb s2),
    dinode_put (blk s2 (IBLOCK (i_inum (get_inode s2 i)) (k_sb s2))) (dinode_off (i_inum (get_inode s2 i))) (get_inode s2 i))] s3 bs3 ->
  idisk s2 (get_inode s2 i) -> length (k_inodes s2) = length (k_inodes s) -> (forall j, j <> i -> get_inode s2 j = get_inode s j) ->
  length (blk s (IBLOCK (i_inum (get_inode s i)) (k_sb s))) = Z.to_nat BSIZE -> truncated s i s3.
Proof.
  intros F Fd G2 S3 D2 Hi Oth Hl. pose proof (fframe_sb _ _ (fd_frame _ _ _ _ _ _ Fd)) as Esb. pose proof (tstep_sb _ _ _ _ _ S3) as Esb3.
  pose proof (fo_bitmap _ _ F) as B. pose proof (fd_bitmap _ _ _ _ _ _ Fd) as B2. pose proof (tstep_inodes _ _ _ _ _ S3) as Ein.
  destruct (iblock_bitmap s2 bs2 s3 bs3 _ _ B2 (id_inum _ _ D2) S3) as (B3 & U3 & Ho3).
  assert (Gi : forall j, get_inode s3 j = get_inode s2 j) by (intros j; unfold get_inode; by rewrite Ein).
  assert (Eim : i_inum (get_inode s2 i) = i_inum (get_inode s i)) by by rewrite G2.
  set (ib := IBLOCK (i_inum (get_inode s i)) (k_sb s)) in *. assert (Hib : IBLOCK (i_inum (get_inode s2 i)) (k_sb s2) = ib) by by rewrite Eim, Esb.
  pose proof (bm_layout _ B) as L. pose proof (fl_size _ L) as Hsz.
  destruct (IBLOCK_data s _ L (id_inum _ _ (fo_disk _ _ F))) as (_ & _ & Hne). specialize (Hne 0 ltac:(lia)). fold ib in Hne.
  rewrite BBLOCK_one in Hne by (by try apply F; lia).
  assert (Hl2 : length (blk s2 ib) = Z.to_nat BSIZE) by (by rewrite (fd_blk _ _ _ _ _ _ Fd)).
  assert (Hdi := iupdate_dinodes s2 bs2 s3 bs3 (get_inode s2 i) (bm_layout _ B2) D2 ltac:(by rewrite Hib) S3). rewrite Esb, Eim in Hdi.
  split.
  - apply empty_file_ok; [rewrite Ein, Hi; apply F| |done|rewrite Esb3, Esb; apply F|by rewrite Gi, G2]. rewrite Gi. destruct D2. split; by rewrite ?Esb3.
  - by rewrite Gi, G2.
  - intros b Hb. rewrite U3 by (by rewrite Esb). rewrite (fd_used _ _ _ _ _ _ Fd) by done. rewrite andb_true_iff, negb_true_iff, bool_decide_eq_false, in_file_blocks. tauto.
  - intros b Hb1 Hb2. rewrite Ho3 by (by rewrite Hib). by apply (fd_blk _ _ _ _ _ _ Fd).
  - intros ip'. rewrite Hdi by apply (fo_disk _ _ F). by rewrite decide_True, Gi.
  - intros inum ip' Hin Hne'. rewrite Hdi by done. rewrite decide_False by done. unfold dinode_of. rewrite Esb, (fd_blk _ _ _ _ _ _ Fd); [done|].
    destruct (IBLOCK_data s _ L Hin) as (_ & _ & Hx). specialize (Hx 0 ltac:(lia)). by rewrite BBLOCK_one in Hx by (by try apply F; lia).
  - rewrite (ts_blk _ _ _ _ _ S3), Hib, upds_one. by rewrite length_dinode_put.
  - intros j Hj. rewrite Gi. by apply Oth.
  - by rewrite Ein.
  - eapply fframe_trans; [apply Fd|by eapply fframe_tstep].
  - by rewrite (ts_disk _ _ _ _ _ S3), (fd_disk _ _ _ _ _ _ Fd).
Qed.

Lemma itrunc_ok s bs i :
  tx s bs [] -> file_ok s i -> room s bs [] 3 -> length (blk s (IBLOCK (i_inum (get_inode s i)) (k_sb s))) = Z.to_nat BSIZE ->
  exists s' bs', itrunc i s = Ok tt s' /\ tx s' bs' [] /\ truncated s i s' /\ (length bs' <= length bs + 2)%nat /\ log_same (k_log s) (k_log s').
Proof.
  intros T F R Hl. destruct (itrunc_frees s bs i T F R) as (s1 & bs1 & E1 & Fd & G1 & O1 & L1). set (ip := get_inode s i) in *.
  pose proof (fframe_sb _ _ (fd_frame _ _ _ _ _ _ Fd)) as Esb.
  set (s2 := upd_inode i (set_i_size 0) s1). pose proof (freed_inodes _ _ _ _ _ _ (alter (set_i_size 0) i (k_inodes s1)) Fd) as Fd2.
  change (set_k_inodes _ s1) with s2 in Fd2.
  assert (G2 : get_inode s2 i = set_i_size 0 (set_i_addrs (replicate 13 0) ip)) by (unfold s2; rewrite get_upd_inode_same by (rewrite L1; apply F); by rewrite G1).
  assert (D2 : idisk s2 (get_inode s2 i)).
  { destruct (fo_disk _ _ F) as [D1 D2 [H1 H2 H3 H4 H5 H6 H7]]. fold ip in D1, D2, H1, H2, H3, H4. rewrite G2. change (k_sb s2) with (k_sb s1).
    split; rewrite ?Esb; [done|change (k_sb s2) with (k_sb s1); by rewrite Esb|]. split; try done. cbn. repeat constructor; lia. }
  assert (Hlen : (length bs1 <= length bs + 1)%nat).
  { destruct (fd_bs _ _ _ _ _ _ Fd) as [->| ->]; [lia|]. rewrite absorb_length. case_bool_decide; lia. }
  pose proof (fd_bitmap _ _ _ _ _ _ Fd2) as B2.
  destruct (iupdate_tx s2 bs1 [] i (fd_tx _ _ _ _ _ _ Fd2) (bm_layout _ B2) D2 (not_elem_of_nil _)) as (s3 & E3 & T3 & _ & S3).
  { destruct (fd_log _ _ _ _ _ _ Fd2) as (_ & Q1 & Q2 & _). destruct R as [P1 P2 P3]. split; rewrite ?Q1, ?Q2; cbn [length] in *; [done|lia|lia]. }
  exists s3, (absorb bs1 (IBLOCK (i_inum (get_inode s2 i)) (k_sb s2))). split; [rewrite E1; unfold inode_set; rewrite bind_modify; exact E3|]. split; [done|].
  split; [|split; [rewrite absorb_length; case_bool_decide; lia|eapply log_same_trans; [apply (fd_log _ _ _ _ _ _ Fd2)|apply S3]]].
  apply (truncated_step s bs i s2 bs1 s3 _ F Fd2 G2 S3 D2); [unfold s2; by rewrite length_upd_inode, L1| |exact Hl].
  intros j Hj. unfold s2. rewrite get_upd_inode_other by done. by apply O1.
Qed.

(** ** [iput] *)

(** The disk after inode [i] and its blocks were freed. *)
Record inode_freed (s : kstate) (i : nat) (s' : kstate) : Prop := {
  nf_used : forall b, 0 <= b < sb_size (k_sb s) -> used s' b = true <-> used s b = true /\ ~ (b <> 0 /\ owns s i b);
  nf_blk : forall b, b <> sb_bmapstart (k_sb s) -> b <> IBLOCK (i_inum (get_inode s i)) (k_sb s) -> blk s' b = blk s b;
  nf_dinode : forall ip', i_type (dinode_of s' (i_inum (get_inode s i)) ip') = 0;
  nf_dinodes : forall inum ip', 0 <= inum < sb_ninodes (k_sb s) -> inum <> i_inum (get_inode s i) -> dinode_of s' inum ip' = dinode_of s inum ip';
  nf_bitmap : bitmap_ok s';
  nf_disk : k_disk s' = k_disk s
}.

Lemma free_inode_tx s bs i :
  tx s bs [] -> file_ok s i -> room s bs [] 4 -> length (blk s (IBLOCK (i_inum (get_inode s i)) (k_sb s))) = Z.to_nat BSIZE ->
  exists s' bs', (forall B (k : K B), (itrunc i ;;; inode_set i (set_i_type 0) ;;; iupdate i ;;; inode_set i (set_i_valid false) ;;; k) s = k s') /\
    tx s' bs' [] /\ inode_freed s i s' /\ fframe s s' /\
    get_inode s' i = set_i_valid false (set_i_type 0 (set_i_size 0 (set_i_addrs (replicate 13 0) (get_inode s i)))) /\
    length (k_inodes s') = length (k_inodes s) /\ forall j, j <> i -> get_inode s' j = get_inode s j.
Proof.
  intros T F R Hl. destruct (itrunc_ok s bs i T F) as (s1 & bs1 & E1 & T1 & Tr & Hn1 & Lg1); [by eapply room_le; [exact R|lia|cbn [length]; lia]|done|].
  pose proof (fframe_sb _ _ (tr_frame _ _ _ Tr)) as Esb. pose proof (tr_inode _ _ _ Tr) as G1. set (ip := get_inode s i) in *.
  set (s2 := upd_inode i (set_i_type 0) s1). pose proof (tr_ok _ _ _ Tr) as F1.
  assert (G2 : get_inode s2 i = set_i_type 0 (set_i_size 0 (set_i_addrs (replicate 13 0) ip))) by (unfold s2; rewrite get_upd_inode_same by apply F1; by rewrite G1).
  assert (D2 : idisk s2 (get_inode s2 i)).
  { destruct (fo_disk _ _ F1) as [D1 D2 [H1 H2 H3 H4 H5 H6 H7]]. rewrite G1 in *. rewrite G2. split; [done|done|]. split; try done. }
  assert (B2 : bitmap_ok s2) by (apply bitmap_ok_inodes, F1).
  destruct (iupdate_tx s2 bs1 [] i (tx_inodes _ _ _ _ T1) (bm_layout _ B2) D2 (not_elem_of_nil _)) as (s3 & E3 & T3 & _ & S3).
  { destruct Lg1 as (_ & Q1 & Q2 & _). destruct R as [P1 P2 P3]. change (k_log s2) with (k_log s1). split; change (k_log s2) with (k_log s1); rewrite ?Q1, ?Q2; cbn [length] in *; [done|lia|lia]. }
  destruct (iblock_bitmap s2 bs1 s3 _ _ _ B2 (id_inum _ _ D2) S3) as (B3 & U3 & Ho3). pose proof (tstep_inodes _ _ _ _ _ S3) as Ein.
  set (s4 := upd_inode i (set_i_valid false) s3). exists s4, (absorb bs1 (IBLOCK (i_inum (get_inode s2 i)) (k_sb s2))).
  assert (Eim : i_inum (get_inode s2 i) = i_inum ip) by by rewrite G2.
  assert (Hib : IBLOCK (i_inum (get_inode s2 i)) (k_sb s2) = IBLOCK (i_inum ip) (k_sb s)) by (rewrite Eim; change (k_sb s2) with (k_sb s1); by rewrite Esb).
  assert (Gi : forall j, get_inode s3 j = get_inode s2 j) by (intros j; unfold get_inode; by rewrite Ein).
  assert (Hdi := iupdate_dinodes s2 bs1 s3 _ (get_inode s2 i) (bm_layout _ B2) D2 ltac:(rewrite Hib; apply (tr_iblock _ _ _ Tr)) S3).
  change (k_sb s2) with (k_sb s1) in Hdi, U3. rewrite Esb in Hdi, U3. rewrite Eim in Hdi. split_and!.
  - intros B0 k. rewrite (bind_ok _ _ _ _ _ E1). unfold inode_set. rewrite bind_modify. by rewrite (bind_ok _ _ _ _ _ E3), bind_modify.
  - by apply tx_inodes.
  - split.
    + intros b Hb. etrans; [|by apply (tr_used _ _ _ Tr)]. change (used s4 b) with (used s3 b). rewrite U3 by done. done.
    + intros b Hb1 Hb2. change (blk s4 b) with (blk s3 b). rewrite Ho3 by (by rewrite Hib). change (blk s2 b) with (blk s1 b). by apply (tr_blk _ _ _ Tr).
    + intros ip'. change (i_type (dinode_of s3 (i_inum ip) ip') = 0). rewrite Hdi, decide_True by (done || apply (fo_disk _ _ F)). by rewrite G2.
    + intros inum ip' Hin Hne. change (dinode_of s3 inum ip' = dinode_of s inum ip'). rewrite Hdi, decide_False by done.
      change (dinode_of s2 inum ip') with (dinode_of s1 inum ip'). by apply (tr_dinodes _ _ _ Tr).
    + by apply bitmap_ok_inodes.
    + change (k_disk s3 = k_disk s). rewrite (ts_disk _ _ _ _ _ S3). apply (tr_disk _ _ _ Tr).
  - eapply fframe_trans; [apply (tr_frame _ _ _ Tr)|]. eapply fframe_trans; [apply (fframe_inodes s1)|]. eapply fframe_trans; [by eapply fframe_tstep|apply fframe_inodes].
  - unfold s4. rewrite get_upd_inode_same by (rewrite Ein; unfold s2; rewrite length_upd_inode; apply F1). by rewrite Gi, G2.
  - unfold s4. rewrite length_upd_inode, Ein. unfold s2. rewrite length_upd_inode. apply (tr_len _ _ _ Tr).
  - intros j Hj. unfold s4. rewrite get_upd_inode_other by done. rewrite Gi. unfold s2. rewrite get_upd_inode_other by done. by apply (tr_others _ _ _ Tr).
Qed.

(** The last reference to a file that no directory names. *)
Definition iput_frees (ip : inode) : bool := (i_ref ip =? 1) && i_valid ip && (i_nlink ip =? 0).

Lemma file_ok_upd s i f : file_ok s i -> idisk s (f (get_inode s i)) -> i_addrs (f (get_inode s i)) = i_addrs (get_inode s i) -> file_ok (upd_inode i f s) i.
Proof.
  intros F D E. assert (G : get_inode (upd_inode i f s) i = f (get_inode s i)) by (by rewrite get_upd_inode_same by apply F).
  apply (file_ok_frame s); [done|by apply bitmap_ok_inodes, F|done|done| | |by rewrite G].
  - unfold upd_inode. cbn. rewrite length_alter. apply F.
  - rewrite G. destruct D. by split.
Qed.

Lemma file_ok_lock s i lk : file_ok s i -> file_ok (upd_inode i (set_i_lock lk) s) i.
Proof. intros F. apply file_ok_upd; [done| |done]. destruct (fo_disk _ _ F) as [D1 D2 []]. by split. Qed.

(** The end of [iput], with the table locked. *)
Lemma drop_ref_eq s i : k_held s = [] -> (i < length (k_inodes s))%nat -> 1 <= i_ref (get_inode s i) < 2 ^ 31 ->
  (inode_set i (fun ip => set_i_ref (s32 (i_ref ip - 1)) ip) ;;; release itable_lock) (set_k_held [itable_lock] s) =
  Ok tt (upd_inode i (fun ip => set_i_ref (i_ref ip - 1) ip) s).
Proof.
  intros Hh Hi Hr. unfold inode_set. rewrite bind_modify, (release_ok _ []) by (reflexivity || apply not_elem_of_nil). f_equal.
  assert (E : alter (fun ip => set_i_ref (s32 (i_ref ip - 1)) ip) i (k_inodes s) = alter (fun ip => set_i_ref (i_ref ip - 1) ip) i (k_inodes s)).
  { apply list_eq. intros j. destruct (decide (j = i)) as [->|Hne]; [|by rewrite !list_lookup_alter_ne]. rewrite !list_lookup_alter_eq.
    unfold get_inode in Hr. destruct (lookup_lt_is_Some_2 _ _ Hi) as [x Hx]. rewrite Hx in *. cbn in *. by rewrite s32_small by lia. }
  unfold upd_inode. cbn [k_inodes set_k_held]. rewrite E, <- Hh. reflexivity.
Qed.

(** [iput] when it frees the file. *)
Lemma iput_frees_tx s bs i (ip := get_inode s i) :
  tx s bs [] -> file_ok s i -> iput_frees ip = true -> sl_locked (i_lock ip) = false -> room s bs [] 4 ->
  length (blk s (IBLOCK (i_inum ip) (k_sb s))) = Z.to_nat BSIZE ->
  exists s' bs', ((acquiresleep (sl_inode i) ;;; release itable_lock ;;; itrunc i ;;; inode_set i (set_i_type 0) ;;; iupdate i ;;;
      inode_set i (set_i_valid false) ;;; releasesleep (sl_inode i) ;;; acquire itable_lock) ;;;
      inode_set i (fun ip => set_i_ref (s32 (i_ref ip - 1)) ip) ;;; release itable_lock) (set_k_held [itable_lock] s) = Ok tt s' /\
    tx s' bs' [] /\ inode_freed s i s' /\ i_ref (get_inode s' i) = 0 /\ i_valid (get_inode s' i) = false /\
    sl_locked (i_lock (get_inode s' i)) = false /\ (forall j, j <> i -> get_inode s' j = get_inode s j).
Proof.
  intros T F Ef Hlk R Hl. pose proof (ca_spin _ _ _ (tx_cache _ _ _ T)) as Hh. pose proof (fo_entry _ _ F) as Hi.
  destruct (ca_cur _ _ _ (tx_cache _ _ _ T)) as (me & Hme & _). set (lk := mkSleeplock true (p_pid (get_proc s me))). set (s1 := upd_inode i (set_i_lock lk) s).
  assert (G1 : get_inode s1 i = set_i_lock lk ip) by (unfold s1; by rewrite get_upd_inode_same).
  assert (E0 : acquiresleep (sl_inode i) (set_k_held [itable_lock] s) = Ok tt (set_k_held [itable_lock] s1)).
  { rewrite (acquiresleep_free (sl_inode i) me); [reflexivity|done| |done]. cbn. by rewrite list_elem_of_singleton. }
  assert (E1 : release itable_lock (set_k_held [itable_lock] s1) = Ok tt s1).
  { rewrite (release_ok _ []) by (reflexivity || apply not_elem_of_nil). rewrite <- Hh. reflexivity. }
  destruct (free_inode_tx s1 bs i (tx_inodes _ _ _ _ T) (file_ok_lock s i lk F)) as (s2 & bs2 & E2 & T2 & Nf & Fr & G2 & L2 & O2).
  { destruct R as [R1 R2 R3]. by split. } { rewrite G1. exact Hl. }
  pose proof (tx_cache _ _ _ T2) as C2. pose proof (ca_spin _ _ _ C2) as Hh2.
  assert (E3 : releasesleep (sl_inode i) s2 = Ok tt (wake_all (ch_sleeplock (sl_inode i)) (upd_inode i (set_i_lock (mkSleeplock false 0)) s2))).
  { apply releasesleep_eq; [apply C2|intros j _; rewrite Hh2; apply not_elem_of_nil|rewrite Hh2; apply not_elem_of_nil]. }
  set (s3 := upd_inode i (set_i_lock (mkSleeplock false 0)) s2) in *. set (s4 := wake_all _ s3) in *.
  assert (G4 : get_inode s4 i = set_i_lock (mkSleeplock false 0) (get_inode s2 i)).
  { change (get_inode s4 i) with (get_inode s3 i). unfold s3. rewrite get_upd_inode_same; [done|]. rewrite L2. unfold s1. by rewrite length_upd_inode. }
  assert (Hr4 : i_ref (get_inode s4 i) = 1).
  { rewrite G4, G2, G1. apply andb_true_iff in Ef as [[Ef _]%andb_true_iff _]. by apply Z.eqb_eq in Ef. }
  assert (T4 : tx s4 bs2 []).
  { apply (tx_inodes (k_inodes s3)) in T2. destruct T2 as [C L Hz Hc Hd]. split; [by apply cache_wake_all|by apply (logged_frame s3)|done|done|done]. }
  assert (Hl4 : (i < length (k_inodes s4))%nat) by (change (k_inodes s4) with (k_inodes s3); unfold s3; rewrite length_upd_inode, L2; unfold s1; by rewrite length_upd_inode).
  pose proof (drop_ref_eq s4 i Hh2 Hl4 ltac:(lia)) as E4. set (s5 := upd_inode i _ s4) in E4. exists s5, bs2.
  assert (G5 : get_inode s5 i = set_i_ref (i_ref (get_inode s4 i) - 1) (get_inode s4 i)) by (unfold s5; by rewrite get_upd_inode_same).
  split_and!.
  - rewrite bind_assoc, (bind_ok _ _ _ _ _ E0), bind_assoc, (bind_ok _ _ _ _ _ E1).
    rewrite (bind_ok _ _ s1 tt (set_k_held [itable_lock] s4)); [exact E4|]. rewrite E2, (bind_ok _ _ _ _ _ E3), acquire_ok by (change (k_held s4) with (k_held s2); rewrite Hh2; apply not_elem_of_nil).
    change (k_held s4) with (k_held s2). by rewrite Hh2.
  - by apply tx_inodes.
  - destruct Nf as [N1 N2 N3 N4 N5 N6]. rewrite G1 in N2, N3, N4. split; [|exact N2|exact N3|exact N4| |exact N6].
    + intros b Hb. change (used s5 b) with (used s2 b). rewrite (N1 b Hb). change (used s1 b) with (used s b). unfold owns. rewrite G1. done.
    + destruct N5 as [L B M]. split; [by apply (fs_layout_frame s2)|exact B|exact M].
  - rewrite G5. cbn. lia.
  - rewrite G5, G4, G2. done.
  - rewrite G5, G4. done.
  - intros j Hj. unfold s5. rewrite get_upd_inode_other by done. change (get_inode s4 j) with (get_inode s3 j). unfold s3. rewrite get_upd_inode_other, O2 by done.
    unfold s1. by rewrite get_upd_inode_other.
Qed.

(** [C25] [iput] with the last reference to a file that has no name: the blocks
    of the file become free, exactly these, the inode on disk becomes free,
    and the table entry with it; no other block, inode or entry changes, and
    nothing is written before the commit.  In all other cases only the
    reference is dropped. *)
Theorem iput_spec (s : kstate) (bs : list Z) (i : nat) :
  let ip := get_inode s i in
  tx s bs [] -> file_ok s i -> 1 <= i_ref ip < 2 ^ 31 ->
  if iput_frees ip then
    sl_locked (i_lock ip) = false -> room s bs [] 4 -> length (blk s (IBLOCK (i_inum ip) (k_sb s))) = Z.to_nat BSIZE ->
    exists s' bs', iput i s = Ok tt s' /\ tx s' bs' [] /\ inode_freed s i s' /\
      i_ref (get_inode s' i) = 0 /\ i_valid (get_inode s' i) = false /\ sl_locked (i_lock (get_inode s' i)) = false /\
      (forall j, j <> i -> get_inode s' j = get_inode s j)
  else iput i s = Ok tt (upd_inode i (fun ip => set_i_ref (i_ref ip - 1) ip) s).
Proof.
  intros ip T F Hr. pose proof (ca_spin _ _ _ (tx_cache _ _ _ T)) as Hh. pose proof (fo_entry _ _ F) as Hi. unfold iput.
  rewrite bind_acquire by (rewrite Hh; apply not_elem_of_nil). rewrite Hh. unfold inode_get. rewrite bind_gets.
  change (get_inode (set_k_held [itable_lock] s) i) with ip. fold (iput_frees ip). destruct (iput_frees ip) eqn:Ef.
  - intros Hlk R Hl. exact (iput_frees_tx s bs i T F Ef Hlk R Hl).
  - rewrite bind_ret. apply drop_ref_eq; [done|done|]. fold ip. lia.
Qed.

(** ** Witnesses *)

(** The file in block 46, without a name. *)
Definition unlinked_state : kstate := upd_inode 0 (set_i_nlink 0) hello_state.

Lemma iput_spec_witness : exists s' bs', iput 0 unlinked_state = Ok tt s' /\ tx s' bs' [] /\ used s' 46 = false.
Proof.
  assert (F0 : file_ok hello_state 0) by (apply one_ok; unfold T_FILE; lia).
  assert (G : get_inode unlinked_state 0 = mkInode ROOTDEV 7 1 sleeplock_zero true T_FILE 0 0 0 5 (46 :: replicate 12 0)).
  { unfold unlinked_state. rewrite get_upd_inode_same by apply F0. unfold hello_state. by rewrite one_inode. }
  pose proof (iput_spec unlinked_state [] 0) as H. cbv zeta in H. rewrite G in H. change (iput_frees _) with true in H. cbn iota in H.
  destruct H as (s' & bs' & E & T' & Nf & _).
  - apply (tx_inodes (k_inodes unlinked_state) fs_state), fs_tx.
  - apply file_ok_upd; [done| |done]. destruct (fo_disk _ _ F0) as [D1 D2 []]. split; [done|done|]. split; try done; cbn; lia.
  - cbn. lia.
  - done.
  - destruct (fs_room 4 ltac:(lia)) as [R1 R2 R3]. split; [exact R1|exact R2|exact R3].
  - change (blk unlinked_state) with (blk fs_state). rewrite fs_blk. done.
  - exists s', bs'. split; [exact E|]. split; [exact T'|]. apply not_true_is_false. intros Hu.
    destruct (proj1 (nf_used _ _ _ Nf 46 ltac:(change (sb_size (k_sb unlinked_state)) with 2000; lia)) Hu) as [_ Hn].
    apply Hn. split; [lia|]. right. exists 0. split; [change MAXFILE with 268; lia|]. unfold faddr. rewrite G. reflexivity.
Defined.
