(* ===== verification/FsDir.v ===== *)
(** * Directories

    A directory is a file of 16-byte entries.  [dmap] is the meaning of one:
    a finite map from names to inode numbers.  [dirlookup] of kernel/fs.c
    evaluates it, and [dirlink] extends it by one name. *)

From S2P Require Import Prelude KString Bytes KState Riscv Spinlock Kalloc Vm Sched Uart Console Sleeplock.
From S2P Require Import Bio Log LogSafe Fs FsPath FsBlock FsInode FsFile.

(** ** Names *)

(** The part of a name that counts: up to its NUL, and no more than
    [DIRSIZ] characters. *)
Definition name_of (l : list Z) : list Z := take DIRSIZ (cstr l).

Lemma str_ncmp_zero n p q : str_ncmp n p q = 0 <-> take n (cstr p) = take n (cstr q).
Proof.
  revert p q. induction n as [|n IH]; intros p q; cbn [str_ncmp]; [done|].
  destruct p as [|a p], q as [|b q]; cbn [nth tail cstr].
  - done.
  - cbn. destruct (Z.eqb_spec b 0) as [->|Hb]; [done|]. split; [lia|done].
  - destruct (Z.eqb_spec a 0) as [->|Ha]; cbn; [done|]. destruct (Z.eqb_spec a 0); [done|]. split; [lia|done].
  - destruct (Z.eqb_spec a 0) as [->|Ha]; cbn [negb andb].
    + destruct (Z.eqb_spec b 0) as [->|Hb]; [done|]. split; [lia|done].
    + destruct (Z.eqb_spec a b) as [->|Hab].
      * destruct (Z.eqb_spec b 0); [done|]. rewrite IH. cbn [take]. split; [by intros ->|by intros [= ->]].
      * split; [lia|]. destruct (Z.eqb_spec b 0); [done|]. by intros [= -> _].
Qed.

Lemma namecmp_zero p q : namecmp p q = 0 <-> name_of p = name_of q.
Proof. apply str_ncmp_zero. Qed.

Lemma length_str_ncpy n t : length (str_ncpy n t) = n.
Proof.
  revert t. induction n as [|n IH]; intros t; [done|]. cbn [str_ncpy]. destruct t as [|c t]; [apply length_replicate|].
  destruct (c =? 0); [apply length_replicate|]. cbn. by rewrite IH.
Qed.

Lemma cstr_zeroes n : cstr (replicate n 0) = [].
Proof. by destruct n. Qed.

Lemma cstr_str_ncpy n t : cstr (str_ncpy n t) = take n (cstr t).
Proof.
  revert t. induction n as [|n IH]; intros t; [done|]. cbn [str_ncpy]. destruct t as [|c t]; [apply cstr_zeroes|].
  destruct (Z.eqb_spec c 0) as [->|Hc]; [by rewrite cstr_zeroes|]. cbn [cstr]. destruct (Z.eqb_spec c 0); [done|].
  cbn [take]. by rewrite IH.
Qed.

(** Storing a name and comparing with it. *)
Lemma name_of_ncpy t : name_of (str_ncpy DIRSIZ t) = name_of t.
Proof. unfold name_of. rewrite cstr_str_ncpy, take_take. done. Qed.

Lemma byte_list_ncpy n t : byte_list t -> byte_list (str_ncpy n t).
Proof.
  revert t. induction n as [|n IH]; intros t H; [constructor|]. cbn [str_ncpy]. destruct H as [|c t Hc Ht]; [apply byte_list_replicate|].
  destruct (c =? 0); [apply byte_list_replicate|]. constructor; [done|by apply IH].
Qed.

(** ** The entries *)

Definition dent (s : kstate) (ip : inode) (k : Z) : list Z := fbyte s ip <$> seqZ (k * dirent_size) dirent_size.

Definition nents (ip : inode) : Z := i_size ip / dirent_size.

Definition is_entry (s : kstate) (ip : inode) (name : list Z) (k : Z) : bool :=
  negb (de_inum (dent s ip k) =? 0) && (namecmp name (de_name (dent s ip k)) =? 0).

Fixpoint find_in (s : kstate) (ip : inode) (name : list Z) (ks : list Z) : option Z :=
  match ks with
  | [] => None
  | k :: ks => if is_entry s ip name k then Some k else find_in s ip name ks
  end.

(** The number of the first entry for [name], and its inode number. *)
Definition find_entry (s : kstate) (ip : inode) (name : list Z) : option Z := find_in s ip name (seqZ 0 (nents ip)).

Definition dmap (s : kstate) (ip : inode) (name : list Z) : option Z :=
  (fun k => de_inum (dent s ip k)) <$> find_entry s ip name.

Record dir_ok (s : kstate) (i : nat) : Prop := {
  do_file : file_ok s i;
  do_mapped : mapped s i;
  do_type : i_type (get_inode s i) = T_DIR;
  do_size : i_size (get_inode s i) mod dirent_size = 0;
  do_max : i_size (get_inode s i) <= MAXFILE * BSIZE
}.

Lemma length_dent s ip k : length (dent s ip k) = 16%nat.
Proof. unfold dent. by rewrite length_fmap, length_seqZ. Qed.

Lemma dent_quiet s bs s' bs' i k : tstep s bs [] s' bs' -> file_ok s i -> dent s' (get_inode s' i) k = dent s (get_inode s i) k.
Proof. intros S F. apply list_fmap_ext. intros j x _. by apply (file_ok_quiet _ _ _ _ i S F). Qed.

Lemma find_in_ext s ip s' ip' name name' ks :
  name_of name = name_of name' -> (forall k, k ∈ ks -> dent s' ip' k = dent s ip k) -> find_in s' ip' name' ks = find_in s ip name ks.
Proof.
  intros En H. induction ks as [|k ks IH]; [done|]. cbn [find_in]. unfold is_entry. rewrite H by left.
  assert (E : (namecmp name' (de_name (dent s ip k)) =? 0) = (namecmp name (de_name (dent s ip k)) =? 0)).
  { apply eq_true_iff_eq. rewrite !Z.eqb_eq, !namecmp_zero. by rewrite En. }
  rewrite E. destruct (_ && _); [done|]. apply IH. intros j Hj. apply H. by right.
Qed.

Lemma dir_ok_quiet s bs s' bs' i : tstep s bs [] s' bs' -> dir_ok s i -> dir_ok s' i.
Proof.
  intros S [F M Ht Hs Hm]. destruct (file_ok_quiet _ _ _ _ i S F) as (F' & Ei & Hf & _). split; [done| |by rewrite Ei..].
  intros bn Hbn. rewrite Hf, Ei. by apply M.
Qed.

Lemma dir_offsets_eq s i : dir_ok s i -> dir_offsets (i_size (get_inode s i)) = (fun k => k * dirent_size) <$> seqZ 0 (nents (get_inode s i)).
Proof.
  intros D. unfold dir_offsets, nents. do 2 f_equal. pose proof (do_size _ _ D). unfold dirent_size in *. mlia.
Qed.

(** Reading entry [k]. *)
Lemma read_entry s bs i k : tx s bs [] -> (length bs < NBUF)%nat -> dir_ok s i -> 0 <= k < nents (get_inode s i) ->
  exists s', readi i kernel_dst (k * dirent_size) dirent_size s = Ok (dirent_size, dent s (get_inode s i) k) s' /\
    tx s' bs [] /\ tstep s bs [] s' bs.
Proof.
  intros T Hn D Hk. pose proof (do_max _ _ D) as Hm. pose proof (do_size _ _ D) as Hs. rewrite MAXFILE_bytes in Hm.
  unfold nents in Hk. assert (He : k * dirent_size + dirent_size <= i_size (get_inode s i)) by (unfold dirent_size in *; mlia).
  destruct (readi_ok s bs i (k * dirent_size) dirent_size T Hn (do_file _ _ D) (do_mapped _ _ D)) as (s' & E & T' & S');
    [by rewrite MAXFILE_bytes|unfold dirent_size in *; lia|unfold dirent_size; lia|].
  exists s'. split; [|done]. cbv zeta in E. destruct (Z.ltb_spec (i_size (get_inode s i)) (k * dirent_size)); [unfold dirent_size in *; lia|].
  destruct (Z.leb_spec (2 ^ 32) (k * dirent_size + dirent_size)); [lia|]. cbn [orb] in E. rewrite Z.min_l in E by lia. exact E.
Qed.

(** ** [dirlookup] *)

(** What follows a successful search. *)
Definition get_entry (s : kstate) (ip : inode) (k : Z) : K (option (nat * Z)) :=
  let! i := iget ROOTDEV (de_inum (dent s ip k)) in ret (Some (i, k * dirent_size)).

Lemma dirlookup_loop_ok s0 bs dp name : dir_ok s0 dp -> (length bs < NBUF)%nat -> forall ks s,
  tx s bs [] -> tstep s0 bs [] s bs -> (forall k, k ∈ ks -> 0 <= k < nents (get_inode s0 dp)) ->
  exists s', tx s' bs [] /\ tstep s0 bs [] s' bs /\
    dirlookup_loop ((fun k => k * dirent_size) <$> ks) dp name s =
    match find_in s0 (get_inode s0 dp) name ks with
    | None => Ok None s'
    | Some k => get_entry s0 (get_inode s0 dp) k s'
    end.
Proof.
  intros D Hn. induction ks as [|k ks IH]; intros s T S Hks; cbn [fmap list_fmap dirlookup_loop find_in]; [by exists s|].
  pose proof (dir_ok_quiet _ _ _ _ _ S D) as D1. destruct (file_ok_quiet _ _ _ _ dp S (do_file _ _ D)) as (_ & Ei & _ & _).
  destruct (read_entry s bs dp k T Hn D1) as (s1 & E1 & T1 & S1); [rewrite Ei; apply Hks; left|].
  rewrite (bind_ok _ _ _ _ _ E1). cbn [fst snd]. rewrite Z.eqb_refl. cbn [negb].
  rewrite (dent_quiet _ _ _ _ _ _ S (do_file _ _ D)). set (d := dent s0 (get_inode s0 dp) k).
  assert (S01 : tstep s0 bs [] s1 bs) by (by eapply tstep_nil_l).
  assert (Hks' : forall k, k ∈ ks -> 0 <= k < nents (get_inode s0 dp)) by (intros j Hj; apply Hks; by right).
  unfold is_entry. fold d. destruct (Z.eqb_spec (de_inum d) 0); cbn [negb andb]; [by apply IH|].
  destruct (Z.eqb_spec (namecmp name (de_name d)) 0); [|by apply IH].
  exists s1. split; [done|]. split; [done|]. unfold inode_get. rewrite bind_gets.
  destruct (file_ok_quiet _ _ _ _ dp S01 (do_file _ _ D)) as (F1 & _ & _ & _).
  by rewrite (id_dev _ _ (fo_disk _ _ F1)).
Qed.

Lemma dirlookup_ok s bs dp name : tx s bs [] -> (length bs < NBUF)%nat -> dir_ok s dp ->
  exists s', tx s' bs [] /\ tstep s bs [] s' bs /\
    dirlookup dp name s =
    match find_entry s (get_inode s dp) name with
    | None => Ok None s'
    | Some k => get_entry s (get_inode s dp) k s'
    end.
Proof.
  intros T Hn D. unfold dirlookup, inode_get. rewrite bind_gets. rewrite (do_type _ _ D), Z.eqb_refl. cbn [negb].
  rewrite (dir_offsets_eq _ _ D). apply (dirlookup_loop_ok s bs dp name D Hn); [done|apply tstep_refl|].
  intros k Hk%elem_of_seqZ. lia.
Qed.

(** ** [dirlink] *)

Fixpoint find_free (s : kstate) (ip : inode) (ks : list Z) (e : Z) : Z :=
  match ks with
  | [] => e
  | k :: ks => if de_inum (dent s ip k) =? 0 then k else find_free s ip ks e
  end.

Definition free_entry (s : kstate) (ip : inode) : Z := find_free s ip (seqZ 0 (nents ip)) (nents ip).

Lemma dirlink_scan_ok s0 bs dp e : dir_ok s0 dp -> (length bs < NBUF)%nat -> forall ks s,
  tx s bs [] -> tstep s0 bs [] s bs -> (forall k, k ∈ ks -> 0 <= k < nents (get_inode s0 dp)) ->
  exists s', tx s' bs [] /\ tstep s0 bs [] s' bs /\
    dirlink_scan ((fun k => k * dirent_size) <$> ks) dp (e * dirent_size) s =
    Ok (find_free s0 (get_inode s0 dp) ks e * dirent_size) s'.
Proof.
  intros D Hn. induction ks as [|k ks IH]; intros s T S Hks; cbn [fmap list_fmap dirlink_scan find_free]; [by exists s|].
  pose proof (dir_ok_quiet _ _ _ _ _ S D) as D1. destruct (file_ok_quiet _ _ _ _ dp S (do_file _ _ D)) as (_ & Ei & _ & _).
  destruct (read_entry s bs dp k T Hn D1) as (s1 & E1 & T1 & S1); [rewrite Ei; apply Hks; left|].
  rewrite (bind_ok _ _ _ _ _ E1). cbn [fst snd]. rewrite Z.eqb_refl. cbn [negb].
  rewrite (dent_quiet _ _ _ _ _ _ S (do_file _ _ D)).
  assert (S01 : tstep s0 bs [] s1 bs) by (by eapply tstep_nil_l).
  destruct (Z.eqb_spec (de_inum (dent s0 (get_inode s0 dp) k)) 0); [by exists s1|].
  apply IH; [done|done|]. intros j Hj. apply Hks. by right.
Qed.

Lemma find_free_spec s ip e ks :
  find_free s ip ks e = e \/ (find_free s ip ks e ∈ ks /\ de_inum (dent s ip (find_free s ip ks e)) = 0).
Proof.
  induction ks as [|k ks IH]; cbn [find_free]; [by left|]. destruct (Z.eqb_spec (de_inum (dent s ip k)) 0); [right; split; [left|done]|].
  destruct IH as [->|[H1 H2]]; [by left|right; split; [by right|done]].
Qed.

Lemma free_entry_range s ip : 0 <= nents ip -> 0 <= free_entry s ip <= nents ip.
Proof.
  intros H. destruct (find_free_spec s ip (nents ip) (seqZ 0 (nents ip))) as [E|[E _]]; unfold free_entry; [lia|].
  apply elem_of_seqZ in E. lia.
Qed.

(** The bytes of a new entry. *)
Definition entry_bytes (name : list Z) (inum : Z) : list Z := put16 (replicate 2 0) 0 inum ++ str_ncpy DIRSIZ name.

Lemma entry_bytes_ok name inum : byte_list name -> 0 <= inum < 2 ^ 16 ->
  length (entry_bytes name inum) = 16%nat /\ byte_list (entry_bytes name inum) /\
  de_inum (entry_bytes name inum) = inum /\ name_of (de_name (entry_bytes name inum)) = name_of name.
Proof.
  intros Hb Hi. assert (L2 : length (put16 (replicate 2 0) 0 inum) = 2%nat) by apply length_put_le.
  unfold entry_bytes. split_and!.
  - by rewrite length_app, L2, length_str_ncpy.
  - apply byte_list_app. split; [apply byte_list_put_le, byte_list_replicate|by apply byte_list_ncpy].
  - unfold de_inum, get16. rewrite (get_le_ext 2 _ (put16 (replicate 2 0) 0 inum)).
    + unfold put16. rewrite get_put_le_same; [by rewrite Z.mod_small|by rewrite length_replicate].
    + intros j Hj. by rewrite app_nth1 by lia.
  - unfold de_name, get_bytes. rewrite drop_app_le, (drop_ge _ 2) by lia. cbn [app].
    rewrite take_ge by (by rewrite length_str_ncpy). apply name_of_ncpy.
Qed.

(** A reference that is taken and dropped: entries in use are as before. *)
Lemma iget_iput s dev inum : itable_ok s -> k_held s = [] ->
  (exists i s1 s2, iget dev inum s = Ok i s1 /\ iput i s1 = Ok tt s2 /\ (forall b, blk s2 b = blk s b) /\
    forall j, 0 < i_ref (get_inode s j) -> get_inode s2 j = get_inode s j) \/
  iget dev inum s = Panic "iget: no inodes".
Proof.
  intros T Hh. assert (Hl : itable_lock ∉ k_held s) by (rewrite Hh; apply not_elem_of_nil).
  assert (Hput : forall i f s1, s1 = upd_inode i f s -> (i < NINODE)%nat -> (i_ref (get_inode s1 i) =? 1) && i_valid (get_inode s1 i) = false ->
    iput i s1 = Ok tt (upd_inode i (fun ip => set_i_ref (s32 (i_ref ip - 1)) ip) s1)).
  { intros i f s1 -> Hi Hc. unfold iput. rewrite bind_acquire by (exact Hl). unfold inode_get. rewrite bind_gets.
    change (get_inode (set_k_held _ (upd_inode i f s)) i) with (get_inode (upd_inode i f s) i).
    rewrite Hc. cbn [andb]. rewrite bind_ret. unfold inode_set. rewrite bind_modify, set_inodes_held.
    rewrite (release_ok _ (k_held s)) by done. reflexivity. }
  destruct (iget_ok s dev inum T Hl) as [(i & Hi & (Hr & _) & E & _)|(_ & [(i & Hi & Hr & E & _)|(_ & E)])]; [left|left|by right].
  - exists i. do 2 eexists. split; [exact E|].
    assert (Gi : get_inode (upd_inode i (fun ip => set_i_ref (i_ref ip + 1) ip) s) i = set_i_ref (i_ref (get_inode s i) + 1) (get_inode s i))
      by (by rewrite get_upd_inode_same by (by rewrite (it_len _ T))).
    split; [eapply Hput; [reflexivity|done|]; rewrite Gi; cbn; by rewrite (proj2 (Z.eqb_neq _ _)) by lia|].
    split; [intros b; by apply blk_frame|]. intros j Hj. destruct (decide (i = j)) as [<-|Hne]; [|by rewrite !get_upd_inode_other].
    rewrite get_upd_inode_same by (by rewrite length_upd_inode, (it_len _ T)). rewrite Gi. cbn [i_ref set_i_ref].
    pose proof (it_ref _ T i Hi). rewrite s32_small by lia. replace (i_ref (get_inode s i) + 1 - 1) with (i_ref (get_inode s i)) by lia. done.
  - exists i. do 2 eexists. split; [exact E|].
    split; [eapply Hput; [reflexivity|done|]; rewrite get_upd_inode_same by (by rewrite (it_len _ T)); cbn; done|].
    split; [intros b; by apply blk_frame|]. intros j Hj. destruct (decide (i = j)) as [<-|Hne]; [lia|by rewrite !get_upd_inode_other].
Qed.

(** The directory after a write of one entry. *)
Lemma wrote_dent s s' dp k d j : file_wrote s dp (k * dirent_size) d dirent_size s' -> length d = 16%nat ->
  0 <= k -> 0 <= j -> j * dirent_size + dirent_size <= MAXFILE * BSIZE ->
  dent s' (get_inode s' dp) j = if decide (j = k) then d else dent s (get_inode s dp) j.
Proof.
  intros W Hd Hk Hj Hm. apply list_eq_same_length with 16%nat; [case_decide; [done|apply length_dent]|apply length_dent|].
  intros x a b Hx Ha Hb. apply list_lookup_fmap_Some in Ha as (y & -> & Hy). apply lookup_seqZ in Hy as [-> _].
  rewrite (fw_bytes _ _ _ _ _ _ W) by (unfold dirent_size in *; lia).
  destruct (decide (j = k)) as [->|Hne].
  - rewrite decide_True by (unfold dirent_size; lia). apply nth_lookup_Some. rewrite <- Hb. f_equal. lia.
  - rewrite decide_False by (unfold dirent_size; lia). apply list_lookup_fmap_Some in Hb as (y & -> & Hy). by apply lookup_seqZ in Hy as [-> _].
Qed.

Lemma find_in_only s ip name k ks : k ∈ ks -> is_entry s ip name k = true ->
  (forall j, j ∈ ks -> j <> k -> is_entry s ip name j = false) -> find_in s ip name ks = Some k.
Proof.
  induction ks as [|x ks IH]; intros Hk Ht Hf; [by apply not_elem_of_nil in Hk|]. cbn [find_in].
  destruct (decide (x = k)) as [->|Hne]; [by rewrite Ht|]. rewrite Hf by (done || left).
  apply IH; [by apply elem_of_cons in Hk as [->|]|done|]. intros j Hj. apply Hf. by right.
Qed.

Lemma find_in_none s ip name ks : find_in s ip name ks = None <-> forall k, k ∈ ks -> is_entry s ip name k = false.
Proof.
  induction ks as [|x ks IH]; cbn [find_in]; [split; [by intros _ k ?%not_elem_of_nil|done]|].
  destruct (is_entry s ip name x) eqn:E.
  - split; [done|]. intros H. rewrite H in E; [done|left].
  - rewrite IH. split; [intros H k [->|Hk]%elem_of_cons; [done|by apply H]|]. intros H k Hk. apply H. by right.
Qed.

Lemma find_in_some s ip name ks k : find_in s ip name ks = Some k -> k ∈ ks /\ is_entry s ip name k = true.
Proof.
  induction ks as [|x ks IH]; cbn [find_in]; [done|]. destruct (is_entry s ip name x) eqn:E; [|intros H; destruct (IH H); split; [by right|done]].
  intros [= ->]. split; [left|done].
Qed.

Lemma find_in_app s ip name ks1 ks2 :
  find_in s ip name (ks1 ++ ks2) = match find_in s ip name ks1 with Some k => Some k | None => find_in s ip name ks2 end.
Proof. induction ks1 as [|x ks IH]; cbn [find_in app]; [done|]. by destruct (is_entry s ip name x). Qed.

Lemma find_in_congr s ip s' ip' name ks :
  (forall k, k ∈ ks -> is_entry s' ip' name k = is_entry s ip name k) -> find_in s' ip' name ks = find_in s ip name ks.
Proof.
  induction ks as [|x ks IH]; intros H; cbn [find_in]; [done|]. rewrite H by left. rewrite IH; [done|]. intros k Hk. apply H. by right.
Qed.

(** One more name. *)
Section Wrote.
Context (s s' : kstate) (dp : nat) (name : list Z) (inum : Z).
Let ip := get_inode s dp.
Let ip' := get_inode s' dp.
Let k := free_entry s ip.
Context (D : dir_ok s dp) (Hb : byte_list name) (Hi : 0 < inum < 2 ^ 16).
Context (Hk : k * dirent_size + dirent_size <= MAXFILE * BSIZE).
Context (W : file_wrote s dp (k * dirent_size) (entry_bytes name inum) dirent_size s').

Lemma slot_range : 0 <= k <= nents ip.
Proof using D. apply free_entry_range. apply Z.div_pos; [apply (do_file _ _ D)|by vm_compute]. Qed.

Lemma wrote_nents : nents ip' = Z.max (nents ip) (k + 1).
Proof using D W.
  pose proof (do_size _ _ D) as Hsz. fold ip in Hsz. pose proof slot_range.
  unfold nents, ip'. rewrite (fw_size _ _ _ _ _ _ W). fold ip. unfold nents, dirent_size in *. mlia.
Qed.

Lemma wrote_entry j : 0 <= j < nents ip' -> dent s' ip' j = if decide (j = k) then entry_bytes name inum else dent s ip j.
Proof using D Hb Hi Hk W.
  intros Hj. pose proof slot_range. rewrite wrote_nents in Hj. apply (wrote_dent s s' dp k _ j W); [apply (entry_bytes_ok name inum Hb); lia|lia|lia|].
  pose proof (do_max _ _ D) as Hm. fold ip in Hm. unfold nents, dirent_size in *. mlia.
Qed.

Lemma slot_free n : k < nents ip -> is_entry s ip n k = false.
Proof using Type.
  intros Hlt. destruct (find_free_spec s ip (nents ip) (seqZ 0 (nents ip))) as [E|[_ E]]; fold (free_entry s ip) in E; fold k in E; [lia|].
  unfold is_entry. by rewrite E.
Qed.

Lemma dmap_new n : find_entry s ip name = None -> name_of n = name_of name -> dmap s' ip' n = Some inum.
Proof using D Hb Hi Hk W.
  intros Hnone En. destruct (entry_bytes_ok name inum Hb ltac:(lia)) as (_ & _ & Hin & Hnm). pose proof slot_range as Hr. pose proof wrote_nents as Hn.
  unfold dmap, find_entry. rewrite (find_in_only s' ip' n k).
  - cbn [fmap option_fmap option_map]. by rewrite wrote_entry, decide_True, Hin by lia.
  - apply elem_of_seqZ. lia.
  - unfold is_entry. rewrite wrote_entry, decide_True, Hin by lia.
    destruct (Z.eqb_spec inum 0); [lia|]. cbn [negb andb]. apply Z.eqb_eq, namecmp_zero. by rewrite Hnm.
  - intros j Hj Hne. apply elem_of_seqZ in Hj. unfold find_entry in Hnone. rewrite find_in_none in Hnone.
    unfold is_entry. rewrite wrote_entry, decide_False by lia. specialize (Hnone j). unfold is_entry in Hnone.
    replace (namecmp n (de_name (dent s ip j)) =? 0) with (namecmp name (de_name (dent s ip j)) =? 0).
    + apply Hnone, elem_of_seqZ. lia.
    + apply eq_true_iff_eq. rewrite !Z.eqb_eq, !namecmp_zero. by rewrite En.
Qed.

(** Entry [k] is no entry for another name. *)
Lemma slot_other n : name_of n <> name_of name -> is_entry s' ip' n k = false.
Proof using D Hb Hi Hk W.
  intros En. destruct (entry_bytes_ok name inum Hb ltac:(lia)) as (_ & _ & _ & Hnm). pose proof slot_range as Hr. pose proof wrote_nents as Hn.
  unfold is_entry. rewrite wrote_entry, decide_True by lia. rewrite (proj2 (Z.eqb_neq (namecmp _ _) _)); [by rewrite andb_false_r|].
  by rewrite namecmp_zero, Hnm.
Qed.

Lemma dmap_other n : name_of n <> name_of name -> dmap s' ip' n = dmap s ip n.
Proof using D Hb Hi Hk W.
  intros En. pose proof slot_range as Hr. pose proof wrote_nents as Hn. pose proof (slot_other n En) as Hs.
  assert (Hsplit : seqZ 0 (nents ip') = seqZ 0 (nents ip) ++ (if decide (k = nents ip) then [k] else [])).
  { rewrite Hn. case_decide; [|rewrite app_nil_r; f_equal; lia]. replace (Z.max (nents ip) (k + 1)) with (nents ip + 1) by lia.
    rewrite seqZ_app by lia. by rewrite Z.add_0_l, H. }
  unfold dmap, find_entry. rewrite Hsplit, find_in_app, (find_in_congr s ip).
  2:{ intros j Hj%elem_of_seqZ. destruct (decide (j = k)) as [->|Hne]; [by rewrite Hs, slot_free by lia|].
      unfold is_entry. by rewrite wrote_entry, decide_False by lia. }
  destruct (find_in s ip n (seqZ 0 (nents ip))) as [j|] eqn:Ej.
  - apply find_in_some in Ej as [Hj Et]. apply elem_of_seqZ in Hj. cbn [fmap option_fmap option_map]. rewrite wrote_entry by lia.
    rewrite decide_False; [done|]. intros ->. rewrite slot_free in Et by lia. done.
  - case_decide; [|done]. cbn [find_in]. by rewrite Hs.
Qed.

Lemma dir_ok_wrote : dir_ok s' dp.
Proof using D Hb Hi Hk W.
  pose proof (do_size _ _ D). pose proof (do_max _ _ D). pose proof slot_range. destruct (fw_fields _ _ _ _ _ _ W) as (a & n & E).
  split; [apply W|apply W| | |].
  - rewrite E. exact (do_type _ _ D).
  - rewrite (fw_size _ _ _ _ _ _ W). fold ip in H |- *. destruct (Z.max_spec (i_size ip) (k * dirent_size + dirent_size)) as [[_ ->]|[_ ->]]; [|done].
    unfold dirent_size. mlia.
  - rewrite (fw_size _ _ _ _ _ _ W). fold ip in H0 |- *. lia.
Qed.
End Wrote.

(** What [writei] needs survives steps that change no block. *)
Lemma quiet_write s bs s' dp :
  tstep s bs [] s' bs -> file_ok s dp ->
  length (blk s (IBLOCK (i_inum (get_inode s dp)) (k_sb s))) = Z.to_nat BSIZE -> 1 <= log_outstanding (k_log s) ->
  length (blk s' (IBLOCK (i_inum (get_inode s' dp)) (k_sb s'))) = Z.to_nat BSIZE /\ 1 <= log_outstanding (k_log s') /\
  weight s' dp bs = weight s dp bs /\ log_size (k_log s') = log_size (k_log s) /\ k_sb s' = k_sb s.
Proof.
  intros S F Hl Ho. pose proof (tstep_sb _ _ _ _ _ S) as Esb. destruct (file_ok_quiet _ _ _ _ dp S F) as (_ & Ei & _).
  destruct (ts_log _ _ _ _ _ S) as (_ & E1 & E2 & _). rewrite Esb, Ei, (ts_blk _ _ _ _ _ S). unfold weight. rewrite Esb, Ei.
  split; [exact Hl|]. split; [lia|]. split; [done|]. split; [done|done].
Qed.

Lemma entry_blocks k : 0 <= k -> blocks (k * dirent_size) dirent_size = 1.
Proof. intros Hk. unfold blocks, dirent_size, BSIZE. mlia. Qed.

(** [dirlink] with a name that is not there. *)
Lemma dirlink_new s bs dp name inum :
  tx s bs [] -> dir_ok s dp -> byte_list name -> 0 < inum < 2 ^ 16 ->
  length (blk s (IBLOCK (i_inum (get_inode s dp)) (k_sb s))) = Z.to_nat BSIZE -> 1 <= log_outstanding (k_log s) ->
  Z.of_nat (weight s dp bs) + 7 < log_size (k_log s) ->
  find_entry s (get_inode s dp) name = None ->
  exists s2, tx s2 bs [] /\ tstep s bs [] s2 bs /\
    dirlink dp name inum s = (let! r := writei dp (kernel_src (entry_bytes name inum)) (free_entry s (get_inode s dp) * dirent_size) dirent_size in
      ret (if r =? dirent_size then 0 else -1)) s2.
Proof.
  intros T D Hb Hi Hlen Ho Hroom Hnone. pose proof (weight_length s dp bs) as Hw. pose proof (tx_size _ _ _ T) as Hls.
  assert (Hn : (length bs < NBUF)%nat) by (unfold NBUF, LOGSIZE, MAXOPBLOCKS in *; lia).
  destruct (dirlookup_ok s bs dp name T Hn D) as (s1 & T1 & S1 & E1). rewrite Hnone in E1.
  pose proof (dir_ok_quiet _ _ _ _ _ S1 D) as D1. destruct (file_ok_quiet _ _ _ _ dp S1 (do_file _ _ D)) as (_ & Ei & _ & _).
  unfold dirlink. rewrite (bind_ok _ _ _ _ _ E1). unfold inode_get. rewrite bind_gets, (dir_offsets_eq _ _ D1), Ei.
  assert (Hn0 : 0 <= nents (get_inode s dp)) by (apply Z.div_pos; [apply (do_file _ _ D)|by vm_compute]).
  rewrite length_fmap, length_seqZ, Z2Nat.id by done.
  destruct (dirlink_scan_ok s bs dp (nents (get_inode s dp)) D Hn (seqZ 0 (nents (get_inode s dp))) s1 T1 S1) as (s2 & T2 & S2 & E2).
  { intros k Hk%elem_of_seqZ. lia. }
  exists s2. split; [done|]. split; [done|]. by rewrite (bind_ok _ _ _ _ _ E2).
Qed.

(** [dirlookup] evaluates the map that a directory is: a name that is not
    in it gives a null pointer; for a name that is in it the result is
    [iget] of its inode number and the offset of its entry.  No block and no
    inode changes before [iget]. *)
Theorem dirlookup_spec (s : kstate) (bs : list Z) (dp : nat) (name : list Z) :
  tx s bs [] -> (length bs < NBUF)%nat -> dir_ok s dp ->
  exists s1, tx s1 bs [] /\ k_disk s1 = k_disk s /\ k_inodes s1 = k_inodes s /\ (forall b, blk s1 b = blk s b) /\
    match dmap s (get_inode s dp) name with
    | None => dirlookup dp name s = Ok None s1
    | Some inum => exists k, 0 <= k < nents (get_inode s dp) /\ inum <> 0 /\
        de_inum (dent s (get_inode s dp) k) = inum /\ name_of (de_name (dent s (get_inode s dp) k)) = name_of name /\
        dirlookup dp name s = (let! i := iget ROOTDEV inum in ret (Some (i, k * dirent_size))) s1
    end.
Proof.
  intros T Hn D. destruct (dirlookup_ok s bs dp name T Hn D) as (s1 & T1 & S1 & E). exists s1. split; [done|].
  split; [apply S1|]. split; [by eapply tstep_inodes|]. split; [apply S1|]. unfold dmap.
  destruct (find_entry s (get_inode s dp) name) as [k|] eqn:Ek; [|done].
  apply find_in_some in Ek as [Hk Et]. apply elem_of_seqZ in Hk. apply andb_true_iff in Et as [H1 H2].
  apply negb_true_iff, Z.eqb_neq in H1. apply Z.eqb_eq, namecmp_zero in H2. exists k. split; [lia|]. split_and!; [done|done|done|exact E].
Qed.

Lemma dmap_quiet s bs s' bs' dp n : tstep s bs [] s' bs' -> file_ok s dp -> dmap s' (get_inode s' dp) n = dmap s (get_inode s dp) n.
Proof.
  intros S F. pose proof (fun k => dent_quiet _ _ _ _ dp k S F) as Hd. destruct (file_ok_quiet _ _ _ _ dp S F) as (_ & Ei & _ & _).
  unfold dmap, find_entry. rewrite (find_in_ext s (get_inode s dp) s' (get_inode s' dp) n n) by done. rewrite Ei in *.
  destruct (find_in _ _ _ _) as [k|]; [|done]. cbn [fmap option_fmap option_map]. by rewrite Hd.
Qed.

Lemma free_entry_quiet s bs s' bs' dp : tstep s bs [] s' bs' -> file_ok s dp -> free_entry s' (get_inode s' dp) = free_entry s (get_inode s dp).
Proof.
  intros S F. pose proof (fun k => dent_quiet _ _ _ _ dp k S F) as Hd. destruct (file_ok_quiet _ _ _ _ dp S F) as (_ & Ei & _ & _).
  unfold free_entry. rewrite Ei in *. generalize (nents (get_inode s dp)) at 2 4 as e. intros e.
  induction (seqZ 0 (nents (get_inode s dp))) as [|k ks IH]; [done|]. cbn [find_free]. by rewrite Hd, IH.
Qed.

(** The new entry is within the old size or right behind it. *)
Lemma slot_offset s dp : dir_ok s dp ->
  0 <= free_entry s (get_inode s dp) /\ free_entry s (get_inode s dp) * dirent_size <= i_size (get_inode s dp).
Proof. intros D. pose proof (slot_range s dp D) as Hkr. unfold nents, dirent_size in *. mlia. Qed.

Section Dirlink.
Context (s : kstate) (bs : list Z) (dp : nat) (name : list Z) (inum : Z).
Let ip := get_inode s dp.
Context (T : tx s bs []) (D : dir_ok s dp) (IT : itable_ok s) (Hr : 0 < i_ref ip).
Context (Hb : byte_list name) (Hi : 0 < inum < 2 ^ 16).
Context (Hlen : length (blk s (IBLOCK (i_inum ip) (k_sb s))) = Z.to_nat BSIZE).
Context (Ho : 1 <= log_outstanding (k_log s)) (Hroom : Z.of_nat (weight s dp bs) + 7 < log_size (k_log s)).

Lemma dirlink_present k : find_entry s ip name = Some k ->
  dirlink dp name inum s = Panic "iget: no inodes" \/
  exists s', dirlink dp name inum s = Ok (-1) s' /\ get_inode s' dp = ip /\ forall b, blk s' b = blk s b.
Proof using T D IT Hr Hlen Hroom.
  intros Ek. pose proof (weight_length s dp bs) as Hw. pose proof (tx_size _ _ _ T) as Hls.
  assert (Hn : (length bs < NBUF)%nat) by (unfold NBUF, LOGSIZE, MAXOPBLOCKS in *; lia).
  destruct (dirlookup_ok s bs dp name T Hn D) as (s1 & T1 & S1 & E1). fold ip in E1. rewrite Ek in E1. unfold get_entry in E1.
  assert (Ein : k_inodes s1 = k_inodes s) by (by eapply tstep_inodes).
  destruct (iget_iput s1 ROOTDEV (de_inum (dent s ip k))) as [(i & s2 & s3 & E2 & E3 & B3 & G3)|E2].
  - destruct IT as [A1 A2 A3]. split; [by rewrite Ein|intros j; unfold get_inode; rewrite Ein; apply A2|].
    intros j j' dev n. unfold live, get_inode. rewrite Ein. apply A3.
  - apply (ca_spin _ _ _ (tx_cache _ _ _ T1)).
  - right. exists s3. unfold dirlink. rewrite (bind_ok _ _ s (Some (i, k * dirent_size)) s2) by (rewrite E1; by rewrite (bind_ok _ _ _ _ _ E2)).
    rewrite (bind_ok _ _ _ _ _ E3). split; [done|]. assert (G1 : get_inode s1 dp = ip) by (unfold ip, get_inode; by rewrite Ein).
    split; [rewrite <- G1; apply G3; by rewrite G1|]. intros b. rewrite B3. apply S1.
  - left. unfold dirlink, bind at 1. rewrite E1. unfold bind. by rewrite E2.
Qed.

Lemma dirlink_full : find_entry s ip name = None -> MAXFILE * BSIZE < free_entry s ip * dirent_size + dirent_size ->
  exists s', dirlink dp name inum s = Ok (-1) s' /\ get_inode s' dp = ip /\ forall b, blk s' b = blk s b.
Proof using T D Hb Hi Hlen Ho Hroom.
  intros Ek Hmax. destruct (dirlink_new s bs dp name inum T D Hb Hi Hlen Ho Hroom Ek) as (s2 & T2 & S2 & E2). fold ip in E2.
  destruct (file_ok_quiet _ _ _ _ dp S2 (do_file _ _ D)) as (_ & Ei2 & _ & _). fold ip in Ei2. destruct (slot_offset s dp D : 0 <= free_entry s ip /\ free_entry s ip * dirent_size <= i_size ip) as [Hk0 Hkz].
  exists s2. split; [|split; [done|apply S2]]. rewrite E2. pose proof (do_max _ _ D) as Hdm. fold ip in Hdm. rewrite MAXFILE_bytes in *.
  assert (E3 : writei dp (kernel_src (entry_bytes name inum)) (free_entry s ip * dirent_size) dirent_size s2 = Ok (-1) s2).
  { unfold writei, inode_get. rewrite bind_gets, Ei2. unfold dirent_size in *. rewrite u32_small by lia.
    rewrite (proj2 (Z.ltb_ge (i_size ip) _)), (proj2 (Z.ltb_ge (_ + _) _)), MAXFILE_bytes by lia. cbn [orb].
    by rewrite (proj2 (Z.ltb_lt _ _)) by lia. }
  by rewrite (bind_ok _ _ _ _ _ E3).
Qed.

Lemma dirlink_added : find_entry s ip name = None -> free_entry s ip * dirent_size + dirent_size <= MAXFILE * BSIZE ->
  exists r s' bs', dirlink dp name inum s = Ok r s' /\ tx s' bs' [] /\
    ((r = 0 /\ dir_ok s' dp /\
      forall n, dmap s' (get_inode s' dp) n = if decide (name_of n = name_of name) then Some inum else dmap s ip n) \/
     (r = -1 /\ forall b, 0 <= b < sb_size (k_sb s) -> used s' b = true)).
Proof using T D Hb Hi Hlen Ho Hroom.
  intros Ek Hmax. destruct (dirlink_new s bs dp name inum T D Hb Hi Hlen Ho Hroom Ek) as (s2 & T2 & S2 & E2). fold ip in E2.
  destruct (quiet_write s bs s2 dp S2 (do_file _ _ D) Hlen Ho) as (Hlen2 & Ho2 & Hw2 & Hls2 & Esb2).
  pose proof (dir_ok_quiet _ _ _ _ _ S2 D) as D2. pose proof (free_entry_quiet _ _ _ _ dp S2 (do_file _ _ D)) as Ef.
  destruct (file_ok_quiet _ _ _ _ dp S2 (do_file _ _ D)) as (F2 & Ei2 & _ & _). fold ip in Ei2, Ef.
  destruct (entry_bytes_ok name inum Hb ltac:(lia)) as (Hel & Heb & _). destruct (slot_offset s dp D : 0 <= free_entry s ip /\ free_entry s ip * dirent_size <= i_size ip) as [Hk0 Hkz].
  destruct (writei_ok s2 bs dp (kernel_src (entry_bytes name inum)) (entry_bytes name inum) (free_entry s ip * dirent_size) T2 F2 (do_mapped _ _ D2))
    as (w & s3 & bs3 & E3 & Hw3 & W3 & T3 & _); [by apply kernel_source_ok|rewrite Ei2; split; [apply Z.mul_nonneg_nonneg; [lia|by vm_compute]|lia]|rewrite Hel; exact Hmax|exact Hlen2|exact Ho2| |].
  { rewrite Hel, Hw2, Hls2. change (Z.of_nat 16) with dirent_size. rewrite entry_blocks by lia. lia. }
  rewrite Hel in *. change (Z.of_nat 16) with dirent_size in E3. rewrite E2, (bind_ok _ _ _ _ _ E3).
  eexists _, s3, bs3. split; [reflexivity|]. split; [exact T3|]. destruct (Z.eqb_spec w dirent_size) as [->|Hne].
  - left. split; [done|]. rewrite <- Ef in W3, Hmax. split; [by apply (dir_ok_wrote s2 s3 dp name inum D2 Hb Hi)|]. intros n.
    pose proof (fun n => dmap_quiet _ _ _ _ dp n S2 (do_file _ _ D)) as Q. fold ip in Q.
    case_decide as En; [|rewrite <- Q; by apply (dmap_other s2 s3 dp name inum D2 Hb Hi Hmax W3)].
    apply (dmap_new s2 s3 dp name inum D2 Hb Hi Hmax W3); [|done]. specialize (Q name). unfold dmap in Q. rewrite Ek in Q.
    by destruct (find_entry s2 (get_inode s2 dp) name).
  - right. split; [done|]. destruct (fw_full _ _ _ _ _ _ W3) as [H|H]; [rewrite Hel in H; unfold dirent_size in *; lia|].
    rewrite Esb2 in H. exact H.
Qed.
End Dirlink.


(** ** Witnesses *)

(** A directory with one entry, [llo] for inode 25960. *)
Definition small_dir : kstate := file_state T_DIR 1 16.

Lemma small_dir_ok : dir_ok small_dir 0.
Proof.
  split; [apply one_ok; unfold T_DIR; lia|apply one_mapped; lia|reflexivity|reflexivity|]. rewrite MAXFILE_bytes. by vm_compute.
Qed.

Lemma small_dmap : dmap small_dir (get_inode small_dir 0) [108; 108; 111] = Some 25960 /\ dmap small_dir (get_inode small_dir 0) [120] = None.
Proof.
  assert (E : dent small_dir (get_inode small_dir 0) 0 = take 16 hello_block).
  { unfold dent. change (seqZ (0 * dirent_size) dirent_size) with (seqZ 0 16). change (seqZ 0 16) with [0;1;2;3;4;5;6;7;8;9;10;11;12;13;14;15].
    cbn [fmap list_fmap]. unfold small_dir. rewrite !one_byte by lia. reflexivity. }
  unfold dmap, find_entry. change (seqZ 0 (nents (get_inode small_dir 0))) with [0]. cbn [find_in]. unfold is_entry. rewrite E. split; reflexivity || (cbn; rewrite ?E; reflexivity).
Qed.

Lemma dirlookup_spec_witness :
  exists k s1, dirlookup 0 [108; 108; 111] small_dir = (let! i := iget ROOTDEV 25960 in ret (Some (i, k * dirent_size))) s1.
Proof.
  destruct (dirlookup_spec small_dir [] 0 [108; 108; 111]) as (s1 & _ & _ & _ & _ & H).
  - apply tx_inodes, fs_tx.
  - unfold NBUF, MAXOPBLOCKS. cbn. lia.
  - apply small_dir_ok.
  - rewrite (proj1 small_dmap) in H. destruct H as (k & _ & _ & _ & _ & E). exists k, s1. exact E.
Defined.

