(* ===== verification/MkfsFiles.v ===== *)
(** * mkfs: the files in the image

    [frec] describes one file: its bytes, its data blocks in order and its
    indirect block.  [img_files] is the invariant of mkfs on the data blocks:
    every file is complete, and the blocks of all files together are exactly
    the blocks handed out so far, each of them once.  [iappend] keeps it. *)

From S2P Require Import Prelude KString Bytes KState Riscv Spinlock Kalloc Vm Sched Uart Console Sleeplock.
From S2P Require Import Bio Log LogSafe Fs FsPath FsBlock FsInode FsFile FsDir Mkfs.

(** ** Files *)

Record frec : Type := mkFrec { fr_type : Z; fr_data : list Z; fr_db : list Z; fr_ind : Z }.

Definition fr_blocks (f : frec) : list Z := fr_db f ++ (if fr_ind f =? 0 then [] else [fr_ind f]).

(** The block addresses in the inode. *)
Definition fr_addrs (f : frec) : list Z := take 12 (fr_db f) ++ replicate (12 - length (fr_db f)) 0 ++ [fr_ind f].

Definition fr_inode (f : frec) : inode :=
  mkInode 0 0 0 sleeplock_zero false (fr_type f) 0 0 1 (Z.of_nat (length (fr_data f))) (fr_addrs f).

(** Blocks needed for [n] bytes, without and with the indirect block. *)
Definition need (n : nat) : nat := ((n + 1023) / 1024)%nat.
Definition cost (n : nat) : nat := (need n + if decide (12 < need n)%nat then 1 else 0)%nat.

Record file_img (img : gmap Z (list Z)) (f : frec) : Prop := {
  fi_len : (need (length (fr_data f)) <= length (fr_db f) <= 268)%nat;
  fi_ind : (12 < length (fr_db f))%nat -> fr_ind f <> 0;
  fi_entries : fr_ind f <> 0 -> exists d, img !! fr_ind f = Some d /\
    forall j, (j < 256)%nat -> get32 d (4 * j) = default 0 (fr_db f !! (12 + j)%nat);
  fi_data : forall j b, fr_db f !! j = Some b -> exists d, img !! b = Some d /\
    forall x, (x < 1024)%nat -> (1024 * j + x < length (fr_data f))%nat -> nth x d 0 = nth (1024 * j + x) (fr_data f) 0
}.

(** The blocks of a file are no more than [n] bytes need. *)
Definition exact (f : frec) (n : nat) : Prop := length (fr_db f) = need n /\ (fr_ind f <> 0 -> (12 < length (fr_db f))%nat).

Definition all_blocks (fs : list frec) : list Z := concat (fr_blocks <$> fs).

Definition sector (img : gmap Z (list Z)) (b : Z) : Prop :=
  exists d, img !! b = Some d /\ length d = 1024%nat /\ byte_list d.

Record img_files (s : fsimg) (fs : list frec) : Prop := {
  im_range : nmeta <= f_freeblock s <= FSSIZE;
  im_blocks : all_blocks fs ≡ₚ seqZ nmeta (f_freeblock s - nmeta);
  im_sectors : forall b, 0 <= b < FSSIZE -> sector (f_img s) b;
  im_fresh : forall b, f_freeblock s <= b < FSSIZE -> f_img s !! b = Some (replicate 1024 0);
  im_files : Forall (file_img (f_img s)) fs
}.

Lemma need_le n m : (n <= m)%nat -> (need n <= need m)%nat.
Proof. intros H. unfold need. apply Nat.Div0.div_le_mono. lia. Qed.

Lemma file_img_ext img img' f : (forall b, b ∈ fr_blocks f -> img' !! b = img !! b) -> file_img img f -> file_img img' f.
Proof.
  intros H [A B C D]. split; [done|done| |].
  - intros Hi. rewrite H; [by apply C|]. unfold fr_blocks. rewrite (proj2 (Z.eqb_neq _ _) Hi). apply elem_of_app. right. by left.
  - intros j b Hj. rewrite H; [by apply D|]. apply elem_of_app. left. by eapply list_elem_of_lookup_2.
Qed.

(** ** The blocks of all files *)

Lemma all_blocks_split fs k f : fs !! k = Some f -> all_blocks fs ≡ₚ fr_blocks f ++ all_blocks (delete k fs).
Proof.
  intros H. unfold all_blocks. rewrite (delete_Permutation fs k f H) at 1. done.
Qed.

Lemma delete_inserted {A} (l : list A) k x : delete k (<[k := x]> l) = delete k l.
Proof. revert k. induction l as [|y l IH]; intros [|k]; cbn; [done..|]. f_equal. apply IH. Qed.

Lemma all_blocks_insert fs k f f' : fs !! k = Some f -> all_blocks (<[k := f']> fs) ≡ₚ fr_blocks f' ++ all_blocks (delete k fs).
Proof.
  intros H. rewrite (all_blocks_split (<[k := f']> fs) k f') by (apply list_lookup_insert_eq; by eapply lookup_lt_Some).
  by rewrite delete_inserted.
Qed.

(** A file other than [k] has none of its blocks. *)
Lemma blocks_apart fs k j f g b : NoDup (all_blocks fs) -> fs !! k = Some f -> fs !! j = Some g -> j <> k ->
  b ∈ fr_blocks f -> b ∉ fr_blocks g.
Proof.
  intros N Hk Hj Hne Hb Hg. rewrite (all_blocks_split fs k f Hk) in N. apply NoDup_app in N as (_ & N & _). apply (N b Hb).
  apply list_elem_of_In, in_concat. exists (fr_blocks g). split; [|by apply list_elem_of_In].
  apply list_elem_of_In, list_elem_of_fmap. exists g. split; [done|].
  destruct (decide (j < k)%nat).
  - apply (list_elem_of_lookup_2 _ j). by rewrite list_lookup_delete_lt.
  - apply (list_elem_of_lookup_2 _ (j - 1)). rewrite list_lookup_delete_ge by lia. by replace (S (j - 1)) with j by lia.
Qed.

Lemma im_nodup s fs : img_files s fs -> NoDup (all_blocks fs).
Proof. intros I. rewrite (im_blocks _ _ I). apply NoDup_seqZ. Qed.

Lemma im_block_range s fs k f b : img_files s fs -> fs !! k = Some f -> b ∈ fr_blocks f -> nmeta <= b < f_freeblock s.
Proof.
  intros I Hk Hb. assert (H : b ∈ all_blocks fs) by (rewrite (all_blocks_split fs k f Hk); apply elem_of_app; by left).
  rewrite (im_blocks _ _ I) in H. apply elem_of_seqZ in H. lia.
Qed.

Lemma nmeta_eq : nmeta = 46.
Proof. reflexivity. Qed.

(** File [k] gets the blocks that are handed out, and only its blocks
    change. *)
Lemma img_files_upd s s' fs k f f' : img_files s fs -> fs !! k = Some f -> f_freeblock s <= f_freeblock s' <= FSSIZE ->
  fr_blocks f' ≡ₚ seqZ (f_freeblock s) (f_freeblock s' - f_freeblock s) ++ fr_blocks f ->
  (forall b, b ∉ fr_blocks f' -> f_img s' !! b = f_img s !! b) -> (forall b, b ∈ fr_blocks f' -> sector (f_img s') b) ->
  file_img (f_img s') f' -> img_files s' (<[k := f']> fs).
Proof.
  intros I Hk Hr Eb Hsame Hsec Hf. pose proof (im_nodup s fs I) as N.
  assert (Hin : forall b, b ∈ fr_blocks f' <-> f_freeblock s <= b < f_freeblock s' \/ b ∈ fr_blocks f).
  { intros b. rewrite Eb, elem_of_app, elem_of_seqZ. split; (intros [?|?]; [left; lia|by right]). }
  pose proof (fun b => im_block_range s fs k f b I Hk) as Hrange. pose proof I as [A B C D E]. split.
  - lia.
  - rewrite (all_blocks_insert fs k f f' Hk), Eb, <- app_assoc, <- (all_blocks_split fs k f Hk), B, Permutation_app_comm.
    replace (f_freeblock s' - nmeta) with (f_freeblock s - nmeta + (f_freeblock s' - f_freeblock s)) by lia.
    rewrite seqZ_app by lia. by replace (nmeta + (f_freeblock s - nmeta)) with (f_freeblock s) by lia.
  - intros b Hb. destruct (decide (b ∈ fr_blocks f')); [by apply Hsec|]. unfold sector. rewrite Hsame by done. by apply C.
  - intros b Hb. rewrite Hsame; [apply D; lia|]. rewrite Hin. intros [?|Hx]; [lia|]. apply Hrange in Hx. lia.
  - apply Forall_lookup. intros j g Hj. destruct (decide (j = k)) as [->|Hne].
    + rewrite list_lookup_insert_eq in Hj by (by eapply lookup_lt_Some). by injection Hj as <-.
    + rewrite list_lookup_insert_ne in Hj by done. eapply file_img_ext; [|by eapply (Forall_lookup_1 _ _ _ _ E)].
      intros b Hb. apply Hsame. rewrite Hin. intros [Hx|Hx].
      * pose proof (im_block_range s fs j g b I Hj Hb). lia.
      * by apply (blocks_apart fs k j f g b N Hk Hj Hne).
Qed.

(** ** Addresses *)

Lemma fr_addrs_lookup f j :
  fr_addrs f !! j = if decide (j < 12)%nat then Some (default 0 (fr_db f !! j)) else if decide (j = 12%nat) then Some (fr_ind f) else None.
Proof.
  unfold fr_addrs. destruct (decide (j < 12)%nat) as [Hj|Hj].
  - destruct (fr_db f !! j) as [b|] eqn:E.
    + rewrite lookup_app_l by (rewrite length_take; apply lookup_lt_Some in E; lia). by rewrite lookup_take_lt.
    + apply lookup_ge_None in E. rewrite lookup_app_r by (rewrite length_take; lia).
      rewrite lookup_app_l by (rewrite length_take, length_replicate; lia). apply lookup_replicate. split; [done|rewrite length_take; lia].
  - rewrite app_assoc, lookup_app_r by (rewrite length_app, length_take, length_replicate; lia).
    rewrite length_app, length_take, length_replicate. case_decide; [subst j|apply lookup_ge_None_2; cbn [length]; lia].
    by replace (12 - (12 `min` length (fr_db f) + (12 - length (fr_db f))))%nat with O by lia.
Qed.

Lemma length_fr_addrs f : length (fr_addrs f) = 13%nat.
Proof. unfold fr_addrs. rewrite !length_app, length_take, length_replicate. cbn [length]. lia. Qed.

Lemma d_addr_db f din j : i_addrs din = fr_addrs f -> (j < 12)%nat -> d_addr din (Z.of_nat j) = default 0 (fr_db f !! j).
Proof.
  intros E Hj. unfold d_addr. rewrite E, Nat2Z.id. apply nth_lookup_Some. by rewrite fr_addrs_lookup, decide_True.
Qed.

Lemma d_addr_ind f din : i_addrs din = fr_addrs f -> d_addr din NDIRECT = fr_ind f.
Proof. intros E. unfold d_addr. rewrite E. apply nth_lookup_Some. by rewrite fr_addrs_lookup. Qed.

Lemma fr_addrs_push f b : (length (fr_db f) < 12)%nat ->
  <[length (fr_db f) := b]> (fr_addrs f) = fr_addrs (mkFrec (fr_type f) (fr_data f) (fr_db f ++ [b]) (fr_ind f)).
Proof.
  intros Hl. apply list_eq. intros j. rewrite (fr_addrs_lookup (mkFrec _ _ _ _)). cbn [fr_db fr_ind].
  destruct (decide (j = length (fr_db f))) as [->|Hne].
  - rewrite list_lookup_insert_eq, decide_True, lookup_app_r, Nat.sub_diag by (rewrite ?length_fr_addrs; lia). done.
  - rewrite list_lookup_insert_ne, fr_addrs_lookup by done. case_decide; [|done]. f_equal. f_equal.
    destruct (decide (j < length (fr_db f))%nat); [by rewrite lookup_app_l|].
    rewrite !lookup_ge_None_2; [done|rewrite length_app; cbn; lia|lia].
Qed.

Lemma fr_addrs_ind f b : <[12%nat := b]> (fr_addrs f) = fr_addrs (mkFrec (fr_type f) (fr_data f) (fr_db f) b).
Proof.
  apply list_eq. intros j. rewrite (fr_addrs_lookup (mkFrec _ _ _ _)). cbn [fr_db fr_ind]. destruct (decide (j = 12%nat)) as [->|Hne].
  - by rewrite list_lookup_insert_eq by (rewrite length_fr_addrs; lia).
  - rewrite list_lookup_insert_ne, fr_addrs_lookup by done. case_decide; [done|]. by rewrite decide_False.
Qed.

Lemma need_succ n : need (n + 1) = S (n / 1024).
Proof. unfold need. replace (n + 1 + 1023)%nat with (n + 1 * 1024)%nat by lia. rewrite Nat.div_add by lia. lia. Qed.

(** The last block has room, or there is none. *)
Lemma need_room n : ((n mod 1024 <> 0)%nat /\ need n = S (n / 1024)) \/ ((n mod 1024 = 0)%nat /\ need n = (n / 1024)%nat).
Proof.
  unfold need. pose proof (Nat.div_mod_eq n 1024). pose proof (Nat.mod_upper_bound n 1024).
  set (q := (n / 1024)%nat) in *. set (r := (n mod 1024)%nat) in *.
  destruct (decide (r = 0)%nat); [right|left]; (split; [done|]).
  - replace (n + 1023)%nat with (1023 + q * 1024)%nat by lia. rewrite Nat.div_add by lia. done.
  - replace (n + 1023)%nat with (r - 1 + (q + 1) * 1024)%nat by lia. rewrite Nat.div_add, Nat.div_small by lia. lia.
Qed.

(** ** One more block *)

Lemma get32_put32 d o o' v : (o + 4 <= length d)%nat -> (o' = o \/ (o' + 4 <= o \/ o + 4 <= o')%nat) -> 0 <= v < 2 ^ 32 ->
  get32 (put32 d o v) o' = if decide (o' = o) then v else get32 d o'.
Proof.
  intros Hd Ho Hv. unfold get32, put32. case_decide as E.
  - subst o'. rewrite get_put_le_same by lia. by apply Z.mod_small.
  - apply get_put_le_other. lia.
Qed.

(** A file that ends at a block boundary, with one more data block. *)
Lemma file_img_push img img' f b ind :
  file_img img f -> (length (fr_data f) <= 1024 * length (fr_db f))%nat -> (length (fr_db f) < 268)%nat ->
  (forall b', b' ∈ fr_db f -> img' !! b' = img !! b') -> is_Some (img' !! b) ->
  (ind = 0 -> (length (fr_db f) < 12)%nat) ->
  (ind <> 0 -> exists d, img' !! ind = Some d /\ forall j, (j < 256)%nat -> get32 d (4 * j) = default 0 ((fr_db f ++ [b]) !! (12 + j)%nat)) ->
  file_img img' (mkFrec (fr_type f) (fr_data f) (fr_db f ++ [b]) ind).
Proof.
  intros [A B C D] Hn Hl Hsame [d Hd] Hi He. split; cbn [fr_data fr_db fr_ind].
  - rewrite length_app. cbn [length]. lia.
  - rewrite length_app. cbn [length]. intros H ->. specialize (Hi eq_refl). lia.
  - done.
  - intros j b' Hj. destruct (decide (j < length (fr_db f))%nat) as [Hlt|Hge].
    + rewrite lookup_app_l in Hj by done. destruct (D j b' Hj) as (d' & Ed & Hd'). exists d'. split; [|done].
      rewrite Hsame; [done|by eapply list_elem_of_lookup_2].
    + rewrite lookup_app_r in Hj by lia. destruct (j - length (fr_db f))%nat as [|i] eqn:E; [|done]. injection Hj as <-.
      exists d. split; [done|]. intros x Hx Hlx. lia.
Qed.

(** The entry of the new block in the indirect block. *)
Lemma entries_push d db b : length d = 1024%nat -> (12 <= length db < 268)%nat -> 0 <= b < 2 ^ 32 ->
  (forall j, (j < 256)%nat -> get32 d (4 * j) = default 0 (db !! (12 + j)%nat)) ->
  forall j, (j < 256)%nat -> get32 (put32 d (4 * (length db - 12)) b) (4 * j) = default 0 ((db ++ [b]) !! (12 + j)%nat).
Proof.
  intros Hd Hl Hb H j Hj. rewrite get32_put32 by (lia || done). case_decide as E.
  - rewrite lookup_app_r by lia. by replace (12 + j - length db)%nat with O by lia.
  - rewrite H by done. destruct (decide (12 + j < length db)%nat); [by rewrite lookup_app_l|].
    rewrite !lookup_ge_None_2; [done|rewrite length_app; cbn [length]; lia|lia].
Qed.

(** ** The block for the next byte *)

Section Block.
Context (s : fsimg) (fs : list frec) (k : nat) (f : frec) (din : inode).
Let n := length (fr_data f).
Context (I : img_files s fs) (Hk : fs !! k = Some f) (Hex : exact f n).
Context (Hmax : (n < 268 * 1024)%nat) (Ha : i_addrs din = fr_addrs f).

(** What [iappend_block] leaves: a description of the file with a block for
    byte [n]. *)
Record blocked (s1 : fsimg) (f1 : frec) (x : Z) : Prop := {
  bl_run : iappend_block din (Z.of_nat (n / 1024)) s = Ok (set_i_addrs (fr_addrs f1) din, x) s1;
  bl_files : img_files s1 (<[k := f1]> fs);
  bl_data : fr_type f1 = fr_type f /\ fr_data f1 = fr_data f;
  bl_block : fr_db f1 !! (n / 1024)%nat = Some x;
  bl_exact : exact f1 (n + 1);
  bl_free : f_freeblock s1 = f_freeblock s + Z.of_nat (cost (n + 1)) - Z.of_nat (cost n);
  bl_inode : f_freeinode s1 = f_freeinode s;
  bl_meta : forall b, b < nmeta -> f_img s1 !! b = f_img s !! b
}.

Lemma f_ok : file_img (f_img s) f.
Proof using All. exact (Forall_lookup_1 _ _ _ _ (im_files _ _ I) Hk). Qed.

Lemma block_nonzero b : b ∈ fr_blocks f -> b <> 0.
Proof using All. intros Hb. pose proof (im_block_range s fs k f b I Hk Hb). rewrite nmeta_eq in *. lia. Qed.

Lemma set_addrs_same : set_i_addrs (fr_addrs f) din = din.
Proof using All. rewrite <- Ha. by destruct din. Qed.

Lemma block_max : (n / 1024 < 268)%nat.
Proof using All. apply Nat.Div0.div_lt_upper_bound. lia. Qed.

(** The block is there. *)
Lemma block_old : (n mod 1024 <> 0)%nat -> exists x, blocked s f x.
Proof using All.
  intros Hm. pose proof block_max as Hq268. destruct (need_room n) as [[_ En]|[? _]]; [|done]. destruct Hex as [El Hi].
  assert (Hq : (n / 1024 < length (fr_db f))%nat) by lia. destruct (lookup_lt_is_Some_2 _ _ Hq) as [x Hx].
  assert (Hx0 : x <> 0) by (apply block_nonzero, elem_of_app; left; by eapply list_elem_of_lookup_2).
  exists x. split; try done.
  - unfold iappend_block. destruct (Z.ltb_spec (Z.of_nat (n / 1024)) NDIRECT) as [Hd|Hd]; unfold NDIRECT in Hd.
    + unfold need_addr. rewrite (d_addr_db f) by (done || lia). rewrite Hx. cbn [default from_option id].
      rewrite (proj2 (Z.eqb_neq _ _) Hx0), bind_ret. rewrite (d_addr_db f) by (done || lia). by rewrite Hx, set_addrs_same.
    + pose proof (fi_ind _ _ f_ok ltac:(lia)) as Hi0. destruct (fi_entries _ _ f_ok Hi0) as (d & Ed & Hd').
      unfold need_addr. rewrite (d_addr_ind f) by done. rewrite (proj2 (Z.eqb_neq _ _) Hi0), bind_ret. rewrite (d_addr_ind f) by done.
      unfold rsect, bind. rewrite Ed. replace (Z.to_nat (4 * (Z.of_nat (n / 1024) - NDIRECT))) with (4 * (n / 1024 - 12))%nat by (unfold NDIRECT; lia).
      rewrite Hd' by lia. replace (12 + (n / 1024 - 12))%nat with (n / 1024)%nat by lia. rewrite Hx. cbn [default from_option id].
      by rewrite (proj2 (Z.eqb_neq _ _) Hx0), set_addrs_same.
  - by rewrite list_insert_id.
  - unfold exact. rewrite need_succ. split; [lia|done].
  - unfold cost. rewrite need_succ, En. lia.
Qed.

Context (Hroom : f_freeblock s + Z.of_nat (cost (n + 1)) - Z.of_nat (cost n) <= FSSIZE) (Hm : (n mod 1024 = 0)%nat).
Let b := f_freeblock s.

Lemma boundary : length (fr_db f) = (n / 1024)%nat /\ n = (1024 * length (fr_db f))%nat /\ (length (fr_db f) < 268)%nat.
Proof using All.
  pose proof block_max. destruct (need_room n) as [[? _]|[_ En]]; [done|]. destruct Hex as [El _]. pose proof (Nat.div_mod_eq n 1024). lia.
Qed.

Lemma fresh_range : 46 <= b <= FSSIZE /\ 46 <= b < 2 ^ 32 - 2.
Proof using All. pose proof (im_range _ _ I). rewrite nmeta_eq in *. unfold FSSIZE in *. unfold b. lia. Qed.

Lemma old_range b' : b' ∈ fr_blocks f -> 46 <= b' < b.
Proof using All. rewrite <- nmeta_eq. by apply (im_block_range s fs k f). Qed.

Lemma next_block_run s' : f_freeblock s' <= FSSIZE -> 46 <= f_freeblock s' ->
  next_block s' = Ok (f_freeblock s') (set_f_freeblock (f_freeblock s' + 1) s').
Proof using All.
  intros H1 H2. unfold next_block. rewrite bind_gets, bind_modify. rewrite u32_small; [done|]. unfold FSSIZE in H1. lia.
Qed.

(** A direct block. *)
Lemma block_direct : (length (fr_db f) < 12)%nat -> exists s1 f1 x, blocked s1 f1 x.
Proof using All.
  intros Hl. destruct boundary as (El & En & _). destruct fresh_range as [Hb Hb']. pose proof f_ok as F.
  assert (Hi : fr_ind f = 0) by (destruct (decide (fr_ind f = 0)); [done|]; destruct Hex as [_ Hi]; specialize (Hi ltac:(done)); lia).
  assert (Hc : Z.of_nat (cost (n + 1)) - Z.of_nat (cost n) = 1).
  { unfold cost. rewrite need_succ. destruct Hex as [Ed _]. rewrite <- Ed, El in *. repeat case_decide; lia. }
  assert (Hlt : b + 1 <= FSSIZE) by (unfold b; lia).
  exists (set_f_freeblock (b + 1) s), (mkFrec (fr_type f) (fr_data f) (fr_db f ++ [b]) 0), b. split; cbn [f_freeblock f_img f_freeinode set_f_freeblock fr_db fr_ind fr_data fr_type]; try done.
  - unfold iappend_block. rewrite <- El. rewrite (proj2 (Z.ltb_lt _ _)) by (unfold NDIRECT; lia). unfold need_addr.
    rewrite (d_addr_db f), lookup_ge_None_2 by (done || lia). cbn [default from_option Z.eqb].
    rewrite bind_assoc, (bind_ok _ _ _ _ _ (next_block_run s ltac:(unfold b in *; lia) ltac:(unfold b in *; lia))), bind_ret. fold b.
    assert (E : i_addrs (set_d_addr din (Z.of_nat (length (fr_db f))) b) = fr_addrs (mkFrec (fr_type f) (fr_data f) (fr_db f ++ [b]) (fr_ind f))).
    { unfold set_d_addr. cbn [i_addrs set_i_addrs]. rewrite Nat2Z.id, Ha. by apply fr_addrs_push. }
    rewrite (d_addr_db _ _ _ E) by lia. cbn [fr_db]. rewrite lookup_app_r, Nat.sub_diag by lia. cbn [lookup list_lookup default from_option id].
    by rewrite <- Hi, <- E.
  - apply (img_files_upd s _ fs k f); cbn [f_freeblock f_img set_f_freeblock]; try done.
    + fold b. lia.
    + unfold fr_blocks. cbn [fr_db fr_ind Z.eqb]. rewrite Hi. cbn [Z.eqb]. fold b. replace (b + 1 - b) with 1 by lia.
      rewrite !app_nil_r. change (seqZ b 1) with [b]. by rewrite Permutation_app_comm.
    + intros b' Hin. apply (im_sectors _ _ I). unfold fr_blocks in Hin. cbn [fr_db fr_ind Z.eqb] in Hin. rewrite app_nil_r, elem_of_app, list_elem_of_singleton in Hin.
      destruct Hin as [Hin|Hin]; [|lia]. pose proof (old_range b' ltac:(apply elem_of_app; by left)). lia.
    + apply (file_img_push (f_img s)); try done; [lia|lia|].
      destruct (im_sectors _ _ I b) as (d & Ed & _); [lia|]. by exists d.
  - rewrite <- El, lookup_app_r, Nat.sub_diag by lia. done.
  - unfold exact. cbn [fr_db fr_ind]. rewrite length_app, need_succ. cbn [length]. split; [lia|done].
  - fold b. lia.
Qed.

(** A new block [nb] with its entry in the indirect block [ind]. *)
Lemma entry_added ind nb d fb : (12 <= length (fr_db f))%nat -> b <= fb <= FSSIZE -> 46 <= ind < FSSIZE -> 46 <= nb < FSSIZE -> nb <> ind ->
  (ind ∉ fr_db f) -> fr_db f ++ [nb; ind] ≡ₚ seqZ b (fb - b) ++ fr_blocks f -> f_img s !! ind = Some d ->
  (forall j, (j < 256)%nat -> get32 d (4 * j) = default 0 (fr_db f !! (12 + j)%nat)) ->
  let img' := <[ind := put32 d (4 * (length (fr_db f) - 12)) nb]> (f_img s) in
  img_files (set_f_freeblock fb (set_f_img img' s)) (<[k := mkFrec (fr_type f) (fr_data f) (fr_db f ++ [nb]) ind]> fs).
Proof using All.
  intros Hl Hfb Hi Hnb Hne Hnd Hp Ed Hd img'. destruct boundary as (El & En & Hq). unfold FSSIZE in *.
  destruct (im_sectors _ _ I ind) as (d' & Ed' & Ld & Yd); [unfold FSSIZE; lia|]. assert (d' = d) as -> by congruence.
  assert (Hbl : fr_blocks (mkFrec (fr_type f) (fr_data f) (fr_db f ++ [nb]) ind) = fr_db f ++ [nb; ind]).
  { unfold fr_blocks. cbn [fr_db fr_ind]. rewrite (proj2 (Z.eqb_neq ind 0)) by lia. by rewrite <- app_assoc. }
  apply (img_files_upd s _ fs k f); cbn [f_freeblock f_img set_f_freeblock set_f_img]; rewrite ?Hbl; try done.
  - intros b' Hin. apply lookup_insert_ne. intros E. apply Hin. rewrite <- E. apply elem_of_app. right. right. by left.
  - intros b' Hin. destruct (decide (b' = ind)) as [->|Hn].
    + eexists. split; [apply lookup_insert_eq|]. split; [by apply (eq_trans (length_put_le _ _ _ _))|by apply byte_list_put_le].
    + unfold sector, img'. rewrite lookup_insert_ne by done. apply (im_sectors _ _ I). rewrite elem_of_app, !elem_of_cons, elem_of_nil in Hin.
      unfold FSSIZE. destruct Hin as [Hin|[Hin|[Hin|[]]]]; [|lia|lia].
      pose proof (old_range b' ltac:(apply elem_of_app; by left)). pose proof fresh_range. unfold FSSIZE in *. lia.
  - apply (file_img_push (f_img s)); try done; [apply f_ok|fold n; lia| | |lia|].
    + intros b' Hin. apply lookup_insert_ne. intros E. by rewrite <- E in Hin.
    + destruct (im_sectors _ _ I nb) as (e & Ee & _); [unfold FSSIZE; lia|]. exists e. unfold img'. rewrite lookup_insert_ne by done. done.
    + intros _. eexists. split; [apply lookup_insert_eq|]. by apply entries_push; [|lia|lia|].
Qed.

Lemma exact_push b' ind : (12 <= length (fr_db f))%nat -> exact (mkFrec (fr_type f) (fr_data f) (fr_db f ++ [b']) ind) (n + 1).
Proof using All.
  intros Hl. destruct boundary as (El & _). unfold exact. cbn [fr_db fr_ind]. rewrite length_app, need_succ. cbn [length]. split; lia.
Qed.

(** The end of [iappend_block] when the entry is 0. *)
Lemma entry_run s' d (dn : inode) ind : f_freeblock s' <= FSSIZE -> 46 <= f_freeblock s' -> (12 <= length (fr_db f))%nat ->
  d_addr dn NDIRECT = ind -> f_img s' !! ind = Some d -> length d = 1024%nat ->
  (forall j, (j < 256)%nat -> get32 d (4 * j) = default 0 (fr_db f !! (12 + j)%nat)) ->
  (let! indirect := rsect (d_addr dn NDIRECT) in
   let o := Z.to_nat (4 * (Z.of_nat (n / 1024) - NDIRECT)) in
   if get32 indirect o =? 0 then
     let! b := next_block in
     let indirect := put32 indirect o b in
     wsect (d_addr dn NDIRECT) indirect ;;;
     ret (dn, get32 indirect o)
   else ret (dn, get32 indirect o)) s' =
  Ok (dn, f_freeblock s') (set_f_freeblock (f_freeblock s' + 1)
    (set_f_img (<[ind := put32 d (4 * (length (fr_db f) - 12)) (f_freeblock s')]> (f_img s')) s')).
Proof using All.
  intros H1 H2 Hl Ei Ed Ld Hd. destruct boundary as (El & En & Hq). rewrite Ei. unfold rsect, bind at 1. rewrite Ed. cbv zeta. rewrite <- El.
  set (o := (4 * (length (fr_db f) - 12))%nat).
  replace (Z.to_nat (4 * (Z.of_nat (length (fr_db f)) - NDIRECT))) with o by (unfold o, NDIRECT; lia).
  assert (E0 : get32 d o = 0) by (unfold o; rewrite Hd by lia; rewrite lookup_ge_None_2 by lia; done). rewrite E0. cbn [Z.eqb].
  rewrite (bind_ok _ _ _ _ _ (next_block_run s' H1 H2)). unfold wsect. rewrite bind_modify. unfold FSSIZE in H1.
  rewrite get32_put32, decide_True by (unfold o in *; lia || by left). done.
Qed.

(** An entry of the indirect block. *)
Lemma block_indirect : (12 < length (fr_db f))%nat -> exists s1 f1 x, blocked s1 f1 x.
Proof using All.
  intros Hl. destruct boundary as (El & En & Hq). destruct fresh_range as [Hb Hb']. pose proof f_ok as F.
  pose proof (fi_ind _ _ F Hl) as Hi. destruct (fi_entries _ _ F Hi) as (d & Ed & Hd).
  assert (Hbl : fr_blocks f = fr_db f ++ [fr_ind f]) by (unfold fr_blocks; by rewrite (proj2 (Z.eqb_neq _ _) Hi)).
  pose proof (old_range (fr_ind f)) as Hir. rewrite Hbl in Hir. specialize (Hir ltac:(apply elem_of_app; right; by left)).
  destruct (im_sectors _ _ I (fr_ind f)) as (d' & Ed' & Ld & _); [lia|]. assert (d' = d) as -> by congruence.
  assert (Hc : Z.of_nat (cost (n + 1)) - Z.of_nat (cost n) = 1).
  { unfold cost. rewrite need_succ. destruct Hex as [Ed2 _]. rewrite <- Ed2, El in *. repeat case_decide; lia. }
  assert (Hlt : b + 1 <= FSSIZE) by (unfold b; lia).
  assert (Hnd : fr_ind f ∉ fr_db f).
  { pose proof (im_nodup _ _ I) as N. rewrite (all_blocks_split fs k f Hk), Hbl in N. apply NoDup_app in N as (N & _ & _).
    apply NoDup_app in N as (_ & N & _). intros H. apply (N _ H). by left. }
  eexists _, (mkFrec (fr_type f) (fr_data f) (fr_db f ++ [b]) (fr_ind f)), b. split.
  - unfold iappend_block. rewrite (proj2 (Z.ltb_ge _ _)) by (unfold NDIRECT; lia). unfold need_addr.
    rewrite (d_addr_ind f) by done. rewrite (proj2 (Z.eqb_neq _ _) Hi), bind_ret.
    etrans; [apply (entry_run s d din (fr_ind f)); [unfold b in *; lia|unfold b in *; lia|lia|by apply d_addr_ind|done|done|done]|]. fold b.
    assert (Ea : fr_addrs (mkFrec (fr_type f) (fr_data f) (fr_db f ++ [b]) (fr_ind f)) = fr_addrs f).
    { apply list_eq. intros j. rewrite !fr_addrs_lookup. cbn [fr_db fr_ind]. case_decide; [|done]. by rewrite lookup_app_l by lia. }
    by rewrite Ea, set_addrs_same.
  - apply entry_added; try done; try lia. replace (b + 1 - b) with 1 by lia. change (seqZ b 1) with [b]. rewrite Hbl, Permutation_app_comm. cbn [app].
    by rewrite (Permutation_app_comm (fr_db f)).
  - done.
  - cbn [fr_db]. rewrite <- El, lookup_app_r, Nat.sub_diag by lia. done.
  - apply exact_push. lia.
  - cbn [f_freeblock set_f_freeblock]. fold b. lia.
  - done.
  - intros b' Hlt'. cbn [f_img set_f_freeblock set_f_img]. apply lookup_insert_ne. rewrite nmeta_eq in Hlt'. lia.
Qed.

(** The first one: the indirect block itself is new. *)
Lemma block_first : length (fr_db f) = 12%nat -> exists s1 f1 x, blocked s1 f1 x.
Proof using All.
  intros Hl. destruct boundary as (El & En & Hq). destruct fresh_range as [Hb Hb']. pose proof f_ok as F.
  assert (Hi : fr_ind f = 0) by (destruct (decide (fr_ind f = 0)); [done|]; destruct Hex as [_ Hi]; specialize (Hi ltac:(done)); lia).
  assert (Hbl : fr_blocks f = fr_db f) by (unfold fr_blocks; rewrite Hi; apply app_nil_r).
  assert (Hc : Z.of_nat (cost (n + 1)) - Z.of_nat (cost n) = 2).
  { unfold cost. rewrite need_succ. destruct Hex as [Ed2 _]. rewrite <- Ed2, <- El, Hl. done. }
  assert (Hlt : b + 2 <= FSSIZE) by (unfold b; lia).
  pose proof (im_fresh _ _ I b ltac:(unfold b in *; lia)) as Ed.
  assert (Hd : forall j, (j < 256)%nat -> get32 (replicate 1024 0) (4 * j) = default 0 (fr_db f !! (12 + j)%nat)).
  { intros j Hj. rewrite lookup_ge_None_2 by lia. apply get_le_zeroes. }
  assert (Hnd : b ∉ fr_db f) by (intros H; rewrite <- Hbl in H; apply old_range in H; lia).
  eexists _, (mkFrec (fr_type f) (fr_data f) (fr_db f ++ [b + 1]) b), (b + 1). split.
  - unfold iappend_block. rewrite (proj2 (Z.ltb_ge _ _)) by (unfold NDIRECT; lia). unfold need_addr.
    rewrite (d_addr_ind f), Hi by done. cbn [Z.eqb]. rewrite bind_assoc, (bind_ok _ _ _ _ _ (next_block_run s ltac:(unfold b in *; lia) ltac:(unfold b in *; lia))), bind_ret.
    fold b. assert (E : i_addrs (set_d_addr din NDIRECT b) = fr_addrs (mkFrec (fr_type f) (fr_data f) (fr_db f) b)).
    { unfold set_d_addr. cbn [i_addrs set_i_addrs]. rewrite Ha. apply fr_addrs_ind. }
    etrans; [apply (entry_run (set_f_freeblock (b + 1) s) (replicate 1024 0) _ b); cbn [f_freeblock set_f_freeblock f_img]; [lia|lia|lia|by apply (d_addr_ind _ _ E)|done|done|done]|].
    cbn [f_freeblock set_f_freeblock f_img].
    assert (Ea : fr_addrs (mkFrec (fr_type f) (fr_data f) (fr_db f ++ [b + 1]) b) = fr_addrs (mkFrec (fr_type f) (fr_data f) (fr_db f) b)).
    { apply list_eq. intros j. rewrite !fr_addrs_lookup. cbn [fr_db fr_ind]. case_decide; [|done]. by rewrite lookup_app_l by lia. }
    rewrite Ea, <- E. reflexivity.
  - change (set_f_freeblock (b + 1 + 1) _) with (set_f_freeblock (b + 1 + 1) (set_f_img (<[b := put32 (replicate 1024 0) (4 * (length (fr_db f) - 12)) (b + 1)]> (f_img s)) s)).
    apply entry_added; try done; try lia. replace (b + 1 + 1 - b) with 2 by lia. rewrite Hbl, Permutation_app_comm. apply Permutation_app_tail.
    assert (E2 : seqZ b 2 = [b; b + 1]) by (rewrite seqZ_cons by lia; do 2 f_equal; lia). rewrite E2. constructor.
  - done.
  - cbn [fr_db]. rewrite <- El, lookup_app_r, Nat.sub_diag by lia. done.
  - apply exact_push. lia.
  - cbn [f_freeblock set_f_freeblock]. fold b. lia.
  - done.
  - intros b' Hlt'. cbn [f_img set_f_freeblock set_f_img]. apply lookup_insert_ne. rewrite nmeta_eq in Hlt'. lia.
Qed.
End Block.

Lemma cost_le n m : (n <= m)%nat -> (cost n <= cost m)%nat.
Proof. intros H. apply need_le in H. unfold cost. repeat case_decide; lia. Qed.

Lemma block_ok s fs k f din (n := length (fr_data f)) :
  img_files s fs -> fs !! k = Some f -> exact f n -> (n < 268 * 1024)%nat -> i_addrs din = fr_addrs f ->
  f_freeblock s + Z.of_nat (cost (n + 1)) - Z.of_nat (cost n) <= FSSIZE -> exists s1 f1 x, blocked s fs k f din s1 f1 x.
Proof.
  intros I Hk Hex Hmax Ha Hroom. destruct (decide (n mod 1024 = 0)%nat) as [Hm|Hm].
  - destruct (decide (length (fr_db f) < 12)%nat); [by apply block_direct|].
    destruct (decide (length (fr_db f) = 12)%nat); [by apply block_first|]. apply block_indirect; try done. lia.
  - destruct (block_old s fs k f din I Hk Hex Hmax Ha Hm) as [x Hx]. by exists s, f, x.
Qed.

(** ** Writing into the block *)

Lemma need_same n m : (0 < m <= 1024 - n mod 1024)%nat -> need (n + m) = need (n + 1).
Proof.
  intros H. rewrite need_succ. unfold need. pose proof (Nat.div_mod_eq n 1024). pose proof (Nat.mod_upper_bound n 1024).
  set (q := (n / 1024)%nat) in *. set (r := (n mod 1024)%nat) in *.
  replace (n + m + 1023)%nat with (r + m - 1 + (q + 1) * 1024)%nat by lia. rewrite Nat.div_add, Nat.div_small by lia. lia.
Qed.

(** The file with the bytes [p], which fit in its last block. *)
Lemma file_img_write img f x d p (n := length (fr_data f)) :
  file_img img f -> NoDup (fr_blocks f) -> fr_db f !! (n / 1024)%nat = Some x -> img !! x = Some d -> length d = 1024%nat ->
  (0 < length p <= 1024 - n mod 1024)%nat -> exact f (n + 1) ->
  file_img (<[x := put_bytes d (n mod 1024) p]> img) (mkFrec (fr_type f) (fr_data f ++ p) (fr_db f) (fr_ind f)).
Proof.
  intros F N Hx Ed Ld Hp [El Hi]. pose proof (Nat.div_mod_eq n 1024) as Hn. pose proof F as [A B C D].
  apply NoDup_app in N as (N & Ni & _). split; cbn [fr_data fr_db fr_ind].
  - rewrite length_app. fold n. rewrite need_same by done. lia.
  - done.
  - intros H. rewrite lookup_insert_ne; [by apply C|]. intros E. apply (Ni x); [by eapply list_elem_of_lookup_2|].
    rewrite (proj2 (Z.eqb_neq _ _) H), E. by left.
  - intros j b' Hj. destruct (D j b' Hj) as (d' & Ed' & Hd'). destruct (decide (b' = x)) as [->|Hne].
    + assert (j = (n / 1024)%nat) as -> by (by eapply (NoDup_lookup _ _ _ _ N)). assert (d' = d) as -> by congruence.
      eexists. split; [apply lookup_insert_eq|]. intros y Hy Hly. rewrite length_app in Hly. fold n in Hly.
      rewrite !nth_lookup, lookup_put_bytes by lia. case_decide as E.
      * rewrite lookup_app_r by (fold n; lia). do 2 f_equal. fold n. lia.
      * rewrite <- nth_lookup, Hd' by (fold n; lia). rewrite nth_lookup, lookup_app_l by (fold n; lia). done.
    + exists d'. split; [by rewrite lookup_insert_ne|]. intros y Hy Hly. rewrite length_app in Hly. fold n in Hly.
      assert (Hjl : (j < length (fr_db f))%nat) by (by eapply lookup_lt_Some). rewrite El, need_succ in Hjl.
      assert (j <> n / 1024)%nat by (intros ->; congruence).
      rewrite Hd' by (fold n; lia). rewrite !nth_lookup, lookup_app_l by (fold n; lia). done.
Qed.

Lemma img_files_write s fs k f x d p (n := length (fr_data f)) :
  img_files s fs -> fs !! k = Some f -> fr_db f !! (n / 1024)%nat = Some x -> f_img s !! x = Some d ->
  (0 < length p <= 1024 - n mod 1024)%nat -> exact f (n + 1) -> byte_list p ->
  img_files (set_f_img (<[x := put_bytes d (n mod 1024) p]> (f_img s)) s)
    (<[k := mkFrec (fr_type f) (fr_data f ++ p) (fr_db f) (fr_ind f)]> fs).
Proof.
  intros I Hk Hx Ed Hp Hex Hb. assert (Hin : x ∈ fr_blocks f) by (apply elem_of_app; left; by eapply list_elem_of_lookup_2).
  pose proof (im_block_range s fs k f x I Hk Hin) as Hr. pose proof (im_range _ _ I) as Hr2. rewrite nmeta_eq in *.
  destruct (im_sectors _ _ I x) as (d' & Ed' & Ld & Yd); [lia|]. assert (d' = d) as -> by congruence.
  apply (img_files_upd s _ fs k f); cbn [f_freeblock f_img set_f_img]; try done.
  - lia.
  - by rewrite Z.sub_diag.
  - intros b Hb'. apply lookup_insert_ne. intros <-. done.
  - intros b Hb'. destruct (decide (b = x)) as [->|Hne].
    + eexists. split; [apply lookup_insert_eq|]. split; [|by apply byte_list_put_bytes]. rewrite length_put_bytes; [done|].
      pose proof (Nat.mod_upper_bound n 1024). lia.
    + unfold sector. rewrite lookup_insert_ne by done. apply (im_sectors _ _ I).
      pose proof (im_block_range s fs k f b I Hk Hb'). rewrite nmeta_eq in *. lia.
  - apply file_img_write; try done; [apply (Forall_lookup_1 _ _ _ _ (im_files _ _ I) Hk)|].
    pose proof (im_nodup _ _ I) as N. rewrite (all_blocks_split fs k f Hk) in N. by apply NoDup_app in N as (N & _ & _).
Qed.

(** ** [iappend] *)

(** File [k] with [p] appended: the loop is at its end. *)
Record appended (s : fsimg) (fs : list frec) (k : nat) (f : frec) (p : list Z) (s' : fsimg) (f' : frec) : Prop := {
  ap_files : img_files s' (<[k := f']> fs);
  ap_data : fr_type f' = fr_type f /\ fr_data f' = fr_data f ++ p;
  ap_exact : exact f' (length (fr_data f'));
  ap_free : f_freeblock s' = f_freeblock s + Z.of_nat (cost (length (fr_data f) + length p)) - Z.of_nat (cost (length (fr_data f)));
  ap_inode : f_freeinode s' = f_freeinode s;
  ap_meta : forall b, b < nmeta -> f_img s' !! b = f_img s !! b
}.

Lemma off_div n : Z.of_nat n / BSIZE = Z.of_nat (n / 1024) /\ Z.of_nat n - Z.of_nat (n / 1024) * BSIZE = Z.of_nat (n mod 1024) /\
  (Z.of_nat (n / 1024) + 1) * BSIZE - Z.of_nat n = Z.of_nat (1024 - n mod 1024).
Proof.
  pose proof (Nat.div_mod_eq n 1024). pose proof (Nat.mod_upper_bound n 1024). unfold BSIZE.
  assert (E : Z.of_nat n / 1024 = Z.of_nat (n / 1024)) by (by rewrite Nat2Z.inj_div). rewrite E. split; [done|]. lia.
Qed.

(** One round. *)
Lemma iappend_round s fs k f din p (n := length (fr_data f)) (m := Nat.min (length p) (1024 - n mod 1024)) :
  img_files s fs -> fs !! k = Some f -> exact f n -> i_addrs din = fr_addrs f -> byte_list p -> (0 < length p)%nat ->
  (n + length p <= 268 * 1024)%nat -> f_freeblock s + Z.of_nat (cost (n + length p)) - Z.of_nat (cost n) <= FSSIZE ->
  exists s' f', appended s fs k f (take m p) s' f' /\
    forall fuel, iappend_loop (S fuel) din (Z.of_nat n) p s = iappend_loop fuel (set_i_addrs (fr_addrs f') din) (Z.of_nat (n + m)) (drop m p) s'.
Proof.
  intros I Hk Hex Ha Hb Hp Hmax Hroom. pose proof (Nat.mod_upper_bound n 1024) as Hr.
  destruct (block_ok s fs k f din I Hk Hex) as (s1 & f1 & x & B); [fold n; lia|done|fold n; pose proof (cost_le (n + 1) (n + length p)); lia|].
  destruct B as [Run Fl [Ety Edt] Hx Ex1 Fr1 In1 Me1]. fold n in Run, Hx, Ex1, Fr1.
  assert (Hk1 : <[k := f1]> fs !! k = Some f1) by (apply list_lookup_insert_eq; by eapply lookup_lt_Some).
  assert (Hxin : x ∈ fr_blocks f1) by (apply elem_of_app; left; by eapply list_elem_of_lookup_2).
  pose proof (im_block_range _ _ k f1 x Fl Hk1 Hxin) as Hxr. pose proof (im_range _ _ Fl) as Hrg. rewrite nmeta_eq in Hxr, Hrg.
  destruct (im_sectors _ _ Fl x) as (d & Ed & _); [lia|].
  assert (Lm : length (take m p) = m) by (rewrite length_take; unfold m; lia).
  pose proof (img_files_write s1 (<[k := f1]> fs) k f1 x d (take m p) Fl Hk1) as W. rewrite Edt in W. fold n in W.
  specialize (W Hx Ed ltac:(rewrite Lm; unfold m; lia) Ex1 ltac:(by apply Forall_take)). rewrite list_insert_insert_eq in W.
  assert (Hne : need (n + m) = need (n + 1)) by (apply need_same; unfold m; lia).
  eexists _, _. split; [split; [exact W|..]|]; cbn [fr_type fr_data f_freeblock f_freeinode f_img set_f_img].
  - done.
  - rewrite length_app, Lm. fold n. destruct Ex1 as [E1 E2]. split; cbn [fr_db fr_ind]; [congruence|done].
  - fold n. rewrite Lm, Fr1. unfold cost. by rewrite Hne.
  - done.
  - intros b Hlt. rewrite lookup_insert_ne by (rewrite nmeta_eq in Hlt; lia). by apply Me1.
  - intros fuel. cbn [iappend_loop]. rewrite (proj2 (Z.ltb_lt 0 _)) by lia. destruct (off_div n) as (O1 & O2 & O3). rewrite O1.
    rewrite (proj2 (Z.ltb_lt _ MAXFILE)) by (change MAXFILE with (Z.of_nat 268); apply inj_lt, Nat.Div0.div_lt_upper_bound; lia). cbn [negb].
    rewrite (bind_ok _ _ _ _ _ Run). rewrite O2, O3. replace (Z.min (Z.of_nat (length p)) (Z.of_nat (1024 - n mod 1024))) with (Z.of_nat m) by (unfold m; lia).
    unfold rsect, bind at 1. rewrite Ed. unfold wsect. rewrite bind_modify, !Nat2Z.id. rewrite u32_small by lia.
    replace (Z.of_nat n + Z.of_nat m) with (Z.of_nat (n + m)) by lia. reflexivity.
Qed.

Lemma iappend_loop_spec fuel : forall s fs k f din p (n := length (fr_data f)),
  img_files s fs -> fs !! k = Some f -> exact f n -> i_addrs din = fr_addrs f -> byte_list p -> (length p <= fuel)%nat ->
  (n + length p <= 268 * 1024)%nat -> f_freeblock s + Z.of_nat (cost (n + length p)) - Z.of_nat (cost n) <= FSSIZE ->
  exists s' f', iappend_loop fuel din (Z.of_nat n) p s = Ok (set_i_addrs (fr_addrs f') din, Z.of_nat (n + length p)) s' /\ appended s fs k f p s' f'.
Proof.
  induction fuel as [|fuel IH]; intros s fs k f din p n I Hk Hex Ha Hb Hf Hmax Hroom.
  all: destruct (decide (length p = O)) as [Hz|Hz].
  all: try lia.
  all: try (apply nil_length_inv in Hz; subst p; cbn [length iappend_loop]; rewrite Nat.add_0_r; exists s, f;
    split; [cbn; do 3 f_equal; rewrite <- Ha; by destruct din|split; rewrite ?app_nil_r, ?Nat.add_0_r; try done; [by rewrite list_insert_id|cbn; lia]]).
  destruct (iappend_round s fs k f din p I Hk Hex Ha Hb) as (s1 & f1 & A1 & E1); [lia|done|done|]. fold n in A1, E1.
  set (m := Nat.min (length p) (1024 - n mod 1024)) in *. pose proof (Nat.mod_upper_bound n 1024) as Hr.
  assert (Lm : length (take m p) = m) by (rewrite length_take; unfold m; lia).
  destruct A1 as [Fl1 [Ty1 Dt1] Ex1 Fr1 In1 Me1]. rewrite Lm in Fr1. fold n in Fr1.
  assert (L1 : length (fr_data f1) = (n + m)%nat) by (rewrite Dt1, length_app, Lm; done).
  assert (Hk1 : <[k := f1]> fs !! k = Some f1) by (apply list_lookup_insert_eq; by eapply lookup_lt_Some).
  assert (Lp : (n + m + length (drop m p) = n + length p)%nat) by (rewrite length_drop; unfold m; lia).
  destruct (IH s1 (<[k := f1]> fs) k f1 (set_i_addrs (fr_addrs f1) din) (drop m p) Fl1 Hk1 Ex1 eq_refl) as (s2 & f2 & E2 & A2).
  - by apply Forall_drop.
  - rewrite length_drop. unfold m. lia.
  - rewrite L1. lia.
  - rewrite L1, Lp, Fr1. lia.
  - rewrite L1, Lp in *. exists s2, f2. split; [rewrite E1, E2; by destruct din|].
    destruct A2 as [Fl2 [Ty2 Dt2] Ex2 Fr2 In2 Me2]. rewrite L1, Lp in Fr2. rewrite list_insert_insert_eq in Fl2. split; try done.
    + split; [congruence|]. by rewrite Dt2, Dt1, <- app_assoc, take_drop.
    + fold n. rewrite Fr2, Fr1. lia.
    + congruence.
    + intros b Hlt. rewrite Me2 by done. by apply Me1.
Qed.
