(* ===== verification/MkfsImage.v ===== *)
(** * mkfs: the finished image

    The invariant of mkfs as a whole, [fs_inv]: what has been put into the
    file system so far, as a list of types and contents, is what the inodes
    and blocks of the image hold.  On a kernel with the finished image as its
    disk, the file system has the layout the kernel assumes and every file
    is there. *)

From S2P Require Import Prelude KString Bytes KState Riscv Spinlock Kalloc Vm Sched Uart Console Sleeplock.
From S2P Require Import Bio Log LogSafe Fs FsPath FsBlock FsInode FsFile FsDir Mkfs MkfsFiles.

(** ** Inodes in the image *)

Definition inode_at (img : gmap Z (list Z)) (inum : Z) : inode :=
  dinode_get (default [] (img !! IBLOCK inum mkfs_sb)) (dinode_off inum) inode_zero.

Lemma mkfs_iblock inum : 0 <= inum < 208 -> IBLOCK inum mkfs_sb = inum / 16 + 32 /\ 32 <= IBLOCK inum mkfs_sb < 45 /\
  (dinode_off inum + 64 <= 1024)%nat.
Proof.
  intros H. unfold IBLOCK, dinode_off. change (sb_inodestart mkfs_sb) with 32. change IPB with 16. change dinode_size with 64.
  rewrite u32_small by mlia. split; [done|]. mlia.
Qed.

(** The places of two inodes. *)
Lemma mkfs_inodes_apart i j : 0 <= i < 208 -> 0 <= j < 208 -> i <> j ->
  IBLOCK i mkfs_sb <> IBLOCK j mkfs_sb \/ (dinode_off i + 64 <= dinode_off j \/ dinode_off j + 64 <= dinode_off i)%nat.
Proof.
  intros Hi Hj Hne. rewrite (proj1 (mkfs_iblock i Hi)), (proj1 (mkfs_iblock j Hj)). unfold dinode_off. change IPB with 16. change dinode_size with 64. mlia.
Qed.

Lemma img_files_meta s fs b d : img_files s fs -> b < nmeta -> length d = 1024%nat -> byte_list d ->
  img_files (set_f_img (<[b := d]> (f_img s)) s) fs.
Proof.
  intros I Hb Hl Hy. pose proof I as [A B C D E]. split; cbn [f_freeblock f_img set_f_img]; try done.
  - intros b' Hb'. destruct (decide (b' = b)) as [->|Hne]; [|unfold sector; rewrite lookup_insert_ne by done; by apply C].
    exists d. split; [apply lookup_insert_eq|done].
  - intros b' Hb'. rewrite lookup_insert_ne by lia. by apply D.
  - apply Forall_lookup. intros k f Hk. eapply file_img_ext; [|by eapply (Forall_lookup_1 _ _ _ _ E)]. intros b' Hb'.
    apply lookup_insert_ne. pose proof (im_block_range s fs k f b' I Hk Hb'). lia.
Qed.

Lemma winode_spec s fs inum ip : img_files s fs -> 0 <= inum < 208 -> inode_fits ip ->
  exists d, let s' := set_f_img (<[IBLOCK inum mkfs_sb := d]> (f_img s)) s in
    winode inum ip s = Ok tt s' /\ img_files s' fs /\ inode_at (f_img s') inum = with_fields ip inode_zero /\
    forall j, 0 <= j < 208 -> j <> inum -> inode_at (f_img s') j = inode_at (f_img s) j.
Proof.
  intros I Hi Hf. destruct (mkfs_iblock inum Hi) as (_ & Hb & Ho). destruct (im_sectors _ _ I (IBLOCK inum mkfs_sb)) as (d & Ed & Ld & Yd); [unfold FSSIZE; lia|].
  exists (dinode_put d (dinode_off inum) ip). cbv zeta. split; [unfold winode, rsect, bind; by rewrite Ed|].
  split; [apply img_files_meta; [done|rewrite nmeta_eq; lia|by rewrite length_dinode_put|by apply byte_list_dinode_put]|]. unfold inode_at. cbn [f_img set_f_img]. split.
  - rewrite lookup_insert_eq. cbn [default from_option id]. apply dinode_get_put; [by rewrite Ld|done].
  - intros j Hj Hne. destruct (decide (IBLOCK j mkfs_sb = IBLOCK inum mkfs_sb)) as [E|E]; [|by rewrite lookup_insert_ne].
    rewrite E, lookup_insert_eq, Ed. cbn [default from_option id]. apply dinode_get_put_other; [|apply Hf].
    destruct (mkfs_inodes_apart inum j Hi Hj ltac:(done)) as [H|H]; [congruence|lia].
Qed.

(** ** The invariant of mkfs *)

Definition content (f : frec) : Z * list Z := (fr_type f, fr_data f).

Definition total (cs : list (Z * list Z)) : nat := sum_list_with (fun c => cost (length (snd c))) cs.

Record fs_inv (s : fsimg) (cs : list (Z * list Z)) (fs : list frec) : Prop := {
  fv_contents : content <$> fs = cs;
  fv_files : img_files s fs;
  fv_exact : Forall (fun f => exact f (length (fr_data f))) fs;
  fv_types : Forall (fun f => 0 <= fr_type f <= 3) fs;
  fv_inodes : forall k f, fs !! k = Some f -> inode_at (f_img s) (Z.of_nat k + 1) = fr_inode f;
  fv_free : forall inum, 0 <= inum < 208 -> inum = 0 \/ Z.of_nat (length fs) < inum -> i_type (inode_at (f_img s) inum) = 0;
  fv_next : f_freeinode s = Z.of_nat (length fs) + 1;
  fv_count : (length fs < 200)%nat;
  fv_total : f_freeblock s = nmeta + Z.of_nat (total cs);
  fv_sb : f_img s !! 1 = Some sb_block;
  fv_log : forall b, 2 <= b < 32 -> f_img s !! b = Some (replicate 1024 0)
}.

Lemma fr_inode_fits f n : 0 <= fr_type f <= 3 -> (n <= 268 * 1024)%nat -> Forall (fun a => 0 <= a < 2 ^ 32) (fr_addrs f) ->
  inode_fits (set_i_size (Z.of_nat n) (fr_inode f)).
Proof. intros Ht Hn Ha. split; cbn; try lia; [apply length_fr_addrs|done]. Qed.

Lemma fr_addrs_range s fs k f : img_files s fs -> fs !! k = Some f -> Forall (fun a => 0 <= a < 2 ^ 32) (fr_addrs f).
Proof.
  intros I Hk. apply Forall_lookup. intros j a Hj. rewrite fr_addrs_lookup in Hj. pose proof (im_range _ _ I) as Hr.
  assert (Hb : forall b, b ∈ fr_blocks f -> 0 <= b < 2 ^ 32).
  { intros b Hb. pose proof (im_block_range s fs k f b I Hk Hb). rewrite nmeta_eq in *. unfold FSSIZE in *. lia. }
  case_decide.
  - injection Hj as <-. destruct (fr_db f !! j) eqn:E; cbn; [|lia]. apply Hb, elem_of_app. left. by eapply list_elem_of_lookup_2.
  - case_decide; [|done]. injection Hj as <-. destruct (decide (fr_ind f = 0)) as [->|Hi]; [lia|]. apply Hb, elem_of_app. right.
    rewrite (proj2 (Z.eqb_neq _ _) Hi). by left.
Qed.

Lemma fi_bound img f : file_img img f -> exact f (length (fr_data f)) -> (length (fr_data f) <= 268 * 1024)%nat.
Proof.
  intros F [E _]. pose proof (fi_len _ _ F) as H. unfold need in H.
  pose proof (Nat.div_mod_eq (length (fr_data f) + 1023) 1024). pose proof (Nat.mod_upper_bound (length (fr_data f) + 1023) 1024). lia.
Qed.

Lemma inode_at_ext img img' j : 0 <= j < 208 -> (forall b, b < nmeta -> img' !! b = img !! b) -> inode_at img' j = inode_at img j.
Proof. intros Hj H. unfold inode_at. rewrite H; [done|]. rewrite nmeta_eq. pose proof (mkfs_iblock j Hj). lia. Qed.

Lemma with_fields_fr f : with_fields (fr_inode f) inode_zero = fr_inode f.
Proof. reflexivity. Qed.

Lemma rinode_spec s fs inum : img_files s fs -> 0 <= inum < 208 -> rinode inum s = Ok (inode_at (f_img s) inum) s.
Proof.
  intros I Hi. destruct (mkfs_iblock inum Hi) as (_ & Hb & _). destruct (im_sectors _ _ I (IBLOCK inum mkfs_sb)) as (d & Ed & _); [unfold FSSIZE; lia|].
  unfold rinode, rsect, bind, inode_at. by rewrite Ed.
Qed.

Lemma total_app cs cs' : total (cs ++ cs') = (total cs + total cs')%nat.
Proof. apply sum_list_with_app. Qed.

Lemma total_insert cs k ty c c' : cs !! k = Some (ty, c) ->
  (total (<[k := (ty, c')]> cs) + cost (length c) = total cs + cost (length c'))%nat.
Proof.
  intros H. rewrite insert_take_drop by (by eapply lookup_lt_Some). rewrite <- (take_drop_middle cs k _ H) at 3.
  rewrite !total_app. cbn. lia.
Qed.

Lemma iappend_spec s cs fs k ty c p : fs_inv s cs fs -> cs !! k = Some (ty, c) -> byte_list p -> (length c + length p <= 268 * 1024)%nat ->
  Z.of_nat (total (<[k := (ty, c ++ p)]> cs)) <= nblocks ->
  exists s' fs', iappend (Z.of_nat k + 1) p s = Ok tt s' /\ fs_inv s' (<[k := (ty, c ++ p)]> cs) fs'.
Proof.
  intros V Hc Hp Hmax Hroom. pose proof (total_insert cs k ty c (c ++ p) Hc) as Ht. rewrite length_app in Ht.
  pose proof Hc as Hk. rewrite <- (fv_contents _ _ _ V), list_lookup_fmap_Some in Hk. destruct Hk as (f & Ef & Hk).
  unfold content in Ef. injection Ef as Ety Edt. pose proof (lookup_lt_Some _ _ _ Hk) as Hlt. pose proof (fv_count _ _ _ V) as Hcnt.
  pose proof (fv_total _ _ _ V) as Htot.
  destruct (iappend_loop_spec (length p) s fs k f (fr_inode f) p (fv_files _ _ _ V) Hk) as (s1 & f1 & R1 & A1).
  { by eapply (Forall_lookup_1 _ _ _ _ (fv_exact _ _ _ V)). } { done. } { done. } { done. } { by rewrite <- Edt. }
  { rewrite <- Edt, Htot. unfold nblocks in Hroom. lia. }
  rewrite <- Edt in R1. destruct A1 as [Fl [Ty Dt] Ex Fr In Me].
  assert (Hk1 : <[k := f1]> fs !! k = Some f1) by by apply list_lookup_insert_eq.
  pose proof (Forall_lookup_1 _ _ _ _ (fv_types _ _ _ V) Hk) as Hty. cbn beta in Hty.
  set (din := set_i_size (Z.of_nat (length c + length p)) (set_i_addrs (fr_addrs f1) (fr_inode f))) in *.
  assert (Ed1 : din = fr_inode f1) by (unfold din, fr_inode; cbn; by rewrite Ty, Dt, length_app, Edt).
  assert (Hfit : inode_fits din).
  { unfold din. pose proof (fr_addrs_range _ _ _ _ Fl Hk1) as Hr. split; cbn; try lia; [apply length_fr_addrs|done]. }
  destruct (winode_spec s1 _ (Z.of_nat k + 1) din Fl) as (d & R2 & Fl2 & I2 & Oth); [lia|done|]. cbv zeta in *.
  set (s2 := set_f_img _ s1) in *. exists s2, (<[k := f1]> fs). split.
  - unfold iappend. rewrite (bind_ok _ _ _ _ _ (rinode_spec s fs (Z.of_nat k + 1) (fv_files _ _ _ V) ltac:(lia))).
    rewrite (fv_inodes _ _ _ V k f Hk). change (i_size (fr_inode f)) with (Z.of_nat (length (fr_data f))). rewrite <- Edt, (bind_ok _ _ _ _ _ R1). exact R2.
  - assert (Hdt : content f1 = (ty, c ++ p)) by (unfold content; by rewrite Ty, Dt, Ety, Edt).
    assert (Hms : forall b, b < 32 -> f_img s2 !! b = f_img s !! b).
    { intros b Hb. pose proof (mkfs_iblock (Z.of_nat k + 1) ltac:(lia)). unfold s2. cbn [f_img set_f_img]. rewrite lookup_insert_ne by lia. apply Me. rewrite nmeta_eq. lia. }
    assert (Hi : forall j, 0 <= j < 208 -> j <> Z.of_nat k + 1 -> inode_at (f_img s2) j = inode_at (f_img s) j).
    { intros j Hj Hne. rewrite (Oth j Hj Hne). by apply inode_at_ext. }
    split.
    + by rewrite list_fmap_insert, Hdt, (fv_contents _ _ _ V).
    + done.
    + apply Forall_insert; [apply V|done].
    + apply Forall_insert; [apply V|by rewrite Ty].
    + intros j f' Hj. destruct (decide (j = k)) as [->|Hne].
      * rewrite Hk1 in Hj. injection Hj as <-. by rewrite I2, Ed1.
      * rewrite list_lookup_insert_ne in Hj by done. pose proof (lookup_lt_Some _ _ _ Hj). rewrite Hi by lia. by apply V.
    + rewrite length_insert. intros j Hj Hor. rewrite Hi by lia. by apply V.
    + rewrite length_insert. unfold s2. cbn. rewrite In. apply V.
    + by rewrite length_insert.
    + unfold s2. cbn. rewrite Fr, Htot, <- Edt. lia.
    + rewrite Hms by lia. apply V.
    + intros b Hb. rewrite Hms by lia. by apply (fv_log _ _ _ V).
Qed.

Lemma blocks_nil fs ty : all_blocks (fs ++ [mkFrec ty [] [] 0]) = all_blocks fs.
Proof. unfold all_blocks. rewrite fmap_app, concat_app. cbn. by rewrite !app_nil_r. Qed.

Lemma img_files_new s fs ty : img_files s fs -> img_files s (fs ++ [mkFrec ty [] [] 0]).
Proof.
  intros [A B C D E]. split; try done; [by rewrite blocks_nil|].
  apply Forall_app. split; [done|]. apply Forall_singleton. split; cbn; try done; [unfold need; cbn; lia|]. lia.
Qed.

Lemma mk_ialloc_spec s cs fs ty : fs_inv s cs fs -> 1 <= ty <= 3 -> (length cs < 199)%nat ->
  exists s' fs', mk_ialloc ty s = Ok (Z.of_nat (length cs) + 1) s' /\ fs_inv s' (cs ++ [(ty, [])]) fs'.
Proof.
  intros V Hty Hn. set (f := mkFrec ty [] [] 0). assert (Hl : length fs = length cs) by by rewrite <- (fv_contents _ _ _ V), length_fmap.
  set (n := Z.of_nat (length cs) + 1). pose proof (fv_next _ _ _ V) as Hnx. rewrite Hl in Hnx. fold n in Hnx.
  set (s1 := set_f_freeinode (u32 (n + 1)) s). assert (V1 : img_files s1 fs) by (destruct (fv_files _ _ _ V) as [A B C D E]; by split).
  destruct (winode_spec s1 _ n (fr_inode f) (img_files_new s1 fs ty V1)) as (d & R & Fl & I & Oth); [lia| |].
  { split; cbn; try lia. by repeat constructor. }
  cbv zeta in *. set (s2 := set_f_img _ s1) in *. exists s2, (fs ++ [f]). split.
  - unfold mk_ialloc, next_inode. rewrite bind_assoc, bind_gets, Hnx, bind_assoc, bind_modify, bind_ret. fold s1. change (mkInode _ _ _ _ _ _ _ _ _ _ _) with (fr_inode f).
    by rewrite (bind_ok _ _ _ _ _ R).
  - assert (Hms : forall b, b < 32 -> f_img s2 !! b = f_img s !! b).
    { intros b Hb. pose proof (mkfs_iblock n ltac:(lia)). unfold s2. cbn [f_img set_f_img]. by rewrite lookup_insert_ne by lia. }
    split.
    + by rewrite fmap_app, (fv_contents _ _ _ V).
    + done.
    + apply Forall_app. split; [apply V|]. by apply Forall_singleton.
    + apply Forall_app. split; [apply V|]. apply Forall_singleton. cbn. lia.
    + intros k f' Hk. apply lookup_snoc_Some in Hk. destruct Hk as [[Hlt Hk]|[-> <-]].
      * rewrite Oth by lia. by apply (fv_inodes _ _ _ V).
      * rewrite Hl. exact I.
    + rewrite length_app. cbn [length]. intros j Hj Hor. rewrite Oth by lia. apply (fv_free _ _ _ V); [done|lia].
    + rewrite length_app. cbn [length]. unfold s2, s1. cbn. rewrite u32_small by lia. lia.
    + rewrite length_app. cbn [length]. lia.
    + rewrite total_app. change (f_freeblock s2) with (f_freeblock s). rewrite (fv_total _ _ _ V).
      change (total [(ty, [])]) with O. lia.
    + rewrite Hms by lia. apply (fv_sb _ _ _ V).
    + intros b Hb. rewrite Hms by lia. by apply (fv_log _ _ _ V).
Qed.

Lemma append_all_spec inum chunks : forall s cs fs k ty c, fs_inv s cs fs -> cs !! k = Some (ty, c) -> Forall byte_list chunks ->
  inum = Z.of_nat k + 1 -> (length c + length (concat chunks) <= 268 * 1024)%nat ->
  Z.of_nat (total (<[k := (ty, c ++ concat chunks)]> cs)) <= nblocks ->
  exists s' fs', append_all inum chunks s = Ok tt s' /\ fs_inv s' (<[k := (ty, c ++ concat chunks)]> cs) fs'.
Proof.
  induction chunks as [|p chunks IH]; intros s cs fs k ty c V Hk Hb E Hmax Hroom; cbn [concat append_all] in *.
  { exists s, fs. rewrite app_nil_r, list_insert_id by done. done. }
  rewrite length_app in Hmax. apply Forall_cons in Hb as [Hp Hb]. pose proof (lookup_lt_Some _ _ _ Hk) as Hlt.
  pose proof (total_insert cs k ty c (c ++ p) Hk) as T1. pose proof (total_insert cs k ty c (c ++ p ++ concat chunks) Hk) as T2.
  rewrite length_app in T1. rewrite !length_app in T2. pose proof (cost_le (length c + length p) (length c + (length p + length (concat chunks))) ltac:(lia)) as Hc.
  destruct (iappend_spec s cs fs k ty c p V Hk Hp) as (s1 & fs1 & R1 & V1); [lia|lia|].
  destruct (IH s1 _ fs1 k ty (c ++ p) V1) as (s2 & fs2 & R2 & V2).
  { by apply list_lookup_insert_eq. } { done. } { done. } { rewrite length_app. lia. } { by rewrite list_insert_insert_eq, <- app_assoc. }
  rewrite list_insert_insert_eq, <- app_assoc in V2. exists s2, fs2. rewrite E in *. by rewrite (bind_ok _ _ _ _ _ R1).
Qed.

(** ** The contents mkfs is given *)

Definition file_data (f : mkfile) : list Z := concat (mf_chunks f).

Definition file_entry (i : nat) (f : mkfile) : list Z := dirent (Z.of_nat i + 2) (entry_name (mf_path f)).

Definition root_data (files : list mkfile) : list Z :=
  dirent 1 [46] ++ dirent 1 [46; 46] ++ concat (imap file_entry files).

Definition contents (files : list mkfile) : list (Z * list Z) :=
  (T_DIR, root_data files) :: ((fun f => (T_FILE, file_data f)) <$> files).

(** The files that fit: as many as there are inodes, each of them as large as
    a file can be, and all of them together no more than the blocks. *)
Record mkfs_fits (files : list mkfile) : Prop := {
  mt_count : (length files <= 198)%nat;
  mt_names : Forall (fun f => 47 ∉ shortname (mf_path f) /\ byte_list (mf_path f)) files;
  mt_bytes : Forall (fun f => Forall byte_list (mf_chunks f)) files;
  mt_sizes : Forall (fun f => (length (file_data f) <= 268 * 1024)%nat) files;
  mt_room : Z.of_nat (total (contents files)) <= nblocks
}.

Lemma dirent_ok inum name : byte_list name -> 0 <= inum < 2 ^ 16 -> length (dirent inum name) = 16%nat /\ byte_list (dirent inum name).
Proof. intros Hn Hi. destruct (entry_bytes_ok name inum Hn Hi) as (A & B & _). done. Qed.

Lemma entry_name_bytes path : byte_list path -> byte_list (entry_name path).
Proof.
  intros H. assert (Hs : byte_list (shortname path)) by (unfold shortname; case_match; [by apply Forall_drop|done]).
  unfold entry_name. case_match; [by apply Forall_tail|done].
Qed.

Lemma root_data_snoc files f : root_data (files ++ [f]) = root_data files ++ file_entry (length files) f.
Proof.
  unfold root_data. rewrite imap_app, concat_app, <- !app_assoc. do 3 f_equal.
  rewrite imap_cons. cbn [imap concat]. unfold compose. by rewrite Nat.add_0_r, app_nil_r.
Qed.

Lemma root_data_length files : Forall (fun f => byte_list (mf_path f)) files -> (length files <= 198)%nat ->
  length (root_data files) = (32 + 16 * length files)%nat.
Proof.
  induction files as [|f files IH] using rev_ind; intros Hb Hn; [done|]. rewrite root_data_snoc, !length_app. rewrite length_app in Hn. cbn [length] in *.
  apply Forall_app in Hb as [Hb Hf]. apply Forall_cons in Hf as [Hf _]. rewrite IH by (done || lia).
  unfold file_entry. rewrite (proj1 (dirent_ok (Z.of_nat (length files) + 2) _ (entry_name_bytes _ Hf) ltac:(lia))). lia.
Qed.

Lemma contents_length files : length (contents files) = S (length files).
Proof. unfold contents. cbn [length]. by rewrite length_fmap. Qed.

Lemma contents_snoc files f : contents (files ++ [f]) =
  <[S (length files) := (T_FILE, file_data f)]> (<[O := (T_DIR, root_data files ++ file_entry (length files) f)]> (contents files ++ [(T_FILE, [])])).
Proof.
  assert (E : forall (x y z : Z * list Z) l n, <[S n := y]> (<[O := x]> (z :: l)) = x :: <[n := y]> l) by done.
  unfold contents. rewrite root_data_snoc, fmap_app. cbn [app]. rewrite E. f_equal. rewrite insert_app_r_alt by (rewrite length_fmap; lia). by rewrite length_fmap, Nat.sub_diag.
Qed.

(** Blocks are never given back. *)
Lemma total_le cs k ty c c' : cs !! k = Some (ty, c) -> (length c <= length c')%nat -> (total cs <= total (<[k := (ty, c')]> cs))%nat.
Proof. intros Hk Hl. pose proof (total_insert cs k ty c c' Hk). pose proof (cost_le _ _ Hl). lia. Qed.

Lemma contents_prefix pre f : Z.of_nat (total (contents pre)) <= Z.of_nat (total (contents (pre ++ [f]))).
Proof.
  assert (E : total (contents pre) = total (contents pre ++ [(T_FILE, [])])) by (rewrite total_app; change (total [(T_FILE, [])]) with O; lia).
  rewrite E, contents_snoc. set (cs := contents pre ++ _). set (r := root_data pre ++ _).
  pose proof (total_le cs O T_DIR (root_data pre) r eq_refl ltac:(unfold r; rewrite length_app; lia)).
  pose proof (total_le (<[O := (T_DIR, r)]> cs) (S (length pre)) T_FILE [] (file_data f)) as H2.
  assert (H3 : <[O := (T_DIR, r)]> cs !! S (length pre) = Some (T_FILE, [])).
  { rewrite list_lookup_insert_ne by done. unfold cs. rewrite lookup_app_r by (rewrite contents_length; lia). by rewrite contents_length, Nat.sub_diag. }
  specialize (H2 H3 ltac:(cbn [length]; lia)). lia.
Qed.

Lemma add_file_spec s fs pre f : fs_inv s (contents pre) fs -> mkfs_fits (pre ++ [f]) ->
  exists s' fs', add_file 1 f s = Ok tt s' /\ fs_inv s' (contents (pre ++ [f])) fs'.
Proof.
  intros V [Cn Nm By Sz Rm]. rewrite length_app in Cn. cbn [length] in Cn. rewrite Forall_app, Forall_singleton in Nm, By, Sz.
  destruct Nm as [Nm0 [Hn Hpb]]. destruct By as [_ Hby]. destruct Sz as [_ Hsz]. rewrite contents_snoc in Rm |- *.
  destruct (mk_ialloc_spec s _ fs T_FILE V) as (s1 & fs1 & R1 & V1); [unfold T_FILE; lia|rewrite contents_length; lia|].
  rewrite contents_length in R1. set (cs1 := contents pre ++ _) in *. set (r := root_data pre ++ _) in *.
  assert (Hk : <[O := (T_DIR, r)]> cs1 !! S (length pre) = Some (T_FILE, [])).
  { rewrite list_lookup_insert_ne by done. unfold cs1. rewrite lookup_app_r by (rewrite contents_length; lia). by rewrite contents_length, Nat.sub_diag. }
  destruct (dirent_ok (Z.of_nat (length pre) + 2) _ (entry_name_bytes _ Hpb) ltac:(lia)) as [Ld Bd].
  pose proof (total_le _ _ _ _ (file_data f) Hk ltac:(cbn [length]; lia)) as Hle.
  assert (Hrl : length (root_data pre) = (32 + 16 * length pre)%nat).
  { apply root_data_length; [|lia]. eapply Forall_impl; [exact Nm0|]. intros x Hx. apply Hx. }
  destruct (iappend_spec s1 cs1 fs1 O T_DIR (root_data pre) (file_entry (length pre) f) V1 eq_refl Bd) as (s2 & fs2 & R2 & V2).
  { unfold file_entry. rewrite Ld. lia. } { fold r. lia. }
  fold r in V2. destruct (append_all_spec (Z.of_nat (S (length pre)) + 1) (mf_chunks f) s2 _ fs2 _ _ _ V2 Hk Hby eq_refl) as (s3 & fs3 & R3 & V3).
  { exact Hsz. } { exact Rm. }
  exists s3, fs3. split; [|exact V3]. unfold add_file. rewrite bool_decide_eq_false_2 by done.
  rewrite (bind_ok _ _ _ _ _ R1). unfold file_entry in R2. replace (Z.of_nat (S (length pre)) + 1) with (Z.of_nat (length pre) + 2) in * by lia.
  by rewrite (bind_ok _ _ _ _ _ R2).
Qed.

Lemma add_files_spec files : forall s fs pre, fs_inv s (contents pre) fs -> mkfs_fits (pre ++ files) ->
  exists s' fs', add_files 1 files s = Ok tt s' /\ fs_inv s' (contents (pre ++ files)) fs'.
Proof.
  induction files as [|f files IH]; intros s fs pre V T; cbn [add_files]; [rewrite app_nil_r in *; by exists s, fs|].
  rewrite cons_middle, app_assoc in T |- *. destruct (add_file_spec s fs pre f V) as (s1 & fs1 & R1 & V1).
  { clear -T. revert T. generalize (pre ++ [f]) as l. intros l. induction files as [|g files IH] using rev_ind; intros T; [by rewrite app_nil_r in T|].
    apply IH. rewrite app_assoc in T. destruct T as [A B C D E]. rewrite length_app in A. rewrite Forall_app in B, C, D.
    split; [lia|apply B|apply C|apply D|]. pose proof (contents_prefix (l ++ files) g). lia. }
  destruct (IH s1 fs1 _ V1 T) as (s2 & fs2 & R2 & V2). exists s2, fs2. by rewrite (bind_ok _ _ _ _ _ R1).
Qed.

(** ** The rest of [main] *)

Lemma zero_sectors_spec ix : forall s, exists img, zero_sectors ix s = Ok tt (set_f_img img s) /\
  forall b, img !! b = if bool_decide (b ∈ ix) then Some (replicate 1024 0) else f_img s !! b.
Proof.
  induction ix as [|i ix IH]; intros s; cbn [zero_sectors]; [exists (f_img s); split; [by destruct s|done]|].
  unfold wsect. rewrite bind_modify. destruct (IH (set_f_img (<[i := replicate (Z.to_nat BSIZE) 0]> (f_img s)) s)) as (img & E & H).
  exists img. split; [exact E|]. intros b. rewrite H. cbn [f_img set_f_img]. destruct (decide (b = i)) as [->|Hne].
  - rewrite lookup_insert_eq, (bool_decide_eq_true_2 (i ∈ i :: ix)) by left. by case_bool_decide.
  - rewrite lookup_insert_ne by done. rewrite (bool_decide_ext (b ∈ i :: ix) (b ∈ ix)); [done|]. clear -Hne. rewrite elem_of_cons. tauto.
Qed.

Lemma sb_block_ok : length sb_block = 1024%nat /\ byte_list sb_block /\ superblock_get sb_block = mkfs_sb.
Proof. split; [by vm_compute|]. split; [|by vm_compute]. apply (bool_decide_unpack (Forall _ _)). by vm_compute. Qed.

(** Before the first inode. *)
Lemma mkfs_begin : exists s, fs_inv s [] [] /\
  forall k : F unit, (modify (set_f_freeblock nmeta) ;;; zero_sectors (seqZ 0 FSSIZE) ;;; wsect 1 sb_block ;;; k) mkfs_start = k s.
Proof.
  destruct (zero_sectors_spec (seqZ 0 FSSIZE) (set_f_freeblock nmeta mkfs_start)) as (img & E & H).
  set (s := mkFsimg (<[1 := sb_block]> img) 1 nmeta). exists s.
  split; [|intros k; unfold wsect; by rewrite bind_modify, (bind_ok _ _ _ _ _ E), bind_modify].
  assert (Hz : forall b, 0 <= b < FSSIZE -> b <> 1 -> f_img s !! b = Some (replicate 1024 0)).
  { intros b Hb Hne. cbn [s f_img]. rewrite lookup_insert_ne, H by done. by rewrite bool_decide_eq_true_2 by (apply elem_of_seqZ; lia). }
  assert (H1 : f_img s !! 1 = Some sb_block) by apply lookup_insert_eq.
  destruct sb_block_ok as (L & Y & _). assert (En : nmeta = 46) by apply nmeta_eq.
  split.
  - reflexivity.
  - split; change (f_freeblock s) with nmeta; rewrite ?En; unfold FSSIZE in *; [lia|reflexivity| |intros b Hb; apply Hz; lia|constructor].
    intros b Hb. destruct (decide (b = 1)) as [->|Hne]; [exists sb_block; split; [exact H1|]; split; [exact L|exact Y]|].
    exists (replicate 1024 0). split; [by apply Hz|]. split; [apply length_replicate|apply byte_list_replicate].
  - constructor.
  - constructor.
  - intros k f Hk. by rewrite lookup_nil in Hk.
  - intros inum Hi _. unfold inode_at. destruct (mkfs_iblock inum Hi) as (_ & Hb & _). rewrite Hz by (unfold FSSIZE; lia).
    cbn [default from_option id]. unfold dinode_get. cbn [i_type]. unfold get16. by rewrite get_le_zeroes.
  - reflexivity.
  - cbn [length]. lia.
  - change (f_freeblock s) with nmeta. change (total []) with O. lia.
  - exact H1.
  - intros b Hb. apply Hz; unfold FSSIZE; lia.
Qed.

Lemma bit_zeroes b : bit (replicate 1024 0) b = false.
Proof. unfold bit. rewrite nth_zeroes. apply Z.bits_0. Qed.

Lemma set_bits n : Z.of_nat n <= BPB -> let d := foldl set_bit (replicate 1024 0) (seqZ 0 (Z.of_nat n)) in
  length d = 1024%nat /\ byte_list d /\ forall b, 0 <= b < BPB -> bit d b = (b <? Z.of_nat n).
Proof.
  induction n as [|n IH]; intros Hn; cbv zeta.
  { split; [done|]. split; [apply byte_list_replicate|]. intros b Hb. rewrite bit_zeroes. symmetry. apply Z.ltb_ge. lia. }
  destruct IH as (L & Y & B); [lia|]. replace (Z.of_nat (S n)) with (Z.of_nat n + 1) by lia.
  rewrite seqZ_app, foldl_app by lia. rewrite Z.add_0_l. change (seqZ (Z.of_nat n) 1) with [Z.of_nat n]. cbn [foldl].
  set (d := foldl set_bit _ _) in *. change (set_bit d (Z.of_nat n)) with (<[Z.to_nat (Z.of_nat n / 8) := Z.lor (nth (Z.to_nat (Z.of_nat n / 8)) d 0) (bit_mask (Z.of_nat n))]> d).
  split; [by rewrite length_insert|]. split.
  - apply Forall_insert; [done|]. apply byte_lor. apply byte_list_nth. done.
  - intros b Hb. rewrite bit_set, B by (done || lia). destruct (Z.eqb_spec b (Z.of_nat n)), (Z.ltb_spec b (Z.of_nat n)), (Z.ltb_spec b (Z.of_nat n + 1)); lia || done.
Qed.

(** The finished image: the superblock, an empty log, the inodes, a bitmap
    that marks exactly the blocks in use, and the files in blocks of their
    own.  The size of the root directory is rounded up. *)
Record mkfs_image (s : fsimg) (files : list mkfile) (fs : list frec) : Prop := {
  mi_contents : content <$> fs = contents files;
  mi_files : img_files s fs;
  mi_exact : Forall (fun f => exact f (length (fr_data f))) fs;
  mi_root : forall f, fs !! O = Some f -> inode_at (f_img s) 1 =
    set_i_size ((Z.of_nat (length (fr_data f)) / 1024 + 1) * 1024) (fr_inode f);
  mi_inodes : forall k f, fs !! S k = Some f -> inode_at (f_img s) (Z.of_nat k + 2) = fr_inode f;
  mi_free : forall inum, 0 <= inum < NINODES -> inum = 0 \/ Z.of_nat (length files) + 1 < inum -> i_type (inode_at (f_img s) inum) = 0;
  mi_sb : superblock_get (default [] (f_img s !! 1)) = mkfs_sb;
  mi_log : forall b, 2 <= b < 32 -> f_img s !! b = Some (replicate 1024 0);
  mi_bitmap : forall b, 0 <= b < BPB -> bit (default [] (f_img s !! 45)) b = (b <? f_freeblock s)
}.

Lemma contents_nil_room : total (contents []) = 1%nat.
Proof. by vm_compute. Qed.

Lemma mkfs_root s fs : fs_inv s [] fs -> exists s' fs', fs_inv s' (contents []) fs' /\
  forall k : Z -> F unit, (let! rootino := mk_ialloc T_DIR in
   if negb (rootino =? ROOTINO) then panic "assert"
   else iappend rootino (dirent rootino [46]) ;;; iappend rootino (dirent rootino [46; 46]) ;;; k rootino) s = k 1 s'.
Proof.
  intros V. destruct (mk_ialloc_spec s [] fs T_DIR V) as (s1 & fs1 & R1 & V1); [unfold T_DIR; lia|cbn [length]; lia|].
  cbn [app length] in V1, R1.
  assert (Hb : forall n, n = [46] \/ n = [46; 46] -> length (dirent 1 n) = 16%nat /\ byte_list (dirent 1 n)).
  { intros n Hn. apply dirent_ok; [|lia]. destruct Hn; subst n; repeat constructor; lia. }
  destruct (Hb [46]) as [L1 Y1]; [by left|]. destruct (Hb [46; 46]) as [L2 Y2]; [by right|].
  destruct (iappend_spec s1 _ fs1 O T_DIR [] (dirent 1 [46]) V1 eq_refl Y1) as (s2 & fs2 & R2 & V2).
  { rewrite L1. cbn [length]. lia. } { by vm_compute. }
  destruct (iappend_spec s2 _ fs2 O T_DIR (dirent 1 [46]) (dirent 1 [46; 46]) V2 eq_refl Y2) as (s3 & fs3 & R3 & V3).
  { rewrite L1, L2. lia. } { by vm_compute. }
  exists s3, fs3. split; [exact V3|]. intros k. rewrite (bind_ok _ _ _ _ _ R1). change (negb (Z.of_nat 0 + 1 =? ROOTINO)) with false. cbn iota.
  by rewrite (bind_ok _ _ _ _ _ R2), (bind_ok _ _ _ _ _ R3).
Qed.

Lemma fix_root_spec s files fs : fs_inv s (contents files) fs -> (length (root_data files) <= 4096)%nat ->
  exists s' f, fs !! O = Some f /\ fix_root 1 s = Ok tt s' /\ img_files s' fs /\ f_freeblock s' = f_freeblock s /\
    inode_at (f_img s') 1 = set_i_size ((Z.of_nat (length (fr_data f)) / 1024 + 1) * 1024) (fr_inode f) /\
    (forall j, 0 <= j < 208 -> j <> 1 -> inode_at (f_img s') j = inode_at (f_img s) j) /\
    (forall b, b < 32 -> f_img s' !! b = f_img s !! b).
Proof.
  intros V Hl. assert (Hc : contents files !! O = Some (T_DIR, root_data files)) by done.
  rewrite <- (fv_contents _ _ _ V), list_lookup_fmap_Some in Hc. destruct Hc as (f & Ef & Hf). unfold content in Ef. injection Ef as Ety Edt.
  pose proof (fv_inodes _ _ _ V O f Hf) as Hi. change (Z.of_nat 0 + 1) with 1 in Hi. rewrite Edt in Hl.
  set (off := (Z.of_nat (length (fr_data f)) / 1024 + 1) * 1024).
  assert (Hoff : 0 <= off <= 5120) by (unfold off; mlia).
  destruct (winode_spec s fs 1 (set_i_size off (fr_inode f)) (fv_files _ _ _ V)) as (d & R & Fl & I & Oth); [lia| |].
  { replace off with (Z.of_nat (Z.to_nat off)) by lia. apply fr_inode_fits; [rewrite <- Ety; unfold T_DIR; lia|lia|]. by eapply fr_addrs_range; [apply V|]. }
  cbv zeta in *. eexists _, f. split; [done|]. split; [|split; [exact Fl|]; split; [done|]; split; [exact I|]; split; [exact Oth|]].
  - unfold fix_root. rewrite (bind_ok _ _ _ _ _ (rinode_spec s fs 1 (fv_files _ _ _ V) ltac:(lia))), Hi.
    change (i_size (fr_inode f)) with (Z.of_nat (length (fr_data f))). change BSIZE with 1024. exact R.
  - intros b Hb. cbn [f_img set_f_img]. apply lookup_insert_ne. pose proof (mkfs_iblock 1 ltac:(lia)). lia.
Qed.

Lemma mkfs_run files : mkfs_fits files -> exists s fs, mkfs files mkfs_start = Ok tt s /\ mkfs_image s files fs.
Proof.
  intros T. destruct mkfs_begin as (s0 & V0 & R0). destruct (mkfs_root s0 [] V0) as (s1 & fs1 & V1 & R1).
  destruct (add_files_spec files s1 fs1 [] V1 T) as (s2 & fs2 & R2 & V2). cbn [app] in V2. pose proof (mt_count _ T) as Hn.
  assert (Hr : length (root_data files) = (32 + 16 * length files)%nat).
  { apply root_data_length; [|done]. eapply Forall_impl; [apply (mt_names _ T)|]. intros f Hf. apply Hf. }
  destruct (fix_root_spec s2 files fs2 V2) as (s3 & f & Hf & R3 & Fl & Fb & I1 & Io & Ms); [lia|].
  pose proof (im_range _ _ Fl) as Hfb. rewrite nmeta_eq in Hfb. unfold FSSIZE in Hfb.
  destruct (set_bits (Z.to_nat (f_freeblock s3))) as (L & Y & B); [unfold BPB, BSIZE; lia|]. rewrite Z2Nat.id in L, Y, B by lia.
  set (d := foldl set_bit _ _) in *. set (s4 := set_f_img (<[45 := d]> (f_img s3)) s3). exists s4, fs2.
  assert (Hl : length fs2 = S (length files)) by (rewrite <- (length_fmap content fs2), (fv_contents _ _ _ V2); apply contents_length).
  assert (Hat : forall j, 0 <= j < 208 -> inode_at (f_img s4) j = inode_at (f_img s3) j).
  { intros j Hj. unfold inode_at, s4. cbn [f_img set_f_img]. rewrite lookup_insert_ne; [done|]. pose proof (mkfs_iblock j Hj). lia. }
  split.
  - unfold mkfs. rewrite R0, R1, (bind_ok _ _ _ _ _ R2), (bind_ok _ _ _ _ _ R3), bind_gets. unfold mk_balloc.
    rewrite (proj2 (Z.ltb_lt _ _)) by (unfold BSIZE; lia). reflexivity.
  - assert (E45 : forall b, b <> 45 -> f_img s4 !! b = f_img s3 !! b) by (intros b Hb; unfold s4; cbn [f_img set_f_img]; by rewrite lookup_insert_ne).
    split.
    + apply (fv_contents _ _ _ V2).
    + apply img_files_meta; [done|rewrite nmeta_eq; lia|done|done].
    + apply (fv_exact _ _ _ V2).
    + intros g Hg. rewrite Hg in Hf. injection Hf as ->. by rewrite Hat by lia.
    + intros k g Hk. pose proof (lookup_lt_Some _ _ _ Hk). rewrite Hat, Io by lia.
      replace (Z.of_nat k + 2) with (Z.of_nat (S k) + 1) by lia. by apply (fv_inodes _ _ _ V2).
    + unfold NINODES. intros j Hj Hor. rewrite Hat by lia. rewrite Io by lia. apply (fv_free _ _ _ V2); lia.
    + rewrite E45, Ms, (fv_sb _ _ _ V2) by lia. apply sb_block_ok.
    + intros b Hb. rewrite E45, Ms by lia. by apply (fv_log _ _ _ V2).
    + intros b Hb. unfold s4 at 1. cbn [f_img set_f_img]. rewrite lookup_insert_eq. by apply B.
Qed.
