(* ===== verification/MkfsBoot.v ===== *)
(** * The kernel on an image of mkfs

    [on_image]: a kernel whose disk is an image of mkfs, after [fsinit].  The
    predicates on which the theorems about the file system rest hold there:
    [bitmap_ok], [file_ok] and [mapped] for every file, and [dir_ok] for the
    root.  So mkfs and the kernel agree on the format of the disk. *)

From S2P Require Import Prelude KString Bytes KState Riscv Spinlock Kalloc Vm Sched Uart Console Sleeplock.
From S2P Require Import Bio Log LogSafe Fs FsPath FsBlock FsInode FsFile FsDir Mkfs MkfsFiles MkfsImage.

Definition img_blk (s : fsimg) (b : Z) : list Z := default [] (f_img s !! b).

Record on_image (t : kstate) (s : fsimg) : Prop := {
  oi_tx : tx t [] [];
  oi_sb : k_sb t = mkfs_sb;
  oi_start : log_start (k_log t) = 2;
  oi_blk : forall b, 0 <= b < FSSIZE -> blk t b = img_blk s b
}.

Section OnImage.
Context (s : fsimg) (files : list mkfile) (fs : list frec) (W : mkfs_image s files fs).
Context (t : kstate) (O : on_image t s).

Lemma image_sector b : 0 <= b < FSSIZE -> length (blk t b) = Z.to_nat BSIZE /\ byte_list (blk t b).
Proof using All.
  intros Hb. rewrite (oi_blk _ _ O b Hb). destruct (im_sectors _ _ (mi_files _ _ _ W) b Hb) as (d & Ed & Hl & Hy).
  unfold img_blk. by rewrite Ed.
Qed.

Lemma image_bblock b : 0 <= b < FSSIZE -> BBLOCK b (k_sb t) = 45.
Proof using All.
  intros Hb. rewrite (oi_sb _ _ O). unfold BBLOCK. change (sb_bmapstart mkfs_sb) with 45. unfold FSSIZE, BPB, BSIZE in *. rewrite u32_small; mlia.
Qed.

Lemma image_used b : 0 <= b < FSSIZE -> used t b = (b <? f_freeblock s).
Proof using All.
  intros Hb. unfold used. rewrite image_bblock by done. rewrite (oi_blk _ _ O 45) by (unfold FSSIZE; lia).
  rewrite Z.mod_small by (unfold FSSIZE, BPB, BSIZE in *; lia). apply (mi_bitmap _ _ _ W). unfold FSSIZE, BPB, BSIZE in *; lia.
Qed.

Lemma image_bitmap : bitmap_ok t.
Proof using All.
  pose proof (im_range _ _ (mi_files _ _ _ W)) as Hr. rewrite nmeta_eq in Hr. split; rewrite ?(oi_sb _ _ O).
  - split; rewrite ?(oi_sb _ _ O), ?(oi_start _ _ O); by vm_compute.
  - intros b Hb. change (sb_size mkfs_sb) with FSSIZE in Hb. pose proof (image_bblock b Hb) as E. rewrite (oi_sb _ _ O) in E. rewrite E.
    apply image_sector. unfold FSSIZE. lia.
  - intros b Hb. change (data_start mkfs_sb) with 46 in Hb. rewrite image_used by (unfold FSSIZE; lia). apply Z.ltb_lt. lia.
Qed.

Section File.
Context (k : nat) (f : frec) (Hk : fs !! k = Some f) (j : nat).
Context (Hj : (j < length (k_inodes t))%nat) (D : idisk t (get_inode t j)) (Ha : i_addrs (get_inode t j) = fr_addrs f).

Let F : file_img (f_img s) f := Forall_lookup_1 _ _ _ _ (im_files _ _ (mi_files _ _ _ W)) Hk.

Lemma image_data_ok b : b ∈ fr_blocks f -> data_ok t b.
Proof using All.
  intros Hb. pose proof (im_block_range _ _ _ _ _ (mi_files _ _ _ W) Hk Hb) as H. pose proof (im_range _ _ (mi_files _ _ _ W)) as Hr.
  rewrite nmeta_eq in *. assert (Hf : 0 <= b < FSSIZE) by lia. split; [rewrite (oi_sb _ _ O); change (data_start mkfs_sb) with 46; change (sb_size mkfs_sb) with FSSIZE; lia|].
  split; [rewrite image_used by done; apply Z.ltb_lt; lia|by apply image_sector].
Qed.

Lemma image_indirect : indirect (get_inode t j) = fr_ind f.
Proof using All. unfold indirect. rewrite Ha, nth_lookup, fr_addrs_lookup. done. Qed.

Lemma image_faddr bn : 0 <= bn < MAXFILE -> faddr t (get_inode t j) bn = default 0 (fr_db f !! Z.to_nat bn).
Proof using All.
  intros Hbn. change MAXFILE with 268 in Hbn. unfold faddr. change NDIRECT with 12. destruct (Z.ltb_spec bn 12) as [Hlt|Hge].
  - rewrite Ha, nth_lookup, fr_addrs_lookup. rewrite decide_True by lia. done.
  - rewrite image_indirect. destruct (Z.eqb_spec (fr_ind f) 0) as [E|E].
    + rewrite lookup_ge_None_2; [done|]. destruct (decide (12 < length (fr_db f))%nat) as [H|H]; [by apply (fi_ind _ _ F) in H|lia].
    + destruct (fi_entries _ _ F E) as (d & Ed & He).
      assert (Hin : fr_ind f ∈ fr_blocks f) by (unfold fr_blocks; rewrite (proj2 (Z.eqb_neq _ _) E); apply elem_of_app; right; by left).
      pose proof (im_block_range _ _ _ _ _ (mi_files _ _ _ W) Hk Hin) as H. pose proof (im_range _ _ (mi_files _ _ _ W)) as Hr. rewrite nmeta_eq in *.
      rewrite (oi_blk _ _ O) by lia. unfold img_blk. rewrite Ed. cbn [default from_option id].
      replace (Z.to_nat (4 * (bn - 12))) with (4 * (Z.to_nat bn - 12))%nat by lia. rewrite He by lia. do 2 f_equal. lia.
Qed.

Lemma image_db b i : fr_db f !! i = Some b -> b ∈ fr_blocks f /\ nmeta <= b < FSSIZE.
Proof using All.
  intros Hb. assert (Hin : b ∈ fr_blocks f) by (apply elem_of_app; left; by eapply list_elem_of_lookup_2). split; [done|].
  pose proof (im_block_range _ _ _ _ _ (mi_files _ _ _ W) Hk Hin). pose proof (im_range _ _ (mi_files _ _ _ W)). lia.
Qed.

Lemma image_file_ok : file_ok t j.
Proof using All.
  assert (N : NoDup (fr_blocks f)).
  { pose proof (im_nodup _ _ (mi_files _ _ _ W)) as N. rewrite (all_blocks_split fs k f Hk) in N. by apply NoDup_app in N as [N _]. }
  unfold fr_blocks in N. apply NoDup_app in N as (Nd & Ni & _).
  assert (A : forall bn, 0 <= bn < MAXFILE -> faddr t (get_inode t j) bn <> 0 -> fr_db f !! Z.to_nat bn = Some (faddr t (get_inode t j) bn)).
  { intros bn Hbn. rewrite image_faddr by done. by destruct (fr_db f !! Z.to_nat bn). }
  split; [done|done|apply image_bitmap|rewrite (oi_sb _ _ O); by vm_compute| | |].
  - rewrite image_indirect. intros Hi. apply image_data_ok, elem_of_app. right. rewrite (proj2 (Z.eqb_neq _ _) Hi). by left.
  - intros bn Hbn Hne. apply A in Hne; [|done]. split; [apply image_data_ok; by eapply image_db|]. rewrite image_indirect.
    intros E. rewrite E in Hne. pose proof (image_db _ _ Hne) as [_ Hr]. rewrite nmeta_eq in Hr. apply (Ni (fr_ind f)); [by eapply list_elem_of_lookup_2|].
    rewrite (proj2 (Z.eqb_neq _ _)) by lia. by left.
  - intros bn bn' Hbn Hbn' Hne E. pose proof (A bn Hbn Hne) as H1. rewrite E in Hne. pose proof (A bn' Hbn' Hne) as H2. rewrite <- E in H2.
    pose proof (NoDup_lookup _ _ _ _ Nd H1 H2). lia.
Qed.

Lemma image_byte x : 0 <= x < Z.of_nat (length (fr_data f)) -> fbyte t (get_inode t j) x = nth (Z.to_nat x) (fr_data f) 0.
Proof using All.
  intros Hx. pose proof (fi_len _ _ F) as Hl. unfold need in Hl. pose proof (Nat.div_mod_eq (length (fr_data f) + 1023) 1024) as H1.
  pose proof (Nat.mod_upper_bound (length (fr_data f) + 1023) 1024) as H2.
  assert (Hd : (Z.to_nat (x / BSIZE) < length (fr_db f))%nat) by (unfold BSIZE; mlia).
  destruct (lookup_lt_is_Some_2 _ _ Hd) as [b Hb]. destruct (image_db _ _ Hb) as [_ Hr]. rewrite nmeta_eq in Hr.
  unfold fbyte. rewrite image_faddr by (change MAXFILE with 268; unfold BSIZE in *; mlia). rewrite Hb. cbn [default from_option id].
  rewrite (proj2 (Z.eqb_neq _ _)) by lia. rewrite (oi_blk _ _ O) by lia. unfold img_blk.
  destruct (fi_data _ _ F _ _ Hb) as (d & -> & Hn). cbn [default from_option id]. unfold BSIZE in *. rewrite Hn by mlia. f_equal. mlia.
Qed.

Lemma image_mapped : i_size (get_inode t j) <= Z.of_nat (1024 * length (fr_db f)) -> mapped t j.
Proof using All.
  intros Hs bn Hbn Hlt. rewrite image_faddr by done. unfold BSIZE in Hlt. assert (Hd : (Z.to_nat bn < length (fr_db f))%nat) by lia.
  destruct (lookup_lt_is_Some_2 _ _ Hd) as [b Hb]. destruct (image_db _ _ Hb) as [_ Hr]. rewrite nmeta_eq in Hr. rewrite Hb. cbn. lia.
Qed.
End File.
End OnImage.

(** ** fsinit *)

Lemma cache_sb sb t pins held : cache t pins held -> cache (set_k_sb sb t) pins held.
Proof. intros C. by apply (cache_frame t). Qed.

Lemma quiet_sb sb t t' : quiet t t' -> quiet (set_k_sb sb t) (set_k_sb sb t').
Proof.
  intros [[F W] D T B]. split; [|done|done|].
  - split; [|exact W]. rewrite F at 1. reflexivity.
  - intros b. rewrite (blk_frame t (set_k_sb sb t)), (blk_frame t' (set_k_sb sb t')) by done. apply B.
Qed.

Lemma readsb_ok t : cache t [] [] -> exists t', readsb ROOTDEV t = Ok tt t' /\ cache t' [] [] /\
  quiet (set_k_sb (superblock_get (disk_blk t 1)) t) t'.
Proof.
  intros C. unfold readsb. destruct (bind_bread t [] [] 1 C) as (i & t1 & E1 & C1 & I1 & D1 & Q1 & _).
  { apply not_elem_of_nil. } { right. cbn [length]. unfold NBUF, MAXOPBLOCKS. lia. }
  pose proof (blk_clean t [] 1 C (not_elem_of_nil _)) as Hb. rewrite E1. unfold bdata. rewrite bind_gets, D1, Hb, bind_modify.
  set (sb := superblock_get _). destruct (brelse_spec (set_k_sb sb t1) [] [] 1 i) as (t2 & E2 & C2 & Q2 & _).
  { by apply cache_sb. } { apply not_elem_of_nil. } { exact I1. }
  { right. change (b_data (get_buf t1 i) = disk_blk t1 1). rewrite D1, Hb. unfold disk_blk. by rewrite (qu_disk _ _ Q1). }
  exists t2. split; [exact E2|]. split; [done|]. transitivity (set_k_sb sb t1); [|done]. by apply quiet_sb.
Qed.

Lemma bio_frame_rest t t' : bio_frame t t' -> k_sb t' = k_sb t /\ k_log t' = k_log t /\ k_inodes t' = k_inodes t /\ k_cur t' = k_cur t.
Proof. intros [-> _]. done. Qed.

(** An empty log is written as it is. *)
Lemma recover_empty d : d = replicate 1024 0 -> head_blocks d = [] /\ head_block [] d = d.
Proof. intros ->. split; by vm_compute. Qed.

(** The kernel when it starts: nothing in the cache, and the image on disk. *)
Record boots (t : kstate) (s : fsimg) : Prop := {
  bt_cache : cache t [] [];
  bt_len : length (lh_block (k_log t)) = Z.to_nat LOGSIZE;
  bt_disk : forall b, 0 <= b < FSSIZE -> disk_blk t b = img_blk s b
}.

Lemma fsinit_image t s files fs : mkfs_image s files fs -> boots t s ->
  exists t', fsinit ROOTDEV t = Ok tt t' /\ on_image t' s /\ k_inodes t' = k_inodes t /\ k_cur t' = k_cur t.
Proof.
  intros W [C Hl Hd]. destruct (readsb_ok t C) as (t1 & E1 & C1 & Q1).
  rewrite (Hd 1) in Q1 by (unfold FSSIZE; lia). unfold img_blk in Q1. rewrite (mi_sb _ _ _ W) in Q1.
  destruct (bio_frame_rest _ _ (qu_frame _ _ Q1)) as (Sb1 & Lg1 & In1 & Cu1). cbn [k_sb k_log k_inodes k_cur set_k_sb] in Sb1, Lg1, In1, Cu1.
  assert (Hd1 : forall b, 0 <= b < FSSIZE -> disk_blk t1 b = img_blk s b).
  { intros b Hb. rewrite <- Hd by done. unfold disk_blk. by rewrite (qu_disk _ _ Q1). }
  assert (Bo : booting t1 mkfs_sb) by (split; [done|by rewrite Lg1|by vm_compute]).
  assert (H2 : disk_blk t1 2 = replicate 1024 0).
  { rewrite Hd1 by (unfold FSSIZE; lia). unfold img_blk. by rewrite (mi_log _ _ _ W) by lia. }
  destruct (recover_empty _ H2) as [Hh Hb2]. change 2 with (sb_logstart mkfs_sb) in Hh, Hb2, H2.
  destruct (initlog_ok t1 mkfs_sb Bo) as (t2 & l & E2 & C2 & Wr & Ls & Lz & Ln & Ld & Ll).
  { split; [rewrite H2; by vm_compute|]. rewrite Hh. split; [constructor|]. intros b Hb. by apply not_elem_of_nil in Hb. }
  unfold recover_writes in Wr. rewrite Hh, Hb2 in Wr.
  assert (Hd2 : forall b, disk_blk t2 b = disk_blk t1 b).
  { intros b. rewrite (wr_disk _ _ _ Wr). cbn [home_writes imap app]. unfold upds. cbn [foldl]. by case_decide as E; [rewrite E|]. }
  destruct (bio_frame_rest _ _ (wr_frame _ _ _ Wr)) as (Sb2 & Lg2 & In2 & Cu2). cbn [k_sb k_log k_inodes k_cur set_k_log] in Sb2, Lg2, In2, Cu2.
  exists t2. split; [|split; [|split; congruence]].
  - unfold fsinit. rewrite (bind_ok _ _ _ _ _ E1), bind_gets, Sb1. exact E2.
  - split; [|congruence|by rewrite Lg2, Ls|intros b Hb; rewrite (blk_clean t2 [] b C2) by apply not_elem_of_nil; rewrite Hd2; by apply Hd1].
    split; rewrite ?Lg2, ?Ls, ?Lz; [done| |by vm_compute| |].
    + split; rewrite ?Lg2, ?Ls; [done|by vm_compute|done|done|unfold LOGSIZE, MAXOPBLOCKS; cbn [length]; lia| |constructor|intros b Hb; by apply not_elem_of_nil in Hb].
      unfold lh_blocks. by rewrite Lg2, Ln.
    + rewrite Hd2, H2. by vm_compute.
    + rewrite Hd2, H2. by vm_compute.
Qed.

(** ** Opening an inode *)

(** The inode table after boot. *)
Record itable_fresh (t : kstate) : Prop := {
  tf_len : length (k_inodes t) = NINODE;
  tf_free : forall i, (i < NINODE)%nat -> i_ref (get_inode t i) = 0 /\ sl_locked (i_lock (get_inode t i)) = false
}.

Lemma itable_fresh_ok t : itable_fresh t -> itable_ok t.
Proof.
  intros [L H]. split; [done|intros i Hi; destruct (H i Hi); lia|]. intros i j dev inum Hi _ [Hr _] _. destruct (H i Hi). lia.
Qed.

Lemma on_image_inodes t s v : on_image t s -> on_image (set_k_inodes v t) s.
Proof. intros [T S L B]. split; [by apply tx_inodes|done|done|]. intros b Hb. rewrite (blk_frame t) by done. by apply B. Qed.

(** [dinode_get] overwrites exactly the fields on disk. *)
Lemma dinode_get_with d o ip ip' : dinode_get d o ip = with_fields (dinode_get d o ip') ip.
Proof. reflexivity. Qed.

Lemma open_image t s inum : on_image t s -> itable_fresh t -> 0 <= inum < NINODES -> i_type (inode_at (f_img s) inum) <> 0 ->
  exists i t1 t2 me, iget ROOTDEV inum t = Ok i t1 /\ ilock i t1 = Ok tt t2 /\ on_image t2 s /\ (i < NINODE)%nat /\
    length (k_inodes t2) = NINODE /\ (forall i', (i' < NINODE)%nat -> i' <> i -> get_inode t2 i' = get_inode t i') /\
    get_inode t2 i = with_fields (inode_at (f_img s) inum) (mkInode ROOTDEV inum 1 (mkSleeplock true (p_pid (get_proc t me))) true 0 0 0 0 0 []).
Proof.
  intros O Fr Hin Hty. pose proof (itable_fresh_ok t Fr) as Ok0. destruct (ca_cur _ _ _ (tx_cache _ _ _ (oi_tx _ _ O))) as (me & Hme & _).
  destruct (iget_ok t ROOTDEV inum Ok0) as [(i & Hi & [Hr _] & _)|[_ [(i & Hi & Hz & E1 & Ok1)|[H _]]]].
  { rewrite (ca_spin _ _ _ (tx_cache _ _ _ (oi_tx _ _ O))). apply not_elem_of_nil. }
  { destruct (tf_free _ Fr i Hi). lia. }
  2:{ exfalso. apply (H 0%nat); [unfold NINODE; lia|]. apply (tf_free _ Fr). unfold NINODE. lia. }
  set (t1 := upd_inode i _ t) in *. assert (O1 : on_image t1 s) by by apply on_image_inodes.
  assert (G1 : get_inode t1 i = set_i_valid false (set_i_ref 1 (set_i_inum inum (set_i_dev ROOTDEV (get_inode t i))))).
  { unfold t1. rewrite get_upd_inode_same by (rewrite (tf_len _ Fr); lia). done. }
  assert (Hib : 0 <= IBLOCK inum mkfs_sb < FSSIZE) by (pose proof (mkfs_iblock inum ltac:(unfold NINODES in *; lia)); unfold FSSIZE; lia).
  assert (Hdi : forall ip, dinode_of t1 inum ip = with_fields (inode_at (f_img s) inum) ip).
  { intros ip. unfold dinode_of. rewrite (oi_sb _ _ O1), (oi_blk _ _ O1) by done. apply dinode_get_with. }
  destruct (ilock_load t1 [] i me (oi_tx _ _ O1)) as (t2 & E2 & T2 & B2 & S2 & L2 & I2).
  { cbn [length]. unfold NBUF, MAXOPBLOCKS. lia. } { apply Ok1. } { done. } { exact Hme. } { rewrite G1. cbn. lia. }
  { rewrite G1. apply (tf_free _ Fr i Hi). } { by rewrite G1. } { by rewrite G1. } { rewrite G1. cbn [i_inum set_i_valid set_i_ref set_i_inum]. by rewrite Hdi. }
  assert (N2 : length (k_inodes t2) = NINODE) by (rewrite I2, length_alter; apply Ok1).
  exists i, t1, t2, me. split; [exact E1|]. split; [exact E2|]. split; [|split; [done|]; split; [done|]; split].
  - split; [done|by rewrite S2, (oi_sb _ _ O1)| |intros b Hb; rewrite B2; by apply (oi_blk _ _ O1)].
    rewrite L2. apply (oi_start _ _ O1).
  - intros i' Hi' Hne. unfold get_inode. rewrite I2, list_lookup_alter_ne by done. unfold t1, upd_inode. cbn [k_inodes set_k_inodes].
    by rewrite list_lookup_alter_ne by done.
  - unfold get_inode at 1. rewrite I2, list_lookup_alter_eq. unfold get_inode in G1. destruct (lookup_lt_is_Some_2 (k_inodes t1) i) as [x Hx].
    { rewrite (it_len _ Ok1). lia. }
    rewrite Hx in G1 |- *. cbn [default from_option id fmap option_fmap option_map] in *. rewrite G1. cbn [i_inum set_i_valid set_i_ref set_i_inum]. rewrite Hdi. reflexivity.
Qed.

(** ** Reading the files *)

Lemma image_content s files fs k ty c : mkfs_image s files fs -> contents files !! k = Some (ty, c) ->
  exists f, fs !! k = Some f /\ fr_type f = ty /\ fr_data f = c.
Proof.
  intros W H. rewrite <- (mi_contents _ _ _ W), list_lookup_fmap_Some in H. destruct H as (f & E & Hf). exists f.
  unfold content in E. by injection E as -> ->.
Qed.

(** An inode of the image, open in the kernel. *)
Lemma open_idisk t i s fs k f inum sz lk : img_files s fs -> fs !! k = Some f -> 0 <= fr_type f <= 3 -> (sz <= 268 * 1024)%nat ->
  k_sb t = mkfs_sb -> 0 <= inum < NINODES ->
  get_inode t i = with_fields (set_i_size (Z.of_nat sz) (fr_inode f)) (mkInode ROOTDEV inum 1 lk true 0 0 0 0 0 []) -> idisk t (get_inode t i).
Proof.
  intros I Hk Hty Hsz Sb Hin E. destruct (fr_inode_fits f sz Hty Hsz (fr_addrs_range s fs k f I Hk)). rewrite E. split; [done|by rewrite Sb|by split].
Qed.

Lemma seqZ_nth {A} (l : list A) (d : A) : (fun x => nth (Z.to_nat x) l d) <$> seqZ 0 (Z.of_nat (length l)) = l.
Proof.
  apply list_eq. intros i. rewrite list_lookup_fmap. destruct (decide (i < length l)%nat) as [H|H].
  - rewrite lookup_seqZ_lt by lia. cbn. rewrite nth_lookup. destruct (lookup_lt_is_Some_2 _ _ H) as [x Hx].
    replace (Z.to_nat (0 + Z.of_nat i)) with i by lia. by rewrite Hx.
  - rewrite lookup_seqZ_ge, lookup_ge_None_2 by lia. done.
Qed.

Lemma file_readable s files fs t k g : mkfs_image s files fs -> on_image t s -> itable_fresh t -> (length files <= 198)%nat -> files !! k = Some g ->
  exists i t1 t2 t3, iget ROOTDEV (Z.of_nat k + 2) t = Ok i t1 /\ ilock i t1 = Ok tt t2 /\
    readi i kernel_dst 0 (Z.of_nat (length (file_data g))) t2 = Ok (Z.of_nat (length (file_data g)), file_data g) t3.
Proof.
  intros W O Fr Hcnt Hg. pose proof (lookup_lt_Some _ _ _ Hg) as Hlt.
  destruct (image_content s files fs (S k) T_FILE (file_data g) W) as (f & Hf & Ty & Dt).
  { change (contents files !! S k) with (((fun f => (T_FILE, file_data f)) <$> files) !! k). by rewrite list_lookup_fmap, Hg. }
  pose proof (mi_inodes _ _ _ W k f Hf) as Hi.
  destruct (open_image t s (Z.of_nat k + 2) O Fr) as (i & t1 & t2 & me & E1 & E2 & O2 & Hin & L2 & _ & G2); [unfold NINODES; lia|by rewrite Hi; cbn; rewrite Ty|].
  rewrite Hi in G2. set (lk := mkSleeplock _ _) in G2.
  pose proof (Forall_lookup_1 _ _ _ _ (im_files _ _ (mi_files _ _ _ W)) Hf) as Fi. pose proof (Forall_lookup_1 _ _ _ _ (mi_exact _ _ _ W) Hf) as Ex. cbn beta in Ex.
  pose proof (fi_bound _ _ Fi Ex) as Hb.
  assert (D : idisk t2 (get_inode t2 i)).
  { eapply (open_idisk t2 i s fs (S k) f (Z.of_nat k + 2) (length (fr_data f))); [apply W|done|rewrite Ty; unfold T_FILE; lia|done|apply O2|unfold NINODES; lia|exact G2]. }
  assert (Ha : i_addrs (get_inode t2 i) = fr_addrs f) by by rewrite G2.
  assert (Hz : i_size (get_inode t2 i) = Z.of_nat (length (fr_data f))) by by rewrite G2.
  assert (Hj : (i < length (k_inodes t2))%nat) by (rewrite L2; done).
  destruct (readi_ok t2 [] i 0 (Z.of_nat (length (file_data g))) (oi_tx _ _ O2)) as (t3 & E3 & _).
  { cbn [length]. unfold NBUF, MAXOPBLOCKS. lia. } { by eapply image_file_ok. }
  { eapply image_mapped; [done..|]. rewrite Hz. destruct Ex as [-> _]. unfold need. pose proof (Nat.div_mod_eq (length (fr_data f) + 1023) 1024).
    pose proof (Nat.mod_upper_bound (length (fr_data f) + 1023) 1024). lia. }
  { rewrite Hz. change (MAXFILE * BSIZE) with (Z.of_nat (268 * 1024)). lia. } { lia. } { rewrite <- Dt. lia. }
  exists i, t1, t2, t3. split; [done|]. split; [done|]. rewrite E3, Hz, Dt.
  rewrite (proj2 (Z.ltb_ge _ 0)), (proj2 (Z.leb_gt _ _)) by (rewrite <- Dt; lia). cbn [orb].
  rewrite Z.sub_0_r, Z.min_id. f_equal. f_equal. etrans; [|apply (seqZ_nth (file_data g) 0)].
  apply list_fmap_ext. intros j x Hx. apply lookup_seqZ in Hx. rewrite <- Dt. eapply image_byte; [done..|]. rewrite Dt. lia.
Qed.

(** ** The root directory *)

Definition root_entries (files : list mkfile) : list (list Z) :=
  dirent 1 [46] :: dirent 1 [46; 46] :: imap file_entry files.

Definition root_names (files : list mkfile) : list (list Z) :=
  name_of <$> [46] :: [46; 46] :: ((fun f => entry_name (mf_path f)) <$> files).

Lemma concat_nth (l : list (list Z)) e x i : Forall (fun y => length y = 16%nat) l -> l !! e = Some x -> (i < 16)%nat ->
  nth (16 * e + i) (concat l) 0 = nth i x 0.
Proof.
  intros Hl. revert e. induction Hl as [|y l Hy Hl IH]; intros e Hx Hi; [done|]. cbn [concat]. destruct e as [|e].
  - injection Hx as ->. rewrite app_nth1 by lia. f_equal.
  - rewrite app_nth2 by lia. rewrite <- (IH e Hx Hi). f_equal. lia.
Qed.

(** An entry, its number and its name. *)
Lemma root_entry files e x : Forall (fun f => byte_list (mf_path f)) files -> (length files <= 198)%nat -> root_entries files !! e = Some x ->
  length x = 16%nat /\ root_names files !! e = Some (name_of (de_name x)) /\ de_inum x = Z.max 1 (Z.of_nat e).
Proof.
  intros Hb Hn Hx. destruct e as [|[|e]].
  - injection Hx as <-. by vm_compute.
  - injection Hx as <-. by vm_compute.
  - change (root_entries files !! S (S e)) with (imap file_entry files !! e) in Hx. rewrite list_lookup_imap in Hx.
    destruct (files !! e) as [f|] eqn:Ef; [|done]. injection Hx as <-. pose proof (lookup_lt_Some _ _ _ Ef) as Hlt.
    pose proof (Forall_lookup_1 _ _ _ _ Hb Ef) as Hf. cbn beta in Hf.
    destruct (entry_bytes_ok (entry_name (mf_path f)) (Z.of_nat e + 2) (entry_name_bytes _ Hf) ltac:(lia)) as (L & _ & N & M).
    split; [exact L|]. split; [|etrans; [exact N|lia]].
    change (root_names files !! S (S e)) with ((name_of <$> ((fun f => entry_name (mf_path f)) <$> files)) !! e).
    rewrite !list_lookup_fmap, Ef. cbn. f_equal. symmetry. exact M.
Qed.

Lemma root_entries_16 files : Forall (fun f => byte_list (mf_path f)) files -> (length files <= 198)%nat ->
  Forall (fun y => length y = 16%nat) (root_entries files).
Proof. intros Hb Hn. apply Forall_lookup. intros e x Hx. by apply (root_entry files e x). Qed.

Section Root.
Context (s : fsimg) (files : list mkfile) (fs : list frec) (W : mkfs_image s files fs) (t : kstate) (O : on_image t s).
Context (Hb : Forall (fun f => byte_list (mf_path f)) files) (Hn : (length files <= 198)%nat).
Context (f : frec) (Hf : fs !! 0%nat = Some f) (Dt : fr_data f = root_data files) (j : nat) (Hj : (j < length (k_inodes t))%nat).
Context (D : idisk t (get_inode t j)) (Ha : i_addrs (get_inode t j) = fr_addrs f).
Context (Hz : i_size (get_inode t j) = (Z.of_nat (length (fr_data f)) / 1024 + 1) * 1024) (Hty : i_type (get_inode t j) = T_DIR).

Context (Hl : length (fr_data f) = (32 + 16 * length files)%nat).

Lemma root_dent e x : root_entries files !! e = Some x -> dent t (get_inode t j) (Z.of_nat e) = x.
Proof using All.
  intros Hx. destruct (root_entry files e x Hb Hn Hx) as [L _]. apply lookup_lt_Some in Hx as Hlt. cbn [root_entries length] in Hlt. rewrite length_imap in Hlt.
  unfold dent. change dirent_size with 16. rewrite <- (seqZ_nth x 0), L. replace (seqZ (Z.of_nat e * 16) 16) with (Z.add (Z.of_nat e * 16) <$> seqZ 0 16) by (rewrite fmap_add_seqZ; f_equal; lia).
  rewrite <- list_fmap_compose. apply list_fmap_ext. intros i y Hy. apply lookup_seqZ in Hy. unfold compose.
  rewrite (image_byte s files fs W t O 0 f Hf j Hj D Ha) by lia. rewrite Dt. change (root_data files) with (concat (root_entries files)).
  rewrite <- (concat_nth (root_entries files) e x (Z.to_nat y)); [f_equal; lia|by apply root_entries_16|done|lia].
Qed.

Lemma root_nents : Z.of_nat (length (root_entries files)) <= nents (get_inode t j).
Proof using All.
  unfold nents. rewrite Hz, Hl. change dirent_size with 16. cbn [root_entries length]. rewrite length_imap. mlia.
Qed.

Lemma root_dmap k g : NoDup (root_names files) -> files !! k = Some g ->
  find_entry t (get_inode t j) (entry_name (mf_path g)) = Some (Z.of_nat k + 2) /\ de_inum (dent t (get_inode t j) (Z.of_nat k + 2)) = Z.of_nat k + 2.
Proof using All.
  intros N Hg. pose proof (lookup_lt_Some _ _ _ Hg) as Hk. pose proof root_nents as He. cbn [root_entries length] in He. rewrite length_imap in He.
  assert (Hnk : root_names files !! S (S k) = Some (name_of (entry_name (mf_path g)))).
  { change (root_names files !! S (S k)) with ((name_of <$> ((fun f => entry_name (mf_path f)) <$> files)) !! k). by rewrite !list_lookup_fmap, Hg. }
  assert (Hent : forall e, (e <= S (S k))%nat -> exists x, dent t (get_inode t j) (Z.of_nat e) = x /\ root_names files !! e = Some (name_of (de_name x)) /\ de_inum x = Z.max 1 (Z.of_nat e)).
  { intros e Hle. destruct (lookup_lt_is_Some_2 (root_entries files) e) as [x Hx]; [cbn [root_entries length]; rewrite length_imap; lia|].
    exists x. split; [by apply root_dent|]. by destruct (root_entry files e x Hb Hn Hx) as (_ & A & B). }
  destruct (Hent (S (S k))) as (x & Ex & Nx & Ix); [lia|]. replace (Z.of_nat (S (S k))) with (Z.of_nat k + 2) in Ex by lia.
  rewrite Hnk in Nx. injection Nx as Nx. split; [|rewrite Ex, Ix; lia]. unfold find_entry.
  replace (nents (get_inode t j)) with ((Z.of_nat k + 2) + (nents (get_inode t j) - Z.of_nat k - 2)) by lia. rewrite seqZ_app, find_in_app by lia.
  rewrite (proj2 (find_in_none _ _ _ _)).
  - rewrite seqZ_cons by lia. rewrite Z.add_0_l. cbn [find_in]. unfold is_entry. rewrite Ex, Ix.
    rewrite (proj2 (Z.eqb_neq _ 0)) by lia. rewrite (proj2 (Z.eqb_eq _ 0)) by (by apply namecmp_zero). done.
  - intros e He'. apply elem_of_seqZ in He'. destruct (Hent (Z.to_nat e)) as (y & Ey & Ny & _); [lia|]. rewrite Z2Nat.id in Ey by lia.
    unfold is_entry. rewrite Ey. apply andb_false_intro2, Z.eqb_neq. intros Hc. apply namecmp_zero in Hc.
    rewrite <- Hc in Ny. pose proof (NoDup_lookup _ _ _ _ N Ny Hnk). lia.
Qed.
End Root.

Lemma need_round n : (n mod 1024 <> 0)%nat -> need n = S (n / 1024).
Proof.
  intros H. unfold need. pose proof (Nat.div_mod_eq n 1024). pose proof (Nat.mod_upper_bound n 1024).
  replace (n + 1023)%nat with (n mod 1024 - 1 + (n / 1024 + 1) * 1024)%nat by lia. rewrite Nat.div_add by lia.
  rewrite Nat.div_small by lia. lia.
Qed.

(** A free entry is left next to the root. *)
Lemma other_entry r : exists i, (i < NINODE)%nat /\ i <> r.
Proof. destruct (decide (r = 0%nat)) as [->|H]; [exists 1%nat|exists 0%nat]; unfold NINODE; lia. Qed.

Lemma root_opens s files fs t : mkfs_image s files fs -> on_image t s -> itable_fresh t ->
  (length files <= 198)%nat -> Forall (fun f => byte_list (mf_path f)) files -> (length files mod 64 <> 62)%nat ->
  exists r u1 u2 f, iget ROOTDEV ROOTINO t = Ok r u1 /\ ilock r u1 = Ok tt u2 /\ on_image u2 s /\ dir_ok u2 r /\
    fs !! 0%nat = Some f /\ fr_data f = root_data files /\ (r < length (k_inodes u2))%nat /\ idisk u2 (get_inode u2 r) /\
    i_addrs (get_inode u2 r) = fr_addrs f /\ i_size (get_inode u2 r) = (Z.of_nat (length (fr_data f)) / 1024 + 1) * 1024 /\
    itable_ok u2 /\ (forall i, (i < NINODE)%nat -> i <> r -> i_ref (get_inode u2 i) = 0) /\ i_inum (get_inode u2 r) = 1.
Proof.
  intros W O Fr Hn Hb H62. destruct (image_content s files fs 0 T_DIR (root_data files) W eq_refl) as (f & Hf & Ty & Dt).
  pose proof (root_data_length files Hb Hn) as Hl. rewrite <- Dt in Hl. pose proof (mi_root _ _ _ W f Hf) as Hi.
  destruct (open_image t s 1 O Fr) as (r & u1 & u2 & me & E1 & E2 & O2 & Hr & L2 & Oth & G2); [unfold NINODES; lia|rewrite Hi; cbn; by rewrite Ty|].
  rewrite Hi in G2. set (lk := mkSleeplock _ _) in G2. set (sz := ((length (fr_data f) / 1024 + 1) * 1024)%nat).
  assert (Esz : (Z.of_nat (length (fr_data f)) / 1024 + 1) * 1024 = Z.of_nat sz) by (unfold sz; rewrite Nat2Z.inj_mul, Nat2Z.inj_add, Nat2Z.inj_div; lia).
  assert (Hsz : (sz <= 4096)%nat) by (unfold sz; pose proof (Nat.div_mod_eq (length (fr_data f)) 1024); lia).
  rewrite Esz in G2. assert (D : idisk u2 (get_inode u2 r)).
  { eapply (open_idisk u2 r s fs 0 f 1 sz); [apply W|done|rewrite Ty; unfold T_DIR; lia|lia|apply O2|unfold NINODES; lia|exact G2]. }
  assert (Ha : i_addrs (get_inode u2 r) = fr_addrs f) by by rewrite G2. assert (Hz : i_size (get_inode u2 r) = Z.of_nat sz) by by rewrite G2.
  assert (Hj : (r < length (k_inodes u2))%nat) by (rewrite L2; done).
  assert (Hroot : i_ref (get_inode u2 r) = 1 /\ i_inum (get_inode u2 r) = 1 /\ i_type (get_inode u2 r) = T_DIR) by (rewrite G2; by rewrite <- Ty).
  assert (Hne : (length (fr_data f) mod 1024 <> 0)%nat).
  { rewrite Hl. intros H. apply H62. pose proof (Nat.div_mod_eq (32 + 16 * length files) 1024). pose proof (Nat.div_mod_eq (length files) 64).
    pose proof (Nat.mod_upper_bound (length files) 64). lia. }
  assert (Oth' : forall i, (i < NINODE)%nat -> i <> r -> i_ref (get_inode u2 i) = 0) by (intros i Hin Hir; rewrite Oth by done; by apply (tf_free _ Fr)).
  exists r, u1, u2, f. split_and!; try done; [|by rewrite Esz| |apply Hroot].
  - split; [by eapply image_file_ok| |apply Hroot|rewrite Hz; unfold sz; change dirent_size with 16; mlia|rewrite Hz; change (MAXFILE * BSIZE) with 274432; lia].
    eapply image_mapped; [done..|]. rewrite Hz. destruct (Forall_lookup_1 _ _ _ _ (mi_exact _ _ _ W) Hf) as [-> _]. rewrite need_round by done. unfold sz. lia.
  - split; [done|intros i Hin; destruct (decide (i = r)) as [->|Hir]; [destruct Hroot as [-> _]|rewrite Oth' by done]; lia|].
    intros i i' dev inum Hin Hin' [Hi1 _] [Hi2 _]. destruct (decide (i = r)) as [->|Hir]; [|rewrite Oth' in Hi1 by done; lia].
    destruct (decide (i' = r)) as [->|Hir']; [done|rewrite Oth' in Hi2 by done; lia].
Qed.

(** Every file is found in the root, under its number. *)
Lemma root_finds s files fs u r f k g : mkfs_image s files fs -> on_image u s -> dir_ok u r -> fs !! 0%nat = Some f -> fr_data f = root_data files ->
  (r < length (k_inodes u))%nat -> idisk u (get_inode u r) -> i_addrs (get_inode u r) = fr_addrs f ->
  i_size (get_inode u r) = (Z.of_nat (length (fr_data f)) / 1024 + 1) * 1024 -> itable_ok u ->
  (forall i, (i < NINODE)%nat -> i <> r -> i_ref (get_inode u i) = 0) -> i_inum (get_inode u r) = 1 ->
  (length files <= 198)%nat -> Forall (fun f => byte_list (mf_path f)) files -> NoDup (root_names files) -> files !! k = Some g ->
  exists i u', dirlookup r (entry_name (mf_path g)) u = Ok (Some (i, (Z.of_nat k + 2) * 16)) u' /\ live u' i ROOTDEV (Z.of_nat k + 2).
Proof.
  intros W O Dr Hf Dt Hj D Ha Hz It Oth Hin Hn Hb N Hg. pose proof (root_data_length files Hb Hn) as Hl. rewrite <- Dt in Hl.
  destruct (root_dmap s files fs W u O Hb Hn f Hf Dt r Hj D Ha Hz (do_type _ _ Dr) Hl k g N Hg) as [Hfe Hde].
  destruct (dirlookup_ok u [] r (entry_name (mf_path g)) (oi_tx _ _ O)) as (u1 & T1 & S1 & E1); [cbn [length]; unfold NBUF, MAXOPBLOCKS; lia|done|].
  rewrite Hfe in E1. unfold get_entry in E1. pose proof (tstep_inodes _ _ _ _ _ S1) as Ei.
  assert (Gi : forall i, get_inode u1 i = get_inode u i) by (intros i; unfold get_inode; by rewrite Ei).
  assert (It1 : itable_ok u1).
  { destruct It as [A B C]. split; [by rewrite Ei|intros i Hi; rewrite Gi; by apply B|]. unfold live. intros i i' dev inum Hi Hi'. rewrite !Gi. by apply C. }
  destruct (iget_ok u1 ROOTDEV (Z.of_nat k + 2) It1) as [(i & Hi & (Hr & _ & Hnum) & _)|[_ [(i & Hi & Hzr & E2 & It2)|[H _]]]].
  { rewrite (ca_spin _ _ _ (tx_cache _ _ _ T1)). apply not_elem_of_nil. }
  { rewrite Gi in Hr, Hnum. destruct (decide (i = r)) as [->|Hir]; [lia|]. rewrite Oth in Hr by done. lia. }
  2:{ exfalso. destruct (other_entry r) as (i & Hi & Hir). apply (H i Hi). rewrite Gi. by apply Oth. }
  eexists i, _. split; [rewrite E1, Hde; change dirent_size with 16; rewrite (bind_ok _ _ _ _ _ E2); reflexivity|].
  unfold live. rewrite get_upd_inode_same by (rewrite Ei, (it_len _ It); lia). cbn. lia.
Qed.

(** ** Theorems *)

(** [C4] mkfs succeeds on all files that fit, and its image is complete: the
    superblock, an empty log, an inode of the right type and size for the
    root and for every file, in the order of the command line, the contents
    of every file in blocks of its own, and a bitmap that marks exactly the
    blocks handed out. *)
Theorem mkfs_spec (files : list mkfile) :
  mkfs_fits files -> exists s fs, mkfs files mkfs_start = Ok tt s /\ mkfs_image s files fs.
Proof. apply mkfs_run. Qed.

(** [C3] A kernel that boots from an image of mkfs: [fsinit] accepts it; the
    inode of every file can be opened and [readi] returns the contents that
    mkfs was given; and [dirlookup] in the root finds every file under its
    name.  The number of files modulo 64 must not be 62, see
    [mkfs_root_hole]. *)
Theorem mkfs_boots (files : list mkfile) (s : fsimg) (t : kstate) :
  mkfs_fits files -> NoDup (root_names files) -> (length files mod 64 <> 62)%nat ->
  mkfs files mkfs_start = Ok tt s -> boots t s -> itable_fresh t ->
  exists t1, fsinit ROOTDEV t = Ok tt t1 /\
    (forall k g, files !! k = Some g ->
       exists i t2 t3 t4, iget ROOTDEV (Z.of_nat k + 2) t1 = Ok i t2 /\ ilock i t2 = Ok tt t3 /\
         readi i kernel_dst 0 (Z.of_nat (length (file_data g))) t3 = Ok (Z.of_nat (length (file_data g)), file_data g) t4) /\
    (exists r u1 u2, iget ROOTDEV ROOTINO t1 = Ok r u1 /\ ilock r u1 = Ok tt u2 /\
       forall k g, files !! k = Some g ->
         exists i u3, dirlookup r (entry_name (mf_path g)) u2 = Ok (Some (i, (Z.of_nat k + 2) * 16)) u3 /\
           live u3 i ROOTDEV (Z.of_nat k + 2)).
Proof.
  intros T N H62 R B Fr. destruct (mkfs_run files T) as (s' & fs & R' & W). rewrite R in R'. injection R' as <-.
  destruct (fsinit_image t s files fs W B) as (t1 & E1 & O1 & I1 & _). pose proof (mt_count _ T) as Hn.
  assert (Hb : Forall (fun f => byte_list (mf_path f)) files) by (eapply Forall_impl; [apply (mt_names _ T)|]; intros f Hf; apply Hf).
  assert (Fr1 : itable_fresh t1).
  { destruct Fr as [A C]. split; [by rewrite I1|]. intros i Hi. unfold get_inode. rewrite I1. by apply C. }
  exists t1. split; [done|]. split; [intros k g Hg; by eapply file_readable|].
  destruct (root_opens s files fs t1 W O1 Fr1 Hn Hb H62) as (r & u1 & u2 & f & E2 & E3 & O2 & Dr & Hf & Dt & Hj & D & Ha & Hz & It & Oth & Hin).
  exists r, u1, u2. split; [done|]. split; [done|]. intros k g Hg. by eapply root_finds.
Qed.

(** With 62 files, or 64 or 128 more, the rounding of the size of the root
    directory goes one block too far: the entries fill their blocks, and the
    block that [off/BSIZE + 1] adds was never allocated.  The size in the
    inode covers a block whose address is 0; the kernel allocates one when it
    reads there, which outside of a transaction is a panic in
    [log_write]. *)
Theorem mkfs_root_hole (files : list mkfile) (s : fsimg) :
  mkfs_fits files -> (length files mod 64 = 62)%nat -> mkfs files mkfs_start = Ok tt s ->
  exists bn, (bn + 1) * BSIZE = i_size (inode_at (f_img s) ROOTINO) /\ 0 <= bn < NDIRECT /\
    nth (Z.to_nat bn) (i_addrs (inode_at (f_img s) ROOTINO)) 0 = 0.
Proof.
  intros T H62 R. destruct (mkfs_run files T) as (s' & fs & R' & W). rewrite R in R'. injection R' as <-. pose proof (mt_count _ T) as Hn.
  assert (Hb : Forall (fun f => byte_list (mf_path f)) files) by (eapply Forall_impl; [apply (mt_names _ T)|]; intros f Hf; apply Hf).
  destruct (image_content s files fs 0 T_DIR (root_data files) W eq_refl) as (f & Hf & Ty & Dt).
  pose proof (root_data_length files Hb Hn) as Hl. rewrite <- Dt in Hl. change ROOTINO with 1. rewrite (mi_root _ _ _ W f Hf).
  set (n := length (fr_data f)) in *. set (q := (length files / 64 + 1)%nat).
  assert (En : n = (q * 1024)%nat) by (unfold q; pose proof (Nat.div_mod_eq (length files) 64); lia). assert (Hq : (q <= 4)%nat) by lia.
  assert (Ez : Z.of_nat n / 1024 = Z.of_nat q) by (rewrite En, Nat2Z.inj_mul; apply Z.div_mul; lia).
  exists (Z.of_nat q). cbn [i_size set_i_size]. rewrite Ez. split; [unfold BSIZE; lia|]. split; [change NDIRECT with 12; lia|].
  change (i_addrs (set_i_size _ (fr_inode f))) with (fr_addrs f). rewrite Nat2Z.id, nth_lookup, fr_addrs_lookup, decide_True by lia.
  rewrite (lookup_ge_None_2 (fr_db f)); [done|]. destruct (Forall_lookup_1 _ _ _ _ (mi_exact _ _ _ W) Hf) as [-> _]. fold n.
  unfold need. rewrite En. replace (q * 1024 + 1023)%nat with (1023 + q * 1024)%nat by lia. rewrite Nat.div_add by lia. rewrite Nat.div_small by lia. lia.
Qed.

(** ** Witnesses *)

Definition demo_files : list mkfile :=
  [mkMkfile (str "README") [str "hello "; str "world"]; mkMkfile (str "user/_cat") [replicate 1024 7; [8; 9]]].

Definition byte_listb (l : list Z) : bool := forallb (fun b => (0 <=? b) && (b <? 256)) l.

Lemma byte_listb_ok l : byte_listb l = true -> byte_list l.
Proof. intros H. apply Forall_lookup. intros i x Hx. apply forallb_forall with (x := x) in H; [lia|]. apply list_elem_of_In. by eapply list_elem_of_lookup_2. Qed.

Definition mkfs_fitsb (files : list mkfile) : bool :=
  (length files <=? 198)%nat && (Z.of_nat (total (contents files)) <=? nblocks) &&
  forallb (fun f => bool_decide (47 ∉ shortname (mf_path f)) && byte_listb (mf_path f) && forallb byte_listb (mf_chunks f) &&
    (Z.of_nat (length (file_data f)) <=? 268 * 1024)) files.

Lemma mkfs_fitsb_ok files : mkfs_fitsb files = true -> mkfs_fits files.
Proof.
  unfold mkfs_fitsb. rewrite !andb_true_iff, Nat.leb_le, Z.leb_le, forallb_forall. intros [[H1 H2] H]. setoid_rewrite <- list_elem_of_In in H.
  setoid_rewrite andb_true_iff in H. setoid_rewrite andb_true_iff in H. setoid_rewrite andb_true_iff in H.
  split; [done|..|done]; apply Forall_forall; intros f Hf; destruct (H f Hf) as [[[A B] C] D].
  - split; [by apply bool_decide_eq_true in A|by apply byte_listb_ok].
  - apply Forall_forall. intros c Hc. rewrite forallb_forall in C. apply byte_listb_ok, C. by apply list_elem_of_In.
  - lia.
Qed.

Lemma demo_fits : mkfs_fits demo_files.
Proof. apply mkfs_fitsb_ok. by vm_compute. Qed.

Lemma mkfs_spec_witness : exists s fs, mkfs demo_files mkfs_start = Ok tt s /\ mkfs_image s demo_files fs.
Proof. exact (mkfs_spec demo_files demo_fits). Defined.

Lemma image_boots s files fs : mkfs_image s files fs -> boots (set_k_disk (f_img s) boot_state) s.
Proof.
  intros W. split.
  - destruct boot_cache. split; try done. intros i b H. by apply boot_no_buf in H.
  - done.
  - intros b Hb. destruct (im_sectors _ _ (mi_files _ _ _ W) b Hb) as (d & Ed & _). unfold disk_blk, img_blk.
    change (k_disk (set_k_disk (f_img s) boot_state)) with (f_img s). by rewrite Ed.
Qed.

Lemma boot_itable img : itable_fresh (set_k_disk img boot_state).
Proof.
  split; [apply length_replicate|]. intros i _. assert (E : get_inode (set_k_disk img boot_state) i = inode_zero) by exact (fs_no_inode i).
  rewrite E. split; reflexivity.
Qed.

Lemma mkfs_boots_witness : exists s t1, mkfs demo_files mkfs_start = Ok tt s /\ fsinit ROOTDEV (set_k_disk (f_img s) boot_state) = Ok tt t1 /\
  exists i t2 t3 t4, iget ROOTDEV 2 t1 = Ok i t2 /\ ilock i t2 = Ok tt t3 /\ readi i kernel_dst 0 11 t3 = Ok (11, str "hello world") t4.
Proof.
  destruct (mkfs_run demo_files demo_fits) as (s & fs & R & W). exists s.
  destruct (mkfs_boots demo_files s (set_k_disk (f_img s) boot_state) demo_fits) as (t1 & E & Hr & _).
  - apply (bool_decide_eq_true_1 (NoDup (root_names demo_files))). by vm_compute.
  - by vm_compute.
  - exact R.
  - exact (image_boots s demo_files fs W).
  - exact (boot_itable (f_img s)).
  - exists t1. split; [exact R|]. split; [exact E|]. exact (Hr 0%nat _ eq_refl).
Defined.

(** 62 files with names of two letters. *)
Definition many_files : list mkfile := (fun k => mkMkfile [97 + k / 26; 97 + k mod 26] [[k]]) <$> seqZ 0 62.

Lemma mkfs_root_hole_witness : exists s bn, mkfs many_files mkfs_start = Ok tt s /\
  (bn + 1) * BSIZE = i_size (inode_at (f_img s) ROOTINO) /\ nth (Z.to_nat bn) (i_addrs (inode_at (f_img s) ROOTINO)) 0 = 0.
Proof.
  assert (T : mkfs_fits many_files) by (apply mkfs_fitsb_ok; by vm_compute).
  destruct (mkfs_run many_files T) as (s & fs & R & _). destruct (mkfs_root_hole many_files s T eq_refl R) as (bn & H1 & _ & H2).
  exists s, bn. split; [exact R|]. split; [exact H1|exact H2].
Defined.
