(* ===== verification/Pipe.v ===== *)
(** * kernel/pipe.c: pipes

    A pipe sits in a page from [kalloc]; [k_pipes] maps the page's address to
    the fields.  A reader or writer that has to wait ends its run in
    [Sleeps] and goes on with its loop, [pipewrite_loop] with what is left to
    write, or [piperead_wait]. *)

From S2P Require Import Prelude KString Bytes Ring KState Riscv Spinlock Kalloc Vm Sched Uart Console.

Definition pipe_zero : pipe := mkPipe [] 0 0 false false.
Definition get_pipe (s : kstate) (pi : Z) : pipe := default pipe_zero (k_pipes s !! pi).
Definition upd_pipe (pi : Z) (f : pipe -> pipe) (s : kstate) : kstate :=
  set_k_pipes (<[pi := f (get_pipe s pi)]> (k_pipes s)) s.
Definition pipe_set (pi : Z) (f : pipe -> pipe) : K unit := modify (upd_pipe pi f).

(** The fields of a new pipe; [kalloc] filled the page with 5. *)
Definition pipe_new : pipe := mkPipe (replicate (Z.to_nat PIPESIZE) 5) 0 0 true true.

Definition pipeclose `{L : Layout} (pi : Z) (writable : bool) : K unit :=
  acquire (pipe_lock pi) ;;;
  (if writable then
     pipe_set pi (set_pi_writeopen false) ;;;
     wakeup (ch_nread pi)
   else
     pipe_set pi (set_pi_readopen false) ;;;
     wakeup (ch_nwrite pi)) ;;;
  let! p := gets (fun s => get_pipe s pi) in
  if negb (pi_readopen p) && negb (pi_writeopen p) then
    release (pipe_lock pi) ;;;
    modify (fun s => set_k_pipes (delete pi (k_pipes s)) s) ;;;
    kfree pi
  else release (pipe_lock pi).

(** [pipewrite] with the lock held, [i] bytes written and [k] to go. *)
Fixpoint pipewrite_loop (k : nat) (pi addr i : Z) : K Z :=
  match k with
  | O => wakeup (ch_nread pi) ;;; release (pipe_lock pi) ;;; ret i
  | S k =>
      let! pr := myproc_ in
      let! p := gets (fun s => get_pipe s pi) in
      let! dead := (if negb (pi_readopen p) then ret true
                    else let! kd := killed pr in ret (negb (kd =? 0))) in
      if dead then release (pipe_lock pi) ;;; ret (-1)
      else if pi_nwrite p =? u32 (pi_nread p + PIPESIZE) then
        wakeup (ch_nread pi) ;;;
        sleep_on (ch_nwrite pi) (pipe_lock pi)
      else
        let! pt := gets (fun s => p_pagetable (get_proc s pr)) in
        let! (r, ch) := copyin pt (u64 (addr + i)) 1 in
        if r =? -1 then wakeup (ch_nread pi) ;;; release (pipe_lock pi) ;;; ret i
        else
          pipe_set pi (fun p => set_pi_nwrite (u32 (pi_nwrite p + 1))
            (set_pi_data (<[Z.to_nat (pi_nwrite p mod PIPESIZE) := nth 0 ch 0]> (pi_data p)) p)) ;;;
          pipewrite_loop k pi addr (i + 1)
  end.

Definition pipewrite (pi addr n : Z) : K Z :=
  acquire (pipe_lock pi) ;;;
  pipewrite_loop (Z.to_nat n) pi addr 0.

(** The copying loop of [piperead]. *)
Fixpoint piperead_loop (k : nat) (pi addr i : Z) : K Z :=
  match k with
  | O => ret i
  | S k =>
      let! pr := myproc_ in
      let! p := gets (fun s => get_pipe s pi) in
      if pi_nread p =? pi_nwrite p then ret i
      else
        let ch := nth (Z.to_nat (pi_nread p mod PIPESIZE)) (pi_data p) 0 in
        pipe_set pi (set_pi_nread (u32 (pi_nread p + 1))) ;;;
        let! pt := gets (fun s => p_pagetable (get_proc s pr)) in
        let! r := copyout pt (u64 (addr + i)) [ch] in
        if r =? -1 then ret i
        else piperead_loop k pi addr (i + 1)
  end.

(** [piperead] from its [while] on, with the lock held. *)
Definition piperead_wait (pi addr n : Z) : K Z :=
  let! p := gets (fun s => get_pipe s pi) in
  if (pi_nread p =? pi_nwrite p) && pi_writeopen p then
    let! pr := myproc_ in
    let! kd := killed pr in
    if negb (kd =? 0) then release (pipe_lock pi) ;;; ret (-1)
    else sleep_on (ch_nread pi) (pipe_lock pi)
  else
    let! i := piperead_loop (Z.to_nat n) pi addr 0 in
    wakeup (ch_nwrite pi) ;;;
    release (pipe_lock pi) ;;;
    ret i.

Definition piperead (pi addr n : Z) : K Z :=
  acquire (pipe_lock pi) ;;;
  piperead_wait pi addr n.
