(* ===== verification/PipeFifo.v ===== *)
(** * Pipes are bounded byte queues

    The ring of a pipe holds the queue [pipe_queue].  One run of [pipewrite]
    appends a prefix of the writer's bytes to it, one run of [piperead] takes
    a prefix of it to the reader's memory; the theorems say which prefix, and
    what the call returns, for every state of the pipe and every user
    address. *)

From S2P Require Import Prelude KString Bytes Ring KState Riscv Spinlock Kalloc Vm VmTree VmMap VmSpace VmFree VmCopy.
From S2P Require Import Sched Uart Console Pipe.

(** ** The queue *)

Definition pipe_ok (p : pipe) : Prop := ring_ok PIPESIZE (2 ^ 32) (pi_data p) (pi_nread p) (pi_nwrite p).

Definition pipe_queue (s : kstate) (pi : Z) : list Z :=
  let p := get_pipe s pi in ring_list PIPESIZE (2 ^ 32) (pi_data p) (pi_nread p) (pi_nwrite p).

Lemma get_upd_pipe pi f s : get_pipe (upd_pipe pi f s) pi = f (get_pipe s pi).
Proof. unfold get_pipe at 1, upd_pipe. cbn [k_pipes set_k_pipes]. by rewrite lookup_insert_eq. Qed.

Lemma get_upd_pipe_ne pi pi' f s : pi' <> pi -> get_pipe (upd_pipe pi f s) pi' = get_pipe s pi'.
Proof. intros H. unfold get_pipe, upd_pipe. cbn [k_pipes set_k_pipes]. by rewrite lookup_insert_ne. Qed.

Lemma pipesize_divides : (PIPESIZE | 2 ^ 32).
Proof. by exists 8388608. Qed.

(** A slot is free: the next byte goes in. *)
Lemma pipe_push s pi c :
  pipe_ok (get_pipe s pi) -> pi_nwrite (get_pipe s pi) <> u32 (pi_nread (get_pipe s pi) + PIPESIZE) ->
  let s' := upd_pipe pi (fun p => set_pi_nwrite (u32 (pi_nwrite p + 1))
    (set_pi_data (<[Z.to_nat (pi_nwrite p mod PIPESIZE) := c]> (pi_data p)) p)) s in
  pipe_ok (get_pipe s' pi) /\ pipe_queue s' pi = pipe_queue s pi ++ [c].
Proof.
  intros H Hne s'. unfold pipe_queue, pipe_ok, s'. rewrite get_upd_pipe. cbn.
  apply ring_push; [done|done|exact pipesize_divides|exact H|].
  destruct H as [_ Hr Hw Hf]. apply Z.lt_eq_cases in Hf as [Hf|Hf]; [exact Hf|].
  exfalso. apply Hne. apply (ring_full PIPESIZE (2 ^ 32)); try done.
Qed.

Lemma pipe_full s pi :
  pipe_ok (get_pipe s pi) -> pi_nwrite (get_pipe s pi) = u32 (pi_nread (get_pipe s pi) + PIPESIZE) ->
  length (pipe_queue s pi) = Z.to_nat PIPESIZE.
Proof.
  intros H E. unfold pipe_queue. rewrite ring_length. f_equal.
  destruct H as [_ Hr Hw Hf]. by apply (ring_full PIPESIZE (2 ^ 32)).
Qed.

Lemma pipe_empty s pi :
  pipe_ok (get_pipe s pi) -> (pi_nread (get_pipe s pi) = pi_nwrite (get_pipe s pi) <-> pipe_queue s pi = []).
Proof.
  intros [_ Hr Hw Hf].
  assert (Hl := ring_length PIPESIZE (2 ^ 32) (pi_data (get_pipe s pi)) (pi_nread (get_pipe s pi)) (pi_nwrite (get_pipe s pi))).
  pose proof (ring_empty PIPESIZE (2 ^ 32) ltac:(done) ltac:(done) _ _ Hr Hw) as He.
  pose proof (ring_len_range PIPESIZE (2 ^ 32) ltac:(done) ltac:(done) (pi_nread (get_pipe s pi)) (pi_nwrite (get_pipe s pi))) as Hlr.
  unfold pipe_queue. split.
  - intros E. apply nil_length_inv. rewrite Hl. assert (E0 := proj1 He (eq_sym E)). lia.
  - intros E. rewrite E in Hl. cbn [length] in Hl. symmetry. apply He. lia.
Qed.

Lemma pipe_pop s pi c q :
  pipe_ok (get_pipe s pi) -> pipe_queue s pi = c :: q ->
  let s' := upd_pipe pi (set_pi_nread (u32 (pi_nread (get_pipe s pi) + 1))) s in
  c = nth (Z.to_nat (pi_nread (get_pipe s pi) mod PIPESIZE)) (pi_data (get_pipe s pi)) 0 /\
  pipe_ok (get_pipe s' pi) /\ pipe_queue s' pi = q.
Proof.
  intros H E s'. unfold pipe_queue, pipe_ok, s' in *. rewrite get_upd_pipe. cbn.
  assert (Hl := ring_length PIPESIZE (2 ^ 32) (pi_data (get_pipe s pi)) (pi_nread (get_pipe s pi)) (pi_nwrite (get_pipe s pi))).
  rewrite E in Hl. cbn [length] in Hl.
  destruct (ring_pop PIPESIZE (2 ^ 32) ltac:(done) ltac:(done) pipesize_divides _ _ _ H) as [H1 H2]; [lia|].
  rewrite E in H2. injection H2 as H2 H3. split; [exact H2|]. split; [exact H1|]. symmetry. exact H3.
Qed.

(** ** A process at a pipe *)

Section Fifo.
Context {L : Layout}.

(** Process [i], with address space [pt] of [n] pages, uses pipe [pi]. *)
Record at_pipe (pi : Z) (i : nat) (pt : Z) (n : nat) (s : kstate) (free : list Z) : Prop := {
  ap_cur : k_cur s = Some i;
  ap_proc : (i < NPROC)%nat;
  ap_table : length (k_procs s) = NPROC;
  ap_pt : p_pagetable (get_proc s i) = pt;
  ap_space : uspace pt n s free;
  ap_pipe : pipe_ok (get_pipe s pi)
}.

Lemma uspace_mem pt n s s' free :
  k_mem s' = k_mem s -> k_freelist s' = k_freelist s -> (kmem_lock ∉ k_held s') ->
  uspace pt n s free -> uspace pt n s' free.
Proof.
  intros Em Ef Hl [[[[I1 I2 I3] _ T1 T2 T3] A1 A2 A3 A4 A5 A6] Ht]. split; rewrite ?Em; [|done].
  split; rewrite ?Em; try done. split; rewrite ?Em; try done. split; rewrite ?Em, ?Ef; done.
Qed.

Lemma killed_eq i s : (proc_lock i ∉ k_held s) -> killed i s = Ok (p_killed (get_proc s i)) s.
Proof.
  intros H. unfold killed. rewrite bind_acquire by done. rewrite bind_gets.
  rewrite (bind_release _ (k_held s)) by done. reflexivity.
Qed.

(** Nobody but [i] sleeps on [ch]. *)
Definition nobody_asleep (i : nat) (ch : chan) (s : kstate) : Prop :=
  forall j, j <> i -> ~ (p_state (get_proc s j) = SLEEPING /\ p_chan (get_proc s j) = Some ch).

Lemma wake_all_nobody ch i s : k_cur s = Some i -> nobody_asleep i ch (wake_all ch s).
Proof.
  intros Hc j Hj. unfold get_proc, wake_all. cbn [k_procs set_k_procs]. rewrite list_lookup_imap.
  destruct (k_procs s !! j) as [p|]; [|simpl; by intros []]. cbn [fmap option_fmap option_map default].
  rewrite bool_decide_eq_false_2 by congruence. unfold wake, id.
  destruct (bool_decide_reflect (p_state p = SLEEPING)), (bool_decide_reflect (p_chan p = Some ch));
    cbn [andb]; [by intros []|tauto|tauto|tauto].
Qed.

Lemma wake_all_cur ch i s : k_cur s = Some i -> get_proc (wake_all ch s) i = get_proc s i.
Proof.
  intros Hc. unfold get_proc, wake_all. cbn [k_procs set_k_procs]. rewrite list_lookup_imap.
  destruct (k_procs s !! i) as [p|]; [|done]. simpl. by rewrite bool_decide_eq_true_2.
Qed.

(** A state that differs in the pipe, in processes woken and in the locks. *)
Lemma at_pipe_frame pi i pt n s s' free :
  at_pipe pi i pt n s free -> k_cur s' = Some i -> length (k_procs s') = NPROC ->
  p_pagetable (get_proc s' i) = pt -> k_mem s' = k_mem s -> k_freelist s' = k_freelist s ->
  (kmem_lock ∉ k_held s') -> pipe_ok (get_pipe s' pi) -> at_pipe pi i pt n s' free.
Proof. intros A H1 H2 H3 H4 H5 H6 H7. split; try done; [apply A|]. eapply uspace_mem; [done..|apply A]. Qed.

(** ** Writing *)

(** From [s] to [s'] the [d] user bytes at [va] were appended to the queue;
    readers were woken; the rest of the pipe, the other pipes and the memory
    are the same. *)
Record appended (pi : Z) (i : nat) (pt : Z) (n : nat) (va : Z) (d : nat) (s s' : kstate) (free : list Z) : Prop := {
  wp_queue : pipe_queue s' pi = pipe_queue s pi ++ ubytes (k_mem s) pt va d;
  wp_ok : forall j, (j < d)%nat -> uok (k_mem s) pt (va + Z.of_nat j);
  wp_mem : k_mem s' = k_mem s;
  wp_at : at_pipe pi i pt n s' free;
  wp_others : forall pi', pi' <> pi -> get_pipe s' pi' = get_pipe s pi';
  wp_open : pi_readopen (get_pipe s' pi) = pi_readopen (get_pipe s pi) /\
            pi_writeopen (get_pipe s' pi) = pi_writeopen (get_pipe s pi);
  wp_woken : nobody_asleep i (ch_nread pi) s'
}.

(** How a run with [k] bytes to go may end, after [d] bytes. *)
Definition write_end (o : outcome kstate Z) (pi : Z) (i : nat) (pt va j : Z) (k d : nat) (s' : kstate) : Prop :=
  (d = k /\ o = Ok (j + Z.of_nat d) s' /\ k_held s' = []) \/
  ((d < k)%nat /\ ~ uok (k_mem s') pt (va + Z.of_nat d) /\ o = Ok (j + Z.of_nat d) s' /\ k_held s' = []) \/
  ((d < k)%nat /\ length (pipe_queue s' pi) = Z.to_nat PIPESIZE /\ o = Sleeps s' /\
     p_state (get_proc s' i) = SLEEPING /\ p_chan (get_proc s' i) = Some (ch_nwrite pi)).

(** The common end: wake the readers and release the lock. *)
Lemma pipe_leave ch pi i pt n s free (r : Z) :
  at_pipe pi i pt n s free -> k_held s = [pipe_lock pi] ->
  (wakeup ch ;;; release (pipe_lock pi) ;;; ret r) s = Ok r (set_k_held [] (wake_all ch s)) /\
  at_pipe pi i pt n (set_k_held [] (wake_all ch s)) free.
Proof.
  intros A Hh. assert (E : wakeup ch s = Ok tt (wake_all ch s)).
  { apply wakeup_eq; [apply A|]. intros x _. rewrite Hh. by rewrite list_elem_of_singleton. }
  rewrite (bind_ok _ _ _ _ _ E), (bind_release _ []) by (exact Hh || apply not_elem_of_nil).
  split; [done|]. eapply at_pipe_frame; [exact A|apply A| |..].
  - unfold wake_all. cbn. rewrite length_imap. apply A.
  - rewrite get_proc_held, wake_all_cur; apply A.
  - done.
  - done.
  - apply not_elem_of_nil.
  - apply A.
Qed.

Lemma at_pipe_push pi i pt n s free c :
  at_pipe pi i pt n s free -> k_held s = [pipe_lock pi] ->
  pi_nwrite (get_pipe s pi) <> u32 (pi_nread (get_pipe s pi) + PIPESIZE) ->
  at_pipe pi i pt n (upd_pipe pi (fun p => set_pi_nwrite (u32 (pi_nwrite p + 1))
    (set_pi_data (<[Z.to_nat (pi_nwrite p mod PIPESIZE) := c]> (pi_data p)) p)) s) free.
Proof.
  intros A Hh Hne.
  eapply at_pipe_frame; [exact A|apply A|apply A|exact (ap_pt _ _ _ _ _ _ A)|reflexivity|reflexivity| |].
  - change (kmem_lock ∉ k_held s). rewrite Hh, list_elem_of_singleton. done.
  - apply pipe_push; [apply A|exact Hne].
Qed.

(** Going to sleep in the pipe. *)
Lemma pipe_sleep {A} ch pi i pt n s free :
  at_pipe pi i pt n s free -> k_held s = [pipe_lock pi] ->
  sleep_on (A := A) ch (pipe_lock pi) s = Sleeps (asleep ch i s) /\
  at_pipe pi i pt n (asleep ch i s) free /\
  p_state (get_proc (asleep ch i s) i) = SLEEPING /\ p_chan (get_proc (asleep ch i s) i) = Some ch.
Proof.
  intros Hat Hh. assert (Hi : (i < length (k_procs s))%nat) by (rewrite (ap_table _ _ _ _ _ _ Hat); apply Hat).
  assert (E : sleep ch (pipe_lock pi) s = Sleeps (asleep ch i s)) by (apply sleep_eq; [apply Hat|done|done|done]).
  assert (G : get_proc (asleep ch i s) i = set_p_state SLEEPING (set_p_chan (Some ch) (get_proc s i))).
  { unfold asleep. rewrite get_proc_held. by rewrite get_upd_same. }
  split; [unfold sleep_on, bind; by rewrite E|]. split; [|by rewrite G].
  eapply at_pipe_frame; [exact Hat|apply Hat| |rewrite G; apply Hat|done|done| |apply Hat].
  - unfold asleep. cbn [k_procs set_k_held]. rewrite length_upd_proc. apply Hat.
  - cbn. by rewrite list_elem_of_singleton.
Qed.

(** Nothing appended: leaving, or going to sleep. *)
Lemma appended_leave pi i pt n va s free :
  at_pipe pi i pt n s free -> k_held s = [pipe_lock pi] ->
  appended pi i pt n va 0 s (set_k_held [] (wake_all (ch_nread pi) s)) free.
Proof.
  intros A Hh. destruct (pipe_leave (ch_nread pi) _ _ _ _ _ _ 0 A Hh) as [_ A'].
  split; try done; [by rewrite app_nil_r|lia|].
  intros j. rewrite get_proc_held. apply wake_all_nobody, A.
Qed.

Lemma appended_sleep pi i pt n va s free :
  at_pipe pi i pt n s free -> k_held s = [pipe_lock pi] ->
  (wakeup (ch_nread pi) ;;; sleep_on (A := Z) (ch_nwrite pi) (pipe_lock pi)) s =
    Sleeps (asleep (ch_nwrite pi) i (wake_all (ch_nread pi) s)) /\
  appended pi i pt n va 0 s (asleep (ch_nwrite pi) i (wake_all (ch_nread pi) s)) free /\
  p_state (get_proc (asleep (ch_nwrite pi) i (wake_all (ch_nread pi) s)) i) = SLEEPING /\
  p_chan (get_proc (asleep (ch_nwrite pi) i (wake_all (ch_nread pi) s)) i) = Some (ch_nwrite pi).
Proof.
  intros A Hh. assert (E : wakeup (ch_nread pi) s = Ok tt (wake_all (ch_nread pi) s)).
  { apply wakeup_eq; [apply A|]. intros x _. rewrite Hh. by rewrite list_elem_of_singleton. }
  set (s1 := wake_all (ch_nread pi) s) in *.
  assert (A1 : at_pipe pi i pt n s1 free).
  { eapply at_pipe_frame; [exact A|apply A| | |reflexivity|reflexivity| |apply A].
    - unfold s1, wake_all. cbn. rewrite length_imap. apply A.
    - unfold s1. rewrite wake_all_cur; apply A.
    - change (kmem_lock ∉ k_held s). by rewrite Hh, list_elem_of_singleton. }
  destruct (pipe_sleep (A := Z) (ch_nwrite pi) _ _ _ _ _ _ A1 Hh) as (E2 & A2 & Hs & Hc).
  rewrite (bind_ok _ _ _ _ _ E). split; [exact E2|]. split; [|done].
  split; try done; [by rewrite app_nil_r|lia|].
  intros j Hj. unfold asleep. rewrite get_proc_held, get_upd_other by congruence.
  exact (wake_all_nobody _ _ _ (ap_cur _ _ _ _ _ _ A) j Hj).
Qed.

Lemma appended_cons pi i pt n va d s s' free :
  at_pipe pi i pt n s free -> k_held s = [pipe_lock pi] -> uok (k_mem s) pt va ->
  pi_nwrite (get_pipe s pi) <> u32 (pi_nread (get_pipe s pi) + PIPESIZE) ->
  appended pi i pt n (va + 1) d (upd_pipe pi (fun p => set_pi_nwrite (u32 (pi_nwrite p + 1))
    (set_pi_data (<[Z.to_nat (pi_nwrite p mod PIPESIZE) := uread (k_mem s) pt va]> (pi_data p)) p)) s) s' free ->
  appended pi i pt n va (S d) s s' free.
Proof.
  intros A Hh Hok Hne W.
  destruct (pipe_push s pi (uread (k_mem s) pt va) (ap_pipe _ _ _ _ _ _ A) Hne) as [_ Hq].
  cbv zeta in Hq. split.
  - rewrite (wp_queue _ _ _ _ _ _ _ _ _ W), Hq, <- app_assoc. f_equal.
    change (S d) with (1 + d)%nat. rewrite ubytes_app. cbn. by rewrite Z.add_0_r.
  - intros [|j] Hj; [by rewrite Z.add_0_r|]. replace (va + Z.of_nat (S j)) with (va + 1 + Z.of_nat j) by lia.
    apply (wp_ok _ _ _ _ _ _ _ _ _ W). lia.
  - apply (wp_mem _ _ _ _ _ _ _ _ _ W).
  - apply W.
  - intros pi' H. rewrite (wp_others _ _ _ _ _ _ _ _ _ W pi' H). by apply get_upd_pipe_ne.
  - destruct (wp_open _ _ _ _ _ _ _ _ _ W) as [-> ->]. by rewrite get_upd_pipe.
  - apply W.
Qed.

Lemma copyin1_eq {LO : LayoutOk L} pt n s free va :
  uspace pt n s free -> 0 <= va ->
  copyin pt va 1 s = Ok (if decide (uok (k_mem s) pt va) then (0, [uread (k_mem s) pt va]) else (-1, [])) s.
Proof.
  intros U Hva. destruct (copyin_loop_spec 1 pt n s free va 1 U Hva) as (k & r & E & Hok & Hr); [lia|].
  unfold copyin. change (Z.to_nat 1) with 1%nat. rewrite E.
  destruct Hr as [(-> & Hk)|(-> & Hk & Hno)].
  - assert (k = 1%nat) as -> by lia. specialize (Hok 0%nat ltac:(lia)). rewrite Z.add_0_r in Hok.
    rewrite decide_True by done. cbn. by rewrite Z.add_0_r.
  - assert (k = 0%nat) as -> by lia. rewrite Z.add_0_r in Hno. by rewrite decide_False.
Qed.

Lemma pipewrite_loop_spec {LO : LayoutOk L} k pi i pt n addr j s free :
  at_pipe pi i pt n s free -> k_held s = [pipe_lock pi] ->
  0 <= addr -> 0 <= j -> addr + j + Z.of_nat k <= 2 ^ 64 ->
  pi_readopen (get_pipe s pi) = true -> p_killed (get_proc s i) = 0 ->
  exists d s', appended pi i pt n (addr + j) d s s' free /\
    write_end (pipewrite_loop k pi addr j s) pi i pt (addr + j) j k d s'.
Proof.
  revert j s. induction k as [|k IH]; intros j s A Hh Ha Hj Hb Ho Hk.
  { exists 0%nat, (set_k_held [] (wake_all (ch_nread pi) s)). split; [by apply appended_leave|].
    left. rewrite Z.add_0_r. split; [done|]. split; [|done].
    apply (pipe_leave (ch_nread pi) _ _ _ _ _ _ j A Hh). }
  cbn [pipewrite_loop]. rewrite (bind_myproc_ _ i) by apply A. rewrite bind_gets, Ho. cbn [negb].
  assert (Hpl : proc_lock i ∉ k_held s) by (by rewrite Hh, list_elem_of_singleton).
  rewrite bind_assoc, (bind_ok _ _ _ _ _ (killed_eq i s Hpl)), bind_ret, Hk. cbn [Z.eqb negb].
  destruct (Z.eqb_spec (pi_nwrite (get_pipe s pi)) (u32 (pi_nread (get_pipe s pi) + PIPESIZE))) as [Ef|Hne].
  { destruct (appended_sleep pi i pt n (addr + j) s free A Hh) as (E & W & Hs & Hc).
    exists 0%nat, (asleep (ch_nwrite pi) i (wake_all (ch_nread pi) s)). split; [exact W|].
    right. right. split; [lia|]. split; [|by repeat split]. by apply pipe_full; [apply A|]. }
  rewrite bind_gets, (ap_pt _ _ _ _ _ _ A). rewrite (u64_small (addr + j)) by lia.
  rewrite (bind_ok _ _ _ _ _ (copyin1_eq pt n s free (addr + j) (ap_space _ _ _ _ _ _ A) ltac:(lia))).
  destruct (decide (uok (k_mem s) pt (addr + j))) as [Hok|Hno].
  - cbn [Z.eqb nth]. unfold pipe_set. rewrite bind_modify.
    set (s1 := upd_pipe _ _ s).
    destruct (IH (j + 1) s1) as (d & s' & W & He).
    + by apply at_pipe_push.
    + exact Hh.
    + lia.
    + lia.
    + lia.
    + unfold s1. rewrite get_upd_pipe. exact Ho.
    + exact Hk.
    + rewrite Z.add_assoc in W. exists (S d), s'. split; [by eapply appended_cons|].
      unfold write_end in *.
      replace (addr + (j + 1) + Z.of_nat d) with (addr + j + Z.of_nat (S d)) in He by lia.
      replace (j + 1 + Z.of_nat d) with (j + Z.of_nat (S d)) in He by lia.
      destruct He as [(H1 & H2)|[(H1 & H2)|(H1 & H2)]]; [left|right; left|right; right]; (split; [lia|exact H2]).
  - cbn [Z.eqb]. exists 0%nat, (set_k_held [] (wake_all (ch_nread pi) s)). split; [by apply appended_leave|].
    right. left. split; [lia|]. rewrite !Z.add_0_r. split; [exact Hno|]. split; [|done].
    apply (pipe_leave (ch_nread pi) _ _ _ _ _ _ j A Hh).
Qed.

(** ** Reading *)

(** The bytes [bs] were stored at the user addresses from [va] on; of the
    memory nothing else changed, and of the pipe only the queue. *)
Record delivered (pi : Z) (i : nat) (pt : Z) (n : nat) (va : Z) (bs : list Z) (s s' : kstate) (free : list Z) : Prop := {
  dl_bytes : ubytes (k_mem s') pt va (length bs) = u8 <$> bs;
  dl_ok : forall j, (j < length bs)%nat -> uok (k_mem s) pt (va + Z.of_nat j);
  dl_pte : forall x, pte_of 2 (k_mem s') pt x = pte_of 2 (k_mem s) pt x;
  dl_rest : forall a, (forall j, (j < length bs)%nat -> a <> upa (k_mem s) pt (va + Z.of_nat j)) ->
    rd (k_mem s') a = rd (k_mem s) a;
  dl_at : at_pipe pi i pt n s' free;
  dl_others : forall pi', pi' <> pi -> get_pipe s' pi' = get_pipe s pi';
  dl_open : pi_readopen (get_pipe s' pi) = pi_readopen (get_pipe s pi) /\
            pi_writeopen (get_pipe s' pi) = pi_writeopen (get_pipe s pi)
}.

Lemma delivered_nil pi i pt n va s s' free :
  at_pipe pi i pt n s' free -> k_mem s' = k_mem s -> k_pipes s' = k_pipes s -> delivered pi i pt n va [] s s' free.
Proof.
  intros A Em Ep. split; rewrite ?Em; try done.
  - cbn; lia.
  - intros. unfold get_pipe. by rewrite Ep.
  - unfold get_pipe. by rewrite Ep.
Qed.

Lemma copyout1_eq {LO : LayoutOk L} pt n s free va c :
  uspace pt n s free -> 0 <= va ->
  (uok (k_mem s) pt va /\ exists s', copyout pt va [c] s = Ok 0 s' /\ uwrite pt n s free va [c] 1 s') \/
  (~ uok (k_mem s) pt va /\ copyout pt va [c] s = Ok (-1) s).
Proof.
  intros U Hva. unfold copyout. destruct (copyout_loop_spec 1 pt n s free va [c] U Hva) as (k & s' & W & Hr); [done|].
  destruct Hr as [(-> & E)|(Hk & Hno & E)].
  - left. pose proof (uw_ok _ _ _ _ _ _ _ _ W 0%nat Nat.lt_0_1) as H. rewrite Z.add_0_r in H.
    split; [done|]. by exists s'.
  - right. cbn in Hk. assert (k = 0%nat) as -> by lia. rewrite Z.add_0_r in Hno. split; [done|].
    change (length [c]) with 1%nat. cbn [copyout_loop] in E |- *.
    rewrite (bind_ok _ _ _ _ _ (walkaddr_eq pt (PGROUNDDOWN va) s (tb_pages _ _ _ (as_table _ _ _ _ (us_space _ _ _ _ U))))).
    destruct (Z.eqb_spec (upage (k_mem s) pt (PGROUNDDOWN va)) 0) as [|Hne]; [done|by elim Hno].
Qed.

Lemma upa_next pt n s free va j :
  uspace pt n s free -> 0 <= va -> uok (k_mem s) pt va -> uok (k_mem s) pt (va + 1 + Z.of_nat j) ->
  upa (k_mem s) pt va <> upa (k_mem s) pt (va + 1 + Z.of_nat j).
Proof.
  intros U Hva H1 H2 E. destruct (uok_page _ _ _ _ _ U Hva H1) as (Hr1 & _).
  destruct (uok_page _ _ _ _ (va + 1 + Z.of_nat j) U ltac:(lia) H2) as (Hr2 & _).
  apply (upa_inj _ _ _ _ _ _ U Hr1 Hr2) in E. lia.
Qed.

Lemma delivered_cons pi i pt n va c bs s s1 s2 s' free :
  uspace pt n s free -> 0 <= va -> k_mem s1 = k_mem s ->
  (forall pi', pi' <> pi -> get_pipe s1 pi' = get_pipe s pi') ->
  pi_readopen (get_pipe s1 pi) = pi_readopen (get_pipe s pi) ->
  pi_writeopen (get_pipe s1 pi) = pi_writeopen (get_pipe s pi) ->
  uwrite pt n s1 free va [c] 1 s2 -> delivered pi i pt n (va + 1) bs s2 s' free ->
  delivered pi i pt n va (c :: bs) s s' free.
Proof.
  intros U Hva Em Hot Hro Hwo [W1 W2 W3 W4 W5 W6] [D1 D2 D3 D4 D5 D6 D7]. rewrite Em in *.
  assert (Hupa : forall x, upa (k_mem s2) pt x = upa (k_mem s) pt x) by (intros x; by apply upa_agree).
  assert (Hok : forall j, (j < S (length bs))%nat -> uok (k_mem s) pt (va + Z.of_nat j)).
  { intros [|j] Hj; [apply W4; lia|]. specialize (D2 j ltac:(lia)). rewrite (uok_agree (k_mem s)) in D2 by done.
    by replace (va + Z.of_nat (S j)) with (va + 1 + Z.of_nat j) by lia. }
  assert (Hp2 : k_pipes s2 = k_pipes s1) by (by rewrite W1).
  split; cbn [length]; try done.
  - change (S (length bs)) with (1 + length bs)%nat. rewrite ubytes_app. change (Z.of_nat 1) with 1. rewrite D1.
    cbn. f_equal. rewrite Z.add_0_r. specialize (W5 0%nat c ltac:(lia) eq_refl). rewrite Z.add_0_r in W5. rewrite <- W5.
    unfold uread. rewrite (upa_agree (k_mem s2)) by done. apply D4. intros j Hj. rewrite !Hupa.
    eapply (upa_next pt n s free); [done|done| |].
    + specialize (Hok 0%nat ltac:(lia)). by rewrite Z.add_0_r in Hok.
    + specialize (Hok (S j) ltac:(lia)). by replace (va + 1 + Z.of_nat j) with (va + Z.of_nat (S j)) by lia.
  - intros x. by rewrite D3, W3.
  - intros a Ha. rewrite D4; [apply W6|].
    + intros j Hj. assert (j = 0%nat) as -> by lia. apply Ha. lia.
    + intros j Hj. rewrite Hupa. replace (va + 1 + Z.of_nat j) with (va + Z.of_nat (S j)) by lia. apply Ha. lia.
  - intros pi' Hne. rewrite D6 by done. unfold get_pipe at 1. rewrite Hp2. by apply Hot.
  - destruct D7 as [-> ->]. unfold get_pipe at 1 3. rewrite Hp2. done.
Qed.

(** After [d] bytes of a run with room for [k]: all there was, or one byte
    less than was taken from the queue. *)
Definition read_end (pi pt va : Z) (k d : nat) (s s' : kstate) : Prop :=
  let q := pipe_queue s pi in
  (d = Nat.min k (length q) /\ pipe_queue s' pi = drop d q) \/
  ((d < Nat.min k (length q))%nat /\ ~ uok (k_mem s) pt (va + Z.of_nat d) /\ pipe_queue s' pi = drop (S d) q).

Lemma at_pipe_pop {LO : LayoutOk L} pi i pt n s free c q :
  at_pipe pi i pt n s free -> k_held s = [pipe_lock pi] -> pipe_queue s pi = c :: q ->
  at_pipe pi i pt n (upd_pipe pi (set_pi_nread (u32 (pi_nread (get_pipe s pi) + 1))) s) free.
Proof.
  intros A Hh Hq. destruct (pipe_pop s pi c q (ap_pipe _ _ _ _ _ _ A) Hq) as (_ & Hok & _).
  eapply at_pipe_frame; [exact A|apply A|apply A|exact (ap_pt _ _ _ _ _ _ A)|reflexivity|reflexivity| |exact Hok].
  change (kmem_lock ∉ k_held s). by rewrite Hh, list_elem_of_singleton.
Qed.

Lemma at_pipe_uwrite pi i pt n s s' free va bs k :
  at_pipe pi i pt n s free -> uwrite pt n s free va bs k s' -> at_pipe pi i pt n s' free.
Proof. intros [A1 A2 A3 A4 A5 A6] [W1 W2 _ _ _ _]. split; try done; rewrite W1; done. Qed.

Lemma piperead_loop_spec {LO : LayoutOk L} k pi i pt n addr j s free :
  at_pipe pi i pt n s free -> k_held s = [pipe_lock pi] ->
  0 <= addr -> 0 <= j -> addr + j + Z.of_nat k <= 2 ^ 64 ->
  exists d s', piperead_loop k pi addr j s = Ok (j + Z.of_nat d) s' /\
    k_held s' = [pipe_lock pi] /\ k_procs s' = k_procs s /\
    delivered pi i pt n (addr + j) (take d (pipe_queue s pi)) s s' free /\
    read_end pi pt (addr + j) k d s s'.
Proof.
  revert j s. induction k as [|k IH]; intros j s A Hh Ha Hj Hb.
  { exists 0%nat, s. rewrite Z.add_0_r. split; [done|]. split; [done|]. split; [done|].
    split; [by apply delivered_nil|]. left. done. }
  cbn [piperead_loop]. rewrite (bind_myproc_ _ i) by apply A. rewrite bind_gets.
  pose proof (pipe_empty s pi (ap_pipe _ _ _ _ _ _ A)) as Hem.
  destruct (Z.eqb_spec (pi_nread (get_pipe s pi)) (pi_nwrite (get_pipe s pi))) as [E|Hne].
  { apply Hem in E. exists 0%nat, s. rewrite Z.add_0_r. split; [done|]. split; [done|]. split; [done|].
    split; [by apply delivered_nil|]. left. rewrite E. done. }
  unfold read_end. destruct (pipe_queue s pi) as [|c q] eqn:Hq; [by elim Hne; apply Hem|]. clear Hem Hne.
  destruct (pipe_pop s pi c q (ap_pipe _ _ _ _ _ _ A) Hq) as (Hc & _ & Hq1). cbv zeta in Hq1. rewrite <- Hc.
  pose proof (at_pipe_pop pi i pt n s free c q A Hh Hq) as A1.
  unfold pipe_set. rewrite bind_modify. set (s1 := upd_pipe pi _ s) in *.
  rewrite bind_gets, (ap_pt _ _ _ _ _ _ A1), (u64_small (addr + j)) by lia.
  destruct (copyout1_eq pt n s1 free (addr + j) c (ap_space _ _ _ _ _ _ A1)) as [(Hok & s2 & E2 & W)|(Hno & E2)]; [lia| |].
  - rewrite (bind_ok _ _ _ _ _ E2). cbn [Z.eqb].
    assert (H2 : k_held s2 = [pipe_lock pi] /\ k_procs s2 = k_procs s /\ pipe_queue s2 pi = q).
    { unfold pipe_queue, get_pipe. rewrite (uw_state _ _ _ _ _ _ _ _ W). done. }
    destruct H2 as (Hh2 & Hp2 & Hq2).
    destruct (IH (j + 1) s2 (at_pipe_uwrite _ _ _ _ _ _ _ _ _ _ A1 W) Hh2 ltac:(lia) ltac:(lia) ltac:(lia))
      as (d & s' & E & Hh' & Hp' & D & R).
    exists (S d), s'. rewrite E. split; [f_equal; lia|]. split; [done|]. split; [congruence|].
    rewrite Hq2, Z.add_assoc in D. split.
    + cbn [take]. eapply (delivered_cons _ _ _ _ _ _ _ s s1 s2); [apply A|lia|done| | | |exact W|exact D].
      * intros pi' Hne. by apply get_upd_pipe_ne.
      * unfold s1. by rewrite get_upd_pipe.
      * unfold s1. by rewrite get_upd_pipe.
    + unfold read_end in R. cbv zeta in R. rewrite Hq2 in R. cbn [length drop].
      destruct R as [[R1 R2]|(R1 & R2 & R3)]; [left; split; [lia|done]|right].
      split; [lia|]. split; [|done]. rewrite (uok_agree (k_mem s)) in R2 by apply W.
      by replace (addr + j + Z.of_nat (S d)) with (addr + (j + 1) + Z.of_nat d) by lia.
  - rewrite (bind_ok _ _ _ _ _ E2). cbn [Z.eqb]. exists 0%nat, s1. rewrite !Z.add_0_r.
    split; [done|]. split; [exact Hh|]. split; [done|]. split.
    + split; try done; [cbn; lia| |unfold s1; by rewrite get_upd_pipe].
      intros pi' Hne. by apply get_upd_pipe_ne.
    + right. cbn [length drop]. split; [lia|]. split; [exact Hno|exact Hq1].
Qed.

(** ** The contracts *)

(** [C31] [pipewrite] appends to the queue.  If the read end is closed or the
    process was killed, it returns -1 with nothing written.  Otherwise some
    prefix of the user's bytes is appended in order, the sleeping readers are
    woken, and the call returns the number of bytes written: all of them, or
    the ones before the first inaccessible address; or it sleeps with the
    queue full (512 bytes).  The counters may wrap at 2^32. *)
Theorem pipewrite_fifo {LO : LayoutOk L} (pi : Z) (i : nat) (pt : Z) (n : nat) (addr len : Z) (s : kstate) (free : list Z) :
  at_pipe pi i pt n s free -> k_held s = [] -> 0 <= addr -> 0 < len -> addr + len <= 2 ^ 64 ->
  if negb (pi_readopen (get_pipe s pi)) || negb (p_killed (get_proc s i) =? 0) then
    pipewrite pi addr len s = Ok (-1) s
  else exists d s', appended pi i pt n addr d s s' free /\
    write_end (pipewrite pi addr len s) pi i pt addr 0 (Z.to_nat len) d s'.
Proof.
  intros A Hh Ha Hl Hb. unfold pipewrite. rewrite bind_acquire by (rewrite Hh; apply not_elem_of_nil). rewrite Hh.
  set (s0 := set_k_held [pipe_lock pi] s).
  assert (Eid : set_k_held [] s = s) by (rewrite <- Hh; reflexivity).
  assert (A0 : at_pipe pi i pt n s0 free).
  { eapply at_pipe_frame; [exact A|apply A|apply A|exact (ap_pt _ _ _ _ _ _ A)|reflexivity|reflexivity| |apply A].
    cbn. by rewrite list_elem_of_singleton. }
  destruct (pi_readopen (get_pipe s pi)) eqn:Ho; [destruct (Z.eqb_spec (p_killed (get_proc s i)) 0) as [Hk|Hk]|]; cbn [negb orb].
  - destruct (pipewrite_loop_spec (Z.to_nat len) pi i pt n addr 0 s0 free A0) as (d & s' & W & E); try done; [lia|].
    rewrite Z.add_0_r in W, E. exists d, s'. split; [|exact E]. destruct W. by split.
  - destruct (Z.to_nat len) as [|k] eqn:Ek; [lia|]. cbn [pipewrite_loop].
    rewrite (bind_myproc_ _ i) by apply A. rewrite bind_gets. change (get_pipe s0 pi) with (get_pipe s pi). rewrite Ho. cbn [negb].
    rewrite bind_assoc, (bind_ok _ _ _ _ _ (killed_eq i s0 ltac:(cbn; by rewrite list_elem_of_singleton))), bind_ret.
    change (get_proc s0 i) with (get_proc s i). rewrite (proj2 (Z.eqb_neq _ _) Hk). cbn [negb].
    rewrite (bind_release _ []) by (reflexivity || apply not_elem_of_nil). unfold ret, s0. by rewrite <- Eid at 2.
  - destruct (Z.to_nat len) as [|k] eqn:Ek; [lia|]. cbn [pipewrite_loop].
    rewrite (bind_myproc_ _ i) by apply A. rewrite bind_gets. change (get_pipe s0 pi) with (get_pipe s pi). rewrite Ho. cbn [negb].
    rewrite bind_ret, (bind_release _ []) by (reflexivity || apply not_elem_of_nil). unfold ret, s0. by rewrite <- Eid at 2.
Qed.

(** [C32] [piperead] takes from the queue.  While the queue is empty and the write
    end open, it sleeps, or returns -1 if the process was killed.  Otherwise
    it stores the oldest bytes, in order, in the user's memory and nowhere
    else, and returns how many: as many as there are and as fit, so 0 at the
    end of the stream; or those before the first inaccessible address, and
    then the byte it could not store is gone from the pipe. *)
Theorem piperead_fifo {LO : LayoutOk L} (pi : Z) (i : nat) (pt : Z) (n : nat) (addr len : Z) (s : kstate) (free : list Z) :
  at_pipe pi i pt n s free -> k_held s = [] -> 0 <= addr -> 0 <= len -> addr + len <= 2 ^ 64 ->
  if bool_decide (pipe_queue s pi = []) && pi_writeopen (get_pipe s pi) then
    if p_killed (get_proc s i) =? 0
    then piperead pi addr len s = Sleeps (asleep (ch_nread pi) i (set_k_held [pipe_lock pi] s))
    else piperead pi addr len s = Ok (-1) s
  else exists d s', piperead pi addr len s = Ok (Z.of_nat d) s' /\ k_held s' = [] /\
    delivered pi i pt n addr (take d (pipe_queue s pi)) s s' free /\
    read_end pi pt addr (Z.to_nat len) d s s' /\ nobody_asleep i (ch_nwrite pi) s'.
Proof.
  intros A Hh Ha Hl Hb. unfold piperead, piperead_wait.
  rewrite bind_acquire by (rewrite Hh; apply not_elem_of_nil). rewrite Hh.
  set (s0 := set_k_held [pipe_lock pi] s).
  assert (Eid : set_k_held [] s = s) by (rewrite <- Hh; reflexivity).
  assert (A0 : at_pipe pi i pt n s0 free).
  { eapply at_pipe_frame; [exact A|apply A|apply A|exact (ap_pt _ _ _ _ _ _ A)|reflexivity|reflexivity| |apply A].
    cbn. by rewrite list_elem_of_singleton. }
  rewrite bind_gets. change (get_pipe s0 pi) with (get_pipe s pi).
  replace (pi_nread (get_pipe s pi) =? pi_nwrite (get_pipe s pi)) with (bool_decide (pipe_queue s pi = [])).
  2:{ pose proof (pipe_empty s pi (ap_pipe _ _ _ _ _ _ A)). apply eq_bool_prop_intro.
      rewrite bool_decide_spec, <- H. split; [intros ->; by rewrite Z.eqb_refl|]. intros E. by apply Z.eqb_eq, Is_true_true. }
  destruct (bool_decide (pipe_queue s pi = []) && pi_writeopen (get_pipe s pi)).
  - rewrite (bind_myproc_ _ i) by apply A.
    rewrite (bind_ok _ _ _ _ _ (killed_eq i s0 ltac:(cbn; by rewrite list_elem_of_singleton))).
    change (get_proc s0 i) with (get_proc s i). destruct (p_killed (get_proc s i) =? 0); cbn [negb].
    + apply (pipe_sleep (ch_nread pi) pi i pt n s0 free A0). reflexivity.
    + rewrite (bind_release _ []) by (reflexivity || apply not_elem_of_nil). unfold ret, s0. by rewrite <- Eid at 2.
  - destruct (piperead_loop_spec (Z.to_nat len) pi i pt n addr 0 s0 free A0) as (d & s1 & E & Hh1 & Hp1 & D & R);
      try done; [lia|]. rewrite Z.add_0_r in D, R. rewrite Z.add_0_l in E. rewrite (bind_ok _ _ _ _ _ E).
    destruct (pipe_leave (ch_nwrite pi) pi i pt n s1 free (Z.of_nat d) (dl_at _ _ _ _ _ _ _ _ _ D) Hh1) as [E1 A1].
    exists d, (set_k_held [] (wake_all (ch_nwrite pi) s1)). split; [exact E1|]. split; [done|].
    split; [|split; [exact R|]].
    + destruct D. by split.
    + intros x. rewrite get_proc_held. apply wake_all_nobody. apply D.
Qed.

End Fifo.

(** ** Witnesses *)

(** A process of one page at a pipe, after boot of a small machine. *)
Lemma ram12_at_pipe p :
  pipe_ok p -> exists s pt free, at_pipe (L := ram12) 4096 0 pt 1 s free /\ k_held s = [] /\
    get_pipe s 4096 = p /\ p_killed (get_proc s 0) = 0.
Proof.
  intros Hp. destruct ram12_user as (s0 & pt & free & U & _).
  set (s := set_k_held [] (set_k_cur (Some 0%nat) (set_k_pipes {[4096 := p]}
    (set_k_procs (set_p_pagetable pt proc_zero :: replicate 63 proc_zero) s0)))).
  assert (Eg : get_pipe s 4096 = p) by reflexivity.
  exists s, pt, free. split; [|done].
  split; [done|unfold NPROC; lia|done|done| |by rewrite Eg].
  by apply (uspace_mem pt 1 s0); [..|apply not_elem_of_nil|].
Qed.

(** A pipe with one byte in it. *)
Definition pipe_one : pipe := mkPipe (104 :: replicate 511 5) 0 1 true true.

Lemma pipewrite_fifo_witness :
  exists s pt free d s', appended (L := ram12) 4096 0 pt 1 16 d s s' free /\
    write_end (pipewrite 4096 16 3 s) 4096 0 pt 16 0 3 d s'.
Proof.
  pose proof ram12_ok as LO. destruct (ram12_at_pipe pipe_new) as (s & pt & free & A & Hh & Hg & Hk); [by split|].
  pose proof (pipewrite_fifo (L := ram12) 4096 0 pt 1 16 3 s free A Hh ltac:(lia) ltac:(lia) ltac:(lia)) as H.
  rewrite Hg, Hk in H. destruct H as (d & s' & H). exists s, pt, free, d, s'. exact H.
Defined.

Lemma piperead_fifo_witness :
  exists s pt free d s', piperead 4096 16 3 s = Ok (Z.of_nat d) s' /\
    delivered (L := ram12) 4096 0 pt 1 16 (take d [104]) s s' free /\ read_end 4096 pt 16 3 d s s'.
Proof.
  pose proof ram12_ok as LO. destruct (ram12_at_pipe pipe_one) as (s & pt & free & A & Hh & Hg & Hk); [by split|].
  pose proof (piperead_fifo (L := ram12) 4096 0 pt 1 16 3 s free A Hh ltac:(lia) ltac:(lia) ltac:(lia)) as H.
  assert (Hq : pipe_queue s 4096 = [104]) by (unfold pipe_queue; rewrite Hg; reflexivity).
  rewrite Hq in H. destruct H as (d & s' & H1 & _ & H2 & H3 & _). by exists s, pt, free, d, s'.
Defined.
