(* ===== verification/File.v ===== *)
(** * kernel/file.c and [pipealloc]: open files

    A file pointer is the index of its entry in [k_files].  The only device
    is the console: [devsw[CONSOLE]]; [lsr] is what the UART's status
    register answers while a write goes to it. *)

From S2P Require Import Prelude KString Bytes Ring KState Riscv Spinlock Kalloc Vm Sched Uart Console Sleeplock.
From S2P Require Import Bio Log Fs Pipe.

Definition CONSOLE : Z := 1.

Definition get_file (s : kstate) (f : nat) : file := default file_zero (k_files s !! f).
Definition upd_file (f : nat) (g : file -> file) (s : kstate) : kstate :=
  set_k_files (alter g f (k_files s)) s.
Definition file_set (f : nat) (g : file -> file) : K unit := modify (upd_file f g).
Definition file_get (f : nat) : K file := gets (fun s => get_file s f).

Fixpoint filealloc_scan (s : kstate) (ix : list nat) : option nat :=
  match ix with
  | [] => None
  | f :: ix => if f_ref (get_file s f) =? 0 then Some f else filealloc_scan s ix
  end.

Definition filealloc : K (option nat) :=
  acquire ftable_lock ;;;
  let! r := gets (fun s => filealloc_scan s (seq 0 NFILE)) in
  match r with
  | Some f =>
      file_set f (set_f_ref 1) ;;;
      release ftable_lock ;;;
      ret (Some f)
  | None => release ftable_lock ;;; ret None
  end.

Definition filedup (f : nat) : K nat :=
  acquire ftable_lock ;;;
  let! fl := file_get f in
  if f_ref fl <? 1 then panic "filedup"
  else
    file_set f (fun fl => set_f_ref (s32 (f_ref fl + 1)) fl) ;;;
    release ftable_lock ;;;
    ret f.

Section Files.
Context {L : Layout}.

Definition fileclose (f : nat) : K unit :=
  acquire ftable_lock ;;;
  let! fl := file_get f in
  if f_ref fl <? 1 then panic "fileclose"
  else
    file_set f (set_f_ref (s32 (f_ref fl - 1))) ;;;
    let! ff := file_get f in
    if 0 <? f_ref ff then release ftable_lock
    else
      file_set f (fun fl => set_f_type FD_NONE (set_f_ref 0 fl)) ;;;
      release ftable_lock ;;;
      match f_type ff with
      | FD_PIPE => pipeclose (f_pipe ff) (f_writable ff)
      | FD_INODE | FD_DEVICE =>
          begin_op ;;;
          match f_ip ff with
          | Some ip => iput ip
          | None => fault "iput of null"
          end ;;;
          end_op
      | FD_NONE => ret tt
      end.

(** The inode of an open file. *)
Definition file_ip (fl : file) : K nat :=
  match f_ip fl with
  | Some ip => ret ip
  | None => fault "f->ip is null"
  end.

Definition filestat (f : nat) (addr : Z) : K Z :=
  let! p := myproc_ in
  let! fl := file_get f in
  match f_type fl with
  | FD_INODE | FD_DEVICE =>
      let! ip := file_ip fl in
      ilock ip ;;;
      let! st := gets (fun s => stati (get_inode s ip)) in
      iunlock ip ;;;
      let! pt := gets (fun s => p_pagetable (get_proc s p)) in
      let! r := copyout pt addr st in
      ret (if r <? 0 then -1 else 0)
  | _ => ret (-1)
  end.

Definition fileread (f : nat) (addr n : Z) : K Z :=
  let! fl := file_get f in
  if negb (f_readable fl) then ret (-1)
  else
    match f_type fl with
    | FD_PIPE => piperead (f_pipe fl) addr n
    | FD_DEVICE =>
        if f_major fl =? CONSOLE then
          let! r := consoleread (user_dst addr) n in ret (fst r)
        else ret (-1)
    | FD_INODE =>
        let! ip := file_ip fl in
        ilock ip ;;;
        let! (r, _) := readi ip (user_dst addr) (f_off fl) (u32 n) in
        let r := s32 r in
        (if 0 <? r then file_set f (fun fl => set_f_off (u32 (f_off fl + r)) fl) else ret tt) ;;;
        iunlock ip ;;;
        ret r
    | FD_NONE => panic "fileread"
    end.

(** The [while] of [filewrite]: the value of [i] at its end.  Every turn but
    the last one writes [max] bytes. *)
Definition filewrite_max : Z := (MAXOPBLOCKS - 1 - 1 - 2) / 2 * BSIZE.

Fixpoint filewrite_loop (fuel : nat) (f ip : nat) (addr n i : Z) : K Z :=
  if i <? n then
    match fuel with
    | O => nofuel
    | S fuel =>
        let n1 := Z.min (n - i) filewrite_max in
        begin_op ;;;
        ilock ip ;;;
        let! fl := file_get f in
        let! r := writei ip (user_src (u64 (addr + i))) (f_off fl) n1 in
        let r := s32 r in
        (if 0 <? r then file_set f (fun fl => set_f_off (u32 (f_off fl + r)) fl) else ret tt) ;;;
        iunlock ip ;;;
        end_op ;;;
        if negb (r =? n1) then ret i
        else filewrite_loop fuel f ip addr n (i + r)
    end
  else ret i.

Definition filewrite (f : nat) (addr n : Z) (lsr : Z -> list bool) : K Z :=
  let! fl := file_get f in
  if negb (f_writable fl) then ret (-1)
  else
    match f_type fl with
    | FD_PIPE => pipewrite (f_pipe fl) addr n
    | FD_DEVICE =>
        if f_major fl =? CONSOLE then consolewrite (user_src addr) n lsr else ret (-1)
    | FD_INODE =>
        let! ip := file_ip fl in
        let! i := filewrite_loop (Z.to_nat (n / filewrite_max) + 1) f ip addr n 0 in
        ret (if i =? n then n else -1)
    | FD_NONE => panic "filewrite"
    end.

(** [pipealloc]: the two files, or nothing and whatever was allocated given
    back. *)
Definition pipealloc_bad (pi : Z) (f0 f1 : option nat) : K (option (nat * nat)) :=
  (if negb (pi =? 0) then kfree pi else ret tt) ;;;
  match f0 with Some f => fileclose f | None => ret tt end ;;;
  match f1 with Some f => fileclose f | None => ret tt end ;;;
  ret None.

Definition pipealloc : K (option (nat * nat)) :=
  let! f0 := filealloc in
  match f0 with
  | None => pipealloc_bad 0 None None
  | Some a =>
      let! f1 := filealloc in
      match f1 with
      | None => pipealloc_bad 0 (Some a) None
      | Some b =>
          let! pi := kalloc in
          if pi =? 0 then pipealloc_bad 0 (Some a) (Some b)
          else
            modify (fun s => set_k_pipes (<[pi := pipe_new]> (k_pipes s)) s) ;;;
            file_set a (fun fl => set_f_pipe pi (set_f_writable false (set_f_readable true (set_f_type FD_PIPE fl)))) ;;;
            file_set b (fun fl => set_f_pipe pi (set_f_writable true (set_f_readable false (set_f_type FD_PIPE fl)))) ;;;
            ret (Some (a, b))
      end
  end.

End Files.
