(* ===== verification/Proc.v ===== *)
(** * Process creation and exit (kernel/proc.c, second part)

    [allocproc], [fork], [exit], [wait], and this repository's [forkn] and
    [waitall].  A trapframe is a page of memory; its fields are at the
    offsets of proc.h.  [allocproc] returns with the new process's lock held,
    as in the source, and code that forgets to release it keeps it in
    [k_held].  [wait] and [waitall] that have to sleep continue with
    [wait_loop] and [waitall_loop]. *)

From S2P Require Import Prelude KString Bytes Ring KState Riscv Spinlock Kalloc Vm Sched Uart Console Sleeplock.
From S2P Require Import Bio Log Fs Pipe File.

(** ** Trapframes *)

Definition trapframe_size : nat := 288.
Definition tf_kernel_satp : Z := 0.
Definition tf_kernel_sp : Z := 8.
Definition tf_kernel_trap : Z := 16.
Definition tf_epc : Z := 24.
Definition tf_kernel_hartid : Z := 32.
Definition tf_sp : Z := 48.
Definition tf_a0 : Z := 112.
Definition tf_a1 : Z := 120.
Definition tf_a2 : Z := 128.
Definition tf_a3 : Z := 136.
Definition tf_a4 : Z := 144.
Definition tf_a5 : Z := 152.
Definition tf_a7 : Z := 168.

(** [p->trapframe->field] *)
Definition tf_get (p : nat) (field : Z) : K Z :=
  let! tf := gets (fun s => p_trapframe (get_proc s p)) in
  read64 (tf + field).
Definition tf_set (p : nat) (field v : Z) : K unit :=
  let! tf := gets (fun s => p_trapframe (get_proc s p)) in
  write64 (tf + field) v.

(** [*(np->trapframe) = *(p->trapframe)] *)
Definition tf_copy (np p : nat) : K unit :=
  modify (fun s =>
    set_k_mem (wr_bytes (k_mem s) (p_trapframe (get_proc s np))
      (bytes_at (k_mem s) (p_trapframe (get_proc s p)) trapframe_size)) s).

(** [safestrcpy] to an array of the kernel, from index [i] on, with [k] more
    bytes that may be copied. *)
Fixpoint safestrcpy_arr (k i : nat) (d t : list Z) : list Z :=
  match k with
  | O => <[i := 0]> d
  | S k =>
      let c := nth i t 0 in
      let d := <[i := c]> d in
      if c =? 0 then <[S i := 0]> d else safestrcpy_arr k (S i) d t
  end.

Definition safestrcpy_list (d t : list Z) (n : nat) : list Z :=
  match n with
  | O => d
  | S k => safestrcpy_arr k 0 d t
  end.

(** An [int] in memory. *)
Definition int_bytes (x : Z) : list Z := put32 (replicate 4 0) 0 x.

Section Proc.
Context {L : Layout}.

(** ** Page tables and slots *)

Definition proc_pagetable (p : nat) : K Z :=
  let! pagetable := uvmcreate in
  if pagetable =? 0 then ret 0
  else
    let! r := mappages pagetable TRAMPOLINE PGSIZE l_trampoline (Z.lor PTE_R PTE_X) in
    if r <? 0 then uvmfree pagetable 0 ;;; ret 0
    else
      let! tf := gets (fun s => p_trapframe (get_proc s p)) in
      let! r := mappages pagetable TRAPFRAME PGSIZE tf (Z.lor PTE_R PTE_W) in
      if r <? 0 then
        uvmunmap pagetable TRAMPOLINE 1 false ;;;
        uvmfree pagetable 0 ;;;
        ret 0
      else ret pagetable.

Definition proc_freepagetable (pagetable sz : Z) : K unit :=
  uvmunmap pagetable TRAMPOLINE 1 false ;;;
  uvmunmap pagetable TRAPFRAME 1 false ;;;
  uvmfree pagetable sz.

Definition freeproc (p : nat) : K unit :=
  let! pr := gets (fun s => get_proc s p) in
  (if negb (p_trapframe pr =? 0) then kfree (p_trapframe pr) else ret tt) ;;;
  proc_set p (set_p_trapframe 0) ;;;
  (if negb (p_pagetable pr =? 0) then proc_freepagetable (p_pagetable pr) (p_sz pr) else ret tt) ;;;
  proc_set p (set_p_pagetable 0) ;;;
  proc_set p (set_p_sz 0) ;;;
  proc_set p (set_p_pid 0) ;;;
  proc_set p (set_p_parent None) ;;;
  proc_set p (fun pr => set_p_name (<[0%nat := 0]> (p_name pr)) pr) ;;;
  proc_set p (set_p_chan None) ;;;
  proc_set p (set_p_killed 0) ;;;
  proc_set p (set_p_xstate 0) ;;;
  proc_set p (set_p_state UNUSED).

(** The loop of [allocproc]: the first unused slot, its lock held. *)
Fixpoint allocproc_scan (ix : list nat) : K (option nat) :=
  match ix with
  | [] => ret None
  | p :: ix =>
      acquire (proc_lock p) ;;;
      let! st := gets (fun s => p_state (get_proc s p)) in
      if bool_decide (st = UNUSED) then ret (Some p)
      else release (proc_lock p) ;;; allocproc_scan ix
  end.

Definition allocproc_found (p : nat) : K (option nat) :=
  let! pid := allocpid in
  proc_set p (set_p_pid pid) ;;;
  proc_set p (set_p_state USED) ;;;
  let! tf := kalloc in
  proc_set p (set_p_trapframe tf) ;;;
  if tf =? 0 then
    freeproc p ;;;
    release (proc_lock p) ;;;
    ret None
  else
    let! pt := proc_pagetable p in
    proc_set p (set_p_pagetable pt) ;;;
    if pt =? 0 then
      freeproc p ;;;
      release (proc_lock p) ;;;
      ret None
    else
      proc_set p (fun pr => set_p_context
        (set_ctx_sp (p_kstack pr + PGSIZE) (set_ctx_ra l_forkret context_zero)) pr) ;;;
      ret (Some p).

Definition allocproc : K (option nat) :=
  let! r := allocproc_scan (seq 0 NPROC) in
  match r with
  | None => ret None
  | Some p => allocproc_found p
  end.

(** ** The first process *)

Definition initcode : list Z :=
  [0x17; 0x05; 0x00; 0x00; 0x13; 0x05; 0x45; 0x02;
   0x97; 0x05; 0x00; 0x00; 0x93; 0x85; 0x35; 0x02;
   0x93; 0x08; 0x70; 0x00; 0x73; 0x00; 0x00; 0x00;
   0x93; 0x08; 0x20; 0x00; 0x73; 0x00; 0x00; 0x00;
   0xef; 0xf0; 0x9f; 0xff; 0x2f; 0x69; 0x6e; 0x69;
   0x74; 0x00; 0x00; 0x24; 0x00; 0x00; 0x00; 0x00;
   0x00; 0x00; 0x00; 0x00].

Definition userinit : K unit :=
  let! r := allocproc in
  modify (set_k_initproc r) ;;;
  match r with
  | None => fault "allocproc returned 0"
  | Some p =>
      let! pt := gets (fun s => p_pagetable (get_proc s p)) in
      uvmfirst pt initcode ;;;
      proc_set p (set_p_sz PGSIZE) ;;;
      tf_set p tf_epc 0 ;;;
      tf_set p tf_sp PGSIZE ;;;
      proc_set p (fun pr => set_p_name (safestrcpy_list (p_name pr) (str "initcode") 16) pr) ;;;
      let! cwd := namei (str "/") in
      proc_set p (set_p_cwd cwd) ;;;
      proc_set p (set_p_state RUNNABLE) ;;;
      release (proc_lock p)
  end.

Definition growproc (n : Z) : K Z :=
  let! p := myproc_ in
  let! pr := gets (fun s => get_proc s p) in
  let sz := p_sz pr in
  if 0 <? n then
    let! sz := uvmalloc (p_pagetable pr) sz (u64 (sz + n)) PTE_W in
    if sz =? 0 then ret (-1)
    else proc_set p (set_p_sz sz) ;;; ret 0
  else if n <? 0 then
    let! sz := uvmdealloc (p_pagetable pr) sz (u64 (sz + n)) in
    proc_set p (set_p_sz sz) ;;; ret 0
  else proc_set p (set_p_sz sz) ;;; ret 0.

(** ** [fork] *)

(** The loop over the open files. *)
Fixpoint dup_files (ix : list nat) (p np : nat) : K unit :=
  match ix with
  | [] => ret tt
  | fd :: ix =>
      let! f := gets (fun s => nth fd (p_ofile (get_proc s p)) None) in
      (match f with
       | Some f =>
           let! f := filedup f in
           proc_set np (fun pr => set_p_ofile (<[fd := Some f]> (p_ofile pr)) pr)
       | None => ret tt
       end) ;;;
      dup_files ix p np
  end.

(** [np->cwd = idup(p->cwd)] *)
Definition dup_cwd (p np : nat) : K unit :=
  let! cwd := gets (fun s => p_cwd (get_proc s p)) in
  match cwd with
  | Some i => let! i := idup i in proc_set np (set_p_cwd (Some i))
  | None => fault "cwd is null"
  end.

Definition fork : K Z :=
  let! p := myproc_ in
  let! r := allocproc in
  match r with
  | None => ret (-1)
  | Some np =>
      let! pr := gets (fun s => get_proc s p) in
      let! npt := gets (fun s => p_pagetable (get_proc s np)) in
      let! c := uvmcopy (p_pagetable pr) npt (p_sz pr) in
      if c <? 0 then
        freeproc np ;;;
        release (proc_lock np) ;;;
        ret (-1)
      else
        proc_set np (set_p_sz (p_sz pr)) ;;;
        tf_copy np p ;;;
        tf_set np tf_a0 0 ;;;
        dup_files (seq 0 NOFILE) p np ;;;
        dup_cwd p np ;;;
        modify (fun s => upd_proc np (fun q => set_p_name (safestrcpy_list (p_name q) (p_name (get_proc s p)) 16) q) s) ;;;
        let! pid := gets (fun s => p_pid (get_proc s np)) in
        release (proc_lock np) ;;;
        acquire wait_lock ;;;
        proc_set np (set_p_parent (Some p)) ;;;
        release wait_lock ;;;
        acquire (proc_lock np) ;;;
        proc_set np (set_p_state RUNNABLE) ;;;
        release (proc_lock np) ;;;
        ret pid
  end.

(** ** [exit] *)

Fixpoint reparent_loop (ix : list nat) (p : nat) : K unit :=
  match ix with
  | [] => ret tt
  | pp :: ix =>
      let! par := gets (fun s => p_parent (get_proc s pp)) in
      (if bool_decide (par = Some p) then
         let! init := gets (fun s => k_initproc s) in
         proc_set pp (set_p_parent init) ;;;
         match init with
         | Some i => wakeup (ch_proc i)
         | None => ret tt
         end
       else ret tt) ;;;
      reparent_loop ix p
  end.

Definition reparent (p : nat) : K unit := reparent_loop (seq 0 NPROC) p.

Fixpoint close_files (ix : list nat) (p : nat) : K unit :=
  match ix with
  | [] => ret tt
  | fd :: ix =>
      let! f := gets (fun s => nth fd (p_ofile (get_proc s p)) None) in
      (match f with
       | Some f =>
           fileclose f ;;;
           proc_set p (fun pr => set_p_ofile (<[fd := None]> (p_ofile pr)) pr)
       | None => ret tt
       end) ;;;
      close_files ix p
  end.

Definition exit (status : Z) (msg : list Z) : K unit :=
  let! p := myproc_ in
  let! init := gets (fun s => k_initproc s) in
  if bool_decide (init = Some p) then panic "init exiting"
  else
    close_files (seq 0 NOFILE) p ;;;
    begin_op ;;;
    let! cwd := gets (fun s => p_cwd (get_proc s p)) in
    match cwd with
    | Some i => iput i
    | None => fault "iput of null"
    end ;;;
    end_op ;;;
    proc_set p (set_p_cwd None) ;;;
    acquire wait_lock ;;;
    proc_set p (fun pr => set_p_exit_msg (safestrcpy_list (p_exit_msg pr) msg 32) pr) ;;;
    reparent p ;;;
    let! par := gets (fun s => p_parent (get_proc s p)) in
    match par with
    | Some q => wakeup (ch_proc q)
    | None => ret tt
    end ;;;
    acquire (proc_lock p) ;;;
    proc_set p (set_p_xstate status) ;;;
    proc_set p (set_p_state ZOMBIE) ;;;
    release wait_lock ;;;
    sched ;;;
    panic "zombie exit".

(** ** [wait] *)

(** The scan of [wait]: the value to return if a zombie was found, and
    [havekids]. *)
Fixpoint wait_scan (ix : list nat) (p : nat) (addr msg : Z) (havekids : bool) : K (option Z * bool) :=
  match ix with
  | [] => ret (None, havekids)
  | pp :: ix =>
      let! par := gets (fun s => p_parent (get_proc s pp)) in
      if bool_decide (par = Some p) then
        acquire (proc_lock pp) ;;;
        let! q := gets (fun s => get_proc s pp) in
        if bool_decide (p_state q = ZOMBIE) then
          let! pt := gets (fun s => p_pagetable (get_proc s p)) in
          (if negb (msg =? 0) then
             let! _ := copyout pt msg (cstr (p_exit_msg q) ++ [0]) in ret tt
           else ret tt) ;;;
          let pid := p_pid q in
          let! bad := (if negb (addr =? 0) then
                         let! r := copyout pt addr (int_bytes (p_xstate q)) in ret (r <? 0)
                       else ret false) in
          if bad then
            release (proc_lock pp) ;;;
            release wait_lock ;;;
            ret (Some (-1), true)
          else
            freeproc pp ;;;
            release (proc_lock pp) ;;;
            release wait_lock ;;;
            ret (Some pid, true)
        else
          release (proc_lock pp) ;;;
          wait_scan ix p addr msg true
      else wait_scan ix p addr msg havekids
  end.

(** One turn of [wait]'s [for(;;)], with [wait_lock] held. *)
Definition wait_loop (addr msg : Z) : K Z :=
  let! p := myproc_ in
  let! (r, havekids) := wait_scan (seq 0 NPROC) p addr msg false in
  match r with
  | Some v => ret v
  | None =>
      let! dead := (if negb havekids then ret true
                    else let! kd := killed p in ret (negb (kd =? 0))) in
      if dead then release wait_lock ;;; ret (-1)
      else sleep_on (ch_proc p) wait_lock
  end.

Definition wait (addr msg : Z) : K Z :=
  acquire wait_lock ;;;
  wait_loop addr msg.

(** ** [forkn] *)

(** The clean-up loop over the children made so far. *)
Fixpoint forkn_undo (kids : list nat) : K unit :=
  match kids with
  | [] => ret tt
  | child :: kids =>
      acquire (proc_lock child) ;;;
      proc_set child (set_p_state UNUSED) ;;;
      freeproc child ;;;
      release (proc_lock child) ;;;
      forkn_undo kids
  end.

(** The first loop of [forkn], at index [i] with [k] children to go: the
    children and their pids, or nothing if the call fails. *)
Fixpoint forkn_create (k : nat) (i : Z) (p : nat) (kids : list nat) (pids : list Z)
    : K (option (list nat * list Z)) :=
  match k with
  | O => ret (Some (kids, pids))
  | S k =>
      let! r := allocproc in
      match r with
      | None => forkn_undo kids ;;; ret None
      | Some np =>
          let! pid := gets (fun s => p_pid (get_proc s np)) in
          let! pr := gets (fun s => get_proc s p) in
          let! npt := gets (fun s => p_pagetable (get_proc s np)) in
          let! c := uvmcopy (p_pagetable pr) npt (p_sz pr) in
          if c <? 0 then
            freeproc np ;;;
            forkn_undo kids ;;;
            ret None
          else
            proc_set np (set_p_sz (p_sz pr)) ;;;
            tf_copy np p ;;;
            tf_set np tf_a0 (i + 1) ;;;
            dup_files (seq 0 NOFILE) p np ;;;
            dup_cwd p np ;;;
            modify (fun s => upd_proc np (fun q => set_p_name (safestrcpy_list (p_name q) (p_name (get_proc s p)) 16) q) s) ;;;
            release (proc_lock np) ;;;
            forkn_create k (i + 1) p (kids ++ [np]) (pids ++ [pid])
      end
  end.

(** The second loop, which lets the children run. *)
Fixpoint forkn_start (kids : list nat) (p : nat) : K unit :=
  match kids with
  | [] => ret tt
  | child :: kids =>
      proc_set child (set_p_parent (Some p)) ;;;
      acquire (proc_lock child) ;;;
      proc_set child (set_p_state RUNNABLE) ;;;
      release (proc_lock child) ;;;
      forkn_start kids p
  end.

Definition forkn (n pids : Z) : K Z :=
  let! p := myproc_ in
  if (n <? 1) || (16 <? n) then ret (-1)
  else
    let! r := forkn_create (Z.to_nat n) 0 p [] [] in
    match r with
    | None => ret (-1)
    | Some (kids, pids_local) =>
        acquire wait_lock ;;;
        forkn_start kids p ;;;
        release wait_lock ;;;
        if negb (pids =? 0) then
          let! pt := gets (fun s => p_pagetable (get_proc s p)) in
          let! c := copyout pt pids (concat (int_bytes <$> pids_local)) in
          ret (if c <? 0 then -1 else 0)
        else ret 0
    end.

(** ** [waitall] *)

(** The locals that the scan of [waitall] updates. *)
#[projections(primitive)]
Record scan : Type := mkScan {
  sc_alldone : bool;
  sc_found : bool;
  sc_count : nat;
  sc_statuses : list Z;
  sc_free : list nat
}.

Fixpoint waitall_scan (ix : list nat) (p : nat) (sc : scan) : K scan :=
  match ix with
  | [] => ret sc
  | pp :: ix =>
      acquire (proc_lock pp) ;;;
      let! q := gets (fun s => get_proc s pp) in
      let sc :=
        if bool_decide (p_parent q = Some p) then
          if bool_decide (p_state q = ZOMBIE)
          then mkScan (sc_alldone sc) true (S (sc_count sc))
                 (<[sc_count sc := p_xstate q]> (sc_statuses sc)) (sc_free sc ++ [pp])
          else mkScan false true (S (sc_count sc)) (sc_statuses sc) (sc_free sc)
        else sc in
      release (proc_lock pp) ;;;
      waitall_scan ix p sc
  end.

Fixpoint waitall_free (ps : list nat) : K unit :=
  match ps with
  | [] => ret tt
  | child :: ps =>
      acquire (proc_lock child) ;;;
      freeproc child ;;;
      release (proc_lock child) ;;;
      waitall_free ps
  end.

(** One turn of [waitall]'s [for(;;)], with [wait_lock] held; the statuses
    are those left by the turns before. *)
Definition waitall_loop (statuses : list Z) (n_addr statuses_addr : Z) : K Z :=
  let! p := myproc_ in
  let! sc := waitall_scan (seq 0 NPROC) p (mkScan true false 0 statuses []) in
  if negb (sc_found sc) then
    release wait_lock ;;;
    (if negb (n_addr =? 0) then
       let! pt := gets (fun s => p_pagetable (get_proc s p)) in
       let! _ := copyout pt n_addr (int_bytes 0) in ret tt
     else ret tt) ;;;
    ret 0
  else if sc_alldone sc then
    waitall_free (sc_free sc) ;;;
    release wait_lock ;;;
    let! pt := gets (fun s => p_pagetable (get_proc s p)) in
    (if negb (n_addr =? 0) then
       let! _ := copyout pt n_addr (int_bytes (Z.of_nat (sc_count sc))) in ret tt
     else ret tt) ;;;
    (if negb (statuses_addr =? 0) then
       let! _ := copyout pt statuses_addr (concat (int_bytes <$> take (sc_count sc) (sc_statuses sc))) in ret tt
     else ret tt) ;;;
    ret 0
  else
    let! kd := killed p in
    if negb (kd =? 0) then release wait_lock ;;; ret (-1)
    else sleep_on (ch_proc p) wait_lock.

Definition waitall (n_addr statuses_addr : Z) : K Z :=
  acquire wait_lock ;;;
  waitall_loop (replicate NPROC 0) n_addr statuses_addr.

End Proc.
