(* ===== verification/ProcMem.v ===== *)
(** * The memory of a process

    [proc_pagetable], [proc_freepagetable], [allocproc] and [freeproc]
    against the page accounting of [VmSpace]: a process owns its trapframe,
    its page table and the pages mapped in it; making one takes them from
    the free list, and freeing it gives every one of them back. *)

From S2P Require Import Prelude KString Bytes Ring KState Riscv Spinlock Kalloc Vm VmTree VmMap VmSpace VmFree VmCopy Sched.
From S2P Require Import Uart Console Sleeplock Bio Log Fs Pipe File Proc.

Section Mem.
Context {L : Layout} {LO : LayoutOk L}.

(** ** Frames *)

Lemma kmem_inv_frame s s' free :
  kmem_inv s free -> k_mem s' = k_mem s -> k_freelist s' = k_freelist s -> kmem_inv s' free.
Proof. intros [H1 H2 H3] Em Ef. split; rewrite ?Em, ?Ef; done. Qed.

Lemma table_frame pt s s' free :
  table pt s free -> k_mem s' = k_mem s -> k_freelist s' = k_freelist s -> (kmem_lock ∉ k_held s') -> table pt s' free.
Proof. intros [] Em Ef Hl. split; rewrite ?Em; try done. by eapply kmem_inv_frame. Qed.

Lemma aspace_frame pt n s s' free :
  aspace pt n s free -> k_mem s' = k_mem s -> k_freelist s' = k_freelist s -> (kmem_lock ∉ k_held s') -> aspace pt n s' free.
Proof. intros [] Em Ef Hl. split; rewrite ?Em; try done. by eapply table_frame. Qed.

(** ** Mappings at the top *)

Definition top_page (va : Z) : Prop := va mod PGSIZE = 0 /\ TRAPFRAME <= va < MAXVA.

Lemma top_pages : top_page TRAMPOLINE /\ top_page TRAPFRAME.
Proof. split; split; by vm_compute. Qed.

(** A step of the table at pages of the top. *)
Lemma top_step pt n s s' free free' used touched upd :
  aspace pt n s free -> table pt s' free' -> tab_step pt s s' used touched upd ->
  (forall x, upd x <> None -> TRAPFRAME / PGSIZE <= x < MAXVA / PGSIZE) ->
  tree 2 (k_mem s') pt ++ free' ≡ₚ tree 2 (k_mem s) pt ++ free ->
  aspace pt n s' free' /\ frames (k_mem s') pt 0 n = frames (k_mem s) pt 0 n.
Proof.
  intros A T' S Hu P. pose proof (as_bound _ _ _ _ A) as Hb. rewrite TRAPFRAME_eq in *. rewrite MAXVA_eq in *.
  assert (Hn : forall x, x < (2 ^ 38 - 2 * PGSIZE) / PGSIZE \/ 2 ^ 38 / PGSIZE <= x -> upd x = None).
  { intros x Hx. destruct (upd x) eqn:E; [|done]. destruct (Hu x); [congruence|lia]. }
  assert (Hlow : forall x, 0 <= x < 2 ^ 38 - 2 * PGSIZE -> pte_of 2 (k_mem s') pt x = pte_of 2 (k_mem s) pt x).
  { intros x Hx. rewrite (ts_pte _ _ _ _ _ _ _ S) by (rewrite MAXVA_eq; unfold PGSIZE in *; lia).
    rewrite Hn; [done|]. left. unfold PGSIZE in *. mlia. }
  assert (Hf : frames (k_mem s') pt 0 n = frames (k_mem s) pt 0 n).
  { apply frames_kept. intros i Hi. apply Hlow. unfold PGSIZE in *. lia. }
  split; [|exact Hf].
  split; [done|by rewrite TRAPFRAME_eq| | |by rewrite Hf; apply (as_pages _ _ _ _ A)| |].
  - intros i Hi. rewrite Hlow by (unfold PGSIZE in *; lia). by apply (as_leaf _ _ _ _ A).
  - intros x Hx. rewrite TRAPFRAME_eq in Hx. rewrite Hlow by (unfold PGSIZE in *; lia).
    apply (as_unmapped _ _ _ _ A). by rewrite TRAPFRAME_eq.
  - rewrite Hf. pose proof (as_nodup _ _ _ _ A) as Hd.
    rewrite (Permutation_app_comm (frames _ _ _ _)), app_assoc in Hd |- *. by rewrite P.
  - intros x Hx. rewrite MAXVA_eq in Hx. rewrite (ts_pte39 _ _ _ _ _ _ S) by lia.
    rewrite Hn; [apply (as_high _ _ _ _ A); by rewrite MAXVA_eq|]. right. unfold PGSIZE in *. mlia.
Qed.

(** What a step at the page of [va] sets. *)
Lemma top_pte pt s s' used touched va e x :
  tab_step pt s s' used touched (upd_range (va / PGSIZE) 1 (fun _ => e)) -> 0 <= x < MAXVA ->
  pte_of 2 (k_mem s') pt x = if decide (x / PGSIZE = va / PGSIZE) then e else pte_of 2 (k_mem s) pt x.
Proof.
  intros S Hx. rewrite (ts_pte _ _ _ _ _ _ _ S) by done.
  case_decide; [rewrite upd_range_in by lia; done|rewrite upd_range_out by lia; done].
Qed.

Lemma top_upd va e x : top_page va -> upd_range (va / PGSIZE) 1 (fun _ => e) x <> None -> TRAPFRAME / PGSIZE <= x < MAXVA / PGSIZE.
Proof.
  intros [Hal Hv]. rewrite TRAPFRAME_eq in *. rewrite MAXVA_eq in *.
  destruct (decide (x = va / PGSIZE)); [subst x|rewrite upd_range_out by lia; done].
  intros _. unfold PGSIZE in *. mlia.
Qed.

(** [mappages] of one page at the top. *)
Lemma map_top pt n s free va pa perm :
  top_page va -> aspace pt n s free -> has_flag (pte_of 2 (k_mem s) pt va) PTE_V = false ->
  pa mod PGSIZE = 0 -> 0 <= pa < 2 ^ 56 -> 0 <= perm < 1024 ->
  exists s' free', vm_frame s s' /\ aspace pt n s' free' /\
    tree 2 (k_mem s') pt ++ free' ≡ₚ tree 2 (k_mem s) pt ++ free /\
    mem_only (tree 2 (k_mem s) pt ++ free) (k_mem s) (k_mem s') /\
    frames (k_mem s') pt 0 n = frames (k_mem s) pt 0 n /\
    ((mappages pt va PGSIZE pa perm s = Ok 0 s' /\ (length free <= length free' + 2)%nat /\
      forall x, 0 <= x < MAXVA -> pte_of 2 (k_mem s') pt x =
        if decide (x / PGSIZE = va / PGSIZE) then pte_val pa perm else pte_of 2 (k_mem s) pt x) \/
     (mappages pt va PGSIZE pa perm s = Ok (-1) s' /\ (length free <= 1)%nat /\
      forall x, 0 <= x < MAXVA -> pte_of 2 (k_mem s') pt x = pte_of 2 (k_mem s) pt x)).
Proof.
  intros Hv A Hf Hpa Hpr Hpm. pose proof (as_table _ _ _ _ A) as T.
  assert (Hva : 0 <= va < MAXVA) by (destruct Hv as [_ Hv]; rewrite TRAPFRAME_eq in Hv; unfold PGSIZE in *; lia).
  rewrite mappages_one by (done || apply Hv).
  destruct (mappages_step pt va s free (pte_val pa perm)) as (s' & used & free' & Efr & T' & Hu & Hc); [done|done| |done|].
  { destruct (pte_val_ok pa perm Hpa Hpr Hpm) as (H & _). lia. }
  assert (Hm : forall t, tab_step pt s s' used (tree 2 (k_mem s) pt ++ used) t ->
    vm_frame s s' /\ tree 2 (k_mem s') pt ++ free' ≡ₚ tree 2 (k_mem s) pt ++ free /\
    mem_only (tree 2 (k_mem s) pt ++ free) (k_mem s) (k_mem s')).
  { intros t S. split; [apply S|]. split; [by rewrite (ts_tree _ _ _ _ _ _ S), Efr, <- app_assoc|].
    eapply mem_only_mono; [|apply S]. intros p. rewrite Efr, !elem_of_app. tauto. }
  exists s', free'. rewrite mappages_loop_S.
  destruct Hc as [(Hfull & Hl & S & E)|(S & E)]; destruct (Hm _ S) as (F & P & M).
  - destruct (top_step pt n s s' free free' used _ _ A T' S) as (A' & Hfr); [done|exact P|].
    split; [done|]. split; [done|]. split; [done|]. split; [done|]. split; [done|]. right.
    split; [by rewrite E|]. split; [rewrite Efr, Hfull, app_nil_r; lia|].
    intros x Hx. apply (ts_pte _ _ _ _ _ _ _ S Hx).
  - destruct (top_step pt n s s' free free' used _ _ A T' S) as (A' & Hfr); [by intros x; apply top_upd|exact P|].
    split; [done|]. split; [done|]. split; [done|]. split; [done|]. split; [done|]. left.
    split; [rewrite E; by rewrite Z.eqb_refl|]. split; [rewrite Efr, length_app; lia|].
    intros x Hx. by eapply top_pte.
Qed.

(** [uvmunmap] of one page at the top, which is not freed. *)
Lemma unmap_top pt n s free va :
  top_page va -> aspace pt n s free -> leaf_pte (pte_of 2 (k_mem s) pt va) ->
  exists s', uvmunmap pt va 1 false s = Ok tt s' /\ vm_frame s s' /\ aspace pt n s' free /\
    tree 2 (k_mem s') pt ++ free ≡ₚ tree 2 (k_mem s) pt ++ free /\
    mem_only (tree 2 (k_mem s) pt) (k_mem s) (k_mem s') /\
    frames (k_mem s') pt 0 n = frames (k_mem s) pt 0 n /\
    forall x, 0 <= x < MAXVA -> pte_of 2 (k_mem s') pt x =
      if decide (x / PGSIZE = va / PGSIZE) then 0 else pte_of 2 (k_mem s) pt x.
Proof.
  intros Hv A Hl. pose proof (as_table _ _ _ _ A) as T.
  assert (Hva : 0 <= va < MAXVA) by (destruct Hv as [_ Hv]; rewrite TRAPFRAME_eq in Hv; unfold PGSIZE in *; lia).
  destruct (uvmunmap_loop_spec 1 pt va s free false T) as (s' & E & T' & S); [lia| | |done|].
  { destruct Hv as [Hal Hv]. rewrite MAXVA_eq in *. unfold PGSIZE in *. mlia. }
  { intros i Hi. replace i with 0%nat by lia. by rewrite Z.add_0_r. }
  cbn [app] in T'. rewrite app_nil_r in S. exists s'. split.
  { unfold uvmunmap. destruct Hv as [Hal Hv]. rewrite Hal. cbn [Z.eqb negb]. change (Z.of_nat 1) with 1 in E.
    rewrite (u64_small (1 * PGSIZE)) by (unfold PGSIZE; lia).
    rewrite u64_small by (rewrite MAXVA_eq in *; unfold PGSIZE in *; lia). exact E. }
  assert (P : tree 2 (k_mem s') pt ++ free ≡ₚ tree 2 (k_mem s) pt ++ free).
  { by rewrite (ts_tree _ _ _ _ _ _ S), app_nil_r. }
  destruct (top_step pt n s s' free free [] _ _ A T' S) as (A' & Hfr); [by intros x; apply top_upd|exact P|].
  split; [apply S|]. split; [done|]. split; [done|]. split; [apply S|]. split; [done|].
  intros x Hx. by eapply top_pte.
Qed.

(** ** Page tables of processes *)

Definition tramp_pte : Z := pte_val l_trampoline (Z.lor PTE_R PTE_X).
Definition tf_pte (tf : Z) : Z := pte_val tf (Z.lor PTE_R PTE_W).

(** The address space of a process with trapframe [tf] and [n] user pages. *)
Record pspace (pt tf : Z) (n : nat) (s : kstate) (free : list Z) : Prop := {
  ps_space : aspace pt n s free;
  ps_tramp : pte_of 2 (k_mem s) pt TRAMPOLINE = tramp_pte;
  ps_tf : pte_of 2 (k_mem s) pt TRAPFRAME = tf_pte tf;
  ps_page : page_ok tf;
  ps_fresh : tf ∉ owned pt n s free
}.

Lemma vm_frame_proc s s' p : vm_frame s s' -> get_proc s' p = get_proc s p.
Proof. intros F. rewrite F. done. Qed.

Lemma top_distinct : TRAMPOLINE / PGSIZE <> TRAPFRAME / PGSIZE.
Proof. by vm_compute. Qed.

Lemma page_ok_range p : page_ok p -> p mod PGSIZE = 0 /\ 0 <= p < 2 ^ 56.
Proof. intros H. pose proof (page_ok_pos _ H). split; [apply H|lia]. Qed.

Lemma tramp_range : l_trampoline mod PGSIZE = 0 /\ 0 <= l_trampoline < 2 ^ 56.
Proof.
  pose proof l_end_ram. pose proof l_etext_ram. pose proof l_trampoline_ram. split; [apply l_trampoline_aligned|].
  assert (PHYSTOP < 2 ^ 56) by (by vm_compute). assert (0 < KERNBASE) by (by vm_compute). lia.
Qed.

Lemma leaf_top : leaf_pte tramp_pte /\ forall tf, page_ok tf -> leaf_pte (tf_pte tf).
Proof.
  split; [|intros tf Htf].
  - destruct tramp_range as [H1 H2]. destruct (pte_val_ok _ (Z.lor PTE_R PTE_X) H1 H2) as (_ & _ & Hf & Hv); [by vm_compute|].
    split; [exact Hv|]. unfold tramp_pte. rewrite Hf. by vm_compute.
  - destruct (page_ok_range _ Htf) as [H1 H2]. destruct (pte_val_ok _ (Z.lor PTE_R PTE_W) H1 H2) as (_ & _ & Hf & Hv); [by vm_compute|].
    split; [exact Hv|]. unfold tf_pte. rewrite Hf. by vm_compute.
Qed.

Lemma pages_of_0 : pages_of 0 = 0%nat.
Proof. reflexivity. Qed.

(** A table without user pages and with nothing at the top is given back. *)
Lemma free_table pt s free :
  aspace pt 0 s free ->
  (forall va, TRAPFRAME <= va < MAXVA -> has_flag (pte_of 2 (k_mem s) pt va) PTE_V = false) ->
  exists s' free', uvmfree pt 0 s = Ok tt s' /\ kmem_inv s' free' /\ vm_frame s s' /\
    free' ≡ₚ tree 2 (k_mem s) pt ++ free /\ mem_only (tree 2 (k_mem s) pt ++ free) (k_mem s) (k_mem s').
Proof.
  intros A Ht. destruct (uvmfree_pages pt 0 s free A) as (s' & free' & E & I & P & F & M); [by vm_compute|done|].
  exists s', free'. split; [done|]. split; [done|]. split; [done|]. split; [exact P|exact M].
Qed.

Lemma mem_only_perm ps qs m m' : ps ≡ₚ qs -> mem_only ps m m' -> mem_only qs m m'.
Proof. intros P. apply mem_only_mono. intros p. by rewrite P. Qed.

(** The rest of [proc_pagetable], once there is a table. *)
Lemma map_trapframe pt s free tf :
  aspace pt 0 s free -> page_ok tf -> (tf ∉ tree 2 (k_mem s) pt ++ free) ->
  (forall x, 0 <= x < MAXVA -> pte_of 2 (k_mem s) pt x = if decide (x / PGSIZE = TRAMPOLINE / PGSIZE) then tramp_pte else 0) ->
  exists s', vm_frame s s' /\ mem_only (tree 2 (k_mem s) pt ++ free) (k_mem s) (k_mem s') /\
    ((exists free', (forall B (k err : K B), (let! r := mappages pt TRAPFRAME PGSIZE tf (Z.lor PTE_R PTE_W) in
        if r <? 0 then uvmunmap pt TRAMPOLINE 1 false ;;; uvmfree pt 0 ;;; err else k) s = k s') /\
        pspace pt tf 0 s' free' /\ tree 2 (k_mem s') pt ++ free' ≡ₚ tree 2 (k_mem s) pt ++ free /\
        (length free <= length free' + 2)%nat) \/
     (exists free', (forall B (k err : K B), (let! r := mappages pt TRAPFRAME PGSIZE tf (Z.lor PTE_R PTE_W) in
        if r <? 0 then uvmunmap pt TRAMPOLINE 1 false ;;; uvmfree pt 0 ;;; err else k) s = err s') /\
        kmem_inv s' free' /\ free' ≡ₚ tree 2 (k_mem s) pt ++ free /\ (length free <= 1)%nat)).
Proof.
  intros A Htf Hn Hp. destruct top_pages as [Htr Htp].
  assert (H0 : 0 <= TRAPFRAME < MAXVA /\ 0 <= TRAMPOLINE < MAXVA) by (by vm_compute). destruct H0 as [H01 H02].
  destruct (page_ok_range _ Htf) as [Hr1 Hr2].
  destruct (map_top pt 0 s free TRAPFRAME tf (Z.lor PTE_R PTE_W) Htp A) as (s1 & f1 & F1 & A1 & P1 & M1 & _ & Hc);
    [rewrite Hp, decide_False by (done || apply not_eq_sym, top_distinct); apply has_flag_0|done|done|by vm_compute|].
  destruct Hc as [(E & Hl & Hq)|(E & Hl & Hq)].
  - exists s1. split; [done|]. split; [done|]. left. exists f1.
    split; [intros B k err; by rewrite (bind_ok _ _ _ _ _ E)|]. split; [|split; [done|done]].
    split; [done| | |done|].
    + rewrite Hq, decide_False by (done || apply top_distinct). by rewrite Hp, decide_True.
    + by rewrite Hq, decide_True.
    + unfold owned. cbn [frames app]. by rewrite P1.
  - destruct (unmap_top pt 0 s1 f1 TRAMPOLINE Htr A1) as (s2 & E2 & F2 & A2 & P2 & M2 & _ & Hq2).
    { rewrite Hq, Hp, decide_True by done. apply leaf_top. }
    destruct (free_table pt s2 f1 A2) as (s3 & f3 & E3 & I3 & F3 & P3 & M3).
    { intros va Hva. rewrite TRAPFRAME_eq in Hva. assert (0 <= va < MAXVA) by (unfold PGSIZE in *; lia).
      rewrite Hq2, Hq, Hp by done. case_decide; apply has_flag_0. }
    exists s3. split; [by eapply vm_frame_trans; [|eapply vm_frame_trans]|].
    split; [|right; exists f3; split; [intros B k err; rewrite (bind_ok _ _ _ _ _ E); cbn [Z.ltb Z.compare];
      by rewrite (bind_ok _ _ _ _ _ E2), (bind_ok _ _ _ _ _ E3)|]; split; [done|]; split; [by rewrite P3, P2, P1|done]].
    eapply mem_only_trans; [exact M1|]. eapply mem_only_trans.
    + eapply mem_only_mono; [|exact M2]. intros x Hx. rewrite <- P1. apply elem_of_app. by left.
    + eapply mem_only_perm; [|exact M3]. by rewrite P2, P1.
Qed.

(** [proc_pagetable] makes a table with the two pages at the top, or gives
    back what it took. *)
Lemma proc_pagetable_pages s p free tf :
  kmem_inv s free -> (kmem_lock ∉ k_held s) -> p_trapframe (get_proc s p) = tf -> page_ok tf -> (tf ∉ free) ->
  exists s', vm_frame s s' /\ mem_only free (k_mem s) (k_mem s') /\
    ((exists pt free', proc_pagetable p s = Ok pt s' /\ pt <> 0 /\ pspace pt tf 0 s' free' /\
        tree 2 (k_mem s') pt ++ free' ≡ₚ free /\ (length free <= length free' + 5)%nat) \/
     (exists free', proc_pagetable p s = Ok 0 s' /\ kmem_inv s' free' /\ free' ≡ₚ free /\ (length free < 5)%nat)).
Proof.
  intros I Hl Htf Hok Hn. unfold proc_pagetable. destruct free as [|pt free].
  { exists s. split; [apply vm_frame_refl|]. split; [done|]. right. exists []. unfold uvmcreate.
    rewrite bind_assoc, (bind_ok _ _ _ _ _ (kalloc_none _ I Hl)). cbn. split; [done|]. split; [done|]. split; [done|lia]. }
  destruct (uvmcreate_space s pt free I Hl) as (s1 & E1 & A1 & F1 & M1 & Et1 & Ep1).
  assert (Hpt : pt <> 0). { destruct I as [_ _ [H _]%Forall_cons]. pose proof (page_ok_pos _ H). lia. }
  rewrite (bind_ok _ _ _ _ _ E1), (proj2 (Z.eqb_neq _ _) Hpt).
  destruct top_pages as [Htr Htp]. destruct tramp_range as [Hr1 Hr2].
  destruct (map_top pt 0 s1 free TRAMPOLINE l_trampoline (Z.lor PTE_R PTE_X) Htr A1) as (s2 & f2 & F2 & A2 & P2 & M2 & _ & Hc);
    [rewrite Ep1; apply has_flag_0|done|done|by vm_compute|].
  rewrite Et1 in P2, M2. cbn [app] in P2, M2.
  assert (M12 : mem_only (pt :: free) (k_mem s) (k_mem s2)).
  { eapply mem_only_trans; [|exact M2]. eapply mem_only_mono; [|exact M1]. intros x ->%list_elem_of_singleton. by left. }
  pose proof (vm_frame_trans _ _ _ F1 F2) as F12.
  destruct Hc as [(E2 & Hl2 & Hq2)|(E2 & Hl2 & Hq2)]; rewrite (bind_ok _ _ _ _ _ E2); cbn [Z.ltb Z.compare].
  - rewrite bind_gets, (vm_frame_proc _ _ p F12), Htf.
    destruct (map_trapframe pt s2 f2 tf A2 Hok) as (s3 & F3 & M3 & Hc); [by rewrite P2|intros x Hx; by rewrite Hq2, Ep1|].
    exists s3. split; [by eapply vm_frame_trans|].
    split; [eapply mem_only_trans; [exact M12|eapply mem_only_perm; [exact P2|exact M3]]|].
    destruct Hc as [(f3 & E3 & S3 & P3 & Hl3)|(f3 & E3 & I3 & P3 & Hl3)]; rewrite E3; [left; exists pt, f3|right; exists f3].
    + split; [done|]. split; [done|]. split; [done|]. split; [by rewrite P3|cbn; lia].
    + split; [done|]. split; [done|]. split; [by rewrite P3|cbn; lia].
  - destruct (free_table pt s2 f2 A2) as (s3 & f3 & E3 & I3 & F3 & P3 & M3).
    { intros va Hva. rewrite TRAPFRAME_eq in Hva. rewrite Hq2, Ep1 by (unfold PGSIZE in *; lia). apply has_flag_0. }
    exists s3. split; [by eapply vm_frame_trans|].
    split; [eapply mem_only_trans; [exact M12|eapply mem_only_perm; [exact P2|exact M3]]|].
    right. exists f3. rewrite (bind_ok _ _ _ _ _ E3). split; [done|]. split; [done|]. split; [by rewrite P3|cbn; lia].
Qed.

(** [proc_freepagetable] gives back the table and every user page. *)
Lemma proc_freepagetable_pages s pt sz free :
  aspace pt (pages_of sz) s free -> leaf_pte (pte_of 2 (k_mem s) pt TRAMPOLINE) ->
  leaf_pte (pte_of 2 (k_mem s) pt TRAPFRAME) -> 0 <= sz <= TRAPFRAME ->
  exists s' free', proc_freepagetable pt sz s = Ok tt s' /\ kmem_inv s' free' /\ vm_frame s s' /\
    free' ≡ₚ owned pt (pages_of sz) s free /\ mem_only (owned pt (pages_of sz) s free) (k_mem s) (k_mem s').
Proof.
  intros A Ht1 Ht2 Hsz. destruct top_pages as [Htr Htp]. unfold proc_freepagetable.
  destruct (unmap_top pt _ s free TRAMPOLINE Htr A) as (s1 & E1 & F1 & A1 & P1 & M1 & Hf1 & Hq1); [done|].
  destruct (unmap_top pt _ s1 free TRAPFRAME Htp A1) as (s2 & E2 & F2 & A2 & P2 & M2 & Hf2 & Hq2).
  { rewrite Hq1, decide_False; [done|by vm_compute|by vm_compute]. }
  destruct (uvmfree_pages pt sz s2 free A2 Hsz) as (s3 & f3 & E3 & I3 & P3 & F3 & M3).
  { intros va Hva. rewrite TRAPFRAME_eq in Hva. rewrite Hq2 by (unfold PGSIZE in *; lia).
    case_decide as H1; [apply has_flag_0|]. rewrite Hq1 by (unfold PGSIZE in *; lia).
    case_decide as H2; [apply has_flag_0|]. exfalso.
    change (TRAPFRAME / PGSIZE) with 67108862 in H1. change (TRAMPOLINE / PGSIZE) with 67108863 in H2.
    rewrite MAXVA_eq in Hva. unfold PGSIZE in *. mlia. }
  assert (P12 : owned pt (pages_of sz) s2 free ≡ₚ owned pt (pages_of sz) s free).
  { unfold owned. rewrite Hf2, Hf1, !(Permutation_app_comm (frames _ _ _ _)), !app_assoc. by rewrite P2, P1. }
  exists s3, f3. rewrite (bind_ok _ _ _ _ _ E1), (bind_ok _ _ _ _ _ E2). split; [done|]. split; [done|].
  split; [by eapply vm_frame_trans; [|eapply vm_frame_trans]|]. split; [by rewrite P3|].
  eapply mem_only_trans; [|eapply mem_only_perm; [exact P12|exact M3]].
  assert (Hsub : forall x, x ∈ tree 2 (k_mem s) pt ++ free -> x ∈ owned pt (pages_of sz) s free).
  { intros x. unfold owned. rewrite !elem_of_app. tauto. }
  eapply mem_only_trans.
  - eapply mem_only_mono; [|exact M1]. intros x Hx. apply Hsub, elem_of_app. by left.
  - eapply mem_only_mono; [|exact M2]. intros x Hx. apply Hsub. rewrite <- P1. apply elem_of_app. by left.
Qed.

(** A slot after [freeproc]. *)
Definition freed (pr : proc) : proc :=
  mkProc UNUSED None 0 0 0 None (p_kstack pr) 0 0 0 (p_context pr) (p_ofile pr) (p_cwd pr)
    (<[0%nat := 0]> (p_name pr)) (p_exit_msg pr).

Lemma freeproc_tail p s :
  (proc_set p (set_p_pagetable 0) ;;;
   proc_set p (set_p_sz 0) ;;;
   proc_set p (set_p_pid 0) ;;;
   proc_set p (set_p_parent None) ;;;
   proc_set p (fun pr => set_p_name (<[0%nat := 0]> (p_name pr)) pr) ;;;
   proc_set p (set_p_chan None) ;;;
   proc_set p (set_p_killed 0) ;;;
   proc_set p (set_p_xstate 0) ;;;
   proc_set p (set_p_state UNUSED)) s = Ok tt (upd_proc p (fun pr => set_p_trapframe (p_trapframe pr) (freed pr)) s).
Proof. unfold proc_set. rewrite !bind_modify. unfold modify. by rewrite !upd_proc_upd_proc. Qed.

(** The part of the state that making and freeing a process changes. *)
Definition proc_frame (s s' : kstate) : Prop :=
  s' = set_k_procs (k_procs s') (set_k_mem (k_mem s') (set_k_freelist (k_freelist s') s)).

Lemma proc_frame_vm s s' : vm_frame s s' -> proc_frame s s'.
Proof. intros F. unfold proc_frame. rewrite F. reflexivity. Qed.
Lemma proc_frame_upd s p f : proc_frame s (upd_proc p f s).
Proof. reflexivity. Qed.
Lemma proc_frame_trans s1 s2 s3 : proc_frame s1 s2 -> proc_frame s2 s3 -> proc_frame s1 s3.
Proof. unfold proc_frame. intros F1 F2. rewrite F2, F1. reflexivity. Qed.

(** [freeproc] of a whole process. *)
Lemma freeproc_pages s p free (pr := get_proc s p) :
  (p < length (k_procs s))%nat -> 0 <= p_sz pr <= TRAPFRAME -> p_pagetable pr <> 0 ->
  pspace (p_pagetable pr) (p_trapframe pr) (pages_of (p_sz pr)) s free ->
  exists s' free', freeproc p s = Ok tt s' /\ kmem_inv s' free' /\
    free' ≡ₚ p_trapframe pr :: owned (p_pagetable pr) (pages_of (p_sz pr)) s free /\
    k_procs s' = alter freed p (k_procs s) /\ proc_frame s s' /\
    mem_only (p_trapframe pr :: owned (p_pagetable pr) (pages_of (p_sz pr)) s free) (k_mem s) (k_mem s').
Proof.
  intros Hp Hsz Hpt [A Ht1 Ht2 Hok Hn]. unfold freeproc. rewrite bind_gets. fold pr.
  assert (Htf : p_trapframe pr <> 0) by (pose proof (page_ok_pos _ Hok); lia).
  rewrite (proj2 (Z.eqb_neq _ _) Htf), (proj2 (Z.eqb_neq _ _) Hpt). cbn [negb].
  destruct (space_kfree _ _ s free _ A Hok Hn) as (s1 & E1 & A1 & F1 & M1 & P1 & Hq1).
  rewrite (bind_ok _ _ _ _ _ E1). unfold proc_set at 1. rewrite bind_modify.
  set (s2 := upd_proc p (set_p_trapframe 0) s1).
  assert (A2 : aspace (p_pagetable pr) (pages_of (p_sz pr)) s2 (p_trapframe pr :: free)).
  { apply (aspace_frame _ _ s1); [done|done|done|apply (as_table _ _ _ _ A1)]. }
  destruct (proc_freepagetable_pages s2 _ _ _ A2) as (s3 & f3 & E3 & I3 & F3 & P3 & M3).
  { change (k_mem s2) with (k_mem s1). rewrite Hq1, Ht1 by (by vm_compute). apply leaf_top. }
  { change (k_mem s2) with (k_mem s1). rewrite Hq1, Ht2 by (by vm_compute). by apply leaf_top. }
  { done. }
  rewrite (bind_ok _ _ _ _ _ E3), freeproc_tail. eexists _, f3. split; [done|].
  assert (F1' : k_procs s1 = k_procs s) by (by rewrite F1). assert (F3' : k_procs s3 = k_procs s2) by (by rewrite F3).
  split; [by apply (kmem_inv_frame s3)|]. split; [rewrite P3; exact P1|]. split; [|split].
  - unfold upd_proc. cbn. rewrite F3'. unfold s2, upd_proc. cbn. rewrite F1'.
    exact (f_equal k_procs (upd_proc_upd_proc p (fun pr => set_p_trapframe (p_trapframe pr) (freed pr)) (set_p_trapframe 0) s)).
  - eapply proc_frame_trans; [by apply proc_frame_vm|]. eapply proc_frame_trans; [apply (proc_frame_upd s1 p (set_p_trapframe 0))|].
    eapply proc_frame_trans; [by apply proc_frame_vm|]. apply proc_frame_upd.
  - cbn. eapply mem_only_trans; [|eapply mem_only_perm; [|exact M3]; exact P1].
    eapply mem_only_mono; [|exact M1]. intros x ->%list_elem_of_singleton. by left.
Qed.

(** ** [allocproc] *)

Lemma allocproc_scan_spec ix s :
  (forall i, i ∈ ix -> proc_lock i ∉ k_held s) ->
  (exists p, p ∈ ix /\ p_state (get_proc s p) = UNUSED /\
     allocproc_scan ix s = Ok (Some p) (set_k_held (proc_lock p :: k_held s) s)) \/
  ((forall i, i ∈ ix -> p_state (get_proc s i) <> UNUSED) /\ allocproc_scan ix s = Ok None s).
Proof.
  induction ix as [|p ix IH]; intros Hl; cbn [allocproc_scan]; [right; split; [by intros i ?%not_elem_of_nil|done]|].
  assert (Hp : proc_lock p ∉ k_held s) by (apply Hl; by left).
  rewrite (bind_acquire _ _ _ Hp), bind_gets. change (get_proc (set_k_held _ s) p) with (get_proc s p).
  case_bool_decide as Hs; [left; exists p; split; [by left|]; done|].
  rewrite (bind_release (proc_lock p) (k_held s)) by done.
  change (set_k_held (k_held s) (set_k_held (proc_lock p :: k_held s) s)) with s.
  destruct IH as [(q & Hq & Hu & E)|[Hu E]]; [intros i Hi; apply Hl; by right|left; exists q; split; [by right|done]|right].
  split; [|done]. intros i [->|Hi]%elem_of_cons; [done|by apply Hu].
Qed.

(** A slot with a new process in it. *)
Definition newproc (pid tf pt : Z) (pr : proc) : proc :=
  set_p_context (set_ctx_sp (p_kstack pr + PGSIZE) (set_ctx_ra l_forkret context_zero))
    (set_p_pagetable pt (set_p_trapframe tf (set_p_state USED (set_p_pid pid pr)))).

(** What [allocproc] may change of the state. *)
Definition alloc_frame (s s' : kstate) : Prop :=
  s' = set_k_held (k_held s') (set_k_nextpid (k_nextpid s') (set_k_procs (k_procs s')
         (set_k_mem (k_mem s') (set_k_freelist (k_freelist s') s)))).

Lemma alloc_frame_proc s s' : proc_frame s s' -> alloc_frame s s'.
Proof. intros F. unfold alloc_frame. rewrite F. reflexivity. Qed.
Lemma alloc_frame_trans s1 s2 s3 : alloc_frame s1 s2 -> alloc_frame s2 s3 -> alloc_frame s1 s3.
Proof. unfold alloc_frame. intros F1 F2. rewrite F2, F1. reflexivity. Qed.

(** [freeproc] of a process that has no page table yet. *)
Lemma freeproc_early s p free :
  (p < length (k_procs s))%nat -> kmem_inv s free -> (kmem_lock ∉ k_held s) -> p_pagetable (get_proc s p) = 0 ->
  p_trapframe (get_proc s p) = 0 \/ (page_ok (p_trapframe (get_proc s p)) /\ p_trapframe (get_proc s p) ∉ free) ->
  exists s' free', freeproc p s = Ok tt s' /\ kmem_inv s' free' /\
    free' = (if p_trapframe (get_proc s p) =? 0 then free else p_trapframe (get_proc s p) :: free) /\
    k_procs s' = alter freed p (k_procs s) /\ proc_frame s s' /\ mem_only free' (k_mem s) (k_mem s').
Proof.
  intros Hp I Hl Hpt Htf. unfold freeproc. rewrite bind_gets, Hpt. cbn [Z.eqb negb].
  destruct (Z.eqb_spec (p_trapframe (get_proc s p)) 0) as [E0|E0]; cbn [negb].
  - rewrite bind_ret. unfold proc_set at 1. rewrite bind_modify, bind_ret, freeproc_tail, upd_proc_upd_proc.
    eexists _, free. split; [done|]. split; [by apply (kmem_inv_frame s)|]. split; [done|]. split; [done|]. split; [|done].
    apply proc_frame_upd.
  - destruct Htf as [|[Hok Hn]]; [done|]. destruct (kfree_step _ s free I Hl Hok Hn) as (s1 & E1 & I1 & F1 & M1).
    rewrite (bind_ok _ _ _ _ _ E1). unfold proc_set at 1. rewrite bind_modify, bind_ret, freeproc_tail, upd_proc_upd_proc.
    eexists _, _. split; [done|]. split; [by apply (kmem_inv_frame s1)|]. split; [done|].
    assert (F1' : k_procs s1 = k_procs s) by (by rewrite F1).
    split; [unfold upd_proc; cbn; by rewrite F1'|]. split.
    + eapply proc_frame_trans; [by apply proc_frame_vm|]. apply proc_frame_upd.
    + eapply mem_only_mono; [|exact M1]. intros x ->%list_elem_of_singleton. by left.
Qed.

(** The outcome of [allocproc] in slot [p]: a new process with its lock held,
    or everything given back. *)
Record alloc_ok (s : kstate) (p : nat) (free : list Z) (s' : kstate) (tf pt : Z) (free' : list Z) : Prop := {
  al_held : k_held s' = proc_lock p :: k_held s;
  al_procs : k_procs s' = alter (newproc (k_nextpid s) tf pt) p (k_procs s);
  al_pt : pt <> 0;
  al_space : pspace pt tf 0 s' free';
  al_pages : tf :: tree 2 (k_mem s') pt ++ free' ≡ₚ free;
  al_used : (length free <= length free' + 6)%nat;
  al_frame : alloc_frame s s';
  al_mem : mem_only free (k_mem s) (k_mem s')
}.

Record alloc_failed (s : kstate) (p : nat) (free : list Z) (s' : kstate) (free' : list Z) : Prop := {
  af_held : k_held s' = k_held s;
  af_slot : forall q, q <> p -> get_proc s' q = get_proc s q;
  af_inv : kmem_inv s' free';
  af_pages : free' ≡ₚ free;
  af_few : (length free < 6)%nat;
  af_unused : p_state (get_proc s' p) = UNUSED;
  af_frame : alloc_frame s s';
  af_mem : mem_only free (k_mem s) (k_mem s')
}.

Lemma kalloc_step s new free :
  kmem_inv s (new :: free) -> (kmem_lock ∉ k_held s) ->
  exists s', kalloc s = Ok new s' /\ kmem_inv s' free /\ vm_frame s s' /\ mem_only [new] (k_mem s) (k_mem s') /\
    page_ok new /\ new ∉ free.
Proof.
  intros I Hl. pose proof I as [[_ Hfl] Hnd Hpg]. apply NoDup_cons in Hnd as [Hn Hnd]. apply Forall_cons in Hpg as [Hok Hpg].
  eexists. split; [by apply (kalloc_some s new free)|].
  assert (M : mem_only [new] (k_mem s) (memset (k_mem s) new 5 PGSIZE)).
  { intros a Ha. rewrite rd_memset by (by vm_compute). rewrite decide_False; [done|]. apply Ha. by left. }
  split; [by apply kalloc_inv_pop|split; [reflexivity|split; [exact M|done]]].
Qed.

Lemma get_proc_procs s s' q : k_procs s' = k_procs s -> get_proc s' q = get_proc s q.
Proof. unfold get_proc. by intros ->. Qed.

(** The clean-up of [allocproc], from a state [s3] on its way. *)
Lemma alloc_undo s p free s3 f3 :
  let tf := p_trapframe (get_proc s3 p) in
  k_held s = [] -> (p < length (k_procs s))%nat -> alloc_frame s s3 -> k_held s3 = [proc_lock p] ->
  (forall q, q <> p -> get_proc s3 q = get_proc s q) -> length (k_procs s3) = length (k_procs s) ->
  p_pagetable (get_proc s3 p) = 0 -> kmem_inv s3 f3 -> (length free < 6)%nat -> mem_only free (k_mem s) (k_mem s3) ->
  (tf = 0 /\ f3 ≡ₚ free) \/ (page_ok tf /\ (tf ∉ f3) /\ tf :: f3 ≡ₚ free) ->
  exists s' free', (freeproc p ;;; release (proc_lock p) ;;; ret None) s3 = Ok (None : option nat) s' /\ alloc_failed s p free s' free'.
Proof.
  intros tf Hh Hp F Hh3 Ho Hn Hpt I3 Hlen M Htf.
  destruct (freeproc_early s3 p f3) as (s4 & f4 & E4 & I4 & Ef & Ep & F4 & M4); [by rewrite Hn|done|by rewrite Hh3, list_elem_of_singleton|done|naive_solver|].
  fold tf in Ef. rewrite (bind_ok _ _ _ _ _ E4).
  assert (Hh4 : k_held s4 = [proc_lock p]) by (rewrite F4; exact Hh3).
  rewrite (bind_release _ _ _ _ Hh4) by apply not_elem_of_nil.
  assert (P : f4 ≡ₚ free).
  { rewrite Ef. destruct Htf as [[-> H]|(H1 & H2 & H)]; [done|]. pose proof (page_ok_pos _ H1).
    by rewrite (proj2 (Z.eqb_neq tf 0)) by lia. }
  exists (set_k_held [] s4), f4. split; [done|]. split; [by rewrite Hh| |by apply (kmem_inv_frame s4)|done|done| | |].
  - intros q Hq. change (get_proc (set_k_held [] s4) q) with (get_proc s4 q). rewrite <- Ho by done.
    rewrite (get_proc_procs (upd_proc p freed s3) s4) by exact Ep. by apply get_upd_other.
  - change (get_proc (set_k_held [] s4) p) with (get_proc s4 p).
    rewrite (get_proc_procs (upd_proc p freed s3) s4) by exact Ep. by rewrite get_upd_same by (by rewrite Hn).
  - eapply alloc_frame_trans; [exact F|]. eapply alloc_frame_trans; [by apply alloc_frame_proc|]. reflexivity.
  - cbn. eapply mem_only_trans; [exact M|]. by eapply mem_only_perm.
Qed.

Lemma pspace_frame pt tf n s s' free :
  pspace pt tf n s free -> k_mem s' = k_mem s -> k_freelist s' = k_freelist s -> (kmem_lock ∉ k_held s') ->
  pspace pt tf n s' free.
Proof. intros [A H1 H2 H3 H4] Em Ef Hl. split; unfold owned in *; rewrite ?Em; try done. by apply (aspace_frame _ _ s). Qed.

Lemma alter_compose3 (f g h : proc -> proc) (p : nat) (l : list proc) :
  alter f p (alter g p (alter h p l)) = alter (fun pr => f (g (h pr))) p l.
Proof.
  apply list_eq. intros j. destruct (decide (p = j)) as [<-|Hne]; [|by rewrite !list_lookup_alter_ne].
  rewrite !list_lookup_alter_eq. by destruct (l !! p).
Qed.

Lemma allocproc_found_spec s p free :
  k_held s = [] -> (p < length (k_procs s))%nat -> kmem_inv s free ->
  p_pagetable (get_proc s p) = 0 ->
  (exists s' tf pt free', allocproc_found p (set_k_held [proc_lock p] s) = Ok (Some p) s' /\ alloc_ok s p free s' tf pt free') \/
  (exists s' free', allocproc_found p (set_k_held [proc_lock p] s) = Ok None s' /\ alloc_failed s p free s' free').
Proof.
  intros Hh Hp I Hpt. set (s0 := set_k_held [proc_lock p] s).
  set (P := fun o => (exists s' tf pt free', o = Ok (Some p) s' /\ alloc_ok s p free s' tf pt free') \/
    (exists s' free', o = Ok None s' /\ alloc_failed s p free s' free')).
  change (P (allocproc_found p s0)). unfold allocproc_found, allocpid.
  rewrite bind_assoc, (bind_acquire pid_lock) by (cbn; rewrite list_elem_of_singleton; done).
  rewrite bind_assoc, bind_gets, bind_assoc, bind_modify, bind_assoc.
  rewrite (bind_release pid_lock [proc_lock p]) by (done || cbn; rewrite list_elem_of_singleton; done).
  rewrite bind_ret. unfold proc_set at 1 2. rewrite !bind_modify, upd_proc_upd_proc.
  set (s1 := upd_proc p _ _).
  assert (I1 : kmem_inv s1 free) by (by apply (kmem_inv_frame s)).
  assert (Hl1 : kmem_lock ∉ k_held s1) by (cbn; by rewrite list_elem_of_singleton).
  assert (G1 : get_proc s1 p = set_p_state USED (set_p_pid (k_nextpid s) (get_proc s p))).
  { unfold s1. by rewrite get_upd_same. }
  assert (F1 : alloc_frame s s1) by reflexivity.
  assert (Hs1 : forall q, q <> p -> get_proc s1 q = get_proc s q) by (intros q Hq; unfold s1; by rewrite get_upd_other).
  assert (N1 : length (k_procs s1) = length (k_procs s)) by apply length_alter.
  destruct free as [|tf free].
  - rewrite (bind_ok _ _ _ _ _ (kalloc_none _ I1 Hl1)). unfold proc_set at 1. rewrite bind_modify. cbn [Z.eqb].
    right. apply (alloc_undo s p [] (upd_proc p (set_p_trapframe 0) s1) []);
      [done|done|by eapply alloc_frame_trans|done| | | |by apply (kmem_inv_frame s1)|cbn; lia|done|].
    + intros q Hq. rewrite get_upd_other by done. by apply Hs1.
    + by rewrite length_upd_proc.
    + rewrite get_upd_same, G1 by (by rewrite N1). done.
    + left. rewrite get_upd_same by (by rewrite N1). done.
  - destruct (kalloc_step _ _ _ I1 Hl1) as (s2 & E2 & I2 & F2 & M2 & Hok & Hn). rewrite (bind_ok _ _ _ _ _ E2).
    unfold proc_set at 1. rewrite bind_modify.
    assert (Htf : tf <> 0) by (pose proof (page_ok_pos _ Hok); lia). rewrite (proj2 (Z.eqb_neq _ _) Htf).
    set (s3 := upd_proc p (set_p_trapframe tf) s2).
    assert (Es2 : k_procs s2 = k_procs s1) by (by rewrite F2).
    assert (G3 : get_proc s3 p = set_p_trapframe tf (set_p_state USED (set_p_pid (k_nextpid s) (get_proc s p)))).
    { unfold s3. rewrite get_upd_same by (by rewrite Es2, N1). by rewrite (get_proc_procs s1 s2), G1. }
    assert (Hh3 : k_held s3 = [proc_lock p]) by (change (k_held s3) with (k_held s2); by rewrite F2).
    destruct (proc_pagetable_pages s3 p free tf) as (s4 & F4 & M4 & Hc);
      [by apply (kmem_inv_frame s2)|by rewrite Hh3, list_elem_of_singleton|by rewrite G3|done|done|].
    assert (M : mem_only (tf :: free) (k_mem s) (k_mem s4)).
    { apply (mem_only_trans _ _ (k_mem s2)).
      - eapply mem_only_mono; [|exact M2]. intros x ->%list_elem_of_singleton. by left.
      - eapply mem_only_mono; [|exact M4]. intros x Hx. by right. }
    assert (F04 : alloc_frame s s4).
    { eapply alloc_frame_trans; [exact F1|]. eapply alloc_frame_trans; [by apply alloc_frame_proc, proc_frame_vm|].
      eapply alloc_frame_trans; [apply (alloc_frame_proc _ s3), proc_frame_upd|]. by apply alloc_frame_proc, proc_frame_vm. }
    assert (Es4 : k_procs s4 = k_procs s3) by (by rewrite F4).
    assert (Hh4 : k_held s4 = [proc_lock p]) by (rewrite F4; exact Hh3).
    destruct Hc as [(pt & f4 & E4 & Hpt4 & S4 & P4 & Hl4)|(f4 & E4 & I4 & P4 & Hl4)]; rewrite (bind_ok _ _ _ _ _ E4).
    + unfold proc_set at 1. rewrite bind_modify, (proj2 (Z.eqb_neq _ _) Hpt4). unfold proc_set. rewrite bind_modify.
      left. eexists _, tf, pt, f4. split; [done|]. rewrite upd_proc_upd_proc.
      split; [cbn; by rewrite Hh4, Hh| |done| |by rewrite P4|cbn; lia| |exact M].
      * unfold upd_proc. cbn. rewrite Es4. unfold s3, upd_proc. cbn. rewrite Es2. apply alter_compose3.
      * apply (pspace_frame _ _ _ s4); [done|done|done|cbn; by rewrite Hh4, list_elem_of_singleton].
      * eapply alloc_frame_trans; [exact F04|]. apply alloc_frame_proc, proc_frame_upd.
    + unfold proc_set at 1. rewrite bind_modify. cbn [Z.eqb]. right.
      assert (G4 : get_proc s4 p = get_proc s3 p) by (by apply get_proc_procs).
      apply (alloc_undo s p (tf :: free) (upd_proc p (set_p_pagetable 0) s4) f4);
        [done|done| |done| | | |by apply (kmem_inv_frame s4)|cbn; lia|exact M|].
      * eapply alloc_frame_trans; [exact F04|]. apply alloc_frame_proc, proc_frame_upd.
      * intros q Hq. rewrite get_upd_other, (get_proc_procs s3 s4) by done. unfold s3.
        rewrite get_upd_other, (get_proc_procs s1 s2) by done. by apply Hs1.
      * rewrite length_upd_proc, Es4. unfold s3. by rewrite length_upd_proc, Es2.
      * rewrite get_upd_same; [done|]. rewrite Es4. unfold s3. by rewrite length_upd_proc, Es2, N1.
      * right. rewrite get_upd_same, G4, G3 by (rewrite Es4; unfold s3; by rewrite length_upd_proc, Es2, N1).
        split; [done|]. cbn. by rewrite P4.
Qed.

(** ** The table as a whole *)

(** Unused slots have no memory. *)
Definition slots_ok (s : kstate) : Prop :=
  length (k_procs s) = NPROC /\
  forall i, p_state (get_proc s i) = UNUSED -> p_pagetable (get_proc s i) = 0 /\ p_sz (get_proc s i) = 0.

Lemma allocproc_pages s free :
  k_held s = [] -> slots_ok s -> kmem_inv s free ->
  (allocproc s = Ok None s /\ forall i, (i < NPROC)%nat -> p_state (get_proc s i) <> UNUSED) \/
  exists p, (p < NPROC)%nat /\ p_state (get_proc s p) = UNUSED /\
    ((exists s' tf pt free', allocproc s = Ok (Some p) s' /\ alloc_ok s p free s' tf pt free') \/
     (exists s' free', allocproc s = Ok None s' /\ alloc_failed s p free s' free')).
Proof.
  intros Hh [Hn Hs] I. unfold allocproc.
  destruct (allocproc_scan_spec (seq 0 NPROC) s) as [(p & Hp & Hu & E)|[Hu E]]; [intros i _; rewrite Hh; apply not_elem_of_nil| |].
  - right. exists p. apply elem_of_seq in Hp. rewrite (bind_ok _ _ _ _ _ E), Hh. split; [lia|]. split; [done|].
    apply allocproc_found_spec; [done|lia|done|by apply Hs].
  - left. rewrite (bind_ok _ _ _ _ _ E). split; [done|]. intros i Hi. apply Hu. apply elem_of_seq. lia.
Qed.

(** An address space does not see writes to other pages. *)
Lemma outside_kept pt n s free m' :
  aspace pt n s free -> mem_only free (k_mem s) m' ->
  tree 2 m' pt = tree 2 (k_mem s) pt /\ (forall va, pte_of 2 m' pt va = pte_of 2 (k_mem s) pt va) /\
  frames m' pt 0 n = frames (k_mem s) pt 0 n /\
  forall p a, p ∈ tree 2 (k_mem s) pt ++ frames (k_mem s) pt 0 n -> p <= a < p + PGSIZE -> rd m' a = rd (k_mem s) a.
Proof.
  intros A M. pose proof (as_table _ _ _ _ A) as T.
  assert (Hrd : forall p a, p ∈ tree 2 (k_mem s) pt ++ frames (k_mem s) pt 0 n -> p <= a < p + PGSIZE -> rd m' a = rd (k_mem s) a).
  { intros p a Hp. apply (mem_only_page free); [exact M| |apply (table_free_pages _ _ _ T)|].
    - pose proof (as_nodup _ _ _ _ A) as Hd. rewrite app_assoc in Hd. apply NoDup_app in Hd as (_ & Hd & _). by apply Hd.
    - assert (Ha : Forall page_ok (tree 2 (k_mem s) pt ++ frames (k_mem s) pt 0 n)) by (apply Forall_app; split; [apply T|apply (as_pages _ _ _ _ A)]).
      rewrite Forall_forall in Ha. by apply Ha. }
  destruct (tree_agree 2 (k_mem s) m' pt) as (Ht & _ & Hp).
  { intros p a Hp. apply Hrd. apply elem_of_app. by left. }
  split; [done|]. split; [done|]. split; [|done]. apply frames_agree. intros i _. apply Hp.
Qed.
End Mem.
