(* ===== verification/ProcFork.v ===== *)
(** * [fork] and [wait]

    [fork] makes a child with a private copy of the parent's memory and
    shared files, or gives everything back; [wait] delivers the status and
    the message of a child that has exited and frees all it had. *)

From S2P Require Import Prelude KString Bytes Ring KState Riscv Spinlock Kalloc Vm VmTree VmMap VmSpace VmFree VmCopy Sched.
From S2P Require Import Uart Console Sleeplock Bio Log Fs Pipe File Proc ProcMem.

(** ** Shared files *)

(** The file behind a descriptor. *)
Definition fd_file (o : list (option nat)) (fd : nat) : option nat := nth fd o None.

(** One more reference to the files behind [ix]. *)
Definition ref_up (fl : file) : file := set_f_ref (s32 (f_ref fl + 1)) fl.
Fixpoint files_up (ix : list nat) (o : list (option nat)) (fs : list file) : list file :=
  match ix with
  | [] => fs
  | fd :: ix =>
      match fd_file o fd with
      | Some f => files_up ix o (alter ref_up f fs)
      | None => files_up ix o fs
      end
  end.

Fixpoint copy_fds (ix : list nat) (o c : list (option nat)) : list (option nat) :=
  match ix with
  | [] => c
  | fd :: ix =>
      match fd_file o fd with
      | Some f => copy_fds ix o (<[fd := Some f]> c)
      | None => copy_fds ix o c
      end
  end.

(** How many of the descriptors [ix] are open on [f]. *)
Definition uses (ix : list nat) (o : list (option nat)) (f : nat) : Z :=
  Z.of_nat (length (filter (fun fd => fd_file o fd = Some f) ix)).

Definition files_ok (s : kstate) (o : list (option nat)) : Prop :=
  forall fd f, fd_file o fd = Some f -> (f < length (k_files s))%nat /\ 1 <= f_ref (get_file s f) < 2 ^ 31 - Z.of_nat NOFILE.

Lemma filedup_ok {B} f s (k : nat -> K B) :
  (ftable_lock ∉ k_held s) -> 1 <= f_ref (get_file s f) ->
  (let! x := filedup f in k x) s = k f (upd_file f ref_up s).
Proof.
  intros Hl Hr. unfold filedup. rewrite bind_assoc, (bind_acquire _ _ _ Hl). unfold file_get. rewrite bind_assoc, bind_gets.
  change (get_file (set_k_held (ftable_lock :: k_held s) s) f) with (get_file s f).
  rewrite (proj2 (Z.ltb_ge _ _)) by lia. unfold file_set. rewrite bind_assoc, bind_modify, bind_assoc.
  rewrite (bind_release ftable_lock (k_held s)) by done. by rewrite bind_ret.
Qed.

Lemma file_ref_up s f f' :
  1 <= f_ref (get_file s f') -> f_ref (get_file s f') + 1 < 2 ^ 31 ->
  f_ref (get_file (upd_file f ref_up s) f') = f_ref (get_file s f') + if decide (f = f') then 1 else 0.
Proof.
  intros H1 H2. unfold get_file, upd_file in *. cbn. destruct (decide (f = f')) as [<-|Hne].
  - rewrite list_lookup_alter_eq. destruct (k_files s !! f) as [fl|]; cbn in *; [|lia]. apply s32_small. lia.
  - rewrite list_lookup_alter_ne by done. lia.
Qed.

Lemma dup_files_ok ix : forall s p np o,
  p <> np -> (np < length (k_procs s))%nat -> p_ofile (get_proc s p) = o -> (ftable_lock ∉ k_held s) ->
  (forall fd f, fd ∈ ix -> fd_file o fd = Some f -> 1 <= f_ref (get_file s f) /\ f_ref (get_file s f) + Z.of_nat (length ix) < 2 ^ 31) ->
  dup_files ix p np s = Ok tt (set_k_files (files_up ix o (k_files s))
    (upd_proc np (fun pr => set_p_ofile (copy_fds ix o (p_ofile pr)) pr) s)).
Proof.
  induction ix as [|fd ix IH]; intros s p np o Hne Hnp Ho Hl Hf; cbn [dup_files].
  { unfold ret. f_equal. cbn [files_up copy_fds]. rewrite upd_proc_id; done. }
  rewrite bind_gets, Ho. change (nth fd o None) with (fd_file o fd).
  destruct (fd_file o fd) as [f|] eqn:Ef.
  - rewrite bind_assoc. destruct (Hf fd f) as [Hr Hb]; [by left|done|]. rewrite filedup_ok by done.
    unfold proc_set. rewrite bind_modify. cbn [files_up copy_fds]. rewrite Ef.
    rewrite (IH _ p np o); [unfold upd_file; by rewrite upd_proc_upd_proc|done|by rewrite length_upd_proc| |done|].
    + rewrite get_upd_other by done. exact Ho.
    + intros fd' f' Hfd Hf'. destruct (Hf fd' f') as [Hr' Hb']; [by right|done|]. cbn [length] in Hb'.
      change (get_file (upd_proc _ _ (upd_file f ref_up s)) f') with (get_file (upd_file f ref_up s) f').
      pose proof (file_ref_up s f f' Hr') as E. cbn in E. rewrite E by lia. case_decide; lia.
  - rewrite bind_ret. cbn [files_up copy_fds]. rewrite Ef. apply IH; [done|done|done|done|].
    intros fd' f' Hfd Hf'. destruct (Hf fd' f') as [Hr' Hb']; [by right|done|]. cbn [length] in Hb'. lia.
Qed.

Lemma files_up_other ix o f : forall fs,
  (forall fd, fd ∈ ix -> fd_file o fd <> Some f) -> files_up ix o fs !! f = fs !! f.
Proof.
  induction ix as [|fd ix IH]; intros fs H; cbn [files_up]; [done|].
  assert (Hix : forall fd', fd' ∈ ix -> fd_file o fd' <> Some f) by (intros fd' Hfd; apply H; by right).
  destruct (fd_file o fd) as [g|] eqn:Eg; [|by apply IH]. rewrite IH by done. apply list_lookup_alter_ne.
  intros ->. apply (H fd); [by left|done].
Qed.

Lemma files_up_lookup ix o f : forall fs fl,
  fs !! f = Some fl -> 1 <= f_ref fl -> f_ref fl + Z.of_nat (length ix) < 2 ^ 31 ->
  files_up ix o fs !! f = Some (set_f_ref (f_ref fl + uses ix o f) fl).
Proof.
  induction ix as [|fd ix IH]; intros fs fl Hf H1 H2; cbn [files_up length] in *.
  { rewrite Hf. unfold uses. cbn. by rewrite Z.add_0_r. }
  unfold uses. rewrite filter_cons. destruct (fd_file o fd) as [g|] eqn:Eg.
  - case_decide as Hg.
    + injection Hg as ->. rewrite (IH _ (ref_up fl)).
      * f_equal. unfold ref_up, set_f_ref. cbn. rewrite s32_small by lia. f_equal. unfold uses. cbn [length]. lia.
      * by rewrite list_lookup_alter_eq, Hf.
      * cbn. rewrite s32_small; lia.
      * cbn. rewrite s32_small; lia.
    + apply IH; [|done|lia]. rewrite list_lookup_alter_ne; [done|]. congruence.
  - case_decide; [done|]. apply IH; [done|done|lia].
Qed.

Lemma length_copy_fds ix o : forall c, length (copy_fds ix o c) = length c.
Proof.
  induction ix as [|fd ix IH]; intros c; cbn [copy_fds]; [done|]. destruct (fd_file o fd); [|apply IH].
  by rewrite IH, length_insert.
Qed.

Lemma copy_fds_lookup ix o fd : forall c,
  (fd < length c)%nat ->
  copy_fds ix o c !! fd = match fd_file o fd with
                          | Some f => if decide (fd ∈ ix) then Some (Some f) else c !! fd
                          | None => c !! fd
                          end.
Proof.
  induction ix as [|x ix IH]; intros c Hc; cbn [copy_fds].
  { destruct (fd_file o fd); [|done]. by rewrite decide_False by apply not_elem_of_nil. }
  destruct (fd_file o x) as [g|] eqn:Ex.
  - rewrite IH by (by rewrite length_insert). destruct (decide (x = fd)) as [->|Hne].
    + rewrite Ex. rewrite (decide_True (P := fd ∈ fd :: ix)) by (by left). case_decide; [done|]. by rewrite list_lookup_insert_eq.
    + rewrite list_lookup_insert_ne by done. destruct (fd_file o fd) as [h|]; [|done].
      destruct (decide (fd ∈ ix)) as [Hi|Hi]; [by rewrite decide_True by (by right)|].
      rewrite decide_False; [done|]. intros [H|H]%elem_of_cons; [by rewrite H in Hne|done].
  - rewrite IH by done. destruct (fd_file o fd) as [h|] eqn:Eh; [|done].
    destruct (decide (fd ∈ ix)) as [Hi|Hi]; [by rewrite decide_True by (by right)|].
    rewrite decide_False; [done|]. intros [->|H]%elem_of_cons; [congruence|done].
Qed.

(** All descriptors are copied to a fresh table. *)
Lemma copy_fds_all n o : length o = n -> copy_fds (seq 0 n) o (replicate n None) = o.
Proof.
  intros Ho. apply list_eq. intros fd. destruct (decide (fd < n)%nat) as [Hfd|Hfd].
  - rewrite copy_fds_lookup by (by rewrite length_replicate). unfold fd_file.
    destruct (o !! fd) as [x|] eqn:E; [|apply lookup_ge_None in E; lia]. rewrite (nth_lookup_Some _ _ _ _ E).
    destruct x as [f|]; [by rewrite decide_True by (apply elem_of_seq; lia)|by apply lookup_replicate].
  - rewrite !lookup_ge_None_2; [done|lia|]. rewrite length_copy_fds, length_replicate. lia.
Qed.

(** ** Trapframes *)

Lemma tf_copied m src dst f v :
  0 <= f -> f + 8 <= 288 -> f mod 8 = 0 -> 0 <= v < 2 ^ 64 ->
  load64 (store64 (wr_bytes m dst (bytes_at m src trapframe_size)) (dst + tf_a0) v) (dst + f) =
  if decide (f = tf_a0) then v else load64 m (src + f).
Proof.
  intros H0 H1 H8 Hv. case_decide as Hf; [subst f; rewrite load64_store64_same; by apply u64_small|].
  rewrite load64_store64_other by (unfold tf_a0 in *; mlia). apply load64_shift. intros i Hi.
  rewrite rd_wr_bytes. replace (Z.to_nat (dst + f + i - dst)) with (Z.to_nat (f + i)) by lia.
  rewrite bytes_at_lookup by (unfold trapframe_size; lia). rewrite decide_True by lia.
  rewrite u8_small by apply rd_range. f_equal. lia.
Qed.

Section Fork.
Context {L : Layout} {LO : LayoutOk L}.

(** ** [fork] *)

(** A running process: its memory, its files, its directory; and the table. *)
Record running (s : kstate) (p : nat) (free : list Z) : Prop := {
  ru_cur : k_cur s = Some p;
  ru_held : k_held s = [];
  ru_slots : slots_ok s;
  ru_proc : (p < NPROC)%nat /\ p_state (get_proc s p) = RUNNING;
  ru_size : 0 <= p_sz (get_proc s p) <= TRAPFRAME;
  ru_space : pspace (p_pagetable (get_proc s p)) (p_trapframe (get_proc s p)) (pages_of (p_sz (get_proc s p))) s free;
  ru_files : length (p_ofile (get_proc s p)) = NOFILE /\ files_ok s (p_ofile (get_proc s p));
  ru_cwd : exists c, p_cwd (get_proc s p) = Some c /\ (c < length (k_inodes s))%nat;
  ru_fresh : forall q, p_state (get_proc s q) = UNUSED -> p_ofile (get_proc s q) = replicate NOFILE None
}.

(** [np] is a new child of [p]. *)
Record child_of (s : kstate) (p : nat) (free : list Z) (np : nat) (s' : kstate) (free' : list Z) : Prop := {
  ch_slot : (np < NPROC)%nat /\ p_state (get_proc s np) = UNUSED;
  ch_table : length (k_procs s') = NPROC;
  ch_others : forall q, q <> np -> get_proc s' q = get_proc s q;
  ch_state : p_state (get_proc s' np) = RUNNABLE;
  ch_pid : p_pid (get_proc s' np) = k_nextpid s;
  ch_parent : p_parent (get_proc s' np) = Some p;
  ch_sz : p_sz (get_proc s' np) = p_sz (get_proc s p);
  ch_ofile : p_ofile (get_proc s' np) = p_ofile (get_proc s p);
  ch_cwd : p_cwd (get_proc s' np) = p_cwd (get_proc s p);
  ch_space : pspace (p_pagetable (get_proc s' np)) (p_trapframe (get_proc s' np)) (pages_of (p_sz (get_proc s p))) s' free';
  ch_mine : pspace (p_pagetable (get_proc s p)) (p_trapframe (get_proc s p)) (pages_of (p_sz (get_proc s p))) s' free';
  ch_copied : copied (k_mem s) (p_pagetable (get_proc s p)) (k_mem s') (p_pagetable (get_proc s' np)) (pages_of (p_sz (get_proc s p)));
  ch_tf : forall f, 0 <= f -> f + 8 <= 288 -> f mod 8 = 0 ->
    load64 (k_mem s') (p_trapframe (get_proc s' np) + f) =
    if decide (f = tf_a0) then 0 else load64 (k_mem s) (p_trapframe (get_proc s p) + f);
  ch_pages : p_trapframe (get_proc s' np) :: owned (p_pagetable (get_proc s' np)) (pages_of (p_sz (get_proc s p))) s' free' ≡ₚ free;
  ch_mem : mem_only free (k_mem s) (k_mem s');
  ch_files : forall f, get_file s' f = set_f_ref (f_ref (get_file s f) + uses (seq 0 NOFILE) (p_ofile (get_proc s p)) f) (get_file s f);
  ch_inodes : exists c, p_cwd (get_proc s p) = Some c /\
    k_inodes s' = alter (fun ip => set_i_ref (s32 (i_ref ip + 1)) ip) c (k_inodes s);
  ch_frame : alloc_frame (set_k_inodes (k_inodes s') (set_k_files (k_files s') s)) s';
  ch_held : k_held s' = []
}.

Lemma pte_same_page lvl m va va' : va / PGSIZE = va' / PGSIZE -> forall pt, pte_of lvl m pt va = pte_of lvl m pt va'.
Proof.
  intros H. induction lvl as [|lvl IH]; intros pt; [cbn; by rewrite (px_same_page 0 va va') by (done || lia)|].
  rewrite !pte_of_S, (px_same_page _ va va') by (done || lia). case_match; [apply IH|done].
Qed.

(** User programs do not reach the two pages at the top. *)
Lemma pspace_uspace pt tf n s free : pspace pt tf n s free -> uspace pt n s free.
Proof.
  intros [A Ht1 Ht2 Hok Hn]. split; [done|]. intros va Hva. rewrite TRAPFRAME_eq, MAXVA_eq in Hva.
  assert (Hc : va / PGSIZE = TRAMPOLINE / PGSIZE \/ va / PGSIZE = TRAPFRAME / PGSIZE).
  { change (TRAPFRAME / PGSIZE) with 67108862. change (TRAMPOLINE / PGSIZE) with 67108863. unfold PGSIZE in *. mlia. }
  destruct Hc as [H|H]; rewrite (pte_same_page _ _ _ _ H), ?Ht1, ?Ht2.
  - destruct tramp_range as [H1 H2]. destruct (pte_val_ok _ (Z.lor PTE_R PTE_X) H1 H2) as (_ & _ & Hf & _); [by vm_compute|].
    unfold tramp_pte. rewrite has_flag_flags, Hf by (by vm_compute). by vm_compute.
  - destruct (page_ok_range _ Hok) as [H1 H2]. destruct (pte_val_ok _ (Z.lor PTE_R PTE_W) H1 H2) as (_ & _ & Hf & _); [by vm_compute|].
    unfold tf_pte. rewrite has_flag_flags, Hf by (by vm_compute). by vm_compute.
Qed.

(** A process keeps its address space when free pages are put to use. *)
Lemma pspace_beside pt tf n s free s' free' :
  pspace pt tf n s free -> mem_only free (k_mem s) (k_mem s') -> kmem_inv s' free' -> (kmem_lock ∉ k_held s') ->
  (forall x, x ∈ free' -> x ∈ free) -> pspace pt tf n s' free'.
Proof.
  intros [A Ht1 Ht2 Hok Hn] M I Hl Hs. destruct (outside_kept _ _ _ _ _ A M) as (Et & Ep & Ef & Hrd).
  pose proof A as [[_ _ T1 T2 T3] A2 A3 A4 A5 A6 A7].
  assert (Hnd : forall l : list Z, NoDup (l ++ free) -> NoDup (l ++ free')).
  { intros l (N1 & N2 & N3)%NoDup_app. apply NoDup_app. split; [done|]. split; [intros x Hx Hf; by apply (N2 x Hx), Hs|apply I]. }
  split; rewrite ?Ep; try done.
  - split; rewrite ?Et, ?Ef; try done.
    + split; rewrite ?Et; try done; [by apply Hnd|]. apply (inner_agree 2 (k_mem s)); [|done].
      intros x a Hx. apply Hrd. apply elem_of_app. by left.
    + intros i Hi. rewrite Ep. by apply A3.
    + intros va Hva. rewrite Ep. by apply A4.
    + rewrite app_assoc in A6 |- *. by apply Hnd.
    + intros va Hva. rewrite Ep. by apply A7.
  - unfold owned in *. rewrite Et, Ef. rewrite !not_elem_of_app in *. naive_solver.
Qed.

(** Growing and shrinking keep the two pages at the top. *)
Lemma pspace_step k pt tf n s free n' s' free' :
  pspace pt tf n s free -> as_step k pt n s free n' s' free' -> pspace pt tf n' s' free'.
Proof.
  intros [A Ht1 Ht2 Hok Hn] S.
  split; [apply S|by rewrite (st_top _ _ _ _ _ _ _ _ S) by (by vm_compute)|by rewrite (st_top _ _ _ _ _ _ _ _ S) by (by vm_compute)|done|].
  by rewrite (st_owned _ _ _ _ _ _ _ _ S).
Qed.

(** After [allocproc] and [uvmcopy]. *)
Lemma fork_memory s p free np s1 tf pt free1 (pr := get_proc s p) (n := pages_of (p_sz pr)) :
  running s p free -> (np < NPROC)%nat -> p_state (get_proc s np) = UNUSED -> alloc_ok s np free s1 tf pt free1 ->
  exists s2 free2, vm_frame s1 s2 /\ mem_only free (k_mem s) (k_mem s2) /\
    ((uvmcopy (p_pagetable pr) pt (p_sz pr) s1 = Ok 0 s2 /\ pspace pt tf n s2 free2 /\
      copied (k_mem s) (p_pagetable pr) (k_mem s2) pt n /\ tf :: owned pt n s2 free2 ≡ₚ free) \/
     (uvmcopy (p_pagetable pr) pt (p_sz pr) s1 = Ok (-1) s2 /\ pspace pt tf 0 s2 free2 /\ tf :: owned pt 0 s2 free2 ≡ₚ free /\
      (length free < 6 + 3 * n)%nat)).
Proof.
  intros R Hnp Hu [Hh Hps Hpt0 S1 Hpg Hus F M]. pose proof (ps_space _ _ _ _ _ S1) as A1. pose proof (ru_space _ _ _ R) as [A _ _ _ _]. fold pr n in A.
  destruct (outside_kept _ _ _ _ _ A M) as (Et & Ep & Ef & Hrd).
  destruct (uvmcopy_pages (p_pagetable pr) pt (p_sz pr) s1 free1) as (s2 & free2 & Hc & Hk & Hk2); [|done|apply (ru_size _ _ _ R)|].
  { fold n. split.
    - intros i Hi. rewrite Ep. by apply (as_leaf _ _ _ _ A).
    - rewrite Et, Ef. apply Forall_app. split; [apply (as_table _ _ _ _ A)|apply (as_pages _ _ _ _ A)].
    - rewrite Et, Ef. intros x Hx Ho. pose proof (as_nodup _ _ _ _ A) as Hd. rewrite app_assoc in Hd.
      apply NoDup_app in Hd as (_ & Hd & _). apply (Hd x Hx). rewrite <- Hpg. right. exact Ho. }
  assert (Hown : forall j, as_step 0 pt 0 s1 free1 j s2 free2 ->
    vm_frame s1 s2 /\ mem_only free (k_mem s) (k_mem s2) /\ pspace pt tf j s2 free2 /\ tf :: owned pt j s2 free2 ≡ₚ free).
  { intros j S. split; [apply S|]. split.
    - eapply mem_only_trans; [exact M|]. eapply mem_only_mono; [|apply S]. intros x Hx. rewrite <- Hpg. by right.
    - split; [by eapply pspace_step|]. rewrite (st_owned _ _ _ _ _ _ _ _ S). exact Hpg. }
  exists s2, free2. fold n in Hc. destruct Hc as [(E & S & C)|(E & Hlt & S)]; destruct (Hown _ S) as (F2 & M2 & P2 & G2).
  - split; [done|]. split; [done|]. left. split; [done|]. split; [done|]. split; [|done].
    intros i Hi. destruct (C i Hi) as [C1 C2]. rewrite <- Ep. split; [done|]. intros off Hoff. rewrite C2 by done.
    unfold page_at. rewrite Ep. apply (Hrd (page_at (k_mem s) (p_pagetable pr) i)); [|unfold page_at; lia].
    apply elem_of_app. right. by apply page_at_frames.
  - split; [done|]. split; [done|]. right. split; [done|]. split; [done|]. split; [done|]. fold n in Hlt. lia.
Qed.

Lemma fork_refs s o :
  files_ok s o -> forall fd f, fd ∈ seq 0 NOFILE -> fd_file o fd = Some f ->
  1 <= f_ref (get_file s f) /\ f_ref (get_file s f) + Z.of_nat (length (seq 0 NOFILE)) < 2 ^ 31.
Proof. intros H fd f _ Hf. destruct (H fd f Hf) as [_ H1]. rewrite length_seq. lia. Qed.

Lemma idup_ok {B} c s (k : nat -> K B) :
  (itable_lock ∉ k_held s) ->
  (let! x := idup c in k x) s = k c (upd_inode c (fun ip => set_i_ref (s32 (i_ref ip + 1)) ip) s).
Proof.
  intros Hl. unfold idup. rewrite bind_assoc, (bind_acquire _ _ _ Hl). unfold inode_set. rewrite bind_assoc, bind_modify, bind_assoc.
  rewrite (bind_release itable_lock (k_held s)) by done. by rewrite bind_ret.
Qed.

Lemma upd_proc_held i f v s : upd_proc i f (set_k_held v s) = set_k_held v (upd_proc i f s).
Proof. reflexivity. Qed.

Lemma upd_proc_inode i f c g s : upd_proc i f (upd_inode c g s) = upd_inode c g (upd_proc i f s).
Proof. reflexivity. Qed.

Lemma upd_proc_files i f v s : upd_proc i f (set_k_files v s) = set_k_files v (upd_proc i f s).
Proof. reflexivity. Qed.

Lemma upd_proc_mem i f v s : upd_proc i f (set_k_mem v s) = set_k_mem v (upd_proc i f s).
Proof. reflexivity. Qed.

Lemma pid_upd i f s j : (forall q, p_pid (f q) = p_pid q) -> p_pid (get_proc (upd_proc i f s) j) = p_pid (get_proc s j).
Proof.
  intros Hf. destruct (decide (i = j)) as [<-|Hne]; [|by rewrite get_upd_other].
  unfold get_proc, upd_proc. cbn [k_procs set_k_procs]. rewrite list_lookup_alter_eq. destruct (k_procs s !! i); [apply Hf|done].
Qed.

(** The rest of [fork]. *)
Definition fork_tail (p np : nat) (pr : proc) : K Z :=
  proc_set np (set_p_sz (p_sz pr)) ;;;
  tf_copy np p ;;;
  tf_set np tf_a0 0 ;;;
  dup_files (seq 0 NOFILE) p np ;;;
  dup_cwd p np ;;;
  modify (fun s => upd_proc np (fun q => set_p_name (safestrcpy_list (p_name q) (p_name (get_proc s p)) 16) q) s) ;;;
  let! pid := gets (fun s => p_pid (get_proc s np)) in
  release (proc_lock np) ;;;
  acquire wait_lock ;;;
  proc_set np (set_p_parent (Some p)) ;;;
  release wait_lock ;;;
  acquire (proc_lock np) ;;;
  proc_set np (set_p_state RUNNABLE) ;;;
  release (proc_lock np) ;;;
  ret pid.

Definition child_proc (p c : nat) (pr q : proc) : proc :=
  set_p_state RUNNABLE (set_p_parent (Some p) (set_p_name (safestrcpy_list (p_name q) (p_name pr) 16)
    (set_p_cwd (Some c) (set_p_ofile (copy_fds (seq 0 NOFILE) (p_ofile pr) (p_ofile q)) (set_p_sz (p_sz pr) q))))).

Definition tf_mem (m : mem) (tf ptf : Z) : mem :=
  store64 (wr_bytes m tf (bytes_at m ptf trapframe_size)) (tf + tf_a0) 0.

Definition forked (p np c : nat) (tf : Z) (pr : proc) (s : kstate) : kstate :=
  set_k_held [] (upd_proc np (child_proc p c pr)
    (upd_inode c (fun ip => set_i_ref (s32 (i_ref ip + 1)) ip)
      (set_k_files (files_up (seq 0 NOFILE) (p_ofile pr) (k_files s))
        (set_k_mem (tf_mem (k_mem s) tf (p_trapframe pr)) s)))).

Lemma fork_tail_ok s p np c tf (pr := get_proc s p) :
  p <> np -> (np < length (k_procs s))%nat -> k_held s = [proc_lock np] -> p_trapframe (get_proc s np) = tf ->
  files_ok s (p_ofile pr) -> p_cwd pr = Some c ->
  fork_tail p np pr s = Ok (p_pid (get_proc s np)) (forked p np c tf pr s).
Proof.
  intros Hne Hnp Hh Htf Hf Hc. unfold fork_tail. unfold proc_set at 1. rewrite bind_modify. unfold tf_copy. rewrite bind_modify.
  set (s1 := upd_proc np (set_p_sz (p_sz pr)) s).
  assert (G1 : get_proc s1 np = set_p_sz (p_sz pr) (get_proc s np)) by (unfold s1; by rewrite get_upd_same).
  assert (G1p : get_proc s1 p = pr) by (unfold s1; by rewrite get_upd_other by done).
  rewrite G1, G1p. cbn [p_trapframe set_p_sz]. rewrite Htf.
  set (m1 := wr_bytes _ _ _). unfold tf_set. rewrite bind_assoc, bind_gets.
  change (get_proc (set_k_mem m1 s1) np) with (get_proc s1 np). rewrite G1. cbn [p_trapframe set_p_sz]. rewrite Htf.
  rewrite bind_write64. cbn [k_mem set_k_mem].
  set (s2 := set_k_mem _ _).
  assert (Hh2 : k_held s2 = [proc_lock np]) by exact Hh.
  pose proof (dup_files_ok (seq 0 NOFILE) s2 p np (p_ofile pr) Hne) as E2.
  rewrite (bind_ok _ _ _ _ _ (E2 ltac:(cbn; by rewrite length_alter) (f_equal p_ofile G1p)
    ltac:(rewrite Hh2; by rewrite list_elem_of_singleton) (fork_refs _ _ Hf))). clear E2.
  set (s3 := set_k_files _ _). unfold dup_cwd. rewrite bind_assoc, bind_gets.
  assert (G3 : get_proc s3 p = pr).
  { change (get_proc s3 p) with (get_proc (upd_proc np (fun q => set_p_ofile (copy_fds (seq 0 NOFILE) (p_ofile pr) (p_ofile q)) q) s1) p).
    by rewrite get_upd_other. }
  rewrite G3, Hc, bind_assoc. rewrite idup_ok by (cbn; rewrite Hh; by rewrite list_elem_of_singleton).
  unfold proc_set at 1. rewrite bind_modify, bind_modify, bind_gets.
  set (s4 := upd_proc np (set_p_cwd (Some c)) _).
  assert (G4 : get_proc s4 p = pr) by (unfold s4; rewrite get_upd_other by done; exact G3). rewrite G4.
  rewrite (bind_release (proc_lock np) []) by (done || apply not_elem_of_nil).
  rewrite (bind_acquire wait_lock) by apply not_elem_of_nil. unfold proc_set at 1. rewrite bind_modify.
  rewrite (bind_release wait_lock []) by (done || apply not_elem_of_nil).
  rewrite (bind_acquire (proc_lock np)) by apply not_elem_of_nil. unfold proc_set at 1. rewrite bind_modify.
  rewrite (bind_release (proc_lock np) []) by (done || apply not_elem_of_nil).
  unfold ret. f_equal.
  - rewrite pid_upd by done. unfold s4. rewrite pid_upd by done.
    change (p_pid (get_proc (upd_proc np (fun q => set_p_ofile (copy_fds (seq 0 NOFILE) (p_ofile pr) (p_ofile q)) q) s1) np) =
      p_pid (get_proc s np)).
    rewrite pid_upd by done. by rewrite G1.
  - unfold s4, s3, s2, s1. cbn [k_mem k_files set_k_mem].
    rewrite !upd_proc_held, !upd_proc_inode, !upd_proc_files, !upd_proc_mem, !upd_proc_upd_proc. reflexivity.
Qed.

(** A call that made no child: memory, locks and the processes in use are as
    they were. *)
Record no_child (s : kstate) (free : list Z) (s' : kstate) (free' : list Z) : Prop := {
  nc_free : kmem_inv s' free' /\ free' ≡ₚ free;
  nc_mem : mem_only free (k_mem s) (k_mem s');
  nc_held : k_held s' = [];
  nc_used : forall q, p_state (get_proc s q) <> UNUSED -> get_proc s' q = get_proc s q;
  nc_unused : forall q, p_state (get_proc s q) = UNUSED -> p_state (get_proc s' q) = UNUSED;
  nc_frame : alloc_frame s s'
}.

(** The end of [fork] when [uvmcopy] has failed. *)
Lemma fork_undo s p free np s1 tf pt free1 s2 free2 :
  running s p free -> (np < NPROC)%nat -> p_state (get_proc s np) = UNUSED -> alloc_ok s np free s1 tf pt free1 ->
  vm_frame s1 s2 -> mem_only free (k_mem s) (k_mem s2) -> pspace pt tf 0 s2 free2 -> tf :: owned pt 0 s2 free2 ≡ₚ free ->
  exists s3 free3, freeproc np s2 = Ok tt s3 /\ k_held s3 = [proc_lock np] /\ no_child s free (set_k_held [] s3) free3.
Proof.
  intros R Hnp Hu A F2 M2 P2 G2. pose proof (ru_slots _ _ _ R) as [Hlen Hsl].
  assert (G : get_proc s2 np = newproc (k_nextpid s) tf pt (get_proc s np)).
  { rewrite (vm_frame_proc _ _ _ F2). unfold get_proc. rewrite (al_procs _ _ _ _ _ _ _ A), list_lookup_alter_eq.
    destruct (lookup_lt_is_Some_2 (k_procs s) np) as [x ->]; [lia|done]. }
  assert (Hl2 : length (k_procs s2) = NPROC) by (rewrite F2; cbn; rewrite (al_procs _ _ _ _ _ _ _ A), length_alter; done).
  assert (Esz : p_sz (get_proc s2 np) = 0) by (rewrite G; cbn; by apply Hsl).
  destruct (freeproc_pages s2 np free2) as (s3 & free3 & E3 & I3 & P3 & Ep3 & F3 & M3).
  { by rewrite Hl2. }
  { rewrite Esz. rewrite TRAPFRAME_eq. unfold PGSIZE. lia. }
  { rewrite G. apply (al_pt _ _ _ _ _ _ _ A). }
  { rewrite Esz, pages_of_0, G. exact P2. }
  rewrite Esz, pages_of_0, G in P3, M3. cbn [p_trapframe p_pagetable newproc set_p_context set_p_pagetable set_p_trapframe] in P3, M3.
  exists s3, free3. split; [done|].
  assert (Hh2 : k_held s2 = [proc_lock np]) by (rewrite F2; cbn; rewrite (al_held _ _ _ _ _ _ _ A), (ru_held _ _ _ R); done).
  split; [rewrite F3; exact Hh2|]. split.
  - split; [by apply (kmem_inv_frame s3)|]. by rewrite P3.
  - eapply mem_only_trans; [exact M2|]. eapply mem_only_perm; [exact G2|]. exact M3.
  - done.
  - intros q Hq. assert (q <> np) by congruence. unfold get_proc. cbn. rewrite Ep3, list_lookup_alter_ne by done.
    rewrite F2. cbn. by rewrite (al_procs _ _ _ _ _ _ _ A), list_lookup_alter_ne.
  - intros q Hq. unfold get_proc. cbn. rewrite Ep3. destruct (decide (q = np)) as [->|Hne].
    + rewrite list_lookup_alter_eq. destruct (k_procs s2 !! np); done.
    + rewrite list_lookup_alter_ne, F2 by done. cbn. by rewrite (al_procs _ _ _ _ _ _ _ A), list_lookup_alter_ne.
  - apply (alloc_frame_trans s s1); [apply (al_frame _ _ _ _ _ _ _ A)|]. unfold alloc_frame. cbn. rewrite F3, F2. reflexivity.
Qed.

(** Writing the trapframe leaves the rest of the address space alone. *)
Lemma pspace_tf pt tf n s free m :
  pspace pt tf n s free -> mem_only [tf] (k_mem s) m ->
  pspace pt tf n (set_k_mem m s) free /\ owned pt n (set_k_mem m s) free = owned pt n s free /\
  forall m0 old, copied m0 old (k_mem s) pt n -> copied m0 old m pt n.
Proof.
  intros [A Ht1 Ht2 Hok Hn] M.
  assert (Hnot : (tf ∉ tree 2 (k_mem s) pt) /\ (tf ∉ frames (k_mem s) pt 0 n) /\ (tf ∉ free)).
  { unfold owned in Hn. rewrite !not_elem_of_app in Hn. tauto. }
  destruct (aspace_agree pt n s (set_k_mem m s) free [tf] A) as (A' & Et & Ep & Ef); [done|done|done|by apply Forall_singleton| |].
  { intros x ->%list_elem_of_singleton. tauto. }
  cbn [k_mem set_k_mem] in *.
  assert (Eo : owned pt n (set_k_mem m s) free = owned pt n s free) by (unfold owned; cbn [k_mem set_k_mem]; by rewrite Et, Ef).
  split; [|split; [done|]].
  - split; [done|cbn; by rewrite Ep|cbn; by rewrite Ep|done|by rewrite Eo].
  - intros m0 old C i Hi. destruct (C i Hi) as [C1 C2]. rewrite Ep. split; [done|]. intros off Hoff. rewrite <- C2 by done.
    assert (Epg : page_at m pt i = page_at (k_mem s) pt i) by (unfold page_at; by rewrite Ep). rewrite Epg.
    assert (Hpg : page_at (k_mem s) pt i ∈ frames (k_mem s) pt 0 n) by (by apply page_at_frames).
    apply (mem_only_page [tf] _ _ (page_at (k_mem s) pt i)); [exact M| |by apply Forall_singleton| |lia].
    + rewrite list_elem_of_singleton. intros E. rewrite E in Hpg. tauto.
    + pose proof (as_pages _ _ _ _ A) as Hp. rewrite Forall_forall in Hp. by apply Hp.
Qed.

Lemma tf_written m tf bs v : (length bs <= 288)%nat -> mem_only [tf] m (store64 (wr_bytes m tf bs) (tf + tf_a0) v).
Proof.
  intros Hb a Ha. specialize (Ha tf ltac:(by left)). unfold PGSIZE in Ha. rewrite rd_store64_other by (unfold tf_a0; lia).
  rewrite rd_wr_bytes. destruct (bs !! Z.to_nat (a - tf)) as [x|] eqn:E; [|done]. apply lookup_lt_Some in E.
  by rewrite decide_False by lia.
Qed.

Lemma files_up_get s s' o f :
  files_ok s o -> k_files s' = files_up (seq 0 NOFILE) o (k_files s) ->
  get_file s' f = set_f_ref (f_ref (get_file s f) + uses (seq 0 NOFILE) o f) (get_file s f).
Proof.
  intros Hf E. unfold get_file at 1. rewrite E. destruct (decide (uses (seq 0 NOFILE) o f = 0)) as [H0|H0].
  - rewrite H0, Z.add_0_r. unfold get_file. rewrite files_up_other; [done|]. intros fd Hfd Ho. unfold uses in H0.
    assert (Hin : fd ∈ filter (fun fd => fd_file o fd = Some f) (seq 0 NOFILE)) by (by apply list_elem_of_filter).
    destruct (filter _ _); [by apply not_elem_of_nil in Hin|done].
  - unfold uses in H0. destruct (filter (fun fd => fd_file o fd = Some f) (seq 0 NOFILE)) as [|fd l] eqn:Efl; [done|].
    assert (Hin : fd ∈ filter (fun fd => fd_file o fd = Some f) (seq 0 NOFILE)) by (rewrite Efl; by left).
    apply list_elem_of_filter in Hin as [Ho _]. destruct (Hf fd f Ho) as [Hlt Hr].
    destruct (lookup_lt_is_Some_2 _ _ Hlt) as [fl Efi]. unfold get_file in Hr |- *. rewrite Efi in *. cbn in Hr.
    by rewrite (files_up_lookup _ _ _ _ fl) by (rewrite ?length_seq; done || lia).
Qed.

Lemma fork_frame s s2 i f p h m :
  alloc_frame s s2 ->
  alloc_frame (set_k_inodes i (set_k_files f s)) (set_k_held h (set_k_procs p (set_k_inodes i (set_k_files f (set_k_mem m s2))))).
Proof. unfold alloc_frame. intros ->. reflexivity. Qed.

Lemma child_built s p free np c tf pt s2 free2 (pr := get_proc s p) (n := pages_of (p_sz pr)) :
  running s p free -> p_state (get_proc s np) = UNUSED -> p_cwd pr = Some c -> (np < NPROC)%nat -> length (k_procs s2) = NPROC ->
  get_proc s2 np = newproc (k_nextpid s) tf pt (get_proc s np) -> (forall q, q <> np -> get_proc s2 q = get_proc s q) ->
  alloc_frame s s2 -> mem_only free (k_mem s) (k_mem s2) -> pspace pt tf n s2 free2 ->
  copied (k_mem s) (p_pagetable pr) (k_mem s2) pt n -> tf :: owned pt n s2 free2 ≡ₚ free ->
  child_of s p free np (forked p np c tf pr s2) free2.
Proof.
  intros R Hu Hc Hnp Hlen G Go Fr M2 P2 C2 G2. assert (Hl : (np < length (k_procs s2))%nat) by (by rewrite Hlen). set (s' := forked p np c tf pr s2).
  assert (Gn : get_proc s' np = child_proc p c pr (newproc (k_nextpid s) tf pt (get_proc s np))).
  { rewrite <- G. unfold s', forked. rewrite get_proc_held, get_upd_same by done. reflexivity. }
  assert (Mt : mem_only [tf] (k_mem s2) (k_mem s')).
  { apply tf_written. rewrite length_bytes_at. unfold trapframe_size. lia. }
  destruct (pspace_tf _ _ _ _ _ _ P2 Mt) as (P' & O' & C').
  assert (M' : mem_only free (k_mem s) (k_mem s')).
  { eapply mem_only_trans; [exact M2|]. eapply mem_only_mono; [|exact Mt].
    intros x ->%list_elem_of_singleton. rewrite <- G2. by left. }
  assert (Hok : Forall page_ok free) by (apply (table_free_pages _ _ _ (as_table _ _ _ _ (ps_space _ _ _ _ _ (ru_space _ _ _ R))))).
  destruct (ru_files _ _ _ R) as [Hof Hfo].
  split; rewrite ?Gn.
  - done.
  - unfold s', forked. change (length (k_procs (upd_proc np (child_proc p c pr) s2)) = NPROC). by rewrite length_upd_proc.
  - intros q Hq. unfold s', forked. rewrite get_proc_held, get_upd_other by done. by apply Go.
  - done.
  - done.
  - done.
  - done.
  - change (copy_fds (seq 0 NOFILE) (p_ofile pr) (p_ofile (get_proc s np)) = p_ofile pr).
    rewrite (ru_fresh _ _ _ R np Hu). by apply copy_fds_all.
  - by symmetry.
  - change (pspace pt tf n s' free2). apply (pspace_frame _ _ _ (set_k_mem (k_mem s') s2)); [exact P'|done|done|apply not_elem_of_nil].
  - apply (pspace_beside _ _ _ s free); [apply R|exact M'|apply (kmem_inv_frame (set_k_mem (k_mem s') s2)); [exact (tb_kmem _ _ _ (as_table _ _ _ _ (ps_space _ _ _ _ _ P')))|done|done]|apply not_elem_of_nil|].
    intros x Hx. rewrite <- G2. right. unfold owned. rewrite !elem_of_app. tauto.
  - change (copied (k_mem s) (p_pagetable pr) (k_mem s') pt n). by apply C'.
  - intros f H0 H1 H8. change (load64 (tf_mem (k_mem s2) tf (p_trapframe pr)) (tf + f) =
      if decide (f = tf_a0) then 0 else load64 (k_mem s) (p_trapframe pr + f)). unfold tf_mem.
    rewrite tf_copied by (done || lia). case_decide; [done|]. apply load64_agree. intros b Hb.
    destruct (ru_space _ _ _ R) as [_ _ _ Hpo Hpf]. fold pr in Hpo, Hpf.
    apply (mem_only_page free _ _ (p_trapframe pr)); [done| |done|done|unfold PGSIZE; lia].
    intros Hin. apply Hpf. unfold owned. rewrite !elem_of_app. tauto.
  - change (tf :: owned pt n s' free2 ≡ₚ free). etrans; [|exact G2]. apply Permutation_refl'. f_equal. exact O'.
  - exact M'.
  - intros f. apply files_up_get; [done|]. change (files_up (seq 0 NOFILE) (p_ofile pr) (k_files s2) = files_up (seq 0 NOFILE) (p_ofile pr) (k_files s)).
    by rewrite Fr.
  - exists c. split; [done|]. change (alter (fun ip => set_i_ref (s32 (i_ref ip + 1)) ip) c (k_inodes s2) =
      alter (fun ip => set_i_ref (s32 (i_ref ip + 1)) ip) c (k_inodes s)). by rewrite Fr.
  - by apply fork_frame.
  - done.
Qed.

(** The end of [fork] when [uvmcopy] has succeeded. *)
Lemma fork_done s p free np s1 tf pt free1 s2 free2 (pr := get_proc s p) (n := pages_of (p_sz pr)) :
  running s p free -> (np < NPROC)%nat -> p_state (get_proc s np) = UNUSED -> alloc_ok s np free s1 tf pt free1 ->
  vm_frame s1 s2 -> mem_only free (k_mem s) (k_mem s2) -> pspace pt tf n s2 free2 ->
  copied (k_mem s) (p_pagetable pr) (k_mem s2) pt n -> tf :: owned pt n s2 free2 ≡ₚ free ->
  exists s', fork_tail p np pr s2 = Ok (k_nextpid s) s' /\ child_of s p free np s' free2.
Proof.
  intros R Hnp Hu A F2 M2 P2 C2 G2. destruct (ru_slots _ _ _ R) as [Hlen Hsl]. destruct (ru_cwd _ _ _ R) as (c & Hc & _).
  destruct (ru_files _ _ _ R) as [Hof Hfo]. destruct (ru_proc _ _ _ R) as [Hp Hrun].
  assert (Hne : p <> np) by congruence.
  assert (Fr : alloc_frame s s2).
  { apply (alloc_frame_trans s s1); [apply (al_frame _ _ _ _ _ _ _ A)|]. by apply alloc_frame_proc, proc_frame_vm. }
  assert (Eps : k_procs s2 = alter (newproc (k_nextpid s) tf pt) np (k_procs s)) by (rewrite F2; apply (al_procs _ _ _ _ _ _ _ A)).
  assert (G : get_proc s2 np = newproc (k_nextpid s) tf pt (get_proc s np)).
  { unfold get_proc. rewrite Eps, list_lookup_alter_eq. destruct (lookup_lt_is_Some_2 (k_procs s) np) as [x ->]; [lia|done]. }
  assert (Go : forall q, q <> np -> get_proc s2 q = get_proc s q).
  { intros q Hq. unfold get_proc. by rewrite Eps, list_lookup_alter_ne. }
  assert (Ef : k_files s2 = k_files s) by (by rewrite Fr).
  assert (Hh : k_held s2 = [proc_lock np]) by (rewrite F2; cbn; rewrite (al_held _ _ _ _ _ _ _ A), (ru_held _ _ _ R); done).
  assert (Hl2 : (np < length (k_procs s2))%nat) by (rewrite Eps, length_alter; lia).
  pose proof (fork_tail_ok s2 p np c tf Hne Hl2 Hh) as E. cbn zeta in E. rewrite (Go p Hne), G in E. fold pr in E.
  specialize (E eq_refl ltac:(unfold files_ok, get_file; rewrite Ef; exact Hfo) Hc).
  eexists. split; [exact E|]. apply child_built with pt; try done. rewrite Eps, length_alter. done.
Qed.

(** The two outcomes of [fork]. *)
Lemma fork_ok (s : kstate) (p : nat) (free : list Z) :
  running s p free ->
  (exists np s' free', fork s = Ok (k_nextpid s) s' /\ child_of s p free np s' free') \/
  (exists s' free', fork s = Ok (-1) s' /\ no_child s free s' free' /\
    ((forall i, (i < NPROC)%nat -> p_state (get_proc s i) <> UNUSED) \/
     (length free < 6 + 3 * pages_of (p_sz (get_proc s p)))%nat)).
Proof.
  intros R. set (P := fun o => (exists np s' free', o = Ok (k_nextpid s) s' /\ child_of s p free np s' free') \/
    (exists s' free', o = Ok (-1) s' /\ no_child s free s' free' /\
      ((forall i, (i < NPROC)%nat -> p_state (get_proc s i) <> UNUSED) \/
       (length free < 6 + 3 * pages_of (p_sz (get_proc s p)))%nat))).
  change (P (fork s)). unfold fork. rewrite (bind_myproc_ _ _ _ (ru_cur _ _ _ R)).
  pose proof (ru_held _ _ _ R) as Hh. pose proof (tb_kmem _ _ _ (as_table _ _ _ _ (ps_space _ _ _ _ _ (ru_space _ _ _ R)))) as I.
  destruct (allocproc_pages s free Hh (ru_slots _ _ _ R) I) as [[E Hf]|(np & Hnp & Hu & [(s1 & tf & pt & f1 & E & A)|(s1 & f1 & E & A)])];
    rewrite (bind_ok _ _ _ _ _ E).
  - right. exists s, free. split; [done|]. split; [|by left]. split; try done.
  - destruct (ru_proc _ _ _ R) as [_ Hrun]. assert (Hne : p <> np) by congruence.
    assert (Gp : get_proc s1 p = get_proc s p) by (unfold get_proc; by rewrite (al_procs _ _ _ _ _ _ _ A), list_lookup_alter_ne).
    assert (Gn : p_pagetable (get_proc s1 np) = pt).
    { unfold get_proc. rewrite (al_procs _ _ _ _ _ _ _ A), list_lookup_alter_eq. destruct (ru_slots _ _ _ R) as [Hlen _].
      destruct (lookup_lt_is_Some_2 (k_procs s) np) as [x ->]; [lia|done]. }
    rewrite !bind_gets, Gp, Gn.
    destruct (fork_memory s p free np s1 tf pt f1 R Hnp Hu A) as (s2 & f2 & F2 & M2 & [(E2 & P2 & C2 & G2)|(E2 & P2 & G2 & Hlt)]);
      rewrite (bind_ok _ _ _ _ _ E2); cbn [Z.ltb Z.compare].
    + left. destruct (fork_done s p free np s1 tf pt f1 s2 f2 R Hnp Hu A F2 M2 P2 C2 G2) as (s3 & E3 & C3). by exists np, s3, f2.
    + right. destruct (fork_undo s p free np s1 tf pt f1 s2 f2 R Hnp Hu A F2 M2 P2 G2) as (s3 & f3 & E3 & H3 & N3).
      rewrite (bind_ok _ _ _ _ _ E3), (bind_release (proc_lock np) []) by (done || apply not_elem_of_nil).
      exists (set_k_held [] s3), f3. split; [done|]. split; [done|]. by right.
  - right. exists s1, f1. split; [done|]. split; [|right; pose proof (af_few _ _ _ _ _ A); lia].
    split; [split; apply A|apply A|rewrite (af_held _ _ _ _ _ A); done| | |apply A].
    + intros q Hq. apply (af_slot _ _ _ _ _ A). congruence.
    + intros q Hq. destruct (decide (q = np)) as [->|Hne]; [apply A|by rewrite (af_slot _ _ _ _ _ A)].
Qed.

(** [C7] From a running process, [fork] either makes a child, returning its
    pid: the child has a private copy of every page of the parent, the
    parent's trapframe with [a0] cleared, the parent's directory and open
    files with their references counted; or it returns -1, which happens only
    without a free slot or with few free pages, and then all pages, locks and
    processes are as they were. *)
Theorem fork_spec (s : kstate) (p : nat) (free : list Z) :
  running s p free ->
  (exists np s' free', fork s = Ok (k_nextpid s) s' /\ child_of s p free np s' free') \/
  (exists s' free', fork s = Ok (-1) s' /\ no_child s free s' free' /\
    ((forall i, (i < NPROC)%nat -> p_state (get_proc s i) <> UNUSED) \/
     (length free < 6 + 3 * pages_of (p_sz (get_proc s p)))%nat)).
Proof. apply fork_ok. Qed.

(** ** [forkn] *)

(** What [fork] and [forkn] do first. *)
Lemma fork_alloc s p free :
  running s p free -> (exists i, (i < NPROC)%nat /\ p_state (get_proc s i) = UNUSED) -> (6 <= length free)%nat ->
  exists np s1 tf pt f1, allocproc s = Ok (Some np) s1 /\ alloc_ok s np free s1 tf pt f1 /\ (np < NPROC)%nat /\
    p_state (get_proc s np) = UNUSED /\ get_proc s1 p = get_proc s p /\ p_pagetable (get_proc s1 np) = pt.
Proof.
  intros R (i & Hi & Hui) Hf. pose proof (tb_kmem _ _ _ (as_table _ _ _ _ (ps_space _ _ _ _ _ (ru_space _ _ _ R)))) as I.
  destruct (allocproc_pages s free (ru_held _ _ _ R) (ru_slots _ _ _ R) I)
    as [[_ H]|(np & Hnp & Hu & [(s1 & tf & pt & f1 & E & A)|(s1 & f1 & _ & A)])];
    [by destruct (H i Hi)| |pose proof (af_few _ _ _ _ _ A); lia].
  exists np, s1, tf, pt, f1. split; [done|]. split; [done|]. split; [done|]. split; [done|].
  destruct (ru_proc _ _ _ R) as [_ Hrun]. assert (p <> np) by congruence. destruct (ru_slots _ _ _ R) as [Hlen _].
  unfold get_proc. rewrite (al_procs _ _ _ _ _ _ _ A), list_lookup_alter_ne, list_lookup_alter_eq by done.
  split; [done|]. destruct (lookup_lt_is_Some_2 (k_procs s) np) as [x ->]; [lia|done].
Qed.

(** [C40] [forkn] forgets the lock of a child whose memory could not be
    copied: with enough pages for a slot but not for the parent's memory, the
    call returns -1 with that lock still held. *)
Theorem forkn_leaks_lock (s : kstate) (p : nat) (free : list Z) (n pids : Z) :
  running s p free -> (exists i, (i < NPROC)%nat /\ p_state (get_proc s i) = UNUSED) ->
  (6 <= length free <= pages_of (p_sz (get_proc s p)))%nat -> 1 <= n <= 16 ->
  exists np s', forkn n pids s = Ok (-1) s' /\ k_held s' = [proc_lock np].
Proof.
  intros R Hs Hf Hn. destruct (fork_alloc s p free R Hs) as (np & s1 & tf & pt & f1 & E & A & Hnp & Hu & Gp & Gn); [lia|].
  destruct (fork_memory s p free np s1 tf pt f1 R Hnp Hu A) as (s2 & f2 & F2 & M2 & [(_ & _ & _ & G2)|(E2 & P2 & G2 & _)]).
  { exfalso. apply Permutation_length in G2. unfold owned in G2. cbn in G2. rewrite !length_app, length_frames in G2. lia. }
  destruct (fork_undo s p free np s1 tf pt f1 s2 f2 R Hnp Hu A F2 M2 P2 G2) as (s3 & f3 & E3 & H3 & _).
  exists np, s3. split; [|done]. unfold forkn. rewrite (bind_myproc_ _ _ _ (ru_cur _ _ _ R)).
  destruct (Z.ltb_spec n 1); [lia|]. destruct (Z.ltb_spec 16 n); [lia|]. cbn [orb].
  destruct (Z.to_nat n) as [|k] eqn:Ek; [lia|]. cbn [forkn_create].
  rewrite bind_assoc, (bind_ok _ _ _ _ _ E), bind_assoc, bind_gets, bind_assoc, bind_gets, bind_assoc, bind_gets, Gp, Gn.
  rewrite bind_assoc, (bind_ok _ _ _ _ _ E2). cbn [Z.ltb Z.compare].
  rewrite bind_assoc, (bind_ok _ _ _ _ _ E3). cbn [forkn_undo]. by rewrite bind_assoc, bind_ret, bind_ret.
Qed.
End Fork.

(** ** Witnesses *)

(** Sixty pages of RAM. *)
Definition ram60 : Layout := small_layout 60.

Lemma ram60_ok : LayoutOk ram60.
Proof. apply small_layout_ok. lia. Qed.

(** After boot, with an empty process table. *)
Lemma ram60_boot :
  exists s free, kmem_inv (L := ram60) s free /\ length free = 60%nat /\
    s = set_k_freelist (k_freelist s) (set_k_mem (k_mem s) kstate_zero).
Proof.
  pose proof ram60_ok as LO. destruct (kinit_ok (L := ram60) kstate_zero) as (s1 & _ & I & _); [done|apply not_elem_of_nil|].
  exists (set_k_freelist (k_freelist s1) (set_k_mem (k_mem s1) kstate_zero)), (rev (all_pages (L := ram60))).
  split; [by apply (kmem_inv_frame s1)|]. split; reflexivity.
Qed.

Lemma nth_repeat_none (n fd : nat) : nth fd (replicate n (None : option nat)) None = None.
Proof. revert fd. induction n as [|n IH]; intros [|fd]; cbn; done. Qed.

(** A process of [j] pages, the only one, runs in slot [p]. *)
Definition runs (sz : Z) (q : proc) : proc := set_p_cwd (Some 0%nat) (set_p_sz sz (set_p_state RUNNING q)).

Lemma ram60_running j :
  (1 <= j <= 8)%nat ->
  exists s p free, running (L := ram60) s p free /\ p_sz (get_proc s p) = Z.of_nat j * PGSIZE /\ (30 <= length free)%nat /\
    (forall q, q <> p -> get_proc s q = proc_zero) /\
    PTE_FLAGS (pte_of 2 (k_mem s) (p_pagetable (get_proc s p)) 0) = Z.lor (Z.lor (Z.lor PTE_R PTE_U) PTE_W) PTE_V /\
    p_killed (get_proc s p) = 0.
Proof.
  intros Hj. pose proof ram60_ok as LO. destruct ram60_boot as (s0 & f0 & I0 & Hf0 & E0).
  assert (Ep0 : forall q, get_proc s0 q = proc_zero).
  { intros q. rewrite E0. unfold get_proc. change (default proc_zero (replicate NPROC proc_zero !! q) = proc_zero).
    destruct (replicate NPROC proc_zero !! q) as [x|] eqn:E; [|done]. by apply lookup_replicate in E as [-> _]. }
  assert (Sl : slots_ok s0) by (split; [by rewrite E0|intros q _; by rewrite Ep0]).
  destruct (allocproc_pages (L := ram60) s0 f0) as [[_ H]|(p & Hp & _ & [(s1 & tf & pt & f1 & _ & A)|(s1 & f1 & _ & A)])];
    [by rewrite E0|done|done|exfalso; apply (H 0%nat); [unfold NPROC; lia|by rewrite Ep0]| |exfalso; pose proof (af_few _ _ _ _ _ A); lia].
  destruct A as [Hh Eps Hpt S1 Hpg Hus Fr M].
  destruct (uvmalloc_loop_pages (L := ram60) j 0 0 pt (Z.of_nat j * PGSIZE) PTE_W s1 f1 (S j))
    as (s2 & f2 & [(_ & S2 & Hl2 & Hz)|(_ & Hl & _)]);
    [apply S1|lia|lia|rewrite TRAPFRAME_eq; unfold PGSIZE; lia|apply pages_of_mul; rewrite TRAPFRAME_eq; unfold PGSIZE; lia|by vm_compute|by vm_compute| |lia].
  set (s := set_k_cur (Some p) (set_k_held [] (upd_proc p (runs (Z.of_nat j * PGSIZE)) s2))).
  assert (E2 : k_procs s2 = alter (newproc (L := ram60) (k_nextpid s0) tf pt) p (k_procs s0)) by (rewrite (st_frame _ _ _ _ _ _ _ _ S2); exact Eps).
  assert (Gp : get_proc s p = runs (Z.of_nat j * PGSIZE) (newproc (L := ram60) (k_nextpid s0) tf pt proc_zero)).
  { rewrite <- (Ep0 p). unfold get_proc, s. cbn. rewrite E2, !list_lookup_alter_eq. destruct Sl as [Hlen _].
    destruct (lookup_lt_is_Some_2 (k_procs s0) p) as [x ->]; [lia|done]. }
  assert (Go : forall q, q <> p -> get_proc s q = proc_zero).
  { intros q Hq. rewrite <- (Ep0 q). unfold get_proc, s. cbn. by rewrite E2, !list_lookup_alter_ne. }
  exists s, p, f2. split; [|split; [by rewrite Gp|split; [lia|split; [done|rewrite Gp; split; [apply (Hz 0%nat); lia|done]]]]].
  assert (Sz : 0 <= Z.of_nat j * PGSIZE <= TRAPFRAME) by (rewrite TRAPFRAME_eq; unfold PGSIZE; lia).
  split; rewrite ?Gp.
  - done.
  - done.
  - split; [change (length (k_procs s) = NPROC); unfold s; cbn; rewrite E2, !length_alter; apply Sl|].
    intros q Hq. destruct (decide (q = p)) as [->|Hne]; [by rewrite Gp in Hq|by rewrite Go].
  - done.
  - exact Sz.
  - change (pspace (L := ram60) pt tf (pages_of (Z.of_nat j * PGSIZE)) s f2). rewrite pages_of_mul by apply Sz.
    apply (pspace_frame _ _ _ s2); [by eapply pspace_step|done|done|apply not_elem_of_nil].
  - split; [done|]. intros fd f. unfold fd_file. change (nth fd (replicate NOFILE None) None = Some f -> (f < length (k_files s))%nat /\
      1 <= f_ref (get_file s f) < 2 ^ 31 - Z.of_nat NOFILE). by rewrite nth_repeat_none.
  - exists 0%nat. split; [done|]. unfold s. cbn. rewrite (st_frame _ _ _ _ _ _ _ _ S2). cbn. rewrite Fr. cbn. rewrite E0.
    apply Nat.ltb_lt. reflexivity.
  - intros q Hq. destruct (decide (q = p)) as [->|Hne]; [by rewrite Gp in Hq|by rewrite Go].
Qed.

Lemma fork_spec_witness :
  exists s p free np s' free', running (L := ram60) s p free /\ p_sz (get_proc s p) = 4096 /\
    fork (L := ram60) s = Ok (k_nextpid s) s' /\ child_of (L := ram60) s p free np s' free'.
Proof.
  pose proof ram60_ok as LO. destruct (ram60_running 1 ltac:(lia)) as (s & p & free & R & Hsz & Hf & Hq & _).
  destruct (fork_spec (L := ram60) s p free R) as [(np & s' & free' & E & C)|(s' & free' & _ & _ & [H|H])].
  - exists s, p, free, np, s', free'. done.
  - exfalso. apply (H (if decide (p = 0%nat) then 1%nat else 0%nat)); [case_decide; unfold NPROC; lia|].
    rewrite Hq; [done|]. case_decide; lia.
  - exfalso. rewrite Hsz in H. change (pages_of _) with 1%nat in H. lia.
Defined.



(** Memory in use elsewhere: the free list is shorter. *)
Lemma running_tl (s : kstate) p x free :
  running (L := ram60) s p (x :: free) -> running (L := ram60) (set_k_freelist (load64 (k_mem s) x) s) p free.
Proof.
  intros [R1 R2 R3 R4 R5 [A Ht1 Ht2 Hok Hn] R7 R8 R9]. pose proof A as [[[[_ Hfl] Hnd Hpg] T2 T3 T4 T5] A2 A3 A4 A5 A6 A7].
  apply NoDup_cons in Hnd as [Hx Hnd]. apply Forall_cons in Hpg as [_ Hpg].
  split; try done. split; try done.
  - split; try done.
    + split; try done. apply NoDup_app in T3 as (N1 & N2 & N3). apply NoDup_app. split; [done|]. split; [|done].
      intros y Hy Hy'. apply (N2 y Hy). by right.
    + rewrite app_assoc in A6 |- *. apply NoDup_app in A6 as (N1 & N2 & N3). apply NoDup_app. split; [done|]. split; [|done].
      intros y Hy Hy'. apply (N2 y Hy). by right.
  - unfold owned in *. rewrite !not_elem_of_app in *. rewrite not_elem_of_cons in Hn. tauto.
Qed.

Lemma running_less n : forall (s : kstate) p free,
  running (L := ram60) s p free -> (n <= length free)%nat ->
  exists s' free', running (L := ram60) s' p free' /\ length free' = n /\ k_procs s' = k_procs s.
Proof.
  intros s p free R Hn. remember (length free - n)%nat as k eqn:Hk. revert s free R Hn Hk.
  induction k as [|k IH]; intros s free R Hn Hk; [exists s, free; split; [done|split; [lia|done]]|].
  destruct free as [|x free]; cbn in *; [lia|]. apply (IH _ free (running_tl s p x free R)); lia.
Qed.

Lemma forkn_leaks_lock_witness :
  exists s np s', forkn (L := ram60) 2 0 s = Ok (-1) s' /\ k_held s = [] /\ k_held s' = [proc_lock np].
Proof.
  pose proof ram60_ok as LO. destruct (ram60_running 8 ltac:(lia)) as (s0 & p & f0 & R0 & Hsz & Hf0 & Hq & _).
  destruct (running_less 6 s0 p f0 R0) as (s & free & R & Hf & Hp); [lia|].
  destruct (forkn_leaks_lock (L := ram60) s p free 2 0 R) as (np & s' & E & H).
  - exists (if decide (p = 0%nat) then 1%nat else 0%nat). split; [case_decide; unfold NPROC; lia|].
    rewrite (get_proc_procs s0 s) by done. rewrite Hq; [done|]. case_decide; lia.
  - rewrite (get_proc_procs s0 s), Hsz by done. change (pages_of _) with 8%nat. lia.
  - lia.
  - exists s, np, s'. split; [done|]. split; [apply R|done].
Defined.
