(* ===== verification/ProcWait.v ===== *)
(** * [wait]

    [wait] looks for an exited child: it delivers the child's status and exit
    message to the caller's memory and frees what the child had; without one
    it fails, or sleeps on the caller's own channel. *)

From S2P Require Import Prelude KString Bytes Ring KState Riscv Spinlock Kalloc Vm VmTree VmMap VmSpace VmFree VmCopy Sched.
From S2P Require Import Uart Console Sleeplock Bio Log Fs Pipe PipeFifo File Proc ProcMem ProcFork.

Section Wait.
Context {L : Layout} {LO : LayoutOk L}.

(** ** The scan *)

Definition zombie_kid (s : kstate) (p q : nat) : Prop := p_parent (get_proc s q) = Some p /\ p_state (get_proc s q) = ZOMBIE.
Definition has_kid (s : kstate) (p : nat) (ix : list nat) : bool :=
  existsb (fun q => bool_decide (p_parent (get_proc s q) = Some p)) ix.

Lemma wait_scan_skip ix rest p addr msg : forall hk s,
  k_held s = [wait_lock] -> (forall q, q ∈ ix -> ~ zombie_kid s p q) ->
  wait_scan (ix ++ rest) p addr msg hk s = wait_scan rest p addr msg (hk || has_kid s p ix) s.
Proof.
  induction ix as [|q ix IH]; intros hk s Hh Hz; cbn [app wait_scan has_kid existsb].
  { by rewrite orb_false_r. }
  assert (Hq : ~ zombie_kid s p q) by (apply Hz; by left).
  assert (Hz' : forall q, q ∈ ix -> ~ zombie_kid s p q) by (intros r Hr; apply Hz; by right).
  rewrite bind_gets. case_bool_decide as Hp; [|cbn [orb]; by apply IH].
  assert (Hl : proc_lock q ∉ k_held s) by (rewrite Hh; by rewrite list_elem_of_singleton).
  rewrite (bind_acquire _ _ _ Hl), bind_gets. change (get_proc (set_k_held _ s) q) with (get_proc s q).
  rewrite bool_decide_eq_false_2 by (intros Hs; apply Hq; by split).
  rewrite (bind_release (proc_lock q) (k_held s)) by done.
  change (set_k_held (k_held s) (set_k_held (proc_lock q :: k_held s) s)) with s.
  rewrite (IH true s Hh Hz'). cbn [orb]. by rewrite orb_true_r.
Qed.

(** ** No zombie *)

(** Without a zombie among the caller's children, [wait] does not touch
    memory: it returns -1 at once if there are no children or the caller has
    been killed, and otherwise goes to sleep on the caller's own channel,
    giving up [wait_lock]. *)
Theorem wait_none (s : kstate) (p : nat) (addr msg : Z) :
  k_cur s = Some p -> (p < NPROC)%nat -> length (k_procs s) = NPROC -> k_held s = [] ->
  (forall q, (q < NPROC)%nat -> ~ zombie_kid s p q) ->
  wait addr msg s =
    if has_kid s p (seq 0 NPROC) && (p_killed (get_proc s p) =? 0)
    then Sleeps (asleep (ch_proc p) p (set_k_held [wait_lock] s)) else Ok (-1) s.
Proof.
  intros Hc Hp Hlen Hh Hz. unfold wait. rewrite bind_acquire, Hh by (rewrite Hh; apply not_elem_of_nil).
  set (s1 := set_k_held [wait_lock] s). unfold wait_loop. rewrite (bind_myproc_ _ p) by done.
  assert (E : wait_scan (seq 0 NPROC) p addr msg false s1 = Ok (None, has_kid s p (seq 0 NPROC)) s1).
  { pose proof (wait_scan_skip (seq 0 NPROC) [] p addr msg false s1 eq_refl) as E. rewrite app_nil_r in E. rewrite E; [done|].
    intros q Hq. apply elem_of_seq in Hq. apply (Hz q). lia. }
  assert (Hs : set_k_held [] s1 = s) by (unfold s1; rewrite <- Hh; reflexivity).
  rewrite (bind_ok _ _ _ _ _ E). destruct (has_kid s p (seq 0 NPROC)); cbn [negb andb].
  - assert (Hl : proc_lock p ∉ k_held s1) by (cbn; by rewrite list_elem_of_singleton).
    rewrite bind_assoc, (bind_ok _ _ _ _ _ (killed_eq p s1 Hl)), bind_ret.
    change (get_proc s1 p) with (get_proc s p). destruct (p_killed (get_proc s p) =? 0); cbn [negb].
    + unfold sleep_on, bind. rewrite (sleep_eq (ch_proc p) wait_lock p s1) by (done || cbn; lia). done.
    + rewrite (bind_release wait_lock []) by (done || apply not_elem_of_nil). by rewrite Hs.
  - rewrite bind_ret, (bind_release wait_lock []) by (done || apply not_elem_of_nil). by rewrite Hs.
Qed.

(** ** Copies to the caller *)

(** Bytes of [src] stored at the user address [va]: all of them, or up to an
    address the user may not access. *)
Record uput (pt va : Z) (src : list Z) (k : nat) (m m' : mem) : Prop := {
  up_le : (k <= length src)%nat;
  up_all : k = length src \/ ~ uok m pt (va + Z.of_nat k);
  up_bytes : forall i b, (i < k)%nat -> src !! i = Some b ->
    uok m pt (va + Z.of_nat i) /\ uread m' pt (va + Z.of_nat i) = u8 b;
  up_rest : forall a, (forall i, (i < k)%nat -> a <> upa m pt (va + Z.of_nat i)) -> rd m' a = rd m a
}.

(** [if(va != 0) copyout(pt, va, src)], and what becomes of its result. *)
Lemma copyout_opt {B} (g : Z -> B) (b : B) pt n s free va src :
  uspace pt n s free -> 0 <= va ->
  exists k s', uwrite pt n s free va (if va =? 0 then [] else src) k s' /\
    uput pt va (if va =? 0 then [] else src) k (k_mem s) (k_mem s') /\
    (if negb (va =? 0) then let! r := copyout pt va src in ret (g r) else ret b) s =
    Ok (if va =? 0 then b else g (if (k <? length src)%nat then -1 else 0)) s'.
Proof.
  intros U Hva. destruct (va =? 0); cbn [negb].
  { exists 0%nat, s. split; [by apply uwrite_refl|]. split; [|done]. split; [done|by left|intros i b' Hi; lia|done]. }
  destruct (copyout_loop_spec (length src) pt n s free va src U Hva) as (k & s' & W & Hr); [lia|]. exists k, s'. split; [done|].
  assert (Hb : forall i b, (i < k)%nat -> src !! i = Some b ->
    uok (k_mem s) pt (va + Z.of_nat i) /\ uread (k_mem s') pt (va + Z.of_nat i) = u8 b).
  { intros i b' Hi Hs. split; [by apply (uw_ok _ _ _ _ _ _ _ _ W)|by apply (uw_bytes _ _ _ _ _ _ _ _ W)]. }
  destruct Hr as [[-> E]|(Hlt & Hno & E)]; (split; [split; [lia|auto|exact Hb|apply W]|]); rewrite (bind_ok _ _ _ _ _ E); unfold ret.
  - by rewrite Nat.ltb_irrefl.
  - by rewrite (proj2 (Nat.ltb_lt _ _) Hlt).
Qed.

(** The user's pages are all it touches. *)
Lemma uwrite_mem pt n s free va src k s' :
  uspace pt n s free -> 0 <= va -> uwrite pt n s free va src k s' ->
  mem_only (frames (k_mem s) pt 0 n) (k_mem s) (k_mem s').
Proof.
  intros U Hva W a Ha. apply (uw_rest _ _ _ _ _ _ _ _ W). intros i Hi ->.
  destruct (uok_page _ _ _ _ (va + Z.of_nat i) U ltac:(lia) (uw_ok _ _ _ _ _ _ _ _ W i Hi)) as (_ & _ & Hin).
  apply (Ha _ Hin). unfold upa. rewrite page_at_eq by lia.
  pose proof (Z.mod_pos_bound (va + Z.of_nat i) PGSIZE ltac:(by vm_compute)). lia.
Qed.

(** Writes elsewhere leave an address space alone. *)
Lemma pspace_agree pt tf n s s' free ps :
  pspace pt tf n s free -> k_freelist s' = k_freelist s -> k_held s' = k_held s ->
  mem_only ps (k_mem s) (k_mem s') -> Forall page_ok ps -> (forall x, x ∈ ps -> x ∉ owned pt n s free) ->
  pspace pt tf n s' free /\ owned pt n s' free = owned pt n s free.
Proof.
  intros [A Ht1 Ht2 Hok Hn] Ef Eh M Hps Hd.
  destruct (aspace_agree pt n s s' free ps A Ef Eh M Hps) as (A' & Et & Ep & Efr).
  { intros x Hx. specialize (Hd x Hx). unfold owned in Hd. rewrite !not_elem_of_app in Hd. tauto. }
  assert (Eo : owned pt n s' free = owned pt n s free) by (unfold owned; by rewrite Et, Efr).
  split; [|done]. split; [done|by rewrite Ep|by rewrite Ep|done|by rewrite Eo].
Qed.

(** ** A zombie *)

(** [pp] is the first zombie among the children of the running process [p];
    the two address spaces share no page. *)
Record reap (s : kstate) (p pp n : nat) (free : list Z) : Prop := {
  re_cur : k_cur s = Some p;
  re_held : k_held s = [];
  re_slot : (pp < NPROC)%nat /\ length (k_procs s) = NPROC;
  re_kid : zombie_kid s p pp;
  re_first : forall q, (q < pp)%nat -> ~ zombie_kid s p q;
  re_space : uspace (p_pagetable (get_proc s p)) n s free;
  re_sz : 0 <= p_sz (get_proc s pp) <= TRAPFRAME;
  re_pt : p_pagetable (get_proc s pp) <> 0;
  re_child : pspace (p_pagetable (get_proc s pp)) (p_trapframe (get_proc s pp)) (pages_of (p_sz (get_proc s pp))) s free;
  re_apart : forall x,
    x ∈ tree 2 (k_mem s) (p_pagetable (get_proc s p)) ++ frames (k_mem s) (p_pagetable (get_proc s p)) 0 n ->
    x ∉ p_trapframe (get_proc s pp) :: owned (p_pagetable (get_proc s pp)) (pages_of (p_sz (get_proc s pp))) s free
}.

(** The child is gone: its slot is free and its pages are on the free list;
    the caller's memory is as in [m]. *)
Record gone (s : kstate) (p pp : nat) (free : list Z) (m : mem) (s' : kstate) (free' : list Z) : Prop := {
  go_procs : k_procs s' = alter freed pp (k_procs s);
  go_free : kmem_inv s' free';
  go_pages : free' ≡ₚ p_trapframe (get_proc s pp) :: owned (p_pagetable (get_proc s pp)) (pages_of (p_sz (get_proc s pp))) s free;
  go_frame : proc_frame s s';
  go_user : forall va, 0 <= va -> uok (k_mem s) (p_pagetable (get_proc s p)) va ->
    uread (k_mem s') (p_pagetable (get_proc s p)) va = uread m (p_pagetable (get_proc s p)) va
}.

(** An address space whose pages a change leaves alone reads the same. *)
Lemma uread_kept pt n s free m' ps va :
  uspace pt n s free -> mem_only ps (k_mem s) m' -> Forall page_ok ps ->
  (forall x, x ∈ tree 2 (k_mem s) pt ++ frames (k_mem s) pt 0 n -> x ∉ ps) ->
  0 <= va -> uok (k_mem s) pt va -> uread m' pt va = uread (k_mem s) pt va.
Proof.
  intros U M Hps Hd Hva Hok. pose proof (us_space _ _ _ _ U) as A.
  assert (Hrd : forall x a, x ∈ tree 2 (k_mem s) pt ++ frames (k_mem s) pt 0 n -> x <= a < x + PGSIZE -> rd m' a = rd (k_mem s) a).
  { intros x a Hx. apply (mem_only_page ps); [exact M|by apply Hd|done|].
    assert (Ha : Forall page_ok (tree 2 (k_mem s) pt ++ frames (k_mem s) pt 0 n)).
    { apply Forall_app. split; [apply (as_table _ _ _ _ A)|apply (as_pages _ _ _ _ A)]. }
    rewrite Forall_forall in Ha. by apply Ha. }
  destruct (tree_agree 2 (k_mem s) m' pt) as (_ & _ & Hp); [intros x a Hx; apply Hrd, elem_of_app; by left|].
  destruct (uok_page _ _ _ _ va U Hva Hok) as (_ & _ & Hin). unfold uread, upa. rewrite Hp, page_at_eq by done.
  pose proof (Z.mod_pos_bound va PGSIZE ltac:(by vm_compute)).
  apply (Hrd (page_at (k_mem s) pt (Z.to_nat (va / PGSIZE)))); [apply elem_of_app; by right|lia].
Qed.

(** Freeing the child after the copies, from the state [s2] that they left. *)
Lemma reap_free s p pp n free s2 :
  reap s p pp n free -> s2 = set_k_mem (k_mem s2) (set_k_held [proc_lock pp; wait_lock] s) ->
  mem_only (frames (k_mem s) (p_pagetable (get_proc s p)) 0 n) (k_mem s) (k_mem s2) ->
  uspace (p_pagetable (get_proc s p)) n s2 free ->
  (forall x, pte_of 2 (k_mem s2) (p_pagetable (get_proc s p)) x = pte_of 2 (k_mem s) (p_pagetable (get_proc s p)) x) ->
  tree 2 (k_mem s2) (p_pagetable (get_proc s p)) = tree 2 (k_mem s) (p_pagetable (get_proc s p)) ->
  exists s3 free3, freeproc pp s2 = Ok tt s3 /\ k_held s3 = [proc_lock pp; wait_lock] /\
    gone s p pp free (k_mem s2) (set_k_held [] s3) free3.
Proof.
  intros R E2 M2 U2 P2 T2. destruct (re_slot _ _ _ _ _ R) as [Hpp Hlen].
  assert (G : get_proc s2 pp = get_proc s pp) by (by rewrite E2).
  pose proof (re_apart _ _ _ _ _ R) as Hap. pose proof (as_pages _ _ _ _ (us_space _ _ _ _ (re_space _ _ _ _ _ R))) as Hpg.
  pose proof (re_child _ _ _ _ _ R) as C.
  set (cpt := p_pagetable (get_proc s pp)) in *. set (cn := pages_of (p_sz (get_proc s pp))) in *.
  set (ctf := p_trapframe (get_proc s pp)) in *. set (ppt := p_pagetable (get_proc s p)) in *.
  set (s1 := set_k_held [proc_lock pp; wait_lock] s) in *.
  assert (C1 : pspace cpt ctf cn s1 free).
  { apply (pspace_frame _ _ _ s); [done|done|done|]. cbn. by rewrite not_elem_of_cons, list_elem_of_singleton. }
  destruct (pspace_agree cpt ctf cn s1 s2 free (frames (k_mem s) ppt 0 n) C1) as (C2 & Eo); [by rewrite E2|by rewrite E2|done|done| |].
  { intros x Hx Hin. apply (Hap x); [apply elem_of_app; by right|]. right. exact Hin. }
  change (owned cpt cn s1 free) with (owned cpt cn s free) in Eo.
  destruct (freeproc_pages s2 pp free) as (s3 & f3 & E3 & I3 & P3 & Ep3 & F3 & M3).
  { rewrite E2. cbn. lia. }
  { rewrite G. apply (re_sz _ _ _ _ _ R). }
  { rewrite G. apply (re_pt _ _ _ _ _ R). }
  { rewrite G. exact C2. }
  rewrite G in P3, M3. fold cpt ctf cn in P3, M3. rewrite Eo in P3, M3.
  exists s3, f3. split; [done|]. split; [rewrite F3, E2; done|]. split.
  - change (k_procs s3 = alter freed pp (k_procs s)). rewrite Ep3, E2. done.
  - by apply (kmem_inv_frame s3).
  - exact P3.
  - unfold proc_frame. rewrite F3, E2. pose proof (re_held _ _ _ _ _ R) as Hh.
    transitivity (set_k_held (k_held s) (set_k_procs (k_procs s3) (set_k_mem (k_mem s3) (set_k_freelist (k_freelist s3) s)))); [|reflexivity].
    by rewrite Hh.
  - intros va Hva Hok. change (k_mem (set_k_held [] s3)) with (k_mem s3). apply (uread_kept ppt n s2 free _ (ctf :: owned cpt cn s free)).
    + exact U2.
    + exact M3.
    + rewrite <- P3. apply (kmem_pages _ _ I3).
    + rewrite T2, (frames_agree (k_mem s) (k_mem s2)) by (intros i _; apply P2). exact Hap.
    + done.
    + unfold uok, upage in *. by rewrite P2.
Qed.

(** The two copies, with both locks held. *)
Lemma reap_copies s p pp n free addr msg (s1 := set_k_held [proc_lock pp; wait_lock] s)
    (pt := p_pagetable (get_proc s p)) (q := get_proc s pp) :
  reap s p pp n free -> 0 <= addr -> 0 <= msg ->
  exists k1 s2 k2 s3,
    uput pt msg (if msg =? 0 then [] else cstr (p_exit_msg q) ++ [0]) k1 (k_mem s) (k_mem s2) /\
    uput pt addr (if addr =? 0 then [] else int_bytes (p_xstate q)) k2 (k_mem s2) (k_mem s3) /\
    (if negb (msg =? 0) then let! _ := copyout pt msg (cstr (p_exit_msg q) ++ [0]) in ret tt else ret tt) s1 = Ok tt s2 /\
    (if negb (addr =? 0) then let! r := copyout pt addr (int_bytes (p_xstate q)) in ret (r <? 0) else ret false) s2 =
      Ok (k2 <? length (if (addr =? 0)%Z then [] else int_bytes (p_xstate q)))%nat s3 /\
    s3 = set_k_mem (k_mem s3) s1 /\ mem_only (frames (k_mem s) pt 0 n) (k_mem s) (k_mem s3) /\ uspace pt n s3 free /\
    (forall x, pte_of 2 (k_mem s3) pt x = pte_of 2 (k_mem s) pt x) /\ tree 2 (k_mem s3) pt = tree 2 (k_mem s) pt.
Proof.
  intros R Ha Hm. pose proof (re_space _ _ _ _ _ R) as U. fold pt in U.
  assert (U1 : uspace pt n s1 free).
  { apply (uspace_mem pt n s); [done|done| |done]. cbn. by rewrite not_elem_of_cons, list_elem_of_singleton. }
  destruct (copyout_opt (fun _ => tt) tt pt n s1 free msg (cstr (p_exit_msg q) ++ [0]) U1 Hm) as (k1 & s2 & W2 & B2 & E2).
  pose proof (uw_space _ _ _ _ _ _ _ _ W2) as U2.
  destruct (copyout_opt (fun r => r <? 0) false pt n s2 free addr (int_bytes (p_xstate q)) U2 Ha) as (k2 & s3 & W3 & B3 & E3).
  pose proof (uw_pte _ _ _ _ _ _ _ _ W2) as P2. pose proof (uw_pte _ _ _ _ _ _ _ _ W3) as P3.
  pose proof (uwrite_mem _ _ _ _ _ _ _ _ U1 Hm W2) as M2. pose proof (uwrite_mem _ _ _ _ _ _ _ _ U2 Ha W3) as M3.
  rewrite (frames_agree (k_mem s1) (k_mem s2)) in M3 by (intros i _; apply P2).
  assert (Es : s3 = set_k_mem (k_mem s3) s1) by (rewrite (uw_state _ _ _ _ _ _ _ _ W3), (uw_state _ _ _ _ _ _ _ _ W2); reflexivity).
  pose proof (mem_only_trans _ _ _ _ M2 M3) as M. pose proof (us_space _ _ _ _ U1) as A1.
  destruct (aspace_agree pt n s1 s3 free (frames (k_mem s) pt 0 n) A1) as (_ & Et & _ & _);
    [by rewrite Es|by rewrite Es|done|apply (as_pages _ _ _ _ A1)|intros x Hx; by apply (aspace_frame_not_tree pt n s1)|].
  exists k1, s2, k2, s3. split; [exact B2|]. split; [exact B3|]. split; [rewrite E2; by destruct (msg =? 0)|].
  split; [|split; [done|split; [done|split; [apply W3|split; [|done]]]]].
  - rewrite E3. destruct (addr =? 0); [by rewrite (proj2 (Nat.ltb_ge _ _)) by (cbn; lia)|]. by destruct (k2 <? _)%nat.
  - intros x. rewrite P3, P2. done.
Qed.

Lemma wait_first s p pp n free addr msg v s' :
  reap s p pp n free ->
  wait_scan (pp :: seq (S pp) (NPROC - S pp)) p addr msg (has_kid s p (seq 0 pp)) (set_k_held [wait_lock] s) = Ok (Some v, true) s' ->
  wait addr msg s = Ok v s'.
Proof.
  intros R E. unfold wait. pose proof (re_held _ _ _ _ _ R) as Hh. rewrite bind_acquire, Hh by (rewrite Hh; apply not_elem_of_nil).
  unfold wait_loop. rewrite (bind_myproc_ _ p) by apply R. destruct (re_slot _ _ _ _ _ R) as [Hpp _].
  replace (seq 0 NPROC) with (seq 0 pp ++ pp :: seq (S pp) (NPROC - S pp)).
  - unfold bind. rewrite wait_scan_skip; [|done|]; cbn [orb].
    { change (has_kid (set_k_held [wait_lock] s) p (seq 0 pp)) with (has_kid s p (seq 0 pp)). by rewrite E. }
    intros x Hx. apply elem_of_seq in Hx. apply (re_first _ _ _ _ _ R x). lia.
  - change (pp :: seq (S pp) (NPROC - S pp)) with (seq pp (S (NPROC - S pp))). rewrite <- seq_app. f_equal. lia.
Qed.

(** [C28] With a zombie among the caller's children, [wait] stores the first
    one's exit message at [msg] and its status at [addr] (where these are not
    null); if the status does not fit it returns -1 and the child stays, and
    otherwise it returns the child's pid, and the child's slot and all of its
    pages are free again. Both locks are released. *)
Theorem wait_reaps (s : kstate) (p pp n : nat) (free : list Z) (addr msg : Z)
    (pt := p_pagetable (get_proc s p)) (q := get_proc s pp) :
  reap s p pp n free -> 0 <= addr -> 0 <= msg ->
  exists k1 m1 k2 m2,
    uput pt msg (if msg =? 0 then [] else cstr (p_exit_msg q) ++ [0]) k1 (k_mem s) m1 /\
    uput pt addr (if addr =? 0 then [] else int_bytes (p_xstate q)) k2 m1 m2 /\
    if (k2 <? length (if (addr =? 0)%Z then [] else int_bytes (p_xstate q)))%nat
    then wait addr msg s = Ok (-1) (set_k_mem m2 s)
    else exists s' free', wait addr msg s = Ok (p_pid q) s' /\ gone s p pp free m2 s' free'.
Proof.
  intros R Ha Hm. destruct (reap_copies s p pp n free addr msg R Ha Hm) as (k1 & s2 & k2 & s3 & B2 & B3 & E2 & E3 & Es & M3 & U3 & P3 & T3).
  exists k1, (k_mem s2), k2, (k_mem s3). split; [exact B2|]. split; [exact B3|].
  fold pt q in E2, E3. pose proof (re_held _ _ _ _ _ R) as Hh. destruct (re_kid _ _ _ _ _ R) as [Hpar Hz].
  assert (H2 : k_held s3 = [proc_lock pp; wait_lock]) by (by rewrite Es).
  assert (Hl : proc_lock pp ∉ [wait_lock]) by (by rewrite list_elem_of_singleton).
  destruct (k2 <? _)%nat.
  - apply (wait_first s p pp n free); [done|]. cbn [wait_scan]. rewrite bind_gets, bool_decide_eq_true_2 by exact Hpar.
    rewrite bind_acquire by exact Hl. rewrite bind_gets, bool_decide_eq_true_2 by exact Hz. rewrite bind_gets.
    rewrite (bind_ok _ _ _ _ _ E2), (bind_ok _ _ _ _ _ E3), (bind_release (proc_lock pp) [wait_lock]) by done.
    rewrite (bind_release wait_lock []) by (done || apply not_elem_of_nil). unfold ret. f_equal. rewrite Es.
    transitivity (set_k_held (k_held s) (set_k_mem (k_mem s3) s)); [|reflexivity]. by rewrite Hh.
  - destruct (reap_free s p pp n free s3 R Es M3 U3 P3 T3) as (s4 & f4 & E4 & H4 & G4).
    exists (set_k_held [] s4), f4. split; [|exact G4]. apply (wait_first s p pp n free); [done|]. cbn [wait_scan].
    rewrite bind_gets, bool_decide_eq_true_2 by exact Hpar. rewrite bind_acquire by exact Hl.
    rewrite bind_gets, bool_decide_eq_true_2 by exact Hz. rewrite bind_gets.
    rewrite (bind_ok _ _ _ _ _ E2), (bind_ok _ _ _ _ _ E3), (bind_ok _ _ _ _ _ E4), (bind_release (proc_lock pp) [wait_lock]) by done.
    by rewrite (bind_release wait_lock []) by (done || apply not_elem_of_nil).
Qed.
End Wait.

(** ** Witnesses *)

(** A process and its child, which has exited. *)
Definition exited (q : proc) : proc := set_p_xstate 7 (set_p_state ZOMBIE q).

Lemma ram60_reap :
  exists s p pp free, reap (L := ram60) s p pp 1 free /\ p_xstate (get_proc s pp) = 7 /\
    PTE_FLAGS (pte_of 2 (k_mem s) (p_pagetable (get_proc s p)) 0) = Z.lor (Z.lor (Z.lor PTE_R PTE_U) PTE_W) PTE_V.
Proof.
  pose proof ram60_ok as LO. destruct (ram60_running 1 ltac:(lia)) as (s & p & free & R & Hsz & Hf & Hq & Hfl & _).
  destruct (fork_ok (L := ram60) s p free R) as [(np & s' & free' & _ & C)|(s' & free' & _ & _ & [H|H])].
  2: { exfalso. apply (H (if decide (p = 0%nat) then 1%nat else 0%nat)); [case_decide; unfold NPROC; lia|].
       rewrite Hq; [done|]. case_decide; lia. }
  2: { exfalso. rewrite Hsz in H. change (pages_of _) with 1%nat in H. lia. }
  destruct (ch_slot _ _ _ _ _ _ C) as [Hnp Hu]. destruct (ru_proc _ _ _ R) as [Hp Hrun]. assert (Hne : p <> np) by congruence.
  pose proof (ch_table _ _ _ _ _ _ C) as Hlen.
  set (z := upd_proc np exited s').
  assert (Gn : get_proc z np = exited (get_proc s' np)) by (unfold z; apply get_upd_same; lia).
  assert (Go : forall q, q <> np -> get_proc z q = get_proc s q).
  { intros q Hne'. unfold z. rewrite get_upd_other by done. by apply (ch_others _ _ _ _ _ _ C). }
  assert (Hn : pages_of (p_sz (get_proc s p)) = 1%nat) by (by rewrite Hsz).
  pose proof (ch_mine _ _ _ _ _ _ C) as Pm. pose proof (ch_space _ _ _ _ _ _ C) as Pc. rewrite Hn in Pm, Pc.
  destruct (outside_kept _ _ _ _ _ (ps_space _ _ _ _ _ (ru_space _ _ _ R)) (ch_mem _ _ _ _ _ _ C)) as (Et & Ep & Ef & _).
  exists z, p, np, free'. split; [|split; [by rewrite Gn|rewrite (Go p Hne); change (k_mem z) with (k_mem s'); by rewrite Ep]].
  split; rewrite ?Gn, ?(Go p Hne).
  - change (k_cur s' = Some p). rewrite (ch_frame _ _ _ _ _ _ C). apply R.
  - apply (ch_held _ _ _ _ _ _ C).
  - split; [done|]. unfold z. by rewrite length_upd_proc.
  - split; [rewrite Gn; apply (ch_parent _ _ _ _ _ _ C)|by rewrite Gn].
  - intros q Hlt [_ Hz]. rewrite Go in Hz by lia. destruct (decide (q = p)) as [->|Hqp]; [congruence|by rewrite Hq in Hz].
  - apply (uspace_mem _ _ s'); [done|done|change (k_held z) with (k_held s'); rewrite (ch_held _ _ _ _ _ _ C); apply not_elem_of_nil|].
    by apply (pspace_uspace _ _ _ _ _ Pm).
  - change (0 <= p_sz (get_proc s' np) <= TRAPFRAME). rewrite (ch_sz _ _ _ _ _ _ C). apply R.
  - intros H0. pose proof (ps_space _ _ _ _ _ Pc) as A. change (p_pagetable (get_proc s' np) = 0) in H0. rewrite H0 in A.
    pose proof (tb_pages _ _ _ (as_table _ _ _ _ A)) as Ht. rewrite Forall_forall in Ht.
    pose proof (page_ok_pos _ (Ht 0 (tree_root _ _ _))). lia.
  - change (pspace (L := ram60) (p_pagetable (get_proc s' np)) (p_trapframe (get_proc s' np)) (pages_of (p_sz (get_proc s' np))) z free').
    rewrite (ch_sz _ _ _ _ _ _ C), Hn. apply (pspace_frame _ _ _ s'); [done|done|done|].
    change (k_held z) with (k_held s'). rewrite (ch_held _ _ _ _ _ _ C). apply not_elem_of_nil.
  - change (k_mem z) with (k_mem s'). rewrite Hn in Ef. rewrite Et, Ef. intros x Hx Hin.
    change (x ∈ p_trapframe (get_proc s' np) :: owned (p_pagetable (get_proc s' np)) (pages_of (p_sz (get_proc s' np))) s' free') in Hin.
    rewrite (ch_sz _ _ _ _ _ _ C), (ch_pages _ _ _ _ _ _ C) in Hin.
    pose proof (as_nodup _ _ _ _ (ps_space _ _ _ _ _ (ru_space _ _ _ R))) as Hd. rewrite Hn, app_assoc in Hd.
    apply NoDup_app in Hd as (_ & Hd & _). by apply (Hd x Hx).
Qed.

Lemma wait_reaps_witness :
  exists s p pp s' free free', reap (L := ram60) s p pp 1 free /\ wait (L := ram60) 16 0 s = Ok (p_pid (get_proc s pp)) s' /\
    kmem_inv (L := ram60) s' free' /\ uread (k_mem s') (p_pagetable (get_proc s p)) 16 = 7.
Proof.
  pose proof ram60_ok as LO. destruct ram60_reap as (s & p & pp & free & R & Hx & Hfl).
  assert (Hok : forall va, 0 <= va < PGSIZE -> uok (k_mem s) (p_pagetable (get_proc s p)) va).
  { intros va. apply (first_page_uok (L := ram60) s _ 1 free); [apply R|lia|done]. }
  destruct (wait_reaps (L := ram60) s p pp 1 free 16 0 R) as (k1 & m1 & k2 & m2 & B1 & B2 & H); [lia|lia|].
  change (0 =? 0) with true in B1. change (16 =? 0) with false in B2, H. cbv iota in B1, B2, H. rewrite Hx in B2, H.
  change (length (int_bytes 7)) with 4%nat in H.
  assert (Ep : forall x, pte_of 2 m1 (p_pagetable (get_proc s p)) x = pte_of 2 (k_mem s) (p_pagetable (get_proc s p)) x).
  { apply tree_agree. intros x a _ _. apply (up_rest _ _ _ _ _ _ B1). intros i Hi. pose proof (up_le _ _ _ _ _ _ B1). cbn in *. lia. }
  assert (Hk2 : k2 = 4%nat).
  { pose proof (up_le _ _ _ _ _ _ B2) as Hle. change (length (int_bytes 7)) with 4%nat in Hle.
    destruct (up_all _ _ _ _ _ _ B2) as [->|Hno]; [done|]. exfalso. apply Hno. rewrite (uok_agree (k_mem s)) by done.
    apply Hok. unfold PGSIZE. lia. }
  subst k2. change (4 <? 4)%nat with false in H. cbv iota in H. destruct H as (s' & free' & E & G).
  exists s, p, pp, s', free, free'. split; [done|]. split; [done|]. split; [apply (go_free _ _ _ _ _ _ _ G)|].
  rewrite (go_user _ _ _ _ _ _ _ G 16) by (lia || apply Hok; unfold PGSIZE; lia).
  destruct (up_bytes _ _ _ _ _ _ B2 0%nat 7) as [_ Hb]; [lia|reflexivity|]. exact Hb.
Defined.

(** A process with a child that still runs. *)
Definition family : kstate :=
  set_k_cur (Some 1%nat) (upd_proc 2 (fun q => set_p_parent (Some 1%nat) (set_p_state RUNNABLE q)) kstate_zero).

Lemma family_proc q : get_proc family q = if decide (q = 2%nat) then set_p_parent (Some 1%nat) (set_p_state RUNNABLE proc_zero) else proc_zero.
Proof.
  unfold family. change (get_proc (set_k_cur ?c ?x) q) with (get_proc x q). case_decide as H.
  - subst q. by rewrite get_upd_same by (apply Nat.ltb_lt; reflexivity).
  - rewrite get_upd_other by congruence. unfold get_proc. change (default proc_zero (replicate NPROC proc_zero !! q) = proc_zero).
    destruct (replicate NPROC proc_zero !! q) as [x|] eqn:E; [|done]. by apply lookup_replicate in E as [-> _].
Qed.

Lemma wait_none_witness :
  wait (L := ram60) 0 0 family = Sleeps (asleep (ch_proc 1) 1 (set_k_held [wait_lock] family)).
Proof.
  rewrite (wait_none (L := ram60) family 1 0 0).
  - unfold has_kid. assert (E : existsb (fun q => bool_decide (p_parent (get_proc family q) = Some 1%nat)) (seq 0 NPROC) = true).
    { apply existsb_exists. exists 2%nat. split; [apply in_seq; unfold NPROC; lia|]. rewrite family_proc. by apply bool_decide_eq_true. }
    rewrite E, family_proc. reflexivity.
  - reflexivity.
  - unfold NPROC. lia.
  - reflexivity.
  - reflexivity.
  - intros q _ [_ H]. rewrite family_proc in H. case_decide; discriminate H.
Defined.
