(* ===== verification/Virtio.v ===== *)
(** * kernel/virtio_disk.c: the disk driver

    The driver shares a set of descriptors and two rings with the device and
    serves any number of processes at once; the lock [vdisk_lock] is released
    in [sleep], and the device never takes it.  [virtio_disk_rw] is cut where
    the lock is released, and at the store that makes a request visible to
    the device; interrupts run one round of their loop at a time, so that the
    device may act in between.

    The device is a parameter.  What the driver relies on is [dev_may], the
    contract of the virtio specification for a block device: it takes heads
    of chains from the available ring and, in any order, carries out the
    requests and puts the heads on the used ring; nothing is known of a device
    that meets a malformed chain.

    The theorems: the driver never panics, a process never sleeps on when its
    request is done or when there are descriptors for it, and together with
    the device it implements an atomic transfer of one block, which is
    [virtio_disk_rw] of [Bio.v]. *)

From S2P Require Import Prelude KString Bytes Ring KState Riscv Spinlock Kalloc Vm VmTree VmMap VmSpace VmFree VmCopy Sched Sleeplock Bio.

(** ** The shared structures *)

Definition NUM : nat := 8.
Definition VRING_DESC_F_NEXT : Z := 1.
Definition VRING_DESC_F_WRITE : Z := 2.
Definition VIRTIO_BLK_T_IN : Z := 0.
Definition VIRTIO_BLK_T_OUT : Z := 1.

(** What a descriptor may point to: [&disk.ops[i]], [b->data] of a buffer,
    [&disk.info[i].status]. *)
Inductive daddr : Type := A_null | A_ops (i : nat) | A_data (b : nat) | A_status (i : nat).

#[projections(primitive)]
Record virtq_desc : Type := mkDesc { d_addr : daddr; d_len : Z; d_flags : Z; d_next : nat }.

#[projections(primitive)]
Record virtio_blk_req : Type := mkReq { r_type : Z; r_reserved : Z; r_sector : Z }.

(** An element of [disk.info]. *)
#[projections(primitive)]
Record vinfo : Type := mkInfo { in_b : option nat; in_status : Z }.

(** The fields of [struct buf] that the driver uses. *)
#[projections(primitive)]
Record vbuf : Type := mkVbuf { vb_disk : bool; vb_blockno : Z; vb_data : list Z }.

(** [&disk.free[0]], and a buffer. *)
Inductive vchan : Type := C_free | C_buf (b : nat).
#[global] Instance vchan_eq_dec : EqDecision vchan.
Proof. solve_decision. Defined.

(** Where a process is in [virtio_disk_rw]: outside; asleep for descriptors;
    with a formatted request; waiting for its completion. *)
Inductive vpc : Type :=
| Idle
| Waiting (b : nat) (write : bool)
| Ready (b : nat) (write : bool) (i0 i1 i2 : nat)
| Flight (b : nat) (write : bool) (i0 i1 i2 : nat).

(** The owner of [vdisk_lock]. *)
Inductive vowner : Type := O_proc (p : nat) | O_intr.

#[projections(primitive)]
Record vstate : Type := mkV {
  v_desc : list virtq_desc;
  v_avail : list Z;                 (* [avail->ring] *)
  v_aidx : Z;                       (* [avail->idx] *)
  v_used : list Z;                  (* [used->ring[].id] *)
  v_uidx : Z;                       (* [used->idx] *)
  v_free : list bool;
  v_used_idx : Z;                   (* [disk.used_idx] *)
  v_info : list vinfo;
  v_ops : list virtio_blk_req;
  v_bufs : list vbuf;
  v_lock : option vowner;
  v_asleep : nat -> option vchan;
  v_pc : nat -> vpc;
  v_seen : Z;                       (* the device has looked this far in [avail] *)
  v_pending : list Z;               (* heads the device works on *)
  v_img : mem                       (* the disk, byte by byte *)
}.

Definition set_v_desc x v := mkV x (v_avail v) (v_aidx v) (v_used v) (v_uidx v) (v_free v) (v_used_idx v) (v_info v) (v_ops v) (v_bufs v) (v_lock v) (v_asleep v) (v_pc v) (v_seen v) (v_pending v) (v_img v).
Definition set_v_avail x v := mkV (v_desc v) x (v_aidx v) (v_used v) (v_uidx v) (v_free v) (v_used_idx v) (v_info v) (v_ops v) (v_bufs v) (v_lock v) (v_asleep v) (v_pc v) (v_seen v) (v_pending v) (v_img v).
Definition set_v_aidx x v := mkV (v_desc v) (v_avail v) x (v_used v) (v_uidx v) (v_free v) (v_used_idx v) (v_info v) (v_ops v) (v_bufs v) (v_lock v) (v_asleep v) (v_pc v) (v_seen v) (v_pending v) (v_img v).
Definition set_v_used x v := mkV (v_desc v) (v_avail v) (v_aidx v) x (v_uidx v) (v_free v) (v_used_idx v) (v_info v) (v_ops v) (v_bufs v) (v_lock v) (v_asleep v) (v_pc v) (v_seen v) (v_pending v) (v_img v).
Definition set_v_uidx x v := mkV (v_desc v) (v_avail v) (v_aidx v) (v_used v) x (v_free v) (v_used_idx v) (v_info v) (v_ops v) (v_bufs v) (v_lock v) (v_asleep v) (v_pc v) (v_seen v) (v_pending v) (v_img v).
Definition set_v_free x v := mkV (v_desc v) (v_avail v) (v_aidx v) (v_used v) (v_uidx v) x (v_used_idx v) (v_info v) (v_ops v) (v_bufs v) (v_lock v) (v_asleep v) (v_pc v) (v_seen v) (v_pending v) (v_img v).
Definition set_v_used_idx x v := mkV (v_desc v) (v_avail v) (v_aidx v) (v_used v) (v_uidx v) (v_free v) x (v_info v) (v_ops v) (v_bufs v) (v_lock v) (v_asleep v) (v_pc v) (v_seen v) (v_pending v) (v_img v).
Definition set_v_info x v := mkV (v_desc v) (v_avail v) (v_aidx v) (v_used v) (v_uidx v) (v_free v) (v_used_idx v) x (v_ops v) (v_bufs v) (v_lock v) (v_asleep v) (v_pc v) (v_seen v) (v_pending v) (v_img v).
Definition set_v_ops x v := mkV (v_desc v) (v_avail v) (v_aidx v) (v_used v) (v_uidx v) (v_free v) (v_used_idx v) (v_info v) x (v_bufs v) (v_lock v) (v_asleep v) (v_pc v) (v_seen v) (v_pending v) (v_img v).
Definition set_v_bufs x v := mkV (v_desc v) (v_avail v) (v_aidx v) (v_used v) (v_uidx v) (v_free v) (v_used_idx v) (v_info v) (v_ops v) x (v_lock v) (v_asleep v) (v_pc v) (v_seen v) (v_pending v) (v_img v).
Definition set_v_lock x v := mkV (v_desc v) (v_avail v) (v_aidx v) (v_used v) (v_uidx v) (v_free v) (v_used_idx v) (v_info v) (v_ops v) (v_bufs v) x (v_asleep v) (v_pc v) (v_seen v) (v_pending v) (v_img v).
Definition set_v_asleep x v := mkV (v_desc v) (v_avail v) (v_aidx v) (v_used v) (v_uidx v) (v_free v) (v_used_idx v) (v_info v) (v_ops v) (v_bufs v) (v_lock v) x (v_pc v) (v_seen v) (v_pending v) (v_img v).
Definition set_v_pc x v := mkV (v_desc v) (v_avail v) (v_aidx v) (v_used v) (v_uidx v) (v_free v) (v_used_idx v) (v_info v) (v_ops v) (v_bufs v) (v_lock v) (v_asleep v) x (v_seen v) (v_pending v) (v_img v).
Definition set_v_seen x v := mkV (v_desc v) (v_avail v) (v_aidx v) (v_used v) (v_uidx v) (v_free v) (v_used_idx v) (v_info v) (v_ops v) (v_bufs v) (v_lock v) (v_asleep v) (v_pc v) x (v_pending v) (v_img v).
Definition set_v_pending x v := mkV (v_desc v) (v_avail v) (v_aidx v) (v_used v) (v_uidx v) (v_free v) (v_used_idx v) (v_info v) (v_ops v) (v_bufs v) (v_lock v) (v_asleep v) (v_pc v) (v_seen v) x (v_img v).
Definition set_v_img x v := mkV (v_desc v) (v_avail v) (v_aidx v) (v_used v) (v_uidx v) (v_free v) (v_used_idx v) (v_info v) (v_ops v) (v_bufs v) (v_lock v) (v_asleep v) (v_pc v) (v_seen v) (v_pending v) x.

Definition V (A : Type) : Type := M vstate A.

Definition desc0 : virtq_desc := mkDesc A_null 0 0 0.
Definition vbuf0 : vbuf := mkVbuf false 0 [].
Definition get_desc (v : vstate) (i : nat) : virtq_desc := default desc0 (v_desc v !! i).
Definition get_vbuf (v : vstate) (b : nat) : vbuf := default vbuf0 (v_bufs v !! b).

Definition put_at {A} (f : nat -> A) (i : nat) (x : A) : nat -> A := fun j => if decide (j = i) then x else f j.

(** [wakeup(ch)] of kernel/proc.c. *)
Definition vwakeup (ch : vchan) : V unit :=
  modify (fun v => set_v_asleep (fun p => if decide (v_asleep v p = Some ch) then None else v_asleep v p) v).

(** [sleep(ch, &disk.vdisk_lock)] of process [p], until it is switched out. *)
Definition vsleep (p : nat) (ch : vchan) : V unit :=
  modify (fun v => set_v_lock None (set_v_asleep (put_at (v_asleep v) p (Some ch)) v)).

(** ** Descriptors *)

Fixpoint alloc_desc_loop (ix : list nat) : V (option nat) :=
  match ix with
  | [] => ret None
  | i :: ix =>
      let! f := gets (fun v => default false (v_free v !! i)) in
      if f then modify (fun v => set_v_free (<[i := false]> (v_free v)) v) ;;; ret (Some i)
      else alloc_desc_loop ix
  end.

(** [None] is -1. *)
Definition alloc_desc : V (option nat) := alloc_desc_loop (seq 0 NUM).

Definition free_desc (i : nat) : V unit :=
  if (NUM <=? i)%nat then panic "free_desc 1"
  else
    let! f := gets (fun v => default false (v_free v !! i)) in
    if f then panic "free_desc 2"
    else
      modify (fun v => set_v_desc (<[i := desc0]> (v_desc v)) v) ;;;
      modify (fun v => set_v_free (<[i := true]> (v_free v)) v) ;;;
      vwakeup C_free.

(** A chain without a cycle has at most [NUM] descriptors. *)
Fixpoint free_chain_loop (fuel : nat) (i : nat) : V unit :=
  match fuel with
  | O => nofuel
  | S fuel =>
      let! d := gets (fun v => get_desc v i) in
      free_desc i ;;;
      if negb (Z.land (d_flags d) VRING_DESC_F_NEXT =? 0) then free_chain_loop fuel (d_next d)
      else ret tt
  end.

Definition free_chain (i : nat) : V unit := free_chain_loop NUM i.

Fixpoint free_each (l : list nat) : V unit :=
  match l with
  | [] => ret tt
  | j :: l => free_desc j ;;; free_each l
  end.

(** The loop of [alloc3_desc], [k] descriptors to go, [idx] found. *)
Fixpoint alloc3_loop (k : nat) (idx : list nat) : V (option (list nat)) :=
  match k with
  | O => ret (Some idx)
  | S k =>
      let! r := alloc_desc in
      match r with
      | None => free_each idx ;;; ret None
      | Some i => alloc3_loop k (idx ++ [i])
      end
  end.

Definition alloc3_desc : V (option (list nat)) := alloc3_loop 3 [].

(** ** [virtio_disk_rw] *)

Definition sector_of (blockno : Z) : Z := u32 (blockno * 2).

(** From the allocation of the descriptors to the store to the ring. *)
Definition rw_format (p b : nat) (write : bool) (i0 i1 i2 : nat) : V unit :=
  modify (fun v => set_v_ops (<[i0 := mkReq (if write then VIRTIO_BLK_T_OUT else VIRTIO_BLK_T_IN) 0
    (sector_of (vb_blockno (get_vbuf v b)))]> (v_ops v)) v) ;;;
  modify (fun v => set_v_desc (<[i0 := mkDesc (A_ops i0) 16 VRING_DESC_F_NEXT i1]> (v_desc v)) v) ;;;
  modify (fun v => set_v_desc (<[i1 := mkDesc (A_data b) 1024
    (Z.lor (if write then 0 else VRING_DESC_F_WRITE) VRING_DESC_F_NEXT) i2]> (v_desc v)) v) ;;;
  modify (fun v => set_v_info (alter (fun x => mkInfo (in_b x) 0xff) i0 (v_info v)) v) ;;;
  modify (fun v => set_v_desc (<[i2 := mkDesc (A_status i0) 1 VRING_DESC_F_WRITE 0]> (v_desc v)) v) ;;;
  modify (fun v => set_v_bufs (alter (fun x => mkVbuf true (vb_blockno x) (vb_data x)) b (v_bufs v)) v) ;;;
  modify (fun v => set_v_info (alter (fun x => mkInfo (Some b) (in_status x)) i0 (v_info v)) v) ;;;
  modify (fun v => set_v_avail (<[Z.to_nat (v_aidx v mod Z.of_nat NUM) := Z.of_nat i0]> (v_avail v)) v) ;;;
  modify (fun v => set_v_pc (put_at (v_pc v) p (Ready b write i0 i1 i2)) v).

(** One round of the first loop: process [p] has come from the start of the
    function or from [sleep], and holds the lock. *)
Definition rw_alloc (p b : nat) (write : bool) : V unit :=
  let! r := alloc3_desc in
  match r with
  | Some [i0; i1; i2] => rw_format p b write i0 i1 i2
  | Some _ => fault "three descriptors"
  | None =>
      modify (fun v => set_v_pc (put_at (v_pc v) p (Waiting b write)) v) ;;;
      vsleep p C_free
  end.

(** [acquire], as a process or in an interrupt handler. *)
Definition vacquire (o : vowner) : V unit := modify (set_v_lock (Some o)).

Definition rw_begin (p b : nat) (write : bool) : V unit := vacquire (O_proc p) ;;; rw_alloc p b write.

(** [while(b->disk == 1) sleep(b, ...)] and the end of the function. *)
Definition rw_wait (p b : nat) (write : bool) (i0 i1 i2 : nat) : V unit :=
  let! x := gets (fun v => get_vbuf v b) in
  if vb_disk x then
    modify (fun v => set_v_pc (put_at (v_pc v) p (Flight b write i0 i1 i2)) v) ;;;
    vsleep p (C_buf b)
  else
    modify (fun v => set_v_info (alter (fun x => mkInfo None (in_status x)) i0 (v_info v)) v) ;;;
    free_chain i0 ;;;
    modify (fun v => set_v_pc (put_at (v_pc v) p Idle) v) ;;;
    modify (set_v_lock None).

(** The request becomes visible to the device. *)
Definition rw_publish (p b : nat) (write : bool) (i0 i1 i2 : nat) : V unit :=
  modify (fun v => set_v_aidx (u16 (v_aidx v + 1)) v) ;;;
  rw_wait p b write i0 i1 i2.

(** Process [p] runs again after [sleep]. *)
Definition rw_resume (p : nat) : V unit :=
  vacquire (O_proc p) ;;;
  let! pc := gets (fun v => v_pc v p) in
  match pc with
  | Waiting b write => rw_alloc p b write
  | Flight b write i0 i1 i2 => rw_wait p b write i0 i1 i2
  | _ => fault "not asleep"
  end.

(** ** [virtio_disk_intr] *)

(** One round of the loop. *)
Definition intr_round : V unit :=
  let! id := gets (fun v => nth (Z.to_nat (v_used_idx v mod Z.of_nat NUM)) (v_used v) 0) in
  let! i := gets (fun v => default (mkInfo None 0) (v_info v !! Z.to_nat id)) in
  if negb (in_status i =? 0) then panic "virtio_disk_intr status"
  else
    match in_b i with
    | None => fault "null buf"
    | Some b =>
        modify (fun v => set_v_bufs (alter (fun x => mkVbuf false (vb_blockno x) (vb_data x)) b (v_bufs v)) v) ;;;
        vwakeup (C_buf b) ;;;
        modify (fun v => set_v_used_idx (u16 (v_used_idx v + 1)) v)
    end.

(** ** The device *)

(** What a device does for the chain at [h], if it is a request for a block
    device: the data moves between the buffer and the disk, and the status
    byte becomes 0. *)
Definition dev_io (h : Z) (v : vstate) : option vstate :=
  d0 ← v_desc v !! Z.to_nat h;
  d1 ← v_desc v !! d_next d0;
  d2 ← v_desc v !! d_next d1;
  match d_addr d0, d_addr d1, d_addr d2 with
  | A_ops i, A_data b, A_status j =>
      r ← v_ops v !! i;
      x ← v_bufs v !! b;
      st ← v_info v !! j;
      let v := set_v_info (<[j := mkInfo (in_b st) 0]> (v_info v)) v in
      if (d_len d0 =? 16) && (Z.land (d_flags d0) VRING_DESC_F_NEXT =? 1) && (Z.land (d_flags d1) VRING_DESC_F_NEXT =? 1) &&
         (d_len d2 =? 1) && (d_flags d2 =? VRING_DESC_F_WRITE) && (r_reserved r =? 0)
      then
        if (r_type r =? VIRTIO_BLK_T_OUT) && (Z.land (d_flags d1) VRING_DESC_F_WRITE =? 0) then
          Some (set_v_img (wr_bytes (v_img v) (512 * r_sector r) (take (Z.to_nat (d_len d1)) (vb_data x))) v)
        else if (r_type r =? VIRTIO_BLK_T_IN) && (Z.land (d_flags d1) VRING_DESC_F_WRITE =? VRING_DESC_F_WRITE) then
          Some (set_v_bufs (<[b := mkVbuf (vb_disk x) (vb_blockno x)
            (bytes_at (v_img v) (512 * r_sector r) (Z.to_nat (d_len d1)))]> (v_bufs v)) v)
        else None
      else None
  | _, _, _ => None
  end.

(** The head goes to the used ring. *)
Definition dev_done (h : Z) (v : vstate) : vstate :=
  set_v_uidx (u16 (v_uidx v + 1))
    (set_v_used (<[Z.to_nat (v_uidx v mod Z.of_nat NUM) := h]> (v_used v)) v).

(** The contract of a virtio block device. *)
Inductive dev_may (v : vstate) : vstate -> Prop :=
| dev_fetch :
    v_seen v <> v_aidx v ->
    dev_may v (set_v_seen (u16 (v_seen v + 1))
      (set_v_pending (v_pending v ++ [nth (Z.to_nat (v_seen v mod Z.of_nat NUM)) (v_avail v) 0]) v))
| dev_complete h l1 l2 v1 :
    v_pending v = l1 ++ h :: l2 -> dev_io h v = Some v1 ->
    dev_may v (dev_done h (set_v_pending (l1 ++ l2) v1))
| dev_lost h v' :
    h ∈ v_pending v -> dev_io h v = None -> dev_may v v'.

(** ** Steps of the system *)

(** The descriptors and the buffer of a process's request. *)
Definition owns (pc : vpc) : list nat :=
  match pc with Ready _ _ i0 i1 i2 | Flight _ _ i0 i1 i2 => [i0; i1; i2] | _ => [] end.
Definition buf_of (pc : vpc) : option nat :=
  match pc with Idle => None | Waiting b _ | Ready b _ _ _ _ | Flight b _ _ _ _ => Some b end.

(** The driver's actions: a call, the store to [avail->idx] and the sleep
    that follows, the return from a sleep, and an interrupt. *)
Inductive vact : Type := Begin (p b : nat) (write : bool) | Publish (p : nat) | Resume (p : nat) | Intr | Round | Intr_end.

Definition act (a : vact) : V unit :=
  match a with
  | Begin p b write => rw_begin p b write
  | Publish p =>
      let! pc := gets (fun v => v_pc v p) in
      match pc with
      | Ready b write i0 i1 i2 => rw_publish p b write i0 i1 i2
      | _ => fault "nothing to publish"
      end
  | Resume p => rw_resume p
  | Intr => vacquire O_intr
  | Round => intr_round
  | Intr_end => modify (set_v_lock None)
  end.

(** When they happen.  A caller of [virtio_disk_rw] holds the sleep lock of
    the buffer, so that no other process uses it. *)
Definition enabled (v : vstate) (a : vact) : Prop :=
  match a with
  | Begin p b _ =>
      v_lock v = None /\ v_pc v p = Idle /\ (b < length (v_bufs v))%nat /\ forall q, buf_of (v_pc v q) <> Some b
  | Publish p => v_lock v = Some (O_proc p)
  | Resume p =>
      v_lock v = None /\ v_asleep v p = None /\ match v_pc v p with Waiting _ _ | Flight _ _ _ _ _ => True | _ => False end
  | Intr => v_lock v = None
  | Round => v_lock v = Some O_intr /\ v_used_idx v <> v_uidx v
  | Intr_end => v_lock v = Some O_intr /\ v_used_idx v = v_uidx v
  end.

(** Blocks whose sector number fits. *)
Definition vbuf_ok (x : vbuf) : Prop := length (vb_data x) = 1024%nat /\ byte_list (vb_data x) /\ 0 <= vb_blockno x < 2 ^ 31.

Section System.
Context (device : vstate -> vstate -> Prop).

Inductive vstep (v : vstate) : vstate -> Prop :=
| st_act a v' : enabled v a -> act a v = Ok tt v' -> vstep v v'
| st_kill_ p : vstep v (set_v_asleep (put_at (v_asleep v) p None) v)
| st_cpu b x :
    (forall q, buf_of (v_pc v q) <> Some b) -> vbuf_ok x -> vb_disk x = vb_disk (get_vbuf v b) ->
    vstep v (set_v_bufs (<[b := x]> (v_bufs v)) v)
| st_device v' : device v v' -> vstep v v'.

(** After [virtio_disk_init]. *)
Definition vstate0 (bufs : list vbuf) (img : mem) : vstate :=
  mkV (replicate NUM desc0) (replicate NUM 0) 0 (replicate NUM 0) 0 (replicate NUM true) 0
    (replicate NUM (mkInfo None 0)) (replicate NUM (mkReq 0 0 0)) bufs None (fun _ => None) (fun _ => Idle) 0 [] img.

Definition vreach (v : vstate) : Prop :=
  exists bufs img, Forall vbuf_ok bufs /\ rtc vstep (vstate0 bufs img) v.
End System.

(** ** Invariant *)

Definition rlist (buf : list Z) (r w : Z) : list Z := ring_list (Z.of_nat NUM) (2 ^ 16) buf r w.
Definition rok (buf : list Z) (r w : Z) : Prop := ring_ok (Z.of_nat NUM) (2 ^ 16) buf r w.

(** Published and not fetched; served and not seen by the driver. *)
Definition queued (v : vstate) : list Z := rlist (v_avail v) (v_seen v) (v_aidx v).
Definition served (v : vstate) : list Z := rlist (v_used v) (v_used_idx v) (v_uidx v).
Definition heads (v : vstate) : list Z := queued v ++ v_pending v ++ served v.

Definition is_free (v : vstate) (i : nat) : Prop := v_free v !! i = Some true.

(** The chain of a request. *)
Record chain (v : vstate) (b : nat) (w : bool) (i0 i1 i2 : nat) : Prop := {
  cn_d0 : v_desc v !! i0 = Some (mkDesc (A_ops i0) 16 VRING_DESC_F_NEXT i1);
  cn_d1 : v_desc v !! i1 = Some (mkDesc (A_data b) 1024 (Z.lor (if w then 0 else VRING_DESC_F_WRITE) VRING_DESC_F_NEXT) i2);
  cn_d2 : v_desc v !! i2 = Some (mkDesc (A_status i0) 1 VRING_DESC_F_WRITE 0);
  cn_op : v_ops v !! i0 = Some (mkReq (if w then VIRTIO_BLK_T_OUT else VIRTIO_BLK_T_IN) 0 (sector_of (vb_blockno (get_vbuf v b))));
  cn_info : exists st, v_info v !! i0 = Some (mkInfo (Some b) st)
}.

Definition request (pc : vpc) : option (nat * bool * nat * nat * nat) :=
  match pc with Ready b w i0 i1 i2 | Flight b w i0 i1 i2 => Some (b, w, i0, i1, i2) | _ => None end.

(** Process [p] waits for the device: the request at [h] is on its way. *)
Definition on_way (v : vstate) (h : Z) : Prop :=
  exists p b w i0 i1 i2, v_pc v p = Flight b w i0 i1 i2 /\ h = Z.of_nat i0 /\ vb_disk (get_vbuf v b) = true.

Record vinv (v : vstate) : Prop := {
  vi_len : length (v_desc v) = NUM /\ length (v_free v) = NUM /\ length (v_info v) = NUM /\ length (v_ops v) = NUM;
  vi_avail : rok (v_avail v) (v_seen v) (v_aidx v);
  vi_used : rok (v_used v) (v_used_idx v) (v_uidx v);
  vi_owned : forall p i, i ∈ owns (v_pc v p) -> v_free v !! i = Some false;
  vi_nodup : forall p, NoDup (owns (v_pc v p));
  vi_apart : forall p q i, i ∈ owns (v_pc v p) -> i ∈ owns (v_pc v q) -> p = q;
  vi_buf : forall p q b, buf_of (v_pc v p) = Some b -> buf_of (v_pc v q) = Some b -> p = q;
  vi_bufs : forall p b, buf_of (v_pc v p) = Some b -> (b < length (v_bufs v))%nat;
  vi_data : Forall vbuf_ok (v_bufs v);
  vi_chain : forall p b w i0 i1 i2, request (v_pc v p) = Some (b, w, i0, i1, i2) -> chain v b w i0 i1 i2;
  vi_ready : forall p b w i0 i1 i2, v_pc v p = Ready b w i0 i1 i2 ->
    v_lock v = Some (O_proc p) /\ vb_disk (get_vbuf v b) = true /\
    nth (Z.to_nat (v_aidx v mod Z.of_nat NUM)) (v_avail v) 0 = Z.of_nat i0;
  vi_lock : forall p, v_lock v = Some (O_proc p) -> exists b w i0 i1 i2, v_pc v p = Ready b w i0 i1 i2;
  vi_heads : NoDup (heads v);
  vi_way : forall h, h ∈ heads v <-> on_way v h;
  vi_status : forall h x, h ∈ served v -> v_info v !! Z.to_nat h = Some x -> in_status x = 0;
  vi_sleep : forall p ch, v_asleep v p = Some ch ->
    match v_pc v p with
    | Waiting _ _ => ch = C_free /\ forall i j k, NoDup [i; j; k] -> is_free v i -> is_free v j -> is_free v k -> False
    | Flight b _ _ _ _ => ch = C_buf b /\ vb_disk (get_vbuf v b) = true
    | _ => False
    end
}.

(** ** The operations on descriptors *)

Definition lens (v : vstate) : Prop :=
  length (v_desc v) = NUM /\ length (v_free v) = NUM /\ length (v_info v) = NUM /\ length (v_ops v) = NUM.

Lemma free_lt v i x : lens v -> v_free v !! i = Some x -> (i < NUM)%nat.
Proof. intros (_ & H & _) E. apply lookup_lt_Some in E. lia. Qed.

(** [a'] is [a] after [wakeup(ch)]. *)
Definition woken (ch : vchan) (a a' : nat -> option vchan) : Prop :=
  forall p, (a p = Some ch -> a' p = None) /\ (a p <> Some ch -> a' p = a p).

Lemma vwakeup_ok {B} ch v (k : unit -> V B) :
  exists a, woken ch (v_asleep v) a /\ (let! x := vwakeup ch in k x) v = k tt (set_v_asleep a v).
Proof.
  exists (fun p => if decide (v_asleep v p = Some ch) then None else v_asleep v p).
  split; [intros p; by case_decide|unfold vwakeup; by rewrite bind_modify].
Qed.

Lemma alloc_desc_ok v :
  lens v ->
  (exists i, is_free v i /\ alloc_desc v = Ok (Some i) (set_v_free (<[i := false]> (v_free v)) v)) \/
  ((forall i, ~ is_free v i) /\ alloc_desc v = Ok None v).
Proof.
  intros Hl. unfold alloc_desc.
  assert (G : forall ix, (exists i, is_free v i /\ alloc_desc_loop ix v = Ok (Some i) (set_v_free (<[i := false]> (v_free v)) v)) \/
    ((forall i, i ∈ ix -> ~ is_free v i) /\ alloc_desc_loop ix v = Ok None v)).
  { induction ix as [|i ix IH]; cbn [alloc_desc_loop]; [right; split; [by intros i ?%not_elem_of_nil|done]|].
    rewrite bind_gets. destruct (v_free v !! i) as [[]|] eqn:E; cbn [from_option id].
    - left. exists i. split; [exact E|]. by rewrite bind_modify.
    - destruct IH as [?|[H IH]]; [by left|right; split; [|done]]. intros j [->|Hj]%elem_of_cons; [unfold is_free; by rewrite E|by apply H].
    - destruct IH as [?|[H IH]]; [by left|right; split; [|done]]. intros j [->|Hj]%elem_of_cons; [unfold is_free; by rewrite E|by apply H]. }
  destruct (G (seq 0 NUM)) as [?|[H E]]; [by left|right]. split; [|done]. intros i Hi.
  apply (H i); [|done]. apply elem_of_seq. pose proof (free_lt _ _ _ Hl Hi). lia.
Qed.

(** [free_desc] of a descriptor in use. *)
Lemma free_desc_ok {B} i v (k : unit -> V B) :
  lens v -> v_free v !! i = Some false ->
  exists a, woken C_free (v_asleep v) a /\
    (let! x := free_desc i in k x) v =
    k tt (set_v_asleep a (set_v_free (<[i := true]> (v_free v)) (set_v_desc (<[i := desc0]> (v_desc v)) v))).
Proof.
  intros Hl Hf. pose proof (free_lt _ _ _ Hl Hf) as Hi. unfold free_desc. rewrite (proj2 (Nat.leb_gt _ _) Hi).
  rewrite bind_assoc, bind_gets, Hf. cbn [from_option id]. rewrite bind_assoc, bind_modify, bind_assoc, bind_modify.
  destruct (vwakeup_ok C_free (set_v_free (<[i := true]> (v_free v)) (set_v_desc (<[i := desc0]> (v_desc v)) v)) k) as (a & Ha & E).
  exists a. split; [exact Ha|]. exact E.
Qed.

Lemma wake_trans ch a a' a'' : woken ch a a' -> woken ch a' a'' -> woken ch a a''.
Proof.
  intros H1 H2 p. destruct (H1 p) as [A1 A2]. destruct (H2 p) as [B1 B2]. split; intros H.
  - rewrite B2; rewrite A1 by done; done.
  - rewrite B2; rewrite A2 by done; done.
Qed.

Lemma wake_refl ch a : (forall p, a p <> Some ch) -> woken ch a a.
Proof. intros H p. split; [intros E; by destruct (H p)|done]. Qed.

(** No three descriptors are free. *)
Definition few (v : vstate) : Prop := forall i j k, NoDup [i; j; k] -> is_free v i -> is_free v j -> is_free v k -> False.

Lemma nodup3 (i j k : nat) : NoDup [i; j; k] <-> i <> j /\ i <> k /\ j <> k.
Proof. rewrite !NoDup_cons, !not_elem_of_cons. split; [naive_solver|]. intros (? & ? & ?). repeat split; try done; try apply not_elem_of_nil; apply NoDup_nil_2. Qed.

(** What a failed [alloc3_desc] may leave behind. *)
Definition tried (v v' : vstate) : Prop :=
  exists d a, v' = set_v_asleep a (set_v_desc d v) /\ length d = length (v_desc v) /\
    (forall i, ~ is_free v i -> d !! i = v_desc v !! i) /\ (forall p, a p = v_asleep v p \/ a p = None).

(** Giving back descriptors that were free before. *)
Lemma give_back l : forall v f d,
  lens v -> NoDup l -> (forall i, i ∈ l -> v_free v !! i = Some false /\ f !! i = Some true) ->
  (forall i, i ∉ l -> f !! i = v_free v !! i) -> length d = NUM -> (forall i, f !! i <> Some true -> v_desc v !! i = d !! i) ->
  exists d' a, (let! x := free_each l in ret (None : option (list nat))) v = Ok None (set_v_asleep a (set_v_free f (set_v_desc d' v))) /\
    length d' = NUM /\ (forall i, f !! i <> Some true -> d' !! i = d !! i) /\ (forall p, a p = v_asleep v p \/ a p = None).
Proof.
  induction l as [|j l IH]; intros v f d Hl Hnd Hf Ho Hd Hag.
  { exists (v_desc v), (v_asleep v). cbn [free_each]. rewrite bind_ret. unfold ret.
    assert (f = v_free v) as -> by (apply list_eq; intros i; apply Ho, not_elem_of_nil).
    split; [done|]. split; [apply Hl|]. split; [done|auto]. }
  apply NoDup_cons in Hnd as [Hj Hnd]. destruct (Hf j) as [Fj Tj]; [by left|]. cbn [free_each]. rewrite bind_assoc.
  destruct (free_desc_ok j v (fun _ => let! x := free_each l in ret (None : option (list nat))) Hl Fj) as (a & Ha & E). rewrite E. clear E.
  set (v1 := set_v_asleep a _). pose proof (free_lt _ _ _ Hl Fj) as Hjn. destruct Hl as (L1 & L2 & L3 & L4).
  destruct (IH v1 f d) as (d' & a' & E & Ld & Hd' & Ha').
  - unfold lens. cbn. rewrite !length_insert. done.
  - done.
  - intros i Hi. cbn. rewrite list_lookup_insert_ne by (intros ->; done). apply Hf. by right.
  - intros i Hi. cbn. destruct (decide (i = j)) as [->|Hne]; [rewrite list_lookup_insert_eq by lia; done|].
    rewrite list_lookup_insert_ne by done. apply Ho. by rewrite not_elem_of_cons.
  - done.
  - intros i Hi. cbn. rewrite list_lookup_insert_ne by (intros ->; by rewrite Tj in Hi). by apply Hag.
  - exists d', a'. split; [exact E|]. split; [done|]. split; [done|]. intros p. destruct (Ha' p) as [Hp|Hp]; rewrite Hp; [|by right].
    cbn. destruct (Ha p) as [A1 A2]. destruct (decide (v_asleep v p = Some C_free)); [right; by apply A1|left; by apply A2].
Qed.

Lemma alloc3_ok v :
  lens v ->
  (exists i0 i1 i2, NoDup [i0; i1; i2] /\ is_free v i0 /\ is_free v i1 /\ is_free v i2 /\
     alloc3_desc v = Ok (Some [i0; i1; i2]) (set_v_free (<[i2 := false]> (<[i1 := false]> (<[i0 := false]> (v_free v)))) v)) \/
  (few v /\ exists v', alloc3_desc v = Ok None v' /\ tried v v').
Proof.
  intros Hl. unfold alloc3_desc. cbn [alloc3_loop app].
  assert (G : forall l v1, lens v1 -> v1 = set_v_free (v_free v1) v -> NoDup l ->
    (forall i, i ∈ l -> v_free v1 !! i = Some false /\ is_free v i) -> (forall i, i ∉ l -> v_free v1 !! i = v_free v !! i) ->
    exists v', (let! x := free_each l in ret (None : option (list nat))) v1 = Ok None v' /\ tried v v').
  { intros l v1 L1 E1 Hnd H1 H2. destruct (give_back l v1 (v_free v) (v_desc v)) as (d' & a & E & Ld & Hd & Ha).
    - done.
    - done.
    - exact H1.
    - intros i Hi. symmetry. by apply H2.
    - apply Hl.
    - intros i _. by rewrite E1.
    - eexists. split; [exact E|]. exists d', a. rewrite E1. split; [reflexivity|]. split; [rewrite Ld; symmetry; apply Hl|].
      split; [exact Hd|]. intros p. specialize (Ha p). by rewrite E1 in Ha. }
  destruct (alloc_desc_ok v Hl) as [(i0 & F0 & E0)|[N0 E0]]; rewrite (bind_ok _ _ _ _ _ E0).
  2: { right. split; [intros i j k _ H; by destruct (N0 i)|].
       apply (G [] v Hl); [done|apply NoDup_nil_2|by intros i ?%not_elem_of_nil|done]. }
  set (v1 := set_v_free (<[i0 := false]> (v_free v)) v).
  assert (L1 : lens v1) by (unfold lens; cbn; rewrite length_insert; exact Hl).
  pose proof (free_lt _ _ _ Hl F0) as H0. assert (Hn : length (v_free v) = NUM) by apply Hl.
  assert (T1 : forall i, is_free v1 i -> i <> i0 /\ is_free v i).
  { intros i Hi. unfold is_free in Hi. cbn in Hi. destruct (decide (i = i0)) as [->|Hne].
    - by rewrite list_lookup_insert_eq in Hi by lia.
    - by rewrite list_lookup_insert_ne in Hi. }
  destruct (alloc_desc_ok v1 L1) as [(i1 & F1 & E1)|[N1 E1]]; rewrite (bind_ok _ _ _ _ _ E1).
  2: { assert (Hu : forall i, is_free v i -> i = i0).
       { intros i Hi. destruct (decide (i = i0)) as [|Hne]; [done|]. destruct (N1 i). unfold is_free. cbn. by rewrite list_lookup_insert_ne. }
       right. split; [intros i j k (H & _)%nodup3 Hi Hj _; apply H; by rewrite (Hu i), (Hu j)|].
       apply (G [i0] v1 L1); [done|apply NoDup_singleton| |].
       - intros i ->%list_elem_of_singleton. split; [cbn; by rewrite list_lookup_insert_eq by lia|done].
       - intros i Hi. cbn. rewrite list_lookup_insert_ne; [done|]. intros ->. by apply Hi, list_elem_of_singleton. }
  destruct (T1 _ F1) as [Hne1 F1']. set (v2 := set_v_free (<[i1 := false]> (v_free v1)) v1).
  assert (L2 : lens v2) by (unfold lens; cbn; rewrite !length_insert; exact Hl). pose proof (free_lt _ _ _ Hl F1') as H1.
  assert (T2 : forall i, is_free v2 i <-> i <> i0 /\ i <> i1 /\ is_free v i).
  { intros i. unfold is_free. cbn. destruct (decide (i = i1)) as [->|Hn1]; [rewrite list_lookup_insert_eq by (rewrite length_insert; lia); naive_solver|].
    rewrite list_lookup_insert_ne by done. destruct (decide (i = i0)) as [->|Hn0]; [rewrite list_lookup_insert_eq by lia; naive_solver|].
    rewrite list_lookup_insert_ne by done. tauto. }
  destruct (alloc_desc_ok v2 L2) as [(i2 & F2 & E2)|[N2 E2]]; rewrite (bind_ok _ _ _ _ _ E2).
  - apply T2 in F2 as (Hn0 & Hn1 & F2). left. exists i0, i1, i2. split; [apply nodup3; auto|]. done.
  - right. split.
    + intros i j k (D1 & D2 & D3)%nodup3 Hi Hj Hk.
      assert (Hu : forall x, is_free v x -> x = i0 \/ x = i1).
      { intros x Hx. destruct (decide (x = i0)); [by left|]. destruct (decide (x = i1)); [by right|]. destruct (N2 x). by apply T2. }
      pose proof (Hu i Hi). pose proof (Hu j Hj). pose proof (Hu k Hk). naive_solver.
    + apply (G [i0; i1] v2 L2); [done| | |].
      * apply NoDup_cons. split; [by rewrite list_elem_of_singleton; auto|apply NoDup_singleton].
      * intros i Hi. cbn. apply elem_of_cons in Hi as [Hi|Hi%list_elem_of_singleton]; subst i.
        -- rewrite list_lookup_insert_ne by done. by rewrite list_lookup_insert_eq by lia.
        -- by rewrite list_lookup_insert_eq by (rewrite length_insert; lia).
      * intros i Hi. rewrite not_elem_of_cons, list_elem_of_singleton in Hi. cbn. by rewrite !list_lookup_insert_ne by naive_solver.
Qed.

Lemma get_desc_at v i d : v_desc v !! i = Some d -> get_desc v i = d.
Proof. unfold get_desc. by intros ->. Qed.

Lemma free_chain_ok {B} v i0 i1 i2 d0 d1 d2 (k : unit -> V B) :
  lens v -> NoDup [i0; i1; i2] -> (forall i, i ∈ [i0; i1; i2] -> v_free v !! i = Some false) ->
  v_desc v !! i0 = Some d0 -> v_desc v !! i1 = Some d1 -> v_desc v !! i2 = Some d2 ->
  Z.land (d_flags d0) VRING_DESC_F_NEXT = 1 -> Z.land (d_flags d1) VRING_DESC_F_NEXT = 1 -> Z.land (d_flags d2) VRING_DESC_F_NEXT = 0 ->
  d_next d0 = i1 -> d_next d1 = i2 ->
  exists a, woken C_free (v_asleep v) a /\
    (let! x := free_chain i0 in k x) v =
    k tt (set_v_asleep a (set_v_free (<[i2 := true]> (<[i1 := true]> (<[i0 := true]> (v_free v))))
      (set_v_desc (<[i2 := desc0]> (<[i1 := desc0]> (<[i0 := desc0]> (v_desc v)))) v))).
Proof.
  intros Hl (N01 & N02 & N12)%nodup3 Hf E0 E1 E2 G0 G1 G2 X0 X1.
  pose proof (Hf i0 ltac:(set_solver)) as F0. pose proof (Hf i1 ltac:(set_solver)) as F1. pose proof (Hf i2 ltac:(set_solver)) as F2.
  unfold free_chain, NUM. cbn [free_chain_loop]. rewrite bind_assoc, bind_gets, (get_desc_at _ _ _ E0), bind_assoc.
  match goal with |- context [bind (free_desc i0) ?f v] => destruct (free_desc_ok i0 v f Hl F0) as (a1 & W1 & R1) end.
  rewrite R1. clear R1. rewrite G0. cbn [Z.eqb negb]. rewrite X0.
  set (v1 := set_v_asleep a1 _).
  assert (L1 : lens v1) by (unfold lens; cbn; rewrite !length_insert; exact Hl).
  assert (D1 : v_desc v1 !! i1 = Some d1) by (cbn; by rewrite list_lookup_insert_ne by done).
  assert (F1' : v_free v1 !! i1 = Some false) by (cbn; by rewrite list_lookup_insert_ne by done).
  rewrite bind_assoc, bind_gets, (get_desc_at _ _ _ D1), bind_assoc.
  match goal with |- context [bind (free_desc i1) ?f v1] => destruct (free_desc_ok i1 v1 f L1 F1') as (a2 & W2 & R2) end.
  rewrite R2. clear R2. rewrite G1. cbn [Z.eqb negb]. rewrite X1.
  set (v2 := set_v_asleep a2 _).
  assert (L2 : lens v2) by (unfold lens; cbn; rewrite !length_insert; exact Hl).
  assert (D2 : v_desc v2 !! i2 = Some d2) by (cbn; by rewrite !list_lookup_insert_ne by done).
  assert (F2' : v_free v2 !! i2 = Some false) by (cbn; by rewrite !list_lookup_insert_ne by done).
  rewrite bind_assoc, bind_gets, (get_desc_at _ _ _ D2), bind_assoc.
  match goal with |- context [bind (free_desc i2) ?f v2] => destruct (free_desc_ok i2 v2 f L2 F2') as (a3 & W3 & R3) end.
  rewrite R3. clear R3. rewrite G2. cbn [Z.eqb negb]. rewrite bind_ret. exists a3. split; [|reflexivity].
  eapply wake_trans; [exact W1|]. eapply wake_trans; [exact W2|exact W3].
Qed.
