(* ===== verification/VirtioSafe.v ===== *)
(** * The disk driver implements an atomic transfer

    The invariant of [Virtio.v] is preserved by every action of the driver,
    by the processor's use of other buffers and by every device that keeps to
    the contract; every action that is enabled succeeds; and each step is a
    step of the abstract disk, or no step at all. *)

From S2P Require Import Prelude KString Bytes Ring KState Riscv Spinlock Kalloc Vm VmTree VmMap VmSpace VmFree VmCopy Sched Sleeplock Bio Virtio.

(** ** The abstract disk *)

(** A request is made, carried out, and returned. *)
Inductive apc : Type := AIdle | AReq (b : nat) (write : bool) | ADone (b : nat) (write : bool).

Record astate : Type := mkA { a_pc : nat -> apc; a_bufs : list (Z * list Z); a_img : mem }.

Definition abuf_of (pc : apc) : option nat := match pc with AIdle => None | AReq b _ | ADone b _ => Some b end.

(** The transfer of one block. *)
Definition transfer (b : nat) (write : bool) (bufs : list (Z * list Z)) (img : mem) : list (Z * list Z) * mem :=
  match bufs !! b with
  | Some (blockno, data) =>
      if write then (bufs, wr_bytes img (1024 * blockno) data)
      else (<[b := (blockno, bytes_at img (1024 * blockno) 1024)]> bufs, img)
  | None => (bufs, img)
  end.

(** Only process [p] moves, from [x] to [y]. *)
Definition moves (a a' : astate) (p : nat) (x y : apc) : Prop :=
  a_pc a p = x /\ a_pc a' p = y /\ forall q, q <> p -> a_pc a' q = a_pc a q.

Inductive astep (a a' : astate) : Prop :=
| as_cpu b x :
    (forall q, abuf_of (a_pc a q) <> Some b) -> (forall q, a_pc a' q = a_pc a q) ->
    a_bufs a' = <[b := x]> (a_bufs a) -> a_img a' = a_img a -> astep a a'
| as_request p b w :
    moves a a' p AIdle (AReq b w) -> (forall q, abuf_of (a_pc a q) <> Some b) ->
    a_bufs a' = a_bufs a -> a_img a' = a_img a -> astep a a'
| as_perform p b w :
    moves a a' p (AReq b w) (ADone b w) ->
    (a_bufs a', a_img a') = transfer b w (a_bufs a) (a_img a) -> astep a a'
| as_return p b w :
    moves a a' p (ADone b w) AIdle -> a_bufs a' = a_bufs a -> a_img a' = a_img a -> astep a a'.

(** Nothing happens. *)
Definition astutter (a a' : astate) : Prop :=
  (forall q, a_pc a' q = a_pc a q) /\ a_bufs a' = a_bufs a /\ a_img a' = a_img a.

(** The abstract state of a state of the driver: a request is done once the
    device has served it. *)
Definition abs_pc (v : vstate) (pc : vpc) : apc :=
  match pc with
  | Idle => AIdle
  | Waiting b w | Ready b w _ _ _ => AReq b w
  | Flight b w i0 _ _ =>
      if bool_decide (Z.of_nat i0 ∈ served v) || negb (vb_disk (get_vbuf v b)) then ADone b w else AReq b w
  end.

Definition abs (v : vstate) : astate :=
  mkA (fun p => abs_pc v (v_pc v p)) ((fun x => (vb_blockno x, vb_data x)) <$> v_bufs v) (v_img v).

Definition refines (v v' : vstate) : Prop := astutter (abs v) (abs v') \/ astep (abs v) (abs v').

(** ** Generic facts *)

Lemma vinv_lens v : vinv v -> lens v.
Proof. intros I. apply I. Qed.

Lemma chain_ext v v' b w i0 i1 i2 :
  chain v b w i0 i1 i2 -> (forall i, i ∈ [i0; i1; i2] -> v_desc v' !! i = v_desc v !! i) ->
  v_ops v' !! i0 = v_ops v !! i0 ->
  (forall x, v_info v !! i0 = Some x -> exists st, v_info v' !! i0 = Some (mkInfo (in_b x) st)) ->
  vb_blockno (get_vbuf v' b) = vb_blockno (get_vbuf v b) -> chain v' b w i0 i1 i2.
Proof.
  intros [C0 C1 C2 C3 [st C4]] Hd Ho Hi Hb. split; rewrite ?Hd, ?Ho, ?Hb by set_solver; try done.
  destruct (Hi _ C4) as [st' E]. exists st'. exact E.
Qed.

Lemma chain_frame v v' b w i0 i1 i2 :
  chain v b w i0 i1 i2 -> v_desc v' = v_desc v -> v_ops v' = v_ops v -> v_info v' = v_info v -> v_bufs v' = v_bufs v ->
  chain v' b w i0 i1 i2.
Proof.
  intros C Hd Ho Hi Hb. apply (chain_ext v); [done|by rewrite Hd|by rewrite Ho| |unfold get_vbuf; by rewrite Hb].
  intros x Hx. exists (in_status x). by rewrite Hi.
Qed.

Lemma request_owns pc b w i0 i1 i2 : request pc = Some (b, w, i0, i1, i2) -> owns pc = [i0; i1; i2] /\ buf_of pc = Some b.
Proof. destruct pc; cbn; intros H; by simplify_eq. Qed.

Lemma put_at_eq {A} (f : nat -> A) i x : put_at f i x i = x.
Proof. unfold put_at. by rewrite decide_True. Qed.
Lemma put_at_ne {A} (f : nat -> A) i x j : j <> i -> put_at f i x j = f j.
Proof. intros H. unfold put_at. by rewrite decide_False. Qed.

(** Heads are descriptor numbers in use. *)
Lemma head_owned v h : vinv v -> h ∈ heads v -> exists p i, h = Z.of_nat i /\ i ∈ owns (v_pc v p) /\ (i < NUM)%nat.
Proof.
  intros I Hh. apply (vi_way _ I) in Hh as (p & b & w & i0 & i1 & i2 & E & -> & _). exists p, i0.
  assert (Ho : i0 ∈ owns (v_pc v p)) by (rewrite E; cbn; set_solver).
  split; [done|]. split; [done|]. apply (free_lt v i0 false); [by apply vinv_lens|by apply (vi_owned _ I p)].
Qed.

(** There is room for one more. *)
Lemma heads_room v i : vinv v -> (i < NUM)%nat -> Z.of_nat i ∉ heads v -> (length (heads v) < NUM)%nat.
Proof.
  intros I Hi Hn.
  assert (Hs : Z.of_nat i :: heads v ⊆+ seqZ 0 (Z.of_nat NUM)).
  { apply NoDup_submseteq; [apply NoDup_cons; split; [done|apply I]|]. intros h [Hh|Hh]%elem_of_cons; apply elem_of_seqZ; [lia|].
    destruct (head_owned v h I Hh) as (p & j & -> & _ & Hj). lia. }
  apply submseteq_length in Hs. rewrite length_seqZ in Hs. cbn in Hs. unfold NUM in *. lia.
Qed.

Lemma ring_num : 0 < Z.of_nat NUM /\ Z.of_nat NUM < 2 ^ 16 /\ (Z.of_nat NUM | 2 ^ 16).
Proof. split; [by vm_compute|]. split; [by vm_compute|]. exists 8192. reflexivity. Qed.

Lemma heads_queue v : (length (queued v) <= length (heads v))%nat /\ (length (served v) <= length (heads v))%nat.
Proof. unfold heads. rewrite !length_app. lia. Qed.

Lemma queue_len v : ring_len (2 ^ 16) (v_seen v) (v_aidx v) = Z.of_nat (length (queued v)).
Proof. unfold queued, rlist. rewrite ring_length. pose proof (ring_len_range (Z.of_nat NUM) (2 ^ 16) ltac:(by vm_compute) ltac:(by vm_compute) (v_seen v) (v_aidx v)). lia. Qed.
Lemma served_len v : ring_len (2 ^ 16) (v_used_idx v) (v_uidx v) = Z.of_nat (length (served v)).
Proof. unfold served, rlist. rewrite ring_length. pose proof (ring_len_range (Z.of_nat NUM) (2 ^ 16) ltac:(by vm_compute) ltac:(by vm_compute) (v_used_idx v) (v_uidx v)). lia. Qed.

(** ** Locks and sleep *)

Definition sleep_ok (v : vstate) (p : nat) (ch : vchan) : Prop :=
  match v_pc v p with
  | Waiting _ _ => ch = C_free /\ few v
  | Flight b _ _ _ _ => ch = C_buf b /\ vb_disk (get_vbuf v b) = true
  | _ => False
  end.

(** Nobody is between the two halves of a call. *)
Definition no_ready (v : vstate) : Prop := forall p b w i0 i1 i2, v_pc v p <> Ready b w i0 i1 i2.

Lemma free_no_ready v : vinv v -> (v_lock v = None \/ v_lock v = Some O_intr) -> no_ready v.
Proof. intros I Hl p b w i0 i1 i2 E. destruct (vi_ready _ I _ _ _ _ _ _ E) as (H & _). destruct Hl; congruence. Qed.

(** Only the lock and the sleepers change. *)
Lemma inv_frame v l a :
  vinv v -> (l = v_lock v \/ (no_ready v /\ forall p, l <> Some (O_proc p))) ->
  (forall p ch, a p = Some ch -> sleep_ok v p ch) ->
  vinv (set_v_lock l (set_v_asleep a v)) /\ astutter (abs v) (abs (set_v_lock l (set_v_asleep a v))).
Proof.
  intros I Hl Ha. split; [|done]. pose proof I as [I1 I2 I3 I4 I5 I6 I7 I8 I9 I10 I11 I12 I13 I14 I15 I16]. split; try assumption.
  - intros p b w i0 i1 i2 E. by apply (chain_frame v); [apply (I10 p)|..].
  - intros p b w i0 i1 i2 E. destruct Hl as [H|[H _]]; [cbn; rewrite H; by apply (I11 p b w i0 i1 i2)|by destruct (H p b w i0 i1 i2)].
  - intros p E. cbn in E. destruct Hl as [H|[_ H]]; [apply I12; by rewrite <- H|by destruct (H p)].
Qed.

Lemma inv_sleep v p ch : vinv v -> v_asleep v p = Some ch -> sleep_ok v p ch.
Proof. intros I E. exact (vi_sleep _ I p ch E). Qed.

(** ** A process moves *)

(** What the rest of the system may rely on when process [p] goes from one
    place to [X]: the requests of the others are untouched. *)
Record others_kept (v v' : vstate) (p : nat) (X : vpc) : Prop := {
  ok_pc : v_pc v' = put_at (v_pc v) p X;
  ok_len : lens v' /\ length (v_bufs v') = length (v_bufs v);
  ok_rings : rok (v_avail v') (v_seen v') (v_aidx v') /\ rok (v_used v') (v_used_idx v') (v_uidx v');
  ok_desc : forall q i, q <> p -> i ∈ owns (v_pc v q) ->
    v_free v' !! i = Some false /\ (i ∉ owns X) /\ v_desc v' !! i = v_desc v !! i /\ v_ops v' !! i = v_ops v !! i /\ v_info v' !! i = v_info v !! i;
  ok_buf : forall q b, q <> p -> buf_of (v_pc v q) = Some b -> buf_of X <> Some b /\ get_vbuf v' b = get_vbuf v b;
  ok_data : Forall vbuf_ok (v_bufs v')
}.

(** The new place is in order. *)
Record place_ok (v' : vstate) (p : nat) (X : vpc) : Prop := {
  pl_owns : NoDup (owns X) /\ forall i, i ∈ owns X -> v_free v' !! i = Some false;
  pl_buf : forall b, buf_of X = Some b -> (b < length (v_bufs v'))%nat;
  pl_chain : forall b w i0 i1 i2, request X = Some (b, w, i0, i1, i2) -> chain v' b w i0 i1 i2;
  pl_ready : forall b w i0 i1 i2, X = Ready b w i0 i1 i2 ->
    v_lock v' = Some (O_proc p) /\ vb_disk (get_vbuf v' b) = true /\
    nth (Z.to_nat (v_aidx v' mod Z.of_nat NUM)) (v_avail v') 0 = Z.of_nat i0;
  pl_lock : forall q, v_lock v' = Some (O_proc q) -> q = p /\ exists b w i0 i1 i2, X = Ready b w i0 i1 i2
}.

Lemma inv_move v v' p X :
  vinv v -> others_kept v v' p X -> place_ok v' p X -> (forall q b w i0 i1 i2, q <> p -> v_pc v q <> Ready b w i0 i1 i2) ->
  NoDup (heads v') -> (forall h, h ∈ heads v' <-> on_way v' h) ->
  (forall h x, h ∈ served v' -> v_info v' !! Z.to_nat h = Some x -> in_status x = 0) ->
  (forall q ch, v_asleep v' q = Some ch -> sleep_ok v' q ch) -> vinv v'.
Proof.
  intros I [Opc [Olen Oblen] [Oa Ou] Od Ob Odata] [[Pn Po] Pb Pc Pr Pl] Hnr Hh Hw Hst Hsl.
  assert (Gp : v_pc v' p = X) by (by rewrite Opc, put_at_eq).
  assert (Go : forall q, q <> p -> v_pc v' q = v_pc v q) by (intros q Hq; by rewrite Opc, put_at_ne).
  assert (Hcase : forall q, q = p \/ q <> p) by (intros q; destruct (decide (q = p)); auto).
  split; try assumption.
  - intros q i Hi. destruct (Hcase q) as [->|Hq]; [rewrite Gp in Hi; by apply Po|]. rewrite Go in Hi by done. by apply (Od q).
  - intros q. destruct (Hcase q) as [->|Hq]; [by rewrite Gp|rewrite Go by done; apply I].
  - intros q r i Hq Hr. destruct (Hcase q) as [->|Nq], (Hcase r) as [->|Nr].
    + done.
    + rewrite Gp in Hq. rewrite Go in Hr by done. by destruct (Od r i Nr Hr) as (_ & H & _).
    + rewrite Gp in Hr. rewrite Go in Hq by done. by destruct (Od q i Nq Hq) as (_ & H & _).
    + rewrite Go in Hq, Hr by done. by apply (vi_apart _ I q r i).
  - intros q r b Hq Hr. destruct (Hcase q) as [->|Nq], (Hcase r) as [->|Nr].
    + done.
    + rewrite Gp in Hq. rewrite Go in Hr by done. by destruct (Ob r b Nr Hr) as [H _].
    + rewrite Gp in Hr. rewrite Go in Hq by done. by destruct (Ob q b Nq Hq) as [H _].
    + rewrite Go in Hq, Hr by done. by apply (vi_buf _ I q r b).
  - intros q b Hq. destruct (Hcase q) as [->|Nq]; [apply Pb; by rewrite Gp in Hq|].
    rewrite Go in Hq by done. rewrite Oblen. by apply (vi_bufs _ I q).
  - intros q b w i0 i1 i2 Hq. destruct (Hcase q) as [->|Nq]; [apply Pc; by rewrite Gp in Hq|].
    rewrite Go in Hq by done. destruct (request_owns _ _ _ _ _ _ Hq) as [Eo Eb].
    assert (Hi : forall i, i ∈ [i0; i1; i2] -> v_desc v' !! i = v_desc v !! i /\ v_ops v' !! i = v_ops v !! i /\ v_info v' !! i = v_info v !! i).
    { intros i Hi. rewrite <- Eo in Hi. by destruct (Od q i Nq Hi) as (_ & _ & H). }
    destruct (Hi i0 ltac:(by left)) as (_ & E2 & E3). destruct (Ob q b Nq Eb) as [_ E4].
    apply (chain_ext v); [by apply (vi_chain _ I q)|intros i Hx; by apply Hi|done| |by rewrite E4].
    intros x Hx. exists (in_status x). by rewrite E3.
  - intros q b w i0 i1 i2 Hq. destruct (Hcase q) as [->|Nq]; [apply (Pr b w i0 i1 i2); by rewrite <- Gp|].
    rewrite Go in Hq by done. by destruct (Hnr q b w i0 i1 i2 Nq).
  - intros q Hq. destruct (Pl q Hq) as [-> H]. by rewrite Gp.
Qed.

(** A request on its way, by the place of its process. *)
Definition way_pc (v : vstate) (pc : vpc) (h : Z) : Prop :=
  exists b w i0 i1 i2, pc = Flight b w i0 i1 i2 /\ h = Z.of_nat i0 /\ vb_disk (get_vbuf v b) = true.

Lemma on_way_pc v h : on_way v h <-> exists p, way_pc v (v_pc v p) h.
Proof. done. Qed.

Lemma way_moves v v' p X h :
  others_kept v v' p X -> on_way v' h <-> way_pc v' X h \/ exists q, q <> p /\ way_pc v (v_pc v q) h.
Proof.
  intros [Opc _ _ _ Ob _]. rewrite on_way_pc. rewrite Opc. split.
  - intros (q & b & w & i0 & i1 & i2 & E & -> & Hd). destruct (decide (q = p)) as [->|Hq].
    + left. rewrite put_at_eq in E. exists b, w, i0, i1, i2. done.
    + right. exists q. split; [done|]. rewrite put_at_ne in E by done. exists b, w, i0, i1, i2.
      destruct (Ob q b Hq) as [_ Eb]; [by rewrite E|]. by rewrite <- Eb.
  - intros [(b & w & i0 & i1 & i2 & E & -> & Hd)|(q & Hq & b & w & i0 & i1 & i2 & E & -> & Hd)].
    + exists p, b, w, i0, i1, i2. by rewrite put_at_eq.
    + exists q, b, w, i0, i1, i2. rewrite put_at_ne by done. split; [done|]. split; [done|].
      destruct (Ob q b Hq) as [_ Eb]; [by rewrite E|]. by rewrite Eb.
Qed.

(** If [p] was not on its way, the others are all there is. *)
Lemma way_others v p h :
  (forall h, ~ way_pc v (v_pc v p) h) -> on_way v h <-> exists q, q <> p /\ way_pc v (v_pc v q) h.
Proof.
  intros Hp. rewrite on_way_pc. split; [|naive_solver]. intros (q & H). exists q. split; [|done]. intros ->. by apply (Hp h).
Qed.

Lemma abs_others v v' p X q :
  others_kept v v' p X -> (forall i, i ∈ owns (v_pc v q) -> Z.of_nat i ∈ served v' <-> Z.of_nat i ∈ served v) -> q <> p ->
  a_pc (abs v') q = a_pc (abs v) q.
Proof.
  intros [Opc _ _ _ Ob _] Hs Hq. cbn. rewrite Opc, put_at_ne by done.
  destruct (v_pc v q) as [|b w|b w i0 i1 i2|b w i0 i1 i2] eqn:E; cbn; try done.
  destruct (Ob q b Hq) as [_ Eb]; [by rewrite E|]. rewrite Eb.
  by rewrite (bool_decide_ext (Z.of_nat i0 ∈ served v') (Z.of_nat i0 ∈ served v)) by (apply Hs; cbn; set_solver).
Qed.

(** ** The first half of a call *)

(** Process [p] has come to the allocation of descriptors, for buffer [b]. *)
Record caller (v : vstate) (p b : nat) (w : bool) : Prop := {
  ca_lock : v_lock v = None;
  ca_len : (b < length (v_bufs v))%nat;
  ca_mine : forall q, q <> p -> buf_of (v_pc v q) <> Some b;
  ca_pc : v_pc v p = Idle \/ v_pc v p = Waiting b w
}.

Lemma caller_owns v p b w : caller v p b w -> owns (v_pc v p) = [] /\ forall h, ~ way_pc v (v_pc v p) h.
Proof. intros [_ _ _ [E|E]]; rewrite E; split; try done; intros h (b' & w' & i0 & i1 & i2 & H & _); discriminate H. Qed.

(** From there on, the abstract process has made its request. *)
Lemma caller_refines v v' p b w X :
  caller v p b w -> others_kept v v' p X -> abs_pc v' X = AReq b w -> served v' = served v ->
  a_bufs (abs v') = a_bufs (abs v) -> v_img v' = v_img v -> refines v v'.
Proof.
  intros C O HX Hs Hb Hi.
  assert (Ho : forall q, q <> p -> a_pc (abs v') q = a_pc (abs v) q).
  { intros q Hq. apply (abs_others v v' p X); [done| |done]. intros i _. by rewrite Hs. }
  assert (Hp : a_pc (abs v') p = AReq b w) by (cbn; rewrite (ok_pc _ _ _ _ O), put_at_eq; done).
  destruct (ca_pc _ _ _ _ C) as [E|E].
  - right. apply (as_request _ _ p b w); [|intros q|done|done].
    + split; [cbn; by rewrite E|]. split; [exact Hp|exact Ho].
    + cbn. destruct (decide (q = p)) as [->|Hq]; [by rewrite E|]. pose proof (ca_mine _ _ _ _ C q Hq) as H.
      destruct (v_pc v q); cbn in *; try done. by case_match.
  - left. split; [|done]. intros q. destruct (decide (q = p)) as [->|Hq]; [|by apply Ho]. rewrite Hp. cbn. by rewrite E.
Qed.

Lemma owned_not_free v q i : vinv v -> i ∈ owns (v_pc v q) -> ~ is_free v i.
Proof. intros I Hi. unfold is_free. by rewrite (vi_owned _ I q i Hi). Qed.

(** No descriptors: the process goes to sleep. *)
Lemma alloc_waits v p b w v2 :
  vinv v -> caller v p b w -> few v -> tried (set_v_lock (Some (O_proc p)) v) v2 ->
  let v' := set_v_lock None (set_v_asleep (put_at (v_asleep v2) p (Some C_free)) (set_v_pc (put_at (v_pc v2) p (Waiting b w)) v2)) in
  vinv v' /\ refines v v'.
Proof.
  intros I C Hfew (d & a & -> & Ld & Hd & Ha) v'. cbn in Ld, Hd, Ha.
  assert (Hl : lens v') by (unfold lens; cbn; rewrite Ld; apply I).
  assert (O : others_kept v v' p (Waiting b w)).
  { split; [done|done|split; apply I| | |apply I].
    - intros q i Hq Hi. cbn. split; [by apply (vi_owned _ I q)|]. split; [apply not_elem_of_nil|].
      split; [apply Hd; by apply (owned_not_free v q)|done].
    - intros q b' Hq Hb. split; [|done]. cbn. intros E. injection E as <-. by apply (ca_mine _ _ _ _ C q Hq). }
  destruct (caller_owns _ _ _ _ C) as [_ Hnw]. split.
  - apply (inv_move v v' p (Waiting b w) I O).
    + split; [split; [apply NoDup_nil_2|by intros i ?%not_elem_of_nil]| |done|done|done].
      intros b' E. injection E as <-. apply (ca_len _ _ _ _ C).
    + intros q b' w' i0 i1 i2 _. by apply (free_no_ready v I); left; apply C.
    + apply I.
    + intros h. rewrite (way_moves _ _ _ _ _ O), <- (way_others v p) by done. rewrite (vi_way _ I h : h ∈ heads v' <-> _).
      split; [by right|]. intros [(? & ? & ? & ? & ? & E & _)|H]; [discriminate E|done].
    + apply I.
    + intros q ch E. cbn in E. destruct (decide (q = p)) as [->|Hq].
      * rewrite put_at_eq in E. injection E as <-. unfold sleep_ok. cbn. rewrite put_at_eq. split; [done|exact Hfew].
      * rewrite put_at_ne in E by done. destruct (Ha q) as [Hq'|Hq']; rewrite Hq' in E; [|discriminate E].
        apply (inv_sleep v) in E; [|done]. unfold sleep_ok in *. cbn. by rewrite put_at_ne.
  - by apply (caller_refines v v' p b w (Waiting b w)).
Qed.

(** The state after [rw_format]. *)
Definition formatted (p b : nat) (w : bool) (i0 i1 i2 : nat) (v : vstate) : vstate :=
  set_v_pc (put_at (v_pc v) p (Ready b w i0 i1 i2))
  (set_v_avail (<[Z.to_nat (v_aidx v mod Z.of_nat NUM) := Z.of_nat i0]> (v_avail v))
  (set_v_bufs (alter (fun x => mkVbuf true (vb_blockno x) (vb_data x)) b (v_bufs v))
  (set_v_info (alter (fun x => mkInfo (Some b) 0xff) i0 (v_info v))
  (set_v_desc (<[i2 := mkDesc (A_status i0) 1 VRING_DESC_F_WRITE 0]>
    (<[i1 := mkDesc (A_data b) 1024 (Z.lor (if w then 0 else VRING_DESC_F_WRITE) VRING_DESC_F_NEXT) i2]>
    (<[i0 := mkDesc (A_ops i0) 16 VRING_DESC_F_NEXT i1]> (v_desc v))))
  (set_v_ops (<[i0 := mkReq (if w then VIRTIO_BLK_T_OUT else VIRTIO_BLK_T_IN) 0
     (sector_of (vb_blockno (get_vbuf v b)))]> (v_ops v)) v))))).

Lemma alter_alter {A} (f g : A -> A) (i : nat) (l : list A) : alter f i (alter g i l) = alter (fun x => f (g x)) i l.
Proof.
  apply list_eq. intros j. destruct (decide (i = j)) as [<-|Hne]; [|by rewrite !list_lookup_alter_ne].
  rewrite !list_lookup_alter_eq. by destruct (l !! i).
Qed.

Lemma rw_format_eq p b w i0 i1 i2 v : rw_format p b w i0 i1 i2 v = Ok tt (formatted p b w i0 i1 i2 v).
Proof.
  unfold rw_format, formatted. rewrite !bind_modify. unfold modify. f_equal. cbn. rewrite alter_alter. reflexivity.
Qed.

Lemma get_vbuf_alter v b f b' :
  get_vbuf (set_v_bufs (alter f b (v_bufs v)) v) b' =
  if decide (b' = b /\ (b < length (v_bufs v))%nat) then f (get_vbuf v b) else get_vbuf v b'.
Proof.
  unfold get_vbuf. cbn. destruct (decide (b' = b)) as [->|Hne].
  - rewrite list_lookup_alter_eq. destruct (v_bufs v !! b) as [x|] eqn:E.
    + apply lookup_lt_Some in E. by rewrite decide_True.
    + apply lookup_ge_None in E. rewrite decide_False by lia. done.
  - rewrite list_lookup_alter_ne by done. by rewrite decide_False by naive_solver.
Qed.

Lemma vbufs_ok_alter f b bufs : (forall x, vbuf_ok x -> vbuf_ok (f x)) -> Forall vbuf_ok bufs -> Forall vbuf_ok (alter f b bufs).
Proof. intros Hf H. apply Forall_alter; [done|]. intros x _. apply Hf. Qed.

(** Three descriptors: the request is formatted. *)
Section Formats.
Context (v : vstate) (p b : nat) (w : bool) (i0 i1 i2 : nat).
Hypothesis (I : vinv v) (C : caller v p b w) (Hnd : NoDup [i0; i1; i2]).
Hypothesis (F0 : is_free v i0) (F1 : is_free v i1) (F2 : is_free v i2).

Let v' : vstate := formatted p b w i0 i1 i2 (set_v_free (<[i2 := false]> (<[i1 := false]> (<[i0 := false]> (v_free v))))
  (set_v_lock (Some (O_proc p)) v)).

Lemma formats_ne q i : i ∈ owns (v_pc v q) -> i <> i0 /\ i <> i1 /\ i <> i2.
Proof using I F0 F1 F2. intros Hi. repeat split; intros ->; by apply (owned_not_free v q _ I Hi). Qed.

Lemma formats_idx : (i0 < NUM /\ i1 < NUM /\ i2 < NUM)%nat /\ i0 <> i1 /\ i0 <> i2 /\ i1 <> i2.
Proof using I Hnd F0 F1 F2.
  pose proof (vinv_lens v I) as Hl. split; [|by apply nodup3].
  split; [by eapply free_lt|]. split; by eapply free_lt.
Qed.

Lemma formats_queue : queued v' = queued v.
Proof using I F0.
  assert (Hroom : (length (heads v) < NUM)%nat).
  { apply (heads_room v i0 I); [eapply free_lt; [by apply vinv_lens|exact F0]|]. intros Hin.
    destruct (head_owned v _ I Hin) as (q & i & E & Hi & _). apply Nat2Z.inj in E as <-. by apply (owned_not_free v q i0 I Hi). }
  destruct (heads_queue v) as [Hq1 _]. pose proof (queue_len v) as Hql. destruct ring_num as (R1 & R2 & R3).
  unfold queued, rlist, v'. cbn. apply ring_write; try done. rewrite Hql. lia.
Qed.

Lemma formats_buf b' :
  get_vbuf v' b' = if decide (b' = b) then mkVbuf true (vb_blockno (get_vbuf v b)) (vb_data (get_vbuf v b)) else get_vbuf v b'.
Proof using C.
  pose proof (get_vbuf_alter v b (fun x => mkVbuf true (vb_blockno x) (vb_data x)) b') as E. cbn zeta in E.
  change (get_vbuf v' b') with (get_vbuf (set_v_bufs (alter (fun x => mkVbuf true (vb_blockno x) (vb_data x)) b (v_bufs v)) v) b').
  rewrite E. pose proof (ca_len _ _ _ _ C).
  by destruct (decide (b' = b)) as [->|?]; [rewrite decide_True|rewrite decide_False by naive_solver].
Qed.

Lemma formats_others : others_kept v v' p (Ready b w i0 i1 i2).
Proof using I C F0 F1 F2.
  pose proof (vinv_lens v I) as (L1 & L2 & L3 & L4). split.
  - done.
  - split; [unfold lens, v'; cbn; rewrite !length_insert, length_alter; done|cbn; apply length_alter].
  - split; [|apply I]. destruct (vi_avail _ I) as [R1 R2 R3 R4]. split; [cbn; by rewrite length_insert|done|done|done].
  - intros q i Hq Hi. destruct (formats_ne q i Hi) as (E0 & E1 & E2). cbn. rewrite !list_lookup_insert_ne by done.
    rewrite list_lookup_alter_ne by done. split; [by apply (vi_owned _ I q)|]. split; [|done].
    rewrite !not_elem_of_cons. split; [done|]. split; [done|]. split; [done|apply not_elem_of_nil].
  - intros q b' Hq Hb. pose proof (ca_mine _ _ _ _ C q Hq) as Hm. assert (b' <> b) by congruence.
    split; [cbn; congruence|]. rewrite formats_buf. by rewrite decide_False.
  - cbn. apply vbufs_ok_alter; [|apply I]. done.
Qed.

Lemma formats_chain : chain v' b w i0 i1 i2.
Proof using I C Hnd F0 F1 F2.
  destruct formats_idx as ((B0 & B1 & B2) & N01 & N02 & N12). pose proof (vinv_lens v I) as (L1 & L2 & L3 & L4). split.
  - cbn. rewrite !list_lookup_insert_ne by done. by rewrite list_lookup_insert_eq by lia.
  - cbn. rewrite list_lookup_insert_ne by done. by rewrite list_lookup_insert_eq by (rewrite !length_insert; lia).
  - cbn. by rewrite list_lookup_insert_eq by (rewrite !length_insert; lia).
  - rewrite formats_buf, decide_True by done. cbn. by rewrite list_lookup_insert_eq by lia.
  - exists 0xff. cbn. rewrite list_lookup_alter_eq. destruct (lookup_lt_is_Some_2 (v_info v) i0) as [x ->]; [lia|done].
Qed.

Lemma formats_place : place_ok v' p (Ready b w i0 i1 i2).
Proof using I C Hnd F0 F1 F2.
  destruct formats_idx as ((B0 & B1 & B2) & N01 & N02 & N12). pose proof (vinv_lens v I) as (L1 & L2 & L3 & L4). split.
  - split; [done|]. intros i Hi. cbn. cbn [owns] in Hi. rewrite !elem_of_cons in Hi. destruct (decide (i = i2)) as [->|D2].
    { by rewrite list_lookup_insert_eq by (rewrite !length_insert; lia). }
    rewrite list_lookup_insert_ne by done. destruct (decide (i = i1)) as [->|D1].
    { by rewrite list_lookup_insert_eq by (rewrite !length_insert; lia). }
    rewrite list_lookup_insert_ne by done. destruct Hi as [->|[?|[?|Hi%not_elem_of_nil]]]; try done.
    by rewrite list_lookup_insert_eq by lia.
  - intros b' E. injection E as <-. cbn. rewrite length_alter. apply (ca_len _ _ _ _ C).
  - intros b' w' j0 j1 j2 E. injection E as <- <- <- <- <-. apply formats_chain.
  - intros b' w' j0 j1 j2 E. injection E as <- <- <- <- <-. split; [done|]. split; [by rewrite formats_buf, decide_True|].
    cbn. pose proof (Z.mod_pos_bound (v_aidx v) (Z.of_nat NUM) ltac:(by vm_compute)).
    rewrite nth_lookup, list_lookup_insert_eq; [done|]. rewrite (ring_size _ _ _ _ _ (vi_avail _ I)). lia.
  - intros q E. cbn in E. injection E as <-. split; [done|]. by exists b, w, i0, i1, i2.
Qed.

Lemma formats_sleep q ch : v_asleep v' q = Some ch -> sleep_ok v' q ch.
Proof using I C Hnd F0 F1 F2.
  intros E. cbn in E. apply (inv_sleep v) in E; [|done]. unfold sleep_ok in *. cbn. destruct (decide (q = p)) as [->|Hq].
  - exfalso. destruct (ca_pc _ _ _ _ C) as [Ep|Ep]; rewrite Ep in E; [done|]. destruct E as [_ E]. by apply (E i0 i1 i2).
  - rewrite put_at_ne by done. destruct (v_pc v q) as [|b' w'|b' w' ? ? ?|b' w' j0 j1 j2] eqn:Ep; try done.
    + destruct E as [_ E]. exfalso. by apply (E i0 i1 i2).
    + destruct E as [-> E]. split; [done|]. destruct (ok_buf _ _ _ _ formats_others q b' Hq) as [_ Eb]; [by rewrite Ep|]. by rewrite Eb.
Qed.

Lemma formats_ok : vinv v' /\ refines v v'.
Proof using I C Hnd F0 F1 F2.
  destruct (caller_owns _ _ _ _ C) as [_ Hnw]. split.
  - apply (inv_move v v' p (Ready b w i0 i1 i2) I formats_others formats_place).
    + intros q b' w' j0 j1 j2 _. apply (free_no_ready v I). left. apply C.
    + unfold heads. rewrite formats_queue. apply I.
    + intros h. rewrite (way_moves _ _ _ _ _ formats_others), <- (way_others v p) by done. unfold heads. rewrite formats_queue.
      rewrite (vi_way _ I h : h ∈ queued v ++ v_pending v' ++ served v' <-> _).
      split; [by right|]. intros [(? & ? & ? & ? & ? & E & _)|H]; [discriminate E|done].
    + intros h x Hh Hx. change (h ∈ served v) in Hh. assert (Hin : h ∈ heads v) by (unfold heads; rewrite !elem_of_app; tauto).
      destruct (head_owned v h I Hin) as (q & i & -> & Hi & _). destruct (formats_ne q i Hi) as (E0 & _). rewrite Nat2Z.id in Hx.
      cbn in Hx. rewrite list_lookup_alter_ne in Hx by done. apply (vi_status _ I (Z.of_nat i)); [done|by rewrite Nat2Z.id].
    + apply formats_sleep.
  - apply (caller_refines v v' p b w (Ready b w i0 i1 i2)); [done|apply formats_others|done|done| |done].
    cbn. apply list_eq. intros j. rewrite !list_lookup_fmap. destruct (decide (j = b)) as [->|Hj].
    + rewrite list_lookup_alter_eq. by destruct (v_bufs v !! b).
    + by rewrite list_lookup_alter_ne.
Qed.
End Formats.

Lemma rw_alloc_step v p b w :
  vinv v -> caller v p b w ->
  exists v', rw_alloc p b w (set_v_lock (Some (O_proc p)) v) = Ok tt v' /\ vinv v' /\ refines v v'.
Proof.
  intros I C. unfold rw_alloc. set (v1 := set_v_lock (Some (O_proc p)) v).
  destruct (alloc3_ok v1) as [(i0 & i1 & i2 & Hnd & F0 & F1 & F2 & E)|(Hf & v2 & E & T)]; [apply (vinv_lens v I)| |];
    rewrite (bind_ok _ _ _ _ _ E).
  - rewrite rw_format_eq. eexists. split; [done|]. exact (formats_ok v p b w i0 i1 i2 I C Hnd F0 F1 F2).
  - rewrite bind_modify. eexists. split; [done|]. exact (alloc_waits v p b w v2 I C Hf T).
Qed.

(** ** The second half *)

Lemma vi_ready_alone v p : vinv v -> v_lock v = Some (O_proc p) -> forall q b w i0 i1 i2, q <> p -> v_pc v q <> Ready b w i0 i1 i2.
Proof. intros I Hl q b w i0 i1 i2 Hq E. destruct (vi_ready _ I _ _ _ _ _ _ E) as (H & _). congruence. Qed.

Lemma way_none v q : (forall b w i0 i1 i2, v_pc v q <> Flight b w i0 i1 i2) -> forall h, ~ way_pc v (v_pc v q) h.
Proof. intros H h (b & w & i0 & i1 & i2 & E & _). by destruct (H b w i0 i1 i2). Qed.

(** The data of all requests is the same. *)
Definition same_data (v v' : vstate) : Prop :=
  v_desc v' = v_desc v /\ v_ops v' = v_ops v /\ v_info v' = v_info v /\ v_bufs v' = v_bufs v /\ v_free v' = v_free v /\
  v_used v' = v_used v /\ v_used_idx v' = v_used_idx v /\ v_uidx v' = v_uidx v.

Lemma keep_others v v' p X :
  vinv v -> owns X = owns (v_pc v p) -> buf_of X = buf_of (v_pc v p) -> v_pc v' = put_at (v_pc v) p X -> same_data v v' ->
  rok (v_avail v') (v_seen v') (v_aidx v') -> others_kept v v' p X.
Proof.
  intros I Eo Eb Epc (D1 & D2 & D3 & D4 & D5 & D6 & D7 & D8) Ra. pose proof (vinv_lens v I) as Hl. split.
  - done.
  - unfold lens. rewrite D1, D2, D3, D4, D5. done.
  - split; [done|]. rewrite D6, D7, D8. apply I.
  - intros q i Hq Hi. rewrite D1, D2, D3, D5, Eo. split; [by apply (vi_owned _ I q)|]. split; [|done].
    intros Hin. apply Hq. by apply (vi_apart _ I q p i Hi).
  - intros q b' Hq Hb. unfold get_vbuf. rewrite D4, Eb. split; [|done]. intros E. apply Hq. by apply (vi_buf _ I q p b' Hb).
  - rewrite D4. apply I.
Qed.

Lemma keep_place v v' p b w i0 i1 i2 :
  vinv v -> v_pc v p = Flight b w i0 i1 i2 \/ v_pc v p = Ready b w i0 i1 i2 -> v_pc v' = put_at (v_pc v) p (Flight b w i0 i1 i2) ->
  same_data v v' -> v_lock v' = None -> place_ok v' p (Flight b w i0 i1 i2).
Proof.
  intros I Ep Epc (D1 & D2 & D3 & D4 & D5 & _) Hl.
  assert (Eo : owns (v_pc v p) = [i0; i1; i2] /\ buf_of (v_pc v p) = Some b /\ request (v_pc v p) = Some (b, w, i0, i1, i2)).
  { by destruct Ep as [E|E]; rewrite E. }
  destruct Eo as (Eo & Eb & Er). split.
  - pose proof (vi_nodup _ I p) as Hnd. rewrite Eo in Hnd. split; [exact Hnd|]. intros i Hi. rewrite D5. apply (vi_owned _ I p). by rewrite Eo.
  - intros b' E. injection E as <-. rewrite D4. by apply (vi_bufs _ I p).
  - intros b' w' j0 j1 j2 E. injection E as <- <- <- <- <-. apply (chain_frame v); [|done..]. by apply (vi_chain _ I p).
  - done.
  - intros q E. by rewrite Hl in E.
Qed.

(** The store to [avail->idx]; the process goes to sleep. *)
Lemma publish_step v p b w i0 i1 i2 :
  vinv v -> v_pc v p = Ready b w i0 i1 i2 ->
  exists v', rw_publish p b w i0 i1 i2 v = Ok tt v' /\ vinv v' /\ refines v v'.
Proof.
  intros I Ep. destruct (vi_ready _ I _ _ _ _ _ _ Ep) as (Hl & Hd & Hn).
  unfold rw_publish. rewrite bind_modify. unfold rw_wait. rewrite bind_gets.
  change (get_vbuf (set_v_aidx _ v) b) with (get_vbuf v b). rewrite Hd, bind_modify. unfold vsleep, modify.
  set (v' := set_v_lock None _). exists v'. split; [done|].
  assert (Ho : i0 ∈ owns (v_pc v p)) by (rewrite Ep; left).
  assert (Hi0 : (i0 < NUM)%nat) by (apply (free_lt v i0 false); [by apply vinv_lens|by apply (vi_owned _ I p)]).
  assert (Hnot : Z.of_nat i0 ∉ heads v).
  { intros (q & b' & w' & j0 & j1 & j2 & Eq & Ej & _)%(vi_way _ I). apply Nat2Z.inj in Ej as <-.
    assert (q = p) as -> by (apply (vi_apart _ I q p i0); [rewrite Eq; left|done]). congruence. }
  pose proof (heads_room v i0 I Hi0 Hnot) as Hroom. destruct (heads_queue v) as [Hq1 _]. pose proof (queue_len v) as Hql.
  destruct ring_num as (R1 & R2 & R3).
  destruct (ring_extend (Z.of_nat NUM) (2 ^ 16) R1 R2 R3 (v_avail v) (v_seen v) (v_aidx v) (vi_avail _ I)) as [Ra Rl]; [rewrite Hql; lia|].
  assert (Eq : queued v' = queued v ++ [Z.of_nat i0]) by (unfold queued, rlist; rewrite <- Hn; exact Rl).
  assert (Hh : heads v' ≡ₚ Z.of_nat i0 :: heads v).
  { unfold heads. rewrite Eq. change (v_pending v') with (v_pending v). change (served v') with (served v). solve_Permutation. }
  assert (O : others_kept v v' p (Flight b w i0 i1 i2)) by (apply keep_others; [done|by rewrite Ep|by rewrite Ep|done|done|exact Ra]).
  split; [apply (inv_move v v' p (Flight b w i0 i1 i2) I O)|].
  - apply (keep_place v); [done|by right|done|done|done].
  - by apply vi_ready_alone.
  - rewrite Hh. apply NoDup_cons. split; [done|apply I].
  - intros h. rewrite Hh, elem_of_cons, (way_moves _ _ _ _ _ O), (vi_way _ I h), (way_others v p) by (apply way_none; rewrite Ep; done).
    split; (intros [H|H]; [left|by right]).
    + exists b, w, i0, i1, i2. done.
    + destruct H as (? & ? & ? & ? & ? & E & -> & _). by injection E as <- <- <- <- <-.
  - apply I.
  - intros q ch E. cbn in E. unfold sleep_ok. cbn. destruct (decide (q = p)) as [->|Hq].
    + rewrite put_at_eq in E. rewrite put_at_eq. injection E as <-. done.
    + rewrite put_at_ne in E by done. rewrite put_at_ne by done. by apply (inv_sleep v).
  - left. split; [|done]. intros q. destruct (decide (q = p)) as [->|Hq].
    + cbn. rewrite put_at_eq, Ep. cbn. change (get_vbuf v' b) with (get_vbuf v b). rewrite Hd. cbn [negb orb].
      rewrite bool_decide_eq_false_2; [done|]. intros Hin. apply Hnot. unfold heads. rewrite !elem_of_app. auto.
    + by apply (abs_others v v' p (Flight b w i0 i1 i2)).
Qed.

(** A wake-up before the request is done. *)
Lemma resleep_step v p b w i0 i1 i2 :
  vinv v -> v_lock v = None -> v_pc v p = Flight b w i0 i1 i2 -> vb_disk (get_vbuf v b) = true ->
  exists v', rw_wait p b w i0 i1 i2 (set_v_lock (Some (O_proc p)) v) = Ok tt v' /\ vinv v' /\ refines v v'.
Proof.
  intros I Hl Ep Hd. unfold rw_wait. rewrite bind_gets. change (get_vbuf (set_v_lock _ v) b) with (get_vbuf v b).
  rewrite Hd, bind_modify. unfold vsleep, modify. set (v' := set_v_lock None _). exists v'. split; [done|].
  assert (O : others_kept v v' p (Flight b w i0 i1 i2)) by (apply keep_others; [done|by rewrite Ep|by rewrite Ep|done|done|apply I]).
  assert (Hw : way_pc v' (Flight b w i0 i1 i2) = way_pc v (v_pc v p)) by (by rewrite Ep).
  split; [apply (inv_move v v' p (Flight b w i0 i1 i2) I O)|].
  - apply (keep_place v); [done|by left|done|done|done].
  - intros q b' w' j0 j1 j2 _. apply (free_no_ready v I). by left.
  - apply I.
  - intros h. rewrite (way_moves _ _ _ _ _ O), Hw, (vi_way _ I h : h ∈ heads v' <-> _), on_way_pc. split.
    + intros (q & H). destruct (decide (q = p)) as [->|Hq]; [by left|right; by exists q].
    + intros [H|(q & _ & H)]; [by exists p|by exists q].
  - apply I.
  - intros q ch E. cbn in E. unfold sleep_ok. cbn. destruct (decide (q = p)) as [->|Hq].
    + rewrite put_at_eq in E. rewrite put_at_eq. injection E as <-. done.
    + rewrite put_at_ne in E by done. rewrite put_at_ne by done. by apply (inv_sleep v).
  - left. split; [|done]. intros q. destruct (decide (q = p)) as [->|Hq]; [cbn; by rewrite put_at_eq, Ep|].
    by apply (abs_others v v' p (Flight b w i0 i1 i2)).
Qed.

(** The request is done: the descriptors are free again. *)
Definition finished (p i0 i1 i2 : nat) (a : nat -> option vchan) (v : vstate) : vstate :=
  set_v_lock None (set_v_pc (put_at (v_pc v) p Idle) (set_v_asleep a
    (set_v_free (<[i2 := true]> (<[i1 := true]> (<[i0 := true]> (v_free v))))
      (set_v_desc (<[i2 := desc0]> (<[i1 := desc0]> (<[i0 := desc0]> (v_desc v))))
        (set_v_info (alter (fun x => mkInfo None (in_status x)) i0 (v_info v)) v))))).

Lemma finish_others v p b w i0 i1 i2 a :
  vinv v -> v_pc v p = Flight b w i0 i1 i2 -> others_kept v (finished p i0 i1 i2 a v) p Idle.
Proof.
  intros I Ep. pose proof (vinv_lens v I) as (L1 & L2 & L3 & L4). split.
  - done.
  - split; [|done]. unfold lens. cbn. rewrite !length_insert, length_alter. done.
  - split; apply I.
  - intros q i Hq Hi.
    assert (Hne : i ∉ [i0; i1; i2]) by (intros Hin; apply Hq; apply (vi_apart _ I q p i Hi); by rewrite Ep).
    rewrite !not_elem_of_cons in Hne. destruct Hne as (N0 & N1 & N2 & _). cbn. rewrite !list_lookup_insert_ne by done.
    rewrite list_lookup_alter_ne by done. split; [by apply (vi_owned _ I q)|]. split; [apply not_elem_of_nil|done].
  - done.
  - apply I.
Qed.

Lemma finish_ok v p b w i0 i1 i2 a :
  vinv v -> v_lock v = None -> v_pc v p = Flight b w i0 i1 i2 -> vb_disk (get_vbuf v b) = false -> v_asleep v p = None ->
  woken C_free (v_asleep v) a -> vinv (finished p i0 i1 i2 a v) /\ refines v (finished p i0 i1 i2 a v).
Proof.
  intros I Hl Ep Hd Hs Ha. pose proof (finish_others v p b w i0 i1 i2 a I Ep) as O. set (v' := finished p i0 i1 i2 a v) in *.
  assert (Hnw : forall h, ~ way_pc v (v_pc v p) h).
  { intros h (b' & w' & j0 & j1 & j2 & E & _ & Hd'). rewrite Ep in E. injection E as <- <- <- <- <-. congruence. }
  split; [apply (inv_move v v' p Idle I O)|].
  - split; [split; [apply NoDup_nil_2|by intros i ?%not_elem_of_nil]|done|done|done|done].
  - intros q b' w' j0 j1 j2 _. apply (free_no_ready v I). by left.
  - apply I.
  - intros h. rewrite (way_moves _ _ _ _ _ O), <- (way_others v p) by done. rewrite (vi_way _ I h : h ∈ heads v' <-> _).
    split; [by right|]. intros [(? & ? & ? & ? & ? & E & _)|H]; [discriminate E|done].
  - intros h x Hh Hx. change (h ∈ served v) in Hh. cbn in Hx.
    destruct (decide (Z.to_nat h = i0)) as [Eh|Hne]; [|rewrite list_lookup_alter_ne in Hx by done; by apply (vi_status _ I h)].
    rewrite Eh, list_lookup_alter_eq in Hx. destruct (v_info v !! i0) as [y|] eqn:Ey; [|discriminate Hx]. injection Hx as <-.
    cbn. apply (vi_status _ I h y); [done|by rewrite Eh].
  - intros q ch E. cbn in E. destruct (Ha q) as [A1 A2]. destruct (decide (v_asleep v q = Some C_free)) as [Hq|Hq].
    { rewrite A1 in E by done. discriminate E. }
    rewrite A2 in E by done. destruct (decide (q = p)) as [->|Hqp]; [by rewrite Hs in E|].
    pose proof (inv_sleep v q ch I E) as S. unfold sleep_ok in *. cbn. rewrite put_at_ne by done.
    destruct (v_pc v q); try done. destruct S as [-> _]. done.
  - right. apply (as_return _ _ p b w); [|done|done]. split; [|split].
    + cbn. rewrite Ep. cbn. rewrite Hd. cbn [negb]. by rewrite orb_true_r.
    + cbn. by rewrite put_at_eq.
    + intros q Hq. by apply (abs_others v v' p Idle).
Qed.

Lemma finish_step v p b w i0 i1 i2 :
  vinv v -> v_lock v = None -> v_pc v p = Flight b w i0 i1 i2 -> vb_disk (get_vbuf v b) = false -> v_asleep v p = None ->
  exists v', rw_wait p b w i0 i1 i2 (set_v_lock (Some (O_proc p)) v) = Ok tt v' /\ vinv v' /\ refines v v'.
Proof.
  intros I Hl Ep Hd Hs. unfold rw_wait. rewrite bind_gets. change (get_vbuf (set_v_lock _ v) b) with (get_vbuf v b).
  rewrite Hd, bind_modify. set (v1 := set_v_info _ _).
  destruct (vi_chain _ I p b w i0 i1 i2) as [C0 C1 C2 _ _]; [by rewrite Ep|].
  pose proof (vi_nodup _ I p) as Hnd. rewrite Ep in Hnd.
  assert (L1 : lens v1).
  { pose proof (vinv_lens v I) as (L1 & L2 & L3 & L4). unfold lens. cbn. by rewrite length_alter. }
  assert (Hf : forall i, i ∈ [i0; i1; i2] -> v_free v1 !! i = Some false).
  { intros i Hi. apply (vi_owned _ I p). by rewrite Ep. }
  assert (Hw : Z.land (Z.lor (if w then 0 else VRING_DESC_F_WRITE) VRING_DESC_F_NEXT) VRING_DESC_F_NEXT = 1) by (by destruct w).
  match goal with |- context [bind (free_chain i0) ?k v1] =>
    destruct (free_chain_ok v1 i0 i1 i2 _ _ _ k L1 Hnd Hf C0 C1 C2 eq_refl Hw eq_refl eq_refl eq_refl) as (a & Ha & E) end.
  rewrite E, bind_modify. unfold modify. exists (finished p i0 i1 i2 a v). split; [reflexivity|]. by apply (finish_ok v p b w).
Qed.

(** ** Interrupts *)

(** The driver takes note of one served request. *)
Definition noted (b : nat) (a : nat -> option vchan) (v : vstate) : vstate :=
  set_v_used_idx (u16 (v_used_idx v + 1)) (set_v_asleep a
    (set_v_bufs (alter (fun x => mkVbuf false (vb_blockno x) (vb_data x)) b (v_bufs v)) v)).

Section Noted.
Context (v : vstate) (p b : nat) (w : bool) (i0 i1 i2 : nat) (a : nat -> option vchan) (rest : list Z).
Hypothesis (I : vinv v) (Hl : v_lock v = Some O_intr) (Ep : v_pc v p = Flight b w i0 i1 i2).
Hypothesis (Hs : served v = Z.of_nat i0 :: rest) (Hd : vb_disk (get_vbuf v b) = true).
Hypothesis (Ha : woken (C_buf b) (v_asleep v) a).
Hypothesis (Hr : rok (v_used v) (u16 (v_used_idx v + 1)) (v_uidx v)).
Hypothesis (Hrest : rlist (v_used v) (u16 (v_used_idx v + 1)) (v_uidx v) = rest).

Let v' : vstate := noted b a v.

Lemma noted_buf b' :
  get_vbuf v' b' = if decide (b' = b) then mkVbuf false (vb_blockno (get_vbuf v b)) (vb_data (get_vbuf v b)) else get_vbuf v b'.
Proof using I Ep.
  pose proof (get_vbuf_alter v b (fun x => mkVbuf false (vb_blockno x) (vb_data x)) b') as E. cbn zeta in E.
  change (get_vbuf v' b') with (get_vbuf (set_v_bufs (alter (fun x => mkVbuf false (vb_blockno x) (vb_data x)) b (v_bufs v)) v) b').
  rewrite E. assert ((b < length (v_bufs v))%nat) by (apply (vi_bufs _ I p); by rewrite Ep).
  by destruct (decide (b' = b)) as [->|?]; [rewrite decide_True|rewrite decide_False by naive_solver].
Qed.

Lemma noted_heads : heads v ≡ₚ Z.of_nat i0 :: heads v'.
Proof using Hs Hrest.
  unfold heads. rewrite Hs. change (served v') with (rlist (v_used v) (u16 (v_used_idx v + 1)) (v_uidx v)). rewrite Hrest.
  change (queued v') with (queued v). change (v_pending v') with (v_pending v). solve_Permutation.
Qed.

Lemma noted_mine q b' : q <> p -> buf_of (v_pc v q) = Some b' -> b' <> b.
Proof using I Ep. intros Hq Hb ->. apply Hq. apply (vi_buf _ I q p b Hb). by rewrite Ep. Qed.

Lemma noted_way h : h ∈ heads v' <-> on_way v' h.
Proof using I Ep Hs Hd Hrest.
  pose proof (vi_heads _ I) as Hnd. rewrite noted_heads in Hnd. apply NoDup_cons in Hnd as [Hn0 _].
  split.
  - intros Hh. assert (Hin : h ∈ heads v) by (rewrite noted_heads; by right).
    apply (vi_way _ I) in Hin as (q & b' & w' & j0 & j1 & j2 & E & -> & Hd'). exists q, b', w', j0, j1, j2. split; [done|]. split; [done|].
    rewrite noted_buf, decide_False; [done|]. apply (noted_mine q); [|by rewrite E]. intros ->. rewrite Ep in E. injection E as <- <- <- <- <-. done.
  - intros (q & b' & w' & j0 & j1 & j2 & E & -> & Hd'). change (v_pc v' q) with (v_pc v q) in E. rewrite noted_buf in Hd'.
    case_decide as Hb; [discriminate Hd'|].
    assert (Hin : Z.of_nat j0 ∈ heads v) by (apply (vi_way _ I); by exists q, b', w', j0, j1, j2).
    rewrite noted_heads in Hin. apply elem_of_cons in Hin as [Ej|Hin]; [|done]. apply Nat2Z.inj in Ej as ->. exfalso.
    assert (q = p) as -> by (apply (vi_apart _ I q p i0); [rewrite E; left|rewrite Ep; left]).
    congruence.
Qed.

Lemma noted_ok : vinv v' /\ astutter (abs v) (abs v').
Proof using I Hl Ep Hs Hd Ha Hr Hrest.
  pose proof I as [I1 I2 I3 I4 I5 I6 I7 I8 I9 I10 I11 I12 I13 I14 I15 I16]. split.
  - split; try assumption.
    + intros q b' E. cbn. rewrite length_alter. by apply (I8 q).
    + cbn. apply vbufs_ok_alter; [|done]. done.
    + intros q b' w' j0 j1 j2 E. apply (chain_ext v); [by apply (I10 q)|done|done|intros x Hx; by exists (in_status x)|].
      rewrite noted_buf. by case_decide as Hb; [subst b'|].
    + intros q b' w' j0 j1 j2 E. destruct (I11 q b' w' j0 j1 j2 E) as (H & _). congruence.
    + pose proof I13 as H. rewrite noted_heads in H. by apply NoDup_cons in H as [_ H].
    + apply noted_way.
    + intros h x Hh. apply I15. rewrite Hs. right. by rewrite <- Hrest.
    + intros q ch E. cbn in E. destruct (Ha q) as [A1 A2]. destruct (decide (v_asleep v q = Some (C_buf b))) as [Hq|Hq].
      { rewrite A1 in E by done. discriminate E. }
      rewrite A2 in E by done. pose proof (I16 q ch E) as S. change (v_pc v' q) with (v_pc v q).
      destruct (v_pc v q) as [|b' w'|b' w' ? ? ?|b' w' j0 j1 j2]; try done. destruct S as [-> S]. split; [done|].
      rewrite noted_buf, decide_False; [done|]. intros ->. done.
  - split; [|split; [|done]].
    + intros q. cbn. destruct (v_pc v q) as [|b' w'|b' w' ? ? ?|b' w' j0 j1 j2] eqn:E; try done. cbn [abs_pc]. rewrite noted_buf.
      change (served v') with (rlist (v_used v) (u16 (v_used_idx v + 1)) (v_uidx v)). rewrite Hrest, Hs.
      destruct (decide (q = p)) as [->|Hq].
      * rewrite Ep in E. injection E as <- <- <- <- <-. rewrite decide_True by done. cbn [negb vb_disk]. rewrite orb_true_r.
        by rewrite (bool_decide_eq_true_2 (Z.of_nat i0 ∈ Z.of_nat i0 :: rest)) by left.
      * rewrite decide_False by (apply (noted_mine q); [done|by rewrite E]).
        rewrite (bool_decide_ext (Z.of_nat j0 ∈ Z.of_nat i0 :: rest) (Z.of_nat j0 ∈ rest)); [done|]. rewrite elem_of_cons.
        split; [|by right]. intros [Ej|H]; [|done]. apply Nat2Z.inj in Ej as ->. exfalso. apply Hq.
        apply (vi_apart _ I q p i0); [rewrite E; left|rewrite Ep; left].
    + cbn. apply list_eq. intros j. rewrite !list_lookup_fmap. destruct (decide (j = b)) as [->|Hj].
      * rewrite list_lookup_alter_eq. by destruct (v_bufs v !! b).
      * by rewrite list_lookup_alter_ne.
Qed.
End Noted.

Lemma round_step v :
  vinv v -> v_lock v = Some O_intr -> v_used_idx v <> v_uidx v ->
  exists v', intr_round v = Ok tt v' /\ vinv v' /\ refines v v'.
Proof.
  intros I Hl Hne. destruct ring_num as (R1 & R2 & R3). pose proof (vi_used _ I) as Ru.
  destruct (ring_pop (Z.of_nat NUM) (2 ^ 16) R1 R2 R3 (v_used v) (v_used_idx v) (v_uidx v) Ru) as [Rp El].
  { pose proof (ring_len_range (Z.of_nat NUM) (2 ^ 16) R1 R2 (v_used_idx v) (v_uidx v)) as Hr.
    pose proof (ring_empty (Z.of_nat NUM) (2 ^ 16) R1 R2 _ _ (ring_r _ _ _ _ _ Ru) (ring_w _ _ _ _ _ Ru)) as He. lia. }
  set (h := nth (Z.to_nat (v_used_idx v mod Z.of_nat NUM)) (v_used v) 0) in *.
  assert (Hin : h ∈ served v) by (unfold served, rlist; rewrite El; left).
  assert (Hh : h ∈ heads v) by (unfold heads; rewrite !elem_of_app; auto).
  apply (vi_way _ I) in Hh as (p & b & w & i0 & i1 & i2 & Ep & Eid & Hd).
  destruct (cn_info _ _ _ _ _ _ (vi_chain _ I p b w i0 i1 i2 ltac:(by rewrite Ep))) as [st Est].
  assert (st = 0) as -> by (apply (vi_status _ I h (mkInfo (Some b) st) Hin); by rewrite Eid, Nat2Z.id).
  unfold intr_round. rewrite bind_gets. fold h. rewrite bind_gets, Eid, Nat2Z.id, Est. cbn [from_option id in_status Z.eqb negb in_b].
  rewrite bind_modify. match goal with |- context [bind (vwakeup (C_buf b)) ?k ?v1] => destruct (vwakeup_ok (C_buf b) v1 k) as (a & Ha & E) end.
  rewrite E. unfold modify. exists (noted b a v). split; [reflexivity|].
  destruct (noted_ok v p b w i0 i1 i2 a (rlist (v_used v) (u16 (v_used_idx v + 1)) (v_uidx v))) as [Iv St]; try done.
  - unfold served, rlist. rewrite El, Eid. done.
  - split; [done|by left].
Qed.

(** ** The device *)

Lemma fetch_ok v :
  vinv v -> v_seen v <> v_aidx v ->
  let v' := set_v_seen (u16 (v_seen v + 1))
    (set_v_pending (v_pending v ++ [nth (Z.to_nat (v_seen v mod Z.of_nat NUM)) (v_avail v) 0]) v) in
  vinv v' /\ astutter (abs v) (abs v').
Proof.
  intros I Hne v'. destruct ring_num as (R1 & R2 & R3). pose proof (vi_avail _ I) as Ra.
  destruct (ring_pop (Z.of_nat NUM) (2 ^ 16) R1 R2 R3 (v_avail v) (v_seen v) (v_aidx v) Ra) as [Rp El].
  { pose proof (ring_len_range (Z.of_nat NUM) (2 ^ 16) R1 R2 (v_seen v) (v_aidx v)) as Hr.
    pose proof (ring_empty (Z.of_nat NUM) (2 ^ 16) R1 R2 _ _ (ring_r _ _ _ _ _ Ra) (ring_w _ _ _ _ _ Ra)) as He. lia. }
  assert (Hh : heads v' ≡ₚ heads v).
  { unfold heads. change (queued v) with (ring_list (Z.of_nat NUM) (2 ^ 16) (v_avail v) (v_seen v) (v_aidx v)). rewrite El.
    change (queued v') with (ring_list (Z.of_nat NUM) (2 ^ 16) (v_avail v) ((v_seen v + 1) mod 2 ^ 16) (v_aidx v)).
    change (served v') with (served v). cbn [v' v_pending set_v_seen set_v_pending]. solve_Permutation. }
  pose proof I as [I1 I2 I3 I4 I5 I6 I7 I8 I9 I10 I11 I12 I13 I14 I15 I16]. split; [|done]. split; try assumption.
  - intros p b w i0 i1 i2 E. by apply (chain_frame v); [apply (I10 p)|..].
  - by rewrite Hh.
  - intros h. rewrite Hh. apply I14.
Qed.

(** What the device does for a request. *)
Definition carried (b : nat) (w : bool) (i0 : nat) (v : vstate) : vstate :=
  let x := get_vbuf v b in
  let v := set_v_info (<[i0 := mkInfo (Some b) 0]> (v_info v)) v in
  if w then set_v_img (wr_bytes (v_img v) (512 * sector_of (vb_blockno x)) (take (Z.to_nat 1024) (vb_data x))) v
  else set_v_bufs (<[b := mkVbuf (vb_disk x) (vb_blockno x)
         (bytes_at (v_img v) (512 * sector_of (vb_blockno x)) (Z.to_nat 1024))]> (v_bufs v)) v.

Lemma dev_io_ok v p b w i0 i1 i2 :
  vinv v -> v_pc v p = Flight b w i0 i1 i2 -> dev_io (Z.of_nat i0) v = Some (carried b w i0 v).
Proof.
  intros I Ep. destruct (vi_chain _ I p b w i0 i1 i2) as [C0 C1 C2 C3 [st C4]]; [by rewrite Ep|].
  assert (Hb : (b < length (v_bufs v))%nat) by (apply (vi_bufs _ I p); by rewrite Ep).
  destruct (lookup_lt_is_Some_2 _ _ Hb) as [x Hx]. unfold dev_io. rewrite Nat2Z.id, C0. cbn [mbind option_bind d_next].
  rewrite C1. cbn [mbind option_bind d_next]. rewrite C2. cbn [mbind option_bind d_addr]. rewrite C3. cbn [mbind option_bind].
  rewrite Hx. cbn [mbind option_bind]. rewrite C4. cbn [mbind option_bind]. unfold carried, get_vbuf. rewrite Hx. cbn [from_option id].
  by destruct w.
Qed.

Lemma read_ok x m a : vbuf_ok x -> vbuf_ok (mkVbuf (vb_disk x) (vb_blockno x) (bytes_at m a (Z.to_nat 1024))).
Proof.
  intros (_ & _ & Hn). split; [exact (length_bytes_at m a (Z.to_nat 1024))|]. split; [|exact Hn].
  apply Forall_lookup. intros i y Hy. change (bytes_at m a (Z.to_nat 1024) !! i = Some y) in Hy.
  pose proof (lookup_lt_Some _ _ _ Hy) as Hi. rewrite length_bytes_at in Hi. rewrite bytes_at_lookup in Hy by done.
  injection Hy as <-. apply rd_range.
Qed.

Section Completed.
Context (v : vstate) (p b : nat) (w : bool) (i0 i1 i2 : nat) (l1 l2 : list Z).
Hypothesis (I : vinv v) (Ep : v_pc v p = Flight b w i0 i1 i2) (Hd : vb_disk (get_vbuf v b) = true).
Hypothesis (Hp : v_pending v = l1 ++ Z.of_nat i0 :: l2).

Let v1 : vstate := set_v_pending (l1 ++ l2) (carried b w i0 v).
Let v' : vstate := dev_done (Z.of_nat i0) v1.

Lemma completed_fields :
  v_desc v' = v_desc v /\ v_ops v' = v_ops v /\ v_free v' = v_free v /\ v_avail v' = v_avail v /\ v_aidx v' = v_aidx v /\
  v_seen v' = v_seen v /\ v_pc v' = v_pc v /\ v_lock v' = v_lock v /\ v_asleep v' = v_asleep v /\ v_used_idx v' = v_used_idx v /\
  v_info v' = <[i0 := mkInfo (Some b) 0]> (v_info v) /\ v_pending v' = l1 ++ l2 /\
  v_used v' = <[Z.to_nat (v_uidx v mod Z.of_nat NUM) := Z.of_nat i0]> (v_used v) /\ v_uidx v' = u16 (v_uidx v + 1).
Proof using Ep. unfold v', v1, carried. by destruct w. Qed.

Lemma completed_idx : (i0 < NUM)%nat /\ (b < length (v_bufs v))%nat.
Proof using I Ep.
  split; [|apply (vi_bufs _ I p); by rewrite Ep].
  apply (free_lt v i0 false); [by apply vinv_lens|apply (vi_owned _ I p); rewrite Ep; left].
Qed.

Lemma completed_served : rok (v_used v') (v_used_idx v') (v_uidx v') /\ served v' = served v ++ [Z.of_nat i0].
Proof using I Ep Hp.
  destruct completed_fields as (_ & _ & _ & _ & _ & _ & _ & _ & _ & E1 & _ & _ & E2 & E3). unfold served. rewrite E1, E2, E3.
  destruct ring_num as (R1 & R2 & R3). apply ring_push; try done; [apply I|].
  assert (Hle : (length (heads v) <= NUM)%nat).
  { assert (Hs : heads v ⊆+ seqZ 0 (Z.of_nat NUM)).
    { apply NoDup_submseteq; [apply I|]. intros h Hh. apply elem_of_seqZ. destruct (head_owned v h I Hh) as (q & j & -> & _ & Hj). lia. }
    apply submseteq_length in Hs. rewrite length_seqZ in Hs. unfold NUM in *. lia. }
  rewrite (served_len v). unfold heads in Hle. rewrite Hp, !length_app in Hle. cbn in Hle. lia.
Qed.

Lemma completed_heads : heads v' ≡ₚ heads v.
Proof using I Ep Hp.
  destruct completed_fields as (_ & _ & _ & E1 & E2 & E3 & _ & _ & _ & _ & _ & E4 & _). destruct completed_served as [_ Es].
  unfold heads, queued. rewrite Es, E1, E2, E3, E4, Hp. solve_Permutation.
Qed.

Lemma completed_fresh : Z.of_nat i0 ∉ served v.
Proof using I Hp.
  pose proof (vi_heads _ I) as Hn. unfold heads in Hn. rewrite Hp in Hn. apply NoDup_app in Hn as (_ & _ & Hn).
  apply NoDup_app in Hn as (_ & Hn & _). apply Hn. apply elem_of_app. right. left.
Qed.

Lemma completed_buf b' :
  vb_disk (get_vbuf v' b') = vb_disk (get_vbuf v b') /\ vb_blockno (get_vbuf v' b') = vb_blockno (get_vbuf v b').
Proof using I Ep.
  destruct completed_idx as [_ Hb]. unfold v', v1, carried. destruct w; [done|]. unfold get_vbuf. cbn.
  destruct (decide (b' = b)) as [->|Hne]; [by rewrite list_lookup_insert_eq by done|by rewrite list_lookup_insert_ne].
Qed.

Lemma completed_data : length (v_bufs v') = length (v_bufs v) /\ Forall vbuf_ok (v_bufs v').
Proof using I Ep.
  destruct completed_idx as [_ Hb]. pose proof (vi_data _ I) as Hok. unfold v', v1, carried. destruct w; [done|].
  split; [apply length_insert|]. apply Forall_insert; [done|]. apply read_ok. rewrite Forall_lookup in Hok.
  destruct (lookup_lt_is_Some_2 _ _ Hb) as [x Hx]. unfold get_vbuf. rewrite Hx. by apply (Hok b).
Qed.

Lemma completed_way h : on_way v' h <-> on_way v h.
Proof using I Ep.
  destruct completed_fields as (_ & _ & _ & _ & _ & _ & E & _). unfold on_way. rewrite E.
  split; intros (q & b' & w' & j0 & j1 & j2 & H1 & H2 & H3); exists q, b', w', j0, j1, j2;
    destruct (completed_buf b') as [Eb _]; (split; [done|split; [done|congruence]]).
Qed.

Lemma completed_inv : vinv v'.
Proof using I Ep Hp.
  destruct completed_fields as (E1 & E2 & E3 & E4 & E5 & E6 & E7 & E8 & E9 & E10 & E11 & _).
  destruct completed_served as [Ru Es]. destruct completed_data as [Lb Db]. destruct completed_idx as [Hi0 Hb].
  pose proof I as [I1 I2 I3 I4 I5 I6 I7 I8 I9 I10 I11 I12 I13 I14 I15 I16]. destruct I1 as (L1 & L2 & L3 & L4).
  split; try (rewrite ?E1, ?E2, ?E3, ?E4, ?E5, ?E6, ?E7, ?E8, ?E9, ?E11, ?length_insert, ?Lb; assumption || done).
  - intros q b' w' j0 j1 j2 E. rewrite E7 in E. apply (chain_ext v); [by apply (I10 q)|by rewrite E1|by rewrite E2| |apply completed_buf].
    intros x Hx. rewrite E11. destruct (decide (j0 = i0)) as [->|Hne].
    + exists 0. rewrite list_lookup_insert_eq by lia. destruct (cn_info _ _ _ _ _ _ (I10 p b w i0 i1 i2 ltac:(by rewrite Ep))) as [st Est].
      rewrite Est in Hx. by injection Hx as <-.
    + exists (in_status x). by rewrite list_lookup_insert_ne.
  - intros q b' w' j0 j1 j2 E. rewrite E7 in E. rewrite E8, E4, E5. destruct (completed_buf b') as [-> _]. by apply (I11 q b' w' j0 j1 j2).
  - by rewrite completed_heads.
  - intros h. rewrite completed_heads, completed_way. apply I14.
  - intros h x Hh Hx. rewrite E11 in Hx. destruct (decide (Z.to_nat h = i0)) as [Eh|Hne].
    + rewrite Eh, list_lookup_insert_eq in Hx by lia. by injection Hx as <-.
    + rewrite list_lookup_insert_ne in Hx by done. rewrite Es in Hh. apply elem_of_app in Hh as [Hh|Hh%list_elem_of_singleton]; [by apply (I15 h)|].
      destruct Hne. rewrite Hh. apply Nat2Z.id.
  - intros q ch E. rewrite E9 in E. pose proof (I16 q ch E) as S. rewrite E7. unfold is_free in *. rewrite E3.
    destruct (v_pc v q) as [|b' w'|b' w' ? ? ?|b' w' j0 j1 j2]; try done. by destruct (completed_buf b') as [-> _].
Qed.

Lemma sector_bytes x : vbuf_ok x -> 512 * sector_of (vb_blockno x) = 1024 * vb_blockno x /\ take (Z.to_nat 1024) (vb_data x) = vb_data x.
Proof using.
  intros (H1 & _ & H2). split; [unfold sector_of; rewrite u32_small by lia; lia|]. apply take_ge. rewrite H1. done.
Qed.

Lemma completed_refines : astep (abs v) (abs v').
Proof using I Ep Hd Hp.
  destruct completed_fields as (_ & _ & _ & _ & _ & _ & E7 & _). destruct completed_served as [_ Es]. destruct completed_idx as [_ Hb].
  apply (as_perform _ _ p b w).
  - split; [|split].
    + cbn. rewrite Ep. cbn. rewrite Hd. cbn [negb]. rewrite bool_decide_eq_false_2 by apply completed_fresh. done.
    + change (abs_pc v' (v_pc v' p) = ADone b w). rewrite E7, Ep. cbn [abs_pc]. rewrite Es, bool_decide_eq_true_2; [done|]. apply elem_of_app. right. left.
    + intros q Hq. change (abs_pc v' (v_pc v' q) = abs_pc v (v_pc v q)). rewrite E7. destruct (v_pc v q) as [|b' w'|b' w' ? ? ?|b' w' j0 j1 j2] eqn:E; try done. cbn [abs_pc].
      destruct (completed_buf b') as [-> _]. rewrite Es.
      rewrite (bool_decide_ext (Z.of_nat j0 ∈ served v ++ [Z.of_nat i0]) (Z.of_nat j0 ∈ served v)); [done|].
      rewrite elem_of_app, list_elem_of_singleton. split; [|by left]. intros [H|Ej]; [done|]. apply Nat2Z.inj in Ej as ->.
      destruct Hq. apply (vi_apart _ I q p i0); [rewrite E; left|rewrite Ep; left].
  - destruct (lookup_lt_is_Some_2 _ _ Hb) as [x Hx]. pose proof (vi_data _ I) as Hok. rewrite Forall_lookup in Hok.
    destruct (sector_bytes x (Hok b x Hx)) as [Esec Etk]. unfold transfer. cbn [abs a_bufs a_img]. rewrite list_lookup_fmap, Hx.
    cbn [fmap option_fmap option_map]. unfold v', v1, carried, get_vbuf. rewrite Hx. cbn [from_option id]. rewrite Esec, Etk.
    destruct w; [done|]. exact (f_equal (fun l => (l, v_img v)) (list_fmap_insert _ _ _ _)).
Qed.
End Completed.

Lemma device_step v v' : vinv v -> dev_may v v' -> vinv v' /\ refines v v'.
Proof.
  intros I D. destruct D as [Hne|h l1 l2 v1 Hp E|h v' Hin E].
  - destruct (fetch_ok v I Hne) as [Iv St]. split; [done|by left].
  - assert (Hh : h ∈ heads v) by (unfold heads; rewrite Hp, !elem_of_app, elem_of_cons; auto).
    apply (vi_way _ I) in Hh as (p & b & w & i0 & i1 & i2 & Ep & -> & Hd). rewrite (dev_io_ok v p b w i0 i1 i2 I Ep) in E. injection E as <-.
    split; [by apply (completed_inv v p b w i0 i1 i2)|]. right. by apply (completed_refines v p b w i0 i1 i2).
  - exfalso. assert (Hh : h ∈ heads v) by (unfold heads; rewrite !elem_of_app; auto).
    apply (vi_way _ I) in Hh as (p & b & w & i0 & i1 & i2 & Ep & -> & Hd). by rewrite (dev_io_ok v p b w i0 i1 i2 I Ep) in E.
Qed.

(** ** All steps *)

Lemma act_step v a : vinv v -> enabled v a -> exists v', act a v = Ok tt v' /\ vinv v' /\ refines v v'.
Proof.
  intros I En. destruct a as [p b w|p|p| | |]; cbn [act enabled] in *.
  - destruct En as (Hl & Hp & Hb & Hq). unfold rw_begin, vacquire. rewrite bind_modify.
    apply rw_alloc_step; [done|]. split; [done|done|by intros q _|by left].
  - destruct (vi_lock _ I p En) as (b & w & i0 & i1 & i2 & Ep). rewrite bind_gets, Ep. by apply publish_step.
  - destruct En as (Hl & Hs & Hpc). unfold rw_resume, vacquire. rewrite bind_modify, bind_gets.
    change (v_pc (set_v_lock (Some (O_proc p)) v) p) with (v_pc v p).
    destruct (v_pc v p) as [|b w|b w i0 i1 i2|b w i0 i1 i2] eqn:Ep; try done.
    + apply rw_alloc_step; [done|]. split; [done|apply (vi_bufs _ I p); by rewrite Ep| |by right].
      intros q Hq E. apply Hq. apply (vi_buf _ I q p b E). by rewrite Ep.
    + destruct (vb_disk (get_vbuf v b)) eqn:Hd; [by apply resleep_step|by apply finish_step].
  - eexists. split; [done|].
    destruct (inv_frame v (Some O_intr) (v_asleep v) I) as [Iv St]; [right; split; [apply (free_no_ready v I); by left|done]|intros q ch E; by apply inv_sleep|].
    split; [exact Iv|left; exact St].
  - destruct En as [Hl Hne]. by apply round_step.
  - destruct En as [Hl _]. eexists. split; [done|].
    destruct (inv_frame v None (v_asleep v) I) as [Iv St]; [right; split; [apply (free_no_ready v I); by right|done]|intros q ch E; by apply inv_sleep|].
    split; [exact Iv|left; exact St].
Qed.

Lemma kill_step v p : vinv v -> vinv (set_v_asleep (put_at (v_asleep v) p None) v) /\ refines v (set_v_asleep (put_at (v_asleep v) p None) v).
Proof.
  intros I. destruct (inv_frame v (v_lock v) (put_at (v_asleep v) p None) I) as [Iv St]; [by left| |split; [exact Iv|left; exact St]].
  intros q ch E. destruct (decide (q = p)) as [->|Hq]; [by rewrite put_at_eq in E|rewrite put_at_ne in E by done; by apply inv_sleep].
Qed.

Lemma cpu_step v b x :
  vinv v -> (forall q, buf_of (v_pc v q) <> Some b) -> vbuf_ok x -> vb_disk x = vb_disk (get_vbuf v b) ->
  vinv (set_v_bufs (<[b := x]> (v_bufs v)) v) /\ refines v (set_v_bufs (<[b := x]> (v_bufs v)) v).
Proof.
  intros I Hq Hx Hd. set (v' := set_v_bufs _ v).
  assert (Gb : forall q b', buf_of (v_pc v q) = Some b' -> get_vbuf v' b' = get_vbuf v b').
  { intros q b' E. unfold get_vbuf. cbn. rewrite list_lookup_insert_ne; [done|]. intros ->. by apply (Hq q). }
  pose proof I as [I1 I2 I3 I4 I5 I6 I7 I8 I9 I10 I11 I12 I13 I14 I15 I16]. split.
  - split; try assumption.
    + intros q b' E. cbn. rewrite length_insert. by apply (I8 q).
    + cbn. by apply Forall_insert.
    + intros q b' w i0 i1 i2 E. destruct (request_owns _ _ _ _ _ _ E) as [_ Eb].
      apply (chain_ext v); [by apply (I10 q)|done|done|intros y Hy; by exists (in_status y)|by rewrite (Gb q b')].
    + intros q b' w i0 i1 i2 E. rewrite (Gb q b') by (change (v_pc v' q) with (v_pc v q) in E; by rewrite E). by apply (I11 q b' w i0 i1 i2).
    + intros h. rewrite (I14 h : h ∈ heads v' <-> _). unfold on_way. change (v_pc v') with (v_pc v).
      split; intros (q & b' & w & i0 & i1 & i2 & E1 & E2 & E3); exists q, b', w, i0, i1, i2;
        pose proof (Gb q b' ltac:(by rewrite E1)) as Eb; (split; [done|split; [done|congruence]]).
    + intros q ch E. pose proof (I16 q ch E) as S. change (v_pc v' q) with (v_pc v q).
      destruct (v_pc v q) as [|b' w|b' w ? ? ?|b' w i0 i1 i2] eqn:Ep; try done. by rewrite (Gb q b') by (by rewrite Ep).
  - right. apply (as_cpu _ _ b (vb_blockno x, vb_data x)); [| |cbn; by rewrite list_fmap_insert|done].
    + intros q. cbn. specialize (Hq q). destruct (v_pc v q); cbn in *; try done. by case_match.
    + intros q. cbn. destruct (v_pc v q) as [|b' w|b' w ? ? ?|b' w i0 i1 i2] eqn:Ep; try done. cbn [abs_pc].
      by rewrite (Gb q b') by (by rewrite Ep).
Qed.

Section Device.
Context (device : vstate -> vstate -> Prop).
(** The device keeps to the virtio specification. *)
Hypothesis (device_ok : forall v v', device v v' -> dev_may v v').

Lemma step_ok v v' : vinv v -> vstep device v v' -> vinv v' /\ refines v v'.
Proof using device_ok.
  intros I S. destruct S as [a v' En E|p|b x Hq Hx Hd|v' D].
  - destruct (act_step v a I En) as (v2 & E2 & Iv & R). rewrite E in E2. by injection E2 as <-.
  - by apply kill_step.
  - by apply cpu_step.
  - apply device_step; [done|by apply device_ok].
Qed.

Lemma vstate0_inv bufs img : Forall vbuf_ok bufs -> vinv (vstate0 bufs img).
Proof.
  intros Hb.
  assert (Hno : forall h, ~ h ∈ heads (vstate0 bufs img)) by (intros h; unfold heads, queued, served, rlist, ring_list; cbn; apply not_elem_of_nil).
  assert (Hr : rok (replicate NUM 0) 0 0) by (split; vm_compute; intuition discriminate).
  split.
  - done.
  - exact Hr.
  - exact Hr.
  - intros p i H. by apply not_elem_of_nil in H.
  - intros p. apply NoDup_nil_2.
  - intros p q i H. by apply not_elem_of_nil in H.
  - done.
  - done.
  - exact Hb.
  - done.
  - done.
  - done.
  - unfold heads, queued, served, rlist, ring_list. cbn. apply NoDup_nil_2.
  - intros h. split; [intros H; by destruct (Hno h)|]. by intros (p & b & w & i0 & i1 & i2 & E & _).
  - intros h x Hh. destruct (Hno h). unfold heads. rewrite !elem_of_app. auto.
  - done.
Qed.

Lemma reach_inv v : vreach device v -> vinv v.
Proof using device_ok.
  intros (bufs & img & Hb & R). remember (vstate0 bufs img) as v0 eqn:E0. assert (I0 : vinv v0) by (subst v0; by apply vstate0_inv).
  clear E0. induction R as [v|v v1 v2 S R IH]; [done|]. apply IH. by destruct (step_ok v v1 I0 S).
Qed.

(** [C20] The driver is safe with every device that keeps to the virtio
    specification, whatever the interleaving of processes, interrupts, device
    and processor: every action that is enabled runs to its end.  No
    descriptor is freed twice, no interrupt meets a bad status or a request
    that nobody waits for, and the device never sees a malformed chain. *)
Theorem virtio_safe (v : vstate) (a : vact) :
  vreach device v -> enabled v a -> exists v', act a v = Ok tt v'.
Proof using device_ok.
  intros R En. destruct (act_step v a (reach_inv v R) En) as (v' & E & _). by exists v'.
Qed.

(** [C5] The driver and the device together implement an atomic disk: every
    step either changes nothing that a caller of [virtio_disk_rw] can see, or
    is the call, the transfer of exactly its block between buffer and disk,
    or the return after the transfer. *)
Theorem virtio_refines (v v' : vstate) :
  vreach device v -> vstep device v v' -> astutter (abs v) (abs v') \/ astep (abs v) (abs v').
Proof using device_ok. intros R S. by destruct (step_ok v v' (reach_inv v R) S). Qed.

End Device.

(** ** The transfer in the block cache *)

(** The bytes of the disk are the blocks that [Bio.v] works with. *)
Definition same_disk (img : mem) (s : kstate) : Prop :=
  forall n, 0 <= n < 2 ^ 31 -> bytes_at img (1024 * n) 1024 = disk_blk s n.

Definition same_buf (bufs : list (Z * list Z)) (i : nat) (s : kstate) : Prop :=
  bufs !! i = Some (b_blockno (get_buf s i), b_data (get_buf s i)).

(** [virtio_disk_rw] as the block cache uses it is the transfer that the
    driver and the device implement. *)
Theorem transfer_is_virtio_disk_rw (i : nat) (w : bool) (bufs : list (Z * list Z)) (img : mem) (s : kstate) :
  same_disk img s -> same_buf bufs i s -> (i < length (k_bufs s))%nat -> 0 <= b_blockno (get_buf s i) < 2 ^ 31 ->
  length (b_data (get_buf s i)) = 1024%nat -> byte_list (b_data (get_buf s i)) ->
  exists s', virtio_disk_rw i w s = Ok tt s' /\
    same_disk (snd (transfer i w bufs img)) s' /\ same_buf (fst (transfer i w bufs img)) i s'.
Proof.
  intros Hd Hb Hi Hn Hlen Hby. unfold virtio_disk_rw. rewrite bind_gets. unfold transfer, same_buf in *. rewrite Hb.
  destruct w; unfold modify; eexists; (split; [reflexivity|]); cbn [fst snd].
  - split; [|exact Hb]. intros n Hr. unfold disk_blk. cbn [k_disk set_k_disk set_k_dwrites].
    destruct (decide (n = b_blockno (get_buf s i))) as [->|Hne].
    + rewrite lookup_insert_eq. cbn [from_option id]. pose proof (bytes_at_wr_same img (1024 * b_blockno (get_buf s i)) _ Hby) as E. rewrite Hlen in E. exact E.
    + rewrite lookup_insert_ne by done. rewrite bytes_at_wr; [by apply Hd|]. intros j Hj. rewrite rd_wr_bytes.
      destruct (b_data (get_buf s i) !! Z.to_nat (1024 * n + Z.of_nat j - 1024 * b_blockno (get_buf s i))) eqn:E; [|done].
      apply lookup_lt_Some in E. rewrite decide_False; [done|]. lia.
  - split; [exact Hd|]. rewrite list_lookup_insert_eq by (by eapply lookup_lt_Some). rewrite (Hd _ Hn), get_upd_buf_same by done. done.
Qed.

(** ** Witnesses *)

(** A device that serves one request at a time, in order. *)
Definition dev_run (v : vstate) : option vstate :=
  match v_pending v with
  | h :: l => v1 ← dev_io h v; Some (dev_done h (set_v_pending l v1))
  | [] =>
      if bool_decide (v_seen v = v_aidx v) then None
      else Some (set_v_seen (u16 (v_seen v + 1))
        (set_v_pending (v_pending v ++ [nth (Z.to_nat (v_seen v mod Z.of_nat NUM)) (v_avail v) 0]) v))
  end.

Definition simple_device (v v' : vstate) : Prop := dev_run v = Some v'.

Lemma simple_device_ok v v' : simple_device v v' -> dev_may v v'.
Proof.
  unfold simple_device, dev_run. destruct (v_pending v) as [|h l] eqn:Hp.
  - case_bool_decide; [done|]. intros E. injection E as <-. pose proof (dev_fetch v H) as D. by rewrite Hp in D.
  - destruct (dev_io h v) as [v1|] eqn:E1; [|done]. cbn. intros E. injection E as <-. by apply (dev_complete v h [] l v1).
Qed.

Definition one_buf : list vbuf := [mkVbuf false 5 (replicate 1024 0)].

Lemma one_buf_ok : Forall vbuf_ok one_buf.
Proof. apply Forall_singleton. split; [apply length_replicate|]. split; [apply byte_list_replicate|]. cbn. lia. Qed.

(** Process 3 reads block 5: it has formatted its request; it has published
    it; the device has fetched it. *)
Definition reading1 : vstate := formatted 3 0 false 0 1 2
  (set_v_free [false; false; false; true; true; true; true; true] (set_v_lock (Some (O_proc 3)) (vstate0 one_buf ∅))).

Definition run_act (a : vact) (v : vstate) : vstate := match act a v with Ok _ v' => v' | _ => v end.
Definition reading2 : vstate := run_act (Publish 3) reading1.
Definition reading3 : vstate := default reading2 (dev_run reading2).

Lemma reading1_reach : vreach simple_device reading1.
Proof.
  exists one_buf, ∅. split; [apply one_buf_ok|]. apply rtc_once. apply (st_act _ _ (Begin 3 0 false)); [|reflexivity].
  split; [done|]. split; [done|]. split; [cbn; lia|done].
Qed.

Lemma reading3_reach : vreach simple_device reading3.
Proof.
  destruct reading1_reach as (bufs & img & Hb & R). exists bufs, img. split; [done|].
  apply (rtc_r _ reading2); [apply (rtc_r _ reading1); [exact R|]|].
  - apply (st_act _ _ (Publish 3)); reflexivity.
  - apply st_device. reflexivity.
Qed.

Lemma virtio_safe_witness : exists v', act (Publish 3) reading1 = Ok tt v'.
Proof. apply (virtio_safe simple_device simple_device_ok); [apply reading1_reach|reflexivity]. Defined.

Lemma virtio_refines_witness :
  exists v', dev_run reading3 = Some v' /\ (astutter (abs reading3) (abs v') \/ astep (abs reading3) (abs v')).
Proof.
  eexists. split; [reflexivity|].
  apply (virtio_refines simple_device simple_device_ok); [apply reading3_reach|]. apply st_device. reflexivity.
Defined.


Lemma transfer_is_virtio_disk_rw_witness :
  exists s', virtio_disk_rw 0 true kstate_zero = Ok tt s' /\ same_buf [(0, replicate 1024 0)] 0 s'.
Proof.
  destruct (transfer_is_virtio_disk_rw 0 true [(0, replicate 1024 0)] ∅ kstate_zero) as (s' & E & _ & H).
  - intros n _. apply list_eq. intros j. destruct (decide (j < 1024)%nat) as [Hj|Hj].
    + rewrite bytes_at_lookup by done. symmetry. by apply lookup_replicate.
    + rewrite !lookup_ge_None_2; [done|apply Nat.nlt_ge in Hj; exact Hj|rewrite length_bytes_at; lia].
  - reflexivity.
  - apply Nat.ltb_lt. reflexivity.
  - split; reflexivity.
  - reflexivity.
  - apply byte_list_replicate.
  - exists s'. split; [exact E|exact H].
Defined.
