(* ===== verification/VirtioInit.v ===== *)
(** * kernel/virtio_disk.c: [virtio_disk_init]

    The driver finds the device, negotiates features and hands it the three
    pages of the queue, all through memory-mapped registers.  [io_log] is the
    sequence of accesses to them; what a read answers is the argument
    [answer], a function of the accesses so far.

    The theorem: with a device that keeps to the virtio specification, and
    three free pages, the driver goes through the specification's sequence. *)

From S2P Require Import Prelude KString Bytes KState Riscv Spinlock Kalloc Vm VmTree VmMap Virtio.

(** ** Registers *)

Definition VIRTIO_MMIO_MAGIC_VALUE : Z := 0x000.
Definition VIRTIO_MMIO_VERSION : Z := 0x004.
Definition VIRTIO_MMIO_DEVICE_ID : Z := 0x008.
Definition VIRTIO_MMIO_VENDOR_ID : Z := 0x00c.
Definition VIRTIO_MMIO_DEVICE_FEATURES : Z := 0x010.
Definition VIRTIO_MMIO_DRIVER_FEATURES : Z := 0x020.
Definition VIRTIO_MMIO_QUEUE_SEL : Z := 0x030.
Definition VIRTIO_MMIO_QUEUE_NUM_MAX : Z := 0x034.
Definition VIRTIO_MMIO_QUEUE_NUM : Z := 0x038.
Definition VIRTIO_MMIO_QUEUE_READY : Z := 0x044.
Definition VIRTIO_MMIO_STATUS : Z := 0x070.
Definition VIRTIO_MMIO_QUEUE_DESC_LOW : Z := 0x080.
Definition VIRTIO_MMIO_QUEUE_DESC_HIGH : Z := 0x084.
Definition VIRTIO_MMIO_DRIVER_DESC_LOW : Z := 0x090.
Definition VIRTIO_MMIO_DRIVER_DESC_HIGH : Z := 0x094.
Definition VIRTIO_MMIO_DEVICE_DESC_LOW : Z := 0x0a0.
Definition VIRTIO_MMIO_DEVICE_DESC_HIGH : Z := 0x0a4.

Definition VIRTIO_CONFIG_S_ACKNOWLEDGE : Z := 1.
Definition VIRTIO_CONFIG_S_DRIVER : Z := 2.
Definition VIRTIO_CONFIG_S_DRIVER_OK : Z := 4.
Definition VIRTIO_CONFIG_S_FEATURES_OK : Z := 8.

Definition VIRTIO_BLK_F_RO : Z := 5.
Definition VIRTIO_BLK_F_SCSI : Z := 7.
Definition VIRTIO_BLK_F_CONFIG_WCE : Z := 11.
Definition VIRTIO_BLK_F_MQ : Z := 12.
Definition VIRTIO_F_ANY_LAYOUT : Z := 27.
Definition VIRTIO_RING_F_INDIRECT_DESC : Z := 28.
Definition VIRTIO_RING_F_EVENT_IDX : Z := 29.

(** An access to a register: [Rd r v] read the value [v]. *)
Inductive mmio : Type := Rd (r v : Z) | Wr (r v : Z).

Record iostate : Type := mkIo { io_k : kstate; io_log : list mmio }.

(** What [virtio_disk_init] leaves in [disk]. *)
Record vdisk : Type := mkVdisk { vd_desc : Z; vd_avail : Z; vd_used : Z; vd_free : list bool }.

Section Init.
Context {L : Layout} (answer : list mmio -> Z -> Z).

Definition IO (A : Type) : Type := M iostate A.

(** The read and the write of register [r]. *)
Definition rreg (r : Z) : IO Z := fun s =>
  let v := u32 (answer (io_log s) r) in Ok v (mkIo (io_k s) (io_log s ++ [Rd r v])).
Definition wreg (r v : Z) : IO unit := fun s => Ok tt (mkIo (io_k s) (io_log s ++ [Wr r (u32 v)])).

(** A call of kernel code that does not touch the device. *)
Definition inK {A} (m : K A) : IO A := fun s =>
  match m (io_k s) with
  | Ok a k => Ok a (mkIo k (io_log s))
  | Panic msg => Panic msg
  | Sleeps k => Sleeps (mkIo k (io_log s))
  | Fault why => Fault why
  | NoFuel => NoFuel
  end.

(** [*R(a) != x || ...]: the first register that differs ends the test. *)
Fixpoint identify (l : list (Z * Z)) : IO bool :=
  match l with
  | [] => ret true
  | (r, x) :: l => let! v := rreg r in if v =? x then identify l else ret false
  end.

Definition clear_bit (x k : Z) : Z := Z.land x (Z.lnot (Z.shiftl 1 k)).

Definition virtio_features (f : Z) : Z :=
  foldl clear_bit f [VIRTIO_BLK_F_RO; VIRTIO_BLK_F_SCSI; VIRTIO_BLK_F_CONFIG_WCE; VIRTIO_BLK_F_MQ; VIRTIO_F_ANY_LAYOUT;
    VIRTIO_RING_F_EVENT_IDX; VIRTIO_RING_F_INDIRECT_DESC].

(** The negotiation; it returns the status. *)
Definition virtio_negotiate : IO Z :=
  let status := 0 in
  wreg VIRTIO_MMIO_STATUS status ;;;
  let status := Z.lor status VIRTIO_CONFIG_S_ACKNOWLEDGE in
  wreg VIRTIO_MMIO_STATUS status ;;;
  let status := Z.lor status VIRTIO_CONFIG_S_DRIVER in
  wreg VIRTIO_MMIO_STATUS status ;;;
  let! features := rreg VIRTIO_MMIO_DEVICE_FEATURES in
  wreg VIRTIO_MMIO_DRIVER_FEATURES (virtio_features features) ;;;
  let status := Z.lor status VIRTIO_CONFIG_S_FEATURES_OK in
  wreg VIRTIO_MMIO_STATUS status ;;;
  let! status := rreg VIRTIO_MMIO_STATUS in
  if Z.land status VIRTIO_CONFIG_S_FEATURES_OK =? 0 then panic "virtio disk FEATURES_OK unset"
  else ret status.

(** The three pages of queue 0. *)
Definition virtio_pages : IO (Z * Z * Z) :=
  let! desc := inK kalloc in
  let! avail := inK kalloc in
  let! used := inK kalloc in
  if (desc =? 0) || (avail =? 0) || (used =? 0) then panic "virtio disk kalloc"
  else
    inK (fill_page desc 0) ;;;
    inK (fill_page avail 0) ;;;
    inK (fill_page used 0) ;;;
    ret (desc, avail, used).

Definition virtio_disk_init : IO vdisk :=
  let! ok := identify [(VIRTIO_MMIO_MAGIC_VALUE, 0x74726976); (VIRTIO_MMIO_VERSION, 2);
    (VIRTIO_MMIO_DEVICE_ID, 2); (VIRTIO_MMIO_VENDOR_ID, 0x554d4551)] in
  if negb ok then panic "could not find virtio disk"
  else
    let! status := virtio_negotiate in
    wreg VIRTIO_MMIO_QUEUE_SEL 0 ;;;
    let! ready := rreg VIRTIO_MMIO_QUEUE_READY in
    if negb (ready =? 0) then panic "virtio disk should not be ready"
    else
      let! max := rreg VIRTIO_MMIO_QUEUE_NUM_MAX in
      if max =? 0 then panic "virtio disk has no queue 0"
      else if max <? Z.of_nat NUM then panic "virtio disk max queue too short"
      else
        let! q := virtio_pages in
        let '(desc, avail, used) := q in
        wreg VIRTIO_MMIO_QUEUE_NUM (Z.of_nat NUM) ;;;
        wreg VIRTIO_MMIO_QUEUE_DESC_LOW desc ;;;
        wreg VIRTIO_MMIO_QUEUE_DESC_HIGH (Z.shiftr desc 32) ;;;
        wreg VIRTIO_MMIO_DRIVER_DESC_LOW avail ;;;
        wreg VIRTIO_MMIO_DRIVER_DESC_HIGH (Z.shiftr avail 32) ;;;
        wreg VIRTIO_MMIO_DEVICE_DESC_LOW used ;;;
        wreg VIRTIO_MMIO_DEVICE_DESC_HIGH (Z.shiftr used 32) ;;;
        wreg VIRTIO_MMIO_QUEUE_READY 0x1 ;;;
        wreg VIRTIO_MMIO_STATUS (Z.lor status VIRTIO_CONFIG_S_DRIVER_OK) ;;;
        ret (mkVdisk desc avail used (replicate NUM true)).

(** ** A device that keeps to the specification *)

Definition writes (h : list mmio) : list (Z * Z) :=
  omap (fun e => match e with Wr r v => Some (r, v) | Rd _ _ => None end) h.

(** The value last written to [r]. *)
Definition last_write (r : Z) (h : list mmio) : option Z :=
  last (omap (fun w => if fst w =? r then Some (snd w) else None) (writes h)).

(** A virtio-mmio block device of version 2 that offers the features
    [offered]: its status reads as it was written while the driver has asked
    for offered features only, and queue 0 is not ready before the driver
    says so. *)
Record virtio_spec (offered : Z) : Prop := {
  vs_magic : forall h, u32 (answer h VIRTIO_MMIO_MAGIC_VALUE) = 0x74726976;
  vs_version : forall h, u32 (answer h VIRTIO_MMIO_VERSION) = 2;
  vs_id : forall h, u32 (answer h VIRTIO_MMIO_DEVICE_ID) = 2;
  vs_vendor : forall h, u32 (answer h VIRTIO_MMIO_VENDOR_ID) = 0x554d4551;
  vs_features : forall h, u32 (answer h VIRTIO_MMIO_DEVICE_FEATURES) = offered;
  vs_status : forall h f v, last_write VIRTIO_MMIO_DRIVER_FEATURES h = Some f -> Z.land f offered = f ->
    last_write VIRTIO_MMIO_STATUS h = Some v -> u32 (answer h VIRTIO_MMIO_STATUS) = u32 v;
  vs_ready : forall h, last_write VIRTIO_MMIO_QUEUE_READY h = None -> u32 (answer h VIRTIO_MMIO_QUEUE_READY) = 0;
  vs_max : forall h, Z.of_nat NUM <= u32 (answer h VIRTIO_MMIO_QUEUE_NUM_MAX)
}.

Lemma bind_rreg {B} r (k : Z -> IO B) s h :
  bind (rreg r) k (mkIo s h) = k (u32 (answer h r)) (mkIo s (h ++ [Rd r (u32 (answer h r))])).
Proof. reflexivity. Qed.

Lemma bind_wreg {B} r v (k : IO B) s h : (wreg r v ;;; k) (mkIo s h) = k (mkIo s (h ++ [Wr r (u32 v)])).
Proof. reflexivity. Qed.

Lemma bind_inK {A B} (m : K A) (k : A -> IO B) s s' h a : m s = Ok a s' -> bind (inK m) k (mkIo s h) = k a (mkIo s' h).
Proof. intros E. unfold bind, inK. cbn [io_k]. by rewrite E. Qed.

Lemma testbit_clear x k n : 0 <= n -> 0 <= k -> Z.testbit (clear_bit x k) n = Z.testbit x n && negb (n =? k).
Proof.
  intros Hn Hk. unfold clear_bit. rewrite Z.land_spec, Z.lnot_spec, Z.shiftl_1_l by done. f_equal. f_equal.
  rewrite Z.pow2_bits_eqb by done. apply Z.eqb_sym.
Qed.

(** The bits the driver does not ask for. *)
Definition refused (n : Z) : bool :=
  (n =? VIRTIO_BLK_F_RO) || (n =? VIRTIO_BLK_F_SCSI) || (n =? VIRTIO_BLK_F_CONFIG_WCE) || (n =? VIRTIO_BLK_F_MQ) ||
  (n =? VIRTIO_F_ANY_LAYOUT) || (n =? VIRTIO_RING_F_EVENT_IDX) || (n =? VIRTIO_RING_F_INDIRECT_DESC).

Lemma testbit_features f n : 0 <= n -> Z.testbit (virtio_features f) n = Z.testbit f n && negb (refused n).
Proof.
  intros Hn. unfold virtio_features, refused. cbn [foldl]. rewrite !testbit_clear by (done || by vm_compute).
  by rewrite !negb_orb, !andb_assoc.
Qed.

Lemma features_subset f : Z.land (virtio_features f) f = virtio_features f.
Proof.
  apply Z.bits_inj'. intros n Hn. rewrite Z.land_spec, testbit_features by done.
  destruct (Z.testbit f n); cbn; [by rewrite andb_true_r|done].
Qed.

Lemma features_u32 x : u32 (virtio_features (u32 x)) = virtio_features (u32 x).
Proof.
  unfold u32 at 1. rewrite <- Z.land_ones by lia. apply Z.bits_inj'. intros n Hn. rewrite Z.land_spec, testbit_features by done.
  rewrite Z.testbit_ones_nonneg by lia. destruct (Z.ltb_spec n 32); [by rewrite andb_true_r|].
  unfold u32. rewrite Z.mod_pow2_bits_high by lia. done.
Qed.

Context {LO : LayoutOk L}.

Lemma freelist_mem s m : k_freelist (set_k_mem m s) = k_freelist s.
Proof. reflexivity. Qed.

Lemma held_mem s m : k_held (set_k_mem m s) = k_held s.
Proof. reflexivity. Qed.

Lemma held_freelist s f : k_held (set_k_freelist f s) = k_held s.
Proof. reflexivity. Qed.

Lemma rd_zeroed m p1 p2 p3 a :
  let junk := memset (memset (memset m p1 5 PGSIZE) p2 5 PGSIZE) p3 5 PGSIZE in
  rd (memset (memset (memset junk p1 0 PGSIZE) p2 0 PGSIZE) p3 0 PGSIZE) a =
  if decide (p1 <= a < p1 + PGSIZE \/ p2 <= a < p2 + PGSIZE \/ p3 <= a < p3 + PGSIZE) then 0 else rd m a.
Proof. cbv zeta. rewrite !rd_memset_page. change (u8 0) with 0. repeat case_decide; try done; exfalso; tauto. Qed.

(** Three pages are taken and filled with zeroes. *)
Lemma virtio_pages_spec s h p1 p2 p3 free :
  kmem_inv s (p1 :: p2 :: p3 :: free) -> (kmem_lock ∉ k_held s) ->
  exists s', virtio_pages (mkIo s h) = Ok (p1, p2, p3) (mkIo s' h) /\ kmem_inv s' free /\ k_held s' = k_held s /\
    (forall p a, p ∈ [p1; p2; p3] -> p <= a < p + PGSIZE -> rd (k_mem s') a = 0) /\
    mem_only [p1; p2; p3] (k_mem s) (k_mem s').
Proof using LO.
  intros I Hl. pose proof (kmem_pages _ _ I) as Hp. pose proof (kmem_nodup _ _ I) as Hnd.
  pose proof (kalloc_some _ _ _ I Hl) as E1. pose proof (kalloc_inv_pop _ _ _ I) as I1. set (s1 := set_k_mem _ _) in *.
  pose proof (kalloc_some s1 _ _ I1 Hl) as E2. pose proof (kalloc_inv_pop _ _ _ I1) as I2. set (s2 := set_k_mem _ (set_k_freelist _ s1)) in *.
  pose proof (kalloc_some s2 _ _ I2 Hl) as E3. pose proof (kalloc_inv_pop _ _ _ I2) as I3. set (s3 := set_k_mem _ (set_k_freelist _ s2)) in *.
  inversion Hp as [|? ? P1 Hp1]; subst. inversion Hp1 as [|? ? P2 Hp2]; subst. inversion Hp2 as [|? ? P3 Hp3]; subst.
  pose proof (page_ok_pos _ P1). pose proof (page_ok_pos _ P2). pose proof (page_ok_pos _ P3).
  set (s4 := set_k_mem (memset (k_mem s3) p1 0 PGSIZE) s3). set (s5 := set_k_mem (memset (k_mem s4) p2 0 PGSIZE) s4).
  set (s6 := set_k_mem (memset (k_mem s5) p3 0 PGSIZE) s5).
  assert (E4 : fill_page p1 0 s3 = Ok tt s4) by reflexivity. assert (E5 : fill_page p2 0 s4 = Ok tt s5) by reflexivity.
  assert (E6 : fill_page p3 0 s5 = Ok tt s6) by reflexivity.
  assert (Em : k_mem s6 = memset (memset (memset (k_mem s3) p1 0 PGSIZE) p2 0 PGSIZE) p3 0 PGSIZE) by reflexivity.
  assert (Hrd : forall a, rd (k_mem s6) a = if decide (p1 <= a < p1 + PGSIZE \/ p2 <= a < p2 + PGSIZE \/ p3 <= a < p3 + PGSIZE) then 0 else rd (k_mem s) a).
  { intros a. rewrite Em. exact (rd_zeroed (k_mem s) p1 p2 p3 a). }
  exists s6. split; [|split; [|split; [unfold s6, s5, s4, s3, s2, s1; rewrite !held_mem, held_freelist, !held_mem, held_freelist, !held_mem, held_freelist; reflexivity|split]]].
  - unfold virtio_pages. rewrite (bind_inK _ _ _ _ _ _ E1), (bind_inK _ _ _ _ _ _ E2), (bind_inK _ _ _ _ _ _ E3).
    rewrite (proj2 (Z.eqb_neq p1 0)), (proj2 (Z.eqb_neq p2 0)), (proj2 (Z.eqb_neq p3 0)) by lia. cbn [orb].
    by rewrite (bind_inK _ _ _ _ _ _ E4), (bind_inK _ _ _ _ _ _ E5), (bind_inK _ _ _ _ _ _ E6).
  - clear E1 E2 E3 E4 E5 E6 I I1 I2. apply (kmem_inv_agree s3 _ free [p1; p2; p3]); [exact I3|unfold s6, s5, s4; rewrite !freelist_mem; reflexivity| |exact (Forall_cons_2 _ _ _ P1 (Forall_cons_2 _ _ _ P2 (Forall_cons_2 _ _ _ P3 (Forall_nil_2 _))))|].
    + intros a Ha. rewrite Em, !rd_memset_page. rewrite !decide_False; [reflexivity|apply Ha; clear; set_solver..].
    + apply NoDup_cons in Hnd as [N1 Hnd]. apply NoDup_cons in Hnd as [N2 Hnd]. apply NoDup_cons in Hnd as [N3 _]. clear - N1 N2 N3. set_solver.
  - intros p a Hpa Ha. rewrite Hrd. case_decide as D; [reflexivity|]. exfalso. apply D.
    clear - Hpa Ha.
    rewrite !elem_of_cons in Hpa. destruct Hpa as [Hpa|[Hpa|[Hpa|Hpa]]]; [subst p; tauto..|by apply not_elem_of_nil in Hpa].
  - intros a Ha. rewrite Hrd. rewrite decide_False; [reflexivity|]. clear - Ha. intros [D|[D|D]]; revert D; apply Ha; set_solver.
Qed.

Lemma last_write_same r v h : last_write r (h ++ [Wr r v]) = Some v.
Proof using Type. unfold last_write, writes. rewrite !omap_app. cbn. by rewrite Z.eqb_refl, last_snoc. Qed.

Lemma last_write_other r r' v h : r' <> r -> last_write r (h ++ [Wr r' v]) = last_write r h.
Proof using Type. intros H. unfold last_write, writes. rewrite !omap_app. cbn. rewrite (proj2 (Z.eqb_neq r' r) H). by rewrite app_nil_r. Qed.

Lemma last_write_read r r' v h : last_write r (h ++ [Rd r' v]) = last_write r h.
Proof using Type. unfold last_write, writes. rewrite !omap_app. cbn. by rewrite app_nil_r. Qed.

(** The device is found, and accepts the features. *)
Lemma identify_ok offered s l : virtio_spec offered ->
  bind (identify [(VIRTIO_MMIO_MAGIC_VALUE, 0x74726976); (VIRTIO_MMIO_VERSION, 2);
    (VIRTIO_MMIO_DEVICE_ID, 2); (VIRTIO_MMIO_VENDOR_ID, 0x554d4551)]) l (mkIo s []) =
  l true (mkIo s [Rd VIRTIO_MMIO_MAGIC_VALUE 0x74726976; Rd VIRTIO_MMIO_VERSION 2; Rd VIRTIO_MMIO_DEVICE_ID 2; Rd VIRTIO_MMIO_VENDOR_ID 0x554d4551]) :> outcome _ vdisk.
Proof using Type.
  intros []. cbn [identify]. rewrite !bind_assoc, bind_rreg, vs_magic0. cbn [Z.eqb Pos.eqb].
  rewrite bind_assoc, bind_rreg, vs_version0. cbn [Z.eqb Pos.eqb].
  rewrite bind_assoc, bind_rreg, vs_id0. cbn [Z.eqb Pos.eqb].
  rewrite bind_assoc, bind_rreg, vs_vendor0. cbn [Z.eqb Pos.eqb]. reflexivity.
Qed.

Lemma negotiate_ok offered s h : virtio_spec offered ->
  exists h', virtio_negotiate (mkIo s h) = Ok 11 (mkIo s (h ++ h')) /\
    writes h' = [(VIRTIO_MMIO_STATUS, 0); (VIRTIO_MMIO_STATUS, 1); (VIRTIO_MMIO_STATUS, 3);
      (VIRTIO_MMIO_DRIVER_FEATURES, virtio_features offered); (VIRTIO_MMIO_STATUS, 11)].
Proof using Type.
  intros S. unfold virtio_negotiate. cbv zeta. rewrite !bind_wreg, bind_rreg, !bind_wreg, bind_rreg.
  set (f := u32 (virtio_features _)).
  assert (Ef : f = virtio_features offered).
  { unfold f. rewrite features_u32. by rewrite (vs_features _ S). }
  rewrite (vs_status _ S _ f 11); [|by rewrite last_write_other, last_write_same| |apply last_write_same].
  - eexists. split; [cbn; rewrite <- !app_assoc; reflexivity|]. cbn. by rewrite Ef.
  - rewrite Ef. apply features_subset.
Qed.

End Init.

(** ** Witness *)

(** A device that offers every feature. *)
Definition some_device (h : list mmio) (r : Z) : Z :=
  if r =? VIRTIO_MMIO_MAGIC_VALUE then 0x74726976
  else if (r =? VIRTIO_MMIO_VERSION) || (r =? VIRTIO_MMIO_DEVICE_ID) then 2
  else if r =? VIRTIO_MMIO_VENDOR_ID then 0x554d4551
  else if r =? VIRTIO_MMIO_DEVICE_FEATURES then 2 ^ 32 - 1
  else if r =? VIRTIO_MMIO_QUEUE_NUM_MAX then 1024
  else default 0 (last_write r h).

Lemma some_device_spec : virtio_spec some_device (2 ^ 32 - 1).
Proof.
  split; intros h; try reflexivity.
  - intros f v _ _ E. unfold some_device. cbn [Z.eqb orb]. by rewrite E.
  - intros E. unfold some_device. cbn [Z.eqb orb]. by rewrite E.
  - apply Z.leb_le. reflexivity.
Qed.

