(* ===== verification/Exec.v ===== *)
(** * kernel/exec.c: loading a program

    The ELF and program headers are bytes with the layout of elf.h; the
    arguments are C strings.  [exec_bad] is the code at the label [bad]. *)

From S2P Require Import Prelude KString Bytes Ring KState Riscv Spinlock Kalloc Vm Sched Uart Console Sleeplock.
From S2P Require Import Bio Log Fs Pipe File Proc.

(** ** elf.h *)

Definition ELF_MAGIC : Z := 0x464C457F.
Definition ELF_PROG_LOAD : Z := 1.
Definition elfhdr_size : Z := 64.
Definition proghdr_size : Z := 56.
Definition elf_magic (h : list Z) : Z := get32 h 0.
Definition elf_entry (h : list Z) : Z := get_le 8 h 24.
Definition elf_phoff (h : list Z) : Z := get_le 8 h 32.
Definition elf_phnum (h : list Z) : Z := get16 h 56.
Definition ph_type (h : list Z) : Z := get32 h 0.
Definition ph_flags (h : list Z) : Z := get32 h 4.
Definition ph_off (h : list Z) : Z := get_le 8 h 8.
Definition ph_vaddr (h : list Z) : Z := get_le 8 h 16.
Definition ph_filesz (h : list Z) : Z := get_le 8 h 32.
Definition ph_memsz (h : list Z) : Z := get_le 8 h 40.

Definition flags2perm (flags : Z) : Z :=
  let perm := if negb (Z.land flags 1 =? 0) then PTE_X else 0 in
  if negb (Z.land flags 2 =? 0) then Z.lor perm PTE_W else perm.

(** The loop of [loadseg] over the page offsets [ix]. *)
Fixpoint loadseg_loop (ix : list Z) (pagetable va : Z) (ip : nat) (offset sz : Z) : K Z :=
  match ix with
  | [] => ret 0
  | i :: ix =>
      let! pa := walkaddr pagetable (u64 (va + i)) in
      if pa =? 0 then panic "loadseg: address should exist"
      else
        let n := if sz - i <? PGSIZE then sz - i else PGSIZE in
        let! (r, bs) := readi ip kernel_dst (u32 (offset + i)) n in
        modify (fun s => set_k_mem (wr_bytes (k_mem s) pa bs) s) ;;;
        if negb (r =? n) then ret (-1)
        else loadseg_loop ix pagetable va ip offset sz
  end.

Definition loadseg (pagetable va : Z) (ip : nat) (offset sz : Z) : K Z :=
  loadseg_loop ((fun k => k * PGSIZE) <$> seqZ 0 ((sz + PGSIZE - 1) / PGSIZE)) pagetable va ip offset sz.

(** The bytes of [ustack]: the pointers and the final null. *)
Definition ustack_bytes (ustack : list Z) : list Z :=
  concat ((fun v => put_le 8 (replicate 8 0) 0 v) <$> (ustack ++ [0])).

(** What follows the last slash of the path. *)
Fixpoint last_elem (last path : list Z) : list Z :=
  match path with
  | [] => last
  | c :: path => if c =? 47 then last_elem path path else last_elem last path
  end.

Section Exec.
Context {L : Layout}.

Definition exec_bad (pagetable sz : Z) (ip : option nat) : K Z :=
  (if negb (pagetable =? 0) then proc_freepagetable pagetable sz else ret tt) ;;;
  match ip with
  | Some ip => iunlockput ip ;;; end_op
  | None => ret tt
  end ;;;
  ret (-1).

(** The loop over the program headers: whether it succeeded, and [sz]. *)
Fixpoint exec_load (k : nat) (off : Z) (ip : nat) (pagetable sz : Z) : K (bool * Z) :=
  match k with
  | O => ret (true, sz)
  | S k =>
      let! (r, ph) := readi ip kernel_dst (u32 off) proghdr_size in
      if negb (r =? proghdr_size) then ret (false, sz)
      else if negb (ph_type ph =? ELF_PROG_LOAD) then exec_load k (s32 (off + proghdr_size)) ip pagetable sz
      else if ph_memsz ph <? ph_filesz ph then ret (false, sz)
      else if u64 (ph_vaddr ph + ph_memsz ph) <? ph_vaddr ph then ret (false, sz)
      else if negb (ph_vaddr ph mod PGSIZE =? 0) then ret (false, sz)
      else
        let! sz1 := uvmalloc pagetable sz (u64 (ph_vaddr ph + ph_memsz ph)) (flags2perm (ph_flags ph)) in
        if sz1 =? 0 then ret (false, sz)
        else
          let! r := loadseg pagetable (ph_vaddr ph) ip (u32 (ph_off ph)) (u32 (ph_filesz ph)) in
          if r <? 0 then ret (false, sz1)
          else exec_load k (s32 (off + proghdr_size)) ip pagetable sz1
  end.

(** The loop over the arguments: [sp] and [ustack], unless it fails. *)
Fixpoint exec_push (argv : list (list Z)) (pagetable sp stackbase : Z) (ustack : list Z)
    : K (option (Z * list Z)) :=
  match argv with
  | [] => ret (Some (sp, ustack))
  | arg :: argv =>
      if (MAXARG <=? length ustack)%nat then ret None
      else
        let sp := u64 (sp - (Z.of_nat (length arg) + 1)) in
        let sp := sp - sp mod 16 in
        if sp <? stackbase then ret None
        else
          let! r := copyout pagetable sp (arg ++ [0]) in
          if r <? 0 then ret None
          else exec_push argv pagetable sp stackbase (ustack ++ [sp])
  end.

(** [exec] after the segments are loaded and the inode is released. *)
Definition exec_stack (path : list Z) (argv : list (list Z)) (elf : list Z) (pagetable sz : Z) : K Z :=
  let! p := myproc_ in
  let! oldsz := gets (fun s => p_sz (get_proc s p)) in
  let sz := PGROUNDUP sz in
  let! sz1 := uvmalloc pagetable sz (u64 (sz + 2 * PGSIZE)) PTE_W in
  if sz1 =? 0 then exec_bad pagetable sz None
  else
    let sz := sz1 in
    uvmclear pagetable (sz - 2 * PGSIZE) ;;;
    let stackbase := sz - PGSIZE in
    let! r := exec_push argv pagetable sz stackbase [] in
    match r with
    | None => exec_bad pagetable sz None
    | Some (sp, ustack) =>
        let argc := Z.of_nat (length ustack) in
        if (MAXARG <=? length ustack)%nat then fault "ustack[argc]"
        else
          let sp := u64 (sp - (argc + 1) * 8) in
          let sp := sp - sp mod 16 in
          if sp <? stackbase then exec_bad pagetable sz None
          else
            let! r := copyout pagetable sp (ustack_bytes ustack) in
            if r <? 0 then exec_bad pagetable sz None
            else
              tf_set p tf_a1 sp ;;;
              proc_set p (fun pr => set_p_name (safestrcpy_list (p_name pr) (last_elem path path) 16) pr) ;;;
              let! oldpagetable := gets (fun s => p_pagetable (get_proc s p)) in
              proc_set p (set_p_pagetable pagetable) ;;;
              proc_set p (set_p_sz sz) ;;;
              tf_set p tf_epc (elf_entry elf) ;;;
              tf_set p tf_sp sp ;;;
              proc_freepagetable oldpagetable oldsz ;;;
              ret argc
    end.

Definition exec (path : list Z) (argv : list (list Z)) : K Z :=
  let! p := myproc_ in
  begin_op ;;;
  let! r := namei path in
  match r with
  | None => end_op ;;; ret (-1)
  | Some ip =>
      ilock ip ;;;
      let! (r, elf) := readi ip kernel_dst 0 elfhdr_size in
      if negb (r =? elfhdr_size) then exec_bad 0 0 (Some ip)
      else if negb (elf_magic elf =? ELF_MAGIC) then exec_bad 0 0 (Some ip)
      else
        let! pagetable := proc_pagetable p in
        if pagetable =? 0 then exec_bad 0 0 (Some ip)
        else
          let! (ok, sz) := exec_load (Z.to_nat (elf_phnum elf)) (s32 (elf_phoff elf)) ip pagetable 0 in
          if negb ok then exec_bad pagetable sz (Some ip)
          else
            iunlockput ip ;;;
            end_op ;;;
            exec_stack path argv elf pagetable sz
  end.

End Exec.
