(* ===== verification/Syscall.v ===== *)
(** * System calls: kernel/syscall.c and kernel/sysproc.c

    Arguments are read from the trapframe of the running process.  An [int]
    argument is the low half of its register, sign-extended; a string
    argument is the C string found at the address.  System calls return a
    64-bit value, as stored in [a0]. *)

From S2P Require Import Prelude KString Bytes Ring KState Riscv Spinlock Kalloc Vm Sched Uart Console Sleeplock.
From S2P Require Import Bio Log Fs Pipe File Proc.

(** ** Arguments *)

Definition fetchaddr (addr : Z) : K (Z * Z) :=
  let! p := myproc_ in
  let! pr := gets (fun s => get_proc s p) in
  if (p_sz pr <=? addr) || (p_sz pr <? u64 (addr + 8)) then ret (-1, 0)
  else
    let! (r, bs) := copyin (p_pagetable pr) addr 8 in
    ret (if negb (r =? 0) then (-1, 0) else (0, get_le 8 bs 0)).

(** The length (or -1) and the bytes stored in the buffer. *)
Definition fetchstr (addr max : Z) : K (Z * list Z) :=
  let! p := myproc_ in
  let! pt := gets (fun s => p_pagetable (get_proc s p)) in
  let! (r, bs) := copyinstr pt addr max in
  ret (if r <? 0 then (-1, bs) else (Z.of_nat (length (cstr bs)), bs)).

Definition argraw (n : Z) : K Z :=
  let! p := myproc_ in
  if n =? 0 then tf_get p tf_a0
  else if n =? 1 then tf_get p tf_a1
  else if n =? 2 then tf_get p tf_a2
  else if n =? 3 then tf_get p tf_a3
  else if n =? 4 then tf_get p tf_a4
  else if n =? 5 then tf_get p tf_a5
  else panic "argraw".

Definition argint (n : Z) : K Z := let! v := argraw n in ret (s32 v).
Definition argaddr (n : Z) : K Z := argraw n.

(** The string, if there is one. *)
Definition argstr (n max : Z) : K (option (list Z)) :=
  let! addr := argaddr n in
  let! (r, bs) := fetchstr addr max in
  ret (if r <? 0 then None else Some (cstr bs)).

Section SysProc.
Context {L : Layout}.

(** ** sysproc.c *)

Definition sys_exit : K Z :=
  let! status := argint 0 in
  let! msgaddr := argaddr 1 in
  let! msg := (if negb (msgaddr =? 0) then
                 let! (r, bs) := fetchstr msgaddr 32 in
                 ret (if r <? 0 then [] else cstr bs)
               else ret []) in
  exit status msg ;;;
  ret 0.

Definition sys_getpid : K Z :=
  let! p := myproc_ in
  gets (fun s => p_pid (get_proc s p)).

Definition sys_fork : K Z := fork.

Definition sys_wait : K Z :=
  let! statusaddr := argaddr 0 in
  let! msgaddr := argaddr 1 in
  wait statusaddr msgaddr.

Definition sys_sbrk : K Z :=
  let! n := argint 0 in
  let! p := myproc_ in
  let! addr := gets (fun s => p_sz (get_proc s p)) in
  let! r := growproc n in
  ret (if r <? 0 then -1 else addr).

(** [sys_sleep] from its [while] on, with [tickslock] held: the comparison
    is between unsigned numbers. *)
Definition sys_sleep_loop (ticks0 n : Z) : K Z :=
  let! ticks := gets (fun s => k_ticks s) in
  if u32 (ticks - ticks0) <? u32 n then
    let! p := myproc_ in
    let! kd := killed p in
    if negb (kd =? 0) then release tickslock ;;; ret (-1)
    else sleep_on ch_ticks tickslock
  else release tickslock ;;; ret 0.

Definition sys_sleep : K Z :=
  let! n := argint 0 in
  acquire tickslock ;;;
  let! ticks0 := gets (fun s => k_ticks s) in
  sys_sleep_loop ticks0 n.

Definition sys_kill : K Z :=
  let! pid := argint 0 in
  kill pid.

Definition sys_uptime : K Z :=
  acquire tickslock ;;;
  let! xticks := gets (fun s => k_ticks s) in
  release tickslock ;;;
  ret xticks.

Definition sys_memsize : K Z :=
  let! p := myproc_ in
  gets (fun s => p_sz (get_proc s p)).

Definition sys_forkn : K Z :=
  let! n := argint 0 in
  let! pids_addr := argaddr 1 in
  forkn n pids_addr.

Definition sys_waitall : K Z :=
  let! n_addr := argaddr 0 in
  let! statuses_addr := argaddr 1 in
  waitall n_addr statuses_addr.

End SysProc.
