(* ===== verification/SysFile.v ===== *)
(** * kernel/sysfile.c: file-system system calls

    Every system call is one definition with the branches of the source; a
    [goto bad] is a call of the definition of that code. *)

From S2P Require Import Prelude KString Bytes Ring KState Riscv Spinlock Kalloc Vm Sched Uart Console Sleeplock.
From S2P Require Import Bio Log Fs Pipe File Proc Exec Syscall.

(** ** fcntl.h *)

Definition O_RDONLY : Z := 0x000.
Definition O_WRONLY : Z := 0x001.
Definition O_RDWR : Z := 0x002.
Definition O_CREATE : Z := 0x200.
Definition O_TRUNC : Z := 0x400.

Definition flag_set (omode flag : Z) : bool := negb (Z.land omode flag =? 0).

(** ** Descriptors *)

(** The descriptor and its file. *)
Definition argfd (n : Z) : K (option (nat * nat)) :=
  let! fd := argint n in
  let! p := myproc_ in
  if (fd <? 0) || (Z.of_nat NOFILE <=? fd) then ret None
  else
    let! f := gets (fun s => nth (Z.to_nat fd) (p_ofile (get_proc s p)) None) in
    ret (match f with Some f => Some (Z.to_nat fd, f) | None => None end).

Fixpoint fdalloc_scan (ix : list nat) (files : list (option nat)) : option nat :=
  match ix with
  | [] => None
  | fd :: ix => match nth fd files None with
                | None => Some fd
                | Some _ => fdalloc_scan ix files
                end
  end.

Definition ofile_set (p fd : nat) (f : option nat) : K unit :=
  proc_set p (fun pr => set_p_ofile (<[fd := f]> (p_ofile pr)) pr).

Definition fdalloc (f : nat) : K (option nat) :=
  let! p := myproc_ in
  let! r := gets (fun s => fdalloc_scan (seq 0 NOFILE) (p_ofile (get_proc s p))) in
  match r with
  | Some fd => ofile_set p fd (Some f) ;;; ret (Some fd)
  | None => ret None
  end.

Definition sys_dup : K Z :=
  let! r := argfd 0 in
  match r with
  | None => ret (-1)
  | Some (_, f) =>
      let! r := fdalloc f in
      match r with
      | None => ret (-1)
      | Some fd => let! _ := filedup f in ret (Z.of_nat fd)
      end
  end.

Section SysFile.
Context {L : Layout}.

Definition sys_read : K Z :=
  let! p := argaddr 1 in
  let! n := argint 2 in
  let! r := argfd 0 in
  match r with
  | None => ret (-1)
  | Some (_, f) => fileread f p n
  end.

Definition sys_write (lsr : Z -> list bool) : K Z :=
  let! p := argaddr 1 in
  let! n := argint 2 in
  let! r := argfd 0 in
  match r with
  | None => ret (-1)
  | Some (_, f) => filewrite f p n lsr
  end.

Definition sys_close : K Z :=
  let! r := argfd 0 in
  match r with
  | None => ret (-1)
  | Some (fd, f) =>
      let! p := myproc_ in
      ofile_set p fd None ;;;
      fileclose f ;;;
      ret 0
  end.

Definition sys_fstat : K Z :=
  let! st := argaddr 1 in
  let! r := argfd 0 in
  match r with
  | None => ret (-1)
  | Some (_, f) => filestat f st
  end.

(** ** Links *)

Definition set_nlink (i : nat) (d : Z) : K unit :=
  inode_set i (fun ip => set_i_nlink (s16 (i_nlink ip + d)) ip).

Definition sys_link_bad (ip : nat) : K Z :=
  ilock ip ;;;
  set_nlink ip (-1) ;;;
  iupdate ip ;;;
  iunlockput ip ;;;
  end_op ;;;
  ret (-1).

Definition sys_link : K Z :=
  let! old := argstr 0 MAXPATH in
  match old with
  | None => ret (-1)
  | Some old =>
  let! new := argstr 1 MAXPATH in
  match new with
  | None => ret (-1)
  | Some new =>
      begin_op ;;;
      let! r := namei old in
      match r with
      | None => end_op ;;; ret (-1)
      | Some ip =>
          ilock ip ;;;
          let! inode := inode_get ip in
          if i_type inode =? T_DIR then iunlockput ip ;;; end_op ;;; ret (-1)
          else
            set_nlink ip 1 ;;;
            iupdate ip ;;;
            iunlock ip ;;;
            let! r := nameiparent new in
            match r with
            | None => sys_link_bad ip
            | Some (dp, name) =>
                ilock dp ;;;
                let! d := inode_get dp in
                let! inode := inode_get ip in
                let! bad := (if negb (i_dev d =? i_dev inode) then ret true
                             else let! r := dirlink dp name (i_inum inode) in ret (r <? 0)) in
                if bad then iunlockput dp ;;; sys_link_bad ip
                else
                  iunlockput dp ;;;
                  iput ip ;;;
                  end_op ;;;
                  ret 0
            end
      end
  end
  end.

Fixpoint isdirempty_loop (offs : list Z) (dp : nat) : K bool :=
  match offs with
  | [] => ret true
  | off :: offs =>
      let! (r, de) := readi dp kernel_dst off dirent_size in
      if negb (r =? dirent_size) then panic "isdirempty: readi"
      else if negb (de_inum de =? 0) then ret false
      else isdirempty_loop offs dp
  end.

Definition isdirempty (dp : nat) : K bool :=
  let! ip := inode_get dp in
  isdirempty_loop (drop 2 (dir_offsets (i_size ip))) dp.

Definition sys_unlink_bad (dp : nat) : K Z :=
  iunlockput dp ;;;
  end_op ;;;
  ret (-1).

Definition sys_unlink : K Z :=
  let! path := argstr 0 MAXPATH in
  match path with
  | None => ret (-1)
  | Some path =>
      begin_op ;;;
      let! r := nameiparent path in
      match r with
      | None => end_op ;;; ret (-1)
      | Some (dp, name) =>
          ilock dp ;;;
          if (namecmp name (str ".") =? 0) || (namecmp name (str "..") =? 0) then sys_unlink_bad dp
          else
            let! r := dirlookup dp name in
            match r with
            | None => sys_unlink_bad dp
            | Some (ip, off) =>
                ilock ip ;;;
                let! inode := inode_get ip in
                if i_nlink inode <? 1 then panic "unlink: nlink < 1"
                else
                  let! keep := (if i_type inode =? T_DIR then
                                  let! e := isdirempty ip in ret (negb e)
                                else ret false) in
                  if keep then iunlockput ip ;;; sys_unlink_bad dp
                  else
                    let! r := writei dp (kernel_src (replicate 16 0)) off dirent_size in
                    if negb (r =? dirent_size) then panic "unlink: writei"
                    else
                      (if i_type inode =? T_DIR then set_nlink dp (-1) ;;; iupdate dp else ret tt) ;;;
                      iunlockput dp ;;;
                      set_nlink ip (-1) ;;;
                      iupdate ip ;;;
                      iunlockput ip ;;;
                      end_op ;;;
                      ret 0
            end
      end
  end.

(** ** Creation *)

Definition create_fail (ip dp : nat) : K (option nat) :=
  inode_set ip (set_i_nlink 0) ;;;
  iupdate ip ;;;
  iunlockput ip ;;;
  iunlockput dp ;;;
  ret None.

Definition create (path : list Z) (type major minor : Z) : K (option nat) :=
  let! r := nameiparent path in
  match r with
  | None => ret None
  | Some (dp, name) =>
      ilock dp ;;;
      let! r := dirlookup dp name in
      match r with
      | Some (ip, _) =>
          iunlockput dp ;;;
          ilock ip ;;;
          let! inode := inode_get ip in
          if (type =? T_FILE) && ((i_type inode =? T_FILE) || (i_type inode =? T_DEVICE)) then ret (Some ip)
          else iunlockput ip ;;; ret None
      | None =>
          let! d := inode_get dp in
          let! r := ialloc (i_dev d) type in
          match r with
          | None => iunlockput dp ;;; ret None
          | Some ip =>
              ilock ip ;;;
              inode_set ip (fun inode => set_i_nlink 1 (set_i_minor minor (set_i_major major inode))) ;;;
              iupdate ip ;;;
              let! inode := inode_get ip in
              let! bad := (if type =? T_DIR then
                             let! r := dirlink ip (str ".") (i_inum inode) in
                             if r <? 0 then ret true
                             else let! r := dirlink ip (str "..") (i_inum d) in ret (r <? 0)
                           else ret false) in
              if bad then create_fail ip dp
              else
                let! r := dirlink dp name (i_inum inode) in
                if r <? 0 then create_fail ip dp
                else
                  (if type =? T_DIR then set_nlink dp 1 ;;; iupdate dp else ret tt) ;;;
                  iunlockput dp ;;;
                  ret (Some ip)
          end
      end
  end.

(** [sys_open] once the inode is found and locked. *)
Definition sys_open_inode (ip : nat) (omode : Z) : K Z :=
  let! inode := inode_get ip in
  if (i_type inode =? T_DEVICE) && ((i_major inode <? 0) || (NDEV <=? i_major inode)) then
    iunlockput ip ;;; end_op ;;; ret (-1)
  else
    let! f := filealloc in
    match f with
    | None => iunlockput ip ;;; end_op ;;; ret (-1)
    | Some f =>
        let! fd := fdalloc f in
        match fd with
        | None => fileclose f ;;; iunlockput ip ;;; end_op ;;; ret (-1)
        | Some fd =>
            (if i_type inode =? T_DEVICE then
               file_set f (fun fl => set_f_major (i_major inode) (set_f_type FD_DEVICE fl))
             else file_set f (fun fl => set_f_off 0 (set_f_type FD_INODE fl))) ;;;
            file_set f (fun fl => set_f_writable (flag_set omode O_WRONLY || flag_set omode O_RDWR)
              (set_f_readable (negb (flag_set omode O_WRONLY)) (set_f_ip (Some ip) fl))) ;;;
            (if flag_set omode O_TRUNC && (i_type inode =? T_FILE) then itrunc ip else ret tt) ;;;
            iunlock ip ;;;
            end_op ;;;
            ret (Z.of_nat fd)
        end
    end.

Definition sys_open : K Z :=
  let! omode := argint 1 in
  let! path := argstr 0 MAXPATH in
  match path with
  | None => ret (-1)
  | Some path =>
      begin_op ;;;
      if flag_set omode O_CREATE then
        let! r := create path T_FILE 0 0 in
        match r with
        | None => end_op ;;; ret (-1)
        | Some ip => sys_open_inode ip omode
        end
      else
        let! r := namei path in
        match r with
        | None => end_op ;;; ret (-1)
        | Some ip =>
            ilock ip ;;;
            let! inode := inode_get ip in
            if (i_type inode =? T_DIR) && negb (omode =? O_RDONLY) then
              iunlockput ip ;;; end_op ;;; ret (-1)
            else sys_open_inode ip omode
        end
  end.

(** [sys_mkdir] and [sys_mknod] after [begin_op]. *)
Definition sys_make (path : option (list Z)) (type major minor : Z) : K Z :=
  match path with
  | None => end_op ;;; ret (-1)
  | Some path =>
      let! r := create path type major minor in
      match r with
      | None => end_op ;;; ret (-1)
      | Some ip => iunlockput ip ;;; end_op ;;; ret 0
      end
  end.

Definition sys_mkdir : K Z :=
  begin_op ;;;
  let! path := argstr 0 MAXPATH in
  sys_make path T_DIR 0 0.

Definition sys_mknod : K Z :=
  begin_op ;;;
  let! major := argint 1 in
  let! minor := argint 2 in
  let! path := argstr 0 MAXPATH in
  sys_make path T_DEVICE (s16 major) (s16 minor).

Definition sys_chdir : K Z :=
  let! p := myproc_ in
  begin_op ;;;
  let! path := argstr 0 MAXPATH in
  let! r := (match path with
             | None => ret None
             | Some path => namei path
             end) in
  match r with
  | None => end_op ;;; ret (-1)
  | Some ip =>
      ilock ip ;;;
      let! inode := inode_get ip in
      if negb (i_type inode =? T_DIR) then iunlockput ip ;;; end_op ;;; ret (-1)
      else
        iunlock ip ;;;
        let! cwd := gets (fun s => p_cwd (get_proc s p)) in
        match cwd with
        | Some c => iput c
        | None => fault "iput of null"
        end ;;;
        end_op ;;;
        proc_set p (set_p_cwd (Some ip)) ;;;
        ret 0
  end.

(** ** [exec] and [pipe] *)

(** The pages of [argv], freed. *)
Fixpoint free_argv (pages : list Z) : K unit :=
  match pages with
  | [] => ret tt
  | a :: pages => kfree a ;;; free_argv pages
  end.

(** The loop of [sys_exec], with room for [k] more arguments: the pages
    allocated so far, and the strings if all arguments were fetched. *)
Fixpoint exec_args (k : nat) (i uargv : Z) (pages : list Z) (args : list (list Z))
    : K (list Z * option (list (list Z))) :=
  match k with
  | O => ret (pages, None)
  | S k =>
      let! (r, uarg) := fetchaddr (u64 (uargv + 8 * i)) in
      if r <? 0 then ret (pages, None)
      else if uarg =? 0 then ret (pages, Some args)
      else
        let! a := kalloc in
        if a =? 0 then ret (pages, None)
        else
          let! (r, bs) := fetchstr uarg PGSIZE in
          modify (fun s => set_k_mem (wr_bytes (k_mem s) a bs) s) ;;;
          if r <? 0 then ret (pages ++ [a], None)
          else exec_args k (i + 1) uargv (pages ++ [a]) (args ++ [cstr bs])
  end.

Definition sys_exec : K Z :=
  let! uargv := argaddr 1 in
  let! path := argstr 0 MAXPATH in
  match path with
  | None => ret (-1)
  | Some path =>
      let! (pages, args) := exec_args MAXARG 0 uargv [] [] in
      match args with
      | Some args =>
          let! r := exec path args in
          free_argv pages ;;;
          ret r
      | None => free_argv pages ;;; ret (-1)
      end
  end.

Definition sys_pipe : K Z :=
  let! p := myproc_ in
  let! fdarray := argaddr 0 in
  let! r := pipealloc in
  match r with
  | None => ret (-1)
  | Some (rf, wf) =>
      let! fd0 := fdalloc rf in
      match fd0 with
      | None => fileclose rf ;;; fileclose wf ;;; ret (-1)
      | Some fd0 =>
          let! fd1 := fdalloc wf in
          match fd1 with
          | None => ofile_set p fd0 None ;;; fileclose rf ;;; fileclose wf ;;; ret (-1)
          | Some fd1 =>
              let! pt := gets (fun s => p_pagetable (get_proc s p)) in
              let! bad := (let! r := copyout pt fdarray (int_bytes (Z.of_nat fd0)) in
                           if r <? 0 then ret true
                           else
                             let! r := copyout pt (u64 (fdarray + 4)) (int_bytes (Z.of_nat fd1)) in
                             ret (r <? 0)) in
              if bad then
                ofile_set p fd0 None ;;;
                ofile_set p fd1 None ;;;
                fileclose rf ;;;
                fileclose wf ;;;
                ret (-1)
              else ret 0
          end
      end
  end.

End SysFile.
