(* ===== verification/Trap.v ===== *)
(** * Traps: [syscall] of kernel/syscall.c, and kernel/trap.c

    The control and status registers a handler reads are the record
    [trapregs]; what the devices answer during an interrupt is the record
    [devinput]; the disk driver's handler is an argument ([Virtio.v] models
    it).  Returning to user space ends in [userregs], the values left for
    trampoline.S. *)

From S2P Require Import Prelude KString Bytes Ring KState Riscv Spinlock Kalloc Vm Sched Uart Console Sleeplock.
From S2P Require Import Bio Log Fs Pipe File Proc Exec Syscall SysFile.

Definition SSTATUS_SPP : Z := Z.shiftl 1 8.
Definition SSTATUS_SPIE : Z := Z.shiftl 1 5.
Definition SSTATUS_SIE : Z := Z.shiftl 1 1.
Definition UART0_IRQ : Z := 10.
Definition VIRTIO0_IRQ : Z := 1.

(** sstatus, scause, sepc, stval, satp, tp *)
#[projections(primitive)]
Record trapregs : Type := mkTrapregs {
  r_sstatus : Z; r_scause : Z; r_sepc : Z; r_stval : Z; r_satp : Z; r_tp : Z
}.

(** The interrupt the PLIC reports, the bytes in the UART, and the answers
    of its status register. *)
#[projections(primitive)]
Record devinput : Type := mkDevinput { d_irq : Z; d_rx : list Z; d_lsr : list bool }.

(** stvec, sstatus, sepc and the page table to switch to *)
#[projections(primitive)]
Record userregs : Type := mkUserregs { u_stvec : Z; u_sstatus : Z; u_sepc : Z; u_satp : Z }.

(** Addresses of the two entry points in the trampoline page. *)
Class Trampoline : Type := { l_uservec : Z; l_userret : Z }.

Section Trap.
Context {L : Layout} {T : Trampoline}.

(** ** Dispatch *)

(** [syscalls[num]], in the order of syscall.h. *)
Definition syscalls (num : Z) (lsr : Z -> list bool) : option (K Z) :=
  if num =? 1 then Some sys_fork
  else if num =? 2 then Some sys_exit
  else if num =? 3 then Some sys_wait
  else if num =? 4 then Some sys_pipe
  else if num =? 5 then Some sys_read
  else if num =? 6 then Some sys_kill
  else if num =? 7 then Some sys_exec
  else if num =? 8 then Some sys_fstat
  else if num =? 9 then Some sys_chdir
  else if num =? 10 then Some sys_dup
  else if num =? 11 then Some sys_getpid
  else if num =? 12 then Some sys_sbrk
  else if num =? 13 then Some sys_sleep
  else if num =? 14 then Some sys_uptime
  else if num =? 15 then Some sys_open
  else if num =? 16 then Some (sys_write lsr)
  else if num =? 17 then Some sys_mknod
  else if num =? 18 then Some sys_unlink
  else if num =? 19 then Some sys_link
  else if num =? 20 then Some sys_mkdir
  else if num =? 21 then Some sys_close
  else if num =? 22 then Some sys_memsize
  else if num =? 23 then Some sys_forkn
  else if num =? 24 then Some sys_waitall
  else None.

Definition syscall (lsr : Z -> list bool) : K unit :=
  let! p := myproc_ in
  let! a7 := tf_get p tf_a7 in
  let num := s32 a7 in
  match syscalls num lsr with
  | Some f => let! r := f in tf_set p tf_a0 r
  | None =>
      let! pr := gets (fun s => get_proc s p) in
      printf ("%d %s: unknown sys call %d" +:+ nl) [Aint (p_pid pr); Astr (Some (cstr (p_name pr))); Aint num] ;;;
      tf_set p tf_a0 (-1)
  end.

(** ** Interrupts *)

Definition clockintr : K unit :=
  acquire tickslock ;;;
  modify (fun s => set_k_ticks (u32 (k_ticks s + 1)) s) ;;;
  wakeup ch_ticks ;;;
  release tickslock.

(** 2 for the timer, 1 for another device, 0 if not recognized. *)
Definition devintr (tr : trapregs) (di : devinput) (virtio_disk_intr : K unit) : K Z :=
  let scause := r_scause tr in
  if negb (Z.land scause 0x8000000000000000 =? 0) && (Z.land scause 0xff =? 9) then
    let irq := d_irq di in
    (if irq =? UART0_IRQ then uartintr (d_rx di) (d_lsr di)
     else if irq =? VIRTIO0_IRQ then virtio_disk_intr
     else if negb (irq =? 0) then printf ("unexpected interrupt irq=%d" +:+ nl) [Aint irq]
     else ret tt) ;;;
    ret 1
  else if scause =? 0x8000000000000001 then
    (if r_tp tr =? 0 then clockintr else ret tt) ;;;
    ret 2
  else ret 0.

(** ** Traps from user space, and back *)

Definition usertrapret (tr : trapregs) : K userregs :=
  let! p := myproc_ in
  tf_set p tf_kernel_satp (r_satp tr) ;;;
  let! kstack := gets (fun s => p_kstack (get_proc s p)) in
  tf_set p tf_kernel_sp (u64 (kstack + PGSIZE)) ;;;
  tf_set p tf_kernel_trap l_usertrap ;;;
  tf_set p tf_kernel_hartid (r_tp tr) ;;;
  let x := Z.lor (Z.land (r_sstatus tr) (Z.lnot SSTATUS_SPP)) SSTATUS_SPIE in
  let! epc := tf_get p tf_epc in
  let! pt := gets (fun s => p_pagetable (get_proc s p)) in
  ret (mkUserregs (TRAMPOLINE + (l_uservec - l_trampoline)) x epc (MAKE_SATP pt)).

Definition usertrap (tr : trapregs) (di : devinput) (vd : K unit) (lsr : Z -> list bool) : K userregs :=
  if negb (Z.land (r_sstatus tr) SSTATUS_SPP =? 0) then panic "usertrap: not from user mode"
  else
    let! p := myproc_ in
    tf_set p tf_epc (r_sepc tr) ;;;
    let! which_dev :=
      (if r_scause tr =? 8 then
         let! kd := killed p in
         (if negb (kd =? 0) then exit (-1) [] else ret tt) ;;;
         let! epc := tf_get p tf_epc in
         tf_set p tf_epc (u64 (epc + 4)) ;;;
         syscall lsr ;;;
         ret 0
       else
         let! d := devintr tr di vd in
         if negb (d =? 0) then ret d
         else
           let! pid := gets (fun s => p_pid (get_proc s p)) in
           printf ("usertrap(): unexpected scause %p pid=%d" +:+ nl) [Aptr (r_scause tr); Aint pid] ;;;
           printf ("            sepc=%p stval=%p" +:+ nl) [Aptr (r_sepc tr); Aptr (r_stval tr)] ;;;
           setkilled p ;;;
           ret 0) in
    let! kd := killed p in
    (if negb (kd =? 0) then exit (-1) [] else ret tt) ;;;
    (if which_dev =? 2 then yield else ret tt) ;;;
    usertrapret tr.

(** A process that yielded in [usertrap] goes on here. *)
Definition usertrap_resume (tr : trapregs) : K userregs :=
  let! p := myproc_ in
  release (proc_lock p) ;;;
  usertrapret tr.

(** [forkret]: [first] is its static variable. *)
Definition forkret (first : bool) (tr : trapregs) : K userregs :=
  let! p := myproc_ in
  release (proc_lock p) ;;;
  (if first then fsinit ROOTDEV else ret tt) ;;;
  usertrapret tr.

(** ** Traps from the kernel *)

(** The values of sepc and sstatus that are restored. *)
Definition kerneltrap (tr : trapregs) (di : devinput) (vd : K unit) : K (Z * Z) :=
  if Z.land (r_sstatus tr) SSTATUS_SPP =? 0 then panic "kerneltrap: not from supervisor mode"
  else if negb (Z.land (r_sstatus tr) SSTATUS_SIE =? 0) then panic "kerneltrap: interrupts enabled"
  else
    let! d := devintr tr di vd in
    if d =? 0 then
      printf ("scause %p" +:+ nl) [Aptr (r_scause tr)] ;;;
      printf ("sepc=%p stval=%p" +:+ nl) [Aptr (r_sepc tr); Aptr (r_stval tr)] ;;;
      panic "kerneltrap"
    else
      let! me := myproc in
      let! running := (match me with
                       | Some p => gets (fun s => bool_decide (p_state (get_proc s p) = RUNNING))
                       | None => ret false
                       end) in
      (if (d =? 2) && running then yield else ret tt) ;;;
      ret (r_sepc tr, r_sstatus tr).

End Trap.
