(* ===== verification/Main.v ===== *)
(** * kernel/main.c: booting the first CPU

    The initialisation of CPU 0 in the order of [main]; turning on paging,
    the trap vector and the PLIC are writes to hardware and have no effect on
    the state modelled here.  The disk's answers are the argument of
    [virtio_disk_init]. *)

From S2P Require Import Prelude KString Bytes Ring KState Riscv Spinlock Kalloc Vm Sched Uart Console Sleeplock.
From S2P Require Import Bio Log Fs Pipe File Proc VirtioInit Exec Syscall SysFile Trap.

Section Main.
Context {L : Layout} (answer : list mmio -> Z -> Z).

(** The root of the kernel's page table is returned. *)
Definition main : IO Z :=
  inK (printf nl []) ;;;
  inK (printf ("xv6 kernel is booting" +:+ nl) []) ;;;
  inK (printf nl []) ;;;
  inK kinit ;;;
  let! kernel_pagetable := inK kvmmake in
  inK procinit ;;;
  inK binit ;;;
  inK iinit ;;;
  let! disk := virtio_disk_init answer in
  inK userinit ;;;
  ret kernel_pagetable.

End Main.
