(* ===== verification/Balance.v ===== *)
(** * Balance of kernel resources

    The resources a process takes and gives back in the kernel: spin locks,
    inode locks, locked buffers and operations of the log.  A small program
    logic ([tri]) tracks them through the code; code that gives back what it
    took is balanced ([bal]).  This file has the logic, its automation, and
    the balance of memory, devices, the buffer cache, the log, the file
    system, pipes and files; [BalanceSys] has processes and system calls. *)

From S2P Require Import Prelude KString Bytes Ring KState Riscv Spinlock Kalloc Vm Sched Uart Console Sleeplock.
From S2P Require Import Bio Log Fs Pipe File.

(** ** Resources *)

(** The spin locks held, which inodes and which buffers are locked, and the
    operations in the log. *)
#[projections(primitive)]
Record rsrc : Type := mkRsrc {
  r_spin : list lock;
  r_inode : list bool;
  r_buf : list bool;
  r_ops : Z
}.

Definition rsrc_of (s : kstate) : rsrc :=
  mkRsrc (k_held s) ((fun ip => sl_locked (i_lock ip)) <$> k_inodes s)
    ((fun b => sl_locked (b_lock b)) <$> k_bufs s) (log_outstanding (k_log s)).

Definition with_spin (f : list lock -> list lock) (R : rsrc) : rsrc :=
  mkRsrc (f (r_spin R)) (r_inode R) (r_buf R) (r_ops R).
Definition with_ops (d : Z) (R : rsrc) : rsrc :=
  mkRsrc (r_spin R) (r_inode R) (r_buf R) (r_ops R + d).
Definition with_sl (id : sleeplock_id) (v : bool) (R : rsrc) : rsrc :=
  match id with
  | sl_inode i => mkRsrc (r_spin R) (<[i := v]> (r_inode R)) (r_buf R) (r_ops R)
  | sl_buf i => mkRsrc (r_spin R) (r_inode R) (<[i := v]> (r_buf R)) (r_ops R)
  end.

(** A sleep lock that is free, or does not exist. *)
Definition sl_free (id : sleeplock_id) (R : rsrc) : Prop :=
  match id with
  | sl_inode i => r_inode R !! i <> Some true
  | sl_buf i => r_buf R !! i <> Some true
  end.

(** If [m] runs with the resources [R] and returns, then with [Q]. *)
Definition tri {A} (R : rsrc) (m : K A) (Q : A -> rsrc -> Prop) : Prop :=
  forall s a s', rsrc_of s = R -> m s = Ok a s' -> Q a (rsrc_of s').

Definition bal {A} (m : K A) : Prop := forall R, tri R m (fun _ R' => R' = R).

(** [m] never returns. *)
Definition never {A} (m : K A) : Prop := forall s a s', m s <> Ok a s'.

(** ** The rules *)

Lemma bind_inv {A B} (m : K A) (k : A -> K B) s b s' :
  (let! x := m in k x) s = Ok b s' -> exists a s1, m s = Ok a s1 /\ k a s1 = Ok b s'.
Proof. unfold bind. destruct (m s) as [a s1| | | |]; intros H; try done. by exists a, s1. Qed.

Lemma tri_bind {A B} R (m : K A) (k : A -> K B) P Q :
  tri R m P -> (forall a R', P a R' -> tri R' (k a) Q) -> tri R (let! x := m in k x) Q.
Proof.
  intros Hm Hk s b s' HR (a & s1 & E1 & E2)%bind_inv. exact (Hk a _ (Hm _ _ _ HR E1) _ _ _ eq_refl E2).
Qed.

Lemma tri_bal {A B} R (m : K A) (k : A -> K B) Q :
  bal m -> (forall a, tri R (k a) Q) -> tri R (let! x := m in k x) Q.
Proof. intros Hm Hk. eapply tri_bind; [apply Hm|]. by intros a R' ->. Qed.

Lemma tri_assoc {A B C} R (m : K A) (f : A -> K B) (k : B -> K C) Q :
  tri R (let! x := m in let! y := f x in k y) Q -> tri R (let! y := (let! x := m in f x) in k y) Q.
Proof. intros H s a s' HR E. apply (H s a s' HR). by rewrite bind_assoc in E. Qed.

Lemma tri_ret {A} R (a : A) (Q : A -> rsrc -> Prop) : Q a R -> tri R (ret a) Q.
Proof. intros H s a' s' <- [= <- <-]. exact H. Qed.

Lemma tri_weaken {A} R (m : K A) (P Q : A -> rsrc -> Prop) : tri R m P -> (forall a R', P a R' -> Q a R') -> tri R m Q.
Proof. intros H HPQ s a s' HR E. apply HPQ. by eapply H. Qed.

Lemma tri_of_bal {A} R (m : K A) (Q : A -> rsrc -> Prop) : bal m -> (forall a, Q a R) -> tri R m Q.
Proof. intros H HQ. eapply tri_weaken; [apply H|]. by intros a R' ->. Qed.

Lemma tri_never {A} R (m : K A) Q : never m -> tri R m Q.
Proof. intros H s a s' _ E. by destruct (H s a s'). Qed.

Lemma tri_never_bind {A B} R (m : K A) (k : A -> K B) Q : never m -> tri R (let! x := m in k x) Q.
Proof. intros H s a s' _ (b & s1 & E & _)%bind_inv. by destruct (H s b s1). Qed.

Lemma never_bind_l {A B} (m : K A) (k : A -> K B) : never m -> never (let! x := m in k x).
Proof. intros H s a s' (b & s1 & E & _)%bind_inv. by destruct (H s b s1). Qed.

Lemma never_bind_r {A B} (m : K A) (k : A -> K B) : (forall a, never (k a)) -> never (let! x := m in k x).
Proof. intros H s a s' (b & s1 & _ & E)%bind_inv. by destruct (H b s1 a s'). Qed.

Lemma never_panic {A} msg : never (panic msg : K A). Proof. done. Qed.
Lemma never_fault {A} msg : never (fault msg : K A). Proof. done. Qed.
Lemma never_nofuel {A} : never (nofuel : K A). Proof. done. Qed.
Lemma never_sleeps {A} : never ((fun s => Sleeps s) : K A). Proof. done. Qed.

Lemma bal_ret {A} (a : A) : bal (ret a).
Proof. intros R. by apply tri_ret. Qed.
Lemma bal_gets {A} (f : kstate -> A) : bal (gets f).
Proof. intros R s a s' <- [= <- <-]. done. Qed.
Lemma bal_modify f : (forall s, rsrc_of (f s) = rsrc_of s) -> bal (modify f).
Proof. intros H R s a s' <- [= <- <-]. apply H. Qed.

(** ** Spin locks *)

Lemma tri_acquire {B} R l (k : unit -> K B) Q :
  (l ∉ r_spin R -> tri (with_spin (cons l) R) (k tt) Q) -> tri R (let! x := acquire l in k x) Q.
Proof.
  intros H s b s' <- ([] & s1 & E1 & E2)%bind_inv. unfold acquire in E1. case_decide as Hl; [done|].
  injection E1 as <-. exact (H Hl (set_k_held (l :: k_held s) s) b s' eq_refl E2).
Qed.

Lemma tri_release {B} R l (k : unit -> K B) Q :
  tri (with_spin (remove lock_eq_dec l) R) (k tt) Q -> tri R (let! x := release l in k x) Q.
Proof.
  intros H s b s' <- ([] & s1 & E1 & E2)%bind_inv. unfold release in E1. case_decide; [|done].
  injection E1 as <-. exact (H (set_k_held (remove lock_eq_dec l (k_held s)) s) b s' eq_refl E2).
Qed.

Lemma tri_release_end R l (Q : unit -> rsrc -> Prop) :
  Q tt (with_spin (remove lock_eq_dec l) R) -> tri R (release l) Q.
Proof. intros H s [] s' <- E. unfold release in E. case_decide; [|done]. by injection E as <-. Qed.

Lemma tri_acquire_end R l (Q : unit -> rsrc -> Prop) :
  (l ∉ r_spin R -> Q tt (with_spin (cons l) R)) -> tri R (acquire l) Q.
Proof. intros H s [] s' <- E. unfold acquire in E. case_decide; [done|]. injection E as <-. by apply H. Qed.

Lemma remove_fresh l H : l ∉ H -> remove lock_eq_dec l H = H.
Proof. intros Hl. apply notin_remove. intros Hi. apply Hl. by apply list_elem_of_In. Qed.

Lemma remove_top l H : l ∉ H -> remove lock_eq_dec l (l :: H) = H.
Proof. intros Hl. rewrite remove_cons. by apply remove_fresh. Qed.

Lemma remove_second l l' H : l' ∉ l :: H -> l ∉ H -> remove lock_eq_dec l (l' :: l :: H) = l' :: H.
Proof.
  intros Hl' Hl. cbn [remove]. destruct (lock_eq_dec l l') as [->|_]; [by destruct Hl'; left|].
  f_equal. by apply remove_top.
Qed.

(** ** Sleep locks *)

Lemma unlock_list i (L : list bool) : L !! i <> Some true -> <[i := false]> (<[i := true]> L) = L.
Proof.
  intros H. rewrite list_insert_insert_eq. destruct (L !! i) as [[]|] eqn:E; [done|by apply list_insert_id|].
  apply list_insert_ge. by apply lookup_ge_None.
Qed.

Lemma unlock_under i j (L : list bool) :
  <[j := true]> L !! i <> Some true -> L !! j <> Some true -> <[j := false]> (<[i := true]> (<[j := true]> L)) = <[i := true]> L.
Proof.
  intros Hi Hj. destruct (decide (i = j)) as [->|Hne].
  - destruct (decide (j < length L)%nat) as [Hl|Hl]; [by rewrite list_lookup_insert_eq in Hi|].
    rewrite !list_insert_ge by (rewrite ?length_insert; lia). done.
  - rewrite list_insert_insert_ne by done. by rewrite unlock_list.
Qed.

Lemma free_under i j (L : list bool) :
  <[j := true]> L !! i <> Some true -> L !! j <> Some true -> L !! i <> Some true.
Proof. intros Hi Hj. destruct (decide (i = j)) as [->|Hne]; [done|]. by rewrite list_lookup_insert_ne in Hi. Qed.

Lemma fmap_alter_same {A B} (g : A -> B) f i (l : list A) : (forall x, g (f x) = g x) -> g <$> alter f i l = g <$> l.
Proof.
  intros H. revert i. induction l as [|x l IH]; intros [|i]; cbn; [done|done|by rewrite H|]. f_equal. apply IH.
Qed.

Lemma fmap_alter_const {A B} (g : A -> B) f v i (l : list A) : (forall x, g (f x) = v) -> g <$> alter f i l = <[i := v]> (g <$> l).
Proof.
  intros H. revert i. induction l as [|x l IH]; intros [|i]; cbn; [done|done|by rewrite H|]. f_equal. apply IH.
Qed.

Lemma rsrc_upd_inode i f s : (forall ip, i_lock (f ip) = i_lock ip) -> rsrc_of (upd_inode i f s) = rsrc_of s.
Proof.
  intros H. unfold rsrc_of, upd_inode. cbn. f_equal. apply (fmap_alter_same (fun ip => sl_locked (i_lock ip))).
  intros x. by rewrite H.
Qed.

Lemma rsrc_upd_buf i f s : (forall b, b_lock (f b) = b_lock b) -> rsrc_of (upd_buf i f s) = rsrc_of s.
Proof.
  intros H. unfold rsrc_of, upd_buf. cbn. f_equal. apply (fmap_alter_same (fun b => sl_locked (b_lock b))).
  intros x. by rewrite H.
Qed.

Lemma rsrc_upd_sl id v s : rsrc_of (upd_sl id v s) = with_sl id (sl_locked v) (rsrc_of s).
Proof.
  destruct id as [i|i]; cbn; unfold rsrc_of, upd_inode, upd_buf, with_sl; cbn; f_equal.
  - by apply (fmap_alter_const (fun ip => sl_locked (i_lock ip))).
  - by apply (fmap_alter_const (fun b => sl_locked (b_lock b))).
Qed.

Lemma get_sl_free id s : sl_locked (get_sl s id) = false -> sl_free id (rsrc_of s).
Proof.
  destruct id as [i|i]; cbn; unfold get_inode, get_buf; rewrite list_lookup_fmap;
    [destruct (k_inodes s !! i)|destruct (k_bufs s !! i)]; cbn; congruence.
Qed.

Lemma tri_get_sl {B} R id (k : sleeplock -> K B) Q :
  (forall lk, (sl_locked lk = false -> sl_free id R) -> tri R (k lk) Q) -> tri R (let! lk := gets (fun s => get_sl s id) in k lk) Q.
Proof. intros H s b s' <- E. refine (H (get_sl s id) _ s b s' eq_refl E). apply get_sl_free. Qed.

Lemma tri_get_log {B} R (k : logstate -> K B) Q :
  (forall lg, log_outstanding lg = r_ops R -> tri R (k lg) Q) -> tri R (let! lg := gets (fun s => k_log s) in k lg) Q.
Proof. intros H s b s' <- E. exact (H (k_log s) eq_refl s b s' eq_refl E). Qed.

Lemma tri_modify {B} R f g (k : unit -> K B) Q :
  (forall s, rsrc_of (f s) = g (rsrc_of s)) -> tri (g R) (k tt) Q -> tri R (let! x := modify f in k x) Q.
Proof. intros Hf H s b s' <- E. exact (H (f s) b s' (Hf s) E). Qed.

(** ** Automation *)

Lemma bal_intro {A} (m : K A) :
  (forall H I B O, tri (mkRsrc H I B O) m (fun _ R' => R' = mkRsrc H I B O)) -> bal m.
Proof. intros Hm [H I B O]. apply Hm. Qed.

Lemma never_elim {A} (m : K A) s a s' : never m -> m s = Ok a s' -> False.
Proof. intros H. by apply H. Qed.

Lemma bal_elim {A} (m : K A) s a s' : bal m -> m s = Ok a s' -> rsrc_of s' = rsrc_of s.
Proof. intros H. by apply H. Qed.

Lemma rsrc_eq s s' :
  rsrc_of s' = rsrc_of s ->
  k_held s' = k_held s /\
  (forall i, sl_locked (i_lock (get_inode s' i)) = sl_locked (i_lock (get_inode s i))) /\
  (forall i, sl_locked (b_lock (get_buf s' i)) = sl_locked (b_lock (get_buf s i))) /\
  log_outstanding (k_log s') = log_outstanding (k_log s).
Proof.
  intros H. split; [exact (f_equal r_spin H)|]. split; [|split; [|exact (f_equal r_ops H)]]; intros i.
  - pose proof (f_equal (fun R => r_inode R !! i) H) as E. cbn in E. rewrite !list_lookup_fmap in E.
    unfold get_inode. destruct (k_inodes s' !! i), (k_inodes s !! i); cbn in *; congruence.
  - pose proof (f_equal (fun R => r_buf R !! i) H) as E. cbn in E. rewrite !list_lookup_fmap in E.
    unfold get_buf. destruct (k_bufs s' !! i), (k_bufs s !! i); cbn in *; congruence.
Qed.

#[global] Opaque bal tri never.

Create HintDb bal discriminated.
#[export] Hint Constants Opaque : bal.
#[export] Hint Resolve bal_ret bal_gets : bal.
#[export] Hint Resolve never_panic never_fault never_nofuel : bal.
#[export] Hint Extern 4 (bal (modify _)) =>
  apply bal_modify; intros ?; first [reflexivity | apply rsrc_upd_inode; reflexivity | apply rsrc_upd_buf; reflexivity
    | case_match; reflexivity] : bal.

Lemma tri_ret_bind {A B} R (a : A) (k : A -> K B) Q : tri R (k a) Q -> tri R (let! x := ret a in k x) Q.
Proof. intros H. exact H. Qed.

(** Computes the resources after a step. *)
Ltac rcompute R := eval cbv [with_spin with_ops with_sl r_spin r_inode r_buf r_ops] in R.

Ltac rfresh :=
  first [assumption | eapply free_under; eassumption | eapply not_elem_of_cons; eassumption].

Ltac rsimpl :=
  repeat match goal with
  | H : _ ∉ r_spin _ |- _ => cbv [r_spin] in H
  | H : sl_free _ _ |- _ => cbv [sl_free r_inode r_buf] in H
  end;
  lazymatch goal with
  | |- tri ?R ?m ?Q => let R' := rcompute R in change (tri R' m Q)
  | |- ?G => let G' := rcompute G in change G'
  end;
  repeat first [rewrite remove_second by assumption | rewrite remove_top by rfresh
               | rewrite unlock_under by assumption | rewrite unlock_list by rfresh].

(** One step of the code: control flow, locks, and calls with a triple or a
    balance in the hint database. *)
Ltac rstep :=
  lazymatch goal with
  | |- tri _ (bind (bind _ _) _) _ => apply tri_assoc
  | |- tri _ (bind (ret _) _) _ => apply tri_ret_bind; cbv beta
  | |- tri _ (bind (acquire _) _) _ => apply tri_acquire; intros ?; rsimpl
  | |- tri _ (bind (release _) _) _ => apply tri_release; rsimpl
  | |- tri _ (acquire _) _ => apply tri_acquire_end; intros ?; rsimpl
  | |- tri _ (release _) _ => apply tri_release_end; rsimpl
  | |- tri _ (ret _) _ => apply tri_ret
  | |- tri _ (let '(_, _) := ?x in _) _ => destruct x
  | |- tri _ (if ?b then _ else _) _ => destruct b
  | |- tri _ (match ?x with _ => _ end) _ => destruct x
  | |- tri _ (bind ?m _) _ =>
      first [ apply tri_bal; [solve [eauto 2 with bal]|intros ?; cbv beta]
            | apply tri_never_bind; solve [eauto 2 with bal]
            | eapply tri_bind; [solve [eauto 2 with bal]|cbv beta; intros; destruct_and?; try subst; rsimpl]
            | lazymatch m with
              | if ?b then _ else _ => first [apply tri_bal; [solve [rbal]|intros ?; cbv beta] | destruct b]
              | match ?x with _ => _ end => first [apply tri_bal; [solve [rbal]|intros ?; cbv beta] | destruct x]
              end ]
  | |- tri _ ?m _ =>
      first [ apply tri_of_bal; [solve [eauto 2 with bal]|intros ?]
            | apply tri_never; solve [eauto 2 with bal]
            | eapply tri_weaken; [solve [eauto 2 with bal]|cbv beta; intros; destruct_and?; try subst; rsimpl] ]
  end
with rbal := first [ solve [eauto 2 with bal] | apply bal_intro; intros ? ? ? ?; repeat rstep; first [reflexivity | rsimpl; reflexivity | rsimpl; f_equal; lia] ].

Lemma bal_kfree `{L : Layout} pa : bal (kfree pa).
Proof. unfold kfree. rbal. Qed.

(** ** Processes, memory and devices *)

(** [m] gives up the lock [l], which it is called with. *)
Definition unlocks {A} (l : lock) (m : K A) : Prop :=
  forall H I B O, l ∉ H -> tri (mkRsrc (l :: H) I B O) m (fun _ R' => R' = mkRsrc H I B O).

Lemma tri_unlocks {A} l (m : K A) H I B O :
  unlocks l m -> l ∉ H -> tri (mkRsrc (l :: H) I B O) m (fun _ R' => R' = mkRsrc H I B O).
Proof. intros Hm Hl. by apply Hm. Qed.

#[global] Opaque unlocks.
#[export] Hint Resolve tri_unlocks : bal.

Lemma unlocks_intro {A} l (m : K A) :
  (forall H I B O, l ∉ H -> tri (mkRsrc (l :: H) I B O) m (fun _ R' => R' = mkRsrc H I B O)) -> unlocks l m.
Proof. done. Qed.

Ltac runlocks := apply unlocks_intro; intros; repeat rstep; first [reflexivity | rsimpl; reflexivity | rsimpl; f_equal; lia].

Lemma bal_myproc : bal myproc.
Proof. unfold myproc. rbal. Qed.
Lemma bal_myproc_ : bal myproc_.
Proof. unfold myproc_, myproc. rbal. Qed.
Lemma bal_proc_set i f : bal (proc_set i f).
Proof. unfold proc_set. rbal. Qed.
#[export] Hint Resolve bal_kfree bal_myproc bal_myproc_ bal_proc_set : bal.

Lemma bal_kalloc : bal kalloc.
Proof. unfold kalloc. rbal. Qed.
Lemma bal_read64 a : bal (read64 a).
Proof. unfold read64. rbal. Qed.
Lemma bal_write64 a v : bal (write64 a v).
Proof. unfold write64. rbal. Qed.
Lemma bal_fill_page a c : bal (fill_page a c).
Proof. unfold fill_page. rbal. Qed.
#[export] Hint Resolve bal_kalloc bal_read64 bal_write64 bal_fill_page : bal.

Lemma bal_walk pt va al : bal (walk pt va al).
Proof.
  unfold walk. assert (H : forall n pt, bal (walk_loop n pt va al)); [|rbal].
  induction n as [|n IH]; intros p; cbn [walk_loop]; rbal.
Qed.
#[export] Hint Resolve bal_walk : bal.

Lemma bal_walkaddr pt va : bal (walkaddr pt va).
Proof. unfold walkaddr. rbal. Qed.
Lemma bal_mappages pt va sz pa perm : bal (mappages pt va sz pa perm).
Proof.
  unfold mappages. assert (H : forall n pt a last pa, bal (mappages_loop n pt a last pa perm)); [|rbal].
  induction n as [|n IH]; intros; cbn [mappages_loop]; rbal.
Qed.
#[export] Hint Resolve bal_walkaddr bal_mappages : bal.

Lemma bal_copyout pt va src : bal (copyout pt va src).
Proof.
  unfold copyout. generalize (length src) as n. intros n. revert va src.
  induction n as [|n IH]; intros; destruct src; cbn [copyout_loop]; rbal.
Qed.
Lemma bal_copyin pt va len : bal (copyin pt va len).
Proof.
  unfold copyin. generalize (Z.to_nat len) as n. intros n. revert va len. induction n as [|n IH]; intros; cbn [copyin_loop]; rbal.
Qed.
Lemma bal_copyinstr pt va max : bal (copyinstr pt va max).
Proof.
  unfold copyinstr. generalize (Z.to_nat max) as n. intros n. revert va max. induction n as [|n IH]; intros; cbn [copyinstr_loop]; rbal.
Qed.
#[export] Hint Resolve bal_copyout bal_copyin bal_copyinstr : bal.

Lemma bal_either_copyout d bs : bal (either_copyout d bs).
Proof. unfold either_copyout. rbal. Qed.
Lemma bal_either_copyin d n : bal (either_copyin d n).
Proof. unfold either_copyin. rbal. Qed.
#[export] Hint Resolve bal_either_copyout bal_either_copyin : bal.

Lemma bal_allocpid : bal allocpid.
Proof. unfold allocpid. rbal. Qed.
Lemma bal_wakeup ch : bal (wakeup ch).
Proof. unfold wakeup. induction (seq 0 NPROC) as [|i ix IH]; cbn [wakeup_loop]; rbal. Qed.
Lemma bal_kill pid : bal (kill pid).
Proof. unfold kill. induction (seq 0 NPROC) as [|i ix IH]; cbn [kill_loop]; rbal. Qed.
Lemma bal_setkilled i : bal (setkilled i).
Proof. unfold setkilled. rbal. Qed.
Lemma bal_killed i : bal (killed i).
Proof. unfold killed. rbal. Qed.
#[export] Hint Resolve bal_allocpid bal_wakeup bal_kill bal_setkilled bal_killed : bal.

(** A process that is switched out does not return. *)
Lemma never_sched : never sched.
Proof.
  unfold sched. do 3 (apply never_bind_r; intros ?). repeat case_match; auto with bal. apply never_sleeps.
Qed.
Lemma never_sleep ch lk : never (sleep ch lk).
Proof. unfold sleep. do 5 (apply never_bind_r; intros ?). apply never_sched. Qed.
Lemma never_sleep_on A ch lk : never (@sleep_on A ch lk).
Proof. unfold sleep_on. apply never_bind_l, never_sleep. Qed.
Lemma never_yield : never yield.
Proof. unfold yield. do 3 (apply never_bind_r; intros ?). apply never_bind_l, never_sched. Qed.
#[export] Hint Resolve never_sched never_sleep never_sleep_on never_yield : bal.

Lemma bal_thr_write c : bal (thr_write c).
Proof. unfold thr_write. rbal. Qed.
#[export] Hint Resolve bal_thr_write : bal.
Lemma bal_consputc c : bal (consputc c).
Proof. unfold consputc, uartputc_sync. rbal. Qed.
#[export] Hint Resolve bal_consputc : bal.
Lemma bal_consputs cs : bal (consputs cs).
Proof. induction cs; cbn [consputs]; rbal. Qed.
#[export] Hint Resolve bal_consputs : bal.
Lemma bal_printint x b g : bal (printint x b g).
Proof. unfold printint. rbal. Qed.
Lemma bal_printptr x : bal (printptr x).
Proof. unfold printptr. rbal. Qed.
#[export] Hint Resolve bal_printint bal_printptr : bal.

Lemma bal_printf_loop n : forall fmt ap, (length fmt < n)%nat -> bal (printf_loop fmt ap).
Proof.
  induction n as [|n IH]; intros fmt ap Hn; [lia|]. destruct fmt as [|c fmt]; cbn [printf_loop]; [rbal|]. cbn in Hn.
  assert (H1 : forall ap, bal (printf_loop fmt ap)) by (intros; apply IH; lia).
  assert (H2 : forall c' fmt' ap, fmt = c' :: fmt' -> bal (printf_loop fmt' ap)) by (intros ? ? ? ->; apply IH; cbn in Hn; lia).
  destruct fmt as [|c' fmt']; [rbal|]. pose proof (fun ap => H2 c' fmt' ap eq_refl) as H3. rbal.
Qed.
Lemma bal_printf fmt ap : bal (printf fmt ap).
Proof. unfold printf. pose proof (bal_printf_loop _ (str fmt) ap (Nat.lt_succ_diag_r _)). rbal. Qed.
#[export] Hint Resolve bal_printf : bal.

Lemma bal_uartstart lsr : bal (uartstart lsr).
Proof. induction lsr as [|b lsr IH]; cbn [uartstart]; rbal. Qed.
#[export] Hint Resolve bal_uartstart : bal.
Lemma unlocks_uartputc_loop lsr c : unlocks uart_tx_lock (uartputc_loop lsr c).
Proof. unfold uartputc_loop. runlocks. Qed.
#[export] Hint Resolve unlocks_uartputc_loop : bal.
Lemma bal_uartputc lsr c : bal (uartputc lsr c).
Proof. unfold uartputc. rbal. Qed.
#[export] Hint Resolve bal_uartputc : bal.

(** ** Sleep locks and the buffer cache *)

Lemma tri_acquiresleep R id :
  tri R (acquiresleep id) (fun _ R' => sl_free id R /\ R' = with_sl id true R).
Proof.
  destruct R as [H I B O]. unfold acquiresleep, acquiresleep_loop. rstep.
  apply tri_get_sl. intros lk Hf. destruct (sl_locked lk); [rstep|]. specialize (Hf eq_refl).
  rstep. apply (tri_modify _ _ (with_sl id true)); [intros s; apply rsrc_upd_sl|].
  destruct id; cbn in Hf; rsimpl; rstep; by split.
Qed.

Lemma tri_releasesleep R id : tri R (releasesleep id) (fun _ R' => R' = with_sl id false R).
Proof.
  destruct R as [H I B O]. unfold releasesleep. rstep. apply (tri_modify _ _ (with_sl id false)); [intros s; apply rsrc_upd_sl|].
  destruct id; rsimpl; repeat rstep; done.
Qed.

Lemma bal_holdingsleep id : bal (holdingsleep id).
Proof. unfold holdingsleep. rbal. Qed.
#[export] Hint Resolve tri_acquiresleep tri_releasesleep bal_holdingsleep : bal.

Lemma bal_virtio_disk_rw i w : bal (virtio_disk_rw i w).
Proof. unfold virtio_disk_rw. rbal. Qed.
#[export] Hint Resolve bal_virtio_disk_rw : bal.

Lemma tri_bget R dev b :
  tri R (bget dev b) (fun i R' => sl_free (sl_buf i) R /\ R' = with_sl (sl_buf i) true R).
Proof. destruct R as [H I B O]. unfold bget. repeat rstep; by split. Qed.
#[export] Hint Resolve tri_bget : bal.

Lemma tri_bread R dev b :
  tri R (bread dev b) (fun i R' => sl_free (sl_buf i) R /\ R' = with_sl (sl_buf i) true R).
Proof. destruct R as [H I B O]. unfold bread. repeat rstep; by split. Qed.

Lemma tri_brelse R i : tri R (brelse i) (fun _ R' => R' = with_sl (sl_buf i) false R).
Proof.
  destruct R as [H I B O]. unfold brelse. repeat rstep; try done.
Qed.

Lemma bal_bwrite i : bal (bwrite i).
Proof. unfold bwrite. rbal. Qed.
Lemma bal_bpin i : bal (bpin i).
Proof. unfold bpin. rbal. Qed.
Lemma bal_bunpin i : bal (bunpin i).
Proof. unfold bunpin. rbal. Qed.
Lemma bal_bdata i : bal (bdata i).
Proof. unfold bdata. rbal. Qed.
Lemma bal_set_bdata i d : bal (set_bdata i d).
Proof. unfold set_bdata. rbal. Qed.
#[export] Hint Resolve tri_bread tri_brelse bal_bwrite bal_bpin bal_bunpin bal_bdata bal_set_bdata : bal.

(** ** The log *)

Lemma bal_lh_get i : bal (lh_get i).
Proof. unfold lh_get. rbal. Qed.
Lemma bal_lh_set i v : bal (lh_set i v).
Proof. unfold lh_set. rbal. Qed.
#[export] Hint Resolve bal_lh_get bal_lh_set : bal.

Lemma bal_install_trans rec : bal (install_trans rec).
Proof.
  unfold install_trans. assert (H : forall ix, bal (install_trans_loop ix rec)); [|rbal].
  induction ix as [|t ix IH]; cbn [install_trans_loop]; rbal.
Qed.
Lemma bal_write_log : bal write_log.
Proof.
  unfold write_log. assert (H : forall ix, bal (write_log_loop ix)); [|rbal].
  induction ix as [|t ix IH]; cbn [write_log_loop]; rbal.
Qed.
Lemma bal_write_head : bal write_head.
Proof.
  unfold write_head. assert (H : forall b ix, bal (write_head_loop ix b)); [|rbal].
  intros b. induction ix as [|t ix IH]; cbn [write_head_loop]; rbal.
Qed.
Lemma bal_read_head : bal read_head.
Proof.
  unfold read_head. assert (H : forall d ix, bal (read_head_loop ix d)); [|rbal].
  intros d. induction ix as [|t ix IH]; cbn [read_head_loop]; rbal.
Qed.
#[export] Hint Resolve bal_install_trans bal_write_log bal_write_head bal_read_head : bal.

Lemma bal_commit : bal commit.
Proof. unfold commit. rbal. Qed.
Lemma bal_recover_from_log : bal recover_from_log.
Proof. unfold recover_from_log. rbal. Qed.
#[export] Hint Resolve bal_commit bal_recover_from_log : bal.
Lemma bal_initlog dev sb : bal (initlog dev sb).
Proof. unfold initlog. rbal. Qed.
Lemma bal_log_write i : bal (log_write i).
Proof. unfold log_write. rbal. Qed.
#[export] Hint Resolve bal_initlog bal_log_write : bal.

Lemma tri_begin_op R : tri R begin_op (fun _ R' => R' = with_ops 1 R).
Proof.
  destruct R as [H I B O]. unfold begin_op, begin_op_loop. rstep.
  apply tri_get_log. cbn. intros lg Hlg. rstep; [repeat rstep|]. rstep; [repeat rstep|].
  apply (tri_modify _ _ (fun R => mkRsrc (r_spin R) (r_inode R) (r_buf R) (O + 1))).
  { intros s. unfold rsrc_of. cbn. by rewrite Hlg. }
  rsimpl. repeat rstep. done.
Qed.

Lemma tri_end_op R : tri R end_op (fun _ R' => R' = with_ops (-1) R).
Proof.
  destruct R as [H I B O]. unfold end_op. rstep.
  apply (tri_modify _ _ (with_ops (-1))); [done|]. rsimpl. repeat rstep; done.
Qed.
#[export] Hint Resolve tri_begin_op tri_end_op : bal.

(** ** The file system *)

Lemma bal_inode_get i : bal (inode_get i).
Proof. unfold inode_get. rbal. Qed.
Lemma bal_inode_set i f : (forall ip, i_lock (f ip) = i_lock ip) -> bal (inode_set i f).
Proof. intros H. unfold inode_set. apply bal_modify. intros s. by apply rsrc_upd_inode. Qed.
#[export] Hint Resolve bal_inode_get : bal.
#[export] Hint Extern 3 (bal (inode_set _ _)) => apply bal_inode_set; reflexivity : bal.

Lemma bal_bzero dev b : bal (bzero dev b).
Proof. unfold bzero. rbal. Qed.
#[export] Hint Resolve bal_bzero : bal.
Lemma bal_balloc dev : bal (balloc dev).
Proof.
  unfold balloc. assert (H : forall bs, bal (balloc_loop bs dev)); [|rbal].
  induction bs as [|b bs IH]; cbn [balloc_loop]; rbal.
Qed.
Lemma bal_bfree dev b : bal (bfree dev b).
Proof. unfold bfree. rbal. Qed.
Lemma bal_iget dev inum : bal (iget dev inum).
Proof. unfold iget. rbal. Qed.
#[export] Hint Resolve bal_balloc bal_bfree bal_iget : bal.
Lemma bal_ialloc dev type : bal (ialloc dev type).
Proof.
  unfold ialloc. assert (H : forall ix, bal (ialloc_loop ix dev type)); [|rbal].
  induction ix as [|i ix IH]; cbn [ialloc_loop]; rbal.
Qed.
Lemma bal_iupdate i : bal (iupdate i).
Proof. unfold iupdate. rbal. Qed.
Lemma bal_idup i : bal (idup i).
Proof. unfold idup. rbal. Qed.
Lemma bal_set_addr i k a : bal (set_addr i k a).
Proof. unfold set_addr. rbal. Qed.
#[export] Hint Resolve bal_ialloc bal_iupdate bal_idup bal_set_addr : bal.

Lemma tri_ilock R i :
  tri R (ilock i) (fun _ R' => sl_free (sl_inode i) R /\ R' = with_sl (sl_inode i) true R).
Proof. destruct R as [H I B O]. unfold ilock. repeat rstep; by split. Qed.
Lemma tri_iunlock R i : tri R (iunlock i) (fun _ R' => R' = with_sl (sl_inode i) false R).
Proof. destruct R as [H I B O]. unfold iunlock. repeat rstep; done. Qed.
#[export] Hint Resolve tri_ilock tri_iunlock : bal.

Lemma bal_bmap i bn : bal (bmap i bn).
Proof. unfold bmap. rbal. Qed.
#[export] Hint Resolve bal_bmap : bal.
Lemma bal_itrunc i : bal (itrunc i).
Proof.
  unfold itrunc. assert (H1 : forall ix, bal (itrunc_direct ix i)).
  { induction ix as [|k ix IH]; cbn [itrunc_direct]; rbal. }
  assert (H2 : forall dev d ix, bal (itrunc_indirect ix dev d)); [|rbal].
  intros dev d. induction ix as [|k ix IH]; cbn [itrunc_indirect]; rbal.
Qed.
#[export] Hint Resolve bal_itrunc : bal.
Lemma bal_iput i : bal (iput i).
Proof. unfold iput. rbal. Qed.
#[export] Hint Resolve bal_iput : bal.
Lemma tri_iunlockput R i : tri R (iunlockput i) (fun _ R' => R' = with_sl (sl_inode i) false R).
Proof. destruct R as [H I B O]. unfold iunlockput. repeat rstep; done. Qed.
#[export] Hint Resolve tri_iunlockput : bal.

Lemma bal_readi i dst off n : bal (readi i dst off n).
Proof.
  unfold readi. assert (H : forall k dst off n tot acc, bal (readi_loop k i dst off n tot acc)); [|rbal].
  induction k as [|k IH]; intros; cbn [readi_loop]; rbal.
Qed.
Lemma bal_writei i src off n : bal (writei i src off n).
Proof.
  unfold writei. assert (H : forall k src off n tot, bal (writei_loop k i src off n tot)); [|rbal].
  induction k as [|k IH]; intros; cbn [writei_loop]; rbal.
Qed.
#[export] Hint Resolve bal_readi bal_writei : bal.
Lemma bal_dirlookup dp name : bal (dirlookup dp name).
Proof.
  unfold dirlookup. assert (H : forall offs, bal (dirlookup_loop offs dp name)); [|rbal].
  induction offs as [|o offs IH]; cbn [dirlookup_loop]; rbal.
Qed.
#[export] Hint Resolve bal_dirlookup : bal.
Lemma bal_dirlink dp name inum : bal (dirlink dp name inum).
Proof.
  unfold dirlink. assert (H : forall offs e, bal (dirlink_scan offs dp e)); [|rbal].
  induction offs as [|o offs IH]; intros e; cbn [dirlink_scan]; rbal.
Qed.
Lemma bal_namex path par : bal (namex path par).
Proof.
  unfold namex. assert (H : forall k i path name, bal (namex_loop k i path par name)); [|rbal].
  induction k as [|k IH]; intros; cbn [namex_loop]; rbal.
Qed.
#[export] Hint Resolve bal_dirlink bal_namex : bal.
Lemma bal_namei path : bal (namei path).
Proof. unfold namei. rbal. Qed.
Lemma bal_nameiparent path : bal (nameiparent path).
Proof. unfold nameiparent. rbal. Qed.
#[export] Hint Resolve bal_namei bal_nameiparent : bal.

(** ** The console, pipes and files *)

Lemma bal_cons_set f : bal (cons_set f).
Proof. unfold cons_set. rbal. Qed.
#[export] Hint Resolve bal_cons_set : bal.
Lemma bal_consolewrite src n lsr : bal (consolewrite src n lsr).
Proof.
  unfold consolewrite. generalize (Z.to_nat n) 0. induction n0 as [|k IH]; intros; cbn [consolewrite_loop]; rbal.
Qed.
Lemma unlocks_consoleread_loop k : forall dst t acc, unlocks cons_lock (consoleread_loop k dst t acc).
Proof. induction k as [|k IH]; intros; cbn [consoleread_loop]; runlocks. Qed.
#[export] Hint Resolve bal_consolewrite unlocks_consoleread_loop : bal.
Lemma bal_consoleread dst n : bal (consoleread dst n).
Proof. unfold consoleread. rbal. Qed.
Lemma bal_kill_line k : bal (kill_line k).
Proof. induction k; cbn [kill_line]; rbal. Qed.
Lemma bal_procdump : bal procdump.
Proof.
  unfold procdump. assert (H : forall ps, bal (procdump_loop ps)); [|rbal].
  induction ps as [|p ps IH]; cbn [procdump_loop]; rbal.
Qed.
#[export] Hint Resolve bal_consoleread bal_kill_line bal_procdump : bal.
Lemma bal_consoleintr c : bal (consoleintr c).
Proof. unfold consoleintr. rbal. Qed.
#[export] Hint Resolve bal_consoleintr : bal.
Lemma bal_uartintr rx lsr : bal (uartintr rx lsr).
Proof.
  unfold uartintr. assert (H : bal (uartintr_rx rx)); [|rbal].
  induction rx as [|c rx IH]; cbn [uartintr_rx]; rbal.
Qed.
#[export] Hint Resolve bal_uartintr : bal.

Lemma bal_pipe_set pi f : bal (pipe_set pi f).
Proof. unfold pipe_set. rbal. Qed.
#[export] Hint Resolve bal_pipe_set : bal.
Lemma bal_pipeclose `{L : Layout} pi w : bal (pipeclose pi w).
Proof. unfold pipeclose. rbal. Qed.
Lemma unlocks_pipewrite_loop k pi addr : forall i, unlocks (pipe_lock pi) (pipewrite_loop k pi addr i).
Proof. induction k as [|k IH]; intros; cbn [pipewrite_loop]; runlocks. Qed.
#[export] Hint Resolve bal_pipeclose unlocks_pipewrite_loop : bal.
Lemma bal_pipewrite pi addr n : bal (pipewrite pi addr n).
Proof. unfold pipewrite. rbal. Qed.
Lemma bal_piperead_loop k pi addr : forall i, bal (piperead_loop k pi addr i).
Proof. induction k as [|k IH]; intros; cbn [piperead_loop]; rbal. Qed.
#[export] Hint Resolve bal_pipewrite bal_piperead_loop : bal.
Lemma unlocks_piperead_wait pi addr n : unlocks (pipe_lock pi) (piperead_wait pi addr n).
Proof. unfold piperead_wait. runlocks. Qed.
#[export] Hint Resolve unlocks_piperead_wait : bal.
Lemma bal_piperead pi addr n : bal (piperead pi addr n).
Proof. unfold piperead. rbal. Qed.
#[export] Hint Resolve bal_piperead : bal.

Lemma bal_file_set f g : bal (file_set f g).
Proof. unfold file_set. rbal. Qed.
Lemma bal_file_get f : bal (file_get f).
Proof. unfold file_get. rbal. Qed.
Lemma bal_file_ip fl : bal (file_ip fl).
Proof. unfold file_ip. rbal. Qed.
#[export] Hint Resolve bal_file_set bal_file_get bal_file_ip : bal.
Lemma bal_filealloc : bal filealloc.
Proof. unfold filealloc. rbal. Qed.
Lemma bal_filedup f : bal (filedup f).
Proof. unfold filedup. rbal. Qed.
Lemma bal_fileclose `{L : Layout} f : bal (fileclose f).
Proof. unfold fileclose. rbal. Qed.
Lemma bal_filestat f addr : bal (filestat f addr).
Proof. unfold filestat. rbal. Qed.
Lemma bal_fileread f addr n : bal (fileread f addr n).
Proof. unfold fileread. rbal. Qed.
#[export] Hint Resolve bal_filealloc bal_filedup bal_fileclose bal_filestat bal_fileread : bal.
Lemma bal_filewrite f addr n lsr : bal (filewrite f addr n lsr).
Proof.
  unfold filewrite. assert (H : forall k ip i, bal (filewrite_loop k f ip addr n i)); [|rbal].
  induction k as [|k IH]; intros; cbn [filewrite_loop]; rbal.
Qed.
Lemma bal_pipealloc `{L : Layout} : bal pipealloc.
Proof. unfold pipealloc, pipealloc_bad. rbal. Qed.
#[export] Hint Resolve bal_filewrite bal_pipealloc : bal.
