(* ===== verification/ExecSafe.v ===== *)
(** * exec is all or nothing

    Up to its last lines [exec] does not touch the structure of the process
    that calls it: not its page table, its size, its files or its name.  This
    is carried through everything that [exec] calls ([keeps]); [wakeup], which
    does change processes, leaves out the one that runs. *)

From S2P Require Import Prelude KString Bytes Ring KState Riscv Spinlock Kalloc Vm Sched Uart Console Sleeplock.
From S2P Require Import Bio Log Fs Pipe File Proc Exec Balance.

(** The same process runs, and its structure is as before. *)
Definition same (p : nat) (s s' : kstate) : Prop := k_cur s' = Some p /\ get_proc s' p = get_proc s p /\ length (k_procs s') = length (k_procs s).

Definition keeps {A} (m : K A) : Prop := forall s a s' p, k_cur s = Some p -> m s = Ok a s' -> same p s s'.

Lemma same_refl p s : k_cur s = Some p -> same p s s.
Proof. done. Qed.
Lemma same_trans p s1 s2 s3 : same p s1 s2 -> same p s2 s3 -> same p s1 s3.
Proof. intros (A1 & A2 & A3) (B1 & B2 & B3). split; [done|]. split; congruence. Qed.

Lemma keeps_ret {A} (a : A) : keeps (ret a).
Proof. intros s b s' p Hc [= _ <-]. done. Qed.
Lemma keeps_gets {A} (f : kstate -> A) : keeps (gets f).
Proof. intros s b s' p Hc [= _ <-]. done. Qed.
Lemma keeps_modify f : (forall s, k_cur (f s) = k_cur s /\ k_procs (f s) = k_procs s) -> keeps (modify f).
Proof. intros H s b s' p Hc [= _ <-]. destruct (H s) as [H1 H2]. split; [congruence|]. unfold get_proc. by rewrite H2. Qed.
Lemma keeps_never {A} (m : K A) : never m -> keeps m.
Proof. intros H s a s' p _ E. by destruct (never_elim m s a s' H). Qed.
Lemma keeps_bind {A B} (m : K A) (k : A -> K B) : keeps m -> (forall a, keeps (k a)) -> keeps (let! x := m in k x).
Proof.
  intros Hm Hk s b s' p Hc (a & s1 & E1 & E2)%bind_inv. pose proof (Hm _ _ _ _ Hc E1) as S1. exact (same_trans _ _ _ _ S1 (Hk a _ _ _ _ (proj1 S1) E2)).
Qed.
Lemma keeps_acquire l : keeps (acquire l).
Proof. intros s a s' p Hc E. unfold acquire in E. case_decide; [done|]. by injection E as _ <-. Qed.
Lemma keeps_release l : keeps (release l).
Proof. intros s a s' p Hc E. unfold release in E. case_decide; [|done]. by injection E as _ <-. Qed.

Lemma keeps_intro {A} (m : K A) : (forall s a s' p, k_cur s = Some p -> m s = Ok a s' -> same p s s') -> keeps m.
Proof. done. Qed.
Lemma keeps_elim {A} (m : K A) s a s' p : keeps m -> k_cur s = Some p -> m s = Ok a s' -> same p s s'.
Proof. intros H. by apply H. Qed.

Lemma upd_sl_procs id v s : k_cur (upd_sl id v s) = k_cur s /\ k_procs (upd_sl id v s) = k_procs s.
Proof. by destruct id. Qed.

#[global] Opaque keeps.

Create HintDb keeps discriminated.
#[export] Hint Constants Opaque : keeps.
#[export] Hint Resolve keeps_ret keeps_gets keeps_acquire keeps_release : keeps.
#[export] Hint Extern 4 (keeps (modify _)) => apply keeps_modify; intros ?; first [split; reflexivity | apply upd_sl_procs | case_match; split; reflexivity] : keeps.
#[export] Hint Extern 6 (keeps _) => apply keeps_never; solve [eauto 2 with bal] : keeps.

Ltac rkeep :=
  cbv zeta;
  first [ solve [eauto 2 with keeps]
        | lazymatch goal with
          | |- keeps (bind _ _) => apply keeps_bind; [rkeep|intros ?; cbv beta; rkeep]
          | |- keeps (let '(_, _) := ?x in _) => destruct x; rkeep
          | |- keeps (if ?b then _ else _) => destruct b; rkeep
          | |- keeps (match ?x with _ => _ end) => destruct x; rkeep
          end ].

(** ** Memory *)

Section Keeps.
Context `{L : Layout}.

Lemma keeps_kfree pa : keeps (kfree pa).
Proof. unfold kfree. rkeep. Qed.
Lemma keeps_kalloc : keeps kalloc.
Proof. unfold kalloc. rkeep. Qed.
Lemma keeps_read64 a : keeps (read64 a).
Proof. unfold read64. rkeep. Qed.
Lemma keeps_write64 a v : keeps (write64 a v).
Proof. unfold write64. rkeep. Qed.
Lemma keeps_fill_page a c : keeps (fill_page a c).
Proof. unfold fill_page. rkeep. Qed.
Lemma keeps_myproc_ : keeps myproc_.
Proof. unfold myproc_, myproc. rkeep. Qed.
#[local] Hint Resolve keeps_kfree keeps_kalloc keeps_read64 keeps_write64 keeps_fill_page keeps_myproc_ : keeps.

Lemma keeps_walk pt va al : keeps (walk pt va al).
Proof.
  unfold walk. assert (H : forall n pt, keeps (walk_loop n pt va al)); [|rkeep].
  induction n as [|n IH]; intros p; cbn [walk_loop]; rkeep.
Qed.
#[local] Hint Resolve keeps_walk : keeps.
Lemma keeps_walkaddr pt va : keeps (walkaddr pt va).
Proof. unfold walkaddr. rkeep. Qed.
Lemma keeps_mappages pt va sz pa perm : keeps (mappages pt va sz pa perm).
Proof.
  unfold mappages. assert (H : forall n pt a last pa, keeps (mappages_loop n pt a last pa perm)); [|rkeep].
  induction n as [|n IH]; intros; cbn [mappages_loop]; rkeep.
Qed.
#[local] Hint Resolve keeps_walkaddr keeps_mappages : keeps.
Lemma keeps_copyout pt va src : keeps (copyout pt va src).
Proof.
  unfold copyout. generalize (length src) as n. intros n. revert va src.
  induction n as [|n IH]; intros; destruct src; cbn [copyout_loop]; rkeep.
Qed.
#[local] Hint Resolve keeps_copyout : keeps.
Lemma keeps_either_copyout d bs : keeps (either_copyout d bs).
Proof. unfold either_copyout. rkeep. Qed.
#[local] Hint Resolve keeps_either_copyout : keeps.
Lemma keeps_uvmunmap pt va n b : keeps (uvmunmap pt va n b).
Proof.
  unfold uvmunmap. assert (H : forall k a bound, keeps (uvmunmap_loop k pt a bound b)); [|rkeep].
  induction k as [|k IH]; intros; cbn [uvmunmap_loop]; rkeep.
Qed.
#[local] Hint Resolve keeps_uvmunmap : keeps.
Lemma keeps_uvmcreate : keeps uvmcreate.
Proof. unfold uvmcreate. rkeep. Qed.
Lemma keeps_uvmdealloc pt o n : keeps (uvmdealloc pt o n).
Proof. unfold uvmdealloc. rkeep. Qed.
Lemma keeps_uvmclear pt va : keeps (uvmclear pt va).
Proof. unfold uvmclear. rkeep. Qed.
#[local] Hint Resolve keeps_uvmcreate keeps_uvmdealloc keeps_uvmclear : keeps.
Lemma keeps_uvmalloc pt o n x : keeps (uvmalloc pt o n x).
Proof.
  unfold uvmalloc. assert (H : forall k a o, keeps (uvmalloc_loop k pt a o n x)); [|rkeep].
  induction k as [|k IH]; intros; cbn [uvmalloc_loop]; rkeep.
Qed.
Lemma keeps_freewalk d : forall pt, keeps (freewalk d pt).
Proof.
  induction d as [|d IH]; intros pt; cbn [freewalk]; [rkeep|].
  induction (seqZ 0 512) as [|i ix IHi]; cbn [freewalk_loop]; rkeep.
Qed.
#[local] Hint Resolve keeps_uvmalloc keeps_freewalk : keeps.
Lemma keeps_uvmfree pt sz : keeps (uvmfree pt sz).
Proof. unfold uvmfree. rkeep. Qed.
#[local] Hint Resolve keeps_uvmfree : keeps.
Lemma keeps_proc_pagetable p : keeps (proc_pagetable p).
Proof. unfold proc_pagetable. rkeep. Qed.
Lemma keeps_proc_freepagetable pt sz : keeps (proc_freepagetable pt sz).
Proof. unfold proc_freepagetable. rkeep. Qed.
Lemma keeps_tf_set p f v : keeps (tf_set p f v).
Proof. unfold tf_set. rkeep. Qed.
#[local] Hint Resolve keeps_proc_pagetable keeps_proc_freepagetable keeps_tf_set : keeps.

(** ** Locks and buffers *)

(** [wakeup] changes a process that is not the running one. *)
Lemma keeps_other i f s a s' p : k_cur s = Some p -> p <> i -> proc_set i f s = Ok a s' -> same p s s'.
Proof.
  intros Hc Hne E. unfold proc_set, modify in E. injection E as _ <-. split; [done|]. unfold get_proc, upd_proc. cbn. by rewrite list_lookup_alter_ne, length_alter.
Qed.

Lemma keeps_wakeup_loop ix ch : keeps (wakeup_loop ix ch).
Proof.
  induction ix as [|i ix IH]; cbn [wakeup_loop]; [rkeep|]. apply keeps_intro. intros s b s' p Hc E. apply bind_inv in E as (me & s1 & E1 & E). injection E1 as <- <-.
  apply bind_inv in E as ([] & s2 & E2 & E). rewrite Hc in E2. enough (S2 : same p s s2) by exact (same_trans _ _ _ _ S2 (keeps_elim _ _ _ _ _ IH (proj1 S2) E)).
  case_bool_decide as Hi; [by injection E2 as <-|]. apply bind_inv in E2 as ([] & s3 & E3 & E2). pose proof (keeps_elim _ _ _ _ _ (keeps_acquire _) Hc E3) as S3.
  apply bind_inv in E2 as (pr & s4 & E4 & E2). injection E4 as <- <-. apply bind_inv in E2 as ([] & s5 & E5 & E2).
  assert (S5 : same p s3 s5) by (destruct (_ && _); [by apply (keeps_other i _ _ _ _ _ (proj1 S3) ltac:(congruence) E5)|injection E5 as <-; by apply same_refl, S3]).
  exact (same_trans _ _ _ _ (same_trans _ _ _ _ S3 S5) (keeps_elim _ _ _ _ _ (keeps_release _) (proj1 S5) E2)).
Qed.
Lemma keeps_wakeup ch : keeps (wakeup ch).
Proof. apply keeps_wakeup_loop. Qed.
#[local] Hint Resolve keeps_wakeup : keeps.

Lemma keeps_acquiresleep id : keeps (acquiresleep id).
Proof. unfold acquiresleep, acquiresleep_loop. rkeep. Qed.
Lemma keeps_releasesleep id : keeps (releasesleep id).
Proof. unfold releasesleep. rkeep. Qed.
Lemma keeps_holdingsleep id : keeps (holdingsleep id).
Proof. unfold holdingsleep. rkeep. Qed.
#[local] Hint Resolve keeps_acquiresleep keeps_releasesleep keeps_holdingsleep : keeps.
Lemma keeps_virtio_disk_rw i w : keeps (virtio_disk_rw i w).
Proof. unfold virtio_disk_rw. rkeep. Qed.
#[local] Hint Resolve keeps_virtio_disk_rw : keeps.
Lemma keeps_bget dev b : keeps (bget dev b).
Proof. unfold bget. rkeep. Qed.
#[local] Hint Resolve keeps_bget : keeps.
Lemma keeps_bread dev b : keeps (bread dev b).
Proof. unfold bread. rkeep. Qed.
Lemma keeps_brelse i : keeps (brelse i).
Proof. unfold brelse. rkeep. Qed.
Lemma keeps_bwrite i : keeps (bwrite i).
Proof. unfold bwrite. rkeep. Qed.
Lemma keeps_bpin i : keeps (bpin i).
Proof. unfold bpin. rkeep. Qed.
Lemma keeps_bunpin i : keeps (bunpin i).
Proof. unfold bunpin. rkeep. Qed.
Lemma keeps_bdata i : keeps (bdata i).
Proof. unfold bdata. rkeep. Qed.
Lemma keeps_set_bdata i d : keeps (set_bdata i d).
Proof. unfold set_bdata. rkeep. Qed.
#[local] Hint Resolve keeps_bread keeps_brelse keeps_bwrite keeps_bpin keeps_bunpin keeps_bdata keeps_set_bdata : keeps.

(** ** The log *)

Lemma keeps_lh_get i : keeps (lh_get i).
Proof. unfold lh_get. rkeep. Qed.
Lemma keeps_lh_set i v : keeps (lh_set i v).
Proof. unfold lh_set. rkeep. Qed.
#[local] Hint Resolve keeps_lh_get keeps_lh_set : keeps.
Lemma keeps_install_trans rec : keeps (install_trans rec).
Proof.
  unfold install_trans. assert (H : forall ix, keeps (install_trans_loop ix rec)); [|rkeep].
  induction ix as [|t ix IH]; cbn [install_trans_loop]; rkeep.
Qed.
Lemma keeps_write_log : keeps write_log.
Proof.
  unfold write_log. assert (H : forall ix, keeps (write_log_loop ix)); [|rkeep].
  induction ix as [|t ix IH]; cbn [write_log_loop]; rkeep.
Qed.
Lemma keeps_write_head : keeps write_head.
Proof.
  unfold write_head. assert (H : forall b ix, keeps (write_head_loop ix b)); [|rkeep].
  intros b. induction ix as [|t ix IH]; cbn [write_head_loop]; rkeep.
Qed.
#[local] Hint Resolve keeps_install_trans keeps_write_log keeps_write_head : keeps.
Lemma keeps_commit : keeps commit.
Proof. unfold commit. rkeep. Qed.
Lemma keeps_log_write i : keeps (log_write i).
Proof. unfold log_write. rkeep. Qed.
#[local] Hint Resolve keeps_commit keeps_log_write : keeps.
Lemma keeps_begin_op : keeps begin_op.
Proof. unfold begin_op, begin_op_loop. rkeep. Qed.
Lemma keeps_end_op : keeps end_op.
Proof. unfold end_op. rkeep. Qed.
#[local] Hint Resolve keeps_begin_op keeps_end_op : keeps.

(** ** Messages *)

Lemma keeps_thr_write c : keeps (thr_write c).
Proof. unfold thr_write. rkeep. Qed.
#[local] Hint Resolve keeps_thr_write : keeps.
Lemma keeps_consputc c : keeps (consputc c).
Proof. unfold consputc, uartputc_sync. rkeep. Qed.
#[local] Hint Resolve keeps_consputc : keeps.
Lemma keeps_consputs cs : keeps (consputs cs).
Proof. induction cs; cbn [consputs]; rkeep. Qed.
#[local] Hint Resolve keeps_consputs : keeps.
Lemma keeps_printint x b g : keeps (printint x b g).
Proof. unfold printint. rkeep. Qed.
Lemma keeps_printptr x : keeps (printptr x).
Proof. unfold printptr. rkeep. Qed.
#[local] Hint Resolve keeps_printint keeps_printptr : keeps.
Lemma keeps_printf_loop n : forall fmt ap, (length fmt < n)%nat -> keeps (printf_loop fmt ap).
Proof.
  induction n as [|n IH]; intros fmt ap Hn; [lia|]. destruct fmt as [|c fmt]; cbn [printf_loop]; [rkeep|]. cbn in Hn.
  assert (H1 : forall ap, keeps (printf_loop fmt ap)) by (intros; apply IH; lia).
  assert (H2 : forall c' fmt' ap, fmt = c' :: fmt' -> keeps (printf_loop fmt' ap)) by (intros ? ? ? ->; apply IH; cbn in Hn; lia).
  destruct fmt as [|c' fmt']; [rkeep|]. pose proof (fun ap => H2 c' fmt' ap eq_refl) as H3. rkeep.
Qed.
Lemma keeps_printf fmt ap : keeps (printf fmt ap).
Proof. unfold printf. pose proof (keeps_printf_loop _ (str fmt) ap (Nat.lt_succ_diag_r _)). rkeep. Qed.
#[local] Hint Resolve keeps_printf : keeps.

(** ** The file system *)

Lemma keeps_inode_get i : keeps (inode_get i).
Proof. unfold inode_get. rkeep. Qed.
Lemma keeps_inode_set i f : keeps (inode_set i f).
Proof. unfold inode_set. rkeep. Qed.
Lemma keeps_bzero dev b : keeps (bzero dev b).
Proof. unfold bzero. rkeep. Qed.
#[local] Hint Resolve keeps_inode_get keeps_inode_set keeps_bzero : keeps.
Lemma keeps_balloc dev : keeps (balloc dev).
Proof.
  unfold balloc. assert (H : forall bs, keeps (balloc_loop bs dev)); [|rkeep].
  induction bs as [|b bs IH]; cbn [balloc_loop]; rkeep.
Qed.
Lemma keeps_bfree dev b : keeps (bfree dev b).
Proof. unfold bfree. rkeep. Qed.
Lemma keeps_iget dev inum : keeps (iget dev inum).
Proof. unfold iget. rkeep. Qed.
Lemma keeps_iupdate i : keeps (iupdate i).
Proof. unfold iupdate. rkeep. Qed.
Lemma keeps_idup i : keeps (idup i).
Proof. unfold idup. rkeep. Qed.
Lemma keeps_set_addr i k a : keeps (set_addr i k a).
Proof. unfold set_addr. rkeep. Qed.
Lemma keeps_ilock i : keeps (ilock i).
Proof. unfold ilock. rkeep. Qed.
Lemma keeps_iunlock i : keeps (iunlock i).
Proof. unfold iunlock. rkeep. Qed.
#[local] Hint Resolve keeps_balloc keeps_bfree keeps_iget keeps_iupdate keeps_idup keeps_set_addr keeps_ilock keeps_iunlock : keeps.
Lemma keeps_bmap i bn : keeps (bmap i bn).
Proof. unfold bmap. rkeep. Qed.
Lemma keeps_itrunc i : keeps (itrunc i).
Proof.
  unfold itrunc. assert (H1 : forall ix, keeps (itrunc_direct ix i)).
  { induction ix as [|k ix IH]; cbn [itrunc_direct]; rkeep. }
  assert (H2 : forall dev d ix, keeps (itrunc_indirect ix dev d)); [|rkeep].
  intros dev d. induction ix as [|k ix IH]; cbn [itrunc_indirect]; rkeep.
Qed.
#[local] Hint Resolve keeps_bmap keeps_itrunc : keeps.
Lemma keeps_iput i : keeps (iput i).
Proof. unfold iput. rkeep. Qed.
#[local] Hint Resolve keeps_iput : keeps.
Lemma keeps_iunlockput i : keeps (iunlockput i).
Proof. unfold iunlockput. rkeep. Qed.
Lemma keeps_readi i dst off n : keeps (readi i dst off n).
Proof.
  unfold readi. assert (H : forall k dst off n tot acc, keeps (readi_loop k i dst off n tot acc)); [|rkeep].
  induction k as [|k IH]; intros; cbn [readi_loop]; rkeep.
Qed.
#[local] Hint Resolve keeps_iunlockput keeps_readi : keeps.
Lemma keeps_dirlookup dp name : keeps (dirlookup dp name).
Proof.
  unfold dirlookup. assert (H : forall offs, keeps (dirlookup_loop offs dp name)); [|rkeep].
  induction offs as [|o offs IH]; cbn [dirlookup_loop]; rkeep.
Qed.
#[local] Hint Resolve keeps_dirlookup : keeps.
Lemma keeps_namei path : keeps (namei path).
Proof.
  unfold namei, namex. assert (H : forall par k i path name, keeps (namex_loop k i path par name)); [|rkeep].
  intros par. induction k as [|k IH]; intros; cbn [namex_loop]; rkeep.
Qed.
#[local] Hint Resolve keeps_namei : keeps.

(** ** exec *)

Lemma keeps_exec_bad pt sz ip : keeps (exec_bad pt sz ip).
Proof. unfold exec_bad. rkeep. Qed.
Lemma keeps_loadseg pt va ip o sz : keeps (loadseg pt va ip o sz).
Proof. unfold loadseg. generalize ((fun k => k * PGSIZE) <$> seqZ 0 ((sz + PGSIZE - 1) / PGSIZE)). induction l as [|i ix IH]; cbn [loadseg_loop]; rkeep. Qed.
#[local] Hint Resolve keeps_exec_bad keeps_loadseg : keeps.
Lemma keeps_exec_load k : forall off ip pt sz, keeps (exec_load k off ip pt sz).
Proof. induction k as [|k IH]; intros; cbn [exec_load]; rkeep. Qed.
Lemma keeps_exec_push argv : forall pt sp b us, keeps (exec_push argv pt sp b us).
Proof. induction argv as [|a argv IH]; intros; cbn [exec_push]; rkeep. Qed.
#[local] Hint Resolve keeps_exec_load keeps_exec_push : keeps.

Lemma exec_bad_result pt sz ip s r s' : exec_bad pt sz ip s = Ok r s' -> r = -1.
Proof. unfold exec_bad. intros (? & ? & _ & E)%bind_inv. apply bind_inv in E as (? & ? & _ & E). by injection E as <-. Qed.

(** Every argument has its place in [ustack]. *)
Lemma exec_push_length argv : forall pt sp b us s sp' us' s', exec_push argv pt sp b us s = Ok (Some (sp', us')) s' -> length us' = (length us + length argv)%nat.
Proof.
  induction argv as [|a argv IH]; intros pt sp b us s sp' us' s' E; cbn [exec_push] in E; [injection E as _ <- _; cbn; lia|]. case_match; [done|]. cbv zeta in E. case_match; [done|].
  apply bind_inv in E as (r & s1 & _ & E). case_match; [done|]. apply IH in E. rewrite length_app in E. cbn in *. lia.
Qed.

(** What a successful [exec] makes of the process. *)
Definition execed (path : list Z) (pt sz : Z) (pr : proc) : proc := set_p_sz sz (set_p_pagetable pt (set_p_name (safestrcpy_list (p_name pr) (last_elem path path) 16) pr)).

Lemma proc_set_same p f s a s' : (p < length (k_procs s))%nat -> proc_set p f s = Ok a s' -> k_cur s' = k_cur s /\ get_proc s' p = f (get_proc s p) /\ length (k_procs s') = length (k_procs s).
Proof.
  intros Hp E. unfold proc_set, modify in E. injection E as _ <-. split; [done|]. unfold get_proc, upd_proc. cbn. rewrite list_lookup_alter_eq, length_alter.
  destruct (lookup_lt_is_Some_2 _ _ Hp) as [x ->]. done.
Qed.

Definition exec_result (path : list Z) (argv : list (list Z)) (p : nat) (s : kstate) (r : Z) (s' : kstate) : Prop :=
  k_cur s' = Some p /\
  ((r = -1 /\ get_proc s' p = get_proc s p) \/
   (r = Z.of_nat (length argv) /\ (length argv < MAXARG)%nat /\ exists pt sz, get_proc s' p = execed path pt sz (get_proc s p))).

Lemma same_fails path argv p s r s' : same p s s' -> r = -1 -> exec_result path argv p s r s'.
Proof. intros (H1 & H2 & _) ->. split; [done|]. by left. Qed.

(** A call that keeps the process, in the middle of the run from [s0]. *)
Lemma same_step {A B} (m : K A) (k : A -> K B) p s0 s r s' : keeps m -> same p s0 s -> (let! x := m in k x) s = Ok r s' -> exists a s1, m s = Ok a s1 /\ same p s0 s1 /\ k a s1 = Ok r s'.
Proof. intros Hm S (a & s1 & E1 & E2)%bind_inv. exists a, s1. split; [done|]. split; [|done]. exact (same_trans _ _ _ _ S (keeps_elim _ _ _ _ _ Hm (proj1 S) E1)). Qed.

Lemma bad_fails path argv pt sz ip p s0 s r s' : same p s0 s -> exec_bad pt sz ip s = Ok r s' -> exec_result path argv p s0 r s'.
Proof.
  intros S E. apply same_fails; [|by apply exec_bad_result in E]. exact (same_trans _ _ _ _ S (keeps_elim _ _ _ _ _ (keeps_exec_bad _ _ _) (proj1 S) E)).
Qed.

Ltac kstep S E x :=
  let H := fresh in
  pose proof (fun Hm => same_step _ _ _ _ _ _ _ Hm S E) as H;
  specialize (H ltac:(rkeep)); clear S E; destruct H as (x & ? & ? & S & E).

(** From the point of no return on. *)
Lemma exec_commit path argv p pt sz sp entry argc s0 s r s' (k := fun oldpt oldsz : Z => proc_freepagetable oldpt oldsz) oldsz :
  same p s0 s -> (p < length (k_procs s0))%nat -> argc = length argv -> (length argv < MAXARG)%nat ->
  (tf_set p tf_a1 sp ;;;
   proc_set p (fun pr => set_p_name (safestrcpy_list (p_name pr) (last_elem path path) 16) pr) ;;;
   let! oldpagetable := gets (fun s => p_pagetable (get_proc s p)) in
   proc_set p (set_p_pagetable pt) ;;;
   proc_set p (set_p_sz sz) ;;;
   tf_set p tf_epc entry ;;;
   tf_set p tf_sp sp ;;;
   k oldpagetable oldsz ;;;
   ret (Z.of_nat argc)) s = Ok r s' -> exec_result path argv p s0 r s'.
Proof.
  intros S Hp -> Hlt E. kstep S E u. destruct S as (C1 & P1 & L1). apply bind_inv in E as ([] & s2 & E2 & E). apply proc_set_same in E2 as (C2 & P2 & L2); [|lia].
  apply bind_inv in E as (opt & s3 & E3 & E). injection E3 as _ <-. apply bind_inv in E as ([] & s4 & E4 & E). apply proc_set_same in E4 as (C4 & P4 & L4); [|lia].
  apply bind_inv in E as ([] & s5 & E5 & E). apply proc_set_same in E5 as (C5 & P5 & L5); [|lia]. assert (S5 : same p s5 s5) by (apply same_refl; congruence). unfold k in E.
  kstep S5 E u5. kstep S5 E u6. kstep S5 E u7. injection E as <- <-. destruct S5 as (C6 & P6 & _). split; [done|]. right. split; [done|]. split; [done|]. exists pt, sz. by rewrite P6, P5, P4, P2, P1.
Qed.

Lemma exec_stack_ok path argv elf pt sz p s0 s r s' : same p s0 s -> (p < length (k_procs s0))%nat -> exec_stack path argv elf pt sz s = Ok r s' -> exec_result path argv p s0 r s'.
Proof.
  intros S Hp E. unfold exec_stack in E. rewrite (bind_myproc_ _ _ _ (proj1 S)), bind_gets in E. cbv zeta in E. kstep S E sz1. case_match; [by eapply bad_fails|]. kstep S E u. kstep S E pushed.
  destruct pushed as [[sp us]|]; [|by eapply bad_fails]. match goal with H : exec_push _ _ _ _ _ _ = Ok _ _ |- _ => apply exec_push_length in H as Hus end. cbn in Hus.
  destruct (Nat.leb_spec MAXARG (length us)) as [|Hlt]; [done|]. case_match; [by eapply bad_fails|]. kstep S E r1. case_match; [by eapply bad_fails|].
  eapply exec_commit; [exact S|done|exact Hus|lia|exact E].
Qed.

(** ** The theorem *)

(** [C9] [exec] is all or nothing: when it fails, wherever that is, the process
    has the page table, size, files, directory and name it had; when it
    succeeds only page table, size and name have changed, and the result is
    the number of arguments, which fits in [ustack]. *)
Theorem exec_atomic path argv p s r s' : k_cur s = Some p -> (p < length (k_procs s))%nat -> exec path argv s = Ok r s' -> exec_result path argv p s r s'.
Proof.
  intros Hc Hp E. pose proof (same_refl p s Hc) as S. unfold exec in E. rewrite (bind_myproc_ _ _ _ Hc) in E. kstep S E u. kstep S E ip.
  destruct ip as [ip|]; [|kstep S E u1; injection E as <- <-; by apply same_fails]. kstep S E u1. kstep S E h. destruct h as [n elf]. case_match; [by eapply bad_fails|]. case_match; [by eapply bad_fails|].
  kstep S E pt. case_match; [by eapply bad_fails|]. kstep S E l. destruct l as [ok sz]. case_match; [by eapply bad_fails|]. kstep S E u2. kstep S E u3. by eapply exec_stack_ok.
Qed.
End Keeps.

(** ** Witness *)

(** A process whose directory is not one looks for a program there. *)
Definition ex_exec : kstate :=
  upd_inode 0 (fun ip => set_i_type T_FILE (set_i_valid true (set_i_ref 1 ip))) (set_k_cur (Some 0%nat) (upd_proc 0 (set_p_cwd (Some 0%nat)) kstate_zero)).

Lemma exec_atomic_witness : exists s', exec (L := small_layout 3) [120] [[120]] ex_exec = Ok (-1) s' /\ get_proc s' 0 = get_proc ex_exec 0.
Proof.
  set (m := exec (L := small_layout 3) [120] [[120]]). assert (Hok : match m ex_exec with Ok r _ => r =? -1 | _ => false end = true) by (vm_compute; reflexivity).
  destruct (m ex_exec) as [r s'| | | |] eqn:E; try discriminate Hok. apply Z.eqb_eq in Hok as ->. exists s'. split; [reflexivity|].
  destruct (exec_atomic (L := small_layout 3) [120] [[120]] 0 ex_exec (-1) s') as (_ & [(_ & H)|(H & _)]); [reflexivity|vm_compute; lia|exact E|exact H|discriminate H].
Defined.
