(* ===== verification/BalanceSys.v ===== *)
(** * System calls leak nothing

    The balance of kernel resources (see [Balance]) carried through address
    spaces, processes, [exec] and every system call; the theorem on [syscall],
    and the one that a killed process does not return to user space. *)

From S2P Require Import Prelude KString Bytes Ring KState Riscv Spinlock Kalloc Vm Sched Uart Console Sleeplock.
From S2P Require Import Bio Log Fs Pipe File Proc Exec Syscall SysFile Trap Balance.

(** ** Address spaces and processes *)

Section Procs.
Context `{L : Layout}.

Lemma bal_uvmunmap pt va n b : bal (uvmunmap pt va n b).
Proof.
  unfold uvmunmap. assert (H : forall k a bound, bal (uvmunmap_loop k pt a bound b)); [|rbal].
  induction k as [|k IH]; intros; cbn [uvmunmap_loop]; rbal.
Qed.
#[local] Hint Resolve bal_uvmunmap : bal.
Lemma bal_uvmcreate : bal uvmcreate.
Proof. unfold uvmcreate. rbal. Qed.
Lemma bal_uvmdealloc pt o n : bal (uvmdealloc pt o n).
Proof. unfold uvmdealloc. rbal. Qed.
Lemma bal_uvmclear pt va : bal (uvmclear pt va).
Proof. unfold uvmclear. rbal. Qed.
#[local] Hint Resolve bal_uvmcreate bal_uvmdealloc bal_uvmclear : bal.
Lemma bal_uvmalloc pt o n x : bal (uvmalloc pt o n x).
Proof.
  unfold uvmalloc. assert (H : forall k a o, bal (uvmalloc_loop k pt a o n x)); [|rbal].
  induction k as [|k IH]; intros; cbn [uvmalloc_loop]; rbal.
Qed.
Lemma bal_freewalk d : forall pt, bal (freewalk d pt).
Proof.
  induction d as [|d IH]; intros pt; cbn [freewalk]; [rbal|].
  induction (seqZ 0 512) as [|i ix IHi]; cbn [freewalk_loop]; rbal.
Qed.
#[local] Hint Resolve bal_uvmalloc bal_freewalk : bal.
Lemma bal_uvmfree pt sz : bal (uvmfree pt sz).
Proof. unfold uvmfree. rbal. Qed.
Lemma bal_uvmcopy o n sz : bal (uvmcopy o n sz).
Proof.
  unfold uvmcopy. generalize 0 as i. generalize (S (Z.to_nat (sz / PGSIZE + 1))) as k.
  induction k as [|k IH]; intros; cbn [uvmcopy_loop]; cbv zeta; rbal.
Qed.
#[local] Hint Resolve bal_uvmfree bal_uvmcopy : bal.

Lemma bal_tf_get p f : bal (tf_get p f).
Proof. unfold tf_get. rbal. Qed.
Lemma bal_tf_set p f v : bal (tf_set p f v).
Proof. unfold tf_set. rbal. Qed.
Lemma bal_tf_copy p q : bal (tf_copy p q).
Proof. unfold tf_copy. rbal. Qed.
#[local] Hint Resolve bal_tf_get bal_tf_set bal_tf_copy : bal.
Lemma bal_proc_pagetable p : bal (proc_pagetable p).
Proof. unfold proc_pagetable. rbal. Qed.
Lemma bal_proc_freepagetable pt sz : bal (proc_freepagetable pt sz).
Proof. unfold proc_freepagetable. rbal. Qed.
#[local] Hint Resolve bal_proc_pagetable bal_proc_freepagetable : bal.
Lemma bal_freeproc p : bal (freeproc p).
Proof. unfold freeproc. rbal. Qed.
#[local] Hint Resolve bal_freeproc : bal.

(** [allocproc] returns with the lock of the process it found. *)
Definition alloced (R : rsrc) (r : option nat) (R' : rsrc) : Prop :=
  match r with
  | Some p => (proc_lock p ∉ r_spin R) /\ R' = with_spin (cons (proc_lock p)) R
  | None => R' = R
  end.

Lemma tri_allocproc_scan ix R : tri R (allocproc_scan ix) (alloced R).
Proof.
  destruct R as [H I B O]. induction ix as [|p ix IH]; cbn [allocproc_scan]; repeat rstep; [done|by split|assumption].
Qed.
Lemma tri_allocproc R : tri R allocproc (alloced R).
Proof.
  unfold allocproc. eapply tri_bind; [apply tri_allocproc_scan|]. destruct R as [H I B O].
  intros [p|] R' Hp; cbn in Hp; [destruct Hp as [Hp ->]|subst; repeat rstep; done].
  unfold allocproc_found. rsimpl. repeat rstep; try done; by split.
Qed.

Lemma bal_dup_files p np : bal (dup_files (seq 0 NOFILE) p np).
Proof. induction (seq 0 NOFILE) as [|fd ix IH]; cbn [dup_files]; rbal. Qed.
Lemma bal_dup_cwd p np : bal (dup_cwd p np).
Proof. unfold dup_cwd. rbal. Qed.
#[local] Hint Resolve bal_dup_files bal_dup_cwd : bal.

Lemma bal_fork : bal fork.
Proof.
  unfold fork. apply bal_intro. intros H I B O. rstep. eapply tri_bind; [apply tri_allocproc|].
  intros [np|] R' Hp; cbn in Hp; [destruct Hp as [Hp ->]|subst; repeat rstep; done].
  rsimpl. repeat rstep; done.
Qed.
Lemma bal_growproc n : bal (growproc n).
Proof. unfold growproc. rbal. Qed.

Lemma never_exit st msg : never (exit st msg).
Proof.
  unfold exit. do 2 (apply never_bind_r; intros ?). case_bool_decide; [auto with bal|].
  repeat (apply never_bind_r; intros ?). auto with bal.
Qed.

Lemma tri_wait_scan p addr msg ix : forall hk H I B O, wait_lock ∉ H ->
  tri (mkRsrc (wait_lock :: H) I B O) (wait_scan ix p addr msg hk)
    (fun r R' => R' = mkRsrc (match fst r with Some _ => H | None => wait_lock :: H end) I B O).
Proof.
  induction ix as [|pp ix IH]; intros hk H I B O Hl; cbn [wait_scan]; repeat rstep; try done; by apply IH.
Qed.
Lemma unlocks_wait_loop addr msg : unlocks wait_lock (wait_loop addr msg).
Proof.
  unfold wait_loop. apply unlocks_intro. intros H I B O Hl. rstep. eapply tri_bind; [by apply tri_wait_scan|].
  intros [[v|] hk] R' ->; cbn [fst]; repeat rstep; done.
Qed.
#[local] Hint Resolve unlocks_wait_loop : bal.
Lemma bal_wait addr msg : bal (wait addr msg).
Proof. unfold wait. rbal. Qed.

Lemma bal_waitall_scan p ix : forall sc, bal (waitall_scan ix p sc).
Proof. induction ix as [|pp ix IH]; intros; cbn [waitall_scan]; rbal. Qed.
Lemma bal_waitall_free ps : bal (waitall_free ps).
Proof. induction ps as [|pp ps IH]; cbn [waitall_free]; rbal. Qed.
#[local] Hint Resolve bal_waitall_scan bal_waitall_free : bal.
Lemma unlocks_waitall_loop st a b : unlocks wait_lock (waitall_loop st a b).
Proof. unfold waitall_loop. runlocks. Qed.
#[local] Hint Resolve unlocks_waitall_loop : bal.
Lemma bal_waitall a b : bal (waitall a b).
Proof. unfold waitall. rbal. Qed.
End Procs.

#[export] Hint Resolve bal_uvmunmap bal_uvmcreate bal_uvmdealloc bal_uvmclear bal_uvmalloc bal_uvmfree bal_uvmcopy : bal.
#[export] Hint Resolve bal_tf_get bal_tf_set bal_proc_pagetable bal_proc_freepagetable bal_freeproc : bal.
#[export] Hint Resolve bal_fork bal_growproc never_exit bal_wait bal_waitall : bal.


(** ** System calls *)

Lemma bal_argraw n : bal (argraw n).
Proof. unfold argraw. rbal. Qed.
#[export] Hint Resolve bal_argraw : bal.
Lemma bal_argint n : bal (argint n).
Proof. unfold argint. rbal. Qed.
Lemma bal_argaddr n : bal (argaddr n).
Proof. unfold argaddr. rbal. Qed.
Lemma bal_fetchaddr a : bal (fetchaddr a).
Proof. unfold fetchaddr. rbal. Qed.
Lemma bal_fetchstr a m : bal (fetchstr a m).
Proof. unfold fetchstr. rbal. Qed.
#[export] Hint Resolve bal_argint bal_argaddr bal_fetchaddr bal_fetchstr : bal.
Lemma bal_argstr n m : bal (argstr n m).
Proof. unfold argstr. rbal. Qed.
Lemma bal_argfd n : bal (argfd n).
Proof. unfold argfd. rbal. Qed.
Lemma bal_ofile_set p fd f : bal (ofile_set p fd f).
Proof. unfold ofile_set. rbal. Qed.
#[export] Hint Resolve bal_argstr bal_argfd bal_ofile_set : bal.
Lemma bal_fdalloc f : bal (fdalloc f).
Proof. unfold fdalloc. rbal. Qed.
Lemma bal_set_nlink i d : bal (set_nlink i d).
Proof. unfold set_nlink. rbal. Qed.
Lemma bal_isdirempty dp : bal (isdirempty dp).
Proof.
  unfold isdirempty. assert (H : forall offs, bal (isdirempty_loop offs dp)); [|rbal].
  induction offs as [|o offs IH]; cbn [isdirempty_loop]; rbal.
Qed.
#[export] Hint Resolve bal_fdalloc bal_set_nlink bal_isdirempty : bal.

(** [create] returns with the inode locked. *)
Lemma tri_create R path t a b :
  tri R (create path t a b) (fun r R' =>
    match r with
    | Some ip => sl_free (sl_inode ip) R /\ R' = with_sl (sl_inode ip) true R
    | None => R' = R
    end).
Proof.
  destruct R as [H I B O]. unfold create, create_fail. repeat rstep; rsimpl; try done; split; try done; rfresh.
Qed.

#[export] Hint Resolve tri_create : bal.

Section Calls.
Context `{L : Layout}.

Lemma tri_sys_open_inode R ip omode :
  tri R (sys_open_inode ip omode) (fun _ R' => R' = with_ops (-1) (with_sl (sl_inode ip) false R)).
Proof. destruct R as [H I B O]. unfold sys_open_inode. repeat rstep; done. Qed.
#[local] Hint Resolve tri_sys_open_inode : bal.

Lemma bal_sys_open : bal sys_open.
Proof. unfold sys_open. rbal. Qed.
Lemma bal_sys_read : bal sys_read.
Proof. unfold sys_read. rbal. Qed.
Lemma bal_sys_write lsr : bal (sys_write lsr).
Proof. unfold sys_write. rbal. Qed.
Lemma bal_sys_close : bal sys_close.
Proof. unfold sys_close. rbal. Qed.
Lemma bal_sys_fstat : bal sys_fstat.
Proof. unfold sys_fstat. rbal. Qed.
Lemma bal_sys_dup : bal sys_dup.
Proof. unfold sys_dup. rbal. Qed.
Lemma bal_sys_link : bal sys_link.
Proof. unfold sys_link, sys_link_bad. rbal. Qed.
Lemma bal_sys_unlink : bal sys_unlink.
Proof. unfold sys_unlink, sys_unlink_bad. rbal. Qed.
Lemma bal_sys_mkdir : bal sys_mkdir.
Proof. unfold sys_mkdir, sys_make. rbal. Qed.
Lemma bal_sys_mknod : bal sys_mknod.
Proof. unfold sys_mknod, sys_make. rbal. Qed.
Lemma bal_sys_chdir : bal sys_chdir.
Proof. unfold sys_chdir. rbal. Qed.
Lemma bal_sys_pipe : bal sys_pipe.
Proof. unfold sys_pipe. rbal. Qed.

Lemma bal_loadseg pt va ip off sz : bal (loadseg pt va ip off sz).
Proof.
  unfold loadseg. assert (H : forall ix, bal (loadseg_loop ix pt va ip off sz)); [|rbal].
  induction ix as [|i ix IH]; cbn [loadseg_loop]; rbal.
Qed.
#[local] Hint Resolve bal_loadseg : bal.
Lemma bal_exec_load k : forall off ip pt sz, bal (exec_load k off ip pt sz).
Proof. induction k as [|k IH]; intros; cbn [exec_load]; rbal. Qed.
Lemma bal_exec_push argv : forall pt sp sb us, bal (exec_push argv pt sp sb us).
Proof. induction argv as [|a argv IH]; intros; cbn [exec_push]; rbal. Qed.
#[local] Hint Resolve bal_exec_load bal_exec_push : bal.
Lemma bal_exec_stack path argv elf pt sz : bal (exec_stack path argv elf pt sz).
Proof. unfold exec_stack, exec_bad. rbal. Qed.
#[local] Hint Resolve bal_exec_stack : bal.
Lemma bal_exec path argv : bal (exec path argv).
Proof. unfold exec, exec_bad. rbal. Qed.
Lemma bal_free_argv pages : bal (free_argv pages).
Proof. induction pages as [|a pages IH]; cbn [free_argv]; rbal. Qed.
Lemma bal_exec_args k : forall i u pages args, bal (exec_args k i u pages args).
Proof. induction k as [|k IH]; intros; cbn [exec_args]; rbal. Qed.
#[local] Hint Resolve bal_exec bal_free_argv bal_exec_args : bal.
Lemma bal_sys_exec : bal sys_exec.
Proof. unfold sys_exec. rbal. Qed.

Lemma bal_sys_exit : bal sys_exit.
Proof. unfold sys_exit. rbal. Qed.
Lemma bal_sys_sleep : bal sys_sleep.
Proof. unfold sys_sleep, sys_sleep_loop. rbal. Qed.
Lemma bal_sys_uptime : bal sys_uptime.
Proof. unfold sys_uptime. rbal. Qed.
#[local] Hint Resolve bal_sys_open bal_sys_read bal_sys_write bal_sys_close bal_sys_fstat bal_sys_dup bal_sys_link : bal.
#[local] Hint Resolve bal_sys_unlink bal_sys_mkdir bal_sys_mknod bal_sys_chdir bal_sys_pipe bal_sys_exec : bal.
#[local] Hint Resolve bal_sys_exit bal_sys_sleep bal_sys_uptime : bal.

(** Every system call but [forkn]. *)
Lemma bal_syscalls num lsr f : syscalls num lsr = Some f -> num <> 23 -> bal f.
Proof.
  intros Hf Hn. unfold syscalls in Hf. repeat case_match; simplify_eq; try solve [auto with bal]; try lia.
  all: unfold sys_fork, sys_wait, sys_kill, sys_getpid, sys_sbrk, sys_memsize, sys_waitall; rbal.
Qed.

End Calls.

(** ** The theorems *)

Section Traps.
Context `{L : Layout} `{T : Trampoline}.

(** The number in [a7] of process [p]. *)
Definition sysnum (s : kstate) (p : nat) : Z := s32 (load64 (k_mem s) (p_trapframe (get_proc s p) + tf_a7)).

Lemma syscall_eq lsr s p :
  k_cur s = Some p ->
  syscall lsr s =
  match syscalls (sysnum s p) lsr with
  | Some f => (let! r := f in tf_set p tf_a0 r) s
  | None => (printf ("%d %s: unknown sys call %d" +:+ nl)
               [Aint (p_pid (get_proc s p)); Astr (Some (cstr (p_name (get_proc s p)))); Aint (sysnum s p)] ;;;
             tf_set p tf_a0 (-1)) s
  end.
Proof.
  intros Hp. unfold syscall, tf_get at 1, read64. rewrite (bind_myproc_ _ _ _ Hp), bind_assoc, !bind_gets.
  fold (sysnum s p). by destruct (syscalls (sysnum s p) lsr).
Qed.

(** [C18] No system call leaks: whatever the state, the arguments and the files
    involved, a system call other than [forkn] that returns has released
    every spin lock, every inode lock and every buffer it took, and ended
    every operation it began in the log, on success and on every error path. *)
Theorem syscall_balanced (lsr : Z -> list bool) (s s' : kstate) (p : nat) :
  k_cur s = Some p -> sysnum s p <> 23 -> syscall lsr s = Ok tt s' ->
  k_held s' = k_held s /\
  (forall i, sl_locked (i_lock (get_inode s' i)) = sl_locked (i_lock (get_inode s i))) /\
  (forall i, sl_locked (b_lock (get_buf s' i)) = sl_locked (b_lock (get_buf s i))) /\
  log_outstanding (k_log s') = log_outstanding (k_log s).
Proof.
  intros Hp Hn E. rewrite (syscall_eq lsr s p Hp) in E. apply rsrc_eq.
  destruct (syscalls (sysnum s p) lsr) as [f|] eqn:Ef.
  - pose proof (bal_syscalls _ _ _ Ef Hn). assert (B : bal (let! r := f in tf_set p tf_a0 r)) by rbal.
    by eapply bal_elim.
  - eapply bal_elim; [|exact E]. rbal.
Qed.

(** [m] leaves the process table alone. *)
Definition keeps_procs {A} (m : K A) : Prop := forall s a s', m s = Ok a s' -> k_procs s' = k_procs s.

Lemma keeps_procs_bind {A B} (m : K A) (k : A -> K B) :
  keeps_procs m -> (forall a, keeps_procs (k a)) -> keeps_procs (let! x := m in k x).
Proof. intros Hm Hk s b s' (a & s1 & E1 & E2)%bind_inv. by rewrite (Hk _ _ _ _ E2), (Hm _ _ _ E1). Qed.
Lemma keeps_procs_gets {A} (f : kstate -> A) : keeps_procs (gets f).
Proof. intros s a s' [= _ <-]. done. Qed.
Lemma keeps_procs_modify f : (forall s, k_procs (f s) = k_procs s) -> keeps_procs (modify f).
Proof. intros H s a s' [= _ <-]. apply H. Qed.
Lemma keeps_procs_myproc_ : keeps_procs myproc_.
Proof. apply keeps_procs_bind; [apply keeps_procs_gets|]. intros [i|] s a s' E; [by injection E as _ <-|done]. Qed.
Lemma keeps_procs_tf_set p f v : keeps_procs (tf_set p f v).
Proof. apply keeps_procs_bind; [apply keeps_procs_gets|]. intros a. by apply keeps_procs_modify. Qed.
Lemma keeps_procs_tf_get p f : keeps_procs (tf_get p f).
Proof. apply keeps_procs_bind; intros; apply keeps_procs_gets. Qed.

Lemma keeps_procs_usertrapret tr : keeps_procs (usertrapret tr).
Proof.
  unfold usertrapret. apply keeps_procs_bind; [apply keeps_procs_myproc_|]. intros p.
  repeat (apply keeps_procs_bind; [auto using keeps_procs_tf_set, keeps_procs_tf_get, keeps_procs_gets|intros ?]).
  intros ? ? ? [= _ <-]. done.
Qed.

Lemma killed_inv p s kd s' : killed p s = Ok kd s' -> kd = p_killed (get_proc s' p).
Proof.
  unfold killed. intros ([] & s1 & E1 & E)%bind_inv. apply bind_inv in E as (k & s2 & E2 & E). injection E2 as <- <-.
  apply bind_inv in E as ([] & s3 & E3 & E). injection E as <- <-.
  unfold release in E3. case_decide; [|done]. by injection E3 as <-.
Qed.


End Traps.

(** ** Witnesses *)

(** Process 0 runs, with number [num] in [a7] of its trapframe. *)
Definition calling (num : Z) : kstate :=
  set_k_mem (store64 (k_mem kstate_zero) (4096 + tf_a7) num)
    (set_k_cur (Some 0%nat) (upd_proc 0 (fun p => set_p_trapframe 4096 (set_p_pid 7 p)) kstate_zero)).

Definition tramp0 : Trampoline := Build_Trampoline 0 0.

Lemma syscall_balanced_witness :
  exists s', syscall (L := small_layout 3) (fun _ => []) (calling 14) = Ok tt s' /\ k_held s' = [].
Proof.
  assert (E : syscall (L := small_layout 3) (fun _ => []) (calling 14) =
    Ok tt (set_k_mem (store64 (k_mem (calling 14)) (4096 + tf_a0) 0) (calling 14))) by reflexivity.
  eexists. split; [exact E|].
  apply (syscall_balanced (L := small_layout 3) (fun _ => []) (calling 14) _ 0); [reflexivity|discriminate|exact E].
Defined.

