(* ===== verification/Asm.v ===== *)
(** * kernel/trampoline.S, swtch.S, kernelvec.S, entry.S and kernel/start.c: the
    code under the C code

    A hart is its registers, the control registers this code names, memory and
    where it goes next.  Each routine is the list of its instructions, in the
    order of the source, and [run] executes them.  [mmu] is the translation of
    addresses: what the page tables in memory, [satp] and a virtual address
    give, [None] being a page fault; in machine mode, addresses are physical.
    The TLB is not modelled: [sfence.vma] does nothing. *)

From S2P Require Import Prelude KState Proc.

(** ** The hart *)

Inductive reg : Set :=
| Rra | Rsp | Rgp | Rtp | Rt0 | Rt1 | Rt2 | Rs0 | Rs1 | Ra0 | Ra1 | Ra2 | Ra3 | Ra4 | Ra5 | Ra6 | Ra7
| Rs2 | Rs3 | Rs4 | Rs5 | Rs6 | Rs7 | Rs8 | Rs9 | Rs10 | Rs11 | Rt3 | Rt4 | Rt5 | Rt6.

#[export] Instance reg_eq : EqDecision reg.
Proof. solve_decision. Defined.

Inductive csr : Set := Sscratch | Satp | Mscratch | Sip | Mhartid | Mstatus | Mepc | Medeleg | Mideleg | Sie | Pmpaddr0 | Pmpcfg0 | Mtvec | Mie.

#[export] Instance csr_eq : EqDecision csr.
Proof. solve_decision. Defined.

(** Where the hart goes: to the next instruction, to an address, or back from a trap. *)
Inductive goes : Type := Next | Jump (a : Z) | ByMret | BySret.

Record core : Type := mkHart {
  h_reg : reg -> Z;
  h_csr : csr -> Z;
  h_mem : mem;
  h_goes : goes;
}.

Definition set_reg (r : reg) (v : Z) (h : core) : core :=
  mkHart (fun x => if decide (x = r) then v else h_reg h x) (h_csr h) (h_mem h) (h_goes h).
Definition set_csr (c : csr) (v : Z) (h : core) : core :=
  mkHart (h_reg h) (fun x => if decide (x = c) then v else h_csr h x) (h_mem h) (h_goes h).
Definition set_mem (m : mem) (h : core) : core := mkHart (h_reg h) (h_csr h) m (h_goes h).
Definition set_goes (g : goes) (h : core) : core := mkHart (h_reg h) (h_csr h) (h_mem h) g.

(** ** Instructions *)

Inductive instr : Type :=
| Sd (rs : reg) (off : Z) (base : reg)
| Ld (rd : reg) (off : Z) (base : reg)
| Li (rd : reg) (v : Z)
| Addi (rd rs : reg) (v : Z)
| Add (rd rs1 rs2 : reg)
| Mul (rd rs1 rs2 : reg)
| Csrr (rd : reg) (c : csr)
| Csrw (c : csr) (rs : reg)
| Csrrw (rd : reg) (c : csr) (rs : reg)
| Sfence_vma
| Jr (rs : reg)
| Sret
| Mret.

Definition mmu_t : Type := mem -> Z -> Z -> option Z.

Definition step (mmu : mmu_t) (i : instr) (h : core) : option core :=
  match i with
  | Sd rs off base => pa ← mmu (h_mem h) (h_csr h Satp) (u64 (h_reg h base + off)); Some (set_mem (store64 (h_mem h) pa (h_reg h rs)) h)
  | Ld rd off base => pa ← mmu (h_mem h) (h_csr h Satp) (u64 (h_reg h base + off)); Some (set_reg rd (load64 (h_mem h) pa) h)
  | Li rd v => Some (set_reg rd (u64 v) h)
  | Addi rd rs v => Some (set_reg rd (u64 (h_reg h rs + v)) h)
  | Add rd rs1 rs2 => Some (set_reg rd (u64 (h_reg h rs1 + h_reg h rs2)) h)
  | Mul rd rs1 rs2 => Some (set_reg rd (u64 (h_reg h rs1 * h_reg h rs2)) h)
  | Csrr rd c => Some (set_reg rd (h_csr h c) h)
  | Csrw c rs => Some (set_csr c (h_reg h rs) h)
  | Csrrw rd c rs => Some (set_reg rd (h_csr h c) (set_csr c (h_reg h rs) h))
  | Sfence_vma => Some h
  | Jr rs => Some (set_goes (Jump (h_reg h rs)) h)
  | Sret => Some (set_goes BySret h)
  | Mret => Some (set_goes ByMret h)
  end.

Fixpoint run (mmu : mmu_t) (l : list instr) (h : core) : option core :=
  match l with
  | [] => Some h
  | i :: l => h ← step mmu i h; run mmu l h
  end.

(** ** trampoline.S *)

Definition uservec : list instr := [
  Csrw Sscratch Ra0;
  Li Ra0 TRAPFRAME;
  Sd Rra 40 Ra0;
  Sd Rsp 48 Ra0;
  Sd Rgp 56 Ra0;
  Sd Rtp 64 Ra0;
  Sd Rt0 72 Ra0;
  Sd Rt1 80 Ra0;
  Sd Rt2 88 Ra0;
  Sd Rs0 96 Ra0;
  Sd Rs1 104 Ra0;
  Sd Ra1 120 Ra0;
  Sd Ra2 128 Ra0;
  Sd Ra3 136 Ra0;
  Sd Ra4 144 Ra0;
  Sd Ra5 152 Ra0;
  Sd Ra6 160 Ra0;
  Sd Ra7 168 Ra0;
  Sd Rs2 176 Ra0;
  Sd Rs3 184 Ra0;
  Sd Rs4 192 Ra0;
  Sd Rs5 200 Ra0;
  Sd Rs6 208 Ra0;
  Sd Rs7 216 Ra0;
  Sd Rs8 224 Ra0;
  Sd Rs9 232 Ra0;
  Sd Rs10 240 Ra0;
  Sd Rs11 248 Ra0;
  Sd Rt3 256 Ra0;
  Sd Rt4 264 Ra0;
  Sd Rt5 272 Ra0;
  Sd Rt6 280 Ra0;
  Csrr Rt0 Sscratch;
  Sd Rt0 112 Ra0;
  Ld Rsp 8 Ra0;
  Ld Rtp 32 Ra0;
  Ld Rt0 16 Ra0;
  Ld Rt1 0 Ra0;
  Sfence_vma;
  Csrw Satp Rt1;
  Sfence_vma;
  Jr Rt0].

Definition userret : list instr := [
  Sfence_vma;
  Csrw Satp Ra0;
  Sfence_vma;
  Li Ra0 TRAPFRAME;
  Ld Rra 40 Ra0;
  Ld Rsp 48 Ra0;
  Ld Rgp 56 Ra0;
  Ld Rtp 64 Ra0;
  Ld Rt0 72 Ra0;
  Ld Rt1 80 Ra0;
  Ld Rt2 88 Ra0;
  Ld Rs0 96 Ra0;
  Ld Rs1 104 Ra0;
  Ld Ra1 120 Ra0;
  Ld Ra2 128 Ra0;
  Ld Ra3 136 Ra0;
  Ld Ra4 144 Ra0;
  Ld Ra5 152 Ra0;
  Ld Ra6 160 Ra0;
  Ld Ra7 168 Ra0;
  Ld Rs2 176 Ra0;
  Ld Rs3 184 Ra0;
  Ld Rs4 192 Ra0;
  Ld Rs5 200 Ra0;
  Ld Rs6 208 Ra0;
  Ld Rs7 216 Ra0;
  Ld Rs8 224 Ra0;
  Ld Rs9 232 Ra0;
  Ld Rs10 240 Ra0;
  Ld Rs11 248 Ra0;
  Ld Rt3 256 Ra0;
  Ld Rt4 264 Ra0;
  Ld Rt5 272 Ra0;
  Ld Rt6 280 Ra0;
  Ld Ra0 112 Ra0;
  Sret].

(** ** swtch.S *)

(** [ret] is a jump to [ra]. *)
Definition swtch : list instr := [
  Sd Rra 0 Ra0;
  Sd Rsp 8 Ra0;
  Sd Rs0 16 Ra0;
  Sd Rs1 24 Ra0;
  Sd Rs2 32 Ra0;
  Sd Rs3 40 Ra0;
  Sd Rs4 48 Ra0;
  Sd Rs5 56 Ra0;
  Sd Rs6 64 Ra0;
  Sd Rs7 72 Ra0;
  Sd Rs8 80 Ra0;
  Sd Rs9 88 Ra0;
  Sd Rs10 96 Ra0;
  Sd Rs11 104 Ra0;
  Ld Rra 0 Ra1;
  Ld Rsp 8 Ra1;
  Ld Rs0 16 Ra1;
  Ld Rs1 24 Ra1;
  Ld Rs2 32 Ra1;
  Ld Rs3 40 Ra1;
  Ld Rs4 48 Ra1;
  Ld Rs5 56 Ra1;
  Ld Rs6 64 Ra1;
  Ld Rs7 72 Ra1;
  Ld Rs8 80 Ra1;
  Ld Rs9 88 Ra1;
  Ld Rs10 96 Ra1;
  Ld Rs11 104 Ra1;
  Jr Rra].

(** ** kernelvec.S *)

(** Up to the call of [kerneltrap], and from its return on. *)
Definition kernelvec_save : list instr := [
  Addi Rsp Rsp (-256);
  Sd Rra 0 Rsp;
  Sd Rsp 8 Rsp;
  Sd Rgp 16 Rsp;
  Sd Rtp 24 Rsp;
  Sd Rt0 32 Rsp;
  Sd Rt1 40 Rsp;
  Sd Rt2 48 Rsp;
  Sd Rs0 56 Rsp;
  Sd Rs1 64 Rsp;
  Sd Ra0 72 Rsp;
  Sd Ra1 80 Rsp;
  Sd Ra2 88 Rsp;
  Sd Ra3 96 Rsp;
  Sd Ra4 104 Rsp;
  Sd Ra5 112 Rsp;
  Sd Ra6 120 Rsp;
  Sd Ra7 128 Rsp;
  Sd Rs2 136 Rsp;
  Sd Rs3 144 Rsp;
  Sd Rs4 152 Rsp;
  Sd Rs5 160 Rsp;
  Sd Rs6 168 Rsp;
  Sd Rs7 176 Rsp;
  Sd Rs8 184 Rsp;
  Sd Rs9 192 Rsp;
  Sd Rs10 200 Rsp;
  Sd Rs11 208 Rsp;
  Sd Rt3 216 Rsp;
  Sd Rt4 224 Rsp;
  Sd Rt5 232 Rsp;
  Sd Rt6 240 Rsp].

Definition kernelvec_restore : list instr := [
  Ld Rra 0 Rsp;
  Ld Rsp 8 Rsp;
  Ld Rgp 16 Rsp;
  Ld Rt0 32 Rsp;
  Ld Rt1 40 Rsp;
  Ld Rt2 48 Rsp;
  Ld Rs0 56 Rsp;
  Ld Rs1 64 Rsp;
  Ld Ra0 72 Rsp;
  Ld Ra1 80 Rsp;
  Ld Ra2 88 Rsp;
  Ld Ra3 96 Rsp;
  Ld Ra4 104 Rsp;
  Ld Ra5 112 Rsp;
  Ld Ra6 120 Rsp;
  Ld Ra7 128 Rsp;
  Ld Rs2 136 Rsp;
  Ld Rs3 144 Rsp;
  Ld Rs4 152 Rsp;
  Ld Rs5 160 Rsp;
  Ld Rs6 168 Rsp;
  Ld Rs7 176 Rsp;
  Ld Rs8 184 Rsp;
  Ld Rs9 192 Rsp;
  Ld Rs10 200 Rsp;
  Ld Rs11 208 Rsp;
  Ld Rt3 216 Rsp;
  Ld Rt4 224 Rsp;
  Ld Rt5 232 Rsp;
  Ld Rt6 240 Rsp;
  Addi Rsp Rsp 256;
  Sret].

(** [kerneltrap] is what the call does to the hart, the return address in [ra] included. *)
Definition kernelvec (mmu : mmu_t) (kerneltrap : core -> option core) (h : core) : option core :=
  h ← run mmu kernelvec_save h; h ← kerneltrap h; run mmu kernelvec_restore h.

Definition timervec : list instr := [
  Csrrw Ra0 Mscratch Ra0;
  Sd Ra1 0 Ra0;
  Sd Ra2 8 Ra0;
  Sd Ra3 16 Ra0;
  Ld Ra1 24 Ra0;
  Ld Ra2 32 Ra0;
  Ld Ra3 0 Ra1;
  Add Ra3 Ra3 Ra2;
  Sd Ra3 0 Ra1;
  Li Ra1 2;
  Csrw Sip Ra1;
  Ld Ra3 16 Ra0;
  Ld Ra2 8 Ra0;
  Ld Ra1 0 Ra0;
  Csrrw Ra0 Mscratch Ra0;
  Mret].

(** ** entry.S *)

(** [la] takes the address of [stack0]; the call of [start] is [Jump]. *)
Definition _entry (stack0 start : Z) : list instr := [
  Li Rsp stack0;
  Li Ra0 (1024 * 4);
  Csrr Ra1 Mhartid;
  Addi Ra1 Ra1 1;
  Mul Ra0 Ra0 Ra1;
  Add Rsp Rsp Ra0;
  Li Rra start;
  Jr Rra].

(** ** start.c *)

Definition CLINT : Z := 0x2000000.
Definition CLINT_MTIMECMP (hartid : Z) : Z := CLINT + 0x4000 + 8 * hartid.
Definition CLINT_MTIME : Z := CLINT + 0xBFF8.
Definition MSTATUS_MPP_MASK : Z := Z.shiftl 3 11.
Definition MSTATUS_MPP_S : Z := Z.shiftl 1 11.
Definition MSTATUS_MIE : Z := Z.shiftl 1 3.
Definition MIE_MTIE : Z := Z.shiftl 1 7.
Definition SIE_SEIE : Z := Z.shiftl 1 9.
Definition SIE_STIE : Z := Z.shiftl 1 5.
Definition SIE_SSIE : Z := Z.shiftl 1 1.

(** The addresses of [timer_scratch], [timervec] and [main] are arguments. *)
Definition timerinit (timer_scratch timervec_ : Z) (h : core) : core :=
  let id := s32 (h_csr h Mhartid) in
  let interval := 1000000 in
  let h := set_mem (store64 (h_mem h) (CLINT_MTIMECMP id) (u64 (load64 (h_mem h) CLINT_MTIME + interval))) h in
  let scratch := u64 (timer_scratch + 40 * id) in
  let h := set_mem (store64 (h_mem h) (scratch + 24) (CLINT_MTIMECMP id)) h in
  let h := set_mem (store64 (h_mem h) (scratch + 32) interval) h in
  let h := set_csr Mscratch scratch h in
  let h := set_csr Mtvec timervec_ h in
  let h := set_csr Mstatus (Z.lor (h_csr h Mstatus) MSTATUS_MIE) h in
  set_csr Mie (Z.lor (h_csr h Mie) MIE_MTIE) h.

Definition start (timer_scratch timervec_ main : Z) (h : core) : core :=
  let x := h_csr h Mstatus in
  let x := Z.land x (Z.lnot MSTATUS_MPP_MASK) in
  let x := Z.lor x MSTATUS_MPP_S in
  let h := set_csr Mstatus x h in
  let h := set_csr Mepc main h in
  let h := set_csr Satp 0 h in
  let h := set_csr Medeleg 0xffff h in
  let h := set_csr Mideleg 0xffff h in
  let h := set_csr Sie (Z.lor (Z.lor (Z.lor (h_csr h Sie) SIE_SEIE) SIE_STIE) SIE_SSIE) h in
  let h := set_csr Pmpaddr0 0x3fffffffffffff h in
  let h := set_csr Pmpcfg0 0xf h in
  let h := timerinit timer_scratch timervec_ h in
  let id := s32 (h_csr h Mhartid) in
  let h := set_reg Rtp (u64 id) h in
  set_goes ByMret h.

(** ** Runs of stores and of loads *)

(** A closed decidable statement. *)
Ltac by_decision := apply (bool_decide_unpack _); vm_compute; exact I.

Definition slots : Type := list (reg * Z).

Definition saves (base : reg) (l : slots) : list instr := (fun ro => Sd (fst ro) (snd ro) base) <$> l.
Definition loads (base : reg) (l : slots) : list instr := (fun ro => Ld (fst ro) (snd ro) base) <$> l.

(** What they leave: registers [f] stored from [pa] on, and loaded over [f]. *)
Fixpoint stored (pa : Z) (l : slots) (f : reg -> Z) (m : mem) : mem :=
  match l with
  | [] => m
  | (r, o) :: l => stored pa l f (store64 m (pa + o) (f r))
  end.

Fixpoint loaded (pa : Z) (l : slots) (m : mem) (f : reg -> Z) : reg -> Z :=
  match l with
  | [] => f
  | (r, o) :: l => loaded pa l m (fun x => if decide (x = r) then load64 m (pa + o) else f x)
  end.

(** The slots do not overlap. *)
Definition apart (l : slots) : Prop := NoDup (snd <$> l) /\ Forall (fun ro => snd ro mod 8 = 0) l.

Definition wide (h : core) : Prop := forall r, 0 <= h_reg h r < 2 ^ 64.

(** The base register [b] leads to [pa] for every slot, whatever is in the [n]
    bytes at [pa]. *)
Definition leads (mmu : mmu_t) (m : mem) (sat b pa n : Z) (l : slots) : Prop :=
  Forall (fun ro => 0 <= snd ro <= n - 8) l /\
  forall m', (forall a, ~ pa <= a < pa + n -> rd m' a = rd m a) -> Forall (fun ro => mmu m' sat (u64 (b + snd ro)) = Some (pa + snd ro)) l.

Lemma run_app mmu l l' h : run mmu (l ++ l') h = (h ← run mmu l h; run mmu l' h).
Proof. revert h. induction l as [|i l IH]; intros h; [done|]. cbn [run app]. destruct (step mmu i h); [|done]. apply IH. Qed.

Lemma leads_cons mmu m sat b pa n ro l : leads mmu m sat b pa n (ro :: l) ->
  mmu m sat (u64 (b + snd ro)) = Some (pa + snd ro) /\ leads mmu m sat b pa n l /\ forall v, leads mmu (store64 m (pa + snd ro) v) sat b pa n l.
Proof.
  intros [H1 H2]. apply Forall_cons in H1 as [Ho H1]. pose proof (H2 m ltac:(done)) as Hm. apply Forall_cons in Hm as [Hm _].
  split; [done|]. split; [split; [done|]; intros m' Hm'; specialize (H2 m' Hm'); by inversion H2|]. intros v. split; [done|]. intros m' Hm'.
  specialize (H2 m'). apply Forall_cons in H2 as [_ H2]; [done|]. intros a Ha. rewrite Hm' by done. apply rd_store64_other. lia.
Qed.

Lemma run_saves mmu base pa n l : forall h, leads mmu (h_mem h) (h_csr h Satp) (h_reg h base) pa n l ->
  run mmu (saves base l) h = Some (set_mem (stored pa l (h_reg h) (h_mem h)) h).
Proof.
  induction l as [|[r o] l IH]; intros h Hl; [by destruct h|]. apply leads_cons in Hl as (H1 & _ & H2). cbn [saves fmap list_fmap run step fst snd] in *. rewrite H1. cbn [mbind option_bind].
  fold (saves base l). rewrite IH by apply H2. done.
Qed.

Lemma run_loads mmu base pa n l : forall h, base ∉ fst <$> l -> leads mmu (h_mem h) (h_csr h Satp) (h_reg h base) pa n l ->
  run mmu (loads base l) h = Some (mkHart (loaded pa l (h_mem h) (h_reg h)) (h_csr h) (h_mem h) (h_goes h)).
Proof.
  induction l as [|[r o] l IH]; intros h Hb Hl; [by destruct h|]. apply leads_cons in Hl as (H1 & H2 & _). cbn [fmap list_fmap fst] in Hb. apply not_elem_of_cons in Hb as [Hr Hb].
  cbn [loads fmap list_fmap run step fst snd] in *. rewrite H1. cbn [mbind option_bind]. fold (loads base l). rewrite IH; [done|done|]. cbn [h_reg h_csr h_mem set_reg]. by rewrite decide_False.
Qed.

Lemma rd_stored pa l f a : forall m, Forall (fun ro => ~ pa + snd ro <= a < pa + snd ro + 8) l -> rd (stored pa l f m) a = rd m a.
Proof. induction l as [|[r o] l IH]; intros m H; [done|]. inversion H; subst. cbn [stored]. rewrite IH by done. by apply rd_store64_other. Qed.

Lemma load_stored_other pa l f a : forall m, Forall (fun ro => a + 8 <= pa + snd ro \/ pa + snd ro + 8 <= a) l -> load64 (stored pa l f m) a = load64 m a.
Proof.
  intros m H. apply load64_agree. intros b Hb. apply rd_stored. eapply Forall_impl; [exact H|]. cbn. lia.
Qed.

Lemma load_stored pa l f r o : apart l -> (r, o) ∈ l -> forall m, load64 (stored pa l f m) (pa + o) = u64 (f r).
Proof.
  intros [Hn Ha]. induction l as [|[r' o'] l IH]; intros Hin m; [by apply elem_of_nil in Hin|]. cbn [fmap list_fmap fst snd] in *. apply NoDup_cons in Hn as [Hn1 Hn]. inversion Ha as [|? ? Ha1 Ha2]; subst.
  cbn [stored]. apply elem_of_cons in Hin as [E|Hin]; [|by apply IH]. injection E as -> ->. rewrite load_stored_other; [apply load64_store64_same|].
  apply Forall_forall. intros [r2 o2] H2. cbn. assert (o' <> o2) by (intros ->; apply Hn1; change o2 with (snd (r2, o2)); by apply list_elem_of_fmap_2).
  rewrite Forall_forall in Ha2. specialize (Ha2 _ H2). cbn in *. pose proof (Z.div_mod o' 8). pose proof (Z.div_mod o2 8). lia.
Qed.

Lemma loaded_out pa l m r : forall f, r ∉ fst <$> l -> loaded pa l m f r = f r.
Proof.
  induction l as [|[r' o'] l IH]; intros f H; [done|]. cbn [fmap list_fmap fst] in H. apply not_elem_of_cons in H as [H1 H2]. cbn [loaded]. rewrite IH by done. by rewrite decide_False.
Qed.

Lemma loaded_in pa l m r o : NoDup (fst <$> l) -> (r, o) ∈ l -> forall f, loaded pa l m f r = load64 m (pa + o).
Proof.
  induction l as [|[r' o'] l IH]; intros Hn Hin f; [by apply elem_of_nil in Hin|]. cbn [fmap list_fmap fst] in Hn. apply NoDup_cons in Hn as [Hn1 Hn]. cbn [loaded].
  apply elem_of_cons in Hin as [E|Hin]; [|by apply IH]. injection E as -> ->. rewrite loaded_out by done. by rewrite decide_True.
Qed.

(** ** The trampoline *)

(** The offsets of the user registers in struct trapframe. *)
Definition slot (r : reg) : Z :=
  match r with
  | Rra => 40 | Rsp => 48 | Rgp => 56 | Rtp => 64 | Rt0 => 72 | Rt1 => 80 | Rt2 => 88 | Rs0 => 96 | Rs1 => 104
  | Ra0 => 112 | Ra1 => 120 | Ra2 => 128 | Ra3 => 136 | Ra4 => 144 | Ra5 => 152 | Ra6 => 160 | Ra7 => 168
  | Rs2 => 176 | Rs3 => 184 | Rs4 => 192 | Rs5 => 200 | Rs6 => 208 | Rs7 => 216 | Rs8 => 224 | Rs9 => 232 | Rs10 => 240 | Rs11 => 248
  | Rt3 => 256 | Rt4 => 264 | Rt5 => 272 | Rt6 => 280
  end.

(** All but [a0], in the order of the code. *)
Definition user_slots : slots := (fun r => (r, slot r)) <$>
  [Rra; Rsp; Rgp; Rtp; Rt0; Rt1; Rt2; Rs0; Rs1; Ra1; Ra2; Ra3; Ra4; Ra5; Ra6; Ra7; Rs2; Rs3; Rs4; Rs5; Rs6; Rs7; Rs8; Rs9; Rs10; Rs11; Rt3; Rt4; Rt5; Rt6].

Lemma tf_slot_range r : 40 <= slot r <= 280.
Proof. destruct r; cbn; lia. Qed.

Lemma user_slots_in r : r <> Ra0 -> (r, slot r) ∈ user_slots.
Proof. intros H. destruct r; try done; by_decision. Qed.

Lemma user_slots_apart : apart user_slots /\ NoDup (fst <$> user_slots) /\ Ra0 ∉ fst <$> user_slots.
Proof. split_and!; by_decision. Qed.

Lemma user_slots_range : Forall (fun ro => 40 <= snd ro <= 280) user_slots.
Proof. apply Forall_fmap, Forall_forall. intros r _. apply tf_slot_range. Qed.

(** Under the page table of [sat], TRAPFRAME is the page at [tf]; writing there does not change that. *)
Definition maps_trapframe (mmu : mmu_t) (m : mem) (sat tf : Z) : Prop :=
  forall m', (forall a, ~ tf <= a < tf + PGSIZE -> rd m' a = rd m a) -> forall o, 0 <= o < PGSIZE -> mmu m' sat (TRAPFRAME + o) = Some (tf + o).

Lemma maps_leads mmu m sat tf l : maps_trapframe mmu m sat tf -> Forall (fun ro => 0 <= snd ro <= 4088) l -> leads mmu m sat (u64 TRAPFRAME) tf 4096 l.
Proof.
  intros H Hl. split; [done|]. intros m' Hm'. eapply Forall_impl; [exact Hl|]. intros [r o] Ho. cbn in *. replace (u64 (u64 TRAPFRAME + o)) with (TRAPFRAME + o).
  - apply H; [done|]. unfold PGSIZE. lia.
  - unfold u64. change (TRAPFRAME mod 2 ^ 64) with TRAPFRAME. rewrite Z.mod_small; [done|]. change TRAPFRAME with 274877898752. lia.
Qed.

(** What [uservec] takes from the trapframe. *)
Definition kernel_slots : slots := [(Rsp, tf_kernel_sp); (Rtp, tf_kernel_hartid); (Rt0, tf_kernel_trap); (Rt1, tf_kernel_satp)].

Lemma uservec_parts : uservec = [Csrw Sscratch Ra0; Li Ra0 TRAPFRAME] ++ saves Ra0 user_slots ++ [Csrr Rt0 Sscratch] ++ saves Ra0 [(Rt0, 112)] ++
  loads Ra0 kernel_slots ++ [Sfence_vma; Csrw Satp Rt1; Sfence_vma; Jr Rt0].
Proof. reflexivity. Qed.

Lemma userret_parts : userret = [Sfence_vma; Csrw Satp Ra0; Sfence_vma; Li Ra0 TRAPFRAME] ++ loads Ra0 user_slots ++ [Ld Ra0 112 Ra0; Sret].
Proof. reflexivity. Qed.

(** Memory after the registers [f] have been saved at [tf]. *)
Definition trapped (tf : Z) (f : reg -> Z) (m : mem) : mem := store64 (stored tf user_slots f m) (tf + 112) (f Ra0).

Lemma trapped_slot tf f m r : load64 (trapped tf f m) (tf + slot r) = u64 (f r).
Proof.
  unfold trapped. destruct (decide (r = Ra0)) as [->|Hr]; [apply load64_store64_same|]. rewrite load64_store64_other by (destruct r; cbn; lia || done).
  apply load_stored; [apply user_slots_apart|by apply user_slots_in].
Qed.

Lemma trapped_other tf f m a : ~ tf + 40 <= a < tf + 288 -> rd (trapped tf f m) a = rd m a.
Proof.
  intros H. unfold trapped. rewrite rd_store64_other by lia. apply rd_stored. eapply Forall_impl; [apply user_slots_range|]. intros ro Ho. cbn in Ho. lia.
Qed.

Lemma trapped_load tf f m o : 0 <= o <= 32 -> load64 (trapped tf f m) (tf + o) = load64 m (tf + o).
Proof. intros H. apply load64_agree. intros b Hb. apply trapped_other. lia. Qed.

Lemma maps_agree mmu m m' sat tf : maps_trapframe mmu m sat tf -> (forall a, ~ tf <= a < tf + PGSIZE -> rd m' a = rd m a) -> maps_trapframe mmu m' sat tf.
Proof. intros H Hm m2 H2. apply H. intros a Ha. by rewrite H2, Hm. Qed.

Lemma uservec_ok mmu tf h : maps_trapframe mmu (h_mem h) (h_csr h Satp) tf -> exists k, run mmu uservec h = Some k /\
  h_goes k = Jump (load64 (h_mem h) (tf + tf_kernel_trap)) /\ h_reg k Rsp = load64 (h_mem h) (tf + tf_kernel_sp) /\ h_reg k Rtp = load64 (h_mem h) (tf + tf_kernel_hartid) /\
  h_csr k Satp = load64 (h_mem h) (tf + tf_kernel_satp) /\ h_mem k = trapped tf (h_reg h) (h_mem h).
Proof.
  intros H. rewrite uservec_parts, run_app. cbn [run step mbind option_bind]. set (h1 := set_reg _ _ _).
  assert (L1 : leads mmu (h_mem h1) (h_csr h1 Satp) (h_reg h1 Ra0) tf 4096 user_slots) by (apply maps_leads; [exact H|]; eapply Forall_impl; [apply user_slots_range|cbn; lia]).
  rewrite run_app, (run_saves _ _ _ _ _ _ L1). cbn [mbind option_bind]. rewrite run_app. cbn [run step mbind option_bind]. set (h2 := set_reg _ _ _).
  assert (Em : h_mem h2 = stored tf user_slots (h_reg h) (h_mem h)).
  { change (stored tf user_slots (h_reg h1) (h_mem h) = stored tf user_slots (h_reg h) (h_mem h)). unfold user_slots. cbn [fmap list_fmap stored]. reflexivity. }
  assert (H2 : maps_trapframe mmu (h_mem h2) (h_csr h Satp) tf).
  { eapply maps_agree; [exact H|]. intros a Ha. rewrite Em. apply rd_stored. eapply Forall_impl; [apply user_slots_range|]. unfold PGSIZE in Ha. cbn. lia. }
  assert (L2 : leads mmu (h_mem h2) (h_csr h2 Satp) (h_reg h2 Ra0) tf 4096 [(Rt0, 112)]) by (apply maps_leads; [exact H2|by_decision]).
  rewrite run_app, (run_saves _ _ _ _ _ _ L2). cbn [mbind option_bind]. set (h3 := set_mem _ h2).
  assert (E3 : h_mem h3 = trapped tf (h_reg h) (h_mem h)) by (change (store64 (h_mem h2) (tf + 112) (h_reg h Ra0) = trapped tf (h_reg h) (h_mem h)); by rewrite Em).
  assert (L3 : leads mmu (h_mem h3) (h_csr h3 Satp) (h_reg h3 Ra0) tf 4096 kernel_slots).
  { apply maps_leads; [|by_decision]. eapply maps_agree; [exact H|]. intros a Ha. rewrite E3. apply trapped_other. unfold PGSIZE in Ha. lia. }
  assert (Hk : Ra0 ∉ fst <$> kernel_slots) by by_decision. rewrite run_app, (run_loads _ _ _ _ _ h3 Hk L3). cbn [mbind option_bind run step].
  eexists. split; [reflexivity|]. clearbody h3. cbn -[load64 store64 trapped]. rewrite !E3, !trapped_load by (cbv; done). done.
Qed.

Lemma userret_ok mmu tf n : maps_trapframe mmu (h_mem n) (h_reg n Ra0) tf -> exists u, run mmu userret n = Some u /\
  h_goes u = BySret /\ h_csr u Satp = h_reg n Ra0 /\ h_mem u = h_mem n /\ forall r, h_reg u r = load64 (h_mem n) (tf + slot r).
Proof.
  intros H. rewrite userret_parts, run_app. cbn [run step mbind option_bind]. set (h1 := set_reg _ _ _).
  assert (L1 : leads mmu (h_mem h1) (h_csr h1 Satp) (h_reg h1 Ra0) tf 4096 user_slots) by (apply maps_leads; [exact H|]; eapply Forall_impl; [apply user_slots_range|cbn; lia]).
  destruct user_slots_apart as (_ & Hn & Ha0). rewrite run_app, (run_loads _ _ _ _ _ h1 Ha0 L1). cbn [mbind option_bind run step h_reg h_csr h_mem].
  rewrite loaded_out by done. assert (L2 : leads mmu (h_mem h1) (h_csr h1 Satp) (h_reg h1 Ra0) tf 4096 [(Ra0, 112)]) by (apply maps_leads; [exact H|by_decision]).
  apply leads_cons in L2 as (E & _). cbn [snd] in E. rewrite E. cbn [mbind option_bind]. eexists. split; [reflexivity|]. split_and!; [done|done|done|].
  intros r. cbn [h_reg set_reg set_goes]. destruct (decide (r = Ra0)) as [->|Hr]; [done|]. apply loaded_in; [done|by apply user_slots_in].
Qed.

(** ** Context switches *)

(** Addresses in [P] are physical, whatever is stored there. *)
Definition direct (mmu : mmu_t) (m : mem) (sat : Z) (P : Z -> Prop) : Prop :=
  forall m', (forall a, ~ P a -> rd m' a = rd m a) -> forall a, P a -> mmu m' sat a = Some a.

Lemma direct_agree mmu m m' sat P : direct mmu m sat P -> (forall a, ~ P a -> rd m' a = rd m a) -> direct mmu m' sat P.
Proof. intros H Hm m2 H2. apply H. intros a Ha. by rewrite H2, Hm. Qed.

Lemma direct_leads mmu m sat P b n l : direct mmu m sat P -> 0 <= b -> b + n <= 2 ^ 64 -> (forall a, b <= a < b + n -> P a) -> Forall (fun ro => 0 <= snd ro <= n - 8) l ->
  leads mmu m sat b b n l.
Proof.
  intros H Hb Hn HP Hl. split; [done|]. intros m' Hm'. eapply Forall_impl; [exact Hl|]. intros ro Ho. cbn in Ho. unfold u64. rewrite Z.mod_small by lia.
  apply H; [intros a Ha; apply Hm'; intros Hr; by apply Ha, HP|]. apply HP. lia.
Qed.

(** struct context *)
Definition context_slots : slots := [(Rra, 0); (Rsp, 8); (Rs0, 16); (Rs1, 24); (Rs2, 32); (Rs3, 40); (Rs4, 48); (Rs5, 56); (Rs6, 64); (Rs7, 72); (Rs8, 80); (Rs9, 88); (Rs10, 96); (Rs11, 104)].

Lemma swtch_parts : swtch = saves Ra0 context_slots ++ loads Ra1 context_slots ++ [Jr Rra].
Proof. reflexivity. Qed.

Definition in_context (c a : Z) : Prop := c <= a < c + 112.

Lemma context_range : Forall (fun ro => 0 <= snd ro <= 112 - 8) context_slots.
Proof. by_decision. Qed.

Lemma context_apart : apart context_slots /\ NoDup (fst <$> context_slots) /\ Ra1 ∉ fst <$> context_slots.
Proof. split_and!; by_decision. Qed.

Lemma context_rd_stored c f m a : ~ in_context c a -> rd (stored c context_slots f m) a = rd m a.
Proof. intros H. apply rd_stored. eapply Forall_impl; [apply context_range|]. unfold in_context in H. cbn. lia. Qed.

Lemma swtch_ok mmu h : let old := h_reg h Ra0 in let new := h_reg h Ra1 in
  wide h -> old + 112 <= 2 ^ 64 -> new + 112 <= 2 ^ 64 -> (old + 112 <= new \/ new + 112 <= old) ->
  direct mmu (h_mem h) (h_csr h Satp) (fun a => in_context old a \/ in_context new a) ->
  exists k, run mmu swtch h = Some k /\ h_goes k = Jump (load64 (h_mem h) (new + 0)) /\
    (forall r o, (r, o) ∈ context_slots -> h_reg k r = load64 (h_mem h) (new + o) /\ load64 (h_mem k) (old + o) = h_reg h r) /\
    (forall r, r ∉ fst <$> context_slots -> h_reg k r = h_reg h r) /\ h_csr k = h_csr h /\ forall a, ~ in_context old a -> rd (h_mem k) a = rd (h_mem h) a.
Proof.
  intros old new Hw Ho Hn Hd H. destruct context_apart as (Ha & Hnd & Hb). rewrite swtch_parts, run_app.
  assert (L1 : leads mmu (h_mem h) (h_csr h Satp) old old 112 context_slots) by (apply (direct_leads _ _ _ _ _ _ _ H); [apply Hw|done|by left|apply context_range]).
  rewrite (run_saves _ _ _ _ _ _ L1). cbn [mbind option_bind]. set (h1 := set_mem _ h).
  assert (L2 : leads mmu (h_mem h1) (h_csr h1 Satp) (h_reg h1 Ra1) new 112 context_slots).
  { eapply direct_leads; [eapply direct_agree; [exact H|]|apply Hw|done|by right|apply context_range]. intros a Hp. apply context_rd_stored. tauto. }
  rewrite run_app, (run_loads _ _ _ _ _ h1 Hb L2). cbn [mbind option_bind run step]. eexists. split; [reflexivity|]. cbn [h_goes h_reg h_mem h_csr set_goes set_mem].
  assert (Hl : forall o, 0 <= o <= 104 -> load64 (h_mem h1) (new + o) = load64 (h_mem h) (new + o)).
  { intros o Hr. apply load64_agree. intros a Hr'. apply context_rd_stored. unfold in_context. lia. }
  split; [rewrite (loaded_in _ _ _ Rra 0) by (done || by_decision); by rewrite Hl|]. split; [|split; [|split; [done|intros a Hp; by apply context_rd_stored]]].
  - intros r o Hr. pose proof context_range as Hcr. rewrite Forall_forall in Hcr. specialize (Hcr _ Hr). cbn in Hcr. rewrite (loaded_in _ _ _ r o), Hl by (done || lia). split; [done|].
    unfold h1. cbn [h_mem set_mem]. rewrite (load_stored _ _ _ r o) by done. unfold u64. apply Z.mod_small, Hw.
  - intros r Hr. by apply loaded_out.
Qed.

(** ** Traps in the kernel *)

Definition kernelvec_slots : slots := [(Rra, 0); (Rsp, 8); (Rgp, 16); (Rtp, 24); (Rt0, 32); (Rt1, 40); (Rt2, 48); (Rs0, 56); (Rs1, 64); (Ra0, 72); (Ra1, 80); (Ra2, 88); (Ra3, 96); (Ra4, 104); (Ra5, 112); (Ra6, 120); (Ra7, 128);
  (Rs2, 136); (Rs3, 144); (Rs4, 152); (Rs5, 160); (Rs6, 168); (Rs7, 176); (Rs8, 184); (Rs9, 192); (Rs10, 200); (Rs11, 208); (Rt3, 216); (Rt4, 224); (Rt5, 232); (Rt6, 240)].

(** Those that are loaded after [ra] and [sp]. *)
Definition restored_slots : slots := filter (fun ro => fst ro <> Rra /\ fst ro <> Rsp /\ fst ro <> Rtp) kernelvec_slots.

Lemma kernelvec_parts : kernelvec_save = Addi Rsp Rsp (-256) :: saves Rsp kernelvec_slots /\
  kernelvec_restore = loads Rsp [(Rra, 0)] ++ [Ld Rsp 8 Rsp] ++ loads Rsp restored_slots ++ [Addi Rsp Rsp 256; Sret].
Proof. split; reflexivity. Qed.

Lemma kernelvec_slots_ok : apart kernelvec_slots /\ Forall (fun ro => 0 <= snd ro <= 256 - 8) kernelvec_slots /\ NoDup (fst <$> restored_slots) /\ Rsp ∉ fst <$> restored_slots /\
  Forall (fun ro => 0 <= snd ro <= 256 - 8) restored_slots.
Proof. split_and!; by_decision. Qed.

(** The offsets are those of the trapframe, from 0. *)
Lemma kernelvec_in r : (r, slot r - 40) ∈ kernelvec_slots /\ (r <> Rra -> r <> Rsp -> r <> Rtp -> (r, slot r - 40) ∈ restored_slots).
Proof. destruct r; (split; [by_decision|intros ? ? ?; done || by_decision]). Qed.

Lemma kernelvec_save_ok mmu h : let b := h_reg h Rsp - 256 in
  wide h -> 0 <= b -> direct mmu (h_mem h) (h_csr h Satp) (fun a => b <= a < b + 256) ->
  exists k, run mmu kernelvec_save h = Some k /\ h_reg k Rsp = b /\ h_csr k = h_csr h /\
    (forall r, load64 (h_mem k) (b + (slot r - 40)) = if decide (r = Rsp) then b else h_reg h r) /\
    (forall r, r <> Rsp -> h_reg k r = h_reg h r) /\ (forall a, ~ b <= a < b + 256 -> rd (h_mem k) a = rd (h_mem h) a).
Proof.
  intros b Hw Hb H. destruct kernelvec_slots_ok as (Ha & Hr & _). rewrite (proj1 kernelvec_parts). cbn [run step mbind option_bind]. set (h1 := set_reg _ _ h).
  pose proof (Hw Rsp) as Hsp. assert (E : h_reg h1 Rsp = b) by (cbn; unfold u64; apply Z.mod_small; lia).
  assert (L : leads mmu (h_mem h1) (h_csr h1 Satp) (h_reg h1 Rsp) b 256 kernelvec_slots) by (rewrite E; apply (direct_leads _ _ _ _ _ _ _ H); [done|lia|done|done]).
  rewrite (run_saves _ _ _ _ _ _ L). eexists. split; [reflexivity|]. split; [exact E|]. split; [done|]. cbn [h_mem set_mem h_reg]. split; [|split].
  - intros r. rewrite (load_stored _ _ _ r (slot r - 40)) by (done || apply kernelvec_in). destruct (decide (r = Rsp)) as [->|Hne]; [rewrite E; unfold u64; apply Z.mod_small; lia|].
    cbn. rewrite decide_False by done. unfold u64. apply Z.mod_small, Hw.
  - intros r Hne. cbn. by rewrite decide_False.
  - intros a Hp. apply rd_stored. eapply Forall_impl; [exact Hr|]. cbn. lia.
Qed.

Lemma kernelvec_restore_ok mmu k : let b := h_reg k Rsp in
  0 <= b -> b + 256 < 2 ^ 64 -> direct mmu (h_mem k) (h_csr k Satp) (fun a => b <= a < b + 256) -> load64 (h_mem k) (b + 8) = b ->
  exists h, run mmu kernelvec_restore k = Some h /\ h_goes h = BySret /\ h_reg h Rsp = b + 256 /\ h_reg h Rtp = h_reg k Rtp /\ h_mem h = h_mem k /\ h_csr h = h_csr k /\
    forall r, r <> Rsp -> r <> Rtp -> h_reg h r = load64 (h_mem k) (b + (slot r - 40)).
Proof.
  intros b Hb Hb2 H Esp. destruct kernelvec_slots_ok as (_ & _ & Hnd & Hsp & Hr). rewrite (proj2 kernelvec_parts), run_app.
  assert (L1 : leads mmu (h_mem k) (h_csr k Satp) b b 256 [(Rra, 0)]) by (apply (direct_leads _ _ _ _ _ _ _ H); [done|lia|done|by_decision]).
  assert (Hra : Rsp ∉ fst <$> [(Rra, 0)]) by by_decision. rewrite (run_loads _ _ _ _ _ k Hra L1). cbn [mbind option_bind]. set (h1 := mkHart _ _ _ _). rewrite run_app. cbn [run step].
  assert (L2 : leads mmu (h_mem k) (h_csr k Satp) b b 256 [(Rsp, 8)]) by (apply (direct_leads _ _ _ _ _ _ _ H); [done|lia|done|by_decision]).
  apply leads_cons in L2 as (E2 & _). cbn [snd] in E2. change (h_mem h1) with (h_mem k). change (h_csr h1) with (h_csr k). change (h_reg h1 Rsp) with b. rewrite E2. cbn [mbind option_bind].
  rewrite Esp. set (h2 := set_reg _ _ h1). assert (L3 : leads mmu (h_mem h2) (h_csr h2 Satp) (h_reg h2 Rsp) b 256 restored_slots) by (change (h_reg h2 Rsp) with b; apply (direct_leads _ _ _ _ _ _ _ H); [done|lia|done|done]).
  rewrite run_app, (run_loads _ _ _ _ _ h2 Hsp L3). cbn [mbind option_bind run step]. eexists. split; [reflexivity|]. cbn [h_goes h_reg h_mem h_csr set_goes set_reg]. split; [done|].
  rewrite decide_True, loaded_out by done. split; [change (h_reg h2 Rsp) with b; unfold u64; apply Z.mod_small; lia|].
  split; [rewrite decide_False by done; rewrite loaded_out by by_decision; done|]. split; [done|]. split; [done|].
  intros r H1 H2. rewrite decide_False by done. destruct (decide (r = Rra)) as [->|H3]; [rewrite loaded_out by by_decision; done|]. apply loaded_in; [done|by apply kernelvec_in].
Qed.

(** ** The timer *)

(** Machine mode: no translation. *)
Definition bare : mmu_t := fun _ _ a => Some a.

Definition timer_slots : slots := [(Ra1, 0); (Ra2, 8); (Ra3, 16)].

Definition timer_work : list instr := [Ld Ra1 24 Ra0; Ld Ra2 32 Ra0; Ld Ra3 0 Ra1; Add Ra3 Ra3 Ra2; Sd Ra3 0 Ra1; Li Ra1 2; Csrw Sip Ra1].

Lemma timervec_parts : timervec = [Csrrw Ra0 Mscratch Ra0] ++ saves Ra0 timer_slots ++ timer_work ++ loads Ra0 (rev timer_slots) ++ [Csrrw Ra0 Mscratch Ra0; Mret].
Proof. reflexivity. Qed.

Lemma get_set_same r v h : h_reg (set_reg r v h) r = v.
Proof. cbn. by rewrite decide_True. Qed.

Lemma get_set_other r r' v h : r <> r' -> h_reg (set_reg r' v h) r = h_reg h r.
Proof. intros H. cbn. by rewrite decide_False. Qed.

(** Between the saving and the restoring: the next interrupt is due [interval] later. *)
Lemma timer_work_ok k b cmp : h_reg k Ra0 = b -> 0 <= b -> b + 40 <= 2 ^ 64 -> load64 (h_mem k) (b + 24) = cmp ->
  exists k', run bare timer_work k = Some k' /\ h_mem k' = store64 (h_mem k) cmp (u64 (load64 (h_mem k) cmp + load64 (h_mem k) (b + 32))) /\
    (forall r, r ∉ fst <$> rev timer_slots -> h_reg k' r = h_reg k r) /\ h_csr k' Sip = 2 /\ (forall c, c <> Sip -> h_csr k' c = h_csr k c).
Proof.
  intros Ha0 Hb Hb2 Hc. pose proof (load64_range (h_mem k) (b + 24)) as Hr. rewrite Hc in Hr. unfold timer_work.
  assert (E : forall x o, 0 <= x + o < 2 ^ 64 -> u64 (x + o) = x + o) by (intros x o Hx; by apply Z.mod_small).
  cbn [run step mbind option_bind bare]. rewrite Ha0, (E b 24), Hc by lia. set (k1 := set_reg Ra1 cmp k).
  change (h_reg k1 Ra0) with (h_reg k Ra0). rewrite Ha0, (E b 32) by lia. change (h_mem k1) with (h_mem k). set (k2 := set_reg Ra2 _ k1).
  change (h_reg k2 Ra1) with cmp. rewrite (E cmp 0), Z.add_0_r by lia. change (h_mem k2) with (h_mem k). set (k3 := set_reg Ra3 _ k2).
  change (h_reg k3 Ra3) with (load64 (h_mem k) cmp). change (h_reg k3 Ra2) with (load64 (h_mem k) (b + 32)). set (k4 := set_reg Ra3 _ k3).
  change (h_reg k4 Ra1) with cmp. rewrite (E cmp 0), Z.add_0_r by lia. eexists. split; [reflexivity|]. split; [done|]. split.
  - intros r Hn. assert (r <> Ra1 /\ r <> Ra2 /\ r <> Ra3) as (H1 & H2 & H3) by (clear - Hn; destruct r; split_and!; try done; intros _; apply Hn; by_decision).
    cbn [h_reg set_csr]. rewrite get_set_other by done. change (h_reg (set_mem _ k4) r) with (h_reg k4 r). unfold k4, k3, k2, k1. by rewrite !get_set_other.
  - split; [done|]. intros c Hne. cbn [h_csr set_csr]. rewrite decide_False by done. done.
Qed.

Lemma timer_slots_ok : apart timer_slots /\ Forall (fun ro => 0 <= snd ro <= 24 - 8) timer_slots /\ NoDup (fst <$> rev timer_slots) /\ Ra0 ∉ fst <$> rev timer_slots /\
  Forall (fun ro => 0 <= snd ro <= 24 - 8) (rev timer_slots).
Proof. split_and!; by_decision. Qed.

Lemma bare_leads m sat b n l : 0 <= b -> b + n <= 2 ^ 64 -> Forall (fun ro => 0 <= snd ro <= n - 8) l -> leads bare m sat b b n l.
Proof. intros Hb Hn Hl. apply (direct_leads _ _ _ (fun _ => True)); try done. Qed.

Lemma timervec_ok h : let b := h_csr h Mscratch in let cmp := load64 (h_mem h) (b + 24) in let t := load64 (h_mem h) cmp in
  wide h -> 0 <= b -> b + 40 <= 2 ^ 64 -> (cmp + 8 <= b \/ b + 40 <= cmp) ->
  exists k, run bare timervec h = Some k /\ h_goes k = ByMret /\ (forall r, h_reg k r = h_reg h r) /\ h_csr k Mscratch = b /\ h_csr k Sip = 2 /\
    load64 (h_mem k) cmp = u64 (t + load64 (h_mem h) (b + 32)) /\ (forall a, ~ b <= a < b + 24 -> ~ cmp <= a < cmp + 8 -> rd (h_mem k) a = rd (h_mem h) a).
Proof.
  intros b cmp t Hw Hb Hb2 Hd. destruct timer_slots_ok as (Ha & Hr & Hnd & Ha0 & Hr'). rewrite timervec_parts, run_app. cbn [run step mbind option_bind]. set (h1 := set_reg _ _ _).
  change (h_csr h Mscratch) with b in h1. assert (L1 : leads bare (h_mem h1) (h_csr h1 Satp) (h_reg h1 Ra0) b 24 timer_slots) by (apply bare_leads; [done|cbn; lia|done]).
  rewrite run_app, (run_saves _ _ _ _ _ _ L1). cbn [mbind option_bind]. set (h2 := set_mem _ h1).
  assert (Hf : forall a, ~ b <= a < b + 24 -> rd (h_mem h2) a = rd (h_mem h) a) by (intros a Hp; apply rd_stored; eapply Forall_impl; [exact Hr|]; cbn; lia).
  assert (Hl : forall a, a + 8 <= b \/ b + 24 <= a -> load64 (h_mem h2) a = load64 (h_mem h) a) by (intros a Hp; apply load64_agree; intros x Hx; apply Hf; lia).
  destruct (timer_work_ok h2 b cmp eq_refl Hb Hb2 ltac:(by rewrite Hl by lia)) as (h3 & E3 & Em & Hreg & Hsip & Hcsr). rewrite run_app, E3. cbn [mbind option_bind].
  rewrite !Hl in Em by lia. assert (Ea : h_reg h3 Ra0 = b) by (by rewrite Hreg). assert (L2 : leads bare (h_mem h3) (h_csr h3 Satp) (h_reg h3 Ra0) b 24 (rev timer_slots)) by (rewrite Ea; apply bare_leads; [done|lia|done]).
  rewrite run_app, (run_loads _ _ _ _ _ h3 Ha0 L2). cbn [mbind option_bind run step]. eexists. split; [reflexivity|]. cbn [h_goes h_mem h_csr h_reg set_goes set_reg set_csr]. split; [done|]. split; [|split; [|split; [|split]]].
  - intros r. destruct (decide (r = Ra0)) as [->|Hn0]; [by rewrite Hcsr|]. destruct (decide (r ∈ fst <$> rev timer_slots)) as [Hin|Hout].
    + apply list_elem_of_fmap in Hin as ([r' o] & -> & Hin). cbn [fst] in *. rewrite (loaded_in _ _ _ r' o) by done. rewrite list_elem_of_In, <- in_rev, <- list_elem_of_In in Hin. pose proof (proj1 (Forall_forall _ _) Hr _ Hin) as Ho. cbn in Ho.
      rewrite Em, load64_store64_other by lia. unfold h2. cbn [h_mem set_mem]. rewrite (load_stored _ _ _ r' o) by done. unfold h1. rewrite get_set_other by done. unfold u64. apply Z.mod_small, Hw.
    + rewrite loaded_out, Hreg by done. unfold h2, h1. cbn [h_reg set_mem]. by rewrite get_set_other.
  - rewrite loaded_out by done. exact Ea.
  - exact Hsip.
  - rewrite Em. rewrite load64_store64_same. unfold u64. by rewrite Z.mod_mod.
  - intros a H1 H2. rewrite Em, rd_store64_other by done. by apply Hf.
Qed.

(** ** The theorems *)

(** [C12] A thread that calls [swtch] comes back from it, once some other one
    switches to its context, with the stack, return address and callee-saved
    registers it had, on whatever hart that is; in between, the hart has those
    of the context it switched to. *)
Theorem swtch_roundtrip mmu mmu' h n :
  let old := h_reg h Ra0 in let new := h_reg h Ra1 in let other := h_reg n Ra0 in
  wide h -> wide n -> old + 112 <= 2 ^ 64 -> new + 112 <= 2 ^ 64 -> other + 112 <= 2 ^ 64 ->
  (old + 112 <= new \/ new + 112 <= old) -> (old + 112 <= other \/ other + 112 <= old) ->
  direct mmu (h_mem h) (h_csr h Satp) (fun a => in_context old a \/ in_context new a) ->
  h_reg n Ra1 = old -> direct mmu' (h_mem n) (h_csr n Satp) (fun a => in_context other a \/ in_context old a) ->
  exists k, run mmu swtch h = Some k /\ h_goes k = Jump (load64 (h_mem h) (new + 0)) /\
    (forall r o, (r, o) ∈ context_slots -> h_reg k r = load64 (h_mem h) (new + o)) /\
    (forall a, ~ in_context old a -> rd (h_mem k) a = rd (h_mem h) a) /\
    ((forall a, in_context old a -> rd (h_mem n) a = rd (h_mem k) a) ->
     exists u, run mmu' swtch n = Some u /\ h_goes u = Jump (h_reg h Rra) /\ forall r, r ∈ fst <$> context_slots -> h_reg u r = h_reg h r).
Proof.
  intros old new other Hw Hwn Ho Hn Hx Hd Hd' H E1 H'. destruct (swtch_ok mmu h Hw Ho Hn Hd H) as (k & Ek & Gk & Rk & _ & _ & Mk).
  exists k. split; [done|]. split; [done|]. split; [intros r o Hr; by apply Rk|]. split; [done|]. intros Hsame.
  destruct (swtch_ok mmu' n) as (u & Eu & Gu & Ru & _); rewrite ?E1; [done|done|done|tauto|done|].
  assert (Hl : forall r o, (r, o) ∈ context_slots -> load64 (h_mem n) (old + o) = h_reg h r).
  { intros r o Hr. pose proof (proj1 (Forall_forall _ _) context_range _ Hr) as Hb. cbn in Hb. rewrite <- (proj2 (Rk r o Hr)). apply load64_agree. intros a Hp. apply Hsame. unfold in_context. fold old. lia. }
  exists u. split; [done|]. rewrite E1 in Gu. split; [rewrite Gu; f_equal; apply Hl; by_decision|].
  intros r Hr. apply list_elem_of_fmap in Hr as ([r' o] & -> & Hr). cbn [fst]. rewrite (proj1 (Ru r' o Hr)), E1. by apply Hl.
Qed.

(** [C13] An interrupt in the kernel is invisible to the code it interrupts: for
    a [kerneltrap] that keeps the stack pointer and what is above it, every
    register but [tp], which belongs to the hart, is as before. *)
Theorem kernelvec_transparent mmu kerneltrap h :
  let b := h_reg h Rsp - 256 in
  wide h -> 0 <= b -> direct mmu (h_mem h) (h_csr h Satp) (fun a => b <= a < b + 256) ->
  (forall k, h_reg k Rsp = b -> exists k', kerneltrap k = Some k' /\ h_reg k' Rsp = b /\ (forall a, b <= a < b + 256 -> rd (h_mem k') a = rd (h_mem k) a) /\
    direct mmu (h_mem k') (h_csr k' Satp) (fun a => b <= a < b + 256)) ->
  exists h', kernelvec mmu kerneltrap h = Some h' /\ h_goes h' = BySret /\ forall r, r <> Rtp -> h_reg h' r = h_reg h r.
Proof.
  intros b Hw Hb H Hkt. pose proof (Hw Rsp) as Hsp. destruct (kernelvec_save_ok mmu h Hw Hb H) as (k & Ek & Bk & _ & Lk & _). fold b in Bk, Lk. unfold kernelvec. rewrite Ek. cbn [mbind option_bind].
  destruct (Hkt k Bk) as (k' & Ek' & Bk' & Mk' & Dk'). rewrite Ek'. cbn [mbind option_bind].
  assert (Hl : forall r, load64 (h_mem k') (b + (slot r - 40)) = if decide (r = Rsp) then b else h_reg h r) by (intros r; rewrite <- Lk; apply load64_agree; intros a Ha; apply Mk'; pose proof (tf_slot_range r); lia).
  destruct (kernelvec_restore_ok mmu k') as (h' & E & G & S & _ & _ & _ & R); rewrite ?Bk'; [done|lia|done|apply (Hl Rsp)|].
  exists h'. split; [done|]. split; [done|]. intros r Hr. destruct (decide (r = Rsp)) as [->|Hne]; [rewrite S, Bk'; unfold b; lia|]. rewrite R, Bk', Hl by done. by rewrite decide_False.
Qed.

(** The scratch area of a hart, as [start] leaves it. *)
Lemma start_scratch ts tv main h : let id := h_csr h Mhartid in let k := start ts tv main h in let b := ts + 40 * id in
  0 <= id < 8 -> CLINT + 0x10000 <= ts -> ts + 320 <= 2 ^ 64 ->
  h_csr k Mscratch = b /\ load64 (h_mem k) (b + 24) = CLINT_MTIMECMP id /\ load64 (h_mem k) (b + 32) = 1000000 /\
  h_csr k Mtvec = tv /\ h_csr k Mepc = main /\ h_reg k Rtp = id /\ h_goes k = ByMret.
Proof.
  intros id k b Hid Hlo Hhi. assert (Es : s32 id = id) by (apply s32_small; lia). assert (Eb : u64 (ts + 40 * id) = b) by (unfold u64; apply Z.mod_small; unfold CLINT in Hlo; unfold b; lia).
  assert (Em : h_mem k = store64 (store64 (store64 (h_mem h) (CLINT_MTIMECMP id) (u64 (load64 (h_mem h) CLINT_MTIME + 1000000))) (b + 24) (CLINT_MTIMECMP id)) (b + 32) 1000000).
  { unfold k, start, timerinit. cbn [h_mem set_reg set_csr set_goes set_mem]. change (h_csr _ Mhartid) with id. rewrite Es, Eb. reflexivity. }
  split_and!; try done.
  - change (u64 (ts + 40 * s32 id) = b). by rewrite Es.
  - rewrite Em, load64_store64_other, load64_store64_same by lia. unfold u64, CLINT_MTIMECMP, CLINT. apply Z.mod_small. lia.
  - rewrite Em, load64_store64_same. done.
  - change (u64 (s32 id) = id). rewrite Es. unfold u64. apply Z.mod_small. lia.
Qed.

(** From the end of [start] on, every machine-mode timer interrupt of a hart
    is due 1000000 cycles after the one before, raises a supervisor software
    interrupt, and changes no register of the code it interrupts; the area it
    uses is ready for the next one. *)
Theorem timer_interrupt ts tv main h k :
  let id := h_csr h Mhartid in let b := ts + 40 * id in let s := start ts tv main h in
  0 <= id < 8 -> CLINT + 0x10000 <= ts -> ts + 320 <= 2 ^ 64 ->
  wide k -> h_csr k Mscratch = h_csr s Mscratch -> (forall a, b + 24 <= a < b + 40 -> rd (h_mem k) a = rd (h_mem s) a) ->
  exists k', run bare timervec k = Some k' /\ h_goes k' = ByMret /\ (forall r, h_reg k' r = h_reg k r) /\ h_csr k' Sip = 2 /\
    load64 (h_mem k') (CLINT_MTIMECMP id) = u64 (load64 (h_mem k) (CLINT_MTIMECMP id) + 1000000) /\
    h_csr k' Mscratch = h_csr s Mscratch /\ (forall a, b + 24 <= a < b + 40 -> rd (h_mem k') a = rd (h_mem s) a).
Proof.
  intros id b s Hid Hlo Hhi Hw Hms Hsame. destruct (start_scratch ts tv main h Hid Hlo Hhi) as (Em & E3 & E4 & _). fold s b in Em, E3, E4. fold id in E3.
  assert (L3 : load64 (h_mem k) (b + 24) = CLINT_MTIMECMP id) by (rewrite <- E3; apply load64_agree; intros a Ha; apply Hsame; lia).
  assert (L4 : load64 (h_mem k) (b + 32) = 1000000) by (rewrite <- E4; apply load64_agree; intros a Ha; apply Hsame; lia).
  pose proof (timervec_ok k Hw) as T. cbv zeta in T. assert (Ek : h_csr k Mscratch = b) by (by rewrite Hms). rewrite Ek, L3, L4 in T. unfold CLINT in Hlo.
  destruct T as (k' & Er & G & R & M & S & C & F); [lia|lia|unfold CLINT_MTIMECMP, CLINT, b; lia|]. exists k'. refine (conj Er (conj G (conj R (conj S (conj C (conj _ _)))))); [by rewrite M|].
  intros a Ha. rewrite F; [by apply Hsame|lia|unfold CLINT_MTIMECMP, CLINT; unfold b in Ha; lia].
Qed.

(** Every hart starts on a stack of its own inside of [stack0]. *)
Theorem entry_stack stack0 start_ h : let id := h_csr h Mhartid in
  0 <= id < 8 -> 0 <= stack0 -> stack0 + 4096 * 8 < 2 ^ 64 -> 0 <= start_ < 2 ^ 64 ->
  exists k, run bare (_entry stack0 start_) h = Some k /\ h_reg k Rsp = stack0 + 4096 * id + 4096 /\ h_goes k = Jump start_.
Proof.
  intros id Hid Hs Hb Hst. unfold _entry. cbn [run step mbind option_bind]. eexists. split; [reflexivity|]. split.
  - change (u64 (u64 stack0 + u64 (u64 (1024 * 4) * u64 (id + 1))) = stack0 + 4096 * id + 4096). unfold u64.
    rewrite (Z.mod_small stack0), (Z.mod_small (1024 * 4)), (Z.mod_small (id + 1)), (Z.mod_small (1024 * 4 * (id + 1))), Z.mod_small; lia.
  - cbn [h_goes set_goes]. rewrite get_set_same. f_equal. unfold u64. by apply Z.mod_small.
Qed.

(** ** Witnesses *)

(** A hart with contexts at 4096 and 8192. *)
Definition hart0 : core := mkHart (fun r => if decide (r = Ra0) then 4096 else if decide (r = Ra1) then 8192 else slot r) (fun c => if decide (c = Mhartid) then 3 else 0) ∅ Next.

Lemma hart0_wide : wide hart0.
Proof. intros r. destruct r; vm_compute; split; done. Qed.

(** The other thread switches back. *)
Definition hart1 : core := mkHart (fun r => if decide (r = Ra0) then 8192 else if decide (r = Ra1) then 4096 else 0) (fun _ => 0) (from_option h_mem ∅ (run bare swtch hart0)) Next.

Lemma swtch_roundtrip_witness : exists u, run bare swtch hart1 = Some u /\ h_goes u = Jump 40 /\ forall r, r ∈ fst <$> context_slots -> h_reg u r = slot r.
Proof.
  assert (W1 : wide hart1) by (intros r; destruct r; vm_compute; split; done).
  destruct (swtch_roundtrip bare bare hart0 hart1 hart0_wide W1) as (k & Ek & _ & _ & _ & U); [vm_compute; done|vm_compute; done|vm_compute; done|left; vm_compute; done|left; vm_compute; done|done|done|done|].
  destruct U as (u & Eu & G & R); [intros a _; unfold hart1; cbn [h_mem]; by rewrite Ek|]. exists u. split; [exact Eu|]. split; [exact G|].
  intros r Hr. rewrite R by exact Hr. destruct r; try reflexivity; exfalso; revert Hr; by_decision.
Defined.

(** A [kerneltrap] that leaves its mark in the registers. *)
Lemma kernelvec_transparent_witness : exists h', kernelvec bare (fun k => Some (set_reg Ra0 7 (set_reg Rra 9 k))) (set_reg Rsp 8192 hart0) = Some h' /\ h_goes h' = BySret /\
  forall r, r <> Rtp -> h_reg h' r = h_reg (set_reg Rsp 8192 hart0) r.
Proof.
  apply (kernelvec_transparent bare (fun k => Some (set_reg Ra0 7 (set_reg Rra 9 k))) (set_reg Rsp 8192 hart0)).
  - intros r. destruct r; vm_compute; split; done.
  - vm_compute. done.
  - done.
  - intros k Hk. eexists. split; [reflexivity|]. split; [exact Hk|]. done.
Defined.

Lemma timer_interrupt_witness : exists k', run bare timervec (start 0x80010000 0x80005000 0x80001000 hart0) = Some k' /\ h_csr k' Sip = 2 /\ load64 (h_mem k') 0x2004018 = 2000000.
Proof.
  destruct (timer_interrupt 0x80010000 0x80005000 0x80001000 hart0 (start 0x80010000 0x80005000 0x80001000 hart0)) as (k' & E & _ & _ & S & C & _);
    [by_decision|by_decision|by_decision|intros r; destruct r; vm_compute; split; done|done|done|].
  exists k'. split; [exact E|]. split; [exact S|]. etransitivity; [exact C|vm_compute; reflexivity].
Defined.
