(* ===== verification/UserTrap.v ===== *)
(** * A system call, from user space and back

    The trampoline and the C code of the kernel put together: a process that
    executes [ecall] runs [uservec], [usertrap] and [userret].  Addresses go
    through the process's page table as the paging hardware does it. *)

From S2P Require Import Prelude KState Riscv Spinlock Kalloc Vm VmTree VmMap VmSpace Sched PipeFifo Proc ProcMem ProcFork Syscall SysFile Trap Asm.

(** Sv39, for addresses below 2^39: the root page table is in the low 44 bits of [satp]. *)
Definition sv39 (m : mem) (sat va : Z) : option Z :=
  let pte := pte_of 2 m (PGSIZE * (sat mod 2 ^ 44)) va in
  if has_flag pte PTE_V then Some (PTE2PA pte + va mod PGSIZE) else None.

Section UserTrap.
Context {L : Layout} {LO : LayoutOk L} {T : Trampoline}.

Lemma satp_root pt : page_ok pt -> PGSIZE * (MAKE_SATP pt mod 2 ^ 44) = pt.
Proof.
  intros H. pose proof (page_ok_pos _ H) as Hp. destruct H as [Ha _]. unfold MAKE_SATP, SATP_SV39, PGSIZE in *.
  assert (E : Z.lor (Z.shiftl 8 60) (Z.shiftr pt 12) mod 2 ^ 44 = Z.shiftr pt 12).
  { rewrite <- Z.land_ones by lia. rewrite Z.land_lor_distr_l. change (Z.land (Z.shiftl 8 60) (Z.ones 44)) with 0. rewrite Z.lor_0_l, Z.land_ones by lia.
    apply Z.mod_small. rewrite Z.shiftr_div_pow2 by lia. change (2 ^ 12) with 4096. split; [apply Z.div_pos; lia|apply Z.div_lt_upper_bound; lia]. }
  rewrite E, Z.shiftr_div_pow2 by lia. change (2 ^ 12) with 4096. pose proof (Z.div_mod pt 4096). lia.
Qed.

(** The page table of a process leads from TRAPFRAME to its trapframe. *)
Lemma sv39_trapframe pt tf n s free : pspace pt tf n s free -> maps_trapframe sv39 (k_mem s) (MAKE_SATP pt) tf.
Proof.
  intros [A _ Htf Hok Hf] m' Hm' o Ho. pose proof (as_table _ _ _ _ A) as Tb.
  destruct (tree_agree 2 (k_mem s) m' pt) as (_ & _ & Hp).
  { intros p a Hin Ha. apply Hm'. assert (p <> tf) by (intros ->; apply Hf; unfold owned; apply elem_of_app; by left).
    assert (Hpk : page_ok p) by (pose proof (proj1 (Forall_forall _ _) (tb_pages _ _ _ Tb)); auto). destruct Hpk as [H1 _]. destruct Hok as [H2 _]. unfold PGSIZE in *.
    pose proof (Z.div_mod p 4096). pose proof (Z.div_mod tf 4096). lia. }
  assert (Hpt : page_ok pt) by (pose proof (proj1 (Forall_forall _ _) (tb_pages _ _ _ Tb)) as Hall; apply Hall; left).
  assert (Hm : TRAPFRAME mod PGSIZE = 0) by reflexivity. assert (Hpos : 0 < PGSIZE) by reflexivity.
  unfold sv39. rewrite satp_root, Hp by done. rewrite (pte_same_page 2 _ (TRAPFRAME + o) TRAPFRAME), Htf.
  - destruct (page_ok_range _ Hok) as [H1 H2]. destruct (pte_val_ok tf (Z.lor PTE_R PTE_W) H1 H2) as (_ & E & _ & Hv); [by vm_compute|]. unfold tf_pte. rewrite E, Hv.
    rewrite <- Z.add_mod_idemp_l, Hm, Z.add_0_l, Z.mod_small by lia. done.
  - rewrite (Z.div_mod TRAPFRAME PGSIZE) at 1 by lia. rewrite Hm, Z.add_0_r, (Z.mul_comm PGSIZE), Z.div_add_l, (Z.div_small o) by lia. lia.
Qed.

(** ** The kernel's part *)

(** After the system call: the process still runs, and its registers and page
    table are where they were. *)
Record kept (p : nat) (pr : proc) (s1 s2 : kstate) : Prop := {
  kp_cur : k_cur s2 = Some p;
  kp_held : k_held s2 = [];
  kp_killed : p_killed (get_proc s2 p) = 0;
  kp_trapframe : p_trapframe (get_proc s2 p) = p_trapframe pr;
  kp_pagetable : p_pagetable (get_proc s2 p) = p_pagetable pr;
  kp_words : forall o, 24 <= o <= 280 -> load64 (k_mem s2) (p_trapframe pr + o) = load64 (k_mem s1) (p_trapframe pr + o);
  kp_maps : maps_trapframe sv39 (k_mem s2) (MAKE_SATP (p_pagetable pr)) (p_trapframe pr)
}.

(** The state in which the system call starts, from memory [m] when [usertrap] does. *)
Definition at_syscall (tf sepc : Z) (m : mem) (s : kstate) : kstate :=
  set_k_mem (store64 (store64 m (tf + tf_epc) sepc) (tf + tf_epc) (u64 (sepc + 4))) s.

Lemma bind_tf_set {B} p f v (k : K B) s : (tf_set p f v ;;; k) s = k (set_k_mem (store64 (k_mem s) (p_trapframe (get_proc s p) + f) v) s).
Proof. unfold tf_set. rewrite bind_assoc, bind_gets. reflexivity. Qed.

Lemma bind_tf_get {B} p f (k : Z -> K B) s : (let! v := tf_get p f in k v) s = k (load64 (k_mem s) (p_trapframe (get_proc s p) + f)) s.
Proof. unfold tf_get. rewrite bind_assoc, bind_gets. reflexivity. Qed.

(** Memory after [usertrapret]. *)
Definition ready (tr : trapregs) (pr : proc) (m : mem) : mem :=
  let tf := p_trapframe pr in
  store64 (store64 (store64 (store64 m (tf + tf_kernel_satp) (r_satp tr)) (tf + tf_kernel_sp) (u64 (p_kstack pr + PGSIZE))) (tf + tf_kernel_trap) l_usertrap) (tf + tf_kernel_hartid) (r_tp tr).

Lemma ready_load tr pr m o : 24 <= o <= 24 \/ 40 <= o -> load64 (ready tr pr m) (p_trapframe pr + o) = load64 m (p_trapframe pr + o).
Proof. intros H. unfold ready. rewrite !load64_store64_other by (unfold tf_kernel_satp, tf_kernel_sp, tf_kernel_trap, tf_kernel_hartid; lia). done. Qed.

Lemma ready_other tr pr m a : ~ p_trapframe pr <= a < p_trapframe pr + 40 -> rd (ready tr pr m) a = rd m a.
Proof. intros H. unfold ready. rewrite !rd_store64_other by (unfold tf_kernel_satp, tf_kernel_sp, tf_kernel_trap, tf_kernel_hartid; lia). done. Qed.

Lemma usertrapret_eq tr p s : k_cur s = Some p ->
  usertrapret tr s = Ok (mkUserregs (TRAMPOLINE + (l_uservec - l_trampoline)) (Z.lor (Z.land (r_sstatus tr) (Z.lnot SSTATUS_SPP)) SSTATUS_SPIE)
    (load64 (k_mem s) (p_trapframe (get_proc s p) + tf_epc)) (MAKE_SATP (p_pagetable (get_proc s p)))) (set_k_mem (ready tr (get_proc s p) (k_mem s)) s).
Proof.
  intros Hc. unfold usertrapret. rewrite (bind_myproc_ _ _ _ Hc), bind_tf_set, bind_gets, !bind_tf_set, bind_tf_get, bind_gets. unfold ret. f_equal. f_equal.
  apply (ready_load tr (get_proc s p) (k_mem s) tf_epc). unfold tf_epc. lia.
Qed.

Lemma usertrap_syscall tr di vd lsr s p f r s2 : let pr := get_proc s p in let tf := p_trapframe pr in let s1 := at_syscall tf (r_sepc tr) (k_mem s) s in
  k_cur s = Some p -> k_held s = [] -> p_killed pr = 0 -> Z.land (r_sstatus tr) SSTATUS_SPP = 0 -> r_scause tr = 8 -> 0 <= r_sepc tr < 2 ^ 64 ->
  syscalls (s32 (load64 (k_mem s) (tf + tf_a7))) lsr = Some f -> f s1 = Ok r s2 -> kept p pr s1 s2 ->
  exists u, usertrap tr di vd lsr s = Ok u (set_k_mem (ready tr (get_proc s2 p) (store64 (k_mem s2) (tf + tf_a0) r)) s2) /\
    u_sepc u = u64 (r_sepc tr + 4) /\ u_satp u = MAKE_SATP (p_pagetable pr).
Proof.
  intros pr tf s1 Hc Hh Hk Hsp Hsc Hpc Hf Ef [K1 K2 K3 K4 K5 K6 _]. unfold usertrap. rewrite Hsp. cbn [Z.eqb negb]. rewrite (bind_myproc_ _ _ _ Hc), bind_tf_set. set (sa := set_k_mem _ s).
  rewrite Hsc. cbn [Z.eqb Pos.eqb]. rewrite bind_assoc. assert (Ka : killed p sa = Ok 0 sa) by (rewrite killed_eq; [by rewrite <- Hk|change (k_held sa) with (k_held s); rewrite Hh; apply not_elem_of_nil]).
  rewrite (bind_ok _ _ _ _ _ Ka). cbn [Z.eqb negb]. rewrite !bind_assoc, bind_ret, bind_assoc, bind_tf_get, bind_assoc, bind_tf_set.
  assert (Es1 : set_k_mem (store64 (k_mem sa) (p_trapframe (get_proc sa p) + tf_epc) (u64 (load64 (k_mem sa) (p_trapframe (get_proc sa p) + tf_epc) + 4))) sa = s1).
  { unfold s1, at_syscall. change (p_trapframe (get_proc sa p)) with tf. unfold sa. cbn [k_mem set_k_mem]. rewrite load64_store64_same. unfold u64 at 2. rewrite (Z.mod_small (r_sepc tr)) by done. reflexivity. }
  rewrite Es1. assert (Esys : syscall lsr s1 = Ok tt (set_k_mem (store64 (k_mem s2) (tf + tf_a0) r) s2)).
  { unfold syscall. rewrite (bind_myproc_ _ _ _ (Hc : k_cur s1 = Some p)), bind_tf_get. change (p_trapframe (get_proc s1 p)) with tf.
    assert (E7 : load64 (k_mem s1) (tf + tf_a7) = load64 (k_mem s) (tf + tf_a7)) by (unfold s1, at_syscall; cbn [k_mem set_k_mem]; rewrite !load64_store64_other by (unfold tf_a7, tf_epc; lia); done).
    rewrite E7, Hf, (bind_ok _ _ _ _ _ Ef). unfold tf_set. rewrite bind_gets, K4. reflexivity. }
  rewrite bind_assoc, (bind_ok _ _ _ _ _ Esys), bind_ret. set (s3 := set_k_mem _ s2).
  assert (K3' : killed p s3 = Ok 0 s3) by (rewrite killed_eq; [by rewrite <- K3|change (k_held s3) with (k_held s2); rewrite K2; apply not_elem_of_nil]).
  rewrite (bind_ok _ _ _ _ _ K3'). cbn [Z.eqb negb]. rewrite bind_ret. cbn [Z.eqb]. rewrite bind_ret, (usertrapret_eq tr p s3 K1). eexists. split; [reflexivity|]. cbn [u_sepc u_satp].
  change (get_proc s3 p) with (get_proc s2 p). rewrite K4, K5. split; [|done]. unfold s3. cbn [k_mem set_k_mem]. rewrite load64_store64_other by (unfold tf_epc, tf_a0; fold tf; lia).
  fold tf in K6. rewrite K6 by (unfold tf_epc; lia). unfold s1, at_syscall. cbn [k_mem set_k_mem]. rewrite load64_store64_same. unfold u64. by rewrite Z.mod_mod.
Qed.

(** ** The theorem *)

(** [C8] A system call as the user program sees it: the process traps with its
    own registers and page table, and when the kernel is done with a call that
    leaves the trapframe alone, it goes on after the [ecall] with the result
    in [a0] and every other register as it was. *)
Theorem syscall_abi tr di vd lsr s p free h f r s2 :
  let pr := get_proc s p in let tf := p_trapframe pr in let s1 := at_syscall tf (r_sepc tr) (trapped tf (h_reg h) (k_mem s)) s in
  running s p free -> p_killed pr = 0 ->
  wide h -> h_mem h = k_mem s -> h_csr h Satp = MAKE_SATP (p_pagetable pr) ->
  Z.land (r_sstatus tr) SSTATUS_SPP = 0 -> r_scause tr = 8 -> 0 <= r_sepc tr < 2 ^ 64 ->
  syscalls (s32 (h_reg h Ra7)) lsr = Some f -> f s1 = Ok r s2 -> kept p pr s1 s2 ->
  exists k u s', run sv39 uservec h = Some k /\ h_goes k = Jump (load64 (k_mem s) (tf + tf_kernel_trap)) /\ h_reg k Rsp = load64 (k_mem s) (tf + tf_kernel_sp) /\
    usertrap tr di vd lsr (set_k_mem (h_mem k) s) = Ok u s' /\ u_sepc u = u64 (r_sepc tr + 4) /\
    forall n, h_mem n = k_mem s' -> h_reg n Ra0 = u_satp u ->
      exists v, run sv39 userret n = Some v /\ h_goes v = BySret /\ h_csr v Satp = h_csr h Satp /\ h_reg v Ra0 = u64 r /\ forall x, x <> Ra0 -> h_reg v x = h_reg h x.
Proof.
  intros pr tf s1 R Hk Hw Hm Hsat Hspp Hsc Hpc Hf Ef K. pose proof (sv39_trapframe _ _ _ _ _ (ru_space _ _ _ R)) as Hmap. fold pr tf in Hmap.
  destruct (uservec_ok sv39 tf h) as (k & Ek & Gk & Sk & _ & _ & Mk); [by rewrite Hm, Hsat|]. rewrite Hm in Gk, Sk, Mk.
  set (sk := set_k_mem (h_mem k) s). assert (E7 : load64 (k_mem sk) (tf + tf_a7) = h_reg h Ra7).
  { change (k_mem sk) with (h_mem k). rewrite Mk. change tf_a7 with (slot Ra7). rewrite trapped_slot. unfold u64. apply Z.mod_small, Hw. }
  destruct (usertrap_syscall tr di vd lsr sk p f r s2) as (u & Eu & Hu1 & Hu2); [apply (ru_cur _ _ _ R)|apply (ru_held _ _ _ R)|exact Hk|done|done|done|change (get_proc sk p) with pr; fold tf; by rewrite E7| | |].
  1, 2: change (get_proc sk p) with pr; fold tf; unfold sk; cbn [k_mem set_k_mem]; rewrite Mk; done.
  eexists k, u, _. split; [exact Ek|]. split; [exact Gk|]. split; [exact Sk|]. split; [exact Eu|]. split; [exact Hu1|]. intros n Hn Ha0. change (get_proc sk p) with pr in *. fold tf in Hn.
  destruct K as [K1 K2 K3 K4 K5 K6 K7]. fold tf in K4, K6, K7. assert (Hrd : forall a, ~ tf <= a < tf + PGSIZE -> rd (h_mem n) a = rd (k_mem s2) a).
  { intros a Ha. rewrite Hn. cbn [k_mem set_k_mem]. unfold PGSIZE in Ha. rewrite ready_other by (rewrite K4; lia). apply rd_store64_other. unfold tf_a0. lia. }
  destruct (userret_ok sv39 tf n) as (v & Ev & Gv & Sv & _ & Rv); [rewrite Ha0, Hu2; eapply maps_agree; [exact K7|exact Hrd]|].
  assert (Hl : forall o, 40 <= o -> load64 (h_mem n) (tf + o) = load64 (store64 (k_mem s2) (tf + tf_a0) r) (tf + o)).
  { intros o Ho. rewrite Hn. cbn [k_mem set_k_mem]. pose proof (ready_load tr (get_proc s2 p) (store64 (k_mem s2) (tf + tf_a0) r) o ltac:(lia)) as E. by rewrite K4 in E. }
  exists v. split; [exact Ev|]. split; [exact Gv|]. split; [by rewrite Sv, Ha0, Hu2, Hsat|]. split.
  - rewrite Rv, Hl by (cbn; lia). apply load64_store64_same.
  - intros x Hx. pose proof (tf_slot_range x). rewrite Rv, Hl by lia. rewrite load64_store64_other by (unfold tf_a0; destruct x; cbn; lia || done). rewrite K6 by lia.
    unfold s1, at_syscall. cbn [k_mem set_k_mem]. rewrite !load64_store64_other by (unfold tf_epc; lia). rewrite trapped_slot. unfold u64. apply Z.mod_small, Hw.
Qed.

End UserTrap.

(** ** Witness: [getpid] *)

(** A state whose memory differs in the trapframe only. *)
Lemma kept_self {L : Layout} {LO : LayoutOk L} s p free m : running s p free -> p_killed (get_proc s p) = 0 ->
  (forall a, ~ p_trapframe (get_proc s p) <= a < p_trapframe (get_proc s p) + PGSIZE -> rd m a = rd (k_mem s) a) -> kept p (get_proc s p) (set_k_mem m s) (set_k_mem m s).
Proof.
  intros R Hk Hm. split; try done; [apply (ru_cur _ _ _ R)|apply (ru_held _ _ _ R)|]. eapply maps_agree; [apply (sv39_trapframe _ _ _ _ _ (ru_space _ _ _ R))|exact Hm].
Qed.

Definition user_hart (m : mem) (sat : Z) : core := mkHart (fun r => if decide (r = Ra7) then 11 else slot r) (fun c => if decide (c = Satp) then sat else 0) m Next.

Lemma syscall_abi_witness : exists s p free k u s' v, running (L := ram60) s p free /\
  run sv39 uservec (user_hart (k_mem s) (MAKE_SATP (p_pagetable (get_proc s p)))) = Some k /\
  usertrap (L := ram60) (T := Build_Trampoline 0 0) (mkTrapregs 0 8 100 0 0 0) (mkDevinput 0 [] []) (ret tt) (fun _ => []) (set_k_mem (h_mem k) s) = Ok u s' /\ u_sepc u = 104 /\
  run sv39 userret (set_reg Ra0 (u_satp u) (set_mem (k_mem s') k)) = Some v /\ h_reg v Ra0 = u64 (p_pid (get_proc s p)) /\ h_reg v Rs1 = 104.
Proof.
  pose proof ram60_ok as LO. destruct (ram60_running 1 ltac:(lia)) as (s & p & free & R & _ & _ & _ & _ & Hk).
  set (pr := get_proc s p). set (h := user_hart (k_mem s) (MAKE_SATP (p_pagetable pr))). set (s1 := at_syscall (p_trapframe pr) 100 (trapped (p_trapframe pr) (h_reg h) (k_mem s)) s).
  assert (E1 : sys_getpid s1 = Ok (p_pid pr) s1) by (unfold sys_getpid; by rewrite (bind_myproc_ _ _ _ (ru_cur _ _ _ R : k_cur s1 = Some p))).
  assert (K : kept p pr s1 s1).
  { apply (kept_self (L := ram60) s p free); [exact R|exact Hk|]. intros a Ha. fold pr in Ha. unfold PGSIZE in Ha. rewrite !rd_store64_other by (unfold tf_epc; lia). apply trapped_other. lia. }
  destruct (syscall_abi (L := ram60) (T := Build_Trampoline 0 0) (mkTrapregs 0 8 100 0 0 0) (mkDevinput 0 [] []) (ret tt) (fun _ => []) s p free h sys_getpid (p_pid pr) s1)
    as (k & u & s' & Ek & _ & _ & Eu & Hu & Hret); [exact R|exact Hk|intros x; destruct x; vm_compute; split; done|done|done|done|done|done|done|exact E1|exact K|].
  destruct (Hret (set_reg Ra0 (u_satp u) (set_mem (k_mem s') k))) as (v & Ev & _ & _ & Ha0 & Hx); [done|done|].
  exists s, p, free, k, u, s', v. split; [exact R|]. split; [exact Ek|]. split; [exact Eu|]. split; [exact Hu|]. split; [exact Ev|]. split; [exact Ha0|]. rewrite Hx by done. reflexivity.
Defined.
