(* ===== verification/Devices.v ===== *)
(** * kernel/plic.c and the initialisation of kernel/uart.c: registers of devices

    The code stores numbers at addresses; what a store does is up to the
    device.  The UART is a 16550, whose first two registers are the divisor of
    the baud rate while the latch bit is set.  The interrupt controller keeps
    a priority for every source, and for every hart which sources are enabled,
    a threshold, and a register that claims an interrupt when it is read and
    completes it when it is written. *)

From S2P Require Import Prelude KState Trap.

(** ** uart.c *)

Definition RHR : Z := 0.
Definition THR : Z := 0.
Definition IER : Z := 1.
Definition IER_RX_ENABLE : Z := Z.shiftl 1 0.
Definition IER_TX_ENABLE : Z := Z.shiftl 1 1.
Definition FCR : Z := 2.
Definition FCR_FIFO_ENABLE : Z := Z.shiftl 1 0.
Definition FCR_FIFO_CLEAR : Z := Z.shiftl 3 1.
Definition LCR : Z := 3.
Definition LCR_EIGHT_BITS : Z := Z.shiftl 3 0.
Definition LCR_BAUD_LATCH : Z := Z.shiftl 1 7.

(** The stores of [uartinit]: register and value. *)
Definition uartinit_writes : list (Z * Z) := [
  (IER, 0x00);
  (LCR, LCR_BAUD_LATCH);
  (0, 0x03);
  (1, 0x00);
  (LCR, LCR_EIGHT_BITS);
  (FCR, Z.lor FCR_FIFO_ENABLE FCR_FIFO_CLEAR);
  (IER, Z.lor IER_TX_ENABLE IER_RX_ENABLE)].

(** The device. *)
Record uart16550 : Type := mkUart { ua_ier : Z; ua_fcr : Z; ua_lcr : Z; ua_divisor : Z; ua_sent : list Z; ua_fifo : list Z }.

Definition WriteReg (reg v : Z) (u : uart16550) : uart16550 :=
  let latch := negb (Z.land (ua_lcr u) LCR_BAUD_LATCH =? 0) in
  if reg =? 0 then
    if latch then mkUart (ua_ier u) (ua_fcr u) (ua_lcr u) (Z.land (ua_divisor u) 0xff00 + v) (ua_sent u) (ua_fifo u)
    else mkUart (ua_ier u) (ua_fcr u) (ua_lcr u) (ua_divisor u) (ua_sent u ++ [v]) (ua_fifo u)
  else if reg =? 1 then
    if latch then mkUart (ua_ier u) (ua_fcr u) (ua_lcr u) (Z.land (ua_divisor u) 0xff + 256 * v) (ua_sent u) (ua_fifo u)
    else mkUart v (ua_fcr u) (ua_lcr u) (ua_divisor u) (ua_sent u) (ua_fifo u)
  else if reg =? 2 then mkUart (ua_ier u) v (ua_lcr u) (ua_divisor u) (ua_sent u) (if Z.land v FCR_FIFO_CLEAR =? 0 then ua_fifo u else [])
  else if reg =? 3 then mkUart (ua_ier u) (ua_fcr u) v (ua_divisor u) (ua_sent u) (ua_fifo u)
  else u.

Definition uartinit_device (u : uart16550) : uart16550 := foldl (fun u rv => WriteReg rv.1 rv.2 u) u uartinit_writes.

(** From a device with the latch off, [uartinit] sends nothing, leaves divisor 3
    (38400 baud), 8 bits, both interrupts on, empty queues, and the latch off:
    the next byte stored in THR is sent. *)
Theorem uartinit_ready u c : Z.land (ua_lcr u) LCR_BAUD_LATCH = 0 -> let u' := uartinit_device u in
  u' = mkUart 3 7 3 3 (ua_sent u) [] /\ ua_sent (WriteReg THR c u') = ua_sent u ++ [c].
Proof.
  intros Hl u'. assert (Hd : Z.land (Z.land (ua_divisor u) 0xff00 + 3) 0xff = 3).
  { change 0xff with (Z.ones 8). rewrite Z.land_ones by lia. assert (E : Z.land (ua_divisor u) 0xff00 mod 2 ^ 8 = 0) by (rewrite <- Z.land_ones, <- Z.land_assoc by lia; apply Z.land_0_r).
    rewrite Z.add_mod, E by lia. reflexivity. }
  assert (E : u' = mkUart 3 7 3 3 (ua_sent u) []).
  { unfold u', uartinit_device, uartinit_writes. cbn [foldl fst snd]. assert (E1 : WriteReg IER 0 u = mkUart 0 (ua_fcr u) (ua_lcr u) (ua_divisor u) (ua_sent u) (ua_fifo u)) by (unfold WriteReg; by rewrite Hl).
    rewrite E1. transitivity (mkUart 3 7 3 (Z.land (Z.land (ua_divisor u) 0xff00 + 3) 0xff + 256 * 0) (ua_sent u) []); [reflexivity|by rewrite Hd]. }
  split; [exact E|]. rewrite E. reflexivity.
Qed.

(** ** plic.c *)

Definition PLIC_SENABLE (hart : Z) : Z := PLIC + 0x2080 + hart * 0x100.
Definition PLIC_SPRIORITY (hart : Z) : Z := PLIC + 0x201000 + hart * 0x2000.
Definition PLIC_SCLAIM (hart : Z) : Z := PLIC + 0x201004 + hart * 0x2000.

(** The device: a context is a hart in one mode, [2 * hart + 1] for supervisor mode. *)
Record plic : Type := mkPlic { pl_priority : Z -> Z; pl_enable : Z -> Z; pl_threshold : Z -> Z; pl_pending : list Z; pl_serving : list (Z * Z) }.

Definition upd (f : Z -> Z) (x v y : Z) : Z := if y =? x then v else f y.

Definition plic_store (a v : Z) (d : plic) : plic :=
  let o := a - PLIC in
  if o <? 0x1000 then mkPlic (upd (pl_priority d) (o / 4) v) (pl_enable d) (pl_threshold d) (pl_pending d) (pl_serving d)
  else if o <? 0x200000 then mkPlic (pl_priority d) (upd (pl_enable d) ((o - 0x2000) / 0x80) v) (pl_threshold d) (pl_pending d) (pl_serving d)
  else
    let ctx := (o - 0x200000) / 0x1000 in
    if o mod 0x1000 =? 0 then mkPlic (pl_priority d) (pl_enable d) (upd (pl_threshold d) ctx v) (pl_pending d) (pl_serving d)
    else mkPlic (pl_priority d) (pl_enable d) (pl_threshold d) (pl_pending d) (filter (fun x => x <> (ctx, v)) (pl_serving d)).

(** The sources a context can be given, the one with the lowest number first. *)
Definition deliverable (d : plic) (ctx irq : Z) : bool :=
  bool_decide (irq ∈ pl_pending d) && Z.testbit (pl_enable d ctx) irq && (pl_threshold d ctx <? pl_priority d irq) && bool_decide (Forall (fun x => snd x <> irq) (pl_serving d)).

Definition best (d : plic) (ctx : Z) : option Z :=
  foldl (fun b irq => match b with Some b => if pl_priority d b <? pl_priority d irq then Some irq else Some b | None => Some irq end) None (filter (fun irq => deliverable d ctx irq = true) (seqZ 1 31)).

(** Reading the claim register. *)
Definition plic_load_claim (a : Z) (d : plic) : Z * plic :=
  let ctx := (a - PLIC - 0x200000) / 0x1000 in
  match best d ctx with
  | Some irq => (irq, mkPlic (pl_priority d) (pl_enable d) (pl_threshold d) (filter (fun x => x <> irq) (pl_pending d)) ((ctx, irq) :: pl_serving d))
  | None => (0, d)
  end.

Definition plicinit (d : plic) : plic := plic_store (PLIC + VIRTIO0_IRQ * 4) 1 (plic_store (PLIC + UART0_IRQ * 4) 1 d).

Definition plicinithart (hart : Z) (d : plic) : plic :=
  plic_store (PLIC_SPRIORITY hart) 0 (plic_store (PLIC_SENABLE hart) (Z.lor (Z.shiftl 1 UART0_IRQ) (Z.shiftl 1 VIRTIO0_IRQ)) d).

Definition plic_claim (hart : Z) (d : plic) : Z * plic := plic_load_claim (PLIC_SCLAIM hart) d.

Definition plic_complete (hart irq : Z) (d : plic) : plic := plic_store (PLIC_SCLAIM hart) irq d.

(** Of 31 sources only two are enabled. *)
Lemma best_two d ctx : pl_enable d ctx = 1026 -> pl_priority d 10 = pl_priority d 1 ->
  best d ctx = if deliverable d ctx 1 then Some 1 else if deliverable d ctx 10 then Some 10 else None.
Proof.
  intros He Hp. assert (Hn : forall l, Forall (fun irq => Z.testbit 1026 irq = false) l -> filter (fun irq => deliverable d ctx irq = true) l = []).
  { induction 1 as [|irq l H _ IH]; [done|]. rewrite filter_cons_False; [exact IH|]. unfold deliverable. rewrite He, H, andb_false_r. done. }
  unfold best. change (seqZ 1 31) with ([1] ++ seqZ 2 8 ++ [10] ++ seqZ 11 21). rewrite !filter_app, (Hn (seqZ 2 8)), (Hn (seqZ 11 21)) by (apply (bool_decide_unpack _); vm_compute; exact I).
  rewrite app_nil_r. cbn [app]. destruct (deliverable d ctx 1) eqn:E1; [rewrite filter_cons_True by done|rewrite filter_cons_False by congruence];
    (destruct (deliverable d ctx 10) eqn:E10; [rewrite (filter_cons_True _ 10) by done|rewrite (filter_cons_False _ 10) by congruence]); cbn; try done. by rewrite Hp, Z.ltb_irrefl.
Qed.

(** After the initialisation a hart is given the interrupts of the disk and of
    the UART, and no others, once each until it completes them. *)
Theorem plic_delivers hart d : 0 <= hart < 8 -> pl_serving d = [] ->
  let d' := plicinithart hart (plicinit d) in
  let irq := if bool_decide (1 ∈ pl_pending d) then 1 else if bool_decide (10 ∈ pl_pending d) then 10 else 0 in
  fst (plic_claim hart d') = irq /\
  (irq <> 0 -> pl_pending (snd (plic_claim hart d')) = filter (fun x => x <> irq) (pl_pending d) /\ pl_serving (plic_complete hart irq (snd (plic_claim hart d'))) = []).
Proof.
  intros Hh Hs d' irq. assert (C1 : (PLIC_SENABLE hart - PLIC - 0x2000) / 0x80 = 2 * hart + 1).
  { unfold PLIC_SENABLE. replace (PLIC + 0x2080 + hart * 0x100 - PLIC - 0x2000) with ((2 * hart + 1) * 0x80) by lia. apply Z.div_mul. lia. }
  assert (C2 : (PLIC_SPRIORITY hart - PLIC - 0x200000) / 0x1000 = 2 * hart + 1).
  { unfold PLIC_SPRIORITY. replace (PLIC + 0x201000 + hart * 0x2000 - PLIC - 0x200000) with ((2 * hart + 1) * 0x1000) by lia. apply Z.div_mul. lia. }
  assert (C3 : (PLIC_SCLAIM hart - PLIC - 0x200000) / 0x1000 = 2 * hart + 1).
  { unfold PLIC_SCLAIM. replace (PLIC + 0x201004 + hart * 0x2000 - PLIC - 0x200000) with (4 + (2 * hart + 1) * 0x1000) by lia. rewrite Z.div_add, Z.div_small by lia. lia. }
  assert (M : PLIC_SPRIORITY hart - PLIC = 0x1000 * (0x201 + 2 * hart)) by (unfold PLIC_SPRIORITY; lia).
  assert (Hd : d' = mkPlic (upd (upd (pl_priority d) 10 1) 1 1) (upd (pl_enable d) (2 * hart + 1) 1026) (upd (pl_threshold d) (2 * hart + 1) 0) (pl_pending d) []).
  { unfold d', plicinithart, plicinit. change (plic_store (PLIC + VIRTIO0_IRQ * 4) 1 (plic_store (PLIC + UART0_IRQ * 4) 1 d)) with (mkPlic (upd (upd (pl_priority d) 10 1) 1 1) (pl_enable d) (pl_threshold d) (pl_pending d) (pl_serving d)).
    unfold plic_store at 2. rewrite (proj2 (Z.ltb_ge _ _)), (proj2 (Z.ltb_lt _ _)) by (unfold PLIC_SENABLE; lia). rewrite C1. unfold plic_store. rewrite !(proj2 (Z.ltb_ge _ _)) by (unfold PLIC_SPRIORITY; lia).
    rewrite C2, M, Z.mul_comm, Z.mod_mul by lia. rewrite Hs. reflexivity. }
  clearbody d'. subst d'. unfold plic_claim, plic_load_claim. rewrite C3. set (d1 := mkPlic _ _ _ _ _).
  assert (Ee : pl_enable d1 (2 * hart + 1) = 1026 /\ pl_threshold d1 (2 * hart + 1) = 0) by (cbn; unfold upd; rewrite Z.eqb_refl; done). destruct Ee as [Ee Et].
  assert (Hdl : forall i, i = 1 \/ i = 10 -> deliverable d1 (2 * hart + 1) i = bool_decide (i ∈ pl_pending d)).
  { intros i Hi. unfold deliverable. rewrite Ee, Et. destruct Hi as [->| ->]; cbn -[bool_decide]; rewrite !andb_true_r; destruct (bool_decide _); done. }
  rewrite best_two, (Hdl 1), (Hdl 10) by first [done|left; done|right; done]. unfold plic_complete, plic_store. rewrite C3. rewrite !(proj2 (Z.ltb_ge _ _)) by (unfold PLIC_SCLAIM; lia).
  assert (Hm : (PLIC_SCLAIM hart - PLIC) mod 0x1000 =? 0 = false) by (unfold PLIC_SCLAIM; replace (PLIC + 0x201004 + hart * 0x2000 - PLIC) with (4 + (0x201 + 2 * hart) * 0x1000) by lia; by rewrite Z.mod_add).
  rewrite Hm. subst irq. destruct (bool_decide (1 ∈ pl_pending d)); [|destruct (bool_decide (10 ∈ pl_pending d))]; cbn [fst snd]; (split; [done|]); intros Hz; try done; (split; [reflexivity|]); cbn [pl_serving]; rewrite filter_cons_False by tauto; reflexivity.
Qed.
