(* ===== verification/Ulib.v ===== *)
(** * user/ulib.c: the C library of user programs

    A user program works on its own memory, a [mem].  The routines are
    functions on it; one that looks for a NUL takes fuel and is [None] when
    there is none within it.  [ustate] is a running program as far as its
    input and output go: what is left to read, and what it has written. *)

From S2P Require Import Prelude KString Bytes.

(** ** The routines *)

(** [while(( *s++ = *t++) != 0) ;] *)
Fixpoint strcpy_loop (fuel : nat) (m : mem) (s t : Z) : option mem :=
  match fuel with
  | O => None
  | S fuel =>
      let c := rd m t in
      let m := wr m s c in
      if negb (c =? 0) then strcpy_loop fuel m (s + 1) (t + 1) else Some m
  end.

Definition strcpy (fuel : nat) (m : mem) (s t : Z) : option mem := strcpy_loop fuel m s t.

Fixpoint strcmp (fuel : nat) (m : mem) (p q : Z) : option Z :=
  match fuel with
  | O => None
  | S fuel =>
      if negb (rd m p =? 0) && (rd m p =? rd m q) then strcmp fuel m (p + 1) (q + 1)
      else Some (rd m p - rd m q)
  end.

(** [for(n = 0; s[n]; n++) ;] *)
Fixpoint ustrlen_loop (fuel : nat) (m : mem) (s n : Z) : option Z :=
  match fuel with
  | O => None
  | S fuel => if negb (rd m (s + n) =? 0) then ustrlen_loop fuel m s (n + 1) else Some n
  end.

Definition ustrlen (fuel : nat) (m : mem) (s : Z) : option Z := ustrlen_loop fuel m s 0.

(** 0 is the null pointer. *)
Fixpoint strchr (fuel : nat) (m : mem) (s c : Z) : option Z :=
  match fuel with
  | O => None
  | S fuel =>
      if negb (rd m s =? 0) then if rd m s =? c then Some s else strchr fuel m (s + 1) c
      else Some 0
  end.

(** [n] is an [int] and stays in range for the arguments of the theorems. *)
Fixpoint atoi_loop (fuel : nat) (m : mem) (s n : Z) : option Z :=
  match fuel with
  | O => None
  | S fuel =>
      if (48 <=? rd m s) && (rd m s <=? 57) then atoi_loop fuel m (s + 1) (s32 (n * 10 + rd m s - 48))
      else Some n
  end.

Definition atoi (fuel : nat) (m : mem) (s : Z) : option Z := atoi_loop fuel m s 0.

(** The two loops are those of the kernel's [memmove]; which of them runs is
    decided differently. *)
Definition umemmove (m : mem) (dst src n : Z) : mem :=
  if dst <? src then copy_forward (Z.to_nat n) m dst src
  else copy_backward (Z.to_nat n) m (dst + n) (src + n).

(** [n] is unsigned and [i] an [int]: for [n] below 2^31 the loop runs [n] times. *)
Definition umemset (m : mem) (dst c n : Z) : mem := memset_loop (Z.to_nat n) 0 m dst c.

(** The same loop as in the kernel. *)
Definition umemcmp (m : mem) (s1 s2 n : Z) : Z := memcmp_loop (Z.to_nat n) m s1 s2.

Definition umemcpy (m : mem) (dst src n : Z) : mem := umemmove m dst src n.

(** ** Input and output *)

(** [u_plan]: how many bytes the next reads deliver at most (0: the call
    fails); a read beyond the plan delivers all it can. *)
Record ustate : Type := mkU {
  u_mem : mem;
  u_in : list Z;
  u_plan : list nat;
  u_out : list Z;
}.

Definition set_u_mem x s := mkU x (u_in s) (u_plan s) (u_out s).
Definition set_u_in x s := mkU (u_mem s) x (u_plan s) (u_out s).
Definition set_u_plan x s := mkU (u_mem s) (u_in s) x (u_out s).
Definition set_u_out x s := mkU (u_mem s) (u_in s) (u_plan s) x.

Definition U (A : Type) : Type := M ustate A.

(** The system call [read]: at most [n] bytes go to [dst]. *)
Definition read (dst n : Z) : U Z :=
  let! s := gets id in
  modify (set_u_plan (tail (u_plan s))) ;;;
  match u_plan s with
  | O :: _ => ret (-1)
  | plan =>
      let k := Nat.min (Nat.min (Z.to_nat n) (length (u_in s))) (from_option id (Z.to_nat n) (head plan)) in
      modify (set_u_mem (wr_bytes (u_mem s) dst (take k (u_in s)))) ;;;
      modify (set_u_in (drop k (u_in s))) ;;;
      ret (Z.of_nat k)
  end.

(** The system call [write], on the standard output. *)
Definition write (src n : Z) : U Z :=
  modify (fun s => set_u_out (u_out s ++ bytes_at (u_mem s) src (Z.to_nat n)) s) ;;;
  ret n.

(** The loop of [gets], with room for [k] more bytes and the address [c] of
    its local variable; [i] bytes have been read. *)
Fixpoint gets_loop (k : nat) (buf c i : Z) : U Z :=
  match k with
  | O => ret i
  | S k =>
      let! cc := read c 1 in
      if cc <? 1 then ret i
      else
        let! x := gets (fun s => rd (u_mem s) c) in
        modify (fun s => set_u_mem (wr (u_mem s) (buf + i) x) s) ;;;
        if (x =? 10) || (x =? 13) then ret (i + 1) else gets_loop k buf c (i + 1)
  end.

Definition ugets (buf max c : Z) : U unit :=
  let! i := gets_loop (Z.to_nat (max - 1)) buf c 0 in
  modify (fun s => set_u_mem (wr (u_mem s) (buf + i) 0) s).

(** ** C strings in memory *)

(** The string at [a] is [l], and its NUL follows. *)
Fixpoint str_at (m : mem) (a : Z) (l : list Z) : Prop :=
  match l with
  | [] => rd m a = 0
  | c :: l => rd m a = c /\ c <> 0 /\ str_at m (a + 1) l
  end.

Section Strings.
Implicit Types m : mem.

Lemma str_at_agree m m' a l :
  (forall b, a <= b <= a + Z.of_nat (length l) -> rd m' b = rd m b) -> str_at m a l -> str_at m' a l.
Proof.
  revert a. induction l as [|c l IH]; intros a H; cbn [str_at length] in *; [rewrite H by lia; done|].
  intros (E & Hc & Hs). rewrite H by lia. split_and!; [done|done|]. apply IH; [|done]. intros b Hb. apply H. lia.
Qed.

Lemma str_at_drop m a l n : (n <= length l)%nat -> str_at m a l -> str_at m (a + Z.of_nat n) (drop n l).
Proof.
  revert a l. induction n as [|n IH]; intros a l Hn Hs; [by rewrite Z.add_0_r|].
  destruct l as [|c l]; [cbn in Hn; lia|]. destruct Hs as (_ & _ & Hs). cbn [drop].
  replace (a + Z.of_nat (S n)) with (a + 1 + Z.of_nat n) by lia. apply IH; [cbn in Hn; lia|done].
Qed.

Lemma str_at_bytes m a l :
  Forall (fun c => c <> 0) l -> bytes_at m a (length l) = l -> rd m (a + Z.of_nat (length l)) = 0 -> str_at m a l.
Proof.
  revert a. induction l as [|c l IH]; intros a Hn Hb Hz; cbn [str_at length bytes_at] in *; [by rewrite Z.add_0_r in Hz|].
  injection Hb as E Hb. inversion Hn; subst. split_and!; [done|done|]. apply IH; [done|done|]. rewrite <- Hz. f_equal. lia.
Qed.

Lemma str_at_inj m a l l' : str_at m a l -> str_at m a l' -> l = l'.
Proof.
  revert a l'. induction l as [|c l IH]; intros a [|c' l']; cbn [str_at]; [done| | |].
  - intros E (E' & Hc & _). congruence.
  - intros (E' & Hc & _) E. congruence.
  - intros (E & _ & H) (E' & _ & H'). f_equal; [congruence|by eapply IH].
Qed.

Lemma ustrlen_loop_spec fuel m s l n :
  str_at m (s + n) l -> (length l < fuel)%nat -> ustrlen_loop fuel m s n = Some (n + Z.of_nat (length l)).
Proof.
  revert l n. induction fuel as [|fuel IH]; intros l n Hs Hf; [lia|]. cbn [ustrlen_loop].
  destruct l as [|c l]; cbn [str_at length] in *.
  - rewrite Hs. cbn. f_equal. lia.
  - destruct Hs as (E & Hc & Hs). rewrite E. destruct (Z.eqb_spec c 0); [done|]. cbn [negb].
    rewrite (IH l) by (rewrite ?Z.add_assoc; done || lia). f_equal. lia.
Qed.

Lemma ustrlen_spec fuel m s l : str_at m s l -> (length l < fuel)%nat -> ustrlen fuel m s = Some (Z.of_nat (length l)).
Proof. intros. unfold ustrlen. by rewrite (ustrlen_loop_spec _ _ _ l) by (rewrite ?Z.add_0_r; done). Qed.

(** The position of the first [c] in a list. *)
Fixpoint index_of (c : Z) (l : list Z) : option nat :=
  match l with
  | [] => None
  | x :: l => if x =? c then Some O else S <$> index_of c l
  end.

Lemma strchr_spec fuel m s c l :
  str_at m s l -> (length l < fuel)%nat ->
  strchr fuel m s c = Some (match index_of c l with Some i => s + Z.of_nat i | None => 0 end).
Proof.
  revert s l. induction fuel as [|fuel IH]; intros s l Hs Hf; [lia|]. cbn [strchr].
  destruct l as [|x l]; cbn [str_at length index_of] in *; [by rewrite Hs|].
  destruct Hs as (E & Hx & Hs). rewrite E. destruct (Z.eqb_spec x 0); [done|]. cbn [negb].
  destruct (Z.eqb_spec x c); [f_equal; lia|]. rewrite (IH _ l) by (done || lia).
  destruct (index_of c l); cbn; f_equal. lia.
Qed.

(** [strcmp] is 0 exactly on equal strings. *)
Lemma strcmp_spec fuel m p q l l' :
  str_at m p l -> str_at m q l' -> (length l < fuel)%nat -> exists r, strcmp fuel m p q = Some r /\ (r = 0 <-> l = l').
Proof.
  revert p q l l'. induction fuel as [|fuel IH]; intros p q l l' Hp Hq Hf; [lia|]. cbn [strcmp].
  destruct l as [|x l], l' as [|y l']; cbn [str_at length] in *.
  - rewrite Hp, Hq. by exists 0.
  - destruct Hq as (E & Hy & _). rewrite Hp, E. eexists. split; [reflexivity|]. split; [lia|done].
  - destruct Hp as (E & Hx & _). rewrite Hq, E. destruct (Z.eqb_spec x 0); [done|]. cbn. eexists. split; [reflexivity|]. split; [lia|done].
  - destruct Hp as (Ex & Hx & Hp), Hq as (Ey & Hy & Hq). rewrite Ex, Ey. destruct (Z.eqb_spec x 0); [done|]. cbn [negb andb].
    destruct (Z.eqb_spec x y) as [->|Hne].
    + destruct (IH (p + 1) (q + 1) l l') as (r & Er & Hr); [done|done|lia|]. exists r. split; [done|]. rewrite Hr. split; congruence.
    + eexists. split; [reflexivity|]. split; [lia|congruence].
Qed.

(** [strcpy] copies the string and its NUL, and nothing else changes. *)
Lemma strcpy_spec fuel m s t l :
  str_at m t l -> (length l < fuel)%nat -> s + Z.of_nat (length l) < t \/ t + Z.of_nat (length l) < s ->
  exists m', strcpy fuel m s t = Some m' /\ str_at m' s l /\ forall b, ~ s <= b <= s + Z.of_nat (length l) -> rd m' b = rd m b.
Proof.
  unfold strcpy. revert m s t l. induction fuel as [|fuel IH]; intros m s t l Hs Hf Hd; [lia|]. cbn [strcpy_loop].
  destruct l as [|c l]; cbn [str_at length] in *.
  - rewrite Hs. cbn. eexists. split; [reflexivity|]. split; [apply rd_wr_same|]. intros b Hb. apply rd_wr_other. lia.
  - destruct Hs as (E & Hc & Hs). rewrite E. destruct (Z.eqb_spec c 0); [done|]. cbn [negb].
    destruct (IH (wr m s c) (s + 1) (t + 1) l) as (m' & Em & Hm & Fr); [|lia|lia|].
    { eapply str_at_agree, Hs. intros b Hb. apply rd_wr_other. lia. }
    exists m'. split; [done|]. split.
    + split; [|done]. rewrite Fr, rd_wr_same by lia. apply u8_small. rewrite <- E. apply rd_range.
    + intros b Hb. rewrite Fr by lia. apply rd_wr_other. lia.
Qed.

Lemma rd_umemmove m dst src n a :
  0 <= n -> rd (umemmove m dst src n) a = if decide (dst <= a < dst + n) then rd m (src + (a - dst)) else rd m a.
Proof.
  intros Hn. unfold umemmove. destruct (Z.ltb_spec dst src).
  - rewrite rd_copy_forward, Z2Nat.id by lia. done.
  - rewrite rd_copy_backward, Z2Nat.id by lia. repeat case_decide; try lia; try done. f_equal. lia.
Qed.
End Strings.

Lemma rd_umemset m dst c n a : 0 <= n -> rd (umemset m dst c n) a = if decide (dst <= a < dst + n) then u8 c else rd m a.
Proof. intros Hn. unfold umemset. rewrite rd_memset_loop, Z2Nat.id by lia. repeat case_decide; try lia; done. Qed.

Lemma umemcmp_zero m s1 s2 n : umemcmp m s1 s2 n = 0 <-> bytes_at m s1 (Z.to_nat n) = bytes_at m s2 (Z.to_nat n).
Proof. apply memcmp_loop_zero. Qed.

(** ** Reading *)

(** A [read] with room for a byte, when no call fails. *)
Lemma read_some dst n s : 0 < n -> Forall (fun k => k <> O) (u_plan s) ->
  exists k s', read dst n s = Ok (Z.of_nat k) s' /\ (k <= Z.to_nat n)%nat /\ (k <= length (u_in s))%nat /\ (u_in s <> [] -> k <> O) /\
    u_in s' = drop k (u_in s) /\ u_mem s' = wr_bytes (u_mem s) dst (take k (u_in s)) /\ u_out s' = u_out s /\
    Forall (fun k => k <> O) (u_plan s').
Proof.
  intros Hn Hpl. unfold read. rewrite bind_gets, bind_modify. change (u_plan (id s)) with (u_plan s). change (u_in (id s)) with (u_in s).
  change (u_mem (id s)) with (u_mem s).
  set (k := Nat.min (Nat.min (Z.to_nat n) (length (u_in s))) (from_option id (Z.to_nat n) (head (u_plan s)))).
  exists k. destruct (u_plan s) as [|[|a] pl] eqn:Epl; [|by inversion Hpl|];
    (eexists; split; [rewrite !bind_modify; reflexivity|]); (assert (Hk : u_in s <> [] -> k <> O) by (subst k; destruct (u_in s); cbn; [done|lia]));
    split_and!; try done; try lia. by inversion Hpl.
Qed.
