(* ===== verification/Grep.v ===== *)
(** * user/grep.c

    The matcher of Kernighan and Pike on strings in memory, against the
    meaning of a pattern as a set of strings ([lang]); and [grep], which cuts
    its input into lines through a buffer of 1024 bytes, however the system
    call [read] delivers it. *)

From S2P Require Import Prelude KString Bytes Ulib.

(** ** The program *)

(** [matchhere] and [matchstar] call each other; every call and every round
    of [matchstar]'s loop goes on in the pattern or in the text, and takes one
    unit of fuel. *)
Fixpoint matchhere (fuel : nat) (m : mem) (re text : Z) {struct fuel} : option bool :=
  match fuel with
  | O => None
  | S fuel =>
      if rd m re =? 0 then Some true
      else if rd m (re + 1) =? 42 then matchstar fuel m (rd m re) (re + 2) text
      else if (rd m re =? 36) && (rd m (re + 1) =? 0) then Some (rd m text =? 0)
      else if negb (rd m text =? 0) && ((rd m re =? 46) || (rd m re =? rd m text))
      then matchhere fuel m (re + 1) (text + 1)
      else Some false
  end
with matchstar (fuel : nat) (m : mem) (c re text : Z) {struct fuel} : option bool :=
  match fuel with
  | O => None
  | S fuel =>
      match matchhere fuel m re text with
      | None => None
      | Some true => Some true
      | Some false =>
          if negb (rd m text =? 0) && ((rd m text =? c) || (c =? 46))
          then matchstar fuel m c re (text + 1)
          else Some false
      end
  end.

(** The loop of [match], which looks at every suffix of the text, the empty
    one included. *)
Fixpoint match_loop (fuel : nat) (m : mem) (re text : Z) : option bool :=
  match fuel with
  | O => None
  | S fuel' =>
      match matchhere fuel m re text with
      | None => None
      | Some true => Some true
      | Some false => if negb (rd m text =? 0) then match_loop fuel' m re (text + 1) else Some false
      end
  end.

Definition match_ (fuel : nat) (m : mem) (re text : Z) : option bool :=
  if rd m re =? 94 then matchhere fuel m (re + 1) text else match_loop fuel m re text.

Definition lift {A} (o : option A) : U A := match o with Some a => ret a | None => nofuel end.

(** The loop over the lines that end in the buffer: it returns the pointer
    [p] to what is left. *)
Fixpoint grep_lines (fuel : nat) (mfuel : nat) (pattern p : Z) : U Z :=
  match fuel with
  | O => nofuel
  | S fuel =>
      let! q := (fun s => lift (strchr 1025 (u_mem s) p 10) s) in
      if q =? 0 then ret p
      else
        modify (fun s => set_u_mem (wr (u_mem s) q 0) s) ;;;
        let! b := (fun s => lift (match_ mfuel (u_mem s) pattern p) s) in
        (if (b : bool) then
           modify (fun s => set_u_mem (wr (u_mem s) q 10) s) ;;;
           write p (q + 1 - p) ;;;
           ret tt
         else ret tt) ;;;
        grep_lines fuel mfuel pattern (q + 1)
  end.

(** [buf] is the address of the array of 1024 bytes. *)
Fixpoint grep_loop (fuel : nat) (mfuel : nat) (buf pattern m : Z) : U unit :=
  match fuel with
  | O => nofuel
  | S fuel =>
      let! n := read (buf + m) (1024 - m - 1) in
      if 0 <? n then
        let m := m + n in
        modify (fun s => set_u_mem (wr (u_mem s) (buf + m) 0) s) ;;;
        let! p := grep_lines 1025 mfuel pattern buf in
        if 0 <? m then
          let m := m - (p - buf) in
          modify (fun s => set_u_mem (umemmove (u_mem s) buf p m) s) ;;;
          grep_loop fuel mfuel buf pattern m
        else grep_loop fuel mfuel buf pattern m
      else ret tt
  end.

Definition grep (fuel mfuel : nat) (buf pattern : Z) : U unit := grep_loop fuel mfuel buf pattern 0.

(** ** The meaning of a pattern *)

(** A pattern is a sequence of characters and starred characters, possibly
    tied to the end of the text: [^], when it comes first, is looked at by
    [match] only. *)
Fixpoint items (re : list Z) : list (Z * bool) * bool :=
  match re with
  | [] => ([], false)
  | c :: re1 =>
      match re1 with
      | [] => if c =? 36 then ([], true) else ([(c, false)], false)
      | d :: re2 =>
          if d =? 42 then let (l, e) := items re2 in ((c, true) :: l, e)
          else let (l, e) := items re1 in ((c, false) :: l, e)
      end
  end.

(** [.] stands for every character. *)
Definition catches (c x : Z) : Prop := c = 46 \/ c = x.

Inductive lang : list (Z * bool) -> list Z -> Prop :=
| lang_nil : lang [] []
| lang_one c x l w : catches c x -> lang l w -> lang ((c, false) :: l) (x :: w)
| lang_star c u l w : Forall (catches c) u -> lang l w -> lang ((c, true) :: l) (u ++ w).

(** A match at the beginning of [text], or anywhere. *)
Definition here (re text : list Z) : Prop :=
  exists w suf, text = w ++ suf /\ lang (fst (items re)) w /\ (snd (items re) = true -> suf = []).

Definition matches (re text : list Z) : Prop :=
  if decide (head re = Some 94) then here (tail re) text
  else exists pre suf, text = pre ++ suf /\ here re suf.

(** ** The matcher *)

Lemma here_nil text : here [] text.
Proof. exists [], text. split; [done|]. split; [constructor|done]. Qed.

Lemma here_end text : here [36] text <-> text = [].
Proof.
  split.
  - intros (w & suf & -> & L & E). cbn in L. inversion L; subst. by rewrite (E eq_refl).
  - intros ->. exists [], []. split; [done|]. split; [constructor|done].
Qed.

Lemma items_star c re : items (c :: 42 :: re) = ((c, true) :: fst (items re), snd (items re)).
Proof. cbn [items]. by destruct (items re). Qed.

Lemma items_one c re : head re <> Some 42 -> ~ (c = 36 /\ re = []) -> items (c :: re) = ((c, false) :: fst (items re), snd (items re)).
Proof.
  intros H He. destruct re as [|d re]; cbn [items].
  - destruct (Z.eqb_spec c 36); [tauto|done].
  - destruct (Z.eqb_spec d 42) as [->|Hd]; [done|]. by destruct (match re with [] => _ | _ :: _ => _ end).
Qed.

Lemma here_star c re text :
  here (c :: 42 :: re) text <-> here re text \/ exists x t, text = x :: t /\ catches c x /\ here (c :: 42 :: re) t.
Proof.
  unfold here. rewrite items_star. cbn [fst snd]. split.
  - intros (w & suf & -> & L & E). inversion L as [| |c' u l w' Hu Lw]; subst. destruct u as [|x u].
    + left. by exists w', suf.
    + right. inversion Hu; subst. exists x, (u ++ w' ++ suf). split; [by rewrite <- app_assoc|]. split; [done|].
      exists (u ++ w'), suf. split; [by rewrite <- app_assoc|]. split; [by constructor|done].
  - intros [(w & suf & -> & L & E)|(x & t & -> & Hc & w & suf & -> & L & E)].
    + exists w, suf. split; [done|]. split; [by apply (lang_star c [])|done].
    + inversion L as [| |c' u l w' Hu Lw]; subst. exists (x :: u ++ w'), suf. split; [done|]. split; [|done].
      apply (lang_star c (x :: u)); [by constructor|done].
Qed.

Lemma here_one c re text :
  head re <> Some 42 -> ~ (c = 36 /\ re = []) ->
  here (c :: re) text <-> exists x t, text = x :: t /\ catches c x /\ here re t.
Proof.
  intros H1 H2. unfold here. rewrite items_one by done. cbn [fst snd]. split.
  - intros (w & suf & -> & L & E). inversion L as [|c' x l w' Hc Lw|]; subst. exists x, (w' ++ suf). split; [done|].
    split; [done|]. by exists w', suf.
  - intros (x & t & -> & Hc & w & suf & -> & L & E). exists (x :: w), suf. split; [done|]. split; [by constructor|done].
Qed.

(** The text starts with a character that [c] catches, as the code tests it. *)
Lemma catches_spec m text t c : str_at m text t ->
  negb (rd m text =? 0) && ((c =? 46) || (c =? rd m text)) = true <-> exists x t', t = x :: t' /\ catches c x.
Proof.
  intros Ht. unfold catches. destruct t as [|x t]; cbn [str_at] in Ht.
  - rewrite Ht. cbn. split; [done|]. by intros (? & ? & ? & _).
  - destruct Ht as (E & Hx & _). rewrite E. destruct (Z.eqb_spec x 0); [done|]. cbn [negb andb]. rewrite orb_true_iff, !Z.eqb_eq.
    split; [by intros H; exists x, t|]. by intros (? & ? & [= <- <-] & H).
Qed.

(** A decision: an answer, and it is right. *)
Definition decides (o : option bool) (P : Prop) : Prop := exists b, o = Some b /\ (b = true <-> P).

Lemma decides_iff o P Q : (P <-> Q) -> decides o P -> decides o Q.
Proof. intros H (b & E & Hb). exists b. split; [done|]. by rewrite Hb. Qed.

(** One character of the pattern against one of the text. *)
Lemma one_step m text r t c (go : option bool) :
  str_at m text t -> head r <> Some 42 -> ~ (c = 36 /\ r = []) ->
  (forall x t', t = x :: t' -> decides go (here r t')) ->
  decides (if negb (rd m text =? 0) && ((c =? 46) || (c =? rd m text)) then go else Some false) (here (c :: r) t).
Proof.
  intros Ht H1 H2 Hgo. pose proof (catches_spec m text t c Ht) as Hc. destruct (negb _ && _) eqn:E.
  - destruct (proj1 Hc eq_refl) as (x & t' & -> & Hx). eapply decides_iff; [|by eapply Hgo]. rewrite here_one by done.
    split; [by intros H; exists x, t'|]. by intros (? & ? & [= <- <-] & _ & H).
  - exists false. split; [done|]. split; [done|]. rewrite here_one by done. intros (x & t' & -> & Hx & _).
    apply Hc. by exists x, t'.
Qed.

Lemma matcher fuel m : forall re text r t, str_at m re r -> str_at m text t ->
  ((length r + length t < fuel)%nat -> decides (matchhere fuel m re text) (here r t)) /\
  ((S (length r + length t) < fuel)%nat -> forall c, decides (matchstar fuel m c re text) (here (c :: 42 :: r) t)).
Proof.
  induction fuel as [|fuel IH]; intros re text r t Hr Ht; [split; lia|]. split.
  - intros Hf. cbn [matchhere]. destruct r as [|c r]; cbn [str_at length] in Hr, Hf.
    { rewrite Hr. exists true. split; [done|]. split; [intros _; apply here_nil|done]. }
    destruct Hr as (Ec & Hc & Hr). rewrite Ec. destruct (Z.eqb_spec c 0); [done|].
    assert (Hgo : forall x t', t = x :: t' -> decides (matchhere fuel m (re + 1) (text + 1)) (here r t')).
    { intros x t' ->. destruct Ht as (_ & _ & Ht). apply (IH (re + 1) (text + 1) r t'); [done..|cbn in Hf; lia]. }
    destruct r as [|d r]; cbn [str_at length] in Hr, Hf.
    + rewrite Hr. change (0 =? 42) with false. cbn iota. rewrite andb_true_r. destruct (Z.eqb_spec c 36) as [->|H36].
      * eexists. split; [reflexivity|]. rewrite here_end, Z.eqb_eq. destruct t; cbn [str_at] in Ht; [done|].
        destruct Ht as (Et & Hn & _). by rewrite Et.
      * apply (one_step m text []); [done|done|by intros []|done].
    + destruct Hr as (Ed & Hd & Hr). rewrite Ed. destruct (Z.eqb_spec d 42) as [->|H42].
      * apply (IH (re + 2) text r t); [by replace (re + 2) with (re + 1 + 1) by lia|done|lia].
      * destruct (Z.eqb_spec d 0); [done|]. rewrite andb_false_r.
        apply (one_step m text (d :: r)); [done|by intros [=]|by intros []|done].
  - intros Hf c. cbn [matchstar]. destruct (IH re text r t Hr Ht) as [(b & -> & Hb) _]; [lia|].
    pose proof (catches_spec m text t c Ht) as Hx.
    replace ((rd m text =? c) || (c =? 46)) with ((c =? 46) || (c =? rd m text)) by (rewrite orb_comm, (Z.eqb_sym c); done).
    destruct b; [|destruct (negb _ && _) eqn:E].
    + exists true. split; [done|]. split; [|done]. intros _. apply here_star. left. by apply Hb.
    + destruct (proj1 Hx eq_refl) as (x & t' & -> & Hc). destruct Ht as (_ & _ & Ht).
      destruct (IH re (text + 1) r t' Hr Ht) as [_ IHs]. eapply decides_iff; [|apply IHs; cbn in Hf; lia].
      rewrite (here_star c r (x :: t')). split; [by intros H; right; exists x, t'|].
      intros [H|(? & ? & [= <- <-] & _ & H)]; [by apply Hb in H|done].
    + exists false. split; [done|]. split; [done|]. rewrite here_star. intros [H|(x & t' & -> & Hc & _)]; [by apply Hb in H|].
      apply Hx. by exists x, t'.
Qed.

Lemma match_loop_spec fuel m : forall re text r t, str_at m re r -> str_at m text t -> (length r + length t < fuel)%nat ->
  decides (match_loop fuel m re text) (exists pre suf, t = pre ++ suf /\ here r suf).
Proof.
  induction fuel as [|fuel IH]; intros re text r t Hr Ht Hf; [lia|]. cbn [match_loop].
  destruct (matcher (S fuel) m re text r t Hr Ht) as [(b & -> & Hb) _]; [lia|]. destruct b.
  { exists true. split; [done|]. split; [|done]. intros _. exists [], t. split; [done|by apply Hb]. }
  destruct t as [|x t]; cbn [str_at] in Ht.
  - rewrite Ht. exists false. split; [done|]. split; [done|]. intros (pre & suf & E & H). symmetry in E.
    apply app_nil in E as [-> ->]. by apply Hb in H.
  - destruct Ht as (Ex & Hx & Ht). rewrite Ex. destruct (Z.eqb_spec x 0); [done|]. cbn [negb].
    eapply decides_iff; [|apply (IH re (text + 1) r t Hr Ht); cbn in Hf; lia]. split.
    + intros (pre & suf & -> & H). by exists (x :: pre), suf.
    + intros ([|y pre] & suf & E & H); [cbn in E; subst suf; by apply Hb in H|]. injection E as -> ->. by exists pre, suf.
Qed.

Lemma match_spec fuel m re text r t :
  str_at m re r -> str_at m text t -> (length r + length t < fuel)%nat -> decides (match_ fuel m re text) (matches r t).
Proof.
  intros Hr Ht Hf. unfold match_, matches. destruct r as [|c r]; cbn [str_at head tail] in *.
  - rewrite Hr. change (0 =? 94) with false. cbn iota. rewrite decide_False by done. by apply match_loop_spec.
  - pose proof Hr as (Ec & Hc & Hr'). rewrite Ec. destruct (Z.eqb_spec c 94) as [->|H94].
    + rewrite decide_True by done. apply (matcher fuel m (re + 1) text r t Hr' Ht). cbn in Hf. lia.
    + rewrite decide_False by congruence. by apply match_loop_spec.
Qed.

(** ** The lines of the input *)

(** A line as [grep] can hold it: characters without newline, and room for
    the newline and a NUL in the buffer. *)
Definition line_ok (l : list Z) : Prop := Forall (fun c => c <> 10 /\ 0 < c < 256) l /\ (length l <= 1022)%nat.

Definition unlines (ls : list (list Z)) : list Z := concat ((fun l => l ++ [10]) <$> ls).

(** [out] is what [grep] prints for the lines [ls]. *)
Definition selects (re : list Z) (ls : list (list Z)) (out : list Z) : Prop :=
  exists outs, Forall2 (fun l o => (matches re l /\ o = l ++ [10]) \/ (~ matches re l /\ o = [])) ls outs /\ out = concat outs.

Lemma selects_nil re : selects re [] [].
Proof. exists []. by split; [constructor|]. Qed.

Lemma selects_app re ls1 ls2 o1 o2 : selects re ls1 o1 -> selects re ls2 o2 -> selects re (ls1 ++ ls2) (o1 ++ o2).
Proof.
  intros (x1 & F1 & ->) (x2 & F2 & ->). exists (x1 ++ x2). split; [by apply Forall2_app|]. by rewrite concat_app.
Qed.

Lemma line_ok_prefix a b : line_ok (a ++ b) -> line_ok a.
Proof. intros [H L]. apply Forall_app in H as [H _]. split; [done|]. rewrite length_app in L. lia. Qed.

Lemma unlines_cons l ls : unlines (l :: ls) = l ++ 10 :: unlines ls.
Proof. unfold unlines. cbn. by rewrite <- app_assoc. Qed.

(** A prefix of the input is some of its lines and the beginning of the
    next. *)
Lemma prefix_lines ls rest d e :
  Forall line_ok ls -> line_ok rest -> unlines ls ++ rest = d ++ e ->
  exists ls1 ls2 r1, ls = ls1 ++ ls2 /\ d = unlines ls1 ++ r1 /\ r1 ++ e = unlines ls2 ++ rest /\ line_ok r1.
Proof.
  intros Hls Hr. revert d. induction Hls as [|l ls Hl Hls IH]; intros d E.
  - cbn in E. exists [], [], d. split_and!; [done..|]. subst rest. by eapply line_ok_prefix.
  - rewrite unlines_cons, <- app_assoc in E. apply app_eq_app in E as (k & [[E1 E2]|[E1 E2]]).
    + exists [], (l :: ls), d. split_and!; [done|done| |subst l; by eapply line_ok_prefix].
      rewrite unlines_cons, <- app_assoc, E2, E1, <- app_assoc. done.
    + destruct k as [|x k].
      * exists [], (l :: ls), d. rewrite app_nil_r in E1. subst d. split_and!; [done|done| |done].
        rewrite unlines_cons, <- app_assoc. f_equal. exact (eq_sym E2).
      * injection E2 as <- E2. destruct (IH k E2) as (ls1 & ls2 & r1 & -> & -> & Er & Hr1).
        exists (l :: ls1), ls2, r1. split_and!; [done| |done|done]. by rewrite unlines_cons, E1, <- app_assoc.
Qed.

Lemma no_lines ls rest d : line_ok d -> unlines ls ++ rest = d -> ls = [].
Proof.
  intros [H _] E. destruct ls as [|l ls]; [done|]. exfalso. rewrite unlines_cons, <- app_assoc in E. subst d.
  apply Forall_app in H as [_ H]. cbn in H. inversion H. naive_solver.
Qed.

Lemma index_of_line l t : Forall (fun c => c <> 10 /\ 0 < c < 256) l -> index_of 10 (l ++ 10 :: t) = Some (length l).
Proof. induction 1 as [|c l [Hc _] _ IH]; [done|]. cbn. destruct (Z.eqb_spec c 10); [done|]. by rewrite IH. Qed.

Lemma index_of_none l : Forall (fun c => c <> 10 /\ 0 < c < 256) l -> index_of 10 l = None.
Proof. induction 1 as [|c l [Hc _] _ IH]; [done|]. cbn. destruct (Z.eqb_spec c 10); [done|]. by rewrite IH. Qed.

Definition text (l : list Z) : Prop := Forall (fun c => 0 < c < 256) l.

Lemma line_text l : line_ok l -> text l.
Proof. intros [H _]. eapply Forall_impl; [exact H|]. by intros c [_ Hc]. Qed.

Lemma unlines_text ls : Forall line_ok ls -> text (unlines ls).
Proof.
  induction 1 as [|l ls Hl _ IH]; [constructor|]. rewrite unlines_cons. apply Forall_app. split; [by apply line_text|].
  constructor; [lia|done].
Qed.

(** A text stored after the [have] bytes at [a], with a NUL. *)
Lemma str_at_wr m a have l : text (have ++ l) -> bytes_at m a (length have) = have ->
  str_at (wr (wr_bytes m (a + Z.of_nat (length have)) l) (a + Z.of_nat (length (have ++ l))) 0) a (have ++ l).
Proof.
  intros Ht Hh. apply str_at_bytes; [eapply Forall_impl; [exact Ht|]; cbn; lia| |by rewrite rd_wr_same].
  apply list_eq. intros i. destruct (decide (i < length (have ++ l))%nat) as [Hi|Hi].
  2:{ rewrite !lookup_ge_None_2; [done|lia|rewrite length_bytes_at; lia]. }
  rewrite bytes_at_lookup, rd_wr_other, rd_wr_bytes by lia. rewrite length_app in Hi.
  destruct (decide (i < length have)%nat) as [Hx|Hx].
  - assert (E : have !! i = Some (rd m (a + Z.of_nat i))) by (rewrite <- Hh at 1; by apply bytes_at_lookup).
    rewrite lookup_app_l, E by done. f_equal. destruct (l !! _); [|done]. by rewrite decide_False by lia.
  - rewrite lookup_app_r by lia. replace (Z.to_nat (a + Z.of_nat i - (a + Z.of_nat (length have)))) with (i - length have)%nat by lia.
    destruct (lookup_lt_is_Some_2 l (i - length have)) as [x Ex]; [lia|]. rewrite Ex, decide_True by lia. f_equal. apply u8_small.
    apply Forall_app in Ht as [_ Ht]. apply (Forall_lookup_1 _ _ _ _ Ht) in Ex. lia.
Qed.

Lemma str_at_cut m p l t : str_at m p (l ++ 10 :: t) -> str_at (wr m (p + Z.of_nat (length l)) 0) p l.
Proof.
  revert p. induction l as [|c l IH]; intros p H; cbn [str_at app length] in *.
  - by rewrite Z.add_0_r, rd_wr_same.
  - destruct H as (E & Hc & H). rewrite rd_wr_other by lia. split_and!; [done|done|].
    replace (p + Z.of_nat (S (length l))) with (p + 1 + Z.of_nat (length l)) by lia. by apply IH.
Qed.

Lemma str_at_suffix m p l t : str_at m p (l ++ t) -> str_at m (p + Z.of_nat (length l)) t.
Proof. intros H. pose proof (str_at_drop m p (l ++ t) (length l)) as D. rewrite drop_app_length in D. apply D; [rewrite length_app; lia|done]. Qed.

Lemma str_at_prefix m p l t : str_at m p (l ++ t) -> bytes_at m p (length l) = l.
Proof. revert p. induction l as [|c l IH]; intros p H; [done|]. destruct H as (E & _ & H). cbn [length bytes_at]. by rewrite E, IH. Qed.

(** ** [grep] *)

Section Grep.
Context (pattern : Z) (r : list Z) (mfuel : nat) (mfuel_ok : (length r + 1023 < mfuel)%nat).

(** The pattern is a string outside of the addresses from [a] to [b]. *)
Definition pattern_ok (a b : Z) (m : mem) : Prop :=
  str_at m pattern r /\ (pattern + Z.of_nat (length r) < a \/ b < pattern).

Lemma pattern_ok_agree a b m m' : (forall x, ~ a <= x <= b -> rd m' x = rd m x) -> pattern_ok a b m -> pattern_ok a b m'.
Proof. intros H [Hs Hd]. split; [|done]. eapply str_at_agree, Hs. intros x Hx. apply H. lia. Qed.

Lemma pattern_ok_sub a b a' b' m : a <= a' -> b' <= b -> pattern_ok a b m -> pattern_ok a' b' m.
Proof. intros Ha Hb [Hs Hd]. split; [done|]. lia. Qed.

(** A line is cut off, and printed if it matches. *)
Lemma one_line p l (t : list Z) s : 0 < p -> line_ok l -> (length l + length t < 1024)%nat ->
  str_at (u_mem s) p (l ++ 10 :: t) -> pattern_ok p (p + Z.of_nat (length l)) (u_mem s) ->
  let q := p + Z.of_nat (length l) in
  exists s' out, (forall fuel, grep_lines (S fuel) mfuel pattern p s = grep_lines fuel mfuel pattern (q + 1) s') /\
    u_in s' = u_in s /\ u_plan s' = u_plan s /\ u_out s' = u_out s ++ out /\ selects r [l] out /\
    forall b, b <> q -> rd (u_mem s') b = rd (u_mem s) b.
Proof using mfuel_ok.
  intros Hp [Hl Hlen] Ht Hs Hpat q.
  assert (Eq : strchr 1025 (u_mem s) p 10 = Some q) 
    by (rewrite (strchr_spec _ _ _ _ _ Hs) by (rewrite length_app; cbn [length]; lia); by rewrite index_of_line).
  set (m1 := wr (u_mem s) q 0). pose proof (str_at_cut _ _ _ _ Hs : str_at m1 p l) as Hl1.
  assert (Hpat1 : str_at m1 pattern r).
  { apply (pattern_ok_agree p q (u_mem s) m1); [|done]. intros x Hx. apply rd_wr_other. lia. }
  destruct (match_spec mfuel m1 pattern p r l Hpat1 Hl1) as (b & Em & Hb); [lia|].
  set (s1 := set_u_mem m1 s).
  set (s2 := if b then set_u_out (u_out s ++ bytes_at (wr m1 q 10) p (Z.to_nat (q + 1 - p))) (set_u_mem (wr m1 q 10) s) else s1).
  exists s2, (if b then l ++ [10] else []). split_and!.
  - intros fuel. cbn [grep_lines]. unfold bind at 1. rewrite Eq. cbn [lift ret]. destruct (Z.eqb_spec q 0); [lia|].
    rewrite bind_modify. fold m1. change (set_u_mem m1 s) with s1. unfold bind at 1. change (u_mem s1) with m1. rewrite Em. cbn [lift ret].
    subst s2. by destruct b.
  - by destruct b.
  - by destruct b.
  - subst s2. destruct b; cbn [u_out set_u_out]; [|by rewrite app_nil_r]. f_equal.
    replace (Z.to_nat (q + 1 - p)) with (length (l ++ [10])) by (rewrite length_app; cbn; lia).
    apply (str_at_prefix _ _ _ t). rewrite <- app_assoc. eapply str_at_agree, Hs. intros x Hx.
    rewrite rd_wr. case_decide as Dx; [|by apply rd_wr_other]. subst x. symmetry.
    apply str_at_suffix in Hs as (E & _). exact E.
  - exists [if b then l ++ [10] else []]. split; [|by destruct b; cbn; rewrite ?app_nil_r].
    apply Forall2_cons. split; [|constructor]. destruct b; [left|right]; split; try done; [by apply Hb|]. by intros H%Hb.
  - intros x Hx. subst s2. destruct b; cbn [u_mem set_u_mem set_u_out s1]; unfold m1; by rewrite !rd_wr_other.
Qed.

Lemma grep_lines_spec ls rest : Forall line_ok ls -> line_ok rest -> forall fuel p s, (length ls < fuel)%nat -> 0 < p ->
  let d := unlines ls ++ rest in
  (length d < 1024)%nat -> str_at (u_mem s) p d -> pattern_ok p (p + Z.of_nat (length d)) (u_mem s) ->
  exists s' out, grep_lines fuel mfuel pattern p s = Ok (p + Z.of_nat (length (unlines ls))) s' /\
    u_in s' = u_in s /\ u_plan s' = u_plan s /\ u_out s' = u_out s ++ out /\ selects r ls out /\
    forall b, ~ p <= b < p + Z.of_nat (length (unlines ls)) -> rd (u_mem s') b = rd (u_mem s) b.
Proof using mfuel_ok.
  intros Hls Hr. induction Hls as [|l ls Hl Hls IH]; intros fuel p s Hf Hp d Hd Hs Hpat; (destruct fuel as [|fuel]; [lia|]).
  - exists s, []. cbn [grep_lines unlines concat fmap list_fmap length app] in *. unfold bind at 1.
    rewrite (strchr_spec _ _ _ _ _ Hs) by (subst d; lia). subst d. rewrite index_of_none by apply Hr. cbn. rewrite Z.add_0_r, app_nil_r.
    split_and!; try done. apply selects_nil.
  - subst d. rewrite unlines_cons, <- app_assoc in *. cbn [app] in *. rewrite length_app in Hd, Hpat. cbn [length] in Hd, Hpat.
    rewrite length_app. cbn [length].
    destruct (one_line p l (unlines ls ++ rest) s) as (s1 & o1 & Es & Ei & Epl & Eo & Ho & Fr); [done|done|lia|done| |].
    { eapply pattern_ok_sub, Hpat; lia. }
    set (q := p + Z.of_nat (length l)) in *. apply str_at_suffix in Hs as (_ & _ & Hs). fold q in Hs.
    assert (Hs1 : str_at (u_mem s1) (q + 1) (unlines ls ++ rest)) by (eapply str_at_agree, Hs; intros; apply Fr; lia).
    assert (Hp1 : pattern_ok (q + 1) (q + 1 + Z.of_nat (length (unlines ls ++ rest))) (u_mem s1)).
    { apply (pattern_ok_sub p (p + Z.of_nat (length l + S (length (unlines ls ++ rest))))); [lia|lia|].
      eapply pattern_ok_agree, Hpat. intros; apply Fr; lia. }
    destruct (IH fuel (q + 1) s1) as (s2 & o2 & Es2 & Ei2 & Epl2 & Eo2 & Ho2 & Fr2); [cbn in Hf; lia|lia|lia|done|done|].
    exists s2, (o1 ++ o2). split_and!; [|congruence|congruence|rewrite Eo2, Eo; by rewrite app_assoc|by apply (selects_app r [l])|].
    + rewrite Es, Es2. f_equal. lia.
    + intros b Hb. rewrite Fr2 by lia. apply Fr. lia.
Qed.

Context (buf : Z) (buf_ok : 0 < buf).

(** One round of the loop: a read, and the lines that are complete. *)
Lemma grep_round have ls rest s :
  bytes_at (u_mem s) buf (length have) = have -> line_ok have -> have ++ u_in s = unlines ls ++ rest ->
  Forall line_ok ls -> line_ok rest -> Forall (fun k => k <> O) (u_plan s) -> pattern_ok buf (buf + 1023) (u_mem s) -> u_in s <> [] ->
  exists s' have' ls1 ls2 o1, (forall fuel, grep_loop (S fuel) mfuel buf pattern (Z.of_nat (length have)) s =
      grep_loop fuel mfuel buf pattern (Z.of_nat (length have')) s') /\
    ls = ls1 ++ ls2 /\ u_out s' = u_out s ++ o1 /\ selects r ls1 o1 /\
    bytes_at (u_mem s') buf (length have') = have' /\ line_ok have' /\ have' ++ u_in s' = unlines ls2 ++ rest /\
    Forall (fun k => k <> O) (u_plan s') /\ pattern_ok buf (buf + 1023) (u_mem s') /\ (length (u_in s') < length (u_in s))%nat.
Proof using buf_ok mfuel_ok.
  intros Hb Hh Hin Hls Hr Hpl Hpat Hne. pose proof Hh as [_ Hlen].
  destruct (read_some (buf + Z.of_nat (length have)) (1024 - Z.of_nat (length have) - 1) s) as (k & s1 & Er & Hk1 & Hk2 & Hk3 & Ei & Em & Eo & Hpl1);
    [lia|done|]. specialize (Hk3 Hne).
  set (d := have ++ take k (u_in s)). assert (Ld : length d = (length have + k)%nat) by (unfold d; rewrite length_app, length_take; lia).
  destruct (prefix_lines ls rest d (drop k (u_in s)) Hls Hr) as (ls1 & ls2 & r1 & -> & Ed & Ee & Hr1).
  { unfold d. by rewrite <- app_assoc, take_drop. }
  apply Forall_app in Hls as [Hls1 Hls2].
  assert (Td : text d) by (rewrite Ed; apply Forall_app; split; [by apply unlines_text|by apply line_text]).
  set (s2 := set_u_mem (wr (u_mem s1) (buf + Z.of_nat (length d)) 0) s1).
  assert (Hs2 : str_at (u_mem s2) buf (unlines ls1 ++ r1)) by (rewrite <- Ed; cbn; rewrite Em; by apply str_at_wr).
  assert (Fr2 : forall x, ~ buf <= x <= buf + 1023 -> rd (u_mem s2) x = rd (u_mem s) x).
  { intros x Hx. cbn. rewrite rd_wr_other, Em, rd_wr_bytes by lia.
    destruct (take k (u_in s) !! _) eqn:Et; [|done]. apply lookup_lt_Some in Et. rewrite length_take in Et.
    case_decide; [|done]. lia. }
  destruct (grep_lines_spec ls1 r1 Hls1 Hr1 1025 buf s2) as (s3 & o1 & Eg & Ei3 & Epl3 & Eo3 & Ho3 & Fr3).
  { assert (length ls1 <= length (unlines ls1))%nat; [|rewrite Ed, length_app in Ld; lia].
    clear. induction ls1; [done|]. rewrite unlines_cons, length_app. cbn. lia. }
  { done. }
  { rewrite <- Ed, Ld. lia. }
  { done. }
  { rewrite <- Ed, Ld. apply (pattern_ok_sub buf (buf + 1023)); [lia|lia|]. by eapply pattern_ok_agree. }
  set (p := buf + Z.of_nat (length (unlines ls1))) in *.
  assert (Er1 : Z.of_nat (length d) - (p - buf) = Z.of_nat (length r1)) by (rewrite Ed, length_app; lia).
  exists (set_u_mem (umemmove (u_mem s3) buf p (Z.of_nat (length r1))) s3), r1, ls1, ls2, o1. split_and!.
  - intros fuel. cbn [grep_loop]. rewrite (bind_ok _ _ _ _ _ Er). destruct (Z.ltb_spec 0 (Z.of_nat k)); [|lia].
    replace (Z.of_nat (length have) + Z.of_nat k) with (Z.of_nat (length d)) by lia.
    rewrite bind_modify. fold s2. rewrite (bind_ok _ _ _ _ _ Eg). destruct (Z.ltb_spec 0 (Z.of_nat (length d))); [|lia].
    rewrite Er1, bind_modify. done.
  - done.
  - cbn. by rewrite Eo3, <- Eo.
  - done.
  - apply str_at_suffix in Hs2. fold p in Hs2. apply list_eq. intros i. destruct (decide (i < length r1)%nat) as [Hi|Hi].
    2:{ rewrite !lookup_ge_None_2; [done|lia|rewrite length_bytes_at; lia]. }
    assert (E : r1 !! i = Some (rd (u_mem s2) (p + Z.of_nat i))).
    { rewrite <- (str_at_prefix (u_mem s2) p r1 []) at 1 by (by rewrite app_nil_r). by apply bytes_at_lookup. }
    rewrite E, bytes_at_lookup by done. f_equal.
    cbn [u_mem set_u_mem]. rewrite rd_umemmove, decide_True by lia. rewrite Fr3 by lia. f_equal. lia.
  - done.
  - cbn. rewrite Ei3. change (u_in s2) with (u_in s1). by rewrite Ei.
  - cbn. by rewrite Epl3.
  - apply (pattern_ok_agree _ _ (u_mem s)); [|done]. intros x Hx. cbn [u_mem set_u_mem].
    assert (length d <= 1023)%nat by lia. rewrite Ed, length_app in H. rewrite rd_umemmove, decide_False by lia.
    rewrite Fr3 by lia. by apply Fr2.
  - cbn. rewrite Ei3. change (u_in s2) with (u_in s1). rewrite Ei, length_drop. lia.
Qed.

Lemma grep_loop_spec fuel : forall have ls rest s,
  bytes_at (u_mem s) buf (length have) = have -> line_ok have -> have ++ u_in s = unlines ls ++ rest ->
  Forall line_ok ls -> line_ok rest -> Forall (fun k => k <> O) (u_plan s) -> pattern_ok buf (buf + 1023) (u_mem s) ->
  (length (u_in s) < fuel)%nat ->
  exists s' out, grep_loop fuel mfuel buf pattern (Z.of_nat (length have)) s = Ok tt s' /\ u_out s' = u_out s ++ out /\ selects r ls out.
Proof using buf_ok mfuel_ok.
  induction fuel as [|fuel IH]; intros have ls rest s Hb Hh Hin Hls Hr Hpl Hpat Hf; [lia|].
  destruct (decide (u_in s = [])) as [En|Hne].
  - rewrite En, app_nil_r in Hin. rewrite (no_lines ls rest have) by done.
    cbn [grep_loop]. destruct (read_some (buf + Z.of_nat (length have)) (1024 - Z.of_nat (length have) - 1) s) as (k & s1 & Er & _ & Hk & _ & _ & _ & Eo & _);
      [destruct Hh; lia|done|].
    rewrite En in Hk. cbn in Hk. replace k with O in Er by lia. rewrite (bind_ok _ _ _ _ _ Er). exists s1, []. split; [done|]. split; [by rewrite app_nil_r|apply selects_nil].
  - destruct (grep_round have ls rest s) as (s1 & have1 & ls1 & ls2 & o1 & Eg & -> & Eo & Ho & Hb1 & Hh1 & Hin1 & Hpl1 & Hpat1 & Hlt); [done..|].
    apply Forall_app in Hls as [_ Hls2].
    destruct (IH have1 ls2 rest s1) as (s2 & o2 & Eg2 & Eo2 & Ho2); [done..|lia|].
    exists s2, (o1 ++ o2). split; [by rewrite Eg|]. split; [by rewrite Eo2, Eo, app_assoc|by apply selects_app].
Qed.
End Grep.

(** [match] answers for every pattern and every text, and its answer is
    the meaning of the pattern: there is a part of the text in the language
    of the pattern, at the start if the pattern begins with [^] and up to the
    end if it ends in [$]. *)
Theorem match_equiv (fuel : nat) (m : mem) (re text : Z) (r t : list Z) :
  str_at m re r -> str_at m text t -> (length r + length t < fuel)%nat ->
  exists b, match_ fuel m re text = Some b /\ (b = true <-> matches r t).
Proof. apply match_spec. Qed.

(** [C36] [grep] prints exactly the lines that match, in their order,
    whatever pieces [read] delivers the input in: for every input of lines
    that fit its buffer it comes to an end, and a last line without a newline
    is not printed. *)
Theorem grep_spec (fuel mfuel : nat) (buf pattern : Z) (r : list Z) (ls : list (list Z)) (rest : list Z) (s : ustate) :
  0 < buf -> str_at (u_mem s) pattern r -> pattern + Z.of_nat (length r) < buf \/ buf + 1023 < pattern ->
  u_in s = unlines ls ++ rest -> Forall line_ok ls -> line_ok rest -> Forall (fun k => k <> O) (u_plan s) ->
  (length (u_in s) < fuel)%nat -> (length r + 1023 < mfuel)%nat ->
  exists s' out, grep fuel mfuel buf pattern s = Ok tt s' /\ u_out s' = u_out s ++ out /\ selects r ls out.
Proof.
  intros Hb Hp Hd Hi Hls Hr Hpl Hf Hm. unfold grep.
  apply (grep_loop_spec pattern r mfuel Hm buf Hb fuel [] ls rest s); try done. split; [constructor|]. cbn. lia.
Qed.

(** ** Witnesses *)

(** The pattern is [b$]; the input has the lines [ab] and [cd], and comes in
    pieces of two bytes. *)
Definition grep_mem : mem := wr_bytes ∅ 1 [98; 36].
Definition grep_lines0 : list (list Z) := [[97; 98]; [99; 100]].
Definition grep_state : ustate := mkU grep_mem (unlines grep_lines0) [2; 2; 2]%nat [].

Lemma grep_mem_pattern : str_at grep_mem 1 [98; 36].
Proof. cbn [str_at]. split_and!; reflexivity || lia. Qed.

Lemma match_equiv_witness : exists b, match_ 5 (wr_bytes grep_mem 8 [97; 98]) 1 8 = Some b /\ (b = true <-> matches [98; 36] [97; 98]).
Proof. apply match_equiv; [cbn [str_at]; split_and!; reflexivity || lia..|cbn; lia]. Defined.

Lemma grep_spec_witness : exists s' out, grep 9 1030 16 1 grep_state = Ok tt s' /\ u_out s' = out /\ selects [98; 36] grep_lines0 out.
Proof.
  apply (grep_spec 9 1030 16 1 [98; 36] grep_lines0 [] grep_state).
  - lia.
  - apply grep_mem_pattern.
  - left. cbn. lia.
  - reflexivity.
  - repeat constructor; cbn; lia.
  - split; [constructor|cbn; lia].
  - repeat constructor; done.
  - cbn. lia.
  - apply Nat.ltb_lt. reflexivity.
Defined.
