(* ===== verification/Umalloc.v ===== *)
(** * user/umalloc.c: the memory allocator of user programs

    The free list is a ring of blocks in the order of their addresses,
    threaded through the blocks; sizes are in units of a header, 16 bytes.
    [h_mem] is the program's memory, [h_freep] the variable [freep] and
    [h_brk] the end of the heap.  [sbrk] belongs to the kernel: what it makes
    of a request is the parameter [sbrk_new], the new end of the heap or
    nothing.

    The theorems: [malloc] and [free] return on every well-formed heap; the
    blocks that are free and those that are in use always tile the heap
    exactly, so that blocks in use never overlap and nothing is lost; and
    neither touches the contents of a block in use. *)

From S2P Require Import Prelude KString Bytes.

(** ** The program *)

Record hstate : Type := mkH { h_mem : mem; h_freep : Z; h_brk : Z }.

Definition set_h_mem x s := mkH x (h_freep s) (h_brk s).
Definition set_h_freep x s := mkH (h_mem s) x (h_brk s).
Definition set_h_brk x s := mkH (h_mem s) (h_freep s) x.

Definition H (A : Type) : Type := M hstate A.

(** [p->s.ptr] and [p->s.size] *)
Definition hdr_ptr (p : Z) : H Z := gets (fun s => load64 (h_mem s) p).
Definition hdr_size (p : Z) : H Z := gets (fun s => load32 (h_mem s) (p + 8)).
Definition set_hdr_ptr (p v : Z) : H unit := modify (fun s => set_h_mem (store64 (h_mem s) p v) s).
Definition set_hdr_size (p v : Z) : H unit := modify (fun s => set_h_mem (store32 (h_mem s) (p + 8) v) s).

(** [p + n] for a pointer to a header. *)
Definition hdr_add (p n : Z) : Z := u64 (p + 16 * n).

(** The loop of [free]: the block after which [bp] belongs. *)
Fixpoint free_find (fuel : nat) (p bp : Z) : H Z :=
  match fuel with
  | O => nofuel
  | S fuel =>
      let! q := hdr_ptr p in
      if (p <? bp) && (bp <? q) then ret p
      else if (q <=? p) && ((p <? bp) || (bp <? q)) then ret p
      else free_find fuel q bp
  end.

Definition ufree (fuel : nat) (ap : Z) : H unit :=
  let bp := u64 (ap - 16) in
  let! freep := gets h_freep in
  let! p := free_find fuel freep bp in
  let! n := hdr_size bp in
  let! q := hdr_ptr p in
  (if hdr_add bp n =? q then
     let! nq := hdr_size q in
     set_hdr_size bp (u32 (n + nq)) ;;;
     let! q' := hdr_ptr q in
     set_hdr_ptr bp q'
   else set_hdr_ptr bp q) ;;;
  let! np := hdr_size p in
  (if hdr_add p np =? bp then
     let! nb := hdr_size bp in
     set_hdr_size p (u32 (np + nb)) ;;;
     let! b' := hdr_ptr bp in
     set_hdr_ptr p b'
   else set_hdr_ptr p bp) ;;;
  modify (set_h_freep p).

Section Program.
Context (base : Z) (sbrk_new : Z -> Z -> option Z).

(** [(char* )-1] when there is no memory. *)
Definition usbrk (n : Z) : H Z := fun s =>
  match sbrk_new (h_brk s) n with
  | Some b => Ok (h_brk s) (set_h_brk b s)
  | None => Ok (2 ^ 64 - 1) s
  end.

Definition morecore (fuel : nat) (nu : Z) : H Z :=
  let nu := if nu <? 4096 then 4096 else nu in
  let! p := usbrk (s32 (u64 (nu * 16))) in
  if p =? 2 ^ 64 - 1 then ret 0
  else
    set_hdr_size p nu ;;;
    ufree fuel (hdr_add p 1) ;;;
    gets h_freep.

(** [p] is large enough. *)
Definition malloc_take (prevp p nunits : Z) : H Z :=
  let! sz := hdr_size p in
  let! p := (if sz =? nunits then
               let! q := hdr_ptr p in
               set_hdr_ptr prevp q ;;;
               ret p
             else
               set_hdr_size p (u32 (sz - nunits)) ;;;
               let! sz := hdr_size p in
               let p := hdr_add p sz in
               set_hdr_size p nunits ;;;
               ret p) in
  modify (set_h_freep prevp) ;;;
  ret (hdr_add p 1).

Fixpoint malloc_loop (fuel ffuel : nat) (nunits prevp p : Z) : H Z :=
  match fuel with
  | O => nofuel
  | S fuel =>
      let! sz := hdr_size p in
      if nunits <=? sz then malloc_take prevp p nunits
      else
        let! freep := gets h_freep in
        if p =? freep then
          let! p := morecore ffuel nunits in
          if p =? 0 then ret 0
          else let! q := hdr_ptr p in malloc_loop fuel ffuel nunits p q
        else let! q := hdr_ptr p in malloc_loop fuel ffuel nunits p q
  end.

Definition malloc_units (nbytes : Z) : Z := u32 (u64 (nbytes + 16 - 1) / 16 + 1).

Definition malloc (fuel ffuel : nat) (nbytes : Z) : H Z :=
  let nunits := malloc_units nbytes in
  let! freep := gets h_freep in
  let! prevp := (if freep =? 0 then
                   set_hdr_ptr base base ;;;
                   modify (set_h_freep base) ;;;
                   set_hdr_size base 0 ;;;
                   ret base
                 else ret freep) in
  let! p := hdr_ptr prevp in
  malloc_loop fuel ffuel nunits prevp p.
End Program.

(** ** Headers *)

Section Words.
#[local] Transparent load32 store32.

Lemma load32_agree m m' a : (forall b, a <= b < a + 4 -> rd m' b = rd m b) -> load32 m' a = load32 m a.
Proof. intros H. apply (le_load_agree 4). intros b Hb. apply H. lia. Qed.

Lemma load32_store32_same m a v : load32 (store32 m a v) a = u32 v.
Proof. apply (le_load_store_same 4). Qed.

Lemma rd_store32_other m a v b : ~ a <= b < a + 4 -> rd (store32 m a v) b = rd m b.
Proof. intros Hb. apply (rd_le_store_other 4). lia. Qed.

Lemma load32_range m a : 0 <= load32 m a < 2 ^ 32.
Proof. apply (le_load_range 4). Qed.
End Words.

(** ** Blocks *)

(** The addresses of the units of a block. *)
Definition units (b : Z * Z) : list Z := (fun k => b.1 + 16 * k) <$> seqZ 0 b.2.

Definition all_units (bs : list (Z * Z)) : list Z := concat (units <$> bs).

Lemma in_units b x : x ∈ units b <-> exists k, 0 <= k < b.2 /\ x = b.1 + 16 * k.
Proof.
  unfold units. rewrite list_elem_of_fmap. setoid_rewrite elem_of_seqZ. split; intros (k & H1 & H2); exists k; (split; [lia|lia]) || (split; [done|lia]).
Qed.

Lemma units_app a n m : 0 <= n -> 0 <= m -> units (a, n + m) = units (a, n) ++ units (a + 16 * n, m).
Proof.
  intros Hn Hm. unfold units. cbn [fst snd]. rewrite seqZ_app by lia. rewrite fmap_app. f_equal. rewrite Z.add_0_l.
  replace n with (n + 0) at 1 by lia. rewrite <- (fmap_add_seqZ n 0). rewrite <- list_fmap_compose. apply list_fmap_ext. intros _ k _. cbn. lia.
Qed.

Lemma all_units_cons b bs : all_units (b :: bs) = units b ++ all_units bs.
Proof. done. Qed.

Lemma all_units_app bs bs' : all_units (bs ++ bs') = all_units bs ++ all_units bs'.
Proof. unfold all_units. by rewrite fmap_app, concat_app. Qed.

#[global] Instance all_units_perm : Proper ((≡ₚ) ==> (≡ₚ)) all_units.
Proof. intros bs bs' E. unfold all_units. by rewrite E. Qed.

Lemma in_all_units bs x : x ∈ all_units bs <-> exists b, b ∈ bs /\ x ∈ units b.
Proof.
  induction bs as [|b bs IH]; [rewrite elem_of_nil; split; [done|intros (b & Hb & _); by apply elem_of_nil in Hb]|].
  rewrite all_units_cons, elem_of_app, IH. split.
  - intros [Hx|(c & Hc & Hx)]; [exists b; split; [by left|done]|exists c; split; [by right|done]].
  - intros (c & Hc & Hx). apply elem_of_cons in Hc as [->|Hc]; [by left|right; by exists c].
Qed.

(** ** The heap *)

(** The blocks of [bs] tile the [n] units from [a] on. *)
Definition tiles (a n : Z) (bs : list (Z * Z)) : Prop := all_units bs ≡ₚ units (a, n).

Section Tiles.
Context (a n : Z) (bs : list (Z * Z)) (T : tiles a n bs).

Lemma tiles_nodup : NoDup (all_units bs).
Proof using T. rewrite T. unfold units. apply NoDup_fmap_2; [intros x y E; cbn in E; lia|apply NoDup_seqZ]. Qed.

(** A block is inside, and aligned. *)
Lemma tiles_in b : b ∈ bs -> 0 < b.2 -> exists k, b.1 = a + 16 * k /\ 0 <= k /\ k + b.2 <= n.
Proof using T.
  intros Hb Hp. assert (H : forall x, x ∈ units b -> x ∈ units (a, n)) by (intros x Hx; rewrite <- T; apply in_all_units; by exists b).
  assert (H0 : b.1 ∈ units b) by (apply in_units; exists 0; split; lia). apply H, in_units in H0 as (k & Hk & Ek). cbn [fst snd] in *.
  assert (H1 : b.1 + 16 * (b.2 - 1) ∈ units b) by (apply in_units; exists (b.2 - 1); split; lia). apply H, in_units in H1 as (k' & Hk' & Ek'). cbn [fst snd] in *.
  exists k. lia.
Qed.
End Tiles.

(** Two blocks of a tiling do not overlap. *)
Lemma tiles_apart a n b c bs : tiles a n (b :: bs) -> c ∈ bs -> 0 < b.2 -> 0 < c.2 -> b.1 + 16 * b.2 <= c.1 \/ c.1 + 16 * c.2 <= b.1.
Proof.
  intros T Hc Hb Hp. destruct (tiles_in _ _ _ T b) as (k & Ek & Hk & Hk'); [by left|done|]. destruct (tiles_in _ _ _ T c) as (j & Ej & Hj & Hj'); [by right|done|].
  pose proof (tiles_nodup _ _ _ T) as N. rewrite all_units_cons in N. apply NoDup_app in N as (_ & N & _).
  assert (Hno : forall x, x ∈ units b -> x ∈ units c -> False) by (intros x H1 H2; apply (N x H1), in_all_units; by exists c).
  destruct (decide (k + b.2 <= j)); [left; lia|]. destruct (decide (j + c.2 <= k)); [right; lia|]. exfalso.
  destruct (decide (k <= j)).
  - apply (Hno c.1); apply in_units; [exists (j - k); split; lia|exists 0; split; lia].
  - apply (Hno b.1); apply in_units; [exists 0; split; lia|exists (k - j); split; lia].
Qed.

Lemma tiles_perm a n bs bs' : bs ≡ₚ bs' -> tiles a n bs -> tiles a n bs'.
Proof. unfold tiles. by intros <-. Qed.

(** Adjacent blocks are as good as one. *)
Lemma tiles_join a n b k j bs : 0 <= k -> 0 <= j -> tiles a n ((b, k) :: (b + 16 * k, j) :: bs) <-> tiles a n ((b, k + j) :: bs).
Proof. intros Hk Hj. unfold tiles. rewrite !all_units_cons, app_assoc. by rewrite units_app. Qed.

Lemma tiles_grow a n k bs : 0 <= n -> 0 <= k -> tiles a n bs -> tiles a (n + k) ((a + 16 * n, k) :: bs).
Proof. intros Hn Hk T. unfold tiles in *. rewrite all_units_cons, T, units_app by done. apply Permutation_app_comm. Qed.

(** [chain m l e]: the headers of [l], each pointing to the next and the last
    to [e]. *)
Definition next_of (l : list (Z * Z)) (e : Z) : Z := match l with [] => e | b :: _ => b.1 end.

Fixpoint chain (m : mem) (l : list (Z * Z)) (e : Z) : Prop :=
  match l with
  | [] => True
  | b :: l => load64 m b.1 = next_of l e /\ load32 m (b.1 + 8) = b.2 /\ chain m l e
  end.

Lemma chain_app m l l' e : chain m (l ++ l') e <-> chain m l (next_of l' e) /\ chain m l' e.
Proof.
  induction l as [|b l IH]; cbn [app chain]; [tauto|]. rewrite IH. destruct l as [|c l]; cbn [app next_of]; tauto.
Qed.

Lemma chain_agree m m' l e : (forall b x, b ∈ l -> b.1 <= x < b.1 + 16 -> rd m' x = rd m x) -> chain m l e -> chain m' l e.
Proof.
  induction l as [|b l IH]; cbn [chain]; intros H; [done|]. intros (H1 & H2 & H3). split_and!.
  - rewrite <- H1. apply load64_agree. intros x Hx. apply (H b); [by left|lia].
  - rewrite <- H2. apply load32_agree. intros x Hx. apply (H b); [by left|lia].
  - apply IH; [|done]. intros c x Hc. apply H. by right.
Qed.

(** A ring points back to its first block, and can be entered anywhere. *)
Definition ring (m : mem) (L : list (Z * Z)) : Prop := chain m L (next_of L 0).

Lemma next_of_app l l' e : next_of (l ++ l') e = next_of l (next_of l' e).
Proof. by destruct l. Qed.

Lemma next_of_any l e e' : l <> [] -> next_of l e = next_of l e'.
Proof. by destruct l. Qed.

Lemma ring_rotate m l l' : ring m (l ++ l') -> ring m (l' ++ l).
Proof.
  unfold ring. destruct l as [|b l]; [by rewrite app_nil_r|]. destruct l' as [|c l']; [by rewrite app_nil_r|].
  rewrite !chain_app. cbn [app next_of]. tauto.
Qed.

(** The pointers are the addresses, shifted by one. *)
Lemma chain_nexts m b l e : chain m (b :: l) e -> load64 m <$> (b :: l).*1 = l.*1 ++ [e].
Proof.
  revert b. induction l as [|c l IH]; intros b (H1 & _ & H3); [cbn in *; by rewrite H1|].
  rewrite fmap_cons, fmap_cons, H1. cbn [next_of]. rewrite (IH c H3). done.
Qed.

Lemma ring_inj m L x y : ring m L -> NoDup L.*1 -> x ∈ L.*1 -> y ∈ L.*1 -> load64 m x = load64 m y -> x = y.
Proof.
  intros R N Hx Hy E. destruct L as [|b l]; [by apply elem_of_nil in Hx|]. unfold ring in R. cbn [next_of] in R. pose proof (chain_nexts _ _ _ _ R) as En.
  assert (N' : NoDup (load64 m <$> (b :: l).*1)).
  { rewrite En. rewrite fmap_cons in N. apply NoDup_cons in N as [Hb N]. apply NoDup_app. split; [done|]. split; [|apply NoDup_singleton].
    intros z Hz ->%list_elem_of_singleton. done. }
  apply list_elem_of_lookup in Hx as [i Hi]. apply list_elem_of_lookup in Hy as [j Hj].
  assert (i = j) as ->; [|congruence]. apply (NoDup_lookup _ i j (load64 m x) N'); rewrite list_lookup_fmap; [by rewrite Hi|rewrite Hj, E; done].
Qed.

(** What a block of a ring says. *)
Lemma ring_at m l b l' : ring m (l ++ b :: l') -> load64 m b.1 = next_of (l' ++ l) b.1 /\ load32 m (b.1 + 8) = b.2.
Proof.
  intros R. apply ring_rotate in R. destruct R as (H1 & H2 & _). split; [|done]. rewrite H1. cbn [app next_of]. done.
Qed.

Section Heap.
Context (base hs : Z).

(** The state of the allocator: [l] is the free blocks without [base], in the
    order of their addresses, and [al] the blocks in use. *)
Record heap_ok (s : hstate) (l al : list (Z * Z)) : Prop := {
  hp_ring : ring (h_mem s) ((base, 0) :: l);
  hp_freep : h_freep s ∈ ((base, 0) :: l).*1;
  hp_sorted : StronglySorted (fun b c => b.1 < c.1) ((base, 0) :: l);
  hp_pos : Forall (fun b => 0 < b.2) (l ++ al);
  hp_alloc : Forall (fun b => load32 (h_mem s) (b.1 + 8) = b.2) al;
  hp_tiles : tiles hs ((h_brk s - hs) / 16) (l ++ al);
  hp_brk : hs <= h_brk s < 2 ^ 36 /\ (h_brk s - hs) mod 16 = 0;
  hp_base : 0 < base /\ base + 16 <= hs;
  hp_gap : forall b c, b ∈ l -> c ∈ l -> b.1 + 16 * b.2 <> c.1
}.

Section Facts.
Context (s : hstate) (l al : list (Z * Z)) (O : heap_ok s l al).

Lemma heap_block b : b ∈ l ++ al -> 0 < b.2 /\ hs <= b.1 /\ b.1 + 16 * b.2 <= h_brk s /\ (b.1 - hs) mod 16 = 0.
Proof using O.
  intros Hb. pose proof (Forall_forall (fun b => 0 < b.2) (l ++ al)) as [Hp _]. specialize (Hp (hp_pos _ _ _ O) b Hb). cbn beta in Hp.
  destruct (tiles_in _ _ _ (hp_tiles _ _ _ O) b Hb Hp) as (k & Ek & Hk & Hn). destruct (hp_brk _ _ _ O) as [Hr Hm].
  split; [done|]. split; [lia|]. split; [pose proof (Z.div_mod (h_brk s - hs) 16); lia|].
  rewrite Ek. replace (hs + 16 * k - hs) with (k * 16) by lia. apply Z.mod_mul. lia.
Qed.

Lemma heap_small b : b ∈ (base, 0) :: l ++ al -> 0 < b.1 < 2 ^ 36 /\ 0 <= b.2 < 2 ^ 32 /\ b.1 + 16 * b.2 < 2 ^ 36.
Proof using O.
  destruct (hp_brk _ _ _ O) as [Hr _]. destruct (hp_base _ _ _ O). intros [->|Hb]%elem_of_cons; [cbn; lia|].
  destruct (heap_block b Hb). lia.
Qed.

Lemma heap_apart b c : b ∈ l ++ al -> c ∈ l ++ al -> b <> c -> b.1 + 16 * b.2 <= c.1 \/ c.1 + 16 * c.2 <= b.1.
Proof using O.
  intros Hb Hc Hne. pose proof (heap_block b Hb). pose proof (heap_block c Hc). apply elem_of_Permutation in Hb as [bs Eb].
  apply (tiles_apart hs ((h_brk s - hs) / 16) b c bs); [|by rewrite Eb in Hc; apply elem_of_cons in Hc as [->|Hc]|lia|lia].
  eapply tiles_perm; [exact Eb|apply O].
Qed.

(** Headers do not overlap. *)
Lemma heap_headers b c : b ∈ (base, 0) :: l ++ al -> c ∈ (base, 0) :: l ++ al -> b <> c -> b.1 + 16 <= c.1 \/ c.1 + 16 <= b.1.
Proof using O.
  destruct (hp_base _ _ _ O). intros [->|Hb]%elem_of_cons [->|Hc]%elem_of_cons Hne; [done| | |].
  - destruct (heap_block c Hc) as (_ & ? & _). cbn. lia.
  - destruct (heap_block b Hb) as (_ & ? & _). cbn. lia.
  - destruct (heap_block b Hb) as (? & _). destruct (heap_block c Hc) as (? & _). pose proof (heap_apart b c Hb Hc Hne). lia.
Qed.

Lemma heap_nodup : NoDup ((base, 0) :: l).*1.
Proof using O.
  pose proof (hp_sorted _ _ _ O) as S. induction S as [|b L S IH A]; [constructor|]. rewrite fmap_cons. apply NoDup_cons. split; [|exact IH].
  intros (c & E & Hc)%list_elem_of_fmap. rewrite Forall_forall in A. specialize (A c Hc). lia.
Qed.
End Facts.

(** ** The loop of [free] *)

Lemma sorted_app b L L' : StronglySorted (fun b c : Z * Z => b.1 < c.1) (L ++ b :: L') ->
  Forall (fun c => c.1 < b.1) L /\ Forall (fun c => b.1 < c.1) L'.
Proof.
  induction L as [|c L IH]; cbn [app]; intros S; apply StronglySorted_inv in S as [S A]; [by split|].
  destruct (IH S) as [H1 H2]. split; [|done]. apply Forall_cons. split; [|done]. apply Forall_app in A as [_ A]. by apply Forall_cons in A as [A _].
Qed.

Lemma sorted_remove L c L' : StronglySorted (fun b c : Z * Z => b.1 < c.1) (L ++ c :: L') -> StronglySorted (fun b c : Z * Z => b.1 < c.1) (L ++ L').
Proof.
  induction L as [|b L IH]; cbn [app]; intros So; apply StronglySorted_inv in So as [So A]; [done|]. apply SSorted_cons; [by apply IH|].
  apply Forall_app in A as [A1 A2]. apply Forall_cons in A2 as [_ A2]. by apply Forall_app.
Qed.

Lemma sorted_resize L c k L' : StronglySorted (fun b c : Z * Z => b.1 < c.1) (L ++ c :: L') -> StronglySorted (fun b c : Z * Z => b.1 < c.1) (L ++ (c.1, k) :: L').
Proof.
  induction L as [|b L IH]; cbn [app]; intros So; apply StronglySorted_inv in So as [So A]; apply SSorted_cons; [done|done|by apply IH|].
  apply Forall_app in A as [A1 A2]. apply Forall_cons in A2 as [A2 A3]. apply Forall_app. split; [done|]. by apply Forall_cons.
Qed.

Lemma find_split bp b l : StronglySorted (fun b c : Z * Z => b.1 < c.1) (b :: l) -> b.1 < bp -> bp ∉ (b :: l).*1 ->
  exists pre p post, b :: l = pre ++ p :: post /\ p.1 < bp /\ Forall (fun c => bp < c.1) post.
Proof.
  revert b. induction l as [|c l IH]; intros b S Hb Hn; [exists [], b, []; split; [done|]; split; [done|constructor]|].
  apply StronglySorted_inv in S as [S A]. rewrite fmap_cons, not_elem_of_cons in Hn. destruct Hn as [_ Hn].
  assert (Hc : bp <> c.1) by (intros ->; apply Hn; by left). destruct (decide (c.1 < bp)) as [Hlt|Hge].
  - destruct (IH c S Hlt Hn) as (pre & p & post & E & Hp & Hq). exists (b :: pre), p, post. rewrite E. done.
  - exists [], b, (c :: l). split; [done|]. split; [done|]. apply StronglySorted_inv in S as [_ A']. apply Forall_cons. split; [lia|].
    eapply Forall_impl; [exact A'|]. intros d Hd. cbn beta in Hd. lia.
Qed.

Section Find.
Context (s : hstate) (L : list (Z * Z)) (bp : Z) (pre : list (Z * Z)) (p : Z * Z) (post : list (Z * Z)).
Context (E : L = pre ++ p :: post) (So : StronglySorted (fun b c : Z * Z => b.1 < c.1) L) (R : ring (h_mem s) L).
Context (Hp : p.1 < bp) (Hq : Forall (fun c => bp < c.1) post) (Hb : next_of L 0 < bp).

(** Up to the place. *)
Lemma find_before mid : forall pre' fuel, L = pre' ++ mid ++ p :: post -> (length mid < fuel)%nat -> free_find fuel (next_of (mid ++ [p]) 0) bp s = Ok p.1 s.
Proof using All.
  induction mid as [|x mid IH]; intros pre' fuel EL Hf; destruct fuel as [|fuel]; [cbn [length] in *; lia| |cbn [length] in *; lia|].
  - cbn [app next_of] in *. rewrite EL in R. destruct (ring_at _ _ _ _ R) as [Hn _]. unfold hdr_ptr. cbn [free_find]. unfold hdr_ptr. rewrite bind_gets, Hn.
    rewrite (proj2 (Z.ltb_lt _ _) Hp). cbn [andb]. destruct post as [|c post']; cbn [app next_of].
    + assert (H0 : next_of L 0 = next_of pre' p.1) by (rewrite EL; by destruct pre'). rewrite <- H0.
      rewrite (proj2 (Z.ltb_ge _ _)) by lia. rewrite (proj2 (Z.leb_le _ _)); [done|].
      rewrite EL in So. destruct (sorted_app _ _ _ So) as [H1 _]. destruct pre' as [|d pre']; [rewrite EL; cbn; lia|]. apply Forall_cons in H1 as [H1 _]. rewrite EL. cbn. lia.
    + apply Forall_cons in Hq as [Hq1 _]. by rewrite (proj2 (Z.ltb_lt _ _) Hq1).
  - assert (Hall : Forall (fun c => c.1 < p.1) (pre' ++ x :: mid)).
    { rewrite EL in So. cbn [app] in So. change (x :: mid ++ p :: post) with ((x :: mid) ++ p :: post) in So. rewrite app_assoc in So. apply sorted_app in So as [So _]. exact So. }
    apply Forall_app in Hall as [_ Hall]. apply Forall_cons in Hall as [Hx Hmid].
    cbn [app next_of]. rewrite EL in R, So. cbn [app] in R, So. destruct (ring_at _ _ _ _ R) as [Hn _]. destruct (sorted_app _ _ _ So) as [_ H1].
    cbn [free_find]. unfold hdr_ptr. rewrite bind_gets, Hn. set (q := next_of ((mid ++ p :: post) ++ pre') x.1).
    assert (Eq : q = next_of (mid ++ [p]) 0) by (unfold q; by destruct mid).
    assert (Hxq : x.1 < q) by (rewrite Eq; destruct mid as [|c mid]; cbn [app next_of] in *; by apply Forall_cons in H1 as [H1 _]).
    assert (Hqp : q <= p.1) by (rewrite Eq; destruct mid as [|c mid]; cbn [app next_of]; [lia|apply Forall_cons in Hmid as [Hc _]; lia]).
    rewrite (proj2 (Z.ltb_lt x.1 bp)), (proj2 (Z.ltb_ge bp q)), (proj2 (Z.leb_gt q x.1)) by lia. cbn [andb]. rewrite Eq.
    apply (IH (pre' ++ [x])); [rewrite EL, <- app_assoc; done|cbn [length] in Hf; lia].
Qed.

(** From behind the place, around the ring. *)
Lemma find_after post2 : forall pre' x fuel, L = pre' ++ x :: post2 -> bp < x.1 -> (S (length post2) + length pre < fuel)%nat ->
  free_find fuel x.1 bp s = Ok p.1 s.
Proof using All.
  induction post2 as [|y post2 IH]; intros pre' x fuel EL Hx Hf; (destruct fuel as [|fuel]; [cbn [length] in *; lia|]); cbn [free_find]; unfold hdr_ptr; rewrite bind_gets.
  - pose proof R as R'. rewrite EL in R'. destruct (ring_at _ _ _ _ R') as [Hn _]. rewrite Hn. cbn [app].
    assert (H0 : next_of pre' x.1 = next_of L 0) by (rewrite EL; by destruct pre'). rewrite H0.
    rewrite (proj2 (Z.ltb_ge x.1 bp)) by lia. cbn [andb orb]. rewrite (proj2 (Z.ltb_ge bp (next_of L 0))) by lia. rewrite andb_false_r.
    replace (next_of L 0) with (next_of (pre ++ [p]) 0) by (rewrite E; by destruct pre). apply (find_before pre []); [done|cbn [length] in Hf; lia].
  - pose proof R as R'. rewrite EL in R'. destruct (ring_at _ _ _ _ R') as [Hn _]. rewrite Hn. cbn [app next_of].
    assert (Hxy : x.1 < y.1) by (pose proof So as S'; rewrite EL in S'; apply sorted_app in S' as [_ S']; by apply Forall_cons in S' as [S' _]).
    rewrite (proj2 (Z.ltb_ge x.1 bp)), (proj2 (Z.leb_gt y.1 x.1)) by lia. cbn [andb].
    apply (IH (pre' ++ [x])); [rewrite EL, <- app_assoc; done|lia|cbn [length] in Hf; lia].
Qed.

Lemma find_ok x fuel : x ∈ L.*1 -> (length L <= fuel)%nat -> free_find fuel x bp s = Ok p.1 s.
Proof using All.
  intros (c & -> & Hc)%list_elem_of_fmap Hf. rewrite E in Hc, Hf. rewrite length_app in Hf. cbn [length] in Hf.
  apply elem_of_app in Hc as [Hc|[->|Hc]%elem_of_cons].
  - apply list_elem_of_split in Hc as (l1 & l2 & Ec). apply (find_before (c :: l2) l1); [rewrite E, Ec, <- app_assoc; done|]. rewrite Ec, length_app in Hf. cbn [length] in *. lia.
  - apply (find_before [] pre); [done|]. cbn [length]. lia.
  - pose proof (proj1 (Forall_forall _ _) Hq c Hc) as Hc'. apply list_elem_of_split in Hc as (l1 & l2 & Ec).
    apply (find_after l2 (pre ++ p :: l1)); [rewrite E, Ec, <- app_assoc; done|done|]. rewrite Ec, length_app in Hf. cbn [length] in Hf. lia.
Qed.
End Find.

(** ** Linking a block *)

Lemma tiles_base N l : tiles hs N ((base, 0) :: l) <-> tiles hs N l.
Proof. done. Qed.

Lemma rd_set_ptr m p v x : ~ p <= x < p + 16 -> rd (store64 m p v) x = rd m x.
Proof. intros Hx. apply rd_store64_other. lia. Qed.

Lemma rd_set_size m p v x : ~ p <= x < p + 16 -> rd (store32 m (p + 8) v) x = rd m x.
Proof. intros Hx. apply rd_store32_other. lia. Qed.

Lemma size_set_ptr m p v : load32 (store64 m p v) (p + 8) = load32 m (p + 8).
Proof. apply load32_agree. intros x Hx. apply rd_store64_other. lia. Qed.

Lemma ptr_set_size m p v : load64 (store32 m (p + 8) v) p = load64 m p.
Proof. apply load64_agree. intros x Hx. apply rd_store32_other. lia. Qed.

(** Header [b] is as in [m]. *)
Lemma header_same m m' b : (forall x, b <= x < b + 16 -> rd m' x = rd m x) -> load64 m' b = load64 m b /\ load32 m' (b + 8) = load32 m (b + 8).
Proof. intros Hx. split; [apply load64_agree|apply load32_agree]; intros x ?; apply Hx; lia. Qed.

(** Orders and rings around a new block. *)
Definition suffix1 (post' post : list (Z * Z)) : Prop := post' = post \/ exists c, post = c :: post'.

Lemma suffix1_in post' post b : suffix1 post' post -> b ∈ post' -> b ∈ post.
Proof. intros [->|(c & ->)] Hb; [done|by right]. Qed.

Lemma sorted_link pre p post post' bp nb k : StronglySorted (fun b c : Z * Z => b.1 < c.1) (pre ++ p :: post) -> suffix1 post' post ->
  p.1 < bp -> Forall (fun c => bp < c.1) post ->
  StronglySorted (fun b c : Z * Z => b.1 < c.1) (pre ++ p :: (bp, nb) :: post') /\
  StronglySorted (fun b c : Z * Z => b.1 < c.1) (pre ++ (p.1, k) :: post').
Proof.
  intros So Hs Hp Hq. destruct (sorted_app _ _ _ So) as [H1 H2]. rewrite Forall_forall in H1, H2, Hq.
  assert (S1 : StronglySorted (fun b c : Z * Z => b.1 < c.1) pre) by (by apply StronglySorted_app_1_l in So).
  assert (S2 : StronglySorted (fun b c : Z * Z => b.1 < c.1) post').
  { apply StronglySorted_app_1_r in So. apply StronglySorted_inv in So as [So _]. destruct Hs as [->|(c & ->)]; [done|]. by apply StronglySorted_inv in So as [So _]. }
  assert (Hin : forall b, b ∈ post' -> p.1 < b.1 /\ bp < b.1) by (intros b Hb; apply (suffix1_in _ post) in Hb; [|done]; auto).
  split; apply StronglySorted_app_2; try done.
  - intros b c Hb Hc. specialize (H1 b Hb). apply elem_of_cons in Hc as [->|[->|Hc]%elem_of_cons]; [done|cbn; lia|]. destruct (Hin c Hc). lia.
  - apply SSorted_cons; [apply SSorted_cons; [done|]|]; apply Forall_forall; intros b Hb; [apply (Hin b Hb)|].
    apply elem_of_cons in Hb as [->|Hb]; [done|by apply Hin].
  - intros b c Hb Hc. specialize (H1 b Hb). apply elem_of_cons in Hc as [->|Hc]; [done|]. destruct (Hin c Hc). lia.
  - apply SSorted_cons; [done|]. apply Forall_forall. intros b Hb. by apply (Hin b Hb).
Qed.

Lemma ring_parts m pre p post post' : ring m (pre ++ p :: post) -> suffix1 post' post -> chain m pre p.1 /\ chain m post' (next_of pre p.1).
Proof.
  unfold ring. rewrite chain_app. cbn [next_of chain]. rewrite next_of_app. cbn [next_of]. intros (H1 & _ & _ & H2) Hs. split; [done|].
  destruct Hs as [->|(c & ->)]; [done|]. by destruct H2 as (_ & _ & H2).
Qed.

Lemma ring_make m pre x mid post' : chain m pre x.1 -> chain m post' (next_of pre x.1) ->
  chain m (x :: mid) (next_of post' (next_of pre x.1)) -> ring m (pre ++ (x :: mid) ++ post').
Proof.
  intros H1 H2 H3. unfold ring. rewrite !chain_app, !next_of_app. cbn [next_of app]. split; [done|]. split; done.
Qed.

Section Link.
Context (s : hstate) (l al : list (Z * Z)) (O : heap_ok s l al) (bp n : Z) (al' : list (Z * Z)) (Ea : al ≡ₚ (bp, n) :: al').
Context (pre : list (Z * Z)) (p : Z * Z) (post : list (Z * Z)) (EL : (base, 0) :: l = pre ++ p :: post).
Context (Hp : p.1 < bp) (Hq : Forall (fun c => bp < c.1) post).

Let N := (h_brk s - hs) / 16.

Lemma link_in b : b ∈ pre \/ b = p \/ b ∈ post \/ b = (bp, n) \/ b ∈ al' -> b ∈ (base, 0) :: l ++ al.
Proof using Ea EL.
  intros Hb. change ((base, 0) :: l ++ al) with (((base, 0) :: l) ++ al). rewrite EL, Ea, !elem_of_app, !elem_of_cons. tauto.
Qed.

Lemma link_bp : (bp, n) ∈ l ++ al.
Proof using Ea. rewrite Ea, elem_of_app, elem_of_cons. tauto. Qed.

Lemma link_apart b : b ∈ pre \/ b = p \/ b ∈ post -> b.1 + 16 <= bp \/ bp + 16 <= b.1.
Proof using All.
  intros Hb. apply (heap_headers s l al O b (bp, n)); [apply link_in; tauto|apply link_in; tauto|]. intros E. subst b.
  pose proof (hp_sorted _ _ _ O) as So. rewrite EL in So. destruct (sorted_app _ _ _ So) as [H1 H2]. destruct Hb as [Hb|[Hb|Hb]].
  - rewrite Forall_forall in H1. specialize (H1 _ Hb). cbn in H1. lia.
  - subst p. cbn in Hp. lia.
  - rewrite Forall_forall in Hq. specialize (Hq _ Hb). cbn in Hq. lia.
Qed.

Lemma link_free b : b ∈ pre \/ b = p \/ b ∈ post -> 0 < b.2 -> b ∈ l.
Proof using All.
  intros Hb H0. assert (Hin : b ∈ (base, 0) :: l) by (rewrite EL, !elem_of_app, !elem_of_cons; tauto). apply elem_of_cons in Hin as [->|Hin]; [cbn in H0; lia|done].
Qed.

Lemma link_post c : c ∈ post -> c ∈ l.
Proof using EL. intros Hc. destruct pre as [|b0 pre2]; injection EL as _ E; rewrite E; [done|]. rewrite elem_of_app, elem_of_cons. tauto. Qed.

(** Unless the next block begins where [bp] ends, no later one does. *)
Lemma link_right : bp + 16 * n <> next_of (post ++ pre) p.1 -> forall c, c ∈ post -> bp + 16 * n <> c.1.
Proof using All.
  intros Hne c Hc. pose proof link_post as Hpost. pose proof link_bp as Hbp. pose proof (hp_sorted _ _ _ O) as So. rewrite EL in So. apply StronglySorted_app_1_r in So. apply StronglySorted_inv in So as [So _].
  destruct post as [|q post2]; [by apply elem_of_nil in Hc|]. cbn [app next_of] in Hne. apply elem_of_cons in Hc as [->|Hc]; [done|].
  apply StronglySorted_inv in So as [_ So]. rewrite Forall_forall in So. specialize (So c Hc). apply Forall_cons in Hq as [Hq' _].
  destruct (heap_apart s l al O (bp, n) q Hbp) as [H1|H1]; [apply elem_of_app; left; apply Hpost; by left|intros <-; cbn in Hq'; lia|cbn in H1; lia|].
  cbn [fst] in H1. destruct (heap_block s l al O q) as (H2 & _); [apply elem_of_app; left; apply Hpost; by left|]. lia.
Qed.

(** First [bp] gets its successor, and joins it if it can. *)
Lemma link_next : exists m1 nb post' q, load64 (h_mem s) p.1 = q /\
  (if hdr_add bp n =? q then
     let! nq := hdr_size q in
     set_hdr_size bp (u32 (n + nq)) ;;;
     let! q' := hdr_ptr q in
     set_hdr_ptr bp q'
   else set_hdr_ptr bp q) s = Ok tt (set_h_mem m1 s) /\
  (forall x, ~ bp <= x < bp + 16 -> rd m1 x = rd (h_mem s) x) /\
  load64 m1 bp = next_of (post' ++ pre) p.1 /\ load32 m1 (bp + 8) = nb /\ n <= nb < 2 ^ 32 /\
  tiles hs N ((bp, nb) :: pre ++ p :: post' ++ al') /\ suffix1 post' post /\ (forall c, c ∈ post' -> bp + 16 * nb <> c.1).
Proof using All.
  pose proof link_post as Hpost. pose proof link_right as Hright. pose proof link_in as Hin. pose proof link_apart as Hapart. pose proof link_bp as Hbp. pose proof (hp_ring _ _ _ O) as R. rewrite EL in R. destruct (ring_at _ _ _ _ R) as [Hpn _].
  destruct (heap_small s l al O (bp, n) (Hin (bp, n) ltac:(tauto))) as (Hb1 & Hb2 & Hb3). cbn [fst snd] in Hb1, Hb2, Hb3.
  assert (Ebn : hdr_add bp n = bp + 16 * n) by (unfold hdr_add; apply u64_small; lia).
  assert (T : tiles hs N ((bp, n) :: pre ++ p :: post ++ al')).
  { eapply tiles_perm; [|apply tiles_base, (hp_tiles _ _ _ O)]. change ((base, 0) :: l ++ al) with (((base, 0) :: l) ++ al). rewrite EL, Ea.
    rewrite <- Permutation_middle, <- app_assoc. done. }
  assert (Hsz : load32 (h_mem s) (bp + 8) = n).
  { pose proof (hp_alloc _ _ _ O) as A. rewrite Ea in A. by apply Forall_cons in A as [A _]. }
  destruct (decide (bp + 16 * n = next_of (post ++ pre) p.1)) as [Ej|Ej].
  - destruct post as [|[q nq] post2].
    { exfalso. cbn [app] in Ej. destruct (hp_base _ _ _ O). destruct (heap_block s l al O (bp, n) Hbp) as (? & ? & _). cbn [fst snd] in *.
      assert (Hbase : next_of pre p.1 = base) by (change base with (next_of ((base, 0) :: l) 0); rewrite EL; by destruct pre). rewrite Hbase in Ej. lia. }
    cbn [app next_of fst] in Ej, Hpn. destruct (ring_at (h_mem s) (pre ++ [p]) (q, nq) post2) as [Hq1 Hq2]; [by rewrite <- app_assoc|]. cbn [fst snd] in Hq1, Hq2.
    destruct (heap_small s l al O (q, nq) (Hin (q, nq) ltac:(right; right; left; left))) as (Hc1 & Hc2 & Hc3). cbn [fst snd] in Hc1, Hc2, Hc3.
    destruct (Hapart (q, nq) ltac:(right; right; left)) as [Hap|Hap]; cbn [fst] in Hap; [lia|].
    set (m0 := store32 (h_mem s) (bp + 8) (n + nq)). set (m1 := store64 m0 bp (load64 m0 q)). exists m1, (n + nq), post2, q.
    assert (Hq0 : load64 m0 q = load64 (h_mem s) q) by (apply header_same; intros x Hx; apply rd_set_size; lia).
    assert (Hnx : next_of (post2 ++ pre ++ [p]) q = next_of (post2 ++ pre) p.1) by (destruct post2; [by destruct pre|done]).
    split_and!.
    + exact Hpn.
    + rewrite Ebn, (proj2 (Z.eqb_eq _ _) Ej). unfold hdr_size. rewrite bind_gets, Hq2. unfold set_hdr_size. rewrite bind_modify. rewrite u32_small by lia. reflexivity.
    + intros x Hx. unfold m1, m0. by rewrite rd_set_ptr, rd_set_size.
    + unfold m1. rewrite load64_store64_same, Hq0, Hq1, Hnx. apply u64_small.
      assert (Hr : 0 <= load64 (h_mem s) q < 2 ^ 64) by apply load64_range. rewrite Hq1, Hnx in Hr. lia.
    + unfold m1. rewrite size_set_ptr. unfold m0. rewrite load32_store32_same. apply u32_small. lia.
    + lia.
    + lia.
    + apply tiles_join; [lia|lia|]. rewrite Ej. eapply tiles_perm; [|exact T]. constructor.
      transitivity ((pre ++ [p]) ++ (q, nq) :: post2 ++ al'); [by rewrite <- app_assoc|]. by rewrite <- Permutation_middle, <- app_assoc.
    + right. by exists (q, nq).
    + intros c Hc. replace (bp + 16 * (n + nq)) with (q + 16 * nq) by lia. apply (hp_gap _ _ _ O (q, nq) c); apply Hpost; [by left|by right].
  - set (q := next_of (post ++ pre) p.1) in *. exists (store64 (h_mem s) bp q), n, post, q. split_and!; [exact Hpn| | | | |lia|lia|done|by left|by apply Hright].
    + rewrite Ebn, (proj2 (Z.eqb_neq _ _) Ej). reflexivity.
    + intros x Hx. by apply rd_set_ptr.
    + rewrite load64_store64_same. fold q. apply u64_small. pose proof (load64_range (h_mem s) p.1). lia.
    + by rewrite size_set_ptr.
Qed.

(** The part of the heap that nobody touches: the blocks still in use. *)
Definition keeps_blocks (m m' : mem) (bs : list (Z * Z)) : Prop :=
  forall b x, b ∈ bs -> b.1 <= x < b.1 + 16 * b.2 -> rd m' x = rd m x.

(** Headers of free blocks and of [bp] are outside of the blocks in use. *)
Lemma link_used b x c : b ∈ al' -> c = p \/ c = (bp, n) -> b.1 <= x < b.1 + 16 * b.2 -> ~ c.1 <= x < c.1 + 16.
Proof using O Ea EL Hp Hq.
  intros Hb Hc Hx Hcx. destruct (hp_base _ _ _ O) as [Hb0 Hb1].
  assert (Hbl : b ∈ l ++ al) by (rewrite Ea, elem_of_app, elem_of_cons; tauto). destruct (heap_block s l al O b Hbl) as (B1 & B2 & B3 & B4).
  assert (Hcin : c = (base, 0) \/ c ∈ l ++ al).
  { destruct Hc as [->| ->]; [|right; apply link_bp]. assert (Hin : p ∈ (base, 0) :: l) by (rewrite EL, elem_of_app, elem_of_cons; tauto).
    apply elem_of_cons in Hin as [->|Hin]; [by left|right; apply elem_of_app; by left]. }
  destruct Hcin as [->|Hcl]; [cbn in *; lia|]. destruct (heap_block s l al O c Hcl) as (C1 & C2 & C3 & C4).
  assert (Hne : b <> c).
  { intros ->. pose proof (tiles_nodup _ _ _ (hp_tiles _ _ _ O)) as N0. rewrite Ea, all_units_app, all_units_cons in N0. apply NoDup_app in N0 as (_ & N1 & N2).
    apply NoDup_app in N2 as (_ & N2 & _). assert (Hu : c.1 ∈ units c) by (apply in_units; exists 0; split; lia).
    assert (Hu' : c.1 ∈ all_units al') by (apply in_all_units; by exists c).
    destruct Hc as [->| ->]; [|by apply (N2 _ Hu)]. assert (Hin : p ∈ (base, 0) :: l) by (rewrite EL, elem_of_app, elem_of_cons; tauto).
    apply elem_of_cons in Hin as [->|Hin]; [cbn in *; lia|]. apply (N1 p.1); [apply in_all_units; by exists p|apply elem_of_app; by right]. }
  destruct (heap_apart s l al O b c Hbl Hcl Hne); lia.
Qed.

(** What is left alone by writes to the headers of [p] and [bp]. *)
Lemma link_frame m' post' : suffix1 post' post ->
  (forall x, ~ bp <= x < bp + 16 -> ~ p.1 <= x < p.1 + 16 -> rd m' x = rd (h_mem s) x) ->
  chain m' pre p.1 /\ chain m' post' (next_of pre p.1) /\ Forall (fun b => load32 m' (b.1 + 8) = b.2) al' /\ keeps_blocks (h_mem s) m' al'.
Proof using All.
  intros Hs Hm. pose proof (hp_ring _ _ _ O) as R. rewrite EL in R. destruct (ring_parts _ _ _ _ _ R Hs) as [C1 C2].
  pose proof (hp_sorted _ _ _ O) as So. rewrite EL in So. destruct (sorted_app _ _ _ So) as [H1 H2]. rewrite Forall_forall in H1, H2.
  assert (Hap : forall b, b ∈ pre \/ b ∈ post -> b.1 + 16 <= p.1 \/ p.1 + 16 <= b.1).
  { intros b Hb. apply (heap_headers s l al O b p); [apply link_in; tauto|apply link_in; tauto|]. intros ->. destruct Hb as [Hb|Hb]; [specialize (H1 _ Hb)|specialize (H2 _ Hb)]; lia. }
  assert (Hhd : forall b x, b ∈ pre \/ b ∈ post -> b.1 <= x < b.1 + 16 -> rd m' x = rd (h_mem s) x).
  { intros b x Hb Hx. pose proof (Hap b Hb). pose proof (link_apart b ltac:(tauto)). apply Hm; lia. }
  assert (Hk : keeps_blocks (h_mem s) m' al').
  { intros b x Hb Hx. apply Hm; [apply (link_used b x (bp, n) Hb ltac:(tauto) Hx)|apply (link_used b x p Hb ltac:(tauto) Hx)]. }
  split_and!; [| | |done].
  - eapply chain_agree; [|exact C1]. intros b x Hb. apply Hhd. tauto.
  - eapply chain_agree; [|exact C2]. intros b x Hb. apply Hhd. right. by eapply suffix1_in.
  - pose proof (hp_alloc _ _ _ O) as A. rewrite Ea in A. apply Forall_cons in A as [_ A]. rewrite Forall_forall in A |- *. intros b Hb. rewrite <- (A b Hb).
    assert (Hbl : b ∈ l ++ al) by (rewrite Ea, elem_of_app, elem_of_cons; tauto). destruct (heap_block s l al O b Hbl) as (B1 & _).
    apply load32_agree. intros x Hx. apply (Hk b); [done|lia].
Qed.

(** Blocks before and after [bp]. *)
Lemma link_order post' b : suffix1 post' post -> 0 < b.2 ->
  (b ∈ pre -> b.1 < p.1 /\ b.1 + 16 * b.2 <= p.1) /\ (b ∈ post' -> bp < b.1).
Proof using All.
  intros Hs H0. pose proof (hp_sorted _ _ _ O) as So. rewrite EL in So. destruct (sorted_app _ _ _ So) as [H1 _]. rewrite Forall_forall in H1. split; intros Hb.
  - specialize (H1 b Hb). split; [done|]. assert (Hbl : b ∈ l ++ al) by (apply elem_of_app; left; apply link_free; tauto).
    assert (Hpi : p ∈ (base, 0) :: l) by (rewrite EL, elem_of_app, elem_of_cons; tauto). destruct (heap_block s l al O b Hbl) as (_ & B2 & _). destruct (hp_base _ _ _ O).
    apply elem_of_cons in Hpi as [->|Hpi]; [cbn in H1; lia|]. assert (Hpl : p ∈ l ++ al) by (apply elem_of_app; by left). destruct (heap_block s l al O p Hpl) as (P1 & _).
    destruct (heap_apart s l al O b p Hbl Hpl) as [Ha|Ha]; [intros ->; lia|done|lia].
  - rewrite Forall_forall in Hq. apply Hq. by apply (suffix1_in post').
Qed.

Lemma link_gap nb x mid post' b c : suffix1 post' post -> n <= nb -> (forall c, c ∈ post' -> bp + 16 * nb <> c.1) ->
  (x = p /\ mid = [(bp, nb)] /\ p.1 + 16 * p.2 <> bp) \/ (mid = [] /\ x = (p.1, p.2 + nb) /\ p.1 + 16 * p.2 = bp) ->
  b ∈ pre ++ (x :: mid) ++ post' -> c ∈ pre ++ (x :: mid) ++ post' -> 0 < b.2 -> 0 < c.2 -> b.1 + 16 * b.2 <> c.1.
Proof using All.
  intros Hs Hnb Hg Hc Hb Hd Hb0 Hd0. destruct (link_order post' b Hs Hb0) as [B1 B2]. destruct (link_order post' c Hs Hd0) as [D1 D2].
  assert (Hold : forall b c, b ∈ pre \/ b = p \/ b ∈ post' -> c ∈ pre \/ c = p \/ c ∈ post' -> 0 < b.2 -> 0 < c.2 -> b.1 + 16 * b.2 <> c.1).
  { intros b' c' Hb' Hc' H1 H2. apply (hp_gap _ _ _ O); apply link_free; try done; destruct Hb' as [?|[?|?]]; destruct Hc' as [?|[?|?]]; try tauto; right; right; by apply (suffix1_in post'). }
  rewrite !elem_of_app, elem_of_cons in Hb, Hd. assert (Hn0 : 0 < n) by (apply (heap_block s l al O (bp, n)), link_bp).
  destruct Hc as [(-> & -> & Hj)|(-> & -> & Hj)].
  - rewrite list_elem_of_singleton in Hb, Hd. destruct Hb as [Hb|[[Hb|Hb]|Hb]]; destruct Hd as [Hd|[[Hd|Hd]|Hd]]; try (apply Hold; tauto);
      try subst b; try subst c; cbn [fst snd] in *; try specialize (B1 Hb); try specialize (B2 Hb); try specialize (D1 Hd); try specialize (D2 Hd); try lia; by apply Hg.
  - rewrite elem_of_nil in Hb, Hd. assert (Hp2 : 0 < p.2) by lia.
    destruct Hb as [Hb|[[Hb|[]]|Hb]]; destruct Hd as [Hd|[[Hd|[]]|Hd]]; try (apply Hold; tauto); try subst b; try subst c; cbn [fst snd] in *;
      try specialize (B1 Hb); try specialize (B2 Hb); try specialize (D1 Hd); try specialize (D2 Hd); try lia.
    + apply (Hold b p); tauto.
    + replace (p.1 + 16 * (p.2 + nb)) with (bp + 16 * nb) by lia. by apply Hg.
Qed.

(** The new heap. *)
Lemma link_heap m2 x mid post' nb : suffix1 post' post -> n <= nb -> (forall c, c ∈ post' -> bp + 16 * nb <> c.1) ->
  (forall y, ~ bp <= y < bp + 16 -> ~ p.1 <= y < p.1 + 16 -> rd m2 y = rd (h_mem s) y) ->
  chain m2 (x :: mid) (next_of post' (next_of pre x.1)) ->
  tiles hs N ((bp, nb) :: pre ++ p :: post' ++ al') ->
  (x = p /\ mid = [(bp, nb)] /\ p.1 + 16 * p.2 <> bp) \/ (mid = [] /\ x = (p.1, p.2 + nb) /\ p.1 + 16 * p.2 = bp) ->
  exists l', heap_ok (mkH m2 p.1 (h_brk s)) l' al' /\ keeps_blocks (h_mem s) m2 al' /\ (length l' <= S (length l))%nat /\ exists c, c ∈ l' /\ n <= c.2.
Proof using All.
  intros Hs Hnb Hg Hm C T Hc. destruct (link_frame m2 post' Hs Hm) as (C1 & C2 & A & Kp). destruct (hp_base _ _ _ O) as [Hb0 Hb1].
  pose proof (hp_sorted _ _ _ O) as So. rewrite EL in So. destruct (sorted_link pre p post post' bp nb (p.2 + nb) So Hs Hp Hq) as [So1 So2].
  assert (Ex : x.1 = p.1) by (destruct Hc as [(-> & _)|(_ & -> & _)]; done).
  assert (R : ring m2 (pre ++ (x :: mid) ++ post')) by (apply ring_make; rewrite ?Ex; done || by rewrite <- Ex).
  set (L' := pre ++ (x :: mid) ++ post') in *.
  assert (Hpos : Forall (fun b => 0 < b.2) (l ++ al)) by apply O. rewrite Forall_forall in Hpos.
  assert (Hn0 : 0 < n) by (apply (Hpos (bp, n)), link_bp).
  assert (Hl' : exists l', L' = (base, 0) :: l' /\ (forall b, b ∈ l' -> 0 < b.2) /\ exists c, c ∈ l' /\ n <= c.2).
  { destruct pre as [|b0 pre2].
    - injection EL as Ep El. destruct Hc as [(-> & -> & _)|(_ & _ & Hj)]; [|rewrite <- Ep in Hj; cbn in Hj; rewrite <- Ep in Hp; cbn in Hp; lia].
      exists ((bp, nb) :: post'). unfold L'. rewrite <- Ep. split; [done|]. split; [|exists (bp, nb); split; [by left|done]].
      intros b [->|Hb]%elem_of_cons; [cbn; lia|]. apply Hpos, elem_of_app. left. rewrite El. by apply (suffix1_in post' post).
    - injection EL as Eb El. exists (pre2 ++ (x :: mid) ++ post'). unfold L'. rewrite <- Eb. split; [done|].
      assert (Hp0 : 0 < p.2) by (apply Hpos, elem_of_app; left; rewrite El, elem_of_app, elem_of_cons; tauto).
      assert (Hxm : forall b, b ∈ x :: mid -> 0 < b.2).
      { intros b Hb. destruct Hc as [(-> & -> & _)|(-> & -> & _)]; [apply elem_of_cons in Hb as [->|Hb%list_elem_of_singleton]; [done|subst b; cbn; lia]|].
        apply list_elem_of_singleton in Hb. subst b. cbn. lia. }
      split.
      + intros b Hb. rewrite !elem_of_app in Hb. destruct Hb as [Hb|[Hb|Hb]]; [|by apply Hxm|]; apply Hpos, elem_of_app; left; rewrite El, elem_of_app, elem_of_cons; [tauto|].
        right. right. by apply (suffix1_in post' post).
      + destruct Hc as [(-> & -> & _)|(-> & -> & _)]; [exists (bp, nb)|exists (p.1, p.2 + nb)]; rewrite !elem_of_app, !elem_of_cons; cbn; split; tauto || lia. }
  destruct Hl' as (l' & EL' & Hpos' & Hc'). exists l'.
  assert (Hlen : (length l' <= S (length l))%nat).
  { pose proof (f_equal length EL) as E1. pose proof (f_equal length EL') as E2. unfold L' in E2. rewrite !length_app in E1. rewrite !length_app in E2. cbn [length] in E1, E2.
    assert (length post' <= length post)%nat by (destruct Hs as [->|(c & ->)]; cbn [length]; lia).
    assert (length mid <= 1)%nat by (destruct Hc as [(_ & -> & _)|(-> & _)]; cbn [length]; lia). lia. }
  split; [|by split_and!]. rewrite EL' in R. split; cbn [h_mem h_freep h_brk]; try done.
  - rewrite <- EL'. unfold L'. rewrite !fmap_app, fmap_cons, !elem_of_app, elem_of_cons. rewrite Ex. tauto.
  - rewrite <- EL'. unfold L'. destruct Hc as [(-> & -> & _)|(-> & -> & _)]; [exact So1|exact So2].
  - apply Forall_app. split; [by apply Forall_forall|]. apply Forall_forall. intros b Hb. apply Hpos. rewrite Ea, elem_of_app, elem_of_cons. tauto.
  - apply (proj1 (tiles_base _ _)). change ((base, 0) :: l' ++ al') with (((base, 0) :: l') ++ al'). rewrite <- EL'. unfold L'. rewrite <- app_assoc.
    destruct Hc as [(-> & -> & _)|(-> & -> & Hj)]; cbn [app].
    + eapply tiles_perm; [|exact T]. transitivity ((pre ++ [p]) ++ (bp, nb) :: post' ++ al'); [etrans; [|apply Permutation_middle]; by rewrite <- app_assoc|by rewrite <- app_assoc].
    + assert (Hp2 : 0 <= p.2) by apply (heap_small s l al O p (link_in p ltac:(tauto))).
      eapply (tiles_perm _ _ ((p.1, p.2 + nb) :: pre ++ post' ++ al')); [apply Permutation_middle|]. apply tiles_join; [done|lia|]. rewrite Hj.
      eapply tiles_perm; [|exact T]. etrans; [apply Permutation_skip; symmetry; apply Permutation_middle|]. rewrite Permutation_swap. by destruct p.
  - apply O.
  - intros b c Hb Hd. apply (link_gap nb x mid post' b c Hs Hnb Hg Hc); [fold L'; rewrite EL'; by right|fold L'; rewrite EL'; by right|by apply Hpos'|by apply Hpos'].
Qed.

(** Then [p] gets [bp] as its successor, or joins it. *)
Lemma link_prev m1 nb post' : suffix1 post' post -> n <= nb -> (forall c, c ∈ post' -> bp + 16 * nb <> c.1) ->
  (forall x, ~ bp <= x < bp + 16 -> rd m1 x = rd (h_mem s) x) ->
  load64 m1 bp = next_of (post' ++ pre) p.1 -> load32 m1 (bp + 8) = nb ->
  tiles hs N ((bp, nb) :: pre ++ p :: post' ++ al') ->
  exists s' l', (let! np := hdr_size p.1 in
      (if hdr_add p.1 np =? bp then
         let! nb := hdr_size bp in
         set_hdr_size p.1 (u32 (np + nb)) ;;;
         let! b' := hdr_ptr bp in
         set_hdr_ptr p.1 b'
       else set_hdr_ptr p.1 bp) ;;;
      modify (set_h_freep p.1)) (set_h_mem m1 s) = Ok tt s' /\
    heap_ok s' l' al' /\ h_brk s' = h_brk s /\ keeps_blocks (h_mem s) (h_mem s') al' /\ (length l' <= S (length l))%nat /\ exists c, c ∈ l' /\ n <= c.2.
Proof using All.
  intros Hs Hnb Hg Hm1 Hptr Hsz T. destruct (heap_small s l al O p (link_in p ltac:(tauto))) as (R1 & R2 & R3).
  destruct (heap_small s l al O (bp, n) (link_in (bp, n) ltac:(tauto))) as (Q1 & _ & _). cbn [fst] in Q1.
  assert (Hn0 : 0 < n) by (apply (heap_block s l al O (bp, n) link_bp)).
  pose proof (link_apart p ltac:(tauto)) as Hap. pose proof (hp_ring _ _ _ O) as R. rewrite EL in R. destruct (ring_at _ _ _ _ R) as [_ Hps].
  destruct (header_same (h_mem s) m1 p.1) as [_ Hpm]; [intros x Hx; apply Hm1; lia|]. rewrite Hps in Hpm.
  assert (Eadd : hdr_add p.1 p.2 = p.1 + 16 * p.2) by (unfold hdr_add; apply u64_small; lia).
  unfold hdr_size at 1. rewrite bind_gets. cbn [h_mem set_h_mem]. rewrite Hpm, Eadd. destruct (Z.eqb_spec (p.1 + 16 * p.2) bp) as [Ej|Ej].
  - destruct (tiles_in _ _ _ T (bp, nb) ltac:(left) ltac:(cbn; lia)) as (k & Ek & Hk & Hk'). cbn [fst snd] in Ek, Hk'.
    destruct (hp_brk _ _ _ O) as [Hbr _]. pose proof (Z.mul_div_le (h_brk s - hs) 16 ltac:(lia)) as Hdiv. fold N in Hdiv.
    assert (Hsum : u32 (p.2 + nb) = p.2 + nb) by (apply u32_small; lia).
    set (m0 := store32 m1 (p.1 + 8) (p.2 + nb)). set (m2 := store64 m0 p.1 (load64 m0 bp)).
    destruct (header_same m1 m0 bp) as [Hb0 _]; [intros x Hx; apply rd_set_size; lia|].
    destruct (link_heap m2 (p.1, p.2 + nb) [] post' nb Hs Hnb Hg) as (l' & O' & Kp & Hl' & Hc'); [| |exact T|by right|].
    + intros y Hy1 Hy2. unfold m2, m0. rewrite rd_set_ptr, rd_set_size by done. by apply Hm1.
    + cbn [chain next_of fst snd]. unfold m2. rewrite load64_store64_same, size_set_ptr, Hb0, Hptr. rewrite u64_small by (rewrite <- Hptr; apply load64_range).
      unfold m0. rewrite load32_store32_same, Hsum. split; [apply next_of_app|done].
    + exists (mkH m2 p.1 (h_brk s)), l'. split; [|done]. unfold hdr_size. rewrite bind_assoc, bind_gets. cbn [h_mem set_h_mem]. rewrite Hsz, Hsum. reflexivity.
  - set (m2 := store64 m1 p.1 bp). destruct (link_heap m2 p [(bp, nb)] post' nb Hs Hnb Hg) as (l' & O' & Kp & Hl' & Hc'); [| |exact T|by left|].
    + intros y Hy1 Hy2. unfold m2. rewrite rd_set_ptr by done. by apply Hm1.
    + destruct (header_same m1 m2 bp) as [Hb1 Hb2]; [intros x Hx; apply rd_set_ptr; lia|].
      cbn [chain next_of fst snd]. split_and!; [unfold m2; rewrite load64_store64_same; apply u64_small; lia|unfold m2; by rewrite size_set_ptr| | |done].
      * rewrite Hb1, Hptr. apply next_of_app.
      * by rewrite Hb2.
    + exists (mkH m2 p.1 (h_brk s)), l'. split; [reflexivity|done].
Qed.
End Link.

(** ** [free] *)

Lemma ufree_ok fuel s l al bp n al' : heap_ok s l al -> al ≡ₚ (bp, n) :: al' -> (length l < fuel)%nat ->
  exists s' l', ufree fuel (bp + 16) s = Ok tt s' /\ heap_ok s' l' al' /\ h_brk s' = h_brk s /\ keeps_blocks (h_mem s) (h_mem s') al' /\
    (length l' <= S (length l))%nat /\ exists c, c ∈ l' /\ n <= c.2.
Proof.
  intros O Ea Hf. assert (Hbp : (bp, n) ∈ l ++ al) by (rewrite Ea, elem_of_app, elem_of_cons; tauto).
  destruct (hp_base _ _ _ O) as [Hb0 Hb1]. destruct (heap_block s l al O (bp, n) Hbp) as (P1 & P2 & P3 & _). cbn [fst snd] in P1, P2, P3.
  destruct (heap_small s l al O (bp, n)) as (Q1 & Q2 & _); [by right|]. cbn [fst snd] in Q1, Q2.
  assert (Hnin : bp ∉ ((base, 0) :: l).*1).
  { rewrite fmap_cons, not_elem_of_cons. split; [cbn; lia|]. intros (c & E & Hc)%list_elem_of_fmap.
    pose proof (tiles_nodup _ _ _ (hp_tiles _ _ _ O)) as N. rewrite Ea, all_units_app, all_units_cons in N. apply NoDup_app in N as (_ & N & _).
    assert (Hcl : c ∈ l ++ al) by (apply elem_of_app; by left). destruct (heap_block s l al O c Hcl) as (C1 & _).
    apply (N bp); [apply in_all_units; exists c; split; [done|]; apply in_units; exists 0; split; lia|]. apply elem_of_app. left. apply in_units. exists 0. cbn. lia. }
  destruct (find_split bp (base, 0) l (hp_sorted _ _ _ O) ltac:(cbn; lia) Hnin) as (pre & p & post & EL & Hp & Hq).
  pose proof (find_ok s ((base, 0) :: l) bp pre p post EL (hp_sorted _ _ _ O) (hp_ring _ _ _ O) Hp Hq ltac:(cbn; lia) (h_freep s) fuel (hp_freep _ _ _ O) ltac:(cbn [length]; lia)) as Hfind.
  destruct (link_next s l al O bp n al' Ea pre p post EL Hp Hq) as (m1 & nb & post' & q & Eq & Run & Hm1 & Hptr & Hsz & Hnb & T & Hs & Hg).
  assert (Hbn : load32 (h_mem s) (bp + 8) = n) by (pose proof (hp_alloc _ _ _ O) as A; rewrite Ea in A; by apply Forall_cons in A as [A _]).
  unfold ufree. replace (u64 (bp + 16 - 16)) with bp by (rewrite u64_small; lia). rewrite bind_gets, (bind_ok _ _ _ _ _ Hfind).
  unfold hdr_size at 1, hdr_ptr at 1. rewrite !bind_gets, Hbn, Eq, (bind_ok _ _ _ _ _ Run).
  exact (link_prev s l al O bp n al' Ea pre p post EL Hp Hq m1 nb post' Hs (proj1 Hnb) Hg Hm1 Hptr Hsz T).
Qed.

(** ** Taking a block *)

(** A free block has its range for itself. *)
Lemma free_alone s l al b c : heap_ok s l al -> c ∈ l -> b ∈ (base, 0) :: l ++ al -> b <> c -> b.1 + 16 <= c.1 \/ c.1 + 16 * c.2 <= b.1.
Proof.
  intros O Hc Hb Hne. assert (Hcl : c ∈ l ++ al) by (apply elem_of_app; by left). destruct (heap_block s l al O c Hcl) as (_ & C2 & _).
  destruct (hp_base _ _ _ O). apply elem_of_cons in Hb as [->|Hb]; [cbn; lia|]. destruct (heap_block s l al O b Hb) as (B1 & _).
  destruct (heap_apart s l al O b c Hb Hcl Hne); lia.
Qed.

(** Writes to a free block or to the header of another leave the blocks in use
    alone. *)
Lemma free_keeps s l al c v m' : heap_ok s l al -> c ∈ l -> v ∈ (base, 0) :: l ->
  (forall x, ~ c.1 <= x < c.1 + 16 * c.2 -> ~ v.1 <= x < v.1 + 16 -> rd m' x = rd (h_mem s) x) ->
  keeps_blocks (h_mem s) m' al /\ Forall (fun b => load32 m' (b.1 + 8) = b.2) al.
Proof.
  intros O Hc Hv Hm. assert (Hcl : c ∈ l ++ al) by (apply elem_of_app; by left). destruct (hp_base _ _ _ O).
  pose proof (tiles_nodup _ _ _ (hp_tiles _ _ _ O)) as N. rewrite all_units_app in N. apply NoDup_app in N as (_ & N & _).
  assert (Hdis : forall b d, b ∈ al -> d ∈ l -> b <> d).
  { intros b d Hb Hd ->. assert (Hdl : d ∈ l ++ al) by (apply elem_of_app; by left). destruct (heap_block s l al O d Hdl) as (D1 & _).
    assert (Hu : d.1 ∈ units d) by (apply in_units; exists 0; split; lia). apply (N d.1); apply in_all_units; by exists d. }
  assert (Kp : keeps_blocks (h_mem s) m' al).
  { intros b x Hb Hx. assert (Hbl : b ∈ l ++ al) by (apply elem_of_app; by right). apply Hm.
    - destruct (heap_apart s l al O b c Hbl Hcl (Hdis b c Hb Hc)); lia.
    - apply elem_of_cons in Hv as [->|Hv]; [destruct (heap_block s l al O b Hbl) as (_ & ? & _); cbn; lia|].
      assert (Hvl : v ∈ l ++ al) by (apply elem_of_app; by left). destruct (heap_block s l al O v Hvl) as (V1 & _).
      destruct (heap_apart s l al O b v Hbl Hvl (Hdis b v Hb Hv)); lia. }
  split; [done|]. pose proof (hp_alloc _ _ _ O) as A. rewrite Forall_forall in A |- *. intros b Hb. rewrite <- (A b Hb).
  assert (Hbl : b ∈ l ++ al) by (apply elem_of_app; by right). destruct (heap_block s l al O b Hbl) as (B1 & _). apply load32_agree. intros x Hx. apply (Kp b); [done|lia].
Qed.

Section Take.
Context (s : hstate) (l al : list (Z * Z)) (O : heap_ok s l al) (nunits : Z) (Hn : 0 < nunits).
Context (pre : list (Z * Z)) (v c : Z * Z) (l2 : list (Z * Z)) (EL : (base, 0) :: l = pre ++ v :: c :: l2) (Hc : nunits <= c.2).

Lemma take_in b : b ∈ pre \/ b = v \/ b = c \/ b ∈ l2 -> b ∈ (base, 0) :: l ++ al.
Proof using EL. intros Hb. change ((base, 0) :: l ++ al) with (((base, 0) :: l) ++ al). rewrite EL, !elem_of_app, !elem_of_cons. tauto. Qed.

Lemma take_c : c ∈ l.
Proof using All.
  assert (Hin : c ∈ (base, 0) :: l) by (rewrite EL, elem_of_app, !elem_of_cons; tauto). apply elem_of_cons in Hin as [E|Hin]; [|done].
  pose proof Hc as Hc'. rewrite E in Hc'. cbn in Hc'. lia.
Qed.

Lemma take_v : v ∈ (base, 0) :: l.
Proof using EL. rewrite EL, elem_of_app, !elem_of_cons. tauto. Qed.

(** The rest of [l]. *)
Lemma take_split : exists l1, l = l1 ++ c :: l2 /\ (base, 0) :: l1 = pre ++ [v].
Proof using EL.
  destruct pre as [|b0 pre2]; injection EL as E1 E2; [exists []; split; [done|by rewrite E1]|].
  exists (pre2 ++ [v]). rewrite E2, E1, <- app_assoc. done.
Qed.

Lemma take_other b : b ∈ pre \/ b ∈ l2 -> b <> v /\ b <> c.
Proof using O EL.
  intros Hb. pose proof (hp_sorted _ _ _ O) as So. rewrite EL in So. destruct (sorted_app _ _ _ So) as [H1 H2]. rewrite Forall_forall in H1.
  apply Forall_cons in H2 as [H2 H3]. rewrite Forall_forall in H3. apply StronglySorted_app_1_r in So. apply StronglySorted_inv in So as [So _].
  apply StronglySorted_inv in So as [_ H4]. rewrite Forall_forall in H4.
  destruct Hb as [Hb|Hb]; [specialize (H1 b Hb)|specialize (H3 b Hb); specialize (H4 b Hb)]; split; intros ->; lia.
Qed.

(** The parts of the ring that do not change. *)
Lemma take_frame m' : (forall x, ~ c.1 <= x < c.1 + 16 * c.2 -> ~ v.1 <= x < v.1 + 16 -> rd m' x = rd (h_mem s) x) ->
  chain m' pre v.1 /\ chain m' l2 (next_of pre v.1).
Proof using All.
  intros Hm. pose proof (hp_ring _ _ _ O) as R. rewrite EL in R. destruct (ring_parts _ _ _ _ l2 R) as [C1 C2]; [right; by exists c|].
  assert (Hhd : forall b x, b ∈ pre \/ b ∈ l2 -> b.1 <= x < b.1 + 16 -> rd m' x = rd (h_mem s) x).
  { intros b x Hb Hx. destruct (take_other b Hb) as [N1 N2]. assert (Hbi : b ∈ (base, 0) :: l ++ al) by (apply take_in; tauto).
    pose proof (free_alone s l al b c O take_c Hbi N2). pose proof (heap_headers s l al O b v Hbi (take_in v ltac:(tauto)) N1). apply Hm; lia. }
  split; [eapply chain_agree; [|exact C1]|eapply chain_agree; [|exact C2]]; intros b x Hb; apply Hhd; tauto.
Qed.

(** What a successful [malloc] leaves. *)
Definition took (s' : hstate) (a : Z) : Prop :=
  h_brk s' = h_brk s /\ keeps_blocks (h_mem s) (h_mem s') al /\ exists l', heap_ok s' l' ((a, nunits) :: al).

Lemma take_exact m' : c.2 = nunits -> m' = store64 (h_mem s) v.1 (load64 (h_mem s) c.1) -> took (mkH m' v.1 (h_brk s)) c.1.
Proof using All.
  intros Ec Em. destruct take_split as (l1 & El & El1). pose proof (hp_ring _ _ _ O) as R. rewrite EL in R.
  destruct (ring_at (h_mem s) (pre ++ [v]) c l2) as [Hcn Hcs]; [by rewrite <- app_assoc|].
  destruct (ring_at _ _ _ _ R) as [_ Hvs].
  destruct (heap_small s l al O c (take_in c ltac:(tauto))) as (C1 & C2 & _). destruct (heap_small s l al O v (take_in v ltac:(tauto))) as (V1 & _).
  assert (Hm : forall x, ~ v.1 <= x < v.1 + 16 -> rd m' x = rd (h_mem s) x) by (intros x Hx; rewrite Em; by apply rd_set_ptr).
  destruct (take_frame m') as [P1 P2]; [intros x _; apply Hm|]. destruct (free_keeps s l al c v m' O take_c take_v) as [Kp A]; [intros x _; apply Hm|].
  assert (Hvc : v <> c).
  { intros E. pose proof (hp_sorted _ _ _ O) as So. rewrite EL in So. apply sorted_app in So as [_ So]. apply Forall_cons in So as [So _]. rewrite E in So. lia. }
  split; [done|]. split; [exact Kp|]. exists (l1 ++ l2). split; cbn [h_mem h_freep h_brk].
  - change ((base, 0) :: l1 ++ l2) with (((base, 0) :: l1) ++ l2). rewrite El1, <- app_assoc. apply (ring_make m' pre v [] l2 P1 P2). cbn [chain next_of]. split_and!; [| |done].
    + rewrite Em, load64_store64_same, u64_small by apply load64_range. rewrite Hcn. rewrite next_of_app. by destruct pre.
    + rewrite Em, size_set_ptr. exact Hvs.
  - change ((base, 0) :: l1 ++ l2) with (((base, 0) :: l1) ++ l2). rewrite El1, !fmap_app. cbn. rewrite !elem_of_app, elem_of_cons. tauto.
  - pose proof (hp_sorted _ _ _ O) as So. rewrite El in So. exact (sorted_remove ((base, 0) :: l1) c l2 So).
  - pose proof (hp_pos _ _ _ O) as Hp. rewrite El in Hp. rewrite !Forall_app, Forall_cons in Hp. rewrite !Forall_app, Forall_cons. cbn [snd]. tauto.
  - apply Forall_cons. split; [|exact A]. cbn [fst snd]. rewrite <- Ec, <- Hcs. apply load32_agree. intros x Hx. apply Hm.
    pose proof (heap_headers s l al O v c (take_in v ltac:(tauto)) (take_in c ltac:(tauto)) Hvc). lia.
  - eapply tiles_perm; [|apply (hp_tiles _ _ _ O)]. rewrite El, <- Ec, <- !app_assoc. cbn [app]. replace (c.1, c.2) with c by by destruct c.
    apply Permutation_app_head. apply Permutation_middle.
  - apply O.
  - apply O.
  - intros b d Hb Hd. apply (hp_gap _ _ _ O); rewrite El, elem_of_app, elem_of_cons; rewrite elem_of_app in Hb, Hd; tauto.
Qed.

(** Cutting the end off [c] brings no free blocks together. *)
Lemma split_gap l1 : l = l1 ++ c :: l2 -> (base, 0) :: l1 = pre ++ [v] -> nunits < c.2 ->
  forall b d, b ∈ l1 ++ (c.1, c.2 - nunits) :: l2 -> d ∈ l1 ++ (c.1, c.2 - nunits) :: l2 -> b.1 + 16 * b.2 <> d.1.
Proof using All.
  intros El El1 Hlt. pose proof (hp_sorted _ _ _ O) as So. rewrite El in So. change ((base, 0) :: l1 ++ c :: l2) with (((base, 0) :: l1) ++ c :: l2) in So.
  destruct (sorted_app _ _ _ So) as [H1 H2]. apply Forall_cons in H1 as [_ H1]. rewrite Forall_forall in H1, H2.
  assert (Hoth : forall b, b ∈ l1 \/ b ∈ l2 -> b ∈ l /\ (b.1 + 16 <= c.1 \/ c.1 + 16 * c.2 <= b.1)).
  { intros b Hb. assert (Hbl : b ∈ l) by (rewrite El, elem_of_app, elem_of_cons; tauto). split; [done|].
    apply (free_alone s l al b c O take_c); [right; apply elem_of_app; by left|]. intros ->. destruct Hb as [Hb|Hb]; [specialize (H1 c Hb)|specialize (H2 c Hb)]; lia. }
  intros b d Hb Hd. rewrite elem_of_app, elem_of_cons in Hb, Hd.
  destruct (decide (b = (c.1, c.2 - nunits))) as [->|Nb]; destruct (decide (d = (c.1, c.2 - nunits))) as [->|Nd]; cbn [fst snd].
  - lia.
  - destruct (Hoth d ltac:(tauto)) as [_ Ha]. lia.
  - apply (hp_gap _ _ _ O b c); [apply (Hoth b); tauto|apply take_c].
  - apply (hp_gap _ _ _ O b d); [apply (Hoth b); tauto|apply (Hoth d); tauto].
Qed.

Lemma take_split_block m' (a := c.1 + 16 * (c.2 - nunits)) : nunits < c.2 ->
  m' = store32 (store32 (h_mem s) (c.1 + 8) (c.2 - nunits)) (a + 8) nunits -> took (mkH m' v.1 (h_brk s)) a.
Proof using All.
  intros Ec Em. destruct take_split as (l1 & El & El1). pose proof (hp_ring _ _ _ O) as R. rewrite EL in R.
  destruct (ring_at (h_mem s) (pre ++ [v]) c l2) as [Hcn Hcs]; [by rewrite <- app_assoc|]. destruct (ring_at _ _ _ _ R) as [Hvn Hvs]. cbn [app next_of] in Hvn.
  destruct (heap_small s l al O c (take_in c ltac:(tauto))) as (C1 & C2 & _).
  assert (Hm : forall x, ~ c.1 <= x < c.1 + 16 * c.2 -> rd m' x = rd (h_mem s) x).
  { intros x Hx. rewrite Em. rewrite !rd_store32_other by lia. done. }
  destruct (take_frame m') as [P1 P2]; [intros x Hx _; by apply Hm|]. destruct (free_keeps s l al c v m' O take_c take_v) as [Kp A]; [intros x Hx _; by apply Hm|].
  assert (Hvc : v <> c).
  { intros E. pose proof (hp_sorted _ _ _ O) as So. rewrite EL in So. apply sorted_app in So as [_ So]. apply Forall_cons in So as [So _]. rewrite E in So. lia. }
  destruct (header_same (h_mem s) m' v.1) as [Hv1 Hv2].
  { intros x Hx. apply Hm. pose proof (free_alone s l al v c O take_c (take_in v ltac:(tauto)) Hvc). lia. }
  assert (Hc1 : load64 m' c.1 = load64 (h_mem s) c.1) by (apply load64_agree; intros x Hx; rewrite Em, !rd_store32_other by lia; done).
  assert (Hc2 : load32 m' (c.1 + 8) = c.2 - nunits).
  { rewrite Em. etrans; [apply load32_agree; intros x Hx; apply rd_store32_other; lia|]. rewrite load32_store32_same. apply u32_small. lia. }
  split; [done|]. split; [exact Kp|]. exists (l1 ++ (c.1, c.2 - nunits) :: l2).
  assert (EL' : (base, 0) :: l1 ++ (c.1, c.2 - nunits) :: l2 = pre ++ [v; (c.1, c.2 - nunits)] ++ l2).
  { change ((base, 0) :: l1 ++ (c.1, c.2 - nunits) :: l2) with (((base, 0) :: l1) ++ (c.1, c.2 - nunits) :: l2). by rewrite El1, <- app_assoc. }
  split; cbn [h_mem h_freep h_brk].
  - rewrite EL'. apply (ring_make m' pre v [(c.1, c.2 - nunits)] l2 P1 P2). cbn [chain next_of fst snd]. rewrite Hv1, Hv2, Hc1. split_and!; try done.
    rewrite Hcn, next_of_app. by destruct pre.
  - rewrite EL', !fmap_app. cbn. rewrite !elem_of_app, !elem_of_cons. tauto.
  - pose proof (hp_sorted _ _ _ O) as So. rewrite El in So. exact (sorted_resize ((base, 0) :: l1) c _ l2 So).
  - pose proof (hp_pos _ _ _ O) as Hp. rewrite El in Hp. rewrite !Forall_app, Forall_cons in Hp. rewrite !Forall_app, !Forall_cons. cbn [snd]. split_and!; try tauto; lia.
  - apply Forall_cons. split; [|exact A]. cbn [fst snd]. rewrite Em, load32_store32_same. apply u32_small. lia.
  - assert (T : tiles hs ((h_brk s - hs) / 16) ((c.1, c.2 - nunits) :: (a, nunits) :: l1 ++ l2 ++ al)).
    { unfold a. apply tiles_join; [lia|lia|]. replace (c.2 - nunits + nunits) with c.2 by lia. eapply tiles_perm; [|apply (hp_tiles _ _ _ O)].
      rewrite El, <- app_assoc. cbn [app]. replace (c.1, c.2) with c by by destruct c. symmetry. apply Permutation_middle. }
    eapply tiles_perm; [|exact T]. rewrite <- app_assoc. cbn [app]. etrans; [|apply Permutation_middle]. apply Permutation_skip.
    rewrite !app_assoc. apply Permutation_middle.
  - apply O.
  - apply O.
  - exact (split_gap l1 El El1 Ec).
Qed.

Lemma malloc_take_ok : exists a s', malloc_take v.1 c.1 nunits s = Ok (a + 16) s' /\ took s' a.
Proof using All.
  pose proof (hp_ring _ _ _ O) as R. rewrite EL in R. destruct (ring_at (h_mem s) (pre ++ [v]) c l2) as [_ Hcs]; [by rewrite <- app_assoc|].
  destruct (heap_small s l al O c (take_in c ltac:(tauto))) as (C1 & C2 & C3). unfold malloc_take, hdr_size at 1. rewrite bind_gets, Hcs.
  destruct (Z.eqb_spec c.2 nunits) as [E|E].
  - eexists c.1, _. split; [|exact (take_exact _ E eq_refl)]. unfold hdr_ptr. rewrite bind_assoc, bind_gets. unfold set_hdr_ptr. rewrite bind_assoc, bind_modify, bind_ret, bind_modify.
    unfold hdr_add. rewrite u64_small by lia. reflexivity.
  - eexists (c.1 + 16 * (c.2 - nunits)), _. split; [|apply (take_split_block _ ltac:(lia) eq_refl)].
    assert (Hsz : load32 (store32 (h_mem s) (c.1 + 8) (c.2 - nunits)) (c.1 + 8) = c.2 - nunits) by (rewrite load32_store32_same; apply u32_small; lia).
    unfold set_hdr_size at 1. rewrite bind_assoc, bind_modify. rewrite (u32_small (c.2 - nunits)) by lia. unfold hdr_size. rewrite bind_assoc, bind_gets. cbn [h_mem set_h_mem]. rewrite Hsz.
    unfold hdr_add at 1 2. rewrite (u64_small (c.1 + 16 * (c.2 - nunits))) by lia. unfold set_hdr_size. rewrite bind_assoc, bind_modify, bind_ret, bind_modify.
    unfold hdr_add. rewrite u64_small by lia. reflexivity.
Qed.
End Take.

(** ** The loop of [malloc] *)

Lemma first_large nunits (R : list (Z * Z)) :
  Forall (fun b => b.2 < nunits) R \/ exists d c r, R = d ++ c :: r /\ Forall (fun b => b.2 < nunits) d /\ nunits <= c.2.
Proof.
  induction R as [|b R IH]; [left; constructor|]. destruct (decide (b.2 < nunits)) as [H1|H1].
  - destruct IH as [IH|(d & c & r & -> & Hd & Hc)]; [left; by constructor|]. right. exists (b :: d), c, r. split; [done|]. split; [by constructor|done].
  - right. exists [], b, R. split; [done|]. split; [constructor|lia].
Qed.

Section Walk.
Context (sbrk_new : Z -> Z -> option Z) (ffuel : nat) (nunits : Z).
Context (s : hstate) (l al : list (Z * Z)) (O : heap_ok s l al) (A B : list (Z * Z)) (f : Z * Z).
Context (EL : (base, 0) :: l = A ++ f :: B) (Hf : h_freep s = f.1).

(** The ring from behind [freep]. *)
Let R := B ++ A ++ [f].

Lemma walk_ring : ring (h_mem s) R.
Proof using O EL. pose proof (hp_ring _ _ _ O) as H1. rewrite EL in H1. change (f :: B) with ([f] ++ B) in H1. rewrite app_assoc in H1. by apply ring_rotate. Qed.

Lemma walk_perm : R ≡ₚ (base, 0) :: l.
Proof using EL. unfold R. rewrite EL, Permutation_app_comm, <- app_assoc. done. Qed.

Lemma walk_nodup : NoDup R.*1.
Proof using O EL. rewrite walk_perm. by apply (heap_nodup s l al). Qed.

Lemma malloc_walk d : forall R0 c r r' prev fuel, R = R0 ++ d ++ c :: r -> c :: r = r' ++ [f] -> Forall (fun b => b.2 < nunits) d ->
  prev ∈ R.*1 -> load64 (h_mem s) prev = next_of (d ++ [c]) 0 ->
  exists prev', prev' ∈ R.*1 /\ load64 (h_mem s) prev' = c.1 /\
    malloc_loop sbrk_new (length d + fuel) ffuel nunits prev (next_of (d ++ [c]) 0) s = malloc_loop sbrk_new fuel ffuel nunits prev' c.1 s.
Proof using All.
  induction d as [|x d IH]; intros R0 c r r' prev fuel ER Er Hd Hp Hn; [by exists prev|].
  apply Forall_cons in Hd as [Hx Hd]. pose proof walk_ring as Ri. rewrite ER in Ri. cbn [app] in Ri. destruct (ring_at _ _ _ _ Ri) as [Hx1 Hx2].
  assert (Enx : load64 (h_mem s) x.1 = next_of (d ++ [c]) 0) by (rewrite Hx1; by destruct d).
  assert (Hxf : x.1 <> f.1).
  { pose proof walk_nodup as Nd. rewrite ER, Er in Nd. cbn [app] in Nd. rewrite (app_assoc d r' [f]) in Nd. rewrite !fmap_app, fmap_cons, !fmap_app in Nd.
    apply NoDup_app in Nd as (_ & _ & Nd). apply NoDup_cons in Nd as [Nd _]. intros E. apply Nd. rewrite E, !elem_of_app. right. by left. }
  cbn [app next_of length Nat.add malloc_loop]. unfold hdr_size. rewrite bind_gets, Hx2. rewrite (proj2 (Z.leb_gt _ _)) by lia. rewrite bind_gets, Hf.
  rewrite (proj2 (Z.eqb_neq _ _) Hxf). unfold hdr_ptr. rewrite bind_gets, Enx.
  apply (IH (R0 ++ [x]) c r r'); [rewrite ER, <- app_assoc; done|done|done| |exact Enx].
  rewrite ER, !fmap_app, elem_of_app. right. by left.
Qed.

Lemma last_of d c r RR : d ++ c :: r = RR ++ [f] -> exists r', c :: r = r' ++ [f].
Proof using. 
  intros E. destruct (exists_last (l := c :: r)) as (r' & y & Ey); [done|]. rewrite Ey, app_assoc in E. apply app_inj_tail in E as [_ ->]. by exists r'.
Qed.

Lemma walk_first : load64 (h_mem s) f.1 = next_of R 0.
Proof using O EL. pose proof (hp_ring _ _ _ O) as H1. rewrite EL in H1. destruct (ring_at _ _ _ _ H1) as [-> _]. unfold R. destruct B; [by destruct A|done]. Qed.

Lemma walk_f : f.1 ∈ R.*1.
Proof using. unfold R. rewrite !fmap_app, !elem_of_app. right. right. by left. Qed.

(** A large block is found. *)
Lemma malloc_found fuel : 0 < nunits -> (exists c, c ∈ R /\ nunits <= c.2) -> (length R <= fuel)%nat ->
  exists a s', malloc_loop sbrk_new fuel ffuel nunits f.1 (load64 (h_mem s) f.1) s = Ok (a + 16) s' /\ took s al nunits s' a.
Proof using All.
  intros Hn (c0 & Hc0 & Hbig) Hfu. destruct (first_large nunits R) as [Hall|(d & c & r & ER & Hd & Hc)].
  { rewrite Forall_forall in Hall. specialize (Hall c0 Hc0). lia. }
  destruct (last_of d c r (B ++ A)) as (r' & Er); [rewrite <- app_assoc; done|].
  assert (Hlen : (length R = length d + S (length r))%nat) by (rewrite ER, length_app; done).
  destruct (malloc_walk d [] c r r' f.1 (fuel - length d) ER Er Hd walk_f) as (prev & Hprev & Hpn & Run); [rewrite walk_first, ER; by destruct d|].
  replace (length d + (fuel - length d))%nat with fuel in Run by lia.
  assert (Efirst : load64 (h_mem s) f.1 = next_of (d ++ [c]) 0) by (rewrite walk_first, ER; by destruct d). rewrite Efirst, Run.
  assert (Hcl : c ∈ l).
  { assert (Hin : c ∈ (base, 0) :: l) by (rewrite <- walk_perm, ER, elem_of_app, elem_of_cons; tauto). apply elem_of_cons in Hin as [->|Hin]; [cbn in Hc; lia|done]. }
  apply list_elem_of_split in Hcl as (l1 & l2 & El). destruct (exists_last (l := (base, 0) :: l1)) as (pre & v & Ev); [done|].
  assert (EL' : (base, 0) :: l = pre ++ v :: c :: l2) by (rewrite El; change ((base, 0) :: l1 ++ c :: l2) with (((base, 0) :: l1) ++ c :: l2); rewrite Ev, <- app_assoc; done).
  assert (Eprev : prev = v.1).
  { apply (ring_inj (h_mem s) R); [apply walk_ring|apply walk_nodup|done| |].
    - rewrite walk_perm, EL', fmap_app, elem_of_app. right. by left.
    - pose proof (hp_ring _ _ _ O) as H1. rewrite EL' in H1. destruct (ring_at _ _ _ _ H1) as [Hv _]. rewrite Hpn, Hv. done. }
  destruct (fuel - length d)%nat as [|fuel'] eqn:Ef; [lia|]. cbn [malloc_loop].
  assert (Hcs : load32 (h_mem s) (c.1 + 8) = c.2) by (pose proof walk_ring as Ri; rewrite ER in Ri; by destruct (ring_at _ _ _ _ Ri)).
  unfold hdr_size. rewrite bind_gets, Hcs, (proj2 (Z.leb_le _ _) Hc), Eprev. by apply (malloc_take_ok s l al O nunits Hn pre v c l2 EL').
Qed.

(** No block is large enough: the loop comes to [freep]. *)
Lemma malloc_none fuel : Forall (fun b => b.2 < nunits) R -> (length R <= fuel)%nat ->
  malloc_loop sbrk_new fuel ffuel nunits f.1 (load64 (h_mem s) f.1) s =
  (let! p := morecore sbrk_new ffuel nunits in
   if p =? 0 then ret 0 else let! q := hdr_ptr p in malloc_loop sbrk_new (fuel - length R) ffuel nunits p q) s.
Proof using All.
  intros Hall Hfu. unfold R in Hall. rewrite app_assoc in Hall. apply Forall_app in Hall as [Hd Hfs]. apply Forall_cons in Hfs as [Hfs _].
  assert (Hlen : length R = S (length (B ++ A))) by (unfold R; rewrite !length_app; cbn [length]; lia).
  destruct (malloc_walk (B ++ A) [] f [] [] f.1 (fuel - length (B ++ A))) as (prev & _ & _ & Run); [unfold R; by rewrite app_assoc|done|done|apply walk_f| |].
  { rewrite walk_first. unfold R. by rewrite app_assoc. }
  replace (length (B ++ A) + (fuel - length (B ++ A)))%nat with fuel in Run by lia.
  rewrite walk_first. unfold R at 1. rewrite app_assoc, Run. replace (fuel - length (B ++ A))%nat with (S (fuel - length R)) by lia. cbn [malloc_loop].
  assert (Hsz : load32 (h_mem s) (f.1 + 8) = f.2) by (pose proof (hp_ring _ _ _ O) as H1; rewrite EL in H1; by destruct (ring_at _ _ _ _ H1)).
  unfold hdr_size. rewrite bind_gets, Hsz, (proj2 (Z.leb_gt _ _)) by lia. by rewrite bind_gets, Hf, Z.eqb_refl.
Qed.
End Walk.

(** ** [morecore] *)

Lemma heap_grow s l al nu : heap_ok s l al -> 0 < nu -> h_brk s + 16 * nu < 2 ^ 36 ->
  heap_ok (mkH (store32 (h_mem s) (h_brk s + 8) nu) (h_freep s) (h_brk s + 16 * nu)) l ((h_brk s, nu) :: al) /\
  keeps_blocks (h_mem s) (store32 (h_mem s) (h_brk s + 8) nu) al.
Proof.
  intros O Hnu Hb. destruct (hp_brk _ _ _ O) as [Hr Hmod]. destruct (hp_base _ _ _ O) as [Hb0 Hb1]. set (m' := store32 _ _ _).
  assert (Hm : forall x, x < h_brk s -> rd m' x = rd (h_mem s) x) by (intros x Hx; apply rd_store32_other; lia).
  assert (Kp : keeps_blocks (h_mem s) m' al).
  { intros b x Hin Hx. destruct (heap_block s l al O b) as (_ & _ & H1 & _); [apply elem_of_app; by right|]. apply Hm. lia. }
  split; [|done]. split; cbn [h_mem h_freep h_brk].
  - unfold ring. eapply chain_agree; [|apply (hp_ring _ _ _ O)]. intros b x Hin Hx. apply Hm. apply elem_of_cons in Hin as [->|Hin]; [cbn in Hx; lia|].
    destruct (heap_block s l al O b) as (H0 & _ & H1 & _); [apply elem_of_app; by left|]. lia.
  - apply O.
  - apply O.
  - pose proof (hp_pos _ _ _ O) as Hp. rewrite !Forall_app, ?Forall_cons in *. cbn [snd]. tauto.
  - apply Forall_cons. split; [cbn [fst snd]; unfold m'; rewrite load32_store32_same; apply u32_small; lia|].
    pose proof (hp_alloc _ _ _ O) as A. rewrite Forall_forall in A |- *. intros b Hin. rewrite <- (A b Hin). destruct (heap_block s l al O b) as (H0 & _ & H1 & _); [apply elem_of_app; by right|].
    apply load32_agree. intros x Hx. apply Hm. lia.
  - assert (En : (h_brk s + 16 * nu - hs) / 16 = (h_brk s - hs) / 16 + nu) by (replace (h_brk s + 16 * nu - hs) with (h_brk s - hs + nu * 16) by lia; apply Z.div_add; lia).
    pose proof (Z.div_mod (h_brk s - hs) 16 ltac:(lia)) as Hdm. assert (Hn0 : 0 <= (h_brk s - hs) / 16) by (apply Z.div_pos; lia).
    pose proof (tiles_grow hs ((h_brk s - hs) / 16) nu (l ++ al) Hn0 ltac:(lia) (hp_tiles _ _ _ O)) as T. rewrite En.
    eapply tiles_perm; [|replace (hs + 16 * ((h_brk s - hs) / 16)) with (h_brk s) in T by lia; exact T]. apply Permutation_middle.
  - split; [lia|]. replace (h_brk s + 16 * nu - hs) with (h_brk s - hs + nu * 16) by lia. by rewrite Z.mod_add by lia.
  - done.
  - apply O.
Qed.

Section Sbrk.
Context (sbrk_new : Z -> Z -> option Z).
(** [sbrk] with a positive argument moves the end of the heap by that much, or
    not at all; an address space has an end. *)
Context (Hsb : forall brk n b, 0 <= n -> sbrk_new brk n = Some b -> b = brk + n /\ b < 2 ^ 36).

Lemma morecore_ok ffuel nunits s l al : heap_ok s l al -> 0 < nunits < 2 ^ 27 -> (length l < ffuel)%nat ->
  (morecore sbrk_new ffuel nunits s = Ok 0 s /\ sbrk_new (h_brk s) (Z.max 4096 nunits * 16) = None) \/
  exists s' l', morecore sbrk_new ffuel nunits s = Ok (h_freep s') s' /\ heap_ok s' l' al /\ keeps_blocks (h_mem s) (h_mem s') al /\
    (length l' <= S (length l))%nat /\ exists c, c ∈ l' /\ nunits <= c.2.
Proof using Hsb.
  intros O Hn Hf. unfold morecore. replace (if nunits <? 4096 then 4096 else nunits) with (Z.max 4096 nunits) by (destruct (Z.ltb_spec nunits 4096); lia).
  set (nu := Z.max 4096 nunits). assert (Es : s32 (u64 (nu * 16)) = nu * 16) by (unfold nu; rewrite u64_small by lia; apply s32_small; lia). rewrite Es.
  destruct (sbrk_new (h_brk s) (nu * 16)) as [b|] eqn:Eb.
  - right. assert (Hnu : 0 < nu) by (unfold nu; lia). destruct (Hsb (h_brk s) (nu * 16) b ltac:(lia) Eb) as [-> Hb]. destruct (hp_brk _ _ _ O) as [Hr _]. destruct (hp_base _ _ _ O) as [Hb0 Hb1].
    destruct (heap_grow s l al nu O Hnu ltac:(lia)) as [O1 K1]. set (s1 := mkH _ _ _) in O1.
    destruct (ufree_ok ffuel s1 l _ (h_brk s) nu al O1 (reflexivity _) Hf) as (s2 & l2 & E2 & O2 & _ & K2 & Hl2 & c & Hc & Hcn).
    exists s2, l2. split; [|split; [done|]; split; [|split; [done|]; exists c; split; [done|unfold nu in Hcn; lia]]].
    + unfold usbrk, bind at 1. rewrite Eb. rewrite (proj2 (Z.eqb_neq _ _)) by lia. unfold set_hdr_size. rewrite bind_modify.
      unfold hdr_add. rewrite u64_small by lia. rewrite Z.mul_1_r. replace (h_brk s + nu * 16) with (h_brk s + 16 * nu) by lia.
      change (set_h_mem _ _) with s1. by rewrite (bind_ok _ _ _ _ _ E2).
    + intros d x Hd Hx. cbn [h_mem s1] in K2. by rewrite (K2 d x Hd Hx), (K1 d x Hd Hx).
  - left. split; [|done]. unfold usbrk, bind. by rewrite Eb.
Qed.

(** ** The allocator *)

(** Before the first call [freep] is null and there is no heap. *)
Definition heap (s : hstate) (al : list (Z * Z)) : Prop :=
  (exists l, heap_ok s l al) \/ (h_freep s = 0 /\ al = [] /\ h_brk s = hs /\ 0 < base /\ base + 16 <= hs < 2 ^ 36).

(** As many rounds as there can be free blocks. *)
Definition rounds (s : hstate) : nat := Z.to_nat ((h_brk s - hs) / 16).

Lemma units_length b : 0 <= b.2 -> Z.of_nat (length (units b)) = b.2.
Proof. intros Hb. unfold units. rewrite length_fmap, length_seqZ. lia. Qed.

Lemma free_count s l al : heap_ok s l al -> (length l <= rounds s)%nat.
Proof.
  intros O. pose proof (Permutation_length (hp_tiles _ _ _ O)) as E. destruct (hp_brk _ _ _ O) as [Hr _].
  assert (Hn : 0 <= (h_brk s - hs) / 16) by (apply Z.div_pos; lia). pose proof (units_length (hs, (h_brk s - hs) / 16) Hn) as Eu. cbn [snd] in Eu.
  assert (Hle : forall bs, Forall (fun b : Z * Z => 0 < b.2) bs -> (length bs <= length (all_units bs))%nat).
  { induction 1 as [|b bs Hb _ IH]; [done|]. rewrite all_units_cons, length_app. cbn [length]. pose proof (units_length b ltac:(lia)). lia. }
  specialize (Hle _ (hp_pos _ _ _ O)). rewrite length_app in Hle. unfold rounds. lia.
Qed.

Lemma heap_at s l al : heap_ok s l al -> exists A f B, (base, 0) :: l = A ++ f :: B /\ h_freep s = f.1.
Proof.
  intros O. destruct (proj1 (list_elem_of_fmap _ _ _) (hp_freep _ _ _ O)) as (f & Ef & Hf). apply list_elem_of_split in Hf as (A & B & E). by exists A, f, B.
Qed.

Lemma heap_freep s l al : heap_ok s l al -> 0 < h_freep s.
Proof.
  intros O. destruct (hp_base _ _ _ O) as [H0 H1]. destruct (proj1 (list_elem_of_fmap _ _ _) (hp_freep _ _ _ O)) as (f & Ef & Hf). rewrite Ef.
  apply elem_of_cons in Hf as [->|Hf]; [done|]. destruct (heap_block s l al O f) as (_ & H2 & _); [apply elem_of_app; by left|]. lia.
Qed.

Lemma malloc_loop_ok fuel ffuel nunits s l al : heap_ok s l al -> 0 < nunits < 2 ^ 27 -> (length l < ffuel)%nat -> (2 * length l + 3 <= fuel)%nat ->
  (malloc_loop sbrk_new fuel ffuel nunits (h_freep s) (load64 (h_mem s) (h_freep s)) s = Ok 0 s /\ sbrk_new (h_brk s) (Z.max 4096 nunits * 16) = None /\ Forall (fun b => b.2 < nunits) l) \/
  exists a s', malloc_loop sbrk_new fuel ffuel nunits (h_freep s) (load64 (h_mem s) (h_freep s)) s = Ok (a + 16) s' /\
    keeps_blocks (h_mem s) (h_mem s') al /\ (exists l', heap_ok s' l' ((a, nunits) :: al)) /\ ((exists c, c ∈ l /\ nunits <= c.2) -> h_brk s' = h_brk s).
Proof using Hsb.
  intros O Hn Hff Hfu. destruct (heap_at s l al O) as (A & f & B & EL & Ef). rewrite Ef.
  assert (HR : length (B ++ A ++ [f]) = S (length l)) by (pose proof (Permutation_length (walk_perm l A B f EL)) as E; exact E).
  destruct (first_large nunits (B ++ A ++ [f])) as [Hall|(d & c & r & ER & _ & Hc)].
  - assert (Hall' : Forall (fun b => b.2 < nunits) l) by (rewrite (walk_perm l A B f EL) in Hall; by apply Forall_cons in Hall as [_ Hall]).
    pose proof (malloc_none sbrk_new ffuel nunits s l al O A B f EL Ef fuel Hall ltac:(lia)) as Run. rewrite Run.
    destruct (morecore_ok ffuel nunits s l al O Hn Hff) as [[E0 En]|(s1 & l1 & E1 & O1 & K1 & Hl1 & c & Hc & Hcn)].
    { left. split_and!; [|done|done]. by rewrite (bind_ok _ _ _ _ _ E0). }
    right. rewrite (bind_ok _ _ _ _ _ E1). rewrite (proj2 (Z.eqb_neq _ _)) by (pose proof (heap_freep _ _ _ O1); lia). unfold hdr_ptr. rewrite bind_gets.
    destruct (heap_at s1 l1 al O1) as (A1 & f1 & B1 & EL1 & Ef1). rewrite Ef1.
    assert (HR1 : length (B1 ++ A1 ++ [f1]) = S (length l1)) by (pose proof (Permutation_length (walk_perm l1 A1 B1 f1 EL1)) as E; exact E).
    destruct (malloc_found sbrk_new ffuel nunits s1 l1 al O1 A1 B1 f1 EL1 Ef1 (fuel - length (B ++ A ++ [f]))) as (a & s2 & E2 & _ & K2 & O2); [lia| |lia|].
    { exists c. split; [|done]. rewrite (walk_perm l1 A1 B1 f1 EL1). by right. }
    exists a, s2. split; [done|]. split; [intros b x Hb Hx; by rewrite (K2 b x Hb Hx), (K1 b x Hb Hx)|]. split; [done|]. intros (c' & Hc' & Hbig). rewrite Forall_forall in Hall'. specialize (Hall' c' Hc'). lia.
  - right. destruct (malloc_found sbrk_new ffuel nunits s l al O A B f EL Ef fuel) as (a & s2 & E2 & Eb2 & K2 & O2); [lia| |lia|].
    { exists c. split; [|done]. rewrite ER, elem_of_app, elem_of_cons. tauto. }
    by exists a, s2.
Qed.

(** The first call makes the empty ring. *)
Lemma heap_start s : h_brk s = hs -> 0 < base -> base + 16 <= hs < 2 ^ 36 ->
  heap_ok (mkH (store32 (store64 (h_mem s) base base) (base + 8) 0) base (h_brk s)) [] [].
Proof.
  intros Eb Hb Hh. set (m' := store32 _ _ _).
  assert (E1 : load64 m' base = base).
  { unfold m'. rewrite (load64_agree (store64 (h_mem s) base base)) by (intros x Hx; apply rd_store32_other; lia). rewrite load64_store64_same. apply u64_small. lia. }
  split; cbn [h_mem h_freep h_brk]; rewrite ?Eb, ?Z.sub_diag; [|by left|apply SSorted_cons; [exact (SSorted_nil _)|exact (Forall_nil_2 _)]|exact (Forall_nil_2 _)|exact (Forall_nil_2 _)|exact (Permutation_refl _)|split; [lia|exact (eq_refl _)]|lia|intros b c Hc; by apply elem_of_nil in Hc].
  split; [done|]. split; [|done]. cbn [fst snd]. unfold m'. apply load32_store32_same.
Qed.

Lemma malloc_units_ok nbytes : 0 <= nbytes <= 2 ^ 31 - 32 -> malloc_units nbytes = (nbytes + 15) / 16 + 1 /\ 0 < malloc_units nbytes < 2 ^ 27.
Proof.
  intros Hn. unfold malloc_units. replace (nbytes + 16 - 1) with (nbytes + 15) by lia. rewrite u64_small by lia.
  pose proof (Z.div_mod (nbytes + 15) 16 ltac:(lia)). pose proof (Z.mod_pos_bound (nbytes + 15) 16 ltac:(lia)). rewrite u32_small by lia. lia.
Qed.

Lemma malloc_enter fuel ffuel nbytes s l al : heap_ok s l al ->
  malloc base sbrk_new fuel ffuel nbytes s = malloc_loop sbrk_new fuel ffuel (malloc_units nbytes) (h_freep s) (load64 (h_mem s) (h_freep s)) s.
Proof.
  intros O. unfold malloc. rewrite bind_gets, (proj2 (Z.eqb_neq _ _)) by (pose proof (heap_freep _ _ _ O); lia). by rewrite bind_ret.
Qed.

Lemma malloc_first fuel ffuel nbytes s : h_freep s = 0 ->
  malloc base sbrk_new fuel ffuel nbytes s =
  (let s1 := mkH (store32 (store64 (h_mem s) base base) (base + 8) 0) base (h_brk s) in
   malloc_loop sbrk_new fuel ffuel (malloc_units nbytes) (h_freep s1) (load64 (h_mem s1) (h_freep s1)) s1).
Proof.
  intros Hf. unfold malloc. rewrite bind_gets, Hf. cbn [Z.eqb]. unfold set_hdr_ptr, set_hdr_size. by rewrite !bind_assoc, bind_modify, bind_assoc, bind_modify, bind_assoc, bind_modify, bind_ret.
Qed.

Lemma malloc_ok fuel ffuel nbytes s al : heap s al -> 0 <= nbytes <= 2 ^ 31 - 32 -> (rounds s < ffuel)%nat -> (2 * rounds s + 3 <= fuel)%nat ->
  (exists s', malloc base sbrk_new fuel ffuel nbytes s = Ok 0 s' /\ heap s' al /\ keeps_blocks (h_mem s) (h_mem s') al /\
     sbrk_new (h_brk s) (Z.max 4096 (malloc_units nbytes) * 16) = None) \/
  exists a s', malloc base sbrk_new fuel ffuel nbytes s = Ok (a + 16) s' /\ keeps_blocks (h_mem s) (h_mem s') al /\
    exists l', heap_ok s' l' ((a, malloc_units nbytes) :: al).
Proof using Hsb.
  intros [(l & O)|(Hf & -> & Eb & Hb0 & Hb1)] Hn Hff Hfu; destruct (malloc_units_ok nbytes Hn) as [_ Hu].
  - pose proof (free_count s l al O) as Hc. rewrite (malloc_enter _ _ _ _ _ _ O).
    destruct (malloc_loop_ok fuel ffuel _ s l al O Hu ltac:(lia) ltac:(lia)) as [(E & En & _)|(a & s' & E & K & R & _)]; [left|right; by exists a, s'].
    exists s. split; [done|]. split; [by left; exists l|]. split; [|done]. by intros b x.
  - rewrite (malloc_first _ _ _ _ Hf). pose proof (heap_start s Eb Hb0 Hb1) as O. set (s1 := mkH _ _ _) in *. cbv zeta.
    assert (Kn : forall s', keeps_blocks (h_mem s) (h_mem s') []) by (intros s' b x Hb; by apply elem_of_nil in Hb).
    destruct (malloc_loop_ok fuel ffuel _ s1 [] [] O Hu ltac:(cbn; lia) ltac:(cbn; lia)) as [(E & En & _)|(a & s' & E & _ & R & _)]; [left; exists s1|right; by exists a, s'].
    split; [done|]. split; [by left; exists []|]. split; [apply Kn|done].
Qed.
End Sbrk.

(** With nothing in use the free blocks have all joined. *)
Lemma one_block s l : heap_ok s l [] -> hs < h_brk s -> l = [(hs, (h_brk s - hs) / 16)].
Proof.
  intros O Hlt. set (N := (h_brk s - hs) / 16). pose proof (hp_tiles _ _ _ O) as T. rewrite app_nil_r in T. fold N in T. destruct (hp_brk _ _ _ O) as [Hr Hmod].
  pose proof (Z.div_mod (h_brk s - hs) 16 ltac:(lia)) as Hdm. fold N in Hdm. assert (HN : 0 < N) by lia.
  assert (Hin : forall x, x ∈ units (hs, N) -> exists b, b ∈ l /\ x ∈ units b) by (intros x Hx; apply in_all_units; by rewrite T).
  assert (Hb : forall b, b ∈ l -> 0 < b.2 /\ hs <= b.1 /\ b.1 + 16 * b.2 <= h_brk s /\ (b.1 - hs) mod 16 = 0) by (intros b H1; apply (heap_block s l [] O); apply elem_of_app; by left).
  assert (Hap : forall b c, b ∈ l -> c ∈ l -> b <> c -> b.1 + 16 * b.2 <= c.1 \/ c.1 + 16 * c.2 <= b.1) by (intros b c H1 H2; apply (heap_apart s l [] O); apply elem_of_app; by left).
  assert (Hend : forall b, b ∈ l -> b.1 + 16 * b.2 = h_brk s).
  { intros b H1. destruct (Hb b H1) as (B1 & B2 & B3 & B4). destruct (decide (b.1 + 16 * b.2 = h_brk s)) as [E|E]; [done|exfalso].
    pose proof (Z.div_mod (b.1 - hs) 16 ltac:(lia)) as Hdb.
    destruct (Hin (b.1 + 16 * b.2)) as (c & H2 & Hc); [apply in_units; exists ((b.1 - hs) / 16 + b.2); cbn [fst snd]; split; [split; [|lia]|lia]; pose proof (Z.div_pos (b.1 - hs) 16); lia|].
    apply in_units in Hc as (k & Hk & Ek). pose proof (hp_gap _ _ _ O b c H1 H2) as G. destruct (decide (b = c)) as [<-|Ne]; [lia|]. destruct (Hap b c H1 H2 Ne); lia. }
  destruct (Hin hs) as (c & H2 & Hc); [apply in_units; exists 0; cbn [fst snd]; lia|]. apply in_units in Hc as (k & Hk & Ek). destruct (Hb c H2) as (C1 & C2 & C3 & C4).
  assert (Ec : c = (hs, N)) by (pose proof (Hend c H2); destruct c as [c1 c2]; cbn [fst snd] in *; f_equal; lia).
  assert (Hall : forall b, b ∈ l -> b = c) by (intros b H1; destruct (decide (b = c)) as [E|Ne]; [done|]; pose proof (Hend b H1); pose proof (Hend c H2); destruct (Hb b H1); destruct (Hap b c H1 H2 Ne); lia).
  pose proof (heap_nodup s l [] O) as Nd. rewrite fmap_cons in Nd. apply NoDup_cons in Nd as [_ Nd]. destruct l as [|b l]; [by apply elem_of_nil in H2|].
  rewrite (Hall b ltac:(left)), Ec. f_equal. destruct l as [|d l]; [done|]. exfalso. rewrite (Hall b ltac:(left)), (Hall d ltac:(right; left)) in Nd.
  rewrite !fmap_cons in Nd. apply NoDup_cons in Nd as [Nd _]. apply Nd. by left.
Qed.
End Heap.

(** ** The theorems *)


(** [free] of a block in use returns, gives the block back and changes no
    byte of the other blocks in use. *)
Theorem free_spec base hs fuel s al p n al' :
  heap base hs s al -> al ≡ₚ (p - 16, n) :: al' -> (rounds hs s < fuel)%nat ->
  exists s', ufree fuel p s = Ok tt s' /\ heap base hs s' al' /\ h_brk s' = h_brk s /\ keeps_blocks (h_mem s) (h_mem s') al'.
Proof.
  intros [(l & O)|(_ & -> & _)] Ea Hf; [|by apply Permutation_nil_cons in Ea].
  pose proof (free_count base hs s l al O) as Hc. destruct (ufree_ok base hs fuel s l al (p - 16) n al' O Ea ltac:(lia)) as (s' & l' & E & O' & Eb & K & _).
  replace (p - 16 + 16) with p in E by lia. exists s'. split; [done|]. split; [left; by exists l'|]. done.
Qed.

(** Blocks join when they are freed: once everything has been given back,
    any request that fits into the heap is served from it, without [sbrk]. *)
Theorem malloc_after_free base hs sbrk_new fuel ffuel nbytes s :
  (forall brk n b, 0 <= n -> sbrk_new brk n = Some b -> b = brk + n /\ b < 2 ^ 36) ->
  heap base hs s [] -> 0 <= nbytes <= 2 ^ 31 - 32 -> 16 * malloc_units nbytes <= h_brk s - hs ->
  (rounds hs s < ffuel)%nat -> (2 * rounds hs s + 3 <= fuel)%nat ->
  exists p s', malloc base sbrk_new fuel ffuel nbytes s = Ok p s' /\ heap base hs s' [(p - 16, malloc_units nbytes)] /\ h_brk s' = h_brk s.
Proof.
  intros Hsb Hh Hn Hfit Hff Hfu. destruct (malloc_units_ok nbytes Hn) as [_ Hu]. destruct Hh as [(l & O)|(_ & _ & Eb & _)]; [|lia].
  pose proof (free_count base hs s l [] O) as Hc. rewrite (malloc_enter base hs sbrk_new fuel ffuel nbytes s l [] O).
  assert (Hbig : exists c, c ∈ l /\ malloc_units nbytes <= c.2).
  { rewrite (one_block base hs s l O) by lia. exists (hs, (h_brk s - hs) / 16). split; [by left|]. cbn [snd]. apply Z.div_le_lower_bound; lia. }
  destruct (malloc_loop_ok base hs sbrk_new Hsb fuel ffuel _ s l [] O Hu ltac:(lia) ltac:(lia)) as [(_ & _ & Hno)|(a & s' & E & _ & (l' & O') & Eb)].
  - destruct Hbig as (c & Hin & Hle). rewrite Forall_forall in Hno. specialize (Hno c Hin). lia.
  - exists (a + 16), s'. split; [done|]. replace (a + 16 - 16) with a by lia. split; [left; by exists l'|]. by apply Eb.
Qed.

(** ** Examples *)

Definition ex_sbrk (brk n : Z) : option Z := if brk + n <? 2 ^ 20 then Some (brk + n) else None.

Lemma ex_sbrk_ok : forall brk n b, 0 <= n -> ex_sbrk brk n = Some b -> b = brk + n /\ b < 2 ^ 36.
Proof. intros brk n b _. unfold ex_sbrk. destruct (Z.ltb_spec (brk + n) (2 ^ 20)); [intros [= <-]; lia|done]. Qed.

Definition ex_heap0 : hstate := mkH ∅ 0 4096.

Lemma ex_heap0_ok : heap 16 4096 ex_heap0 [].
Proof. right. split; [done|]. split; [done|]. split; [done|]. lia. Qed.

(** A heap with one block of 100 bytes. *)
Lemma ex_heap1_ok : exists p s l, malloc 16 ex_sbrk 3 1 100 ex_heap0 = Ok p s /\ heap_ok 16 4096 s l [(p - 16, 8)] /\ h_brk s = 69632.
Proof.
  destruct (malloc_ok 16 4096 ex_sbrk ex_sbrk_ok 3 1 100 ex_heap0 [] ex_heap0_ok ltac:(lia) ltac:(vm_compute; lia) ltac:(vm_compute; lia)) as [(s' & _ & _ & _ & En)|(a & s' & E & _ & l' & O)]; [by vm_compute in En|].
  exists (a + 16), s', l'. split; [done|]. split; [by replace (a + 16 - 16) with a by lia|]. vm_compute in E. by injection E as _ <-.
Qed.

(** The same heap after the block has been freed. *)
Lemma ex_heap2_ok : exists s, heap 16 4096 s [] /\ h_brk s = 69632.
Proof.
  destruct ex_heap1_ok as (p & s & l & _ & O & Eb). destruct (ufree_ok 16 4096 (S (length l)) s l _ (p - 16) 8 [] O (reflexivity _) ltac:(lia)) as (s' & l' & _ & O' & Eb' & _).
  exists s'. split; [left; by exists l'|]. by rewrite Eb'.
Qed.


Lemma free_spec_witness : exists p s s', malloc 16 ex_sbrk 3 1 100 ex_heap0 = Ok p s /\ ufree (S (rounds 4096 s)) p s = Ok tt s' /\ heap 16 4096 s' [].
Proof.
  destruct ex_heap1_ok as (p & s & l & E & O & _). assert (Hh : heap 16 4096 s [(p - 16, 8)]) by (left; exists l; exact O).
  destruct (free_spec 16 4096 (S (rounds 4096 s)) s [(p - 16, 8)] p 8 [] Hh (reflexivity _) ltac:(lia)) as (s' & E' & Hh' & _).
  exists p, s, s'. split; [exact E|]. split; [exact E'|exact Hh'].
Defined.

Lemma malloc_after_free_witness : exists p s s', h_brk s = 69632 /\ malloc 16 ex_sbrk 8195 4097 60000 s = Ok p s' /\ h_brk s' = 69632.
Proof.
  destruct ex_heap2_ok as (s & Hh & Eb). assert (Er : rounds 4096 s = 4096%nat) by (unfold rounds; rewrite Eb; vm_compute; reflexivity).
  assert (Eu : malloc_units 60000 = 3751) by (vm_compute; reflexivity).
  destruct (malloc_after_free 16 4096 ex_sbrk 8195 4097 60000 s ex_sbrk_ok Hh ltac:(lia) ltac:(lia) ltac:(rewrite Er; apply Nat.ltb_lt; vm_compute; reflexivity) ltac:(rewrite Er; apply Nat.leb_le; vm_compute; reflexivity)) as (p & s' & E & _ & Eb').
  exists p, s, s'. split; [exact Eb|]. split; [exact E|]. rewrite Eb'. exact Eb.
Defined.
