(* ===== verification/UmallocRun.v ===== *)
(** * Programs that use user/umalloc.c

    A program calls [malloc] and [free] in any order and stores into the
    blocks it has.  Every heap it can get to is well formed, so that the next
    call returns. *)

From S2P Require Import Prelude Bytes Umalloc.

Section Runs.
Context (base hs : Z) (sbrk_new : Z -> Z -> option Z).
Context (Hsb : forall brk n b, 0 <= n -> sbrk_new brk n = Some b -> b = brk + n /\ b < 2 ^ 36).

Definition malloc_now (nbytes : Z) : H Z := fun s => malloc base sbrk_new (2 * rounds hs s + 3) (S (rounds hs s)) nbytes s.
Definition free_now (p : Z) : H unit := fun s => ufree (S (rounds hs s)) p s.

(** The states of a program, with the blocks it has. *)
Inductive reach : hstate -> list (Z * Z) -> Prop :=
| r_start s : h_freep s = 0 -> h_brk s = hs -> 0 < base -> base + 16 <= hs < 2 ^ 36 -> reach s []
| r_malloc s al nbytes p s' : reach s al -> 0 <= nbytes <= 2 ^ 31 - 32 -> malloc_now nbytes s = Ok p s' -> p <> 0 -> reach s' ((p - 16, malloc_units nbytes) :: al)
| r_nomem s al nbytes s' : reach s al -> 0 <= nbytes <= 2 ^ 31 - 32 -> malloc_now nbytes s = Ok 0 s' -> reach s' al
| r_free s al p n al' s' : reach s al -> al ≡ₚ (p - 16, n) :: al' -> free_now p s = Ok tt s' -> reach s' al'
| r_store s al b x v : reach s al -> b ∈ al -> b.1 + 16 <= x < b.1 + 16 * b.2 -> reach (set_h_mem (wr (h_mem s) x v) s) al.

(** A store into a block leaves every header as it is. *)
Lemma heap_store s al b x v : heap base hs s al -> b ∈ al -> b.1 + 16 <= x < b.1 + 16 * b.2 -> heap base hs (set_h_mem (wr (h_mem s) x v) s) al.
Proof.
  intros [(l & O)|(_ & -> & _)] Hb Hx; [|by apply elem_of_nil in Hb]. left. exists l. assert (Hbl : b ∈ l ++ al) by (apply elem_of_app; by right).
  destruct (heap_block base hs s l al O b Hbl) as (Bp & Blo & _). destruct (hp_base _ _ _ _ _ O) as [_ Hbase].
  assert (Hhdr : forall c y, c ∈ (base, 0) :: l ++ al -> c.1 <= y < c.1 + 16 -> rd (wr (h_mem s) x v) y = rd (h_mem s) y).
  { intros c y Hc Hy. apply rd_wr_other. apply elem_of_cons in Hc as [->|Hc]; [cbn in Hy; lia|]. destruct (decide (c = b)) as [->|Hne]; [lia|].
    destruct (heap_block base hs s l al O c Hc) as (Cp & _). destruct (heap_apart base hs s l al O c b Hc Hbl Hne); lia. }
  destruct O as [O1 O2 O3 O4 O5 O6 O7 O8 O9]. split; try done.
  - eapply chain_agree; [|exact O1]. intros c y Hc Hy. apply (Hhdr c); [|done]. apply elem_of_cons in Hc as [->|Hc]; [left|]. right. apply elem_of_app. by left.
  - apply Forall_forall. intros c Hc. rewrite Forall_forall in O5. rewrite <- (O5 c Hc). apply load32_agree. intros y Hy. apply (Hhdr c); [right; apply elem_of_app; by right|lia].
Qed.

Lemma reach_heap s al : reach s al -> heap base hs s al.
Proof.
  induction 1 as [s H1 H2 H3 H4|s al nb p s' _ IH Hn E Hp|s al nb s' _ IH Hn E|s al p n al' s' _ IH Ea E|s al b x v _ IH Hb Hx].
  - right. done.
  - destruct (malloc_ok base hs sbrk_new Hsb (2 * rounds hs s + 3) (S (rounds hs s)) nb s al IH Hn ltac:(lia) ltac:(lia)) as [(s2 & E2 & _)|(a & s2 & E2 & _ & l' & O)]; unfold malloc_now in E; rewrite E2 in E; [congruence|].
    injection E as <- <-. replace (a + 16 - 16) with a by lia. left. by exists l'.
  - destruct (malloc_ok base hs sbrk_new Hsb (2 * rounds hs s + 3) (S (rounds hs s)) nb s al IH Hn ltac:(lia) ltac:(lia)) as [(s2 & E2 & Hh & _)|(a & s2 & E2 & _ & l' & O)]; unfold malloc_now in E; rewrite E2 in E; [congruence|].
    exfalso. injection E as E _. assert (Ha : (a, malloc_units nb) ∈ l' ++ (a, malloc_units nb) :: al) by (apply elem_of_app; right; left).
    destruct (heap_block base hs s2 l' _ O _ Ha) as (_ & Hlo & _). cbn in Hlo. destruct (hp_base _ _ _ _ _ O). lia.
  - destruct IH as [(l & O)|(_ & -> & _)]; [|by apply Permutation_nil_cons in Ea]. pose proof (free_count base hs s l al O).
    destruct (ufree_ok base hs (S (rounds hs s)) s l al (p - 16) n al' O Ea ltac:(lia)) as (s2 & l' & E2 & O' & _). replace (p - 16 + 16) with p in E2 by lia.
    unfold free_now in E. rewrite E2 in E. injection E as <-. left. by exists l'.
  - by apply (heap_store s al b).
Qed.

End Runs.

(** ** Witness *)

