(* ===== verification/Sh.v ===== *)
(** * user/sh.c: the parser of the shell

    [parsecmd] reads a line and builds a tree of commands.  The line is in the
    program's memory, and the words of the tree are pointers into it, which
    [nulterminate] ends with NULs.  The structures that [malloc] returns are
    kept in [sh_nodes]: a pointer to one is its number, from 1 on, and 0 is
    the null pointer.  [parseexec] goes on filling in the arguments of a
    command that redirections already point to, so the structures are a
    store and not a value.  [panic] of sh.c ends the process: it is the
    outcome [Panic]. *)

From S2P Require Import Prelude KString Bytes Uart SysFile Ulib.

(** ** Data *)

Definition MAXARGS : Z := 10.

Inductive node : Type :=
  | EXEC (argv eargv : list Z)
  | REDIR (cmd file efile mode fd : Z)
  | PIPE (left right : Z)
  | LIST (left right : Z)
  | BACK (cmd : Z).

(** [sh_s] is the variable that [ps] points to. *)
Record shstate : Type := mkSh {
  sh_mem : mem;
  sh_s : Z;
  sh_nodes : list node;
}.

Definition set_sh_mem x st := mkSh x (sh_s st) (sh_nodes st).
Definition set_sh_s x st := mkSh (sh_mem st) x (sh_nodes st).
Definition set_sh_nodes x st := mkSh (sh_mem st) (sh_s st) x.

Definition SH (A : Type) : Type := M shstate A.

(** [*cmd] *)
Definition node_at (ns : list node) (a : Z) : option node :=
  if a <=? 0 then None else ns !! Z.to_nat (a - 1).

(** ** Tokens *)

Definition whitespace : list Z := [32; 9; 13; 10; 11].
Definition symbols : list Z := str "<|>&;()".

(** [strchr(toks, c)] is not null; a NUL is in no string. *)
Definition chr_in (toks : list Z) (c : Z) : bool := existsb (Z.eqb c) toks.

(** [while(s < es && strchr(whitespace, *s)) s++;] with [k] = [es] - [s] *)
Fixpoint skip_white (k : nat) (m : mem) (s : Z) : Z :=
  match k with
  | O => s
  | S k => if chr_in whitespace (rd m s) then skip_white k m (s + 1) else s
  end.

(** [while(s < es && !strchr(whitespace, *s) && !strchr(symbols, *s)) s++;] *)
Fixpoint skip_word (k : nat) (m : mem) (s : Z) : Z :=
  match k with
  | O => s
  | S k => if negb (chr_in whitespace (rd m s)) && negb (chr_in symbols (rd m s)) then skip_word k m (s + 1) else s
  end.

(** The switch of [gettoken]: the token at [s] and its end. *)
Definition token_at (m : mem) (es s : Z) : Z * Z :=
  let c := rd m s in
  if c =? 0 then (c, s)
  else if chr_in (str "|();&<") c then (c, s + 1)
  else if chr_in (str ">") c then
    if chr_in (str ">") (rd m (s + 1)) then (43, s + 1 + 1) else (c, s + 1)
  else (97, skip_word (Z.to_nat (es - s)) m s).

(** The token, its beginning [q] and its end [eq]. *)
Definition gettoken (es : Z) : SH (Z * Z * Z) :=
  let! m := gets sh_mem in
  let! s := gets sh_s in
  let q := skip_white (Z.to_nat (es - s)) m s in
  let (tok, eq) := token_at m es q in
  modify (set_sh_s (skip_white (Z.to_nat (es - eq)) m eq)) ;;;
  ret (tok, q, eq).

Definition peek (es : Z) (toks : list Z) : SH bool :=
  let! m := gets sh_mem in
  let! s := gets sh_s in
  let s := skip_white (Z.to_nat (es - s)) m s in
  modify (set_sh_s s) ;;;
  ret (negb (rd m s =? 0) && chr_in toks (rd m s)).

(** ** Constructors *)

Section Parser.
(** How many structures there is memory for. *)
Context (room : nat).

(** [malloc] and [memset]: the answer of [malloc] is not looked at, and the
    null pointer is not mapped. *)
Definition new_cmd (n : node) : SH Z :=
  let! ns := gets sh_nodes in
  if (length ns <? room)%nat then
    modify (set_sh_nodes (ns ++ [n])) ;;;
    ret (Z.of_nat (length ns) + 1)
  else fault "memset of a null pointer".

Definition execcmd : SH Z := new_cmd (EXEC (replicate (Z.to_nat MAXARGS) 0) (replicate (Z.to_nat MAXARGS) 0)).
Definition redircmd (subcmd file efile mode fd : Z) : SH Z := new_cmd (REDIR subcmd file efile mode fd).
Definition pipecmd (left right : Z) : SH Z := new_cmd (PIPE left right).
Definition listcmd (left right : Z) : SH Z := new_cmd (LIST left right).
Definition backcmd (subcmd : Z) : SH Z := new_cmd (BACK subcmd).

(** [cmd->argv[i] = q; cmd->eargv[i] = eq;] *)
Definition set_arg (cmd i q eq : Z) : SH unit :=
  let! ns := gets sh_nodes in
  match node_at ns cmd with
  | Some (EXEC argv eargv) =>
      if (0 <=? i) && (i <? MAXARGS) then
        modify (set_sh_nodes (<[Z.to_nat (cmd - 1) := EXEC (<[Z.to_nat i := q]> argv) (<[Z.to_nat i := eq]> eargv)]> ns))
      else fault "argv out of range"
  | _ => fault "not an execcmd"
  end.

(** ** The parser *)

Fixpoint parseredirs (fuel : nat) (cmd es : Z) : SH Z :=
  match fuel with
  | O => nofuel
  | S fuel =>
      let! b := peek es (str "<>") in
      if b then
        let! t := gettoken es in
        let! w := gettoken es in
        let '(tok, _, _) := t in
        let '(tok', q, eq) := w in
        if negb (tok' =? 97) then panic "missing file for redirection"
        else
          let! cmd := (if tok =? 60 then redircmd cmd q eq O_RDONLY 0
                       else if tok =? 62 then redircmd cmd q eq (Z.lor (Z.lor O_WRONLY O_CREATE) O_TRUNC) 1
                       else if tok =? 43 then redircmd cmd q eq (Z.lor O_WRONLY O_CREATE) 1
                       else ret cmd) in
          parseredirs fuel cmd es
      else ret cmd
  end.

(** The loop of [parseexec]. *)
Fixpoint parseargs (fuel : nat) (es cmd ret_ argc : Z) : SH Z :=
  match fuel with
  | O => nofuel
  | S fuel =>
      let! b := peek es (str "|)&;") in
      if b then set_arg cmd argc 0 0 ;;; ret ret_
      else
        let! t := gettoken es in
        let '(tok, q, eq) := t in
        if tok =? 0 then set_arg cmd argc 0 0 ;;; ret ret_
        else if negb (tok =? 97) then panic "syntax"
        else
          set_arg cmd argc q eq ;;;
          if MAXARGS <=? argc + 1 then panic "too many args"
          else
            let! ret_ := parseredirs fuel ret_ es in
            parseargs fuel es cmd ret_ (argc + 1)
  end.

(** [while(peek(ps, es, "&"))] *)
Fixpoint parseback (fuel : nat) (cmd es : Z) : SH Z :=
  match fuel with
  | O => nofuel
  | S fuel =>
      let! b := peek es (str "&") in
      if b then
        gettoken es ;;;
        let! cmd := backcmd cmd in
        parseback fuel cmd es
      else ret cmd
  end.

Fixpoint parseline (fuel : nat) (es : Z) {struct fuel} : SH Z :=
  match fuel with
  | O => nofuel
  | S fuel =>
      let! cmd := parsepipe fuel es in
      let! cmd := parseback fuel cmd es in
      let! b := peek es (str ";") in
      if b then
        gettoken es ;;;
        let! rcmd := parseline fuel es in
        listcmd cmd rcmd
      else ret cmd
  end
with parsepipe (fuel : nat) (es : Z) {struct fuel} : SH Z :=
  match fuel with
  | O => nofuel
  | S fuel =>
      let! cmd := parseexec fuel es in
      let! b := peek es (str "|") in
      if b then
        gettoken es ;;;
        let! rcmd := parsepipe fuel es in
        pipecmd cmd rcmd
      else ret cmd
  end
with parseexec (fuel : nat) (es : Z) {struct fuel} : SH Z :=
  match fuel with
  | O => nofuel
  | S fuel =>
      let! b := peek es (str "(") in
      if b then parseblock fuel es
      else
        let! cmd := execcmd in
        let! ret_ := parseredirs fuel cmd es in
        parseargs fuel es cmd ret_ 0
  end
with parseblock (fuel : nat) (es : Z) {struct fuel} : SH Z :=
  match fuel with
  | O => nofuel
  | S fuel =>
      let! b := peek es (str "(") in
      if negb b then panic "parseblock"
      else
        gettoken es ;;;
        let! cmd := parseline fuel es in
        let! b := peek es (str ")") in
        if negb b then panic "syntax - missing )"
        else
          gettoken es ;;;
          parseredirs fuel cmd es
  end.

(** [*p = 0] *)
Definition put_nul (p : Z) : SH unit := modify (fun st => set_sh_mem (wr (sh_mem st) p 0) st).

(** [for(i=0; ecmd->argv[i]; i++) *ecmd->eargv[i] = 0;] *)
Fixpoint nul_args (args : list (Z * Z)) : SH unit :=
  match args with
  | [] => fault "argv out of range"
  | (q, eq) :: args => if q =? 0 then ret tt else put_nul eq ;;; nul_args args
  end.

Fixpoint nulterminate (fuel : nat) (cmd : Z) : SH unit :=
  match fuel with
  | O => nofuel
  | S fuel =>
      if cmd =? 0 then ret tt
      else
        let! ns := gets sh_nodes in
        match node_at ns cmd with
        | Some (EXEC argv eargv) => nul_args (zip argv eargv)
        | Some (REDIR c _ efile _ _) => nulterminate fuel c ;;; put_nul efile
        | Some (PIPE l r) => nulterminate fuel l ;;; nulterminate fuel r
        | Some (LIST l r) => nulterminate fuel l ;;; nulterminate fuel r
        | Some (BACK c) => nulterminate fuel c
        | None => fault "not a command"
        end
  end.

Definition parsecmd (fuel : nat) (s : Z) : SH Z :=
  let! m := gets sh_mem in
  match ustrlen fuel m s with
  | None => nofuel
  | Some n =>
      let es := s + n in
      modify (set_sh_s s) ;;;
      let! cmd := parseline fuel es in
      peek es [] ;;;
      let! s := gets sh_s in
      if negb (s =? es) then panic "syntax"
      else nulterminate fuel cmd ;;; ret cmd
  end.
End Parser.

(** ** The language *)

(** A word is given by its beginning and its end in memory; [>>] is a [+]. *)
Inductive tok : Type :=
  | TSym (c : Z)
  | TWord (q e : Z).

#[global] Instance tok_eq_dec : EqDecision tok.
Proof. solve_decision. Defined.

(** A line split into tokens, character by character: [w] is the beginning of
    the word that we are in, [p] the address of the rest [l]. *)
Definition flush (w : option Z) (p : Z) : list tok :=
  match w with Some q => [TWord q p] | None => [] end.

Fixpoint lex (w : option Z) (p : Z) (l : list Z) : list tok :=
  match l with
  | [] => flush w p
  | c :: l' =>
      if chr_in whitespace c then flush w p ++ lex None (p + 1) l'
      else if c =? 62 then
        flush w p ++ match l' with
                     | 62 :: l'' => TSym 43 :: lex None (p + 1 + 1) l''
                     | _ => TSym 62 :: lex None (p + 1) l'
                     end
      else if chr_in symbols c then flush w p ++ TSym c :: lex None (p + 1) l'
      else lex (Some (default p w)) (p + 1) l'
  end.

(** The commands. *)
Inductive cmd : Type :=
  | Exec (args : list (Z * Z))
  | Redir (c : cmd) (q e mode fd : Z)
  | Pipe (l r : cmd)
  | List_ (l r : cmd)
  | Back (c : cmd).

(** The mode and the descriptor of a redirection. *)
Definition redir_kind (c : Z) : option (Z * Z) :=
  if c =? 60 then Some (O_RDONLY, 0)
  else if c =? 62 then Some (Z.lor (Z.lor O_WRONLY O_CREATE) O_TRUNC, 1)
  else if c =? 43 then Some (Z.lor O_WRONLY O_CREATE, 1)
  else None.

(** A redirection: a word, the mode and the descriptor. *)
Definition redir : Type := (Z * Z) * (Z * Z).

Definition wrap (c : cmd) (rs : list redir) : cmd :=
  fold_left (fun c (r : redir) => Redir c r.1.1 r.1.2 r.2.1 r.2.2) rs c.

(** Words and redirections in any order. *)
Inductive simple : list tok -> list (Z * Z) -> list redir -> Prop :=
  | simple_nil : simple [] [] []
  | simple_word q e ts ws rs : simple ts ws rs -> simple (TWord q e :: ts) ((q, e) :: ws) rs
  | simple_redir c k q e ts ws rs : redir_kind c = Some k -> simple ts ws rs ->
      simple (TSym c :: TWord q e :: ts) ws ((q, e, k) :: rs).

(** The grammar:
    - a line is a pipeline with any number of [&], alone or followed by [;]
      and a line;
    - a pipeline is a command, alone or followed by [|] and a pipeline;
    - a command is a line in parentheses with redirections, or at most nine
      words with redirections. *)
Inductive g_line : list tok -> cmd -> Prop :=
  | gl_one ts n c : g_pipe ts c -> g_line (ts ++ replicate n (TSym 38)) (Nat.iter n Back c)
  | gl_seq ts n c ts' c' : g_pipe ts c -> g_line ts' c' ->
      g_line (ts ++ replicate n (TSym 38) ++ TSym 59 :: ts') (List_ (Nat.iter n Back c) c')
with g_pipe : list tok -> cmd -> Prop :=
  | gp_one ts c : g_exec ts c -> g_pipe ts c
  | gp_pipe ts c ts' c' : g_exec ts c -> g_pipe ts' c' -> g_pipe (ts ++ TSym 124 :: ts') (Pipe c c')
with g_exec : list tok -> cmd -> Prop :=
  | ge_block ts c ts' rs : g_line ts c -> simple ts' [] rs -> g_exec (TSym 40 :: ts ++ TSym 41 :: ts') (wrap c rs)
  | ge_simple ts ws rs : simple ts ws rs -> Z.of_nat (length ws) < MAXARGS -> g_exec ts (wrap (Exec ws) rs).

Scheme g_line_mut := Minimality for g_line Sort Prop
  with g_pipe_mut := Minimality for g_pipe Sort Prop
  with g_exec_mut := Minimality for g_exec Sort Prop.
Combined Scheme grammar_ind from g_line_mut, g_pipe_mut, g_exec_mut.

(** The store holds the command [c] at [a]. *)
Fixpoint rep (ns : list node) (a : Z) (c : cmd) : Prop :=
  match c with
  | Exec ws => exists argv eargv rest rest', node_at ns a = Some (EXEC argv eargv) /\
      argv = ws.*1 ++ 0 :: rest /\ eargv = ws.*2 ++ 0 :: rest'
  | Redir c q e mode fd => exists b, node_at ns a = Some (REDIR b q e mode fd) /\ rep ns b c
  | Pipe l r => exists b d, node_at ns a = Some (PIPE b d) /\ rep ns b l /\ rep ns d r
  | List_ l r => exists b d, node_at ns a = Some (LIST b d) /\ rep ns b l /\ rep ns d r
  | Back c => exists b, node_at ns a = Some (BACK b) /\ rep ns b c
  end.
