(* ===== verification/ShParse.v ===== *)
(** * The parser of the shell follows its grammar

    [gettoken] and [peek] are related to the tokens of the line, the parser in
    memory to the same recursive descent on a list of tokens, and that to the
    grammar: it is sound and complete.  [nulterminate] ends the words without
    touching others. *)

From S2P Require Import Prelude KString Bytes Uart SysFile Ulib Sh.

(** ** The tokens that [gettoken] delivers *)

Lemma chr_in_spec l c : chr_in l c = true <-> c ∈ l.
Proof. unfold chr_in. rewrite existsb_exists. setoid_rewrite <- list_elem_of_In. split; [intros (x & Hx & E%Z.eqb_eq); by subst|intros H; exists c; split; [done|apply Z.eqb_refl]]. Qed.

Section Lex.
Context (m : mem) (a0 es : Z).
Context (Hnz : forall x, a0 <= x < es -> rd m x <> 0) (Hend : rd m es = 0).

(** The tokens from [s] on. *)
Definition toks (s : Z) : list tok := lex None s (bytes_at m s (Z.to_nat (es - s))).

Lemma bytes_from s : s < es -> bytes_at m s (Z.to_nat (es - s)) = rd m s :: bytes_at m (s + 1) (Z.to_nat (es - (s + 1))).
Proof using. intros Hs. replace (Z.to_nat (es - s)) with (S (Z.to_nat (es - (s + 1)))) by lia. done. Qed.

Lemma toks_end : toks es = [].
Proof using. unfold toks. by replace (Z.to_nat (es - es)) with O by lia. Qed.

Lemma toks_white s : s < es -> chr_in whitespace (rd m s) = true -> toks s = toks (s + 1).
Proof using. intros Hs Hw. unfold toks. rewrite bytes_from by done. cbn [lex]. by rewrite Hw. Qed.

Lemma skip_white_toks k : forall s, k = Z.to_nat (es - s) -> s <= es ->
  let s' := skip_white k m s in s <= s' <= es /\ toks s' = toks s /\ (s' = es \/ chr_in whitespace (rd m s') = false).
Proof using.
  induction k as [|k IH]; intros s Hk Hs; cbn [skip_white].
  - assert (s = es) as -> by lia. split; [lia|]. split; [done|by left].
  - destruct (chr_in whitespace (rd m s)) eqn:Hw.
    + destruct (IH (s + 1)) as (H1 & H2 & H3); [lia|lia|]. split; [lia|]. split; [|done]. rewrite H2. symmetry. apply toks_white; [lia|done].
    + split; [lia|]. split; [done|by right].
Qed.

(** A word ends before a blank or a symbol. *)
Lemma lex_word k : forall q p, k = Z.to_nat (es - p) -> p <= es ->
  let p' := skip_word k m p in p <= p' <= es /\ lex (Some q) p (bytes_at m p k) = TWord q p' :: toks p' /\
    (p' = es \/ chr_in whitespace (rd m p') = true \/ chr_in symbols (rd m p') = true).
Proof using.
  induction k as [|k IH]; intros q p Hk Hp; cbn [skip_word].
  - assert (p = es) as -> by lia. split; [lia|]. rewrite toks_end. split; [done|by left].
  - destruct (negb _ && negb _) eqn:Hw.
    + apply andb_true_iff in Hw as [H1%negb_true_iff H2%negb_true_iff]. destruct (IH q (p + 1)) as (H3 & H4 & H5); [lia|lia|]. split; [lia|]. split; [|exact H5].
      cbn [bytes_at lex]. rewrite H1, H2. assert (rd m p =? 62 = false) as -> by (destruct (Z.eqb_spec (rd m p) 62) as [E|E]; [by rewrite E in H2|done]). exact H4.
    + split; [lia|]. split; [|right; destruct (chr_in whitespace _), (chr_in symbols _); cbn in Hw; (by left) || (by right) || done]. unfold toks. rewrite <- Hk. cbn [bytes_at lex flush app].
      destruct (chr_in whitespace (rd m p)) eqn:H1; [done|]. destruct (rd m p =? 62) eqn:H2; [done|]. destruct (chr_in symbols (rd m p)) eqn:H3; [done|]. by cbn in Hw.
Qed.

Definition token_syms : list Z := [124; 40; 41; 59; 38; 60; 62; 43].

Lemma token_at_toks s : a0 <= s < es -> chr_in whitespace (rd m s) = false ->
  exists t e, token_at m es s = (t, e) /\ s < e <= es /\
    ((t = 97 /\ toks s = TWord s e :: toks e /\ chr_in symbols (rd m s) = false /\
        (e = es \/ chr_in whitespace (rd m e) = true \/ chr_in symbols (rd m e) = true)) \/ (t ∈ token_syms /\ toks s = TSym t :: toks e)).
Proof using Hnz Hend.
  intros Hs Hw. unfold token_at. rewrite (proj2 (Z.eqb_neq _ _) (Hnz s Hs)). unfold toks at 1 3. rewrite bytes_from by lia. cbn [lex]. rewrite Hw. cbn [flush app].
  destruct (chr_in (str "|();&<") (rd m s)) eqn:H1.
  { apply chr_in_spec in H1. cbn in H1. exists (rd m s), (s + 1). split; [done|]. split; [lia|]. right.
    assert (Hin : rd m s ∈ token_syms) by (unfold token_syms; set_solver). split; [done|].
    assert (rd m s =? 62 = false) as -> by (apply Z.eqb_neq; intros E; rewrite E in H1; set_solver).
    assert (chr_in symbols (rd m s) = true) as -> by (apply chr_in_spec; cbn; set_solver). done. }
  destruct (chr_in (str ">") (rd m s)) eqn:H2.
  { apply chr_in_spec, list_elem_of_singleton in H2. change (rd m s = 62) in H2. rewrite H2, Z.eqb_refl. destruct (decide (s + 1 = es)) as [E|E].
    - rewrite E, Hend. cbn [chr_in existsb]. exists 62, es. split; [done|]. split; [lia|]. right. split; [unfold token_syms; set_solver|].
      rewrite toks_end. by replace (Z.to_nat (es - es)) with O by lia.
    - rewrite bytes_from by lia. destruct (chr_in (str ">") (rd m (s + 1))) eqn:H3.
      + apply chr_in_spec, list_elem_of_singleton in H3. change (rd m (s + 1) = 62) in H3. rewrite H3. exists 43, (s + 1 + 1). split; [done|]. split; [lia|]. right.
        split; [unfold token_syms; set_solver|done].
      + exists 62, (s + 1). split; [done|]. split; [lia|]. right. split; [unfold token_syms; set_solver|]. unfold toks. rewrite (bytes_from (s + 1)) by lia.
        assert (Hn : rd m (s + 1) <> 62) by (intros E'; rewrite E' in H3; done). destruct (rd m (s + 1)) as [|p|p]; try done. repeat (destruct p as [p|p|]; try done). }
  assert (H3 : chr_in symbols (rd m s) = false).
  { apply not_true_is_false. intros H3%chr_in_spec. cbn in H3. destruct (decide (rd m s = 62)) as [E|E]; [by rewrite E in H2|].
    assert (chr_in (str "|();&<") (rd m s) = true) as E1 by (apply chr_in_spec; cbn; set_solver). congruence. }
  assert (rd m s =? 62 = false) as -> by (apply Z.eqb_neq; intros E; by rewrite E in H2). rewrite H3.
  destruct (lex_word (Z.to_nat (es - (s + 1))) s (s + 1)) as (H4 & H5 & H6); [done|lia|]. exists 97. eexists. split; [done|].
  replace (Z.to_nat (es - s)) with (S (Z.to_nat (es - (s + 1)))) by lia. cbn [skip_word]. rewrite Hw, H3. cbn [negb andb]. split; [lia|]. left. done.
Qed.

(** The words of the rest of the line begin at [lo] or later, and there is a
    character between any two. *)
Fixpoint spaced (lo : Z) (ts : list tok) : Prop :=
  match ts with
  | [] => True
  | TSym c :: ts => c ∈ token_syms /\ spaced lo ts
  | TWord q e :: ts => lo <= q < e /\ e <= es /\ spaced (e + 1) ts
  end.

Lemma spaced_mono lo lo' ts : lo' <= lo -> spaced lo ts -> spaced lo' ts.
Proof using. intros Hl. induction ts as [|[c|q e] ts IH]; cbn; [done|tauto|]. intros (H1 & H2 & H3). split; [lia|done]. Qed.

Lemma toks_spaced s : a0 <= s <= es -> spaced s (toks s) /\
  (s < es -> chr_in whitespace (rd m s) = true \/ chr_in symbols (rd m s) = true -> spaced (s + 1) (toks s)).
Proof using Hnz Hend.
  remember (Z.to_nat (es - s)) as k eqn:Hk. revert s Hk. induction (lt_wf k) as [k _ IH]. intros s Hk Hs.
  assert (Hnext : forall s', s < s' <= es -> spaced s' (toks s')) by (intros s' Hs'; apply (IH (Z.to_nat (es - s'))); lia).
  destruct (decide (s = es)) as [->|Hne]; [rewrite toks_end; split; [done|lia]|].
  destruct (chr_in whitespace (rd m s)) eqn:Hw.
  { rewrite toks_white by (done || lia). split; [apply (spaced_mono (s + 1)); [lia|]|intros _ _]; apply Hnext; lia. }
  destruct (token_at_toks s ltac:(lia) Hw) as (t & e & _ & He & [(_ & -> & Hsy & Hstop)|(Ht & ->)]).
  - split; [|rewrite Hsy; by intros _ [?|?]]. cbn [spaced]. split; [lia|]. split; [lia|].
    destruct (decide (e = es)) as [->|]; [by rewrite toks_end|]. destruct Hstop as [?|Hstop]; [lia|]. apply (IH (Z.to_nat (es - e))); [lia|lia|lia|lia|done].
  - split; [|intros _ _]; cbn [spaced]; (split; [done|]); apply (spaced_mono e); try lia; apply Hnext; lia.
Qed.

(** ** What the parser knows of the line *)

Definition pos (st : shstate) (ts : list tok) : Prop := sh_mem st = m /\ a0 <= sh_s st <= es /\ toks (sh_s st) = ts.

(** The character that a token begins with, of those that [peek] is asked
    for. *)
Definition first_char (t : tok) : Z := match t with TSym c => if c =? 43 then 62 else c | TWord _ _ => 0 end.

Definition peeked (tk : list Z) (ts : list tok) : bool := match ts with TSym c :: _ => chr_in tk (first_char (TSym c)) | _ => false end.

Lemma peek_ok tk st ts : pos st ts -> Forall (fun c => chr_in symbols c = true) tk ->
  exists st', peek es tk st = Ok (peeked tk ts) st' /\ pos st' ts /\ sh_nodes st' = sh_nodes st.
Proof using Hnz Hend.
  intros (Em & Hs & Et) Htk. unfold peek. rewrite !bind_gets, bind_modify, Em.
  destruct (skip_white_toks (Z.to_nat (es - sh_s st)) (sh_s st) eq_refl ltac:(lia)) as (H1 & H2 & H3). set (s' := skip_white _ _ _) in *.
  exists (set_sh_s s' st). split; [|split; [split; [done|]; split; [cbn; lia|cbn; congruence]|done]]. unfold ret. f_equal.
  rewrite Et in H2. rewrite <- H2. destruct H3 as [->|Hw]; [by rewrite Hend, toks_end|]. destruct (decide (s' = es)) as [->|Hne]; [by rewrite Hend, toks_end|].
  rewrite (proj2 (Z.eqb_neq _ _)) by (apply Hnz; lia). cbn [negb andb]. destruct (token_at_toks s' ltac:(lia) Hw) as (t & e & Eq & He & [(_ & -> & Hsy & _)|(Ht & ->)]).
  - cbn [peeked]. apply not_true_is_false. intros Hin%chr_in_spec. rewrite Forall_forall in Htk. specialize (Htk _ Hin). congruence.
  - cbn [peeked first_char]. f_equal. unfold token_at in Eq. rewrite (proj2 (Z.eqb_neq _ _)) in Eq by (apply Hnz; lia).
    destruct (chr_in (str "|();&<") (rd m s')) eqn:E1; [injection Eq as <- _; apply chr_in_spec in E1; destruct (Z.eqb_spec (rd m s') 43) as [E|E]; [rewrite E in E1; cbn in E1; set_solver|done]|].
    destruct (chr_in (str ">") (rd m s')) eqn:E2; [|injection Eq as <- _; exfalso; unfold token_syms in Ht; set_solver].
    apply chr_in_spec, list_elem_of_singleton in E2. change (rd m s' = 62) in E2. rewrite E2 in *. by destruct (chr_in (str ">") (rd m (s' + 1))); injection Eq as <- _.
Qed.

Lemma gettoken_ok st ts : pos st ts ->
  exists t q e st', gettoken es st = Ok (t, q, e) st' /\ pos st' (tail ts) /\ sh_nodes st' = sh_nodes st /\
    match ts with [] => t = 0 | TSym c :: _ => t = c | TWord q' e' :: _ => t = 97 /\ q = q' /\ e = e' end.
Proof using Hnz Hend.
  intros (Em & Hs & Et). unfold gettoken. rewrite !bind_gets, Em.
  destruct (skip_white_toks (Z.to_nat (es - sh_s st)) (sh_s st) eq_refl ltac:(lia)) as (H1 & H2 & H3). set (s := skip_white _ _ _) in *. rewrite Et in H2.
  assert (Hgo : exists t e, token_at m es s = (t, e) /\ s <= e <= es /\ toks e = tail ts /\ match ts with [] => t = 0 | TSym c :: _ => t = c | TWord q' e' :: _ => t = 97 /\ s = q' /\ e = e' end).
  { rewrite <- H2. destruct (decide (s = es)) as [E|Hne].
    - rewrite E. exists 0, es. unfold token_at. rewrite Hend, toks_end. split; [done|]. split; [lia|]. by split.
    - destruct H3 as [?|Hw]; [done|]. destruct (token_at_toks s ltac:(lia) Hw) as (t & e & Eq & He & [(-> & -> & _)|(Ht & ->)]); eexists; exists e; (split; [exact Eq|]); (split; [lia|]); done. }
  destruct Hgo as (t & e & -> & He & Ht & Hm). rewrite bind_modify. exists t, s, e. eexists. split; [done|]. split; [|done].
  destruct (skip_white_toks (Z.to_nat (es - e)) e eq_refl ltac:(lia)) as (H4 & H5 & _). split; [done|]. cbn [sh_s set_sh_s]. split; [lia|congruence].
Qed.
End Lex.

(** ** The parser on tokens *)

(** The same recursive descent on a list of tokens, without memory: what is
    parsed and what is left, or [None] for an error. *)
Fixpoint p_redirs (ts : list tok) : option (list redir * list tok) :=
  match ts with
  | TSym c :: ts' =>
      match redir_kind c with
      | Some k =>
          match ts' with
          | TWord q e :: ts'' => r ← p_redirs ts''; Some ((q, e, k) :: r.1, r.2)
          | _ => None
          end
      | None => Some ([], ts)
      end
  | _ => Some ([], ts)
  end.

Definition stops (ts : list tok) : bool := match ts with [] => true | _ => peeked (str "|)&;") ts end.

Fixpoint p_args (n : nat) (argc : Z) (ts : list tok) : option (list (Z * Z) * list redir * list tok) :=
  match n, ts with
  | S n, TWord q e :: ts =>
      if MAXARGS <=? argc + 1 then None
      else
        r ← p_redirs ts;
        a ← p_args n (argc + 1) r.2;
        Some ((q, e) :: a.1.1, r.1 ++ a.1.2, a.2)
  | _, _ => if stops ts then Some ([], [], ts) else None
  end.

Fixpoint p_back (ts : list tok) : nat * list tok :=
  match ts with
  | t :: ts' => if decide (t = TSym 38) then let (n, ts'') := p_back ts' in (S n, ts'') else (O, ts)
  | [] => (O, ts)
  end.

(** The next token is the symbol [c]. *)
Definition starts (c : Z) (ts : list tok) : bool := bool_decide (head ts = Some (TSym c)).

Fixpoint p_line (n : nat) (ts : list tok) : option (cmd * list tok) :=
  match n with
  | O => None
  | S n =>
      c ← p_pipe n ts;
      let (k, ts) := p_back c.2 in
      if starts 59 ts then r ← p_line n (tail ts); Some (List_ (Nat.iter k Back c.1) r.1, r.2)
      else Some (Nat.iter k Back c.1, ts)
  end
with p_pipe (n : nat) (ts : list tok) : option (cmd * list tok) :=
  match n with
  | O => None
  | S n =>
      c ← p_exec n ts;
      if starts 124 c.2 then r ← p_pipe n (tail c.2); Some (Pipe c.1 r.1, r.2)
      else Some c
  end
with p_exec (n : nat) (ts : list tok) : option (cmd * list tok) :=
  match n with
  | O => None
  | S n =>
      if starts 40 ts then p_block n ts
      else r ← p_redirs ts; a ← p_args n 0 r.2; Some (wrap (Exec a.1.1) (r.1 ++ a.1.2), a.2)
  end
with p_block (n : nat) (ts : list tok) : option (cmd * list tok) :=
  match n with
  | O => None
  | S n =>
      if starts 40 ts then
        c ← p_line n (tail ts);
        if starts 41 c.2 then r ← p_redirs (tail c.2); Some (wrap c.1 r.1, r.2)
        else None
      else None
  end.

Lemma starts_true c ts : starts c ts = true -> ts = TSym c :: tail ts.
Proof. intros H%bool_decide_eq_true. by destruct ts as [|t ts]; [|injection H as ->]. Qed.

(** *** It follows the grammar *)

Lemma p_redirs_sound ts rs ts2 : p_redirs ts = Some (rs, ts2) -> exists ts1, ts = ts1 ++ ts2 /\ simple ts1 [] rs.
Proof.
  revert ts rs ts2. fix IH 1. intros [|[c|q e] ts] rs ts2 E; cbn in E; [injection E as <- <-; exists []; split; [done|constructor]| |injection E as <- <-; exists []; split; [done|constructor]].
  destruct (redir_kind c) as [k|] eqn:Ek; [|injection E as <- <-; exists []; split; [done|constructor]].
  destruct ts as [|[c'|q e] ts]; [done|done|]. destruct (p_redirs ts) as [[rs' ts']|] eqn:E'; [|done]. injection E as <- <-.
  destruct (IH ts rs' ts' E') as (ts1 & -> & S1). exists (TSym c :: TWord q e :: ts1). split; [done|]. by constructor.
Qed.

Lemma simple_app ts1 ts2 ws1 ws2 rs1 rs2 : simple ts1 ws1 rs1 -> simple ts2 ws2 rs2 -> simple (ts1 ++ ts2) (ws1 ++ ws2) (rs1 ++ rs2).
Proof. induction 1; intros S2; cbn; [done|constructor; auto|econstructor; eauto]. Qed.

Lemma p_args_sound n : forall argc ts ws rs ts2, p_args n argc ts = Some (ws, rs, ts2) -> argc < MAXARGS ->
  exists ts1, ts = ts1 ++ ts2 /\ simple ts1 ws rs /\ argc + Z.of_nat (length ws) < MAXARGS.
Proof.
  assert (Hstop : forall argc ts ws rs ts2, (if stops ts then Some ([], [], ts) else None) = Some (ws, rs, ts2) -> argc < MAXARGS ->
    exists ts1, ts = ts1 ++ ts2 /\ simple ts1 ws rs /\ argc + Z.of_nat (length ws) < MAXARGS).
  { intros argc ts ws rs ts2 E Ha. destruct (stops ts); [|done]. injection E as <- <- <-. exists []. split; [done|]. split; [constructor|cbn; lia]. }
  induction n as [|n IH]; intros argc ts ws rs ts2 E Ha; [by apply Hstop|]. destruct ts as [|[c|q e] ts]; [by apply Hstop|by apply Hstop|]. cbn [p_args] in E.
  destruct (Z.leb_spec MAXARGS (argc + 1)); [done|]. destruct (p_redirs ts) as [[rs1 ts']|] eqn:E1; [|done]. cbn [mbind option_bind fst snd] in E.
  destruct (p_args n (argc + 1) ts') as [[[ws' rs2] ts'']|] eqn:E2; [|done]. cbn in E. injection E as <- <- <-.
  destruct (p_redirs_sound _ _ _ E1) as (u1 & -> & S1). destruct (IH _ _ _ _ _ E2 ltac:(lia)) as (u2 & -> & S2 & Hl). exists (TWord q e :: u1 ++ u2).
  split; [cbn; by rewrite <- app_assoc|]. split; [constructor; by apply (simple_app u1 u2 [] ws')|cbn [length]; lia].
Qed.

Lemma p_back_sound ts k ts2 : p_back ts = (k, ts2) -> ts = replicate k (TSym 38) ++ ts2 /\ starts 38 ts2 = false.
Proof.
  revert k ts2. induction ts as [|t ts IH]; intros k ts2 E; cbn in E; [by injection E as <- <-|]. destruct (decide (t = TSym 38)) as [->|Hne].
  - destruct (p_back ts) as [k' ts'] eqn:E'. injection E as <- <-. destruct (IH k' ts' eq_refl) as [-> H]. done.
  - injection E as <- <-. split; [done|]. apply bool_decide_eq_false. by intros [= ->].
Qed.

Lemma p_sound n : forall ts c ts2,
  (p_line n ts = Some (c, ts2) -> exists ts1, ts = ts1 ++ ts2 /\ g_line ts1 c) /\
  (p_pipe n ts = Some (c, ts2) -> exists ts1, ts = ts1 ++ ts2 /\ g_pipe ts1 c) /\
  (p_exec n ts = Some (c, ts2) -> exists ts1, ts = ts1 ++ ts2 /\ g_exec ts1 c) /\
  (p_block n ts = Some (c, ts2) -> exists ts1, ts = ts1 ++ ts2 /\ g_exec ts1 c).
Proof.
  induction n as [|n IH]; intros ts c ts2; [done|]. split_and!; intros E; cbn in E.
  - destruct (p_pipe n ts) as [[c1 ts1]|] eqn:E1; [|done]. cbn in E. apply IH in E1 as (u1 & -> & G1). destruct (p_back ts1) as [k ts3] eqn:E2. apply p_back_sound in E2 as [-> _].
    destruct (starts 59 ts3) eqn:E3.
    + apply starts_true in E3. destruct (p_line n (tail ts3)) as [[c2 ts4]|] eqn:E4; [|done]. cbn in E. injection E as <- <-. apply IH in E4 as (u2 & E4 & G2). rewrite E4 in E3. rewrite E3.
      exists (u1 ++ replicate k (TSym 38) ++ TSym 59 :: u2). split; [by rewrite <- !app_assoc|]. by constructor.
    + injection E as <- <-. exists (u1 ++ replicate k (TSym 38)). split; [by rewrite <- app_assoc|]. by constructor.
  - destruct (p_exec n ts) as [[c1 ts1]|] eqn:E1; [|done]. cbn in E. apply IH in E1 as (u1 & -> & G1). destruct (starts 124 ts1) eqn:E3.
    + apply starts_true in E3. destruct (p_pipe n (tail ts1)) as [[c2 ts4]|] eqn:E4; [|done]. cbn in E. injection E as <- <-. apply IH in E4 as (u2 & E4 & G2). rewrite E4 in E3. rewrite E3.
      exists (u1 ++ TSym 124 :: u2). split; [by rewrite <- app_assoc|]. by constructor.
    + injection E as <- <-. exists u1. split; [done|]. by constructor.
  - destruct (starts 40 ts); [by apply IH in E|]. destruct (p_redirs ts) as [[rs1 ts1]|] eqn:E1; [|done]. cbn in E. destruct (p_args n 0 ts1) as [[[ws rs2] ts3]|] eqn:E2; [|done]. cbn in E. injection E as <- <-.
    destruct (p_redirs_sound _ _ _ E1) as (u1 & -> & S1). destruct (p_args_sound _ _ _ _ _ _ E2 ltac:(done)) as (u2 & -> & S2 & Hl). exists (u1 ++ u2). split; [by rewrite <- app_assoc|].
    constructor; [by apply (simple_app u1 u2 [] ws)|done].
  - destruct (starts 40 ts) eqn:E0; [|done]. apply starts_true in E0. destruct (p_line n (tail ts)) as [[c1 ts1]|] eqn:E1; [|done]. cbn in E. apply IH in E1 as (u1 & E1 & G1).
    destruct (starts 41 ts1) eqn:E3; [|done]. apply starts_true in E3. destruct (p_redirs (tail ts1)) as [[rs ts3]|] eqn:E4; [|done]. cbn in E. injection E as <- <-.
    destruct (p_redirs_sound _ _ _ E4) as (u2 & E5 & S2). rewrite E5 in E3. rewrite E3 in E1. rewrite E1 in E0. exists (TSym 40 :: u1 ++ TSym 41 :: u2). split; [rewrite E0; cbn; by rewrite <- app_assoc|]. by constructor.
Qed.

(** *** It accepts all of the grammar *)

Definition fol_pipe (ts : list tok) : Prop := stops ts = true /\ starts 124 ts = false.
Definition fol_line (ts : list tok) : Prop := fol_pipe ts /\ starts 38 ts = false /\ starts 59 ts = false.

Lemma stops_cases ts : stops ts = true -> ts = [] \/ exists c ts', ts = TSym c :: ts' /\ (c = 124 \/ c = 41 \/ c = 38 \/ c = 59).
Proof.
  destruct ts as [|[c|q e] ts]; intros H; [by left| |done]. right. exists c, ts. split; [done|]. cbn [stops peeked first_char] in H. destruct (Z.eqb_spec c 43) as [->|]; [done|].
  apply chr_in_spec in H. change (c ∈ [124; 41; 38; 59]) in H. set_solver.
Qed.

Lemma stops_redirs ts : stops ts = true -> p_redirs ts = Some ([], ts).
Proof. intros [->|(c & ts' & -> & H)]%stops_cases; [done|]. cbn. by destruct H as [->|[->|[->| ->]]]. Qed.

Lemma stops_args n argc ts : stops ts = true -> p_args n argc ts = Some ([], [], ts).
Proof. intros H. pose proof (stops_cases ts H) as [->|(c & ts' & -> & _)]; destruct n; [done|done| |]; unfold p_args; by rewrite H. Qed.

Lemma p_redirs_complete ts ws rs ts2 : simple ts ws rs -> ws = [] -> stops ts2 = true -> p_redirs (ts ++ ts2) = Some (rs, ts2).
Proof.
  induction 1 as [|q e ts ws rs S1 IH|c k q e ts ws rs Ek S1 IH]; intros Ew Hs; [by apply stops_redirs|done|]. cbn. rewrite Ek, IH by done. done.
Qed.

Lemma p_simple_complete ts ws rs ts2 : simple ts ws rs -> stops ts2 = true -> forall n argc, argc + Z.of_nat (length ws) < MAXARGS -> (length ts <= n)%nat ->
  exists rs1 rs2 u, p_redirs (ts ++ ts2) = Some (rs1, u) /\ p_args n argc u = Some (ws, rs2, ts2) /\ rs = rs1 ++ rs2.
Proof.
  induction 1 as [|q e ts ws rs S1 IH|c k q e ts ws rs Ek S1 IH]; intros Hs n argc Ha Hn.
  - exists [], [], ts2. split; [by apply stops_redirs|]. split; [by apply stops_args|done].
  - cbn [length] in Ha, Hn. destruct n as [|n]; [lia|]. destruct (IH Hs n (argc + 1) ltac:(lia) ltac:(lia)) as (rs1 & rs2 & u & E1 & E2 & ->).
    exists [], (rs1 ++ rs2), (TWord q e :: ts ++ ts2). split; [done|]. split; [|done]. cbn [p_args]. rewrite (proj2 (Z.leb_gt _ _)) by lia. rewrite E1. cbn [mbind option_bind fst snd]. by rewrite E2.
  - cbn [length] in Hn. destruct (IH Hs n argc Ha ltac:(lia)) as (rs1 & rs2 & u & E1 & E2 & ->). exists ((q, e, k) :: rs1), rs2, u. split; [cbn; by rewrite Ek, E1|]. done.
Qed.

Lemma simple_starts ts ws rs ts2 : simple ts ws rs -> stops ts2 = true -> starts 40 (ts ++ ts2) = false.
Proof.
  intros S1 Hs. apply bool_decide_eq_false. intros E. destruct S1 as [| |c k q e ts ws rs Ek S1]; [|done|].
  - apply stops_cases in Hs as [->|(c & ts' & -> & H)]; [done|]. injection E as ->. lia.
  - injection E as ->. done.
Qed.

Lemma p_back_complete k ts : starts 38 ts = false -> p_back (replicate k (TSym 38) ++ ts) = (k, ts).
Proof.
  intros H. induction k as [|k IH]; cbn.
  - destruct ts as [|t ts]; [done|]. cbn. by rewrite decide_False by (intros ->; done).
  - by rewrite IH.
Qed.

Lemma fol_back k ts : fol_pipe ts -> fol_pipe (replicate k (TSym 38) ++ ts).
Proof. destruct k; [done|]. intros _. by split. Qed.

Lemma p_complete :
  (forall ts c, g_line ts c -> forall n ts2, fol_line ts2 -> (4 * length ts + 4 <= n)%nat -> p_line n (ts ++ ts2) = Some (c, ts2)) /\
  (forall ts c, g_pipe ts c -> forall n ts2, fol_pipe ts2 -> (4 * length ts + 3 <= n)%nat -> p_pipe n (ts ++ ts2) = Some (c, ts2)) /\
  (forall ts c, g_exec ts c -> forall n ts2, stops ts2 = true -> (4 * length ts + 2 <= n)%nat -> p_exec n (ts ++ ts2) = Some (c, ts2)).
Proof.
  apply grammar_ind.
  - intros ts k c _ IH n ts2 (F1 & F2 & F3) Hn. rewrite length_app, length_replicate in Hn. destruct n as [|n]; [lia|]. rewrite <- app_assoc. cbn [p_line].
    rewrite IH by (lia || by apply fol_back). cbn [mbind option_bind fst snd]. rewrite p_back_complete by done. by rewrite F3.
  - intros ts k c ts' c' _ IH1 _ IH2 n ts2 F Hn. rewrite !length_app, length_replicate in Hn. cbn [length] in Hn. destruct n as [|n]; [lia|]. rewrite <- !app_assoc. cbn [p_line app].
    rewrite IH1 by (lia || by apply fol_back). cbn [mbind option_bind fst snd]. rewrite p_back_complete by done. change (starts 59 (TSym 59 :: ts' ++ ts2)) with true. cbn [tail]. by rewrite IH2 by (lia || done).
  - intros ts c _ IH n ts2 [F1 F2] Hn. destruct n as [|n]; [lia|]. cbn [p_pipe]. rewrite IH by (lia || done). cbn [mbind option_bind snd]. by rewrite F2.
  - intros ts c ts' c' _ IH1 _ IH2 n ts2 F Hn. rewrite length_app in Hn. cbn [length] in Hn. destruct n as [|n]; [lia|]. rewrite <- app_assoc. cbn [p_pipe app].
    rewrite IH1 by (lia || done). cbn [mbind option_bind fst snd]. change (starts 124 (TSym 124 :: ts' ++ ts2)) with true. cbn [tail]. by rewrite IH2 by (lia || done).
  - intros ts c ts' rs _ IH S1 n ts2 F Hn. cbn [length] in Hn. rewrite length_app in Hn. cbn [length] in Hn. destruct n as [|[|n]]; [lia|lia|]. cbn [p_exec app]. rewrite <- app_assoc. cbn [app].
    change (starts 40 (TSym 40 :: ts ++ TSym 41 :: ts' ++ ts2)) with true. cbn [p_block]. change (starts 40 (TSym 40 :: ts ++ TSym 41 :: ts' ++ ts2)) with true. cbn [tail].
    rewrite IH by (lia || done). cbn [mbind option_bind fst snd]. change (starts 41 (TSym 41 :: ts' ++ ts2)) with true. cbn [tail]. by rewrite (p_redirs_complete _ _ _ _ S1) by done.
  - intros ts ws rs S1 Hw n ts2 F Hn. destruct n as [|n]; [lia|]. cbn [p_exec]. rewrite (simple_starts _ _ _ _ S1 F).
    destruct (p_simple_complete _ _ _ _ S1 F n 0 ltac:(lia) ltac:(lia)) as (rs1 & rs2 & u & -> & E2 & ->). cbn [mbind option_bind fst snd]. by rewrite E2.
Qed.

(** ** The store of commands *)

Definition ext (ns ns' : list node) : Prop := forall b n, node_at ns b = Some n -> node_at ns' b = Some n.

#[global] Instance ext_preorder : PreOrder ext.
Proof. split; [by intros ns b n|intros x y z H1 H2 b n H; by apply H2, H1]. Qed.

Lemma node_at_range ns b n : node_at ns b = Some n -> 0 < b <= Z.of_nat (length ns).
Proof. unfold node_at. destruct (Z.leb_spec b 0); [done|]. intros Hl%lookup_lt_Some. lia. Qed.

Lemma ext_app ns l : ext ns (ns ++ l).
Proof.
  intros b n H. pose proof (node_at_range _ _ _ H). unfold node_at in *. rewrite (proj2 (Z.leb_gt _ _)) in * by lia. by apply lookup_app_l_Some.
Qed.

Lemma node_at_new ns n : node_at (ns ++ [n]) (Z.of_nat (length ns) + 1) = Some n.
Proof. unfold node_at. rewrite (proj2 (Z.leb_gt _ _)) by lia. replace (Z.to_nat (Z.of_nat (length ns) + 1 - 1)) with (length ns) by lia. by apply list_lookup_middle. Qed.

Lemma rep_ext ns ns' c : ext ns ns' -> forall a, rep ns a c -> rep ns' a c.
Proof.
  intros E. induction c as [ws|c IH q e mode fd|l IHl r IHr|l IHl r IHr|c IH]; intros a; cbn [rep].
  - intros (argv & eargv & rest & rest' & H & R). exists argv, eargv, rest, rest'. split; [by apply E|done].
  - intros (b & H & R). exists b. split; [by apply E|auto].
  - intros (b & d & H & R1 & R2). exists b, d. split; [by apply E|auto].
  - intros (b & d & H & R1 & R2). exists b, d. split; [by apply E|auto].
  - intros (b & H & R). exists b. split; [by apply E|auto].
Qed.

Lemma rep_node ns a c : rep ns a c -> exists n, node_at ns a = Some n.
Proof. destruct c; cbn [rep]; intros H; repeat destruct H as [? H]; eauto. Qed.

(** Redirections [rs] from [a] down to [c], none of them at [x]. *)
Fixpoint chain_of (ns : list node) (x : Z) (rs : list redir) (c a : Z) : Prop :=
  match rs with
  | [] => a = c
  | r :: rs => exists b, node_at ns b = Some (REDIR c r.1.1 r.1.2 r.2.1 r.2.2) /\ b <> x /\ chain_of ns x rs b a
  end.

Lemma chain_of_ext ns ns' x rs : (forall b n, b <> x -> node_at ns b = Some n -> node_at ns' b = Some n) ->
  forall c a, chain_of ns x rs c a -> chain_of ns' x rs c a.
Proof. intros E. induction rs as [|r rs IH]; intros c a; [done|]. intros (b & H & Hx & R). exists b. split; [by apply E|auto]. Qed.

Lemma chain_of_app ns x rs rs' c b a : chain_of ns x rs c b -> chain_of ns x rs' b a -> chain_of ns x (rs ++ rs') c a.
Proof. revert c. induction rs as [|r rs IH]; intros c; [by intros ->|]. intros (d & H & Hx & R) R'. exists d. split; [done|]. split; [done|]. by apply IH. Qed.

Lemma rep_chain ns x rs : forall c a t, rep ns c t -> chain_of ns x rs c a -> rep ns a (wrap t rs).
Proof. induction rs as [|r rs IH]; intros c a t R; [by intros ->|]. intros (b & H & _ & C). cbn [wrap fold_left]. apply (IH b); [by exists c|done]. Qed.

(** An [execcmd] with the arguments [ws] so far. *)
Definition arg_node (ns : list node) (a : Z) (ws : list (Z * Z)) : Prop :=
  exists rest rest', node_at ns a = Some (EXEC (ws.*1 ++ rest) (ws.*2 ++ rest')) /\
    (length ws + length rest = Z.to_nat MAXARGS)%nat /\ (length ws + length rest' = Z.to_nat MAXARGS)%nat.

Lemma set_arg_ok a ws q e st : arg_node (sh_nodes st) a ws -> Z.of_nat (length ws) < MAXARGS ->
  exists ns' rest rest', set_arg a (Z.of_nat (length ws)) q e st = Ok tt (set_sh_nodes ns' st) /\ length ns' = length (sh_nodes st) /\
    node_at ns' a = Some (EXEC (ws.*1 ++ q :: rest) (ws.*2 ++ e :: rest')) /\
    (length ws + S (length rest) = Z.to_nat MAXARGS)%nat /\ (length ws + S (length rest') = Z.to_nat MAXARGS)%nat /\
    forall b, b <> a -> node_at ns' b = node_at (sh_nodes st) b.
Proof.
  intros (rest & rest' & H & Hl & Hl') Hw. unfold MAXARGS in *. destruct rest as [|x rest]; [cbn in Hl; lia|]. destruct rest' as [|x' rest']; [cbn in Hl'; lia|].
  pose proof (node_at_range _ _ _ H) as Hr. unfold set_arg. rewrite bind_gets, H. rewrite (proj2 (Z.leb_le _ _)), (proj2 (Z.ltb_lt _ _)) by (unfold MAXARGS; lia). cbn [andb].
  assert (Hi : forall (l : list Z) y r v, length l = length ws -> <[Z.to_nat (Z.of_nat (length ws)) := v]> (l ++ y :: r) = l ++ v :: r).
  { intros l y r v E. rewrite Nat2Z.id, <- E. rewrite insert_app_r_alt by lia. by rewrite Nat.sub_diag. }
  rewrite !Hi by apply length_fmap. eexists _, rest, rest'. split; [done|]. split; [apply length_insert|]. split; [|split; [done|split; [done|]]].
  - unfold node_at. rewrite (proj2 (Z.leb_gt _ _)) by lia. apply list_lookup_insert_eq. lia.
  - intros b Hb. unfold node_at. destruct (Z.leb_spec b 0); [done|]. apply list_lookup_insert_ne. lia.
Qed.

(** ** The parser in memory does what the one on tokens does *)

Section Refine.
Context (room : nat) (m : mem) (a0 es : Z).
Context (Hnz : forall x, a0 <= x < es -> rd m x <> 0) (Hend : rd m es = 0).

Notation pos := (pos m a0 es).

Lemma pos_nodes st ts ns : pos st ts -> pos (set_sh_nodes ns st) ts.
Proof. done. Qed.

Lemma peek_step tk st ts : pos st ts -> Forall (fun c => chr_in symbols c = true) tk ->
  exists st', (forall B (k : bool -> SH B), (let! b := peek es tk in k b) st = k (peeked tk ts) st') /\ pos st' ts /\ sh_nodes st' = sh_nodes st.
Proof using Hnz Hend. intros P Ht. destruct (peek_ok m a0 es Hnz Hend tk st ts P Ht) as (st' & E & P' & N). exists st'. split; [|done]. intros B k. by rewrite (bind_ok _ _ _ _ _ E). Qed.

Lemma sym_step st c ts : pos st (TSym c :: ts) ->
  exists q e st', (forall B (k : Z * Z * Z -> SH B), (let! t := gettoken es in k t) st = k (c, q, e) st') /\ pos st' ts /\ sh_nodes st' = sh_nodes st.
Proof using Hnz Hend. intros P. destruct (gettoken_ok m a0 es Hnz Hend st _ P) as (t & q & e & st' & E & P' & N & ->). exists q, e, st'. split; [|done]. intros B k. by rewrite (bind_ok _ _ _ _ _ E). Qed.

Lemma new_ok n st : (length (sh_nodes st) < room)%nat ->
  new_cmd room n st = Ok (Z.of_nat (length (sh_nodes st)) + 1) (set_sh_nodes (sh_nodes st ++ [n]) st).
Proof using. intros H. unfold new_cmd. rewrite bind_gets. by rewrite (proj2 (Nat.ltb_lt _ _) H). Qed.

Lemma new_step {B} n st (k : Z -> SH B) : (length (sh_nodes st) < room)%nat ->
  (let! a := new_cmd room n in k a) st = k (Z.of_nat (length (sh_nodes st)) + 1) (set_sh_nodes (sh_nodes st ++ [n]) st).
Proof using. intros H. by rewrite (bind_ok _ _ _ _ _ (new_ok n st H)). Qed.

Lemma bind_panic {S A B} (c : M S A) (k : A -> M S B) st msg : c st = Panic msg -> (let! x := c in k x) st = Panic msg.
Proof using. intros E. unfold bind. by rewrite E. Qed.

Lemma spaced_app lo ts1 ts2 : spaced es lo (ts1 ++ ts2) -> spaced es lo ts2.
Proof using.
  revert lo. induction ts1 as [|[c|q e] ts1 IH]; intros lo; [done|intros [_ H]; by apply IH|]. intros (H1 & H2 & H3). apply (spaced_mono es (e + 1)); [lia|]. by apply IH.
Qed.

Lemma redir_kind_peeked c ts : c ∈ token_syms -> peeked (str "<>") (TSym c :: ts) = match redir_kind c with Some _ => true | None => false end.
Proof using. unfold token_syms. rewrite !elem_of_cons, elem_of_nil. intros H. repeat (destruct H as [->|H]; [done|]). done. Qed.

Lemma redir_new c k st B (f : Z -> SH B) cmd q e : redir_kind c = Some k -> (length (sh_nodes st) < room)%nat ->
  (let! cmd := (if c =? 60 then redircmd room cmd q e O_RDONLY 0
                else if c =? 62 then redircmd room cmd q e (Z.lor (Z.lor O_WRONLY O_CREATE) O_TRUNC) 1
                else if c =? 43 then redircmd room cmd q e (Z.lor O_WRONLY O_CREATE) 1
                else ret cmd) in f cmd) st =
  f (Z.of_nat (length (sh_nodes st)) + 1) (set_sh_nodes (sh_nodes st ++ [REDIR cmd q e k.1 k.2]) st).
Proof using.
  unfold redir_kind, redircmd. intros Ek Hr. destruct (c =? 60); [injection Ek as <-; by apply new_step|]. destruct (c =? 62); [injection Ek as <-; by apply new_step|].
  destruct (c =? 43); [injection Ek as <-; by apply new_step|done].
Qed.

(** The result of a parser that leaves [ts2] of [ts]. *)
Definition fits (st st' : shstate) (ts ts2 : list tok) (extra : nat) : Prop :=
  pos st' ts2 /\ ext (sh_nodes st) (sh_nodes st') /\ (length (sh_nodes st') + 2 * length ts2 <= length (sh_nodes st) + 2 * length ts + extra)%nat.

Lemma parseredirs_ok x lo ts : spaced es lo ts -> forall fuel cmd st, pos st ts -> (length ts < fuel)%nat -> 0 < x <= Z.of_nat (length (sh_nodes st)) ->
  (length (sh_nodes st) + 2 * length ts <= room)%nat ->
  match p_redirs ts with
  | None => exists msg, parseredirs room fuel cmd es st = Panic msg
  | Some (rs, ts2) => exists a st', parseredirs room fuel cmd es st = Ok a st' /\ fits st st' ts ts2 0 /\ chain_of (sh_nodes st') x rs cmd a
  end.
Proof using Hnz Hend.
  revert lo ts. fix IH 2. intros lo ts Sp fuel cmd st P Hf Hx Hroom. destruct fuel as [|fuel]; [lia|]. cbn [parseredirs].
  destruct (peek_step (str "<>") st ts P ltac:(by repeat constructor)) as (st1 & -> & P1 & N1).
  assert (Hdone : exists a st', ret cmd st1 = Ok a st' /\ fits st st' ts ts 0 /\ chain_of (sh_nodes st') x [] cmd a).
  { exists cmd, st1. split; [done|]. split; [split; [done|]; rewrite N1; split; [reflexivity|lia]|done]. }
  destruct ts as [|[c|q e] ts]; [exact Hdone| |exact Hdone]. cbn [p_redirs]. destruct Sp as [Hc Sp]. rewrite redir_kind_peeked by done. destruct (redir_kind c) as [k|] eqn:Ek; [|exact Hdone].
  destruct (sym_step st1 c ts P1) as (q1 & e1 & st2 & -> & P2 & N2).
  destruct (gettoken_ok m a0 es Hnz Hend st2 _ P2) as (t & q & e & st3 & E3 & P3 & N3 & Ht). rewrite (bind_ok _ _ _ _ _ E3). cbv beta iota.
  destruct ts as [|[c'|q' e'] ts].
  - subst t. by eexists.
  - subst t. destruct Sp as [Hc' _]. assert (Hne : c' <> 97) by (intros ->; unfold token_syms in Hc'; set_solver). rewrite (proj2 (Z.eqb_neq _ _) Hne). by eexists.
  - destruct Ht as (-> & -> & ->). cbn [negb Z.eqb Pos.eqb]. cbn [length] in *. rewrite N2, N1 in N3.
    rewrite (redir_new c k st3 _ _ cmd q' e' Ek) by (rewrite N3; lia). set (st4 := set_sh_nodes _ st3). destruct Sp as (_ & _ & Sp).
    assert (L4 : length (sh_nodes st4) = S (length (sh_nodes st))) by (cbn; rewrite length_app, N3; cbn; lia).
    specialize (IH (e' + 1) ts Sp fuel (Z.of_nat (length (sh_nodes st3)) + 1) st4 P3 ltac:(lia) ltac:(lia) ltac:(lia)).
    destruct (p_redirs ts) as [[rs ts2]|]; cbn [mbind option_bind fst snd]; [|exact IH]. destruct IH as (a & st' & E & (P' & Ex & Hl) & C). exists a, st'. split; [exact E|].
    split; [split; [done|]; split; [|cbn [length]; lia]|].
    + rewrite <- N3. etransitivity; [|exact Ex]. apply ext_app.
    + exists (Z.of_nat (length (sh_nodes st3)) + 1). split; [apply Ex, node_at_new|]. split; [rewrite N3; lia|exact C].
Qed.

Lemma parseargs_ok ns0 cmd : cmd = Z.of_nat (length ns0) + 1 -> forall fuel ts lo, spaced es lo ts -> forall ws rs ret_ st,
  pos st ts -> (length ts < fuel)%nat -> (length (sh_nodes st) + 2 * length ts <= room)%nat -> Z.of_nat (length ws) < MAXARGS ->
  ext ns0 (sh_nodes st) -> arg_node (sh_nodes st) cmd ws -> chain_of (sh_nodes st) cmd rs cmd ret_ ->
  match p_args fuel (Z.of_nat (length ws)) ts with
  | None => exists msg, parseargs room fuel es cmd ret_ (Z.of_nat (length ws)) st = Panic msg
  | Some (ws', rs', ts2) => exists a st', parseargs room fuel es cmd ret_ (Z.of_nat (length ws)) st = Ok a st' /\ pos st' ts2 /\ ext ns0 (sh_nodes st') /\
      rep (sh_nodes st') a (wrap (Exec (ws ++ ws')) (rs ++ rs')) /\ (length (sh_nodes st') + 2 * length ts2 <= length (sh_nodes st) + 2 * length ts)%nat
  end.
Proof using Hnz Hend.
  intros Ecmd. induction fuel as [|fuel IH]; intros ts lo Sp ws rs ret_ st P Hf Hroom Hw Ex Ha Hc; [lia|]. cbn [parseargs].
  destruct (peek_step (str "|)&;") st ts P ltac:(by repeat constructor)) as (st1 & -> & P1 & N1).
  assert (Hold : forall ns', (forall b, b <> cmd -> node_at ns' b = node_at (sh_nodes st) b) -> ext ns0 ns').
  { intros ns' H b n Hb. rewrite H; [by apply Ex|]. apply node_at_range in Hb. lia. }
  assert (Hstop : forall st2, pos st2 ts -> sh_nodes st2 = sh_nodes st -> exists a st', (set_arg cmd (Z.of_nat (length ws)) 0 0 ;;; ret ret_) st2 = Ok a st' /\ pos st' ts /\ ext ns0 (sh_nodes st') /\
      rep (sh_nodes st') a (wrap (Exec (ws ++ [])) (rs ++ [])) /\ (length (sh_nodes st') + 2 * length ts <= length (sh_nodes st) + 2 * length ts)%nat).
  { intros st2 P2 N2. rewrite <- N2 in Ha. destruct (set_arg_ok cmd ws 0 0 st2 Ha Hw) as (ns' & r & r' & E & Hl & Hn & _ & _ & Hoth). rewrite N2 in Hl, Hoth. exists ret_, (set_sh_nodes ns' st2).
    split; [by rewrite (bind_ok _ _ _ _ _ E)|]. split; [done|]. split; [by apply Hold|]. cbn [sh_nodes set_sh_nodes]. split; [|lia]. rewrite !app_nil_r.
    apply (rep_chain ns' cmd rs cmd); [eexists _, _, r, r'; split; [exact Hn|done]|]. eapply chain_of_ext; [|exact Hc]. intros b n Hb Hbn. by rewrite Hoth. }
  destruct ts as [|[c|q e] ts].
  - cbn [p_args stops peeked]. destruct (gettoken_ok m a0 es Hnz Hend st1 _ P1) as (t & q & e & st2 & E2 & P2 & N2 & ->). rewrite (bind_ok _ _ _ _ _ E2). cbv beta iota. rewrite Z.eqb_refl. apply Hstop; [done|congruence].
  - cbn [p_args]. unfold stops. destruct (peeked _ _); [by apply Hstop|]. destruct Sp as [Hsy _]. destruct (sym_step st1 c ts P1) as (q1 & e1 & st2 & -> & P2 & N2).
    assert (c <> 0 /\ c <> 97) as [H1 H2] by (unfold token_syms in Hsy; rewrite !elem_of_cons, elem_of_nil in Hsy; lia). cbv beta iota. rewrite (proj2 (Z.eqb_neq _ _) H1), (proj2 (Z.eqb_neq _ _) H2). by eexists.
  - cbn [p_args peeked]. destruct (gettoken_ok m a0 es Hnz Hend st1 _ P1) as (t & q' & e' & st2 & E2 & P2 & N2 & -> & -> & ->). rewrite (bind_ok _ _ _ _ _ E2). cbv beta iota. cbn [Z.eqb Pos.eqb negb].
    rewrite N1 in N2. assert (Ha' : arg_node (sh_nodes st2) cmd ws) by by rewrite N2. destruct (set_arg_ok cmd ws q e st2 Ha' Hw) as (ns' & r & r' & E3 & Hl & Hn & Hr & Hr' & Hoth). rewrite N2 in Hl, Hoth. rewrite (bind_ok _ _ _ _ _ E3).
    destruct (Z.leb_spec MAXARGS (Z.of_nat (length ws) + 1)) as [Hmax|Hmax]; [by eexists|]. set (st3 := set_sh_nodes ns' st2). destruct Sp as (Hq & He & Sp). cbn [length] in Hf, Hroom. cbn [tail] in P2.
    assert (Hc3 : chain_of ns' cmd rs cmd ret_) by (eapply chain_of_ext; [|exact Hc]; intros b n Hb Hbn; by rewrite Hoth).
    pose proof (node_at_range _ _ _ Hn) as Hcr.
    pose proof (parseredirs_ok cmd _ ts Sp fuel ret_ st3 P2 ltac:(lia) Hcr ltac:(cbn [sh_nodes st3 set_sh_nodes]; lia)) as HR.
    destruct (p_redirs ts) as [[rs1 ts1]|] eqn:Ep; cbn [mbind option_bind fst snd]; [|destruct HR as (msg & HR); exists msg; exact (bind_panic _ _ _ _ HR)].
    destruct HR as (a & st4 & E4 & (P4 & Ex4 & Hl4) & C4). rewrite (bind_ok _ _ _ _ _ E4). cbn [sh_nodes st3 set_sh_nodes] in Ex4, Hl4.
    assert (Sp1 : spaced es (e + 1) ts1 /\ (length ts1 <= length ts)%nat) by (destruct (p_redirs_sound _ _ _ Ep) as (u & -> & _); rewrite length_app; split; [by apply spaced_app in Sp|lia]).
    destruct Sp1 as [Sp1 Hle].
    assert (Ha4 : arg_node (sh_nodes st4) cmd (ws ++ [(q, e)])).
    { exists r, r'. rewrite !fmap_app, <- !app_assoc. split; [apply Ex4; exact Hn|]. rewrite length_app. cbn [length]. lia. }
    assert (Hc4 : chain_of (sh_nodes st4) cmd (rs ++ rs1) cmd a) by (eapply chain_of_app; [|exact C4]; eapply chain_of_ext; [|exact Hc3]; intros b n _; apply Ex4).
    assert (Ex4' : ext ns0 (sh_nodes st4)) by (etransitivity; [by apply Hold|exact Ex4]).
    replace (Z.of_nat (length ws) + 1) with (Z.of_nat (length (ws ++ [(q, e)]))) in * by (rewrite length_app; cbn [length]; lia).
    specialize (IH ts1 (e + 1) Sp1 (ws ++ [(q, e)]) (rs ++ rs1) a st4 P4 ltac:(lia) ltac:(lia) Hmax Ex4' Ha4 Hc4).
    destruct (p_args fuel _ ts1) as [[[ws' rs'] ts2]|]; cbn [mbind option_bind fst snd]; [|exact IH]. destruct IH as (a' & st' & E & P' & X & R & L). exists a', st'.
    rewrite <- !app_assoc in R. cbn [app] in R. split; [exact E|]. split; [done|]. split; [done|]. split; [exact R|]. cbn [length]. lia.
Qed.

Lemma peeked_one c ts lo : spaced es lo ts -> c <> 62 -> c <> 43 -> peeked [c] ts = starts c ts.
Proof using.
  intros Sp H1 H2. unfold starts. destruct ts as [|[c'|q e] ts]; cbn [peeked head]; [done| |by rewrite bool_decide_eq_false_2].
  cbn [first_char chr_in existsb]. rewrite orb_false_r. destruct (Z.eqb_spec c' 43) as [->|H3].
  - rewrite (proj2 (Z.eqb_neq _ _)) by congruence. symmetry. apply bool_decide_eq_false. congruence.
  - destruct (Z.eqb_spec c' c) as [->|H4]; symmetry; [by apply bool_decide_eq_true|apply bool_decide_eq_false; congruence].
Qed.

Lemma parseback_ok fuel : forall ts lo, spaced es lo ts -> forall a c st, pos st ts -> (length ts < fuel)%nat -> (length (sh_nodes st) + length ts <= room)%nat ->
  rep (sh_nodes st) a c -> let (k, ts2) := p_back ts in
  exists a' st', parseback room fuel a es st = Ok a' st' /\ fits st st' ts ts2 0 /\ rep (sh_nodes st') a' (Nat.iter k Back c).
Proof using Hnz Hend.
  induction fuel as [|fuel IH]; intros ts lo Sp a c st P Hf Hroom R; [lia|]. cbn [parseback].
  destruct (peek_step (str "&") st ts P ltac:(by repeat constructor)) as (st1 & -> & P1 & N1). change (str "&") with [38]. rewrite (peeked_one 38 ts lo) by done.
  destruct (starts 38 ts) eqn:Es.
  - apply starts_true in Es. destruct ts as [|t ts]; [done|]. injection Es as ->. cbn [p_back]. rewrite decide_True by done. destruct Sp as [_ Sp]. cbn [length] in *.
    destruct (sym_step st1 38 ts P1) as (q1 & e1 & st2 & -> & P2 & N2). rewrite N1 in N2. unfold backcmd. rewrite new_step by (rewrite N2; lia). set (st3 := set_sh_nodes _ st2). rewrite N2.
    assert (L3 : length (sh_nodes st3) = S (length (sh_nodes st))) by (cbn; rewrite length_app, N2; cbn; lia).
    specialize (IH ts lo Sp (Z.of_nat (length (sh_nodes st)) + 1) (Back c) st3 P2 ltac:(lia) ltac:(lia)). destruct (p_back ts) as [k ts2].
    destruct IH as (a' & st' & E & (P' & X & L) & R'); [exists a; rewrite <- N2; split; [apply node_at_new|]; eapply rep_ext; [apply ext_app|by rewrite N2]|].
    exists a', st'. split; [exact E|]. split; [split; [done|]; split; [|cbn [length]; lia]|by rewrite Nat.iter_succ_r].
    etransitivity; [|exact X]. cbn. rewrite N2. apply ext_app.
  - assert (p_back ts = (O, ts)) as ->.
    { destruct ts as [|t ts]; [done|]. cbn. rewrite decide_False; [done|]. intros ->. done. }
    exists a, st1. split; [done|]. rewrite N1. split; [split; [done|]; rewrite N1; split; [reflexivity|lia]|done].
Qed.

Definition parses (o : outcome shstate Z) (st : shstate) (ts : list tok) (p : option (cmd * list tok)) : Prop :=
  match p with
  | None => exists msg, o = Panic msg
  | Some (c, ts2) => exists a st', o = Ok a st' /\ fits st st' ts ts2 1 /\ rep (sh_nodes st') a c
  end.

(** What is left after a parser. *)
Lemma rest_of lo ts ts1 ts2 : ts = ts1 ++ ts2 -> spaced es lo ts -> spaced es lo ts2 /\ (length ts2 <= length ts)%nat.
Proof using. intros -> Sp. split; [by apply spaced_app in Sp|rewrite length_app; lia]. Qed.

(** [left], a symbol and [right]: the common part of [parseline] and
    [parsepipe]. *)
Lemma parse_pair st st1 ts ts3 (a : Z) c (f : cmd -> cmd -> cmd) (nd : Z -> Z -> node) sy (o : SH Z) p :
  (forall ns x y b d, node_at ns x = Some (nd b d) -> rep ns b c -> rep ns d y -> rep ns x (f c y)) ->
  fits st st1 ts (TSym sy :: ts3) 1 -> rep (sh_nodes st1) a c -> (length (sh_nodes st) + 2 * length ts + 1 <= room)%nat ->
  (forall st2, pos st2 ts3 -> sh_nodes st2 = sh_nodes st1 -> parses (o st2) st2 ts3 p) ->
  parses ((gettoken es ;;; let! rcmd := o in new_cmd room (nd a rcmd)) st1) st ts (r ← p; Some (f c r.1, r.2)).
Proof using Hnz Hend.
  intros Hf (P1 & X1 & L1) R1 Hroom Ho. cbn [length] in L1. destruct (sym_step st1 sy ts3 P1) as (q & e & st2 & -> & P2 & N2).
  specialize (Ho st2 P2 N2). destruct p as [[y ts4]|]; cbn [mbind option_bind fst snd]; cycle 1.
  { destruct Ho as (msg & Ho). exists msg. exact (bind_panic _ _ _ _ Ho). }
  destruct Ho as (d & st4 & E4 & (P4 & X4 & L4) & R4). rewrite (bind_ok _ _ _ _ _ E4). rewrite N2 in X4, L4. rewrite new_ok by lia. eexists _, _. split; [done|].
  split; [split; [done|]; split; [etransitivity; [exact X1|]; etransitivity; [exact X4|]; apply ext_app|cbn [sh_nodes set_sh_nodes]; rewrite length_app; cbn [length]; lia]|].
  cbn [sh_nodes set_sh_nodes]. apply (Hf _ _ _ a d); [apply node_at_new|eapply rep_ext; [|exact R1]; etransitivity; [exact X4|apply ext_app]|eapply rep_ext; [apply ext_app|exact R4]].
Qed.

Lemma fits_peek st st1 st2 ts ts2 x : fits st st1 ts ts2 x -> pos st2 ts2 -> sh_nodes st2 = sh_nodes st1 -> fits st st2 ts ts2 x.
Proof using. intros (_ & X & L) P N. split; [done|]. by rewrite N. Qed.

Lemma fits_trans st st1 st2 ts ts1 ts2 x y : fits st st1 ts ts1 x -> fits st1 st2 ts1 ts2 y -> fits st st2 ts ts2 (x + y).
Proof using. intros (_ & X1 & L1) (P & X2 & L2). split; [done|]. split; [by etransitivity|lia]. Qed.

(** The statement for the four functions, with fuel [n]. *)
Definition parse_spec (n : nat) : Prop := forall ts lo st, spaced es lo ts -> pos st ts -> (length (sh_nodes st) + 2 * length ts + 1 <= room)%nat ->
  ((4 * length ts + 4 <= n)%nat -> parses (parseline room n es st) st ts (p_line n ts)) /\
  ((4 * length ts + 3 <= n)%nat -> parses (parsepipe room n es st) st ts (p_pipe n ts)) /\
  ((4 * length ts + 2 <= n)%nat -> parses (parseexec room n es st) st ts (p_exec n ts)) /\
  ((4 * length ts + 1 <= n)%nat -> starts 40 ts = true -> parses (parseblock room n es st) st ts (p_block n ts)).

Lemma parseline_ok n ts lo st : parse_spec n -> spaced es lo ts -> pos st ts -> (length (sh_nodes st) + 2 * length ts + 1 <= room)%nat ->
  (4 * length ts + 4 <= S n)%nat -> parses (parseline room (S n) es st) st ts (p_line (S n) ts).
Proof using Hnz Hend.
  intros IH Sp P Hr Hn. cbn [parseline p_line]. destruct (IH ts lo st Sp P Hr) as (_ & H & _). specialize (H ltac:(lia)).
  destruct (p_pipe n ts) as [[c ts1]|] eqn:Ep; cbn [parses mbind option_bind fst snd] in H |- *; [|destruct H as (msg & H); exists msg; exact (bind_panic _ _ _ _ H)].
  destruct H as (a & st1 & E1 & F1 & R1). rewrite (bind_ok _ _ _ _ _ E1). apply p_sound in Ep as (u & Eu & _). destruct (rest_of lo ts u ts1 Eu Sp) as [Sp1 Hle].
  pose proof F1 as (P1 & X1 & L1). pose proof (parseback_ok n ts1 lo Sp1 a c st1 P1 ltac:(lia) ltac:(lia) R1) as HB. destruct (p_back ts1) as [k ts3] eqn:Eb.
  destruct HB as (a3 & st3 & E3 & F3 & R3). rewrite (bind_ok _ _ _ _ _ E3). apply p_back_sound in Eb as [Eb _]. destruct (rest_of lo ts1 _ ts3 Eb Sp1) as [Sp3 Hle3].
  pose proof (fits_trans _ _ _ _ _ _ _ _ F1 F3) as F. cbn [Nat.add] in F. pose proof F3 as (P3 & _).
  destruct (peek_step (str ";") st3 ts3 P3 ltac:(by repeat constructor)) as (st4 & -> & P4 & N4). change (str ";") with [59]. rewrite (peeked_one 59 ts3 lo) by done.
  pose proof (fits_peek _ _ _ _ _ _ F P4 N4) as F4. rewrite <- N4 in R3. destruct (starts 59 ts3) eqn:Es; [|by exists a3, st4].
  apply starts_true in Es. rewrite Es in F4. destruct ts3 as [|t ts3]; [done|]. cbn [tail length] in *. destruct t as [sy|]; [|done]. destruct Sp3 as [_ Sp3].
  apply (parse_pair st st4 ts ts3 a3 (Nat.iter k Back c) List_ LIST 59); [intros ns x y b d H1 H2 H3; by exists b, d|done|done|done|].
  intros st5 P5 N5. apply (IH ts3 lo st5 Sp3 P5); [|lia]. rewrite N5. destruct F4 as (_ & _ & L4). cbn [length] in L4. lia.
Qed.

Lemma parsepipe_ok n ts lo st : parse_spec n -> spaced es lo ts -> pos st ts -> (length (sh_nodes st) + 2 * length ts + 1 <= room)%nat ->
  (4 * length ts + 3 <= S n)%nat -> parses (parsepipe room (S n) es st) st ts (p_pipe (S n) ts).
Proof using Hnz Hend.
  intros IH Sp P Hr Hn. cbn [parsepipe p_pipe]. destruct (IH ts lo st Sp P Hr) as (_ & _ & H & _). specialize (H ltac:(lia)).
  destruct (p_exec n ts) as [[c ts1]|] eqn:Ep; cbn [parses mbind option_bind fst snd] in H |- *; [|destruct H as (msg & H); exists msg; exact (bind_panic _ _ _ _ H)].
  destruct H as (a & st1 & E1 & F1 & R1). rewrite (bind_ok _ _ _ _ _ E1). apply p_sound in Ep as (u & Eu & _). destruct (rest_of lo ts u ts1 Eu Sp) as [Sp1 Hle].
  pose proof F1 as (P1 & X1 & L1). destruct (peek_step (str "|") st1 ts1 P1 ltac:(by repeat constructor)) as (st4 & -> & P4 & N4). change (str "|") with [124]. rewrite (peeked_one 124 ts1 lo) by done.
  pose proof (fits_peek _ _ _ _ _ _ F1 P4 N4) as F4. rewrite <- N4 in R1. destruct (starts 124 ts1) eqn:Es; [|by exists a, st4].
  apply starts_true in Es. rewrite Es in F4. destruct ts1 as [|t ts1]; [done|]. cbn [tail length] in *. destruct t as [sy|]; [|done]. destruct Sp1 as [_ Sp1].
  apply (parse_pair st st4 ts ts1 a c Pipe PIPE 124); [intros ns x y b d H1 H2 H3; by exists b, d|done|done|done|].
  intros st5 P5 N5. apply (IH ts1 lo st5 Sp1 P5); [|lia]. rewrite N5. destruct F4 as (_ & _ & L4). cbn [length] in L4. lia.
Qed.

Lemma parseexec_ok n ts lo st : parse_spec n -> spaced es lo ts -> pos st ts -> (length (sh_nodes st) + 2 * length ts + 1 <= room)%nat ->
  (4 * length ts + 2 <= S n)%nat -> parses (parseexec room (S n) es st) st ts (p_exec (S n) ts).
Proof using Hnz Hend.
  intros IH Sp P Hr Hn. cbn [parseexec p_exec]. destruct (peek_step (str "(") st ts P ltac:(by repeat constructor)) as (st1 & -> & P1 & N1).
  change (str "(") with [40]. rewrite (peeked_one 40 ts lo) by done. destruct (starts 40 ts) eqn:Es.
  { destruct (IH ts lo st1 Sp P1 ltac:(by rewrite N1)) as (_ & _ & _ & H). specialize (H ltac:(lia) Es). unfold parses, fits in *. by rewrite N1 in H. }
  unfold execcmd. rewrite new_step by (rewrite N1; lia). rewrite N1. set (cmd := Z.of_nat (length (sh_nodes st)) + 1). set (st2 := set_sh_nodes _ st1).
  assert (L2 : length (sh_nodes st2) = S (length (sh_nodes st))) by (cbn; rewrite length_app; cbn; lia).
  pose proof (parseredirs_ok cmd lo ts Sp n cmd st2 P1 ltac:(lia) ltac:(unfold cmd; lia) ltac:(lia)) as HR.
  destruct (p_redirs ts) as [[rs ts1]|] eqn:Ep; cbn [parses mbind option_bind fst snd]; [|destruct HR as (msg & HR); exists msg; exact (bind_panic _ _ _ _ HR)].
  destruct HR as (a & st3 & E3 & (P3 & X3 & L3) & C3). rewrite (bind_ok _ _ _ _ _ E3). apply p_redirs_sound in Ep as (u & Eu & _). destruct (rest_of lo ts u ts1 Eu Sp) as [Sp1 Hle].
  assert (X2 : ext (sh_nodes st) (sh_nodes st3)) by (etransitivity; [|exact X3]; apply ext_app).
  assert (A3 : arg_node (sh_nodes st3) cmd []) by (eexists _, _; split; [apply X3, node_at_new|done]).
  pose proof (parseargs_ok (sh_nodes st) cmd eq_refl n ts1 lo Sp1 [] rs a st3 P3 ltac:(lia) ltac:(lia) ltac:(done) X2 A3 C3) as HA. change (Z.of_nat (length [])) with 0 in HA.
  destruct (p_args n 0 ts1) as [[[ws rs2] ts2]|]; cbn [mbind option_bind fst snd]; [|exact HA]. destruct HA as (a' & st4 & E4 & P4 & X4 & R4 & L4). exists a', st4. split; [exact E4|].
  split; [|exact R4]. split; [done|]. split; [done|lia].
Qed.

Lemma parseblock_ok n ts lo st : parse_spec n -> spaced es lo ts -> pos st ts -> (length (sh_nodes st) + 2 * length ts + 1 <= room)%nat ->
  (4 * length ts + 1 <= S n)%nat -> starts 40 ts = true -> parses (parseblock room (S n) es st) st ts (p_block (S n) ts).
Proof using Hnz Hend.
  intros IH Sp P Hr Hn Es. cbn [parseblock p_block]. destruct (peek_step (str "(") st ts P ltac:(by repeat constructor)) as (st1 & -> & P1 & N1).
  change (str "(") with [40]. rewrite (peeked_one 40 ts lo) by done. rewrite Es. cbn [negb]. apply starts_true in Es. destruct ts as [|t ts]; [done|]. cbn [tail length] in *.
  injection Es as ->. destruct Sp as [_ Sp]. destruct (sym_step st1 40 ts P1) as (q & e & st2 & -> & P2 & N2). rewrite N1 in N2.
  destruct (IH ts lo st2 Sp P2 ltac:(rewrite N2; lia)) as (H & _). specialize (H ltac:(lia)).
  destruct (p_line n ts) as [[c ts1]|] eqn:Ep; cbn [parses mbind option_bind fst snd] in H |- *; [|destruct H as (msg & H); exists msg; exact (bind_panic _ _ _ _ H)].
  destruct H as (a & st3 & E3 & (P3 & X3 & L3) & R3). rewrite (bind_ok _ _ _ _ _ E3). apply p_sound in Ep as (u & Eu & _). destruct (rest_of lo ts u ts1 Eu Sp) as [Sp1 Hle].
  destruct (peek_step (str ")") st3 ts1 P3 ltac:(by repeat constructor)) as (st4 & -> & P4 & N4). change (str ")") with [41]. rewrite (peeked_one 41 ts1 lo) by done.
  destruct (starts 41 ts1) eqn:Es; cbn [negb]; [|by eexists]. apply starts_true in Es. destruct ts1 as [|t ts1]; [done|]. cbn [tail length] in *. injection Es as ->. destruct Sp1 as [_ Sp1].
  destruct (sym_step st4 41 ts1 P4) as (q' & e' & st5 & -> & P5 & N5). rewrite N4 in N5. rewrite N2 in X3, L3.
  assert (H1 : (0 < length (sh_nodes st3))%nat).
  { destruct (rep_node _ _ _ R3) as (nd & Hnd). apply node_at_range in Hnd. lia. }
  pose proof (parseredirs_ok 1 lo ts1 Sp1 n a st5 P5 ltac:(lia) ltac:(rewrite N5; lia) ltac:(rewrite N5; lia)) as HR.
  destruct (p_redirs ts1) as [[rs ts2]|]; cbn [mbind option_bind fst snd]; [|exact HR]. destruct HR as (a' & st6 & E6 & (P6 & X6 & L6) & C6). exists a', st6. rewrite N5 in X6, L6. split; [exact E6|].
  split; [split; [done|]; split; [by etransitivity|cbn [length]; lia]|]. eapply rep_chain; [|exact C6]. by eapply rep_ext.
Qed.

Lemma parse_ok n : parse_spec n.
Proof using Hnz Hend.
  induction n as [|n IH]; intros ts lo st Sp P Hr; [split_and!; lia|].
  split_and!; intros; [by apply (parseline_ok n ts lo)|by apply (parsepipe_ok n ts lo)|by apply (parseexec_ok n ts lo)|by apply (parseblock_ok n ts lo)].
Qed.
End Refine.

(** ** [nulterminate] *)

(** The words of a command, in the order in which they are ended. *)
Fixpoint words (c : cmd) : list (Z * Z) :=
  match c with
  | Exec ws => ws
  | Redir c q e _ _ => words c ++ [(q, e)]
  | Pipe l r | List_ l r => words l ++ words r
  | Back c => words c
  end.

Fixpoint height (c : cmd) : nat :=
  match c with
  | Exec _ => 1
  | Redir c _ _ _ _ | Back c => S (height c)
  | Pipe l r | List_ l r => S (Nat.max (height l) (height r))
  end.

Definition nuls (ps : list Z) (m : mem) : mem := foldl (fun m p => wr m p 0) m ps.

Lemma rd_nuls ps : forall m x, rd (nuls ps m) x = if decide (x ∈ ps) then 0 else rd m x.
Proof.
  induction ps as [|p ps IH]; intros m x; cbn; [done|]. unfold nuls in IH. rewrite IH, rd_wr. change (u8 0) with 0.
  destruct (decide (x ∈ ps)) as [H|H]; destruct (decide (p = x)) as [->|Hp]; destruct (decide (x ∈ _ :: _)) as [H'|H']; try done; exfalso; set_solver.
Qed.

Lemma nul_args_ok ws rest rest' st : Forall (fun w => w.1 <> 0) ws ->
  nul_args (zip (ws.*1 ++ 0 :: rest) (ws.*2 ++ 0 :: rest')) st = Ok tt (set_sh_mem (nuls ws.*2 (sh_mem st)) st).
Proof.
  intros H. revert st. induction H as [|[q e] ws Hq H IH]; intros st; [by destruct st|]. cbn [fmap list_fmap fst snd app zip zip_with nul_args] in *.
  rewrite (proj2 (Z.eqb_neq _ _) Hq). unfold put_nul. rewrite bind_modify. etransitivity; [apply IH|]. done.
Qed.

Lemma nulterminate_ok c : forall a fuel st, rep (sh_nodes st) a c -> (height c <= fuel)%nat -> Forall (fun w => w.1 <> 0) (words c) ->
  nulterminate fuel a st = Ok tt (set_sh_mem (nuls (words c).*2 (sh_mem st)) st).
Proof.
  assert (Hseq : forall (ws1 ws2 : list (Z * Z)) (o1 o2 : SH unit) st, o1 st = Ok tt (set_sh_mem (nuls ws1.*2 (sh_mem st)) st) ->
    (forall st', sh_nodes st' = sh_nodes st -> o2 st' = Ok tt (set_sh_mem (nuls ws2.*2 (sh_mem st')) st')) ->
    (o1 ;;; o2) st = Ok tt (set_sh_mem (nuls (ws1 ++ ws2).*2 (sh_mem st)) st)).
  { intros ws1 ws2 o1 o2 st E1 E2. rewrite (bind_ok _ _ _ _ _ E1). rewrite E2 by done. rewrite fmap_app. unfold nuls. by rewrite foldl_app. }
  assert (Hnz : forall st a n, node_at (sh_nodes st) a = Some n -> (a =? 0) = false) by (intros st a n H; apply node_at_range in H; apply Z.eqb_neq; lia).
  induction c as [ws|c IH q e mode fd|l IHl r IHr|l IHl r IHr|c IH]; intros a fuel st R Hf W; cbn [rep height words] in *; destruct fuel as [|fuel]; try lia; cbn [nulterminate].
  - destruct R as (argv & eargv & r1 & r2 & H & -> & ->). rewrite (Hnz _ _ _ H), bind_gets, H. by apply nul_args_ok.
  - destruct R as (b & H & R). rewrite (Hnz _ _ _ H), bind_gets, H. apply Forall_app in W as [W1 _]. apply (Hseq (words c) [(q, e)]); [apply IH; [done|lia|done]|done].
  - destruct R as (b & d & H & R1 & R2). rewrite (Hnz _ _ _ H), bind_gets, H. apply Forall_app in W as [W1 W2]. apply (Hseq (words l) (words r)); [apply IHl; [done|lia|done]|].
    intros st' N. apply IHr; [by rewrite N|lia|done].
  - destruct R as (b & d & H & R1 & R2). rewrite (Hnz _ _ _ H), bind_gets, H. apply Forall_app in W as [W1 W2]. apply (Hseq (words l) (words r)); [apply IHl; [done|lia|done]|].
    intros st' N. apply IHr; [by rewrite N|lia|done].
  - destruct R as (b & H & R). rewrite (Hnz _ _ _ H), bind_gets, H. apply IH; [done|lia|done].
Qed.

(** *** The words and the height of what is parsed *)

Lemma words_wrap c rs : words (wrap c rs) = words c ++ rs.*1.
Proof. unfold wrap. revert c. induction rs as [|[[q e] k] rs IH]; intros c; cbn; [by rewrite app_nil_r|]. rewrite IH. cbn. by rewrite <- app_assoc. Qed.

Lemma height_wrap c rs : height (wrap c rs) = (height c + length rs)%nat.
Proof. unfold wrap. revert c. induction rs as [|r rs IH]; intros c; cbn; [lia|]. rewrite IH. cbn. lia. Qed.

Lemma words_back k c : words (Nat.iter k Back c) = words c.
Proof. induction k; cbn; auto. Qed.

Lemma height_back k c : height (Nat.iter k Back c) = (k + height c)%nat.
Proof. induction k; cbn; auto. Qed.

Lemma simple_words ts ws rs : simple ts ws rs -> (forall w, w ∈ ws \/ w ∈ rs.*1 -> TWord w.1 w.2 ∈ ts) /\ (length ws + 2 * length rs <= length ts)%nat.
Proof.
  induction 1 as [|q e ts ws rs S1 [IH L]|c k q e ts ws rs Ek S1 [IH L]]; cbn [length].
  - split; [intros w [H|H]; by apply elem_of_nil in H|lia].
  - split; [|lia]. intros w [[->|H]%elem_of_cons|H]; [by left|right; apply IH; by left|right; apply IH; by right].
  - split; [|lia]. intros w [H|[->|H]%elem_of_cons]; [right; right; apply IH; by left|right; by left|right; right; apply IH; by right].
Qed.

Definition within (ts : list tok) (c : cmd) : Prop := (forall w, w ∈ words c -> TWord w.1 w.2 ∈ ts) /\ (height c <= length ts + 1)%nat.

Lemma grammar_within : (forall ts c, g_line ts c -> within ts c) /\ (forall ts c, g_pipe ts c -> within ts c) /\ (forall ts c, g_exec ts c -> within ts c).
Proof.
  apply grammar_ind; unfold within.
  - intros ts k c _ [W H]. rewrite words_back, height_back, length_app, length_replicate. split; [|lia]. intros w Hw. apply elem_of_app. left. by apply W.
  - intros ts k c ts' c' _ [W1 H1] _ [W2 H2]. cbn [words height]. rewrite words_back, height_back, !length_app, length_replicate. cbn [length]. split; [|lia].
    intros w [Hw|Hw]%elem_of_app; rewrite !elem_of_app, elem_of_cons; [left; by apply W1|right; right; right; by apply W2].
  - done.
  - intros ts c ts' c' _ [W1 H1] _ [W2 H2]. cbn [words height]. rewrite !length_app. cbn [length]. split; [|lia].
    intros w [Hw|Hw]%elem_of_app; rewrite !elem_of_app, elem_of_cons; [left; by apply W1|right; right; by apply W2].
  - intros ts c ts' rs _ [W1 H1] S1. destruct (simple_words _ _ _ S1) as [W2 H2]. rewrite words_wrap, height_wrap. cbn [length]. rewrite length_app. cbn [length] in H2 |- *. split; [|lia].
    intros w [Hw|Hw]%elem_of_app; rewrite elem_of_cons, elem_of_app, elem_of_cons; right; [left; by apply W1|right; right; apply W2; by right].
  - intros ts ws rs S1 _. destruct (simple_words _ _ _ S1) as [W2 H2]. rewrite words_wrap, height_wrap. cbn [height words]. split; [|lia]. intros w Hw%elem_of_app. by apply W2.
Qed.

Lemma spaced_words es lo ts : spaced es lo ts -> forall q e, TWord q e ∈ ts -> lo <= q < e /\ e <= es /\ forall q' e', TWord q' e' ∈ ts -> ~ q <= e' < e.
Proof.
  revert lo. induction ts as [|[c|q0 e0] ts IH]; intros lo Sp q e Hin; [by apply elem_of_nil in Hin| |].
  - destruct Sp as [_ Sp]. apply elem_of_cons in Hin as [?|Hin]; [done|]. destruct (IH lo Sp q e Hin) as (H1 & H2 & H3). split; [done|]. split; [done|].
    intros q' e' [?|H']%elem_of_cons; [done|by apply (H3 q')].
  - destruct Sp as (H1 & H2 & Sp). apply elem_of_cons in Hin as [[= -> ->]|Hin].
    + split; [done|]. split; [done|]. intros q' e' [[= -> ->]|H']%elem_of_cons; [lia|]. destruct (IH _ Sp q' e' H') as (H3 & _). lia.
    + destruct (IH _ Sp q e Hin) as (H3 & H4 & H5). split; [lia|]. split; [done|]. intros q' e' [[= -> ->]|H']%elem_of_cons; [lia|by apply (H5 q')].
Qed.

(** ** The theorem *)

Lemma str_at_nonzero m a l : str_at m a l -> (forall x, a <= x < a + Z.of_nat (length l) -> rd m x <> 0) /\ rd m (a + Z.of_nat (length l)) = 0.
Proof.
  revert a. induction l as [|c l IH]; intros a H; cbn [length]; [rewrite Z.add_0_r; split; [lia|done]|]. destruct H as (H1 & H2 & H3). destruct (IH _ H3) as [H4 H5].
  replace (a + Z.of_nat (S (length l))) with (a + 1 + Z.of_nat (length l)) by lia. split; [|done]. intros x Hx. destruct (decide (x = a)) as [->|]; [congruence|apply H4; lia].
Qed.

Lemma bytes_of_str m a l : str_at m a l -> bytes_at m a (length l) = l.
Proof. revert a. induction l as [|c l IH]; intros a H; [done|]. destruct H as (H1 & _ & H2). cbn. f_equal; [done|by apply IH]. Qed.

(** The text of a word of the line [l] at [a]. *)
Definition text_of (a : Z) (l : list Z) (w : Z * Z) : list Z := take (Z.to_nat (w.2 - w.1)) (drop (Z.to_nat (w.1 - a)) l).

Lemma bytes_at_take m a l n k : bytes_at m a (length l) = l -> (n + k <= length l)%nat -> bytes_at m (a + Z.of_nat n) k = take k (drop n l).
Proof.
  revert a n k. induction l as [|c l IH]; intros a n k E H; cbn [length] in *; [destruct n; [|lia]; destruct k; [done|lia]|]. cbn [bytes_at] in E. injection E as E1 E2.
  destruct n as [|n]; cbn [drop].
  - destruct k as [|k]; [done|]. rewrite Z.add_0_r. cbn [bytes_at take]. f_equal; [done|]. specialize (IH (a + 1) O k E2 ltac:(lia)). by rewrite Z.add_0_r in IH.
  - replace (a + Z.of_nat (S n)) with (a + 1 + Z.of_nat n) by lia. apply IH; [done|lia].
Qed.

(** A word whose end has been overwritten is a string. *)
Lemma str_at_word m m' k : forall q, (forall x, q <= x < q + Z.of_nat k -> rd m' x = rd m x /\ rd m x <> 0) -> rd m' (q + Z.of_nat k) = 0 -> str_at m' q (bytes_at m q k).
Proof.
  induction k as [|k IH]; intros q H E; cbn [bytes_at str_at]; [by rewrite Z.add_0_r in E|]. destruct (H q ltac:(lia)) as [H1 H2]. split; [done|]. split; [done|].
  apply IH; [intros x Hx; apply H; lia|]. by replace (q + 1 + Z.of_nat k) with (q + Z.of_nat (S k)) by lia.
Qed.

Lemma lex_length n : forall l w p, (length l <= n)%nat -> (length (lex w p l) <= length l + length (flush w p))%nat.
Proof.
  induction n as [|n IH]; intros l w p Hl; (destruct l as [|c l]; cbn [lex length] in *; [lia|]); [lia|].
  assert (H1 : forall p' l', (length l' <= n)%nat -> (length (lex None p' l') <= length l')%nat) by (intros p' l' Hl'; pose proof (IH l' None p' Hl') as H; cbn in H; lia).
  destruct (chr_in whitespace c); [rewrite length_app; pose proof (H1 (p + 1) l ltac:(lia)); lia|]. destruct (c =? 62).
  - assert (Hone : (length (TSym 62 :: lex None (p + 1) l) <= S (length l))%nat) by (cbn; pose proof (H1 (p + 1) l ltac:(lia)); lia).
    rewrite length_app. destruct l as [|x l']; [lia|]. destruct (decide (x = 62)) as [->|Hx].
    + cbn [length]. cbn [length] in Hl. pose proof (H1 (p + 1 + 1) l' ltac:(lia)). lia.
    + destruct x as [|x|x]; try lia. repeat (destruct x as [x|x|]; try lia).
  - destruct (chr_in symbols c); [rewrite length_app; cbn; pose proof (H1 (p + 1) l ltac:(lia)); lia|].
    pose proof (IH l (Some (default p w)) (p + 1) ltac:(lia)) as H2. cbn [flush length] in H2.
    destruct w; cbn [flush length]; lia.
Qed.

Lemma peek_end m a0 es st ts : (forall x, a0 <= x < es -> rd m x <> 0) -> rd m es = 0 -> pos m a0 es st ts ->
  exists st', peek es [] st = Ok false st' /\ sh_nodes st' = sh_nodes st /\ sh_mem st' = m /\ (sh_s st' = es <-> ts = []).
Proof.
  intros Hnz Hend (Em & Hs & Et). unfold peek. rewrite !bind_gets, bind_modify, Em. cbn [chr_in existsb]. rewrite andb_false_r.
  destruct (skip_white_toks m es (Z.to_nat (es - sh_s st)) (sh_s st) eq_refl ltac:(lia)) as (H1 & H2 & H3). set (s' := skip_white _ _ _) in *. rewrite Et in H2.
  exists (set_sh_s s' st). split; [done|]. split; [done|]. split; [done|]. cbn [sh_s set_sh_s]. split; [intros E; rewrite E, toks_end in H2; done|].
  intros ->. destruct H3 as [?|Hw]; [done|]. destruct (decide (s' = es)) as [|Hne]; [done|].
  destruct (token_at_toks m a0 es Hnz Hend s' ltac:(lia) Hw) as (t & e & _ & _ & [(_ & E & _)|(_ & E)]); rewrite E in H2; done.
Qed.

Section Parsecmd.
Context (room fuel : nat) (a : Z) (l : list Z) (st : shstate).
Context (Hstr : str_at (sh_mem st) a l) (Ha : 0 < a) (Hfuel : (4 * length l + 5 <= fuel)%nat) (Hroom : (length (sh_nodes st) + 2 * length l + 1 <= room)%nat).

Let es := a + Z.of_nat (length l).
Let ts := lex None a l.

Lemma line_toks : toks (sh_mem st) es a = ts /\ spaced es a ts /\ (length ts <= length l)%nat.
Proof using All.
  destruct (str_at_nonzero _ _ _ Hstr) as [Hnz Hend]. fold es in Hnz, Hend.
  assert (E : toks (sh_mem st) es a = ts).
  { unfold toks, ts, es. replace (Z.to_nat (a + Z.of_nat (length l) - a)) with (length l) by lia. by rewrite (bytes_of_str _ _ _ Hstr). }
  split; [done|]. split; [rewrite <- E; apply (toks_spaced (sh_mem st) a es Hnz Hend); unfold es; lia|].
  pose proof (lex_length (length l) l None a ltac:(lia)) as H. cbn in H. unfold ts. lia.
Qed.

(** The words of the result are strings. *)
Lemma words_strings c : g_line ts c -> Forall (fun w => w.1 <> 0) (words c) /\
  Forall (fun w => str_at (nuls (words c).*2 (sh_mem st)) w.1 (text_of a l w)) (words c).
Proof using All.
  intros G. destruct line_toks as (Et & Sp & _). destruct (str_at_nonzero _ _ _ Hstr) as [Hnz Hend]. fold es in Hnz, Hend. destruct (proj1 grammar_within _ _ G) as [W _].
  pose proof (bytes_of_str _ _ _ Hstr) as Hb.
  assert (Hw : forall w, w ∈ words c -> a <= w.1 < w.2 /\ w.2 <= es /\ forall w', w' ∈ words c -> ~ w.1 <= w'.2 < w.2).
  { intros [q e] Hin. destruct (spaced_words _ _ _ Sp q e (W _ Hin)) as (H1 & H2 & H3). split; [done|]. split; [done|]. intros [q' e'] Hin'. apply (H3 q'). by apply (W _ Hin'). }
  split; apply Forall_forall; intros w Hin; destruct (Hw w Hin) as (H1 & H2 & H3); [lia|]. unfold es in H2.
  unfold text_of. rewrite <- (bytes_at_take (sh_mem st) a l) by (done || lia). replace (a + Z.of_nat (Z.to_nat (w.1 - a))) with w.1 by lia. apply str_at_word.
  - intros x Hx. rewrite rd_nuls. split; [|apply Hnz; unfold es; lia]. rewrite decide_False; [done|]. intros (w' & -> & Hw')%list_elem_of_fmap. apply (H3 w' Hw'). lia.
  - rewrite rd_nuls. replace (w.1 + Z.of_nat (Z.to_nat (w.2 - w.1))) with w.2 by lia. rewrite decide_True; [done|]. apply list_elem_of_fmap. by exists w.
Qed.

Lemma parsecmd_ok :
  (exists c root st', g_line ts c /\ (forall c', g_line ts c' -> c' = c) /\ parsecmd room fuel a st = Ok root st' /\ rep (sh_nodes st') root c /\
     Forall (fun w => str_at (sh_mem st') w.1 (text_of a l w)) (words c)) \/
  ((forall c, ~ g_line ts c) /\ exists msg, parsecmd room fuel a st = Panic msg).
Proof using All.
  destruct line_toks as (Et & Sp & Hl). destruct (str_at_nonzero _ _ _ Hstr) as [Hnz Hend]. fold es in Hnz, Hend.
  assert (Hcomp : forall c, g_line ts c -> p_line fuel ts = Some (c, [])).
  { intros c G. rewrite <- (app_nil_r ts) at 1. apply (proj1 p_complete ts c G); [done|lia]. }
  unfold parsecmd. rewrite bind_gets, (ustrlen_spec fuel _ a l Hstr) by lia. fold es. cbv zeta. rewrite bind_modify. set (st1 := set_sh_s a st).
  assert (P1 : pos (sh_mem st) a es st1 ts) by (split; [done|]; split; [cbn; unfold es; lia|exact Et]).
  destruct (parse_ok room (sh_mem st) a es Hnz Hend fuel ts a st1 Sp P1 ltac:(cbn; lia)) as (H & _). specialize (H ltac:(lia)). destruct (p_line fuel ts) as [[c ts2]|] eqn:Ep.
  2: { right. split; [intros c G; by specialize (Hcomp c G)|]. destruct H as (msg & H). exists msg. exact (bind_panic _ _ _ _ H). }
  destruct H as (root & st2 & E2 & (P2 & _ & _) & R2). rewrite (bind_ok _ _ _ _ _ E2). destruct (peek_end _ _ _ _ _ Hnz Hend P2) as (st3 & E3 & N3 & M3 & Hs). rewrite (bind_ok _ _ _ _ _ E3), bind_gets.
  destruct (Z.eqb_spec (sh_s st3) es) as [E|E]; cbn [negb].
  - apply Hs in E. subst ts2. left. pose proof (proj1 (p_sound fuel ts c []) Ep) as (ts1 & Ets & G). rewrite app_nil_r in Ets. rewrite <- Ets in G.
    destruct (words_strings c G) as [W1 W2]. destruct (proj1 grammar_within _ _ G) as [_ Hh]. rewrite <- N3 in R2.
    pose proof (nulterminate_ok c root fuel st3 R2 ltac:(lia) W1) as E4. rewrite (bind_ok _ _ _ _ _ E4). exists c, root. eexists. split; [done|]. split; [intros c' G'; specialize (Hcomp c' G'); congruence|].
    split; [done|]. split; [exact R2|]. cbn [sh_mem set_sh_mem]. by rewrite M3.
  - right. split; [|by eexists]. intros c' G'. specialize (Hcomp c' G'). injection Hcomp as -> ->. apply E. by apply Hs.
Qed.
End Parsecmd.

(** [C14] The shell's parser decides its grammar, for every line: it returns
    the only command that the line can be read as, with every word a string in
    memory, or the line cannot be read as a command and it exits with a
    message.  It always ends, does not write past the arguments of a command
    and does not use a null pointer. *)
Theorem parsecmd_spec room fuel a l st :
  str_at (sh_mem st) a l -> 0 < a -> (4 * length l + 5 <= fuel)%nat -> (length (sh_nodes st) + 2 * length l + 1 <= room)%nat ->
  (exists c root st', g_line (lex None a l) c /\ (forall c', g_line (lex None a l) c' -> c' = c) /\
     parsecmd room fuel a st = Ok root st' /\ rep (sh_nodes st') root c /\
     Forall (fun w => str_at (sh_mem st') w.1 (text_of a l w)) (words c)) \/
  ((forall c, ~ g_line (lex None a l) c) /\ exists msg, parsecmd room fuel a st = Panic msg).
Proof. intros Hs Ha Hf Hr. exact (parsecmd_ok room fuel a l st Hs Ha Hf Hr). Qed.

Definition ex_line : list Z := str "a <b |c&".
Definition ex_sh : shstate := mkSh (wr_bytes ∅ 8 ex_line) 0 [].

Lemma ex_line_at : str_at (sh_mem ex_sh) 8 ex_line.
Proof. vm_compute. repeat split; discriminate. Qed.

Lemma parsecmd_spec_witness : exists c root st', g_line (lex None 8 ex_line) c /\ parsecmd 100 100 8 ex_sh = Ok root st' /\ rep (sh_nodes st') root c.
Proof.
  destruct (parsecmd_spec 100 100 8 ex_line ex_sh ex_line_at ltac:(lia) ltac:(vm_compute; lia) ltac:(vm_compute; lia)) as [(c & root & st' & G & _ & E & R & _)|[_ (msg & E)]].
  - exists c, root, st'. split; [exact G|]. split; [exact E|exact R].
  - vm_compute in E. discriminate E.
Defined.
