(* ===== verification/ShPrint.v ===== *)
(** * Commands, printed and parsed

    A command with its words is printed with parentheses around its parts;
    parsing the text gives the command back. *)

From S2P Require Import Prelude KString Bytes Uart SysFile Ulib Sh ShParse.

(** ** Printing *)

(** A command with its words; [op] is the symbol of the redirection. *)
Inductive scmd : Type :=
  | SExec (args : list (list Z))
  | SRedir (s : scmd) (op : Z) (file : list Z)
  | SPipe (l r : scmd)
  | SList (l r : scmd)
  | SBack (s : scmd).

Definition op_text (op : Z) : list Z := if op =? 43 then [32; 62; 62] else [32; op].

Definition paren (t : list Z) : list Z := [32; 40] ++ t ++ [32; 41].

Fixpoint print (s : scmd) : list Z :=
  match s with
  | SExec args => concat ((fun w => 32 :: w) <$> args)
  | SRedir s op file => paren (print s) ++ op_text op ++ 32 :: file
  | SPipe l r => paren (print l) ++ [32; 124] ++ paren (print r)
  | SList l r => paren (print l) ++ [32; 59] ++ paren (print r)
  | SBack s => paren (print s) ++ [32; 38]
  end.

(** A word has characters, and none that is blank or a symbol. *)
Definition word_ok (w : list Z) : Prop := w <> [] /\ Forall (fun c => 0 < c < 256 /\ chr_in whitespace c = false /\ chr_in symbols c = false) w.

Fixpoint valid (s : scmd) : Prop :=
  match s with
  | SExec args => Forall word_ok args /\ Z.of_nat (length args) < MAXARGS
  | SRedir s op file => valid s /\ word_ok file /\ redir_kind op <> None
  | SPipe l r | SList l r => valid l /\ valid r
  | SBack s => valid s
  end.

(** [c] is [s], its words being strings in memory. *)
Fixpoint reads (m : mem) (c : cmd) (s : scmd) : Prop :=
  match c, s with
  | Exec ws, SExec args => Forall2 (fun w t => str_at m w.1 t) ws args
  | Redir c q _ mode fd, SRedir s op file => reads m c s /\ str_at m q file /\ redir_kind op = Some (mode, fd)
  | Pipe l r, SPipe l' r' => reads m l l' /\ reads m r r'
  | List_ l r, SList l' r' => reads m l l' /\ reads m r r'
  | Back c, SBack s => reads m c s
  | _, _ => False
  end.

(** *** The tokens of a printed command *)

Fixpoint place_args (p : Z) (args : list (list Z)) : list (Z * Z) :=
  match args with
  | [] => []
  | w :: args => (p + 1, p + 1 + Z.of_nat (length w)) :: place_args (p + 1 + Z.of_nat (length w)) args
  end.

Definition end_of (p : Z) (t : list Z) : Z := p + Z.of_nat (length t).

(** The command whose text is at [p]. *)
Fixpoint place (p : Z) (s : scmd) : cmd :=
  match s with
  | SExec args => Exec (place_args p args)
  | SRedir s op file => let q := end_of p (paren (print s) ++ op_text op) + 1 in
      let k := default (0, 0) (redir_kind op) in Redir (place (p + 2) s) q (end_of q file) k.1 k.2
  | SPipe l r => Pipe (place (p + 2) l) (place (end_of p (paren (print l) ++ [32; 124]) + 2) r)
  | SList l r => List_ (place (p + 2) l) (place (end_of p (paren (print l) ++ [32; 59]) + 2) r)
  | SBack s => Back (place (p + 2) s)
  end.

Definition paren_toks (ts : list tok) : list tok := TSym 40 :: ts ++ [TSym 41].

Fixpoint ptoks (p : Z) (s : scmd) : list tok :=
  match s with
  | SExec args => (fun w => TWord w.1 w.2) <$> place_args p args
  | SRedir s op file => let q := end_of p (paren (print s) ++ op_text op) + 1 in
      paren_toks (ptoks (p + 2) s) ++ [TSym op; TWord q (end_of q file)]
  | SPipe l r => paren_toks (ptoks (p + 2) l) ++ TSym 124 :: paren_toks (ptoks (end_of p (paren (print l) ++ [32; 124]) + 2) r)
  | SList l r => paren_toks (ptoks (p + 2) l) ++ TSym 59 :: paren_toks (ptoks (end_of p (paren (print l) ++ [32; 59]) + 2) r)
  | SBack s => paren_toks (ptoks (p + 2) s) ++ [TSym 38]
  end.

(** The next piece begins with a blank. *)
Definition apart (t : list Z) : Prop := t = [] \/ exists c t', t = c :: t' /\ chr_in whitespace c = true.

Lemma end_of_app p t t' : end_of p (t ++ t') = end_of (end_of p t) t'.
Proof. unfold end_of. rewrite length_app. lia. Qed.

Lemma lex_in_word w : Forall (fun c => 0 < c < 256 /\ chr_in whitespace c = false /\ chr_in symbols c = false) w -> forall q p t, apart t ->
  lex (Some q) p (w ++ t) = TWord q (end_of p w) :: lex None (end_of p w) t.
Proof.
  unfold end_of. induction 1 as [|c w (_ & Hw & Hs) H IH]; intros q p t Ht; cbn [app length].
  - rewrite Z.add_0_r. destruct Ht as [->|(c & t' & -> & Hc)]; [done|]. cbn [lex]. by rewrite Hc.
  - cbn [lex]. rewrite Hw, Hs. assert (c =? 62 = false) as -> by (apply Z.eqb_neq; intros ->; done). cbn [default]. rewrite IH by done. by replace (p + 1 + Z.of_nat (length w)) with (p + Z.of_nat (S (length w))) by lia.
Qed.

Lemma lex_a_word w p t : word_ok w -> apart t -> lex None p (32 :: w ++ t) = TWord (p + 1) (end_of (p + 1) w) :: lex None (end_of (p + 1) w) t.
Proof.
  intros [Hne H] Ht. destruct w as [|c w]; [done|]. inversion H as [|? ? (_ & Hw & Hs) H']; subst. cbn [app lex]. change (chr_in whitespace 32) with true. cbn [flush app].
  rewrite Hw, Hs. assert (c =? 62 = false) as -> by (apply Z.eqb_neq; intros ->; done). cbn [default]. rewrite lex_in_word by done. unfold end_of. cbn [length].
  by replace (p + 1 + 1 + Z.of_nat (length w)) with (p + 1 + Z.of_nat (S (length w))) by lia.
Qed.

Lemma lex_sym c p t : chr_in symbols c = true -> c <> 62 -> lex None p (32 :: c :: t) = TSym c :: lex None (p + 2) t.
Proof.
  intros Hs Hc. cbn [lex]. change (chr_in whitespace 32) with true. cbn [flush app]. assert (chr_in whitespace c = false) as ->.
  { apply not_true_is_false. intros H%chr_in_spec. apply chr_in_spec in Hs. change (c ∈ [60; 124; 62; 38; 59; 40; 41]) in Hs. unfold whitespace in H. rewrite !elem_of_cons, elem_of_nil in *. lia. }
  rewrite (proj2 (Z.eqb_neq _ _) Hc), Hs. by replace (p + 1 + 1) with (p + 2) by lia.
Qed.

Lemma lex_op op p t : redir_kind op <> None -> head t = Some 32 -> lex None p (op_text op ++ t) = TSym op :: lex None (end_of p (op_text op)) t.
Proof.
  intros Hk Ht. destruct t as [|c t]; [done|]. injection Ht as ->. unfold redir_kind in Hk. unfold op_text, end_of.
  destruct (Z.eqb_spec op 43) as [->|H1]; [cbn; by replace (p + 1 + 1 + 1) with (p + 3) by lia|].
  destruct (Z.eqb_spec op 60) as [->|H2]; [apply lex_sym; done|]. destruct (Z.eqb_spec op 62) as [->|H3]; [|done]. cbn. by replace (p + 1 + 1) with (p + 2) by lia.
Qed.

Lemma lex_args args : Forall word_ok args -> forall p t, apart t ->
  lex None p (concat ((fun w => 32 :: w) <$> args) ++ t) = ((fun w => TWord w.1 w.2) <$> place_args p args) ++ lex None (end_of p (concat ((fun w => 32 :: w) <$> args))) t.
Proof.
  induction 1 as [|w args Hw H IH]; intros p t Ht; cbn [fmap list_fmap concat place_args]; [unfold end_of; cbn; by rewrite Z.add_0_r|].
  rewrite <- app_assoc. cbn [app]. rewrite lex_a_word; [|done|destruct args as [|w' args]; [done|right; by eexists _, _]]. cbn [fst snd app]. unfold end_of at 1 2. f_equal. rewrite IH by done.
  f_equal. f_equal. unfold end_of. cbn [length]. rewrite length_app. lia.
Qed.

Lemma lex_paren t ts p rest : (forall p t', apart t' -> lex None p (t ++ t') = ts p ++ lex None (end_of p t) t') ->
  lex None p (paren t ++ rest) = paren_toks (ts (p + 2)) ++ lex None (end_of p (paren t)) rest.
Proof.
  intros H. unfold paren, paren_toks. rewrite <- !app_assoc. cbn [app]. rewrite lex_sym by done. cbn [app]. f_equal. rewrite H by (right; by eexists _, _). rewrite <- app_assoc. f_equal. cbn [app]. rewrite lex_sym by done.
  f_equal. f_equal. unfold end_of. cbn [length]. rewrite length_app. cbn [length]. lia.
Qed.

Lemma lex_print s : valid s -> forall p t, apart t -> lex None p (print s ++ t) = ptoks p s ++ lex None (end_of p (print s)) t.
Proof.
  assert (Htwo : forall l r sy ts p t, (forall p t', apart t' -> lex None p (print l ++ t') = ptoks p l ++ lex None (end_of p (print l)) t') ->
    (forall p t', apart t' -> lex None p (print r ++ t') = ptoks p r ++ lex None (end_of p (print r)) t') -> chr_in symbols sy = true -> sy <> 62 -> apart t -> ts = lex None (end_of p (paren (print l) ++ [32; sy] ++ paren (print r))) t ->
    lex None p ((paren (print l) ++ [32; sy] ++ paren (print r)) ++ t) = paren_toks (ptoks (p + 2) l) ++ (TSym sy :: paren_toks (ptoks (end_of p (paren (print l) ++ [32; sy]) + 2) r)) ++ ts).
  { intros l r sy ts p t Hl Hr Hs Hne Ht ->. rewrite <- !app_assoc. rewrite (lex_paren _ (fun p => ptoks p l)) by done. f_equal. cbn [app]. rewrite lex_sym by done. f_equal.
    replace (end_of p (paren (print l)) + 2) with (end_of p (paren (print l) ++ [32; sy])) by (rewrite end_of_app; done). rewrite (lex_paren _ (fun p => ptoks p r)) by done. f_equal. f_equal. by rewrite <- end_of_app, <- app_assoc. }
  induction s as [args|s IH op file|l IHl r IHr|l IHl r IHr|s IH]; intros V p t Ht; cbn [valid print ptoks] in *.
  - apply lex_args; [apply V|done].
  - destruct V as (V & Hf & Hk). rewrite <- !app_assoc. rewrite (lex_paren _ (fun p => ptoks p s)) by auto. f_equal. cbn [app]. rewrite lex_op by done. cbn [app]. f_equal.
    rewrite lex_a_word by done. rewrite (end_of_app p). f_equal. f_equal. rewrite end_of_app, (end_of_app _ (op_text op)). unfold end_of. cbn [length]. lia.
  - destruct V as [V1 V2]. rewrite (Htwo l r 124 _ p t) by auto. rewrite <- app_assoc. done.
  - destruct V as [V1 V2]. rewrite (Htwo l r 59 _ p t) by auto. rewrite <- app_assoc. done.
  - rewrite <- !app_assoc. rewrite (lex_paren _ (fun p => ptoks p s)) by auto. f_equal. cbn [app]. rewrite lex_sym by done. f_equal. f_equal. rewrite end_of_app. done.
Qed.

Lemma lex_blank ws : Forall (fun c => chr_in whitespace c = true) ws -> forall p, lex None p ws = [].
Proof. induction 1 as [|c ws Hc H IH]; intros p; [done|]. cbn [lex]. by rewrite Hc, IH. Qed.

Lemma g_block ts c : g_line ts c -> g_exec (paren_toks ts) c.
Proof. intros G. exact (ge_block ts c [] [] G simple_nil). Qed.

Lemma g_print s : valid s -> forall p, g_line (ptoks p s) (place p s).
Proof.
  assert (H0 : forall ts c, g_pipe ts c -> g_line ts c) by (intros ts c G; rewrite <- (app_nil_r ts); exact (gl_one ts 0 c G)).
  assert (Hargs : forall args p, simple ((fun w => TWord w.1 w.2) <$> place_args p args) (place_args p args) [] /\ length (place_args p args) = length args).
  { induction args as [|w args IH]; intros p; [split; [constructor|done]|]. cbn. destruct (IH (p + 1 + Z.of_nat (length w))) as [H1 H2]. split; [by constructor|by rewrite H2]. }
  induction s as [args|s IH op file|l IHl r IHr|l IHl r IHr|s IH]; intros V p; cbn [valid ptoks place] in *.
  - destruct (Hargs args p) as [H1 H2]. apply H0, gp_one, (ge_simple _ _ [] H1). rewrite H2. apply V.
  - destruct V as (V & Hf & Hk). destruct (redir_kind op) as [k|] eqn:Ek; [|done]. apply H0, gp_one. cbn [default]. unfold paren_toks. cbn [app]. rewrite <- app_assoc. cbn [app].
    set (q := end_of p _ + 1). apply (ge_block _ _ [TSym op; TWord q (end_of q file)] [(q, end_of q file, k)]); [by apply IH|]. constructor; [done|constructor].
  - destruct V as [V1 V2]. apply H0, gp_pipe; [apply g_block; auto|apply gp_one, g_block; auto].
  - destruct V as [V1 V2]. apply (gl_seq _ 0); [apply gp_one, g_block; auto|apply H0, gp_one, g_block; auto].
  - apply (gl_one _ 1). apply gp_one, g_block. auto.
Qed.

(** The words are where [place] says. *)
Lemma text_of_at a pre w post q e : q = a + Z.of_nat (length pre) -> e = q + Z.of_nat (length w) -> text_of a (pre ++ w ++ post) (q, e) = w.
Proof.
  intros -> ->. unfold text_of. cbn [fst snd]. replace (Z.to_nat (a + Z.of_nat (length pre) - a)) with (length pre) by lia. rewrite drop_app_length.
  replace (Z.to_nat _) with (length w) by lia. apply take_app_length.
Qed.

Lemma reads_args m a : forall args pre post, (forall w, w ∈ place_args (end_of a pre) args -> str_at m w.1 (text_of a (pre ++ concat ((fun w => 32 :: w) <$> args) ++ post) w)) ->
  Forall2 (fun w t => str_at m w.1 t) (place_args (end_of a pre) args) args.
Proof.
  induction args as [|w args IH]; intros pre post H; cbn [place_args]; [constructor|]. constructor.
  - specialize (H _ ltac:(left)). set (X := concat ((fun w => 32 :: w) <$> args)) in *.
    replace (pre ++ concat ((fun w => 32 :: w) <$> w :: args) ++ post) with ((pre ++ [32]) ++ w ++ X ++ post) in H by (cbn; by rewrite <- !app_assoc).
    rewrite text_of_at in H; [exact H|rewrite length_app; unfold end_of; cbn; lia|done].
  - assert (E : end_of a pre + 1 + Z.of_nat (length w) = end_of a (pre ++ 32 :: w)) by (unfold end_of; rewrite length_app; cbn [length]; lia). rewrite E. apply (IH _ post).
    intros w' Hw'. rewrite <- app_assoc. specialize (H w'). cbn [fmap list_fmap concat app place_args] in H. rewrite <- app_assoc in H. apply H. right. by rewrite E.
Qed.

Lemma reads_place m a s : valid s -> forall pre post, (forall w, w ∈ words (place (end_of a pre) s) -> str_at m w.1 (text_of a (pre ++ print s ++ post) w)) ->
  reads m (place (end_of a pre) s) s.
Proof.
  assert (E2 : forall pre, end_of a pre + 2 = end_of a (pre ++ [32; 40])) by (intros pre; unfold end_of; rewrite length_app; cbn [length]; lia).
  assert (El : forall pre t post, pre ++ (paren t) ++ post = (pre ++ [32; 40]) ++ t ++ ([32; 41] ++ post)) by (intros pre t post; unfold paren; by rewrite <- !app_assoc).
  induction s as [args|s IH op file|l IHl r IHr|l IHl r IHr|s IH]; intros V pre post H; cbn [valid print place words reads] in *.
  - by apply (reads_args m a args pre post).
  - destruct V as (V & Hf & Hk). split; [|split].
    + rewrite E2. apply (IH V _ ([32; 41] ++ op_text op ++ 32 :: file ++ post)). intros w Hw. rewrite <- El. specialize (H w ltac:(rewrite E2, elem_of_app; by left)). by rewrite <- !app_assoc in H.
    + specialize (H _ ltac:(rewrite elem_of_app, list_elem_of_singleton; by right)). cbn [fst] in H. rewrite <- end_of_app in H.
      replace (pre ++ (paren (print s) ++ op_text op ++ 32 :: file) ++ post) with ((pre ++ paren (print s) ++ op_text op ++ [32]) ++ file ++ post) in H by (by rewrite <- !app_assoc).
      rewrite text_of_at in H; [by rewrite <- end_of_app| |done]. unfold end_of. rewrite !length_app. cbn [length]. lia.
    + destruct (redir_kind op) as [[mode fd]|]; [done|done].
  - destruct V as [V1 V2]. split.
    + rewrite E2. apply (IHl V1 _ ([32; 41] ++ [32; 124] ++ paren (print r) ++ post)). intros w Hw. rewrite <- El. specialize (H w ltac:(rewrite E2, elem_of_app; by left)). by rewrite <- !app_assoc in H.
    + rewrite <- end_of_app, E2. apply (IHr V2 _ ([32; 41] ++ post)). intros w Hw. rewrite <- El. specialize (H w ltac:(apply elem_of_app; right; rewrite <- end_of_app, E2; exact Hw)). by rewrite <- !app_assoc in H |- *.
  - destruct V as [V1 V2]. split.
    + rewrite E2. apply (IHl V1 _ ([32; 41] ++ [32; 59] ++ paren (print r) ++ post)). intros w Hw. rewrite <- El. specialize (H w ltac:(rewrite E2, elem_of_app; by left)). by rewrite <- !app_assoc in H.
    + rewrite <- end_of_app, E2. apply (IHr V2 _ ([32; 41] ++ post)). intros w Hw. rewrite <- El. specialize (H w ltac:(apply elem_of_app; right; rewrite <- end_of_app, E2; exact Hw)). by rewrite <- !app_assoc in H |- *.
  - rewrite E2. apply (IH V _ ([32; 41] ++ [32; 38] ++ post)). intros w Hw. rewrite <- El. specialize (H w ltac:(by rewrite E2)). by rewrite <- !app_assoc in H.
Qed.

(** ** The theorem *)

Section Text.
Context (s : scmd) (ws : list Z) (V : valid s) (Hws : Forall (fun c => chr_in whitespace c = true) ws).

Lemma g_text a : g_line (lex None a (print s ++ ws)) (place a s).
Proof using V Hws.
  rewrite (lex_print s V a ws); [rewrite lex_blank by done; rewrite app_nil_r; by apply g_print|]. destruct Hws as [|c ws' Hc]; [by left|right; by exists c, ws'].
Qed.

Lemma parse_text room fuel a st : str_at (sh_mem st) a (print s ++ ws) -> 0 < a ->
  (4 * length (print s ++ ws) + 5 <= fuel)%nat -> (length (sh_nodes st) + 2 * length (print s ++ ws) + 1 <= room)%nat ->
  exists c root st', parsecmd room fuel a st = Ok root st' /\ rep (sh_nodes st') root c /\ reads (sh_mem st') c s /\
    Forall (fun w => w.1 <> 0) (words c) /\ (height c <= length (print s ++ ws) + 1)%nat.
Proof using V Hws.
  intros Hs Ha Hf Hr. pose proof (g_text a) as G.
  destruct (parsecmd_ok room fuel a (print s ++ ws) st Hs Ha Hf Hr) as [(c & root & st' & _ & Hu & E & R & W)|[Hno _]]; [|by apply Hno in G].
  rewrite <- (Hu _ G) in R, W. exists (place a s), root, st'. split; [exact E|]. split; [exact R|]. rewrite Forall_forall in W. split; [|split].
  - pose proof (reads_place (sh_mem st') a s V [] ws) as H. unfold end_of in H. cbn [length app] in H. rewrite Z.add_0_r in H. apply H. exact W.
  - apply (words_strings room fuel a (print s ++ ws) st Hs Ha Hf Hr _ G).
  - destruct (proj1 grammar_within _ _ G) as [_ Hh]. pose proof (lex_length (length (print s ++ ws)) (print s ++ ws) None a ltac:(lia)) as Hl. cbn [flush length] in Hl. lia.
Qed.
End Text.

(** [C16] Parsing undoes printing: for every command whose words have no blanks
    or symbols and with at most nine words in a row, [parsecmd] of its text
    returns that command. *)
Theorem parse_print s ws room fuel a st :
  valid s -> Forall (fun c => chr_in whitespace c = true) ws -> str_at (sh_mem st) a (print s ++ ws) -> 0 < a ->
  (4 * length (print s ++ ws) + 5 <= fuel)%nat -> (length (sh_nodes st) + 2 * length (print s ++ ws) + 1 <= room)%nat ->
  exists c root st', parsecmd room fuel a st = Ok root st' /\ rep (sh_nodes st') root c /\ reads (sh_mem st') c s.
Proof.
  intros V Hws Hs Ha Hf Hr. destruct (parse_text s ws V Hws room fuel a st Hs Ha Hf Hr) as (c & root & st' & E & R & Rd & _). by exists c, root, st'.
Qed.

Definition ex_cmd : scmd := SList (SBack (SPipe (SExec [str "ls"; str "x"]) (SRedir (SExec [str "wc"]) 43 (str "out")))) (SExec []).
Definition ex_print : shstate := mkSh (wr_bytes ∅ 8 (print ex_cmd ++ [10])) 0 [].

Lemma ex_cmd_valid : valid ex_cmd.
Proof. cbn. repeat split; try discriminate; try lia; repeat constructor; try discriminate; try lia. Qed.

Lemma ex_print_at : str_at (sh_mem ex_print) 8 (print ex_cmd ++ [10]).
Proof. vm_compute. repeat split; discriminate. Qed.

Lemma parse_print_witness : exists c root st', parsecmd 200 400 8 ex_print = Ok root st' /\ rep (sh_nodes st') root c /\ reads (sh_mem st') c ex_cmd.
Proof.
  apply (parse_print ex_cmd [10] 200 400 8 ex_print ex_cmd_valid); [by repeat constructor|exact ex_print_at|lia|vm_compute; lia|vm_compute; lia].
Defined.
