(* ===== verification/ShRun.v ===== *)
(** * user/sh.c: running commands

    A process of the shell is a tree of its system calls, [prog]: each call
    with what the process does for every answer.  [runcmd], [getcmd] and
    [main] are such trees, computed from the memory of the process.  [run]
    plays the kernel for them: descriptors are private to a process and the
    lowest free one is taken, a child goes on where [fork] returns 0, and a
    process that calls [exec] becomes another program. *)

From S2P Require Import Prelude KString Bytes Uart SysFile Ulib Sh ShParse ShPrint.

(** ** Processes *)

Inductive prog : Type :=
  | Exit (code : Z)
  | Stuck
  | Exec_ (args : list (list Z)) (failed : prog)
  | Close (fd : Z) (k : prog)
  | Open (name : list Z) (mode : Z) (k : Z -> prog)
  | Dup (fd : Z) (k : Z -> prog)
  | MkPipe (k : Z -> Z -> Z -> prog)
  | Fork (k : Z -> prog)
  | Wait (k : list Z -> prog)
  | Print (fd : Z) (text : list Z) (k : prog)
  | Chdir (name : list Z) (k : Z -> prog)
  | Read1 (k : option Z -> prog).

(** The string that a system call finds at [q]. *)
Definition cstring (m : mem) (q : Z) : list Z := cstrn (Z.to_nat 4096) m q.

Fixpoint argv_strings (m : mem) (argv : list Z) : list (list Z) :=
  match argv with
  | [] => []
  | q :: argv => if q =? 0 then [] else cstring m q :: argv_strings m argv
  end.

Definition sh_panic (s : string) : prog := Print 2 (str s ++ [10]) (Exit 1).

Definition fork1 (k : Z -> prog) : prog := Fork (fun pid => if pid =? -1 then sh_panic "fork" else k pid).

(** With the structures and the memory of [st]. *)
Fixpoint runcmd (fuel : nat) (st : shstate) (cmd : Z) : prog :=
  match fuel with
  | O => Stuck
  | S fuel =>
      if cmd =? 0 then Exit 1
      else
        match node_at (sh_nodes st) cmd with
        | None => Stuck
        | Some (EXEC argv _) =>
            match argv_strings (sh_mem st) argv with
            | [] => Exit 1
            | name :: _ => Exec_ (argv_strings (sh_mem st) argv) (Print 2 (str "exec " ++ name ++ str " failed" ++ [10]) (Exit 0))
            end
        | Some (REDIR c file _ mode fd) =>
            Close fd (Open (cstring (sh_mem st) file) mode (fun r =>
              if r <? 0 then Print 2 (str "open " ++ cstring (sh_mem st) file ++ str " failed" ++ [10]) (Exit 1)
              else runcmd fuel st c))
        | Some (LIST l r) => fork1 (fun pid => if pid =? 0 then runcmd fuel st l else Wait (fun _ => runcmd fuel st r))
        | Some (PIPE l r) =>
            MkPipe (fun e p0 p1 =>
              if e <? 0 then sh_panic "pipe"
              else fork1 (fun pid =>
                if pid =? 0 then Close 1 (Dup p1 (fun _ => Close p0 (Close p1 (runcmd fuel st l))))
                else fork1 (fun pid =>
                  if pid =? 0 then Close 0 (Dup p0 (fun _ => Close p0 (Close p1 (runcmd fuel st r))))
                  else Close p0 (Close p1 (Wait (fun _ => Wait (fun _ => Exit 0)))))))
        | Some (BACK c) => fork1 (fun pid => if pid =? 0 then runcmd fuel st c else Exit 0)
        end
  end.

(** [gets] of ulib.c, as [read]s of one byte: [k] more bytes fit, and [i] are
    in [buf]. *)
Fixpoint gets_p (k : nat) (m : mem) (buf i : Z) (go : mem -> prog) : prog :=
  match k with
  | O => go (wr m (buf + i) 0)
  | S k =>
      Read1 (fun r =>
        match r with
        | None => go (wr m (buf + i) 0)
        | Some c =>
            let m := wr m (buf + i) c in
            if (c =? 10) || (c =? 13) then go (wr m (buf + (i + 1)) 0) else gets_p k m buf (i + 1) go
        end)
  end.

Definition getcmd (m : mem) (buf nbuf : Z) (go : mem -> Z -> prog) : prog :=
  Print 2 (str "$ ") (
    gets_p (Z.to_nat (nbuf - 1)) (memset m buf 0 nbuf) buf 0 (fun m =>
      if rd m buf =? 0 then go m (-1) else go m 0)).

(** [while((fd = open("console", O_RDWR)) >= 0)] *)
Fixpoint open_console (fuel : nat) (k : prog) : prog :=
  match fuel with
  | O => Stuck
  | S fuel => Open (str "console") O_RDWR (fun fd => if 0 <=? fd then if 3 <=? fd then Close fd k else open_console fuel k else k)
  end.

Section Main.
Context (room pfuel : nat) (buf : Z).

Definition child (m : mem) : prog :=
  match parsecmd room pfuel buf (mkSh m 0 []) with
  | Ok cmd st => runcmd pfuel st cmd
  | Panic msg => sh_panic msg
  | _ => Stuck
  end.

(** One round per line. *)
Fixpoint sh_loop (fuel : nat) (m : mem) : prog :=
  match fuel with
  | O => Stuck
  | S fuel =>
      getcmd m buf 100 (fun m r =>
        if r <? 0 then Exit 0
        else if (rd m buf =? 99) && (rd m (buf + 1) =? 100) && (rd m (buf + 2) =? 32) then
          match ustrlen pfuel m buf with
          | None => Stuck
          | Some n =>
              let m := wr m (buf + (n - 1)) 0 in
              Chdir (cstring m (buf + 3)) (fun r =>
                if r <? 0 then Print 2 (str "cannot cd " ++ cstring m (buf + 3) ++ [10]) (sh_loop fuel m) else sh_loop fuel m)
          end
        else fork1 (fun pid =>
          if pid =? 0 then child m
          else Wait (fun msg => if negb (bool_decide (msg = [])) then Print 1 (msg ++ [10]) (sh_loop fuel m) else sh_loop fuel m)))
  end.

Definition sh_main (fuel : nat) (m : mem) : prog := open_console 4 (sh_loop fuel m).
End Main.

(** ** The kernel, for these processes *)

Inductive obj : Type :=
  | ODev (n : Z)
  | OFile (name : list Z) (mode : Z)
  | OPipeR (n : nat)
  | OPipeW (n : nat).

Notation fdtab := (gmap Z obj).

(** A program that was started: its arguments and its open files. *)
Definition launch : Type := list (list Z) * fdtab.

Record sh_world : Type := mkW {
  w_in : list Z;
  w_pipes : nat;
  w_launched : list launch;
  w_text : list (list Z);
  w_stuck : bool;
}.

Definition free_fd (t : fdtab) : option Z := head (filter (fun fd => t !! fd = None) (seqZ 0 16)).

Section Run.
(** The number of a new child. *)
Context (pid : Z).

Fixpoint run (p : prog) (t : fdtab) (w : sh_world) : sh_world :=
  match p with
  | Exit _ => w
  | Stuck => mkW (w_in w) (w_pipes w) (w_launched w) (w_text w) true
  | Exec_ args _ => mkW (w_in w) (w_pipes w) (w_launched w ++ [(args, t)]) (w_text w) (w_stuck w)
  | Close fd k => run k (delete fd t) w
  | Open name mode k =>
      match free_fd t with
      | Some fd => run (k fd) (<[fd := OFile name mode]> t) w
      | None => run (k (-1)) t w
      end
  | Dup fd k =>
      match t !! fd, free_fd t with
      | Some o, Some fd' => run (k fd') (<[fd' := o]> t) w
      | _, _ => run (k (-1)) t w
      end
  | MkPipe k =>
      match free_fd t with
      | Some p0 =>
          let n := w_pipes w in
          match free_fd (<[p0 := OPipeR n]> t) with
          | Some p1 => run (k 0 p0 p1) (<[p1 := OPipeW n]> (<[p0 := OPipeR n]> t)) (mkW (w_in w) (S n) (w_launched w) (w_text w) (w_stuck w))
          | None => run (k (-1) 0 0) t w
          end
      | None => run (k (-1) 0 0) t w
      end
  | Fork k => run (k pid) t (run (k 0) t w)
  | Wait k => run (k []) t w
  | Print _ text k => run k t (mkW (w_in w) (w_pipes w) (w_launched w) (w_text w ++ [text]) (w_stuck w))
  | Chdir _ k => run (k 0) t w
  | Read1 k =>
      match w_in w with
      | c :: cs => run (k (Some c)) t (mkW cs (w_pipes w) (w_launched w) (w_text w) (w_stuck w))
      | [] => run (k None) t w
      end
  end.
End Run.

(** ** What a command means *)

(** The programs a command starts, with their open files: a redirection and
    the ends of pipes replace the standard input or output, and nothing else
    changes.  Pipes are numbered from [n]. *)
Fixpoint meaning (s : scmd) (t : fdtab) (n : nat) : list launch * nat :=
  match s with
  | SExec args => (match args with [] => [] | _ => [(args, t)] end, n)
  | SRedir s op file => let k := default (0, 0) (redir_kind op) in meaning s (<[k.2 := OFile file k.1]> t) n
  | SPipe l r =>
      let a := meaning l (<[1 := OPipeW n]> t) (S n) in
      let b := meaning r (<[0 := OPipeR n]> t) a.2 in
      (a.1 ++ b.1, b.2)
  | SList l r =>
      let a := meaning l t n in
      let b := meaning r t a.2 in
      (a.1 ++ b.1, b.2)
  | SBack s => meaning s t n
  end.

(** The standard descriptors are open, and no others. *)
Definition std (t : fdtab) : Prop := forall fd, t !! fd <> None <-> 0 <= fd <= 2.

Definition started (w : sh_world) (r : list launch * nat) : sh_world := mkW (w_in w) r.2 (w_launched w ++ r.1) (w_text w) (w_stuck w).

(** *** Descriptors *)

Lemma free_fd_at (t : fdtab) k : 0 <= k < 16 -> t !! k = None -> (forall j, 0 <= j < k -> t !! j <> None) -> free_fd t = Some k.
Proof.
  intros Hk H Hj. unfold free_fd. replace 16 with (k + (16 - k)) by lia. rewrite seqZ_app by lia. rewrite filter_app.
  assert (E : forall l, Forall (fun j => 0 <= j < k) l -> filter (fun fd => t !! fd = None) l = []).
  { induction 1 as [|j l Hl _ IH]; [done|]. rewrite filter_cons_False by (by apply Hj). exact IH. }
  rewrite E by (apply Forall_forall; intros j Hl%elem_of_seqZ; lia). cbn [app]. rewrite seqZ_cons, filter_cons_True by (lia || by rewrite Z.add_0_l). by rewrite Z.add_0_l.
Qed.

Lemma std_in t fd : std t -> 0 <= fd <= 2 -> t !! fd <> None.
Proof. intros S. apply S. Qed.

Lemma std_out t fd : std t -> ~ 0 <= fd <= 2 -> t !! fd = None.
Proof. intros S H. destruct (t !! fd) eqn:E; [|done]. exfalso. apply H, S. by rewrite E. Qed.

Lemma std_insert t fd o : std t -> 0 <= fd <= 2 -> std (<[fd := o]> t).
Proof. intros S H fd'. destruct (decide (fd = fd')) as [<-|Hne]; [rewrite lookup_insert_eq; split; [done|done]|rewrite lookup_insert_ne by done; apply S]. Qed.

(** A descriptor that is closed is the next one to be taken. *)
Lemma free_closed t fd : std t -> 0 <= fd <= 2 -> free_fd (delete fd t) = Some fd.
Proof.
  intros S H. apply free_fd_at; [lia|apply lookup_delete_eq|]. intros j Hj. rewrite lookup_delete_ne by lia. apply (std_in t j S). lia.
Qed.

Lemma free_next t : std t -> free_fd t = Some 3.
Proof. intros S. apply free_fd_at; [lia|apply (std_out t 3 S); lia|]. intros j Hj. apply (std_in t j S). lia. Qed.

Section Pipe.
Context (t : fdtab) (n : nat) (S : std t).

Let t2 : fdtab := <[4 := OPipeW n]> (<[3 := OPipeR n]> t).

Lemma free_next2 : free_fd (<[3 := OPipeR n]> t) = Some 4.
Proof using S.
  apply free_fd_at; [lia|rewrite lookup_insert_ne by done; apply (std_out t 4 S); lia|]. intros j Hj. destruct (decide (j = 3)) as [->|]; [by rewrite lookup_insert_eq|].
  rewrite lookup_insert_ne by done. apply (std_in t j S). lia.
Qed.

(** What is left of a pipe after [close(fd); dup(p); close(p[0]); close(p[1]);] *)
Lemma pipe_end fd p o : 0 <= fd <= 2 -> (p = 3 /\ o = OPipeR n) \/ (p = 4 /\ o = OPipeW n) ->
  delete fd t2 !! p = Some o /\ free_fd (delete fd t2) = Some fd /\ delete 4 (delete 3 (<[fd := o]> (delete fd t2))) = <[fd := o]> t.
Proof using S.
  intros H Hp. pose proof (std_out t 3 S ltac:(lia)) as H3. pose proof (std_out t 4 S ltac:(lia)) as H4. unfold t2. split; [|split].
  - rewrite lookup_delete_ne by lia. destruct Hp as [[-> ->]|[-> ->]]; [by rewrite lookup_insert_ne, lookup_insert_eq|by rewrite lookup_insert_eq].
  - apply free_fd_at; [lia|apply lookup_delete_eq|]. intros j Hj. rewrite lookup_delete_ne, !lookup_insert_ne by lia. apply (std_in t j S). lia.
  - apply map_eq. intros j. destruct (decide (j = 4)) as [->|]; [rewrite lookup_delete_eq, lookup_insert_ne by lia; done|rewrite lookup_delete_ne by done].
    destruct (decide (j = 3)) as [->|]; [rewrite lookup_delete_eq, lookup_insert_ne by lia; done|rewrite lookup_delete_ne by done].
    destruct (decide (j = fd)) as [->|]; [by rewrite !lookup_insert_eq|]. by rewrite (lookup_insert_ne _ fd), lookup_delete_ne, !lookup_insert_ne by done.
Qed.

Lemma pipe_closed : delete 4 (delete 3 t2) = t.
Proof using S.
  pose proof (std_out t 3 S ltac:(lia)) as H3. pose proof (std_out t 4 S ltac:(lia)) as H4. unfold t2. apply map_eq. intros j.
  destruct (decide (j = 4)) as [->|]; [by rewrite lookup_delete_eq|rewrite lookup_delete_ne by done].
  destruct (decide (j = 3)) as [->|]; [by rewrite lookup_delete_eq|by rewrite lookup_delete_ne, !lookup_insert_ne by done].
Qed.
End Pipe.

(** *** Strings *)

Lemma cstrn_str n : forall m a l, str_at m a l -> (length l <= n)%nat -> cstrn n m a = l.
Proof.
  induction n as [|n IH]; intros m a l H Hl; [destruct l; [done|cbn in Hl; lia]|]. cbn [cstrn]. destruct l as [|c l]; cbn [str_at length] in *; [by rewrite H|].
  destruct H as (E & Hc & H). rewrite E. rewrite (proj2 (Z.eqb_neq _ _) Hc). f_equal. apply IH; [done|lia].
Qed.

Lemma argv_strings_ok m (ws : list (Z * Z)) args rest : Forall2 (fun w t => str_at m w.1 t) ws args -> Forall (fun w => w.1 <> 0) ws ->
  Forall (fun t => (length t <= Z.to_nat 4096)%nat) args -> argv_strings m (ws.*1 ++ 0 :: rest) = args.
Proof.
  induction 1 as [|w t ws args Hw H IH]; intros Hq Hl; [done|]. inversion Hq; subst. inversion Hl; subst. cbn [fmap list_fmap app argv_strings].
  rewrite (proj2 (Z.eqb_neq _ _)) by done. f_equal; [by apply cstrn_str|by apply IH].
Qed.

(** *** [runcmd] *)

Lemma print_arg args w : w ∈ args -> (length w <= length (print (SExec args)))%nat.
Proof.
  induction args as [|x args IH]; intros H; [by apply elem_of_nil in H|]. cbn. rewrite length_app. apply elem_of_cons in H as [->|H]; [lia|]. specialize (IH H). cbn in IH. lia.
Qed.

Lemma started_seq w a b n' : started (started w a) (b, n') = started w (a.1 ++ b, n').
Proof. unfold started. cbn. by rewrite app_assoc. Qed.

Lemma fork_run pid k t w : pid <> -1 -> run pid (fork1 k) t w = run pid (k pid) t (run pid (k 0) t w).
Proof. intros H. unfold fork1. cbn [run]. by rewrite (proj2 (Z.eqb_neq _ _) H). Qed.

Lemma run_runcmd pid st : 0 < pid -> forall s c a fuel, rep (sh_nodes st) a c -> reads (sh_mem st) c s -> valid s -> Forall (fun w => w.1 <> 0) (words c) ->
  (length (print s) <= Z.to_nat 4096)%nat -> (height c <= fuel)%nat ->
  forall t w, std t -> run pid (runcmd fuel st a) t w = started w (meaning s t (w_pipes w)).
Proof.
  intros Hpid. assert (Hp1 : pid <> -1) by lia. assert (Hp0 : (pid =? 0) = false) by (apply Z.eqb_neq; lia).
  assert (Hpar : forall t, (length t <= length (paren t))%nat) by (intros t; unfold paren; rewrite !length_app; lia).
  assert (Hnz : forall a n, node_at (sh_nodes st) a = Some n -> (a =? 0) = false) by (intros a n H; apply node_at_range in H; apply Z.eqb_neq; lia).
  induction s as [args|s IH op file|l IHl r IHr|l IHl r IHr|s IH]; intros c a fuel R Rd V Wd Hlen Hh t w St;
    (destruct c; cbn [reads] in Rd; try done); cbn [rep height words valid] in R, Hh, Wd, V; (destruct fuel as [|fuel]; [lia|]); cbn [runcmd meaning].
  - destruct R as (argv & eargv & r1 & r2 & Hn & -> & ->). rewrite (Hnz _ _ Hn), Hn. rewrite (argv_strings_ok _ _ args) by (done || (apply Forall_forall; intros x Hx; pose proof (print_arg _ _ Hx); lia)).
    destruct args as [|x args]; [|done]. cbn [run]. unfold started. cbn. rewrite app_nil_r. by destruct w.
  - destruct R as (b & Hn & R). rewrite (Hnz _ _ Hn), Hn. destruct Rd as (Rd & Hfile & Hk). rewrite Hk. destruct V as (V & Hw & _). apply Forall_app in Wd as [Wd _].
    assert (Hfd : 0 <= fd <= 2) by (unfold redir_kind in Hk; repeat (case_match; [injection Hk as <- <-; lia|]); done).
    cbn [run default fst snd]. rewrite free_closed by done. rewrite (proj2 (Z.ltb_ge _ _)) by lia. cbn [print] in Hlen. rewrite !length_app in Hlen. cbn [length] in Hlen. pose proof (Hpar (print s)).
    rewrite insert_delete_eq. unfold cstring. rewrite (cstrn_str (Z.to_nat 4096) _ _ file Hfile) by lia. apply (IH c b); [done|done|done|done|lia|lia|by apply std_insert].
  - destruct R as (b & d & Hn & R1 & R2). rewrite (Hnz _ _ Hn), Hn. destruct Rd as (Rd1 & Rd2). destruct V as (V1 & V2). apply Forall_app in Wd as [Wd1 Wd2]. cbn [print] in Hlen. rewrite !length_app in Hlen. pose proof (Hpar (print l)). pose proof (Hpar (print r)).
    cbn [run]. rewrite free_next, free_next2 by done. change (0 <? 0) with false. cbv iota. rewrite fork_run by done. cbn [Z.eqb run]. rewrite Hp0. rewrite fork_run by done. cbn [Z.eqb run]. rewrite Hp0. cbn [run].
    destruct (pipe_end t (w_pipes w) St 1 4 _ ltac:(lia) (or_intror (conj eq_refl eq_refl))) as (-> & -> & ->). destruct (pipe_end t (w_pipes w) St 0 3 _ ltac:(lia) (or_introl (conj eq_refl eq_refl))) as (-> & -> & ->).
    rewrite (IHl _ b) by (done || lia || by apply std_insert). rewrite (IHr _ d) by (done || lia || by apply std_insert). cbn [w_pipes started]. unfold started. cbn. by rewrite app_assoc.
  - destruct R as (b & d & Hn & R1 & R2). rewrite (Hnz _ _ Hn), Hn. destruct Rd as (Rd1 & Rd2). destruct V as (V1 & V2). apply Forall_app in Wd as [Wd1 Wd2]. cbn [print] in Hlen. rewrite !length_app in Hlen. pose proof (Hpar (print l)). pose proof (Hpar (print r)).
    rewrite fork_run by done. cbn [Z.eqb]. rewrite Hp0. cbn [run]. rewrite (IHl _ b) by (done || lia). rewrite (IHr _ d) by (done || lia). unfold started. cbn. by rewrite app_assoc.
  - destruct R as (b & Hn & R). rewrite (Hnz _ _ Hn), Hn. cbn [print] in Hlen. rewrite !length_app in Hlen. pose proof (Hpar (print s)). rewrite fork_run by done. cbn [Z.eqb]. rewrite Hp0. cbn [run]. apply (IH c b); (done || lia).
Qed.

(** ** The shell *)

(** The text of a list of commands, a line each. *)
Definition script (ss : list scmd) : list Z := concat ((fun s => print s ++ [10]) <$> ss).

Fixpoint meanings (ss : list scmd) (t : fdtab) (n : nat) : list launch * nat :=
  match ss with
  | [] => ([], n)
  | s :: ss =>
      let a := meaning s t n in
      let b := meanings ss t a.2 in
      (a.1 ++ b.1, b.2)
  end.

(** A command that fits into the buffer of [main]. *)
Definition line_fits (s : scmd) : Prop := valid s /\ (length (print s) <= 98)%nat.

(** The characters of a line. *)
Lemma print_chars s : valid s -> Forall (fun c => 0 < c < 256 /\ c <> 10 /\ c <> 13) (print s).
Proof.
  assert (Hword : forall w, word_ok w -> Forall (fun c => 0 < c < 256 /\ c <> 10 /\ c <> 13) w).
  { intros w [_ H]. eapply Forall_impl; [exact H|]. intros c (Hr & Hw & _). split; [done|]. split; intros ->; done. }
  assert (Hpar : forall t, Forall (fun c => 0 < c < 256 /\ c <> 10 /\ c <> 13) t -> Forall (fun c => 0 < c < 256 /\ c <> 10 /\ c <> 13) (paren t)).
  { intros t H. unfold paren. rewrite !Forall_app. split; [repeat constructor|split; [done|repeat constructor]]; lia. }
  induction s as [args|s IH op file|l IHl r IHr|l IHl r IHr|s IH]; intros V; cbn [valid print] in *.
  - destruct V as [V _]. induction V as [|w args Hw V IH]; [done|]. cbn. apply Forall_cons. split; [lia|]. apply Forall_app. split; [by apply Hword|done].
  - destruct V as (V & Hf & Hk). rewrite !Forall_app, Forall_cons. split; [by apply Hpar, IH|]. split; [|split; [lia|by apply Hword]].
    unfold redir_kind in Hk. unfold op_text. repeat case_match; try done; repeat constructor; lia.
  - destruct V as [V1 V2]. rewrite !Forall_app. split; [by apply Hpar, IHl|]. split; [repeat constructor; lia|by apply Hpar, IHr].
  - destruct V as [V1 V2]. rewrite !Forall_app. split; [by apply Hpar, IHl|]. split; [repeat constructor; lia|by apply Hpar, IHr].
  - rewrite !Forall_app. split; [by apply Hpar, IH|repeat constructor; lia].
Qed.

(** A printed command does not begin with [cd]. *)
Lemma print_head s : head (print s ++ [10]) = Some 10 \/ head (print s ++ [10]) = Some 32.
Proof. destruct s as [[|w args]| | | |]; cbn; tauto. Qed.

Lemma gets_run pid buf go t l : forall k m i w rest, Forall (fun c => 0 < c < 256 /\ c <> 10 /\ c <> 13) l -> (length l < k)%nat -> w_in w = l ++ 10 :: rest ->
  run pid (gets_p k m buf i go) t w = run pid (go (wr_bytes m (buf + i) (l ++ [10; 0]))) t (mkW rest (w_pipes w) (w_launched w) (w_text w) (w_stuck w)).
Proof.
  induction l as [|c l IH]; intros k m i w rest Hl Hk Hw; (destruct k as [|k]; [cbn in Hk; lia|]); cbn [gets_p run app] in *; rewrite Hw.
  - cbn [Z.eqb Pos.eqb orb wr_bytes]. by replace (buf + (i + 1)) with (buf + i + 1) by lia.
  - apply Forall_cons in Hl as [(H1 & H2 & H3) Hl]. rewrite (proj2 (Z.eqb_neq _ _) H2), (proj2 (Z.eqb_neq _ _) H3). cbn [orb]. rewrite (IH _ _ _ _ rest) by (done || cbn in Hk; lia).
    cbn [wr_bytes w_pipes w_launched w_text w_stuck]. by replace (buf + (i + 1)) with (buf + i + 1) by lia.
Qed.

Lemma str_at_line m a l : Forall (fun c => 0 < c < 256) l -> str_at (wr_bytes m a (l ++ [0])) a l.
Proof.
  intros H. assert (Hb : byte_list (l ++ [0])) by (apply Forall_app; split; [eapply Forall_impl; [exact H|]; cbn; lia|repeat constructor; lia]).
  pose proof (bytes_at_wr_same m a _ Hb) as E. rewrite length_app in E. cbn [length] in E. apply str_at_bytes; [eapply Forall_impl; [exact H|]; cbn; lia| |].
  - assert (E' : bytes_at (wr_bytes m a (l ++ [0])) a (length l) = take (length l) (bytes_at (wr_bytes m a (l ++ [0])) a (length l + 1))).
    { apply list_eq. intros i. destruct (decide (i < length l)%nat) as [Hi|Hi].
      - rewrite lookup_take_lt by done. rewrite !bytes_at_lookup by lia. done.
      - rewrite !lookup_ge_None_2; [done|rewrite length_take; lia|rewrite length_bytes_at; lia]. }
    rewrite E', E. apply take_app_length.
  - assert (Hz : (l ++ [0]) !! length l = Some 0) by (by apply list_lookup_middle). rewrite <- E in Hz. rewrite bytes_at_lookup in Hz by lia. by injection Hz.
Qed.

Section Shell.
Context (room pfuel : nat) (buf pid : Z).
Context (Hroom : (200 <= room)%nat) (Hpf : (405 <= pfuel)%nat) (Hbuf : 0 < buf) (Hpid : 0 < pid).

(** The child that runs a line. *)
Lemma child_run m s t w : line_fits s -> std t -> str_at m buf (print s ++ [10]) -> run pid (child room pfuel buf m) t w = started w (meaning s t (w_pipes w)).
Proof using All.
  intros [V Hl] St Hs. assert (Hlen : length (print s ++ [10]) = S (length (print s))) by (rewrite length_app; cbn; lia).
  destruct (parse_text s [10] V ltac:(by repeat constructor) room pfuel buf (mkSh m 0 []) Hs Hbuf ltac:(lia) ltac:(cbn [sh_nodes length]; lia)) as (c & root & st' & E & R & Rd & W & Hh).
  unfold child. rewrite E. apply (run_runcmd pid st' Hpid s c); [done|done|done|done|lia|lia|done].
Qed.

Lemma sh_loop_run t : std t -> forall ss fuel m w, Forall line_fits ss -> (length ss < fuel)%nat -> w_in w = script ss ->
  run pid (sh_loop room pfuel buf fuel m) t w =
  let r := meanings ss t (w_pipes w) in mkW [] r.2 (w_launched w ++ r.1) (w_text w ++ replicate (S (length ss)) (str "$ ")) (w_stuck w).
Proof using All.
  intros St. assert (Hp1 : pid <> -1) by lia. assert (Hp0 : (pid =? 0) = false) by (apply Z.eqb_neq; lia).
  induction ss as [|s ss IH]; intros fuel m w Hf Hfu Hin; (destruct fuel as [|fuel]; [lia|]); cbn [sh_loop]; unfold getcmd; cbn [run].
  - assert (Hk : exists k, Z.to_nat (100 - 1) = S k) by (by exists 98%nat). destruct Hk as (k & ->). cbn [gets_p run w_in]. rewrite Hin. cbn [script fmap list_fmap concat].
    rewrite Z.add_0_r, rd_wr_same. cbn. by rewrite app_nil_r.
  - apply Forall_cons in Hf as [Hs Hf]. cbn [script fmap list_fmap concat] in Hin. rewrite <- app_assoc in Hin. destruct Hs as [V Hl]. pose proof (print_chars s V) as Hch.
    rewrite (gets_run pid buf _ t (print s) _ _ _ _ (script ss)) by (done || lia). cbn [w_pipes w_launched w_text w_stuck]. rewrite Z.add_0_r.
    replace (print s ++ [10; 0]) with ((print s ++ [10]) ++ [0]) by (by rewrite <- app_assoc). set (m' := wr_bytes _ _ _).
    assert (Hstr : str_at m' buf (print s ++ [10])).
    { apply str_at_line. apply Forall_app. split; [eapply Forall_impl; [exact Hch|]; cbn; tauto|repeat constructor; lia]. }
    assert (Hhd : rd m' buf = 10 \/ rd m' buf = 32).
    { pose proof (print_head s) as Hh. destruct (print s ++ [10]) as [|c l']; [by destruct Hh|]. destruct Hstr as [E _]. rewrite E. destruct Hh as [[= ->]|[= ->]]; tauto. }
    rewrite (proj2 (Z.eqb_neq (rd m' buf) 0)) by lia. change (0 <? 0) with false. cbv iota. rewrite (proj2 (Z.eqb_neq (rd m' buf) 99)) by lia. cbn [andb]. rewrite fork_run by done.
    cbn [Z.eqb]. rewrite Hp0. cbn [run bool_decide]. rewrite (child_run m' s) by done. rewrite bool_decide_eq_true_2 by done. cbn [negb]. rewrite IH by (done || cbn in Hfu; lia).
    cbn [meanings started w_pipes w_launched w_text w_stuck fst snd length replicate]. f_equal; [by rewrite app_assoc|by rewrite <- app_assoc].
Qed.

End Shell.

(** The descriptors that [main] adds. *)
Definition console_file : obj := OFile (str "console") O_RDWR.
Definition consoles : fdtab := <[0 := console_file]> (<[1 := console_file]> (<[2 := console_file]> ∅)).

Lemma consoles_at fd : consoles !! fd = if decide (0 <= fd <= 2) then Some console_file else None.
Proof.
  unfold consoles. destruct (decide (fd = 0)) as [->|]; [done|]. rewrite lookup_insert_ne by done. destruct (decide (fd = 1)) as [->|]; [done|]. rewrite lookup_insert_ne by done.
  destruct (decide (fd = 2)) as [->|]; [done|]. rewrite lookup_insert_ne by done. rewrite decide_False by lia. apply lookup_empty.
Qed.

Lemma open_console_run pid k w : forall d fuel n (t : fdtab), n + Z.of_nat d = 3 -> 0 <= n -> (d < fuel)%nat -> (forall fd, t !! fd <> None <-> 0 <= fd < n) ->
  run pid (open_console fuel k) t w = run pid k (t ∪ consoles) w.
Proof.
  induction d as [|d IH]; intros fuel n t Hn H0 Hf Ht; (destruct fuel as [|fuel]; [lia|]); cbn [open_console run].
  all: assert (Hout : t !! n = None) by (destruct (t !! n) eqn:E; [|done]; exfalso; assert (0 <= n < n) by (apply Ht; by rewrite E); lia).
  all: rewrite (free_fd_at t n) by ((lia || done) || (intros j Hj; apply Ht; lia)); rewrite (proj2 (Z.leb_le 0 n)) by lia.
  - assert (n = 3) as -> by lia. change (3 <=? 3) with true. cbv iota. cbn [run]. rewrite delete_insert_id by done. f_equal. apply map_eq. intros fd. rewrite lookup_union, consoles_at.
    destruct (t !! fd) eqn:E; [by rewrite union_Some_l|]. rewrite decide_False; [done|]. intros H. assert (t !! fd <> None) by (apply Ht; lia). done.
  - rewrite (proj2 (Z.leb_gt 3 n)) by lia. rewrite (IH fuel (n + 1)); [|lia|lia|lia|].
    + f_equal. apply map_eq. intros fd. rewrite !lookup_union, consoles_at. destruct (decide (fd = n)) as [->|Hne]; [|by rewrite lookup_insert_ne by done].
      rewrite lookup_insert_eq, Hout, decide_True by lia. done.
    + intros fd. destruct (decide (fd = n)) as [->|Hne]; [rewrite lookup_insert_eq; split; [lia|done]|]. rewrite lookup_insert_ne by done. rewrite Ht. lia.
Qed.

Lemma std_consoles n (t : fdtab) : n <= 3 -> (forall fd, t !! fd <> None <-> 0 <= fd < n) -> std (t ∪ consoles).
Proof.
  intros Hn Ht fd. rewrite lookup_union, consoles_at. destruct (t !! fd) eqn:E.
  - split; [|by destruct (decide _)]. intros _. assert (0 <= fd < n) by (apply Ht; by rewrite E). lia.
  - destruct (decide (0 <= fd <= 2)); cbn; split; done || lia.
Qed.

(** ** The theorems *)

(** [runcmd] starts exactly the programs that its command means: every
    one with its own arguments, with its standard input and output connected to
    the files and pipes of the command, and with no other descriptor open; no
    end of a pipe is left behind in any program. *)
Theorem runcmd_spec pid st s c a fuel t w :
  0 < pid -> rep (sh_nodes st) a c -> reads (sh_mem st) c s -> valid s -> Forall (fun w => w.1 <> 0) (words c) ->
  (length (print s) <= Z.to_nat 4096)%nat -> (height c <= fuel)%nat -> std t ->
  run pid (runcmd fuel st a) t w = started w (meaning s t (w_pipes w)).
Proof. intros Hp R Rd V W Hl Hh St. by apply (run_runcmd pid st Hp s c). Qed.


(** ** Examples *)

(** [ls x | (wc >> out)] and [(cat < in) &] with two open descriptors. *)
Definition ex_script : list scmd :=
  [SPipe (SExec [str "ls"; str "x"]) (SRedir (SExec [str "wc"]) 43 (str "out")); SBack (SRedir (SExec [str "cat"]) 60 (str "in"))].
Definition ex_fds : fdtab := <[0 := ODev 1]> (<[1 := ODev 1]> ∅).

Lemma ex_script_fits : Forall line_fits ex_script.
Proof. repeat constructor; try discriminate; try lia; vm_compute; lia. Qed.

Lemma ex_fds_open fd : ex_fds !! fd <> None <-> 0 <= fd < 2.
Proof.
  unfold ex_fds. destruct (decide (fd = 0)) as [->|]; [split; [lia|done]|]. rewrite lookup_insert_ne by done. destruct (decide (fd = 1)) as [->|]; [split; [lia|done]|].
  rewrite lookup_insert_ne by done. rewrite lookup_empty. split; [done|lia].
Qed.


(** [a > f], parsed by hand. *)
Definition ex_run : shstate := mkSh (wr_bytes ∅ 8 (str "a" ++ [0] ++ str "f" ++ [0])) 0 [EXEC ([8] ++ replicate 9 0) ([9] ++ replicate 9 0); REDIR 1 10 11 1537 1].

Lemma ex_run_valid : valid (SRedir (SExec [str "a"]) 62 (str "f")).
Proof. cbn. repeat split; try discriminate; try lia; repeat constructor; try discriminate; lia. Qed.

Lemma runcmd_spec_witness : exists t, std t /\
  run 7 (runcmd 2 ex_run 2) t (mkW [] 0 [] [] false) = mkW [] 0 [([str "a"], <[1 := OFile (str "f") 1537]> t)] [] false.
Proof.
  exists (ex_fds ∪ consoles). assert (St : std (ex_fds ∪ consoles)) by (apply (std_consoles 2); [lia|exact ex_fds_open]). split; [exact St|].
  apply (runcmd_spec 7 ex_run (SRedir (SExec [str "a"]) 62 (str "f")) (Redir (Exec [(8, 9)]) 10 11 1537 1)); try exact ex_run_valid; try exact St; try lia.
  - exists 1. split; [reflexivity|]. exists ([8] ++ replicate 9 0), ([9] ++ replicate 9 0), (replicate 8 0), (replicate 8 0). repeat split.
  - cbn [reads]. split; [|split; [vm_compute; repeat split; discriminate|reflexivity]]. repeat constructor; vm_compute; try discriminate; reflexivity.
  - repeat constructor; discriminate.
  - vm_compute. lia.
  - cbn. lia.
Defined.
