(* ===== verification/Uprintf.v ===== *)
(** * user/printf.c: formatted output of user programs

    [vprintf] reads its format from the program's memory, a character at a
    time; [ap] holds the arguments as the registers do.  The buffer of
    [printint] has 16 places, and a store outside of it is a fault. *)

From S2P Require Import Prelude KString Bytes Uart Ulib.

(** ** The program *)

Definition udigits : list Z := str "0123456789ABCDEF".

Definition uputc (c : Z) : U unit := modify (fun s => set_u_out (u_out s ++ [u8 c]) s).

(** [buf[i] = c;] *)
Definition buf_put (buf : list Z) (i : nat) (c : Z) : option (list Z) := if (i <? 16)%nat then Some (<[i := c]> buf) else None.

(** [do{ buf[i++] = digits[x % base]; }while((x /= base) != 0);] *)
Fixpoint uprintint_loop (fuel : nat) (x base : Z) (buf : list Z) (i : nat) : option (list Z * nat) :=
  match fuel with
  | O => None
  | S fuel =>
      buf ← buf_put buf i (nth (Z.to_nat (x mod base)) udigits 0);
      if x / base =? 0 then Some (buf, S i) else uprintint_loop fuel (x / base) base buf (S i)
  end.

(** [while(--i >= 0) putc(fd, buf[i]);] *)
Fixpoint put_back (i : nat) (buf : list Z) : U unit :=
  match i with
  | O => ret tt
  | S i => uputc (nth i buf 0) ;;; put_back i buf
  end.

Definition uprintint (xx base : Z) (sgn : bool) : U unit :=
  let neg := sgn && (xx <? 0) in
  let x := if neg then u32 (- xx) else u32 xx in
  match uprintint_loop 17 x base (replicate 16 0) 0 with
  | None => fault "buf out of range"
  | Some (buf, i) =>
      if neg then
        match buf_put buf i 45 with
        | None => fault "buf out of range"
        | Some buf => put_back (S i) buf
        end
      else put_back i buf
  end.

Fixpoint uprintptr_loop (n : nat) (x : Z) : U unit :=
  match n with
  | O => ret tt
  | S n => uputc (nth (Z.to_nat (Z.shiftr x 60)) udigits 0) ;;; uprintptr_loop n (u64 (Z.shiftl x 4))
  end.

Definition uprintptr (x : Z) : U unit := uputc 48 ;;; uputc 120 ;;; uprintptr_loop 16 x.

(** [while( *s != 0){ putc(fd, *s); s++; }] *)
Fixpoint uputs (fuel : nat) (s : Z) : U unit :=
  match fuel with
  | O => nofuel
  | S fuel =>
      let! c := gets (fun st => rd (u_mem st) s) in
      if c =? 0 then ret tt else uputc c ;;; uputs fuel (s + 1)
  end.

Fixpoint uput_all (l : list Z) : U unit :=
  match l with
  | [] => ret tt
  | c :: l => uputc c ;;; uput_all l
  end.

(** The conversion [c] with the arguments [ap]; what is left of them. *)
Definition conv (fuel : nat) (c : Z) (ap : list Z) : U (list Z) :=
  let arg (f : Z -> U unit) := match ap with x :: ap => f x ;;; ret ap | [] => fault "va_arg" end in
  if c =? 100 then arg (fun x => uprintint (s32 x) 10 true)
  else if c =? 108 then arg (fun x => uprintint (s32 x) 10 false)
  else if c =? 120 then arg (fun x => uprintint (s32 x) 16 false)
  else if c =? 112 then arg (fun x => uprintptr (u64 x))
  else if c =? 115 then arg (fun x => if x =? 0 then uput_all (str "(null)") else uputs fuel x)
  else if c =? 99 then arg (fun x => uputc x)
  else if c =? 37 then uputc c ;;; ret ap
  else uputc 37 ;;; uputc c ;;; ret ap.

Fixpoint vprintf_loop (fuel : nat) (fmt i state : Z) (ap : list Z) : U unit :=
  match fuel with
  | O => nofuel
  | S fuel =>
      let! c := gets (fun st => rd (u_mem st) (fmt + i)) in
      if c =? 0 then ret tt
      else if state =? 0 then
        if c =? 37 then vprintf_loop fuel fmt (i + 1) 37 ap
        else uputc c ;;; vprintf_loop fuel fmt (i + 1) 0 ap
      else if state =? 37 then
        let! ap := conv fuel c ap in
        vprintf_loop fuel fmt (i + 1) 0 ap
      else vprintf_loop fuel fmt (i + 1) state ap
  end.

Definition vprintf (fuel : nat) (fmt : Z) (ap : list Z) : U unit := vprintf_loop fuel fmt 0 0 ap.

(** ** Numbers *)

(** The digits of [x], the most significant first. *)
Fixpoint show (n : nat) (base x : Z) : list Z :=
  match n with
  | O => []
  | S n => (if x <? base then [] else show n base (x / base)) ++ [nth (Z.to_nat (x mod base)) udigits 0]
  end.

Definition uvalue (base : Z) (l : list Z) : Z := foldl (fun n c => n * base + (if c <=? 57 then c - 48 else c - 55)) 0 l.

Definition show_int (base x : Z) : list Z := if x <? 0 then 45 :: show 16 base (- x) else show 16 base x.

Lemma udigit_value d : 0 <= d < 16 -> let c := nth (Z.to_nat d) udigits 0 in (if c <=? 57 then c - 48 else c - 55) = d /\ 48 <= c < 256.
Proof.
  intros Hd. assert (Hn : exists n, d = Z.of_nat n /\ (n < 16)%nat) by (exists (Z.to_nat d); lia). destruct Hn as (n & -> & Hn). rewrite Nat2Z.id.
  do 16 (destruct n as [|n]; [vm_compute; split; [reflexivity|split; [discriminate|reflexivity]]|]). lia.
Qed.

(** The digits read back as the number. *)
Lemma show_value base n : 2 <= base <= 16 -> forall x, 0 <= x < base ^ Z.of_nat n -> uvalue base (show n base x) = x.
Proof.
  intros Hb. induction n as [|n IH]; intros x Hx; [cbn in *; lia|]. cbn [show]. unfold uvalue. rewrite foldl_snoc. fold (uvalue base (if x <? base then [] else show n base (x / base))).
  pose proof (Z.mod_pos_bound x base ltac:(lia)) as Hm. destruct (udigit_value (x mod base) ltac:(lia)) as [-> _]. rewrite Nat2Z.inj_succ, Z.pow_succ_r in Hx by lia.
  pose proof (Z.div_mod x base ltac:(lia)). destruct (Z.ltb_spec x base) as [Hl|Hl]; [cbn; rewrite Z.mod_small by lia; lia|].
  rewrite IH; [lia|]. split; [apply Z.div_pos; lia|apply Z.div_lt_upper_bound; lia].
Qed.

Lemma show_chars base n x : 2 <= base <= 16 -> Forall (fun c => 48 <= c < 256) (show n base x).
Proof.
  intros Hb. revert x. induction n as [|n IH]; intros x; [constructor|]. cbn [show]. apply Forall_app. split; [destruct (x <? base); [constructor|apply IH]|].
  constructor; [|constructor]. apply udigit_value. pose proof (Z.mod_pos_bound x base ltac:(lia)). lia.
Qed.

Lemma show_length base n : 2 <= base -> forall x k, 0 <= x < base ^ Z.of_nat (S k) -> (length (show n base x) <= S k)%nat.
Proof.
  intros Hb. induction n as [|n IH]; intros x k Hx; cbn [show]; [cbn; lia|]. rewrite length_app. cbn [length]. destruct (Z.ltb_spec x base) as [Hl|Hl]; [cbn; lia|].
  destruct k as [|k]; [cbn in Hx; lia|]. rewrite Nat2Z.inj_succ, Z.pow_succ_r in Hx by lia.
  assert (0 <= x / base < base ^ Z.of_nat (S k)) by (split; [apply Z.div_pos; lia|apply Z.div_lt_upper_bound; lia]). specialize (IH (x / base) k ltac:(done)). lia.
Qed.

(** *** [printint] *)

Definition outputs (o : U unit) (l : list Z) : Prop := forall s, o s = Ok tt (set_u_out (u_out s ++ l) s).

Lemma outputs_seq o o' l l' : outputs o l -> outputs o' l' -> outputs (o ;;; o') (l ++ l').
Proof. intros H H' s. rewrite (bind_ok _ _ _ _ _ (H s)), H'. cbn. by rewrite app_assoc. Qed.

Lemma outputs_putc c : 0 <= c < 256 -> outputs (uputc c) [c].
Proof. intros Hc s. unfold uputc, modify. by rewrite u8_small. Qed.

Lemma outputs_nil : outputs (ret tt) [].
Proof. intros s. rewrite app_nil_r. by destruct s. Qed.

Lemma put_back_outputs buf i : Forall (fun c => 0 <= c < 256) buf -> (i <= length buf)%nat -> outputs (put_back i buf) (rev (take i buf)).
Proof.
  intros Hb. induction i as [|i IH]; intros Hi; cbn [put_back]; [apply outputs_nil|]. destruct (lookup_lt_is_Some_2 buf i ltac:(lia)) as (c & Hc).
  rewrite (take_S_r _ _ _ Hc), rev_app_distr. cbn [rev app]. apply (outputs_seq _ _ [c]); [|apply IH; lia]. rewrite (nth_lookup_Some _ _ _ _ Hc). apply outputs_putc.
  rewrite Forall_forall in Hb. apply Hb. by eapply list_elem_of_lookup_2.
Qed.

(** The digits are in the buffer, the least significant first. *)
Lemma uprintint_loop_show base : 2 <= base <= 16 -> forall n x k i fuel buf, 0 <= x < base ^ Z.of_nat (S k) -> (S k <= n)%nat -> (i + S k <= 16)%nat -> (n <= fuel)%nat -> length buf = 16%nat ->
  Forall (fun c => 0 <= c < 256) buf -> exists buf', uprintint_loop fuel x base buf i = Some (buf', i + length (show n base x))%nat /\
  take (i + length (show n base x)) buf' = take i buf ++ rev (show n base x) /\ length buf' = 16%nat /\ Forall (fun c => 0 <= c < 256) buf'.
Proof.
  intros Hb. induction n as [|n IH]; intros x k i fuel buf Hx Hk Hi Hf Hl Hc; [lia|]. destruct fuel as [|fuel]; [lia|]. cbn [uprintint_loop show]. unfold buf_put. rewrite (proj2 (Nat.ltb_lt i 16)) by lia. cbn [mbind option_bind].
  pose proof (Z.mod_pos_bound x base ltac:(lia)) as Hm. set (d := nth (Z.to_nat (x mod base)) udigits 0). assert (Hd : 0 <= d < 256) by (unfold d; destruct (udigit_value (x mod base) ltac:(lia)); lia).
  set (buf1 := <[i := d]> buf). assert (Hl1 : length buf1 = 16%nat) by (unfold buf1; by rewrite length_insert).
  assert (Hc1 : Forall (fun c => 0 <= c < 256) buf1) by (by apply Forall_insert).
  assert (Ht1 : take (S i) buf1 = take i buf ++ [d]) by (unfold buf1; rewrite (take_S_r _ _ d) by (apply list_lookup_insert_eq; lia); by rewrite take_insert_ge by lia).
  pose proof (Z.div_mod x base ltac:(lia)) as Hdm. destruct (Z.ltb_spec x base) as [Hlt|Hge].
  - rewrite Z.div_small by lia. cbn [Z.eqb]. exists buf1. cbn [length app rev]. replace (i + 1)%nat with (S i) by lia. done.
  - assert (Hq : 1 <= x / base) by (apply Z.div_le_lower_bound; lia). rewrite (proj2 (Z.eqb_neq _ _)) by lia. destruct k as [|k]; [cbn in Hx; lia|]. rewrite Nat2Z.inj_succ, Z.pow_succ_r in Hx by lia.
    assert (Hr : 0 <= x / base < base ^ Z.of_nat (S k)) by (split; [lia|apply Z.div_lt_upper_bound; lia]).
    destruct (IH (x / base) k (S i) fuel buf1 Hr ltac:(lia) ltac:(lia) ltac:(lia) Hl1 Hc1) as (buf' & E & Ht & Hl' & Hc'). exists buf'. rewrite length_app, rev_app_distr. cbn [length rev app].
    replace (i + (length (show n base (x / base)) + 1))%nat with (S i + length (show n base (x / base)))%nat by lia. split; [done|]. split; [|done]. rewrite Ht, Ht1, <- app_assoc. done.
Qed.

Lemma uprintint_outputs xx base sgn : base = 10 \/ base = 16 -> - 2 ^ 31 <= xx < 2 ^ 31 ->
  outputs (uprintint xx base sgn) (if sgn then show_int base xx else show 16 base (u32 xx)).
Proof.
  intros Hb Hx. assert (Hb' : 2 <= base <= 16) by lia. unfold uprintint, show_int. set (neg := sgn && (xx <? 0)). set (x := if neg then _ else _).
  assert (Hr : 0 <= x < base ^ Z.of_nat 10).
  { assert (0 <= x < 2 ^ 32) by (unfold x; destruct neg; apply u32_range). assert (10 ^ Z.of_nat 10 <= base ^ Z.of_nat 10) by (apply Z.pow_le_mono_l; lia). lia. }
  pose proof (show_length base 16 ltac:(lia) x 9 Hr) as Hlen. pose proof (show_chars base 16 x Hb') as Hch.
  destruct (uprintint_loop_show base Hb' 16 x 9 0 17 (replicate 16 0) Hr ltac:(lia) ltac:(lia) ltac:(lia) (length_replicate _ _) ltac:(apply Forall_replicate; lia)) as (buf & E & Ht & Hl & Hc).
  change (take 0 (replicate 16 0)) with (@nil Z) in Ht. cbn [Nat.add app] in E, Ht. rewrite E.
  assert (Hbytes : Forall (fun c => 0 <= c < 256) (rev (show 16 base x))) by (apply Forall_rev; eapply Forall_impl; [exact Hch|]; cbn; lia).
  destruct neg eqn:En.
  - apply andb_true_iff in En as [-> Hneg]. rewrite Hneg. apply Z.ltb_lt in Hneg. unfold buf_put. rewrite (proj2 (Nat.ltb_lt _ 16)) by lia.
    assert (Ex : x = - xx) by (unfold x; apply u32_small; lia). rewrite <- Ex. set (i := length (show 16 base x)) in *.
    replace (45 :: show 16 base x) with (rev (take (S i) (<[i := 45]> buf))); [apply put_back_outputs; [apply Forall_insert; [done|lia]|rewrite length_insert; lia]|].
    rewrite (take_S_r _ _ 45) by (apply list_lookup_insert_eq; lia). rewrite take_insert_ge by lia. rewrite Ht, rev_app_distr, rev_involutive. done.
  - replace (if sgn then _ else _) with (rev (take (length (show 16 base x)) buf)); [apply put_back_outputs; [done|lia]|]. rewrite Ht, rev_involutive.
    destruct sgn; [|done]. assert (Hp : (xx <? 0) = false) by exact En. rewrite Hp. apply Z.ltb_ge in Hp. unfold x. rewrite u32_small by lia. done.
Qed.

(** ** [vprintf] *)

(** A piece of a format, with its argument. *)
Inductive item : Type :=
  | ILit (c : Z)
  | IPct
  | IDec (x : Z)
  | IUns (x : Z)
  | IHex (x : Z)
  | IStr (p : Z) (t : list Z)
  | IChr (c : Z).

Definition item_fmt (it : item) : list Z :=
  match it with
  | ILit c => [c]
  | IPct => str "%%"
  | IDec _ => str "%d"
  | IUns _ => str "%l"
  | IHex _ => str "%x"
  | IStr _ _ => str "%s"
  | IChr _ => str "%c"
  end.

Definition item_args (it : item) : list Z :=
  match it with
  | ILit _ | IPct => []
  | IDec x | IUns x | IHex x | IStr x _ | IChr x => [x]
  end.

(** What it prints; [%l] takes a 64-bit number and prints 32 bits of it. *)
Definition item_out (it : item) : list Z :=
  match it with
  | ILit c | IChr c => [c]
  | IPct => [37]
  | IDec x => show_int 10 (s32 x)
  | IUns x => show 16 10 (u32 x)
  | IHex x => show 16 16 (u32 x)
  | IStr _ t => t
  end.

Definition item_ok (m : mem) (fuel : nat) (it : item) : Prop :=
  match it with
  | ILit c => 0 < c < 256 /\ c <> 37
  | IStr p t => p <> 0 /\ str_at m p t /\ (length t < fuel)%nat
  | IChr c => 0 <= c < 256
  | _ => True
  end.

Lemma uputs_out fuel : forall p t s, str_at (u_mem s) p t -> (length t < fuel)%nat -> uputs fuel p s = Ok tt (set_u_out (u_out s ++ t) s).
Proof.
  induction fuel as [|fuel IH]; intros p t s Hs Hl; [lia|]. cbn [uputs]. rewrite bind_gets. destruct t as [|c t]; cbn [str_at length] in *.
  - rewrite Hs. cbn [Z.eqb]. apply outputs_nil.
  - destruct Hs as (E & Hc & Hs). rewrite E, (proj2 (Z.eqb_neq _ _) Hc). pose proof (rd_range (u_mem s) p) as Hr. rewrite E in Hr. rewrite (bind_ok _ _ _ _ _ (outputs_putc c Hr s)).
    rewrite (IH _ t) by (done || lia). cbn. by rewrite <- app_assoc.
Qed.

Lemma s32_u32 x : u32 (s32 x) = u32 x.
Proof. unfold u32, s32. replace ((x + 2 ^ 31) mod 2 ^ 32 - 2 ^ 31) with ((x + 2 ^ 31) mod 2 ^ 32 + - 2 ^ 31) by lia. rewrite Zplus_mod_idemp_l. f_equal. lia. Qed.

(** A conversion prints its item and takes its argument. *)
Lemma conv_out fuel it ap s : item_ok (u_mem s) fuel it -> (forall c, it <> ILit c) ->
  exists c, item_fmt it = [37; c] /\ c <> 0 /\ conv fuel c (item_args it ++ ap) s = Ok ap (set_u_out (u_out s ++ item_out it) s).
Proof.
  intros Hok Hn. assert (Hseq : forall o l, outputs o l -> (o ;;; ret ap) s = Ok ap (set_u_out (u_out s ++ l) s)) by (intros o l H; by rewrite (bind_ok _ _ _ _ _ (H s))).
  destruct it as [c| |x|x|x|p t|c]; [by destruct (Hn c)|..]; (eexists; split; [reflexivity|]); (split; [done|]); cbn [item_args item_out app]; unfold conv; cbn [Z.eqb Pos.eqb Z.of_nat Ascii.nat_of_ascii].
  - apply (Hseq _ [37]), outputs_putc. lia.
  - apply (Hseq _ (show_int 10 (s32 x))), (uprintint_outputs _ 10 true); [by left|apply s32_range].
  - apply Hseq. rewrite <- s32_u32. apply (uprintint_outputs (s32 x) 10 false); [by left|apply s32_range].
  - apply Hseq. rewrite <- s32_u32. apply (uprintint_outputs (s32 x) 16 false); [by right|apply s32_range].
  - destruct Hok as (Hp & Hs & Hl). rewrite (proj2 (Z.eqb_neq _ _) Hp). etransitivity; [exact (bind_ok _ _ _ _ _ (uputs_out fuel p t s Hs Hl))|done].
  - apply Hseq, outputs_putc. done.
Qed.

Lemma item_cases it : (exists c, it = ILit c) \/ forall c, it <> ILit c.
Proof. destruct it; [left; by eexists|..]; by right. Qed.

Lemma conv_fuel it m fuel fuel' : (fuel <= fuel')%nat -> item_ok m fuel it -> item_ok m fuel' it.
Proof. destruct it; cbn; try done. intros Hf (H1 & H2 & H3). split_and!; [done|done|lia]. Qed.

Lemma vprintf_out fuel its : forall fuel' fmt i s, str_at (u_mem s) (fmt + i) (concat (item_fmt <$> its)) -> Forall (item_ok (u_mem s) fuel) its ->
  (fuel + 2 * length its < fuel')%nat ->
  vprintf_loop fuel' fmt i 0 (concat (item_args <$> its)) s = Ok tt (set_u_out (u_out s ++ concat (item_out <$> its)) s).
Proof.
  induction its as [|it its IH]; intros fuel' fmt i s Hs Hok Hf; (destruct fuel' as [|fuel']; [lia|]); cbn [fmap list_fmap concat length] in *.
  - cbn [str_at] in Hs. cbn [vprintf_loop]. rewrite bind_gets, Hs. cbn [Z.eqb]. apply outputs_nil.
  - apply Forall_cons in Hok as [H1 Hok]. destruct (item_cases it) as [(c & ->)|Hn].
    + cbn [item_fmt item_args item_out app str_at] in *. destruct Hs as (E & Hc & Hs). destruct H1 as [Hr H37]. cbn [vprintf_loop]. rewrite bind_gets, E, (proj2 (Z.eqb_neq _ _) Hc), (proj2 (Z.eqb_neq _ _) H37). cbn [Z.eqb].
      rewrite (bind_ok _ _ _ _ _ (outputs_putc c ltac:(lia) s)). rewrite (IH fuel' fmt (i + 1)) by (rewrite ?Z.add_assoc; done || lia). cbn. by rewrite <- app_assoc.
    + destruct fuel' as [|fuel']; [lia|].
      destruct (conv_out fuel' it (concat (item_args <$> its)) s) as (c & Ef & Hc & Ec); [apply (conv_fuel _ _ fuel); [lia|done]|done|].
      rewrite Ef in Hs. cbn [app str_at] in Hs. destruct Hs as (E & _ & E' & _ & Hs). cbn [vprintf_loop]. rewrite bind_gets, E. cbn [Z.eqb Pos.eqb vprintf_loop]. rewrite bind_gets.
      replace (fmt + (i + 1)) with (fmt + i + 1) by lia. rewrite E', (proj2 (Z.eqb_neq _ _) Hc). rewrite (bind_ok _ _ _ _ _ Ec).
      rewrite (IH fuel' fmt (i + 1 + 1)) by (cbn [u_mem set_u_out]; replace (fmt + (i + 1 + 1)) with (fmt + i + 1 + 1) by lia; done || lia). cbn. by rewrite <- app_assoc.
Qed.

(** ** The theorem *)

(** [C37] [printint] stays inside of its 16 bytes for every number and both
    bases, and prints the number: [INT_MIN] too, and without a sign the 32-bit
    pattern. *)
Theorem uprintint_bounds xx base sgn s :
  base = 10 \/ base = 16 -> - 2 ^ 31 <= xx < 2 ^ 31 ->
  exists l, uprintint xx base sgn s = Ok tt (set_u_out (u_out s ++ l) s) /\ (length l <= 11)%nat /\
    if sgn && (xx <? 0) then exists l', l = 45 :: l' /\ uvalue base l' = - xx else uvalue base l = (if sgn then xx else u32 xx).
Proof.
  intros Hb Hx. eexists. split; [by apply uprintint_outputs|]. assert (Hp : forall x, 0 <= x < 2 ^ 32 -> 0 <= x < base ^ Z.of_nat 10 /\ 0 <= x < base ^ Z.of_nat 16).
  { intros x Hr. assert (10 ^ Z.of_nat 10 <= base ^ Z.of_nat 10) by (apply Z.pow_le_mono_l; lia). assert (10 ^ Z.of_nat 16 <= base ^ Z.of_nat 16) by (apply Z.pow_le_mono_l; lia). lia. }
  assert (Hlen : forall x, 0 <= x < 2 ^ 32 -> (length (show 16 base x) <= 10)%nat) by (intros x Hr; apply show_length; [lia|by apply Hp]).
  assert (Hval : forall x, 0 <= x < 2 ^ 32 -> uvalue base (show 16 base x) = x) by (intros x Hr; apply show_value; [lia|by apply Hp]).
  unfold show_int. destruct sgn; cbn [andb]; [|pose proof (u32_range xx); split; [specialize (Hlen (u32 xx)); lia|by apply Hval]].
  destruct (Z.ltb_spec xx 0) as [H|H]; [split; [cbn [length]; specialize (Hlen (- xx)); lia|eexists; split; [done|apply Hval; lia]]|split; [specialize (Hlen xx); lia|apply Hval; lia]].
Qed.

Lemma uprintint_bounds_witness : exists l, uprintint (-2147483648) 10 true (mkU ∅ [] [] []) = Ok tt (mkU ∅ [] [] l) /\ l = str "-2147483648".
Proof.
  destruct (uprintint_bounds (-2147483648) 10 true (mkU ∅ [] [] []) ltac:(left; reflexivity) ltac:(lia)) as (l & E & _ & _).
  exists l. split; [exact E|]. vm_compute in E. injection E as <-. vm_compute. reflexivity.
Defined.
