(* ===== verification/Uprogs.v ===== *)
(** * user/wc.c, user/cat.c, user/echo.c: small programs

    They read a file in pieces, as many bytes at a time as [read] delivers,
    and print.  [exit] after an error is a panic. *)

From S2P Require Import Prelude KString Bytes Uart Ulib Grep SysFile Sh Uprintf.

(** ** wc *)

(** Blanks, for [strchr]. *)
Definition blanks : list Z := [32; 13; 9; 10; 11].

Record counts : Type := mkCounts {
  wc_l : Z;
  wc_w : Z;
  wc_c : Z;
  wc_inword : bool;
}.

(** One character. *)
Definition wc_char (x : Z) (k : counts) : counts :=
  let c := s32 (wc_c k + 1) in
  let l := if x =? 10 then s32 (wc_l k + 1) else wc_l k in
  if chr_in blanks x then mkCounts l (wc_w k) c false
  else if negb (wc_inword k) then mkCounts l (s32 (wc_w k + 1)) c true
  else mkCounts l (wc_w k) c (wc_inword k).

(** [for(i=0; i<n; i++)] with [n - i] = [k] *)
Fixpoint wc_scan (k : nat) (m : mem) (p : Z) (ct : counts) : counts :=
  match k with
  | O => ct
  | S k => wc_scan k m (p + 1) (wc_char (rd m p) ct)
  end.

Fixpoint wc_loop (fuel : nat) (buf : Z) (ct : counts) : U (Z * counts) :=
  match fuel with
  | O => nofuel
  | S fuel =>
      let! n := read buf 512 in
      if 0 <? n then
        let! m := gets u_mem in
        wc_loop fuel buf (wc_scan (Z.to_nat n) m buf ct)
      else ret (n, ct)
  end.

(** [fmt] and [efmt] are the addresses of the two formats. *)
Definition wc (fuel : nat) (buf fmt efmt name : Z) : U unit :=
  let! r := wc_loop fuel buf (mkCounts 0 0 0 false) in
  let (n, ct) := (r : Z * counts) in
  if n <? 0 then vprintf fuel efmt [] ;;; panic "exit"
  else vprintf fuel fmt [wc_l ct; wc_w ct; wc_c ct; name].

(** ** cat *)

Fixpoint cat_loop (fuel : nat) (buf : Z) : U Z :=
  match fuel with
  | O => nofuel
  | S fuel =>
      let! n := read buf 512 in
      if 0 <? n then
        let! k := write buf n in
        if negb (k =? n) then panic "cat: write error" else cat_loop fuel buf
      else ret n
  end.

Definition cat (fuel : nat) (buf : Z) : U unit :=
  let! n := cat_loop fuel buf in
  if n <? 0 then panic "cat: read error" else ret tt.

(** ** echo *)

(** [write(1, argv[i], strlen(argv[i]))] *)
Definition write_str (fuel : nat) (p : Z) : U unit :=
  let! m := gets u_mem in
  match ustrlen fuel m p with
  | None => nofuel
  | Some n => write p n ;;; ret tt
  end.

(** The loop of [main], from [argv[i]] on; [sp] and [nl] are the addresses of
    the two constants. *)
Fixpoint echo_loop (fuel : nat) (argv : list Z) (sp nl : Z) : U unit :=
  match argv with
  | [] => ret tt
  | p :: argv =>
      write_str fuel p ;;;
      (match argv with [] => write nl 1 | _ => write sp 1 end) ;;;
      echo_loop fuel argv sp nl
  end.

Definition echo (fuel : nat) (argv : list Z) (sp nl : Z) : U unit := echo_loop fuel (tail argv) sp nl.

(** ** What they count *)

(** A text cut at the blanks. *)
Fixpoint fields (l : list Z) : list (list Z) :=
  match l with
  | [] => [[]]
  | c :: l =>
      if chr_in blanks c then [] :: fields l
      else match fields l with [] => [[c]] | w :: ws => (c :: w) :: ws end
  end.

Definition words_in (l : list Z) : list (list Z) := filter (fun w => w <> []) (fields l).
Definition lines_in (l : list Z) : list Z := filter (fun c => c = 10) l.

(** Words that begin in [l], when [b] says that we are in one. *)
Fixpoint begins (b : bool) (l : list Z) : nat :=
  match l with
  | [] => 0
  | c :: l => if chr_in blanks c then begins false l else if b then begins true l else S (begins true l)
  end.

Lemma begins_fields l : begins false l = length (words_in l) /\
  exists w ws, fields l = w :: ws /\ (begins true l + (if decide (w = []) then 0 else 1))%nat = length (words_in l).
Proof.
  unfold words_in. induction l as [|c l (IH1 & w & ws & E & IH2)]; [split; [done|exists [], []; done]|]. cbn [begins fields]. destruct (chr_in blanks c).
  - rewrite filter_cons_False by (by intros H). split; [done|]. exists [], (fields l). split; [done|]. cbn [decide]. rewrite decide_True by done. lia.
  - rewrite E in *. rewrite (filter_cons_True _ (c :: w)) by done. assert (Hl : length (filter (fun w => w <> []) (w :: ws)) = ((if decide (w = []) then 0 else 1) + length (filter (fun w => w <> []) ws))%nat).
    { destruct (decide (w = [])) as [->|Hw]; [by rewrite filter_cons_False by (by intros H)|by rewrite filter_cons_True]. }
    cbn [length]. split; [lia|]. exists (c :: w), ws. split; [done|]. rewrite decide_False by done. lia.
Qed.

(** The counts of a text. *)
Definition in_word (b : bool) (l : list Z) : bool := foldl (fun b c => negb (chr_in blanks c)) b l.

Definition counted (l : list Z) : counts := mkCounts (Z.of_nat (length (lines_in l))) (Z.of_nat (begins false l)) (Z.of_nat (length l)) (in_word false l).

Lemma begins_snoc l x : forall b, begins b (l ++ [x]) = (begins b l + (if chr_in blanks x || in_word b l then 0 else 1))%nat.
Proof.
  induction l as [|c l IH]; intros b; cbn [app begins].
  - unfold in_word. cbn [begins foldl Nat.add]. destruct (chr_in blanks x), b; done.
  - assert (Ei : forall b', in_word b' (c :: l) = in_word (negb (chr_in blanks c)) l) by done. rewrite Ei. destruct (chr_in blanks c); [apply IH|]. destruct b; rewrite IH; done.
Qed.

Lemma begins_le l : forall b, (begins b l <= length l)%nat.
Proof. induction l as [|c l IH]; intros b; cbn [begins length]; [lia|]. pose proof (IH true). pose proof (IH false). destruct (chr_in blanks c), b; lia. Qed.

Lemma wc_char_counted l x : Z.of_nat (length l) + 1 < 2 ^ 31 -> wc_char x (counted l) = counted (l ++ [x]).
Proof.
  intros Hl. pose proof (begins_le l false). assert (Hli : (length (lines_in l) <= length l)%nat) by apply length_filter. unfold counted, wc_char. cbn [wc_l wc_w wc_c wc_inword].
  unfold in_word. rewrite foldl_snoc. fold (in_word false l). rewrite length_app. cbn [length]. rewrite !s32_small by lia.
  assert (El : (if x =? 10 then Z.of_nat (length (lines_in l)) + 1 else Z.of_nat (length (lines_in l))) = Z.of_nat (length (lines_in (l ++ [x])))).
  { unfold lines_in. rewrite filter_app, length_app. destruct (Z.eqb_spec x 10) as [->|Hx]; [rewrite filter_cons_True by done|rewrite filter_cons_False by done]; cbn [length filter list_filter]; lia. }
  rewrite El. rewrite begins_snoc. destruct (chr_in blanks x) eqn:E; cbn [orb negb]; [f_equal; lia|]. destruct (in_word false l) eqn:E'; cbn [negb]; f_equal; lia.
Qed.

Lemma wc_scan_counted k : forall m p l, Z.of_nat (length l) + Z.of_nat k < 2 ^ 31 -> wc_scan k m p (counted l) = counted (l ++ bytes_at m p k).
Proof.
  induction k as [|k IH]; intros m p l Hl; cbn [wc_scan bytes_at]; [by rewrite app_nil_r|]. rewrite wc_char_counted by lia. rewrite IH by (rewrite length_app; cbn; lia). by rewrite <- app_assoc.
Qed.

(** What a piece of the input leaves in the buffer. *)
Lemma read_bytes dst n s : 0 < n -> byte_list (u_in s) -> Forall (fun k => k <> O) (u_plan s) ->
  exists k s', read dst n s = Ok (Z.of_nat k) s' /\ (k <= length (u_in s))%nat /\ (u_in s <> [] -> k <> O) /\ u_in s' = drop k (u_in s) /\ u_out s' = u_out s /\
    Forall (fun k => k <> O) (u_plan s') /\ bytes_at (u_mem s') dst k = take k (u_in s) /\
    (forall x, ~ dst <= x < dst + n -> rd (u_mem s') x = rd (u_mem s) x).
Proof.
  intros Hn Hb Hpl. destruct (read_some dst n s Hn Hpl) as (k & s' & E & Hkn & Hk & Hne & Ei & Em & Eo & Hp). exists k, s'. split_and!; try done.
  - pose proof (bytes_at_wr_same (u_mem s) dst (take k (u_in s)) ltac:(by apply Forall_take)) as H. rewrite length_take_le in H by lia. by rewrite Em.
  - intros x Hx. rewrite Em, rd_wr_bytes. destruct (take k (u_in s) !! _) as [v|] eqn:Ev; [|done]. apply lookup_lt_Some in Ev. rewrite length_take in Ev. rewrite decide_False by lia. done.
Qed.

Lemma wc_loop_counted buf fuel : forall l s, byte_list (u_in s) -> Forall (fun k => k <> O) (u_plan s) -> (length (u_in s) < fuel)%nat ->
  Z.of_nat (length l) + Z.of_nat (length (u_in s)) < 2 ^ 31 ->
  exists s', wc_loop fuel buf (counted l) s = Ok (0, counted (l ++ u_in s)) s' /\ u_out s' = u_out s /\ forall x, ~ buf <= x < buf + 512 -> rd (u_mem s') x = rd (u_mem s) x.
Proof.
  induction fuel as [|fuel IH]; intros l s Hb Hpl Hf Hl; [lia|]. cbn [wc_loop].
  destruct (read_bytes buf 512 s ltac:(lia) Hb Hpl) as (k & s1 & E & Hk & Hne & Ei & Eo & Hpl1 & Hby & Hfr). rewrite (bind_ok _ _ _ _ _ E).
  destruct k as [|k].
  - destruct (u_in s) as [|c i] eqn:Eu; [|by destruct (Hne ltac:(done))]. cbn. rewrite app_nil_r. by exists s1.
  - rewrite (proj2 (Z.ltb_lt _ _)) by lia. rewrite bind_gets, Nat2Z.id. rewrite wc_scan_counted by lia. rewrite Hby.
    destruct (IH (l ++ take (S k) (u_in s)) s1) as (s' & E' & Eo' & Hfr'); [rewrite Ei; by apply Forall_drop|done|rewrite Ei, length_drop; lia|rewrite Ei, length_app, length_take, length_drop; lia|].
    exists s'. rewrite E', Ei, <- app_assoc, take_drop. split; [done|]. split; [congruence|]. intros x Hx. by rewrite Hfr', Hfr.
Qed.

(** *** cat and echo *)

Lemma cat_loop_out buf fuel : forall s, byte_list (u_in s) -> Forall (fun k => k <> O) (u_plan s) -> (length (u_in s) < fuel)%nat ->
  exists s', cat_loop fuel buf s = Ok 0 s' /\ u_out s' = u_out s ++ u_in s /\ u_in s' = [].
Proof.
  induction fuel as [|fuel IH]; intros s Hb Hpl Hf; [lia|]. cbn [cat_loop].
  destruct (read_bytes buf 512 s ltac:(lia) Hb Hpl) as (k & s1 & E & Hk & Hne & Ei & Eo & Hpl1 & Hby & _). rewrite (bind_ok _ _ _ _ _ E). destruct k as [|k].
  - destruct (u_in s) as [|c i] eqn:Eu; [|by destruct (Hne ltac:(done))]. exists s1. rewrite Eo, Ei, app_nil_r. done.
  - rewrite (proj2 (Z.ltb_lt _ _)) by lia. unfold write. rewrite bind_assoc, bind_modify, bind_ret, Z.eqb_refl. cbn [negb]. rewrite Nat2Z.id, Hby, Eo. set (s2 := set_u_out _ s1).
    destruct (IH s2) as (s' & E' & Eo' & Ei'); [change (u_in s2) with (u_in s1); rewrite Ei; by apply Forall_drop|done|change (u_in s2) with (u_in s1); rewrite Ei, length_drop; lia|].
    exists s'. split; [done|]. split; [|done]. rewrite Eo'. change (u_in s2) with (u_in s1). rewrite Ei. cbn. by rewrite <- app_assoc, take_drop.
Qed.

Lemma write_str_out fuel p l s : str_at (u_mem s) p l -> (length l < fuel)%nat -> write_str fuel p s = Ok tt (set_u_out (u_out s ++ l) s).
Proof.
  intros Hs Hl. unfold write_str. rewrite bind_gets, (ustrlen_spec _ _ _ _ Hs Hl). unfold write. rewrite bind_assoc, bind_modify, bind_ret, Nat2Z.id. assert (E : bytes_at (u_mem s) p (length l) = l).
  { clear - Hs. revert p Hs. induction l as [|c l IH]; intros p H; [done|]. destruct H as (H1 & _ & H2). cbn. f_equal; [done|by apply IH]. }
  by rewrite E.
Qed.

Lemma write_one p s : write p 1 s = Ok 1 (set_u_out (u_out s ++ [rd (u_mem s) p]) s).
Proof. unfold write. rewrite bind_modify. change (Z.to_nat 1) with 1%nat. unfold bytes_at. cbn. by rewrite ?Z.add_0_r. Qed.

(** The arguments with blanks between them and a newline behind. *)
Fixpoint echoed (args : list (list Z)) : list Z :=
  match args with
  | [] => []
  | [a] => a ++ [10]
  | a :: args => a ++ [32] ++ echoed args
  end.

Lemma echo_loop_out fuel sp nl argv args : Forall (fun a => (length a < fuel)%nat) args -> forall s, rd (u_mem s) sp = 32 -> rd (u_mem s) nl = 10 ->
  Forall2 (str_at (u_mem s)) argv args -> echo_loop fuel argv sp nl s = Ok tt (set_u_out (u_out s ++ echoed args) s).
Proof.
  intros Hl. revert argv. induction Hl as [|a args Ha Hl IH]; intros argv s Hsp Hnl H; inversion H as [|p ? argv' ? Hp H']; subst; cbn [echo_loop]; [apply outputs_nil|].
  rewrite (bind_ok _ _ _ _ _ (write_str_out fuel p a s Hp Ha)). destruct argv' as [|p' argv'].
  - inversion H'; subst. rewrite (bind_ok _ _ _ _ _ (write_one _ _)). cbn. rewrite Hnl. by rewrite <- app_assoc.
  - rewrite (bind_ok _ _ _ _ _ (write_one _ _)), IH by done. inversion H'; subst. cbn [u_mem u_out set_u_out echoed]. rewrite Hsp. by rewrite <- !app_assoc.
Qed.

(** ** The theorems *)

(** [wc] prints the numbers of lines, words and characters of its input,
    in decimal, whatever pieces [read] delivers it in: words are what is left
    of the text when it is cut at the blanks. *)
Theorem wc_spec fuel buf fmt efmt name nm s :
  byte_list (u_in s) -> Forall (fun k => k <> O) (u_plan s) -> Z.of_nat (length (u_in s)) < 2 ^ 31 ->
  (length (u_in s) + length nm + 20 < fuel)%nat ->
  (fmt + 13 < buf \/ buf + 512 <= fmt) -> (name + Z.of_nat (length nm) < buf \/ buf + 512 <= name) -> name <> 0 ->
  str_at (u_mem s) fmt (str "%d %d %d %s" ++ [10]) -> str_at (u_mem s) name nm ->
  exists s', wc fuel buf fmt efmt name s = Ok tt s' /\
    u_out s' = u_out s ++ show_int 10 (Z.of_nat (length (lines_in (u_in s)))) ++ [32] ++ show_int 10 (Z.of_nat (length (words_in (u_in s)))) ++ [32] ++
      show_int 10 (Z.of_nat (length (u_in s))) ++ [32] ++ nm ++ [10].
Proof.
  intros Hb Hpl Hl Hf Df Dn Hn Hfmt Hnm. destruct (wc_loop_counted buf fuel [] s Hb Hpl ltac:(lia) ltac:(cbn; lia)) as (s1 & E & Eo & Hfr).
  unfold wc. change (mkCounts 0 0 0 false) with (counted []). rewrite (bind_ok _ _ _ _ _ E). cbn [Z.ltb Z.compare app].
  assert (Hfmt1 : str_at (u_mem s1) fmt (str "%d %d %d %s" ++ [10])) by (eapply str_at_agree; [|exact Hfmt]; intros x Hx; apply Hfr; cbn in Hx; lia).
  assert (Hnm1 : str_at (u_mem s1) name nm) by (eapply str_at_agree; [|exact Hnm]; intros x Hx; apply Hfr; lia).
  set (i := u_in s) in *. assert (Hle : (length (lines_in i) <= length i)%nat) by apply length_filter. pose proof (begins_le i false) as Hw. rewrite (proj1 (begins_fields i)) in Hw.
  set (its := [IDec (Z.of_nat (length (lines_in i))); ILit 32; IDec (Z.of_nat (length (words_in i))); ILit 32; IDec (Z.of_nat (length i)); ILit 32; IStr name nm; ILit 10]).
  pose proof (vprintf_out (S (length nm)) its fuel fmt 0 s1) as V. rewrite Z.add_0_r in V. specialize (V Hfmt1).
  assert (Hok : Forall (item_ok (u_mem s1) (S (length nm))) its) by (unfold its; repeat constructor; try lia; done).
  specialize (V Hok ltac:(cbn; lia)). unfold counted. cbn [wc_l wc_w wc_c]. rewrite (proj1 (begins_fields i)). eexists. split; [exact V|].
  cbn [u_out set_u_out]. rewrite Eo. unfold its. cbn [fmap list_fmap concat item_out]. rewrite !s32_small by lia. by rewrite app_nil_r.
Qed.

(** [cat] writes out what it reads, whatever pieces it comes in. *)
Theorem cat_spec fuel buf s : byte_list (u_in s) -> Forall (fun k => k <> O) (u_plan s) -> (length (u_in s) < fuel)%nat ->
  exists s', cat fuel buf s = Ok tt s' /\ u_out s' = u_out s ++ u_in s /\ u_in s' = [].
Proof. intros Hb Hp Hf. destruct (cat_loop_out buf fuel s Hb Hp Hf) as (s' & E & H). exists s'. unfold cat. by rewrite (bind_ok _ _ _ _ _ E). Qed.

(** [echo] writes its arguments with blanks between them and ends the line. *)
Theorem echo_spec fuel sp nl arg0 argv args s : Forall (fun a => (length a < fuel)%nat) args -> rd (u_mem s) sp = 32 -> rd (u_mem s) nl = 10 ->
  Forall2 (str_at (u_mem s)) argv args -> echo fuel (arg0 :: argv) sp nl s = Ok tt (set_u_out (u_out s ++ echoed args) s).
Proof. intros. by apply echo_loop_out. Qed.

(** "a b" and a line of "c", read a byte at a time at first. *)
Definition wc_start : ustate := mkU (wr_bytes (wr_bytes ∅ 1000 (str "%d %d %d %s" ++ [10; 0])) 1020 [102; 0]) [97; 32; 98; 10; 99; 10] [1; 1; 1]%nat [].

Lemma wc_spec_witness : exists s', wc 40 2000 1000 1016 1020 wc_start = Ok tt s' /\ u_out s' = str "2 3 6 f" ++ [10].
Proof.
  destruct (wc_spec 40 2000 1000 1016 1020 [102] wc_start) as (s' & E & Eo);
    [repeat constructor; lia|repeat constructor; lia|cbn; lia|cbn; lia|lia|cbn; lia|lia|vm_compute; split_and!; done|vm_compute; done|].
  exists s'. split; [exact E|]. rewrite Eo. vm_compute. reflexivity.
Defined.
