(* ===== verification/Bigarray.v ===== *)
(** * user/bigarray.c: an array summed by four children

    The parent and its children run the same [main]; what tells them apart is
    the result [r] of [forkn].  The results of [forkn] and [waitall], with
    what they store, are arguments.  The result of [main] is the status and
    the message it passes to [exit]. *)

From S2P Require Import Prelude KString Bytes Uart Ulib Uprintf.

(** ** The program *)

(** A [long]. *)
Definition s64 (x : Z) : Z := (x + 2 ^ 63) mod 2 ^ 64 - 2 ^ 63.

Definition NUM_CHILDREN : Z := 4.

(** The addresses of the format strings. *)
Record formats : Type := mkFormats {
  f_fork : Z;
  f_pid : Z;
  f_wait : Z;
  f_expected : Z;
  f_status : Z;
  f_sum : Z;
}.

(** [for (int i = 0; i < arrsize; i++) arr[i] = i;] *)
Fixpoint fill (fuel : nat) (i arrsize : Z) (arr : list Z) : option (list Z) :=
  match fuel with
  | O => None
  | S fuel => if i <? arrsize then fill fuel (s32 (i + 1)) arrsize (<[Z.to_nat i := i]> arr) else Some arr
  end.

(** [for (int i = start; i < end; i++) partialSum += arr[i];] *)
Fixpoint sum_loop (fuel : nat) (arr : list Z) (i end_ partialSum : Z) : option Z :=
  match fuel with
  | O => None
  | S fuel =>
      if i <? end_ then sum_loop fuel arr (s32 (i + 1)) end_ (s64 (partialSum + nth (Z.to_nat i) arr 0))
      else Some partialSum
  end.

(** The child with number [r]. *)
Definition child_main (fuel : nat) (arr : list Z) (arrsize r : Z) : U (Z * string) :=
  let idx := s32 (r - 1) in
  let start := s32 (idx * (arrsize `quot` NUM_CHILDREN)) in
  let end_ := s32 (start + arrsize `quot` NUM_CHILDREN) in
  match sum_loop fuel arr start end_ 0 with
  | None => nofuel
  | Some partialSum => ret (s32 partialSum, EmptyString)
  end.

(** The two loops of the parent, with [k] rounds to go. *)
Fixpoint pid_loop (k fuel : nat) (fs : formats) (i : nat) (pids : list Z) : U unit :=
  match k with
  | O => ret tt
  | S k => vprintf fuel (f_pid fs) [Z.of_nat i + 1; nth i pids 0] ;;; pid_loop k fuel fs (S i) pids
  end.

Fixpoint status_loop (k fuel : nat) (fs : formats) (i : nat) (statuses : list Z) (finalSum : Z) : U Z :=
  match k with
  | O => ret finalSum
  | S k =>
      vprintf fuel (f_status fs) [Z.of_nat i + 1; nth i statuses 0] ;;;
      status_loop k fuel fs (S i) statuses (s64 (finalSum + nth i statuses 0))
  end.

(** The parent; [w] is the result of [waitall], which has stored
    [totalChildren] and [statuses]. *)
Definition parent_main (fuel : nat) (fs : formats) (pids : list Z) (w totalChildren : Z) (statuses : list Z) : U (Z * string) :=
  pid_loop (Z.to_nat NUM_CHILDREN) fuel fs 0 pids ;;;
  if w <? 0 then vprintf fuel (f_wait fs) [] ;;; ret (1, EmptyString)
  else if negb (totalChildren =? NUM_CHILDREN) then vprintf fuel (f_expected fs) [NUM_CHILDREN; totalChildren] ;;; ret (1, EmptyString)
  else
    let! finalSum := status_loop (Z.to_nat NUM_CHILDREN) fuel fs 0 statuses 0 in
    vprintf fuel (f_sum fs) [finalSum] ;;;
    ret (0, "Done with bigarray"%string).

Definition bigarray (fuel : nat) (fs : formats) (arr : list Z) (r : Z) (pids : list Z) (w totalChildren : Z) (statuses : list Z) : U (Z * string) :=
  let arrsize := Z.shiftl 1 16 in
  match fill fuel 0 arrsize arr with
  | None => nofuel
  | Some arr =>
      if r =? -1 then vprintf fuel (f_fork fs) [] ;;; ret (1, EmptyString)
      else if 0 <? r then child_main fuel arr arrsize r
      else parent_main fuel fs pids w totalChildren statuses
  end.

(** ** Sums *)

Lemma s64_small x : - 2 ^ 63 <= x < 2 ^ 63 -> s64 x = x.
Proof. intros H. unfold s64. rewrite Z.mod_small; lia. Qed.

Fixpoint zsum (l : list Z) : Z :=
  match l with
  | [] => 0
  | x :: l => x + zsum l
  end.

#[export] Instance zsum_perm : Proper ((≡ₚ) ==> (=)) zsum.
Proof. intros l l' H. induction H; cbn [zsum]; lia. Qed.

Lemma zsum_app l l' : zsum (l ++ l') = zsum l + zsum l'.
Proof. induction l as [|x l IH]; cbn; [done|]. rewrite IH. lia. Qed.

Lemma zsum_seqZ k : forall a, 2 * zsum (seqZ a (Z.of_nat k)) = Z.of_nat k * (2 * a + Z.of_nat k - 1).
Proof.
  induction k as [|k IH]; intros a; [done|]. rewrite seqZ_cons by lia. cbn [zsum].
  replace (Z.pred (Z.of_nat (S k))) with (Z.of_nat k) by lia. specialize (IH (Z.succ a)). nia.
Qed.

Lemma zsum_range a n : 0 <= n -> 2 * zsum (seqZ a n) = n * (2 * a + n - 1).
Proof. intros Hn. rewrite <- (Z2Nat.id n) by done. apply zsum_seqZ. Qed.

(** ** The loops *)

Lemma fill_ok N k : forall fuel i arr, N < 2 ^ 31 -> N - i = Z.of_nat k -> 0 <= i -> Z.of_nat (length arr) = N -> (k < fuel)%nat ->
  take (Z.to_nat i) arr = seqZ 0 i -> fill fuel i N arr = Some (seqZ 0 N).
Proof.
  induction k as [|k IH]; intros fuel i arr HN Hk Hi Hl Hf Ht; (destruct fuel as [|fuel]; [lia|]); cbn [fill].
  - rewrite (proj2 (Z.ltb_ge _ _)) by lia. f_equal. rewrite take_ge in Ht by lia. by replace N with i by lia.
  - rewrite (proj2 (Z.ltb_lt _ _)), s32_small by lia. apply IH; [lia|lia|lia|by rewrite length_insert|lia|].
    replace (Z.to_nat (i + 1)) with (S (Z.to_nat i)) by lia. rewrite (take_S_r _ _ i) by (rewrite list_lookup_insert_eq; [done|lia]).
    rewrite take_insert_ge by lia. rewrite Ht, seqZ_app by lia. done.
Qed.

Lemma sum_loop_ok N k : forall fuel i e acc, N < 2 ^ 31 -> e - i = Z.of_nat k -> 0 <= i -> e <= N -> (k < fuel)%nat -> 0 <= acc -> acc + Z.of_nat k * N < 2 ^ 63 ->
  sum_loop fuel (seqZ 0 N) i e acc = Some (acc + zsum (seqZ i (Z.of_nat k))).
Proof.
  induction k as [|k IH]; intros fuel i e acc HN Hk Hi He Hf Ha Hb; (destruct fuel as [|fuel]; [lia|]); cbn [sum_loop].
  - rewrite (proj2 (Z.ltb_ge _ _)) by lia. change (seqZ i (Z.of_nat 0)) with (@nil Z). cbn [zsum]. by rewrite Z.add_0_r.
  - rewrite (proj2 (Z.ltb_lt _ _)), s32_small by lia. rewrite (nth_lookup_Some _ _ _ i) by (apply lookup_seqZ; lia).
    rewrite s64_small by nia. rewrite IH by nia. f_equal. rewrite (seqZ_cons i) by lia. cbn [zsum]. replace (Z.pred (Z.of_nat (S k))) with (Z.of_nat k) by lia.
    replace (Z.succ i) with (i + 1) by lia. lia.
Qed.

(** What the child with number [r] has to add up, when each has [q] elements. *)
Definition part (q r : Z) : Z := zsum (seqZ ((r - 1) * q) q).

Lemma part_double q r : 0 <= q -> 2 * part q r = q * (2 * ((r - 1) * q) + q - 1).
Proof. apply zsum_range. Qed.

Lemma part_value r : part 16384 r = (r - 1) * 268435456 + 134209536.
Proof. pose proof (part_double 16384 r ltac:(lia)). lia. Qed.

Lemma child_ok N q fuel r s : N < 2 ^ 31 -> 0 <= q -> N `quot` NUM_CHILDREN = q -> 4 * q <= N -> 1 <= r <= 4 -> q < Z.of_nat fuel -> part q r < 2 ^ 31 ->
  child_main fuel (seqZ 0 N) N r s = Ok (part q r, EmptyString) s.
Proof.
  intros HN Hq E Hq4 Hr Hf Hz. unfold child_main. rewrite E. rewrite (s32_small (r - 1)), (s32_small ((r - 1) * q)), (s32_small ((r - 1) * q + q)) by nia.
  rewrite (sum_loop_ok N (Z.to_nat q)) by nia. rewrite Z2Nat.id, Z.add_0_l by lia. fold (part q r). pose proof (part_double q r Hq). rewrite s32_small by nia. reflexivity.
Qed.

#[local] Opaque part.

(** ** What the parent prints *)

Definition lits (t : string) : list item := ILit <$> str t.

Definition line (its : list item) : list Z := concat (item_out <$> its).

Definition pid_items (i : nat) (pid : Z) : list item := lits "Child #" ++ [IDec (Z.of_nat i + 1)] ++ lits " has pid=" ++ [IDec pid; ILit 10].
Definition status_items (i : nat) (st : Z) : list item := lits "Child " ++ [IDec (Z.of_nat i + 1)] ++ lits " exit status = " ++ [IDec st; ILit 10].
Definition sum_items (x : Z) : list item := lits "All children done. Final sum = " ++ [IDec x; ILit 10].

Lemma printf_line fuel fmt its args s : str_at (u_mem s) fmt (concat (item_fmt <$> its)) -> Forall (item_ok (u_mem s) 0) its -> (2 * length its < fuel)%nat ->
  args = concat (item_args <$> its) -> vprintf fuel fmt args s = Ok tt (set_u_out (u_out s ++ line its) s).
Proof. intros Hs Hok Hf ->. apply (vprintf_out 0); [by rewrite Z.add_0_r|done|lia]. Qed.

Ltac items_ok := repeat constructor; try lia; done.

Definition has_formats (m : mem) (fs : formats) : Prop :=
  str_at m (f_pid fs) (str "Child #%d has pid=%d" ++ [10]) /\ str_at m (f_status fs) (str "Child %d exit status = %d" ++ [10]) /\
  str_at m (f_sum fs) (str "All children done. Final sum = %d" ++ [10]).

Lemma pid_loop_out fuel fs pids k : forall i s, has_formats (u_mem s) fs -> (100 < fuel)%nat ->
  pid_loop k fuel fs i pids s = Ok tt (set_u_out (u_out s ++ concat ((fun i => line (pid_items i (nth i pids 0))) <$> seq i k)) s).
Proof.
  induction k as [|k IH]; intros i s Hfs Hf; cbn [pid_loop]; [apply outputs_nil|].
  rewrite (bind_ok _ _ _ _ _ (printf_line fuel (f_pid fs) (pid_items i (nth i pids 0)) _ s (proj1 Hfs) ltac:(items_ok) ltac:(cbn; lia) eq_refl)).
  rewrite IH by done. cbn [seq fmap list_fmap concat u_out set_u_out]. by rewrite <- app_assoc.
Qed.

Lemma status_loop_out fuel fs sts k : forall i acc s, has_formats (u_mem s) fs -> (100 < fuel)%nat ->
  status_loop k fuel fs i sts acc s =
    Ok (foldl (fun acc i => s64 (acc + nth i sts 0)) acc (seq i k)) (set_u_out (u_out s ++ concat ((fun i => line (status_items i (nth i sts 0))) <$> seq i k)) s).
Proof.
  induction k as [|k IH]; intros i acc s Hfs Hf; cbn [status_loop]; [destruct s; cbn; by rewrite app_nil_r|].
  rewrite (bind_ok _ _ _ _ _ (printf_line fuel (f_status fs) (status_items i (nth i sts 0)) _ s (proj1 (proj2 Hfs)) ltac:(items_ok) ltac:(cbn; lia) eq_refl)).
  rewrite IH by done. cbn [seq fmap list_fmap concat foldl u_out set_u_out]. by rewrite <- app_assoc.
Qed.

(** The statuses of the four children, in any order. *)
Lemma four_sum sts l : take 4 sts ≡ₚ l -> length l = 4%nat -> Forall (fun x => 0 <= x < 2 ^ 31) l -> foldl (fun acc i => s64 (acc + nth i sts 0)) 0 (seq 0 4) = zsum l.
Proof.
  intros H Hl Hr. rewrite <- H in Hl, Hr. rewrite <- (zsum_perm _ _ H). destruct sts as [|a [|b [|c [|d sts]]]]; try done. cbn [take] in *.
  rewrite !Forall_cons in Hr. destruct Hr as (Ha & Hb & Hc & Hd & _). cbn [seq foldl nth zsum].
  rewrite (s64_small (0 + a)), (s64_small (0 + a + b)), (s64_small (0 + a + b + c)), s64_small by lia. rewrite ?take_0. cbn [zsum]. lia.
Qed.

Lemma whole_sum : zsum (seqZ 0 65536) = 2147450880.
Proof. pose proof (zsum_range 0 65536 ltac:(lia)). lia. Qed.

Lemma parts : part 16384 <$> [1; 2; 3; 4] = [134209536; 402644992; 671080448; 939515904].
Proof. rewrite (list_fmap_ext (part 16384) (fun r => (r - 1) * 268435456 + 134209536)); [reflexivity|]. intros ? r _. apply part_value. Qed.

Lemma final_sum sts : take 4 sts ≡ₚ part 16384 <$> [1; 2; 3; 4] -> foldl (fun acc i => s64 (acc + nth i sts 0)) 0 (seq 0 4) = zsum (seqZ 0 65536).
Proof. rewrite parts, whole_sum. intros H. rewrite (four_sum _ _ H eq_refl) by (repeat constructor; lia). reflexivity. Qed.

Lemma child_part fuel r s : 1 <= r <= 4 -> 65536 < Z.of_nat fuel -> child_main fuel (seqZ 0 65536) 65536 r s = Ok (part 16384 r, EmptyString) s.
Proof.
  intros Hr Hf. assert (Hb : part 16384 r < 2 ^ 31) by (rewrite part_value; lia). assert (Hq : 16384 < Z.of_nat fuel) by lia. clear Hf.
  exact (child_ok 65536 16384 fuel r s eq_refl ltac:(done) eq_refl ltac:(done) Hr Hq Hb).
Qed.

Lemma sum_line x : line (sum_items x) = str "All children done. Final sum = " ++ show_int 10 (s32 x) ++ [10].
Proof. unfold line, sum_items. by rewrite fmap_app, concat_app. Qed.

Lemma parent_ok fuel fs pids sts x s : foldl (fun acc i => s64 (acc + nth i sts 0)) 0 (seq 0 4) = x -> - 2 ^ 31 <= x < 2 ^ 31 -> has_formats (u_mem s) fs -> (100 < fuel)%nat ->
  parent_main fuel fs pids 0 4 sts s = Ok (0, "Done with bigarray"%string) (set_u_out
    (u_out s ++ concat ((fun i => line (pid_items i (nth i pids 0))) <$> [0; 1; 2; 3]%nat) ++
      concat ((fun i => line (status_items i (nth i sts 0))) <$> [0; 1; 2; 3]%nat) ++
      str "All children done. Final sum = " ++ show_int 10 x ++ [10]) s).
Proof.
  change [0; 1; 2; 3]%nat with (seq 0 4). intros Hx Hr Hfs Hf. unfold parent_main. change (Z.to_nat NUM_CHILDREN) with 4%nat. rewrite (bind_ok _ _ _ _ _ (pid_loop_out fuel fs pids 4 0 s Hfs Hf)).
  cbn [Z.ltb Z.compare]. change (negb (4 =? NUM_CHILDREN)) with false. cbv iota. set (s1 := set_u_out _ s). assert (Hfs1 : has_formats (u_mem s1) fs) by done.
  rewrite (bind_ok _ _ _ _ _ (status_loop_out fuel fs sts 4 0 0 s1 Hfs1 Hf)), Hx. set (s2 := set_u_out _ s1). assert (Hfs2 : has_formats (u_mem s2) fs) by done.
  rewrite (bind_ok _ _ _ _ _ (printf_line fuel (f_sum fs) (sum_items x) _ s2 (proj2 (proj2 Hfs2)) ltac:(items_ok) ltac:(cbn; lia) eq_refl)).
  subst s1 s2. unfold ret. rewrite sum_line, s32_small by done. cbn [u_out u_mem u_in u_plan set_u_out]. by rewrite <- !app_assoc.
Qed.

(** ** The theorem *)

(** [C38] Every child exits with the sum of its quarter of the array, which fits
    in the [int] that [exit] takes; and the parent, whatever the order in
    which [waitall] hands it the statuses, prints the sum of the whole array,
    which [%d] does not cut off. *)
Theorem bigarray_sum fuel fs arr pids s :
  Z.of_nat (length arr) = 65536 -> 65536 < Z.of_nat fuel -> has_formats (u_mem s) fs ->
  (forall r w total sts, 1 <= r <= 4 -> bigarray fuel fs arr r pids w total sts s = Ok (part 16384 r, EmptyString) s) /\
  (forall sts, take 4 sts ≡ₚ part 16384 <$> [1; 2; 3; 4] ->
    bigarray fuel fs arr 0 pids 0 4 sts s = Ok (0, "Done with bigarray"%string) (set_u_out
      (u_out s ++ concat ((fun i => line (pid_items i (nth i pids 0))) <$> [0; 1; 2; 3]%nat) ++
        concat ((fun i => line (status_items i (nth i sts 0))) <$> [0; 1; 2; 3]%nat) ++
        str "All children done. Final sum = " ++ show_int 10 (zsum (seqZ 0 65536)) ++ [10]) s)).
Proof.
  intros Hl Hf Hfs. assert (Hfill : fill fuel 0 65536 arr = Some (seqZ 0 65536)) by (apply (fill_ok 65536 (Z.to_nat 65536)); try lia; done).
  split.
  - intros r w total sts Hr. unfold bigarray. change (Z.shiftl 1 16) with 65536. rewrite Hfill, (proj2 (Z.eqb_neq _ _)), (proj2 (Z.ltb_lt _ _)) by lia. by apply child_part.
  - intros sts H. unfold bigarray. change (Z.shiftl 1 16) with 65536. rewrite Hfill. cbn [Z.eqb Z.ltb Z.compare]. pose proof (final_sum sts H) as Hs. rewrite whole_sum in *.
    apply parent_ok; [exact Hs|lia|done|lia].
Qed.

Definition ba_formats : formats := mkFormats 1000 1100 1200 1300 1400 1500.

Definition ba_mem : mem :=
  wr_bytes (wr_bytes (wr_bytes ∅ 1100 (str "Child #%d has pid=%d" ++ [10; 0])) 1400 (str "Child %d exit status = %d" ++ [10; 0]))
    1500 (str "All children done. Final sum = %d" ++ [10; 0]).

(** The children end in the order 3, 1, 4, 2. *)
Lemma bigarray_sum_witness : exists s, bigarray (Z.to_nat 65537) ba_formats (replicate (Z.to_nat 65536) 0) 0 [5; 6; 7; 8] 0 4 (part 16384 <$> [3; 1; 4; 2]) (mkU ba_mem [] [] []) = Ok (0, "Done with bigarray"%string) s.
Proof.
  eexists. apply (bigarray_sum (Z.to_nat 65537) ba_formats (replicate (Z.to_nat 65536) 0) [5; 6; 7; 8] (mkU ba_mem [] [] [])).
  - rewrite length_replicate. lia.
  - lia.
  - vm_compute. split_and!; done.
  - rewrite take_ge by (cbn; lia). apply fmap_Permutation. solve_Permutation.
Defined.
