(* ===== verification/Init.v ===== *)
(** * user/init.c: the first program

    [init] does not end, so it is a machine: a point of the program, the
    system call it makes there and where it goes with the answer.  The kernel
    around it has the children of [init]: those it forked, and orphans, which
    come at any time. *)

From S2P Require Import Prelude.

(** ** The program *)

Inductive point : Type :=
| AtOpen | AtMknod | AtOpen2 | AtDup1 | AtDup2
| AtStarting
| AtFork
| AtForkFailed
| InChild
| AtWait (pid : Z)
| AtWaitFailed
| AtExit.

Inductive call : Type :=
| COpen (name : string) | CMknod (name : string) | CDup (fd : Z) | CPrint (text : string) | CFork | CExec (name : string) | CWait | CExit (status : Z).

Definition init_call (p : point) : call :=
  match p with
  | AtOpen | AtOpen2 => COpen "console"
  | AtMknod => CMknod "console"
  | AtDup1 | AtDup2 => CDup 0
  | AtStarting => CPrint "init: starting sh"
  | AtFork => CFork
  | AtForkFailed => CPrint "init: fork failed"
  | InChild => CExec "sh"
  | AtWait _ => CWait
  | AtWaitFailed => CPrint "init: wait returned an error"
  | AtExit => CExit 1
  end.

(** Where the answer [r] of the call leads; in the child, [exec] came back with an error. *)
Definition init_next (p : point) (r : Z) : point :=
  match p with
  | AtOpen => if r <? 0 then AtMknod else AtDup1
  | AtMknod => AtOpen2
  | AtOpen2 => AtDup1
  | AtDup1 => AtDup2
  | AtDup2 => AtStarting
  | AtStarting => AtFork
  | AtFork => if r <? 0 then AtForkFailed else if r =? 0 then InChild else AtWait r
  | AtForkFailed => AtExit
  | InChild => AtExit
  | AtWait pid => if r =? pid then AtStarting else if r <? 0 then AtWaitFailed else AtWait pid
  | AtWaitFailed => AtExit
  | AtExit => AtExit
  end.

(** ** The kernel around it *)

(** The console device may be there; open files; the children that run and
    those that have exited; the shells that have been started. *)
Record iworld : Type := mkWorld {
  i_point : point;
  i_console : bool;
  i_fds : list string;
  i_children : gset Z;
  i_zombies : gset Z;
  i_started : list Z;
}.

Definition moves (r : Z) (w : iworld) : iworld := mkWorld (init_next (i_point w) r) (i_console w) (i_fds w) (i_children w) (i_zombies w) (i_started w).

Inductive istep : iworld -> iworld -> Prop :=
| i_open w : i_point w = AtOpen \/ i_point w = AtOpen2 -> i_console w = true ->
    istep w (mkWorld (init_next (i_point w) (Z.of_nat (length (i_fds w)))) true (i_fds w ++ ["console"%string]) (i_children w) (i_zombies w) (i_started w))
| i_open_fails w : i_point w = AtOpen \/ i_point w = AtOpen2 -> i_console w = false -> istep w (moves (-1) w)
| i_mknod w : i_point w = AtMknod -> istep w (mkWorld (init_next (i_point w) 0) true (i_fds w) (i_children w) (i_zombies w) (i_started w))
| i_dup w f fs : i_point w = AtDup1 \/ i_point w = AtDup2 -> i_fds w = f :: fs ->
    istep w (mkWorld (init_next (i_point w) (Z.of_nat (length (i_fds w)))) (i_console w) (i_fds w ++ [f]) (i_children w) (i_zombies w) (i_started w))
| i_print w text : init_call (i_point w) = CPrint text -> istep w (moves 0 w)
| i_fork w pid : i_point w = AtFork -> 0 < pid -> pid ∉ i_children w -> pid ∉ i_zombies w ->
    istep w (mkWorld (init_next (i_point w) pid) (i_console w) (i_fds w) ({[pid]} ∪ i_children w) (i_zombies w) (i_started w ++ [pid]))
| i_fork_fails w : i_point w = AtFork -> istep w (moves (-1) w)
| i_wait w shell pid : i_point w = AtWait shell -> pid ∈ i_zombies w ->
    istep w (mkWorld (init_next (i_point w) pid) (i_console w) (i_fds w) (i_children w) (i_zombies w ∖ {[pid]}) (i_started w))
| i_wait_fails w shell : i_point w = AtWait shell -> i_children w = ∅ -> i_zombies w = ∅ -> istep w (moves (-1) w)
| i_exits w pid : pid ∈ i_children w ->
    istep w (mkWorld (i_point w) (i_console w) (i_fds w) (i_children w ∖ {[pid]}) ({[pid]} ∪ i_zombies w) (i_started w))
| i_orphan w pid : 0 < pid -> pid ∉ i_children w -> pid ∉ i_zombies w ->
    istep w (mkWorld (i_point w) (i_console w) (i_fds w) ({[pid]} ∪ i_children w) (i_zombies w) (i_started w)).

Definition booted (console : bool) : iworld := mkWorld AtOpen console [] ∅ ∅ [].

(** ** The invariant *)

(** The shell [init] waits for is there, or has exited and waits for it. *)
Definition shell_there (w : iworld) : Prop :=
  match i_point w with
  | AtWait pid => 0 < pid /\ (pid ∈ i_children w \/ pid ∈ i_zombies w) /\ last (i_started w) = Some pid
  | _ => True
  end.

Definition files_so_far (w : iworld) : Prop :=
  match i_point w with
  | AtOpen => i_fds w = []
  | AtMknod => i_fds w = []
  | AtOpen2 => i_fds w = [] /\ i_console w = true
  | AtDup1 => i_fds w = ["console"%string]
  | AtDup2 => i_fds w = ["console"; "console"]%string
  | _ => i_fds w = ["console"; "console"; "console"]%string
  end.

Definition init_inv (w : iworld) : Prop :=
  files_so_far w /\ shell_there w /\ (forall pid, pid ∈ i_children w \/ pid ∈ i_zombies w -> 0 < pid) /\ i_point w <> AtWaitFailed /\ i_point w <> InChild.

Lemma init_inv_start console : init_inv (booted console).
Proof. split_and!; try done. cbn. set_solver. Qed.

(** The children come and go while [init] does nothing. *)
Lemma children_inv w cs zs : init_inv w -> (forall pid, pid ∈ i_children w \/ pid ∈ i_zombies w -> pid ∈ cs \/ pid ∈ zs) -> (forall pid, pid ∈ cs \/ pid ∈ zs -> 0 < pid) ->
  init_inv (mkWorld (i_point w) (i_console w) (i_fds w) cs zs (i_started w)).
Proof.
  intros (H1 & H2 & _ & H4 & H5) Hk Hp. split_and!; try done. unfold shell_there in *. cbn in *. destruct (i_point w); try done. destruct H2 as (P1 & P2 & P3). auto.
Qed.

Lemma init_inv_step w w' : init_inv w -> istep w w' -> init_inv w'.
Proof.
  intros (H1 & H2 & H3 & H4 & H5) S. pose proof (conj H1 (conj H2 (conj H3 (conj H4 H5))) : init_inv w) as I.
  destruct S as [w [Hp|Hp] Hc|w [Hp|Hp] Hc|w Hp|w f fs [Hp|Hp] Hf|w text Hp|w pid Hp Hpos Hn1 Hn2|w Hp|w sh pid Hp Hz|w sh Hp Hc Hz|w pid Hin|w pid Hpos Hn1 Hn2].
  - unfold init_inv, files_so_far, shell_there in *. rewrite Hp in *. cbn in *. rewrite H1. done.
  - unfold init_inv, files_so_far, shell_there in *. rewrite Hp in *. cbn in *. destruct H1 as [-> _]. done.
  - unfold init_inv, moves, files_so_far, shell_there in *. rewrite Hp in *. cbn in *. done.
  - unfold files_so_far in H1. rewrite Hp in H1. destruct H1 as [_ H1]. congruence.
  - unfold init_inv, files_so_far, shell_there in *. rewrite Hp in *. cbn in *. done.
  - unfold init_inv, files_so_far, shell_there in *. rewrite Hp in *. cbn in *. rewrite H1 in *. injection Hf as <- <-. done.
  - unfold init_inv, files_so_far, shell_there in *. rewrite Hp in *. cbn in *. rewrite H1 in *. injection Hf as <- <-. done.
  - unfold init_inv, moves, files_so_far, shell_there in *. destruct (i_point w); try discriminate Hp; cbn in *; done.
  - unfold init_inv, files_so_far, shell_there in *. rewrite Hp in *. cbn [init_next i_point i_fds i_children i_zombies i_started] in *. rewrite (proj2 (Z.ltb_ge _ _)), (proj2 (Z.eqb_neq _ _)) by lia.
    split_and!; try done; [left; set_solver|apply last_snoc|]. intros q Hq. destruct (decide (q = pid)) as [->|]; [done|apply H3; set_solver].
  - unfold init_inv, moves, files_so_far, shell_there in *. rewrite Hp in *. cbn in *. done.
  - unfold init_inv, files_so_far, shell_there in *. rewrite Hp in *. cbn [init_next i_point i_fds i_children i_zombies i_started] in *. assert (0 < pid) by (apply H3; by right).
    destruct (Z.eqb_spec pid sh) as [->|Hne]; [split_and!; try done; set_solver|]. rewrite (proj2 (Z.ltb_ge _ _)) by lia. destruct H2 as (P1 & P2 & P3). split_and!; try done; set_solver.
  - unfold shell_there in H2. rewrite Hp in H2. destruct H2 as (_ & P2 & _). set_solver.
  - apply children_inv; [done|intros q [Hq|Hq]; destruct (decide (q = pid)); set_solver|intros q Hq; apply H3; set_solver].
  - apply children_inv; [done|set_solver|]. intros q Hq. destruct (decide (q = pid)) as [->|]; [done|apply H3; set_solver].
Qed.

Lemma init_inv_reach console w : rtc istep (booted console) w -> init_inv w.
Proof. intros H. remember (booted console) as w0 eqn:E. assert (I : init_inv w0) by (rewrite E; apply init_inv_start). clear E. induction H as [|w0 w1 w2 S _ IH]; [done|]. by eapply IH, init_inv_step. Qed.

(** A call of [wait] that returns a child. *)
Definition waits (w w' : iworld) : Prop := exists shell pid, i_point w = AtWait shell /\ pid ∈ i_zombies w /\
  w' = mkWorld (init_next (i_point w) pid) (i_console w) (i_fds w) (i_children w) (i_zombies w ∖ {[pid]}) (i_started w).

Lemma waits_end pid n : forall w w', i_point w = AtWait pid -> pid ∈ i_zombies w -> (forall q, q ∈ i_zombies w -> 0 < q) -> nsteps waits n w w' ->
  i_point w' = AtStarting \/ (i_point w' = AtWait pid /\ pid ∈ i_zombies w' /\ (n + size (i_zombies w') <= size (i_zombies w))%nat).
Proof.
  induction n as [|n IH]; intros w w' Hp Hz Hpos H; inversion H as [|? ? w1 ? S H']; subst; [by right|]. destruct S as (sh & q & Hp' & Hq & ->). rewrite Hp in Hp'. injection Hp' as <-.
  set (w1 := mkWorld _ _ _ _ _ _) in *. destruct (decide (q = pid)) as [->|Hne].
  - assert (E1 : i_point w1 = AtStarting) by (cbn; rewrite Hp; cbn; by rewrite Z.eqb_refl). left. inversion H' as [|? ? w2 ? (sh & r & Hc & _) _]; subst; [done|congruence].
  - assert (E1 : i_point w1 = AtWait pid). { cbn. rewrite Hp. cbn. rewrite (proj2 (Z.eqb_neq _ _) Hne). specialize (Hpos q Hq). by rewrite (proj2 (Z.ltb_ge _ _)) by lia. }
    destruct (IH w1 w') as [E|(E & Hin & Hs)]; [done|cbn; set_solver|cbn; set_solver|done|by left|]. right. split; [done|]. split; [done|].
    cbn in Hs. rewrite size_difference in Hs by set_solver. rewrite size_singleton in Hs. assert (size (i_zombies w) <> 0%nat) by (apply size_non_empty_iff; set_solver). lia.
Qed.


(** ** Witness *)

(** No console device at boot; the shell is process 2, and an orphan exits with it. *)
Lemma init_example : exists w, rtc istep (booted false) w /\ i_point w = AtWait 2 /\ i_zombies w = {[2]} ∪ ({[7]} ∪ ∅).
Proof.
  set (c := "console"%string). set (k7 := {[7]} ∪ ({[2]} ∪ ∅) : gset Z). set (k2 := k7 ∖ {[7]} : gset Z).
  assert (H7 : 7 ∈ k7 /\ 2 ∈ k2) by (unfold k2, k7; set_solver). exists (mkWorld (AtWait 2) true [c; c; c] (k2 ∖ {[2]}) ({[2]} ∪ ({[7]} ∪ ∅)) [2]). split; [|done].
  apply (rtc_l _ _ (mkWorld AtMknod false [] ∅ ∅ [])); [exact (i_open_fails (booted false) (or_introl eq_refl) eq_refl)|].
  apply (rtc_l _ _ (mkWorld AtOpen2 true [] ∅ ∅ [])); [exact (i_mknod (mkWorld AtMknod false [] ∅ ∅ []) eq_refl)|].
  apply (rtc_l _ _ (mkWorld AtDup1 true [c] ∅ ∅ [])); [exact (i_open (mkWorld AtOpen2 true [] ∅ ∅ []) (or_intror eq_refl) eq_refl)|].
  apply (rtc_l _ _ (mkWorld AtDup2 true [c; c] ∅ ∅ [])); [exact (i_dup (mkWorld AtDup1 true [c] ∅ ∅ []) c [] (or_introl eq_refl) eq_refl)|].
  apply (rtc_l _ _ (mkWorld AtStarting true [c; c; c] ∅ ∅ [])); [exact (i_dup (mkWorld AtDup2 true [c; c] ∅ ∅ []) c [c] (or_intror eq_refl) eq_refl)|].
  apply (rtc_l _ _ (mkWorld AtFork true [c; c; c] ∅ ∅ [])); [exact (i_print (mkWorld AtStarting true [c; c; c] ∅ ∅ []) _ eq_refl)|].
  apply (rtc_l _ _ (mkWorld (AtWait 2) true [c; c; c] ({[2]} ∪ ∅) ∅ [2])); [apply (i_fork (mkWorld AtFork true [c; c; c] ∅ ∅ []) 2); [done|lia|apply not_elem_of_empty|apply not_elem_of_empty]|].
  apply (rtc_l _ _ (mkWorld (AtWait 2) true [c; c; c] k7 ∅ [2])); [refine (i_orphan (mkWorld (AtWait 2) true [c; c; c] ({[2]} ∪ ∅) ∅ [2]) 7 _ _ _); [lia|cbn [i_children]; set_solver|apply not_elem_of_empty]|].
  apply (rtc_l _ _ (mkWorld (AtWait 2) true [c; c; c] k2 ({[7]} ∪ ∅) [2])); [exact (i_exits (mkWorld (AtWait 2) true [c; c; c] k7 ∅ [2]) 7 (proj1 H7))|].
  apply rtc_once. exact (i_exits (mkWorld (AtWait 2) true [c; c; c] k2 ({[7]} ∪ ∅) [2]) 2 (proj2 H7)).
Qed.

